(* ===== verification/_CoqProject ===== *)
-Q . S2P
Prelude.v
DsmType.v
Slabs.v
SlabsInv.v
SlabCalls.v
SlabInit.v
SlabHeap.v
Wire.v
Directory.v
DdrInst.v
DirLock.v
CacheCtrl.v
Coherence.v
Net.v
Qdma.v
HostMsg.v
Ring.v
HostSync.v
GlobalMem.v
HostLine.v
HostLogic.v
CacheSet.v
CacheAccess.v
Agent.v
HostRace.v
DsmAccess.v
SlabBoot.v
DbStore.v
DbFlat.v
DbDsm.v
DbArray.v
DbIndex.v
DbSchema.v
DbTable.v
DbTxn.v
DbReplay.v
DbSerial.v
DbInterleave.v
TpccBase.v
TpccSchemas.v
TpccProcs.v
TpccAlone.v
TpccPopulator.v
TpccPayment.v
TpccNewOrder.v
TpccBatch.v
TpccExec.v
TpccCluster.v
TpccSync.v
TpccRandom.v
TpccRows.v
TpccSource.v
TpccRun.v
Utils.v
