(* ===== verification/Prelude.v ===== *)
(** * Ting: a verification development

    Ting is a distributed shared memory.  Each node keeps a part of the global memory in
    blocks of 4096 bytes (gblocks) and caches the blocks of all nodes in lines of that
    size.  A directory for the node's blocks, the network interface and the message
    queues are in the FPGA (src/hard_multi_node/hls/highPara/src); the cache, the
    allocators and the interface to the application are C++ threads on the host
    (src/soft_multi_node).  The host and the FPGA exchange 64-byte messages over QDMA.

    ** The parts, and the files that model them

    The FPGA.  Every HLS module is a function called once per cycle; it is modelled as a
    function from its registers and input streams to the new ones, [None] being
    undefined behaviour (an index out of range, a read of an empty stream).

    - [DsmType]: the enumerations, constants and structures of dsm_type and utils.hpp.
    - [Wire]: the codecs of utils.cpp between structures and network, host and DRAM beats.
    - [Directory]: dirCtrlHLS_to_net, the directory's message handler with its fan-out of
      invalidations, and what it does to the entry of a block ([dir_handle]).
    - [DdrInst]: the four DRAM ports through which the directory reads and writes entries.
    - [DirLock]: dirCtrlHLS_from_net, which admits one request per block at a time.
    - [CacheCtrl]: the two cache controllers, which answer probes for the node.
    - [Coherence]: the closed loop of one block: directory, network and the nodes that
      cache it, as a step relation built from the handlers above.
    - [Net]: parser, deparser, ctrlMsgCopy and dataMsgFetch.
    - [Qdma]: the modules between the controllers and the QDMA engine.

    The host.

    - [HostMsg]: RawMessageConnection.h, the packed message and its words.
    - [Ring]: ring_buffer.h and the receives of channel_context.h, together with the
      buffer managers of [Qdma] that fill the rings.
    - [Slabs]: slabs.h and slabs.cpp, the allocator of ring buffers, blocks and line
      buffers, in an error monad over the allocator, its items and the memory.
    - [SlabsInv], [SlabCalls], [SlabInit], [SlabHeap]: its invariant, the abstract heap and
      the calls against it, slabs_init, and the refinement.
    - [HostSync]: WRLock.h and spinlock.h as automata of atomic accesses.
    - [GlobalMem]: GlobalAddress.h, GlobalAllocator.h, LocalAllocator.h, the allocation
      requests of CacheAgent.cpp and Cache::malloc.
    - [HostLine]: Cache.h; the lines, the shared state of a node's cache, and a monad for
      the computations of a thread.  A computation is a function of the shared state, the
      thread-local state and the list of what the others do between its accesses; it
      returns, waits for ever, or fails.
    - [HostLogic]: the rely-guarantee rules for these computations ([wp]), and
      [agent_step], what agents do to lines, the interface between [Agent] and
      [CacheAccess].
    - [CacheSet]: initLine, calLineSet, findLine, findShadowLine, newLine,
      findLineForAgent of Cache.cpp.
    - [CacheAccess]: start_evict, wait_evict, readMiss, writeMiss, writeShared, readLine
      and writeLine of Cache.cpp.
    - [Agent]: agentThread of CacheAgent.cpp.
    - [HostRace]: executions in which readers, agents and DMA interleave.
    - [DsmAccess]: Config.h, the start of a node and DSM::read and DSM::write over an
      interface ([LineStore]) that [readLine] and [writeLine] implement.
    - [SlabBoot]: how node_resource and DSM divide the pool of a node, and the blocks and
      buffers that the slab allocators return at the start.

    The database on top of the memory (src/soft_multi_node/database).

    - [DbStore]: the memory as the database sees it.  [GAlloc] lists the methods of [DSM]
      that it calls, [GHeap] states what they promise (blocks that do not overlap), and
      the storage structures are proved against that interface, in an error monad over an
      abstract memory.
    - [DbFlat], [DbDsm]: two implementations of the interface: a flat memory, and the
      caches and allocators of [DsmAccess] and [GlobalMem].
    - [DbArray], [DbIndex], [DbSchema], [DbTable]: GAddrArray.h; HashIndex.h and its
      buckets; columns, schemas and records; tables and the storage manager.
    - [DbTxn]: TransactionManager.h with two-phase locking and for one thread.  [DbSerial]:
      the system of threads in which a step is a whole call of the manager, for the manager
      without locks.  [DbReplay], [DbInterleave]: the system in which a step is one call of
      [DSM] (a read, a write, a lock, an unlock), so that threads interleave inside the
      searches, the commits and the aborts; a call of the manager is replayed over the answers
      that it has had.
    - [TpccBase], [TpccSchemas]: constants, doubles, scale and keys of the benchmark; its
      schemas and the storage that the master makes.
    - [TpccRandom], [TpccPopulator], [TpccRows]: the random generators, the insertion of a
      row, and the populator.
    - [TpccProcs]: the five stored procedures.  [TpccAlone], [TpccPayment], [TpccNewOrder]:
      the rules for a thread that runs alone, and two procedures against references that
      say which records change.
    - [TpccBatch], [TpccSource], [TpccExec]: TxnParam.h and IORedirector.h; the source of
      the parameters; the worker loop of TransactionExecutor.h with its retries.
    - [TpccCluster], [TpccSync]: ClusterConfig.h and its file; ClusterSync.h over a store of
      keys.
    - [TpccRun]: main of TpccBenchmarkMain.cpp, from its first fence to its last.
    - [Utils]: murmur2 and xxHash of Hash.h, FastRandom.h and the shift register of
      utils.cpp, which no other code calls.

    This file holds what all of them share: record update, machine integers and bit
    slices, arrays with bounds, step relations with their invariant rule, counting.

    ** What the theorems show

    - Coherence of a block: the directory's handlers implement an abstract protocol
      ([Directory.dir_handle_refines]); the closed loop implements single-writer
      many-readers ([Coherence.coherence_refines]), a dirty copy is the only one, the
      replica count is exact, a write is granted only when no other copy is left, and
      every transaction ends.
    - Admission: one request per block, in order, no request is lost
      ([DirLock.lock_exclusive], [lock_fifo], [lock_admits], [lock_drains]).
    - Transport: round trips of the codecs, every message reaches the controller that
      handles it, rings and arbiters deliver in order and drain.
    - Slabs: every call does what an abstract heap says and keeps the invariant
      ([SlabHeap.slab_refines]); the blocks and buffers of a node are disjoint pages of
      its pool, which makes the first state of the cache well-formed
      ([SlabBoot.node_boot]).
    - Host: the locks exclude, allocated blocks are disjoint, tags name lines; a set of
      the cache stays well-formed under newLine whatever the transactions under way do
      ([CacheSet.newLine_preserves]); a miss or an eviction ends and never loses the mark
      of an agent ([CacheAccess.read_miss_settles], [evict_completes]); an agent changes
      one line by one [agent_step] ([Agent.agent_serves]); DSM::read and DSM::write are a
      flat memory on resident lines ([DsmAccess.resident_flat_memory]).
    - Storage: the caches and allocators of a node give the blocks that the database
      relies on ([DbDsm.dsm_implements_blocks]); the index is a map from keys to lists of
      addresses ([DbIndex.index_refines]), and every node reads the tables that the master
      wrote ([DbTable.storage_shared], [TpccSchemas.tpcc_storage]).
    - Transactions: with two-phase locking every run of the system of threads has the
      effect of its committed transactions one after the other, with a turn for each call
      of [DSM] ([DbInterleave.two_phase_serialisable]); the manager without locks is serial
      with one thread ([DbSerial.one_thread_serial]) and loses updates with two
      ([lost_update]).
    - Benchmark: keys of different rows differ ([TpccBase.keys_distinct]); the populator
      stores every row ([TpccRows.populate_complete]); the source deals each thread
      transactions of its own warehouses ([TpccSource.source_partitioned]); payment and
      new order do what their references say; a worker thread ends and bounds its retries
      ([TpccExec.executor_bounded]); a fence is a barrier of the cluster and does not deadlock
      ([TpccSync.fence_barrier]); and on one node with one thread all of main, from an empty
      memory, executes every generated transaction at the first attempt
      ([TpccRun.benchmark_runs]).
    - Defects of the code, proved on the same definitions: a deadlock of refused
      evictions, a read of a line that changes hands, a race of spinlock_rw, starvation in
      the QDMA arbiter, an unlock of a lock never taken, a reallocation that copies nothing.

    ** Bounds and fuel

    Integers are [Z] with their wrap-around written out.  The loops of the FPGA modules
    have constant bounds.  On the host, a loop that waits is the recursion of [await] over
    the list of what the others do; a loop over messages is bounded by the messages still
    to come, after which the code waits for ever in recv_msg, and so does the model.  The
    outer loop of readLine and writeLine has a fuel, one turn being enough for a line in
    the cache ([resident_flat_memory] holds for every positive fuel); the loops of
    DSM::read and DSM::write take one turn per line and the fuel given is the number of
    bytes plus one.  The loops of the slab allocator go over the 201 classes, with a fuel
    of one more.  Its invariant holds for regions of at most 2^37 bytes, which keeps its
    32-bit counters from wrapping; a node has at most 5000000 blocks of 4096 bytes.  The
    growth factor of slabs_init, a double, is a fraction with exact products; DSMConfig
    sets it to one.

    A walk along the buckets of the index has a fuel, and the number of its entries is
    enough; the loop of retries needs ten turns, after which the code gives up; a loop that
    draws until a number is new needs [2 * K] turns when every pair of numbers comes up
    within [K] pairs of draws ([TpccRandom.fair], which a concrete stream satisfies).  A
    double is a [spec_float] of 53 bits, with the operations of IEEE 754.  What is never
    assigned holds bytes that a parameter ([Indeterminate]) gives.

    ** Not modelled

    The DRAM and QDMA engines, the network and the operating system are parameters or
    steps of the systems.  Memory orders weaker than sequential consistency are not
    modelled.  Statistics, timeouts that only print, register set-up, NUMA code, the start
    of threads, the command line, the tests, the Chisel shell around the HLS modules and the
    vendored libraries are left out.  The calls of one slab allocator are modelled one after
    the other, since they hold its lock.  PRIMITIVE_ALLOC and its replies are not declared
    in RawMessageType, so that only their handlers are modelled, not their numbers.  WLock,
    Put and Get of DSM.h throw, so that as it stands the code stops at its first fence and
    cannot insert into an index ([TpccRun.benchmark_throws]): the theorems on the populator,
    the fences and main take a bucket lock that is granted and a store of keys that answers.
    The record locks of DSM.h are functions that return at once: two-phase locking is proved
    for locks that exclude ([DbInterleave.ExclusiveLocks]). *)
From stdpp Require Import base numbers list list_numbers gmap option relations.
From Stdlib Require Export ZArith Lia.

#[export] Set Default Goal Selector "!".
Open Scope Z_scope.

(** ** Record update

    [r <| f := x |>] is the record [r] with field [f] replaced.  A record type
    declares its eta expansion once as an instance of [Eta]; setters are then
    computed from it. *)

Class Eta (R : Type) := eta_expand : R → R.

Class Setter {R T : Type} (proj : R → T) := set_field : T → R → R.
Arguments set_field {R T} proj {_} _ _.

Ltac solve_setter :=
  lazymatch goal with
  | |- @Setter ?R ?T ?proj =>
      let x := fresh "x" in
      let r := fresh "r" in
      refine (fun (x : T) (r : R) => _);
      let e := eval hnf in (@eta_expand R _ r) in
      let p := eval pattern (proj r) in e in
      lazymatch p with
      | ?f _ => let v := eval cbv beta in (f x) in exact v
      end
  end.

#[export] Hint Extern 0 (Setter _) => solve_setter : typeclass_instances.

Declare Scope dsm_scope.
Delimit Scope dsm_scope with dsm.
Notation "r <| f := x |>" := (set_field f x r)
  (at level 1, left associativity, f at level 200, x at level 200,
   format "r  <| f  :=  x |>") : dsm_scope.
#[export] Set Warnings "-notation-overridden".
Open Scope dsm_scope.

(** ** Machine integers and bit vectors

    An [ap_uint<w>] value and a C unsigned integer of [w] bits are both a [Z]
    in [0, 2^w); [wrap w] is the conversion of an integer to that type. *)

Definition wrap (w x : Z) : Z := x mod 2 ^ w.

(** The conversion of an integer to [int]. *)
Definition to_int (v : Z) : Z := wrap 32 (v + 2 ^ 31) - 2 ^ 31.

(** [fits w x]: [x] is a value of a [w]-bit unsigned type. *)
Definition fits (w x : Z) : Prop := 0 ≤ x < 2 ^ w.

(** Reading [v(hi, lo)] and assigning [v(hi, lo) = x] for a bit vector [v] of
    type [ap_uint<w>].  Bits of the slice at or above [w] do not exist. *)
Definition get_range (v hi lo : Z) : Z := Z.shiftr v lo mod 2 ^ (hi - lo + 1).

Definition set_range (w v hi lo x : Z) : Z :=
  let mask := Z.shiftl (Z.ones (hi - lo + 1)) lo in
  wrap w (Z.lor (Z.ldiff v mask) (Z.land (Z.shiftl x lo) mask)).

(** ** Arrays

    A C array is a list; an access out of range is undefined behaviour in the
    source, which is [None] here. *)
Section arrays.
Context {A : Type}.

Definition arr_get (l : list A) (i : Z) : option A :=
  if i <? 0 then None else l !! Z.to_nat i.

Definition arr_set (l : list A) (i : Z) (x : A) : option (list A) :=
  if (0 <=? i) && (i <? Z.of_nat (length l))
  then Some (<[Z.to_nat i := x]> l) else None.

(** ** Streams: [hls::stream<T>] is a FIFO, [empty()], [read()], [<<]. *)
Definition is_empty (s : list A) : bool := match s with [] => true | _ => false end.

Definition push (s : list A) (x : A) : list A := s ++ [x].
End arrays.

(** [for(int i = 0; i < n; i++) acc = body(acc, i)] *)
Definition for_loop {A} (n : Z) (body : A → Z → A) (acc : A) : A :=
  foldl body acc (seqZ 0 n).

(** ** Transition systems *)
Section invariants.
Context {S : Type} (init : S → Prop) (step : S → S → Prop).

Definition reachable (s : S) : Prop := ∃ s0, init s0 ∧ rtc step s0 s.

(** An inductive invariant holds in every reachable state. *)
Lemma reachable_ind_inv (P : S → Prop) :
  (∀ s, init s → P s) → (∀ s s', P s → step s s' → P s') →
  ∀ s, reachable s → P s.
Proof.
  intros Hi Hs s (s0 & H0 & Hr). apply Hi in H0.
  induction Hr; eauto.
Qed.

Lemma reachable_step s s' : reachable s → step s s' → reachable s'.
Proof. intros (s0 & ? & ?) ?. exists s0. split; [done|]. by eapply rtc_r. Qed.
End invariants.

(** [iter_step n f s]: [n] clock cycles of the step function [f]; [None] as soon
    as a cycle has undefined behaviour. *)
Fixpoint iter_step {S} (n : nat) (f : S → option S) (s : S) : option S :=
  match n with
  | O => Some s
  | Datatypes.S n => s' ← f s; iter_step n f s'
  end.

(** ** Automation *)
Create HintDb dsm.

Ltac zbool :=
  repeat match goal with
  | H : (_ =? _) = true |- _ => apply Z.eqb_eq in H
  | H : (_ =? _) = false |- _ => apply Z.eqb_neq in H
  | H : (_ <? _) = true |- _ => apply Z.ltb_lt in H
  | H : (_ <? _) = false |- _ => apply Z.ltb_ge in H
  | H : (_ <=? _) = true |- _ => apply Z.leb_le in H
  | H : (_ <=? _) = false |- _ => apply Z.leb_gt in H
  end.

(** [lia] with quotients and remainders by constants. *)
Ltac divlia := Z.div_mod_to_equations; lia.

(** The computation has returned: its result is the witness. *)
Ltac take_result :=
  match goal with
  | |- ∃ s', ?r = Some s' ∧ _ =>
      let r' := eval hnf in r in
      match r' with Some ?x => exists x; split; [reflexivity|] end
  end.

(** Case analysis on the condition of the first [if] or [match] of the goal. *)
Ltac case_first :=
  match goal with
  | |- context [if ?b then _ else _] => destruct b eqn:?
  | |- context [match ?x with _ => _ end] => destruct x eqn:?
  end.

(** ** Lemmas on machine integers and slices *)

Lemma wrap_fits w x : 0 ≤ w → fits w (wrap w x).
Proof. intros. unfold fits, wrap. apply Z.mod_pos_bound. lia. Qed.

Lemma wrap_small w x : fits w x → wrap w x = x.
Proof. intros. by apply Z.mod_small. Qed.

Lemma to_int_small v : - 2 ^ 31 ≤ v < 2 ^ 31 → to_int v = v.
Proof. intros. unfold to_int. rewrite wrap_small; [lia|]. unfold fits. lia. Qed.

Lemma fits_mono w w' x : w ≤ w' → fits w x → fits w' x.
Proof.
  unfold fits. intros Hw [? Hx]. split; [done|].
  destruct (decide (0 ≤ w)); [|rewrite Z.pow_neg_r in Hx by lia; lia].
  pose proof (Z.pow_le_mono_r 2 w w'). lia.
Qed.

Lemma fits_testbit_high w x i : 0 ≤ w → fits w x → w ≤ i → Z.testbit x i = false.
Proof.
  intros ? Hx ?. rewrite <-(Z.mod_small x (2 ^ w)) by done.
  apply Z.mod_pow2_bits_high. lia.
Qed.

Lemma testbit_wrap w x i :
  0 ≤ w → Z.testbit (wrap w x) i = (i <? w) && Z.testbit x i.
Proof.
  intros. unfold wrap. destruct (Z.ltb_spec i w).
  - by apply Z.mod_pow2_bits_low.
  - apply Z.mod_pow2_bits_high. lia.
Qed.

Lemma testbit_get_range v hi lo i :
  0 ≤ lo → lo ≤ hi + 1 → 0 ≤ i →
  Z.testbit (get_range v hi lo) i = (i <? hi - lo + 1) && Z.testbit v (i + lo).
Proof.
  intros. change (get_range v hi lo) with (wrap (hi - lo + 1) (Z.shiftr v lo)).
  rewrite testbit_wrap by lia. f_equal. by rewrite Z.shiftr_spec.
Qed.

Lemma testbit_set_range w v hi lo x i :
  0 ≤ w → 0 ≤ lo → lo ≤ hi + 1 → 0 ≤ i →
  Z.testbit (set_range w v hi lo x) i =
  (i <? w) && (if (lo <=? i) && (i <=? hi) then Z.testbit x (i - lo)
               else Z.testbit v i).
Proof.
  intros. unfold set_range. rewrite testbit_wrap by lia. f_equal.
  rewrite Z.lor_spec, Z.ldiff_spec, Z.land_spec.
  assert (Z.testbit (Z.shiftl (Z.ones (hi - lo + 1)) lo) i
          = (lo <=? i) && (i <=? hi)) as Hm.
  { rewrite Z.shiftl_spec by lia.
    destruct (Z.leb_spec lo i); simpl.
    - rewrite Z.testbit_ones by lia. destruct (Z.leb_spec i hi); lia.
    - apply Z.testbit_neg_r. lia. }
  rewrite Hm. destruct ((lo <=? i) && (i <=? hi)) eqn:?; simpl.
  - rewrite andb_false_r, andb_true_r. simpl. rewrite Z.shiftl_spec by lia. done.
  - by rewrite andb_true_r, andb_false_r, orb_false_r.
Qed.

Lemma get_range_fits v hi lo n :
  lo ≤ hi + 1 → n = hi - lo + 1 → fits n (get_range v hi lo).
Proof. intros ? ->. apply wrap_fits. lia. Qed.

Lemma get_set_same w v hi lo x :
  0 ≤ lo ≤ hi → hi < w → fits (hi - lo + 1) x →
  get_range (set_range w v hi lo x) hi lo = x.
Proof.
  intros ?? Hx. apply Z.bits_inj'. intros i ?.
  rewrite testbit_get_range, testbit_set_range by lia.
  destruct (Z.ltb_spec i (hi - lo + 1)); simpl.
  - rewrite !(proj2 (Z.ltb_lt _ _)), !(proj2 (Z.leb_le _ _)) by lia. simpl.
    f_equal. lia.
  - symmetry. apply (fits_testbit_high (hi - lo + 1)); [lia|done|lia].
Qed.

Lemma get_set_other w v hi lo hi' lo' x :
  0 ≤ lo ≤ hi → hi < w → 0 ≤ lo' ≤ hi' + 1 → hi < lo' ∨ hi' < lo →
  get_range (set_range w v hi' lo' x) hi lo = get_range v hi lo.
Proof.
  intros. apply Z.bits_inj'. intros i ?.
  rewrite !testbit_get_range, testbit_set_range by lia.
  destruct (Z.ltb_spec i (hi - lo + 1)); simpl; [|done].
  rewrite (proj2 (Z.ltb_lt _ _)) by lia. simpl.
  destruct (Z.leb_spec lo' (i + lo)), (Z.leb_spec (i + lo) hi'); simpl; try done; lia.
Qed.

Lemma set_range_fits w v hi lo x : 0 ≤ w → fits w (set_range w v hi lo x).
Proof. intros. by apply wrap_fits. Qed.

(** A slice one bit too long, assigned a value that leaves that bit zero, is two
    assignments: the extra bit is cleared, then the intended slice is written. *)
Lemma set_range_extra_bit w v hi lo x :
  0 ≤ w → 0 ≤ lo ≤ hi → fits (hi - lo) x →
  set_range w v hi lo x = set_range w (set_range w v hi hi 0) (hi - 1) lo x.
Proof.
  intros ?? Hx. apply Z.bits_inj'. intros i ?.
  rewrite !testbit_set_range by lia.
  destruct (Z.ltb_spec i w); simpl; [|done].
  destruct (Z.leb_spec lo i), (Z.leb_spec i hi), (Z.leb_spec i (hi - 1)),
    (Z.leb_spec hi i); simpl; try lia; try done.
  rewrite Z.testbit_0_l. apply (fits_testbit_high (hi - lo)); [lia|done|lia].
Qed.

Lemma wrap_get_range v hi lo n :
  0 ≤ lo → 0 ≤ n ≤ hi - lo + 1 → wrap n (get_range v hi lo) = get_range v (lo + n - 1) lo.
Proof.
  intros. apply Z.bits_inj'. intros i ?.
  rewrite testbit_wrap, !testbit_get_range by lia.
  destruct (Z.ltb_spec i n), (Z.ltb_spec i (hi - lo + 1)),
    (Z.ltb_spec i (lo + n - 1 - lo + 1)); simpl; try done; lia.
Qed.

Lemma get_range_full w v : 0 ≤ w → fits w v → get_range v (w - 1) 0 = v.
Proof.
  intros. unfold get_range. rewrite Z.shiftr_0_r. apply Z.mod_small.
  by replace (w - 1 - 0 + 1) with w by lia.
Qed.

(** Adjacent slices joined, and a run of equal slices as a little-endian word. *)
Definition le_word (w : Z) (l : list Z) : Z := foldr (λ v acc, v + 2 ^ w * acc) 0 l.

Lemma slice_cat p lo m hi :
  0 ≤ lo ≤ m → m ≤ hi →
  get_range p (m - 1) lo + 2 ^ (m - lo) * get_range p (hi - 1) m = get_range p (hi - 1) lo.
Proof.
  intros. unfold get_range. rewrite !Z.shiftr_div_pow2 by lia.
  replace (m - 1 - lo + 1) with (m - lo) by lia.
  replace (hi - 1 - m + 1) with (hi - m) by lia.
  replace (hi - 1 - lo + 1) with ((m - lo) + (hi - m)) by lia.
  rewrite (Z.pow_add_r 2 (m - lo)) by lia.
  replace (2 ^ m) with (2 ^ lo * 2 ^ (m - lo)) by (rewrite <-Z.pow_add_r by lia; f_equal; lia).
  rewrite <-Z.div_div by (try apply Z.pow_nonzero; try apply Z.pow_pos_nonneg; lia).
  rewrite Z.rem_mul_r; [done|..]; try apply Z.pow_nonzero; try apply Z.pow_pos_nonneg; lia.
Qed.

Lemma le_word_slices w p i n :
  0 ≤ w → 0 ≤ i →
  le_word w ((λ k, get_range p (w * k + (w - 1)) (w * k)) <$> seqZ i (Z.of_nat n)) =
  get_range p (w * (i + Z.of_nat n) - 1) (w * i).
Proof.
  intros Hw. revert i. induction n as [|n IH]; intros i Hi.
  - rewrite Z.add_0_r. cbn. unfold get_range.
    replace (w * i - 1 - w * i + 1) with 0 by lia. rewrite Z.pow_0_r. by rewrite Z.mod_1_r.
  - rewrite seqZ_cons by lia. cbn [fmap list_fmap le_word foldr].
    change (foldr _ 0 ?l) with (le_word w l).
    replace (Z.pred (Z.of_nat (S n))) with (Z.of_nat n) by lia.
    rewrite IH by lia. rewrite <-(slice_cat p (w * i) (w * Z.succ i)) by nia.
    f_equal; [f_equal; lia|]. f_equal; [f_equal; lia|f_equal; lia].
Qed.

(** Reading a slice out of a chain of slice assignments. *)
Ltac slice_side := first [ lia | assumption | done | by (unfold fits in *; lia) ].

Ltac slices :=
  repeat first
    [ rewrite get_set_same by slice_side
    | rewrite get_set_other by slice_side ].

(** ** Lemmas on arrays *)
Lemma arr_get_Some {A} (l : list A) i :
  0 ≤ i < Z.of_nat (length l) → ∃ x, arr_get l i = Some x.
Proof.
  intros. unfold arr_get. rewrite (proj2 (Z.ltb_ge _ _)) by lia.
  apply lookup_lt_is_Some. lia.
Qed.

Lemma arr_get_range {A} (l : list A) i x :
  arr_get l i = Some x → 0 ≤ i < Z.of_nat (length l).
Proof.
  unfold arr_get. destruct (Z.ltb_spec i 0); [done|]. intros ?%lookup_lt_Some. lia.
Qed.

Lemma arr_set_Some {A} (l : list A) i x :
  0 ≤ i < Z.of_nat (length l) → arr_set l i x = Some (<[Z.to_nat i := x]> l).
Proof.
  intros. unfold arr_set.
  by rewrite (proj2 (Z.leb_le _ _)), (proj2 (Z.ltb_lt _ _)) by lia.
Qed.

Lemma arr_set_inv {A} (l l' : list A) i x :
  arr_set l i x = Some l' →
  0 ≤ i < Z.of_nat (length l) ∧ l' = <[Z.to_nat i := x]> l.
Proof.
  unfold arr_set. destruct (Z.leb_spec 0 i); simpl; [|done].
  destruct (Z.ltb_spec i (Z.of_nat (length l))); [|done]. intros [= <-]. by split.
Qed.

Lemma arr_get_set {A} (l l' : list A) i j x :
  arr_set l i x = Some l' →
  arr_get l' j = if j =? i then Some x else arr_get l j.
Proof.
  intros [? ->]%arr_set_inv. unfold arr_get. destruct (Z.ltb_spec j 0).
  - by rewrite (proj2 (Z.eqb_neq _ _)) by lia.
  - destruct (Z.eqb_spec j i) as [->|].
    + apply list_lookup_insert_eq. lia.
    + apply list_lookup_insert_ne. lia.
Qed.

Lemma arr_set_length {A} (l l' : list A) i x :
  arr_set l i x = Some l' → length l' = length l.
Proof. intros [? ->]%arr_set_inv. apply length_insert. Qed.

Lemma arr_get_lookup {A} (l : list A) (i : nat) : arr_get l (Z.of_nat i) = l !! i.
Proof.
  unfold arr_get. rewrite (proj2 (Z.ltb_ge _ _)) by lia. by rewrite Nat2Z.id.
Qed.

(** ** Loops *)
Lemma for_loop_succ {A} n (body : A → Z → A) acc :
  0 ≤ n → for_loop (n + 1) body acc = body (for_loop n body acc) n.
Proof.
  intros. unfold for_loop. rewrite seqZ_app by lia.
  rewrite foldl_app. rewrite Z.add_0_l. done.
Qed.

(** Loop invariant rule. *)
Lemma for_loop_inv {A} (P : Z → A → Prop) n body acc :
  0 ≤ n → P 0 acc →
  (∀ i a, 0 ≤ i < n → P i a → P (i + 1) (body a i)) →
  P n (for_loop n body acc).
Proof.
  intros Hn H0 Hs.
  assert (∀ k, 0 ≤ k → k ≤ n → P k (for_loop k body acc)) as H; [|by apply H].
  intros k Hk. pattern k. apply natlike_ind; [done| |done].
  intros i ? IH ?. unfold Z.succ. rewrite for_loop_succ by lia. apply Hs; [lia|].
  apply IH. lia.
Qed.

Lemma iter_step_app {S} (n k : nat) (f : S → option S) s :
  iter_step (n + k) f s = iter_step n f s ≫= iter_step k f.
Proof. revert s. induction n as [|n IH]; intros s; [done|].
  cbn. destruct (f s); cbn; [apply IH|done].
Qed.

(** A sum in which one summand changes. *)
Lemma sum_list_with_change {A} (f g : A → nat) l x :
  NoDup l → x ∈ l → (∀ y, y ≠ x → f y = g y) →
  (sum_list_with f l + g x = sum_list_with g l + f x)%nat.
Proof.
  intros Hl Hx He. assert (∀ l, x ∉ l → sum_list_with f l = sum_list_with g l) as Hn.
  { induction l0 as [|y l0 IH]; [done|]. rewrite not_elem_of_cons. intros [? ?]. cbn.
    rewrite He by done. by rewrite IH. }
  induction Hl as [|y l Hy Hl IH]; [by apply elem_of_nil in Hx|]. cbn.
  apply elem_of_cons in Hx as [<-|Hx].
  - rewrite (Hn l Hy). lia.
  - rewrite (He y) by (intros ->; done). specialize (IH Hx). lia.
Qed.

(** Counting the elements of an array that satisfy a test, under an update. *)
Fixpoint count_of {A} (P : A → bool) (l : list A) : Z :=
  match l with [] => 0 | x :: l => (if P x then 1 else 0) + count_of P l end.

Lemma count_of_insert {A} (P : A → bool) l i x y :
  l !! i = Some y →
  count_of P (<[i := x]> l) =
  count_of P l - (if P y then 1 else 0) + (if P x then 1 else 0).
Proof.
  revert i. induction l as [|z l IH]; intros i Hi; [done|]. destruct i as [|i]; cbn in *.
  - injection Hi as ->. lia.
  - etransitivity; [apply (f_equal (Z.add _)), (IH i Hi)|lia].
Qed.

Lemma count_of_bounds {A} (P : A → bool) l : 0 ≤ count_of P l ≤ Z.of_nat (length l).
Proof. induction l as [|x l IH]; cbn; [lia|]. destruct (P x); lia. Qed.

Lemma count_of_pos {A} (P : A → bool) l i x : l !! i = Some x → P x = true → 1 ≤ count_of P l.
Proof.
  revert i. induction l as [|y l IH]; intros i Hi HP; [done|].
  pose proof (count_of_bounds P l). destruct i as [|i]; cbn in *.
  - injection Hi as ->. rewrite HP. lia.
  - specialize (IH i Hi HP). destruct (P y); lia.
Qed.

Lemma count_of_two {A} (P : A → bool) l i j x y :
  i ≠ j → l !! i = Some x → l !! j = Some y → P x = true → P y = true → 2 ≤ count_of P l.
Proof.
  revert i j. induction l as [|z l IH]; intros i j Hij Hi Hj Hx Hy; [done|].
  pose proof (count_of_bounds P l). destruct i as [|i], j as [|j]; cbn in *; [done|..].
  - injection Hi as ->. rewrite Hx. pose proof (count_of_pos P l j y Hj Hy). lia.
  - injection Hj as ->. rewrite Hy. pose proof (count_of_pos P l i x Hi Hx). lia.
  - pose proof (IH i j ltac:(lia) Hi Hj Hx Hy). destruct (P z); lia.
Qed.

#[export] Hint Resolve wrap_fits set_range_fits : dsm.


#[export] Hint Opaque wrap get_range set_range : dsm.
Arguments wrap : simpl never.
Arguments get_range : simpl never.
Arguments set_range : simpl never.
Arguments for_loop : simpl never.
