(* ===== verification/DsmType.v ===== *)
(** * DsmType: the data of the FPGA side

    The enumerations of [hls/highPara/src/dsmtype.hpp], the AXI and stream
    payloads of [io.hpp] and the message and directory structures of
    [utils.hpp].  Field names are the source's; where two structures share a
    field name, a short prefix tells them apart ([dd_] for [dir_data], [de_]
    for [dir_data_e], [ni_] for [net_init_msg]).  The [_wf] predicates say that
    every field holds a value of its declared width. *)
From stdpp Require Import base numbers list.
From S2P Require Import Prelude.

(** ** Constants *)
Definition DSM_CACHE_LINE_WIDTH : Z := 12.
Definition DSM_CACHE_LINE_SIZE : Z := Z.shiftl 1 DSM_CACHE_LINE_WIDTH.
Definition max_node_num : Z := 8.
Definition max_appt_num_per_node : Z := 24.
Definition max_syst_num_per_node : Z := 8.
Definition max_msg_num_per_q : Z := 64.
Definition max_msg_length : Z := 64.
Definition PSEUDO_QID_DMF : Z := 2.
Definition PSEUDO_QID_D : Z := 2.
Definition PSEUDO_QID_BMSYS : Z := 1.
Definition PSEUDO_QID_BMAPP : Z := 0.
Definition THREAD_TYPE_APP : Z := 0.
Definition THREAD_TYPE_SYS : Z := 1.
Definition LOCK_BKT_SIZE : Z := 1.
Definition LOCK_BKT_NUM : Z := 256.
Definition LOCK_BKT_WIDTH : Z := 8.
Definition SEND_STAGE_MAC : Z := 0.
Definition SEND_STAGE_CTRL : Z := 1.
Definition SEND_STAGE_DATA : Z := 2.
Definition RECV_STAGE_MAC : Z := 0.
Definition RECV_STAGE_CTRL : Z := 1.
Definition RECV_STAGE_DATA : Z := 2.

(** ** Message types and directory states *)
Inductive RawMessageType :=
| R_READ_MISS | R_WRITE_MISS | R_WRITE_SHARED | R_EVICT_SHARED | R_EVICT_DIRTY
| DIR_2_APP_READ_MISS_ACKDATA | DIR_2_APP_WRITE_MISS_ACKDATA
| DIR_2_APP_WRITE_MISS_SHAREDDATA | DIR_2_APP_WRITE_SHARED_ONLYACK
| DIR_2_APP_EVICT_SHARED_ACK | DIR_2_APP_EVICT_DIRTY_ACK
| DIR_2_APP_M_CHECK_FAIL | DIR_2_APP_BITMAP_CHECK_FAIL
| DIR_2_AGENT_READ_MISS_DIRTY | DIR_2_AGENT_WRITE_MISS_DIRTY
| DIR_2_AGENT_WRITE_MISS_SHARED | DIR_2_AGENT_WRITE_SHARED_NOTONLY
| AGENT_2_DIR_READ_MISS_DIRTY_ACKDATA | AGENT_2_DIR_WRITE_MISS_DIRTY_ACK
| AGENT_2_DIR_WRITE_MISS_SHARED_ACK | AGENT_2_DIR_WRITE_SHARED_NOTONLY_ACK
| AGENT_2_DIR_M_CHECK_FAIL
| AGENT_2_APP_READ_MISS_DIRTY_ACKDATA | AGENT_2_APP_WRITE_MISS_DIRTY_ACKDATA
| DIR_2_APP_WRITE_MISS_SHARED_AGGACK_ACK
| DIR_2_APP_WRITE_SHARED_NOTONLY_AGGACK_ACK
| INIT_DIR | INIT_NET.

Definition mtype_val (t : RawMessageType) : Z :=
  match t with
  | R_READ_MISS => 1 | R_WRITE_MISS => 2 | R_WRITE_SHARED => 3
  | R_EVICT_SHARED => 4 | R_EVICT_DIRTY => 5
  | DIR_2_APP_READ_MISS_ACKDATA => 11 | DIR_2_APP_WRITE_MISS_ACKDATA => 12
  | DIR_2_APP_WRITE_MISS_SHAREDDATA => 13 | DIR_2_APP_WRITE_SHARED_ONLYACK => 14
  | DIR_2_APP_EVICT_SHARED_ACK => 15 | DIR_2_APP_EVICT_DIRTY_ACK => 16
  | DIR_2_APP_M_CHECK_FAIL => 17 | DIR_2_APP_BITMAP_CHECK_FAIL => 18
  | DIR_2_AGENT_READ_MISS_DIRTY => 21 | DIR_2_AGENT_WRITE_MISS_DIRTY => 22
  | DIR_2_AGENT_WRITE_MISS_SHARED => 23 | DIR_2_AGENT_WRITE_SHARED_NOTONLY => 24
  | AGENT_2_DIR_READ_MISS_DIRTY_ACKDATA => 31
  | AGENT_2_DIR_WRITE_MISS_DIRTY_ACK => 32
  | AGENT_2_DIR_WRITE_MISS_SHARED_ACK => 33
  | AGENT_2_DIR_WRITE_SHARED_NOTONLY_ACK => 34
  | AGENT_2_DIR_M_CHECK_FAIL => 35
  | AGENT_2_APP_READ_MISS_DIRTY_ACKDATA => 41
  | AGENT_2_APP_WRITE_MISS_DIRTY_ACKDATA => 42
  | DIR_2_APP_WRITE_MISS_SHARED_AGGACK_ACK => 51
  | DIR_2_APP_WRITE_SHARED_NOTONLY_AGGACK_ACK => 52
  | INIT_DIR => 53 | INIT_NET => 54
  end.
Coercion mtype_val : RawMessageType >-> Z.

(** The enumerator with a given value: the [switch] on an [mtype] field. *)
Definition mtype_of (z : Z) : option RawMessageType :=
  match z with
  | 1 => Some R_READ_MISS | 2 => Some R_WRITE_MISS | 3 => Some R_WRITE_SHARED
  | 4 => Some R_EVICT_SHARED | 5 => Some R_EVICT_DIRTY
  | 11 => Some DIR_2_APP_READ_MISS_ACKDATA
  | 12 => Some DIR_2_APP_WRITE_MISS_ACKDATA
  | 13 => Some DIR_2_APP_WRITE_MISS_SHAREDDATA
  | 14 => Some DIR_2_APP_WRITE_SHARED_ONLYACK
  | 15 => Some DIR_2_APP_EVICT_SHARED_ACK | 16 => Some DIR_2_APP_EVICT_DIRTY_ACK
  | 17 => Some DIR_2_APP_M_CHECK_FAIL | 18 => Some DIR_2_APP_BITMAP_CHECK_FAIL
  | 21 => Some DIR_2_AGENT_READ_MISS_DIRTY
  | 22 => Some DIR_2_AGENT_WRITE_MISS_DIRTY
  | 23 => Some DIR_2_AGENT_WRITE_MISS_SHARED
  | 24 => Some DIR_2_AGENT_WRITE_SHARED_NOTONLY
  | 31 => Some AGENT_2_DIR_READ_MISS_DIRTY_ACKDATA
  | 32 => Some AGENT_2_DIR_WRITE_MISS_DIRTY_ACK
  | 33 => Some AGENT_2_DIR_WRITE_MISS_SHARED_ACK
  | 34 => Some AGENT_2_DIR_WRITE_SHARED_NOTONLY_ACK
  | 35 => Some AGENT_2_DIR_M_CHECK_FAIL
  | 41 => Some AGENT_2_APP_READ_MISS_DIRTY_ACKDATA
  | 42 => Some AGENT_2_APP_WRITE_MISS_DIRTY_ACKDATA
  | 51 => Some DIR_2_APP_WRITE_MISS_SHARED_AGGACK_ACK
  | 52 => Some DIR_2_APP_WRITE_SHARED_NOTONLY_AGGACK_ACK
  | 53 => Some INIT_DIR | 54 => Some INIT_NET
  | _ => None
  end.

Inductive RawState :=
  S_UNSHARED | S_SHARED | S_DIRTY | S_TO_UNSHARED | S_TO_SHARED | S_TO_DIRTY.

Definition state_val (s : RawState) : Z :=
  match s with
  | S_UNSHARED => 0 | S_SHARED => 1 | S_DIRTY => 2
  | S_TO_UNSHARED => 3 | S_TO_SHARED => 4 | S_TO_DIRTY => 5
  end.
Coercion state_val : RawState >-> Z.

Definition state_of (z : Z) : option RawState :=
  match z with
  | 0 => Some S_UNSHARED | 1 => Some S_SHARED | 2 => Some S_DIRTY
  | 3 => Some S_TO_UNSHARED | 4 => Some S_TO_SHARED | 5 => Some S_TO_DIRTY
  | _ => None
  end.

#[export] Instance RawMessageType_eq_dec : EqDecision RawMessageType.
Proof. solve_decision. Defined.
#[export] Instance RawState_eq_dec : EqDecision RawState.
Proof. solve_decision. Defined.

(** ** Structures of [utils.hpp] *)
Record ctrl_msg := mk_ctrl_msg {
  mtype : Z;
  req_cline_nodeID : Z;
  req_cline_appThreadID : Z;
  req_cline_addr : Z;
  req_cline_index : Z;
  cline_tag : Z;
  agent_cline_nodeID : Z;
  agent_cline_addr : Z;
  dir_gblock_addr : Z;
  dir_gblock_index : Z;
  dir_gblock_bitmap : list Z;
  dir_gblock_nodeID : Z;
  general_c2h_owner : Z;
  init_state : Z;
  init_mac : Z;
  data_msg_length : Z;
  dst_thread_type : Z;
  dst_node_id : Z;
  lock_position : Z;
}.
#[export] Instance eta_ctrl_msg : Eta ctrl_msg := fun r =>
  mk_ctrl_msg (mtype r) (req_cline_nodeID r) (req_cline_appThreadID r)
    (req_cline_addr r) (req_cline_index r) (cline_tag r) (agent_cline_nodeID r)
    (agent_cline_addr r) (dir_gblock_addr r) (dir_gblock_index r)
    (dir_gblock_bitmap r) (dir_gblock_nodeID r) (general_c2h_owner r)
    (init_state r) (init_mac r) (data_msg_length r) (dst_thread_type r)
    (dst_node_id r) (lock_position r).

(** A local [struct_ctrl_msg] is uninitialised except for [data_msg_length],
    which has an initialiser; [junk] stands for the indeterminate contents. *)
Definition new_ctrl_msg (junk : ctrl_msg) : ctrl_msg :=
  junk <| data_msg_length := 0 |>.

(** A message whose fields are all zero. *)
Definition ctrl_msg_zero : ctrl_msg :=
  mk_ctrl_msg 0 0 0 0 0 0 0 0 0 0 [0; 0; 0; 0; 0; 0; 0; 0] 0 0 0 0 0 0 0 0.

Record dir_ack := mk_dir_ack { ack : Z }.
Record dir_cmd := mk_dir_cmd { cmd_dir_gblock_index : Z }.

Record dir_data := mk_dir_data {
  dd_gblock_addr : Z;
  dd_gblock_index : Z;
  dd_gblock_bitmap : list Z;
  dd_state : Z;
  dd_replica_count : Z;
}.

Record dir_data_e := mk_dir_data_e {
  de_gblock_addr : Z;
  de_gblock_index : Z;
  de_gblock_bitmap : list Z;
  de_state : Z;
  de_replica_count : Z;
  de_agent_cline_addr : list Z;
}.
#[export] Instance eta_dir_data_e : Eta dir_data_e := fun r =>
  mk_dir_data_e (de_gblock_addr r) (de_gblock_index r) (de_gblock_bitmap r)
    (de_state r) (de_replica_count r) (de_agent_cline_addr r).

Record net_init_msg := mk_net_init_msg { ni_node_id : Z; ni_node_mac : Z }.
Record data_msg := mk_data_msg { dm_data : Z; dm_keep : Z; dm_last : Z }.

(** ** Structures of [io.hpp] *)
Record net_rxtx := mk_net_rxtx { net_data : Z; net_keep : Z; net_last : Z }.
#[export] Instance eta_net_rxtx : Eta net_rxtx := fun r =>
  mk_net_rxtx (net_data r) (net_keep r) (net_last r).

Record ddr_aw := mk_ddr_aw {
  awaddr : Z; awburst : Z; awcache : Z; awid : Z; awlen : Z;
  awlock : Z; awprot : Z; awqos : Z; awsize : Z;
}.
Record ddr_w := mk_ddr_w { ddr_wdata : Z; ddr_wlast : Z; ddr_wstrb : Z }.
#[export] Instance eta_ddr_w : Eta ddr_w := fun r =>
  mk_ddr_w (ddr_wdata r) (ddr_wlast r) (ddr_wstrb r).
Record ddr_ar := mk_ddr_ar {
  araddr : Z; arburst : Z; arcache : Z; arid : Z; arlen : Z;
  arlock : Z; arprot : Z; arqos : Z; arsize : Z;
}.
Record ddr_r := mk_ddr_r { ddr_rdata : Z; ddr_rlast : Z; ddr_rresp : Z; ddr_rid : Z }.
Record ddr_b := mk_ddr_b { ddr_bresp : Z; ddr_bid : Z }.
Record h2c_cmd := mk_h2c_cmd { h2c_addr : Z; h2c_len : Z; h2c_qid : Z }.
#[export] Instance eta_h2c_cmd : Eta h2c_cmd := fun r =>
  mk_h2c_cmd (h2c_addr r) (h2c_len r) (h2c_qid r).
Record h2c_data := mk_h2c_data { h2c_dat : Z; h2c_tuser_qid : Z; h2c_last : Z }.
Record c2h_cmd := mk_c2h_cmd { c2h_addr : Z; c2h_len : Z; c2h_qid : Z }.
#[export] Instance eta_c2h_cmd : Eta c2h_cmd := fun r =>
  mk_c2h_cmd (c2h_addr r) (c2h_len r) (c2h_qid r).
Record c2h_data := mk_c2h_data { c2h_dat : Z; c2h_ctrl_qid : Z; c2h_last : Z }.
#[export] Instance eta_c2h_data : Eta c2h_data := fun r =>
  mk_c2h_data (c2h_dat r) (c2h_ctrl_qid r) (c2h_last r).
Record h2c_w := mk_h2c_w { h2c_wdata : Z; h2c_wlast : Z; h2c_wstrb : Z }.
#[export] Instance eta_h2c_w : Eta h2c_w := fun r =>
  mk_h2c_w (h2c_wdata r) (h2c_wlast r) (h2c_wstrb r).

(** ** Well-formedness: every field is a value of its type *)
Definition bytes8 (l : list Z) : Prop := length l = 8%nat ∧ Forall (fits 8) l.
Definition words8 (l : list Z) : Prop := length l = 8%nat ∧ Forall (fits 64) l.

Record ctrl_msg_wf (m : ctrl_msg) : Prop := {
  wf_mtype : fits 8 (mtype m);
  wf_req_node : fits 8 (req_cline_nodeID m);
  wf_req_thread : fits 8 (req_cline_appThreadID m);
  wf_req_addr : fits 64 (req_cline_addr m);
  wf_req_index : fits 32 (req_cline_index m);
  wf_tag : fits 64 (cline_tag m);
  wf_agent_node : fits 8 (agent_cline_nodeID m);
  wf_agent_addr : fits 64 (agent_cline_addr m);
  wf_dir_addr : fits 64 (dir_gblock_addr m);
  wf_dir_index : fits 32 (dir_gblock_index m);
  wf_bitmap : bytes8 (dir_gblock_bitmap m);
  wf_dir_node : fits 8 (dir_gblock_nodeID m);
  wf_owner : fits 8 (general_c2h_owner m);
  wf_init_state : fits 8 (init_state m);
  wf_init_mac : fits 48 (init_mac m);
  wf_data_len : fits 16 (data_msg_length m);
  wf_dst_type : fits 8 (dst_thread_type m);
  wf_dst_node : fits 8 (dst_node_id m);
  wf_lock_pos : fits 8 (lock_position m);
}.

Record dir_data_e_wf (d : dir_data_e) : Prop := {
  wf_de_addr : fits 64 (de_gblock_addr d);
  wf_de_index : fits 32 (de_gblock_index d);
  wf_de_bitmap : bytes8 (de_gblock_bitmap d);
  wf_de_state : fits 8 (de_state d);
  wf_de_count : fits 8 (de_replica_count d);
  wf_de_agents : words8 (de_agent_cline_addr d);
}.

(** ** Lemmas *)
Lemma mtype_of_val (t : RawMessageType) : mtype_of t = Some t.
Proof. by destruct t. Qed.

Lemma mtype_of_Some z (t : RawMessageType) : mtype_of z = Some t → z = t.
Proof.
  destruct z as [|p|p]; try done.
  repeat (destruct p as [p|p|]; try done; try by intros [= <-]).
Qed.

Lemma state_of_val (s : RawState) : state_of s = Some s.
Proof. by destruct s. Qed.

Lemma state_of_Some z (s : RawState) : state_of z = Some s → z = s.
Proof.
  destruct z as [|p|p]; try done; [by intros [= <-]|].
  repeat (destruct p as [p|p|]; try done; try by intros [= <-]).
Qed.

Lemma bytes8_inv l :
  bytes8 l → ∃ b0 b1 b2 b3 b4 b5 b6 b7, l = [b0; b1; b2; b3; b4; b5; b6; b7] ∧
    fits 8 b0 ∧ fits 8 b1 ∧ fits 8 b2 ∧ fits 8 b3 ∧ fits 8 b4 ∧ fits 8 b5 ∧
    fits 8 b6 ∧ fits 8 b7.
Proof.
  intros [Hl Hf]. do 8 (destruct l as [|? l]; [done|]). destruct l; [|done].
  rewrite !Forall_cons in Hf. do 8 eexists. split; [done|]. tauto.
Qed.

Lemma words8_inv l :
  words8 l → ∃ b0 b1 b2 b3 b4 b5 b6 b7, l = [b0; b1; b2; b3; b4; b5; b6; b7] ∧
    fits 64 b0 ∧ fits 64 b1 ∧ fits 64 b2 ∧ fits 64 b3 ∧ fits 64 b4 ∧ fits 64 b5 ∧
    fits 64 b6 ∧ fits 64 b7.
Proof.
  intros [Hl Hf]. do 8 (destruct l as [|? l]; [done|]). destruct l; [|done].
  rewrite !Forall_cons in Hf. do 8 eexists. split; [done|]. tauto.
Qed.

(** Computes field accesses through chains of record updates, and nothing else. *)
Ltac rsimpl :=
  cbv beta iota zeta delta [set_field
    mtype req_cline_nodeID req_cline_appThreadID req_cline_addr req_cline_index
    cline_tag agent_cline_nodeID agent_cline_addr dir_gblock_addr dir_gblock_index
    dir_gblock_bitmap dir_gblock_nodeID general_c2h_owner init_state init_mac
    data_msg_length dst_thread_type dst_node_id lock_position
    de_gblock_addr de_gblock_index de_gblock_bitmap de_state de_replica_count
    de_agent_cline_addr net_data net_keep net_last ddr_wdata ddr_wlast ddr_wstrb
    ddr_rdata h2c_addr h2c_len h2c_qid c2h_addr c2h_len c2h_qid c2h_dat
    c2h_ctrl_qid c2h_last h2c_wdata h2c_wlast h2c_wstrb].
