(* ===== verification/Slabs.v ===== *)
(** * Slabs: the slab allocator, [slabs.h], [slabs.cpp]

    [SlabAllocator] hands out the buffers of the receive rings, the blocks of the global
    memory and the buffers of the cache lines.  It cuts pages of 4096 bytes off its
    region, splits each into chunks of one size class, and keeps a free list per class,
    threaded through records ([item]) that live outside the region; [stats_map] leads
    from the address of a chunk to its record.  The calls of one allocator take its lock,
    so that they are modelled one after the other. *)
From S2P Require Import Prelude DsmType.
From stdpp Require Import base numbers option list list_numbers gmap relations.
Open Scope Z_scope.

(** ** Data *)
Definition POWER_SMALLEST : Z := 1.
Definition POWER_LARGEST : Z := 200.
Definition CHUNK_ALIGN_BYTES : Z := 8.
Definition MAX_NUMBER_OF_SLAB_CLASSES : Z := POWER_LARGEST + 1.
Definition ITEM_SLABBED : Z := 4.
Definition NULL : Z := 0.

(** [slots] is the first free item, [slab_list] the pages of the class. *)
Record slabclass_t := mk_slabclass {
  sc_size : Z;
  sc_perslab : Z;
  sc_slots : Z;
  sc_sl_curr : Z;
  sc_slabs : Z;
  sc_slab_list : list Z;
  sc_list_size : Z;
  sc_killing : Z;
  sc_requested : Z;
}.
#[export] Instance eta_slabclass : Eta slabclass_t := fun r =>
  mk_slabclass (sc_size r) (sc_perslab r) (sc_slots r) (sc_sl_curr r) (sc_slabs r)
    (sc_slab_list r) (sc_list_size r) (sc_killing r) (sc_requested r).

Record item := mk_item {
  it_next : Z;
  it_prev : Z;
  it_size : Z;
  it_flags : Z;
  it_clsid : Z;
  it_data : Z;
}.
#[export] Instance eta_item : Eta item := fun r =>
  mk_item (it_next r) (it_prev r) (it_size r) (it_flags r) (it_clsid r) (it_data r).

(** The members of [SlabAllocator], with the records allocated by [new item()], the next
    address that [new] returns, and the memory, byte by byte. *)
Record allocator := mk_allocator {
  slabclass : list slabclass_t;
  mem_limit : Z;
  mem_malloced : Z;
  power_largest : Z;
  mem_base : Z;
  mem_current : Z;
  mem_avail : Z;
  mem_free : Z;
  stats_map : gmap Z Z;
  use_prealloc_addr : bool;
  lock_ : bool;
  items : gmap Z item;
  next_item : Z;
  ram : Z → Z;
}.
#[export] Instance eta_allocator : Eta allocator := fun r =>
  mk_allocator (slabclass r) (mem_limit r) (mem_malloced r) (power_largest r) (mem_base r)
    (mem_current r) (mem_avail r) (mem_free r) (stats_map r) (use_prealloc_addr r) (lock_ r)
    (items r) (next_item r) (ram r).

(** The members that are never assigned. *)
Definition SB_PREFIX_SIZE : Z := 0.
Definition chunk_size : Z := 48.
Definition item_size_max : Z := DSM_CACHE_LINE_SIZE.
Definition slab_reassign : bool := true.

Definition zero_class : slabclass_t := mk_slabclass 0 0 NULL 0 0 [] 0 0 0.

(** [SlabAllocator()]; the members without an initial value are given. *)
Definition new_SlabAllocator (cl : list slabclass_t) (pl free : Z) (ram : Z → Z) : allocator :=
  mk_allocator cl 0 0 pl NULL NULL 0 free ∅ false false ∅ 1 ram.

(** ** Computations

    A call returns, waits for a lock that nobody will release, or fails (an assertion,
    [abort], [exit], an index out of range). *)
Inductive result (A : Type) :=
| Done (a : A) (s : allocator)
| Hang
| Fail.
Arguments Done {A} a s.
Arguments Hang {A}.
Arguments Fail {A}.

Definition SM (A : Type) : Type := allocator → result A.

#[export] Instance SM_ret : MRet SM := λ A a s, Done a s.
#[export] Instance SM_bind : MBind SM := λ A B k m s,
  match m s with Done a s => k a s | Hang => Hang | Fail => Fail end.

Definition fail {A} : SM A := λ _, Fail.
Definition read {A} (f : allocator → A) : SM A := λ s, Done (f s) s.
Definition update (f : allocator → allocator) : SM unit := λ s, Done () (f s).
Definition assert (b : bool) : SM unit := if b then mret () else fail.
Definition of_option {A} (o : option A) : SM A :=
  match o with Some a => mret a | None => fail end.

(** [slabclass[id]] and an assignment to its members. *)
Definition get_class (id : Z) : SM slabclass_t := λ s, of_option (arr_get (slabclass s) id) s.
Definition put_class (id : Z) (f : slabclass_t → slabclass_t) : SM unit := λ s,
  match arr_get (slabclass s) id with
  | Some c =>
      match arr_set (slabclass s) id (f c) with
      | Some cl => Done () (s <| slabclass := cl |>)
      | None => Fail
      end
  | None => Fail
  end.

(** [*p] for an [item *]. *)
Definition get_item (p : Z) : SM item := λ s, of_option (items s !! p) s.
Definition put_item (p : Z) (f : item → item) : SM unit := λ s,
  match items s !! p with
  | Some it => Done () (s <| items := <[p := f it]> (items s) |>)
  | None => Fail
  end.
Definition new_item : SM Z := λ s,
  Done (next_item s) (s <| items := <[next_item s := mk_item 0 0 0 0 0 0]> (items s) |>
    <| next_item := next_item s + 1 |>).

Definition lock : SM unit := λ s, if lock_ s then Hang else Done () (s <| lock_ := true |>).
Definition unlock : SM unit := update (λ s, s <| lock_ := false |>).

Definition memset (p v n : Z) : SM unit :=
  update (λ s, s <| ram := λ a, if (p <=? a) && (a <? p + n) then v else ram s a |>).
Definition memcpy (dst src n : Z) : SM unit :=
  update (λ s, s <| ram := λ a,
    if (dst <=? a) && (a <? dst + n) then ram s (src + (a - dst)) else ram s a |>).

(** ** The size classes *)

(** The loop of [slabs_clsid]; an index out of range is [None]. *)
Fixpoint clsid_loop (fuel : nat) (cl : list slabclass_t) (pl size res : Z) : option Z :=
  match fuel with
  | O => None
  | S fuel =>
      c ← arr_get cl res;
      if sc_size c <? size then
        if res =? pl then Some 0 else clsid_loop fuel cl pl size (res + 1)
      else Some res
  end.

Definition slabs_clsid (size : Z) : SM Z := λ s,
  if size =? 0 then Done 0 s
  else of_option (clsid_loop (S (length (slabclass s))) (slabclass s) (power_largest s) size
    POWER_SMALLEST) s.

Definition align8 (size : Z) : Z :=
  if negb (size mod CHUNK_ALIGN_BYTES =? 0)
  then size + (CHUNK_ALIGN_BYTES - size mod CHUNK_ALIGN_BYTES) else size.

(** [slabclass[i].size = size; slabclass[i].perslab = item_size_max / slabclass[i].size] *)
Definition set_class_size (cl : list slabclass_t) (i size : Z) : option (list slabclass_t) :=
  c ← arr_get cl i;
  if size =? 0 then None
  else arr_set cl i (c <| sc_size := size |> <| sc_perslab := item_size_max / size |>).

(** The loop of [slabs_init].  The factor, a [double], is the fraction [fn / fd]; its
    products and quotients are exact. *)
Fixpoint init_loop (fuel : nat) (fn fd i size pre_size : Z) (cl : list slabclass_t)
    : option (Z * list slabclass_t) :=
  match fuel with
  | O => None
  | S fuel =>
      let i := i + 1 in
      if (i <? POWER_LARGEST) && (size * fn <=? item_size_max * fd) then
        let size := align8 size in
        '(i, cl) ← (
          if (pre_size / DSM_CACHE_LINE_SIZE <? size / DSM_CACHE_LINE_SIZE) &&
             negb (size mod DSM_CACHE_LINE_SIZE =? 0) then
            cl ← set_class_size cl i (size / DSM_CACHE_LINE_SIZE * DSM_CACHE_LINE_SIZE);
            Some (i + 1, cl)
          else Some (i, cl));
        cl ← set_class_size cl i size;
        init_loop fuel fn fd i (wrap 32 (size * fn / fd)) size cl
      else Some (i, cl)
  end.

(** ** Pages and free lists *)
Definition memory_allocate (size : Z) : SM Z := λ s,
  if mem_base s =? NULL then Done NULL s
  else if mem_avail s <? size then Done NULL s
  else
    let size := align8 size in
    Done (mem_current s) (s <| mem_current := mem_current s + size |>
      <| mem_avail := if size <? mem_avail s then mem_avail s - size else 0 |>).

Definition do_slabs_free (ptr size id : Z) : SM unit :=
  pl ← read power_largest;
  assert ((POWER_SMALLEST <=? id) && (id <=? pl));;
  p ← get_class id;
  found ← read (λ s, stats_map s !! ptr);
  it ← (match found with
        | Some it => mret it
        | None =>
            it ← new_item;
            update (λ s, s <| stats_map := <[ptr := it]> (stats_map s) |>);;
            mret it
        end);
  put_item it (λ i, i <| it_data := ptr |>);;
  put_item it (λ i, i <| it_flags := Z.lor (it_flags i) ITEM_SLABBED |>);;
  put_item it (λ i, i <| it_prev := NULL |>);;
  put_item it (λ i, i <| it_next := sc_slots p |>);;
  (if negb (sc_slots p =? NULL) then put_item (sc_slots p) (λ i, i <| it_prev := it |>)
   else mret ());;
  put_class id (λ p, p <| sc_slots := it |> <| sc_sl_curr := wrap 32 (sc_sl_curr p + 1) |>
    <| sc_requested := wrap 64 (sc_requested p - size) |>);;
  if negb (size =? 0) then update (λ s, s <| mem_free := wrap 64 (mem_free s + sc_size p) |>)
  else mret ().

(** The chunks from the [x]-th on are put on the free list. *)
Fixpoint split_chunks (n : nat) (ptr size id : Z) : SM unit :=
  match n with
  | O => mret ()
  | S n => do_slabs_free ptr 0 id;; split_chunks n (ptr + size) size id
  end.

Definition split_slab_page_into_freelist (ptr id : Z) : SM unit :=
  p ← get_class id; split_chunks (Z.to_nat (sc_perslab p)) ptr (sc_size p) id.

Section operations.
(** [realloc] finds so many bytes. *)
Context (realloc_ok : Z → bool).

(** The new entries of the list of pages are not initialised. *)
Definition grow_slab_list (id : Z) : SM Z :=
  p ← get_class id;
  if sc_slabs p =? sc_list_size p then
    let new_size := if negb (sc_list_size p =? 0) then wrap 32 (sc_list_size p * 2) else 16 in
    if negb (realloc_ok (new_size * 8)) then mret 0
    else
      put_class id (λ p, p <| sc_list_size := new_size |>
        <| sc_slab_list := take (Z.to_nat new_size) (sc_slab_list p) ++
           replicate (Z.to_nat (new_size - sc_list_size p)) NULL |>);;
      mret 1
  else mret 1.

(** [p->slab_list[p->slabs++] = ptr] *)
Definition add_slab (ptr id : Z) : SM unit :=
  p ← get_class id;
  l ← of_option (arr_set (sc_slab_list p) (sc_slabs p) ptr);
  put_class id (λ p, p <| sc_slab_list := l |> <| sc_slabs := wrap 32 (sc_slabs p + 1) |>).

Definition do_slabs_newslab (id : Z) : SM Z :=
  p ← get_class id;
  let len := if slab_reassign then item_size_max
             else to_int (wrap 32 (sc_size p * sc_perslab p)) in
  full ← read (λ s, negb (mem_limit s =? 0) &&
    (mem_limit s <? wrap 64 (mem_malloced s + len)) && (0 <? sc_slabs p));
  if full : bool then mret 0 else
  grown ← grow_slab_list id;
  if grown =? 0 then mret 0 else
  ptr ← memory_allocate (wrap 64 len);
  if ptr =? NULL then mret 0 else
  split_slab_page_into_freelist ptr id;;
  add_slab ptr id;;
  update (λ s, s <| mem_malloced := wrap 64 (mem_malloced s + len) |>);;
  mret 1.

(** The first free item is taken off the list of its class. *)
Definition take_item (size id : Z) : SM Z :=
  p ← get_class id;
  let it := sc_slots p in
  i ← get_item it;
  put_class id (λ p, p <| sc_slots := it_next i |>);;
  (if negb (it_next i =? NULL) then put_item (it_next i) (λ i, i <| it_prev := NULL |>)
   else mret ());;
  put_item it (λ i, i <| it_size := to_int size |> <| it_clsid := wrap 8 id |>);;
  put_class id (λ p, p <| sc_sl_curr := wrap 32 (sc_sl_curr p - 1) |>);;
  mret (it_data i).

Definition do_slabs_alloc (size id : Z) : SM Z :=
  pl ← read power_largest;
  if (id <? POWER_SMALLEST) || (pl <? id) then mret NULL else
  p ← get_class id;
  (if sc_sl_curr p =? 0 then mret ()
   else i ← get_item (sc_slots p); assert (it_clsid i =? 0));;
  more ← (if negb (sc_sl_curr p =? 0) then mret true
          else n ← do_slabs_newslab id; mret (negb (n =? 0)));
  p ← get_class id;
  ret ← (if negb (more : bool) then mret NULL
         else if negb (sc_sl_curr p =? 0) then take_item size id else mret NULL);
  if negb (ret =? NULL) then
    put_class id (λ p, p <| sc_requested := wrap 64 (sc_requested p + size) |>);;
    update (λ s, s <| mem_free := wrap 64 (mem_free s - sc_size p) |>);;
    mret ret
  else mret ret.

Definition slabs_alloc (size id : Z) : SM Z := do_slabs_alloc size id.
Definition slabs_free (ptr size id : Z) : SM unit := do_slabs_free ptr size id.

(** ** The interface *)
Definition get_avail : SM Z := read mem_free.

(** [stats_map.at(ptr)] after [assert(stats_map.count(ptr))] *)
Definition item_at (ptr : Z) : SM Z := λ s, of_option (stats_map s !! ptr) s.

Definition sb_malloc (size : Z) : SM Z :=
  lock;;
  limit ← read mem_limit;
  if limit =? 0 then mret NULL else
  let newsize := wrap 64 (size + SB_PREFIX_SIZE) in
  id ← slabs_clsid newsize;
  ret ← slabs_alloc newsize id;
  assert (negb (ret =? NULL));;
  unlock;;
  mret ret.

Definition ALIGN (x a : Z) : Z := Z.ldiff (wrap 64 (x + (a - 1))) (a - 1).

Definition sb_aligned_malloc (size block : Z) : SM Z :=
  lock;;
  limit ← read mem_limit;
  if limit =? 0 then mret NULL else
  let newsize := ALIGN (wrap 64 (size + SB_PREFIX_SIZE)) block in
  id ← slabs_clsid newsize;
  ret ← slabs_alloc newsize id;
  assert (negb (ret =? NULL));;
  assert (ret mod block =? 0);;
  unlock;;
  mret ret.

Definition sb_calloc (count size : Z) : SM Z :=
  limit ← read mem_limit;
  if limit =? 0 then mret NULL else
  ptr ← sb_malloc (wrap 64 (count * size));
  if negb (ptr =? NULL) then memset ptr 0 size;; mret ptr else fail.

Definition sb_aligned_calloc (count size block : Z) : SM Z :=
  limit ← read mem_limit;
  if limit =? 0 then mret NULL else
  ptr ← sb_aligned_malloc (wrap 64 (count * size)) block;
  if negb (ptr =? NULL) then memset ptr 0 size;; mret ptr else fail.

Definition sb_free (ptr : Z) : SM Z :=
  lock;;
  limit ← read mem_limit;
  if limit =? 0 then mret 0 else
  it ← item_at ptr;
  i ← get_item it;
  let id := it_clsid i in
  let size := wrap 64 (it_size i) in
  cls ← slabs_clsid (wrap 64 (it_size i));
  assert (id =? cls);;
  put_item it (λ i, i <| it_clsid := 0 |> <| it_size := 0 |>);;
  slabs_free (it_data i) size id;;
  unlock;;
  mret size.

Definition slabs_adjust_mem_requested (id old ntotal : Z) : SM unit :=
  pl ← read power_largest;
  if (id <? POWER_SMALLEST) || (pl <? id) then fail else
  put_class id (λ p, p <| sc_requested := wrap 64 (sc_requested p - old + ntotal) |>).

(** The block moves to another class.  The new pointer shadows the parameter [ptr], so
    that the bytes are copied from the new block. *)
Definition move_block (it1 : Z) (i1 : item) (size size2 id2 : Z) : SM Z :=
  let id1 := it_clsid i1 in
  let size1 := it_size i1 in
  ptr ← slabs_alloc size2 id2;
  it2 ← item_at ptr;
  i2 ← get_item it2;
  (if size2 <? wrap 64 size1 then memcpy (it_data i2) ptr size
   else memcpy (it_data i2) ptr (wrap 64 (size1 - SB_PREFIX_SIZE)));;
  put_item it1 (λ i, i <| it_clsid := 0 |>);;
  slabs_free (it_data i1) (wrap 64 size1) id1;;
  i2 ← get_item it2;
  mret (it_data i2).

Definition sb_realloc (ptr size : Z) : SM Z :=
  limit ← read mem_limit;
  if limit =? 0 then mret NULL else
  if ptr =? NULL then sb_malloc size else
  lock;;
  it1 ← item_at ptr;
  i1 ← get_item it1;
  let id1 := it_clsid i1 in
  let size1 := it_size i1 in
  cls ← slabs_clsid (wrap 64 size1);
  assert (id1 =? cls);;
  let size2 := wrap 64 (size + SB_PREFIX_SIZE) in
  id2 ← slabs_clsid size2;
  ret ← (
    if id1 =? id2 then
      put_item it1 (λ i, i <| it_size := to_int size2 |>);;
      slabs_adjust_mem_requested id1 (wrap 64 size1) size2;;
      mret ptr
    else
      assert (negb (wrap 64 size1 =? size2));;
      move_block it1 i1 size size2 id2);
  unlock;;
  assert (negb (ret =? NULL));;
  mret ret.

Definition is_free (ptr : Z) : SM bool :=
  lock;;
  it ← item_at ptr;
  i ← get_item it;
  unlock;;
  mret (it_clsid i =? 0).

Definition get_size (ptr : Z) : SM Z :=
  it ← item_at ptr; i ← get_item it; mret (wrap 64 (it_size i)).

(** ** [slabs_init] *)

(** The classes from [i] on, of which [n] are left; [prealloc] of them are done. *)
Fixpoint preallocate (n : nat) (i prealloc maxslabs : Z) : SM unit :=
  match n with
  | O => mret ()
  | S n =>
      let prealloc := prealloc + 1 in
      if maxslabs <? prealloc then mret ()
      else
        r ← do_slabs_newslab i;
        if r =? 0 then fail else preallocate n (i + 1) prealloc maxslabs
  end.

Definition slabs_preallocate (maxslabs : Z) : SM unit :=
  preallocate (Z.to_nat (POWER_LARGEST - POWER_SMALLEST + 1)) POWER_SMALLEST 0 maxslabs.

(** [huge] is the result of [get_huge_mem], [malloced] the value of the environment
    variable [T_MEMD_INITIAL_MALLOC]. *)
Definition slabs_init (huge : Z) (malloced : option Z) (limit fn fd prealloc_addr : Z) : SM Z :=
  let size := SB_PREFIX_SIZE + chunk_size in
  update (λ s, s <| mem_limit := limit |> <| mem_free := limit |>);;
  (if prealloc_addr =? NULL
   then update (λ s, s <| mem_base := huge |> <| use_prealloc_addr := false |>)
   else update (λ s, s <| mem_base := prealloc_addr |> <| use_prealloc_addr := true |>));;
  update (λ s, s <| mem_current := mem_base s |> <| mem_avail := mem_limit s |>);;
  '(i, cl) ← of_option (init_loop (S (Z.to_nat MAX_NUMBER_OF_SLAB_CLASSES)) fn fd
    (POWER_SMALLEST - 1) size size
    (replicate (Z.to_nat MAX_NUMBER_OF_SLAB_CLASSES) zero_class));
  c ← of_option (arr_get cl i);
  cl ← of_option (arr_set cl i (c <| sc_size := item_size_max |> <| sc_perslab := 1 |>));
  update (λ s, s <| slabclass := cl |> <| power_largest := i |>);;
  (match malloced with
   | Some v => update (λ s, s <| mem_malloced := v |>)
   | None => mret ()
   end);;
  slabs_preallocate i;;
  read mem_base.
End operations.
