(* ===== verification/SlabsInv.v ===== *)
(** * SlabsInv: the invariant of the slab allocator

    What holds between the calls of [Slabs]: the chunks of all classes are disjoint pieces
    of the part of the region that has been used, a chunk is either on the free list of
    its class or allocated, and the counters count.  [slab_inv] is kept by every operation
    and the operations are described by what they do to the allocated blocks ([live]). *)
From S2P Require Import Prelude DsmType Slabs.
From stdpp Require Import base numbers option list list_numbers gmap relations.
Open Scope Z_scope.

(** ** Rules for computations *)

(** [m] does not wait, returns in a state that satisfies [Q], and fails only if [F]. *)
Definition swp {A} (F : Prop) (m : SM A) (Q : A → allocator → Prop) (s : allocator) : Prop :=
  match m s with Done a s' => Q a s' | Hang => False | Fail => F end.

Lemma swp_done {A} (m : SM A) Q s : swp False m Q s → ∃ a s', m s = Done a s' ∧ Q a s'.
Proof. unfold swp. destruct (m s); [eauto|done..]. Qed.

Section rules.
Context {F : Prop}.

Lemma swp_ret {A} (a : A) Q s : Q a s → swp F (mret a) Q s.
Proof. done. Qed.

Lemma swp_bind {A B} (m : SM A) (k : A → SM B) Q s :
  swp F m (λ a, swp F (k a) Q) s → swp F (m ≫= k) Q s.
Proof. unfold swp, mbind, SM_bind. by destruct (m s). Qed.

Lemma swp_mono {A} (m : SM A) (Q Q' : A → allocator → Prop) s :
  swp F m Q s → (∀ a s', Q a s' → Q' a s') → swp F m Q' s.
Proof. unfold swp. destruct (m s); auto. Qed.

Lemma swp_total {A} (m : SM A) Q s : swp False m Q s → swp F m Q s.
Proof. unfold swp. by destruct (m s). Qed.

Lemma swp_read {A} (f : allocator → A) Q s : Q (f s) s → swp F (read f) Q s.
Proof. done. Qed.

Lemma swp_update f Q s : Q () (f s) → swp F (update f) Q s.
Proof. done. Qed.

Lemma swp_assert (b : bool) Q s : (b = false → F) → (b = true → Q () s) → swp F (assert b) Q s.
Proof. destruct b; cbn; auto. Qed.

Lemma swp_fail {A} (Q : A → _) s : F → swp F fail Q s.
Proof. done. Qed.

Lemma swp_get_class id c Q s :
  arr_get (slabclass s) id = Some c → Q c s → swp F (get_class id) Q s.
Proof. unfold swp, get_class. by intros ->. Qed.

Lemma swp_put_class id f c Q s :
  arr_get (slabclass s) id = Some c →
  Q () (s <| slabclass := <[Z.to_nat id := f c]> (slabclass s) |>) →
  swp F (put_class id f) Q s.
Proof.
  unfold swp, put_class. intros E ?. rewrite E. apply arr_get_range in E.
  by rewrite arr_set_Some.
Qed.

Lemma swp_get_item p i Q s : items s !! p = Some i → Q i s → swp F (get_item p) Q s.
Proof. unfold swp, get_item. by intros ->. Qed.

Lemma swp_put_item p f i Q s :
  items s !! p = Some i → Q () (s <| items := <[p := f i]> (items s) |>) →
  swp F (put_item p f) Q s.
Proof. unfold swp, put_item. by intros ->. Qed.

Lemma swp_of_option {A} (o : option A) a Q s : o = Some a → Q a s → swp F (of_option o) Q s.
Proof. by intros ->. Qed.

Lemma swp_if {A} (b : bool) (m1 m2 : SM A) Q s :
  (b = true → swp F m1 Q s) → (b = false → swp F m2 Q s) →
  swp F (if b then m1 else m2) Q s.
Proof. destruct b; auto. Qed.
End rules.

(** One rule, chosen by the head of the computation. *)
Ltac sstep :=
  lazymatch goal with
  | |- swp _ (mbind _ _) _ _ => apply swp_bind
  | |- swp _ (mret _) _ _ => apply swp_ret
  | |- swp _ (read _) _ _ => apply swp_read
  | |- swp _ (update _) _ _ => apply swp_update
  | |- swp _ (get_class _) _ _ => eapply swp_get_class
  | |- swp _ (put_class _ _) _ _ => eapply swp_put_class
  | |- swp _ (get_item _) _ _ => eapply swp_get_item
  | |- swp _ (put_item _ _) _ _ => eapply swp_put_item
  | |- swp _ (assert _) _ _ => apply swp_assert
  | |- swp _ (if _ then _ else _) _ _ => apply swp_if
  | |- swp _ fail _ _ => apply swp_fail
  end.

(** ** The invariant *)

(** The number of classes and the size of the chunks of each. *)
Record shape := mk_shape { sh_pl : Z; sh_size : Z → Z }.

Definition in_cls (sh : shape) (k : Z) : Prop := POWER_SMALLEST ≤ k ≤ sh_pl sh.

Record shape_ok (sh : shape) : Prop := {
  sho_pl : POWER_SMALLEST ≤ sh_pl sh ≤ POWER_LARGEST;
  sho_size : ∀ k, in_cls sh k → 48 ≤ sh_size sh k ≤ item_size_max;
  sho_align : ∀ k, in_cls sh k → sh_size sh k mod CHUNK_ALIGN_BYTES = 0;
  sho_last : sh_size sh (sh_pl sh) = item_size_max;
}.

(** [k] is the first class whose chunks have room for [m] bytes. *)
Definition fits_class (sh : shape) (m k : Z) : Prop :=
  in_cls sh k ∧ m ≤ sh_size sh k ∧ ∀ j, POWER_SMALLEST ≤ j < k → sh_size sh j < m.

(** The list [l] of items starts at [p]. *)
Fixpoint chain (its : gmap Z item) (p : Z) (l : list Z) : Prop :=
  match l with
  | [] => p = NULL
  | i :: l => p = i ∧ ∃ it, its !! i = Some it ∧ chain its (it_next it) l
  end.

(** Class [k], whose free list is [l], when [n] pages have been cut off. *)
Record class_ok (sh : shape) (n : Z) (its : gmap Z item) (l : list Z) (k : Z)
    (c : slabclass_t) : Prop := {
  co_size : sc_size c = sh_size sh k;
  co_perslab : sc_perslab c = item_size_max / sh_size sh k;
  co_slots : chain its (sc_slots c) l;
  co_curr : sc_sl_curr c = Z.of_nat (length l);
  co_slabs : 0 ≤ sc_slabs c ≤ sc_list_size c;
  co_pages : sc_slabs c ≤ n;
  co_list : sc_list_size c = Z.of_nat (length (sc_slab_list c));
  co_list_size : sc_list_size c ≤ 16 `max` (2 * n);
}.

(** Whether an item is free or allocated; the item [hole] is neither, having left the
    one state and not reached the other. *)
Definition item_status (sh : shape) (fl : Z → list Z) (hole i k : Z) (it : item) : Prop :=
  (it_clsid it = 0 ∧ (i ∈ fl k ↔ i ≠ hole)) ∨
  (i ≠ hole ∧ it_clsid it = k ∧ i ∉ fl k ∧ 0 < it_size it ∧ fits_class sh (it_size it) k).

(** [hm] gives the class of every item, [fl] the free list of every class, [n] is the
    number of pages cut off. *)
Record slab_inv (sh : shape) (hm : Z → Z) (fl : Z → list Z) (n hole : Z) (s : allocator)
    : Prop := {
  si_shape : shape_ok sh;
  si_pl : power_largest s = sh_pl sh;
  si_length : length (slabclass s) = Z.to_nat MAX_NUMBER_OF_SLAB_CLASSES;
  si_class : ∀ k, in_cls sh k →
    ∃ c, arr_get (slabclass s) k = Some c ∧ class_ok sh n (items s) (fl k) k c;
  si_nodup : ∀ k, NoDup (fl k);
  si_home : ∀ k i, in_cls sh k → i ∈ fl k → hm i = k;
  si_base : 0 < mem_base s ∧ mem_base s mod CHUNK_ALIGN_BYTES = 0;
  si_current : mem_current s = mem_base s + item_size_max * n;
  si_avail : mem_avail s = mem_limit s - item_size_max * n;
  si_limit : 0 ≤ n ∧ item_size_max * n ≤ mem_limit s ∧ 0 < mem_limit s ≤ 2 ^ 37;
  si_next : 1 ≤ next_item s ≤ 1 + 85 * n;
  si_stats : ∀ p i, stats_map s !! p = Some i ↔ ∃ it, items s !! i = Some it ∧ it_data it = p;
  si_id : ∀ i it, items s !! i = Some it → 1 ≤ i < next_item s ∧ in_cls sh (hm i);
  si_range : ∀ i it, items s !! i = Some it →
    mem_base s ≤ it_data it ∧ it_data it + sh_size sh (hm i) ≤ mem_current s ∧
    it_data it mod CHUNK_ALIGN_BYTES = 0;
  si_status : ∀ i it, items s !! i = Some it → item_status sh fl hole i (hm i) it;
  si_disj : ∀ i j it jt, items s !! i = Some it → items s !! j = Some jt → i ≠ j →
    it_data it + sh_size sh (hm i) ≤ it_data jt ∨ it_data jt + sh_size sh (hm j) ≤ it_data it;
}.

(** The allocated blocks with the sizes asked for. *)
Definition live (s : allocator) (p : Z) : option Z :=
  i ← stats_map s !! p;
  it ← items s !! i;
  if it_clsid it =? 0 then None else Some (it_size it).

(** ** Generic lemmas *)

Lemma nodup_bound (l : list Z) m :
  NoDup l → (∀ i, i ∈ l → 1 ≤ i < m) → 1 ≤ m → Z.of_nat (length l) ≤ m - 1.
Proof.
  intros Hn Hl ?. assert (l ⊆+ seqZ 1 (m - 1)) as Hs.
  { apply NoDup_submseteq; [done|]. intros i Hi. apply elem_of_seqZ. specialize (Hl i Hi). lia. }
  apply submseteq_length in Hs. rewrite length_seqZ in Hs. lia.
Qed.

Lemma align8_id x : x mod CHUNK_ALIGN_BYTES = 0 → align8 x = x.
Proof. unfold align8. by intros ->. Qed.

(** What the invariant sees of an item, and of a state. *)
Definition core_eq (a b : item) : Prop :=
  it_next a = it_next b ∧ it_size a = it_size b ∧ it_clsid a = it_clsid b ∧
  it_data a = it_data b.

Definition view (s : allocator) :=
  (slabclass s, power_largest s, mem_base s, mem_current s, mem_avail s, mem_limit s,
   (next_item s, stats_map s, items s)).

Lemma chain_ext its its' p l :
  (∀ i it, i ∈ l → its !! i = Some it → ∃ it', its' !! i = Some it' ∧ it_next it' = it_next it) →
  chain its p l → chain its' p l.
Proof.
  revert p. induction l as [|i l IH]; intros p He; [done|]. intros (-> & it & Hi & Hc).
  split; [done|]. destruct (He i it) as (it' & Hi' & Hn); [by left|done|].
  exists it'. split; [done|]. rewrite Hn. apply IH; [|done].
  intros j jt ?. apply He. by right.
Qed.

Lemma chain_elem its p l i : chain its p l → i ∈ l → ∃ it, its !! i = Some it.
Proof.
  revert p. induction l as [|j l IH]; intros p Hc Hi; [by apply not_elem_of_nil in Hi|].
  destruct Hc as (-> & it & ? & ?). apply elem_of_cons in Hi as [->|]; eauto.
Qed.

Lemma class_ok_ext sh n its its' l k c :
  (∀ i it, i ∈ l → its !! i = Some it → ∃ it', its' !! i = Some it' ∧ it_next it' = it_next it) →
  class_ok sh n its l k c → class_ok sh n its' l k c.
Proof. intros He []. constructor; eauto using chain_ext. Qed.

(** ** Changes that keep the invariant *)
Section keep.
Context {sh : shape} {hm : Z → Z} {fl : Z → list Z} {n hole : Z}.
Notation inv := (slab_inv sh hm fl n hole).

Lemma slab_inv_view s s' : view s = view s' → inv s → inv s'.
Proof.
  destruct s, s'. unfold view. cbn. intros E I. simplify_eq. destruct I. constructor; assumption.
Qed.

Lemma slab_inv_core s its' :
  (∀ j, option_Forall2 core_eq (items s !! j) (its' !! j)) → inv s →
  inv (s <| items := its' |>).
Proof.
  intros He I.
  assert (∀ j jt, its' !! j = Some jt → ∃ jt', items s !! j = Some jt' ∧ core_eq jt' jt) as Hb.
  { intros j jt Hj. specialize (He j). rewrite Hj in He. inversion He; subst; eauto. }
  assert (∀ j jt, items s !! j = Some jt → ∃ jt', its' !! j = Some jt' ∧ core_eq jt jt') as Hf.
  { intros j jt Hj. specialize (He j). rewrite Hj in He. inversion He; subst; eauto. }
  destruct I. constructor; cbn; try assumption.
  - intros k Hk. destruct (si_class0 k Hk) as (c & Hc & Ho). exists c. split; [done|].
    apply (class_ok_ext _ _ (items s)); [|done]. intros i it _ Hi.
    destruct (Hf i it Hi) as (it' & ? & Hn & _). eauto.
  - intros p i. rewrite si_stats0. split; intros (it & Hi & <-).
    + destruct (Hf i it Hi) as (it' & ? & ? & ? & ? & ?). eauto.
    + destruct (Hb i it Hi) as (it' & ? & ? & ? & ? & ?). eauto.
  - intros i it Hi. destruct (Hb i it Hi) as (it' & ? & _). eauto.
  - intros i it Hi. destruct (Hb i it Hi) as (it' & Hi' & _ & _ & _ & <-). eauto.
  - intros i it Hi. destruct (Hb i it Hi) as (it' & Hi' & _ & E1 & E2 & _).
    specialize (si_status0 i it' Hi'). unfold item_status in *. by rewrite <-E1, <-E2.
  - intros i j it jt Hi Hj. destruct (Hb i it Hi) as (it' & Hi' & _ & _ & _ & <-).
    destruct (Hb j jt Hj) as (jt' & Hj' & _ & _ & _ & <-). eauto.
Qed.

Lemma slab_inv_class s k c c' :
  inv s → in_cls sh k → arr_get (slabclass s) k = Some c →
  (class_ok sh n (items s) (fl k) k c → class_ok sh n (items s) (fl k) k c') →
  inv (s <| slabclass := <[Z.to_nat k := c']> (slabclass s) |>).
Proof.
  intros I Hk Hc Ho. pose proof (arr_get_range _ _ _ Hc) as Hr.
  destruct I. constructor; cbn; try assumption.
  - by rewrite length_insert.
  - intros j Hj. pose proof (arr_get_set _ _ k j c' (arr_set_Some _ _ _ Hr)) as Hg.
    destruct (Z.eqb_spec j k) as [->|].
    + exists c'. split; [done|]. apply Ho. destruct (si_class0 k Hk) as (c0 & Hc0 & ?).
      congruence.
    + destruct (si_class0 j Hj) as (cj & Hcj & ?). exists cj. split; [congruence|done].
Qed.

Lemma free_bound s k : inv s → in_cls sh k → Z.of_nat (length (fl k)) ≤ 85 * n.
Proof.
  intros I Hk. pose proof (si_next _ _ _ _ _ _ I).
  enough (Z.of_nat (length (fl k)) ≤ next_item s - 1) by lia.
  apply nodup_bound; [apply (si_nodup _ _ _ _ _ _ I)| |lia].
  intros i Hi. destruct (si_class _ _ _ _ _ _ I k Hk) as (c & _ & Ho).
  destruct (chain_elem _ _ _ i (co_slots _ _ _ _ _ _ Ho) Hi) as (it & Hit).
  apply (si_id _ _ _ _ _ _ I i it Hit).
Qed.

Lemma pages_bound s : inv s → 0 ≤ n ≤ 2 ^ 25.
Proof.
  intros I. pose proof (si_limit _ _ _ _ _ _ I) as (? & ? & ?).
  change item_size_max with 4096 in *. lia.
Qed.
End keep.

(** The item in the hole, number [i], becomes the first free item of its class. *)
Definition push_free (i : Z) (c c' : slabclass_t) (it it' : item) : Prop :=
  it_next it' = sc_slots c ∧ it_clsid it' = it_clsid it ∧ it_data it' = it_data it ∧
  sc_size c' = sc_size c ∧ sc_perslab c' = sc_perslab c ∧ sc_slots c' = i ∧
  sc_sl_curr c' = wrap 32 (sc_sl_curr c + 1) ∧ sc_slabs c' = sc_slabs c ∧
  sc_list_size c' = sc_list_size c ∧ sc_slab_list c' = sc_slab_list c.

Definition fl_set (fl : Z → list Z) (k : Z) (l : list Z) : Z → list Z :=
  λ j, if j =? k then l else fl j.

Lemma slab_inv_push sh hm fl n i s k it it' c c' :
  slab_inv sh hm fl n i s → hm i = k → items s !! i = Some it → it_clsid it = 0 →
  arr_get (slabclass s) k = Some c → push_free i c c' it it' →
  slab_inv sh hm (fl_set fl k (i :: fl k)) n 0
    (s <| items := <[i := it']> (items s) |>
       <| slabclass := <[Z.to_nat k := c']> (slabclass s) |>).
Proof.
  intros I Hk Hi Hz Hc (P1 & P2 & P3 & P4 & P5 & P6 & P7 & P8 & P9 & P10).
  assert (i ∉ fl k) as Hni.
  { destruct (si_status _ _ _ _ _ _ I i it Hi) as [[_ H]|[]]; [|done]. rewrite Hk in H. tauto. }
  pose proof (si_id _ _ _ _ _ _ I i it Hi) as [Hid Hcls]. rewrite Hk in Hcls.
  pose proof (free_bound _ _ I Hcls) as Hb. pose proof (pages_bound _ I) as Hn.
  pose proof (arr_get_range _ _ _ Hc) as Hr.
  assert (∀ j jt, <[i := it']> (items s) !! j = Some jt →
    ∃ jt', items s !! j = Some jt' ∧ it_data jt = it_data jt' ∧ it_clsid jt = it_clsid jt' ∧
      (j ≠ i → it_size jt = it_size jt')) as Hb'.
  { intros j jt [[-> ->]|[? Hj]]%lookup_insert_Some; [|eauto 6]. exists it.
    split_and!; congruence. }
  destruct I. constructor; cbn; try assumption.
  - by rewrite length_insert.
  - intros j Hj. destruct (si_class0 j Hj) as (cj & Hcj & Ho).
    pose proof (arr_get_set _ _ k j c' (arr_set_Some _ _ _ Hr)) as Hg.
    unfold fl_set. destruct (Z.eqb_spec j k) as [->|].
    + exists c'. split; [done|]. replace cj with c in * by congruence. destruct Ho.
      constructor; rewrite ?P4, ?P5, ?P7, ?P8, ?P9, ?P10; try assumption.
      * rewrite P6. split; [done|]. exists it'. rewrite lookup_insert_eq. split; [done|].
        rewrite P1. apply (chain_ext (items s)); [|done]. intros j jt Hjl Hj'. exists jt.
        rewrite lookup_insert_ne by (intros ->; done). done.
      * rewrite co_curr0. cbn [length]. rewrite wrap_small; [lia|]. unfold fits. lia.
    + exists cj. split; [congruence|]. apply (class_ok_ext _ _ (items s)); [|done].
      intros a at' Ha Hat. exists at'. rewrite lookup_insert_ne; [done|].
      intros <-. apply si_home0 in Ha; [congruence|done].
  - intros j. unfold fl_set. destruct (Z.eqb_spec j k) as [->|]; [|done]. by constructor.
  - intros j a. unfold fl_set. destruct (Z.eqb_spec j k) as [->|]; [|eauto].
    intros ? [->|]%elem_of_cons; eauto.
  - intros p j. rewrite si_stats0. split.
    + intros (jt & Hj & <-). destruct (decide (j = i)) as [->|].
      * exists it'. rewrite lookup_insert_eq. split; [done|]. congruence.
      * exists jt. by rewrite lookup_insert_ne.
    + intros (jt & Hj & <-). destruct (Hb' j jt Hj) as (? & ? & -> & _). eauto.
  - intros j jt Hj. destruct (Hb' j jt Hj) as (? & ? & _). eauto.
  - intros j jt Hj. destruct (Hb' j jt Hj) as (? & ? & -> & _). eauto.
  - intros j jt Hj. destruct (Hb' j jt Hj) as (jt' & Hj' & _ & Ec & Es).
    assert (j ≠ 0) as Hj0 by (destruct (si_id0 j jt' Hj'); lia).
    specialize (si_status0 j jt' Hj'). unfold item_status, fl_set in *. rewrite Ec.
    destruct (decide (j = i)) as [->|Hji].
    + left. rewrite Hk, Z.eqb_refl, elem_of_cons. split; [congruence|]. tauto.
    + rewrite (Es Hji). destruct (Z.eqb_spec (hm j) k) as [Ek|].
      * rewrite elem_of_cons, <-Ek in *. tauto.
      * tauto.
  - intros a b at' bt Ha Hb2. destruct (Hb' a at' Ha) as (? & ? & -> & _).
    destruct (Hb' b bt Hb2) as (? & ? & -> & _). eauto.
Qed.

(** ** The allocated blocks *)

Lemma live_core s s' :
  stats_map s' = stats_map s →
  (∀ j jt, items s !! j = Some jt → ∃ jt', items s' !! j = Some jt' ∧
    it_clsid jt' = it_clsid jt ∧ (it_clsid jt ≠ 0 → it_size jt' = it_size jt)) →
  (∀ j, items s !! j = None → items s' !! j = None) → ∀ p, live s' p = live s p.
Proof.
  intros Es Hi Hn p. unfold live. rewrite Es. destruct (stats_map s !! p) as [j|]; [|done]. cbn.
  destruct (items s !! j) as [jt|] eqn:E; cbn; [|by rewrite (Hn j E)].
  destruct (Hi j jt E) as (jt' & -> & Ec & Esz). cbn. rewrite Ec.
  destruct (Z.eqb_spec (it_clsid jt) 0); [done|]. by rewrite Esz.
Qed.

(** What the internal operations leave alone. *)
Record frame (s s' : allocator) : Prop := {
  fr_live : ∀ p, live s' p = live s p;
  fr_ram : ram s' = ram s;
  fr_lock : lock_ s' = lock_ s;
  fr_base : mem_base s' = mem_base s;
  fr_limit : mem_limit s' = mem_limit s;
  fr_pl : power_largest s' = power_largest s;
  fr_stats : ∀ q i, stats_map s !! q = Some i → stats_map s' !! q = Some i;
}.

(** The pages of a class and the capacity of their list. *)
Definition pages_of (s : allocator) (k : Z) : option (Z * Z) :=
  (λ c, (sc_slabs c, sc_list_size c)) <$> arr_get (slabclass s) k.

Lemma frame_refl s : frame s s.
Proof. by constructor. Qed.

Lemma frame_trans s1 s2 s3 : frame s1 s2 → frame s2 s3 → frame s1 s3.
Proof. intros [] []. constructor; intros; eauto; etransitivity; eauto. Qed.

(** ** [do_slabs_free] *)

Lemma in_cls_range sh k : shape_ok sh → in_cls sh k → 1 ≤ k ≤ 200.
Proof. intros [] ?. unfold in_cls, POWER_SMALLEST, POWER_LARGEST in *. lia. Qed.

(** [if(it->next) it->next->prev = it] *)
Lemma swp_relink {A} its s p f (m : SM A) Q :
  items s = its →
  (p ≠ NULL → is_Some (its !! p)) → (∀ it, core_eq it (f it)) →
  (∀ its', (∀ j, option_Forall2 core_eq (its !! j) (its' !! j)) →
    swp False m Q (s <| items := its' |>)) →
  swp False ((if negb (p =? NULL) then put_item p f else mret ());; m) Q s.
Proof.
  intros <- Hp Hf Hm. assert (∀ o : option item, option_Forall2 core_eq o o) as Hrefl.
  { intros []; constructor. done. }
  sstep. destruct (Z.eqb_spec p NULL) as [|Hnz]; cbn [negb].
  - sstep. specialize (Hm (items s) (λ j, Hrefl _)). by destruct s.
  - destruct (Hp Hnz) as (it & Hi). sstep; [exact Hi|]. apply Hm. intros j.
    destruct (decide (j = p)) as [->|].
    + rewrite lookup_insert_eq, Hi. by constructor.
    + by rewrite lookup_insert_ne.
Qed.

(** The items after one of them has been changed and a neighbour relinked. *)
Lemma relinked_items (its its' : gmap Z item) i it it' :
  (∀ j, option_Forall2 core_eq (<[i := it']> its !! j) (its' !! j)) → its !! i = Some it →
  it_data it' = it_data it → it_clsid it' = it_clsid it → it_size it' = it_size it →
  (∀ j jt', its' !! j = Some jt' → ∃ jt, its !! j = Some jt ∧ it_data jt' = it_data jt) ∧
  (∀ j jt, its !! j = Some jt → ∃ jt', its' !! j = Some jt' ∧
    it_clsid jt' = it_clsid jt ∧ (it_clsid jt ≠ 0 → it_size jt' = it_size jt)) ∧
  (∀ j, its !! j = None → its' !! j = None).
Proof.
  intros He Hi E1 E2 E3. split_and!.
  - intros j jt' Hj. specialize (He j). rewrite Hj in He.
    destruct (decide (j = i)) as [->|].
    + rewrite lookup_insert_eq in He. inversion He as [? ? (_ & _ & _ & Hd)|]; subst.
      exists it. split; [done|congruence].
    + rewrite lookup_insert_ne in He by done.
      inversion He as [? ? (_ & _ & _ & Hd)|]; subst. eauto.
  - intros j jt Hj. specialize (He j). destruct (decide (j = i)) as [->|].
    + rewrite lookup_insert_eq in He. inversion He as [? b (_ & Hs & Hc & _)|]; subst.
      exists b. replace jt with it by congruence. split; [done|]. split; [congruence|].
      intros _. congruence.
    + rewrite lookup_insert_ne, Hj in He by done.
      inversion He as [? b (_ & Hs & Hc & _)|]; subst. eauto.
  - intros j Hj. specialize (He j). rewrite lookup_insert_ne, Hj in He by congruence.
    by inversion He.
Qed.

Lemma do_slabs_free_hole sh hm fl n i s ptr size k it :
  slab_inv sh hm fl n i s → hm i = k → stats_map s !! ptr = Some i →
  items s !! i = Some it → it_clsid it = 0 →
  swp False (do_slabs_free ptr size k)
    (λ _ s', slab_inv sh hm (fl_set fl k (i :: fl k)) n 0 s' ∧ frame s s' ∧
             stats_map s' = stats_map s ∧ next_item s' = next_item s ∧
             mem_current s' = mem_current s ∧ mem_avail s' = mem_avail s ∧
             mem_malloced s' = mem_malloced s ∧
             (∀ j, pages_of s' j = pages_of s j) ∧
             (∀ j jt', items s' !! j = Some jt' → ∃ jt, items s !! j = Some jt ∧
               it_data jt' = it_data jt)) s.
Proof.
  intros I Hk Hst Hi Hz. pose proof (si_id _ _ _ _ _ _ I i it Hi) as [Hid Hcls].
  rewrite Hk in Hcls. pose proof (si_shape _ _ _ _ _ _ I) as Sh.
  destruct (si_class _ _ _ _ _ _ I k Hcls) as (c & Hc & Ho).
  assert (it_data it = ptr) as Hd.
  { apply (si_stats _ _ _ _ _ _ I) in Hst as (it' & ? & ?). congruence. }
  unfold do_slabs_free. sstep. sstep. sstep. sstep.
  { rewrite (si_pl _ _ _ _ _ _ I). destruct Hcls. intros Hb. zbool.
    apply andb_false_iff in Hb as [Hb|Hb]; zbool; lia. }
  intros _. sstep. sstep; [exact Hc|]. sstep. sstep. rewrite Hst. cbn beta iota.
  sstep. sstep. sstep. sstep; [exact Hi|]. sstep. sstep; [apply lookup_insert_eq|].
  sstep. sstep; [apply lookup_insert_eq|]. sstep. sstep; [apply lookup_insert_eq|].
  cbn. rewrite !insert_insert_eq.
  set (it' := it <| it_data := ptr |> <| it_flags := _ |> <| it_prev := _ |> <| it_next := _ |>).
  apply (swp_relink (<[i := it']> (items s))); [done| |done|].
  { intros Hnz. pose proof (co_slots _ _ _ _ _ _ Ho) as Hch.
    destruct (fl k) as [|j l]; [done|]. destruct Hch as (-> & jt & Hj & _).
    destruct (decide (j = i)) as [->|]; [by rewrite lookup_insert_eq|].
    rewrite lookup_insert_ne by done. eauto. }
  intros its' He. sstep. sstep; [exact Hc|].
  set (c' := c <| sc_slots := _ |> <| sc_sl_curr := _ |> <| sc_requested := _ |>).
  assert (slab_inv sh hm (fl_set fl k (i :: fl k)) n 0 (s <| items := its' |>
    <| slabclass := <[Z.to_nat k := c']> (slabclass s) |>)) as I'.
  { eapply slab_inv_view; cycle 1.
    - eapply slab_inv_core; cycle 1.
      + eapply (slab_inv_push sh hm fl n i s k it it' c c'); eauto. by split_and!.
      + exact He.
    - done. }
  destruct (relinked_items (items s) its' i it it' He Hi) as (Hb & Hf & Hnone); [done..|].
  assert (∀ s', view s' = view (s <| items := its' |>
      <| slabclass := <[Z.to_nat k := c']> (slabclass s) |>) →
    ram s' = ram s → lock_ s' = lock_ s → mem_malloced s' = mem_malloced s →
    slab_inv sh hm (fl_set fl k (i :: fl k)) n 0 s' ∧ frame s s' ∧
    stats_map s' = stats_map s ∧ next_item s' = next_item s ∧
    mem_current s' = mem_current s ∧ mem_avail s' = mem_avail s ∧
    mem_malloced s' = mem_malloced s ∧
    (∀ j, pages_of s' j = pages_of s j) ∧
    (∀ j jt', items s' !! j = Some jt' → ∃ jt, items s !! j = Some jt ∧
      it_data jt' = it_data jt)) as Hend.
  { intros s' V Er El Em. split; [by apply (slab_inv_view _ _ (eq_sym V))|].
    unfold view in V. cbn in V. injection V as V1 V2 V3 V4 V5 V6 V7 V8 V9.
    split_and!; try done.
    - constructor; try done; [|by rewrite V8]. apply live_core; [done| |]; by rewrite V9.
    - intros j. unfold pages_of. rewrite V1.
      rewrite (arr_get_set _ _ k j c' (arr_set_Some _ _ _ (arr_get_range _ _ _ Hc))).
      destruct (Z.eqb_spec j k) as [->|]; [by rewrite Hc|done].
    - rewrite V9. intros j jt' Hj. by apply Hb. }
  clearbody it' c'. sstep; intros _; sstep; by apply Hend.
Qed.

(** ** Chunks seen for the first time *)

Definition fresh_state (s : allocator) (ptr : Z) : allocator :=
  s <| items := <[next_item s := mk_item 0 0 0 0 0 ptr]> (items s) |>
    <| next_item := next_item s + 1 |>
    <| stats_map := <[ptr := next_item s]> (stats_map s) |>.

Lemma do_slabs_free_fresh s ptr size k :
  stats_map s !! ptr = None →
  do_slabs_free ptr size k s = do_slabs_free ptr size k (fresh_state s ptr).
Proof.
  intros Hst. unfold do_slabs_free, mbind, SM_bind, read, assert.
  cbn. destruct (_ && _); cbn; [|done]. unfold get_class. cbn.
  destruct (arr_get (slabclass s) k) as [c|]; cbn; [|done].
  rewrite Hst, lookup_insert_eq. cbn. unfold put_item. cbn.
  rewrite !lookup_insert_eq. cbn. rewrite !lookup_insert_eq. cbn. by rewrite !insert_insert_eq.
Qed.

Lemma slab_inv_fresh sh hm fl n s k ptr :
  slab_inv sh hm fl n 0 s → in_cls sh k → mem_base s ≤ ptr →
  ptr + sh_size sh k ≤ mem_current s → ptr mod CHUNK_ALIGN_BYTES = 0 →
  (∀ i it, items s !! i = Some it → it_data it + sh_size sh (hm i) ≤ ptr) →
  next_item s ≤ 85 * n →
  slab_inv sh (λ i, if i =? next_item s then k else hm i) fl n (next_item s) (fresh_state s ptr).
Proof.
  intros I Hk H1 H2 H3 Htop Hn. pose proof (sho_size _ (si_shape _ _ _ _ _ _ I)) as Hsz.
  assert (items s !! next_item s = None) as Hfresh.
  { apply eq_None_not_Some. intros [it Hi]. apply (si_id _ _ _ _ _ _ I) in Hi. lia. }
  assert (∀ j, in_cls sh j → ∀ i, i ∈ fl j → i ≠ next_item s) as Hfl.
  { intros j Hj i Hi ->. destruct (si_class _ _ _ _ _ _ I j Hj) as (c & _ & Ho).
    destruct (chain_elem _ _ _ _ (co_slots _ _ _ _ _ _ Ho) Hi). congruence. }
  set (hm' := λ i, if i =? next_item s then k else hm i).
  assert (hm' (next_item s) = k) as Hnew by (unfold hm'; by rewrite Z.eqb_refl).
  assert (∀ i it, items s !! i = Some it → hm' i = hm i) as Hold.
  { intros i it Hi. unfold hm'. rewrite (proj2 (Z.eqb_neq _ _)); [done|]. congruence. }
  destruct I. constructor; cbn; try assumption.
  - intros j Hj. destruct (si_class0 j Hj) as (c & Hc & Ho). exists c. split; [done|].
    apply (class_ok_ext _ _ (items s)); [|done]. intros i it Hi Hit. exists it.
    split; [|done]. rewrite lookup_insert_ne; [done|]. intros <-. by apply (Hfl j Hj) in Hi.
  - intros j i Hj Hi. unfold hm'. rewrite (proj2 (Z.eqb_neq _ _)) by eauto. eauto.
  - lia.
  - intros p i. rewrite !lookup_insert_Some, si_stats0. split.
    + intros [[<- <-]|[Hp (it & Hi & <-)]].
      * exists (mk_item 0 0 0 0 0 ptr). by rewrite lookup_insert_eq.
      * exists it. rewrite lookup_insert_ne; [done|]. congruence.
    + intros (it & [[<- <-]|[? Hi]]%lookup_insert_Some & <-); [by left|]. right.
      specialize (Htop i it Hi). specialize (Hsz (hm i) (proj2 (si_id0 i it Hi))).
      split; [lia|eauto].
  - intros i it [[<- <-]|[? Hi]]%lookup_insert_Some; [rewrite Hnew; split; [lia|done]|].
    rewrite (Hold i it Hi). destruct (si_id0 i it Hi). split; [lia|done].
  - intros i it [[<- <-]|[? Hi]]%lookup_insert_Some; [by rewrite Hnew|].
    rewrite (Hold i it Hi). eauto.
  - intros i it [[<- <-]|[? Hi]]%lookup_insert_Some.
    + left. rewrite Hnew. split; [done|]. split; [|done]. intros Hi. by apply (Hfl k Hk) in Hi.
    + rewrite (Hold i it Hi). pose proof (si_id0 i it Hi) as [? _].
      specialize (si_status0 i it Hi). unfold item_status in *.
      assert (i ≠ 0) by lia. assert (i ≠ next_item s) by done. tauto.
  - intros i j it jt [[<- <-]|[? Hi]]%lookup_insert_Some [[<- <-]|[? Hj]]%lookup_insert_Some;
      [done| | |].
    + intros _. right. rewrite (Hold j jt Hj). cbn. eauto.
    + intros _. left. rewrite (Hold i it Hi). cbn. eauto.
    + rewrite (Hold i it Hi), (Hold j jt Hj). eauto.
Qed.

Lemma live_fresh sh hm fl n s ptr :
  slab_inv sh hm fl n 0 s → stats_map s !! ptr = None → frame s (fresh_state s ptr).
Proof.
  intros I Hst. constructor; try done; cbn.
  2: { intros q i Hq. rewrite lookup_insert_ne; [done|]. congruence. }
  intros p. unfold live. cbn.
  destruct (decide (p = ptr)) as [->|].
  - rewrite lookup_insert_eq, Hst. cbn. by rewrite lookup_insert_eq.
  - rewrite lookup_insert_ne by done. destruct (stats_map s !! p) as [i|] eqn:E; [|done]. cbn.
    rewrite lookup_insert_ne; [done|]. apply (si_stats _ _ _ _ _ _ I) in E as (it & Hi & _).
    apply (si_id _ _ _ _ _ _ I) in Hi. lia.
Qed.

(** ** Splitting a page *)

Definition head_data (s : allocator) (l : list Z) (p : Z) : Prop :=
  ∃ i l' it, l = i :: l' ∧ items s !! i = Some it ∧ it_data it = p.

(** [m] chunks of class [k] from [ptr] on have become free. *)
Record split_post (sh : shape) (fl : Z → list Z) (n k m ptr : Z) (s : allocator)
    (hm' : Z → Z) (fl' : Z → list Z) (s' : allocator) : Prop := {
  sp_inv : slab_inv sh hm' fl' n 0 s';
  sp_frame : frame s s';
  sp_other : ∀ j, j ≠ k → fl' j = fl j;
  sp_more : Z.of_nat (length (fl' k)) = Z.of_nat (length (fl k)) + m;
  sp_head : 0 < m → head_data s' (fl' k) (ptr + (m - 1) * sh_size sh k);
  sp_none : m ≤ 0 → fl' k = fl k ∧ items s' = items s;
  sp_pages : ∀ j, pages_of s' j = pages_of s j;
  sp_current : mem_current s' = mem_current s;
  sp_avail : mem_avail s' = mem_avail s;
  sp_malloced : mem_malloced s' = mem_malloced s;
}.

Lemma free_fresh_chunk sh hm fl n s k ptr :
  slab_inv sh hm fl n 0 s → in_cls sh k → mem_base s ≤ ptr →
  ptr + sh_size sh k ≤ mem_current s → ptr mod CHUNK_ALIGN_BYTES = 0 →
  (∀ i it, items s !! i = Some it → it_data it + sh_size sh (hm i) ≤ ptr) →
  next_item s ≤ 85 * n →
  swp False (do_slabs_free ptr 0 k) (λ _ s', ∃ hm' fl',
    split_post sh fl n k 1 ptr s hm' fl' s' ∧ next_item s' = next_item s + 1 ∧
    (∀ i it, items s' !! i = Some it →
      it_data it + sh_size sh (hm' i) ≤ ptr + sh_size sh k)) s.
Proof.
  intros I Hk H1 H2 H3 Htop Hn. pose proof (sho_size _ (si_shape _ _ _ _ _ _ I) k Hk) as Hsz.
  assert (stats_map s !! ptr = None) as Hst.
  { apply eq_None_not_Some. intros [i Hi]. apply (si_stats _ _ _ _ _ _ I) in Hi as (it & Hi & E).
    specialize (Htop i it Hi).
    pose proof (sho_size _ (si_shape _ _ _ _ _ _ I) (hm i) (proj2 (si_id _ _ _ _ _ _ I i it Hi))).
    lia. }
  unfold swp. rewrite do_slabs_free_fresh by done.
  pose proof (slab_inv_fresh _ _ _ _ _ _ _ I Hk H1 H2 H3 Htop Hn) as I1.
  set (hm' := λ i, if i =? next_item s then k else hm i) in I1.
  assert (hm' (next_item s) = k) as Hnew by (unfold hm'; by rewrite Z.eqb_refl).
  pose proof (live_fresh _ _ _ _ _ _ I Hst) as Hfr.
  pose proof (do_slabs_free_hole sh hm' fl n (next_item s) (fresh_state s ptr) ptr 0 k
    (mk_item 0 0 0 0 0 ptr) I1 Hnew (lookup_insert_eq _ _ _) (lookup_insert_eq _ _ _)
    eq_refl) as Hfree.
  apply (swp_mono _ _ _ _ Hfree). clear Hfree.
  intros _ s' (I2 & Hfr2 & _ & Hnx & Hcur & Hav & Hmm & Hpg & Hback). exists hm'. eexists. split.
  - constructor; [exact I2|by eapply frame_trans|..].
    + intros j ?. unfold fl_set. by rewrite (proj2 (Z.eqb_neq _ _)).
    + unfold fl_set. rewrite Z.eqb_refl. cbn [length]. lia.
    + intros _. unfold fl_set. rewrite Z.eqb_refl.
      assert (next_item s ∈ fl_set fl k (next_item s :: fl k) k) as Hin.
      { unfold fl_set. rewrite Z.eqb_refl. by left. }
      destruct (si_class _ _ _ _ _ _ I2 k Hk) as (c & _ & Ho).
      destruct (chain_elem _ _ _ _ (co_slots _ _ _ _ _ _ Ho) Hin) as (it & Hit).
      exists (next_item s), (fl k), it. split_and!; [done..|].
      destruct (Hback _ _ Hit) as (it0 & Hit0 & ->). cbn in Hit0.
      rewrite lookup_insert_eq in Hit0. injection Hit0 as <-. cbn. lia.
    + lia.
    + intros j. by rewrite Hpg.
    + by rewrite Hcur.
    + by rewrite Hav.
    + by rewrite Hmm.
  - split; [by rewrite Hnx|]. intros i it Hi. destruct (Hback i it Hi) as (it0 & Hit0 & ->).
    cbn in Hit0. apply lookup_insert_Some in Hit0 as [[<- <-]|[? Hit0]].
    + rewrite Hnew. cbn. lia.
    + unfold hm'. rewrite (proj2 (Z.eqb_neq _ _)) by done. specialize (Htop i it0 Hit0). lia.
Qed.

Lemma split_chunks_spec sh n k m s hm fl ptr :
  slab_inv sh hm fl n 0 s → in_cls sh k → mem_base s ≤ ptr →
  ptr + Z.of_nat m * sh_size sh k ≤ mem_current s → ptr mod CHUNK_ALIGN_BYTES = 0 →
  (∀ i it, items s !! i = Some it → it_data it + sh_size sh (hm i) ≤ ptr) →
  next_item s + Z.of_nat m ≤ 1 + 85 * n →
  swp False (split_chunks m ptr (sh_size sh k) k) (λ _ s', ∃ hm' fl',
    split_post sh fl n k (Z.of_nat m) ptr s hm' fl' s') s.
Proof.
  revert s hm fl ptr. induction m as [|m IH]; intros s hm fl ptr I Hk H1 H2 H3 Htop Hn.
  { cbn. exists hm, fl. constructor; first [done|apply frame_refl|lia]. }
  pose proof (sho_size _ (si_shape _ _ _ _ _ _ I) k Hk) as Hsz.
  pose proof (sho_align _ (si_shape _ _ _ _ _ _ I) k Hk) as Hal.
  cbn [split_chunks]. sstep. eapply swp_mono.
  { apply (free_fresh_chunk sh hm fl n); try done; nia. }
  intros _ s1 (hm1 & fl1 & P1 & Hn1 & Htop1).
  pose proof (sp_frame _ _ _ _ _ _ _ _ _ _ P1) as F1.
  eapply swp_mono.
  - apply (IH s1 hm1 fl1); [apply (sp_inv _ _ _ _ _ _ _ _ _ _ P1)|done|..].
    + rewrite (fr_base _ _ F1). lia.
    + rewrite (sp_current _ _ _ _ _ _ _ _ _ _ P1). nia.
    + by rewrite Z.add_mod, H3, Hal by done.
    + done.
    + lia.
  - intros _ s2 (hm2 & fl2 & P2). exists hm2, fl2. destruct P1, P2. constructor; try done.
    + by eapply frame_trans.
    + intros j ?. rewrite sp_other1, sp_other0; done.
    + lia.
    + intros _. destruct m as [|m].
      * destruct sp_none1 as [E1 E2]; [lia|]. destruct sp_head0 as (i & l & it & E & Hi & Hd); [lia|].
        exists i, l, it. rewrite E1, E2, Hd. split_and!; [done..|lia].
      * destruct sp_head1 as (i & l & it & E & Hi & Hd); [lia|].
        exists i, l, it. split_and!; [done..|]. rewrite Hd. nia.
    + intros j. by rewrite sp_pages1.
    + congruence.
    + congruence.
    + congruence.
Qed.

(** ** A new page *)

Lemma slab_inv_page sh hm fl n s s' :
  slab_inv sh hm fl n 0 s → item_size_max ≤ mem_avail s →
  view s' = view (s <| mem_current := mem_current s + item_size_max |>
    <| mem_avail := mem_avail s - item_size_max |>) →
  slab_inv sh hm fl (n + 1) 0 s'.
Proof.
  intros I Ha V. eapply slab_inv_view; [symmetry; exact V|]. clear V.
  change item_size_max with 4096 in *. destruct I. change item_size_max with 4096 in *.
  constructor; cbn; change item_size_max with 4096; try assumption; try lia.
  - intros k Hk. destruct (si_class0 k Hk) as (c & Hc & []). exists c. split; [done|].
    constructor; try assumption; lia.
  - intros i it Hi. destruct (si_range0 i it Hi) as (? & ? & ?). split_and!; [done|lia|done].
Qed.

Section pages.
Context (realloc_ok : Z → bool).

(** Why a class may get no more pages. *)
Definition no_page (s : allocator) : Prop :=
  mem_avail s < item_size_max ∨ mem_limit s < wrap 64 (mem_malloced s + item_size_max) ∨
  ∃ b, realloc_ok b = false.

Lemma grow_slab_list_spec sh hm fl n s k :
  slab_inv sh hm fl n 0 s → in_cls sh k →
  swp False (grow_slab_list realloc_ok k) (λ r s',
    slab_inv sh hm fl n 0 s' ∧ frame s s' ∧ mem_current s' = mem_current s ∧
    mem_avail s' = mem_avail s ∧ mem_malloced s' = mem_malloced s ∧
    (r = 0 ∧ (∃ b, realloc_ok b = false) ∨
     r = 1 ∧ ∃ a b, pages_of s' k = Some (a, b) ∧ a < b)) s.
Proof.
  intros I Hk. destruct (si_class _ _ _ _ _ _ I k Hk) as (c & Hc & Ho).
  pose proof (pages_bound _ I) as Hn. unfold grow_slab_list. sstep. sstep; [exact Hc|].
  destruct (Z.eqb_spec (sc_slabs c) (sc_list_size c)) as [E|E].
  - set (m := if negb (sc_list_size c =? 0) then wrap 32 (sc_list_size c * 2) else 16).
    assert (sc_list_size c < m ≤ 16 `max` (2 * n)) as Hm.
    { unfold m. destruct Ho. destruct (Z.eqb_spec (sc_list_size c) 0); cbn; [lia|].
      rewrite wrap_small; [lia|]. unfold fits. lia. }
    sstep; intros Er; sstep.
    + apply negb_true_iff in Er. split_and!; eauto using frame_refl.
    + sstep; [exact Hc|]. sstep. cbn beta.
      set (c' := c <| sc_list_size := m |> <| sc_slab_list := _ |>).
      split_and!; [|by constructor|done..|].
      * apply (slab_inv_class s k c c'); [done..|]. intros []. constructor; cbn; try done; try lia.
        rewrite length_app, length_take, length_replicate. lia.
      * right. split; [done|]. exists (sc_slabs c), m. split; [|lia].
        unfold pages_of. cbn.
        by rewrite (arr_get_set _ _ k k c' (arr_set_Some _ _ _ (arr_get_range _ _ _ Hc))), Z.eqb_refl.
  - sstep. split_and!; try done. right. split; [done|].
    exists (sc_slabs c), (sc_list_size c). unfold pages_of. rewrite Hc.
    split; [done|]. destruct Ho. lia.
Qed.

Lemma memory_allocate_spec s Q :
  mem_base s ≠ NULL →
  (mem_avail s < item_size_max → Q NULL s) →
  (item_size_max ≤ mem_avail s → Q (mem_current s)
    (s <| mem_current := mem_current s + item_size_max |>
       <| mem_avail := mem_avail s - item_size_max |>)) →
  swp False (memory_allocate item_size_max) Q s.
Proof.
  intros Hb H0 H1. unfold swp, memory_allocate.
  rewrite (proj2 (Z.eqb_neq _ _) Hb), align8_id by done.
  destruct (Z.ltb_spec (mem_avail s) item_size_max) as [|Hle]; [auto|].
  specialize (H1 Hle). destruct (Z.ltb_spec item_size_max (mem_avail s)) as [|]; [done|].
  by replace (mem_avail s - item_size_max) with 0 in H1 by lia.
Qed.

Lemma add_slab_spec sh hm fl n s k a b ptr :
  slab_inv sh hm fl n 0 s → in_cls sh k → pages_of s k = Some (a, b) → a < b → a < n →
  swp False (add_slab ptr k) (λ _ s', slab_inv sh hm fl n 0 s' ∧ frame s s' ∧
    items s' = items s ∧ mem_current s' = mem_current s ∧ mem_avail s' = mem_avail s ∧
    mem_malloced s' = mem_malloced s) s.
Proof.
  intros I Hk Hp Hab Han. destruct (si_class _ _ _ _ _ _ I k Hk) as (c & Hc & Ho).
  unfold pages_of in Hp. rewrite Hc in Hp. injection Hp as <- <-.
  pose proof (pages_bound _ I) as Hn. unfold add_slab. sstep. sstep; [exact Hc|]. sstep.
  eapply swp_of_option. { apply arr_set_Some. destruct Ho. lia. }
  sstep; [exact Hc|]. cbn beta. set (c' := c <| sc_slab_list := _ |> <| sc_slabs := _ |>).
  split_and!; [|by constructor|done..].
  apply (slab_inv_class s k c c'); [done..|]. intros [].
  assert (wrap 32 (sc_slabs c + 1) = sc_slabs c + 1) as Hw.
  { apply wrap_small. unfold fits. lia. }
  constructor; cbn; rewrite ?Hw, ?length_insert; try done; lia.
Qed.

(** A page more for class [k]: its chunks are free, the last one first. *)
Record page_added (sh : shape) (fl : Z → list Z) (n k : Z) (s : allocator)
    (fl' : Z → list Z) (s' : allocator) : Prop := {
  pa_inv : ∃ hm', slab_inv sh hm' fl' (n + 1) 0 s';
  pa_frame : frame s s';
  pa_other : ∀ j, j ≠ k → fl' j = fl j;
  pa_more : Z.of_nat (length (fl' k)) = Z.of_nat (length (fl k)) + item_size_max / sh_size sh k;
  pa_head : head_data s' (fl' k)
    (mem_current s + (item_size_max / sh_size sh k - 1) * sh_size sh k);
  pa_current : mem_current s' = mem_current s + item_size_max;
  pa_avail : mem_avail s' = mem_avail s - item_size_max;
  pa_malloced : mem_malloced s' = wrap 64 (mem_malloced s + item_size_max);
}.

(** The chunks of the page at [ptr], the last one cut off, become free. *)
Lemma fill_page sh hm fl n s s1 k a b :
  slab_inv sh hm fl n 0 s1 → frame s s1 → in_cls sh k →
  mem_current s1 = mem_current s → mem_avail s1 = mem_avail s →
  mem_malloced s1 = mem_malloced s →
  pages_of s1 k = Some (a, b) → a < b → a ≤ n → item_size_max ≤ mem_avail s1 →
  swp False
    (split_slab_page_into_freelist (mem_current s1) k;; add_slab (mem_current s1) k;;
     update (λ s, s <| mem_malloced := wrap 64 (mem_malloced s + item_size_max) |>);; mret 1)
    (λ r s', r = 1 ∧ ∃ fl', page_added sh fl n k s fl' s')
    (s1 <| mem_current := mem_current s1 + item_size_max |>
        <| mem_avail := mem_avail s1 - item_size_max |>).
Proof.
  intros I F1 Hk E1 E2 E3 Hpg Hab Han Hav. set (s2 := s1 <| mem_current := _ |> <| mem_avail := _ |>).
  pose proof (slab_inv_page _ _ _ _ _ s2 I Hav eq_refl) as I2.
  destruct (si_class _ _ _ _ _ _ I2 k Hk) as (c & Hc & Ho).
  pose proof (sho_size _ (si_shape _ _ _ _ _ _ I) k Hk) as Hsz.
  pose proof (si_base _ _ _ _ _ _ I) as [Hb Hb8]. pose proof (si_current _ _ _ _ _ _ I) as Hcur.
  pose proof (si_limit _ _ _ _ _ _ I) as Hl. pose proof (si_next _ _ _ _ _ _ I) as Hnx.
  assert (1 ≤ item_size_max / sh_size sh k ≤ 85 ∧
    item_size_max / sh_size sh k * sh_size sh k ≤ item_size_max) as Hq.
  { change item_size_max with 4096 in *. clear -Hsz.
    split; [split|]; [apply Z.div_le_lower_bound; lia| |].
    - transitivity (4096 / 48); [apply Z.div_le_compat_l; lia|done].
    - rewrite Z.mul_comm. apply Z.mul_div_le. lia. }
  sstep. unfold split_slab_page_into_freelist. sstep. sstep; [exact Hc|].
  rewrite (co_size _ _ _ _ _ _ Ho), (co_perslab _ _ _ _ _ _ Ho).
  eapply swp_mono.
  { apply (split_chunks_spec sh (n + 1) k (Z.to_nat (item_size_max / sh_size sh k)) s2 hm fl
      (mem_current s1)); rewrite ?Z2Nat.id by lia; cbn; change item_size_max with 4096 in *.
    - done.
    - done.
    - lia.
    - lia.
    - rewrite Hcur. rewrite Z.add_mod, Hb8 by done. unfold CHUNK_ALIGN_BYTES. cbn. divlia.
    - intros i it Hi. destruct (si_range _ _ _ _ _ _ I i it Hi) as (_ & ? & _). lia.
    - lia. }
  intros _ s3 (hm' & fl' & P). rewrite Z2Nat.id in P by lia. cbn beta.
  sstep. eapply swp_mono.
  { eapply (add_slab_spec sh hm' fl' (n + 1) s3 k a b); [by apply (sp_inv _ _ _ _ _ _ _ _ _ _ P)|done| |done|lia].
    by rewrite (sp_pages _ _ _ _ _ _ _ _ _ _ P). }
  intros _ s4 (I4 & F4 & G1 & G2 & G3 & G4). sstep. sstep. sstep. split; [done|]. exists fl'.
  destruct P. constructor; cbn.
  - exists hm'. by apply (slab_inv_view s4).
  - apply (frame_trans _ s1); [done|]. apply (frame_trans _ s2); [by constructor|].
    apply (frame_trans _ s3); [done|]. apply (frame_trans _ s4); [done|by constructor].
  - done.
  - done.
  - destruct sp_head0 as (i & l & it & ? & ? & ?); [lia|]. exists i, l, it. cbn.
    by rewrite G1, <-E1.
  - rewrite G2, sp_current0. cbn. lia.
  - rewrite G3, sp_avail0. cbn. lia.
  - rewrite G4, sp_malloced0. cbn. by rewrite E3.
Qed.

Lemma newslab_spec sh hm fl n s k :
  slab_inv sh hm fl n 0 s → in_cls sh k →
  swp False (do_slabs_newslab realloc_ok k) (λ r s',
    (r = 0 ∧ no_page s ∧ slab_inv sh hm fl n 0 s' ∧ frame s s') ∨
    (r = 1 ∧ ∃ fl', page_added sh fl n k s fl' s')) s.
Proof.
  intros I Hk. destruct (si_class _ _ _ _ _ _ I k Hk) as (c & Hc & Ho).
  pose proof (si_shape _ _ _ _ _ _ I) as Sh. pose proof (sho_size _ Sh k Hk) as Hsz.
  pose proof (si_base _ _ _ _ _ _ I) as [Hb Hb8].
  change item_size_max with 4096 in Hsz. unfold do_slabs_newslab.
  sstep. sstep; [exact Hc|]. cbn [slab_reassign]. cbn zeta. sstep. sstep. cbn beta.
  sstep; intros Hfull.
  { sstep. left. split_and!; [done| |done|apply frame_refl]. right. left.
    apply andb_true_iff in Hfull as [[_ Hf]%andb_true_iff _]. by zbool. }
  sstep. eapply swp_mono; [by apply (grow_slab_list_spec sh hm fl n)|]. cbn beta.
  intros r s1 (I1 & F1 & E1 & E2 & E3 & Hr). sstep; intros Er; zbool.
  { sstep. left. destruct Hr as [[_ Hno]|[-> _]]; [|done]. split_and!; try done.
    right. by right. }
  destruct Hr as [[-> _]|(-> & a & b & Hpg & Hab)]; [done|].
  assert (a ≤ n) as Han.
  { destruct (si_class _ _ _ _ _ _ I1 k Hk) as (c1 & Hc1 & []). unfold pages_of in Hpg.
    rewrite Hc1 in Hpg. injection Hpg as <- <-. done. }
  sstep. change (wrap 64 item_size_max) with item_size_max. apply memory_allocate_spec.
  { rewrite (fr_base _ _ F1). unfold NULL. lia. }
  { intros Hlow. sstep; intros E; [|by cbn in E]. sstep. left.
    split_and!; [done| |done..]. left. by rewrite <-E2. }
  intros Hav. sstep; intros E; zbool.
  { pose proof (si_current _ _ _ _ _ _ I1) as Hcur. pose proof (si_limit _ _ _ _ _ _ I1) as Hl.
    rewrite (fr_base _ _ F1) in Hcur. unfold NULL in E. change item_size_max with 4096 in *. lia. }
  eapply swp_mono; [by apply (fill_page sh hm fl n s s1 k a b)|]. auto.
Qed.
End pages.

(** ** Allocation *)

(** Block [p] of [m] bytes is allocated. *)
Record allocated (s s' : allocator) (p m : Z) : Prop := {
  al_before : live s p = None;
  al_after : live s' p = Some m;
  al_others : ∀ q, q ≠ p → live s' q = live s q;
  al_ram : ram s' = ram s;
  al_lock : lock_ s' = lock_ s;
  al_base : mem_base s' = mem_base s;
  al_limit : mem_limit s' = mem_limit s;
  al_stats : ∀ q i, stats_map s !! q = Some i → stats_map s' !! q = Some i;
}.

Lemma slab_inv_pop sh hm fl n s k i l it it' c c' m :
  slab_inv sh hm fl n 0 s → fl k = i :: l → items s !! i = Some it → fits_class sh m k →
  0 < m → arr_get (slabclass s) k = Some c →
  it_size it' = m → it_clsid it' = k → it_data it' = it_data it →
  c' = c <| sc_slots := it_next it |> <| sc_sl_curr := Z.of_nat (length l) |> →
  slab_inv sh hm (fl_set fl k l) n 0
    (s <| items := <[i := it']> (items s) |>
       <| slabclass := <[Z.to_nat k := c']> (slabclass s) |>).
Proof.
  intros I Hl Hi Hfit Hm Hc P1 P2 P3 ->. pose proof Hfit as [Hk _].
  assert (i ∈ fl k) as Hin by (rewrite Hl; by left).
  pose proof (si_home _ _ _ _ _ _ I k i Hk Hin) as Hhm.
  pose proof (si_nodup _ _ _ _ _ _ I k) as Hnd. rewrite Hl in Hnd.
  apply NoDup_cons in Hnd as [Hil Hnd]. pose proof (arr_get_range _ _ _ Hc) as Hr.
  assert (∀ j jt, <[i := it']> (items s) !! j = Some jt →
    ∃ jt', items s !! j = Some jt' ∧ it_data jt = it_data jt' ∧ (j ≠ i → jt = jt')) as Hb.
  { intros j jt [[-> ->]|[? Hj]]%lookup_insert_Some; [|eauto 6]. exists it.
    split_and!; congruence. }
  destruct I. constructor; cbn; try assumption.
  - by rewrite length_insert.
  - intros j Hj. destruct (si_class0 j Hj) as (cj & Hcj & Ho).
    rewrite (arr_get_set _ _ k j _ (arr_set_Some _ _ _ Hr)).
    unfold fl_set. destruct (Z.eqb_spec j k) as [->|].
    + eexists. split; [done|]. replace cj with c in * by congruence. destruct Ho.
      rewrite Hl in co_slots0. destruct co_slots0 as (_ & it0 & Hi0 & Hch).
      replace it0 with it in * by congruence. constructor; cbn; try assumption; [|done].
      apply (chain_ext (items s)); [|done]. intros j jt Hjl Hj'. exists jt.
      rewrite lookup_insert_ne by (intros ->; done). done.
    + exists cj. split; [done|]. apply (class_ok_ext _ _ (items s)); [|done].
      intros a at' Ha Hat. exists at'. rewrite lookup_insert_ne; [done|].
      intros <-. apply si_home0 in Ha; [congruence|done].
  - intros j. unfold fl_set. by destruct (Z.eqb_spec j k).
  - intros j a. unfold fl_set. destruct (Z.eqb_spec j k) as [->|]; [|eauto].
    intros ? ?. apply si_home0; [done|]. rewrite Hl. by right.
  - intros p j. rewrite si_stats0. split.
    + intros (jt & Hj & <-). destruct (decide (j = i)) as [->|].
      * exists it'. rewrite lookup_insert_eq. split; [done|]. congruence.
      * exists jt. by rewrite lookup_insert_ne.
    + intros (jt & Hj & <-). destruct (Hb j jt Hj) as (? & ? & -> & _). eauto.
  - intros j jt Hj. destruct (Hb j jt Hj) as (? & ? & _). eauto.
  - intros j jt Hj. destruct (Hb j jt Hj) as (? & ? & -> & _). eauto.
  - intros j jt Hj. destruct (Hb j jt Hj) as (jt' & Hj' & _ & Es).
    assert (j ≠ 0) as Hj0 by (destruct (si_id0 j jt' Hj'); lia).
    specialize (si_status0 j jt' Hj'). unfold item_status, fl_set in *.
    destruct (decide (j = i)) as [->|Hji].
    + rewrite lookup_insert_eq in Hj. injection Hj as <-. right.
      rewrite Hhm, Z.eqb_refl, P1, P2. done.
    + rewrite (Es Hji). destruct (Z.eqb_spec (hm j) k) as [Ek|]; [|tauto].
      rewrite Ek, Hl, elem_of_cons in si_status0. rewrite Ek. tauto.
  - intros a b at' bt Ha Hb2. destruct (Hb a at' Ha) as (? & ? & -> & _).
    destruct (Hb b bt Hb2) as (? & ? & -> & _). eauto.
Qed.

Lemma option_core_lookup (its its' : gmap Z item) j jt :
  (∀ j, option_Forall2 core_eq (its !! j) (its' !! j)) → its !! j = Some jt →
  ∃ jt', its' !! j = Some jt' ∧ core_eq jt jt'.
Proof. intros He Hj. specialize (He j). rewrite Hj in He. inversion He; subst; eauto. Qed.

Lemma option_core_none (its its' : gmap Z item) j :
  (∀ j, option_Forall2 core_eq (its !! j) (its' !! j)) → its !! j = None → its' !! j = None.
Proof. intros He Hj. specialize (He j). rewrite Hj in He. by inversion He. Qed.

(** Item [i], free until now, is allocated, its neighbour having been relinked. *)
Lemma allocated_item s s' its' i it it' p k m :
  stats_map s !! p = Some i → items s !! i = Some it → it_clsid it = 0 → k ≠ 0 →
  (∀ q, stats_map s !! q = Some i → q = p) →
  (∀ j, option_Forall2 core_eq (items s !! j) (its' !! j)) →
  it_clsid it' = k → it_size it' = m →
  stats_map s' = stats_map s → items s' = <[i := it']> its' →
  ram s' = ram s → lock_ s' = lock_ s → mem_base s' = mem_base s → mem_limit s' = mem_limit s →
  allocated s s' p m.
Proof.
  intros Hs Hi Hz Hk Hu He P1 P2 E1 E2 ?? ??. constructor; try done; [..|by rewrite E1];
    unfold live.
  - rewrite Hs. cbn. rewrite Hi. cbn. by rewrite Hz.
  - rewrite E1, Hs. cbn. rewrite E2, lookup_insert_eq. cbn. rewrite P1, P2.
    by rewrite (proj2 (Z.eqb_neq _ _)).
  - intros q Hq. rewrite E1. destruct (stats_map s !! q) as [j|] eqn:Ej; [|done]. cbn.
    rewrite E2, lookup_insert_ne by (intros <-; by apply Hq, Hu).
    destruct (items s !! j) as [jt|] eqn:Ejt.
    + destruct (option_core_lookup _ _ _ _ He Ejt) as (jt' & -> & _ & Es & Ec & _). cbn.
      by rewrite Es, Ec.
    + by rewrite (option_core_none _ _ _ He Ejt).
Qed.

(** The first free item of a class. *)
Lemma free_head sh hm fl n s k i l :
  slab_inv sh hm fl n 0 s → in_cls sh k → fl k = i :: l →
  ∃ c it, arr_get (slabclass s) k = Some c ∧ items s !! i = Some it ∧ sc_slots c = i ∧
    chain (items s) (it_next it) l ∧ it_clsid it = 0 ∧
    sc_sl_curr c = Z.of_nat (S (length l)) ∧ fits 32 (sc_sl_curr c) ∧ i ≠ NULL.
Proof.
  intros I Hk Hl. destruct (si_class _ _ _ _ _ _ I k Hk) as (c & Hc & Ho).
  pose proof (co_slots _ _ _ _ _ _ Ho) as Hch. pose proof (co_curr _ _ _ _ _ _ Ho) as Hcur.
  pose proof (free_bound _ _ I Hk) as Hbd. pose proof (pages_bound _ I) as Hn.
  assert (i ∈ fl k) as Hin by (rewrite Hl; by left).
  pose proof (si_home _ _ _ _ _ _ I k i Hk Hin) as Hhm.
  rewrite Hl in Hch, Hcur, Hbd. destruct Hch as (Hslot & it & Hi & Hch).
  exists c, it. pose proof (si_id _ _ _ _ _ _ I i it Hi) as [Hid _]. cbn [length] in *.
  split_and!; try done.
  - destruct (si_status _ _ _ _ _ _ I i it Hi) as [[? _]|(_ & _ & Hni & _)]; [done|].
    by rewrite Hhm in Hni.
  - rewrite Hcur. unfold fits. lia.
  - unfold NULL. lia.
Qed.

Lemma take_item_spec sh hm fl n s k i l m :
  slab_inv sh hm fl n 0 s → fl k = i :: l → fits_class sh m k → 0 < m →
  swp False (take_item m k) (λ p s', slab_inv sh hm (fl_set fl k l) n 0 s' ∧
    allocated s s' p m ∧ head_data s (fl k) p ∧ power_largest s' = power_largest s ∧
    mem_current s' = mem_current s ∧ mem_avail s' = mem_avail s ∧
    mem_malloced s' = mem_malloced s) s.
Proof.
  intros I Hl Hfit Hm. pose proof Hfit as [Hk [Hmk _]].
  pose proof (in_cls_range _ _ (si_shape _ _ _ _ _ _ I) Hk) as Hk'.
  pose proof (sho_size _ (si_shape _ _ _ _ _ _ I) k Hk) as Hsz.
  change item_size_max with 4096 in Hsz.
  destruct (free_head _ _ _ _ _ _ _ _ I Hk Hl) as (c & it & Hc & Hi & Hslot & Hch & Hz & Hcur & Hfc & Hi0).
  unfold take_item. sstep. sstep; [exact Hc|]. cbn zeta. sstep. rewrite Hslot.
  sstep; [exact Hi|]. sstep. sstep; [exact Hc|].
  apply (swp_relink (items s)); [done| |done|].
  { intros Hnz. destruct l as [|j l']; [done|]. destruct Hch as (-> & jt & Hj & _). eauto. }
  intros its' He. destruct (option_core_lookup _ _ _ _ He Hi) as (it1 & Hi1 & G1 & G2 & G3 & G4).
  sstep. sstep; [exact Hi1|]. sstep.
  sstep. { cbn. rewrite (arr_get_set _ _ k k _ (arr_set_Some _ _ _ (arr_get_range _ _ _ Hc))).
    by rewrite Z.eqb_refl. }
  sstep. cbn -[to_int]. rewrite list_insert_insert_eq.
  rewrite (to_int_small m), (wrap_small 8 k) by (unfold fits; lia).
  set (it' := it1 <| it_size := _ |> <| it_clsid := _ |>).
  split; [|split].
  - set (c' := c <| sc_slots := it_next it |> <| sc_sl_curr := Z.of_nat (length l) |>).
    pose proof (slab_inv_core _ its' He I) as I1.
    assert (c' = c <| sc_slots := it_next it1 |> <| sc_sl_curr := Z.of_nat (length l) |>) as Ec
      by (unfold c'; by rewrite G1).
    pose proof (slab_inv_pop sh hm fl n (s <| items := its' |>) k i l it1 it' c c' m I1 Hl Hi1
      Hfit Hm Hc eq_refl eq_refl eq_refl Ec) as I2.
    eapply slab_inv_view; [|exact I2]. unfold view. cbn. repeat f_equal.
    rewrite wrap_small; [unfold c'; repeat f_equal; lia|]. unfold fits in *. lia.
  - apply (allocated_item s _ its' i it it' _ k m); try done; cbn.
    + apply (si_stats _ _ _ _ _ _ I). eauto.
    + lia.
    + intros q Hq. apply (si_stats _ _ _ _ _ _ I) in Hq as (? & ? & ?). congruence.
  - split_and!; try done. rewrite Hl. exists i, l, it. done.
Qed.

(** Where the block [p] of class [k] comes from: the free list, or else a new page. *)
Record alloc_post (sh : shape) (fl : Z → list Z) (n k p m : Z) (s : allocator)
    (fl' : Z → list Z) (s' : allocator) : Prop := {
  ap_alloc : allocated s s' p m;
  ap_other : ∀ j, j ≠ k → fl' j = fl j;
  ap_from :
    ((∃ hm', slab_inv sh hm' fl' n 0 s') ∧ head_data s (fl k) p ∧ fl' k = tail (fl k) ∧
     mem_current s' = mem_current s ∧ mem_avail s' = mem_avail s ∧
     mem_malloced s' = mem_malloced s) ∨
    ((∃ hm', slab_inv sh hm' fl' (n + 1) 0 s') ∧ fl k = [] ∧
     p = mem_current s + (item_size_max / sh_size sh k - 1) * sh_size sh k ∧
     Z.of_nat (length (fl' k)) = item_size_max / sh_size sh k - 1 ∧
     mem_current s' = mem_current s + item_size_max ∧
     mem_avail s' = mem_avail s - item_size_max ∧
     mem_malloced s' = wrap 64 (mem_malloced s + item_size_max));
}.

Lemma allocated_frame s s1 s2 s' p m :
  frame s s1 → allocated s1 s2 p m → live s' = live s2 → stats_map s' = stats_map s2 →
  ram s' = ram s2 →
  lock_ s' = lock_ s2 → mem_base s' = mem_base s2 → mem_limit s' = mem_limit s2 →
  allocated s s' p m.
Proof.
  intros [] [] E1 Es ????. constructor; try (etransitivity; eassumption).
  - by rewrite <-fr_live0.
  - by rewrite E1.
  - intros q Hq. by rewrite E1, al_others0, fr_live0.
  - congruence.
  - congruence.
  - congruence.
  - congruence.
  - intros q i Hq. rewrite Es. auto.
Qed.

Section alloc.
Context (realloc_ok : Z → bool).

Lemma head_data_pos sh hm fl n s k p :
  slab_inv sh hm fl n 0 s → head_data s (fl k) p → p ≠ NULL.
Proof.
  intros I (i & l & it & _ & Hi & <-). destruct (si_range _ _ _ _ _ _ I i it Hi) as [? _].
  pose proof (si_base _ _ _ _ _ _ I) as [? _]. unfold NULL. lia.
Qed.

(** The end of [do_slabs_alloc], once the class has a free item. *)
Lemma take_from_class sh hm fl n s k m l i c :
  slab_inv sh hm fl n 0 s → fits_class sh m k → 0 < m → fl k = i :: l →
  arr_get (slabclass s) k = Some c →
  swp False
    (ret ← take_item m k;
     if negb (ret =? NULL) then
       put_class k (λ p, p <| sc_requested := wrap 64 (sc_requested p + m) |>);;
       update (λ s, s <| mem_free := wrap 64 (mem_free s - sc_size c) |>);;
       mret ret
     else mret ret)
    (λ p s', slab_inv sh hm (fl_set fl k l) n 0 s' ∧ allocated s s' p m ∧ p ≠ NULL ∧
      head_data s (fl k) p ∧
      mem_current s' = mem_current s ∧ mem_avail s' = mem_avail s ∧
      mem_malloced s' = mem_malloced s) s.
Proof.
  intros I Hfit Hm Hl Hc. pose proof Hfit as [Hk _]. sstep.
  eapply swp_mono; [by apply (take_item_spec sh hm fl n s k i l m)|]. cbn beta.
  intros p s1 (I1 & A1 & Hh & _ & E1 & E2 & E3). pose proof (head_data_pos _ _ _ _ _ _ _ I Hh) as Hp.
  destruct (si_class _ _ _ _ _ _ I1 k Hk) as (c1 & Hc1 & _).
  sstep; intros E; [|by rewrite (proj2 (Z.eqb_neq _ _) Hp) in E].
  sstep. sstep; [exact Hc1|]. sstep. sstep. sstep. split_and!; try done.
  - eapply slab_inv_view; cycle 1.
    + eapply (slab_inv_class s1 k c1); [done..|]. intros Ho.
      instantiate (1 := c1 <| sc_requested := wrap 64 (sc_requested c1 + m) |>).
      by destruct Ho; constructor.
    + done.
  - by eapply allocated_frame; [apply frame_refl|exact A1|..].
Qed.

Lemma do_slabs_alloc_spec sh hm fl n s k m :
  slab_inv sh hm fl n 0 s → fits_class sh m k → 0 < m →
  swp False (do_slabs_alloc realloc_ok m k) (λ p s',
    (p = NULL ∧ fl k = [] ∧ no_page realloc_ok s ∧ slab_inv sh hm fl n 0 s' ∧ frame s s') ∨
    (p ≠ NULL ∧ ∃ fl', alloc_post sh fl n k p m s fl' s')) s.
Proof.
  intros I Hfit Hm. pose proof Hfit as [Hk _]. pose proof Hk as Hk'. unfold in_cls in Hk'.
  destruct (si_class _ _ _ _ _ _ I k Hk) as (c & Hc & Ho). pose proof (co_curr _ _ _ _ _ _ Ho) as Hcur.
  unfold do_slabs_alloc. sstep. sstep. rewrite (si_pl _ _ _ _ _ _ I).
  sstep; intros Hrng.
  { apply orb_true_iff in Hrng as [|]; zbool; lia. }
  sstep. sstep; [exact Hc|]. destruct (fl k) as [|i l] eqn:Hl; cbn [length] in Hcur; rewrite Hcur.
  - change (Z.of_nat 0 =? 0) with true. cbn [negb]. sstep. sstep. sstep. sstep.
    eapply swp_mono; [by apply (newslab_spec realloc_ok sh hm fl n)|]. cbn beta.
    intros r s1 [(-> & Hno & I1 & F1)|(-> & fl1 & P)].
    + change (negb (0 =? 0)) with false. sstep.
      destruct (si_class _ _ _ _ _ _ I1 k Hk) as (c1 & Hc1 & _).
      sstep. sstep; [exact Hc1|]. cbn [negb]. sstep. sstep. sstep; [done|]. intros _. sstep. by left.
    + change (negb (1 =? 0)) with true. sstep. destruct P as [[hm1 I1] F1 Hot Hmo Hhd Hcu Hav Hml].
      destruct (si_class _ _ _ _ _ _ I1 k Hk) as (c1 & Hc1 & Ho1).
      sstep. sstep; [exact Hc1|]. cbn [negb]. pose proof Hhd as (i & l & it & Hl1 & _).
      rewrite (co_curr _ _ _ _ _ _ Ho1), Hl1. cbn [length].
      rewrite (proj2 (Z.eqb_neq (Z.of_nat (S (length l))) 0)) by lia. cbn [negb].
      eapply swp_mono; [by apply (take_from_class sh hm1 fl1 (n + 1) s1 k m l i c1)|]. cbn beta.
      intros p s2 (I2 & A2 & Hp & Hh & G1 & G2 & G3). right. split; [done|].
      exists (fl_set fl1 k l). constructor.
      * by eapply allocated_frame; [exact F1|exact A2|..].
      * intros j Hj. unfold fl_set. rewrite (proj2 (Z.eqb_neq _ _)) by done. by apply Hot.
      * right. split_and!; [by exists hm1|done| | |congruence..].
        -- destruct Hh as (i1 & l1 & it1 & E1 & E2 & <-).
           destruct Hhd as (i2 & l2 & it2 & E3 & E4 & <-). congruence.
        -- unfold fl_set. rewrite Z.eqb_refl. rewrite Hl1, Hl in Hmo. cbn [length] in Hmo. lia.
  - rewrite (proj2 (Z.eqb_neq (Z.of_nat (S (length l))) 0)) by lia. cbn [negb].
    pose proof (co_slots _ _ _ _ _ _ Ho) as Hch.
    destruct Hch as (-> & _). sstep. sstep.
    destruct (free_head _ _ _ _ _ _ _ _ I Hk Hl) as (_ & it & _ & Hi & _ & _ & Hz & _).
    sstep; [exact Hi|].
    sstep; [by rewrite Hz|]. intros _. sstep. sstep. sstep. sstep; [exact Hc|].
    cbn [negb]. rewrite Hcur, (proj2 (Z.eqb_neq (Z.of_nat (S (length l))) 0)) by lia. cbn [negb].
    eapply swp_mono; [by apply (take_from_class sh hm fl n s k m l i c)|]. cbn beta.
    intros p s2 (I2 & A2 & Hp & Hh & G1 & G2 & G3). right. split; [done|].
    exists (fl_set fl k l). constructor; [done| |].
    + intros j Hj. unfold fl_set. by rewrite (proj2 (Z.eqb_neq _ _)).
    + left. split_and!; try done; [by exists hm|]. unfold fl_set. by rewrite Z.eqb_refl, Hl.
Qed.
End alloc.

(** ** [slabs_clsid] *)

Lemma fits_class_unique sh m k k' : fits_class sh m k → fits_class sh m k' → k = k'.
Proof.
  intros ([? ?] & ? & Hlo) ([? ?] & ? & Hlo').
  destruct (Z.lt_trichotomy k k') as [|[|]]; [|done|].
  - specialize (Hlo' k ltac:(lia)). lia.
  - specialize (Hlo k' ltac:(lia)). lia.
Qed.

Lemma fits_class_size sh m k : shape_ok sh → fits_class sh m k → m ≤ item_size_max.
Proof. intros Sh [Hk [? _]]. pose proof (sho_size _ Sh k Hk). lia. Qed.

Lemma clsid_loop_spec sh hm fl n hole s m fuel res :
  slab_inv sh hm fl n hole s → in_cls sh res →
  (∀ j, POWER_SMALLEST ≤ j < res → sh_size sh j < m) →
  sh_pl sh - res < Z.of_nat fuel →
  ∃ k, clsid_loop fuel (slabclass s) (power_largest s) m res = Some k ∧
    (k = 0 ∧ item_size_max < m ∨ fits_class sh m k).
Proof.
  intros I. revert res. induction fuel as [|fuel IH]; intros res Hres Hlt Hf.
  { destruct Hres. lia. }
  destruct (si_class _ _ _ _ _ _ I res Hres) as (c & Hc & Ho). cbn. rewrite Hc. cbn.
  rewrite (co_size _ _ _ _ _ _ Ho), (si_pl _ _ _ _ _ _ I).
  destruct (Z.ltb_spec (sh_size sh res) m) as [Hsz|Hsz].
  - destruct (Z.eqb_spec res (sh_pl sh)) as [->|Hne].
    + exists 0. split; [done|]. left. split; [done|].
      by rewrite <-(sho_last _ (si_shape _ _ _ _ _ _ I)).
    + rewrite <-(si_pl _ _ _ _ _ _ I). apply IH; [|intros j Hj|].
      * destruct Hres. unfold in_cls. lia.
      * destruct (decide (j = res)) as [->|]; [done|]. apply Hlt. lia.
      * lia.
  - exists res. split; [done|]. right. by split_and!.
Qed.

Lemma slabs_clsid_spec sh hm fl n hole s m Q :
  slab_inv sh hm fl n hole s → 0 ≤ m →
  (m = 0 ∨ item_size_max < m → Q 0 s) → (∀ k, 0 < m → fits_class sh m k → Q k s) →
  swp False (slabs_clsid m) Q s.
Proof.
  intros I Hm H0 H1. unfold swp, slabs_clsid. destruct (Z.eqb_spec m 0) as [->|]; [auto|].
  pose proof (si_shape _ _ _ _ _ _ I) as Sh. pose proof (sho_pl _ Sh) as Hpl.
  destruct (clsid_loop_spec sh hm fl n hole s m (S (length (slabclass s))) POWER_SMALLEST)
    as (k & -> & Hk); [done| | | |].
  - unfold in_cls. lia.
  - lia.
  - rewrite (si_length _ _ _ _ _ _ I). unfold POWER_SMALLEST, POWER_LARGEST in *.
    change (Z.to_nat MAX_NUMBER_OF_SLAB_CLASSES) with 201%nat. lia.
  - cbn. destruct Hk as [[-> ?]|Hk]; [auto|]. apply H1; [lia|done].
Qed.

(** ** Allocated blocks *)

Lemma live_inv sh hm fl n s p m :
  slab_inv sh hm fl n 0 s → live s p = Some m →
  ∃ i it, stats_map s !! p = Some i ∧ items s !! i = Some it ∧ it_data it = p ∧
    it_size it = m ∧ it_clsid it = hm i ∧ 0 < m ∧ fits_class sh m (hm i).
Proof.
  intros I Hl. unfold live in Hl. destruct (stats_map s !! p) as [i|] eqn:Es; [|done].
  cbn in Hl. destruct (items s !! i) as [it|] eqn:Ei; [|done]. cbn in Hl.
  apply (si_stats _ _ _ _ _ _ I) in Es as (it' & Ei' & Ed). replace it' with it in * by congruence.
  destruct (Z.eqb_spec (it_clsid it) 0); [done|]. injection Hl as <-. exists i, it.
  destruct (si_status _ _ _ _ _ _ I i it Ei) as [[? _]|(? & ? & ? & ? & ?)]; [done|].
  split_and!; try done; apply (si_stats _ _ _ _ _ _ I); eauto.
Qed.

Lemma live_range sh hm fl n s p m :
  slab_inv sh hm fl n 0 s → live s p = Some m →
  0 < m ∧ mem_base s ≤ p ∧ p + m ≤ mem_current s ∧ p mod CHUNK_ALIGN_BYTES = 0.
Proof.
  intros I Hl. destruct (live_inv _ _ _ _ _ _ _ I Hl) as (i & it & _ & Hi & <- & _ & _ & ? & _ & ? & _).
  destruct (si_range _ _ _ _ _ _ I i it Hi) as (? & ? & ?). split_and!; try done. lia.
Qed.

Lemma live_disjoint sh hm fl n s p q m j :
  slab_inv sh hm fl n 0 s → live s p = Some m → live s q = Some j → p ≠ q →
  p + m ≤ q ∨ q + j ≤ p.
Proof.
  intros I Hp Hq Hne.
  destruct (live_inv _ _ _ _ _ _ _ I Hp) as (i & it & _ & Hi & Ep & _ & _ & _ & _ & ? & _).
  destruct (live_inv _ _ _ _ _ _ _ I Hq) as (i' & it' & _ & Hi' & Eq & _ & _ & _ & _ & ? & _).
  destruct (si_disj _ _ _ _ _ _ I i i' it it' Hi Hi') as [|]; [congruence|left; lia|right; lia].
Qed.

(** Changing an allocated item; it may leave its class. *)
Lemma slab_inv_item sh hm fl n s i it it' hole :
  slab_inv sh hm fl n 0 s → items s !! i = Some it → it_clsid it ≠ 0 →
  it_data it' = it_data it → hole = 0 ∨ hole = i →
  (i ∉ fl (hm i) → item_status sh fl hole i (hm i) it') →
  slab_inv sh hm fl n hole (s <| items := <[i := it']> (items s) |>).
Proof.
  intros I Hi Hz P1 Hh Hst.
  destruct (si_status _ _ _ _ _ _ I i it Hi) as [[? _]|(Hi0 & Hcls & Hni & _)]; [done|].
  specialize (Hst Hni). assert (∀ k, in_cls sh k → i ∉ fl k) as Hout.
  { intros k Hk Hin. by rewrite (si_home _ _ _ _ _ _ I k i Hk Hin) in Hni. }
  assert (∀ j jt, <[i := it']> (items s) !! j = Some jt →
    ∃ jt', items s !! j = Some jt' ∧ it_data jt = it_data jt' ∧ (j ≠ i → jt = jt')) as Hb.
  { intros j jt [[-> ->]|[? Hj]]%lookup_insert_Some; [|eauto 6]. exists it.
    split_and!; congruence. }
  destruct I. constructor; cbn; try assumption.
  - intros k Hk. destruct (si_class0 k Hk) as (c & Hc & Ho). exists c. split; [done|].
    apply (class_ok_ext _ _ (items s)); [|done]. intros a at' Ha Hat. exists at'.
    rewrite lookup_insert_ne; [done|]. intros <-. by apply (Hout k).
  - intros p j. rewrite si_stats0. split.
    + intros (jt & Hj & <-). destruct (decide (j = i)) as [->|].
      * exists it'. rewrite lookup_insert_eq. split; [done|]. congruence.
      * exists jt. by rewrite lookup_insert_ne.
    + intros (jt & Hj & <-). destruct (Hb j jt Hj) as (? & ? & -> & _). eauto.
  - intros j jt Hj. destruct (Hb j jt Hj) as (? & ? & _). eauto.
  - intros j jt Hj. destruct (Hb j jt Hj) as (? & ? & -> & _). eauto.
  - intros j jt Hj. destruct (Hb j jt Hj) as (jt' & Hj' & _ & Es).
    pose proof (si_id0 j jt' Hj') as [Hj0 _]. specialize (si_status0 j jt' Hj').
    destruct (decide (j = i)) as [->|Hji].
    + rewrite lookup_insert_eq in Hj. by injection Hj as <-.
    + rewrite (Es Hji). unfold item_status in *. assert (j ≠ 0) by lia.
      assert (j ≠ hole) by (destruct Hh; congruence). tauto.
  - intros a b at' bt Ha Hb2. destruct (Hb a at' Ha) as (? & ? & -> & _).
    destruct (Hb b bt Hb2) as (? & ? & -> & _). eauto.
Qed.

(** Taking an allocated item out of its class, before it is freed. *)
Lemma slab_inv_hole sh hm fl n s i it it' :
  slab_inv sh hm fl n 0 s → items s !! i = Some it → it_clsid it ≠ 0 →
  it_data it' = it_data it → it_clsid it' = 0 →
  slab_inv sh hm fl n i (s <| items := <[i := it']> (items s) |>).
Proof.
  intros I Hi Hz P1 P2. apply (slab_inv_item _ _ _ _ _ _ it); auto.
  intros Hni. left. tauto.
Qed.

(** Another size of the same class. *)
Lemma slab_inv_resize sh hm fl n s i it it' :
  slab_inv sh hm fl n 0 s → items s !! i = Some it → it_clsid it ≠ 0 →
  it_data it' = it_data it → it_clsid it' = it_clsid it → 0 < it_size it' →
  fits_class sh (it_size it') (hm i) →
  slab_inv sh hm fl n 0 (s <| items := <[i := it']> (items s) |>).
Proof.
  intros I Hi Hz P1 P2 Hp Hf. apply (slab_inv_item _ _ _ _ _ _ it); auto.
  intros Hni. destruct (si_status _ _ _ _ _ _ I i it Hi) as [[? _]|(? & ? & _)]; [done|].
  right. split_and!; try done. congruence.
Qed.

Lemma live_item s p i it it' q :
  stats_map s !! p = Some i → (∀ q, stats_map s !! q = Some i → q = p) →
  items s !! i = Some it →
  live (s <| items := <[i := it']> (items s) |>) q =
  if q =? p then (if it_clsid it' =? 0 then None else Some (it_size it')) else live s q.
Proof.
  intros Hs Hu Hi. unfold live. cbn. destruct (Z.eqb_spec q p) as [->|Hq].
  - rewrite Hs. cbn. by rewrite lookup_insert_eq.
  - destruct (stats_map s !! q) as [j|] eqn:Ej; [|done]. cbn.
    rewrite lookup_insert_ne; [done|]. intros <-. by apply Hq, Hu.
Qed.
