(* ===== verification/SlabCalls.v ===== *)
(** * SlabCalls: the calls of the slab allocator

    An abstract heap, a map from the addresses of the allocated blocks to their sizes
    together with the bytes, and what each call of the interface does to it; then, call
    by call, that the code of [Slabs] does so from every well-formed state. *)
From S2P Require Import Prelude DsmType Slabs SlabsInv.
From stdpp Require Import base numbers option list list_numbers gmap relations.
Open Scope Z_scope.

(** ** The abstract heap *)
Record heap := mk_heap { h_live : Z → option Z; h_mem : Z → Z }.

Inductive slab_call :=
| Malloc (size : Z)
| AlignedMalloc (size block : Z)
| Calloc (count size : Z)
| AlignedCalloc (count size block : Z)
| Free (ptr : Z)
| Realloc (ptr size : Z)
| IsFree (ptr : Z)
| GetSize (ptr : Z).

(** A block of [m] bytes can be put at [p], between [lo] and [hi]. *)
Record new_block (lo hi : Z) (h : heap) (p m : Z) : Prop := {
  nb_range : lo ≤ p ∧ p + m ≤ hi;
  nb_align : p mod CHUNK_ALIGN_BYTES = 0;
  nb_fresh : h_live h p = None;
  nb_disjoint : ∀ q j, h_live h q = Some j → p + m ≤ q ∨ q + j ≤ p;
}.

Definition set_live (h : heap) (p : Z) (o : option Z) (h' : heap) : Prop :=
  ∀ q, h_live h' q = if q =? p then o else h_live h q.

Definition same_mem (h h' : heap) : Prop := ∀ a, h_mem h' a = h_mem h a.

(** The [size] bytes at [p] are zero, the others as before. *)
Definition cleared (p size : Z) (h h' : heap) : Prop :=
  ∀ a, h_mem h' a = if (p <=? a) && (a <? p + size) then 0 else h_mem h a.

Definition malloc_spec (lo hi m : Z) (h : heap) (p : Z) (h' : heap) : Prop :=
  new_block lo hi h p m ∧ set_live h p (Some m) h'.

(** What a call replies, and what it does to the heap. *)
Definition heap_spec (lo hi : Z) (c : slab_call) (h : heap) (r : Z) (h' : heap) : Prop :=
  match c with
  | Malloc m => malloc_spec lo hi m h r h' ∧ same_mem h h'
  | AlignedMalloc m b =>
      malloc_spec lo hi (ALIGN m b) h r h' ∧ r mod b = 0 ∧ same_mem h h'
  | Calloc n m => malloc_spec lo hi (wrap 64 (n * m)) h r h' ∧ cleared r m h h'
  | AlignedCalloc n m b =>
      malloc_spec lo hi (ALIGN (wrap 64 (n * m)) b) h r h' ∧ r mod b = 0 ∧ cleared r m h h'
  | Free p => h_live h p = Some r ∧ set_live h p None h' ∧ same_mem h h'
  | Realloc p m =>
      same_mem h h' ∧
      if p =? NULL then malloc_spec lo hi m h r h'
      else
        ∃ j, h_live h p = Some j ∧
          (r = p ∧ set_live h p (Some m) h' ∨
           ∃ h1, malloc_spec lo hi m h r h1 ∧ set_live h1 p None h')
  | IsFree p =>
      r = (if decide (h_live h p = None) then 1 else 0) ∧ same_mem h h' ∧
      ∀ q, h_live h' q = h_live h q
  | GetSize p =>
      (∀ j, h_live h p = Some j → r = j) ∧ same_mem h h' ∧ ∀ q, h_live h' q = h_live h q
  end.

Section implementation.
Context (realloc_ok : Z → bool).

(** The call of a program. *)
Definition run (c : slab_call) : SM Z :=
  match c with
  | Malloc m => sb_malloc realloc_ok m
  | AlignedMalloc m b => sb_aligned_malloc realloc_ok m b
  | Calloc n m => sb_calloc realloc_ok n m
  | AlignedCalloc n m b => sb_aligned_calloc realloc_ok n m b
  | Free p => sb_free p
  | Realloc p m => sb_realloc realloc_ok p m
  | IsFree p => b ← is_free p; mret (if b : bool then 1 else 0)
  | GetSize p => get_size p
  end.

(** The arguments are of type [size_t]. *)
Definition call_ok (c : slab_call) : Prop :=
  match c with
  | Malloc m | Realloc _ m => fits 64 m
  | AlignedMalloc m b => fits 64 m ∧ 0 < b
  | Calloc n m => fits 64 n ∧ fits 64 m
  | AlignedCalloc n m b => fits 64 n ∧ fits 64 m ∧ 0 < b
  | Free _ | IsFree _ | GetSize _ => True
  end.

(** Why an allocation fails: nothing or too much is asked for, or the class is empty and
    gets no page. *)
Definition malloc_fails (s : allocator) (m : Z) : Prop :=
  m = 0 ∨ item_size_max < m ∨
  (no_page realloc_ok s ∧
   ∃ k c, arr_get (slabclass s) k = Some c ∧ m ≤ sc_size c ∧ sc_sl_curr c = 0).

(** Why a call fails. *)
Definition call_fails (s : allocator) (c : slab_call) : Prop :=
  match c with
  | Malloc m => malloc_fails s m
  | AlignedMalloc m b => malloc_fails s (ALIGN m b) ∨ ¬ (b | CHUNK_ALIGN_BYTES)
  | Calloc n m => malloc_fails s (wrap 64 (n * m))
  | AlignedCalloc n m b => malloc_fails s (ALIGN (wrap 64 (n * m)) b) ∨ ¬ (b | CHUNK_ALIGN_BYTES)
  | Free p => live s p = None
  | Realloc p m => if p =? NULL then malloc_fails s m else live s p = None ∨ malloc_fails s m
  | IsFree p | GetSize p => stats_map s !! p = None
  end.
End implementation.

Definition slab_ok (s : allocator) : Prop := ∃ sh hm fl n, slab_inv sh hm fl n 0 s.

(** A state between two calls. *)
Definition slab_wf (s : allocator) : Prop := lock_ s = false ∧ slab_ok s.

Definition abs (s : allocator) : heap := mk_heap (live s) (ram s).

(** The region does not move. *)
Definition same_region (s s' : allocator) : Prop :=
  mem_base s' = mem_base s ∧ mem_limit s' = mem_limit s.

(** ** The allocation of a block, with the lock held *)
Section calls.
Context {realloc_ok : Z → bool} {F : Prop}.

Lemma swp_lock Q s : lock_ s = false → Q () (s <| lock_ := true |>) → swp F lock Q s.
Proof. unfold swp, lock. by intros ->. Qed.

Lemma slab_ok_view s s' : view s = view s' → slab_ok s → slab_ok s'.
Proof. intros V (sh & hm & fl & n & I). exists sh, hm, fl, n. by apply (slab_inv_view s). Qed.

Lemma swp_allocate {A} m (K : Z → SM A) Q s :
  slab_ok s → 0 ≤ m → (malloc_fails realloc_ok s m → F) →
  (∀ p s', slab_ok s' → allocated s s' p m → p ≠ NULL → swp F (K p) Q s') →
  swp F (id ← slabs_clsid m; ret ← slabs_alloc realloc_ok m id;
         assert (negb (ret =? NULL));; K ret) Q s.
Proof.
  intros (sh & hm & fl & n & I) Hm HF HK. sstep.
  eapply swp_total, slabs_clsid_spec; [exact I|done| |]; cbn beta.
  - intros Hbad. assert (malloc_fails realloc_ok s m) as Hf.
    { destruct Hbad; [by left|by right; left]. }
    unfold slabs_alloc, do_slabs_alloc. sstep. sstep. sstep. cbn [orb Z.ltb POWER_SMALLEST].
    sstep; [|done]. intros _. sstep. sstep. sstep; auto. by cbn.
  - intros k Hm0 Hfit. sstep. eapply swp_mono.
    { eapply swp_total, (do_slabs_alloc_spec realloc_ok sh hm fl n s k m); done. }
    intros p s' [(-> & Hfl & Hno & I' & Fr)|(Hp & fl' & P)]; cbn beta; sstep; sstep;
      try (by intros E; cbn in E); intros E; try (by apply negb_false_iff, Z.eqb_eq in E).
    + apply HF. right; right. split; [done|]. pose proof Hfit as (Hk & ? & _).
      destruct (si_class _ _ _ _ _ _ I k Hk) as (c & Hc & []). exists k, c.
      rewrite co_size, co_curr, Hfl. done.
    + apply HK; [|by apply (ap_alloc _ _ _ _ _ _ _ _ _ P)|done].
      destruct (ap_from _ _ _ _ _ _ _ _ _ P) as [[[hm' I'] _]|[[hm' I'] _]]; by do 4 eexists.
Qed.

Lemma allocated_new_block s s' p m lo hi :
  slab_ok s' → allocated s s' p m → lo = mem_base s → hi = mem_base s + mem_limit s →
  malloc_spec lo hi m (abs s) p (mk_heap (live s') (ram s)).
Proof.
  intros (sh & hm & fl & n & I) [Hb Ha Ho _ _ Eb El _] -> ->.
  destruct (live_range _ _ _ _ _ _ _ I Ha) as (? & ? & ? & ?).
  pose proof (si_current _ _ _ _ _ _ I). pose proof (si_limit _ _ _ _ _ _ I).
  split; [constructor; cbn; try done|].
  - lia.
  - intros q j Hq. assert (q ≠ p) as Hne by congruence. rewrite <-Ho in Hq by done.
    eapply live_disjoint; eauto.
  - intros q. cbn. destruct (Z.eqb_spec q p) as [->|]; auto.
Qed.

(** Freeing an allocated block, with the lock held. *)
Lemma swp_release {A} p m f i it (K : SM A) Q s :
  slab_ok s → live s p = Some m → stats_map s !! p = Some i → items s !! i = Some it →
  it_clsid (f it) = 0 → it_data (f it) = it_data it →
  (∀ s', slab_ok s' → (∀ q, live s' q = if q =? p then None else live s q) →
    ram s' = ram s → lock_ s' = lock_ s → same_region s s' →
    stats_map s' = stats_map s → swp F K Q s') →
  ∀ size, swp F (put_item i f;; slabs_free (it_data it) size (it_clsid it);; K) Q s.
Proof.
  intros (sh & hm & fl & n & I) Hl Hs Hi Hz Hd HK size.
  destruct (live_inv _ _ _ _ _ _ _ I Hl) as (i' & it' & Hs' & Hi' & Hp & Hm & Hc & _ & Hfit).
  replace i' with i in * by congruence. replace it' with it in * by congruence.
  assert (it_clsid it ≠ 0) as Hnz.
  { rewrite Hc. destruct Hfit as [[? _] _]. unfold POWER_SMALLEST in *. lia. }
  sstep. sstep; [exact Hi|]. sstep.
  pose proof (slab_inv_hole _ _ _ _ _ _ _ (f it) I Hi Hnz Hd Hz) as I1.
  set (s1 := s <| items := _ |>) in *. eapply swp_mono.
  { eapply swp_total. rewrite Hc, Hp. eapply (do_slabs_free_hole sh hm fl n i s1 p size (hm i) (f it));
      try done. apply lookup_insert_eq. }
  intros _ s2 (I2 & [G1 G2 G3 G4 G5 _ _] & G6 & _). apply HK; try done.
  - by do 4 eexists.
  - intros q. rewrite G1. unfold s1. rewrite (live_item _ p _ it); [by rewrite Hz|done| |done].
    intros q' Hq'. apply (si_stats _ _ _ _ _ _ I) in Hq' as (? & ? & ?). congruence.
Qed.

(** A chunk that is not allocated cannot be freed. *)
Lemma swp_free_unknown {A} p size (K : SM A) Q s :
  F → swp F (slabs_free p size 0;; K) Q s.
Proof.
  intros HF. unfold slabs_free, do_slabs_free. sstep. sstep. sstep. sstep.
  sstep; [done|]. intros E. by cbn in E.
Qed.

Lemma slab_ok_base s : slab_ok s → 0 < mem_base s ∧ mem_limit s ≠ 0 ∧ stats_map s !! NULL = None.
Proof.
  intros (sh & hm & fl & n & I). pose proof (si_base _ _ _ _ _ _ I) as [? _].
  pose proof (si_limit _ _ _ _ _ _ I) as (_ & _ & ?). split_and!; [done|lia|].
  apply eq_None_not_Some. intros [i Hi]. apply (si_stats _ _ _ _ _ _ I) in Hi as (it & Hi & E).
  destruct (si_range _ _ _ _ _ _ I i it Hi) as [? _]. unfold NULL in E. lia.
Qed.

Lemma swp_read_limit {A} (m1 m2 : SM A) Q s :
  mem_limit s ≠ 0 → swp F m2 Q s →
  swp F (limit ← read mem_limit; if limit =? 0 then m1 else m2) Q s.
Proof. intros Hl Hm. sstep. sstep. by rewrite (proj2 (Z.eqb_neq _ _) Hl). Qed.

(** [sb_malloc] and [sb_aligned_malloc]. *)
Lemma sb_malloc_spec s m Q :
  slab_wf s → fits 64 m → (malloc_fails realloc_ok s m → F) →
  (∀ p s', slab_wf s' → same_region s s' → ram s' = ram s → p ≠ NULL →
    malloc_spec (mem_base s) (mem_base s + mem_limit s) m (abs s) p (abs s') → Q p s') →
  swp F (sb_malloc realloc_ok m) Q s.
Proof.
  intros [Hlk Hok] Hm HF HQ. unfold sb_malloc. sstep. apply swp_lock; [done|].
  pose proof (slab_ok_base _ Hok) as (_ & Hl & _). apply swp_read_limit; [done|]. cbn zeta.
  replace (wrap 64 (m + SB_PREFIX_SIZE)) with m by (unfold SB_PREFIX_SIZE; by rewrite Z.add_0_r, wrap_small).
  apply swp_allocate; [by apply (slab_ok_view s)|by destruct Hm|done|].
  intros p s' Hok' A Hp. sstep. apply swp_update. sstep. apply HQ; try done.
  - split; [done|]. by apply (slab_ok_view s').
  - by destruct A.
  - by destruct A.
  - pose proof (allocated_new_block _ _ _ _ _ _ Hok' A eq_refl eq_refl) as [[] ?]. split; [by constructor|done].
Qed.

Lemma ALIGN_nonneg x b : 0 < b → 0 ≤ ALIGN x b.
Proof.
  intros. unfold ALIGN. apply Z.ldiff_nonneg. left. by apply (wrap_fits 64).
Qed.

Lemma divides_mod b p :
  0 < b → (b | CHUNK_ALIGN_BYTES) → p mod CHUNK_ALIGN_BYTES = 0 → p mod b = 0.
Proof.
  intros ? Hb Hp. apply Z.mod_divide; [lia|]. etransitivity; [exact Hb|].
  by apply Z.mod_divide.
Qed.

Lemma sb_aligned_malloc_spec s m b Q :
  slab_wf s → fits 64 m → 0 < b →
  (malloc_fails realloc_ok s (ALIGN m b) ∨ ¬ (b | CHUNK_ALIGN_BYTES) → F) →
  (∀ p s', slab_wf s' → same_region s s' → ram s' = ram s → p ≠ NULL → p mod b = 0 →
    malloc_spec (mem_base s) (mem_base s + mem_limit s) (ALIGN m b) (abs s) p (abs s') →
    Q p s') →
  swp F (sb_aligned_malloc realloc_ok m b) Q s.
Proof.
  intros [Hlk Hok] Hm Hb HF HQ. unfold sb_aligned_malloc. sstep. apply swp_lock; [done|].
  pose proof (slab_ok_base _ Hok) as (_ & Hl & _). apply swp_read_limit; [done|]. cbn zeta.
  replace (wrap 64 (m + SB_PREFIX_SIZE)) with m
    by (unfold SB_PREFIX_SIZE; by rewrite Z.add_0_r, wrap_small).
  apply swp_allocate; [by apply (slab_ok_view s)|by apply ALIGN_nonneg|auto|].
  intros p s' Hok' A Hp.
  pose proof (allocated_new_block _ _ _ _ _ _ Hok' A eq_refl eq_refl) as [[? Hal ??] ?].
  sstep. sstep.
  { intros E. zbool. apply HF. right. intros Hdv. by apply E, divides_mod. }
  intros E. zbool. sstep. apply swp_update. sstep.
  apply HQ; [|by destruct A|by destruct A|done|done|by split; [constructor|]].
  split; [done|]. by apply (slab_ok_view s').
Qed.

(** What [memset] leaves: an allocation with cleared bytes. *)
Lemma swp_memset_ret p m s Q :
  Q p (s <| ram := λ a, if (p <=? a) && (a <? p + m) then 0 else ram s a |>) →
  swp F (memset p 0 m;; mret p) Q s.
Proof. done. Qed.

(** [stats_map.at(p)], the item of a known chunk. *)
Lemma swp_item_at p Q s :
  (stats_map s !! p = None → F) → (∀ i, stats_map s !! p = Some i → Q i s) →
  swp F (item_at p) Q s.
Proof. unfold swp, item_at. destruct (stats_map s !! p); cbn; auto. Qed.

Lemma sb_free_spec s p Q :
  slab_wf s → (live s p = None → F) →
  (∀ m s', live s p = Some m → slab_wf s' → same_region s s' → ram s' = ram s →
    (∀ q, live s' q = if q =? p then None else live s q) → Q m s') →
  swp F (sb_free p) Q s.
Proof.
  intros [Hlk Hok] HF HQ. unfold sb_free. sstep. apply swp_lock; [done|].
  pose proof (slab_ok_base _ Hok) as (_ & Hl & _). apply swp_read_limit; [done|].
  set (s1 := s <| lock_ := true |>). assert (slab_ok s1) as Hok1 by by apply (slab_ok_view s).
  destruct Hok1 as (sh & hm & fl & n & I1).
  sstep. apply swp_item_at.
  { intros Es. apply HF. unfold live. cbn in Es. by rewrite Es. }
  intros i Es. pose proof (proj1 (si_stats _ _ _ _ _ _ I1 p i) Es) as (it & Hi & Hp).
  pose proof (si_shape _ _ _ _ _ _ I1) as Sh.
  sstep. sstep; [exact Hi|]. cbn zeta. sstep.
  destruct (si_status _ _ _ _ _ _ I1 i it Hi) as [[Hz _]|(_ & Hc & _ & Hpos & Hfit)].
  - assert F as HFd.
    { apply HF. unfold live. cbn in Es, Hi. rewrite Es. cbn. rewrite Hi. cbn. by rewrite Hz. }
    eapply swp_total, slabs_clsid_spec; [exact I1|by apply (wrap_fits 64)| |]; intros;
      sstep; (sstep; [done|]); intros _; sstep; (sstep; [exact Hi|]); rewrite Hz;
      by apply swp_free_unknown.
  - pose proof (fits_class_size _ _ _ Sh Hfit) as Hle. change item_size_max with 4096 in Hle.
    rewrite wrap_small by (unfold fits; lia).
    assert (live s p = Some (it_size it)) as Hlive.
    { unfold live. cbn in Es, Hi. rewrite Es. cbn. rewrite Hi. cbn.
      rewrite (proj2 (Z.eqb_neq _ _)); [done|]. rewrite Hc. destruct Hfit as [[? _] _].
      unfold POWER_SMALLEST in *. lia. }
    eapply swp_total, slabs_clsid_spec; [exact I1|lia| |].
    { intros [|]; change item_size_max with 4096 in *; lia. }
    intros k _ Hfit'. pose proof (fits_class_unique _ _ _ _ Hfit Hfit') as <-.
    sstep. sstep; intros E; [zbool; congruence|].
    eapply (swp_release p (it_size it)); try done; [by do 4 eexists|].
    intros s' Hok' G1 G2 G3 [G4 G5] G6. sstep. apply swp_update. sstep.
    apply HQ; try done. split; [done|]. by apply (slab_ok_view s').
Qed.

(** The accesses that may fail. *)
Lemma swp_get_item_or p Q s :
  (items s !! p = None → F) → (∀ i, items s !! p = Some i → Q i s) → swp F (get_item p) Q s.
Proof. unfold swp, get_item. destruct (items s !! p); cbn; auto. Qed.

Lemma swp_put_item_or p f Q s :
  (items s !! p = None → F) →
  (∀ i, items s !! p = Some i → Q () (s <| items := <[p := f i]> (items s) |>)) →
  swp F (put_item p f) Q s.
Proof. unfold swp, put_item. destruct (items s !! p); cbn; auto. Qed.

Lemma swp_memcpy dst src n Q s :
  Q () (s <| ram := λ a, if (dst <=? a) && (a <? dst + n) then ram s (src + (a - dst)) else ram s a |>) →
  swp F (memcpy dst src n) Q s.
Proof. done. Qed.

Lemma swp_alloc_zero m Q s : slab_ok s → Q NULL s → swp F (slabs_alloc realloc_ok m 0) Q s.
Proof. intros _ HQ. unfold slabs_alloc, do_slabs_alloc. sstep. sstep. sstep; [done|]. by intros E. Qed.

(** Moving a chunk that is not allocated fails. *)
Lemma move_free it1 i1 size size2 id2 Q s :
  slab_ok s → F → it_clsid i1 = 0 →
  (id2 = 0 ∨ ∃ sh hm fl n, slab_inv sh hm fl n 0 s ∧ fits_class sh size2 id2 ∧ 0 < size2) →
  swp F (move_block realloc_ok it1 i1 size size2 id2) Q s.
Proof.
  intros Hok HF Hz Hid. unfold move_block. rewrite Hz. cbn zeta. sstep.
  apply (swp_mono _ (λ _ _, True)).
  { destruct Hid as [->|(sh & hm & fl & n & I & Hfit & Hm)]; [by apply swp_alloc_zero|].
    eapply swp_mono; [by eapply swp_total, (do_slabs_alloc_spec realloc_ok sh hm fl n)|done]. }
  intros p s' _. sstep. apply swp_item_at; [done|]. intros i _. sstep.
  apply swp_get_item_or; [done|]. intros i2 _. sstep.
  sstep; intros _; apply swp_memcpy; sstep; (apply swp_put_item_or; [done|]); intros i3 _;
    by apply swp_free_unknown.
Qed.

(** Moving an allocated block to a class [k] other than its own. *)
Lemma move_live sh hm fl n it1 i1 p j m k Q s :
  slab_inv sh hm fl n 0 s → live s p = Some j → stats_map s !! p = Some it1 →
  items s !! it1 = Some i1 → fits_class sh m k → 0 < m → k ≠ hm it1 →
  (malloc_fails realloc_ok s m → F) →
  (∀ q s1 s', slab_ok s1 → allocated s s1 q m → slab_ok s' →
    (∀ a, live s' a = if a =? p then None else live s1 a) →
    (∀ a, ram s' a = ram s a) → lock_ s' = lock_ s → same_region s s' → q ≠ NULL →
    Q q s') →
  swp F (move_block realloc_ok it1 i1 m m k) Q s.
Proof.
  intros I Hl Hs Hi Hfit Hm Hk HF HQ. unfold move_block. cbn zeta. sstep.
  destruct (live_inv _ _ _ _ _ _ _ I Hl) as (i' & i1' & Hs' & Hi' & Hp & _ & Hc & _ & Hfit1).
  replace i' with it1 in * by congruence. replace i1' with i1 in * by congruence. clear i' i1' Hs' Hi'.
  eapply swp_mono; [by eapply swp_total, (do_slabs_alloc_spec realloc_ok sh hm fl n)|].
  intros q s1 [(-> & Hfl & Hno & I1 & Fr)|(Hq & fl1 & P)]; cbn beta; sstep; apply swp_item_at.
  - intros _. apply HF. right; right. split; [done|]. destruct Hfit as (Hkc & ? & _).
    destruct (si_class _ _ _ _ _ _ I k Hkc) as (c & Hc' & []). exists k, c.
    rewrite co_size, co_curr, Hfl. done.
  - intros i Hn. destruct (slab_ok_base s1) as (_ & _ & Hnull); [by do 4 eexists|]. congruence.
  - intros Hn. pose proof (al_after _ _ _ _ (ap_alloc _ _ _ _ _ _ _ _ _ P)) as Ha.
    unfold live in Ha. by rewrite Hn in Ha.
  - intros it2 Hs2. pose proof (ap_alloc _ _ _ _ _ _ _ _ _ P) as A.
    assert (∃ hm1 n1, slab_inv sh hm1 fl1 n1 0 s1) as (hm1 & n1 & I1).
    { destruct (ap_from _ _ _ _ _ _ _ _ _ P) as [[[h ?] _]|[[h ?] _]]; by do 2 eexists. }
    assert (q ≠ p) as Hqp by (intros ->; destruct A; congruence).
    pose proof (al_others _ _ _ _ A p (not_eq_sym Hqp)) as Hl1. rewrite Hl in Hl1.
    pose proof (al_stats _ _ _ _ A p it1 Hs) as Hs1. destruct A as [_ Ha _ Eram Elk Eb El _].
    destruct (live_inv _ _ _ _ _ _ _ I1 Hl1) as (i' & i1' & Hs1' & Hi1 & Hp1 & _ & Hc1 & _ & Hfit2).
    replace i' with it1 in * by congruence. clear i' Hs1'.
    pose proof (fits_class_unique _ _ _ _ Hfit1 Hfit2) as Ehm.
    destruct (live_inv _ _ _ _ _ _ _ I1 Ha) as (i' & i2 & Hs2' & Hi2 & Hp2 & _).
    replace i' with it2 in * by congruence. clear i' Hs2'.
    sstep. sstep; [exact Hi2|]. sstep. rewrite Hp2.
    replace (it_data i1) with (it_data i1') by congruence.
    replace (it_clsid i1) with (it_clsid i1') by congruence.
    assert (∀ n', swp F (memcpy q q n') (λ _ s2, swp F
      (put_item it1 (λ i, i <| it_clsid := 0 |>);;
       slabs_free (it_data i1') (wrap 64 (it_size i1)) (it_clsid i1');;
       i2 ← get_item it2; mret (it_data i2)) Q s2) s1) as Hcopy; [|by sstep; intros _].
    intros n'. apply swp_memcpy. set (s2 := s1 <| ram := _ |>).
    assert (slab_ok s2) as Hok2 by (apply (slab_ok_view s1); [done|by do 4 eexists]).
    apply (swp_release p j); try done. intros s' Hok' G1 G2 G3 [G4 G5] G6.
    assert (live s' q = Some m) as Hq'.
    { rewrite G1, (proj2 (Z.eqb_neq _ _)) by done. exact Ha. }
    pose proof Hok' as (? & ? & ? & ? & I').
    destruct (live_inv _ _ _ _ _ _ _ I' Hq') as (i' & i3 & Hs3 & Hi3 & Hp3 & _).
    rewrite G6 in Hs3. replace i' with it2 in * by (cbn in Hs3; congruence).
    sstep. sstep; [exact Hi3|]. sstep. rewrite Hp3.
    apply (HQ q s1 s'); try done; [by do 4 eexists|by apply (ap_alloc _ _ _ _ _ _ _ _ _ P)| |by rewrite G3|].
    + intros a. rewrite G2. cbn. rewrite Eram. case_match; [f_equal; lia|done].
    + split; cbn in *; congruence.
Qed.

Lemma move_zero it1 i1 size size2 Q s :
  slab_ok s → F → swp F (move_block realloc_ok it1 i1 size size2 0) Q s.
Proof.
  intros Hok HF. unfold move_block. cbn zeta. sstep. apply swp_alloc_zero; [done|].
  sstep. apply swp_item_at; [done|]. intros i Hi. destruct (slab_ok_base s Hok) as (_ & _ & E).
  congruence.
Qed.

(** The rest of [sb_realloc], from the test of the class on, with its own end [K]. *)
Definition realloc_rest (it1 : Z) (i1 : item) (ptr size : Z) (K : Z → SM Z) : SM Z :=
  cls ← slabs_clsid (wrap 64 (it_size i1));
  assert (it_clsid i1 =? cls);;
  id2 ← slabs_clsid size;
  ret ← (
    if it_clsid i1 =? id2 then
      put_item it1 (λ i, i <| it_size := to_int size |>);;
      slabs_adjust_mem_requested (it_clsid i1) (wrap 64 (it_size i1)) size;;
      mret ptr
    else
      assert (negb (wrap 64 (it_size i1) =? size));;
      move_block realloc_ok it1 i1 size size id2);
  K ret.

Lemma realloc_free_chunk sh hm fl n s it1 i1 p m K Q :
  slab_inv sh hm fl n 0 s → fits 64 m → it_clsid i1 = 0 → F →
  swp F (realloc_rest it1 i1 p m K) Q s.
Proof.
  intros I [Hm _] Hz HF. unfold realloc_rest. rewrite Hz. sstep.
  assert (∀ k, swp F (assert (0 =? k);;
    id2 ← slabs_clsid m;
    ret ← (if 0 =? id2 then
             put_item it1 (λ i, i <| it_size := to_int m |>);;
             slabs_adjust_mem_requested 0 (wrap 64 (it_size i1)) m;;
             mret p
           else
             assert (negb (wrap 64 (it_size i1) =? m));;
             move_block realloc_ok it1 i1 m m id2);
    K ret) Q s) as Hrest.
  { intros k. sstep. sstep; [done|]. intros _. sstep.
    eapply swp_total, slabs_clsid_spec; [exact I|done| |].
    - intros _. sstep. sstep; [intros _|done]. sstep. apply swp_put_item_or; [done|].
      intros i _. sstep. unfold slabs_adjust_mem_requested. sstep. sstep.
      sstep; [intros _|by intros E; cbn in E]. by sstep.
    - intros k2 Hm2 Hfit. sstep. sstep; intros E; [zbool|].
      { destruct Hfit as [[? _] _]. unfold POWER_SMALLEST in *. lia. }
      sstep. sstep; [done|]. intros _. apply move_free; [by do 4 eexists|done|done|].
      right. eauto 10. }
  eapply swp_total, slabs_clsid_spec; [exact I|by apply (wrap_fits 64)|intros _; apply Hrest|].
  intros; apply Hrest.
Qed.

(** A new size of the same class. *)
Lemma resize_block sh hm fl n s it1 i1 p m j old Q :
  slab_inv sh hm fl n 0 s → live s p = Some j → stats_map s !! p = Some it1 →
  items s !! it1 = Some i1 → fits_class sh m (hm it1) → 0 < m →
  (∀ s', slab_ok s' → lock_ s' = lock_ s → same_region s s' → ram s' = ram s →
    set_live (abs s) p (Some m) (abs s') → Q p s') →
  swp F (put_item it1 (λ i, i <| it_size := to_int m |>);;
         slabs_adjust_mem_requested (hm it1) old m;; mret p) Q s.
Proof.
  intros I Hl Hs Hi Hfit Hm HQ.
  destruct (live_inv _ _ _ _ _ _ _ I Hl) as (i' & i1' & Hs' & Hi' & Hp & _ & Hc & _ & _).
  replace i' with it1 in * by congruence. replace i1' with i1 in * by congruence. clear i' i1' Hs' Hi'.
  pose proof (fits_class_size _ _ _ (si_shape _ _ _ _ _ _ I) Hfit) as Hm'.
  change item_size_max with 4096 in Hm'. rewrite to_int_small by lia.
  pose proof Hfit as [Hk _]. pose proof Hk as [Hk1 Hk2].
  assert (it_clsid i1 ≠ 0) as Hnz by (rewrite Hc; unfold POWER_SMALLEST in *; lia).
  sstep. sstep; [exact Hi|]. cbn beta. set (it' := i1 <| it_size := m |>).
  pose proof (slab_inv_resize sh hm fl n s it1 i1 it' I Hi Hnz eq_refl eq_refl Hm Hfit) as I1.
  set (s1 := s <| items := _ |>) in *.
  destruct (si_class _ _ _ _ _ _ I1 (hm it1) Hk) as (c & Hcl & _).
  sstep. unfold slabs_adjust_mem_requested. sstep. sstep. rewrite (si_pl _ _ _ _ _ _ I1).
  sstep; intros E; [apply orb_true_iff in E as [|]; zbool; lia|].
  sstep; [exact Hcl|]. sstep. apply HQ; try done.
  - do 4 eexists. eapply (slab_inv_class s1 (hm it1) c); [done..|]. by intros []; constructor.
  - intros q. cbn. change (live s1 q = if q =? p then Some m else live s q). unfold s1.
    rewrite (live_item s p it1 i1); [|done| |done].
    + cbn. by rewrite (proj2 (Z.eqb_neq _ _) Hnz).
    + intros q' Hq'. apply (si_stats _ _ _ _ _ _ I) in Hq' as (? & ? & ?). congruence.
Qed.

Lemma realloc_live sh hm fl n s it1 i1 p m j K Q :
  slab_inv sh hm fl n 0 s → fits 64 m → live s p = Some j → stats_map s !! p = Some it1 →
  items s !! it1 = Some i1 → (malloc_fails realloc_ok s m → F) →
  (∀ r s', slab_ok s' → lock_ s' = lock_ s → same_region s s' → (∀ a, ram s' a = ram s a) →
    (r = p ∧ set_live (abs s) p (Some m) (abs s') ∨
     ∃ h1, malloc_spec (mem_base s) (mem_base s + mem_limit s) m (abs s) r h1 ∧
           set_live h1 p None (abs s')) → r ≠ NULL → swp F (K r) Q s') →
  swp F (realloc_rest it1 i1 p m K) Q s.
Proof.
  intros I [Hm _] Hl Hs Hi HF HK. unfold realloc_rest.
  destruct (live_inv _ _ _ _ _ _ _ I Hl) as (i' & i1' & Hs' & Hi' & Hp & Hj & Hc & Hj0 & Hfit1).
  replace i' with it1 in * by congruence. replace i1' with i1 in * by congruence. clear i' i1' Hs' Hi'.
  pose proof (si_shape _ _ _ _ _ _ I) as Sh.
  pose proof (fits_class_size _ _ _ Sh Hfit1) as Hj1. change item_size_max with 4096 in Hj1.
  assert (wrap 64 (it_size i1) = j) as Hw by (rewrite Hj, wrap_small; [done|unfold fits; lia]).
  pose proof (live_range _ _ _ _ _ _ _ I Hl) as (_ & Hbp & _).
  pose proof (si_base _ _ _ _ _ _ I) as [Hb0 _].
  assert (it_clsid i1 ≠ 0) as Hnz.
  { rewrite Hc. destruct Hfit1 as [[? _] _]. unfold POWER_SMALLEST in *. lia. }
  rewrite Hw. sstep. eapply swp_total, slabs_clsid_spec; [exact I|lia| |].
  { change item_size_max with 4096. lia. }
  intros k1 _ Hk1. pose proof (fits_class_unique _ _ _ _ Hfit1 Hk1) as <-. rewrite Hc.
  sstep. sstep; [intros E; zbool; done|]. intros _.
  sstep. eapply swp_total, slabs_clsid_spec; [exact I|done| |].
  - intros Hbad. sstep. sstep; intros E; [zbool; congruence|].
    assert F as HFd. { apply HF. destruct Hbad; [by left|by right; left]. }
    sstep. sstep; [done|]. intros _. apply move_zero; [by do 4 eexists|done].
  - intros k Hm0 Hfit. sstep. sstep; intros E; zbool.
    + subst k. eapply resize_block; try done. intros s' Hok' G1 G2 G3 G4.
      apply HK; try done; [by intros a; rewrite G3|by left|unfold NULL; lia].
    + sstep. sstep.
      { intros E2. exfalso. apply E. apply negb_false_iff in E2. zbool. subst m.
        by eapply fits_class_unique. }
      intros _. apply (move_live sh hm fl n it1 i1 p j); try done.
      intros q s1 s' Hok1 A Hok' G1 G2 G3 G4 Hq. apply HK; try done. right.
      exists (mk_heap (live s1) (ram s)). split; [by apply allocated_new_block|].
      intros a. apply G1.
Qed.

Lemma sb_realloc_spec s p m Q :
  slab_wf s → fits 64 m → p ≠ NULL → (live s p = None ∨ malloc_fails realloc_ok s m → F) →
  (∀ r s', slab_wf s' → same_region s s' → (∀ a, ram s' a = ram s a) →
    (∃ j, live s p = Some j ∧
      (r = p ∧ set_live (abs s) p (Some m) (abs s') ∨
       ∃ h1, malloc_spec (mem_base s) (mem_base s + mem_limit s) m (abs s) r h1 ∧
             set_live h1 p None (abs s'))) → Q r s') →
  swp F (sb_realloc realloc_ok p m) Q s.
Proof.
  intros [Hlk Hok] Hm Hp HF HQ. unfold sb_realloc.
  pose proof (slab_ok_base _ Hok) as (_ & Hl & _). apply swp_read_limit; [done|].
  rewrite (proj2 (Z.eqb_neq _ _) Hp). sstep. apply swp_lock; [done|].
  set (s1 := s <| lock_ := true |>). assert (slab_ok s1) as Hok1 by by apply (slab_ok_view s).
  pose proof Hok1 as (sh & hm & fl & n & I1). pose proof (si_shape _ _ _ _ _ _ I1) as Sh.
  sstep. apply swp_item_at.
  { intros Es. apply HF. left. unfold live. cbn in Es. by rewrite Es. }
  intros i Es. pose proof (proj1 (si_stats _ _ _ _ _ _ I1 p i) Es) as (it & Hi & Hd).
  sstep. sstep; [exact Hi|]. cbn zeta.
  replace (wrap 64 (m + SB_PREFIX_SIZE)) with m
    by (unfold SB_PREFIX_SIZE; by rewrite Z.add_0_r, wrap_small).
  destruct (si_status _ _ _ _ _ _ I1 i it Hi) as [[Hz _]|(_ & Hc & _ & Hpos & Hfit)].
  - assert F as HFd.
    { apply HF. left. unfold live. cbn in Es, Hi. rewrite Es. cbn. rewrite Hi. cbn. by rewrite Hz. }
    by apply (realloc_free_chunk sh hm fl n s1 i it p m
      (λ ret, unlock;; assert (negb (ret =? NULL));; mret ret)).
  - assert (live s p = Some (it_size it)) as Hlive.
    { unfold live. cbn in Es, Hi. rewrite Es. cbn. rewrite Hi. cbn.
      rewrite (proj2 (Z.eqb_neq _ _)); [done|]. rewrite Hc. destruct Hfit as [[? _] _].
      unfold POWER_SMALLEST in *. lia. }
    apply (realloc_live sh hm fl n s1 i it p m (it_size it)
      (λ ret, unlock;; assert (negb (ret =? NULL));; mret ret)); try done; [by auto|].
    intros r s' Hok' G1 [G2 G3] G4 G5 Hr. sstep. apply swp_update. sstep.
    sstep; intros E; [by apply negb_false_iff, Z.eqb_eq in E|]. sstep.
    apply HQ; try done; [|by eexists]. split; [done|]. by apply (slab_ok_view s').
Qed.
End calls.

(** ** The remaining calls *)
Lemma run_calloc realloc_ok F s n m Q :
  slab_wf s → fits 64 n → fits 64 m → (malloc_fails realloc_ok s (wrap 64 (n * m)) → F) →
  (∀ p s', slab_wf s' → same_region s s' →
    heap_spec (mem_base s) (mem_base s + mem_limit s) (Calloc n m) (abs s) p (abs s') → Q p s') →
  swp F (sb_calloc realloc_ok n m) Q s.
Proof.
  intros Hwf Hn Hm HF HQ. pose proof (slab_ok_base _ (proj2 Hwf)) as (_ & Hl & _).
  unfold sb_calloc. apply swp_read_limit; [done|]. sstep.
  apply sb_malloc_spec; [done|by apply wrap_fits|done|].
  intros p s' [Hlk Hok] Hreg Hram Hp Hspec. sstep; intros E; [|by apply negb_false_iff, Z.eqb_eq in E].
  apply swp_memset_ret, HQ.
  - split; [done|]. by apply (slab_ok_view s').
  - done.
  - split; [done|]. intros a. cbn. by rewrite Hram.
Qed.

Lemma run_aligned_calloc realloc_ok F s n m b Q :
  slab_wf s → fits 64 n → fits 64 m → 0 < b →
  (malloc_fails realloc_ok s (ALIGN (wrap 64 (n * m)) b) ∨ ¬ (b | CHUNK_ALIGN_BYTES) → F) →
  (∀ p s', slab_wf s' → same_region s s' →
    heap_spec (mem_base s) (mem_base s + mem_limit s) (AlignedCalloc n m b) (abs s) p (abs s') →
    Q p s') →
  swp F (sb_aligned_calloc realloc_ok n m b) Q s.
Proof.
  intros Hwf Hn Hm Hb HF HQ. pose proof (slab_ok_base _ (proj2 Hwf)) as (_ & Hl & _).
  unfold sb_aligned_calloc. apply swp_read_limit; [done|]. sstep.
  apply sb_aligned_malloc_spec; [done|by apply wrap_fits|done|done|].
  intros p s' [Hlk Hok] Hreg Hram Hp Hpb Hspec.
  sstep; intros E; [|by apply negb_false_iff, Z.eqb_eq in E]. apply swp_memset_ret, HQ.
  - split; [done|]. by apply (slab_ok_view s').
  - done.
  - split_and!; try done. intros a. cbn. by rewrite Hram.
Qed.

(** The queries change nothing. *)
Lemma run_query s c Q F :
  slab_wf s → (stats_map s !! c = None → F) →
  (∀ s', slab_wf s' → same_region s s' → same_mem (abs s) (abs s') →
     (∀ q, live s' q = live s q) → Q (if decide (live s c = None) then 1 else 0) s') →
  swp F (b ← is_free c; mret (if b : bool then 1 else 0)) Q s.
Proof.
  intros [Hlk Hok] HF HQ. unfold is_free. sstep. sstep. apply swp_lock; [done|].
  set (s1 := s <| lock_ := true |>). assert (slab_ok s1) as (sh & hm & fl & n & I1)
    by by apply (slab_ok_view s).
  sstep. apply swp_item_at; [done|]. intros i Es.
  pose proof (proj1 (si_stats _ _ _ _ _ _ I1 c i) Es) as (it & Hi & _).
  sstep. sstep; [exact Hi|]. sstep. apply swp_update. sstep. sstep.
  assert ((if it_clsid it =? 0 then 1 else 0) = if decide (live s c = None) then 1 else 0) as ->.
  { unfold live. cbn in Es, Hi. rewrite Es. cbn. rewrite Hi. cbn.
    by destruct (it_clsid it =? 0), (decide _). }
  apply HQ; try done. split; [done|]. by apply (slab_ok_view s).
Qed.

Lemma run_get_size s p Q F :
  slab_wf s → (stats_map s !! p = None → F) →
  (∀ r, (∀ j, live s p = Some j → r = j) → Q r s) → swp F (get_size p) Q s.
Proof.
  intros [_ (sh & hm & fl & n & I)] HF HQ. unfold get_size. sstep. apply swp_item_at; [done|].
  intros i Es. pose proof (proj1 (si_stats _ _ _ _ _ _ I p i) Es) as (it & Hi & _).
  sstep. sstep; [exact Hi|]. sstep. apply HQ. intros j Hj.
  destruct (live_inv _ _ _ _ _ _ _ I Hj) as (i' & it' & ? & ? & _ & <- & _ & Hp & Hfit).
  replace it' with it in * by congruence.
  pose proof (fits_class_size _ _ _ (si_shape _ _ _ _ _ _ I) Hfit) as Hle.
  change item_size_max with 4096 in Hle. rewrite wrap_small; [done|]. unfold fits. lia.
Qed.
