(* ===== verification/SlabInit.v ===== *)
(** * SlabInit: the initialisation of the slab allocator

    [slabs_init] builds a table of size classes for any growth factor of at least one,
    without leaving the array of classes, and cuts one page for every class; afterwards
    the allocator is well-formed and nothing is allocated. *)
From S2P Require Import Prelude DsmType Slabs SlabsInv SlabCalls.
From stdpp Require Import base numbers option list list_numbers gmap relations.
Open Scope Z_scope.

(** ** The table of classes *)

(** A class with its size and nothing else. *)
Definition sized_class (c : slabclass_t) : Prop :=
  ∃ m, c = mk_slabclass m (item_size_max / m) NULL 0 0 [] 0 0 0 ∧
    48 ≤ m ≤ item_size_max ∧ m mod CHUNK_ALIGN_BYTES = 0.

(** The classes below [i] have their sizes, the others are zero. *)
Record table_upto (i : Z) (cl : list slabclass_t) : Prop := {
  tu_length : length cl = Z.to_nat MAX_NUMBER_OF_SLAB_CLASSES;
  tu_sized : ∀ k, POWER_SMALLEST ≤ k < i → ∃ c, arr_get cl k = Some c ∧ sized_class c;
  tu_zero : ∀ k, i ≤ k ≤ POWER_LARGEST → arr_get cl k = Some zero_class;
}.

Lemma align8_bounds x :
  0 ≤ x ≤ item_size_max →
  x ≤ align8 x ≤ item_size_max ∧ align8 x mod CHUNK_ALIGN_BYTES = 0.
Proof.
  unfold align8, CHUNK_ALIGN_BYTES. change item_size_max with 4096. intros.
  destruct (Z.eqb_spec (x mod 8) 0); cbn; [lia|]. divlia.
Qed.

Lemma set_class_size_table i cl m :
  table_upto i cl → POWER_SMALLEST ≤ i ≤ POWER_LARGEST → 48 ≤ m ≤ item_size_max →
  m mod CHUNK_ALIGN_BYTES = 0 →
  ∃ cl', set_class_size cl i m = Some cl' ∧ table_upto (i + 1) cl'.
Proof.
  intros [Hlen Hs Hz] Hi Hm Hal. unfold set_class_size. rewrite (Hz i) by lia. cbn.
  rewrite (proj2 (Z.eqb_neq m 0)) by lia. eexists. split.
  { apply arr_set_Some. rewrite Hlen. change (Z.to_nat MAX_NUMBER_OF_SLAB_CLASSES) with 201%nat.
    unfold POWER_SMALLEST, POWER_LARGEST in *. lia. }
  set (c := zero_class <| sc_size := m |> <| sc_perslab := item_size_max / m |>).
  assert (∀ k, arr_get (<[Z.to_nat i := c]> cl) k = if k =? i then Some c else arr_get cl k) as Hg.
  { intros k. apply arr_get_set, arr_set_Some. rewrite Hlen.
    change (Z.to_nat MAX_NUMBER_OF_SLAB_CLASSES) with 201%nat.
    unfold POWER_SMALLEST, POWER_LARGEST in *. lia. }
  constructor; [by rewrite length_insert| |]; intros k Hk; rewrite Hg.
  - destruct (Z.eqb_spec k i) as [->|]; [|apply Hs; lia]. exists c. split; [done|]. by exists m.
  - rewrite (proj2 (Z.eqb_neq k i)) by lia. apply Hz. lia.
Qed.

(** With a factor of at least one the loop ends inside the array. *)
Lemma init_loop_spec fuel fn fd i size pre cl :
  0 < fd ≤ fn → table_upto (i + 1) cl → 0 ≤ i < POWER_LARGEST → 48 ≤ size → 0 ≤ pre →
  POWER_LARGEST - i < Z.of_nat fuel →
  ∃ pl cl', init_loop fuel fn fd i size pre cl = Some (pl, cl') ∧
    POWER_SMALLEST ≤ pl ≤ POWER_LARGEST ∧ table_upto pl cl'.
Proof.
  intros Hf. revert i size pre cl. induction fuel as [|fuel IH]; intros i size pre cl Ht Hi Hs Hpre Hfu;
    [lia|].
  cbn -[POWER_LARGEST DSM_CACHE_LINE_SIZE]. destruct (_ && _) eqn:Hc.
  - apply andb_true_iff in Hc as [Hc1 Hc2]. zbool.
    assert (size ≤ item_size_max) as Hs'.
    { change item_size_max with 4096 in *. nia. }
    destruct (align8_bounds size) as [Ha Hal]; [lia|].
    assert ((pre / DSM_CACHE_LINE_SIZE <? align8 size / DSM_CACHE_LINE_SIZE) &&
      negb (align8 size mod DSM_CACHE_LINE_SIZE =? 0) = false) as ->.
    { change item_size_max with DSM_CACHE_LINE_SIZE in *. change DSM_CACHE_LINE_SIZE with 4096 in *.
      destruct (Z.eqb_spec (align8 size mod 4096) 0) as [|Hne]; [by rewrite andb_false_r|].
      rewrite andb_true_r. apply Z.ltb_ge.
      rewrite (Z.div_small (align8 size)); [by apply Z.div_pos|].
      assert (align8 size ≠ 4096) by (intros E; by rewrite E in Hne). lia. }
    cbn [mbind option_bind].
    destruct (set_class_size_table (i + 1) cl (align8 size)) as (cl1 & Hcl1 & Ht1); [done| |lia|done|].
    { unfold POWER_SMALLEST. lia. }
    rewrite Hcl1. cbn [mbind option_bind]. apply IH; [done|lia| |lia|lia].
    rewrite wrap_small.
    + apply Z.div_le_lower_bound; [lia|]. nia.
    + change item_size_max with 4096 in *. split; [apply Z.div_pos; nia|].
      apply Z.div_lt_upper_bound; [lia|]. nia.
  - eexists _, _. split; [done|]. unfold POWER_SMALLEST. split; [lia|done].
Qed.

Lemma zero_table : table_upto POWER_SMALLEST
  (replicate (Z.to_nat MAX_NUMBER_OF_SLAB_CLASSES) zero_class).
Proof.
  constructor; [by rewrite length_replicate|intros k; lia|]. intros k Hk. unfold arr_get.
  rewrite (proj2 (Z.ltb_ge _ _)) by (unfold POWER_SMALLEST in *; lia).
  apply lookup_replicate. split; [done|]. unfold POWER_SMALLEST, POWER_LARGEST in *.
  change (Z.to_nat MAX_NUMBER_OF_SLAB_CLASSES) with 201%nat. lia.
Qed.

(** The classes that [slabs_init] leaves, the last one with room for a whole page. *)
Definition init_shape (pl : Z) (cl : list slabclass_t) : shape :=
  mk_shape pl (λ k, if k =? pl then item_size_max
    else match arr_get cl k with Some c => sc_size c | None => 0 end).

Lemma init_shape_ok pl cl :
  POWER_SMALLEST ≤ pl ≤ POWER_LARGEST → table_upto pl cl → shape_ok (init_shape pl cl).
Proof.
  intros Hpl [_ Hs _]. constructor; cbn; [done| | |by rewrite Z.eqb_refl]; intros k [? ?]; cbn in *;
    (destruct (Z.eqb_spec k pl); [done|]);
    destruct (Hs k) as (c & -> & m & -> & ? & ?); [lia|done|lia|done].
Qed.

(** The state before the first page. *)
Lemma slab_inv_empty pl cl c s :
  POWER_SMALLEST ≤ pl ≤ POWER_LARGEST → table_upto pl cl → arr_get cl pl = Some c →
  slabclass s = <[Z.to_nat pl := c <| sc_size := item_size_max |> <| sc_perslab := 1 |>]> cl →
  power_largest s = pl → 0 < mem_base s → mem_base s mod CHUNK_ALIGN_BYTES = 0 →
  mem_current s = mem_base s → mem_avail s = mem_limit s → 0 < mem_limit s ≤ 2 ^ 37 →
  items s = ∅ → stats_map s = ∅ → next_item s = 1 →
  slab_inv (init_shape pl cl) (λ _, 0) (λ _, []) 0 0 s.
Proof.
  intros Hpl Ht Hc Ecl Epl Hb Hb8 Ec Ea Hl Ei Es En. pose proof Ht as [Hlen Hs Hz].
  rewrite (Hz pl) in Hc by lia. injection Hc as <-.
  assert (∀ k, arr_get (slabclass s) k = if k =? pl
    then Some (mk_slabclass item_size_max 1 NULL 0 0 [] 0 0 0) else arr_get cl k) as Hg.
  { intros k. rewrite Ecl. apply (arr_get_set cl), arr_set_Some. rewrite Hlen.
    change (Z.to_nat MAX_NUMBER_OF_SLAB_CLASSES) with 201%nat.
    unfold POWER_SMALLEST, POWER_LARGEST in *. lia. }
  constructor; rewrite ?Ei, ?Es, ?En; try done; try (intros ?? H; by rewrite lookup_empty in H).
  - by apply init_shape_ok.
  - by rewrite Ecl, length_insert.
  - intros k [Hk1 Hk2]. cbn in Hk2. rewrite Hg. destruct (Z.eqb_spec k pl) as [->|].
    + eexists. split; [done|]. constructor; cbn; rewrite ?Z.eqb_refl; done.
    + destruct (Hs k) as (ck & Hck & m & -> & ? & ?); [lia|]. eexists. split; [exact Hck|].
      constructor; cbn; rewrite ?(proj2 (Z.eqb_neq k pl)), ?Hck by done; done.
  - intros k. apply NoDup_nil_2.
  - intros k i _ Hi. by apply not_elem_of_nil in Hi.
  - lia.
  - lia.
  - lia.
  - intros p i. rewrite lookup_empty. split; [done|]. intros (it & Hi & _).
    by rewrite lookup_empty in Hi.
Qed.

(** ** Preallocation *)
Section preallocation.
Context {realloc_ok : Z → bool} (Hrealloc : ∀ b, realloc_ok b = true).

Lemma page_available s n sh hm fl :
  slab_inv sh hm fl n 0 s → mem_malloced s = item_size_max * n →
  item_size_max * (n + 1) ≤ mem_limit s → ¬ no_page realloc_ok s.
Proof.
  intros I Hm Hl. pose proof (si_avail _ _ _ _ _ _ I) as Ha.
  pose proof (si_limit _ _ _ _ _ _ I) as (? & ? & ?). change item_size_max with 4096 in *.
  intros [|[Hlt|[b Hb]]].
  - change item_size_max with 4096 in *. lia.
  - change item_size_max with 4096 in *. rewrite Hm, wrap_small in Hlt; [lia|]. unfold fits. lia.
  - by rewrite Hrealloc in Hb.
Qed.

(** The classes from [n + 1] on are empty; every class gets a page. *)
Lemma preallocate_spec sh m n hm fl s :
  slab_inv sh hm fl n 0 s → mem_malloced s = item_size_max * n → n ≤ sh_pl sh →
  item_size_max * sh_pl sh ≤ mem_limit s → Z.of_nat m + n = POWER_LARGEST →
  (∀ k, n < k → fl k = []) →
  swp False (preallocate realloc_ok m (n + 1) n (sh_pl sh)) (λ _ s', ∃ hm' fl',
    slab_inv sh hm' fl' (sh_pl sh) 0 s' ∧ frame s s' ∧
    mem_malloced s' = item_size_max * sh_pl sh ∧
    (n = sh_pl sh → s' = s ∧ fl' = fl) ∧
    (n < sh_pl sh →
     head_data s' (fl' (sh_pl sh))
       (mem_base s + item_size_max * (sh_pl sh - 1)) ∧
     length (fl' (sh_pl sh)) = 1%nat)) s.
Proof.
  revert n hm fl s. induction m as [|m IH]; intros n hm fl s I Hm Hn Hl Hmn Hfl.
  - pose proof (sho_pl _ (si_shape _ _ _ _ _ _ I)) as Hpl. assert (sh_pl sh = n) as E by lia.
    unfold swp. cbn. exists hm, fl. rewrite E. split_and!; [done|apply frame_refl|done|done|lia].
  - cbn [preallocate]. destruct (Z.ltb_spec (sh_pl sh) (n + 1)) as [Hgt|Hle].
    + assert (sh_pl sh = n) as E by lia. unfold swp. cbn. exists hm, fl. rewrite E.
      split_and!; [done|apply frame_refl|done|done|lia].
    + sstep. pose proof (si_limit _ _ _ _ _ _ I) as (Hn0 & _ & _).
      assert (in_cls sh (n + 1)) as Hk by (unfold in_cls, POWER_SMALLEST; lia).
      eapply swp_mono; [by apply (newslab_spec realloc_ok sh hm fl n)|]. cbn beta.
      intros r s1 [(_ & Hno & _)|(-> & fl1 & P)].
      { exfalso. eapply page_available; [exact I|done| |exact Hno].
        change item_size_max with 4096 in *. lia. }
      change (1 =? 0) with false. cbn iota. destruct P as [[hm1 I1] F1 Hot Hmo Hhd Hcu Hav Hml].
      pose proof F1 as [_ _ _ Eb El _ _].
      assert (mem_malloced s1 = item_size_max * (n + 1)) as Hm1.
      { rewrite Hml, Hm. pose proof (si_limit _ _ _ _ _ _ I) as (_ & ? & ?).
        change item_size_max with 4096 in *. rewrite wrap_small; [lia|]. unfold fits. lia. }
      eapply swp_mono.
      { apply (IH (n + 1) hm1 fl1 s1); [done|done|lia|by rewrite El|lia|].
        intros k Hk'. rewrite Hot by lia. apply Hfl. lia. }
      intros _ s2 (hm2 & fl2 & I2 & F2 & Hm2 & Hsame & Hlast). exists hm2, fl2.
      split; [done|]. split; [by eapply frame_trans|]. split; [done|]. split; [intros; exfalso; lia|]. intros _.
      destruct (decide (n + 1 = sh_pl sh)) as [E|Hne]; [|rewrite <-Eb; apply Hlast; lia].
      destruct (Hsame E) as [-> ->]. rewrite <-E. pose proof (si_shape _ _ _ _ _ _ I) as Sh.
      rewrite E, (sho_last _ Sh), <-E in Hhd, Hmo.
      rewrite (si_current _ _ _ _ _ _ I) in Hhd. rewrite (Hfl (n + 1)) in Hmo by lia.
      change item_size_max with 4096 in *. cbn in Hmo, Hhd.
      replace (mem_base s + 4096 * (n + 1 - 1)) with (mem_base s + 4096 * n + 0) by lia.
      change (4096 `div` 4096) with 1 in Hmo. split; [done|lia].
Qed.

(** [slabs_init] on a region given by the caller. *)
Lemma slabs_init_spec pl cl fn fd huge limit base s :
  init_loop (S (Z.to_nat MAX_NUMBER_OF_SLAB_CLASSES)) fn fd 0 chunk_size chunk_size
    (replicate (Z.to_nat MAX_NUMBER_OF_SLAB_CLASSES) zero_class) = Some (pl, cl) →
  POWER_SMALLEST ≤ pl ≤ POWER_LARGEST → table_upto pl cl →
  items s = ∅ → stats_map s = ∅ → next_item s = 1 → mem_malloced s = 0 →
  0 < base → base mod CHUNK_ALIGN_BYTES = 0 → item_size_max * pl ≤ limit ≤ 2 ^ 37 →
  swp False (slabs_init realloc_ok huge None limit fn fd base) (λ r s', r = base ∧
    ∃ hm fl, slab_inv (init_shape pl cl) hm fl pl 0 s' ∧ lock_ s' = lock_ s ∧
      mem_base s' = base ∧ mem_limit s' = limit ∧ ram s' = ram s ∧ (∀ p, live s' p = None) ∧
      mem_malloced s' = item_size_max * pl ∧
      head_data s' (fl pl) (base + item_size_max * (pl - 1)) ∧ length (fl pl) = 1%nat) s.
Proof.
  intros Hloop Hpl Ht Ei Es En Em Hb Hb8 Hl. unfold slabs_init. sstep. sstep. sstep.
  assert (base ≠ NULL) as Hnz by (unfold NULL; lia).
  rewrite (proj2 (Z.eqb_neq _ _) Hnz). sstep. sstep. sstep. sstep.
  eapply swp_of_option; [exact Hloop|]. cbn beta iota. sstep.
  pose proof (tu_zero _ _ Ht pl) as Hzc. eapply swp_of_option; [apply Hzc; lia|]. sstep.
  eapply swp_of_option.
  { apply arr_set_Some. rewrite (tu_length _ _ Ht).
    change (Z.to_nat MAX_NUMBER_OF_SLAB_CLASSES) with 201%nat.
    unfold POWER_SMALLEST, POWER_LARGEST in *. lia. }
  sstep. sstep. sstep. sstep. sstep. unfold slabs_preallocate.
  match goal with |- swp _ _ _ ?st => set (s1 := st) end.
  assert (slab_inv (init_shape pl cl) (λ _, 0) (λ _, []) 0 0 s1) as I1.
  { eapply slab_inv_empty; [done|done|apply Hzc; lia|..]; try done.
    unfold s1. cbn. change item_size_max with 4096 in *. unfold POWER_SMALLEST in *. lia. }
  eapply swp_mono.
  { apply (preallocate_spec (init_shape pl cl) _ 0 (λ _, 0) (λ _, []) s1); try done.
    - cbn. unfold POWER_SMALLEST in *. lia.
    - cbn. lia. }
  intros _ s2 (hm & fl & I2 & F2 & Hm2 & _ & Hlast). sstep. pose proof F2 as [Fl Fr Fk Fb Fm _ _].
  split; [by rewrite Fb|]. exists hm, fl. destruct Hlast as [Hh Hlen]; [cbn; unfold POWER_SMALLEST in *; lia|].
  split_and!; try done. intros p. rewrite Fl. unfold live. cbn. by rewrite Es.
Qed.
End preallocation.

(** For every growth factor of at least one, [slabs_init] on a region of the caller
    returns a well-formed allocator without allocated blocks. *)
Lemma slabs_init_wf realloc_ok fn fd huge limit base cl0 pl0 free0 ram0 :
  (∀ b, realloc_ok b = true) → 0 < fd ≤ fn → 0 < base → base mod CHUNK_ALIGN_BYTES = 0 →
  item_size_max * POWER_LARGEST ≤ limit ≤ 2 ^ 37 →
  swp False (slabs_init realloc_ok huge None limit fn fd base) (λ r s', r = base ∧
    slab_wf s' ∧ mem_base s' = base ∧ mem_limit s' = limit ∧ ram s' = ram0 ∧
    ∀ p, live s' p = None) (new_SlabAllocator cl0 pl0 free0 ram0).
Proof.
  intros Hr Hf Hb Hb8 Hl.
  destruct (init_loop_spec (S (Z.to_nat MAX_NUMBER_OF_SLAB_CLASSES)) fn fd 0 chunk_size chunk_size
    (replicate (Z.to_nat MAX_NUMBER_OF_SLAB_CLASSES) zero_class)) as (pl & cl & Hloop & Hpl & Ht);
    [done|exact zero_table|done|done|done|done|].
  eapply swp_mono.
  { apply (slabs_init_spec Hr pl cl); try done. change item_size_max with 4096 in *.
    unfold POWER_LARGEST in *. lia. }
  intros r s' (-> & hm & fl & I & Hlk & Hmb & Hml & Hram & Hlive & _).
  cbn in Hlk, Hram. split_and!; try done. split; [done|by do 4 eexists].
Qed.

(** ** The blocks of a page *)

(** The next block of a page is at [p]: it is the only free one, at the end of the used
    part of the region, or the class is empty and a page will be cut off there. *)
Record page_next (sh : shape) (base limit p : Z) (s : allocator) : Prop := {
  pn_inv : ∃ hm fl n, slab_inv sh hm fl n 0 s ∧ mem_malloced s = item_size_max * n ∧
    (fl (sh_pl sh) = [] ∧ p = mem_current s ∨
     head_data s (fl (sh_pl sh)) p ∧ length (fl (sh_pl sh)) = 1%nat ∧
     p + item_size_max = mem_current s);
  pn_lock : lock_ s = false;
  pn_base : mem_base s = base;
  pn_limit : mem_limit s = limit;
}.

Lemma page_class sh :
  shape_ok sh → (∀ k, POWER_SMALLEST ≤ k < sh_pl sh → sh_size sh k < item_size_max) →
  fits_class sh item_size_max (sh_pl sh).
Proof. intros [Hpl _ _ Hlast] Hk. split_and!; [unfold in_cls; lia|by rewrite Hlast|done]. Qed.

Section pages.
Context {realloc_ok : Z → bool} (Hrealloc : ∀ b, realloc_ok b = true).
Context {sh : shape}
  (Hbig : ∀ k, POWER_SMALLEST ≤ k < sh_pl sh → sh_size sh k < item_size_max).

(** What an allocation of a page does to the next block. *)
Lemma page_next_alloc base limit p q s hm fl fl' n s' :
  slab_inv sh hm fl n 0 s → mem_malloced s = item_size_max * n →
  (fl (sh_pl sh) = [] ∧ p = mem_current s ∨
   head_data s (fl (sh_pl sh)) p ∧ length (fl (sh_pl sh)) = 1%nat ∧
   p + item_size_max = mem_current s) →
  mem_base s = base → mem_limit s = limit →
  alloc_post sh fl n (sh_pl sh) q item_size_max s fl' s' →
  q = p ∧ page_next sh base limit (p + item_size_max) (s' <| lock_ := false |>).
Proof.
  intros I Hm Hp Hb Hl [A _ Hfrom]. pose proof (sho_last _ (si_shape _ _ _ _ _ _ I)) as Hlast.
  destruct A as [_ _ _ _ _ Eb El _].
  destruct Hfrom as [([hm' I'] & Hh & Htl & Ec & _ & Em)|([hm' I'] & Hnil & -> & Hlen & Ec & _ & Em)].
  - destruct Hh as (i & l & it & E1 & E2 & <-).
    destruct Hp as [[Hn _]|[(i' & l' & it' & E1' & E2' & <-) [Hlen Hend]]]; [congruence|].
    rewrite E1 in Hlen, E1', Htl. injection E1' as <- <-. replace it' with it by congruence.
    destruct l as [|]; [|done]. split; [done|]. constructor; [|done|cbn; congruence|cbn; congruence].
    exists hm', fl', n. split_and!; [by apply (slab_inv_view s')|cbn; congruence|].
    left. split; [done|]. cbn. rewrite Ec. congruence.
  - destruct Hp as [[_ ->]|[_ [Hlen1 _]]]; [|by rewrite Hnil in Hlen1].
    rewrite Hlast in *. change (item_size_max / item_size_max) with 1 in *.
    split; [lia|]. constructor; [|done|cbn; congruence|cbn; congruence].
    exists hm', fl', (n + 1). split_and!; [by apply (slab_inv_view s')| |].
    + cbn. rewrite Em, Hm. pose proof (si_limit _ _ _ _ _ _ I') as (? & ? & ?).
      change item_size_max with 4096 in *. rewrite wrap_small; [lia|]. unfold fits. lia.
    + left. split; [|cbn; lia]. destruct (fl' (sh_pl sh)); [done|cbn [length] in Hlen; lia].
Qed.

Lemma alloc_page base limit p s :
  page_next sh base limit p s → p mod item_size_max = 0 → p + item_size_max ≤ base + limit →
  swp False (sb_aligned_calloc realloc_ok 1 DSM_CACHE_LINE_SIZE DSM_CACHE_LINE_SIZE)
    (λ r s', r = p ∧ page_next sh base limit (p + item_size_max) s' ∧
      ∀ a, ram s' a = if (p <=? a) && (a <? p + item_size_max) then 0 else ram s a) s.
Proof.
  intros [(hm & fl & n & I & Hm & Hp) Hlk Hb Hl] Hal Hend.
  pose proof (page_class sh (si_shape _ _ _ _ _ _ I) Hbig) as Hfit.
  assert (slab_ok s) as Hok by by do 4 eexists.
  pose proof (slab_ok_base _ Hok) as (Hb0 & Hl0 & _).
  unfold sb_aligned_calloc. apply swp_read_limit; [done|]. sstep.
  unfold sb_aligned_malloc. sstep. apply swp_lock; [done|]. apply swp_read_limit; [done|].
  set (s1 := s <| lock_ := true |>). cbn zeta.
  assert (slab_inv sh hm fl n 0 s1) as I1 by by apply (slab_inv_view s).
  change (ALIGN _ _) with item_size_max. sstep.
  eapply swp_total, slabs_clsid_spec; [exact I1|done|by intros [|]|].
  intros k _ Hk. pose proof (fits_class_unique _ _ _ _ Hfit Hk) as <-. sstep.
  eapply swp_mono; [by apply (do_slabs_alloc_spec realloc_ok sh hm fl n)|]. cbn beta.
  intros q s2 [(-> & Hnil & Hno & _)|(Hq & fl' & P)]; cbn beta.
  { exfalso. eapply (page_available Hrealloc s1); [exact I1|exact Hm| |exact Hno].
    destruct Hp as [[_ ->]|[_ [Hlen _]]]; [|by rewrite Hnil in Hlen].
    rewrite (si_current _ _ _ _ _ _ I) in Hend. cbn. lia. }
  pose proof (al_ram _ _ _ _ (ap_alloc _ _ _ _ _ _ _ _ _ P)) as Hram.
  destruct (page_next_alloc base limit p q s1 hm fl fl' n s2) as [-> Hnext]; try done.
  sstep. sstep; [intros E; by apply negb_false_iff, Z.eqb_eq in E|]. intros _. sstep.
  sstep; [intros E; by zbool|]. intros _. sstep. apply swp_update. sstep.
  sstep; intros E; [|by apply negb_false_iff, Z.eqb_eq in E]. apply swp_memset_ret.
  split; [done|]. split.
  - destruct Hnext as [(hm1 & fl1 & n1 & I2 & H2) ???]. constructor; try done.
    exists hm1, fl1, n1. split; [by eapply slab_inv_view; [|exact I2]|done].
  - intros a. cbn. by rewrite Hram.
Qed.

End pages.
