(* ===== verification/SlabHeap.v ===== *)
(** * SlabHeap: the slab allocator is an allocator

    The refinement of the abstract heap of [SlabCalls] by the calls of [Slabs]. *)
From S2P Require Import Prelude DsmType Slabs SlabsInv SlabCalls SlabInit.
From stdpp Require Import base numbers option list list_numbers gmap relations.
Open Scope Z_scope.

(** C35: The slab allocator is an allocator: from every well-formed state each call of the
    interface returns, leaves the state well-formed and the lock free, and does to the
    heap what the abstract heap says. A new block lies in the region, is a multiple of
    eight and overlaps no allocated block; [sb_free] replies the size asked for and
    removes that block only; [sb_realloc] resizes the block in place or trades it for
    another one; no call changes a byte other than those it clears. A call fails, by one
    of the assertions, only when nothing or more than a page is asked for, when the class
    is empty and can get no page, when the pointer is not an allocated block, or when a
    larger alignment than eight is asked for; it never waits for ever. *)
Theorem slab_refines realloc_ok c s :
  slab_wf s → call_ok c →
  swp (call_fails realloc_ok s c) (run realloc_ok c)
    (λ r s', slab_wf s' ∧ same_region s s' ∧
             heap_spec (mem_base s) (mem_base s + mem_limit s) c (abs s) r (abs s')) s.
Proof.
  intros Hwf Hc. destruct c as [m|m b|n m|n m b|p|p m|p|p]; cbn [run call_fails call_ok] in *.
  - apply sb_malloc_spec; try done. intros p s' ?? Hram ??. split_and!; try done.
    split; [done|]. intros a. cbn. by rewrite Hram.
  - destruct Hc. apply sb_aligned_malloc_spec; try done. intros p s' ?? Hram ???.
    split_and!; try done. split_and!; try done. intros a. cbn. by rewrite Hram.
  - destruct Hc. apply run_calloc; try done.
  - destruct Hc as (? & ? & ?). apply run_aligned_calloc; try done.
  - apply sb_free_spec; try done. intros m s' Hl ?? Hram Hl'. split_and!; try done.
    split_and!; try done. intros a. cbn. by rewrite Hram.
  - destruct (Z.eqb_spec p NULL) as [->|Hp].
    + pose proof (slab_ok_base _ (proj2 Hwf)) as (_ & Hl & _). unfold sb_realloc.
      apply swp_read_limit; [done|]. apply sb_malloc_spec; try done.
      intros p s' ?? Hram ??. split_and!; try done. split; [|done].
      intros a. cbn. by rewrite Hram.
    + apply sb_realloc_spec; try done. intros r s' ?? Hram Hr. split_and!; try done.
      split; [done|]. by rewrite (proj2 (Z.eqb_neq _ _) Hp).
  - apply run_query; try done.
  - apply run_get_size; try done.
Qed.

Lemma slab_refines_witness :
  ∃ s, slabs_init (λ _, true) 0 None (2 ^ 22) 1 1 65536 (new_SlabAllocator [] 0 0 (λ _, 7))
       = Done 65536 s ∧
    swp (call_fails (λ _, true) s (Malloc 40)) (run (λ _, true) (Malloc 40))
      (λ r s', slab_wf s' ∧ same_region s s' ∧
               heap_spec (mem_base s) (mem_base s + mem_limit s) (Malloc 40) (abs s) r (abs s')) s.
Proof.
  destruct (swp_done _ _ _ (slabs_init_wf (λ _, true) 1 1 0 (2 ^ 22) 65536 [] 0 0 (λ _, 7)
    (λ _, eq_refl) ltac:(lia) ltac:(lia) eq_refl ltac:(split; vm_compute; discriminate)))
    as (r & s & E & -> & Hwf & _).
  exists s. split; [exact E|]. apply (slab_refines (λ _, true) (Malloc 40) s Hwf).
  split; [lia|reflexivity].
Defined.
