(* ===== verification/Wire.v ===== *)
(** * Wire: the codecs of [hls/highPara/src/utils.cpp]

    A control message travels in three 512-bit formats: a network beat (bytes
    reversed, [ctrl_msg_to_net_tx] / [net_rx_to_ctrl_msg]), a host write
    ([ctrl_msg_to_h2c_w] / [h2c_w_to_ctrl_msg]) and a host DMA beat
    ([ctrl_msg_to_c2h_data]); a directory entry travels to and from DRAM as two
    beats ([dir_data_e_to_ddr_w_part1/2], [ddr_r_to_dir_data_e_part1/2]).

    A function that fills a structure through a reference takes the previous
    structure as an argument; an uninitialised 512-bit local is an argument
    named [junk]. *)
From stdpp Require Import base numbers list list_numbers.
From S2P Require Import Prelude DsmType.

Definition ones64 : Z := 0xffffffffffffffff.

(** Element [i] of a fixed-size array whose index is statically in range. *)
Definition arr_nth (l : list Z) (i : Z) : Z := default 0 (arr_get l i).

(** ** Byte reversal loops *)

(** [dst((i+1)*8-1, i*8) = src(511-i*8, 511-((i+1)*8-1))] for [i < 64]. *)
Definition bytes_to_wire (dst src : Z) : Z :=
  for_loop 64 (λ dst i,
    set_range 512 dst ((i + 1) * 8 - 1) (i * 8)
      (get_range src (511 - i * 8) (511 - ((i + 1) * 8 - 1)))) dst.

(** [dst(511-i*8, 511-((i+1)*8-1)) = src((i+1)*8-1, i*8)] for [i < 64]. *)
Definition bytes_from_wire (dst src : Z) : Z :=
  for_loop 64 (λ dst i,
    set_range 512 dst (511 - i * 8) (511 - ((i + 1) * 8 - 1))
      (get_range src ((i + 1) * 8 - 1) (i * 8))) dst.

(** [v(base-1+8*(i+1), base+8*i) = bitmap[i]] for [i < max_node_num], and back. *)
Definition put_bitmap (base v : Z) (bitmap : list Z) : Z :=
  for_loop max_node_num (λ v i,
    set_range 512 v (base - 1 + 8 * (i + 1)) (base + 8 * i) (arr_nth bitmap i)) v.

Definition take_bitmap (base v : Z) : list Z :=
  (λ i, get_range v (base - 1 + 8 * (i + 1)) (base + 8 * i)) <$> seqZ 0 max_node_num.

(** ** Network beats *)
Definition set_mac (junk : Z) (tmp_net_tx : net_rxtx) (src_mac dst_mac : Z) : net_rxtx :=
  let tmp_l2payload := set_range 512 junk 511 464 dst_mac in
  let tmp_l2payload := set_range 512 tmp_l2payload 463 416 src_mac in
  tmp_net_tx <| net_data := bytes_to_wire (net_data tmp_net_tx) tmp_l2payload |>
             <| net_keep := ones64 |> <| net_last := 0 |>.

Definition get_dst_mac (junk : Z) (tmp_net_rx : net_rxtx) : Z :=
  let tmp_l2payload := bytes_from_wire junk (net_data tmp_net_rx) in
  get_range tmp_l2payload 511 464.

Definition ctrl_msg_to_net_tx (junk : Z) (m : ctrl_msg) (tmp_net_tx : net_rxtx) : net_rxtx :=
  let p := set_range 512 junk 7 0 (mtype m) in
  let p := set_range 512 p 15 8 (req_cline_nodeID m) in
  let p := set_range 512 p 23 16 (req_cline_appThreadID m) in
  let p := set_range 512 p 87 24 (req_cline_addr m) in
  let p := set_range 512 p 119 88 (req_cline_index m) in
  let p := set_range 512 p 183 120 (cline_tag m) in
  let p := set_range 512 p 191 184 (agent_cline_nodeID m) in
  let p := set_range 512 p 255 192 (agent_cline_addr m) in
  let p := set_range 512 p 319 256 (dir_gblock_addr m) in
  let p := set_range 512 p 351 320 (dir_gblock_index m) in
  let p := put_bitmap 352 p (dir_gblock_bitmap m) in
  let p := set_range 512 p 423 416 (dir_gblock_nodeID m) in
  let p := set_range 512 p 439 424 (data_msg_length m) in
  tmp_net_tx <| net_data := bytes_to_wire (net_data tmp_net_tx) p |>
             <| net_keep := ones64 |>
             <| net_last := if data_msg_length m =? 0 then 1 else 0 |>.

Definition data_msg_to_net_tx (d : data_msg) (tmp_net_tx : net_rxtx) : net_rxtx :=
  tmp_net_tx <| net_data := bytes_to_wire (net_data tmp_net_tx) (dm_data d) |>
             <| net_keep := ones64 |> <| net_last := dm_last d |>.

Definition net_rx_to_c2h_data (junk : Z) (tmp_net_rx : net_rxtx) : c2h_data :=
  let tmp_l2payload := bytes_from_wire junk (net_data tmp_net_rx) in
  mk_c2h_data tmp_l2payload PSEUDO_QID_D (net_last tmp_net_rx).

Definition net_rx_to_ctrl_msg (junk : Z) (tmp_net_rx : net_rxtx) (m : ctrl_msg) : ctrl_msg :=
  let p := bytes_from_wire junk (net_data tmp_net_rx) in
  m <| mtype := get_range p 7 0 |>
    <| req_cline_nodeID := get_range p 15 8 |>
    <| req_cline_appThreadID := get_range p 23 16 |>
    <| req_cline_addr := get_range p 87 24 |>
    <| req_cline_index := get_range p 119 88 |>
    <| cline_tag := get_range p 183 120 |>
    <| agent_cline_nodeID := get_range p 191 184 |>
    <| agent_cline_addr := get_range p 255 192 |>
    <| dir_gblock_addr := get_range p 319 256 |>
    <| dir_gblock_index := get_range p 351 320 |>
    <| dir_gblock_bitmap := take_bitmap 352 p |>
    <| dir_gblock_nodeID := get_range p 423 416 |>
    <| data_msg_length := get_range p 439 424 |>.

Definition h2c_data_to_data_msg (d : h2c_data) : data_msg :=
  mk_data_msg (h2c_dat d) ones64 (h2c_last d).

(** ** Host formats *)

(** Returns the message (its [general_c2h_owner] is set) and the beat. *)
Definition ctrl_msg_to_c2h_data (m : ctrl_msg) (c : c2h_data) (tmp_qid : Z)
    : ctrl_msg * c2h_data :=
  let m := m <| general_c2h_owner := 1 |> in
  let p := set_range 512 (c2h_dat c) 7 0 (mtype m) in
  let p := set_range 512 p 15 8 (req_cline_nodeID m) in
  let p := set_range 512 p 23 16 (req_cline_appThreadID m) in
  let p := set_range 512 p 87 24 (req_cline_addr m) in
  let p := set_range 512 p 119 88 (req_cline_index m) in
  let p := set_range 512 p 183 120 (cline_tag m) in
  let p := set_range 512 p 191 184 (agent_cline_nodeID m) in
  let p := set_range 512 p 255 192 (agent_cline_addr m) in
  let p := set_range 512 p 319 256 (dir_gblock_addr m) in
  let p := set_range 512 p 351 320 (dir_gblock_index m) in
  let p := put_bitmap 352 p (dir_gblock_bitmap m) in
  let p := set_range 512 p 423 416 (dir_gblock_nodeID m) in
  let p := set_range 512 p 431 424 (general_c2h_owner m) in
  (m, c <| c2h_dat := p |> <| c2h_last := 1 |> <| c2h_ctrl_qid := wrap 11 tmp_qid |>).

Definition h2c_w_to_ctrl_msg (w : h2c_w) (m : ctrl_msg) : ctrl_msg :=
  let p := h2c_wdata w in
  m <| mtype := get_range p 7 0 |>
    <| req_cline_nodeID := get_range p 15 8 |>
    <| req_cline_appThreadID := get_range p 23 16 |>
    <| req_cline_addr := get_range p 87 24 |>
    <| req_cline_index := get_range p 119 88 |>
    <| cline_tag := get_range p 183 120 |>
    <| agent_cline_nodeID := get_range p 191 184 |>
    <| agent_cline_addr := get_range p 255 192 |>
    <| dir_gblock_addr := get_range p 319 256 |>
    <| dir_gblock_index := get_range p 351 320 |>
    <| dir_gblock_bitmap := take_bitmap 352 p |>
    <| dir_gblock_nodeID := get_range p 423 416 |>
    <| init_state := get_range p 439 432 |>
    <| init_mac := get_range p 487 440 |>.

Definition h2c_w_to_net_init_msg (w : h2c_w) : net_init_msg :=
  mk_net_init_msg (get_range (h2c_wdata w) 423 416) (get_range (h2c_wdata w) 487 440).

Definition h2c_w_to_dir_data (w : h2c_w) : dir_data :=
  mk_dir_data (get_range (h2c_wdata w) 319 256) (get_range (h2c_wdata w) 351 320)
    (take_bitmap 352 (h2c_wdata w)) (get_range (h2c_wdata w) 439 432) 0.

Definition ctrl_msg_to_h2c_w (m : ctrl_msg) (w : h2c_w) : h2c_w :=
  let p := set_range 512 (h2c_wdata w) 7 0 (mtype m) in
  let p := set_range 512 p 15 8 (req_cline_nodeID m) in
  let p := set_range 512 p 23 16 (req_cline_appThreadID m) in
  let p := set_range 512 p 87 24 (req_cline_addr m) in
  let p := set_range 512 p 119 88 (req_cline_index m) in
  let p := set_range 512 p 183 120 (cline_tag m) in
  let p := set_range 512 p 191 184 (agent_cline_nodeID m) in
  let p := set_range 512 p 255 192 (agent_cline_addr m) in
  let p := set_range 512 p 319 256 (dir_gblock_addr m) in
  let p := set_range 512 p 351 320 (dir_gblock_index m) in
  let p := put_bitmap 352 p (dir_gblock_bitmap m) in
  let p := set_range 512 p 423 416 (dir_gblock_nodeID m) in
  let p := set_range 512 p 439 432 (init_state m) in
  let p := set_range 512 p 487 440 (init_mac m) in
  w <| h2c_wdata := p |> <| h2c_wstrb := ones64 |> <| h2c_wlast := 1 |>.

Definition extract_mtype_from_h2c_w (w : h2c_w) : Z := get_range (h2c_wdata w) 7 0.

(** ** Directory entries in DRAM

    The address slices of the second beat are written and read as
    [wdata(64*(i+1), 64*i)]: 65 bits, one more than the field.  On a read the
    65-bit slice is assigned to a 64-bit field. *)
Definition dir_data_e_to_ddr_w_part1 (d : dir_data_e) (w : ddr_w) : ddr_w :=
  let p := set_range 512 (ddr_wdata w) 63 0 (de_gblock_addr d) in
  let p := set_range 512 p 95 64 (de_gblock_index d) in
  let p := put_bitmap 96 p (de_gblock_bitmap d) in
  let p := set_range 512 p 167 160 (de_state d) in
  let p := set_range 512 p 175 168 (de_replica_count d) in
  w <| ddr_wdata := p |> <| ddr_wstrb := ones64 |> <| ddr_wlast := 0 |>.

Definition dir_data_e_to_ddr_w_part2 (d : dir_data_e) (w : ddr_w) : ddr_w :=
  let p := for_loop max_node_num (λ p i,
    set_range 512 p (64 * (i + 1)) (64 * i) (arr_nth (de_agent_cline_addr d) i))
    (ddr_wdata w) in
  w <| ddr_wdata := p |> <| ddr_wstrb := ones64 |> <| ddr_wlast := 1 |>.

Definition ddr_r_to_dir_data_e_part1 (r : ddr_r) (d : dir_data_e) : dir_data_e :=
  let p := ddr_rdata r in
  d <| de_gblock_addr := get_range p 63 0 |>
    <| de_gblock_index := get_range p 95 64 |>
    <| de_gblock_bitmap := take_bitmap 96 p |>
    <| de_state := get_range p 167 160 |>
    <| de_replica_count := get_range p 175 168 |>.

Definition ddr_r_to_dir_data_e_part2 (r : ddr_r) (d : dir_data_e) : dir_data_e :=
  d <| de_agent_cline_addr :=
         (λ i, wrap 64 (get_range (ddr_rdata r) (64 * (i + 1)) (64 * i)))
           <$> seqZ 0 max_node_num |>.

Definition dir_data_to_dir_data_e (d : dir_data) (e : dir_data_e) : dir_data_e :=
  e <| de_gblock_addr := dd_gblock_addr d |>
    <| de_gblock_index := dd_gblock_index d |>
    <| de_gblock_bitmap := arr_nth (dd_gblock_bitmap d) <$> seqZ 0 max_node_num |>
    <| de_state := dd_state d |>
    <| de_replica_count := dd_replica_count d |>.

(** ** Byte reversal is an involution between the two loops *)

Definition rev8 (k : Z) : Z := 504 - 8 * (k / 8) + k mod 8.

Lemma rev8_range k : 0 ≤ k < 512 → 0 ≤ rev8 k < 512.
Proof. unfold rev8. intros. divlia. Qed.

Lemma rev8_rev8 k : 0 ≤ k < 512 → rev8 (rev8 k) = k.
Proof. unfold rev8. intros. divlia. Qed.

Lemma testbit_bytes_to_wire dst src k :
  0 ≤ k < 512 → Z.testbit (bytes_to_wire dst src) k = Z.testbit src (rev8 k).
Proof.
  intros Hk. unfold bytes_to_wire.
  match goal with |- context [for_loop 64 ?f dst] =>
    assert (∀ k, 0 ≤ k < 512 → Z.testbit (for_loop 64 f dst) k =
      if k <? 8 * 64 then Z.testbit src (rev8 k) else Z.testbit dst k) as H end.
  2: { rewrite H by lia. by rewrite (proj2 (Z.ltb_lt _ _)) by lia. }
  apply (for_loop_inv (λ i a, ∀ k, 0 ≤ k < 512 → Z.testbit a k =
    if k <? 8 * i then Z.testbit src (rev8 k) else Z.testbit dst k)).
  - lia.
  - intros j ?. by rewrite (proj2 (Z.ltb_ge _ _)) by lia.
  - intros i a ? IH j ?. rewrite testbit_set_range, IH by lia.
    rewrite (proj2 (Z.ltb_lt j 512)) by lia. simpl.
    destruct (Z.leb_spec (i * 8) j), (Z.leb_spec j ((i + 1) * 8 - 1)),
      (Z.ltb_spec j (8 * i)), (Z.ltb_spec j (8 * (i + 1))); simpl; try done; try lia.
    rewrite testbit_get_range by lia. rewrite (proj2 (Z.ltb_lt _ _)) by lia. simpl.
    f_equal. unfold rev8. divlia.
Qed.

Lemma testbit_bytes_from_wire dst src k :
  0 ≤ k < 512 → Z.testbit (bytes_from_wire dst src) k = Z.testbit src (rev8 k).
Proof.
  intros Hk. unfold bytes_from_wire.
  match goal with |- context [for_loop 64 ?f dst] =>
    assert (∀ k, 0 ≤ k < 512 → Z.testbit (for_loop 64 f dst) k =
      if 512 - 8 * 64 <=? k then Z.testbit src (rev8 k) else Z.testbit dst k) as H end.
  2: { rewrite H by lia. by rewrite (proj2 (Z.leb_le _ _)) by lia. }
  apply (for_loop_inv (λ i a, ∀ k, 0 ≤ k < 512 → Z.testbit a k =
    if 512 - 8 * i <=? k then Z.testbit src (rev8 k) else Z.testbit dst k)).
  - lia.
  - intros j ?. by rewrite (proj2 (Z.leb_gt _ _)) by lia.
  - intros i a ? IH j ?. rewrite testbit_set_range, IH by lia.
    rewrite (proj2 (Z.ltb_lt j 512)) by lia. simpl.
    destruct (Z.leb_spec (511 - ((i + 1) * 8 - 1)) j), (Z.leb_spec j (511 - i * 8)),
      (Z.leb_spec (512 - 8 * i) j), (Z.leb_spec (512 - 8 * (i + 1)) j);
      simpl; try done; try lia.
    rewrite testbit_get_range by lia. rewrite (proj2 (Z.ltb_lt _ _)) by lia. simpl.
    f_equal. unfold rev8. divlia.
Qed.

Lemma for_loop_fits n f a :
  0 < n → (∀ a i, fits 512 (f a i)) → fits 512 (for_loop n f a).
Proof.
  intros ? Hf. replace n with ((n - 1) + 1) by lia. rewrite for_loop_succ by lia. apply Hf.
Qed.

Lemma bytes_to_wire_fits dst src : fits 512 (bytes_to_wire dst src).
Proof. apply for_loop_fits; [lia|]. intros. by apply set_range_fits. Qed.

Lemma bytes_from_wire_fits dst src : fits 512 (bytes_from_wire dst src).
Proof. apply for_loop_fits; [lia|]. intros. by apply set_range_fits. Qed.

Lemma fits_ext w x y :
  0 ≤ w → fits w x → fits w y → (∀ k, 0 ≤ k < w → Z.testbit x k = Z.testbit y k) → x = y.
Proof.
  intros ? Hx Hy H. apply Z.bits_inj'. intros k ?.
  destruct (decide (k < w)); [by apply H|].
  by rewrite !(fits_testbit_high w) by (done || lia).
Qed.

Lemma bytes_from_to_wire junk dst v :
  fits 512 v → bytes_from_wire junk (bytes_to_wire dst v) = v.
Proof.
  intros. apply (fits_ext 512); [lia|apply bytes_from_wire_fits|done|].
  intros k ?. pose proof (rev8_range k).
  rewrite testbit_bytes_from_wire, testbit_bytes_to_wire, rev8_rev8 by lia. done.
Qed.

Lemma bytes_to_from_wire junk dst v :
  fits 512 v → bytes_to_wire dst (bytes_from_wire junk v) = v.
Proof.
  intros. apply (fits_ext 512); [lia|apply bytes_to_wire_fits|done|].
  intros k ?. pose proof (rev8_range k).
  rewrite testbit_bytes_to_wire, testbit_bytes_from_wire, rev8_rev8 by lia. done.
Qed.

(** ** The bitmap loops *)

Lemma get_put_bitmap base v bm hi lo :
  0 ≤ base → base + 64 ≤ 512 → 0 ≤ lo ≤ hi → hi < 512 →
  hi < base ∨ base + 63 < lo →
  get_range (put_bitmap base v bm) hi lo = get_range v hi lo.
Proof.
  intros. unfold put_bitmap.
  apply (for_loop_inv (λ _ a, get_range a hi lo = get_range v hi lo)); [done|done|].
  intros i a Hi IH. unfold max_node_num in *. by rewrite get_set_other by lia.
Qed.

Lemma arr_nth_fits l i : Forall (fits 8) l → fits 8 (arr_nth l i).
Proof.
  intros Hf. unfold arr_nth, arr_get. destruct (i <? 0); [done|].
  destruct (l !! Z.to_nat i) eqn:E; [|done]. simpl. by eapply Forall_lookup_1.
Qed.

Lemma map_arr_nth l n :
  Z.of_nat (length l) = n → arr_nth l <$> seqZ 0 n = l.
Proof.
  intros <-. apply list_eq. intros i. rewrite list_lookup_fmap.
  destruct (decide (i < length l)%nat).
  - rewrite lookup_seqZ_lt by lia. simpl. rewrite Z.add_0_l.
    unfold arr_nth. rewrite arr_get_lookup.
    destruct (lookup_lt_is_Some_2 l i) as [x ->]; [lia|done].
  - rewrite lookup_seqZ_ge by lia. symmetry. apply lookup_ge_None. lia.
Qed.

Lemma take_put_bitmap base v bm :
  0 ≤ base → base + 64 ≤ 512 → bytes8 bm →
  take_bitmap base (put_bitmap base v bm) = bm.
Proof.
  intros ?? [Hl Hf]. rewrite <-(map_arr_nth bm 8) at 2 by lia.
  apply list_fmap_ext. intros k j [-> Hj]%lookup_seqZ. unfold put_bitmap.
  match goal with |- context [for_loop _ ?f v] =>
    assert (∀ j, 0 ≤ j < 8 →
      get_range (for_loop max_node_num f v) (base - 1 + 8 * (j + 1)) (base + 8 * j)
      = arr_nth bm j) as Hi; [|apply Hi; unfold max_node_num in *; lia] end.
  apply (for_loop_inv (λ i a, ∀ j, 0 ≤ j < i →
    get_range a (base - 1 + 8 * (j + 1)) (base + 8 * j) = arr_nth bm j));
    unfold max_node_num; [lia|lia|].
  intros i a ? IH j ?. destruct (decide (j = i)) as [->|].
  - apply get_set_same; [lia..|]. replace (_ - _ + 1) with 8 by lia.
    by apply arr_nth_fits.
  - rewrite get_set_other by lia. apply IH. lia.
Qed.

Lemma take_set_bitmap base v hi lo x :
  0 ≤ base → base + 64 ≤ 512 → 0 ≤ lo ≤ hi + 1 → hi < base ∨ base + 63 < lo →
  take_bitmap base (set_range 512 v hi lo x) = take_bitmap base v.
Proof.
  intros. apply list_fmap_ext. intros k j [-> Hj]%lookup_seqZ.
  unfold max_node_num in *. by rewrite get_set_other by lia.
Qed.

Lemma take_bitmap_bytes8 base v : bytes8 (take_bitmap base v).
Proof.
  split; [done|]. apply Forall_forall. intros x Hx.
  apply list_elem_of_fmap in Hx as (i & -> & ?). apply get_range_fits; lia.
Qed.

(** Reading any field back from a chain of field assignments. *)
Ltac wire :=
  repeat first
    [ rewrite take_put_bitmap by (done || lia)
    | rewrite take_set_bitmap by lia
    | rewrite get_put_bitmap by lia
    | rewrite get_set_same by slice_side
    | rewrite get_set_other by slice_side ].

(** ** Round trips *)

(** What a receiver holds after decoding [m] into a structure that held [m0]:
    the fields carried by a network beat come from [m], the others from [m0]. *)
Definition net_carried (m m0 : ctrl_msg) : ctrl_msg :=
  m <| general_c2h_owner := general_c2h_owner m0 |>
    <| init_state := init_state m0 |> <| init_mac := init_mac m0 |>
    <| dst_thread_type := dst_thread_type m0 |>
    <| dst_node_id := dst_node_id m0 |> <| lock_position := lock_position m0 |>.

Lemma ctrl_payload_fits junk m tx :
  ctrl_msg_wf m → fits 512 (net_data (ctrl_msg_to_net_tx junk m tx)).
Proof. intros. apply bytes_to_wire_fits. Qed.

Lemma net_ctrl_decode junk junk' m m0 tx :
  ctrl_msg_wf m →
  net_rx_to_ctrl_msg junk' (ctrl_msg_to_net_tx junk m tx) m0 = net_carried m m0.
Proof.
  intros []. unfold ctrl_msg_to_net_tx, net_rx_to_ctrl_msg, net_carried.
  destruct m, m0; cbn in *. rsimpl.
  rewrite bytes_from_to_wire by (by apply set_range_fits). f_equal; by wire.
Qed.

Lemma net_data_decode junk d tx :
  fits 512 (dm_data d) →
  net_rx_to_c2h_data junk (data_msg_to_net_tx d tx)
  = mk_c2h_data (dm_data d) PSEUDO_QID_D (dm_last d).
Proof.
  intros. unfold net_rx_to_c2h_data, data_msg_to_net_tx. cbn.
  by rewrite bytes_from_to_wire.
Qed.

(** a control message survives the network: whatever the uninitialised
    payload bits and the previous contents of the two structures, decoding the
    beat built by [ctrl_msg_to_net_tx] gives back the thirteen carried fields of
    the message, and the beat is marked last exactly when no data follows. *)
Theorem ctrl_msg_net_roundtrip junk junk' m m0 tx :
  ctrl_msg_wf m →
  net_rx_to_ctrl_msg junk' (ctrl_msg_to_net_tx junk m tx) m0 = net_carried m m0 ∧
  (net_last (ctrl_msg_to_net_tx junk m tx) = 1 ↔ data_msg_length m = 0).
Proof.
  intros Hm. split; [by apply net_ctrl_decode|]. cbn.
  destruct (Z.eqb_spec (data_msg_length m) 0); split; intros; done || lia.
Qed.

(** A cache line beat survives the network. *)
Theorem data_msg_net_roundtrip junk h tx :
  fits 512 (h2c_dat h) →
  net_rx_to_c2h_data junk (data_msg_to_net_tx (h2c_data_to_data_msg h) tx)
  = mk_c2h_data (h2c_dat h) PSEUDO_QID_D (h2c_last h).
Proof. intros. by apply net_data_decode. Qed.

(** The destination MAC written at the head of a frame is the one read. *)
Theorem mac_roundtrip junk junk' tx src dst :
  fits 48 src → fits 48 dst →
  get_dst_mac junk' (set_mac junk tx src dst) = dst.
Proof.
  intros. unfold get_dst_mac, set_mac. rsimpl.
  rewrite bytes_from_to_wire by (by apply set_range_fits). by wire.
Qed.

(** What the FPGA holds after decoding a host write of [m]. *)
Definition h2c_carried (m m0 : ctrl_msg) : ctrl_msg :=
  m <| general_c2h_owner := general_c2h_owner m0 |>
    <| data_msg_length := data_msg_length m0 |>
    <| dst_thread_type := dst_thread_type m0 |>
    <| dst_node_id := dst_node_id m0 |> <| lock_position := lock_position m0 |>.

(** A host write carries a control message, a directory initialisation and a
    MAC-table initialisation: each decoder reads back what the encoder wrote. *)
Theorem h2c_roundtrip m m0 w :
  ctrl_msg_wf m →
  h2c_w_to_ctrl_msg (ctrl_msg_to_h2c_w m w) m0 = h2c_carried m m0 ∧
  extract_mtype_from_h2c_w (ctrl_msg_to_h2c_w m w) = mtype m ∧
  h2c_w_to_dir_data (ctrl_msg_to_h2c_w m w)
  = mk_dir_data (dir_gblock_addr m) (dir_gblock_index m) (dir_gblock_bitmap m)
      (init_state m) 0 ∧
  h2c_w_to_net_init_msg (ctrl_msg_to_h2c_w m w)
  = mk_net_init_msg (dir_gblock_nodeID m) (init_mac m).
Proof.
  intros []. unfold h2c_w_to_ctrl_msg, extract_mtype_from_h2c_w, h2c_w_to_dir_data,
    h2c_w_to_net_init_msg, ctrl_msg_to_h2c_w, h2c_carried.
  destruct m, m0; cbn in *. rsimpl. split_and!; [f_equal| |f_equal|f_equal]; by wire.
Qed.

(** ** Directory entries in DRAM *)

Lemma part2_slices p l :
  words8 l →
  let p' := for_loop max_node_num (λ p i,
    set_range 512 p (64 * (i + 1)) (64 * i) (arr_nth l i)) p in
  ∀ j, 0 ≤ j < 8 → get_range p' (64 * j + 63) (64 * j) = arr_nth l j.
Proof.
  intros [Hl Hf]. cbv zeta.
  assert (∀ j, fits 64 (arr_nth l j)) as Hw.
  { intros j. unfold arr_nth, arr_get. destruct (j <? 0); [done|].
    destruct (l !! Z.to_nat j) eqn:E; [|done]. simpl. by eapply Forall_lookup_1. }
  apply (for_loop_inv (λ i a, ∀ j, 0 ≤ j < i →
    get_range a (64 * j + 63) (64 * j) = arr_nth l j)); unfold max_node_num; [lia|lia|].
  intros i a ? IH j ?. specialize (Hw i).
  rewrite set_range_extra_bit by (lia || by replace (64 * (i + 1) - 64 * i) with 64 by lia).
  replace (64 * (i + 1) - 1) with (64 * i + 63) by lia.
  destruct (decide (j = i)) as [->|].
  - apply get_set_same; [lia..|]. by replace (_ - _ + 1) with 64 by lia.
  - rewrite !get_set_other by lia. apply IH. lia.
Qed.

Lemma ddr_part2_decode d w e :
  dir_data_e_wf d → ∀ rlast rresp rid,
  ddr_r_to_dir_data_e_part2
    (mk_ddr_r (ddr_wdata (dir_data_e_to_ddr_w_part2 d w)) rlast rresp rid) e
  = e <| de_agent_cline_addr := de_agent_cline_addr d |>.
Proof.
  intros [? ? ? ? ? Hw] rlast rresp rid. destruct d as [? ? ? ? ? l], e, Hw as [Hl Hf].
  unfold ddr_r_to_dir_data_e_part2, dir_data_e_to_ddr_w_part2. cbn in Hl, Hf. rsimpl.
  f_equal. transitivity (arr_nth l <$> seqZ 0 max_node_num); [|apply map_arr_nth; by rewrite Hl].
  apply list_fmap_ext. intros k j [-> Hj]%lookup_seqZ. unfold max_node_num in Hj.
  rewrite wrap_get_range by lia.
  replace (64 * (0 + Z.of_nat k) + 64 - 1) with (64 * (0 + Z.of_nat k) + 63) by lia.
  apply (part2_slices (ddr_wdata w) l (conj Hl Hf)). lia.
Qed.

Lemma ddr_entry_decode d w1 w2 e rl1 rr1 ri1 rl2 rr2 ri2 :
  dir_data_e_wf d →
  ddr_r_to_dir_data_e_part2
    (mk_ddr_r (ddr_wdata (dir_data_e_to_ddr_w_part2 d w2)) rl2 rr2 ri2)
    (ddr_r_to_dir_data_e_part1
       (mk_ddr_r (ddr_wdata (dir_data_e_to_ddr_w_part1 d w1)) rl1 rr1 ri1) e) = d.
Proof.
  intros Hd. rewrite ddr_part2_decode by done. destruct Hd.
  unfold ddr_r_to_dir_data_e_part1, dir_data_e_to_ddr_w_part1.
  destruct d, e; cbn in *. rsimpl. f_equal; by wire.
Qed.

(** A directory entry survives DRAM: the two write beats of a well-formed
    entry, read back in order, give the entry, whatever the other bits of the
    beats; the 65-bit address slices of the second beat do not corrupt a
    neighbouring address. *)
Theorem dir_entry_ddr_roundtrip d w1 w2 e rl1 rr1 ri1 rl2 rr2 ri2 :
  dir_data_e_wf d →
  ddr_r_to_dir_data_e_part2
    (mk_ddr_r (ddr_wdata (dir_data_e_to_ddr_w_part2 d w2)) rl2 rr2 ri2)
    (ddr_r_to_dir_data_e_part1
       (mk_ddr_r (ddr_wdata (dir_data_e_to_ddr_w_part1 d w1)) rl1 rr1 ri1) e) = d.
Proof. intros. by apply ddr_entry_decode. Qed.

(** ** Witnesses *)
Definition ex_ctrl : ctrl_msg :=
  mk_ctrl_msg R_WRITE_MISS 3 2 0x7f00 9 0xdead 1 0x40 0x1000 5 [0; 1; 0; 1; 0; 0; 0; 0]
    2 1 S_SHARED 0xaabbccddeeff 64 0 3 0.

Lemma ex_ctrl_wf : ctrl_msg_wf ex_ctrl.
Proof. split; try done. split; [done|]. repeat (apply Forall_cons; split; [done|]). done. Qed.

Definition ex_entry_data : dir_data_e :=
  mk_dir_data_e 0x1000 5 [0; 1; 0; 1; 0; 0; 0; 0] S_SHARED 2 [0; 7; 0; 9; 0; 0; 0; 0].

Lemma ex_entry_data_wf : dir_data_e_wf ex_entry_data.
Proof.
  split; try done; (split; [done|]); repeat (apply Forall_cons; split; [done|]); done.
Qed.

Lemma ctrl_msg_net_roundtrip_witness :
  net_rx_to_ctrl_msg 5 (ctrl_msg_to_net_tx 7 ex_ctrl (mk_net_rxtx 0 0 0)) ctrl_msg_zero =
  net_carried ex_ctrl ctrl_msg_zero.
Proof.
  apply (ctrl_msg_net_roundtrip 7 5 ex_ctrl ctrl_msg_zero (mk_net_rxtx 0 0 0)).
  exact ex_ctrl_wf.
Defined.

Lemma data_msg_net_roundtrip_witness :
  net_rx_to_c2h_data 3 (data_msg_to_net_tx (h2c_data_to_data_msg (mk_h2c_data 0xbeef 0 1))
    (mk_net_rxtx 0 0 0)) = mk_c2h_data 0xbeef PSEUDO_QID_D 1.
Proof.
  apply (data_msg_net_roundtrip 3 (mk_h2c_data 0xbeef 0 1) (mk_net_rxtx 0 0 0)). done.
Defined.

Lemma mac_roundtrip_witness :
  get_dst_mac 1 (set_mac 2 (mk_net_rxtx 0 0 0) 0x111111111111 0xaabbccddeeff) =
  0xaabbccddeeff.
Proof. apply mac_roundtrip; done. Defined.

Lemma h2c_roundtrip_witness :
  extract_mtype_from_h2c_w (ctrl_msg_to_h2c_w ex_ctrl (mk_h2c_w 0 0 0)) = R_WRITE_MISS.
Proof.
  destruct (h2c_roundtrip ex_ctrl ctrl_msg_zero (mk_h2c_w 0 0 0) ex_ctrl_wf) as (_ & E & _).
  exact E.
Defined.

Lemma dir_entry_ddr_roundtrip_witness :
  ddr_r_to_dir_data_e_part2
    (mk_ddr_r (ddr_wdata (dir_data_e_to_ddr_w_part2 ex_entry_data (mk_ddr_w 0 0 0))) 1 0 1)
    (ddr_r_to_dir_data_e_part1
       (mk_ddr_r (ddr_wdata (dir_data_e_to_ddr_w_part1 ex_entry_data (mk_ddr_w 0 0 0))) 0 0 1)
       ex_entry_data) = ex_entry_data.
Proof.
  exact (dir_entry_ddr_roundtrip ex_entry_data (mk_ddr_w 0 0 0) (mk_ddr_w 0 0 0)
    ex_entry_data 0 0 1 1 0 1 ex_entry_data_wf).
Defined.
