(* ===== verification/Directory.v ===== *)
(** * Directory: the coherence directory, [dir/dirCtrlHLS_to_net.cpp]

    Each clock cycle the module either records an initialisation, or processes
    one control message against the directory entry read for it, or (while
    [reg_copy_flag] is set) emits the next message of an invalidation fan-out.
    The [switch] over message types is [dir_handle], one function per case; a
    case returns the message and the entry it leaves in [tmp_ctrl_msg] and
    [tmp_dir_data], the messages it pushed towards the network, and the pair it
    stored in [reg_ctrl_msg] and [reg_dir_data] when it set [reg_copy_flag].
    Array accesses indexed by a node number received from the network are
    undefined ([None]) outside [0, max_node_num). *)
From stdpp Require Import base numbers list list_numbers option gmap.
From S2P Require Import Prelude DsmType Wire.

Record dir_result := mk_dir_result {
  r_msg : ctrl_msg;
  r_dir : dir_data_e;
  r_send : list ctrl_msg;
  r_copy : option (ctrl_msg * dir_data_e);
}.

(** [tmp_ctrl_msg.mtype = t; tmp_ctrl_msg.dst_node_id = req; out << tmp_ctrl_msg] *)
Definition reply (t : RawMessageType) (m : ctrl_msg) (d : dir_data_e) : dir_result :=
  let m := m <| mtype := t |> <| dst_node_id := req_cline_nodeID m |> in
  mk_dir_result m d [m] None.

(** The same message sent to the agent of the node that owns the block. *)
Definition forward (t : RawMessageType) (m : ctrl_msg) (d : dir_data_e)
    (tmp_agent_node_id : Z) : option dir_result :=
  let m := m <| mtype := t |> <| agent_cline_nodeID := tmp_agent_node_id |> in
  a ← arr_get (de_agent_cline_addr d) tmp_agent_node_id;
  let m := m <| agent_cline_addr := a |> <| dst_node_id := tmp_agent_node_id |> in
  Some (mk_dir_result m d [m] None).

Definition silent (m : ctrl_msg) (d : dir_data_e) : dir_result :=
  mk_dir_result m d [] None.

Definition handle_R_READ_MISS (m : ctrl_msg) (d : dir_data_e)
    (tmp_agent_node_id tmp_count : Z) : option dir_result :=
  let req := req_cline_nodeID m in
  match state_of (de_state d) with
  | Some S_UNSHARED | Some S_SHARED =>
      b ← arr_get (de_gblock_bitmap d) req;
      if b =? 0 then
        bm ← arr_set (de_gblock_bitmap d) req 1;
        al ← arr_set (de_agent_cline_addr d) req (req_cline_addr m);
        Some (reply DIR_2_APP_READ_MISS_ACKDATA m
          (d <| de_state := S_SHARED |> <| de_replica_count := wrap 8 (tmp_count + 1) |>
             <| de_gblock_bitmap := bm |> <| de_agent_cline_addr := al |>))
      else Some (reply DIR_2_APP_BITMAP_CHECK_FAIL m d)
  | Some S_DIRTY =>
      b ← arr_get (de_gblock_bitmap d) req;
      if b =? 0 then
        al ← arr_set (de_agent_cline_addr d) req (req_cline_addr m);
        forward DIR_2_AGENT_READ_MISS_DIRTY m
          (d <| de_state := S_TO_SHARED |> <| de_agent_cline_addr := al |>)
          tmp_agent_node_id
      else Some (reply DIR_2_APP_BITMAP_CHECK_FAIL m d)
  | _ => Some (reply DIR_2_APP_M_CHECK_FAIL m d)
  end.

Definition handle_R_WRITE_MISS (m : ctrl_msg) (d : dir_data_e)
    (tmp_agent_node_id : Z) : option dir_result :=
  let req := req_cline_nodeID m in
  match state_of (de_state d) with
  | Some S_UNSHARED =>
      b ← arr_get (de_gblock_bitmap d) req;
      if b =? 0 then
        bm ← arr_set (de_gblock_bitmap d) req 1;
        al ← arr_set (de_agent_cline_addr d) req (req_cline_addr m);
        Some (reply DIR_2_APP_WRITE_MISS_ACKDATA m
          (d <| de_state := S_DIRTY |> <| de_replica_count := 1 |>
             <| de_gblock_bitmap := bm |> <| de_agent_cline_addr := al |>))
      else Some (reply DIR_2_APP_BITMAP_CHECK_FAIL m d)
  | Some S_SHARED =>
      b ← arr_get (de_gblock_bitmap d) req;
      if b =? 0 then
        let copy := (m, d) in
        al ← arr_set (de_agent_cline_addr d) req (req_cline_addr m);
        let r := reply DIR_2_APP_WRITE_MISS_SHAREDDATA m
          (d <| de_state := S_TO_DIRTY |> <| de_agent_cline_addr := al |>) in
        Some (mk_dir_result (r_msg r) (r_dir r) (r_send r) (Some copy))
      else Some (reply DIR_2_APP_BITMAP_CHECK_FAIL m d)
  | Some S_DIRTY =>
      b ← arr_get (de_gblock_bitmap d) req;
      if b =? 0 then
        al ← arr_set (de_agent_cline_addr d) req (req_cline_addr m);
        forward DIR_2_AGENT_WRITE_MISS_DIRTY m
          (d <| de_state := S_TO_DIRTY |> <| de_agent_cline_addr := al |>)
          tmp_agent_node_id
      else Some (reply DIR_2_APP_BITMAP_CHECK_FAIL m d)
  | _ => Some (reply DIR_2_APP_M_CHECK_FAIL m d)
  end.

Definition handle_R_WRITE_SHARED (m : ctrl_msg) (d : dir_data_e)
    (tmp_count : Z) : option dir_result :=
  let req := req_cline_nodeID m in
  match state_of (de_state d) with
  | Some S_SHARED =>
      b ← arr_get (de_gblock_bitmap d) req;
      if b =? 0 then Some (reply DIR_2_APP_BITMAP_CHECK_FAIL m d)
      else if 1 <? tmp_count then
        Some (mk_dir_result m (d <| de_state := S_TO_DIRTY |>) [] (Some (m, d)))
      else
        bm ← arr_set (de_gblock_bitmap d) req 1;
        Some (reply DIR_2_APP_WRITE_SHARED_ONLYACK m
          (d <| de_state := S_DIRTY |> <| de_replica_count := 1 |>
             <| de_gblock_bitmap := bm |>))
  | _ => Some (reply DIR_2_APP_M_CHECK_FAIL m d)
  end.

Definition handle_R_EVICT_SHARED (m : ctrl_msg) (d : dir_data_e)
    (tmp_count : Z) : option dir_result :=
  let req := req_cline_nodeID m in
  match state_of (de_state d) with
  | Some S_SHARED =>
      b ← arr_get (de_gblock_bitmap d) req;
      if b =? 0 then Some (reply DIR_2_APP_BITMAP_CHECK_FAIL m d)
      else
        let st := if tmp_count =? 1 then S_UNSHARED else S_SHARED in
        bm ← arr_set (de_gblock_bitmap d) req 0;
        Some (reply DIR_2_APP_EVICT_SHARED_ACK m
          (d <| de_state := st |> <| de_gblock_bitmap := bm |>
             <| de_replica_count := wrap 8 (tmp_count - 1) |>))
  | _ => Some (reply DIR_2_APP_M_CHECK_FAIL m d)
  end.

Definition handle_R_EVICT_DIRTY (m : ctrl_msg) (d : dir_data_e)
    (tmp_count : Z) : option dir_result :=
  let req := req_cline_nodeID m in
  match state_of (de_state d) with
  | Some S_DIRTY =>
      b ← arr_get (de_gblock_bitmap d) req;
      if b =? 0 then Some (reply DIR_2_APP_BITMAP_CHECK_FAIL m d)
      else
        bm ← arr_set (de_gblock_bitmap d) req 0;
        Some (reply DIR_2_APP_EVICT_DIRTY_ACK m
          (d <| de_state := S_UNSHARED |> <| de_gblock_bitmap := bm |>
             <| de_replica_count := wrap 8 (tmp_count - 1) |>))
  | _ => Some (reply DIR_2_APP_M_CHECK_FAIL m d)
  end.

Definition handle_READ_MISS_DIRTY_ACKDATA (m : ctrl_msg) (d : dir_data_e)
    (tmp_count : Z) : option dir_result :=
  match state_of (de_state d) with
  | Some S_TO_SHARED =>
      bm ← arr_set (de_gblock_bitmap d) (req_cline_nodeID m) 1;
      Some (silent m (d <| de_state := S_SHARED |> <| de_gblock_bitmap := bm |>
                        <| de_replica_count := wrap 8 (tmp_count + 1) |>))
  | _ => Some (silent m d)
  end.

Definition handle_WRITE_MISS_DIRTY_ACK (m : ctrl_msg) (d : dir_data_e)
    : option dir_result :=
  match state_of (de_state d) with
  | Some S_TO_DIRTY =>
      bm ← arr_set (de_gblock_bitmap d) (req_cline_nodeID m) 1;
      bm ← arr_set bm (agent_cline_nodeID m) 0;
      Some (silent m (d <| de_state := S_DIRTY |> <| de_gblock_bitmap := bm |>
                        <| de_replica_count := 1 |>))
  | _ => Some (silent m d)
  end.

Definition handle_WRITE_MISS_SHARED_ACK (m : ctrl_msg) (d : dir_data_e)
    (tmp_count : Z) : option dir_result :=
  match state_of (de_state d) with
  | Some S_TO_DIRTY =>
      bm ← arr_set (de_gblock_bitmap d) (req_cline_nodeID m) 1;
      bm ← arr_set bm (agent_cline_nodeID m) 0;
      let d := d <| de_gblock_bitmap := bm |> in
      if tmp_count =? 1 then
        Some (reply DIR_2_APP_WRITE_MISS_SHARED_AGGACK_ACK m (d <| de_state := S_DIRTY |>))
      else Some (silent m (d <| de_replica_count := wrap 8 (tmp_count - 1) |>))
  | _ => Some (silent m d)
  end.

Definition handle_WRITE_SHARED_NOTONLY_ACK (m : ctrl_msg) (d : dir_data_e)
    (tmp_count : Z) : option dir_result :=
  match state_of (de_state d) with
  | Some S_TO_DIRTY =>
      bm ← arr_set (de_gblock_bitmap d) (req_cline_nodeID m) 1;
      bm ← arr_set bm (agent_cline_nodeID m) 0;
      let d := d <| de_gblock_bitmap := bm |> in
      if tmp_count =? 2 then
        Some (reply DIR_2_APP_WRITE_SHARED_NOTONLY_AGGACK_ACK m
                (d <| de_state := S_DIRTY |> <| de_replica_count := 1 |>))
      else Some (silent m (d <| de_replica_count := wrap 8 (tmp_count - 1) |>))
  | _ => Some (silent m d)
  end.

(** [for(i < max_node_num) if(bitmap[i] == 1) id = i] *)
Definition last_sharer (bitmap : list Z) (id : Z) : Z :=
  for_loop max_node_num (λ id i, if arr_nth bitmap i =? 1 then i else id) id.

(** The message after the loop that precedes the [switch]. *)
Definition dir_prepare (m : ctrl_msg) (d : dir_data_e) : ctrl_msg :=
  let m := m <| dir_gblock_addr := de_gblock_addr d |> in
  if (negb (mtype m =? AGENT_2_DIR_WRITE_MISS_SHARED_ACK))
     && (negb (mtype m =? AGENT_2_DIR_WRITE_SHARED_NOTONLY_ACK))
  then m <| dir_gblock_bitmap := arr_nth (de_gblock_bitmap d) <$> seqZ 0 max_node_num |>
  else m.

(** The [switch(tmp_ctrl_msg.mtype)]. *)
Definition dir_handle (m : ctrl_msg) (d : dir_data_e) : option dir_result :=
  let tmp_agent_node_id := last_sharer (de_gblock_bitmap d) 0 in
  let tmp_count := de_replica_count d in
  let m := dir_prepare m d in
  match mtype_of (mtype m) with
  | Some R_READ_MISS => handle_R_READ_MISS m d tmp_agent_node_id tmp_count
  | Some R_WRITE_MISS => handle_R_WRITE_MISS m d tmp_agent_node_id
  | Some R_WRITE_SHARED => handle_R_WRITE_SHARED m d tmp_count
  | Some R_EVICT_SHARED => handle_R_EVICT_SHARED m d tmp_count
  | Some R_EVICT_DIRTY => handle_R_EVICT_DIRTY m d tmp_count
  | Some AGENT_2_DIR_READ_MISS_DIRTY_ACKDATA =>
      handle_READ_MISS_DIRTY_ACKDATA m d tmp_count
  | Some AGENT_2_DIR_WRITE_MISS_DIRTY_ACK => handle_WRITE_MISS_DIRTY_ACK m d
  | Some AGENT_2_DIR_WRITE_MISS_SHARED_ACK => handle_WRITE_MISS_SHARED_ACK m d tmp_count
  | Some AGENT_2_DIR_WRITE_SHARED_NOTONLY_ACK =>
      handle_WRITE_SHARED_NOTONLY_ACK m d tmp_count
  | _ => Some (silent m d)
  end.

(** ** The module: its static registers and its streams *)
Record to_net := mk_to_net {
  reg_copy_flag : Z;
  reg_ctrl_msg : ctrl_msg;
  reg_dir_data : dir_data_e;
  dir_data_init : list dir_data;
  ctrl_msg_f_DC_t_CMC_out : list ctrl_msg;
  dir_data_f_DI_t_DC_in : list dir_data_e;
  ctrl_msg_r_f_DC_t_DC_in : list ctrl_msg;
  dir_data_f_DC_t_DI_out : list dir_data_e;
  ctrl_msg_w_f_DC_t_DC_out : list ctrl_msg;
  debug_ctrl_msg : ctrl_msg;
  debug_dir_data : dir_data_e;
  debug_copy_flag : Z;
}.
#[export] Instance eta_to_net : Eta to_net := fun s =>
  mk_to_net (reg_copy_flag s) (reg_ctrl_msg s) (reg_dir_data s) (dir_data_init s)
    (ctrl_msg_f_DC_t_CMC_out s) (dir_data_f_DI_t_DC_in s) (ctrl_msg_r_f_DC_t_DC_in s)
    (dir_data_f_DC_t_DI_out s) (ctrl_msg_w_f_DC_t_DC_out s) (debug_ctrl_msg s)
    (debug_dir_data s) (debug_copy_flag s).

Section to_net.
(** The contents of the uninitialised locals of one call. *)
Context (junk_msg : ctrl_msg) (junk_dir : dir_data_e).

(** [if(!dir_data_init.empty())] *)
Definition to_net_init (i : dir_data) (rest : list dir_data) (s : to_net) : to_net :=
  let m := new_ctrl_msg junk_msg
             <| mtype := INIT_DIR |> <| dir_gblock_index := dd_gblock_index i |> in
  let d := dir_data_to_dir_data_e i junk_dir in
  s <| dir_data_init := rest |>
    <| dir_data_f_DC_t_DI_out := push (dir_data_f_DC_t_DI_out s) d |>
    <| ctrl_msg_w_f_DC_t_DC_out := push (ctrl_msg_w_f_DC_t_DC_out s) m |>.

(** [wire_copy_flag == 0], both input streams non-empty. *)
Definition to_net_handle (m : ctrl_msg) (ms : list ctrl_msg)
    (d : dir_data_e) (ds : list dir_data_e) (s : to_net) : option to_net :=
  r ← dir_handle m d;
  let s := s <| ctrl_msg_r_f_DC_t_DC_in := ms |> <| dir_data_f_DI_t_DC_in := ds |> in
  let s := match r_copy r with
           | Some (cm, cd) => s <| reg_dir_data := cd |> <| reg_ctrl_msg := cm |>
                                <| reg_copy_flag := 1 |>
           | None => s
           end in
  Some (s <| ctrl_msg_f_DC_t_CMC_out := ctrl_msg_f_DC_t_CMC_out s ++ r_send r |>
          <| dir_data_f_DC_t_DI_out := push (dir_data_f_DC_t_DI_out s) (r_dir r) |>
          <| ctrl_msg_w_f_DC_t_DC_out := push (ctrl_msg_w_f_DC_t_DC_out s) (r_msg r) |>).

(** Emits [tmp_ctrl_msg] to sharer [n] and clears its bit of [reg_dir_data]. *)
Definition copy_emit (m : ctrl_msg) (n : Z) (s : to_net) : option to_net :=
  let m := m <| agent_cline_nodeID := n |> <| dst_node_id := n |> in
  a ← arr_get (de_agent_cline_addr (reg_dir_data s)) n;
  let m := m <| agent_cline_addr := a |> in
  bm ← arr_set (de_gblock_bitmap (reg_dir_data s)) n 0;
  Some (s <| ctrl_msg_f_DC_t_CMC_out := push (ctrl_msg_f_DC_t_CMC_out s) m |>
          <| reg_dir_data := (reg_dir_data s) <| de_gblock_bitmap := bm |> |>).

(** [wire_copy_flag != 0]: one cycle of the fan-out. *)
Definition to_net_copy (s : to_net) : option to_net :=
  let m := reg_ctrl_msg s in
  let d := reg_dir_data s in
  match mtype_of (mtype m), state_of (de_state d) with
  | Some R_WRITE_MISS, Some S_SHARED =>
      let m := m <| mtype := DIR_2_AGENT_WRITE_MISS_SHARED |> in
      let tmp_nodeID := last_sharer (de_gblock_bitmap d) 0xff in
      if tmp_nodeID =? 0xff then Some (s <| reg_copy_flag := 0 |>)
      else copy_emit m tmp_nodeID s
  | Some R_WRITE_SHARED, Some S_SHARED =>
      let m := m <| mtype := DIR_2_AGENT_WRITE_SHARED_NOTONLY |> in
      let tmp_nodeID := last_sharer (de_gblock_bitmap d) 0xff in
      if tmp_nodeID =? 0xff then Some (s <| reg_copy_flag := 0 |>)
      else if tmp_nodeID =? req_cline_nodeID m then
        bm ← arr_set (de_gblock_bitmap (reg_dir_data s)) tmp_nodeID 0;
        Some (s <| reg_dir_data := (reg_dir_data s) <| de_gblock_bitmap := bm |> |>)
      else copy_emit m tmp_nodeID s
  | _, _ => Some s
  end.

(** The debug ports show the registers. *)
Definition latch_debug (s : to_net) : to_net :=
  s <| debug_ctrl_msg := reg_ctrl_msg s |> <| debug_dir_data := reg_dir_data s |>
    <| debug_copy_flag := reg_copy_flag s |>.

(** One call of [dirCtrlHLS_to_net]. *)
Definition dirCtrlHLS_to_net (s : to_net) : option to_net :=
  let s := latch_debug s in
  match dir_data_init s with
  | i :: rest => Some (to_net_init i rest s)
  | [] =>
      if reg_copy_flag s =? 0 then
        match ctrl_msg_r_f_DC_t_DC_in s, dir_data_f_DI_t_DC_in s with
        | m :: ms, d :: ds => to_net_handle m ms d ds s
        | _, _ => Some s
        end
      else to_net_copy s
  end.
End to_net.

(** The messages the fan-out of [(m, d)] sends, in order (specification). *)
Definition fanout_type (m : ctrl_msg) : RawMessageType :=
  if mtype m =? R_WRITE_MISS then DIR_2_AGENT_WRITE_MISS_SHARED
  else DIR_2_AGENT_WRITE_SHARED_NOTONLY.

Definition fanout_targets (m : ctrl_msg) (d : dir_data_e) : list Z :=
  filter (λ n, arr_nth (de_gblock_bitmap d) n = 1
               ∧ (mtype m = R_WRITE_MISS ∨ n ≠ req_cline_nodeID m))
         (rev (seqZ 0 max_node_num)).

Definition fanout_msg (m : ctrl_msg) (d : dir_data_e) (n : Z) : ctrl_msg :=
  m <| mtype := fanout_type m |> <| agent_cline_nodeID := n |> <| dst_node_id := n |>
    <| agent_cline_addr := arr_nth (de_agent_cline_addr d) n |>.

Definition fanout (m : ctrl_msg) (d : dir_data_e) : list ctrl_msg :=
  fanout_msg m d <$> fanout_targets m d.

(** ** Abstract directory: a state, a set of sharers and a count *)
Record aentry := mk_aentry {
  a_state : RawState;
  a_sharers : gset Z;
  a_count : Z;
}.

Inductive answer :=
| ToApp (t : RawMessageType)            (* to the node that made the request *)
| ToOwner (t : RawMessageType) (o : Z)  (* to the agent of the owner [o] *)
| NoAnswer.

(** [dir_spec t req agent owner e]: the transition of a message of type [t]; the
    boolean says that every other sharer is to be invalidated. *)
Definition dir_spec (t : RawMessageType) (req agent owner : Z) (e : aentry)
    : aentry * answer * bool :=
  let mem := bool_decide (req ∈ a_sharers e) in
  let s := a_sharers e in
  let n := a_count e in
  let bitmap_fail := (e, ToApp DIR_2_APP_BITMAP_CHECK_FAIL, false) in
  let state_fail := (e, ToApp DIR_2_APP_M_CHECK_FAIL, false) in
  match t, a_state e with
  | R_READ_MISS, (S_UNSHARED | S_SHARED) =>
      if mem then bitmap_fail
      else (mk_aentry S_SHARED ({[req]} ∪ s) (wrap 8 (n + 1)),
            ToApp DIR_2_APP_READ_MISS_ACKDATA, false)
  | R_READ_MISS, S_DIRTY =>
      if mem then bitmap_fail
      else (mk_aentry S_TO_SHARED s n, ToOwner DIR_2_AGENT_READ_MISS_DIRTY owner, false)
  | R_WRITE_MISS, S_UNSHARED =>
      if mem then bitmap_fail
      else (mk_aentry S_DIRTY ({[req]} ∪ s) 1, ToApp DIR_2_APP_WRITE_MISS_ACKDATA, false)
  | R_WRITE_MISS, S_SHARED =>
      if mem then bitmap_fail
      else (mk_aentry S_TO_DIRTY s n, ToApp DIR_2_APP_WRITE_MISS_SHAREDDATA, true)
  | R_WRITE_MISS, S_DIRTY =>
      if mem then bitmap_fail
      else (mk_aentry S_TO_DIRTY s n, ToOwner DIR_2_AGENT_WRITE_MISS_DIRTY owner, false)
  | R_WRITE_SHARED, S_SHARED =>
      if negb mem then bitmap_fail
      else if 1 <? n then (mk_aentry S_TO_DIRTY s n, NoAnswer, true)
      else (mk_aentry S_DIRTY ({[req]} ∪ s) 1, ToApp DIR_2_APP_WRITE_SHARED_ONLYACK, false)
  | R_EVICT_SHARED, S_SHARED =>
      if negb mem then bitmap_fail
      else (mk_aentry (if n =? 1 then S_UNSHARED else S_SHARED) (s ∖ {[req]})
              (wrap 8 (n - 1)), ToApp DIR_2_APP_EVICT_SHARED_ACK, false)
  | R_EVICT_DIRTY, S_DIRTY =>
      if negb mem then bitmap_fail
      else (mk_aentry S_UNSHARED (s ∖ {[req]}) (wrap 8 (n - 1)),
            ToApp DIR_2_APP_EVICT_DIRTY_ACK, false)
  | (R_READ_MISS | R_WRITE_MISS | R_WRITE_SHARED | R_EVICT_SHARED | R_EVICT_DIRTY), _ =>
      state_fail
  | AGENT_2_DIR_READ_MISS_DIRTY_ACKDATA, S_TO_SHARED =>
      (mk_aentry S_SHARED ({[req]} ∪ s) (wrap 8 (n + 1)), NoAnswer, false)
  | AGENT_2_DIR_WRITE_MISS_DIRTY_ACK, S_TO_DIRTY =>
      (mk_aentry S_DIRTY (({[req]} ∪ s) ∖ {[agent]}) 1, NoAnswer, false)
  | AGENT_2_DIR_WRITE_MISS_SHARED_ACK, S_TO_DIRTY =>
      let s := ({[req]} ∪ s) ∖ {[agent]} in
      if n =? 1 then (mk_aentry S_DIRTY s n,
                      ToApp DIR_2_APP_WRITE_MISS_SHARED_AGGACK_ACK, false)
      else (mk_aentry S_TO_DIRTY s (wrap 8 (n - 1)), NoAnswer, false)
  | AGENT_2_DIR_WRITE_SHARED_NOTONLY_ACK, S_TO_DIRTY =>
      let s := ({[req]} ∪ s) ∖ {[agent]} in
      if n =? 2 then (mk_aentry S_DIRTY s 1,
                      ToApp DIR_2_APP_WRITE_SHARED_NOTONLY_AGGACK_ACK, false)
      else (mk_aentry S_TO_DIRTY s (wrap 8 (n - 1)), NoAnswer, false)
  | _, _ => (e, NoAnswer, false)
  end.

(** The message types whose handlers use the agent's node number. *)
Definition invalidation_ack (t : RawMessageType) : bool :=
  match t with
  | AGENT_2_DIR_WRITE_MISS_DIRTY_ACK | AGENT_2_DIR_WRITE_MISS_SHARED_ACK
  | AGENT_2_DIR_WRITE_SHARED_NOTONLY_ACK => true
  | _ => false
  end.

(** The set of nodes whose byte of the bitmap is 1. *)
Definition sharers (bm : list Z) : gset Z :=
  list_to_set (filter (λ i, arr_nth bm i = 1) (seqZ 0 max_node_num)).

Definition bitmap01 (bm : list Z) : Prop :=
  length bm = 8%nat ∧ Forall (λ b, b = 0 ∨ b = 1) bm.

Record entry_rel (d : dir_data_e) (e : aentry) : Prop := {
  rel_state : de_state d = a_state e;
  rel_bitmap : bitmap01 (de_gblock_bitmap d);
  rel_sharers : sharers (de_gblock_bitmap d) = a_sharers e;
  rel_count : de_replica_count d = a_count e;
  rel_addrs : length (de_agent_cline_addr d) = 8%nat;
}.

(** The messages that carry an answer to [m]. *)
Definition answer_msgs (m : ctrl_msg) (d : dir_data_e) (a : answer) : list ctrl_msg :=
  let m := dir_prepare m d in
  match a with
  | ToApp t => [m <| mtype := t |> <| dst_node_id := req_cline_nodeID m |>]
  | ToOwner t o =>
      [m <| mtype := t |> <| agent_cline_nodeID := o |>
         <| agent_cline_addr := arr_nth (de_agent_cline_addr d) o |>
         <| dst_node_id := o |>]
  | NoAnswer => []
  end.

(** ** Lemmas on bitmaps *)
Lemma elem_of_sharers bm i : i ∈ sharers bm ↔ (0 ≤ i < 8 ∧ arr_nth bm i = 1).
Proof.
  unfold sharers. rewrite elem_of_list_to_set, list_elem_of_filter, elem_of_seqZ.
  unfold max_node_num. naive_solver lia.
Qed.

Lemma arr_nth_get l i x : arr_get l i = Some x → arr_nth l i = x.
Proof. unfold arr_nth. by intros ->. Qed.

Lemma bitmap01_get bm i :
  bitmap01 bm → 0 ≤ i < 8 → arr_get bm i = Some (if bool_decide (i ∈ sharers bm) then 1 else 0).
Proof.
  intros [Hl Hf] Hi. destruct (arr_get_Some bm i) as [x Hx]; [by rewrite Hl|].
  rewrite Hx. f_equal.
  assert (x = 0 ∨ x = 1) as Hx01.
  { unfold arr_get in Hx. destruct (i <? 0); [done|]. by eapply Forall_lookup_1 in Hf. }
  apply arr_nth_get in Hx. case_bool_decide as Hs; rewrite elem_of_sharers in Hs;
    naive_solver.
Qed.

Lemma arr_nth_set l l' i j x :
  arr_set l i x = Some l' → arr_nth l' j = if j =? i then x else arr_nth l j.
Proof.
  intros H. unfold arr_nth. rewrite (arr_get_set _ _ _ j _ H). by destruct (j =? i).
Qed.

Lemma bitmap01_set bm i b :
  bitmap01 bm → 0 ≤ i < 8 → b = 0 ∨ b = 1 →
  ∃ bm', arr_set bm i b = Some bm' ∧ bitmap01 bm' ∧
    sharers bm' = if b =? 1 then {[i]} ∪ sharers bm else sharers bm ∖ {[i]}.
Proof.
  intros [Hl Hf] Hi Hb. exists (<[Z.to_nat i := b]> bm).
  assert (arr_set bm i b = Some (<[Z.to_nat i := b]> bm)) as Hs by (apply arr_set_Some; lia).
  split_and!; [done|split|].
  - by rewrite length_insert.
  - by apply Forall_insert.
  - apply leibniz_equiv. intros j. rewrite elem_of_sharers, (arr_nth_set _ _ _ j _ Hs).
    destruct Hb as [-> | ->]; simpl;
      rewrite ?elem_of_union, ?elem_of_difference, elem_of_singleton, elem_of_sharers;
      destruct (Z.eqb_spec j i); naive_solver lia.
Qed.

Lemma last_sharer_spec bm z :
  (sharers bm = ∅ ∧ last_sharer bm z = z) ∨
  (last_sharer bm z ∈ sharers bm ∧ ∀ j, j ∈ sharers bm → j ≤ last_sharer bm z).
Proof.
  assert ((∀ j, 0 ≤ j < 8 → arr_nth bm j ≠ 1) ∧ last_sharer bm z = z ∨
    (0 ≤ last_sharer bm z < 8 ∧ arr_nth bm (last_sharer bm z) = 1 ∧
     ∀ j, 0 ≤ j < 8 → arr_nth bm j = 1 → j ≤ last_sharer bm z)) as H.
  { unfold last_sharer. apply (for_loop_inv (λ n a,
      (∀ j, 0 ≤ j < n → arr_nth bm j ≠ 1) ∧ a = z ∨
      (0 ≤ a < n ∧ arr_nth bm a = 1 ∧ ∀ j, 0 ≤ j < n → arr_nth bm j = 1 → j ≤ a)));
      unfold max_node_num; [lia|left; split; [lia|done]|].
    intros i a ? IH. destruct (Z.eqb_spec (arr_nth bm i) 1) as [E|E].
    - right. split_and!; [lia..|done|lia].
    - destruct IH as [[Hn ->]|(? & ? & Hm)].
      + left. split; [|done]. intros j ?. destruct (decide (j = i)) as [->|]; [done|].
        apply Hn. lia.
      + right. split_and!; [lia..|done|]. intros j ??.
        destruct (decide (j = i)) as [->|]; [done|]. apply Hm; [lia|done]. }
  destruct H as [[Hn ?]|(? & ? & Hm)]; [left|right].
  - split; [|done]. apply leibniz_equiv. intros j. rewrite elem_of_sharers. set_solver.
  - rewrite elem_of_sharers. split; [done|]. intros j [??]%elem_of_sharers. by apply Hm.
Qed.

Lemma last_sharer_singleton bm z o : sharers bm = {[o]} → last_sharer bm z = o.
Proof. intros H. destruct (last_sharer_spec bm z) as [[??]|[??]]; set_solver. Qed.

Lemma sharers_range bm i : i ∈ sharers bm → 0 ≤ i < 8.
Proof. rewrite elem_of_sharers. tauto. Qed.

Lemma size_sharers bm : (size (sharers bm) ≤ 8)%nat.
Proof.
  transitivity (size (list_to_set (seqZ 0 8) : gset Z)).
  - apply subseteq_size. intros i ?%sharers_range.
    apply elem_of_list_to_set, elem_of_seqZ. lia.
  - by vm_compute.
Qed.

Lemma dir_prepare_fields m d :
  mtype (dir_prepare m d) = mtype m ∧
  req_cline_nodeID (dir_prepare m d) = req_cline_nodeID m ∧
  req_cline_addr (dir_prepare m d) = req_cline_addr m ∧
  agent_cline_nodeID (dir_prepare m d) = agent_cline_nodeID m.
Proof. unfold dir_prepare. destruct (_ && _); by destruct m. Qed.

(** ** The handler implements the abstract directory *)
Section refine.
Context (m : ctrl_msg) (d : dir_data_e) (e : aentry) (t : RawMessageType).
Context (Hrel : entry_rel d e) (Ht : mtype m = t).
Context (Hreq : 0 ≤ req_cline_nodeID m < 8).
Context (Hag : invalidation_ack t = true → 0 ≤ agent_cline_nodeID m < 8).
Context (Hown : a_state e = S_DIRTY → a_sharers e ≠ ∅).

Definition refines (r : dir_result) (o : aentry * answer * bool) : Prop :=
  let '(e', a, inval) := o in
  entry_rel (r_dir r) e' ∧ r_send r = answer_msgs m d a ∧
  r_copy r = (if inval then Some (dir_prepare m d, d) else None).

Lemma dir_handle_spec :
  ∃ r, dir_handle m d = Some r ∧
    refines r (dir_spec t (req_cline_nodeID m) (agent_cline_nodeID m)
                 (last_sharer (de_gblock_bitmap d) 0) e).
Proof using All.
  destruct (dir_prepare_fields m d) as (Em & Er & Ea & Eg).
  destruct Hrel as [Hs Hb Hsh Hn Hal].
  remember (last_sharer (de_gblock_bitmap d) 0) as o eqn:Hoe.
  assert (0 ≤ o < 8) as Ho.
  { destruct (last_sharer_spec (de_gblock_bitmap d) 0) as [[_ E]|[E%sharers_range _]];
      subst o; lia. }
  assert (a_state e = S_DIRTY → o ∈ a_sharers e) as Hod.
  { intros HD. rewrite <-Hsh. specialize (Hown HD). rewrite <-Hsh in Hown.
    destruct (last_sharer_spec (de_gblock_bitmap d) 0) as [[? _]|[? _]]; by subst o. }
  destruct (bitmap01_set _ _ 1 Hb Hreq) as (bm1 & E1 & B1 & S1); [by right|].
  destruct (bitmap01_set _ _ 0 Hb Hreq) as (bm0 & E0 & B0 & S0); [by left|].
  simpl in S1, S0. rewrite Hsh in S1, S0.
  assert (invalidation_ack t = true → ∃ bm2, arr_set bm1 (agent_cline_nodeID m) 0 = Some bm2 ∧
    bitmap01 bm2 ∧ sharers bm2 =
      ({[req_cline_nodeID m]} ∪ a_sharers e) ∖ {[agent_cline_nodeID m]}) as H2.
  { intros Hk. rewrite <-S1. apply (bitmap01_set _ _ 0 B1 (Hag Hk)). by left. }
  pose proof (bitmap01_get _ _ Hb Hreq) as Eb. rewrite Hsh in Eb.
  pose proof (arr_set_Some (de_agent_cline_addr d) (req_cline_nodeID m)
    (req_cline_addr m) ltac:(lia)) as El.
  set (al := <[_ := _]> (de_agent_cline_addr d)) in El.
  assert (length al = 8%nat) as Hl by (unfold al; by rewrite length_insert).
  assert (o ≠ req_cline_nodeID m → arr_get al o = Some (arr_nth (de_agent_cline_addr d) o)) as Eo.
  { intros Hne. rewrite (arr_get_set _ _ _ o _ El).
    rewrite (proj2 (Z.eqb_neq _ _)) by done.
    destruct (arr_get_Some (de_agent_cline_addr d) o) as [x Hx]; [lia|].
    by rewrite Hx, (arr_nth_get _ _ _ Hx). }
  unfold dir_handle. rewrite Em, Ht, mtype_of_val, <-Hoe. clear Hoe.
  destruct t; cbn [dir_spec refines];
    try (destruct (H2 eq_refl) as (bm2 & E2 & B2 & S2));
    unfold handle_R_READ_MISS, handle_R_WRITE_MISS, handle_R_WRITE_SHARED,
      handle_R_EVICT_SHARED, handle_R_EVICT_DIRTY, handle_READ_MISS_DIRTY_ACKDATA,
      handle_WRITE_MISS_DIRTY_ACK, handle_WRITE_MISS_SHARED_ACK,
      handle_WRITE_SHARED_NOTONLY_ACK;
    rewrite ?Hs, ?state_of_val, ?Er, ?Ea, ?Eg, ?Hn, ?Eb, ?E1, ?E0, ?El;
    destruct (a_state e) eqn:He; cbn [mbind option_bind];
    rewrite ?E2; cbn [mbind option_bind]; try case_bool_decide; cbn [negb Z.eqb];
    repeat case_match; zbool; cbn [mbind option_bind];
    unfold forward; cbn [de_agent_cline_addr set_field];
    rewrite ?Eo by (intros ->; auto); cbn [mbind option_bind];
    (eexists; split; [reflexivity|]);
    (split_and!; [|by rewrite ?Er|done]);
    (split; cbn; rewrite ?He, ?S1, ?S0, ?S2; (done || congruence || set_solver)).
Qed.
End refine.

(** ** The fan-out *)
Lemma seqZ_split_rev n :
  0 ≤ n < 8 → rev (seqZ 0 max_node_num) = rev (seqZ (n + 1) (7 - n)) ++ [n] ++ rev (seqZ 0 n).
Proof.
  intros. unfold max_node_num. replace 8 with (n + (1 + (7 - n))) by lia.
  rewrite !seqZ_app by lia. rewrite !rev_app_distr. rewrite Z.add_0_l.
  rewrite (seqZ_cons n 1) by lia. rewrite <-app_assoc. do 3 f_equal.
Qed.

Lemma filter_none {A} (P : A → Prop) `{!∀ x, Decision (P x)} (l : list A) :
  (∀ x, x ∈ l → ¬ P x) → filter P l = [].
Proof.
  induction l as [|x l IH]; intros Hn; [done|].
  rewrite filter_cons_False by (apply Hn; left). apply IH. intros y ?. apply Hn. by right.
Qed.

Lemma filter_ext_in {A} (P Q : A → Prop) `{!∀ x, Decision (P x)} `{!∀ x, Decision (Q x)}
    (l : list A) : (∀ x, x ∈ l → P x ↔ Q x) → filter P l = filter Q l.
Proof.
  induction l as [|x l IH]; intros Hiff; [done|].
  rewrite !filter_cons, IH by (intros; apply Hiff; by right).
  specialize (Hiff x ltac:(by left)). repeat case_decide; tauto.
Qed.

Lemma fanout_targets_step m d n bm :
  last_sharer (de_gblock_bitmap d) 0xff = n → n ∈ sharers (de_gblock_bitmap d) →
  arr_set (de_gblock_bitmap d) n 0 = Some bm →
  fanout_targets m d =
    (if bool_decide (mtype m = R_WRITE_MISS ∨ n ≠ req_cline_nodeID m) then [n] else [])
    ++ fanout_targets m (d <| de_gblock_bitmap := bm |>).
Proof.
  intros Hl Hn Hs. pose proof (sharers_range _ _ Hn).
  destruct (last_sharer_spec (de_gblock_bitmap d) 0xff) as [[He _]|[_ Hmax]]; [set_solver|].
  rewrite Hl in Hmax. unfold fanout_targets. rewrite (seqZ_split_rev n) by lia.
  rewrite !filter_app. cbn [de_gblock_bitmap set_field].
  rewrite !(filter_none _ (rev (seqZ (n + 1) _))).
  2,3: intros j Hj%list_elem_of_In%in_rev%list_elem_of_In%elem_of_seqZ [E _];
       rewrite ?(arr_nth_set _ _ _ j _ Hs) in E; destruct (Z.eqb_spec j n); try lia;
       pose proof (Hmax j ltac:(apply elem_of_sharers; split; [lia|done])); lia.
  rewrite !app_nil_l. f_equal.
  - rewrite filter_cons. apply elem_of_sharers in Hn as [_ Hn].
    case_decide; case_bool_decide; done || tauto.
  - rewrite filter_cons_False by (rewrite (arr_nth_set _ _ _ _ _ Hs), Z.eqb_refl; lia).
    apply filter_ext_in. intros j Hj%list_elem_of_In%in_rev%list_elem_of_In%elem_of_seqZ.
    rewrite (arr_nth_set _ _ _ j _ Hs). by rewrite (proj2 (Z.eqb_neq j n)) by lia.
Qed.

(** The module is fanning out [m] against the sharers left in [d]. *)
Record fanning (m : ctrl_msg) (d : dir_data_e) (s : to_net) : Prop := {
  fan_flag : reg_copy_flag s ≠ 0;
  fan_msg : reg_ctrl_msg s = m;
  fan_dir : reg_dir_data s = d;
  fan_init : dir_data_init s = [];
  fan_type : mtype m = R_WRITE_MISS ∨ mtype m = R_WRITE_SHARED;
  fan_state : de_state d = S_SHARED;
  fan_bitmap : bitmap01 (de_gblock_bitmap d);
  fan_addrs : length (de_agent_cline_addr d) = 8%nat;
}.

(** Every stream except the one towards the network is untouched. *)
Definition same_streams (s s' : to_net) : Prop :=
  dir_data_init s' = dir_data_init s ∧
  dir_data_f_DI_t_DC_in s' = dir_data_f_DI_t_DC_in s ∧
  ctrl_msg_r_f_DC_t_DC_in s' = ctrl_msg_r_f_DC_t_DC_in s ∧
  dir_data_f_DC_t_DI_out s' = dir_data_f_DC_t_DI_out s ∧
  ctrl_msg_w_f_DC_t_DC_out s' = ctrl_msg_w_f_DC_t_DC_out s.

Section fanout.
Context (jm : ctrl_msg) (jd : dir_data_e).
Notation step := (dirCtrlHLS_to_net jm jd).

Lemma step_copying s :
  dir_data_init s = [] → reg_copy_flag s ≠ 0 → step s = to_net_copy (latch_debug s).
Proof.
  intros Hi Hf. unfold dirCtrlHLS_to_net.
  change (dir_data_init (latch_debug s)) with (dir_data_init s).
  change (reg_copy_flag (latch_debug s)) with (reg_copy_flag s).
  by rewrite Hi, (proj2 (Z.eqb_neq (reg_copy_flag s) 0)).
Qed.

Lemma step_handling s m ms d ds :
  dir_data_init s = [] → reg_copy_flag s = 0 →
  ctrl_msg_r_f_DC_t_DC_in s = m :: ms → dir_data_f_DI_t_DC_in s = d :: ds →
  step s = to_net_handle m ms d ds (latch_debug s).
Proof.
  intros Hi Hf Hm Hd. unfold dirCtrlHLS_to_net.
  change (dir_data_init (latch_debug s)) with (dir_data_init s).
  change (reg_copy_flag (latch_debug s)) with (reg_copy_flag s).
  change (ctrl_msg_r_f_DC_t_DC_in (latch_debug s)) with (ctrl_msg_r_f_DC_t_DC_in s).
  change (dir_data_f_DI_t_DC_in (latch_debug s)) with (dir_data_f_DI_t_DC_in s).
  by rewrite Hi, Hf, Hm, Hd.
Qed.

Ltac solve_fanning :=
  split; cbn [reg_dir_data reg_copy_flag reg_ctrl_msg dir_data_init set_field de_state
    de_gblock_bitmap de_agent_cline_addr];
  try assumption; first [by left | by right | congruence].

Lemma fanning_step m d s :
  fanning m d s → sharers (de_gblock_bitmap d) ≠ ∅ →
  let n := last_sharer (de_gblock_bitmap d) 0xff in
  ∃ bm s', arr_set (de_gblock_bitmap d) n 0 = Some bm ∧
    sharers bm = sharers (de_gblock_bitmap d) ∖ {[n]} ∧
    step s = Some s' ∧ fanning m (d <| de_gblock_bitmap := bm |>) s' ∧ same_streams s s' ∧
    ctrl_msg_f_DC_t_CMC_out s' = ctrl_msg_f_DC_t_CMC_out s ++
      (if bool_decide (mtype m = R_WRITE_MISS ∨ n ≠ req_cline_nodeID m)
       then [fanout_msg m d n] else []).
Proof.
  intros [Hf Hm Hd Hi Ht Hst Hb Ha] Hne n.
  destruct (last_sharer_spec (de_gblock_bitmap d) 0xff) as [[? _]|[Hn _]]; [done|].
  fold n in Hn. pose proof (sharers_range _ _ Hn) as Hr.
  destruct (bitmap01_set _ _ 0 Hb Hr) as (bm & Es & Bs & Ss); [by left|].
  destruct (arr_get_Some (de_agent_cline_addr d) n) as [a Ea]; [lia|].
  assert (n =? 255 = false) as En by lia.
  rewrite step_copying by done. unfold to_net_copy.
  change (reg_ctrl_msg (latch_debug s)) with (reg_ctrl_msg s).
  change (reg_dir_data (latch_debug s)) with (reg_dir_data s).
  rewrite Hm, Hd, Hst, state_of_val.
  destruct Ht as [Ht|Ht]; rewrite Ht, mtype_of_val; fold n; rewrite En.
  - unfold copy_emit. change (reg_dir_data (latch_debug s)) with (reg_dir_data s).
    rewrite Hd, Ea. cbn [mbind option_bind]. rewrite Es. cbn [mbind option_bind].
    eexists bm, _. split_and!; [done|done|reflexivity| |done|].
    + solve_fanning.
    + cbn. unfold push, fanout_msg, fanout_type. rewrite Ht, (arr_nth_get _ _ _ Ea).
      by rewrite bool_decide_eq_true_2 by (by left).
  - change (req_cline_nodeID (m <| mtype := DIR_2_AGENT_WRITE_SHARED_NOTONLY |>))
      with (req_cline_nodeID m).
    destruct (Z.eqb_spec n (req_cline_nodeID m)) as [E|E].
    + rewrite Es. cbn [mbind option_bind].
      eexists bm, _. split_and!; [done|done|reflexivity| |done|].
      * solve_fanning.
      * cbn. rewrite bool_decide_eq_false_2 by (rewrite E; intros [?|?]; done).
        by rewrite app_nil_r.
    + unfold copy_emit. change (reg_dir_data (latch_debug s)) with (reg_dir_data s).
      rewrite Hd, Ea. cbn [mbind option_bind]. rewrite Es. cbn [mbind option_bind].
      eexists bm, _. split_and!; [done|done|reflexivity| |done|].
      * solve_fanning.
      * cbn. unfold push, fanout_msg, fanout_type. rewrite Ht, (arr_nth_get _ _ _ Ea).
        by rewrite bool_decide_eq_true_2 by (by right).
Qed.

Lemma fanning_done m d s :
  fanning m d s → sharers (de_gblock_bitmap d) = ∅ →
  ∃ s', step s = Some s' ∧ reg_copy_flag s' = 0 ∧ same_streams s s' ∧
    ctrl_msg_f_DC_t_CMC_out s' = ctrl_msg_f_DC_t_CMC_out s.
Proof.
  intros [Hf Hm Hd Hi Ht Hst Hb Ha] He.
  assert (last_sharer (de_gblock_bitmap d) 0xff = 0xff) as El.
  { destruct (last_sharer_spec (de_gblock_bitmap d) 0xff) as [[_ ?]|[? _]]; set_solver. }
  rewrite step_copying by done. unfold to_net_copy.
  change (reg_ctrl_msg (latch_debug s)) with (reg_ctrl_msg s).
  change (reg_dir_data (latch_debug s)) with (reg_dir_data s).
  rewrite Hm, Hd, Hst, state_of_val.
  destruct Ht as [Ht|Ht]; rewrite Ht, mtype_of_val, El; cbn; by eexists.
Qed.

Lemma fanning_run m d s :
  fanning m d s →
  ∃ s', iter_step (size (sharers (de_gblock_bitmap d)) + 1) step s = Some s' ∧
    reg_copy_flag s' = 0 ∧ same_streams s s' ∧
    ctrl_msg_f_DC_t_CMC_out s' = ctrl_msg_f_DC_t_CMC_out s ++ fanout m d.
Proof.
  remember (size (sharers (de_gblock_bitmap d))) as k eqn:Hk.
  revert d s Hk. induction k as [|k IH]; intros d s Hk Hfan.
  - assert (sharers (de_gblock_bitmap d) = ∅) as He.
    { apply leibniz_equiv, size_empty_inv. done. }
    destruct (fanning_done m d s Hfan He) as (s' & E1 & E2 & E3 & E4).
    exists s'. cbn. rewrite E1. cbn. split_and!; try done. rewrite E4.
    unfold fanout, fanout_targets. rewrite filter_none; [by rewrite app_nil_r|].
    intros n Hn [? _]. apply list_elem_of_In, in_rev, list_elem_of_In, elem_of_seqZ in Hn.
    unfold max_node_num in Hn.
    assert (n ∈ sharers (de_gblock_bitmap d)) by (apply elem_of_sharers; split; [lia|done]).
    set_solver.
  - assert (sharers (de_gblock_bitmap d) ≠ ∅) as Hne.
    { intros He. rewrite He, size_empty in Hk. done. }
    destruct (last_sharer_spec (de_gblock_bitmap d) 0xff) as [[? _]|[Hn _]]; [done|].
    destruct (fanning_step m d s Hfan Hne) as (bm & s1 & Es & Sh & E1 & F1 & SS & O1).
    destruct (IH (d <| de_gblock_bitmap := bm |>) s1) as (s2 & E2 & Fl & SS2 & O2).
    { cbn. rewrite Sh, size_difference by set_solver. rewrite size_singleton. lia. }
    { done. }
    exists s2. cbn [Nat.add iter_step]. rewrite E1. cbn [mbind option_bind].
    split_and!; try done.
    + unfold same_streams in *. intuition congruence.
    + rewrite O2, O1, <-app_assoc. f_equal. unfold fanout.
      rewrite (fanout_targets_step m d _ bm eq_refl Hn Es), fmap_app. f_equal.
      by case_bool_decide.
Qed.
End fanout.

Lemma elem_of_fanout_targets m d n :
  n ∈ fanout_targets m d ↔
  n ∈ sharers (de_gblock_bitmap d) ∧ (mtype m = R_WRITE_MISS ∨ n ≠ req_cline_nodeID m).
Proof.
  unfold fanout_targets. rewrite list_elem_of_filter, elem_of_sharers, list_elem_of_In,
    <-in_rev, <-list_elem_of_In, elem_of_seqZ. unfold max_node_num. naive_solver lia.
Qed.

Lemma NoDup_fanout_targets m d : NoDup (fanout_targets m d).
Proof. apply NoDup_filter, NoDup_ListNoDup, NoDup_rev, NoDup_ListNoDup, NoDup_seqZ. Qed.

Lemma dir_spec_inval t req ag o e e' a :
  dir_spec t req ag o e = (e', a, true) →
  a_state e = S_SHARED ∧ (t = R_WRITE_MISS ∨ t = R_WRITE_SHARED).
Proof. unfold dir_spec. destruct t, (a_state e); repeat case_match; naive_solver. Qed.

(** Whether a message registers the requester's cache line address: only an
    accepted read or write miss does. *)
Definition registers (t : RawMessageType) (req : Z) (e : aentry) : bool :=
  match t, a_state e with
  | (R_READ_MISS | R_WRITE_MISS), (S_UNSHARED | S_SHARED | S_DIRTY) =>
      negb (bool_decide (req ∈ a_sharers e))
  | _, _ => false
  end.

(** Neither fanning out nor asked to record an initialisation. *)
Definition idle (s : to_net) : Prop := reg_copy_flag s = 0 ∧ dir_data_init s = [].

Section frame.
Context (m : ctrl_msg) (d : dir_data_e) (e : aentry) (t : RawMessageType).
Context (Hrel : entry_rel d e) (Ht : mtype m = t) (Hreq : 0 ≤ req_cline_nodeID m < 8).

Lemma dir_handle_frame_aux r :
  dir_handle m d = Some r →
  de_gblock_addr (r_dir r) = de_gblock_addr d ∧
  de_gblock_index (r_dir r) = de_gblock_index d ∧
  de_agent_cline_addr (r_dir r) =
    (if registers t (req_cline_nodeID m) e
     then <[Z.to_nat (req_cline_nodeID m) := req_cline_addr m]> (de_agent_cline_addr d)
     else de_agent_cline_addr d).
Proof using All.
  destruct (dir_prepare_fields m d) as (Em & Er & Ea & Eg).
  destruct Hrel as [Hs Hb Hsh Hn Hal].
  pose proof (bitmap01_get _ _ Hb Hreq) as Eb. rewrite Hsh in Eb.
  pose proof (arr_set_Some (de_agent_cline_addr d) (req_cline_nodeID m)
    (req_cline_addr m) ltac:(lia)) as El.
  unfold dir_handle. rewrite Em, Ht, mtype_of_val.
  destruct t; unfold handle_R_READ_MISS, handle_R_WRITE_MISS, handle_R_WRITE_SHARED,
      handle_R_EVICT_SHARED, handle_R_EVICT_DIRTY, handle_READ_MISS_DIRTY_ACKDATA,
      handle_WRITE_MISS_DIRTY_ACK, handle_WRITE_MISS_SHARED_ACK,
      handle_WRITE_SHARED_NOTONLY_ACK, registers;
    rewrite ?Hs, ?state_of_val, ?Er, ?Ea, ?Eb, ?El;
    destruct (a_state e); cbn [mbind option_bind];
    try case_bool_decide; cbn [negb Z.eqb]; unfold forward;
    repeat case_match; cbn [mbind option_bind]; try done;
    intros Hr; repeat (apply bind_Some in Hr as (? & ? & Hr));
    injection Hr as <-; try done.
Qed.
End frame.

Section process.
Context (jm : ctrl_msg) (jd : dir_data_e).

(** One message from the idle state: the handler's cycle, then the fan-out. *)
Lemma process_message_aux s m ms d ds e (t : RawMessageType) :
  idle s → ctrl_msg_r_f_DC_t_DC_in s = m :: ms → dir_data_f_DI_t_DC_in s = d :: ds →
  entry_rel d e → mtype m = t → 0 ≤ req_cline_nodeID m < 8 →
  (invalidation_ack t = true → 0 ≤ agent_cline_nodeID m < 8) →
  (a_state e = S_DIRTY → a_sharers e ≠ ∅) →
  ∃ k s' r e' a inval,
    (k ≤ 10)%nat ∧ iter_step k (dirCtrlHLS_to_net jm jd) s = Some s' ∧ idle s' ∧
    dir_handle m d = Some r ∧
    dir_spec t (req_cline_nodeID m) (agent_cline_nodeID m)
      (last_sharer (de_gblock_bitmap d) 0) e = (e', a, inval) ∧
    entry_rel (r_dir r) e' ∧
    ctrl_msg_r_f_DC_t_DC_in s' = ms ∧ dir_data_f_DI_t_DC_in s' = ds ∧
    dir_data_f_DC_t_DI_out s' = dir_data_f_DC_t_DI_out s ++ [r_dir r] ∧
    ctrl_msg_w_f_DC_t_DC_out s' = ctrl_msg_w_f_DC_t_DC_out s ++ [r_msg r] ∧
    ctrl_msg_f_DC_t_CMC_out s' = ctrl_msg_f_DC_t_CMC_out s ++ answer_msgs m d a ++
      (if inval then fanout (dir_prepare m d) d else []).
Proof.
  intros [Hi Hin] Hm Hd Hrel Ht Hreq Hag Hown.
  destruct (dir_handle_spec m d e t Hrel Ht Hreq Hag Hown) as (r & Er & Href).
  destruct (dir_spec t _ _ _ e) as [[e' a] inval] eqn:Es.
  destruct Href as (Re & Rs & Rc).
  pose proof (step_handling jm jd s m ms d ds Hin Hi Hm Hd) as Est.
  unfold to_net_handle in Est. rewrite Er in Est. cbn [mbind option_bind] in Est.
  destruct inval.
  - destruct (dir_spec_inval _ _ _ _ _ _ _ Es) as [Hsh Htt].
    rewrite Rc in Est.
    match type of Est with _ = Some ?x => set (s1 := x) in Est end.
    assert (fanning (dir_prepare m d) d s1) as F.
    { destruct (dir_prepare_fields m d) as (Em & _). destruct Hrel as [Hs Hb _ _ Ha].
      split; try done; cbn; rewrite ?Em, ?Ht, ?Hs, ?Hsh; try done.
      destruct Htt as [-> | ->]; [by left|by right]. }
    destruct (fanning_run jm jd _ _ _ F) as (s2 & E2 & Fl & SS & O).
    pose proof (size_sharers (de_gblock_bitmap d)).
    exists (S (size (sharers (de_gblock_bitmap d)) + 1)), s2, r, e', a, true.
    destruct SS as (S1 & S2 & S3 & S4 & S5).
    split_and!; try done.
    + lia.
    + cbn [iter_step]. rewrite Est. exact E2.
    + split; [done|by rewrite S1].
    + rewrite O, app_assoc. f_equal. cbn. by rewrite Rs.
  - rewrite Rc in Est.
    match type of Est with _ = Some ?x => set (s1 := x) in Est end.
    exists 1%nat, s1, r, e', a, false.
    split_and!; try done; try lia.
    + cbn [iter_step]. by rewrite Est.
    + cbn. rewrite Rs. by rewrite app_nil_r.
Qed.
End process.

(** ** Properties *)

(** C13: The directory's [switch] implements the abstract directory.  For every
    message type (the ones the directory does not serve included), whenever the
    entry represents an abstract entry, no array access is out of range, the
    entry written back represents the abstract successor, the messages sent are
    exactly the abstract answer (carrying the entry's address, its bitmap and the
    registered cache line address of the owner), and a fan-out starts exactly
    when the specification says that the other sharers are invalidated. *)
Theorem dir_handle_refines m d e (t : RawMessageType) :
  entry_rel d e → mtype m = t → 0 ≤ req_cline_nodeID m < 8 →
  (invalidation_ack t = true → 0 ≤ agent_cline_nodeID m < 8) →
  (a_state e = S_DIRTY → a_sharers e ≠ ∅) →
  ∃ r, dir_handle m d = Some r ∧
    refines m d r (dir_spec t (req_cline_nodeID m) (agent_cline_nodeID m)
                     (last_sharer (de_gblock_bitmap d) 0) e).
Proof. intros. by apply dir_handle_spec. Qed.

(** A message never changes which block an entry describes, and it changes
    the table of cache line addresses only when it is a read or write miss that
    is accepted: then the requester's slot receives the requester's address and
    every other slot is kept. *)
Theorem dir_handle_frame m d e (t : RawMessageType) :
  entry_rel d e → mtype m = t → 0 ≤ req_cline_nodeID m < 8 →
  (invalidation_ack t = true → 0 ≤ agent_cline_nodeID m < 8) →
  (a_state e = S_DIRTY → a_sharers e ≠ ∅) →
  ∃ r, dir_handle m d = Some r ∧
    de_gblock_addr (r_dir r) = de_gblock_addr d ∧
    de_gblock_index (r_dir r) = de_gblock_index d ∧
    (∀ i, 0 ≤ i < 8 → arr_nth (de_agent_cline_addr (r_dir r)) i =
      if registers t (req_cline_nodeID m) e && (i =? req_cline_nodeID m)
      then req_cline_addr m else arr_nth (de_agent_cline_addr d) i).
Proof.
  intros Hrel Ht Hreq Hag Hown.
  destruct (dir_handle_spec m d e t Hrel Ht Hreq Hag Hown) as (r & Er & _).
  destruct (dir_handle_frame_aux m d e t Hrel Ht Hreq r Er) as (H1 & H2 & H3).
  exists r. split_and!; try done. intros i Hi. rewrite H3.
  destruct (registers _ _ _); [|done]. destruct Hrel as [_ _ _ _ Hal].
  rewrite (arr_nth_set (de_agent_cline_addr d) _ (req_cline_nodeID m) i (req_cline_addr m)).
  - by destruct (i =? _).
  - apply arr_set_Some. lia.
Qed.

(** C18: From the idle state, with a message and its entry at the heads of the
    input streams, the module is idle again after at most ten cycles without
    undefined behaviour: it has consumed exactly that pair, written back exactly
    one entry (the abstract successor) and one message, and sent the answer
    followed, for an invalidation, by the complete fan-out. *)
Theorem process_message jm jd s m ms d ds e (t : RawMessageType) :
  idle s → ctrl_msg_r_f_DC_t_DC_in s = m :: ms → dir_data_f_DI_t_DC_in s = d :: ds →
  entry_rel d e → mtype m = t → 0 ≤ req_cline_nodeID m < 8 →
  (invalidation_ack t = true → 0 ≤ agent_cline_nodeID m < 8) →
  (a_state e = S_DIRTY → a_sharers e ≠ ∅) →
  ∃ k s' r e' a inval,
    (k ≤ 10)%nat ∧ iter_step k (dirCtrlHLS_to_net jm jd) s = Some s' ∧ idle s' ∧
    dir_spec t (req_cline_nodeID m) (agent_cline_nodeID m)
      (last_sharer (de_gblock_bitmap d) 0) e = (e', a, inval) ∧
    entry_rel (r_dir r) e' ∧
    ctrl_msg_r_f_DC_t_DC_in s' = ms ∧ dir_data_f_DI_t_DC_in s' = ds ∧
    dir_data_f_DC_t_DI_out s' = dir_data_f_DC_t_DI_out s ++ [r_dir r] ∧
    ctrl_msg_w_f_DC_t_DC_out s' = ctrl_msg_w_f_DC_t_DC_out s ++ [r_msg r] ∧
    ctrl_msg_f_DC_t_CMC_out s' = ctrl_msg_f_DC_t_CMC_out s ++ answer_msgs m d a ++
      (if inval then fanout (dir_prepare m d) d else []).
Proof.
  intros Hid Hm Hd Hrel Ht Hreq Hag Hown.
  destruct (process_message_aux jm jd s m ms d ds e t Hid Hm Hd Hrel Ht Hreq Hag Hown)
    as (k & s' & r & e' & a & inval & H).
  exists k, s', r, e', a, inval. naive_solver.
Qed.

(** When a write miss meets a shared block, or a sharer upgrades a block that
    has other sharers, every other sharer receives exactly one invalidation, sent
    to the cache line address registered for it, the requester receives none,
    and the entry waits in [S_TO_DIRTY] with its sharers unchanged. *)
Theorem invalidation_exact jm jd s m ms d ds e (t : RawMessageType) :
  idle s → ctrl_msg_r_f_DC_t_DC_in s = m :: ms → dir_data_f_DI_t_DC_in s = d :: ds →
  entry_rel d e → mtype m = t → 0 ≤ req_cline_nodeID m < 8 →
  (invalidation_ack t = true → 0 ≤ agent_cline_nodeID m < 8) →
  a_state e = S_SHARED →
  t = R_WRITE_MISS ∧ req_cline_nodeID m ∉ a_sharers e ∨
  t = R_WRITE_SHARED ∧ req_cline_nodeID m ∈ a_sharers e ∧ 1 < a_count e →
  ∃ k s' d' l, iter_step k (dirCtrlHLS_to_net jm jd) s = Some s' ∧ idle s' ∧
    dir_data_f_DC_t_DI_out s' = dir_data_f_DC_t_DI_out s ++ [d'] ∧
    entry_rel d' (mk_aentry S_TO_DIRTY (a_sharers e) (a_count e)) ∧
    NoDup l ∧ (∀ n, n ∈ l ↔ n ∈ a_sharers e ∖ {[req_cline_nodeID m]}) ∧
    ctrl_msg_f_DC_t_CMC_out s' = ctrl_msg_f_DC_t_CMC_out s ++
      answer_msgs m d (if mtype m =? R_WRITE_MISS
                       then ToApp DIR_2_APP_WRITE_MISS_SHAREDDATA else NoAnswer) ++
      (fanout_msg (dir_prepare m d) d <$> l).
Proof.
  intros Hid Hm Hd Hrel Ht Hreq Hag Hsh Hcase.
  destruct (process_message_aux jm jd s m ms d ds e t Hid Hm Hd Hrel Ht Hreq Hag)
    as (k & s' & r & e' & a & inval & _ & E & Hid' & _ & Es & Re & _ & _ & Od & _ & Oc).
  { by rewrite Hsh. }
  destruct (dir_prepare_fields m d) as (Em & Er & _).
  exists k, s', (r_dir r), (fanout_targets (dir_prepare m d) d).
  assert (e' = mk_aentry S_TO_DIRTY (a_sharers e) (a_count e) ∧ inval = true ∧
    a = if mtype m =? R_WRITE_MISS then ToApp DIR_2_APP_WRITE_MISS_SHAREDDATA
        else NoAnswer) as (-> & -> & ->).
  { rewrite Ht. unfold dir_spec in Es. rewrite Hsh in Es.
    destruct Hcase as [[-> ?]|(-> & ? & ?)].
    - rewrite bool_decide_eq_false_2 in Es by done. by simplify_eq.
    - rewrite bool_decide_eq_true_2 in Es by done. cbn [negb] in Es.
      rewrite (proj2 (Z.ltb_lt _ _)) in Es by done. by simplify_eq. }
  split_and!; try done.
  - apply NoDup_fanout_targets.
  - intros n. rewrite elem_of_fanout_targets, Em, Er, Ht.
    destruct Hrel as [_ _ -> _ _].
    destruct Hcase as [[-> ?]|(-> & ? & ?)]; set_solver.
Qed.

(** ** Witnesses: node 0 misses on a block shared by nodes 1 and 3 *)
Definition ex_entry : aentry := mk_aentry S_SHARED {[1; 3]} 2.

Definition ex_dir : dir_data_e :=
  mk_dir_data_e 0x1000 5 [0; 1; 0; 1; 0; 0; 0; 0] S_SHARED 2
    [0; 0x100; 0; 0x300; 0; 0; 0; 0].

Definition ex_msg : ctrl_msg :=
  ctrl_msg_zero <| mtype := R_WRITE_MISS |> <| req_cline_addr := 0x50 |>.

Lemma ex_rel : entry_rel ex_dir ex_entry.
Proof.
  split; try (by vm_compute). split; [done|].
  repeat constructor; (by left) || (by right).
Defined.

Definition ex_to_net : to_net :=
  mk_to_net 0 ctrl_msg_zero ex_dir [] [] [ex_dir] [ex_msg] [] [] ctrl_msg_zero ex_dir 0.

Lemma dir_handle_refines_witness :
  ∃ r, dir_handle ex_msg ex_dir = Some r ∧
    refines ex_msg ex_dir r (dir_spec R_WRITE_MISS 0 0 3 ex_entry).
Proof.
  apply (dir_handle_refines ex_msg ex_dir ex_entry R_WRITE_MISS);
    [exact ex_rel|done|cbn; lia|done|done].
Defined.

Lemma dir_handle_frame_witness :
  ∃ r, dir_handle ex_msg ex_dir = Some r ∧ de_gblock_addr (r_dir r) = 0x1000 ∧
    arr_nth (de_agent_cline_addr (r_dir r)) 0 = 0x50 ∧
    arr_nth (de_agent_cline_addr (r_dir r)) 3 = 0x300.
Proof.
  destruct (dir_handle_frame ex_msg ex_dir ex_entry R_WRITE_MISS) as (r & E & H1 & _ & H);
    [exact ex_rel|done|cbn; lia|cbn; lia|done|].
  exists r. repeat split; [done|done| |]; rewrite H by lia; by vm_compute.
Defined.

Lemma process_message_witness :
  ∃ s', (∃ k, (k ≤ 10)%nat ∧
     iter_step k (dirCtrlHLS_to_net ctrl_msg_zero ex_dir) ex_to_net = Some s') ∧
    idle s' ∧ mtype <$> ctrl_msg_f_DC_t_CMC_out s' =
      [DIR_2_APP_WRITE_MISS_SHAREDDATA : Z; DIR_2_AGENT_WRITE_MISS_SHARED : Z;
       DIR_2_AGENT_WRITE_MISS_SHARED : Z].
Proof.
  destruct (process_message ctrl_msg_zero ex_dir ex_to_net ex_msg [] ex_dir [] ex_entry
              R_WRITE_MISS) as (k & s' & r & e' & a & inval & Hk & E & I & Es & H);
    [done|done|done|exact ex_rel|done|cbn; lia|done|done|].
  exists s'. split; [by exists k|]. split; [done|].
  destruct H as (_ & _ & _ & _ & _ & ->). vm_compute in Es.
  injection Es as <- <- <-. by vm_compute.
Defined.

Lemma invalidation_exact_witness :
  ∃ s' l, (∃ k, iter_step k (dirCtrlHLS_to_net ctrl_msg_zero ex_dir) ex_to_net = Some s') ∧
    NoDup l ∧ ∀ n, n ∈ l ↔ n ∈ ({[1; 3]} : gset Z) ∖ {[0]}.
Proof.
  destruct (invalidation_exact ctrl_msg_zero ex_dir ex_to_net ex_msg [] ex_dir [] ex_entry
              R_WRITE_MISS) as (k & s' & d' & l & E & _ & _ & _ & N & T & _);
    [done|done|done|exact ex_rel|done|cbn; lia|done|done| |].
  - left. split; [done|]. cbn. set_solver.
  - exists s', l. split; [by exists k|]. by split.
Defined.
