(* ===== verification/DdrInst.v ===== *)
(** * DdrInst: the directory's DRAM ports, [dir/ddrInstHLS_{ar,aw_w,r,b}.cpp]

    An entry occupies one 128-byte slot of DRAM, at 128 times its index, and is
    moved as a burst of two 64-byte beats.  The writer and the reader are
    two-state machines: [reg_end_flag] is 1 between bursts and 0 after the first
    beat.  The DRAM itself is the memory controller's: the end-to-end theorem
    takes it as a parameter that obeys read-after-write on disjoint bursts. *)
From S2P Require Import Prelude DsmType Wire.
From stdpp Require Import base numbers option list list_numbers.
Open Scope Z_scope.

(** ** [ddrInstHLS_ar] *)
Record inst_ar := mk_inst_ar {
  ar_dir_cmd_in : list dir_cmd;
  ar_ddr_ar : list ddr_ar;
}.

(** [dir_gblock_index * 128], stored in the 34-bit address of the port. *)
Definition gblock_ddr_addr (dir_gblock_index : Z) : Z := wrap 34 (dir_gblock_index * 128).

(** [tmp_ar] for a command. *)
Definition read_cmd (c : dir_cmd) : ddr_ar :=
  {| araddr := gblock_ddr_addr (cmd_dir_gblock_index c);
     arburst := 1; arcache := 0; arid := 1; arlen := 1; arlock := 0;
     arprot := 0; arqos := 0; arsize := 6 |}.

Definition ddrInstHLS_ar (s : inst_ar) : inst_ar :=
  match ar_dir_cmd_in s with
  | [] => s
  | tmp_dir_cmd :: rest =>
      mk_inst_ar rest (push (ar_ddr_ar s) (read_cmd tmp_dir_cmd))
  end.

(** ** [ddrInstHLS_aw_w] *)
Record inst_aw_w := mk_inst_aw_w {
  w_reg_end_flag : Z;
  w_reg_dir_data : dir_data_e;
  w_dir_data_in : list dir_data_e;
  w_ddr_aw : list ddr_aw;
  w_ddr_w : list ddr_w;
}.

Definition write_addr (d : dir_data_e) : ddr_aw :=
  {| awaddr := gblock_ddr_addr (de_gblock_index d);
     awburst := 1; awcache := 0; awid := 1; awlen := 1; awlock := 0;
     awprot := 0; awqos := 0; awsize := 6 |}.

(** [junk] is the uninitialised [tmp_w] of the call. *)
Definition ddrInstHLS_aw_w (junk : ddr_w) (s : inst_aw_w) : inst_aw_w :=
  if w_reg_end_flag s =? 1 then
    match w_dir_data_in s with
    | [] => s
    | tmp_dir_data :: rest =>
        mk_inst_aw_w 0 tmp_dir_data rest
          (push (w_ddr_aw s) (write_addr tmp_dir_data))
          (push (w_ddr_w s) (dir_data_e_to_ddr_w_part1 tmp_dir_data junk))
    end
  else
    mk_inst_aw_w 1 (w_reg_dir_data s) (w_dir_data_in s) (w_ddr_aw s)
      (push (w_ddr_w s) (dir_data_e_to_ddr_w_part2 (w_reg_dir_data s) junk)).

(** ** [ddrInstHLS_r] *)
Record inst_r := mk_inst_r {
  r_reg_end_flag : Z;
  r_reg_dir_data : dir_data_e;
  r_ddr_r : list ddr_r;
  r_dir_data_out : list dir_data_e;
}.

Definition ddrInstHLS_r (s : inst_r) : inst_r :=
  match r_ddr_r s with
  | [] => s
  | tmp_r :: rest =>
      if r_reg_end_flag s =? 1 then
        mk_inst_r 0 (ddr_r_to_dir_data_e_part1 tmp_r (r_reg_dir_data s)) rest
          (r_dir_data_out s)
      else
        mk_inst_r 1 (r_reg_dir_data s) rest
          (push (r_dir_data_out s) (ddr_r_to_dir_data_e_part2 tmp_r (r_reg_dir_data s)))
  end.

(** ** [ddrInstHLS_b] *)
Record inst_b := mk_inst_b { b_ddr_b : list ddr_b; b_dir_ack_out : list dir_ack }.

Definition ddrInstHLS_b (s : inst_b) : inst_b :=
  match b_ddr_b s with
  | [] => s
  | tmp_b :: rest =>
      mk_inst_b rest (push (b_dir_ack_out s) (mk_dir_ack (ddr_bid tmp_b)))
  end.

(** ** What the ports do on whole queues (specification) *)

(** The two data beats of an entry. *)
Definition beats (junk : ddr_w) (d : dir_data_e) : list ddr_w :=
  [dir_data_e_to_ddr_w_part1 d junk; dir_data_e_to_ddr_w_part2 d junk].

(** The bytes [a, a + 128) of a burst of two beats of 64 bytes. *)
Definition burst_disjoint (a b : Z) : Prop := a + 128 ≤ b ∨ b + 128 ≤ a.

(** ** Lemmas *)
Lemma gblock_ddr_addr_small i : 0 ≤ i < 2 ^ 27 → gblock_ddr_addr i = i * 128.
Proof. intros. apply wrap_small. unfold fits. lia. Qed.

Lemma iter_ar s :
  Nat.iter (length (ar_dir_cmd_in s)) ddrInstHLS_ar s =
  mk_inst_ar [] (ar_ddr_ar s ++ (read_cmd <$> ar_dir_cmd_in s)).
Proof.
  destruct s as [cs out]. cbn [ar_dir_cmd_in ar_ddr_ar].
  revert out. induction cs as [|c cs IH]; intros out; cbn [length fmap list_fmap].
  - by rewrite app_nil_r.
  - rewrite Nat.iter_succ_r. cbn [ddrInstHLS_ar ar_dir_cmd_in ar_ddr_ar].
    rewrite IH. unfold push. by rewrite <-app_assoc.
Qed.

Lemma iter_aw_w junk reg ds aws ws :
  ∃ reg', Nat.iter (2 * length ds) (ddrInstHLS_aw_w junk) (mk_inst_aw_w 1 reg ds aws ws) =
    mk_inst_aw_w 1 reg' [] (aws ++ (write_addr <$> ds)) (ws ++ (ds ≫= beats junk)).
Proof.
  revert reg aws ws. induction ds as [|d ds IH]; intros reg aws ws.
  - exists reg. cbn. by rewrite !app_nil_r.
  - replace (2 * length (d :: ds))%nat with (S (S (2 * length ds))) by (cbn; lia).
    rewrite !Nat.iter_succ_r. destruct (IH d (push aws (write_addr d))
      (ws ++ beats junk d)) as [reg' E]. exists reg'.
    cbn [ddrInstHLS_aw_w w_reg_end_flag w_dir_data_in w_reg_dir_data w_ddr_aw w_ddr_w
      Z.eqb Pos.eqb]. unfold push, beats in *. rewrite <-!app_assoc in *. exact E.
Qed.

(** The two read beats carry the data of the two write beats of [d]. *)
Definition carries (junk : ddr_w) (r : ddr_r * ddr_r) (d : dir_data_e) : Prop :=
  ddr_rdata r.1 = ddr_wdata (dir_data_e_to_ddr_w_part1 d junk) ∧
  ddr_rdata r.2 = ddr_wdata (dir_data_e_to_ddr_w_part2 d junk).

Lemma reader_pair junk reg r d rest out :
  dir_data_e_wf d → carries junk r d →
  ddrInstHLS_r (ddrInstHLS_r (mk_inst_r 1 reg (r.1 :: r.2 :: rest) out)) =
  mk_inst_r 1 (ddr_r_to_dir_data_e_part1 r.1 reg) rest (push out d).
Proof.
  destruct r as [[x1 l1 p1 i1] [x2 l2 p2 i2]]. intros Hd [H1 H2]. cbn [fst snd ddr_rdata] in *.
  cbn -[ddr_r_to_dir_data_e_part1 ddr_r_to_dir_data_e_part2].
  unfold push. do 2 f_equal. rewrite H1, H2. f_equal. by apply ddr_entry_decode.
Qed.

(** A receiver of the beats of well-formed entries emits the entries. *)
Lemma iter_r junk reg rs ds out :
  Forall dir_data_e_wf ds → Forall2 (carries junk) rs ds →
  ∃ reg', Nat.iter (2 * length ds) ddrInstHLS_r
      (mk_inst_r 1 reg (rs ≫= λ r, [r.1; r.2]) out) = mk_inst_r 1 reg' [] (out ++ ds).
Proof.
  intros Hwf Hc. revert reg out Hwf.
  induction Hc as [|r d rs ds Hr Hc IH]; intros reg out Hwf.
  - exists reg. cbn. by rewrite app_nil_r.
  - apply Forall_cons in Hwf as [Hd Hwf].
    replace (2 * length (d :: ds))%nat with (S (S (2 * length ds))) by (cbn; lia).
    rewrite !Nat.iter_succ_r. rewrite bind_cons. cbn [app].
    rewrite (reader_pair junk reg r d) by done.
    destruct (IH (ddr_r_to_dir_data_e_part1 r.1 reg) (push out d) Hwf) as [reg' E].
    exists reg'. rewrite E. unfold push.
    by rewrite <-app_assoc.
Qed.

(** ** The DRAM between the write and the read ports *)

(** A write of two full 64-byte beats at increasing addresses, and its read. *)
Definition write_burst_ok (aw : ddr_aw) (w1 w2 : ddr_w) : Prop :=
  awburst aw = 1 ∧ awlen aw = 1 ∧ awsize aw = 6 ∧
  ddr_wstrb w1 = ones64 ∧ ddr_wstrb w2 = ones64 ∧ ddr_wlast w1 = 0 ∧ ddr_wlast w2 = 1.

Definition read_burst_ok (ar : ddr_ar) : Prop :=
  arburst ar = 1 ∧ arlen ar = 1 ∧ arsize ar = 6.

Section dram.
Context {M : Type} (dram_write : M → ddr_aw → ddr_w → ddr_w → M).
Context (dram_read : M → ddr_ar → ddr_r * ddr_r).

(** The controller serves the write bursts in order, two beats per address. *)
Fixpoint serve_writes (m : M) (aws : list ddr_aw) (ws : list ddr_w) : M :=
  match aws, ws with
  | aw :: aws, w1 :: w2 :: ws => serve_writes (dram_write m aw w1 w2) aws ws
  | _, _ => m
  end.

Definition serve_reads (m : M) (ars : list ddr_ar) : list ddr_r :=
  ars ≫= λ ar, [(dram_read m ar).1; (dram_read m ar).2].

(** The entry most recently written at an index. *)
Definition latest (ds : list dir_data_e) (i : Z) : option dir_data_e :=
  last (filter (λ d, de_gblock_index d = i) ds).

(** Documented behaviour of the memory: a read returns the last write to the
    same burst, and writes to disjoint bursts do not affect it. *)
Record dram_laws : Prop := {
  read_same m aw w1 w2 ar :
    write_burst_ok aw w1 w2 → read_burst_ok ar → araddr ar = awaddr aw →
    ddr_rdata (dram_read (dram_write m aw w1 w2) ar).1 = ddr_wdata w1 ∧
    ddr_rdata (dram_read (dram_write m aw w1 w2) ar).2 = ddr_wdata w2;
  read_other m aw w1 w2 ar :
    write_burst_ok aw w1 w2 → read_burst_ok ar → burst_disjoint (araddr ar) (awaddr aw) →
    dram_read (dram_write m aw w1 w2) ar = dram_read m ar;
}.

Context (Hlaws : dram_laws).

Lemma write_burst_beats junk d :
  write_burst_ok (write_addr d) (dir_data_e_to_ddr_w_part1 d junk)
    (dir_data_e_to_ddr_w_part2 d junk).
Proof using Type. done. Qed.

Lemma serve_writes_snoc junk m ds d :
  serve_writes m (write_addr <$> (ds ++ [d])) ((ds ++ [d]) ≫= beats junk) =
  dram_write (serve_writes m (write_addr <$> ds) (ds ≫= beats junk)) (write_addr d)
    (dir_data_e_to_ddr_w_part1 d junk) (dir_data_e_to_ddr_w_part2 d junk).
Proof using Type.
  revert m. induction ds as [|d' ds IH]; intros m; [done|].
  cbn [app]. rewrite !bind_cons. cbn. apply IH.
Qed.

Lemma served_reads junk m ds c d :
  Forall (λ d, 0 ≤ de_gblock_index d < 2 ^ 27) ds →
  latest ds (cmd_dir_gblock_index c) = Some d →
  carries junk (dram_read (serve_writes m (write_addr <$> ds) (ds ≫= beats junk))
                  (read_cmd c)) d.
Proof using All.
  induction ds as [|d' ds IH] using rev_ind; [done|].
  intros [Hds [Hd' _]%Forall_cons]%Forall_app Hl. rewrite serve_writes_snoc.
  unfold latest in *. rewrite filter_app, filter_cons in Hl. case_decide as Hi.
  - cbn in Hl. rewrite last_snoc in Hl. injection Hl as <-.
    apply (read_same Hlaws); [done|done|]. cbn. by rewrite Hi.
  - cbn in Hl. rewrite app_nil_r in Hl.
    rewrite (read_other Hlaws); [by apply IH|done|done|].
    assert (d ∈ ds ∧ de_gblock_index d = cmd_dir_gblock_index c) as [Hin Hd].
    { apply last_Some_elem_of, list_elem_of_filter in Hl. tauto. }
    rewrite Forall_forall in Hds. specialize (Hds d Hin).
    unfold burst_disjoint. cbn. rewrite !gblock_ddr_addr_small by (done || lia). lia.
Qed.
End dram.

Lemma gblock_ddr_addr_mod i : gblock_ddr_addr i = 128 * (i mod 2 ^ 27).
Proof. unfold gblock_ddr_addr, wrap. divlia. Qed.

(** ** Properties *)

(** C21: The entries written by the write port, stored by any memory with
    read-after-write semantics, and fetched by the read ports, come back
    unchanged: for any queue of well-formed entries with indices below 2^27 and
    any queue of fetches of written indices, the write port issues one two-beat
    full-strobe burst per entry, the read port reassembles one entry per fetch in
    order, and it is the entry last written at that index. *)
Theorem dram_directory {M} dram_write dram_read (m : M) junk reg reg' ds cs :
  dram_laws dram_write dram_read →
  Forall dir_data_e_wf ds → Forall (λ d, de_gblock_index d < 2 ^ 27) ds →
  Forall (λ c, is_Some (latest ds (cmd_dir_gblock_index c))) cs →
  let w := Nat.iter (2 * length ds) (ddrInstHLS_aw_w junk) (mk_inst_aw_w 1 reg ds [] []) in
  let a := Nat.iter (length cs) ddrInstHLS_ar (mk_inst_ar cs []) in
  let m' := serve_writes dram_write m (w_ddr_aw w) (w_ddr_w w) in
  let r := Nat.iter (2 * length cs) ddrInstHLS_r
             (mk_inst_r 1 reg' (serve_reads dram_read m' (ar_ddr_ar a)) []) in
  w_dir_data_in w = [] ∧ w_reg_end_flag w = 1 ∧ ar_dir_cmd_in a = [] ∧
  r_ddr_r r = [] ∧ r_reg_end_flag r = 1 ∧
  Some <$> r_dir_data_out r = (λ c, latest ds (cmd_dir_gblock_index c)) <$> cs.
Proof.
  intros Hlaws Hwf Hsmall Hcs.
  destruct (iter_aw_w junk reg ds [] []) as [wr Ew].
  pose proof (iter_ar (mk_inst_ar cs [])) as Ea.
  cbn [ar_dir_cmd_in ar_ddr_ar app] in Ea. cbv zeta. rewrite Ew, Ea.
  cbn [w_ddr_aw w_ddr_w ar_ddr_ar app w_dir_data_in w_reg_end_flag ar_dir_cmd_in].
  set (m' := serve_writes _ _ _ _).
  assert (∃ es, Forall2 (λ c d, latest ds (cmd_dir_gblock_index c) = Some d) cs es)
    as [es Hes].
  { clear -Hcs. induction Hcs as [|c cs [d Hd] _ [es IH]]; [by exists []|].
    exists (d :: es). by constructor. }
  assert (Forall dir_data_e_wf es) as Hew.
  { clear -Hes Hwf. induction Hes as [|c d cs es Hd _ IH]; constructor; [|done].
    apply last_Some_elem_of, list_elem_of_filter in Hd as [_ Hd].
    by eapply Forall_forall in Hwf. }
  assert (Forall2 (carries junk) ((λ c, dram_read m' (read_cmd c)) <$> cs) es) as Hc.
  { rewrite Forall2_fmap_l. eapply Forall2_impl; [exact Hes|]. intros c d Hd.
    apply (served_reads dram_write dram_read Hlaws junk m ds c d); [|exact Hd].
    apply Forall_forall. intros d' Hd'. split.
    - rewrite Forall_forall in Hwf. by destruct (Hwf d' Hd') as [_ [] _ _ _ _].
    - rewrite Forall_forall in Hsmall. by apply Hsmall. }
  destruct (iter_r junk reg' _ es [] Hew Hc) as [rr Er].
  unfold serve_reads.
  assert (((λ c, dram_read m' (read_cmd c)) <$> cs) ≫= (λ r, [r.1; r.2]) =
          (read_cmd <$> cs) ≫= (λ ar, [(dram_read m' ar).1; (dram_read m' ar).2])) as Eb.
  { clear. induction cs as [|c cs IH]; [done|]. cbn. by rewrite IH. }
  rewrite Eb, <-(Forall2_length _ _ _ Hes) in Er. rewrite Er. split_and!; try done.
  cbn. clear -Hes. induction Hes as [|c d cs es Hd _ IH]; [done|].
  rewrite !fmap_cons. by rewrite IH, Hd.
Qed.

(** The slots of two blocks overlap only when their indices agree modulo
    2^27: every slot is 128-byte aligned and lies in the 34-bit address space, so
    distinct indices below 2^27 never share a byte, and an index beyond wraps
    onto the slot of its low 27 bits. *)
Theorem gblock_slots i j :
  (gblock_ddr_addr i mod 128 = 0 ∧ 0 ≤ gblock_ddr_addr i ∧
   gblock_ddr_addr i + 128 ≤ 2 ^ 34) ∧
  (i mod 2 ^ 27 = j mod 2 ^ 27 ∧ gblock_ddr_addr i = gblock_ddr_addr j ∨
   i mod 2 ^ 27 ≠ j mod 2 ^ 27 ∧ burst_disjoint (gblock_ddr_addr i) (gblock_ddr_addr j)).
Proof.
  rewrite !gblock_ddr_addr_mod. unfold burst_disjoint.
  pose proof (Z.mod_pos_bound i (2 ^ 27) ltac:(lia)).
  pose proof (Z.mod_pos_bound j (2 ^ 27) ltac:(lia)).
  split; [split_and!; [|lia..]|].
  - rewrite Z.mul_comm. by apply Z.mod_mul.
  - destruct (Z.eq_dec (i mod 2 ^ 27) (j mod 2 ^ 27)) as [E|E]; [left|right].
    + by rewrite E.
    + split; [done|]. lia.
Qed.

(** ** Witness: a memory of bursts, two writes to one block and one to another *)
Definition ex_write (m : list (Z * (Z * Z))) (aw : ddr_aw) (w1 w2 : ddr_w) :=
  (awaddr aw, (ddr_wdata w1, ddr_wdata w2)) :: m.

Fixpoint ex_find (m : list (Z * (Z * Z))) (a : Z) : Z * Z :=
  match m with
  | [] => (0, 0)
  | (b, x) :: m => if a =? b then x else ex_find m a
  end.

Definition ex_read (m : list (Z * (Z * Z))) (ar : ddr_ar) : ddr_r * ddr_r :=
  let x := ex_find m (araddr ar) in (mk_ddr_r x.1 0 0 1, mk_ddr_r x.2 1 0 1).

Lemma ex_laws : dram_laws ex_write ex_read.
Proof.
  split.
  - intros m aw w1 w2 ar _ _ E. unfold ex_read. cbn. by rewrite E, Z.eqb_refl.
  - intros m aw w1 w2 ar _ _ E. unfold ex_read. cbn.
    rewrite (proj2 (Z.eqb_neq _ _)); [done|]. unfold burst_disjoint in E. lia.
Qed.

Definition ex_stored (i st : Z) : dir_data_e :=
  mk_dir_data_e 0x1000 i [0; 1; 0; 0; 0; 0; 0; 0] st 1 [0; 5; 0; 0; 0; 0; 0; 0].

Lemma ex_stored_wf i st : fits 32 i → fits 8 st → dir_data_e_wf (ex_stored i st).
Proof.
  intros. split; cbn; try done; (split; [done|]);
    repeat constructor; done.
Qed.

Lemma dram_directory_witness :
  let ds := [ex_stored 3 S_SHARED; ex_stored 9 S_DIRTY; ex_stored 3 S_DIRTY] in
  let cs := [mk_dir_cmd 3; mk_dir_cmd 9] in
  let w := Nat.iter 6 (ddrInstHLS_aw_w (mk_ddr_w 0 0 0))
             (mk_inst_aw_w 1 (ex_stored 0 0) ds [] []) in
  let a := Nat.iter 2 ddrInstHLS_ar (mk_inst_ar cs []) in
  let m' := serve_writes ex_write [] (w_ddr_aw w) (w_ddr_w w) in
  let r := Nat.iter 4 ddrInstHLS_r
             (mk_inst_r 1 (ex_stored 0 0) (serve_reads ex_read m' (ar_ddr_ar a)) []) in
  Some <$> r_dir_data_out r = [Some (ex_stored 3 S_DIRTY); Some (ex_stored 9 S_DIRTY)].
Proof.
  intros ds cs. pose proof (dram_directory ex_write ex_read [] (mk_ddr_w 0 0 0)
    (ex_stored 0 0) (ex_stored 0 0) ds cs ex_laws) as H.
  destruct H as (_ & _ & _ & _ & _ & H).
  - repeat (apply Forall_cons; split; [by apply ex_stored_wf|]). by apply Forall_nil.
  - repeat constructor.
  - repeat constructor; by eexists.
  - exact H.
Defined.
