(* ===== verification/DirLock.v ===== *)
(** * DirLock: admission to the directory, [dir/dirCtrlHLS_from_net.cpp]

    Control messages for the directory pass a table of block indices that are
    being processed.  On alternate cycles the module admits a message (or
    retries the one it could not admit) and releases the lock of a message whose
    entry has been written back.  The lock table is a fixed array of
    [LOCK_BKT_NUM] buckets of [LOCK_BKT_SIZE] slots; a free slot holds
    [0xffffffff]. *)
From S2P Require Import Prelude DsmType Wire.
From stdpp Require Import base numbers option list list_numbers relations.
Open Scope Z_scope.

Definition FREE_SLOT : Z := 0xffffffff.

Record from_net := mk_from_net {
  reg_init_flag : Z;
  reg_retry_flag : Z;
  reg_retry_ctrl_msg : ctrl_msg;
  reg_gb_index_arr : list (list Z);
  reg_source_flag : Z;
  ctrl_msg_f_D_t_DC_in : list ctrl_msg;
  dir_cmd_f_DC_t_DI_out : list dir_cmd;
  ctrl_msg_r_f_DC_t_DC_out : list ctrl_msg;
  dir_ack_f_DI_t_DC_in : list dir_ack;
  ctrl_msg_w_f_DC_t_DC_in : list ctrl_msg;
  debug_source_flag : Z;
  debug_retry_flag : Z;
}.
#[export] Instance eta_from_net : Eta from_net := fun s =>
  mk_from_net (reg_init_flag s) (reg_retry_flag s) (reg_retry_ctrl_msg s)
    (reg_gb_index_arr s) (reg_source_flag s) (ctrl_msg_f_D_t_DC_in s)
    (dir_cmd_f_DC_t_DI_out s) (ctrl_msg_r_f_DC_t_DC_out s) (dir_ack_f_DI_t_DC_in s)
    (ctrl_msg_w_f_DC_t_DC_in s) (debug_source_flag s) (debug_retry_flag s).

(** [tmp_bucket_id], of a block index. *)
Definition bucket_of (dir_gblock_index : Z) : Z :=
  get_range dir_gblock_index (LOCK_BKT_WIDTH - 1) 0.

(** [reg_gb_index_arr[b][p]] and its assignment. *)
Definition slot_get (t : list (list Z)) (b p : Z) : option Z :=
  row ← arr_get t b; arr_get row p.

Definition slot_set (t : list (list Z)) (b p x : Z) : option (list (list Z)) :=
  row ← arr_get t b; row' ← arr_set row p x; arr_set t b row'.

(** The table the initialisation loops leave. *)
Definition init_locks : list (list Z) :=
  (λ _, (λ _, FREE_SLOT) <$> seqZ 0 LOCK_BKT_SIZE) <$> seqZ 0 LOCK_BKT_NUM.

(** The scan of a bucket: [tmp_conflict_flag] and [tmp_free_slot_pos]. *)
Definition lock_scan (index : Z) (row : list Z) : Z * Z :=
  for_loop LOCK_BKT_SIZE (λ '(tmp_conflict_flag, tmp_free_slot_pos) i,
    (if index =? arr_nth row i then 1 else tmp_conflict_flag,
     if arr_nth row i =? FREE_SLOT then i else tmp_free_slot_pos)) (0, 0xff).

(** [wire_source_flag == 1]: release. *)
Definition lock_release (s : from_net) : option from_net :=
  match dir_ack_f_DI_t_DC_in s, ctrl_msg_w_f_DC_t_DC_in s with
  | _ :: acks, m :: ms =>
      t ← slot_set (reg_gb_index_arr s) (bucket_of (dir_gblock_index m)) (lock_position m) FREE_SLOT;
      Some (s <| dir_ack_f_DI_t_DC_in := acks |> <| ctrl_msg_w_f_DC_t_DC_in := ms |>
              <| reg_gb_index_arr := t |>)
  | _, _ => Some s
  end.

(** The body of [if(tmp_lock_flag)] for the message [m]. *)
Definition lock_try (m : ctrl_msg) (s : from_net) : option from_net :=
  row ← arr_get (reg_gb_index_arr s) (bucket_of (dir_gblock_index m));
  let '(tmp_conflict_flag, tmp_free_slot_pos) := lock_scan (dir_gblock_index m) row in
  if (tmp_conflict_flag =? 1) || (tmp_free_slot_pos =? 0xff) then
    Some (s <| reg_retry_flag := 1 |> <| reg_retry_ctrl_msg := m |>)
  else
    t ← slot_set (reg_gb_index_arr s) (bucket_of (dir_gblock_index m)) tmp_free_slot_pos (dir_gblock_index m);
    let m := m <| lock_position := tmp_free_slot_pos |> in
    Some (s <| reg_retry_flag := 0 |> <| reg_gb_index_arr := t |>
            <| ctrl_msg_r_f_DC_t_DC_out := push (ctrl_msg_r_f_DC_t_DC_out s) m |>
            <| dir_cmd_f_DC_t_DI_out :=
                 push (dir_cmd_f_DC_t_DI_out s) (mk_dir_cmd (dir_gblock_index m)) |>).

(** [wire_source_flag == 0]: admission. *)
Definition lock_admit (s : from_net) : option from_net :=
  if reg_retry_flag s =? 1 then lock_try (reg_retry_ctrl_msg s) s
  else match ctrl_msg_f_D_t_DC_in s with
       | m :: ms => lock_try m (s <| ctrl_msg_f_D_t_DC_in := ms |>)
       | [] => Some s
       end.

(** One call of [dirCtrlHLS_from_net]. *)
Definition dirCtrlHLS_from_net (s : from_net) : option from_net :=
  let wire_init_flag := reg_init_flag s in
  let wire_source_flag := reg_source_flag s in
  let s := s <| debug_retry_flag := reg_retry_flag s |>
             <| debug_source_flag := wire_source_flag |> in
  if negb (wire_init_flag =? 0) then
    Some (s <| reg_gb_index_arr := init_locks |> <| reg_init_flag := 0 |>)
  else if negb (wire_source_flag =? 0) then
    lock_release (s <| reg_source_flag := 0 |>)
  else
    lock_admit (s <| reg_source_flag := 1 |>).

(** ** The module in its environment

    [processed] holds the messages taken by the directory proper; [received] the
    messages the network delivered, in order.  The directory takes the oldest
    admitted message and later returns a message about the same block with the
    same lock position; memory returns acknowledgements on its own. *)
Record lock_sys := mk_lock_sys {
  ls_mod : from_net;
  ls_received : list ctrl_msg;
  ls_taken : list ctrl_msg;
  ls_busy : list ctrl_msg;
}.
#[export] Instance eta_lock_sys : Eta lock_sys := fun s =>
  mk_lock_sys (ls_mod s) (ls_received s) (ls_taken s) (ls_busy s).

(** A block index that can be stored in the table. *)
Definition valid_index (i : Z) : Prop := fits 32 i ∧ i ≠ FREE_SLOT.
Definition indexed (m : ctrl_msg) : Prop := valid_index (dir_gblock_index m).

Inductive lock_step : lock_sys → lock_sys → Prop :=
| lock_tick y s' :
    dirCtrlHLS_from_net (ls_mod y) = Some s' →
    lock_step y (y <| ls_mod := s' |>)
| lock_deliver y m :
    indexed m →
    lock_step y
      (y <| ls_mod := (ls_mod y) <| ctrl_msg_f_D_t_DC_in :=
                         push (ctrl_msg_f_D_t_DC_in (ls_mod y)) m |> |>
         <| ls_received := push (ls_received y) m |>)
| lock_take y m ms :
    ctrl_msg_r_f_DC_t_DC_out (ls_mod y) = m :: ms →
    lock_step y
      (y <| ls_mod := (ls_mod y) <| ctrl_msg_r_f_DC_t_DC_out := ms |> |>
         <| ls_taken := push (ls_taken y) m |> <| ls_busy := push (ls_busy y) m |>)
| lock_finish y b1 m b2 m' :
    ls_busy y = b1 ++ m :: b2 →
    dir_gblock_index m' = dir_gblock_index m → lock_position m' = lock_position m →
    lock_step y
      (y <| ls_mod := (ls_mod y) <| ctrl_msg_w_f_DC_t_DC_in :=
                         push (ctrl_msg_w_f_DC_t_DC_in (ls_mod y)) m' |> |>
         <| ls_busy := b1 ++ b2 |>)
| lock_ack y a :
    lock_step y
      (y <| ls_mod := (ls_mod y) <| dir_ack_f_DI_t_DC_in :=
                         push (dir_ack_f_DI_t_DC_in (ls_mod y)) a |> |>).

(** Power-on: the reset values of the registers, empty streams. *)
Definition lock_init (y : lock_sys) : Prop :=
  reg_init_flag (ls_mod y) = 1 ∧ reg_retry_flag (ls_mod y) = 0 ∧
  reg_source_flag (ls_mod y) = 0 ∧ ctrl_msg_f_D_t_DC_in (ls_mod y) = [] ∧
  dir_cmd_f_DC_t_DI_out (ls_mod y) = [] ∧ ctrl_msg_r_f_DC_t_DC_out (ls_mod y) = [] ∧
  dir_ack_f_DI_t_DC_in (ls_mod y) = [] ∧ ctrl_msg_w_f_DC_t_DC_in (ls_mod y) = [] ∧
  ls_received y = [] ∧ ls_taken y = [] ∧ ls_busy y = [].

(** The messages that hold a lock. *)
Definition holders (y : lock_sys) : list ctrl_msg :=
  ctrl_msg_r_f_DC_t_DC_out (ls_mod y) ++ ls_busy y ++ ctrl_msg_w_f_DC_t_DC_in (ls_mod y).

(** The message waiting in the retry register. *)
Definition retrying (s : from_net) : list ctrl_msg :=
  if reg_retry_flag s =? 1 then [reg_retry_ctrl_msg s] else [].

(** ** The lock invariant *)

(** The table [t] holds exactly the indices [held], one per bucket. *)
Record lock_inv (t : list (list Z)) (held : list Z) : Prop := {
  li_shape : length t = 256%nat ∧ Forall (λ r, length r = 1%nat) t;
  li_valid : Forall valid_index held;
  li_buckets : NoDup (bucket_of <$> held);
  li_slots : ∀ b, 0 ≤ b < 256 →
    (∃ i, i ∈ held ∧ bucket_of i = b ∧ slot_get t b 0 = Some i) ∨
    (b ∉ (bucket_of <$> held) ∧ slot_get t b 0 = Some FREE_SLOT);
}.

Record locked (y : lock_sys) : Prop := {
  lk_starting : reg_init_flag (ls_mod y) ≠ 0 → holders y = [];
  lk_running : reg_init_flag (ls_mod y) = 0 →
    lock_inv (reg_gb_index_arr (ls_mod y)) (dir_gblock_index <$> holders y);
  lk_pos : Forall (λ m, lock_position m = 0) (holders y);
  lk_waiting : Forall indexed (retrying (ls_mod y) ++ ctrl_msg_f_D_t_DC_in (ls_mod y));
}.

(** The messages received are those admitted, in order, followed by those that
    wait; one fetch of the entry is issued per admitted message. *)
Definition unlock_pos (m : ctrl_msg) : ctrl_msg := m <| lock_position := 0 |>.

Record conserved (y : lock_sys) : Prop := {
  cv_order : unlock_pos <$> ls_received y =
    (ls_taken y ++ ctrl_msg_r_f_DC_t_DC_out (ls_mod y)) ++
    (unlock_pos <$> (retrying (ls_mod y) ++ ctrl_msg_f_D_t_DC_in (ls_mod y)));
  cv_cmds : dir_cmd_f_DC_t_DI_out (ls_mod y) =
    (λ m, mk_dir_cmd (dir_gblock_index m)) <$>
      (ls_taken y ++ ctrl_msg_r_f_DC_t_DC_out (ls_mod y));
}.

(** ** Lemmas on the table *)
Lemma bucket_of_range i : 0 ≤ bucket_of i < 256.
Proof. apply (get_range_fits i 7 0 8); lia. Qed.

Lemma lock_scan_single i x :
  lock_scan i [x] = (if i =? x then 1 else 0, if x =? FREE_SLOT then 0 else 0xff).
Proof. reflexivity. Qed.

Lemma lock_inv_perm t held held' : held ≡ₚ held' → lock_inv t held → lock_inv t held'.
Proof.
  intros Hp [H1 H2 H3 H4]. split; [done|by rewrite <-Hp|by rewrite <-Hp|].
  intros b Hb. destruct (H4 b Hb) as [(i & ? & ?)|[? ?]]; [left|right].
  - exists i. by rewrite <-Hp.
  - by rewrite <-Hp.
Qed.

Lemma init_locks_inv : lock_inv init_locks [].
Proof.
  split; [split; [done|]|done|constructor|].
  - apply Forall_forall. intros r Hr.
    apply list_elem_of_fmap in Hr as (? & -> & _). done.
  - intros b Hb. right. split; [set_solver|]. unfold slot_get.
    assert (arr_get init_locks b = Some [FREE_SLOT]) as ->; [|done].
    unfold arr_get, init_locks. rewrite (proj2 (Z.ltb_ge _ _)) by lia.
    rewrite list_lookup_fmap, lookup_seqZ_lt by (unfold LOCK_BKT_NUM; lia). done.
Qed.

Lemma slot_row t b :
  length t = 256%nat ∧ Forall (λ r, length r = 1%nat) t → 0 ≤ b < 256 →
  ∃ x, arr_get t b = Some [x] ∧ slot_get t b 0 = Some x.
Proof.
  intros [Hl Hr] Hb. destruct (arr_get_Some t b) as [row E]; [lia|].
  assert (length row = 1%nat) as Hrow.
  { unfold arr_get in E. destruct (b <? 0); [done|]. by eapply Forall_lookup_1 in Hr. }
  destruct row as [|x [|]]; try done. exists x. unfold slot_get. by rewrite E.
Qed.

Lemma slot_update t b x :
  length t = 256%nat ∧ Forall (λ r, length r = 1%nat) t → 0 ≤ b < 256 →
  ∃ t', slot_set t b 0 x = Some t' ∧
    (length t' = 256%nat ∧ Forall (λ r, length r = 1%nat) t') ∧
    ∀ b', slot_get t' b' 0 = if b' =? b then Some x else slot_get t b' 0.
Proof.
  intros Hs Hb. destruct (slot_row t b Hs Hb) as (y & E & _). destruct Hs as [Hl Hr].
  exists (<[Z.to_nat b := [x]]> t). unfold slot_set. rewrite E. cbn [mbind option_bind].
  change (arr_set [y] 0 x) with (Some [x]). cbn [mbind option_bind].
  assert (arr_set t b [x] = Some (<[Z.to_nat b := [x]]> t)) as Es by (apply arr_set_Some; lia).
  split_and!; [done|by rewrite length_insert|by apply Forall_insert|].
  intros b'. unfold slot_get. rewrite (arr_get_set _ _ _ b' _ Es).
  by destruct (b' =? b).
Qed.

Lemma lock_inv_acquire t held i :
  lock_inv t held → valid_index i → slot_get t (bucket_of i) 0 = Some FREE_SLOT →
  ∃ t', slot_set t (bucket_of i) 0 i = Some t' ∧ lock_inv t' (i :: held).
Proof.
  intros [H1 H2 H3 H4] Hi Hf. pose proof (bucket_of_range i) as Hb.
  destruct (slot_update t (bucket_of i) i H1 Hb) as (t' & E & Sh & G).
  exists t'. split; [done|].
  assert (bucket_of i ∉ bucket_of <$> held) as Hn.
  { destruct (H4 _ Hb) as [(j & Hj & _ & Ej)|[? _]]; [|done].
    rewrite Forall_forall in H2. destruct (H2 j Hj) as [_ []]. congruence. }
  split; [done|by constructor|rewrite fmap_cons; by constructor|].
  intros b Hb'. rewrite G. destruct (Z.eqb_spec b (bucket_of i)) as [->|Hne].
  - left. exists i. split_and!; [by left|done|done].
  - destruct (H4 b Hb') as [(j & ? & ? & ?)|[? ?]]; [left|right].
    + exists j. split_and!; [by right|done|done].
    + split; [|done]. rewrite fmap_cons, not_elem_of_cons. done.
Qed.

Lemma lock_inv_release t held i :
  lock_inv t (i :: held) →
  ∃ t', slot_set t (bucket_of i) 0 FREE_SLOT = Some t' ∧ lock_inv t' held.
Proof.
  intros [H1 H2 H3 H4]. pose proof (bucket_of_range i) as Hb.
  destruct (slot_update t (bucket_of i) FREE_SLOT H1 Hb) as (t' & E & Sh & G).
  exists t'. split; [done|]. rewrite fmap_cons in H3. apply NoDup_cons in H3 as [Hn H3].
  apply Forall_cons in H2 as [_ H2].
  split; [done..|]. intros b Hb'. rewrite G. destruct (Z.eqb_spec b (bucket_of i)) as [->|Hne].
  - by right.
  - destruct (H4 b Hb') as [(j & Hj & ? & ?)|[Hb1 ?]]; [left|right].
    + exists j. split_and!; [|done|done]. apply elem_of_cons in Hj as [->|]; done.
    + split; [|done]. rewrite fmap_cons in Hb1. set_solver.
Qed.

Lemma lock_try_cases m s t held :
  reg_gb_index_arr s = t → lock_inv t held → indexed m →
  (slot_get t (bucket_of (dir_gblock_index m)) 0 ≠ Some FREE_SLOT ∧
   lock_try m s = Some (s <| reg_retry_flag := 1 |> <| reg_retry_ctrl_msg := m |>)) ∨
  (∃ t', slot_get t (bucket_of (dir_gblock_index m)) 0 = Some FREE_SLOT ∧
   lock_inv t' (dir_gblock_index m :: held) ∧
   lock_try m s = Some (s <| reg_retry_flag := 0 |> <| reg_gb_index_arr := t' |>
     <| ctrl_msg_r_f_DC_t_DC_out := push (ctrl_msg_r_f_DC_t_DC_out s) (unlock_pos m) |>
     <| dir_cmd_f_DC_t_DI_out :=
          push (dir_cmd_f_DC_t_DI_out s) (mk_dir_cmd (dir_gblock_index m)) |>)).
Proof.
  intros <- Hinv Hm. pose proof (bucket_of_range (dir_gblock_index m)) as Hb.
  destruct (slot_row _ _ (li_shape _ _ Hinv) Hb) as (x & Er & Ex).
  unfold lock_try. rewrite Er. cbn [mbind option_bind]. rewrite lock_scan_single, Ex.
  destruct (Z.eqb_spec x FREE_SLOT) as [->|Hx].
  - right. rewrite (proj2 (Z.eqb_neq (dir_gblock_index m) FREE_SLOT)) by apply Hm.
    cbn [Z.eqb orb].
    destruct (lock_inv_acquire _ _ _ Hinv Hm Ex) as (t' & E & Hi).
    exists t'. split_and!; [done|done|]. by rewrite E.
  - left. split; [congruence|]. by destruct (_ =? x).
Qed.

(** ** The invariants are preserved *)
Lemma holders_perm (r b : list ctrl_msg) m w :
  dir_gblock_index <$> (r ++ b ++ m :: w) ≡ₚ
  dir_gblock_index m :: (dir_gblock_index <$> (r ++ b ++ w)).
Proof. rewrite !(assoc_L (++)), !fmap_app. cbn. by rewrite Permutation_middle. Qed.

Section preservation.
Context (y : lock_sys) (HL : locked y) (HC : conserved y).

(** Admission: [m] is the message tried, [s] the module after it left the input
    queue if it came from there. *)
Lemma admit_preserves m ms s :
  reg_init_flag s = 0 → indexed m → Forall indexed ms →
  reg_gb_index_arr s = reg_gb_index_arr (ls_mod y) →
  ctrl_msg_r_f_DC_t_DC_out s = ctrl_msg_r_f_DC_t_DC_out (ls_mod y) →
  ctrl_msg_w_f_DC_t_DC_in s = ctrl_msg_w_f_DC_t_DC_in (ls_mod y) →
  dir_cmd_f_DC_t_DI_out s = dir_cmd_f_DC_t_DI_out (ls_mod y) →
  ctrl_msg_f_D_t_DC_in s = ms → reg_init_flag (ls_mod y) = 0 →
  retrying (ls_mod y) ++ ctrl_msg_f_D_t_DC_in (ls_mod y) = m :: ms →
  ∃ s', lock_try m s = Some s' ∧
    locked (y <| ls_mod := s' |>) ∧ conserved (y <| ls_mod := s' |>).
Proof using All.
  intros H0 Hm Hms Ht Hr Hw Hc Hin Hy Hq.
  destruct HL as [_ L2 L3 _], HC as [C1 C2]. specialize (L2 Hy). rewrite Hq in C1.
  rewrite <-Ht in L2.
  destruct (lock_try_cases m s _ _ eq_refl L2 Hm) as [[_ E]|(t' & _ & Hi & E)];
    rewrite E; take_result; split.
  - split; cbn; unfold holders, retrying in *; cbn; rewrite ?Hr, ?Hw, ?Hin; try done.
    by constructor.
  - split; cbn; unfold retrying; cbn; rewrite ?Hr, ?Hin; try done. by rewrite Hc, C2.
  - split; cbn; unfold holders, retrying in *; cbn; rewrite ?Hr, ?Hw, ?Hin; try done.
    + intros _. eapply lock_inv_perm; [|exact Hi]. unfold push.
      rewrite !fmap_app, <-(assoc_L (++)). cbn. by rewrite <-Permutation_middle.
    + unfold push. rewrite !Forall_app in *. rewrite Forall_cons. naive_solver.
  - split; cbn; unfold retrying, push; cbn; rewrite ?Hr, ?Hin.
    + by rewrite C1, <-!(assoc_L (++)), fmap_cons.
    + by rewrite Hc, C2, !fmap_app, <-(assoc_L (++)).
Qed.

Lemma release_preserves s :
  reg_init_flag (ls_mod y) = 0 →
  s = (ls_mod y) <| debug_retry_flag := debug_retry_flag s |>
        <| debug_source_flag := debug_source_flag s |>
        <| reg_source_flag := reg_source_flag s |> →
  ∃ s', lock_release s = Some s' ∧
    locked (y <| ls_mod := s' |>) ∧ conserved (y <| ls_mod := s' |>).
Proof using All.
  intros Hy Hs. destruct HL as [L1 L2 L3 L4], HC as [C1 C2]. specialize (L2 Hy).
  unfold lock_release. destruct (dir_ack_f_DI_t_DC_in s) as [|a acks] eqn:Ea;
    [|destruct (ctrl_msg_w_f_DC_t_DC_in s) as [|m ms] eqn:Em].
  1,2: take_result; rewrite Hs; by split.
  assert (ctrl_msg_w_f_DC_t_DC_in (ls_mod y) = m :: ms) as Em' by (rewrite Hs in Em; done).
  assert (reg_gb_index_arr s = reg_gb_index_arr (ls_mod y)) as Et by (by rewrite Hs).
  unfold holders in L2, L3. rewrite Em' in L2, L3.
  assert (lock_position m = 0) as ->.
  { rewrite !Forall_app, Forall_cons in L3. tauto. }
  apply (lock_inv_perm _ _ _ (holders_perm _ _ _ _)) in L2. rewrite <-Et in L2.
  destruct (lock_inv_release _ _ _ L2) as (t' & E & Hi). rewrite E.
  take_result. rewrite Hs. split; split; cbn; try done.
  - unfold holders. cbn. rewrite !Forall_app, Forall_cons in *. tauto.
Qed.

Lemma tick_preserves :
  ∃ s', dirCtrlHLS_from_net (ls_mod y) = Some s' ∧
    locked (y <| ls_mod := s' |>) ∧ conserved (y <| ls_mod := s' |>).
Proof using All.
  unfold dirCtrlHLS_from_net. destruct (Z.eqb_spec (reg_init_flag (ls_mod y)) 0) as [Hi|Hi];
    cbn [negb].
  2: { take_result. destruct HL as [L1 _ L3 L4], HC.
    split; split; cbn; try done. intros _. unfold holders in *. cbn.
    rewrite (L1 Hi). apply init_locks_inv. }
  destruct (Z.eqb_spec (reg_source_flag (ls_mod y)) 0); cbn [negb].
  2: by apply release_preserves.
  unfold lock_admit. pose proof (lk_waiting _ HL) as Hw.
  cbn [reg_retry_flag reg_retry_ctrl_msg ctrl_msg_f_D_t_DC_in set_field].
  destruct (reg_retry_flag (ls_mod y) =? 1) eqn:Er.
  - assert (retrying (ls_mod y) ++ ctrl_msg_f_D_t_DC_in (ls_mod y) =
      reg_retry_ctrl_msg (ls_mod y) :: ctrl_msg_f_D_t_DC_in (ls_mod y)) as Eq.
    { unfold retrying. by rewrite Er. }
    rewrite Eq in Hw. apply Forall_cons in Hw as [? ?]. by eapply admit_preserves.
  - assert (retrying (ls_mod y) = []) as Eq by (unfold retrying; by rewrite Er).
    rewrite Eq in Hw. cbn [app] in Hw.
    destruct (ctrl_msg_f_D_t_DC_in (ls_mod y)) as [|m ms] eqn:Em.
    + take_result. destruct HL, HC. by split; split.
    + apply Forall_cons in Hw as [? ?].
      eapply admit_preserves; try done. by rewrite Eq, Em.
Qed.
End preservation.

Lemma step_preserves y y' :
  locked y ∧ conserved y → lock_step y y' → locked y' ∧ conserved y'.
Proof.
  intros [HL HC] Hs. destruct Hs as [y s' E|y m Hm|y m ms E|y b1 m b2 m' E Ei Ep|y a].
  - destruct (tick_preserves y HL HC) as (s'' & E' & H). congruence.
  - destruct HL as [L1 L2 L3 L4], HC as [C1 C2]. split; split; cbn; try done.
    + change (retrying (_ <| ctrl_msg_f_D_t_DC_in := _ |>)) with (retrying (ls_mod y)).
      unfold push. rewrite (assoc_L (++)). apply Forall_app. split; [done|].
      by apply Forall_singleton.
    + change (retrying (_ <| ctrl_msg_f_D_t_DC_in := _ |>)) with (retrying (ls_mod y)).
      unfold push. rewrite fmap_app, C1, !fmap_app. by rewrite <-!(assoc_L (++)).
  - destruct HL as [L1 L2 L3 L4], HC as [C1 C2]. unfold holders in *. rewrite E in *.
    assert (∀ A (f : ctrl_msg → A), f <$> (m :: ms) ++ ls_busy y ++
        ctrl_msg_w_f_DC_t_DC_in (ls_mod y) ≡ₚ
      f <$> ms ++ (ls_busy y ++ [m]) ++ ctrl_msg_w_f_DC_t_DC_in (ls_mod y)) as Hp.
    { intros A f. apply fmap_Permutation. rewrite <-!(assoc_L (++)). cbn.
      by rewrite (assoc_L (++) ms _ (m :: _)), <-Permutation_middle, (assoc_L (++)). }
    split; split; cbn; unfold holders, push; cbn; try done.
    + intros H. by specialize (L1 H).
    + intros H. eapply lock_inv_perm; [apply Hp|by apply L2].
    + rewrite !Forall_app, Forall_cons in *. rewrite Forall_nil. tauto.
    + rewrite C1. by rewrite <-!(assoc_L (++)).
    + rewrite C2. by rewrite <-!(assoc_L (++)).
  - destruct HL as [L1 L2 L3 L4], HC as [C1 C2]. unfold holders in *. rewrite E in *.
    split; split; cbn; unfold holders, push; cbn; try done.
    + intros H. specialize (L1 H). by destruct (ctrl_msg_r_f_DC_t_DC_out _), b1.
    + intros H. eapply lock_inv_perm; [|by apply L2].
      rewrite !fmap_app. cbn. rewrite Ei, <-!(assoc_L (++)). cbn.
      do 2 f_equiv. by rewrite (assoc_L (++) _ _ [_]), <-Permutation_cons_append.
    + rewrite !Forall_app, !Forall_cons in *. rewrite Forall_nil, Ep. tauto.
  - destruct HL, HC. by split; split.
Qed.

Lemma lock_init_inv y : lock_init y → locked y ∧ conserved y.
Proof.
  intros (I1 & I2 & I3 & I4 & I5 & I6 & I7 & I8 & I9 & I10 & I11).
  assert (holders y = []) as Hh by (unfold holders; by rewrite I6, I8, I11).
  assert (retrying (ls_mod y) = []) as Hr by (unfold retrying; by rewrite I2).
  split; split; rewrite ?Hh, ?Hr, ?I4, ?I9, ?I10, ?I5, ?I6; try done.
  by rewrite I1.
Qed.

Lemma lock_reachable y :
  reachable lock_init lock_step y → locked y ∧ conserved y.
Proof.
  apply (reachable_ind_inv lock_init lock_step (λ y, locked y ∧ conserved y)).
  - apply lock_init_inv.
  - apply step_preserves.
Qed.

(** ** Progress of the module *)
Definition waiting (s : from_net) : list ctrl_msg := retrying s ++ ctrl_msg_f_D_t_DC_in s.

Section progress.
Context (y : lock_sys) (HL : locked y) (Hinit : reg_init_flag (ls_mod y) = 0).

(** What an admission cycle does to the streams. *)
Record admitted (s' : from_net) : Prop := {
  ad_init : reg_init_flag s' = 0;
  ad_source : reg_source_flag s' = 1;
  ad_acks : dir_ack_f_DI_t_DC_in s' = dir_ack_f_DI_t_DC_in (ls_mod y);
  ad_done : ctrl_msg_w_f_DC_t_DC_in s' = ctrl_msg_w_f_DC_t_DC_in (ls_mod y);
  ad_wait : (waiting s' = waiting (ls_mod y) ∧
     ctrl_msg_r_f_DC_t_DC_out s' = ctrl_msg_r_f_DC_t_DC_out (ls_mod y)) ∨
    ∃ m, waiting (ls_mod y) = m :: waiting s' ∧
     ctrl_msg_r_f_DC_t_DC_out s' = ctrl_msg_r_f_DC_t_DC_out (ls_mod y) ++ [unlock_pos m];
}.

Lemma admit_cycle :
  reg_source_flag (ls_mod y) = 0 →
  ∃ s', dirCtrlHLS_from_net (ls_mod y) = Some s' ∧ admitted s' ∧
    ∀ m ms, waiting (ls_mod y) = m :: ms →
      slot_get (reg_gb_index_arr (ls_mod y)) (bucket_of (dir_gblock_index m)) 0
        = Some FREE_SLOT →
      ctrl_msg_r_f_DC_t_DC_out s' = ctrl_msg_r_f_DC_t_DC_out (ls_mod y) ++ [unlock_pos m].
Proof using All.
  intros Hs. unfold dirCtrlHLS_from_net. rewrite Hinit, Hs. cbn [Z.eqb negb].
  pose proof (lk_running _ HL Hinit) as Hi. pose proof (lk_waiting _ HL) as Hw.
  set (s1 := _ <| reg_source_flag := 1 |>). unfold lock_admit.
  change (reg_retry_flag s1) with (reg_retry_flag (ls_mod y)).
  change (reg_retry_ctrl_msg s1) with (reg_retry_ctrl_msg (ls_mod y)).
  change (ctrl_msg_f_D_t_DC_in s1) with (ctrl_msg_f_D_t_DC_in (ls_mod y)).
  unfold waiting, retrying in *. destruct (reg_retry_flag (ls_mod y) =? 1) eqn:Er.
  - apply Forall_cons in Hw as [Hm _].
    destruct (lock_try_cases (reg_retry_ctrl_msg (ls_mod y)) s1 (reg_gb_index_arr (ls_mod y)) _ eq_refl Hi Hm)
      as [[Hf E]|(t' & Hf & _ & E)]; rewrite E; take_result; split.
    + split; try done. left. unfold waiting, retrying. cbn. by rewrite Er.
    + intros m ms [= <- <-] ?. done.
    + split; try done. right. unfold waiting, retrying. rewrite Er. by eexists.
    + by intros m ms [= <- <-] ?.
  - destruct (ctrl_msg_f_D_t_DC_in (ls_mod y)) as [|m ms] eqn:Em.
    + take_result. split; [|done].
      split; try done. left. unfold waiting, retrying. cbn. by rewrite Er, Em.
    + apply Forall_cons in Hw as [Hm _].
      assert (reg_gb_index_arr (s1 <| ctrl_msg_f_D_t_DC_in := ms |>) =
        reg_gb_index_arr (ls_mod y)) as Et by done.
      destruct (lock_try_cases m (s1 <| ctrl_msg_f_D_t_DC_in := ms |>) _ _ Et Hi Hm)
        as [[Hf E]|(t' & Hf & _ & E)]; rewrite E; take_result; split.
      * split; try done. left. unfold waiting, retrying. cbn. by rewrite Er, Em.
      * intros m' ms' [= <- <-] ?. done.
      * split; try done. right. unfold waiting, retrying. cbn. rewrite Er, Em. by eexists.
      * by intros m' ms' [= <- <-] ?.
Qed.

(** A release cycle. *)
Lemma release_cycle :
  reg_source_flag (ls_mod y) ≠ 0 →
  ∃ s', dirCtrlHLS_from_net (ls_mod y) = Some s' ∧
    reg_init_flag s' = 0 ∧ reg_source_flag s' = 0 ∧
    waiting s' = waiting (ls_mod y) ∧
    ctrl_msg_r_f_DC_t_DC_out s' = ctrl_msg_r_f_DC_t_DC_out (ls_mod y) ∧
    match dir_ack_f_DI_t_DC_in (ls_mod y), ctrl_msg_w_f_DC_t_DC_in (ls_mod y) with
    | _ :: acks, m :: ms =>
        dir_ack_f_DI_t_DC_in s' = acks ∧ ctrl_msg_w_f_DC_t_DC_in s' = ms ∧
        slot_get (reg_gb_index_arr s') (bucket_of (dir_gblock_index m)) 0 = Some FREE_SLOT
    | _, _ => dir_ack_f_DI_t_DC_in s' = dir_ack_f_DI_t_DC_in (ls_mod y) ∧
        ctrl_msg_w_f_DC_t_DC_in s' = ctrl_msg_w_f_DC_t_DC_in (ls_mod y) ∧
        reg_gb_index_arr s' = reg_gb_index_arr (ls_mod y)
    end.
Proof using All.
  intros Hs. unfold dirCtrlHLS_from_net.
  rewrite Hinit, (proj2 (Z.eqb_neq _ _) Hs). cbn [Z.eqb negb].
  pose proof (lk_running _ HL Hinit) as Hi. pose proof (lk_pos _ HL) as Hp.
  unfold lock_release. cbn [dir_ack_f_DI_t_DC_in ctrl_msg_w_f_DC_t_DC_in set_field].
  destruct (dir_ack_f_DI_t_DC_in (ls_mod y)) as [|a acks] eqn:Ea;
    [|destruct (ctrl_msg_w_f_DC_t_DC_in (ls_mod y)) as [|m ms] eqn:Em].
  1,2: take_result; by split_and!.
  unfold holders in *. rewrite Em in Hi, Hp.
  assert (lock_position m = 0) as ->.
  { rewrite !Forall_app, Forall_cons in Hp. tauto. }
  pose proof (li_shape _ _ Hi) as Hsh.
  destruct (slot_update _ (bucket_of (dir_gblock_index m)) FREE_SLOT Hsh
    (bucket_of_range _)) as (t' & E & _ & G).
  cbn [reg_gb_index_arr set_field]. rewrite E. cbn [mbind option_bind].
  take_result. split_and!; try done. cbn. rewrite G.
  by rewrite Z.eqb_refl.
Qed.
End progress.

(** ** Draining *)
Definition pending (y : lock_sys) : nat :=
  4 * length (waiting (ls_mod y)) + 3 * length (ctrl_msg_r_f_DC_t_DC_out (ls_mod y))
  + 2 * length (ls_busy y) + length (ctrl_msg_w_f_DC_t_DC_in (ls_mod y)).

Definition running (y : lock_sys) : Prop :=
  locked y ∧ conserved y ∧ reg_init_flag (ls_mod y) = 0.

Lemma tick_running y s' :
  running y → dirCtrlHLS_from_net (ls_mod y) = Some s' → reg_init_flag s' = 0 →
  running (y <| ls_mod := s' |>) ∧ lock_step y (y <| ls_mod := s' |>).
Proof.
  intros (HL & HC & _) E H0. pose proof (lock_tick y s' E) as Hs.
  split; [|done]. destruct (step_preserves y _ (conj HL HC) Hs). done.
Qed.

Lemma admit_pending y s' : admitted y s' → (pending (y <| ls_mod := s' |>) ≤ pending y)%nat.
Proof.
  intros [_ _ _ Hw Hr]. unfold pending. cbn. rewrite Hw.
  destruct Hr as [[-> ->]|(m & -> & ->)]; [done|]. rewrite length_app. cbn. lia.
Qed.

(** One step, or a few, of some schedule reduce the work that is left. *)
Definition reduces (y : lock_sys) : Prop :=
  ∃ y', rtc lock_step y y' ∧ running y' ∧ (pending y' < pending y)%nat.

Lemma reduces_release y a acks m ms :
  running y → dir_ack_f_DI_t_DC_in (ls_mod y) = a :: acks →
  ctrl_msg_w_f_DC_t_DC_in (ls_mod y) = m :: ms → reg_source_flag (ls_mod y) ≠ 0 →
  reduces y.
Proof.
  intros HR Ea Em Hs. destruct HR as (HL & HC & Hi).
  destruct (release_cycle y HL Hi Hs) as (s' & E & I & _ & W & R & D).
  rewrite Ea, Em in D. destruct D as (_ & D & _).
  destruct (tick_running y s' (conj HL (conj HC Hi)) E I) as [HR' St].
  exists (y <| ls_mod := s' |>). split; [by apply rtc_once|]. split; [done|].
  unfold pending. cbn. rewrite W, R, D, Em. cbn. lia.
Qed.

Lemma reduces_completed y m ms :
  running y → ctrl_msg_w_f_DC_t_DC_in (ls_mod y) = m :: ms → reduces y.
Proof.
  intros HR Em. pose proof (lock_ack y (mk_dir_ack 1)) as Sa.
  set (y1 := y <| ls_mod := _ |>) in Sa.
  assert (running y1) as HR1.
  { destruct HR as (HL & HC & Hi). by destruct (step_preserves _ _ (conj HL HC) Sa). }
  assert (pending y1 = pending y) as Hp by done.
  assert (∃ a acks, dir_ack_f_DI_t_DC_in (ls_mod y1) = a :: acks) as (a & acks & Ea).
  { unfold y1, push. cbn. destruct (dir_ack_f_DI_t_DC_in (ls_mod y)); cbn; by eauto. }
  assert (ctrl_msg_w_f_DC_t_DC_in (ls_mod y1) = m :: ms) as Em1 by done.
  assert (reduces y1) as (y2 & R2 & H2 & P2).
  2: { exists y2. split; [by eapply rtc_l|]. split; [done|lia]. }
  clearbody y1. clear Sa Hp Em HR y.
  destruct (decide (reg_source_flag (ls_mod y1) = 0)) as [Hs|Hs];
    [|by eapply reduces_release].
  destruct HR1 as (HL & HC & Hi).
  destruct (admit_cycle y1 HL Hi Hs) as (s' & E & A & _).
  destruct (tick_running y1 s' (conj HL (conj HC Hi)) E (ad_init _ _ A)) as [HR' St].
  destruct (reduces_release (y1 <| ls_mod := s' |>) a acks m ms HR') as (y2 & R2 & H2 & P2).
  - cbn. by rewrite (ad_acks _ _ A).
  - cbn. by rewrite (ad_done _ _ A).
  - cbn. by rewrite (ad_source _ _ A).
  - exists y2. split; [by eapply rtc_l|]. split; [done|].
    pose proof (admit_pending _ _ A). lia.
Qed.

Lemma slot_free y b :
  locked y → reg_init_flag (ls_mod y) = 0 → 0 ≤ b < 256 →
  Forall (λ h, bucket_of (dir_gblock_index h) ≠ b) (holders y) →
  slot_get (reg_gb_index_arr (ls_mod y)) b 0 = Some FREE_SLOT.
Proof.
  intros HL Hi Hb Hh. destruct (li_slots _ _ (lk_running _ HL Hi) b Hb) as [(i & Hin & E & _)|[_ ?]];
    [|done]. exfalso.
  apply list_elem_of_fmap in Hin as (h & -> & Hin). rewrite Forall_forall in Hh. by apply (Hh h).
Qed.

(** An admission cycle that finds the bucket free. *)
Lemma admit_now y m ms :
  running y → reg_source_flag (ls_mod y) = 0 → waiting (ls_mod y) = m :: ms →
  slot_get (reg_gb_index_arr (ls_mod y)) (bucket_of (dir_gblock_index m)) 0 = Some FREE_SLOT →
  ∃ s', dirCtrlHLS_from_net (ls_mod y) = Some s' ∧ running (y <| ls_mod := s' |>) ∧
    waiting s' = ms ∧ ctrl_msg_w_f_DC_t_DC_in s' = ctrl_msg_w_f_DC_t_DC_in (ls_mod y) ∧
    ctrl_msg_r_f_DC_t_DC_out s' = ctrl_msg_r_f_DC_t_DC_out (ls_mod y) ++ [unlock_pos m].
Proof.
  intros HR Hs Hw Hf. destruct HR as (HL & HC & Hi).
  destruct (admit_cycle y HL Hi Hs) as (s' & E & A & Hr). specialize (Hr m ms Hw Hf).
  destruct (tick_running y s' (conj HL (conj HC Hi)) E (ad_init _ _ A)) as [HR' _].
  exists s'. destruct A as [_ _ _ Hd [[_ Hx]|(m' & Hx & _)]].
  - exfalso. rewrite Hx in Hr. apply (f_equal length) in Hr. rewrite length_app in Hr.
    cbn in Hr. lia.
  - split_and!; try done. congruence.
Qed.

(** A release cycle keeps what waits, and holds no new lock. *)
Lemma release_now y :
  running y → reg_source_flag (ls_mod y) ≠ 0 →
  ∃ s', dirCtrlHLS_from_net (ls_mod y) = Some s' ∧ running (y <| ls_mod := s' |>) ∧
    reg_source_flag s' = 0 ∧ waiting s' = waiting (ls_mod y) ∧
    ctrl_msg_r_f_DC_t_DC_out s' = ctrl_msg_r_f_DC_t_DC_out (ls_mod y) ∧
    ctrl_msg_w_f_DC_t_DC_in s' `suffix_of` ctrl_msg_w_f_DC_t_DC_in (ls_mod y).
Proof.
  intros HR Hs. destruct HR as (HL & HC & Hi).
  destruct (release_cycle y HL Hi Hs) as (s' & E & I & S & W & R & D).
  destruct (tick_running y s' (conj HL (conj HC Hi)) E I) as [HR' _].
  exists s'. split_and!; try done.
  destruct (dir_ack_f_DI_t_DC_in (ls_mod y)), (ctrl_msg_w_f_DC_t_DC_in (ls_mod y)) as [|m ms];
    destruct D as (_ & -> & _); try done. by exists [m].
Qed.

Lemma holders_suffix y s' (P : ctrl_msg → Prop) :
  ctrl_msg_r_f_DC_t_DC_out s' = ctrl_msg_r_f_DC_t_DC_out (ls_mod y) →
  ctrl_msg_w_f_DC_t_DC_in s' `suffix_of` ctrl_msg_w_f_DC_t_DC_in (ls_mod y) →
  Forall P (holders y) → Forall P (holders (y <| ls_mod := s' |>)).
Proof.
  unfold holders. cbn. intros -> [l E]. rewrite E, !Forall_app. tauto.
Qed.

(** A free bucket: admission within two cycles. *)
Lemma admit_when_free y m ms :
  running y → waiting (ls_mod y) = m :: ms →
  Forall (λ h, bucket_of (dir_gblock_index h) ≠ bucket_of (dir_gblock_index m)) (holders y) →
  ∃ k s', (k ≤ 2)%nat ∧ iter_step k dirCtrlHLS_from_net (ls_mod y) = Some s' ∧
    waiting s' = ms ∧
    ctrl_msg_r_f_DC_t_DC_out s' = ctrl_msg_r_f_DC_t_DC_out (ls_mod y) ++ [unlock_pos m].
Proof.
  intros HR Hw Hf. pose proof (bucket_of_range (dir_gblock_index m)) as Hb.
  destruct (decide (reg_source_flag (ls_mod y) = 0)) as [Hs|Hs].
  - destruct (admit_now y m ms HR Hs Hw) as (s' & E & _ & W & _ & R).
    { destruct HR as (HL & _ & Hi). by apply slot_free. }
    exists 1%nat, s'. cbn. rewrite E. split_and!; try done. lia.
  - destruct (release_now y HR Hs) as (s1 & E1 & HR1 & S1 & W1 & R1 & D1).
    destruct (admit_now (y <| ls_mod := s1 |>) m ms HR1 S1) as (s' & E & _ & W & _ & R).
    { cbn. by rewrite W1. }
    { destruct HR1 as (HL1 & _ & Hi1). apply slot_free; try done. by apply holders_suffix. }
    exists 2%nat, s'. cbn in E, R |- *. rewrite E1. cbn. rewrite E. cbn. rewrite R, R1.
    by split_and!.
Qed.

(** A message that waits for the lock of [h], once [h] is completed. *)
Lemma admit_after_release y m ms a acks h hs :
  running y → waiting (ls_mod y) = m :: ms →
  dir_ack_f_DI_t_DC_in (ls_mod y) = a :: acks → ctrl_msg_w_f_DC_t_DC_in (ls_mod y) = h :: hs →
  bucket_of (dir_gblock_index h) = bucket_of (dir_gblock_index m) →
  reg_source_flag (ls_mod y) ≠ 0 →
  ∃ s', iter_step 2 dirCtrlHLS_from_net (ls_mod y) = Some s' ∧ waiting s' = ms ∧
    ctrl_msg_r_f_DC_t_DC_out s' = ctrl_msg_r_f_DC_t_DC_out (ls_mod y) ++ [unlock_pos m].
Proof.
  intros HR Hw Ha Hh Hb Hs. destruct HR as (HL & HC & Hi).
  destruct (release_cycle y HL Hi Hs) as (s1 & E1 & I1 & S1 & W1 & R1 & D1).
  rewrite Ha, Hh in D1. destruct D1 as (_ & _ & F1). rewrite Hb in F1.
  destruct (tick_running y s1 (conj HL (conj HC Hi)) E1 I1) as [HR1 _].
  destruct (admit_now (y <| ls_mod := s1 |>) m ms HR1 S1) as (s' & E & _ & W & _ & R);
    [cbn; by rewrite W1|done|].
  exists s'. cbn in E, R |- *. rewrite E1. cbn. rewrite E. cbn. rewrite R, R1.
  by split_and!.
Qed.

Lemma reduces_waiting y m ms :
  running y → holders y = [] → waiting (ls_mod y) = m :: ms → reduces y.
Proof.
  intros HR Hh Hw.
  assert (∀ y, running y → holders y = [] → waiting (ls_mod y) = m :: ms →
    reg_source_flag (ls_mod y) = 0 → reduces y) as Hnow.
  { clear y HR Hh Hw. intros y HR Hh Hw Hs.
    destruct (admit_now y m ms HR Hs Hw) as (s' & E & HR' & W & D & R).
    { destruct HR as (HL & _ & Hi). apply slot_free; try done.
      - apply bucket_of_range.
      - by rewrite Hh. }
    exists (y <| ls_mod := s' |>). split; [by apply rtc_once, lock_tick|]. split; [done|].
    unfold pending. cbn. rewrite W, D, R, Hw, length_app. cbn. lia. }
  destruct (decide (reg_source_flag (ls_mod y) = 0)) as [Hs|Hs]; [by apply Hnow|].
  destruct (release_now y HR Hs) as (s1 & E1 & HR1 & S1 & W1 & R1 & D1).
  unfold holders in Hh. apply app_nil in Hh as [Hr [Hbz Hd]%app_nil].
  rewrite Hd in D1. apply suffix_nil_inv in D1.
  destruct (Hnow (y <| ls_mod := s1 |>)) as (y2 & R2 & H2 & P2); try done.
  - unfold holders. cbn. by rewrite R1, Hr, Hbz, D1.
  - cbn. by rewrite W1.
  - exists y2. split; [|split; [done|]].
    + eapply rtc_l; [|exact R2]. by apply lock_tick.
    + revert P2. unfold pending. cbn. rewrite W1, R1, D1, Hd. lia.
Qed.

Lemma reduces_any y :
  running y → waiting (ls_mod y) ++ holders y ≠ [] → reduces y.
Proof.
  intros HR Hne. pose proof HR as (HL & HC & Hi).
  destruct (ctrl_msg_r_f_DC_t_DC_out (ls_mod y)) as [|m ms] eqn:Er;
    [destruct (ls_busy y) as [|m ms] eqn:Eb;
      [destruct (ctrl_msg_w_f_DC_t_DC_in (ls_mod y)) as [|m ms] eqn:Ew|]|].
  - assert (holders y = []) as Hh by (unfold holders; by rewrite Er, Eb, Ew).
    rewrite Hh, app_nil_r in Hne.
    destruct (waiting (ls_mod y)) as [|m ms] eqn:E; [done|]. by eapply reduces_waiting.
  - by eapply reduces_completed.
  - pose proof (lock_finish y [] m ms m Eb eq_refl eq_refl) as St.
    eexists. split; [by apply rtc_once|].
    destruct (step_preserves _ _ (conj HL HC) St) as [? ?].
    split; [done|]. unfold pending, push. cbn. rewrite Er, Eb, length_app. cbn.
    change (waiting (_ <| ctrl_msg_w_f_DC_t_DC_in := _ |>)) with (waiting (ls_mod y)). lia.
  - pose proof (lock_take y m ms Er) as St.
    eexists. split; [by apply rtc_once|].
    destruct (step_preserves _ _ (conj HL HC) St) as [? ?].
    split; [done|]. unfold pending, push. cbn. rewrite Er, length_app. cbn.
    change (waiting (_ <| ctrl_msg_r_f_DC_t_DC_out := _ |>)) with (waiting (ls_mod y)). lia.
Qed.

Lemma drains_running y :
  running y → ∃ y', rtc lock_step y y' ∧ waiting (ls_mod y') = [] ∧ holders y' = [].
Proof.
  remember (pending y) as n eqn:Hn. revert y Hn.
  induction (lt_wf n) as [n _ IH]. intros y -> HR.
  destruct (decide (waiting (ls_mod y) ++ holders y = [])) as [[? ?]%app_nil|Hne].
  - by exists y.
  - destruct (reduces_any y HR Hne) as (y1 & R1 & HR1 & P1).
    destruct (IH _ P1 y1 eq_refl HR1) as (y2 & R2 & H2).
    exists y2. split; [by transitivity y1|done].
Qed.

(** ** Initialisation records

    The entry written for [INIT_DIR] never took a lock, and its message carries
    the uninitialised [lock_position] of the local that [dirCtrlHLS_to_net] built
    it in; its completion reaches the release cycle all the same. *)
Definition init_done (junk : ctrl_msg) (i : Z) : ctrl_msg :=
  new_ctrl_msg junk <| mtype := INIT_DIR |> <| dir_gblock_index := i |>.

Definition ex_request (i : Z) : ctrl_msg :=
  ctrl_msg_zero <| mtype := R_READ_MISS |> <| dir_gblock_index := i |>.

(** Power-on, two requests for block 5 and one completed initialisation. *)
Definition ex_from_net (w : list ctrl_msg) : from_net :=
  mk_from_net 1 0 ctrl_msg_zero [] 0 [ex_request 5; ex_request 5] [] [] [mk_dir_ack 1] w 0 0.

(** After the reset cycle and the first admission. *)
Definition ex_locks : list (list Z) := default [] (slot_set init_locks 5 0 5).
Definition ex_admitted (w : list ctrl_msg) : from_net :=
  mk_from_net 0 0 ctrl_msg_zero ex_locks 1 [ex_request 5] [mk_dir_cmd 5]
    [ex_request 5] [mk_dir_ack 1] w 0 0.

Lemma ex_first_cycles w :
  iter_step 2 dirCtrlHLS_from_net (ex_from_net w) = Some (ex_admitted w).
Proof. by vm_compute. Qed.

Lemma ex_release_zero m :
  lock_position m = 0 → bucket_of (dir_gblock_index m) = bucket_of 5 →
  dirCtrlHLS_from_net (ex_admitted [m]) =
  Some (mk_from_net 0 0 ctrl_msg_zero init_locks 0 [ex_request 5] [mk_dir_cmd 5]
    [ex_request 5] [] [] 1 0).
Proof.
  intros Hp Hb. unfold dirCtrlHLS_from_net.
  change (reg_init_flag (ex_admitted [m])) with 0.
  change (reg_source_flag (ex_admitted [m])) with 1. cbn [Z.eqb negb]. unfold lock_release.
  cbn [ex_admitted dir_ack_f_DI_t_DC_in ctrl_msg_w_f_DC_t_DC_in set_field reg_gb_index_arr].
  rewrite Hp, Hb. by vm_compute.
Qed.

Lemma ex_release_other m :
  0 < lock_position m → bucket_of (dir_gblock_index m) = bucket_of 5 →
  dirCtrlHLS_from_net (ex_admitted [m]) = None.
Proof.
  intros Hp Hb. unfold dirCtrlHLS_from_net.
  change (reg_init_flag (ex_admitted [m])) with 0.
  change (reg_source_flag (ex_admitted [m])) with 1. cbn [Z.eqb negb]. unfold lock_release.
  cbn [ex_admitted dir_ack_f_DI_t_DC_in ctrl_msg_w_f_DC_t_DC_in set_field reg_gb_index_arr].
  unfold slot_set. rewrite Hb.
  change (arr_get ex_locks (bucket_of 5)) with (Some [5]). cbn [mbind option_bind].
  assert (arr_set [5] (lock_position m) FREE_SLOT = None) as ->; [|done].
  unfold arr_set. rewrite (proj2 (Z.ltb_ge (lock_position m) (Z.of_nat (length [5]))));
    [by rewrite andb_false_r|cbn; lia].
Qed.

(** ** Properties *)

(** C14: Mutual exclusion.  In every reachable state of the admission module and
    its environment, the messages that are between admission and release
    concern pairwise distinct blocks (and buckets), each sits in the slot its
    [lock_position] names, and the next cycle accesses the table in range. *)
Theorem lock_exclusive y :
  reachable lock_init lock_step y →
  NoDup (dir_gblock_index <$> holders y) ∧
  NoDup ((λ m, bucket_of (dir_gblock_index m)) <$> holders y) ∧
  (reg_init_flag (ls_mod y) = 0 → ∀ m, m ∈ holders y →
     slot_get (reg_gb_index_arr (ls_mod y)) (bucket_of (dir_gblock_index m))
       (lock_position m) = Some (dir_gblock_index m)) ∧
  ∃ s', dirCtrlHLS_from_net (ls_mod y) = Some s'.
Proof.
  intros [HL HC]%lock_reachable.
  assert (NoDup ((λ m, bucket_of (dir_gblock_index m)) <$> holders y)) as Hnd.
  { destruct (decide (reg_init_flag (ls_mod y) = 0)) as [H0|H0].
    - pose proof (li_buckets _ _ (lk_running _ HL H0)) as H. by rewrite <-list_fmap_compose in H.
    - rewrite (lk_starting _ HL H0). constructor. }
  split_and!; [|done| |].
  - rewrite (list_fmap_compose dir_gblock_index bucket_of) in Hnd. by apply NoDup_fmap_1 in Hnd.
  - intros H0 m Hm. pose proof (lk_pos _ HL) as Hp. rewrite Forall_forall in Hp.
    rewrite (Hp m Hm). pose proof (lk_running _ HL H0) as Hi.
    assert (dir_gblock_index m ∈ dir_gblock_index <$> holders y) as Hin
      by (by apply list_elem_of_fmap_2).
    destruct (li_slots _ _ Hi (bucket_of (dir_gblock_index m)) (bucket_of_range _))
      as [(i & Hi1 & Hi2 & Hi3)|[Hn _]].
    + assert (i = dir_gblock_index m) as E; [|by rewrite Hi3, E].
      apply list_elem_of_lookup in Hi1 as [k1 K1], Hin as [k2 K2].
      assert (k1 = k2) as <-; [|congruence].
      apply (NoDup_lookup (bucket_of <$> (dir_gblock_index <$> holders y)) k1 k2 (bucket_of i)).
      * exact (li_buckets _ _ Hi).
      * by rewrite list_lookup_fmap, K1.
      * rewrite list_lookup_fmap, K2. cbn. by rewrite Hi2.
    + exfalso. apply Hn. by apply list_elem_of_fmap_2.
  - destruct (tick_preserves y HL HC) as (s' & E & _). by exists s'.
Qed.

(** C19: No message is lost, duplicated or reordered at admission: the messages
    delivered by the network are, in order, those already admitted followed by
    the one in the retry register and the input queue (up to the lock position
    that admission assigns), and exactly one fetch of the entry has been issued
    for each admitted message, in the same order. *)
Theorem lock_fifo y :
  reachable lock_init lock_step y →
  unlock_pos <$> ls_received y =
    (ls_taken y ++ ctrl_msg_r_f_DC_t_DC_out (ls_mod y)) ++
    (unlock_pos <$> (retrying (ls_mod y) ++ ctrl_msg_f_D_t_DC_in (ls_mod y))) ∧
  dir_cmd_f_DC_t_DI_out (ls_mod y) =
    (λ m, mk_dir_cmd (dir_gblock_index m)) <$>
      (ls_taken y ++ ctrl_msg_r_f_DC_t_DC_out (ls_mod y)).
Proof. by intros [_ []]%lock_reachable. Qed.

(** C20: The waiting message is served: if no message of its bucket is in
    progress, it is admitted within two cycles; if the one in progress has been
    written back and acknowledged, within three. *)
Theorem lock_admits y m ms :
  reachable lock_init lock_step y → reg_init_flag (ls_mod y) = 0 →
  waiting (ls_mod y) = m :: ms →
  Forall (λ h, bucket_of (dir_gblock_index h) ≠ bucket_of (dir_gblock_index m)) (holders y) ∨
  (∃ a acks h hs, dir_ack_f_DI_t_DC_in (ls_mod y) = a :: acks ∧
     ctrl_msg_w_f_DC_t_DC_in (ls_mod y) = h :: hs ∧
     bucket_of (dir_gblock_index h) = bucket_of (dir_gblock_index m)) →
  ∃ k s', (k ≤ 3)%nat ∧ iter_step k dirCtrlHLS_from_net (ls_mod y) = Some s' ∧
    waiting s' = ms ∧
    ctrl_msg_r_f_DC_t_DC_out s' = ctrl_msg_r_f_DC_t_DC_out (ls_mod y) ++ [unlock_pos m].
Proof.
  intros [HL HC]%lock_reachable Hi Hw [Hf|(a & acks & h & hs & Ha & Hh & Hb)].
  - destruct (admit_when_free y m ms (conj HL (conj HC Hi)) Hw Hf) as (k & s' & ? & H).
    exists k, s'. split; [lia|done].
  - assert (running y) as HR by done.
    destruct (decide (reg_source_flag (ls_mod y) = 0)) as [Hs|Hs].
    + destruct (admit_cycle y HL Hi Hs) as (s1 & E & A & _).
      destruct (tick_running y s1 HR E (ad_init _ _ A)) as [HR1 _].
      destruct A as [_ S1 A1 D1 [[W1 R1]|(m' & W1 & R1)]].
      * destruct (admit_after_release (y <| ls_mod := s1 |>) m ms a acks h hs HR1)
          as (s' & E' & W' & R'); cbn; rewrite ?W1, ?A1, ?D1, ?S1; try done.
        exists 3%nat, s'. split; [done|]. cbn [iter_step]. rewrite E. cbn [mbind option_bind].
        cbn [ls_mod set_field] in R'. rewrite <-R1. by split_and!.
      * exists 1%nat, s1. cbn. rewrite E. rewrite Hw in W1. injection W1 as <- ->.
        split_and!; try done. lia.
    + destruct (admit_after_release y m ms a acks h hs HR Hw Ha Hh Hb Hs) as (s' & H).
      exists 2%nat, s'. split; [lia|done].
Qed.

(** No deadlock at admission: from every reachable state past the reset cycle
    some continuation admits every waiting message and releases every lock. *)
Theorem lock_drains y :
  reachable lock_init lock_step y → reg_init_flag (ls_mod y) = 0 →
  ∃ y', rtc lock_step y y' ∧ waiting (ls_mod y') = [] ∧ holders y' = [].
Proof. intros [HL HC]%lock_reachable Hi. by apply drains_running. Qed.

(** The completion of an initialisation releases a lock it does not hold: when
    its uninitialised [lock_position] happens to be 0, a completion for any block
    of bucket 5 lets a second request for block 5 in while the first is still in
    progress; when it is not 0, the table is accessed out of range. *)
Theorem init_completion_unlocks junk i :
  bucket_of i = bucket_of 5 → fits 8 (lock_position junk) →
  match iter_step 4 dirCtrlHLS_from_net (ex_from_net [init_done junk i]) with
  | Some s' => lock_position junk = 0 ∧
      dir_gblock_index <$> ctrl_msg_r_f_DC_t_DC_out s' = [5; 5]
  | None => lock_position junk ≠ 0
  end.
Proof.
  intros Hb [Hp _]. rewrite (iter_step_app 2 2), ex_first_cycles. cbn [mbind option_bind].
  cbn [iter_step]. destruct (decide (lock_position junk = 0)) as [E|E].
  - rewrite ex_release_zero by done. cbn [mbind option_bind].
    split; [done|]. by vm_compute.
  - rewrite ex_release_other; [done| |done].
    change (0 < lock_position junk). lia.
Qed.

(** ** Witnesses: the run that admits the first of two requests for block 5 *)
Definition ex_start : lock_sys :=
  mk_lock_sys (mk_from_net 1 0 ctrl_msg_zero [] 0 [] [] [] [] [] 0 0) [] [] [].

Definition ex_run : lock_sys :=
  mk_lock_sys (ex_admitted []) [ex_request 5; ex_request 5] [] [].

Lemma ex_indexed : indexed (ex_request 5).
Proof. done. Qed.

Lemma ex_start_init : lock_init ex_start.
Proof. by repeat split. Qed.

(** The acknowledgement of [ex_from_net] is memory's for an earlier write. *)
Lemma ex_run_reachable : reachable lock_init lock_step ex_run.
Proof.
  exists ex_start. split; [apply ex_start_init|].
  eapply rtc_l; [apply (lock_deliver _ (ex_request 5)), ex_indexed|].
  eapply rtc_l; [apply (lock_deliver _ (ex_request 5)), ex_indexed|].
  eapply rtc_l; [apply (lock_ack _ (mk_dir_ack 1))|].
  eapply rtc_l; [apply lock_tick; vm_compute; reflexivity|].
  eapply rtc_l; [apply lock_tick; vm_compute; reflexivity|].
  apply rtc_refl.
Qed.

Lemma lock_exclusive_witness :
  NoDup (dir_gblock_index <$> holders ex_run) ∧
  slot_get (reg_gb_index_arr (ls_mod ex_run)) (bucket_of 5) 0 = Some 5.
Proof.
  destruct (lock_exclusive ex_run ex_run_reachable) as (H1 & _ & H2 & _).
  split; [exact H1|]. apply (H2 eq_refl (ex_request 5)). by left.
Defined.

Lemma lock_fifo_witness :
  dir_cmd_f_DC_t_DI_out (ls_mod ex_run) = [mk_dir_cmd 5].
Proof. destruct (lock_fifo ex_run ex_run_reachable) as [_ H]. exact H. Defined.

Definition ex_freed : lock_sys :=
  mk_lock_sys (mk_from_net 0 0 ctrl_msg_zero init_locks 0 [ex_request 5] [] [] [] [] 0 0)
    [ex_request 5] [] [].

Lemma ex_freed_reachable : reachable lock_init lock_step ex_freed.
Proof.
  exists ex_start. split; [apply ex_start_init|].
  eapply rtc_l; [apply lock_tick; vm_compute; reflexivity|].
  eapply rtc_l; [apply (lock_deliver _ (ex_request 5)), ex_indexed|].
  apply rtc_refl.
Qed.

Lemma lock_admits_witness :
  ∃ k s', (k ≤ 3)%nat ∧ iter_step k dirCtrlHLS_from_net (ls_mod ex_freed) = Some s' ∧
    waiting s' = [] ∧ ctrl_msg_r_f_DC_t_DC_out s' = [ex_request 5].
Proof.
  apply (lock_admits ex_freed (ex_request 5) [] ex_freed_reachable eq_refl eq_refl).
  left. constructor.
Defined.

Lemma lock_drains_witness :
  ∃ y', rtc lock_step ex_run y' ∧ waiting (ls_mod y') = [] ∧ holders y' = [].
Proof. apply (lock_drains ex_run ex_run_reachable). done. Defined.

Lemma init_completion_unlocks_witness :
  match iter_step 4 dirCtrlHLS_from_net (ex_from_net [init_done ctrl_msg_zero 261]) with
  | Some s' => dir_gblock_index <$> ctrl_msg_r_f_DC_t_DC_out s' = [5; 5]
  | None => False
  end.
Proof.
  pose proof (init_completion_unlocks ctrl_msg_zero 261 eq_refl ltac:(done)) as H.
  destruct (iter_step 4 _ _) as [s'|]; [apply H|by apply H].
Defined.
