(* ===== verification/CacheCtrl.v ===== *)
(** * CacheCtrl: the cache controllers, [cache/cacheCtrlHLS_{from,to}_net.cpp]

    [cacheCtrlHLS_from_net] passes every message of the network to the host and
    answers the requests of a directory itself: an invalidation is acknowledged
    to the directory, a fetch of a dirty block is answered to the requester and,
    one cycle later, to the directory.  [cacheCtrlHLS_to_net] merges these
    answers with the host's messages, answers first. *)
From S2P Require Import Prelude DsmType Wire.
From stdpp Require Import base numbers option list list_numbers.
Open Scope Z_scope.

(** ** [cacheCtrlHLS_from_net] *)
Record cache_from_net := mk_cache_from_net {
  cf_reg_copy_flag : Z;
  cf_reg_copy_type : Z;
  cf_reg_ctrl_msg : ctrl_msg;
  ctrl_msg_f_D_t_CC_in : list ctrl_msg;
  ctrl_msg_f_CC_t_CMD_out : list ctrl_msg;
  ctrl_msg_f_CC_t_CC_out : list ctrl_msg;
}.
#[export] Instance eta_cache_from_net : Eta cache_from_net := fun s =>
  mk_cache_from_net (cf_reg_copy_flag s) (cf_reg_copy_type s) (cf_reg_ctrl_msg s)
    (ctrl_msg_f_D_t_CC_in s) (ctrl_msg_f_CC_t_CMD_out s) (ctrl_msg_f_CC_t_CC_out s).

(** [tmp_ctrl_msg.dst_thread_type = t; ctrl_msg_f_CC_t_CMD_out << tmp_ctrl_msg] *)
Definition to_host (t : Z) (m : ctrl_msg) (s : cache_from_net) : cache_from_net :=
  s <| ctrl_msg_f_CC_t_CMD_out :=
         push (ctrl_msg_f_CC_t_CMD_out s) (m <| dst_thread_type := t |>) |>.

(** [tmp_ctrl_msg.mtype = t; tmp_ctrl_msg.dst_node_id = dst; out << tmp_ctrl_msg] *)
Definition to_peer (t : RawMessageType) (dst : Z) (m : ctrl_msg) (s : cache_from_net)
    : cache_from_net :=
  s <| ctrl_msg_f_CC_t_CC_out :=
         push (ctrl_msg_f_CC_t_CC_out s) (m <| mtype := t |> <| dst_node_id := dst |>) |>.

(** [wire_copy_flag == 0] with the message [m] read. *)
Definition cache_receive (m : ctrl_msg) (s : cache_from_net) : cache_from_net :=
  let sys := m <| dst_thread_type := THREAD_TYPE_SYS |> in
  match mtype_of (mtype m) with
  | Some DIR_2_AGENT_WRITE_SHARED_NOTONLY =>
      to_peer AGENT_2_DIR_WRITE_SHARED_NOTONLY_ACK (dir_gblock_nodeID m) sys
        (to_host THREAD_TYPE_SYS m s)
  | Some DIR_2_AGENT_WRITE_MISS_SHARED =>
      to_peer AGENT_2_DIR_WRITE_MISS_SHARED_ACK (dir_gblock_nodeID m) sys
        (to_host THREAD_TYPE_SYS m s)
  | Some DIR_2_AGENT_READ_MISS_DIRTY =>
      to_peer AGENT_2_APP_READ_MISS_DIRTY_ACKDATA (req_cline_nodeID m) sys
        ((to_host THREAD_TYPE_SYS m s)
           <| cf_reg_ctrl_msg := sys |> <| cf_reg_copy_flag := 1 |>)
  | Some DIR_2_AGENT_WRITE_MISS_DIRTY =>
      to_peer AGENT_2_APP_WRITE_MISS_DIRTY_ACKDATA (req_cline_nodeID m) sys
        ((to_host THREAD_TYPE_SYS m s)
           <| cf_reg_ctrl_msg := sys |> <| cf_reg_copy_flag := 1 |>)
  | _ => to_host THREAD_TYPE_APP m s
  end.

(** [wire_copy_flag != 0]. *)
Definition cache_copy (s : cache_from_net) : cache_from_net :=
  let m := cf_reg_ctrl_msg s in
  match mtype_of (mtype m) with
  | Some DIR_2_AGENT_READ_MISS_DIRTY =>
      (to_peer AGENT_2_DIR_READ_MISS_DIRTY_ACKDATA (dir_gblock_nodeID m) m s)
        <| cf_reg_copy_flag := 0 |>
  | Some DIR_2_AGENT_WRITE_MISS_DIRTY =>
      (to_peer AGENT_2_DIR_WRITE_MISS_DIRTY_ACK (dir_gblock_nodeID m) m s)
        <| cf_reg_copy_flag := 0 |>
  | _ => s
  end.

(** One call of [cacheCtrlHLS_from_net]. *)
Definition cacheCtrlHLS_from_net (s : cache_from_net) : cache_from_net :=
  if cf_reg_copy_flag s =? 0 then
    match ctrl_msg_f_D_t_CC_in s with
    | m :: ms => cache_receive m (s <| ctrl_msg_f_D_t_CC_in := ms |>)
    | [] => s
    end
  else cache_copy s.

(** ** [cacheCtrlHLS_to_net] *)
Record cache_to_net := mk_cache_to_net {
  ctrl_msg_f_CMD_t_CC_in : list ctrl_msg;
  ctrl_msg_f_CC_t_CC_in : list ctrl_msg;
  ctrl_msg_f_CC_t_CMC_out : list ctrl_msg;
}.

Definition cacheCtrlHLS_to_net (s : cache_to_net) : cache_to_net :=
  match ctrl_msg_f_CC_t_CC_in s, ctrl_msg_f_CMD_t_CC_in s with
  | m :: ms, cmd => mk_cache_to_net cmd ms (push (ctrl_msg_f_CC_t_CMC_out s) m)
  | [], m :: ms =>
      mk_cache_to_net ms []
        (push (ctrl_msg_f_CC_t_CMC_out s) (m <| dst_node_id := dir_gblock_nodeID m |>))
  | [], [] => s
  end.

(** ** Specification: what one message of the network causes *)

(** The copy handed to the host. *)
Definition host_copy (m : ctrl_msg) : ctrl_msg :=
  m <| dst_thread_type :=
    match mtype_of (mtype m) with
    | Some (DIR_2_AGENT_WRITE_SHARED_NOTONLY | DIR_2_AGENT_WRITE_MISS_SHARED
           | DIR_2_AGENT_READ_MISS_DIRTY | DIR_2_AGENT_WRITE_MISS_DIRTY) => THREAD_TYPE_SYS
    | _ => THREAD_TYPE_APP
    end |>.

(** An answer of type [t] to node [dst]. *)
Definition answer_to (t : RawMessageType) (dst : Z) (m : ctrl_msg) : ctrl_msg :=
  m <| dst_thread_type := THREAD_TYPE_SYS |> <| mtype := t |> <| dst_node_id := dst |>.

Definition agent_replies (m : ctrl_msg) : list ctrl_msg :=
  match mtype_of (mtype m) with
  | Some DIR_2_AGENT_WRITE_SHARED_NOTONLY =>
      [answer_to AGENT_2_DIR_WRITE_SHARED_NOTONLY_ACK (dir_gblock_nodeID m) m]
  | Some DIR_2_AGENT_WRITE_MISS_SHARED =>
      [answer_to AGENT_2_DIR_WRITE_MISS_SHARED_ACK (dir_gblock_nodeID m) m]
  | Some DIR_2_AGENT_READ_MISS_DIRTY =>
      [answer_to AGENT_2_APP_READ_MISS_DIRTY_ACKDATA (req_cline_nodeID m) m;
       answer_to AGENT_2_DIR_READ_MISS_DIRTY_ACKDATA (dir_gblock_nodeID m) m]
  | Some DIR_2_AGENT_WRITE_MISS_DIRTY =>
      [answer_to AGENT_2_APP_WRITE_MISS_DIRTY_ACKDATA (req_cline_nodeID m) m;
       answer_to AGENT_2_DIR_WRITE_MISS_DIRTY_ACK (dir_gblock_nodeID m) m]
  | _ => []
  end.

(** Cycles a message occupies. *)
Definition cycles (m : ctrl_msg) : nat := Nat.max 1 (length (agent_replies m)).

(** ** Lemmas *)

(** One message, from and to the idle state. *)
Lemma cache_message m ms reg ty cmd cc :
  ∃ reg', Nat.iter (cycles m) cacheCtrlHLS_from_net
      (mk_cache_from_net 0 ty reg (m :: ms) cmd cc) =
    mk_cache_from_net 0 ty reg' ms (cmd ++ [host_copy m]) (cc ++ agent_replies m).
Proof.
  unfold cycles, agent_replies, host_copy.
  destruct (mtype_of (mtype m)) as [t|] eqn:E; [destruct t|];
    cbn [length Nat.max Nat.iter nat_rect];
    unfold cacheCtrlHLS_from_net; cbn [cf_reg_copy_flag Z.eqb ctrl_msg_f_D_t_CC_in];
    unfold cache_receive; rewrite E; cbn -[mtype_of];
    unfold cache_copy; cbn -[mtype_of]; rewrite ?E; unfold to_peer, to_host, push;
    cbn -[mtype_of];
    eexists; rewrite ?app_nil_r, <-?(assoc_L (++)); reflexivity.
Qed.

Lemma cache_messages ms reg ty cmd cc :
  ∃ reg', Nat.iter (sum_list_with cycles ms) cacheCtrlHLS_from_net
      (mk_cache_from_net 0 ty reg ms cmd cc) =
    mk_cache_from_net 0 ty reg' [] (cmd ++ (host_copy <$> ms)) (cc ++ (ms ≫= agent_replies)).
Proof.
  revert reg cmd cc. induction ms as [|m ms IH]; intros reg cmd cc.
  - exists reg. cbn. by rewrite !app_nil_r.
  - destruct (cache_message m ms reg ty cmd cc) as [reg1 E1].
    destruct (IH reg1 (cmd ++ [host_copy m]) (cc ++ agent_replies m)) as [reg2 E2].
    exists reg2. cbn [sum_list_with]. rewrite Nat.add_comm, Nat.iter_add, E1, E2.
    by rewrite fmap_cons, bind_cons, <-!(assoc_L (++)).
Qed.

Lemma cache_merge cmd cc out :
  Nat.iter (length cc + length cmd) cacheCtrlHLS_to_net (mk_cache_to_net cmd cc out) =
  mk_cache_to_net [] [] (out ++ cc ++
    ((λ m, m <| dst_node_id := dir_gblock_nodeID m |>) <$> cmd)).
Proof.
  revert out. induction cc as [|m cc IH]; intros out.
  - cbn [length Nat.add]. revert out. induction cmd as [|m cmd IH]; intros out.
    + cbn. by rewrite app_nil_r.
    + cbn [length]. rewrite Nat.iter_succ_r.
      cbn [cacheCtrlHLS_to_net ctrl_msg_f_CC_t_CC_in ctrl_msg_f_CMD_t_CC_in
        ctrl_msg_f_CC_t_CMC_out].
      rewrite IH. unfold push. by rewrite <-(assoc_L (++)).
  - cbn [length Nat.add]. rewrite Nat.iter_succ_r.
    cbn [cacheCtrlHLS_to_net ctrl_msg_f_CC_t_CC_in ctrl_msg_f_CMD_t_CC_in
      ctrl_msg_f_CC_t_CMC_out].
    rewrite IH. unfold push. by rewrite <-(assoc_L (++)).
Qed.

(** The acknowledgement the directory expects for a request it sent to an agent. *)
Definition ack_of (t : RawMessageType) : option RawMessageType :=
  match t with
  | DIR_2_AGENT_READ_MISS_DIRTY => Some AGENT_2_DIR_READ_MISS_DIRTY_ACKDATA
  | DIR_2_AGENT_WRITE_MISS_DIRTY => Some AGENT_2_DIR_WRITE_MISS_DIRTY_ACK
  | DIR_2_AGENT_WRITE_MISS_SHARED => Some AGENT_2_DIR_WRITE_MISS_SHARED_ACK
  | DIR_2_AGENT_WRITE_SHARED_NOTONLY => Some AGENT_2_DIR_WRITE_SHARED_NOTONLY_ACK
  | _ => None
  end.

(** [r] answers [m] with type [t]: same transaction, sent to the home node. *)
Definition acknowledges (t : RawMessageType) (m r : ctrl_msg) : Prop :=
  mtype r = t ∧ dst_node_id r = dir_gblock_nodeID m ∧
  dir_gblock_index r = dir_gblock_index m ∧ req_cline_nodeID r = req_cline_nodeID m ∧
  req_cline_addr r = req_cline_addr m ∧ agent_cline_nodeID r = agent_cline_nodeID m ∧
  dir_gblock_nodeID r = dir_gblock_nodeID m.

(** ** Properties *)

(** The cache controller handles any queue of network messages to the end
    from its idle state: after one or two cycles per message it is idle with an
    empty queue, the host has received every message once and in order, marked
    for the thread that serves it, and the answers have been sent in order. *)
Theorem cache_serves_all ms reg ty cmd cc :
  ∃ reg', Nat.iter (sum_list_with cycles ms) cacheCtrlHLS_from_net
      (mk_cache_from_net 0 ty reg ms cmd cc) =
    mk_cache_from_net 0 ty reg' [] (cmd ++ (host_copy <$> ms)) (cc ++ (ms ≫= agent_replies)).
Proof. apply cache_messages. Qed.

(** Every request of a directory to an agent is acknowledged exactly once: a
    request of type [t] makes the controller send one message of the type that
    acknowledges [t], to the home node and for the same transaction, before it
    reads the next message; a fetch of a dirty block also answers the requester;
    any other message is answered by nothing. *)
Theorem agent_acknowledges m (t : RawMessageType) ms reg ty cmd cc :
  mtype m = t →
  ∃ k reg' l, (k ≤ 2)%nat ∧
    Nat.iter k cacheCtrlHLS_from_net (mk_cache_from_net 0 ty reg (m :: ms) cmd cc) =
      mk_cache_from_net 0 ty reg' ms (cmd ++ [host_copy m]) (cc ++ l) ∧
    match ack_of t with
    | Some a => ∃ r l1, l = l1 ++ [r] ∧ acknowledges a m r ∧
        Forall (λ x, dst_node_id x = req_cline_nodeID m ∧
                     (mtype x = AGENT_2_APP_READ_MISS_DIRTY_ACKDATA ∨
                      mtype x = AGENT_2_APP_WRITE_MISS_DIRTY_ACKDATA)) l1
    | None => l = []
    end.
Proof.
  intros Ht. destruct (cache_message m ms reg ty cmd cc) as [reg' E].
  exists (cycles m), reg', (agent_replies m). split_and!; [|done|].
  - unfold cycles, agent_replies. rewrite Ht, mtype_of_val. by destruct t; cbn; lia.
  - unfold agent_replies. rewrite Ht, mtype_of_val. destruct t; cbn [ack_of]; try done.
    all: first [ eexists _, []; split; [reflexivity|]
               | eexists _, [_]; split; [reflexivity|] ];
      (split; [done|]);
      repeat (apply Forall_cons; split; [split; [done|first [by left | by right]]|]);
      by apply Forall_nil.
Qed.

(** The merge towards the network loses nothing and prefers answers: with
    [cc] answers and [cmd] host messages queued, the answers leave first, then
    the host's messages, each addressed to the home node of its block. *)
Theorem cache_merges cmd cc out :
  Nat.iter (length cc + length cmd) cacheCtrlHLS_to_net (mk_cache_to_net cmd cc out) =
  mk_cache_to_net [] [] (out ++ cc ++
    ((λ m, m <| dst_node_id := dir_gblock_nodeID m |>) <$> cmd)).
Proof. apply cache_merge. Qed.

(** ** Witness *)
Lemma agent_acknowledges_witness :
  let m := ctrl_msg_zero <| mtype := DIR_2_AGENT_WRITE_MISS_SHARED |> in
  ∃ k l r, ctrl_msg_f_CC_t_CC_out (Nat.iter k cacheCtrlHLS_from_net
      (mk_cache_from_net 0 0 ctrl_msg_zero [m] [] [])) = l ++ [r] ∧
    mtype r = AGENT_2_DIR_WRITE_MISS_SHARED_ACK.
Proof.
  intros m. destruct (agent_acknowledges m DIR_2_AGENT_WRITE_MISS_SHARED [] ctrl_msg_zero 0
    [] [] eq_refl) as (k & reg' & l & _ & E & r & l1 & -> & H & F).
  exists k, l1, r. rewrite E. split; [done|apply H].
Defined.
