(* ===== verification/Coherence.v ===== *)
(** * Coherence: the protocol of one block

    The directory handler ([Directory.dir_handle]), the cache controller's
    answers ([CacheCtrl.agent_replies]) and the delivery of the network
    ([Wire.net_carried]) are composed into one transition system: the entry of a
    block and the messages in flight about it.  Any node may send any request at
    any time and messages are delivered in any order; [DirLock] is what makes
    each message processed against the entry as one step.  The abstract protocol
    is a state machine of eight phases, and the composed system implements it. *)
From S2P Require Import Prelude DsmType Wire Directory CacheCtrl.
From stdpp Require Import base numbers option list list_numbers gmap relations.
Open Scope Z_scope.

(** ** The composed system *)
Record cstate := mk_cstate {
  c_dir : dir_data_e;
  c_net : list ctrl_msg;
}.

Definition is_request (t : RawMessageType) : bool :=
  match t with
  | R_READ_MISS | R_WRITE_MISS | R_WRITE_SHARED | R_EVICT_SHARED | R_EVICT_DIRTY => true
  | _ => false
  end.

(** Requests of the directory to an agent. *)
Definition is_probe (t : RawMessageType) : bool := bool_decide (is_Some (ack_of t)).

Definition is_ack (t : RawMessageType) : bool :=
  match t with
  | AGENT_2_DIR_READ_MISS_DIRTY_ACKDATA | AGENT_2_DIR_WRITE_MISS_DIRTY_ACK
  | AGENT_2_DIR_WRITE_MISS_SHARED_ACK | AGENT_2_DIR_WRITE_SHARED_NOTONLY_ACK => true
  | _ => false
  end.

(** The messages one directory step puts in flight. *)
Definition dir_emits (r : dir_result) : list ctrl_msg :=
  r_send r ++ match r_copy r with Some (cm, cd) => fanout cm cd | None => [] end.

(** Delivery of one message of the network, wherever it is in the list. *)
Inductive c_deliver : cstate → cstate → Prop :=
| c_directory d n1 m n2 m0 (t : RawMessageType) r :
    mtype m = t → is_request t || is_ack t = true →
    dir_handle (net_carried m m0) d = Some r →
    c_deliver (mk_cstate d (n1 ++ m :: n2)) (mk_cstate (r_dir r) (n1 ++ n2 ++ dir_emits r))
| c_agent d n1 m n2 m0 (t : RawMessageType) :
    mtype m = t → is_probe t = true →
    c_deliver (mk_cstate d (n1 ++ m :: n2))
              (mk_cstate d (n1 ++ n2 ++ agent_replies (net_carried m m0)))
| c_application d n1 m n2 (t : RawMessageType) :
    mtype m = t → is_request t || is_probe t || is_ack t = false →
    c_deliver (mk_cstate d (n1 ++ m :: n2)) (mk_cstate d (n1 ++ n2)).

Inductive c_step : cstate → cstate → Prop :=
| c_request d net m (t : RawMessageType) :
    mtype m = t → is_request t = true → 0 ≤ req_cline_nodeID m < 8 →
    c_step (mk_cstate d net) (mk_cstate d (net ++ [m]))
| c_delivery s s' : c_deliver s s' → c_step s s'.

(** A block nobody holds and nobody asks for. *)
Definition c_init (s : cstate) : Prop :=
  entry_rel (c_dir s) (mk_aentry S_UNSHARED ∅ 0) ∧ c_net s = [].

(** ** The abstract protocol *)
Inductive phase :=
| PUnshared
| PShared (s : gset Z)
| PDirty (o : Z)
| PFetch (o r : Z)                 (* [r] reads a block dirty at [o] *)
| PSteal (o r : Z)                 (* [r] writes a block dirty at [o] *)
| PInval (upgrade acked : bool) (r : Z) (pend : gset Z).
                                   (* [pend] still have to be invalidated for [r] *)

Definition entry_of (p : phase) : aentry :=
  match p with
  | PUnshared => mk_aentry S_UNSHARED ∅ 0
  | PShared s => mk_aentry S_SHARED s (Z.of_nat (size s))
  | PDirty o => mk_aentry S_DIRTY {[o]} 1
  | PFetch o _ => mk_aentry S_TO_SHARED {[o]} 1
  | PSteal o _ => mk_aentry S_TO_DIRTY {[o]} 1
  | PInval upgrade acked r pend =>
      mk_aentry S_TO_DIRTY ((if upgrade || acked then {[r]} else ∅) ∪ pend)
        (Z.of_nat (size pend) + if upgrade then 1 else 0)
  end.

Definition phase_wf (p : phase) : Prop :=
  match p with
  | PShared s => s ≠ ∅
  | PFetch o r | PSteal o r => o ≠ r
  | PInval _ _ r pend => r ∉ pend ∧ pend ≠ ∅
  | _ => True
  end.

(** A request of type [t] from node [r]; one that the phase does not allow is
    refused and changes nothing. *)
Definition p_request (t : RawMessageType) (r : Z) (p : phase) : phase :=
  match t, p with
  | R_READ_MISS, PUnshared => PShared {[r]}
  | R_READ_MISS, PShared s => if decide (r ∈ s) then p else PShared ({[r]} ∪ s)
  | R_READ_MISS, PDirty o => if decide (r = o) then p else PFetch o r
  | R_WRITE_MISS, PUnshared => PDirty r
  | R_WRITE_MISS, PShared s => if decide (r ∈ s) then p else PInval false false r s
  | R_WRITE_MISS, PDirty o => if decide (r = o) then p else PSteal o r
  | R_WRITE_SHARED, PShared s =>
      if decide (r ∈ s) then
        if decide (s = {[r]}) then PDirty r else PInval true false r (s ∖ {[r]})
      else p
  | R_EVICT_SHARED, PShared s =>
      if decide (r ∈ s) then
        if decide (s = {[r]}) then PUnshared else PShared (s ∖ {[r]})
      else p
  | R_EVICT_DIRTY, PDirty o => if decide (r = o) then PUnshared else p
  | _, _ => p
  end.

(** The acknowledgement of node [n]. *)
Definition p_ack (n : Z) (p : phase) : phase :=
  match p with
  | PFetch o r => PShared ({[r]} ∪ {[o]})
  | PSteal _ r => PDirty r
  | PInval upgrade _ r pend =>
      if decide (pend = {[n]}) then PDirty r else PInval upgrade true r (pend ∖ {[n]})
  | _ => p
  end.

(** What a phase waits for: probes of one type, or their acknowledgements, on
    behalf of one requester, one for each of a set of nodes. *)
Record wait := mk_wait {
  w_probe : RawMessageType;
  w_ack : RawMessageType;
  w_for : Z;
  w_pend : gset Z;
}.

Definition wait_of (p : phase) : wait :=
  match p with
  | PFetch o r =>
      mk_wait DIR_2_AGENT_READ_MISS_DIRTY AGENT_2_DIR_READ_MISS_DIRTY_ACKDATA r {[o]}
  | PSteal o r =>
      mk_wait DIR_2_AGENT_WRITE_MISS_DIRTY AGENT_2_DIR_WRITE_MISS_DIRTY_ACK r {[o]}
  | PInval false _ r pend =>
      mk_wait DIR_2_AGENT_WRITE_MISS_SHARED AGENT_2_DIR_WRITE_MISS_SHARED_ACK r pend
  | PInval true _ r pend =>
      mk_wait DIR_2_AGENT_WRITE_SHARED_NOTONLY AGENT_2_DIR_WRITE_SHARED_NOTONLY_ACK r pend
  | _ => mk_wait INIT_DIR INIT_DIR 0 ∅
  end.

(** One step of the abstract protocol. *)
Inductive p_step : phase → phase → Prop :=
| p_step_request t r p : 0 ≤ r < 8 → p_step p (p_request t r p)
| p_step_ack n p : n ∈ w_pend (wait_of p) → p_step p (p_ack n p).

(** ** The refinement relation *)

(** Type, requester and agent of the probes and acknowledgements in flight. *)
Definition is_key (t : RawMessageType) : bool := is_probe t || is_ack t.

Definition key : Type := RawMessageType * Z * Z.

Definition key_of (m : ctrl_msg) : option key :=
  match mtype_of (mtype m) with
  | Some t => if is_key t then Some (t, req_cline_nodeID m, agent_cline_nodeID m) else None
  | None => None
  end.

Definition keys (net : list ctrl_msg) : list key := omap key_of net.

Record keys_ok (w : wait) (K : list key) : Prop := {
  ko_each : Forall (λ k, (k.1.1 = w_probe w ∨ k.1.1 = w_ack w) ∧ k.1.2 = w_for w) K;
  ko_once : NoDup K.*2;
  ko_all : ∀ n, n ∈ K.*2 ↔ n ∈ w_pend w;
}.

(** Every message has a type, and node numbers in range. *)
Definition msg_ok (m : ctrl_msg) : Prop :=
  0 ≤ req_cline_nodeID m < 8 ∧ is_Some (mtype_of (mtype m)) ∧
  (is_Some (key_of m) → 0 ≤ agent_cline_nodeID m < 8).

Record coherent (s : cstate) (p : phase) : Prop := {
  co_entry : entry_rel (c_dir s) (entry_of p);
  co_wf : phase_wf p;
  co_keys : keys_ok (wait_of p) (keys (c_net s));
  co_net : Forall msg_ok (c_net s);
}.

(** ** Lemmas on keys *)
Lemma keys_ok_perm w K K' : K ≡ₚ K' → keys_ok w K → keys_ok w K'.
Proof.
  intros Hp [H1 H2 H3]. split.
  - by rewrite <-Hp.
  - by rewrite <-(fmap_Permutation snd _ _ Hp).
  - intros n. rewrite <-H3. by rewrite (fmap_Permutation snd _ _ Hp).
Qed.

Lemma keys_ok_nil w : w_pend w = ∅ → keys_ok w [].
Proof. intros E. split; [done|constructor|]. intros n. rewrite E. set_solver. Qed.

Lemma keys_ok_empty w K : keys_ok w K → w_pend w = ∅ → K = [].
Proof.
  intros [_ _ H3] E. destruct K as [|k K]; [done|]. exfalso.
  assert (k.2 ∈ w_pend w) as Hk by (apply H3; left). by rewrite E in Hk.
Qed.

Lemma keys_ok_none w : keys_ok w [] → w_pend w = ∅.
Proof.
  intros [_ _ H3]. apply elem_of_equiv_empty_L. intros n Hn%H3. by apply not_elem_of_nil in Hn.
Qed.

Lemma keys_ok_cons w k K :
  keys_ok w (k :: K) →
  (k.1.1 = w_probe w ∨ k.1.1 = w_ack w) ∧ k.1.2 = w_for w ∧ k.2 ∈ w_pend w ∧
  keys_ok (mk_wait (w_probe w) (w_ack w) (w_for w) (w_pend w ∖ {[k.2]})) K.
Proof.
  intros [[[H0 H0'] H1]%Forall_cons H2 H3]. rewrite fmap_cons in H2, H3.
  apply NoDup_cons in H2 as [Hn H2].
  split_and!; [done|done|apply H3; by left|]. split; cbn; [done|done|].
  intros n. specialize (H3 n). rewrite elem_of_cons in H3.
  rewrite elem_of_difference, elem_of_singleton. split.
  - intros Hin. split; [tauto|]. intros ->. done.
  - intros [? ?]. tauto.
Qed.

Lemma keys_app l1 l2 : keys (l1 ++ l2) = keys l1 ++ keys l2.
Proof. apply omap_app. Qed.

Lemma keys_middle l1 m l2 l3 :
  keys (l1 ++ l2 ++ l3) ≡ₚ keys (l1 ++ l2) ++ keys l3 ∧
  keys (l1 ++ m :: l2) ≡ₚ keys [m] ++ keys (l1 ++ l2).
Proof.
  split.
  - by rewrite (assoc_L (++)), !keys_app.
  - rewrite !keys_app. change (keys (m :: l2)) with (keys ([m] ++ l2)). rewrite keys_app.
    by rewrite (assoc_L (++)), (Permutation_app_comm (keys l1)), <-(assoc_L (++)).
Qed.

(** ** The specification of the handler, by phase *)
Lemma size_add (s : gset Z) r : r ∉ s → Z.of_nat (size ({[r]} ∪ s)) = Z.of_nat (size s) + 1.
Proof. intros. rewrite size_union by set_solver. rewrite size_singleton. lia. Qed.

Lemma size_del (s : gset Z) r : r ∈ s → Z.of_nat (size (s ∖ {[r]})) = Z.of_nat (size s) - 1.
Proof.
  intros Hr. pose proof (size_add (s ∖ {[r]}) r ltac:(set_solver)) as Hs.
  rewrite <-union_difference_singleton_L in Hs by done. lia.
Qed.

Lemma size_one (s : gset Z) r : r ∈ s → Z.of_nat (size s) = 1 → s = {[r]}.
Proof.
  intros Hr Hs. destruct (size_1_elem_of s ltac:(lia)) as [x Hx].
  apply leibniz_equiv in Hx. set_solver.
Qed.

Lemma del_nonempty (s : gset Z) r : r ∈ s → s ≠ {[r]} → s ∖ {[r]} ≠ ∅.
Proof.
  intros Hr Hn E. apply Hn. rewrite (union_difference_singleton_L r s Hr), E. set_solver.
Qed.

Lemma size_pos (s : gset Z) r : r ∈ s → 1 ≤ Z.of_nat (size s).
Proof.
  intros Hr. assert (size s ≠ 0%nat); [|lia]. intros E%size_empty_inv. set_solver.
Qed.

(** An answer that is neither a probe, nor an acknowledgement, nor a request. *)
Definition quiet (a : answer) : Prop :=
  match a with
  | ToApp t => is_key t || is_request t = false
  | ToOwner _ _ => False
  | NoAnswer => True
  end.

(** What a request's answer and fan-out must contain for the phase [p'] it leads
    to, from a phase that waited for nothing. *)
Definition opens (t : RawMessageType) (r : Z) (s : gset Z) (a : answer) (inval : bool)
    (p' : phase) : Prop :=
  match a with
  | ToOwner t' o =>
      inval = false ∧ t' = w_probe (wait_of p') ∧ r = w_for (wait_of p') ∧
      w_pend (wait_of p') = {[o]} ∧ o ∈ s
  | _ =>
      quiet a ∧
      if inval then
        (t = R_WRITE_MISS ∧ r ∉ s ∧ w_probe (wait_of p') = DIR_2_AGENT_WRITE_MISS_SHARED ∨
         t = R_WRITE_SHARED ∧ w_probe (wait_of p') = DIR_2_AGENT_WRITE_SHARED_NOTONLY) ∧
        r = w_for (wait_of p') ∧ w_pend (wait_of p') = s ∖ {[r]}
      else w_pend (wait_of p') = ∅
  end.

Lemma same_outcome (e1 e2 : aentry) (a : answer) (i : bool) :
  e1 = e2 → (e1, a, i) = (e2, a, i).
Proof. by intros ->. Qed.

(** The count of a phase's entry is an 8-bit value. *)
Lemma wrap8_small x : 0 ≤ x ≤ 9 → wrap 8 x = x.
Proof. intros. apply wrap_small. unfold fits. lia. Qed.

Lemma spec_request p t r ag o :
  phase_wf p → is_request t = true → (size (a_sharers (entry_of p)) ≤ 8)%nat →
  (∀ o', p = PDirty o' → o = o') →
  ∃ a inval, dir_spec t r ag o (entry_of p) = (entry_of (p_request t r p), a, inval) ∧
    phase_wf (p_request t r p) ∧
    (p_request t r p = p ∧ inval = false ∧ quiet a ∨
     w_pend (wait_of p) = ∅ ∧
     opens t r (a_sharers (entry_of p)) a inval (p_request t r p)).
Proof.
  intros Hwf Ht Hsz Ho. unfold dir_spec.
  destruct p as [|s|o'|o' r'|o' r'|up ak r' pend]; cbn [entry_of a_state a_sharers a_count].
  - (* unshared *)
    rewrite bool_decide_eq_false_2 by set_solver.
    destruct t; try done; cbn [negb p_request];
      eexists _, _; (split; [apply same_outcome; try done|]).
    + cbn [entry_of]. rewrite size_singleton. cbn. f_equal. set_solver.
    + split; [cbn; set_solver|]. by right.
    + cbn. f_equal. set_solver.
    + split; [done|]. by right.
    + split; [done|]. by left.
    + split; [done|]. by left.
    + split; [done|]. by left.
  - (* shared *)
    assert (r ∈ s → s ≠ {[r]} → 1 < Z.of_nat (size s)) as Hmany.
    { intros Hr Hn. pose proof (size_pos s r Hr).
      destruct (decide (Z.of_nat (size s) = 1)) as [E|]; [|lia]. by apply (size_one s r Hr) in E. }
    cbn [a_sharers entry_of] in Hsz.
    destruct (decide (r ∈ s)) as [Hr|Hr];
      [rewrite bool_decide_eq_true_2 by done|rewrite bool_decide_eq_false_2 by done];
      destruct t; try done; cbn [negb p_request];
      rewrite ?(decide_True (P := r ∈ s)), ?(decide_False (P := r ∈ s)) by done;
      try (eexists _, _; split; [reflexivity|]; split; [done|by left]).
    + (* upgrade *) case_decide as Hs.
      * rewrite Hs, size_singleton. eexists _, _. split; [apply same_outcome|].
        { cbn. f_equal. set_solver. }
        split; [done|]. by right.
      * rewrite (proj2 (Z.ltb_lt _ _)) by auto. eexists _, _. split; [apply same_outcome|].
        { cbn [entry_of orb]. rewrite <-union_difference_singleton_L, size_del by done.
          f_equal. lia. }
        split; [split; [set_solver|by apply del_nonempty]|]. right. split; [done|].
        split; [done|]. split; [by right|done].
    + (* eviction *) pose proof (size_pos s r Hr). rewrite wrap8_small by lia.
      case_decide as Hs.
      * rewrite Hs, size_singleton. eexists _, _. split; [apply same_outcome|].
        { cbn. f_equal. set_solver. }
        split; [done|]. by right.
      * rewrite (proj2 (Z.eqb_neq (Z.of_nat (size s)) 1)) by (specialize (Hmany Hr Hs); lia).
        eexists _, _. split; [apply same_outcome|].
        { cbn [entry_of]. by rewrite size_del. }
        split; [by apply del_nonempty|]. by right.
    + (* read *) rewrite wrap8_small by lia. eexists _, _. split; [apply same_outcome|].
      { cbn [entry_of]. by rewrite size_add. }
      split; [cbn; set_solver|]. by right.
    + (* write *) eexists _, _. split; [apply same_outcome|].
      { cbn [entry_of orb]. rewrite (left_id_L ∅ (∪)), Z.add_0_r. done. }
      split; [done|]. right. split; [done|]. cbn. split; [done|].
      split; [by left|]. split; [done|set_solver].
  - (* dirty *)
    rewrite (Ho o' eq_refl).
    destruct (decide (r = o')) as [->|Hr];
      [rewrite bool_decide_eq_true_2 by set_solver|rewrite bool_decide_eq_false_2 by set_solver];
      destruct t; try done; cbn [negb p_request];
      rewrite ?(decide_True (P := o' = o')), ?(decide_False (P := r = o')) by done;
      try (eexists _, _; split; [reflexivity|]; split; [done|by left]).
    + eexists _, _. split; [apply same_outcome|].
      { cbn. f_equal. set_solver. }
      split; [done|]. by right.
    + eexists _, _. split; [reflexivity|]. split; [by apply not_eq_sym|]. right. split; [done|].
      cbn. split_and!; try done. set_solver.
    + eexists _, _. split; [reflexivity|]. split; [by apply not_eq_sym|]. right. split; [done|].
      cbn. split_and!; try done. set_solver.
  - destruct t; try done; eexists _, _; (split; [reflexivity|]); (split; [done|]); by left.
  - destruct t; try done; eexists _, _; (split; [reflexivity|]); (split; [done|]); by left.
  - destruct t; try done; eexists _, _; (split; [reflexivity|]); (split; [done|]); by left.
Qed.

(** The wait of a phase without the node [n]. *)
Definition wait_less (n : Z) (w : wait) : wait :=
  mk_wait (w_probe w) (w_ack w) (w_for w) (w_pend w ∖ {[n]}).

Lemma spec_ack p t n o :
  phase_wf p → (size (a_sharers (entry_of p)) ≤ 8)%nat →
  t = w_ack (wait_of p) → n ∈ w_pend (wait_of p) →
  ∃ a, dir_spec t (w_for (wait_of p)) n o (entry_of p) = (entry_of (p_ack n p), a, false) ∧
    quiet a ∧ phase_wf (p_ack n p) ∧
    (wait_of (p_ack n p) = wait_less n (wait_of p) ∨
     w_pend (wait_of (p_ack n p)) = ∅ ∧ w_pend (wait_of p) ∖ {[n]} = ∅).
Proof.
  intros Hwf Hsz -> Hn.
  destruct p as [|s|o'|o' r|o' r|up ak r pend]; cbn in Hn; try set_solver.
  - eexists. split; [apply same_outcome|].
    { cbn [entry_of p_ack]. rewrite size_union by (cbn in Hwf; set_solver).
      by rewrite !size_singleton. }
    split; [done|]. split; [cbn; set_solver|]. right. cbn. set_solver.
  - apply elem_of_singleton in Hn as ->. cbn in Hwf.
    eexists. split; [apply same_outcome|].
    { cbn [entry_of p_ack a_sharers]. f_equal. set_solver. }
    split; [done|]. split; [done|]. right. cbn. set_solver.
  - destruct Hwf as [Hr Hne]. assert (n ∈ pend) as Hn' by (by destruct up).
    clear Hn. rename Hn' into Hn. pose proof (size_pos pend n Hn).
    assert (Z.of_nat (size pend) ≤ 8).
    { pose proof (subseteq_size pend (a_sharers (entry_of (PInval up ak r pend)))
        ltac:(cbn; set_solver)). lia. }
    assert (n ≠ r) as Hnr by set_solver.
    cbn [p_ack]. case_decide as Hp.
    + subst pend.
      destruct up; cbn [wait_of w_ack w_for dir_spec entry_of a_state a_count a_sharers];
        rewrite size_singleton; eexists;
        (split; [apply same_outcome; cbn; f_equal; destruct ak; set_solver|]);
        (split; [done|]); (split; [done|]); right; cbn; set_solver.
    + assert (size pend ≠ 1%nat) as H1.
      { intros E. apply Hp, size_one; [done|lia]. }
      destruct up; cbn [wait_of w_ack w_for dir_spec entry_of a_state a_count a_sharers].
      * rewrite (proj2 (Z.eqb_neq _ 2)) by lia. rewrite wrap8_small by lia.
        eexists. split; [apply same_outcome|].
        { cbn [orb]. f_equal; [destruct ak; set_solver|]. rewrite size_del by done. lia. }
        split; [done|]. split; [split; [set_solver|by apply del_nonempty]|by left].
      * rewrite (proj2 (Z.eqb_neq _ 1)) by lia. rewrite wrap8_small by lia.
        eexists. split; [apply same_outcome|].
        { cbn [orb]. f_equal; [destruct ak; set_solver|]. rewrite size_del by done. lia. }
        split; [done|]. split; [split; [set_solver|by apply del_nonempty]|by left].
Qed.

(** ** Keys of the messages in flight *)
Lemma key_of_type m (t : RawMessageType) :
  mtype m = t →
  key_of m = if is_key t then Some (t, req_cline_nodeID m, agent_cline_nodeID m) else None.
Proof. intros E. unfold key_of. by rewrite E, mtype_of_val. Qed.

Lemma is_key_probe t : is_probe t = true → is_key t = true.
Proof. intros E. unfold is_key. by rewrite E. Qed.

Lemma is_key_ack t : is_ack t = true → is_key t = true.
Proof. intros E. unfold is_key. by rewrite E, orb_true_r. Qed.

Lemma is_key_request t : is_request t = true → is_key t = false.
Proof. by destruct t. Qed.

Lemma keys_cons m l : keys (m :: l) = option_list (key_of m) ++ keys l.
Proof. unfold keys. cbn. by destruct (key_of m). Qed.

Lemma keys_quiet m d a : quiet a → keys (answer_msgs m d a) = [].
Proof.
  destruct a as [t|t o|]; intros Hq; [|done|done].
  unfold answer_msgs. rewrite keys_cons, (key_of_type _ t) by done.
  by apply orb_false_iff in Hq as [-> _].
Qed.

Lemma answer_ok m d a :
  0 ≤ req_cline_nodeID m < 8 →
  (∀ t o, a = ToOwner t o → 0 ≤ o < 8) → quiet a ∨ (∃ t o, a = ToOwner t o) →
  Forall msg_ok (answer_msgs m d a).
Proof.
  intros Hr Ho Ha. destruct (dir_prepare_fields m d) as (_ & Er & _).
  destruct a as [t|t o|]; [| |constructor]; apply Forall_singleton; unfold msg_ok; cbn.
  - rewrite Er, mtype_of_val. split_and!; [lia..|by eexists|].
    destruct Ha as [Hq|(?&?&?)]; [|done]. rewrite (key_of_type _ t) by done.
    apply orb_false_iff in Hq as [-> _]. by intros [? ?].
  - rewrite Er, mtype_of_val. split_and!; [lia..|by eexists|]. intros _. by eapply Ho.
Qed.

Lemma fanout_type_eq m (t : RawMessageType) d :
  mtype m = t → t = R_WRITE_MISS ∨ t = R_WRITE_SHARED →
  fanout_type (dir_prepare m d) =
    if decide (t = R_WRITE_MISS) then DIR_2_AGENT_WRITE_MISS_SHARED
    else DIR_2_AGENT_WRITE_SHARED_NOTONLY.
Proof.
  intros E Ht. destruct (dir_prepare_fields m d) as (Em & _).
  unfold fanout_type. rewrite Em, E. by destruct Ht as [-> | ->].
Qed.

Lemma keys_fanout m d (t : RawMessageType) :
  mtype m = t → t = R_WRITE_MISS ∨ t = R_WRITE_SHARED →
  keys (fanout (dir_prepare m d) d) =
    (λ n, (fanout_type (dir_prepare m d), req_cline_nodeID m, n))
      <$> fanout_targets (dir_prepare m d) d.
Proof.
  intros E Ht. destruct (dir_prepare_fields m d) as (Em & Er & _).
  pose proof (fanout_type_eq m t d E Ht) as Ef. unfold fanout.
  induction (fanout_targets (dir_prepare m d) d) as [|n l IH]; [done|].
  rewrite fmap_cons, keys_cons, IH, fmap_cons.
  rewrite (key_of_type _ (fanout_type (dir_prepare m d))) by done. rewrite Ef at 1.
  cbn [req_cline_nodeID agent_cline_nodeID fanout_msg set_field]. rewrite Er.
  by case_decide.
Qed.

Lemma fanout_ok m d (t : RawMessageType) :
  mtype m = t → t = R_WRITE_MISS ∨ t = R_WRITE_SHARED → 0 ≤ req_cline_nodeID m < 8 →
  Forall msg_ok (fanout (dir_prepare m d) d).
Proof.
  intros E Ht Hr. destruct (dir_prepare_fields m d) as (Em & Er & _).
  apply Forall_fmap, Forall_forall. intros n Hn.
  apply elem_of_fanout_targets in Hn as [Hn%sharers_range _].
  unfold msg_ok. cbn. rewrite Er, mtype_of_val. split_and!; [lia..|by eexists|done].
Qed.

Lemma keys_replies m (t a : RawMessageType) :
  mtype m = t → ack_of t = Some a →
  keys (agent_replies m) = [(a, req_cline_nodeID m, agent_cline_nodeID m)].
Proof.
  intros E Ha. unfold agent_replies. rewrite E, mtype_of_val.
  destruct t; try done; injection Ha as <-; done.
Qed.

Lemma replies_ok m (t : RawMessageType) :
  mtype m = t → 0 ≤ req_cline_nodeID m < 8 → 0 ≤ agent_cline_nodeID m < 8 →
  Forall msg_ok (agent_replies m).
Proof.
  intros E Hr Ha. unfold agent_replies. rewrite E, mtype_of_val.
  destruct t; repeat (apply Forall_cons; split); try (by apply Forall_nil);
    (split; [done|split; [by eexists|done]]).
Qed.

(** The acknowledgement a phase waits for answers its probe. *)
Lemma wait_types p :
  w_pend (wait_of p) ≠ ∅ →
  ack_of (w_probe (wait_of p)) = Some (w_ack (wait_of p)) ∧
  is_ack (w_probe (wait_of p)) = false ∧ is_probe (w_ack (wait_of p)) = false.
Proof. destruct p as [| | | | |[]]; done. Qed.

(** ** Simulation *)
Lemma coherent_bounds s p :
  coherent s p → (size (a_sharers (entry_of p)) ≤ 8)%nat ∧
  (a_state (entry_of p) = S_DIRTY → a_sharers (entry_of p) ≠ ∅) ∧
  (∀ o, p = PDirty o → last_sharer (de_gblock_bitmap (c_dir s)) 0 = o).
Proof.
  intros [[_ _ Hsh _ _] Hwf _ _]. split_and!.
  - rewrite <-Hsh. apply size_sharers.
  - destruct p; cbn; try done.
  - intros o ->. by apply last_sharer_singleton.
Qed.

Lemma opens_cases t r s a inval p' :
  opens t r s a inval p' →
  (∃ t' o, a = ToOwner t' o ∧ inval = false ∧ t' = w_probe (wait_of p') ∧
     r = w_for (wait_of p') ∧ w_pend (wait_of p') = {[o]} ∧ o ∈ s) ∨
  quiet a ∧
    if inval then
      (t = R_WRITE_MISS ∧ r ∉ s ∧ w_probe (wait_of p') = DIR_2_AGENT_WRITE_MISS_SHARED ∨
       t = R_WRITE_SHARED ∧ w_probe (wait_of p') = DIR_2_AGENT_WRITE_SHARED_NOTONLY) ∧
      r = w_for (wait_of p') ∧ w_pend (wait_of p') = s ∖ {[r]}
    else w_pend (wait_of p') = ∅.
Proof. destruct a; intros Ho; [by right|left; by eexists _, _|by right]. Qed.

Lemma opens_keys m d (t : RawMessageType) p a inval p' :
  mtype m = t → 0 ≤ req_cline_nodeID m < 8 → sharers (de_gblock_bitmap d) = a_sharers (entry_of p) →
  opens t (req_cline_nodeID m) (a_sharers (entry_of p)) a inval p' →
  let sent := answer_msgs m d a ++ (if inval then fanout (dir_prepare m d) d else []) in
  keys_ok (wait_of p') (keys sent) ∧ Forall msg_ok sent.
Proof.
  intros E Hr Hsh Ho. destruct (dir_prepare_fields m d) as (Em & Er & _).
  cbv zeta. rewrite keys_app, Forall_app.
  destruct (opens_cases _ _ _ _ _ _ Ho) as [(t' & o & -> & -> & Et & Hw & Hp & Hin)|[Hq Ho']].
  - rewrite app_nil_r. rewrite <-Hsh in Hin. apply sharers_range in Hin.
    assert (Forall msg_ok (answer_msgs m d (ToOwner t' o))) as Hok.
    { apply answer_ok; [done| |right; by eexists _, _]. by intros ? ? [= <- <-]. }
    split; [|by rewrite Forall_nil]. unfold answer_msgs.
    rewrite keys_cons, (key_of_type _ t') by done.
    assert (is_key t' = true) as ->.
    { rewrite Et. destruct p' as [| | | | |[]]; try done; cbn in Hp; set_solver. }
    cbn [keys omap list_omap option_list app req_cline_nodeID agent_cline_nodeID set_field].
    rewrite Er. split; cbn.
    + apply Forall_singleton. cbn. auto.
    + apply NoDup_singleton.
    + intros n. rewrite Hp, list_elem_of_singleton. set_solver.
  - rewrite (keys_quiet _ _ _ Hq). cbn [app].
    assert (Forall msg_ok (answer_msgs m d a)) as Hok.
    { apply answer_ok; [done| |by left]. by intros ? ? ->. }
    destruct inval; [|split; [apply keys_ok_nil; exact Ho'|split; [exact Hok|by apply Forall_nil]]].
    destruct Ho' as (Ht & Hw & Hp).
    assert (t = R_WRITE_MISS ∨ t = R_WRITE_SHARED) as Ht' by tauto.
    split; [|split; [exact Hok|by eapply fanout_ok]].
    rewrite (keys_fanout m d t E Ht'), (fanout_type_eq m t d E Ht').
    split; rewrite <-?list_fmap_compose.
    + apply Forall_fmap, Forall_forall. intros n _. cbn. split; [left|done].
      by destruct Ht as [(-> & _ & ->)|[-> ->]].
    + change (snd ∘ _) with (λ x : Z, x). rewrite list_fmap_id. apply NoDup_fanout_targets.
    + intros n. change (snd ∘ _) with (λ x : Z, x).
      rewrite Hp, list_fmap_id, elem_of_fanout_targets, Em, Er, Hsh, E.
      destruct Ht as [(-> & ? & _)|[-> _]]; set_solver.
Qed.

(** The directory's step, on the handler's result. *)
Lemma carried_fields m m0 :
  mtype (net_carried m m0) = mtype m ∧
  req_cline_nodeID (net_carried m m0) = req_cline_nodeID m ∧
  agent_cline_nodeID (net_carried m m0) = agent_cline_nodeID m.
Proof. by destruct m. Qed.

Lemma dir_runs d n1 m n2 m0 (t : RawMessageType) p :
  coherent (mk_cstate d (n1 ++ m :: n2)) p → mtype m = t → is_request t || is_ack t = true →
  ∃ r, dir_handle (net_carried m m0) d = Some r ∧
    refines (net_carried m m0) d r
      (dir_spec t (req_cline_nodeID m) (agent_cline_nodeID m)
         (last_sharer (de_gblock_bitmap d) 0) (entry_of p)).
Proof.
  intros Hc Et Hk. destruct (coherent_bounds _ _ Hc) as (_ & Hown & _).
  destruct Hc as [He _ _ Hn]. cbn in He, Hn.
  rewrite Forall_app, Forall_cons in Hn. destruct Hn as (_ & (Hr & _ & Ha) & _).
  destruct (carried_fields m m0) as (E1 & E2 & E3). rewrite <-E2, <-E3.
  apply dir_handle_spec; try done; rewrite ?E1, ?E2, ?E3; try done.
  intros Hi. apply Ha. rewrite (key_of_type m t Et), is_key_ack; [by eexists|by destruct t].
Qed.

Lemma refines_emits m d r e' a inval :
  refines m d r (e', a, inval) →
  entry_rel (r_dir r) e' ∧
  dir_emits r = answer_msgs m d a ++ (if inval then fanout (dir_prepare m d) d else []).
Proof.
  intros (He & Hs & Hc). split; [done|]. unfold dir_emits. rewrite Hs, Hc. by destruct inval.
Qed.

Lemma sim_request d n1 m n2 m0 (t : RawMessageType) r p :
  coherent (mk_cstate d (n1 ++ m :: n2)) p → mtype m = t → is_request t = true →
  dir_handle (net_carried m m0) d = Some r →
  coherent (mk_cstate (r_dir r) (n1 ++ n2 ++ dir_emits r))
    (p_request t (req_cline_nodeID m) p).
Proof.
  intros Hc Et Hk Hh. destruct (coherent_bounds _ _ Hc) as (Hsz & _ & Hown).
  destruct (dir_runs d n1 m n2 m0 t p Hc Et ltac:(by rewrite Hk)) as (r' & Hh' & Href).
  rewrite Hh in Hh'. injection Hh' as <-. destruct Hc as [He Hwf Hkeys Hn].
  cbn [c_dir c_net] in *. destruct (carried_fields m m0) as (E1 & E2 & E3).
  destruct (spec_request p t (req_cline_nodeID m) (agent_cline_nodeID m)
    (last_sharer (de_gblock_bitmap d) 0) Hwf Hk Hsz Hown) as (a & inval & Es & Hwf' & Hcase).
  rewrite Es in Href. apply refines_emits in Href as [He' Hem].
  destruct (keys_middle n1 m n2 (dir_emits r)) as [P1 P2].
  rewrite Forall_app, Forall_cons in Hn. destruct Hn as (Hn1 & Hm & Hn2).
  assert (keys [m] = []) as Km.
  { rewrite keys_cons, (key_of_type m t Et), is_key_request by done. done. }
  rewrite Km in P2. cbn [app] in P2.
  apply (keys_ok_perm _ _ _ P2) in Hkeys.
  assert (keys_ok (wait_of (p_request t (req_cline_nodeID m) p))
      (keys (n1 ++ n2) ++ keys (dir_emits r)) ∧ Forall msg_ok (dir_emits r)) as [Hk' Hok].
  { rewrite Hem. destruct Hcase as [(-> & -> & Hq)|[Hp Ho]].
    - rewrite app_nil_r, (keys_quiet _ _ _ Hq), app_nil_r. split; [done|].
      apply answer_ok; [by rewrite E2; apply Hm| |by left]. by intros ? ? ->.
    - rewrite (keys_ok_empty _ _ Hkeys Hp). cbn [app]. rewrite <-E2 in Ho.
      apply (opens_keys _ d t p); [by rewrite E1|by rewrite E2; apply Hm| |by rewrite <-E2].
      apply He. }
  split; cbn [c_dir c_net]; [done|done| |].
  - eapply keys_ok_perm; [symmetry; exact P1|exact Hk'].
  - by rewrite !Forall_app.
Qed.

Lemma sim_ack d n1 m n2 m0 (t : RawMessageType) r p :
  coherent (mk_cstate d (n1 ++ m :: n2)) p → mtype m = t → is_ack t = true →
  dir_handle (net_carried m m0) d = Some r →
  agent_cline_nodeID m ∈ w_pend (wait_of p) ∧
  coherent (mk_cstate (r_dir r) (n1 ++ n2 ++ dir_emits r)) (p_ack (agent_cline_nodeID m) p).
Proof.
  intros Hc Et Hk Hh. destruct (coherent_bounds _ _ Hc) as (Hsz & _ & _).
  destruct (dir_runs d n1 m n2 m0 t p Hc Et ltac:(by rewrite Hk, orb_true_r))
    as (r' & Hh' & Href).
  rewrite Hh in Hh'. injection Hh' as <-. destruct Hc as [He Hwf Hkeys Hn].
  cbn [c_dir c_net] in *. destruct (carried_fields m m0) as (E1 & E2 & E3).
  destruct (keys_middle n1 m n2 (dir_emits r)) as [P1 P2].
  rewrite Forall_app, Forall_cons in Hn. destruct Hn as (Hn1 & Hm & Hn2).
  rewrite keys_cons, (key_of_type m t Et), (is_key_ack t Hk) in P2. cbn in P2.
  apply (keys_ok_perm _ _ _ P2) in Hkeys.
  apply keys_ok_cons in Hkeys as (Htype & Hfor & Hin & Hless). cbn in Htype, Hfor, Hin, Hless.
  assert (w_pend (wait_of p) ≠ ∅) as Hne by set_solver.
  destruct (wait_types p Hne) as (_ & Hna & _).
  destruct Htype as [-> | Htype]; [by rewrite Hna in Hk|].
  destruct (spec_ack p t (agent_cline_nodeID m) (last_sharer (de_gblock_bitmap d) 0)
    Hwf Hsz Htype Hin) as (a & Es & Hq & Hwf' & Hw).
  rewrite Hfor, Es in Href. apply refines_emits in Href as [He' Hem].
  rewrite app_nil_r in Hem. split; [done|].
  split; cbn [c_dir c_net]; [done|done| |].
  - eapply keys_ok_perm; [symmetry; exact P1|]. rewrite Hem, (keys_quiet _ _ _ Hq), app_nil_r.
    destruct Hw as [-> | [Hw1 Hw2]]; [exact Hless|].
    rewrite (keys_ok_empty _ _ Hless Hw2). by apply keys_ok_nil.
  - rewrite !Forall_app. split_and!; [done|done|]. rewrite Hem.
    apply answer_ok; [by rewrite E2; apply Hm| |by left]. by intros ? ? ->.
Qed.

Lemma sim_agent d n1 m n2 m0 (t : RawMessageType) p :
  coherent (mk_cstate d (n1 ++ m :: n2)) p → mtype m = t → is_probe t = true →
  coherent (mk_cstate d (n1 ++ n2 ++ agent_replies (net_carried m m0))) p.
Proof.
  intros [He Hwf Hkeys Hn] Et Hk. cbn [c_dir c_net] in *.
  destruct (carried_fields m m0) as (E1 & E2 & E3).
  assert (∃ a, ack_of t = Some a) as [a Ha] by (by apply bool_decide_eq_true in Hk).
  destruct (keys_middle n1 m n2 (agent_replies (net_carried m m0))) as [P1 P2].
  rewrite Forall_app, Forall_cons in Hn. destruct Hn as (Hn1 & Hm & Hn2).
  rewrite keys_cons, (key_of_type m t Et), (is_key_probe t Hk) in P2. cbn in P2.
  apply (keys_ok_perm _ _ _ P2) in Hkeys.
  rewrite (keys_replies _ t a), E2, E3 in P1 by (done || by rewrite E1).
  assert (0 ≤ agent_cline_nodeID m < 8) as Hag.
  { apply Hm. rewrite (key_of_type m t Et), (is_key_probe t Hk). by eexists. }
  split; cbn [c_dir c_net]; [done|done| |].
  - eapply keys_ok_perm; [symmetry; rewrite P1; apply Permutation_app_comm|]. cbn.
    pose proof (keys_ok_cons _ _ _ Hkeys) as (Htype & _ & Hin & _). cbn in Htype, Hin.
    destruct (wait_types p) as (Hwa & _ & Hnp); [set_solver|].
    assert (a = w_ack (wait_of p)) as Haw.
    { destruct Htype as [-> | ->]; [congruence|]. by rewrite Hnp in Hk. }
    destruct Hkeys as [[[_ H0] H1]%Forall_cons H2 H3]. split; [|exact H2|exact H3].
    apply Forall_cons. split; [|done]. split; [by right|done].
  - rewrite !Forall_app. split_and!; [done|done|].
    apply (replies_ok _ t); [by rewrite E1|rewrite E2; apply Hm|by rewrite E3].
Qed.

Lemma sim_step s s' p :
  coherent s p → c_step s s' → ∃ p', coherent s' p' ∧ (p' = p ∨ p_step p p').
Proof.
  intros Hc Hs. destruct Hs as [d net m t Et Hk Hr|s s' [d n1 m n2 m0 t r Et Hk Hh|
    d n1 m n2 m0 t Et Hk|d n1 m n2 t Et Hk]].
  - exists p. split; [|by left]. destruct Hc as [He Hwf Hkeys Hn]. cbn [c_dir c_net] in *.
    assert (key_of m = None) as Km by (by rewrite (key_of_type m t Et), is_key_request).
    split; cbn [c_dir c_net]; [done|done| |].
    + rewrite keys_app, keys_cons, Km. cbn. by rewrite app_nil_r.
    + apply Forall_app. split; [done|]. apply Forall_singleton.
      split; [done|]. rewrite Et, mtype_of_val, Km. split; [by eexists|by intros [? ?]].
  - destruct (is_request t) eqn:Hreq.
    + eexists. split; [by eapply sim_request|]. right. apply p_step_request.
      destruct Hc as [_ _ _ Hn]. cbn in Hn. rewrite Forall_app, Forall_cons in Hn. apply Hn.
    + destruct (sim_ack d n1 m n2 m0 t r p Hc Et Hk Hh) as [Hin Hc'].
      eexists. split; [exact Hc'|]. right. by apply p_step_ack.
  - exists p. split; [by eapply sim_agent|by left].
  - exists p. split; [|by left]. destruct Hc as [He Hwf Hkeys Hn]. cbn [c_dir c_net] in *.
    assert (key_of m = None) as Km.
    { rewrite (key_of_type m t Et). unfold is_key. by destruct t. }
    split; cbn [c_dir c_net]; [done|done| |].
    + eapply keys_ok_perm; [|exact Hkeys]. rewrite !keys_app, keys_cons, Km. done.
    + rewrite Forall_app, Forall_cons in Hn. rewrite Forall_app. tauto.
Qed.

Lemma init_coherent s : c_init s → coherent s PUnshared.
Proof.
  intros [He Hn]. split; [done|done| |]; rewrite Hn; [|by apply Forall_nil].
  by apply keys_ok_nil.
Qed.

Lemma reachable_coherent s : reachable c_init c_step s → ∃ p, coherent s p.
Proof.
  apply (reachable_ind_inv c_init c_step (λ s, ∃ p, coherent s p)).
  - intros s0 H. eexists. by apply init_coherent.
  - intros s1 s2 [p Hp] St. destruct (sim_step s1 s2 p Hp St) as (p' & ? & _). by exists p'.
Qed.

(** ** Termination of deliveries *)

(** Work left by a message: a request may open eight probes, a probe is answered
    by an acknowledgement and an answer to the requester. *)
Definition weight (m : ctrl_msg) : nat :=
  match mtype_of (mtype m) with
  | Some t => if is_request t then 40 else if is_probe t then 4 else if is_ack t then 2 else 1
  | None => 1
  end.

Definition work (net : list ctrl_msg) : nat := sum_list_with weight net.

Lemma work_app l1 l2 : work (l1 ++ l2) = (work l1 + work l2)%nat.
Proof. apply sum_list_with_app. Qed.

Lemma work_cons m l : work (m :: l) = (weight m + work l)%nat.
Proof. done. Qed.

Lemma weight_type m (t : RawMessageType) :
  mtype m = t →
  weight m = if is_request t then 40%nat else if is_probe t then 4%nat
             else if is_ack t then 2%nat else 1%nat.
Proof. intros E. unfold weight. by rewrite E, mtype_of_val. Qed.

Lemma work_answer m d a :
  (work (answer_msgs m d a) ≤ match a with ToOwner _ _ => 40 | _ => 1 end)%nat ∨ ¬ quiet a.
Proof.
  destruct a as [t|t o|]; [|right; intros []|left; cbn; lia].
  destruct (decide (is_key t || is_request t = false)) as [Hq|Hq]; [left|right; exact Hq].
  apply orb_false_iff in Hq as [Hk Hr]. apply orb_false_iff in Hk as [Hp Ha].
  unfold answer_msgs, work. cbn [sum_list_with].
  rewrite (weight_type _ t) by done. rewrite Hr, Hp, Ha. lia.
Qed.

Lemma work_fanout m d (t : RawMessageType) :
  mtype m = t → t = R_WRITE_MISS ∨ t = R_WRITE_SHARED →
  (work (fanout (dir_prepare m d) d) ≤ 32)%nat.
Proof.
  intros E Ht. pose proof (fanout_type_eq m t d E Ht) as Ef.
  assert (length (fanout_targets (dir_prepare m d) d) ≤ 8)%nat as Hl.
  { unfold fanout_targets. etransitivity; [apply length_filter|]. done. }
  unfold fanout, work. revert Hl.
  generalize (fanout_targets (dir_prepare m d) d). intros l Hl.
  assert (sum_list_with weight (fanout_msg (dir_prepare m d) d <$> l) = 4 * length l)%nat as ->;
    [|lia].
  clear Hl. induction l as [|n l IH]; [done|]. rewrite fmap_cons. cbn [sum_list_with length].
  rewrite IH, (weight_type _ (fanout_type (dir_prepare m d))) by done. rewrite Ef.
  case_decide; cbn; lia.
Qed.

Lemma work_request d n1 m n2 m0 (t : RawMessageType) r p :
  coherent (mk_cstate d (n1 ++ m :: n2)) p → mtype m = t → is_request t = true →
  dir_handle (net_carried m m0) d = Some r → (work (dir_emits r) < weight m)%nat.
Proof.
  intros Hc Et Hk Hh. destruct (coherent_bounds _ _ Hc) as (Hsz & _ & Hown).
  destruct (dir_runs d n1 m n2 m0 t p Hc Et ltac:(by rewrite Hk)) as (r' & Hh' & Href).
  rewrite Hh in Hh'. injection Hh' as <-. destruct Hc as [He Hwf Hkeys Hn].
  cbn [c_dir c_net] in *. destruct (carried_fields m m0) as (E1 & E2 & E3).
  destruct (spec_request p t (req_cline_nodeID m) (agent_cline_nodeID m)
    (last_sharer (de_gblock_bitmap d) 0) Hwf Hk Hsz Hown) as (a & inval & Es & _ & Hcase).
  rewrite Es in Href. apply refines_emits in Href as [_ ->].
  rewrite (weight_type m t Et), Hk, work_app.
  pose proof (work_answer (net_carried m m0) d a) as Ha.
  destruct Hcase as [(_ & -> & Hq)|[_ Ho]].
  - destruct Ha as [Ha|Ha]; [|done]. cbn. destruct a; [lia|done|lia].
  - apply opens_cases in Ho as [(t' & o & -> & -> & Ht' & _ & Hp & _)|[Hq Ho]].
    + unfold answer_msgs, work. cbn [sum_list_with app].
      rewrite (weight_type _ t') by done.
      rewrite Ht'. destruct (p_request t _ p) as [| | | | |[]]; cbn; try lia;
        cbn in Hp; set_solver.
    + destruct Ha as [Ha|Ha]; [|done]. destruct inval.
      * destruct Ho as (Ht & _ & _).
        pose proof (work_fanout (net_carried m m0) d t ltac:(by rewrite E1) ltac:(tauto)).
        destruct a; [lia|done|lia].
      * cbn. destruct a; [lia|done|lia].
Qed.

Lemma work_ack d n1 m n2 m0 (t : RawMessageType) r p :
  coherent (mk_cstate d (n1 ++ m :: n2)) p → mtype m = t → is_ack t = true →
  dir_handle (net_carried m m0) d = Some r → (work (dir_emits r) < weight m)%nat.
Proof.
  intros Hc Et Hk Hh.
  destruct (dir_runs d n1 m n2 m0 t p Hc Et ltac:(by rewrite Hk, orb_true_r))
    as (r' & Hh' & Href).
  rewrite Hh in Hh'. injection Hh' as <-.
  rewrite (weight_type m t Et), Hk.
  destruct (dir_spec t _ _ _ _) as [[e' a] inval] eqn:Es.
  apply refines_emits in Href as [_ ->].
  assert (quiet a ∧ inval = false) as [Hq ->].
  { unfold dir_spec in Es. destruct t; try done; repeat case_match; by simplify_eq. }
  rewrite app_nil_r. destruct (work_answer (net_carried m m0) d a) as [Ha|Ha]; [|done].
  assert (is_request t = false ∧ is_probe t = false) as [-> ->] by (by destruct t).
  destruct a; [lia|done|lia].
Qed.

Lemma deliver_work s s' p :
  coherent s p → c_deliver s s' → (work (c_net s') < work (c_net s))%nat.
Proof.
  intros Hc Hs.
  destruct Hs as [d n1 m n2 m0 t r Et Hk Hh|d n1 m n2 m0 t Et Hk|d n1 m n2 t Et Hk];
    cbn [c_net]; rewrite !work_app, work_cons.
  - enough (work (dir_emits r) < weight m)%nat by lia.
    destruct (is_request t) eqn:Hr; [by apply (work_request d n1 m n2 m0 t r p)|].
    by apply (work_ack d n1 m n2 m0 t r p).
  - enough (work (agent_replies (net_carried m m0)) < weight m)%nat by lia.
    destruct (carried_fields m m0) as (E1 & _ & _).
    rewrite (weight_type m t Et). unfold agent_replies. rewrite E1, Et, mtype_of_val.
    destruct t; try done; cbn; lia.
  - enough (0 < weight m)%nat by lia. rewrite (weight_type m t Et).
    repeat case_match; lia.
Qed.

(** Every message in flight can be delivered. *)
Lemma deliver_enabled d n1 m n2 p :
  coherent (mk_cstate d (n1 ++ m :: n2)) p →
  ∃ d' l, c_deliver (mk_cstate d (n1 ++ m :: n2)) (mk_cstate d' (n1 ++ n2 ++ l)).
Proof.
  intros Hc. pose proof (co_net _ _ Hc) as Hn. cbn in Hn.
  rewrite Forall_app, Forall_cons in Hn. destruct Hn as (_ & (_ & [t Ht] & _) & _).
  apply mtype_of_Some in Ht.
  destruct (is_request t || is_ack t) eqn:Hk.
  - destruct (dir_runs d n1 m n2 m t p Hc Ht Hk) as (r & Hh & _).
    eexists _, _. by eapply (c_directory d n1 m n2 m t r).
  - destruct (is_probe t) eqn:Hp.
    + eexists _, _. by apply (c_agent d n1 m n2 m t).
    + eexists d, []. rewrite app_nil_r. apply (c_application d n1 m n2 t Ht).
      apply orb_false_iff in Hk as [-> ->]. by rewrite Hp.
Qed.

Lemma deliver_some s p : coherent s p → c_net s ≠ [] → ∃ s', c_deliver s s'.
Proof.
  intros Hc Hne. destruct s as [d [|m net]]; [done|].
  destruct (deliver_enabled d [] m net p Hc) as (d' & l & ?). by eexists.
Qed.

(** The phases that wait for nothing are the stable ones. *)
Lemma stable_phase p :
  phase_wf p → w_pend (wait_of p) = ∅ ↔
  a_state (entry_of p) = S_UNSHARED ∨ a_state (entry_of p) = S_SHARED ∨
  a_state (entry_of p) = S_DIRTY.
Proof.
  intros Hwf. destruct p as [| | |o r|o r|[] ak r pend]; cbn in *.
  1-3: split; auto.
  1,2: split; [set_solver|naive_solver].
  all: split; [tauto|naive_solver].
Qed.

(** What a grant of exclusive access says of the entry that is written back. *)
Definition grants_write (t : RawMessageType) : bool :=
  match t with
  | DIR_2_APP_WRITE_MISS_ACKDATA | DIR_2_APP_WRITE_SHARED_ONLYACK
  | DIR_2_APP_WRITE_MISS_SHARED_AGGACK_ACK | DIR_2_APP_WRITE_SHARED_NOTONLY_AGGACK_ACK => true
  | _ => false
  end.

Lemma dir_spec_grant t r ag o e e' g inval :
  dir_spec t r ag o e = (e', ToApp g, inval) → grants_write g = true →
  a_state e' = S_DIRTY ∧ (is_request t = true → r ∈ a_sharers e').
Proof.
  unfold dir_spec. intros E Hg. destruct t, (a_state e); repeat case_match;
    simplify_eq; try done; (split; [done|]); try done; intros _; cbn; set_solver.
Qed.

Lemma p_ack_dirty n p o : p_ack n p = PDirty o → w_pend (wait_of p) ≠ ∅ → o = w_for (wait_of p).
Proof.
  destruct p as [| | |o' r|o' r|[] ak r pend]; cbn; try done; try case_decide;
    intros E ?; by simplify_eq.
Qed.

Lemma dirty_phase p : a_state (entry_of p) = S_DIRTY → ∃ o, p = PDirty o.
Proof. destruct p; try done. intros _. by eexists. Qed.

Lemma state_val_inj (a b : RawState) : (a : Z) = b → a = b.
Proof. by destruct a, b. Qed.

(** [n] deliveries in a row. *)
Lemma deliveries_bounded s s' n :
  (∃ p, coherent s p) → nsteps c_deliver n s s' →
  (n + work (c_net s') ≤ work (c_net s))%nat ∧ ∃ p, coherent s' p.
Proof.
  intros Hc Hn. induction Hn as [s|n s s1 s' Hd Hn IH]; [split; [lia|done]|].
  destruct Hc as [p Hc]. pose proof (deliver_work s s1 p Hc Hd).
  destruct (sim_step s s1 p Hc (c_delivery _ _ Hd)) as (p1 & Hc1 & _).
  destruct IH as [IH ?]; [by exists p1|]. split; [lia|done].
Qed.

Lemma drains s p :
  coherent s p → ∃ s', rtc c_deliver s s' ∧ c_net s' = [] ∧ ∃ p', coherent s' p'.
Proof.
  remember (work (c_net s)) as k eqn:Hk. revert s p Hk.
  induction (lt_wf k) as [k _ IH]. intros s p -> Hc.
  destruct (decide (work (c_net s) = 0%nat)) as [H0|H0].
  - exists s. split; [done|]. split; [|by exists p].
    destruct (c_net s) as [|m net] eqn:E; [done|].
    destruct (deliver_some s p Hc) as [s1 Hd]; [by rewrite E|].
    pose proof (deliver_work _ _ _ Hc Hd). rewrite E in *. lia.
  - destruct (deliver_some s p Hc) as [s1 Hd]; [by intros E; rewrite E in H0|].
    pose proof (deliver_work _ _ _ Hc Hd) as Hw.
    destruct (sim_step s s1 p Hc (c_delivery _ _ Hd)) as (p1 & Hc1 & _).
    destruct (IH _ Hw s1 p1 eq_refl Hc1) as (s2 & R & ?).
    exists s2. split; [by eapply rtc_l|done].
Qed.

Lemma coherent_stable s p (st : RawState) :
  coherent s p → de_state (c_dir s) = st →
  st = S_UNSHARED ∨ st = S_SHARED ∨ st = S_DIRTY → keys (c_net s) = [].
Proof.
  intros [[Hst _ _ _ _] Hwf Hk _] E Hs.
  rewrite Hst in E. apply state_val_inj in E. rewrite <-E in Hs.
  apply (stable_phase p Hwf) in Hs. by eapply keys_ok_empty.
Qed.

(** ** Properties *)

(** C1: The composed protocol implements the abstract one.  A block nobody holds
    starts in the phase [PUnshared]; from every coherent state, whatever message
    is delivered next (in any order) and whatever request is issued, the new
    state is coherent for the same phase or for one abstract step further: the
    entry is the phase's, and the probes and acknowledgements in flight are
    exactly the ones the phase waits for, one per node. *)
Theorem coherence_refines :
  (∀ s, c_init s → coherent s PUnshared) ∧
  (∀ s s' p, coherent s p → c_step s s' → ∃ p', coherent s' p' ∧ (p' = p ∨ p_step p p')).
Proof. split; [apply init_coherent|apply sim_step]. Qed.

(** C8: A dirty block has one owner.  In every reachable state whose entry is
    [S_DIRTY], exactly one byte of the bitmap is 1, the replica count is 1, and
    no probe or acknowledgement about the block is in flight. *)
Theorem dirty_exclusive s :
  reachable c_init c_step s → de_state (c_dir s) = S_DIRTY →
  ∃ o, (∀ i, 0 ≤ i < 8 → arr_nth (de_gblock_bitmap (c_dir s)) i = if i =? o then 1 else 0) ∧
    0 ≤ o < 8 ∧ de_replica_count (c_dir s) = 1 ∧ keys (c_net s) = [].
Proof.
  intros [p Hc]%reachable_coherent Hs. pose proof Hc as [He Hwf Hk _].
  destruct He as [Hst Hb Hsh Hn _]. rewrite Hs in Hst. apply state_val_inj in Hst.
  destruct (dirty_phase p (eq_sym Hst)) as [o ->]. cbn in Hsh, Hn.
  exists o. split_and!; try done.
  - intros i Hi. apply arr_nth_get. rewrite (bitmap01_get _ _ Hb Hi), Hsh.
    destruct (Z.eqb_spec i o); case_bool_decide; set_solver.
  - apply (sharers_range (de_gblock_bitmap (c_dir s))). rewrite Hsh. set_solver.
  - apply (sharers_range (de_gblock_bitmap (c_dir s))). rewrite Hsh. set_solver.
  - by eapply keys_ok_empty.
Qed.

(** The replica count is exact when the entry is stable: in a reachable state
    whose entry is [S_UNSHARED], [S_SHARED] or [S_DIRTY] it is the number of
    sharers in the bitmap, at most eight, it is zero exactly in [S_UNSHARED], and
    nothing the directory waits for is in flight; in a transient state something
    is. *)
Theorem replica_count_exact s :
  reachable c_init c_step s →
  (∀ st : RawState, de_state (c_dir s) = st →
    st = S_UNSHARED ∨ st = S_SHARED ∨ st = S_DIRTY →
    de_replica_count (c_dir s) = Z.of_nat (size (sharers (de_gblock_bitmap (c_dir s)))) ∧
    de_replica_count (c_dir s) ≤ 8 ∧
    (st = S_UNSHARED ↔ sharers (de_gblock_bitmap (c_dir s)) = ∅) ∧
    keys (c_net s) = []) ∧
  (∀ st : RawState, de_state (c_dir s) = st → st = S_TO_SHARED ∨ st = S_TO_DIRTY →
    keys (c_net s) ≠ []).
Proof.
  intros [p Hc]%reachable_coherent. pose proof Hc as [He Hwf Hk _]. split; intros st E Hs.
  - pose proof (coherent_stable s p st Hc E Hs) as Hkeys.
    pose proof (size_sharers (de_gblock_bitmap (c_dir s))) as Hsz.
    destruct He as [Hst Hb Hsh Hn _]. rewrite E in Hst. apply state_val_inj in Hst.
    rewrite Hsh in *. rewrite Hn.
    destruct p as [|s'|o|o r|o r|[] ak r pend]; cbn in Hst, Hwf, Hsz |- *; subst st;
      try naive_solver.
    + rewrite size_empty. split_and!; [done|lia|done|done].
    + split_and!; [done|lia|naive_solver|done].
    + rewrite size_singleton. split_and!; [done|lia| |done]. split; [done|set_solver].
  - destruct He as [Hst _ _ _ _]. rewrite E in Hst. apply state_val_inj in Hst.
    intros Hnil. rewrite Hnil in Hk. apply keys_ok_none in Hk.
    apply (stable_phase p Hwf) in Hk. rewrite <-Hst in Hk.
    destruct Hs as [-> | ->], Hk as [?|[?|?]]; discriminate.
Qed.

(** C4: Exclusive access is granted only when it is exclusive: whenever the
    directory answers a request or an acknowledgement with one of its four
    messages that grant write access, the entry it writes back is [S_DIRTY] with
    the node the message goes to as the only sharer, and no invalidation or
    acknowledgement about the block remains in flight. *)
Theorem write_grant_exclusive d n1 m n2 m0 (t g : RawMessageType) r x :
  reachable c_init c_step (mk_cstate d (n1 ++ m :: n2)) →
  mtype m = t → is_request t || is_ack t = true →
  dir_handle (net_carried m m0) d = Some r →
  x ∈ r_send r → mtype x = g → grants_write g = true →
  de_state (r_dir r) = S_DIRTY ∧ dst_node_id x = req_cline_nodeID m ∧
  sharers (de_gblock_bitmap (r_dir r)) = {[dst_node_id x]} ∧ keys (n1 ++ n2) = [].
Proof.
  intros [p Hc]%reachable_coherent Et Hk Hh Hx Hg Hgr.
  destruct (dir_runs d n1 m n2 m0 t p Hc Et Hk) as (r' & Hh' & Href).
  rewrite Hh in Hh'. injection Hh' as <-.
  destruct (dir_spec t _ _ _ _) as [[e' a] inval] eqn:Es. destruct Href as (He' & Hs & _).
  destruct (carried_fields m m0) as (E1 & E2 & E3).
  destruct (dir_prepare_fields (net_carried m m0) d) as (_ & Er & _).
  rewrite Hs in Hx.
  assert (a = ToApp g ∧ dst_node_id x = req_cline_nodeID m) as [-> Hdst].
  { destruct a as [t'|t' o|]; [| |by apply not_elem_of_nil in Hx];
      apply list_elem_of_singleton in Hx as ->; cbn in Hg.
    - cbn. rewrite Er, E2. split; [|done].
      by apply (f_equal mtype_of) in Hg; rewrite !mtype_of_val in Hg; simplify_eq.
    - exfalso. apply (f_equal mtype_of) in Hg. rewrite !mtype_of_val in Hg. injection Hg as ->.
      unfold dir_spec in Es. destruct t, (a_state (entry_of p));
        repeat case_match; simplify_eq; done. }
  apply dir_spec_grant in Es as [Hd Hmem]; [|done]. rewrite Hdst.
  destruct He' as [Hst _ Hsh _ _]. rewrite Hd in Hst.
  assert (∃ p', coherent (mk_cstate (r_dir r) (n1 ++ n2 ++ dir_emits r)) p' ∧
    (is_request t = false → p' = p_ack (agent_cline_nodeID m) p ∧
       w_pend (wait_of p) ≠ ∅ ∧ req_cline_nodeID m = w_for (wait_of p)))
    as (p' & Hc' & Hack).
  { destruct (is_request t) eqn:Hr.
    - eexists. split; [by eapply sim_request|done].
    - destruct (sim_ack d n1 m n2 m0 t r p Hc Et Hk Hh) as [Hin Hc'].
      eexists. split; [exact Hc'|]. intros _. split; [done|]. split; [set_solver|].
      destruct Hc as [_ _ Hkeys _]. cbn in Hkeys.
      destruct (keys_middle n1 m n2 []) as [_ P2].
      rewrite keys_cons, (key_of_type m t Et), (is_key_ack t Hk) in P2.
      apply (keys_ok_perm _ _ _ P2) in Hkeys. cbn in Hkeys.
      by apply keys_ok_cons in Hkeys as (_ & Hf & _). }
  pose proof Hc' as [[Hst' _ Hsh' _ _] Hwf' Hk' _]. cbn in Hst', Hsh', Hk'.
  rewrite Hst in Hst'. apply state_val_inj in Hst'.
  destruct (dirty_phase p' (eq_sym Hst')) as [o ->]. cbn in Hsh'.
  assert (o = req_cline_nodeID m) as ->.
  { destruct (is_request t) eqn:Hr.
    - specialize (Hmem eq_refl). rewrite <-Hsh, Hsh' in Hmem. set_solver.
    - destruct (Hack eq_refl) as (E & Hne & ->). by apply (p_ack_dirty (agent_cline_nodeID m)). }
  split_and!; try done.
  apply keys_ok_empty in Hk'; [|done].
  rewrite (assoc_L (++)), keys_app in Hk'. by apply app_nil in Hk' as [? _].
Qed.

(** C5: The protocol terminates and never blocks.  From a reachable state, any
    sequence of deliveries, in any order, is at most [work] of the messages in
    flight long (forty per message at most); every message in flight can be
    delivered next, without undefined behaviour; once none is left the entry is
    stable, and such a state is reached. *)
Theorem protocol_terminates s :
  reachable c_init c_step s →
  (∀ n s', nsteps c_deliver n s s' → (n ≤ work (c_net s))%nat ∧
     (∀ n1 m n2, c_net s' = n1 ++ m :: n2 →
        ∃ d' l, c_deliver s' (mk_cstate d' (n1 ++ n2 ++ l))) ∧
     (c_net s' = [] → ∃ st : RawState, de_state (c_dir s') = st ∧
        (st = S_UNSHARED ∨ st = S_SHARED ∨ st = S_DIRTY))) ∧
  (work (c_net s) ≤ 40 * length (c_net s))%nat ∧
  ∃ s', rtc c_deliver s s' ∧ c_net s' = [].
Proof.
  intros Hr%reachable_coherent. split; [|split].
  - intros n s' Hn. destruct (deliveries_bounded s s' n Hr Hn) as [Hb [p Hc]].
    split; [lia|]. split.
    { intros n1 m n2 E. destruct s' as [d net]. cbn in E. subst net.
      by apply (deliver_enabled d n1 m n2 p). }
    intros Hnil. exists (a_state (entry_of p)). destruct Hc as [[Hst _ _ _ _] Hwf Hk _].
    split; [done|]. apply (stable_phase p Hwf).
    rewrite Hnil in Hk. by apply keys_ok_none.
  - induction (c_net s) as [|m net IH]; [done|]. rewrite work_cons. cbn [length].
    assert (weight m ≤ 40)%nat by (unfold weight; repeat case_match; lia). lia.
  - destruct Hr as [p Hc]. destruct (drains s p Hc) as (s' & ? & ? & _). by exists s'.
Qed.

(** ** Witnesses: node 1 writes a block nobody holds *)
Definition ex_d0 : dir_data_e :=
  mk_dir_data_e 0x1000 5 [0; 0; 0; 0; 0; 0; 0; 0] S_UNSHARED 0 [0; 0; 0; 0; 0; 0; 0; 0].

Definition ex_write : ctrl_msg :=
  ctrl_msg_zero <| mtype := R_WRITE_MISS |> <| req_cline_nodeID := 1 |>.

Definition ex_result : dir_result :=
  default (silent ex_write ex_d0) (dir_handle (net_carried ex_write ctrl_msg_zero) ex_d0).

Definition ex_asked : cstate := mk_cstate ex_d0 [ex_write].
Definition ex_written : cstate := mk_cstate (r_dir ex_result) (dir_emits ex_result).

Lemma ex_init : c_init (mk_cstate ex_d0 []).
Proof.
  split; [|done]. split; try (by vm_compute). split; [done|].
  repeat (apply Forall_cons; split; [by left|]). by apply Forall_nil.
Qed.

Lemma ex_handled : dir_handle (net_carried ex_write ctrl_msg_zero) ex_d0 = Some ex_result.
Proof. by vm_compute. Qed.

Lemma ex_asked_reachable : reachable c_init c_step ex_asked.
Proof.
  exists (mk_cstate ex_d0 []). split; [apply ex_init|].
  apply rtc_once. by apply (c_request ex_d0 [] ex_write R_WRITE_MISS).
Qed.

Lemma ex_written_reachable : reachable c_init c_step ex_written.
Proof.
  unfold ex_written. pose proof ex_handled as H. revert H. generalize ex_result. intros r H.
  eapply reachable_step; [apply ex_asked_reachable|]. apply c_delivery.
  exact (c_directory ex_d0 [] ex_write [] ctrl_msg_zero R_WRITE_MISS r eq_refl eq_refl H).
Qed.

Lemma dirty_exclusive_witness :
  de_replica_count (c_dir ex_written) = 1 ∧ keys (c_net ex_written) = [].
Proof.
  destruct (dirty_exclusive ex_written ex_written_reachable) as (o & _ & _ & H1 & H2);
    [by vm_compute|by split].
Defined.

Lemma replica_count_exact_witness :
  de_replica_count (c_dir ex_written) =
    Z.of_nat (size (sharers (de_gblock_bitmap (c_dir ex_written)))).
Proof.
  destruct (replica_count_exact ex_written ex_written_reachable) as [H _].
  apply (H S_DIRTY); [by vm_compute|by right; right].
Defined.

Lemma write_grant_exclusive_witness :
  ∃ x, x ∈ r_send ex_result ∧ sharers (de_gblock_bitmap (r_dir ex_result)) = {[dst_node_id x]}.
Proof.
  assert (∃ x, x ∈ r_send ex_result ∧ mtype x = DIR_2_APP_WRITE_MISS_ACKDATA)
    as (x & Hx & Hm).
  { vm_compute. eexists. split; [by left|done]. }
  exists x. split; [exact Hx|].
  exact (proj1 (proj2 (proj2 (write_grant_exclusive ex_d0 [] ex_write [] ctrl_msg_zero
    R_WRITE_MISS DIR_2_APP_WRITE_MISS_ACKDATA ex_result x ex_asked_reachable eq_refl eq_refl
    ex_handled Hx Hm eq_refl)))).
Defined.

Lemma protocol_terminates_witness :
  (work (c_net ex_asked) ≤ 40)%nat ∧ ∃ s', rtc c_deliver ex_asked s' ∧ c_net s' = [].
Proof.
  destruct (protocol_terminates ex_asked ex_asked_reachable) as (_ & H1 & H2). by split.
Defined.
