(* ===== verification/Net.v ===== *)
(** * Net: the network side, [net/{ctrlMsgCopy,dataMsgFetch,parser,deparser}.cpp]

    [ctrlMsgCopy] merges the control messages of the directory and of the cache
    controller; [dataMsgFetch] has the cache line of the messages that carry one
    read from the host, and joins message and data; [parser] turns a message and
    its data into a frame (a MAC beat, a control beat, data beats) and [deparser]
    turns frames back into messages for the two controllers and DMA writes. *)
From S2P Require Import Prelude DsmType Wire.
From stdpp Require Import base numbers option list list_numbers relations.
Open Scope Z_scope.

(** ** [ctrlMsgCopy] *)
Record msg_copy := mk_msg_copy {
  mc_reg_flag : Z;
  ctrl_msg_f_CC_t_CMC_in : list ctrl_msg;
  ctrl_msg_f_DC_t_CMC_in : list ctrl_msg;
  ctrl_msg_f_CMC_t_DMF_out : list ctrl_msg;
}.

Definition ctrlMsgCopy (s : msg_copy) : msg_copy :=
  let out := ctrl_msg_f_CMC_t_DMF_out s in
  match ctrl_msg_f_CC_t_CMC_in s, ctrl_msg_f_DC_t_CMC_in s with
  | m :: cc, [] => mk_msg_copy 0 cc [] (push out m)
  | [], m :: dc => mk_msg_copy 1 [] dc (push out m)
  | m :: cc, m' :: dc =>
      if mc_reg_flag s =? 1 then mk_msg_copy 0 cc (m' :: dc) (push out m)
      else mk_msg_copy 1 (m :: cc) dc (push out m')
  | [], [] => s
  end.

(** ** [dataMsgFetch] *)
Record msg_fetch := mk_msg_fetch {
  reg_h2c_data_end_flag : Z;
  reg_debug_state : Z;
  h2c_cmd_f_DMF_t_CD_out : list h2c_cmd;
  h2c_data_f_DD_t_DMF_in : list h2c_data;
  ctrl_msg_f_CMC_t_DMF_in : list ctrl_msg;
  ctrl_msg_f_DMF_t_P_out : list ctrl_msg;
  data_msg_f_DMF_t_P_out : list data_msg;
  ctrl_msg_f_DMF_t_DMF_out : list ctrl_msg;
  ctrl_msg_f_DMF_t_DMF_in : list ctrl_msg;
  debug_state : Z;
}.
#[export] Instance eta_msg_fetch : Eta msg_fetch := fun s =>
  mk_msg_fetch (reg_h2c_data_end_flag s) (reg_debug_state s) (h2c_cmd_f_DMF_t_CD_out s)
    (h2c_data_f_DD_t_DMF_in s) (ctrl_msg_f_CMC_t_DMF_in s) (ctrl_msg_f_DMF_t_P_out s)
    (data_msg_f_DMF_t_P_out s) (ctrl_msg_f_DMF_t_DMF_out s) (ctrl_msg_f_DMF_t_DMF_in s)
    (debug_state s).

(** The address the cache line of a message is read from, if it carries one. *)
Definition fetch_addr (m : ctrl_msg) : option Z :=
  match mtype_of (mtype m) with
  | Some (AGENT_2_DIR_READ_MISS_DIRTY_ACKDATA | AGENT_2_APP_READ_MISS_DIRTY_ACKDATA
         | AGENT_2_APP_WRITE_MISS_DIRTY_ACKDATA) => Some (agent_cline_addr m)
  | Some (DIR_2_APP_READ_MISS_ACKDATA | DIR_2_APP_WRITE_MISS_ACKDATA
         | DIR_2_APP_WRITE_MISS_SHAREDDATA) => Some (dir_gblock_addr m)
  | Some R_EVICT_DIRTY => Some (req_cline_addr m)
  | _ => None
  end.

(** [ctrl_msg_f_CMC_t_DMF_in] read while no data waits. *)
Definition fetch_ctrl (m : ctrl_msg) (s : msg_fetch) : msg_fetch :=
  match fetch_addr m with
  | Some addr =>
      s <| h2c_cmd_f_DMF_t_CD_out := push (h2c_cmd_f_DMF_t_CD_out s)
             (mk_h2c_cmd addr DSM_CACHE_LINE_SIZE PSEUDO_QID_DMF) |>
        <| ctrl_msg_f_DMF_t_DMF_out := push (ctrl_msg_f_DMF_t_DMF_out s)
             (m <| data_msg_length := DSM_CACHE_LINE_SIZE |>) |>
  | None =>
      s <| ctrl_msg_f_DMF_t_P_out := push (ctrl_msg_f_DMF_t_P_out s)
             (m <| data_msg_length := 0 |>) |>
  end.

(** [h2c_data_to_data_msg] and the push towards the parser. *)
Definition fetch_beat (h : h2c_data) (s : msg_fetch) : msg_fetch :=
  s <| data_msg_f_DMF_t_P_out := push (data_msg_f_DMF_t_P_out s) (h2c_data_to_data_msg h) |>.

(** One call of [dataMsgFetch]; [reg_h2c_data_end_flag] is one bit. *)
Definition dataMsgFetch (s : msg_fetch) : msg_fetch :=
  let s := s <| debug_state := reg_debug_state s |> in
  if reg_h2c_data_end_flag s =? 0 then
    match h2c_data_f_DD_t_DMF_in s with
    | h :: hs =>
        let s := fetch_beat h (s <| reg_debug_state := 1 |> <| h2c_data_f_DD_t_DMF_in := hs |>) in
        if dm_last (h2c_data_to_data_msg h) =? 1
        then s <| reg_h2c_data_end_flag := 1 |> else s
    | [] => s
    end
  else if reg_h2c_data_end_flag s =? 1 then
    match h2c_data_f_DD_t_DMF_in s, ctrl_msg_f_DMF_t_DMF_in s, ctrl_msg_f_CMC_t_DMF_in s with
    | h :: hs, m :: ms, _ =>
        let s := s <| reg_debug_state := 3 |> <| ctrl_msg_f_DMF_t_DMF_in := ms |>
                   <| ctrl_msg_f_DMF_t_P_out := push (ctrl_msg_f_DMF_t_P_out s) m |>
                   <| h2c_data_f_DD_t_DMF_in := hs |> in
        let s := fetch_beat h s in
        if dm_last (h2c_data_to_data_msg h) =? 0
        then s <| reg_h2c_data_end_flag := 0 |> else s
    | _, _, m :: ms =>
        fetch_ctrl m (s <| reg_debug_state := 5 |> <| ctrl_msg_f_CMC_t_DMF_in := ms |>)
    | _, _, [] => s <| reg_debug_state := 6 |>
    end
  else s <| reg_debug_state := 6 |>.

(** ** [parser] *)
Record parser_st := mk_parser_st {
  local_mac : Z;
  mac_table : list Z;
  reg_send_ctrl_msg : ctrl_msg;
  reg_send_stage : Z;
  net_tx : list net_rxtx;
  p_net_init_msg : list net_init_msg;
  ctrl_msg_f_DMF_t_P_in : list ctrl_msg;
  data_msg_f_DMF_t_P_in : list data_msg;
}.
#[export] Instance eta_parser_st : Eta parser_st := fun s =>
  mk_parser_st (local_mac s) (mac_table s) (reg_send_ctrl_msg s) (reg_send_stage s)
    (net_tx s) (p_net_init_msg s) (ctrl_msg_f_DMF_t_P_in s) (data_msg_f_DMF_t_P_in s).

(** The uninitialised locals of one call: the beat [tmp_net_tx] and the 512-bit
    payload of the codec. *)
Section junk.
Context (junk_tx : net_rxtx) (junk : Z).

(** [if(!net_init_msg.empty())] *)
Definition parser_init (s : parser_st) : option parser_st :=
  match p_net_init_msg s with
  | i :: rest =>
      t ← arr_set (mac_table s) (ni_node_id i) (ni_node_mac i);
      Some (s <| p_net_init_msg := rest |> <| mac_table := t |>)
  | [] => Some s
  end.

Definition parser_mac (s : parser_st) : option parser_st :=
  match ctrl_msg_f_DMF_t_P_in s with
  | m :: ms =>
      dst ← arr_get (mac_table s) (dst_node_id m);
      Some (s <| ctrl_msg_f_DMF_t_P_in := ms |> <| reg_send_ctrl_msg := m |>
              <| reg_send_stage := SEND_STAGE_CTRL |>
              <| net_tx := push (net_tx s) (set_mac junk junk_tx (local_mac s) dst) |>)
  | [] => Some s
  end.

Definition parser_ctrl (s : parser_st) : parser_st :=
  let m := reg_send_ctrl_msg s in
  s <| net_tx := push (net_tx s) (ctrl_msg_to_net_tx junk m junk_tx) |>
    <| reg_send_stage := if data_msg_length m =? 0 then SEND_STAGE_MAC else SEND_STAGE_DATA |>.

Definition parser_data (s : parser_st) : parser_st :=
  match data_msg_f_DMF_t_P_in s with
  | d :: ds =>
      let s := s <| data_msg_f_DMF_t_P_in := ds |>
                 <| net_tx := push (net_tx s) (data_msg_to_net_tx d junk_tx) |> in
      if dm_last d =? 1 then s <| reg_send_stage := SEND_STAGE_MAC |> else s
  | [] => s
  end.

(** One call of [parser]. *)
Definition parser (s : parser_st) : option parser_st :=
  s ← parser_init s;
  if reg_send_stage s =? SEND_STAGE_MAC then parser_mac s
  else if reg_send_stage s =? SEND_STAGE_CTRL then Some (parser_ctrl s)
  else if reg_send_stage s =? SEND_STAGE_DATA then Some (parser_data s)
  else Some s.
End junk.

(** ** [deparser] *)
Record deparser_st := mk_deparser_st {
  reg_recv_ctrl_msg : ctrl_msg;
  reg_recv_stage : Z;
  net_rx : list net_rxtx;
  ctrl_msg_f_D_t_CC_out : list ctrl_msg;
  ctrl_msg_f_D_t_DC_out : list ctrl_msg;
  c2h_cmd_f_D_t_CDD_out : list c2h_cmd;
  c2h_data_f_D_t_CDD_out : list c2h_data;
}.
#[export] Instance eta_deparser_st : Eta deparser_st := fun s =>
  mk_deparser_st (reg_recv_ctrl_msg s) (reg_recv_stage s) (net_rx s)
    (ctrl_msg_f_D_t_CC_out s) (ctrl_msg_f_D_t_DC_out s) (c2h_cmd_f_D_t_CDD_out s)
    (c2h_data_f_D_t_CDD_out s).

(** The messages for the directory controller. *)
Definition for_directory (m : ctrl_msg) : bool :=
  (R_READ_MISS <=? mtype m) && (mtype m <=? R_EVICT_DIRTY) ||
  (AGENT_2_DIR_READ_MISS_DIRTY_ACKDATA <=? mtype m) && (mtype m <=? AGENT_2_DIR_M_CHECK_FAIL).

(** [tmp_c2h_cmd]: where the data of a message is written. *)
Definition deliver_cmd (m : ctrl_msg) : c2h_cmd :=
  if (mtype m =? AGENT_2_DIR_READ_MISS_DIRTY_ACKDATA) || (mtype m =? R_EVICT_DIRTY)
  then mk_c2h_cmd (dir_gblock_addr m) DSM_CACHE_LINE_SIZE PSEUDO_QID_D
  else mk_c2h_cmd (req_cline_addr m) DSM_CACHE_LINE_SIZE PSEUDO_QID_D.

Section junk.
Context (junk_msg : ctrl_msg) (junk : Z).

Definition deparser_ctrl (b : net_rxtx) (s : deparser_st) : deparser_st :=
  let m := net_rx_to_ctrl_msg junk b (new_ctrl_msg junk_msg) in
  let s := s <| reg_recv_ctrl_msg := m |> in
  let s := if for_directory m
           then s <| ctrl_msg_f_D_t_DC_out := push (ctrl_msg_f_D_t_DC_out s) m |>
           else s <| ctrl_msg_f_D_t_CC_out := push (ctrl_msg_f_D_t_CC_out s) m |> in
  if data_msg_length m =? 0 then s <| reg_recv_stage := RECV_STAGE_MAC |>
  else s <| reg_recv_stage := RECV_STAGE_DATA |>
         <| c2h_cmd_f_D_t_CDD_out := push (c2h_cmd_f_D_t_CDD_out s) (deliver_cmd m) |>.

Definition deparser_data (b : net_rxtx) (s : deparser_st) : deparser_st :=
  s <| c2h_data_f_D_t_CDD_out := push (c2h_data_f_D_t_CDD_out s) (net_rx_to_c2h_data junk b) |>
    <| reg_recv_stage := if net_last b =? 1 then RECV_STAGE_MAC else RECV_STAGE_DATA |>.

(** One call of [deparser]. *)
Definition deparser (s : deparser_st) : deparser_st :=
  match net_rx s with
  | [] => s
  | b :: bs =>
      let s' := s <| net_rx := bs |> in
      if reg_recv_stage s =? RECV_STAGE_MAC then s' <| reg_recv_stage := RECV_STAGE_CTRL |>
      else if reg_recv_stage s =? RECV_STAGE_CTRL then deparser_ctrl b s'
      else if reg_recv_stage s =? RECV_STAGE_DATA then deparser_data b s'
      else s
  end.
End junk.

(** ** Specification *)

(** A message with its data: a message without data has length 0; the data of a
    message is a non-empty run of beats of which exactly the last is marked. *)
Definition packet : Type := ctrl_msg * list data_msg.

Definition closed_run (ds : list data_msg) : Prop :=
  ∃ ds' d, ds = ds' ++ [d] ∧ dm_last d = 1 ∧ Forall (λ d, dm_last d = 0) ds'.

Definition packet_ok (p : packet) : Prop :=
  (data_msg_length p.1 = 0 ∧ p.2 = [] ∨ data_msg_length p.1 ≠ 0 ∧ closed_run p.2) ∧
  ctrl_msg_wf p.1 ∧ 0 ≤ dst_node_id p.1 < 8 ∧ Forall (λ d, fits 512 (dm_data d)) p.2.

(** The beats of a packet on the wire. *)
Definition frame (junk_tx : net_rxtx) (junk lm : Z) (tab : list Z) (p : packet) : list net_rxtx :=
  set_mac junk junk_tx lm (arr_nth tab (dst_node_id p.1)) ::
  ctrl_msg_to_net_tx junk p.1 junk_tx ::
  ((λ d, data_msg_to_net_tx d junk_tx) <$> p.2).

Definition packet_cycles (p : packet) : nat := 2 + length p.2.

(** What the receiver does with a packet. *)
Definition received (junk_msg m : ctrl_msg) : ctrl_msg := net_carried m (new_ctrl_msg junk_msg).

Definition dma_beat (d : data_msg) : c2h_data :=
  mk_c2h_data (dm_data d) PSEUDO_QID_D (dm_last d).

(** ** The parser *)
Section parser_runs.
Context (junk_tx : net_rxtx) (junk : Z) (lm : Z) (tab : list Z) (Htab : length tab = 8%nat).

Lemma cycle_mac m mac reg tx cs ds :
  arr_get tab (dst_node_id m) = Some mac →
  parser junk_tx junk (mk_parser_st lm tab reg SEND_STAGE_MAC tx [] (m :: cs) ds) =
  Some (mk_parser_st lm tab m SEND_STAGE_CTRL (push tx (set_mac junk junk_tx lm mac)) [] cs ds).
Proof using Type.
  intros E. unfold parser, parser_mac. cbn -[set_mac]. by rewrite E.
Qed.

Lemma cycle_ctrl m tx cs ds :
  parser junk_tx junk (mk_parser_st lm tab m SEND_STAGE_CTRL tx [] cs ds) =
  Some (mk_parser_st lm tab m (if data_msg_length m =? 0 then SEND_STAGE_MAC else SEND_STAGE_DATA)
    (push tx (ctrl_msg_to_net_tx junk m junk_tx)) [] cs ds).
Proof using Type. reflexivity. Qed.

Lemma cycle_data m d tx cs ds :
  parser junk_tx junk (mk_parser_st lm tab m SEND_STAGE_DATA tx [] cs (d :: ds)) =
  Some (mk_parser_st lm tab m (if dm_last d =? 1 then SEND_STAGE_MAC else SEND_STAGE_DATA)
    (push tx (data_msg_to_net_tx d junk_tx)) [] cs ds).
Proof using Type.
  unfold parser. cbn -[data_msg_to_net_tx]. by destruct (dm_last d =? 1).
Qed.

Lemma parser_data_run m ds tx cs rest :
  closed_run ds →
  iter_step (length ds) (parser junk_tx junk)
    (mk_parser_st lm tab m SEND_STAGE_DATA tx [] cs (ds ++ rest)) =
  Some (mk_parser_st lm tab m SEND_STAGE_MAC
    (tx ++ ((λ d, data_msg_to_net_tx d junk_tx) <$> ds)) [] cs rest).
Proof using Type.
  intros (ds' & d & -> & Hd & Hf). revert tx. induction Hf as [|x ds' Hx Hf IH]; intros tx;
    cbn [app length iter_step]; rewrite cycle_data, ?Hd, ?Hx;
    cbn [mbind option_bind Z.eqb Pos.eqb]; [done|].
  rewrite IH. unfold push. by rewrite <-(assoc_L (++)).
Qed.

Lemma parser_packet p reg tx cs rest :
  packet_ok p →
  iter_step (packet_cycles p) (parser junk_tx junk)
    (mk_parser_st lm tab reg SEND_STAGE_MAC tx [] (p.1 :: cs) (p.2 ++ rest)) =
  Some (mk_parser_st lm tab p.1 SEND_STAGE_MAC (tx ++ frame junk_tx junk lm tab p) [] cs rest).
Proof using Htab.
  destruct p as [m ds]. intros (Hd & _ & Hn & _). cbn [fst snd] in *.
  destruct (arr_get_Some tab (dst_node_id m)) as [mac Emac]; [lia|].
  unfold packet_cycles. cbn [Nat.add iter_step snd]. rewrite (cycle_mac _ _ _ _ _ _ Emac). cbn [mbind option_bind].
  rewrite cycle_ctrl. cbn [mbind option_bind].
  unfold frame, arr_nth. cbn [fst snd]. rewrite Emac. cbn [default].
  destruct Hd as [[E ->]|[E Hd]].
  - rewrite E. cbn. unfold push. by rewrite <-(assoc_L (++)).
  - rewrite (proj2 (Z.eqb_neq _ _) E), parser_data_run by done.
    unfold push. by rewrite <-!(assoc_L (++)).
Qed.

Lemma parser_packets ps reg tx :
  Forall packet_ok ps →
  ∃ reg', iter_step (sum_list_with packet_cycles ps) (parser junk_tx junk)
      (mk_parser_st lm tab reg SEND_STAGE_MAC tx [] ps.*1 (ps ≫= snd)) =
    Some (mk_parser_st lm tab reg' SEND_STAGE_MAC
      (tx ++ (ps ≫= frame junk_tx junk lm tab)) [] [] []).
Proof using Htab.
  intros Hps. revert reg tx. induction Hps as [|p ps Hp Hps IH]; intros reg tx.
  - exists reg. cbn. by rewrite app_nil_r.
  - destruct (IH p.1 (tx ++ frame junk_tx junk lm tab p)) as [reg' E]. exists reg'.
    cbn [sum_list_with]. rewrite iter_step_app, fmap_cons, !bind_cons.
    rewrite parser_packet by done. cbn [mbind option_bind].
    rewrite (assoc_L (++)). exact E.
Qed.
End parser_runs.

(** ** The deparser *)
Section deparser_runs.
Context (junk_msg : ctrl_msg) (junk : Z).

Definition delivers_data (m : ctrl_msg) : bool := negb (data_msg_length m =? 0).

Lemma received_fields m :
  for_directory (received junk_msg m) = for_directory m ∧
  data_msg_length (received junk_msg m) = data_msg_length m ∧
  deliver_cmd (received junk_msg m) = deliver_cmd m.
Proof using Type. by destruct m. Qed.

Lemma cycle_recv_mac reg b bs cc dc cmds data :
  deparser junk_msg junk (mk_deparser_st reg RECV_STAGE_MAC (b :: bs) cc dc cmds data) =
  mk_deparser_st reg RECV_STAGE_CTRL bs cc dc cmds data.
Proof using Type. reflexivity. Qed.

Lemma cycle_recv_ctrl jz tx m reg bs cc dc cmds data :
  ctrl_msg_wf m →
  deparser junk_msg junk
    (mk_deparser_st reg RECV_STAGE_CTRL (ctrl_msg_to_net_tx jz m tx :: bs) cc dc cmds data) =
  mk_deparser_st (received junk_msg m)
    (if delivers_data m then RECV_STAGE_DATA else RECV_STAGE_MAC) bs
    (if for_directory m then cc else push cc (received junk_msg m))
    (if for_directory m then push dc (received junk_msg m) else dc)
    (if delivers_data m then push cmds (deliver_cmd m) else cmds) data.
Proof using Type.
  intros Hwf. set (b := ctrl_msg_to_net_tx jz m tx).
  transitivity (deparser_ctrl junk_msg junk b
    (mk_deparser_st reg RECV_STAGE_CTRL bs cc dc cmds data)); [reflexivity|].
  unfold deparser_ctrl, b. rewrite (net_ctrl_decode jz junk m _ tx Hwf).
  fold (received junk_msg m).
  destruct (received_fields m) as (E1 & E2 & E3). rewrite E1, E2, E3. unfold delivers_data.
  destruct (data_msg_length m =? 0), (for_directory m); reflexivity.
Qed.

Lemma cycle_recv_data d tx reg bs cc dc cmds data :
  fits 512 (dm_data d) →
  deparser junk_msg junk
    (mk_deparser_st reg RECV_STAGE_DATA (data_msg_to_net_tx d tx :: bs) cc dc cmds data) =
  mk_deparser_st reg (if dm_last d =? 1 then RECV_STAGE_MAC else RECV_STAGE_DATA) bs
    cc dc cmds (push data (dma_beat d)).
Proof using Type.
  intros Hf. set (b := data_msg_to_net_tx d tx).
  transitivity (deparser_data junk b
    (mk_deparser_st reg RECV_STAGE_DATA bs cc dc cmds data)); [reflexivity|].
  unfold deparser_data, b. rewrite net_data_decode by done. reflexivity.
Qed.

Lemma deparser_data_run tx reg ds bs cc dc cmds data :
  closed_run ds → Forall (λ d, fits 512 (dm_data d)) ds →
  Nat.iter (length ds) (deparser junk_msg junk)
    (mk_deparser_st reg RECV_STAGE_DATA
       (((λ d, data_msg_to_net_tx d tx) <$> ds) ++ bs) cc dc cmds data) =
  mk_deparser_st reg RECV_STAGE_MAC bs cc dc cmds (data ++ (dma_beat <$> ds)).
Proof using Type.
  intros (ds' & d & -> & Hd & Hf). revert data.
  induction Hf as [|x ds' Hx Hf IH]; intros data [Hx' Hfit]%Forall_cons.
  - cbn [app fmap list_fmap length]. rewrite Nat.iter_succ_r, cycle_recv_data, Hd by done. done.
  - cbn [app length]. rewrite fmap_cons. cbn [app].
    rewrite Nat.iter_succ_r, cycle_recv_data, Hx by done.
    simpl (_ =? _). cbn iota. rewrite IH by done. unfold push.
    by rewrite <-(assoc_L (++)), fmap_cons.
Qed.

Lemma deparser_packet jt jz lm tab p reg bs cc dc cmds data :
  packet_ok p →
  Nat.iter (packet_cycles p) (deparser junk_msg junk)
    (mk_deparser_st reg RECV_STAGE_MAC (frame jt jz lm tab p ++ bs) cc dc cmds data) =
  mk_deparser_st (received junk_msg p.1) RECV_STAGE_MAC bs
    (if for_directory p.1 then cc else push cc (received junk_msg p.1))
    (if for_directory p.1 then push dc (received junk_msg p.1) else dc)
    (if delivers_data p.1 then push cmds (deliver_cmd p.1) else cmds)
    (data ++ (dma_beat <$> p.2)).
Proof using Type.
  destruct p as [m ds]. intros (Hd & Hwf & _ & Hf). cbn [fst snd] in *.
  unfold packet_cycles, frame. cbn [Nat.add fst snd app].
  rewrite !Nat.iter_succ_r, cycle_recv_mac, cycle_recv_ctrl by done.
  destruct Hd as [[E ->]|[E Hd]].
  - unfold delivers_data. rewrite E. cbn. by rewrite app_nil_r.
  - assert (delivers_data m = true) as -> by (unfold delivers_data; by rewrite (proj2 (Z.eqb_neq _ _) E)).
    by rewrite deparser_data_run.
Qed.

Lemma deparser_packets jt jz lm tab ps reg cc dc cmds data :
  Forall packet_ok ps →
  ∃ reg', Nat.iter (sum_list_with packet_cycles ps) (deparser junk_msg junk)
      (mk_deparser_st reg RECV_STAGE_MAC (ps ≫= frame jt jz lm tab) cc dc cmds data) =
    mk_deparser_st reg' RECV_STAGE_MAC []
      (cc ++ (received junk_msg <$> filter (λ m, for_directory m = false) ps.*1))
      (dc ++ (received junk_msg <$> filter (λ m, for_directory m = true) ps.*1))
      (cmds ++ (deliver_cmd <$> filter (λ m, data_msg_length m ≠ 0) ps.*1))
      (data ++ (dma_beat <$> (ps ≫= snd))).
Proof using Type.
  intros Hps. revert reg cc dc cmds data.
  induction Hps as [|p ps Hp Hps IH]; intros reg cc dc cmds data.
  - exists reg. cbn. by rewrite !app_nil_r.
  - rewrite !bind_cons. cbn [sum_list_with]. rewrite Nat.add_comm, Nat.iter_add.
    rewrite deparser_packet by done.
    edestruct IH as [reg' E]. exists reg'. rewrite E. unfold delivers_data, push.
    rewrite fmap_cons, !filter_cons, (fmap_app dma_beat).
    destruct (for_directory p.1), (Z.eqb_spec (data_msg_length p.1) 0);
      repeat case_decide; try done; cbn [negb]; rewrite ?fmap_cons, <-?(assoc_L (++)); done.
Qed.
End deparser_runs.

(** ** The merge *)
Inductive merges {A} : list A → list A → list A → Prop :=
| merges_nil : merges [] [] []
| merges_left x l1 l2 l : merges l1 l2 l → merges (x :: l1) l2 (x :: l)
| merges_right x l1 l2 l : merges l1 l2 l → merges l1 (x :: l2) (x :: l).

(** New messages arrive between two cycles. *)
Definition arrive (a b : list ctrl_msg) (s : msg_copy) : msg_copy :=
  mk_msg_copy (mc_reg_flag s) (ctrl_msg_f_CC_t_CMC_in s ++ a) (ctrl_msg_f_DC_t_CMC_in s ++ b)
    (ctrl_msg_f_CMC_t_DMF_out s).

Lemma copy_merges f cc dc out :
  ∃ f' l, Nat.iter (length cc + length dc) ctrlMsgCopy (mk_msg_copy f cc dc out) =
    mk_msg_copy f' [] [] (out ++ l) ∧ merges cc dc l.
Proof.
  remember (length cc + length dc)%nat as n eqn:Hn. revert f cc dc out Hn.
  induction n as [|n IH]; intros f cc dc out Hn.
  - destruct cc, dc; try done. exists f, []. split; [by rewrite app_nil_r|constructor].
  - rewrite Nat.iter_succ_r.
    assert ((∃ m cc', cc = m :: cc' ∧ ctrlMsgCopy (mk_msg_copy f cc dc out) =
               mk_msg_copy 0 cc' dc (push out m)) ∨
            (∃ m dc', dc = m :: dc' ∧ ctrlMsgCopy (mk_msg_copy f cc dc out) =
               mk_msg_copy 1 cc dc' (push out m)))
      as [(m & cc' & -> & ->)|(m & dc' & -> & ->)].
    { unfold ctrlMsgCopy. cbn. destruct cc as [|m cc], dc as [|m' dc]; try done;
        [right|left|destruct (f =? 1); [left|right]]; by eexists _, _. }
    + destruct (IH 0 cc' dc (push out m)) as (f' & l & E & Hm); [cbn in Hn; lia|].
      exists f', (m :: l). rewrite E. unfold push. rewrite <-(assoc_L (++)).
      split; [done|by constructor].
    + destruct (IH 1 cc dc' (push out m)) as (f' & l & E & Hm); [cbn in Hn; lia|].
      exists f', (m :: l). rewrite E. unfold push. rewrite <-(assoc_L (++)).
      split; [done|by constructor].
Qed.

(** ** Messages and data leave [dataMsgFetch] as packets *)
Inductive fetch_step : msg_fetch → msg_fetch → Prop :=
| fetch_tick s : fetch_step s (dataMsgFetch s)
| fetch_arrive s m :
    fetch_step s (s <| ctrl_msg_f_CMC_t_DMF_in := push (ctrl_msg_f_CMC_t_DMF_in s) m |>)
| fetch_data s h :
    fits 1 (h2c_last h) →
    fetch_step s (s <| h2c_data_f_DD_t_DMF_in := push (h2c_data_f_DD_t_DMF_in s) h |>)
| fetch_loop s m ms :
    ctrl_msg_f_DMF_t_DMF_out s = m :: ms →
    fetch_step s (s <| ctrl_msg_f_DMF_t_DMF_out := ms |>
                    <| ctrl_msg_f_DMF_t_DMF_in := push (ctrl_msg_f_DMF_t_DMF_in s) m |>).

Definition fetch_init (s : msg_fetch) : Prop :=
  reg_h2c_data_end_flag s = 1 ∧ h2c_cmd_f_DMF_t_CD_out s = [] ∧
  h2c_data_f_DD_t_DMF_in s = [] ∧ ctrl_msg_f_CMC_t_DMF_in s = [] ∧
  ctrl_msg_f_DMF_t_P_out s = [] ∧ data_msg_f_DMF_t_P_out s = [] ∧
  ctrl_msg_f_DMF_t_DMF_out s = [] ∧ ctrl_msg_f_DMF_t_DMF_in s = [].

(** The messages [P] and the data [D] are packets; [flag = 0] when the data of the
    last one is still incomplete. *)
Definition run_ok (p : packet) : Prop :=
  data_msg_length p.1 = 0 ∧ p.2 = [] ∨ data_msg_length p.1 ≠ 0 ∧ closed_run p.2.

Definition packed (flag : Z) (P : list ctrl_msg) (D : list data_msg) : Prop :=
  ∃ ps, Forall run_ok ps ∧
    (flag = 1 ∧ P = ps.*1 ∧ D = ps ≫= snd ∨
     flag = 0 ∧ ∃ m ds, P = ps.*1 ++ [m] ∧ D = (ps ≫= snd) ++ ds ∧
       data_msg_length m ≠ 0 ∧ Forall (λ d, dm_last d = 0) ds).

(** The read that fetches the data of a message. *)
Definition read_of (m : ctrl_msg) : h2c_cmd :=
  mk_h2c_cmd (default 0 (fetch_addr m)) DSM_CACHE_LINE_SIZE PSEUDO_QID_DMF.

Definition carries_data (m : ctrl_msg) : Prop := data_msg_length m ≠ 0.
#[export] Instance carries_data_dec m : Decision (carries_data m) := _.

Record fetch_inv (s : msg_fetch) : Prop := {
  fi_packed : packed (reg_h2c_data_end_flag s) (ctrl_msg_f_DMF_t_P_out s)
                (data_msg_f_DMF_t_P_out s);
  fi_loop : Forall carries_data (ctrl_msg_f_DMF_t_DMF_in s ++ ctrl_msg_f_DMF_t_DMF_out s);
  fi_reads : h2c_cmd_f_DMF_t_CD_out s =
    read_of <$> (filter carries_data (ctrl_msg_f_DMF_t_P_out s) ++
                 ctrl_msg_f_DMF_t_DMF_in s ++ ctrl_msg_f_DMF_t_DMF_out s);
  fi_last : Forall (λ h, fits 1 (h2c_last h)) (h2c_data_f_DD_t_DMF_in s);
}.

Lemma packed_beat flag P D d :
  packed 0 P D → dm_last d = 0 ∧ flag = 0 ∨ dm_last d = 1 ∧ flag = 1 →
  packed flag P (push D d).
Proof.
  intros (ps & Hps & [[? _]|(_ & m & ds & -> & -> & Hm & Hds)]) Hd; [done|].
  unfold push. destruct Hd as [[Hd ->]|[Hd ->]].
  - exists ps. split; [done|]. right. split; [done|].
    exists m, (ds ++ [d]). rewrite (assoc_L (++)). split_and!; try done.
    apply Forall_app. split; [done|]. by apply Forall_singleton.
  - exists (ps ++ [(m, ds ++ [d])]). split.
    + apply Forall_app. split; [done|]. apply Forall_singleton. right. split; [done|].
      by exists ds, d.
    + left. rewrite fmap_app, bind_app. cbn. rewrite app_nil_r, (assoc_L (++)). done.
Qed.

Lemma packed_open flag P D m d :
  packed 1 P D → carries_data m → dm_last d = 0 ∧ flag = 0 ∨ dm_last d = 1 ∧ flag = 1 →
  packed flag (push P m) (push D d).
Proof.
  intros (ps & Hps & [(_ & -> & ->)|[? _]]) Hm Hd; [|done].
  apply packed_beat; [|done]. exists ps. split; [done|]. right. split; [done|].
  exists m, []. rewrite app_nil_r. by split_and!.
Qed.

Lemma packed_plain P D m :
  packed 1 P D → data_msg_length m = 0 → packed 1 (push P m) D.
Proof.
  intros (ps & Hps & [(_ & -> & ->)|[? _]]) Hm; [|done].
  exists (ps ++ [(m, [])]). split.
  - apply Forall_app. split; [done|]. apply Forall_singleton. by left.
  - left. rewrite fmap_app, bind_app. cbn. by rewrite app_nil_r.
Qed.

Lemma bit_cases x : fits 1 x → x = 0 ∨ x = 1.
Proof. unfold fits. lia. Qed.

Lemma read_of_len m n a :
  fetch_addr m = Some a →
  read_of (m <| data_msg_length := n |>) = mk_h2c_cmd a DSM_CACHE_LINE_SIZE PSEUDO_QID_DMF.
Proof.
  intros E. unfold read_of.
  change (fetch_addr (m <| data_msg_length := n |>)) with (fetch_addr m). by rewrite E.
Qed.

Lemma reads_push l m n a :
  fetch_addr m = Some a →
  (read_of <$> l) ++ [mk_h2c_cmd a DSM_CACHE_LINE_SIZE PSEUDO_QID_DMF] =
  read_of <$> (l ++ [m <| data_msg_length := n |>]).
Proof. intros E. by rewrite fmap_app, list_fmap_singleton, (read_of_len _ _ _ E). Qed.

Lemma filter_plain P m :
  data_msg_length m = 0 → filter carries_data (P ++ [m]) = filter carries_data P.
Proof.
  intros Hm. rewrite filter_app, filter_cons_False by (unfold carries_data; lia).
  by rewrite filter_nil, app_nil_r.
Qed.

Lemma fetch_ctrl_inv m s :
  fetch_inv s → reg_h2c_data_end_flag s = 1 → fetch_inv (fetch_ctrl m s).
Proof.
  intros [Hp Hl Hr Hh] E. rewrite E in Hp. unfold fetch_ctrl.
  destruct (fetch_addr m) as [ad|] eqn:Ead; split; cbn; rewrite ?E; try done; unfold push.
  - rewrite (assoc_L (++)). apply Forall_app. split; [done|]. by apply Forall_singleton.
  - rewrite Hr, !(assoc_L (++)). by apply reads_push.
  - by apply packed_plain.
  - by rewrite filter_plain.
Qed.

Lemma tick_inv s : fetch_inv s → fetch_inv (dataMsgFetch s).
Proof.
  destruct s as [flag dbg cmds hs cs P D lo li ds]. intros Hinv. pose proof Hinv as [Hp Hl Hr Hh].
  cbn in Hp, Hl, Hr, Hh. unfold dataMsgFetch. cbn [reg_h2c_data_end_flag set_field].
  assert (flag = 0 ∨ flag = 1) as [-> | ->].
  { destruct Hp as (_ & _ & [[? _]|[? _]]); auto. }
  - cbn. destruct hs as [|h hs]; [by split|]. apply Forall_cons in Hh as [Hh Hhs].
    destruct (bit_cases _ Hh) as [E|E]; rewrite E; cbn; split; cbn; try done;
      eapply packed_beat; try exact Hp; auto.
  - cbn -[fetch_ctrl]. destruct hs as [|h hs]; [|destruct li as [|m li]].
    1,2: destruct cs as [|m cs]; [by split|]; apply fetch_ctrl_inv; [by split|done].
    cbn in Hl. apply Forall_cons in Hl as [Hm Hl]. apply Forall_cons in Hh as [Hh Hhs].
    destruct (bit_cases _ Hh) as [E|E]; rewrite E; cbn; split; cbn; try done;
      try (by eapply packed_open; try exact Hp; auto);
      unfold push; rewrite Hr, filter_app, filter_cons_True, filter_nil by done;
      by rewrite <-!(assoc_L (++)).
Qed.

Lemma step_fetch_inv s s' : fetch_inv s → fetch_step s s' → fetch_inv s'.
Proof.
  intros Hi Hs. destruct Hs as [s|s m|s h Hh|s m ms E]; [by apply tick_inv| | |];
    destruct Hi as [Hp Hl Hr Hb]; split; cbn; try done.
  - unfold push. apply Forall_app. split; [done|]. by apply Forall_singleton.
  - unfold push. rewrite E in Hl. by rewrite <-(assoc_L (++)).
  - unfold push. rewrite Hr, E. by rewrite <-!(assoc_L (++)).
Qed.

Lemma init_fetch_inv s : fetch_init s → fetch_inv s.
Proof.
  intros (I1 & I2 & I3 & I4 & I5 & I6 & I7 & I8).
  split; rewrite ?I1, ?I2, ?I3, ?I5, ?I6, ?I7, ?I8; try done; try constructor.
  exists []. split; [done|]. by left.
Qed.

(** ** Properties *)

(** The types the directory controller handles, by name: requests, and the
    acknowledgements of agents. *)
Definition directory_types : list Z :=
  mtype_val <$> [R_READ_MISS; R_WRITE_MISS; R_WRITE_SHARED; R_EVICT_SHARED; R_EVICT_DIRTY;
    AGENT_2_DIR_READ_MISS_DIRTY_ACKDATA; AGENT_2_DIR_WRITE_MISS_DIRTY_ACK;
    AGENT_2_DIR_WRITE_MISS_SHARED_ACK; AGENT_2_DIR_WRITE_SHARED_NOTONLY_ACK;
    AGENT_2_DIR_M_CHECK_FAIL].

Definition to_directory (m : ctrl_msg) : Prop := mtype m ∈ directory_types.
#[export] Instance to_directory_dec m : Decision (to_directory m) := _.

Lemma for_directory_spec m : for_directory m = true ↔ to_directory m.
Proof.
  unfold to_directory, for_directory. rewrite !list_elem_of_In. cbn.
  destruct (Z.leb_spec 1 (mtype m)), (Z.leb_spec (mtype m) 5), (Z.leb_spec 31 (mtype m)),
    (Z.leb_spec (mtype m) 35); cbn; split; intros; try done; try lia.
Qed.

(** C24: End to end through the network.  For any queue of packets, the parser
    sends, without undefined behaviour, exactly their frames in order (each
    starting with the MAC of its destination node) in two cycles plus one per
    data beat, and a receiving deparser, in as many cycles, hands every message
    to the controller its type belongs to, in order and with the carried fields
    intact, issues one DMA write for each message with data, and forwards all
    data beats unchanged in order. *)
Theorem network_delivers junk_tx junk junk_msg junk' lm tab reg reg' ps :
  Forall packet_ok ps → length tab = 8%nat →
  let cycles := sum_list_with packet_cycles ps in
  ∃ s1, iter_step cycles (parser junk_tx junk)
          (mk_parser_st lm tab reg SEND_STAGE_MAC [] [] ps.*1 (ps ≫= snd)) = Some s1 ∧
    ctrl_msg_f_DMF_t_P_in s1 = [] ∧ data_msg_f_DMF_t_P_in s1 = [] ∧
    reg_send_stage s1 = SEND_STAGE_MAC ∧ net_tx s1 = ps ≫= frame junk_tx junk lm tab ∧
    ∃ reg2, Nat.iter cycles (deparser junk_msg junk')
        (mk_deparser_st reg' RECV_STAGE_MAC (net_tx s1) [] [] [] []) =
      mk_deparser_st reg2 RECV_STAGE_MAC []
        (received junk_msg <$> filter (λ m, ¬ to_directory m) ps.*1)
        (received junk_msg <$> filter to_directory ps.*1)
        (deliver_cmd <$> filter (λ m, data_msg_length m ≠ 0) ps.*1)
        (dma_beat <$> (ps ≫= snd)).
Proof.
  intros Hps Htab. cbv zeta.
  destruct (parser_packets junk_tx junk lm tab Htab ps reg [] Hps) as [r1 E1].
  eexists. split; [exact E1|]. split_and!; try done. cbn [net_tx app].
  destruct (deparser_packets junk_msg junk' junk_tx junk lm tab ps reg' [] [] [] [] Hps)
    as [r2 E2].
  exists r2. rewrite E2. cbn [app]. f_equal; f_equal; apply list_filter_iff; intros m;
    rewrite <-for_directory_spec; destruct (for_directory m); naive_solver.
Qed.

(** Whatever the order in which messages, data beats and looped-back messages
    arrive, [dataMsgFetch] hands the parser well-formed packets: the messages and
    the beats it has emitted are, in order, packets whose data is a run of beats
    closed by the one marked last (the data of the last message may still be
    incomplete while the module waits for more), and the reads it has issued are
    those of the messages with data, in the order in which their data is used. *)
Theorem fetch_packs s :
  reachable fetch_init fetch_step s →
  packed (reg_h2c_data_end_flag s) (ctrl_msg_f_DMF_t_P_out s) (data_msg_f_DMF_t_P_out s) ∧
  h2c_cmd_f_DMF_t_CD_out s =
    read_of <$> (filter carries_data (ctrl_msg_f_DMF_t_P_out s) ++
                 ctrl_msg_f_DMF_t_DMF_in s ++ ctrl_msg_f_DMF_t_DMF_out s).
Proof.
  intros Hr. destruct (reachable_ind_inv fetch_init fetch_step fetch_inv
    init_fetch_inv step_fetch_inv s Hr) as [? _ ? _]. done.
Qed.

(** The merge of the two controllers' messages loses and invents nothing: it
    empties both queues in as many cycles as there are messages, and what it
    emits is an interleaving of the two. *)
Theorem copy_interleaves f cc dc out :
  ∃ f' l, Nat.iter (length cc + length dc) ctrlMsgCopy (mk_msg_copy f cc dc out) =
    mk_msg_copy f' [] [] (out ++ l) ∧ merges cc dc l.
Proof. apply copy_merges. Qed.

(** The merge starves neither controller: the message at the head of either
    queue is emitted by the second cycle at the latest, whatever arrives in
    between. *)
Theorem copy_fair f cc dc out a b m :
  let s0 := mk_msg_copy f cc dc out in
  let s1 := ctrlMsgCopy s0 in
  let s2 := ctrlMsgCopy (arrive a b s1) in
  head cc = Some m ∨ head dc = Some m →
  ctrl_msg_f_CMC_t_DMF_out s1 = out ++ [m] ∨
  ctrl_msg_f_CMC_t_DMF_out s2 = ctrl_msg_f_CMC_t_DMF_out s1 ++ [m].
Proof.
  intros s0 s1 s2 Hm. subst s0 s1 s2. unfold ctrlMsgCopy, arrive, push. cbn.
  destruct cc as [|m1 cc], dc as [|m2 dc]; cbn in *; destruct Hm as [Hm|Hm]; try done;
    injection Hm as ->; try (by left).
  - destruct (f =? 1); cbn; [by left|right]. by destruct (dc ++ b).
  - destruct (f =? 1); cbn; [right|by left]. by destruct (cc ++ a).
Qed.

(** ** Witnesses *)
Definition ex_data : data_msg := mk_data_msg 0xbeef ones64 1.
Definition ex_packets : list packet :=
  [(ctrl_msg_zero <| mtype := R_READ_MISS |> <| dst_node_id := 3 |>, []);
   (ctrl_msg_zero <| mtype := DIR_2_APP_READ_MISS_ACKDATA |>
      <| data_msg_length := DSM_CACHE_LINE_SIZE |>, [ex_data])].

Lemma ex_packets_ok : Forall packet_ok ex_packets.
Proof.
  repeat (apply Forall_cons; split); [| |by apply Forall_nil].
  - split; [by left|]. split; [|split; [done|by apply Forall_nil]].
    split; try done. split; [done|]. repeat (apply Forall_cons; split; [done|]). done.
  - split; [right; split; [done|by exists [], ex_data]|].
    split; [|split; [done|by apply Forall_singleton]].
    split; try done. split; [done|]. repeat (apply Forall_cons; split; [done|]). done.
Qed.

Lemma network_delivers_witness :
  ∃ s1, iter_step 5 (parser (mk_net_rxtx 0 0 0) 0)
      (mk_parser_st 0 [1; 2; 3; 4; 5; 6; 7; 8] ctrl_msg_zero SEND_STAGE_MAC [] []
         ex_packets.*1 (ex_packets ≫= snd)) = Some s1 ∧ length (net_tx s1) = 5%nat.
Proof.
  destruct (network_delivers (mk_net_rxtx 0 0 0) 0 ctrl_msg_zero 0 0
    [1; 2; 3; 4; 5; 6; 7; 8] ctrl_msg_zero ctrl_msg_zero ex_packets ex_packets_ok eq_refl)
    as (s1 & E & _ & _ & _ & T & _).
  exists s1. split; [exact E|]. by rewrite T.
Defined.

Definition ex_fetch : msg_fetch := mk_msg_fetch 1 0 [] [] [] [] [] [] [] 0.
Definition ex_fetched : msg_fetch :=
  dataMsgFetch (ex_fetch <| ctrl_msg_f_CMC_t_DMF_in :=
    push [] (ctrl_msg_zero <| mtype := R_EVICT_DIRTY |> <| req_cline_addr := 0x7000 |>) |>).

Lemma fetch_packs_witness :
  packed 1 (ctrl_msg_f_DMF_t_P_out ex_fetched) (data_msg_f_DMF_t_P_out ex_fetched) ∧
  h2c_cmd_f_DMF_t_CD_out ex_fetched = [mk_h2c_cmd 0x7000 DSM_CACHE_LINE_SIZE PSEUDO_QID_DMF].
Proof.
  destruct (fetch_packs ex_fetched) as [H1 H2].
  - exists ex_fetch. split; [by repeat split|].
    eapply rtc_l; [apply fetch_arrive|]. apply rtc_once, fetch_tick.
  - split; [exact H1|]. rewrite H2. by vm_compute.
Defined.

Lemma copy_fair_witness :
  let m := ctrl_msg_zero <| mtype := R_READ_MISS |> in
  let s1 := ctrlMsgCopy (mk_msg_copy 0 [m] [ctrl_msg_zero] []) in
  ctrl_msg_f_CMC_t_DMF_out s1 = [m] ∨
  ctrl_msg_f_CMC_t_DMF_out (ctrlMsgCopy (arrive [] [] s1)) = ctrl_msg_f_CMC_t_DMF_out s1 ++ [m].
Proof. intros m s1. apply (copy_fair 0 [m] [ctrl_msg_zero] [] [] [] m). by left. Defined.
