(* ===== verification/Qdma.v ===== *)
(** * Qdma: the host side, [qdma/*.cpp]

    Towards the FPGA, reads and read data are passed on ([h2cCmdDeliverHLS],
    [h2cDataDeliverHLS]) and host writes are sorted into initialisations and
    messages ([h2cCtrlMsgDeliverHLS]).  Towards the host, a message is given a
    queue ([c2hCtrlMsgDeliverHLS]), written to the queue's ring buffer in host
    memory ([c2hAppMultiBufferMgrHLS], [c2hSysMultiBufferMgrHLS]), and the DMA
    writes of three sources are arbitrated ([c2hCmdDataDeliverHLS]). *)
From S2P Require Import Prelude DsmType Wire.
From stdpp Require Import base numbers option list list_numbers relations.
Open Scope Z_scope.

(** ** [h2cCmdDeliverHLS], [h2cDataDeliverHLS] *)
Record cmd_deliver := mk_cmd_deliver {
  h2c_cmd_f_DMF_t_CD_in : list h2c_cmd;
  h2c_cmd_f_CD_t_QS_out : list h2c_cmd;
}.

Definition h2cCmdDeliverHLS (s : cmd_deliver) : cmd_deliver :=
  match h2c_cmd_f_DMF_t_CD_in s with
  | c :: cs => mk_cmd_deliver cs (push (h2c_cmd_f_CD_t_QS_out s) (c <| h2c_qid := 0 |>))
  | [] => s
  end.

Record data_deliver := mk_data_deliver {
  h2c_data_f_QS_t_DD_in : list h2c_data;
  h2c_data_f_DD_t_DMF_out : list h2c_data;
}.

Definition h2cDataDeliverHLS (s : data_deliver) : data_deliver :=
  match h2c_data_f_QS_t_DD_in s with
  | d :: ds => mk_data_deliver ds (push (h2c_data_f_DD_t_DMF_out s) d)
  | [] => s
  end.

(** ** [h2cCtrlMsgDeliverHLS] *)
Record h2c_msg_deliver := mk_h2c_msg_deliver {
  hm_reg_count : Z;
  hm_reg_msg : ctrl_msg;
  h2c_w_f_QS_t_CMD_in : list h2c_w;
  ctrl_msg_f_CMD_t_CC_out : list ctrl_msg;
  hm_net_init_msg : list net_init_msg;
  hm_dir_data_init : list dir_data;
  CMD_debug_count : Z;
  CMD_debug_msg : ctrl_msg;
}.
#[export] Instance eta_h2c_msg_deliver : Eta h2c_msg_deliver := fun s =>
  mk_h2c_msg_deliver (hm_reg_count s) (hm_reg_msg s) (h2c_w_f_QS_t_CMD_in s)
    (ctrl_msg_f_CMD_t_CC_out s) (hm_net_init_msg s) (hm_dir_data_init s)
    (CMD_debug_count s) (CMD_debug_msg s).

Definition h2cCtrlMsgDeliverHLS (junk : ctrl_msg) (s : h2c_msg_deliver) : h2c_msg_deliver :=
  let wire_count := hm_reg_count s in
  let s := s <| CMD_debug_count := wire_count |> <| CMD_debug_msg := hm_reg_msg s |> in
  match h2c_w_f_QS_t_CMD_in s with
  | w :: ws =>
      let s := s <| h2c_w_f_QS_t_CMD_in := ws |> in
      let t := extract_mtype_from_h2c_w w in
      if t =? INIT_DIR then
        s <| hm_dir_data_init := push (hm_dir_data_init s) (h2c_w_to_dir_data w) |>
      else if t =? INIT_NET then
        s <| hm_net_init_msg := push (hm_net_init_msg s) (h2c_w_to_net_init_msg w) |>
      else
        let m := h2c_w_to_ctrl_msg w (new_ctrl_msg junk) in
        s <| ctrl_msg_f_CMD_t_CC_out := push (ctrl_msg_f_CMD_t_CC_out s) m |>
          <| hm_reg_count := wrap 32 (wire_count + 1) |> <| hm_reg_msg := m |>
  | [] => s
  end.

(** ** [c2hCtrlMsgDeliverHLS] *)
Record c2h_msg_deliver := mk_c2h_msg_deliver {
  reg_q_id : Z;
  ctrl_msg_f_CC_t_CMD_in : list ctrl_msg;
  c2h_data_f_CMD_t_ABM_out : list c2h_data;
  c2h_data_f_CMD_t_SBM_out : list c2h_data;
}.

(** The queue of a message for the system threads, and the next [reg_q_id]. *)
Definition sys_queue (q_num wire_q_id : Z) : Z * Z :=
  if q_num - 1 <=? wire_q_id then (0, 0) else (wire_q_id, wrap 32 (wire_q_id + 1)).

Definition c2hCtrlMsgDeliverHLS (junk : c2h_data) (q_num : Z) (s : c2h_msg_deliver)
    : c2h_msg_deliver :=
  match ctrl_msg_f_CC_t_CMD_in s with
  | m :: ms =>
      if dst_thread_type m =? THREAD_TYPE_APP then
        let d := (ctrl_msg_to_c2h_data m junk PSEUDO_QID_BMAPP).2
                   <| c2h_ctrl_qid := req_cline_appThreadID m |> in
        mk_c2h_msg_deliver (reg_q_id s) ms (push (c2h_data_f_CMD_t_ABM_out s) d)
          (c2h_data_f_CMD_t_SBM_out s)
      else
        let '(tmp_q_id, next) := sys_queue q_num (reg_q_id s) in
        let d := (ctrl_msg_to_c2h_data m junk PSEUDO_QID_BMSYS).2
                   <| c2h_ctrl_qid := wrap 11 tmp_q_id |> in
        mk_c2h_msg_deliver next ms (c2h_data_f_CMD_t_ABM_out s)
          (push (c2h_data_f_CMD_t_SBM_out s) d)
  | [] => s
  end.

(** ** [c2hAppMultiBufferMgrHLS] and [c2hSysMultiBufferMgrHLS]

    The two modules are the same code over [max_appt_num_per_node] and
    [max_syst_num_per_node] queues; [qid] is the pseudo queue of the module. *)
Record buffer_mgr := mk_buffer_mgr {
  bm_reg_count : Z;
  reg_q_tidx_arr : list Z;
  bm_reg_retry_flag : Z;
  reg_retry_c2h_data : c2h_data;
  q_addr_arr : list Z;
  q_hidx_arr : list Z;
  q_tidx_arr : list Z;
  c2h_cmd_f_BM_t_CDD_out : list c2h_cmd;
  c2h_data_f_BM_t_CDD_out : list c2h_data;
  c2h_data_f_CMD_t_BM_in : list c2h_data;
  bm_debug_count : Z;
}.
#[export] Instance eta_buffer_mgr : Eta buffer_mgr := fun s =>
  mk_buffer_mgr (bm_reg_count s) (reg_q_tidx_arr s) (bm_reg_retry_flag s)
    (reg_retry_c2h_data s) (q_addr_arr s) (q_hidx_arr s) (q_tidx_arr s)
    (c2h_cmd_f_BM_t_CDD_out s) (c2h_data_f_BM_t_CDD_out s) (c2h_data_f_CMD_t_BM_in s)
    (bm_debug_count s).

(** The body of [if(tmp_c2h_data_ready_flag)]. *)
Definition buffer_put (qid : Z) (d : c2h_data) (s : buffer_mgr) : option buffer_mgr :=
  let s := s <| reg_retry_c2h_data := d |> in
  let tmp_q_id := wrap 8 (c2h_ctrl_qid d) in
  tmp_q_addr ← arr_get (q_addr_arr s) tmp_q_id;
  tidx ← arr_get (reg_q_tidx_arr s) tmp_q_id;
  hidx ← arr_get (q_hidx_arr s) tmp_q_id;
  let tmp_q_tidx := wrap 8 tidx in
  let tmp_q_hidx := wrap 8 hidx in
  let tmp_q_tidx_plus1 :=
    if tmp_q_tidx =? max_msg_num_per_q - 1 then 0 else wrap 8 (tmp_q_tidx + 1) in
  if negb (tmp_q_tidx_plus1 =? tmp_q_hidx) then
    t ← arr_set (reg_q_tidx_arr s) tmp_q_id tmp_q_tidx_plus1;
    Some (s <| c2h_cmd_f_BM_t_CDD_out := push (c2h_cmd_f_BM_t_CDD_out s)
                 (mk_c2h_cmd (wrap 64 (tmp_q_addr + max_msg_length * tmp_q_tidx))
                    max_msg_length qid) |>
            <| c2h_data_f_BM_t_CDD_out :=
                 push (c2h_data_f_BM_t_CDD_out s) (d <| c2h_ctrl_qid := qid |>) |>
            <| reg_q_tidx_arr := t |> <| bm_reg_retry_flag := 0 |>
            <| bm_reg_count := wrap 32 (bm_debug_count s + 1) |>)
  else Some (s <| bm_reg_retry_flag := 1 |>).

(** One call of either module. *)
Definition c2hMultiBufferMgrHLS (qid : Z) (s : buffer_mgr) : option buffer_mgr :=
  let s := s <| bm_debug_count := bm_reg_count s |> <| q_tidx_arr := reg_q_tidx_arr s |> in
  if negb (bm_reg_retry_flag s =? 0) then buffer_put qid (reg_retry_c2h_data s) s
  else match c2h_data_f_CMD_t_BM_in s with
       | d :: ds => buffer_put qid d (s <| c2h_data_f_CMD_t_BM_in := ds |>)
       | [] => Some s
       end.

Definition c2hAppMultiBufferMgrHLS : buffer_mgr → option buffer_mgr :=
  c2hMultiBufferMgrHLS PSEUDO_QID_BMAPP.
Definition c2hSysMultiBufferMgrHLS : buffer_mgr → option buffer_mgr :=
  c2hMultiBufferMgrHLS PSEUDO_QID_BMSYS.

(** ** [c2hCmdDataDeliverHLS]

    The three sources are numbered as [tmp_ready_flag_idx] numbers them: 0 the
    application queues, 1 the system queues, 2 the deparser. *)
Record c2h_source := mk_c2h_source { src_cmds : list c2h_cmd; src_datas : list c2h_data }.

Record arbiter := mk_arbiter {
  cdd_reg_count : Z;
  cdd_reg_cmd : c2h_cmd;
  cdd_reg_data : c2h_data;
  reg_c2h_cmd : c2h_cmd;
  reg_end_flag : Z;
  reg_ready_flag_idx : Z;
  from_ABM : c2h_source;
  from_SBM : c2h_source;
  from_D : c2h_source;
  c2h_cmd_f_CDD_t_QS_out : list c2h_cmd;
  c2h_data_f_CDD_t_QS_out : list c2h_data;
  debug_ready_flag_idx : Z;
  debug_end_flag : Z;
  CDD_debug_count : Z;
  CDD_debug_cmd : c2h_cmd;
  CDD_debug_data : c2h_data;
}.
#[export] Instance eta_arbiter : Eta arbiter := fun s =>
  mk_arbiter (cdd_reg_count s) (cdd_reg_cmd s) (cdd_reg_data s) (reg_c2h_cmd s)
    (reg_end_flag s) (reg_ready_flag_idx s) (from_ABM s) (from_SBM s) (from_D s)
    (c2h_cmd_f_CDD_t_QS_out s) (c2h_data_f_CDD_t_QS_out s) (debug_ready_flag_idx s)
    (debug_end_flag s) (CDD_debug_count s) (CDD_debug_cmd s) (CDD_debug_data s).

Definition source_valid (x : c2h_source) : bool :=
  negb (is_empty (src_cmds x)) && negb (is_empty (src_datas x)).

(** The [switch(tmp_valid_flag)] on the flags of the sources 0, 1 and 2. *)
Definition next_ready_idx (abm sbm d : bool) (wire_ready_flag_idx : Z) : Z :=
  match d, sbm, abm with
  | false, false, false => 0xffff
  | false, false, true => 0
  | false, true, false => 1
  | true, false, false => 2
  | true, true, true => if wire_ready_flag_idx =? 2 then 0 else wrap 32 (wire_ready_flag_idx + 1)
  | false, true, true => if wire_ready_flag_idx =? 0 then 1 else 0
  | true, false, true => if wire_ready_flag_idx =? 2 then 0 else 2
  | true, true, false => if wire_ready_flag_idx =? 1 then 2 else 1
  end.

(** The first beat of a command, read with it ([None]: the read would block). *)
Definition start_command (x : c2h_source) (s : arbiter) : option (c2h_source * arbiter) :=
  match x with
  | mk_c2h_source (c :: cs) (d :: ds) =>
      let s := if c2h_last d =? 0 then s <| reg_end_flag := 0 |> <| reg_c2h_cmd := c |> else s in
      let c := c <| c2h_qid := 0 |> in
      let d := d <| c2h_ctrl_qid := 0 |> in
      Some (mk_c2h_source cs ds,
        s <| c2h_cmd_f_CDD_t_QS_out := push (c2h_cmd_f_CDD_t_QS_out s) c |>
          <| c2h_data_f_CDD_t_QS_out := push (c2h_data_f_CDD_t_QS_out s) d |>
          <| cdd_reg_count := wrap 32 (CDD_debug_count s + 1) |>
          <| cdd_reg_cmd := c |> <| cdd_reg_data := d |>)
  | _ => None
  end.

(** A further beat of the command in [reg_c2h_cmd], when one is there. *)
Definition continue_command (x : c2h_source) (s : arbiter) : option (c2h_source * arbiter) :=
  match src_datas x with
  | d :: ds =>
      let d := d <| c2h_ctrl_qid := 0 |> in
      let s := s <| c2h_data_f_CDD_t_QS_out := push (c2h_data_f_CDD_t_QS_out s) d |> in
      Some (mk_c2h_source (src_cmds x) ds,
        if c2h_last d =? 1 then s <| reg_end_flag := 1 |> else s)
  | [] => None
  end.

Definition c2hCmdDataDeliverHLS (s : arbiter) : option arbiter :=
  let wire_c2h_cmd := reg_c2h_cmd s in
  let wire_end_flag := reg_end_flag s in
  let s := s <| CDD_debug_count := cdd_reg_count s |> <| CDD_debug_cmd := cdd_reg_cmd s |>
             <| CDD_debug_data := cdd_reg_data s |> <| debug_end_flag := wire_end_flag |>
             <| debug_ready_flag_idx := reg_ready_flag_idx s |> in
  if wire_end_flag =? 1 then
    let idx := next_ready_idx (source_valid (from_ABM s)) (source_valid (from_SBM s))
                 (source_valid (from_D s)) (reg_ready_flag_idx s) in
    let s := s <| reg_ready_flag_idx := idx |> in
    if idx =? 0 then '(x, s) ← start_command (from_ABM s) s; Some (s <| from_ABM := x |>)
    else if idx =? 1 then '(x, s) ← start_command (from_SBM s) s; Some (s <| from_SBM := x |>)
    else if idx =? 2 then '(x, s) ← start_command (from_D s) s; Some (s <| from_D := x |>)
    else Some s
  else
    if (c2h_qid wire_c2h_cmd =? PSEUDO_QID_BMAPP) && negb (is_empty (src_datas (from_ABM s)))
    then '(x, s) ← continue_command (from_ABM s) s; Some (s <| from_ABM := x |>)
    else if (c2h_qid wire_c2h_cmd =? PSEUDO_QID_BMSYS) && negb (is_empty (src_datas (from_SBM s)))
    then '(x, s) ← continue_command (from_SBM s) s; Some (s <| from_SBM := x |>)
    else if (c2h_qid wire_c2h_cmd =? PSEUDO_QID_D) && negb (is_empty (src_datas (from_D s)))
    then '(x, s) ← continue_command (from_D s) s; Some (s <| from_D := x |>)
    else Some s.

(** ** The arbiter and its sources *)
Definition source (s : arbiter) (i : Z) : c2h_source :=
  if i =? PSEUDO_QID_BMAPP then from_ABM s
  else if i =? PSEUDO_QID_BMSYS then from_SBM s else from_D s.

Definition set_source (s : arbiter) (i : Z) (x : c2h_source) : arbiter :=
  if i =? PSEUDO_QID_BMAPP then s <| from_ABM := x |>
  else if i =? PSEUDO_QID_BMSYS then s <| from_SBM := x |> else s <| from_D := x |>.

(** [arr_cmds i] and [arr_datas i] record what has entered source [i]. *)
Record arb_sys := mk_arb_sys {
  arb : arbiter;
  arr_cmds : Z → list c2h_cmd;
  arr_datas : Z → list c2h_data;
}.

Definition fun_push {A} (f : Z → list A) (i : Z) (x : A) : Z → list A :=
  λ j, if j =? i then push (f j) x else f j.

Definition arb_init (s : arb_sys) : Prop :=
  reg_end_flag (arb s) = 1 ∧ reg_ready_flag_idx (arb s) = 0 ∧
  (∀ i, source (arb s) i = mk_c2h_source [] []) ∧
  c2h_cmd_f_CDD_t_QS_out (arb s) = [] ∧ c2h_data_f_CDD_t_QS_out (arb s) = [] ∧
  (∀ i, arr_cmds s i = []) ∧ (∀ i, arr_datas s i = []).

Inductive arb_step : arb_sys → arb_sys → Prop :=
| arb_cmd s i c :
    0 ≤ i ≤ 2 → c2h_qid c = i →
    arb_step s (mk_arb_sys
      (set_source (arb s) i (mk_c2h_source (push (src_cmds (source (arb s) i)) c)
                                           (src_datas (source (arb s) i))))
      (fun_push (arr_cmds s) i c) (arr_datas s))
| arb_data s i d :
    0 ≤ i ≤ 2 → c2h_last d = 0 ∨ c2h_last d = 1 →
    arb_step s (mk_arb_sys
      (set_source (arb s) i (mk_c2h_source (src_cmds (source (arb s) i))
                                           (push (src_datas (source (arb s) i)) d)))
      (arr_cmds s) (fun_push (arr_datas s) i d))
| arb_tick s a :
    c2hCmdDataDeliverHLS (arb s) = Some a → arb_step s (mk_arb_sys a (arr_cmds s) (arr_datas s)).

(** A command that has been served, with its source and the beats served so far. *)
Record served := mk_served { sv_src : Z; sv_cmd : c2h_cmd; sv_data : list c2h_data }.

Definition sv_open (r : served) : Prop := Forall (λ d, c2h_last d = 0) (sv_data r).
Definition sv_closed (r : served) : Prop :=
  ∃ ds d, sv_data r = ds ++ [d] ∧ Forall (λ d, c2h_last d = 0) ds ∧ c2h_last d = 1.

Definition sv_src_ok (r : served) : Prop := 0 ≤ sv_src r ≤ 2 ∧ c2h_qid (sv_cmd r) = sv_src r.

Record arb_inv (s : arb_sys) (h : list served) : Prop := {
  ai_cmds : c2h_cmd_f_CDD_t_QS_out (arb s) = (λ r, (sv_cmd r) <| c2h_qid := 0 |>) <$> h;
  ai_datas : c2h_data_f_CDD_t_QS_out (arb s) =
    (λ d, d <| c2h_ctrl_qid := 0 |>) <$> (h ≫= sv_data);
  ai_runs : (reg_end_flag (arb s) = 1 ∧ Forall sv_closed h) ∨
    (reg_end_flag (arb s) = 0 ∧ ∃ h' r, h = h' ++ [r] ∧ Forall sv_closed h' ∧ sv_open r ∧
      reg_c2h_cmd (arb s) = sv_cmd r);
  ai_src : Forall sv_src_ok h;
  ai_arr_cmds : ∀ i, 0 ≤ i ≤ 2 → arr_cmds s i =
    (sv_cmd <$> filter (λ r, sv_src r = i) h) ++ src_cmds (source (arb s) i);
  ai_arr_datas : ∀ i, 0 ≤ i ≤ 2 → arr_datas s i =
    (filter (λ r, sv_src r = i) h ≫= sv_data) ++ src_datas (source (arb s) i);
  ai_qid : ∀ i, 0 ≤ i ≤ 2 → Forall (λ c, c2h_qid c = i) (src_cmds (source (arb s) i));
  ai_last : ∀ i, 0 ≤ i ≤ 2 →
    Forall (λ d, c2h_last d = 0 ∨ c2h_last d = 1) (src_datas (source (arb s) i));
}.

Lemma source_set s i j x :
  0 ≤ i ≤ 2 → 0 ≤ j ≤ 2 → source (set_source s i x) j = if j =? i then x else source s j.
Proof.
  intros. assert (i = 0 ∨ i = 1 ∨ i = 2) as [->|[->| ->]] by lia;
  assert (j = 0 ∨ j = 1 ∨ j = 2) as [->|[->| ->]] by lia; done.
Qed.

Lemma set_source_frame s i x :
  c2h_cmd_f_CDD_t_QS_out (set_source s i x) = c2h_cmd_f_CDD_t_QS_out s ∧
  c2h_data_f_CDD_t_QS_out (set_source s i x) = c2h_data_f_CDD_t_QS_out s ∧
  reg_end_flag (set_source s i x) = reg_end_flag s ∧
  reg_c2h_cmd (set_source s i x) = reg_c2h_cmd s.
Proof. unfold set_source. by repeat case_match. Qed.

(** The index chosen is that of a source with a command and a beat, or none. *)
Lemma next_ready_idx_valid s idx :
  let i := next_ready_idx (source_valid (from_ABM s)) (source_valid (from_SBM s))
             (source_valid (from_D s)) idx in
  0 ≤ i ≤ 2 → source_valid (source s i) = true.
Proof.
  cbv zeta. destruct (source_valid (from_ABM s)) eqn:E0, (source_valid (from_SBM s)) eqn:E1,
    (source_valid (from_D s)) eqn:E2; cbn; repeat case_match; intros ?; try lia;
    unfold source; repeat case_match; done.
Qed.

Lemma source_valid_cons x :
  source_valid x = true → ∃ c cs d ds, x = mk_c2h_source (c :: cs) (d :: ds).
Proof. destruct x as [[|c cs] [|d ds]]; try done. intros _. by eexists _, _, _, _. Qed.

(** What one cycle of the arbiter does. *)
Inductive cdd_out (s s' : arbiter) : Prop :=
| cdd_idle :
    (∀ i, source s' i = source s i) →
    c2h_cmd_f_CDD_t_QS_out s' = c2h_cmd_f_CDD_t_QS_out s →
    c2h_data_f_CDD_t_QS_out s' = c2h_data_f_CDD_t_QS_out s →
    reg_end_flag s' = reg_end_flag s → reg_c2h_cmd s' = reg_c2h_cmd s → cdd_out s s'
| cdd_start i c cs d ds :
    0 ≤ i ≤ 2 → reg_end_flag s = 1 → source s i = mk_c2h_source (c :: cs) (d :: ds) →
    (∀ j, 0 ≤ j ≤ 2 → source s' j = if j =? i then mk_c2h_source cs ds else source s j) →
    c2h_cmd_f_CDD_t_QS_out s' = push (c2h_cmd_f_CDD_t_QS_out s) (c <| c2h_qid := 0 |>) →
    c2h_data_f_CDD_t_QS_out s' = push (c2h_data_f_CDD_t_QS_out s) (d <| c2h_ctrl_qid := 0 |>) →
    reg_end_flag s' = (if c2h_last d =? 0 then 0 else 1) →
    (c2h_last d = 0 → reg_c2h_cmd s' = c) → cdd_out s s'
| cdd_continue i d ds :
    0 ≤ i ≤ 2 → reg_end_flag s ≠ 1 → c2h_qid (reg_c2h_cmd s) = i →
    src_datas (source s i) = d :: ds →
    (∀ j, 0 ≤ j ≤ 2 → source s' j =
       if j =? i then mk_c2h_source (src_cmds (source s i)) ds else source s j) →
    c2h_cmd_f_CDD_t_QS_out s' = c2h_cmd_f_CDD_t_QS_out s →
    c2h_data_f_CDD_t_QS_out s' = push (c2h_data_f_CDD_t_QS_out s) (d <| c2h_ctrl_qid := 0 |>) →
    reg_end_flag s' = (if c2h_last d =? 1 then 1 else reg_end_flag s) →
    reg_c2h_cmd s' = reg_c2h_cmd s → cdd_out s s'.

Lemma start_command_cons c cs d ds s :
  ∃ s', start_command (mk_c2h_source (c :: cs) (d :: ds)) s = Some (mk_c2h_source cs ds, s') ∧
    c2h_cmd_f_CDD_t_QS_out s' = push (c2h_cmd_f_CDD_t_QS_out s) (c <| c2h_qid := 0 |>) ∧
    c2h_data_f_CDD_t_QS_out s' = push (c2h_data_f_CDD_t_QS_out s) (d <| c2h_ctrl_qid := 0 |>) ∧
    reg_end_flag s' = (if c2h_last d =? 0 then 0 else reg_end_flag s) ∧
    (c2h_last d = 0 → reg_c2h_cmd s' = c) ∧ ∀ i, source s' i = source s i.
Proof.
  unfold start_command. destruct (Z.eqb_spec (c2h_last d) 0); (eexists; split; [reflexivity|]);
    split_and!; done.
Qed.

Lemma continue_command_cons x d ds s :
  src_datas x = d :: ds →
  ∃ s', continue_command x s = Some (mk_c2h_source (src_cmds x) ds, s') ∧
    c2h_cmd_f_CDD_t_QS_out s' = c2h_cmd_f_CDD_t_QS_out s ∧
    c2h_data_f_CDD_t_QS_out s' = push (c2h_data_f_CDD_t_QS_out s) (d <| c2h_ctrl_qid := 0 |>) ∧
    reg_end_flag s' = (if c2h_last d =? 1 then 1 else reg_end_flag s) ∧
    reg_c2h_cmd s' = reg_c2h_cmd s ∧ ∀ i, source s' i = source s i.
Proof.
  intros E. unfold continue_command. rewrite E. eexists. split; [reflexivity|].
  cbn. destruct (c2h_last d =? 1); done.
Qed.

(** The three copies of the code for a source are the code for source [i]. *)
Lemma cdd_start_source s0 s i c cs d ds :
  0 ≤ i ≤ 2 → reg_end_flag s0 = 1 → source s0 i = mk_c2h_source (c :: cs) (d :: ds) →
  (∀ j, source s j = source s0 j) → reg_end_flag s = 1 →
  c2h_cmd_f_CDD_t_QS_out s = c2h_cmd_f_CDD_t_QS_out s0 →
  c2h_data_f_CDD_t_QS_out s = c2h_data_f_CDD_t_QS_out s0 →
  ∃ s', ('(x, s) ← start_command (source s i) s; Some (set_source s i x)) = Some s' ∧
    cdd_out s0 s'.
Proof.
  intros Hi He Ex Es He' Ec Ed. rewrite Es, Ex.
  destruct (start_command_cons c cs d ds s) as (s1 & -> & E1 & E2 & E3 & E4 & E5).
  eexists. split; [reflexivity|].
  destruct (set_source_frame s1 i (mk_c2h_source cs ds)) as (F1 & F2 & F3 & F4).
  apply (cdd_start _ _ i c cs d ds); rewrite ?F1, ?F2, ?F3, ?F4, ?E1, ?E2, ?E3, ?Ec, ?Ed, ?He';
    try done.
  intros j Hj. by rewrite source_set, E5, Es.
Qed.

Lemma cdd_continue_source s0 s i d ds :
  0 ≤ i ≤ 2 → reg_end_flag s0 ≠ 1 → c2h_qid (reg_c2h_cmd s0) = i →
  src_datas (source s0 i) = d :: ds →
  (∀ j, source s j = source s0 j) → reg_end_flag s = reg_end_flag s0 →
  reg_c2h_cmd s = reg_c2h_cmd s0 →
  c2h_cmd_f_CDD_t_QS_out s = c2h_cmd_f_CDD_t_QS_out s0 →
  c2h_data_f_CDD_t_QS_out s = c2h_data_f_CDD_t_QS_out s0 →
  ∃ s', ('(x, s) ← continue_command (source s i) s; Some (set_source s i x)) = Some s' ∧
    cdd_out s0 s'.
Proof.
  intros Hi He Eq Ex Es He' Eq' Ec Ed. rewrite Es.
  destruct (continue_command_cons (source s0 i) d ds s Ex) as (s1 & -> & E1 & E2 & E3 & E4 & E5).
  eexists. split; [reflexivity|].
  destruct (set_source_frame s1 i (mk_c2h_source (src_cmds (source s0 i)) ds))
    as (F1 & F2 & F3 & F4).
  apply (cdd_continue _ _ i d ds);
    rewrite ?F1, ?F2, ?F3, ?F4, ?E1, ?E2, ?E3, ?E4, ?Ec, ?Ed, ?He', ?Eq'; try done.
  intros j Hj. by rewrite source_set, E5, Es.
Qed.

Lemma cdd_result s : ∃ s', c2hCmdDataDeliverHLS s = Some s' ∧ cdd_out s s'.
Proof.
  unfold c2hCmdDataDeliverHLS. destruct (Z.eqb_spec (reg_end_flag s) 1) as [He|He].
  - match goal with |- context [next_ready_idx ?a ?b ?c ?w] =>
      set (idx := next_ready_idx a b c w) end.
    assert (0 ≤ idx ≤ 2 → source_valid (source s idx) = true) as Hv 
      by exact (next_ready_idx_valid s (reg_ready_flag_idx s)).
    clearbody idx. cbv zeta.
    match goal with |- context [start_command _ ?x] => set (s1 := x) end.
    destruct (Z.eqb_spec idx 0) as [->|]; [|destruct (Z.eqb_spec idx 1) as [->|];
      [|destruct (Z.eqb_spec idx 2) as [->|]]].
    1-3: destruct (source_valid_cons _ (Hv ltac:(lia))) as (c & cs & d & ds & E).
    + by apply (cdd_start_source s s1 0 c cs d ds).
    + by apply (cdd_start_source s s1 1 c cs d ds).
    + by apply (cdd_start_source s s1 2 c cs d ds).
    + eexists. split; [reflexivity|]. by apply cdd_idle.
  - cbv zeta. match goal with |- context [continue_command _ ?x] => set (s1 := x) end.
    assert (∀ i, 0 ≤ i ≤ 2 → (c2h_qid (reg_c2h_cmd s) =? i) &&
        negb (is_empty (src_datas (source s i))) = true →
      ∃ s', ('(x, s2) ← continue_command (source s1 i) s1; Some (set_source s2 i x)) = Some s' ∧
        cdd_out s s') as Hc.
    { intros i Hi [Hq Hne]%andb_prop. apply Z.eqb_eq in Hq.
      destruct (src_datas (source s i)) as [|d ds] eqn:Ed; [done|].
      by apply (cdd_continue_source s s1 i d ds). }
    pose proof (Hc 0 ltac:(lia)) as H0. pose proof (Hc 1 ltac:(lia)) as H1.
    pose proof (Hc 2 ltac:(lia)) as H2. clear Hc.
    repeat match goal with |- context [if ?b then _ else _] => destruct b eqn:? end;
      [by apply H0|by apply H1|by apply H2|].
    eexists. split; [reflexivity|]. by apply cdd_idle.
Qed.

(** ** Theorems on the arbiter *)
Lemma arb_inv_init s : arb_init s → arb_inv s [].
Proof.
  intros (He & _ & Hs & Hc & Hd & Hac & Had).
  split; rewrite ?Hc, ?Hd; try done.
  - by left.
  - intros i _. by rewrite Hac, Hs.
  - intros i _. by rewrite Had, Hs.
  - intros i _. by rewrite Hs.
  - intros i _. by rewrite Hs.
Qed.

Lemma arb_inv_cmd s h i c :
  arb_inv s h → 0 ≤ i ≤ 2 → c2h_qid c = i →
  arb_inv (mk_arb_sys
      (set_source (arb s) i (mk_c2h_source (push (src_cmds (source (arb s) i)) c)
                                           (src_datas (source (arb s) i))))
      (fun_push (arr_cmds s) i c) (arr_datas s)) h.
Proof.
  intros [] Hi Hc. match goal with |- arb_inv (mk_arb_sys (set_source ?a ?i ?x) _ _) _ =>
    destruct (set_source_frame a i x) as (F1 & F2 & F3 & F4) end.
  split; cbn; rewrite ?F1, ?F2, ?F3, ?F4; try done; intros j Hj; rewrite source_set by done;
    unfold fun_push; destruct (Z.eqb_spec j i) as [->|]; cbn; auto.
  - rewrite ai_arr_cmds0 by done. unfold push. by rewrite app_assoc.
  - unfold push. apply Forall_app. split; [auto|by apply Forall_singleton].
Qed.

Lemma arb_inv_data s h i d :
  arb_inv s h → 0 ≤ i ≤ 2 → c2h_last d = 0 ∨ c2h_last d = 1 →
  arb_inv (mk_arb_sys
      (set_source (arb s) i (mk_c2h_source (src_cmds (source (arb s) i))
                                           (push (src_datas (source (arb s) i)) d)))
      (arr_cmds s) (fun_push (arr_datas s) i d)) h.
Proof.
  intros [] Hi Hc. match goal with |- arb_inv (mk_arb_sys (set_source ?a ?i ?x) _ _) _ =>
    destruct (set_source_frame a i x) as (F1 & F2 & F3 & F4) end.
  split; cbn; rewrite ?F1, ?F2, ?F3, ?F4; try done; intros j Hj; rewrite source_set by done;
    unfold fun_push; destruct (Z.eqb_spec j i) as [->|]; cbn; auto.
  - rewrite ai_arr_datas0 by done. unfold push. by rewrite app_assoc.
  - unfold push. apply Forall_app. split; [auto|by apply Forall_singleton].
Qed.

Lemma filter_key_snoc {A} (key : A → Z) q l x :
  filter (λ y, key y = q) (l ++ [x]) =
  filter (λ y, key y = q) l ++ if decide (key x = q) then [x] else [].
Proof. by rewrite filter_app. Qed.

Lemma arb_inv_tick s h a :
  arb_inv s h → cdd_out (arb s) a → ∃ h', arb_inv (mk_arb_sys a (arr_cmds s) (arr_datas s)) h'.
Proof.
  intros [] [Es Ec Ed Ee Eq|i c cs d ds Hi He Ex Es Ec Ed Ee Eq|i d ds Hi He Hq Ex Es Ec Ed Ee Eq].
  - exists h. split; cbn; rewrite ?Ec, ?Ed, ?Ee, ?Eq; try done; intros i Hi; rewrite Es; auto.
  - destruct ai_runs0 as [[_ Hh]|[? _]]; [|congruence].
    pose proof (ai_qid0 i Hi) as Hqid. rewrite Ex in Hqid. cbn in Hqid.
    apply Forall_cons in Hqid as [Hqc Hqs].
    pose proof (ai_last0 i Hi) as Hl. rewrite Ex in Hl. cbn in Hl. apply Forall_cons in Hl as [Hld Hls].
    exists (h ++ [mk_served i c [d]]).
    split; cbn; rewrite ?Ec, ?Ed, ?Ee; unfold push.
    + by rewrite fmap_app, ai_cmds0.
    + by rewrite bind_app, fmap_app, ai_datas0.
    + destruct Hld as [Hl|Hl]; rewrite Hl; cbn.
      * right. split; [done|]. exists h, (mk_served i c [d]). split_and!; [done|done| |auto].
        by apply Forall_singleton.
      * left. split; [done|]. apply Forall_app. split; [done|]. apply Forall_singleton.
        by exists [], d.
    + apply Forall_app. split; [done|]. by apply Forall_singleton.
    + intros j Hj. rewrite ai_arr_cmds0, Es, filter_key_snoc by done. cbn.
      destruct (Z.eqb_spec j i) as [->|].
      * rewrite decide_True by done. rewrite fmap_app, <-app_assoc, Ex. done.
      * rewrite decide_False by done. by rewrite app_nil_r.
    + intros j Hj. rewrite ai_arr_datas0, Es, filter_key_snoc by done. cbn.
      destruct (Z.eqb_spec j i) as [->|].
      * rewrite decide_True by done. rewrite bind_app, <-app_assoc, Ex. done.
      * rewrite decide_False by done. by rewrite app_nil_r.
    + intros j Hj. rewrite Es by done. destruct (Z.eqb_spec j i) as [->|]; auto.
    + intros j Hj. rewrite Es by done. destruct (Z.eqb_spec j i) as [->|]; auto.
  - destruct ai_runs0 as [[? _]|(He0 & h' & r & -> & Hh & Ho & Er)]; [congruence|].
    pose proof (ai_last0 i Hi) as Hl. rewrite Ex in Hl. apply Forall_cons in Hl as [Hld Hls].
    apply Forall_app in ai_src0 as [Hs' Hr]. rewrite Forall_singleton in Hr.
    assert (sv_src r = i) as Hri by (rewrite <-Hq, Er; symmetry; apply Hr).
    exists (h' ++ [mk_served i (sv_cmd r) (sv_data r ++ [d])]).
    split; cbn; rewrite ?Ec, ?Ed, ?Ee, ?Eq; unfold push.
    + rewrite ai_cmds0, !fmap_app. done.
    + rewrite ai_datas0, !bind_app, !fmap_app. cbn. by rewrite !app_nil_r, fmap_app, app_assoc.
    + destruct Hld as [Hl|Hl]; rewrite Hl; cbn.
      * right. split; [done|]. eexists h', _. split_and!; [done|done| |done].
        apply Forall_app. split; [done|]. by apply Forall_singleton.
      * left. split; [done|]. apply Forall_app. split; [done|]. apply Forall_singleton.
        by exists (sv_data r), d.
    + apply Forall_app. split; [done|]. apply Forall_singleton. split; [done|].
      cbn. rewrite <-Hri. apply Hr.
    + intros j Hj. rewrite ai_arr_cmds0, Es, !filter_key_snoc by done. rewrite Hri. cbn.
      destruct (Z.eqb_spec j i) as [->|].
      * rewrite !decide_True by done. by rewrite !fmap_app.
      * by rewrite !decide_False by done.
    + intros j Hj. rewrite ai_arr_datas0, Es, !filter_key_snoc by done. rewrite Hri. cbn.
      destruct (Z.eqb_spec j i) as [->|].
      * rewrite !decide_True by done. rewrite !bind_app, Ex. cbn. by rewrite !app_nil_r, <-!app_assoc.
      * by rewrite !decide_False by done.
    + intros j Hj. rewrite Es by done. destruct (Z.eqb_spec j i) as [->|]; auto.
    + intros j Hj. rewrite Es by done. destruct (Z.eqb_spec j i) as [->|]; auto.
Qed.

(** C25: The DMA writes of the three sources reach the host whole: whatever the order of
    arrivals, the arbiter never reads an empty stream, and its output is a sequence
    of commands, each followed by exactly the beats that its own source gave for it
    up to the one marked last, never mixed with beats of another source; each
    source's commands and beats are taken in order, none lost or repeated. *)
Theorem arbiter_merges s :
  reachable arb_init arb_step s →
  is_Some (c2hCmdDataDeliverHLS (arb s)) ∧
  ∃ h, c2h_cmd_f_CDD_t_QS_out (arb s) = (λ r, (sv_cmd r) <| c2h_qid := 0 |>) <$> h ∧
    c2h_data_f_CDD_t_QS_out (arb s) =
      (λ d, d <| c2h_ctrl_qid := 0 |>) <$> (h ≫= sv_data) ∧
    (Forall sv_closed h ∨ ∃ h' r, h = h' ++ [r] ∧ Forall sv_closed h' ∧ sv_open r) ∧
    ∀ i, 0 ≤ i ≤ 2 →
      arr_cmds s i = (sv_cmd <$> filter (λ r, sv_src r = i) h) ++ src_cmds (source (arb s) i) ∧
      arr_datas s i =
        (filter (λ r, sv_src r = i) h ≫= sv_data) ++ src_datas (source (arb s) i).
Proof.
  intros Hs. split; [destruct (cdd_result (arb s)) as (a & -> & _); by eexists|].
  destruct (reachable_ind_inv arb_init arb_step (λ s, ∃ h, arb_inv s h)) with s as [h []].
  - intros s0 ?. exists []. by apply arb_inv_init.
  - intros s0 s1 [h I] Hst. destruct Hst as [s0 i c ??|s0 i d ??|s0 a Ha].
    + exists h. by apply arb_inv_cmd.
    + exists h. by apply arb_inv_data.
    + destruct (cdd_result (arb s0)) as (a' & Ea & Ho). rewrite Ha in Ea. injection Ea as <-.
      exact (arb_inv_tick _ _ _ I Ho).
  - done.
  - exists h. split_and!; try done.
    + destruct ai_runs0 as [[_ ?]|(_ & h' & r & ? & ? & ? & _)]; [by left|right]. by exists h', r.
    + intros i Hi. auto.
Qed.

(** ** Starvation of the arbiter

    When no source is ready the index is set to [0xffff], from which the case of
    three ready sources counts upwards through indices that name no source. *)
Lemma all_ready_cycle s k :
  reg_end_flag s = 1 → (∀ i, source_valid (source s i) = true) →
  reg_ready_flag_idx s = 0xffff + k → 0 ≤ k < 2 ^ 32 - 0x10000 →
  ∃ s', c2hCmdDataDeliverHLS s = Some s' ∧ reg_end_flag s' = 1 ∧
    (∀ i, source s' i = source s i) ∧ reg_ready_flag_idx s' = 0xffff + (k + 1) ∧
    c2h_cmd_f_CDD_t_QS_out s' = c2h_cmd_f_CDD_t_QS_out s ∧
    c2h_data_f_CDD_t_QS_out s' = c2h_data_f_CDD_t_QS_out s.
Proof.
  intros He Hv Hi Hk. pose proof (Hv 0) as H0. pose proof (Hv 1) as H1. pose proof (Hv 2) as H2.
  cbn in H0, H1, H2. unfold c2hCmdDataDeliverHLS. rewrite He. cbn -[wrap Z.eqb].
  rewrite H0, H1, H2, Hi. cbn -[wrap Z.eqb].
  rewrite (proj2 (Z.eqb_neq (65535 + k) 2)) by lia. rewrite wrap_small by (unfold fits; lia).
  replace (65535 + k + 1) with (65535 + (k + 1)) by lia.
  rewrite !(proj2 (Z.eqb_neq (65535 + (k + 1)) _)) by lia.
  take_result. split_and!; done.
Qed.

(** A cycle without requests can silence the DMA arbiter: the idle case stores
    [0xffff] in the round-robin index, and while all three sources have requests
    the index is only incremented, so nothing is written to the host for the next
    [2^32 - 2^16] cycles. *)
Theorem arbiter_starves s s1 n :
  reg_end_flag s = 1 → (∀ i, source s i = mk_c2h_source [] []) →
  c2hCmdDataDeliverHLS s = Some s1 →
  reg_ready_flag_idx s1 = 0xffff ∧
  ∀ s2, (∀ i, source_valid (source s2 i) = true) → reg_end_flag s2 = reg_end_flag s1 →
    reg_ready_flag_idx s2 = reg_ready_flag_idx s1 → Z.of_nat n ≤ 2 ^ 32 - 2 ^ 16 →
    ∃ s3, iter_step n c2hCmdDataDeliverHLS s2 = Some s3 ∧
      (∀ i, source s3 i = source s2 i) ∧
      c2h_cmd_f_CDD_t_QS_out s3 = c2h_cmd_f_CDD_t_QS_out s2 ∧
      c2h_data_f_CDD_t_QS_out s3 = c2h_data_f_CDD_t_QS_out s2.
Proof.
  intros He Hs E.
  assert (reg_ready_flag_idx s1 = 0xffff ∧ reg_end_flag s1 = 1) as [Hi1 He1].
  { pose proof (Hs 0) as H0. pose proof (Hs 1) as H1. pose proof (Hs 2) as H2.
    cbn in H0, H1, H2. unfold c2hCmdDataDeliverHLS in E. rewrite He in E. cbn -[wrap] in E.
    rewrite H0, H1, H2 in E. cbn -[wrap] in E. by injection E as <-. }
  split; [done|]. intros s2 Hv He2 Hi2. rewrite Hi1 in Hi2. rewrite He1 in He2.
  assert (∀ n k s2, (∀ i, source_valid (source s2 i) = true) → reg_end_flag s2 = 1 →
    reg_ready_flag_idx s2 = 0xffff + k → 0 ≤ k → k + Z.of_nat n ≤ 2 ^ 32 - 2 ^ 16 →
    ∃ s3, iter_step n c2hCmdDataDeliverHLS s2 = Some s3 ∧
      (∀ i, source s3 i = source s2 i) ∧
      c2h_cmd_f_CDD_t_QS_out s3 = c2h_cmd_f_CDD_t_QS_out s2 ∧
      c2h_data_f_CDD_t_QS_out s3 = c2h_data_f_CDD_t_QS_out s2) as Hn.
  { clear. induction n as [|n IH]; intros k s Hv He Hi Hk Hb; [by exists s|].
    destruct (all_ready_cycle s k) as (s' & E & He' & Hs' & Hi' & Hc & Hd); [done..|lia|].
    destruct (IH (k + 1) s') as (s3 & E3 & Hs3 & Hc3 & Hd3); [|done..|lia|lia|].
    { intros i. by rewrite Hs'. }
    exists s3. cbn [iter_step]. rewrite E. split_and!; [done| |congruence|congruence].
    intros i. by rewrite Hs3. }
  intros Hb. apply (Hn n 0); done || lia.
Qed.

(** ** The queues of the system threads *)
Definition sys_queue_of (q_num k : Z) : Z :=
  if k mod q_num =? q_num - 1 then 0 else k mod q_num.

Lemma sys_queue_next q_num k :
  2 ≤ q_num < 2 ^ 32 → 0 ≤ k →
  sys_queue q_num (k mod q_num) = (sys_queue_of q_num k, (k + 1) mod q_num).
Proof.
  intros Hn Hk. unfold sys_queue, sys_queue_of. pose proof (Z.mod_pos_bound k q_num ltac:(lia)).
  pose proof (Z.div_mod k q_num ltac:(lia)) as E.
  destruct (Z.leb_spec (q_num - 1) (k mod q_num)), (Z.eqb_spec (k mod q_num) (q_num - 1)); try lia.
  - f_equal. apply (Z.mod_unique _ _ (k / q_num + 1)); lia.
  - rewrite wrap_small by (unfold fits; lia). f_equal.
    apply (Z.mod_unique _ _ (k / q_num)); lia.
Qed.

Definition host_beat (junk : c2h_data) (m : ctrl_msg) (qid q : Z) : c2h_data :=
  (ctrl_msg_to_c2h_data m junk qid).2 <| c2h_ctrl_qid := q |>.

Definition for_app (m : ctrl_msg) : bool := dst_thread_type m =? THREAD_TYPE_APP.

Lemma c2h_deliver_cycle junk q_num k m ms abm sbm :
  2 ≤ q_num ≤ 2 ^ 11 → 0 ≤ k →
  c2hCtrlMsgDeliverHLS junk q_num (mk_c2h_msg_deliver (k mod q_num) (m :: ms) abm sbm) =
  if for_app m then
    mk_c2h_msg_deliver (k mod q_num) ms
      (push abm (host_beat junk m PSEUDO_QID_BMAPP (req_cline_appThreadID m))) sbm
  else mk_c2h_msg_deliver ((k + 1) mod q_num) ms abm
         (push sbm (host_beat junk m PSEUDO_QID_BMSYS (sys_queue_of q_num k))).
Proof.
  intros Hn Hk. unfold c2hCtrlMsgDeliverHLS, for_app. cbn -[ctrl_msg_to_c2h_data sys_queue Z.modulo].
  destruct (dst_thread_type m =? THREAD_TYPE_APP); [done|].
  rewrite sys_queue_next by lia. rewrite wrap_small; [done|].
  unfold sys_queue_of, fits. pose proof (Z.mod_pos_bound k q_num ltac:(lia)).
  destruct (_ =? _); lia.
Qed.

Lemma c2h_deliver_run junk q_num ms k abm sbm :
  2 ≤ q_num ≤ 2 ^ 11 → 0 ≤ k →
  let sys := filter (λ m, for_app m = false) ms in
  Nat.iter (length ms) (c2hCtrlMsgDeliverHLS junk q_num)
    (mk_c2h_msg_deliver (k mod q_num) ms abm sbm) =
  mk_c2h_msg_deliver ((k + Z.of_nat (length sys)) mod q_num) []
    (abm ++ ((λ m, host_beat junk m PSEUDO_QID_BMAPP (req_cline_appThreadID m)) <$>
               filter (λ m, for_app m = true) ms))
    (sbm ++ zip_with (λ m j, host_beat junk m PSEUDO_QID_BMSYS (sys_queue_of q_num j)) sys
              (seqZ k (Z.of_nat (length sys)))).
Proof.
  intros Hn. cbv zeta. revert k abm sbm. induction ms as [|m ms IH]; intros k abm sbm Hk.
  - cbn -[Z.modulo]. by rewrite Z.add_0_r, !app_nil_r.
  - cbn [length]. rewrite Nat.iter_succ_r, c2h_deliver_cycle by done.
    unfold filter. cbn [list_filter]. destruct (for_app m).
    + rewrite IH by done. rewrite decide_False, decide_True by done. cbn [fmap list_fmap].
      unfold push. by rewrite <-app_assoc.
    + rewrite IH by lia. rewrite decide_True, decide_False by done. cbn [length].
      rewrite (seqZ_cons k) by lia. cbn [zip_with]. unfold push. rewrite <-app_assoc. cbn [app].
      unfold filter. f_equal; [f_equal; lia|]. do 3 f_equal. f_equal. lia.
Qed.

(** Every message for the host is given a queue and none is lost: messages for
    application threads go, in order, to the queue of their thread, and the [k]-th
    message for the system threads to queue [k mod q_num] - except that this is
    queue 0 instead of queue [q_num - 1], which therefore never receives anything. *)
Theorem c2h_routes junk q_num ms :
  2 ≤ q_num ≤ 2 ^ 11 →
  let sys := filter (λ m, for_app m = false) ms in
  let s := Nat.iter (length ms) (c2hCtrlMsgDeliverHLS junk q_num)
             (mk_c2h_msg_deliver 0 ms [] []) in
  ctrl_msg_f_CC_t_CMD_in s = [] ∧
  c2h_data_f_CMD_t_ABM_out s =
    (λ m, host_beat junk m PSEUDO_QID_BMAPP (req_cline_appThreadID m)) <$>
      filter (λ m, for_app m = true) ms ∧
  c2h_data_f_CMD_t_SBM_out s =
    zip_with (λ m k, host_beat junk m PSEUDO_QID_BMSYS
                       (if k mod q_num =? q_num - 1 then 0 else k mod q_num))
      sys (seqZ 0 (Z.of_nat (length sys))) ∧
  Forall (λ d, c2h_ctrl_qid d < q_num - 1) (c2h_data_f_CMD_t_SBM_out s).
Proof.
  intros Hn. cbv zeta.
  pose proof (c2h_deliver_run junk q_num ms 0 [] [] Hn ltac:(lia)) as E. cbv zeta in E.
  rewrite Zmod_0_l in E. rewrite E. cbn -[seqZ ctrl_msg_to_c2h_data Z.modulo].
  split_and!; [done..|]. apply Forall_lookup_2. intros i d Hd.
  apply lookup_zip_with_Some in Hd as (m & k & -> & _ & _). cbn -[Z.modulo].
  unfold sys_queue_of. pose proof (Z.mod_pos_bound k q_num ltac:(lia)).
  destruct (Z.eqb_spec (k mod q_num) (q_num - 1)); lia.
Qed.

(** ** Witnesses *)
Definition ex_cmd (i : Z) : c2h_cmd := mk_c2h_cmd 0x1000 64 i.
Definition ex_data (i : Z) : c2h_data := mk_c2h_data 7 i 1.
Definition ex_arb (abm sbm d : c2h_source) (idx : Z) : arbiter :=
  mk_arbiter 0 (ex_cmd 0) (ex_data 0) (ex_cmd 0) 1 idx abm sbm d [] [] 0 1 0 (ex_cmd 0) (ex_data 0).
Definition no_source : c2h_source := mk_c2h_source [] [].
Definition one_source (i : Z) : c2h_source := mk_c2h_source [ex_cmd i] [ex_data i].

Lemma arbiter_merges_witness :
  let s := mk_arb_sys (ex_arb no_source (one_source 1) no_source 0)
             (fun_push (λ _, []) 1 (ex_cmd 1)) (fun_push (λ _, []) 1 (ex_data 1)) in
  reachable arb_init arb_step s ∧ is_Some (c2hCmdDataDeliverHLS (arb s)).
Proof.
  intros s.
  assert (reachable arb_init arb_step s) as Hs.
  { exists (mk_arb_sys (ex_arb no_source no_source no_source 0) (λ _, []) (λ _, [])).
    split; [split_and!; try done; intros i; unfold source; by repeat case_match|].
    eapply rtc_l; [by apply (arb_cmd _ 1 (ex_cmd 1))|].
    apply rtc_once.
    apply (arb_data (mk_arb_sys (ex_arb no_source (mk_c2h_source [ex_cmd 1] []) no_source 0)
      (fun_push (λ _, []) 1 (ex_cmd 1)) (λ _, [])) 1 (ex_data 1)); [done|by right]. }
  split; [exact Hs|]. exact (proj1 (arbiter_merges s Hs)).
Defined.

Lemma arbiter_starves_witness :
  ∃ s3, iter_step 1000 c2hCmdDataDeliverHLS
          (ex_arb (one_source 0) (one_source 1) (one_source 2) 0xffff) = Some s3 ∧
    c2h_cmd_f_CDD_t_QS_out s3 = [].
Proof.
  destruct (arbiter_starves (ex_arb no_source no_source no_source 0)
    (ex_arb no_source no_source no_source 0xffff) 1000) as [_ H]; [done| |done|].
  - intros i. unfold source. by repeat case_match.
  - destruct (H (ex_arb (one_source 0) (one_source 1) (one_source 2) 0xffff))
      as (s3 & E & _ & Hc & _); [|done..|lia|].
    + intros i. unfold source. by repeat case_match.
    + exists s3. split; [exact E|exact Hc].
Defined.

Lemma c2h_routes_witness :
  let m := ctrl_msg_zero <| dst_thread_type := THREAD_TYPE_SYS |> in
  c2h_ctrl_qid <$> c2h_data_f_CMD_t_SBM_out
    (Nat.iter 4 (c2hCtrlMsgDeliverHLS (ex_data 0) 2) (mk_c2h_msg_deliver 0 [m; m; m; m] [] []))
  = [0; 0; 0; 0].
Proof.
  intros m. destruct (c2h_routes (ex_data 0) 2 [m; m; m; m]) as (_ & _ & E & _); [done|].
  etransitivity; [exact (f_equal (fmap c2h_ctrl_qid) E)|]. done.
Defined.
