(* ===== verification/HostMsg.v ===== *)
(** * HostMsg: the messages of the host, [RawMessageConnection.h]

    A [RawMessage] is a packed 64-byte structure.  [channel_context::send] writes
    it to the FPGA as eight 64-bit words and [channel_context::recv] reads it from
    a slot written by DMA, so its layout has to be the one of the slices in
    [utils.cpp]; the theorems here say that it is. *)
From S2P Require Import Prelude DsmType Wire Qdma.
From stdpp Require Import base numbers option list list_numbers.
Open Scope Z_scope.

(** ** [RawMessage] *)
Record RawMessage := mk_RawMessage {
  raw_mtype : Z;
  raw_req_cline_nodeID : Z;
  raw_req_cline_appThreadID : Z;
  raw_req_cline_addr : Z;
  raw_req_cline_index : Z;
  raw_cline_tag : Z;
  raw_agent_cline_nodeID : Z;
  raw_agent_cline_addr : Z;
  raw_dir_gblock_addr : Z;
  raw_dir_gblock_index : Z;
  raw_dir_gblock_bitmap : list Z;
  raw_dir_gblock_nodeID : Z;
  raw_general_c2h_owner : Z;
  raw_init_state : Z;
  raw_init_mac : list Z;
  padding_0 : Z;
  padding_1 : Z;
}.
#[export] Instance eta_RawMessage : Eta RawMessage := fun r =>
  mk_RawMessage (raw_mtype r) (raw_req_cline_nodeID r) (raw_req_cline_appThreadID r)
    (raw_req_cline_addr r) (raw_req_cline_index r) (raw_cline_tag r)
    (raw_agent_cline_nodeID r) (raw_agent_cline_addr r) (raw_dir_gblock_addr r)
    (raw_dir_gblock_index r) (raw_dir_gblock_bitmap r) (raw_dir_gblock_nodeID r)
    (raw_general_c2h_owner r) (raw_init_state r) (raw_init_mac r) (padding_0 r)
    (padding_1 r).

(** The scalar members with their widths in bits, in the order of declaration;
    [__attribute__((packed))] puts each right after the previous one. *)
Definition raw_members (r : RawMessage) : list (Z * Z) :=
  [(8, raw_mtype r); (8, raw_req_cline_nodeID r); (8, raw_req_cline_appThreadID r);
   (64, raw_req_cline_addr r); (32, raw_req_cline_index r); (64, raw_cline_tag r);
   (8, raw_agent_cline_nodeID r); (64, raw_agent_cline_addr r);
   (64, raw_dir_gblock_addr r); (32, raw_dir_gblock_index r)] ++
  (pair 8 <$> raw_dir_gblock_bitmap r) ++
  [(8, raw_dir_gblock_nodeID r); (8, raw_general_c2h_owner r); (8, raw_init_state r)] ++
  (pair 8 <$> raw_init_mac r) ++ [(8, padding_0 r); (16, padding_1 r)].

(** The memory of the structure as a little-endian number. *)
Fixpoint store_members (p off : Z) (l : list (Z * Z)) : Z :=
  match l with
  | [] => p
  | (w, v) :: l => store_members (set_range 512 p (off + w - 1) off v) (off + w) l
  end.

Definition raw_image (r : RawMessage) : Z := store_members 0 0 (raw_members r).

(** The structure read from its memory. *)
Definition raw_load (p : Z) : RawMessage :=
  let byte o := get_range p (8 * o + 7) (8 * o) in
  let word32 o := get_range p (8 * o + 31) (8 * o) in
  let word64 o := get_range p (8 * o + 63) (8 * o) in
  mk_RawMessage (byte 0) (byte 1) (byte 2) (word64 3) (word32 11) (word64 15) (byte 23)
    (word64 24) (word64 32) (word32 40) (byte <$> seqZ 44 8) (byte 52) (byte 53) (byte 54)
    (byte <$> seqZ 55 6) (byte 61) (get_range p (8 * 62 + 15) (8 * 62)).

(** [RawMessageUnion::values], and the beat of a bridge write of eight words. *)
Definition union_values (p : Z) : list Z :=
  (λ i, get_range p (64 * i + 63) (64 * i)) <$> seqZ 0 8.

Definition bridge_word (values : list Z) : Z :=
  le_word 64 values.

(** [channel_context::send]: the beat that reaches [h2c_w_f_QS_t_CMD_in]. *)
Definition send (message : RawMessage) : h2c_w :=
  mk_h2c_w (bridge_word (union_values (raw_image message))) 1 ones64.

(** [bits_in]: the number of nodes in a bitmap of [bool]s. *)
Definition bits_in (bitmap : list Z) : Z :=
  for_loop max_node_num
    (λ count i, if arr_nth bitmap i =? 0 then count else count + 1) 0.

(** ** The values of the members' types *)
Record raw_wf (r : RawMessage) : Prop := {
  rwf_mtype : fits 8 (raw_mtype r);
  rwf_req_node : fits 8 (raw_req_cline_nodeID r);
  rwf_req_thread : fits 8 (raw_req_cline_appThreadID r);
  rwf_req_addr : fits 64 (raw_req_cline_addr r);
  rwf_req_index : fits 32 (raw_req_cline_index r);
  rwf_tag : fits 64 (raw_cline_tag r);
  rwf_agent_node : fits 8 (raw_agent_cline_nodeID r);
  rwf_agent_addr : fits 64 (raw_agent_cline_addr r);
  rwf_dir_addr : fits 64 (raw_dir_gblock_addr r);
  rwf_dir_index : fits 32 (raw_dir_gblock_index r);
  rwf_bitmap : bytes8 (raw_dir_gblock_bitmap r);
  rwf_dir_node : fits 8 (raw_dir_gblock_nodeID r);
  rwf_owner : fits 8 (raw_general_c2h_owner r);
  rwf_init_state : fits 8 (raw_init_state r);
  rwf_mac : length (raw_init_mac r) = 6%nat ∧ Forall (fits 8) (raw_init_mac r);
  rwf_pad0 : fits 8 (padding_0 r);
  rwf_pad1 : fits 16 (padding_1 r);
}.

(** [init_mac] as the 48-bit field of the FPGA. *)
Definition mac48 (mac : list Z) : Z := le_word 8 mac.

(** ** The slices of an image *)
Lemma bridge_word_union p : fits 512 p → bridge_word (union_values p) = p.
Proof.
  intros. unfold bridge_word, union_values.
  transitivity (le_word 64
    ((λ i, get_range p (64 * i + (64 - 1)) (64 * i)) <$> seqZ 0 (Z.of_nat 8))); [done|].
  rewrite le_word_slices by lia. by apply (get_range_full 512).
Qed.

Lemma mac_slice p : get_range p 487 440 = mac48 ((λ o, get_range p (8 * o + 7) (8 * o)) <$> seqZ 55 6).
Proof.
  transitivity (le_word 8
    ((λ i, get_range p (8 * i + (8 - 1)) (8 * i)) <$> seqZ 55 (Z.of_nat 6))); [|done].
  by rewrite le_word_slices by lia.
Qed.

Lemma raw_image_fits r : fits 512 (raw_image r).
Proof.
  assert (∀ l p off, fits 512 p → fits 512 (store_members p off l)) as H.
  { induction l as [|[w v] l IH]; intros p off Hp; [done|]. cbn. apply IH.
    by apply set_range_fits. }
  by apply H.
Qed.

(** A store of a list of members leaves the bits below alone, and puts member [k]
    after the members before it. *)
Fixpoint total (l : list (Z * Z)) : Z :=
  match l with [] => 0 | (w, _) :: l => w + total l end.

Definition member_ok (wv : Z * Z) : Prop := 0 < wv.1 ∧ fits wv.1 wv.2.

Lemma total_nonneg l : Forall member_ok l → 0 ≤ total l.
Proof. induction 1 as [|[w v] l [Hw _] _ IH]; cbn in *; lia. Qed.

Lemma store_members_below l p off hi lo :
  Forall member_ok l → 0 ≤ lo ≤ hi → hi < off → hi < 512 →
  get_range (store_members p off l) hi lo = get_range p hi lo.
Proof.
  intros Hl. revert p off. induction Hl as [|[w v] l [Hw Hv] Hl IH]; intros p off ? Ho ?; [done|].
  cbn in *. rewrite IH by lia. apply get_set_other; lia.
Qed.

Lemma store_members_lookup l k p off w v :
  Forall member_ok l → l !! k = Some (w, v) → 0 ≤ off → off + total l ≤ 512 →
  let o := off + total (take k l) in
  get_range (store_members p off l) (o + w - 1) o = v.
Proof.
  intros Hl. revert k p off. induction Hl as [|[w' v'] l [Hw Hv] Hl IH]; intros k p off Hk ? Ht;
    [done|].
  pose proof (total_nonneg l Hl). destruct k as [|k]; cbn in *.
  - injection Hk as -> ->. rewrite Z.add_0_r.
    rewrite store_members_below by (done || lia). apply get_set_same; [lia..|].
    by replace (off + w - 1 - off + 1) with w by lia.
  - replace (off + (w' + total (take k l))) with (off + w' + total (take k l)) by lia.
    apply IH; [done|lia..].
Qed.

(** ** Layout of a message *)
Ltac raw_cases r H :=
  destruct r as [f0 f1 f2 f3 f4 f5 f6 f7 f8 f9 fb f11 f12 f13 fm f15 f16];
  destruct H as [?????????? Hb ??? [Hl Hm] ??]; cbn in *;
  destruct (bytes8_inv fb Hb) as (b0&b1&b2&b3&b4&b5&b6&b7&->&?&?&?&?&?&?&?&?);
  do 6 (destruct fm as [|? fm]; [done|]); destruct fm; [|done];
  rewrite !Forall_cons in Hm; destruct Hm as (?&?&?&?&?&?&_).

Lemma raw_members_ok r : raw_wf r → Forall member_ok (raw_members r) ∧ total (raw_members r) = 512.
Proof.
  intros H. raw_cases r H. split; [|done].
  repeat (apply Forall_cons; split; [split; done|]). by apply Forall_nil.
Qed.

Lemma raw_slice r k w v o :
  raw_wf r → raw_members r !! k = Some (w, v) → total (take k (raw_members r)) = o →
  get_range (raw_image r) (o + w - 1) o = v.
Proof.
  intros H Hk <-. destruct (raw_members_ok r H) as [Ho Ht].
  apply (store_members_lookup _ _ _ 0); [done..|lia].
Qed.

Arguments raw_image : simpl never.
Arguments mac48 : simpl never.

(** Solves [get_range (raw_image r) hi lo = v] with the member that lies there. *)
Ltac member_from Hs k n :=
  lazymatch n with
  | O => fail
  | S ?n =>
      lazymatch goal with
      | |- get_range _ ?hi ?lo = ?v =>
          first [ exact (Hs k (hi - lo + 1) v lo eq_refl eq_refl) | member_from Hs (S k) n ]
      end
  end.
Ltac members Hs := repeat f_equal; member_from Hs 0%nat 29%nat.

(** Every member is where the compiler puts it. *)
Lemma raw_load_image r : raw_wf r → raw_load (raw_image r) = r.
Proof.
  intros H. pose proof (λ k w v o, raw_slice r k w v o H) as Hs.
  raw_cases r H. unfold raw_load.
  change (seqZ 44 8) with [44; 45; 46; 47; 48; 49; 50; 51].
  change (seqZ 55 6) with [55; 56; 57; 58; 59; 60]. cbn [fmap list_fmap]. members Hs.
Qed.

(** The message a controller makes of a host message, over what its structure held. *)
Definition ctrl_of_raw (r : RawMessage) (m0 : ctrl_msg) : ctrl_msg :=
  m0 <| mtype := raw_mtype r |>
     <| req_cline_nodeID := raw_req_cline_nodeID r |>
     <| req_cline_appThreadID := raw_req_cline_appThreadID r |>
     <| req_cline_addr := raw_req_cline_addr r |>
     <| req_cline_index := raw_req_cline_index r |>
     <| cline_tag := raw_cline_tag r |>
     <| agent_cline_nodeID := raw_agent_cline_nodeID r |>
     <| agent_cline_addr := raw_agent_cline_addr r |>
     <| dir_gblock_addr := raw_dir_gblock_addr r |>
     <| dir_gblock_index := raw_dir_gblock_index r |>
     <| dir_gblock_bitmap := raw_dir_gblock_bitmap r |>
     <| dir_gblock_nodeID := raw_dir_gblock_nodeID r |>
     <| init_state := raw_init_state r |> <| init_mac := mac48 (raw_init_mac r) |>.

(** The message the host sees, in a slot that held [p0]. *)
Definition raw_of_ctrl (m : ctrl_msg) (p0 : Z) : RawMessage :=
  let r0 := raw_load p0 in
  mk_RawMessage (mtype m) (req_cline_nodeID m) (req_cline_appThreadID m) (req_cline_addr m)
    (req_cline_index m) (cline_tag m) (agent_cline_nodeID m) (agent_cline_addr m)
    (dir_gblock_addr m) (dir_gblock_index m) (dir_gblock_bitmap m) (dir_gblock_nodeID m)
    1 (raw_init_state r0) (raw_init_mac r0) (padding_0 r0) (padding_1 r0).

(** The packed structure, written as eight words, is read member by member by the
    decoders of [utils.cpp]; no padding byte is read. *)
Lemma send_decode r m0 :
  raw_wf r →
  extract_mtype_from_h2c_w (send r) = raw_mtype r ∧
  h2c_w_to_ctrl_msg (send r) m0 = ctrl_of_raw r m0 ∧
  h2c_w_to_dir_data (send r) =
    mk_dir_data (raw_dir_gblock_addr r) (raw_dir_gblock_index r) (raw_dir_gblock_bitmap r)
      (raw_init_state r) 0 ∧
  h2c_w_to_net_init_msg (send r) =
    mk_net_init_msg (raw_dir_gblock_nodeID r) (mac48 (raw_init_mac r)).
Proof.
  intros H. unfold send. rewrite bridge_word_union by apply raw_image_fits.
  unfold extract_mtype_from_h2c_w, h2c_w_to_ctrl_msg, h2c_w_to_dir_data, h2c_w_to_net_init_msg.
  cbn [h2c_wdata]. rewrite mac_slice. unfold take_bitmap.
  change (seqZ 0 max_node_num) with [0; 1; 2; 3; 4; 5; 6; 7].
  change (seqZ 55 6) with [55; 56; 57; 58; 59; 60]. cbn [fmap list_fmap].
  pose proof (λ k w v o, raw_slice r k w v o H) as Hs. unfold ctrl_of_raw.
  raw_cases r H. destruct m0. rsimpl. cbn.
  split_and!; [| | |].
  - members Hs.
  - members Hs.
  - members Hs.
  - members Hs.
Qed.

(** What the FPGA makes of a host message of each kind. *)
Definition init_dir_of (r : RawMessage) : dir_data :=
  mk_dir_data (raw_dir_gblock_addr r) (raw_dir_gblock_index r) (raw_dir_gblock_bitmap r)
    (raw_init_state r) 0.
Definition init_net_of (r : RawMessage) : net_init_msg :=
  mk_net_init_msg (raw_dir_gblock_nodeID r) (mac48 (raw_init_mac r)).

Definition for_network (r : RawMessage) : Prop := raw_mtype r ≠ INIT_DIR ∧ raw_mtype r ≠ INIT_NET.
#[export] Instance for_network_dec r : Decision (for_network r) := _.

Lemma demux_cycle junk s r ws :
  raw_wf r → h2c_w_f_QS_t_CMD_in s = send r :: ws →
  let s' := h2cCtrlMsgDeliverHLS junk s in
  h2c_w_f_QS_t_CMD_in s' = ws ∧
  hm_dir_data_init s' = hm_dir_data_init s ++
    (init_dir_of <$> filter (λ r, raw_mtype r = INIT_DIR) [r]) ∧
  hm_net_init_msg s' = hm_net_init_msg s ++
    (init_net_of <$> filter (λ r, raw_mtype r = INIT_NET) [r]) ∧
  ctrl_msg_f_CMD_t_CC_out s' = ctrl_msg_f_CMD_t_CC_out s ++
    ((λ r, ctrl_of_raw r (new_ctrl_msg junk)) <$> filter for_network [r]).
Proof.
  intros Hr Hs. destruct (send_decode r (new_ctrl_msg junk) Hr) as (Et & Em & Ed & En).
  destruct s as [x0 x1 x2 x3 x4 x5 x6 x7]. cbn [h2c_w_f_QS_t_CMD_in] in Hs. subst x2. unfold h2cCtrlMsgDeliverHLS.
  cbn -[extract_mtype_from_h2c_w h2c_w_to_ctrl_msg h2c_w_to_dir_data h2c_w_to_net_init_msg
        new_ctrl_msg Z.eqb mtype_val send wrap init_dir_of ctrl_of_raw filter].
  rewrite Et, Em, Ed, En.
  fold (init_dir_of r) (init_net_of r). unfold filter. cbn [list_filter].
  destruct (Z.eqb_spec (raw_mtype r) INIT_DIR) as [E|E];
    [|destruct (Z.eqb_spec (raw_mtype r) INIT_NET) as [E'|E']].
  - rewrite (decide_True (P := raw_mtype r = INIT_DIR)), (decide_False (P := raw_mtype r = INIT_NET)), (decide_False (P := for_network r)); [|unfold for_network; tauto|by rewrite E|done].
    cbn -[init_dir_of ctrl_of_raw]. by rewrite !app_nil_r.
  - rewrite (decide_False (P := raw_mtype r = INIT_DIR)), (decide_True (P := raw_mtype r = INIT_NET)), (decide_False (P := for_network r)); [|unfold for_network; tauto|done..].
    cbn -[init_dir_of ctrl_of_raw]. by rewrite !app_nil_r.
  - rewrite (decide_False (P := raw_mtype r = INIT_DIR)), (decide_False (P := raw_mtype r = INIT_NET)), (decide_True (P := for_network r)); [|done..].
    cbn -[init_dir_of ctrl_of_raw]. by rewrite !app_nil_r.
Qed.

(** What the host sends is what the FPGA receives: a sequence of packed
    [RawMessage]s written by [send], one per cycle, is sorted by
    [h2cCtrlMsgDeliverHLS] into directory initialisations, MAC-table
    initialisations and protocol messages, each kind in order, every member of
    every message at its place, with nothing lost or invented. *)
Theorem host_demux junk rs s :
  Forall raw_wf rs → h2c_w_f_QS_t_CMD_in s = send <$> rs →
  let s' := Nat.iter (length rs) (h2cCtrlMsgDeliverHLS junk) s in
  h2c_w_f_QS_t_CMD_in s' = [] ∧
  hm_dir_data_init s' = hm_dir_data_init s ++
    (init_dir_of <$> filter (λ r, raw_mtype r = INIT_DIR) rs) ∧
  hm_net_init_msg s' = hm_net_init_msg s ++
    (init_net_of <$> filter (λ r, raw_mtype r = INIT_NET) rs) ∧
  ctrl_msg_f_CMD_t_CC_out s' = ctrl_msg_f_CMD_t_CC_out s ++
    ((λ r, ctrl_of_raw r (new_ctrl_msg junk)) <$> filter for_network rs).
Proof.
  intros Hrs. cbv zeta. revert s. induction Hrs as [|r rs Hr Hrs IH]; intros s Hs.
  - cbn. rewrite !app_nil_r. done.
  - cbn [length]. rewrite Nat.iter_succ_r.
    destruct (demux_cycle junk s r (map send rs) Hr Hs) as (I0 & I1 & I2 & I3).
    destruct (IH _ I0) as (-> & -> & -> & ->). rewrite I1, I2, I3, <-!app_assoc.
    rewrite <-!fmap_app, <-!filter_app. done.
Qed.

Lemma raw_bitmap p : (λ o, get_range p (8 * o + 7) (8 * o)) <$> seqZ 44 8 = take_bitmap 352 p.
Proof. done. Qed.

(** What the FPGA sends is what the host reads: the beat built by
    [ctrl_msg_to_c2h_data], DMA-written over a slot of the receive ring and read as
    a packed [RawMessage], has the members of the message and the owner flag set,
    which is what [recv] waits for. *)
Theorem host_receive m p0 qid q tmp_qid :
  ctrl_msg_wf m →
  let d := (ctrl_msg_to_c2h_data m (mk_c2h_data p0 q qid) tmp_qid).2 in
  raw_load (c2h_dat d) = raw_of_ctrl m p0 ∧ c2h_last d = 1.
Proof.
  intros H. cbv zeta. split; [|done]. unfold raw_of_ctrl, raw_load. rewrite !raw_bitmap.
  destruct H, m. unfold ctrl_msg_to_c2h_data. rsimpl. cbn [snd] in *. rsimpl.
  cbn [raw_init_state raw_init_mac padding_0 padding_1] in *.
  change (seqZ 55 6) with [55; 56; 57; 58; 59; 60]. cbn [fmap list_fmap].
  f_equal; try (by wire).
Qed.

(** ** Witnesses *)
Definition ex_raw : RawMessage :=
  mk_RawMessage R_READ_MISS 2 3 0x7000 5 0x3000000000001000 0 0 0x9000 6
    [0; 1; 0; 0; 0; 0; 0; 0] 3 0 0 [1; 2; 3; 4; 5; 6] 0 0.
Definition ex_raw_init : RawMessage := ex_raw <| raw_mtype := INIT_DIR |>.

Lemma ex_raw_wf t : fits 8 t → raw_wf (ex_raw <| raw_mtype := t |>).
Proof.
  intros Ht. split; try done.
  - split; [done|]. repeat (apply Forall_cons; split; [done|]). by apply Forall_nil.
  - split; [done|]. repeat (apply Forall_cons; split; [done|]). by apply Forall_nil.
Qed.

Lemma host_demux_witness :
  let s := mk_h2c_msg_deliver 0 ctrl_msg_zero [send ex_raw_init; send ex_raw] [] [] [] 0
             ctrl_msg_zero in
  let s' := Nat.iter 2 (h2cCtrlMsgDeliverHLS ctrl_msg_zero) s in
  hm_dir_data_init s' = [mk_dir_data 0x9000 6 [0; 1; 0; 0; 0; 0; 0; 0] 0 0] ∧
  mtype <$> ctrl_msg_f_CMD_t_CC_out s' = [mtype_val R_READ_MISS].
Proof.
  intros s s'.
  destruct (host_demux ctrl_msg_zero [ex_raw_init; ex_raw] s) as (_ & E1 & _ & E2).
  - apply Forall_cons. split; [by apply ex_raw_wf|]. apply Forall_singleton.
    by apply (ex_raw_wf R_READ_MISS).
  - reflexivity.
  - split; [exact E1|]. etransitivity; [exact (f_equal (fmap mtype) E2)|]. reflexivity.
Defined.

Lemma host_receive_witness :
  let m := ctrl_msg_zero <| mtype := DIR_2_APP_READ_MISS_ACKDATA |> <| cline_tag := 0x1000 |> in
  let d := (ctrl_msg_to_c2h_data m (mk_c2h_data 0 0 0) 1).2 in
  raw_cline_tag (raw_load (c2h_dat d)) = 0x1000 ∧
  raw_general_c2h_owner (raw_load (c2h_dat d)) = 1.
Proof.
  intros m d. destruct (host_receive m 0 0 0 1) as [E _].
  - split; try done. split; [done|]. repeat (apply Forall_cons; split; [done|]). by apply Forall_nil.
  - split; [exact (f_equal raw_cline_tag E)|exact (f_equal raw_general_c2h_owner E)].
Defined.
