(* ===== verification/Ring.v ===== *)
(** * Ring: the receive rings of the host, [ring_buffer.h], [channel_context.h]

    A channel receives through a ring of 64 slots in host memory.  The FPGA side
    ([Qdma.c2hMultiBufferMgrHLS]) writes message after message at its tail index and
    stops one slot before the head index that the host has last published; the host
    ([channel_context::recv]) polls the owner byte of the slot at its head, clears
    it, publishes the head and advances.  [rx_step] is the two sides with the DMA
    engine between them. *)
From S2P Require Import Prelude DsmType Wire Qdma HostMsg.
From stdpp Require Import base numbers option list list_numbers relations.
Open Scope Z_scope.

(** ** [ring_buffer]: the indices, [uint32_t] *)
Record ring_buffer := mk_ring_buffer {
  head : Z;
  tail : Z;
  element_buffer : Z;
  ring_size : Z;
}.
#[export] Instance eta_ring_buffer : Eta ring_buffer := fun r =>
  mk_ring_buffer (head r) (tail r) (element_buffer r) (ring_size r).

Definition ring_is_empty (r : ring_buffer) : bool := head r =? tail r.
Definition ring_is_full (r : ring_buffer) : bool := wrap 32 (tail r + 1) mod ring_size r =? head r.
Definition ring_length (r : ring_buffer) : Z :=
  wrap 32 (wrap 32 (tail r + ring_size r) - head r) mod ring_size r.

(** ** [tx_ring_buffer] *)
Record tx_ring_buffer := mk_tx_ring_buffer {
  tx_ring : ring_buffer;
  cpu_send_cnt : Z;
  fpga_recv_cnt : Z;
}.
#[export] Instance eta_tx_ring_buffer : Eta tx_ring_buffer := fun r =>
  mk_tx_ring_buffer (tx_ring r) (cpu_send_cnt r) (fpga_recv_cnt r).

Definition MAX_LOOP_SIZE : Z := 1000.

(** [get_tail_element]: [None] is the failed assertion, a ring that stays full for
    [MAX_LOOP_SIZE] polls ([update_head_with_fpga] reads a counter, not the head). *)
Definition get_tail_element (r : tx_ring_buffer) : option Z :=
  if ring_is_full (tx_ring r) then None
  else Some (element_buffer (tx_ring r) + 64 * tail (tx_ring r)).

(** [step_tail], with the register writes [update_tail_with_fpga] makes; [fpga_cnt]
    is what [readReg] returns. *)
Definition tx_step_tail (fpga_cnt : Z) (r : tx_ring_buffer) : list Z * tx_ring_buffer :=
  let t := wrap 32 (tail (tx_ring r) + 1) mod ring_size (tx_ring r) in
  let r := r <| tx_ring := (tx_ring r) <| tail := t |> <| head := t |> |>
             <| cpu_send_cnt := wrap 32 (cpu_send_cnt r + 1) |> in
  if cpu_send_cnt r mod 1024 =? 0 then ([cpu_send_cnt r], r <| fpga_recv_cnt := fpga_cnt |>)
  else ([], r).

(** ** [rx_ring_buffer] *)
Record rx_ring_buffer := mk_rx_ring_buffer {
  rx_ring : ring_buffer;
  last_updated_head : Z;
}.
#[export] Instance eta_rx_ring_buffer : Eta rx_ring_buffer := fun r =>
  mk_rx_ring_buffer (rx_ring r) (last_updated_head r).

(** The constructor; [fpga_tail] is what [show_tail_with_fpga] reads. *)
Definition new_rx_ring_buffer (buffer size fpga_tail : Z) : rx_ring_buffer :=
  mk_rx_ring_buffer (mk_ring_buffer fpga_tail 0 buffer size) 0.

Definition get_head_element (r : rx_ring_buffer) : Z :=
  element_buffer (rx_ring r) + 64 * head (rx_ring r).

(** [update_head_with_fpga]: the value written to the head register. *)
Definition update_head_with_fpga (r : rx_ring_buffer) : Z * rx_ring_buffer :=
  (head (rx_ring r), r <| last_updated_head := head (rx_ring r) |>).

(** [step_head], with the values it writes to the head register, in order. *)
Definition rx_step_head (r : rx_ring_buffer) : list Z * rx_ring_buffer :=
  let size := ring_size (rx_ring r) in
  let count := wrap 32 (wrap 32 (head (rx_ring r) + size) - last_updated_head r) mod size in
  let '(w1, r) := if 16 <=? count then let '(w, r) := update_head_with_fpga r in ([w], r)
                  else ([], r) in
  let '(w, r) := update_head_with_fpga r in
  (w1 ++ [w], r <| rx_ring := (rx_ring r) <| head := wrap 32 (head (rx_ring r) + 1) mod size |> |>).

(** ** [channel_context::recv]

    One poll of the loop and, once the owner byte is set, the rest of the
    function: the returned message is the slot itself, whose owner byte has been
    cleared; [None] is a poll that finds the slot still owned by the FPGA. *)
Definition owner_of (p : Z) : Z := get_range p 431 424.
Definition clear_owner (p : Z) : Z := set_range 512 p 431 424 0.

Definition mem_set (mem : Z → Z) (a v : Z) : Z → Z := λ a', if a' =? a then v else mem a'.

Record received_msg := mk_received_msg {
  rm_message : Z;
  rm_mem : Z → Z;
  rm_writes : list Z;
  rm_ring : rx_ring_buffer;
}.

Definition recv (mem : Z → Z) (r : rx_ring_buffer) : option received_msg :=
  let a := get_head_element r in
  if owner_of (mem a) =? 0 then None
  else let '(writes, r') := rx_step_head r in
       Some (mk_received_msg a (mem_set mem a (clear_owner (mem a))) writes r').

(** ** The two sides and the DMA engine

    [q_addr], [q_num]: the buffers the channels have registered.  [arrived q] and
    [got q] record the messages that have been given to the buffer manager for
    queue [q] and those that [recv] has returned on its channel. *)
Record rx_sys := mk_rx_sys {
  mgr : buffer_mgr;
  mem : Z → Z;
  rings : Z → rx_ring_buffer;
  arrived : Z → list Z;
  got : Z → list Z;
}.

Definition upd {A} (f : Z → A) (q : Z) (x : A) : Z → A := λ q', if q' =? q then x else f q'.

Section rx_system.
Context (qid : Z) (q_addr : list Z).
Notation q_num := (Z.of_nat (length q_addr)).

Definition rx_init (s : rx_sys) : Prop :=
  q_addr_arr (mgr s) = q_addr ∧
  reg_q_tidx_arr (mgr s) = replicate (length q_addr) 0 ∧
  q_hidx_arr (mgr s) = replicate (length q_addr) 0 ∧
  bm_reg_retry_flag (mgr s) = 0 ∧
  c2h_cmd_f_BM_t_CDD_out (mgr s) = [] ∧ c2h_data_f_BM_t_CDD_out (mgr s) = [] ∧
  c2h_data_f_CMD_t_BM_in (mgr s) = [] ∧
  (∀ q a, arr_get q_addr q = Some a → rings s q = new_rx_ring_buffer a max_msg_num_per_q 0) ∧
  (∀ q a i, arr_get q_addr q = Some a → 0 ≤ i < max_msg_num_per_q → mem s (a + 64 * i) = 0) ∧
  (∀ q, arrived s q = []) ∧ (∀ q, got s q = []).

Inductive rx_step : rx_sys → rx_sys → Prop :=
| rx_arrive s d :
    0 ≤ c2h_ctrl_qid d < q_num → fits 512 (c2h_dat d) → owner_of (c2h_dat d) = 1 →
    rx_step s (mk_rx_sys
      ((mgr s) <| c2h_data_f_CMD_t_BM_in := push (c2h_data_f_CMD_t_BM_in (mgr s)) d |>)
      (mem s) (rings s)
      (upd (arrived s) (c2h_ctrl_qid d) (arrived s (c2h_ctrl_qid d) ++ [c2h_dat d])) (got s))
| rx_tick s m :
    c2hMultiBufferMgrHLS qid (mgr s) = Some m →
    rx_step s (mk_rx_sys m (mem s) (rings s) (arrived s) (got s))
| rx_dma s c cs d ds :
    c2h_cmd_f_BM_t_CDD_out (mgr s) = c :: cs →
    c2h_data_f_BM_t_CDD_out (mgr s) = d :: ds →
    rx_step s (mk_rx_sys
      ((mgr s) <| c2h_cmd_f_BM_t_CDD_out := cs |> <| c2h_data_f_BM_t_CDD_out := ds |>)
      (mem_set (mem s) (c2h_addr c) (c2h_dat d)) (rings s) (arrived s) (got s))
| rx_recv s q r hidx :
    0 ≤ q < q_num →
    recv (mem s) (rings s q) = Some r →
    arr_set (q_hidx_arr (mgr s)) q (List.last (rm_writes r) 0) = Some hidx →
    rx_step s (mk_rx_sys ((mgr s) <| q_hidx_arr := hidx |>) (rm_mem r)
      (upd (rings s) q (rm_ring r)) (arrived s)
      (upd (got s) q (got s q ++ [rm_mem r (rm_message r)]))).

(** ** The invariant

    For queue [q] with its buffer at [a]: [sent] are the messages that have left
    the buffer manager, of which the first [M] have been written to memory and the
    first [R] (the length of [got]) have been received. *)
Definition slot (a : Z) (k : nat) : Z := a + 64 * (Z.of_nat k mod 64).

Record queue_ok (s : rx_sys) (q a : Z) (sent : list Z) (M : nat) : Prop := {
  qo_tidx : arr_get (reg_q_tidx_arr (mgr s)) q = Some (Z.of_nat (length sent) mod 64);
  qo_hidx : arr_get (q_hidx_arr (mgr s)) q = Some (Z.of_nat (pred (length (got s q))) mod 64);
  qo_ring : ∃ t l, rings s q = mk_rx_ring_buffer
    (mk_ring_buffer (Z.of_nat (length (got s q)) mod 64) t a 64) l;
  qo_got : got s q = clear_owner <$> take (length (got s q)) sent;
  qo_bounds : (length (got s q) ≤ M ≤ length sent ∧
               length sent ≤ pred (length (got s q)) + 63)%nat;
  qo_unread : ∀ k, (length (got s q) ≤ k < M)%nat → sent !! k = Some (mem s (slot a k));
  qo_free : ∀ k, (M ≤ k < length (got s q) + 64)%nat → owner_of (mem s (slot a k)) = 0;
  qo_last : ∀ m, last (got s q) = Some m → mem s (slot a (pred (length (got s q)))) = m;
}.

(** The messages the buffer manager holds. *)
Definition waiting (s : rx_sys) : list c2h_data :=
  (if bm_reg_retry_flag (mgr s) =? 0 then [] else [reg_retry_c2h_data (mgr s)]) ++
  c2h_data_f_CMD_t_BM_in (mgr s).

Definition beat_ok (d : c2h_data) : Prop :=
  0 ≤ c2h_ctrl_qid d < q_num ∧ fits 512 (c2h_dat d) ∧ owner_of (c2h_dat d) = 1.

(** A DMA write on its way: queue, number in the queue, data. *)
Record in_flight := mk_in_flight { if_q : Z; if_k : nat; if_dat : Z }.
Definition flight_addr (e : in_flight) : option Z :=
  a ← arr_get q_addr (if_q e); Some (slot a (if_k e)).

Record rx_inv (s : rx_sys) (sent : Z → list Z) (M : Z → nat) (pend : list in_flight) : Prop := {
  ri_addr : q_addr_arr (mgr s) = q_addr;
  ri_queue : ∀ q a, arr_get q_addr q = Some a → queue_ok s q a (sent q) (M q);
  ri_cmds : Some <$> (c2h_addr <$> c2h_cmd_f_BM_t_CDD_out (mgr s)) = flight_addr <$> pend;
  ri_datas : c2h_dat <$> c2h_data_f_BM_t_CDD_out (mgr s) = if_dat <$> pend;
  ri_pend : ∀ q, 0 ≤ q < q_num →
    Forall2 (λ e k, if_q e = q ∧ if_k e = k ∧ sent q !! k = Some (if_dat e))
      (filter (λ e, if_q e = q) pend) (seq (M q) (length (sent q) - M q));
  ri_waiting : Forall beat_ok (waiting s);
  ri_arrived : ∀ q, 0 ≤ q < q_num →
    arrived s q = sent q ++ (c2h_dat <$> filter (λ d, c2h_ctrl_qid d = q) (waiting s));
  ri_owner : ∀ q, 0 ≤ q < q_num → Forall (λ p, fits 512 p ∧ owner_of p = 1) (arrived s q);
}.

Context (Hnum : q_num ≤ 24).
Context (Haddr : ∀ q a, arr_get q_addr q = Some a → 0 ≤ a ∧ a + 64 * 64 ≤ 2 ^ 64).
Context (Hdisj : ∀ q q' a a', arr_get q_addr q = Some a → arr_get q_addr q' = Some a' →
  q ≠ q' → a + 64 * 64 ≤ a' ∨ a' + 64 * 64 ≤ a).

Lemma slot_other q q' a a' k k' :
  arr_get q_addr q = Some a → arr_get q_addr q' = Some a' → q ≠ q' → slot a k ≠ slot a' k'.
Proof.
  intros Ha Ha' Hne E. unfold slot in E. pose proof (Hdisj _ _ _ _ Ha Ha' Hne). divlia.
Qed.

Lemma mod64_near (k k' : Z) : k < k' < k + 64 → k mod 64 ≠ k' mod 64.
Proof.
  intros ? E. pose proof (Z.div_mod k 64). pose proof (Z.div_mod k' 64).
  assert (k / 64 = k' / 64 ∨ k / 64 < k' / 64 ∨ k' / 64 < k / 64) by lia. lia.
Qed.

Lemma slot_same a k k' : (k < k' < k + 64)%nat → slot a k ≠ slot a k'.
Proof.
  intros ? E. apply (mod64_near (Z.of_nat k) (Z.of_nat k')); [lia|].
  unfold slot in E. lia.
Qed.

Lemma owner_cleared p : fits 512 p → owner_of (clear_owner p) = 0.
Proof. intros. unfold owner_of, clear_owner. by rewrite get_set_same by (done || lia). Qed.

Lemma rx_inv_init s : rx_init s → rx_inv s (λ _, []) (λ _, 0%nat) [].
Proof.
  intros (Ha & Ht & Hh & Hf & Hc & Hd & Hi & Hr & Hm & Har & Hg).
  assert (waiting s = []) as Hw by (unfold waiting; by rewrite Hf, Hi).
  split; rewrite ?Hw, ?Hc, ?Hd; try done.
  - intros q a Hq. pose proof (arr_get_range _ _ _ Hq).
    assert (arr_get (replicate (length q_addr) 0) q = Some 0) as H0.
    { unfold arr_get in *. destruct (q <? 0); [done|]. apply lookup_replicate. split; [done|].
      by apply lookup_lt_Some in Hq. }
    split; rewrite ?Ht, ?Hh, ?Hg; try done.
    + rewrite (Hr _ _ Hq). by eexists _, _.
    + cbn. lia.
    + cbn. lia.
    + intros k Hk. unfold slot. rewrite (Hm _ _ _ Hq); [done|]. unfold max_msg_num_per_q. divlia.
  - intros q ?. by rewrite Har.
Qed.

Lemma queue_ok_frame s s' q a sent M :
  queue_ok s q a sent M →
  arr_get (reg_q_tidx_arr (mgr s')) q = arr_get (reg_q_tidx_arr (mgr s)) q →
  arr_get (q_hidx_arr (mgr s')) q = arr_get (q_hidx_arr (mgr s)) q →
  rings s' q = rings s q → got s' q = got s q →
  (∀ k, mem s' (slot a k) = mem s (slot a k)) →
  queue_ok s' q a sent M.
Proof.
  intros [] Et Eh Er Eg Em.
  split; rewrite ?Et, ?Eh, ?Er, ?Eg; try done; intros; rewrite ?Em; auto.
Qed.

(** What a poll of the buffer manager does with a message for a queue whose tail is
    at [W] and whose published head is at [P]. *)
Definition put_result (d : c2h_data) (a W P : Z) (t : list Z) (s : buffer_mgr)
    : buffer_mgr :=
  if W =? P + 63 then s <| reg_retry_c2h_data := d |> <| bm_reg_retry_flag := 1 |>
  else s <| reg_retry_c2h_data := d |>
         <| c2h_cmd_f_BM_t_CDD_out :=
              push (c2h_cmd_f_BM_t_CDD_out s) (mk_c2h_cmd (a + 64 * (W mod 64)) 64 qid) |>
         <| c2h_data_f_BM_t_CDD_out :=
              push (c2h_data_f_BM_t_CDD_out s) (d <| c2h_ctrl_qid := qid |>) |>
         <| reg_q_tidx_arr := t |> <| bm_reg_retry_flag := 0 |>
         <| bm_reg_count := wrap 32 (bm_debug_count s + 1) |>.

Lemma tidx_plus1 W :
  (if W mod 64 =? max_msg_num_per_q - 1 then 0 else wrap 8 (W mod 64 + 1)) = (W + 1) mod 64.
Proof.
  change (max_msg_num_per_q - 1) with 63. destruct (Z.eqb_spec (W mod 64) 63).
  - divlia.
  - rewrite wrap_small by (unfold fits; divlia). divlia.
Qed.

Lemma ring_full_iff W P : P ≤ W ≤ P + 63 → ((W + 1) mod 64 =? P mod 64) = (W =? P + 63).
Proof.
  intros. destruct (Z.eqb_spec W (P + 63)) as [->|].
  - replace (P + 63 + 1) with (P + 1 * 64) by lia. rewrite Z_mod_plus_full. apply Z.eqb_refl.
  - apply Z.eqb_neq. intros E. symmetry in E. revert E. apply mod64_near. lia.
Qed.

Lemma buffer_put_result d a W P s :
  0 ≤ c2h_ctrl_qid d < 24 → 0 ≤ a → a + 64 * 64 ≤ 2 ^ 64 → P ≤ W ≤ P + 63 →
  arr_get (q_addr_arr s) (c2h_ctrl_qid d) = Some a →
  arr_get (reg_q_tidx_arr s) (c2h_ctrl_qid d) = Some (W mod 64) →
  arr_get (q_hidx_arr s) (c2h_ctrl_qid d) = Some (P mod 64) →
  ∃ t, arr_set (reg_q_tidx_arr s) (c2h_ctrl_qid d) ((W + 1) mod 64) = Some t ∧
    buffer_put qid d s = Some (put_result d a W P t s).
Proof.
  intros Hq Ha Ha' HW Ea Et Eh. pose proof (arr_get_range _ _ _ Et) as Hr.
  eexists. split; [by apply arr_set_Some|].
  assert (0 ≤ W mod 64 < 64 ∧ 0 ≤ P mod 64 < 64) as [? ?] by divlia.
  unfold buffer_put, put_result. cbn -[wrap arr_get arr_set].
  rewrite (wrap_small 8 (c2h_ctrl_qid d)) by (unfold fits; lia).
  rewrite Ea, Et, Eh. cbn -[wrap arr_get arr_set].
  rewrite (wrap_small 8 (W mod 64)), (wrap_small 8 (P mod 64)) by (unfold fits; lia).
  rewrite tidx_plus1, ring_full_iff by done. destruct (W =? P + 63); [done|].
  cbn -[wrap arr_get arr_set]. rewrite arr_set_Some by done. cbn -[wrap arr_get arr_set].
  rewrite (wrap_small 64); [done|]. change max_msg_length with 64. unfold fits. lia.
Qed.

Lemma queue_bounds s sent M pend q a :
  rx_inv s sent M pend → arr_get q_addr q = Some a → queue_ok s q a (sent q) (M q).
Proof. intros [] ?; auto. Qed.

Lemma q_addr_get q : 0 ≤ q < q_num → ∃ a, arr_get q_addr q = Some a.
Proof. apply arr_get_Some. Qed.

(** A poll under the invariant: nothing to do, a full queue, or a write. *)
Lemma tick_result s sent M pend :
  rx_inv s sent M pend →
  match waiting s with
  | [] => ∃ m, c2hMultiBufferMgrHLS qid (mgr s) = Some m ∧
      m = (mgr s) <| bm_debug_count := bm_reg_count (mgr s) |>
                  <| q_tidx_arr := reg_q_tidx_arr (mgr s) |>
  | d :: w => ∃ a t m m0, arr_get q_addr (c2h_ctrl_qid d) = Some a ∧
      let q := c2h_ctrl_qid d in
      let W := Z.of_nat (length (sent q)) in
      let P := Z.of_nat (pred (length (got s q))) in
      P ≤ W ≤ P + 63 ∧
      arr_set (reg_q_tidx_arr (mgr s)) q ((W + 1) mod 64) = Some t ∧
      c2hMultiBufferMgrHLS qid (mgr s) = Some m ∧
      m = put_result d a W P t m0 ∧
      q_addr_arr m0 = q_addr ∧ reg_q_tidx_arr m0 = reg_q_tidx_arr (mgr s) ∧
      q_hidx_arr m0 = q_hidx_arr (mgr s) ∧
      c2h_cmd_f_BM_t_CDD_out m0 = c2h_cmd_f_BM_t_CDD_out (mgr s) ∧
      c2h_data_f_BM_t_CDD_out m0 = c2h_data_f_BM_t_CDD_out (mgr s) ∧
      c2h_data_f_CMD_t_BM_in m0 = w
  end.
Proof.
  intros I. destruct (waiting s) as [|d w] eqn:Ew.
  - unfold waiting in Ew. unfold c2hMultiBufferMgrHLS. cbn -[buffer_put].
    destruct (bm_reg_retry_flag (mgr s) =? 0); [|done]. cbn in Ew |- *. rewrite Ew.
    by eexists.
  - pose proof (ri_waiting _ _ _ _ I) as Hw. rewrite Ew in Hw.
    apply Forall_cons in Hw as [(Hq & _ & _) _].
    destruct (q_addr_get _ Hq) as [a Ha]. pose proof (queue_bounds _ _ _ _ _ _ I Ha) as [].
    pose proof (Haddr _ _ Ha) as [? ?].
    assert (∃ m0, c2hMultiBufferMgrHLS qid (mgr s) = buffer_put qid d m0 ∧
      q_addr_arr m0 = q_addr ∧ reg_q_tidx_arr m0 = reg_q_tidx_arr (mgr s) ∧
      q_hidx_arr m0 = q_hidx_arr (mgr s) ∧
      c2h_cmd_f_BM_t_CDD_out m0 = c2h_cmd_f_BM_t_CDD_out (mgr s) ∧
      c2h_data_f_BM_t_CDD_out m0 = c2h_data_f_BM_t_CDD_out (mgr s) ∧
      c2h_data_f_CMD_t_BM_in m0 = w) as (m0 & E0 & E1 & E2 & E3 & E4 & E5 & E6).
    { unfold waiting in Ew. unfold c2hMultiBufferMgrHLS. cbn -[buffer_put].
      pose proof (ri_addr _ _ _ _ I).
      destruct (bm_reg_retry_flag (mgr s) =? 0); cbn -[buffer_put] in *.
      - rewrite Ew. by eexists.
      - injection Ew as <- <-. by eexists. }
    destruct (buffer_put_result d a (Z.of_nat (length (sent (c2h_ctrl_qid d))))
      (Z.of_nat (pred (length (got s (c2h_ctrl_qid d))))) m0) as (t & Et & Ep);
      rewrite ?E1, ?E2, ?E3; try done; try lia.
    rewrite E2 in Et. exists a, t, (put_result d a (Z.of_nat (length (sent (c2h_ctrl_qid d))))
      (Z.of_nat (pred (length (got s (c2h_ctrl_qid d))))) t m0), m0.
    rewrite E0. cbv zeta. split_and!; done || lia.
Qed.

(** Messages for a queue that arrive, and messages passed on. *)
Lemma inv_arrive s sent M pend d :
  rx_inv s sent M pend → beat_ok d →
  rx_inv (mk_rx_sys
      ((mgr s) <| c2h_data_f_CMD_t_BM_in := push (c2h_data_f_CMD_t_BM_in (mgr s)) d |>)
      (mem s) (rings s)
      (upd (arrived s) (c2h_ctrl_qid d) (arrived s (c2h_ctrl_qid d) ++ [c2h_dat d])) (got s))
    sent M pend.
Proof.
  intros I Hd. set (s' := mk_rx_sys _ _ _ _ _).
  assert (waiting s' = waiting s ++ [d]) as Hw.
  { unfold waiting, s', push. cbn. by rewrite app_assoc. }
  split; rewrite ?Hw; try apply I.
  - intros q a Ha. apply (queue_ok_frame s); [by apply (ri_queue _ _ _ _ I)|done..].
  - apply Forall_app. split; [apply I|by apply Forall_singleton].
  - intros q Hq. unfold s', upd. cbn. rewrite filter_key_snoc.
    pose proof (ri_arrived _ _ _ _ I q Hq) as E. destruct (Z.eqb_spec q (c2h_ctrl_qid d)) as [->|].
    + rewrite decide_True by done. rewrite fmap_app, app_assoc. cbn. by rewrite E.
    + rewrite decide_False by congruence. by rewrite app_nil_r.
  - intros q Hq. unfold s', upd. cbn. pose proof (ri_owner _ _ _ _ I q Hq).
    destruct (Z.eqb_spec q (c2h_ctrl_qid d)) as [->|]; [|done].
    apply Forall_app. split; [done|]. apply Forall_singleton, Hd.
Qed.

Lemma inv_tick s sent M pend :
  rx_inv s sent M pend →
  ∃ m, c2hMultiBufferMgrHLS qid (mgr s) = Some m ∧
    ∃ sent' pend', rx_inv (mk_rx_sys m (mem s) (rings s) (arrived s) (got s)) sent' M pend' ∧
      ∀ d w, waiting s = d :: w →
        length (sent (c2h_ctrl_qid d)) ≠ (pred (length (got s (c2h_ctrl_qid d))) + 63)%nat →
        waiting (mk_rx_sys m (mem s) (rings s) (arrived s) (got s)) = w ∧
        length pend' = S (length pend).
Proof.
  intros I. pose proof (tick_result s sent M pend I) as H.
  destruct (waiting s) as [|d w] eqn:Ew.
  - destruct H as (m & E & ->). eexists. split; [exact E|]. exists sent, pend.
    set (s' := mk_rx_sys _ _ _ _ _).
    assert (waiting s' = waiting s) as Hw by done. split; [|done].
    split; rewrite ?Hw; try apply I.
    intros q a Ha. apply (queue_ok_frame s); [by apply (ri_queue _ _ _ _ I)|done..].
  - cbv zeta in H.
    destruct H as (a & t & m & m0 & Ha & HW & Et & E & Em & E1 & E2 & E3 & E4 & E5 & E6).
    exists m. split; [exact E|]. subst m. unfold put_result.
    pose proof (ri_waiting _ _ _ _ I) as Hall. rewrite Ew in Hall.
    destruct (Z.eqb_spec (Z.of_nat (length (sent (c2h_ctrl_qid d))))
      (Z.of_nat (pred (length (got s (c2h_ctrl_qid d)))) + 63)).
    + exists sent, pend. set (s' := mk_rx_sys _ _ _ _ _).
      assert (waiting s' = waiting s) as Hw.
      { rewrite Ew. unfold waiting, s'. cbn. by rewrite E6. }
      split; [|intros ?? [= <- <-]; lia].
      split; rewrite ?Hw; cbn; rewrite ?E4, ?E5; try apply I; [done|].
      intros q a' Ha'. apply (queue_ok_frame s); cbn; rewrite ?E2, ?E3;
        [by apply (ri_queue _ _ _ _ I)|done..].
    + exists (upd sent (c2h_ctrl_qid d) (sent (c2h_ctrl_qid d) ++ [c2h_dat d])),
        (pend ++ [mk_in_flight (c2h_ctrl_qid d) (length (sent (c2h_ctrl_qid d))) (c2h_dat d)]).
      set (s' := mk_rx_sys _ _ _ _ _).
      assert (waiting s' = w) as Hw by (unfold waiting, s'; cbn; by rewrite E6).
      apply Forall_cons in Hall as [Hd Hall].
      split; [|intros ?? [= <- <-] _; split; [done|rewrite length_app; cbn; lia]].
      split; rewrite ?Hw; cbn; rewrite ?E4, ?E5; unfold push; try apply I; try done.
      * intros q a' Ha'. unfold upd. destruct (Z.eqb_spec q (c2h_ctrl_qid d)) as [->|].
        -- rewrite Ha in Ha'. injection Ha' as <-.
           destruct (ri_queue _ _ _ _ I _ _ Ha). split; cbn; rewrite ?E3; try done.
           ++ rewrite (arr_get_set _ _ _ _ _ Et), Z.eqb_refl, length_app. cbn. f_equal. f_equal. lia.
           ++ rewrite take_app_le by lia. done.
           ++ rewrite length_app. cbn. lia.
           ++ intros k Hk. rewrite lookup_app_l by lia. auto.
        -- apply (queue_ok_frame s); cbn; rewrite ?E3; try done; [by apply (ri_queue _ _ _ _ I)|].
           rewrite (arr_get_set _ _ _ _ _ Et). by rewrite (proj2 (Z.eqb_neq _ _)).
      * rewrite !fmap_app, (ri_cmds _ _ _ _ I). f_equal. unfold flight_addr.
        cbn -[arr_get]. by rewrite Ha.
      * rewrite !fmap_app, (ri_datas _ _ _ _ I). done.
      * intros q Hq. pose proof (ri_pend _ _ _ _ I q Hq) as Hp. rewrite filter_key_snoc. cbn.
        unfold upd. destruct (Z.eqb_spec q (c2h_ctrl_qid d)) as [->|].
        -- rewrite decide_True by done. destruct (ri_queue _ _ _ _ I _ _ Ha).
           rewrite length_app. cbn [length].
           replace (length (sent (c2h_ctrl_qid d)) + 1 - M (c2h_ctrl_qid d))%nat
             with (length (sent (c2h_ctrl_qid d)) - M (c2h_ctrl_qid d) + 1)%nat by lia.
           rewrite seq_app. apply Forall2_app.
           ++ eapply Forall2_impl; [exact Hp|]. cbn. intros e k (? & ? & Hk). split_and!; try done.
              rewrite lookup_app_l; [done|]. by apply lookup_lt_Some in Hk.
           ++ cbn. apply Forall2_cons. split; [|by apply Forall2_nil]. cbn.
              split_and!; [done|lia|]. rewrite lookup_app_r by lia.
              by replace (M (c2h_ctrl_qid d) + _ - _)%nat with 0%nat by lia.
        -- rewrite decide_False by done. by rewrite app_nil_r.
      * intros q Hq. rewrite (ri_arrived _ _ _ _ I q Hq), Ew. unfold upd.
        unfold filter at 1. cbn. destruct (Z.eqb_spec q (c2h_ctrl_qid d)) as [->|].
        -- rewrite decide_True by done. cbn. by rewrite <-app_assoc.
        -- by rewrite decide_False by congruence.
Qed.

(** The write at the head of the DMA queue is the next one of its queue. *)
Lemma pend_head s sent M e pend :
  rx_inv s sent M (e :: pend) →
  ∃ a, arr_get q_addr (if_q e) = Some a ∧ if_k e = M (if_q e) ∧
    (M (if_q e) < length (sent (if_q e)))%nat ∧
    sent (if_q e) !! M (if_q e) = Some (if_dat e) ∧
    ∀ q, 0 ≤ q < q_num →
      Forall2 (λ e k, if_q e = q ∧ if_k e = k ∧ sent q !! k = Some (if_dat e))
        (filter (λ e, if_q e = q) pend)
        (seq (upd M (if_q e) (S (M (if_q e))) q)
             (length (sent q) - upd M (if_q e) (S (M (if_q e))) q)).
Proof.
  intros I. pose proof (ri_cmds _ _ _ _ I) as Hc.
  destruct (c2h_cmd_f_BM_t_CDD_out (mgr s)) as [|c cs]; [done|].
  injection Hc as Hc _. unfold flight_addr in Hc.
  destruct (arr_get q_addr (if_q e)) as [a|] eqn:Ha; [|done].
  pose proof (arr_get_range _ _ _ Ha) as Hq.
  pose proof (ri_pend _ _ _ _ I _ Hq) as Hp. unfold filter in Hp. cbn in Hp.
  rewrite decide_True in Hp by done.
  destruct (length (sent (if_q e)) - M (if_q e))%nat as [|n] eqn:En; [by inversion Hp|].
  apply Forall2_cons in Hp as [(_ & Hk & Hs) Hp].
  assert (if_k e = M (if_q e)) as Hk' by done. rewrite Hk' in *.
  exists a. split_and!; try done; [lia|].
  intros q Hq'. unfold upd. destruct (Z.eqb_spec q (if_q e)) as [->|].
  - by replace (length (sent (if_q e)) - S (M (if_q e)))%nat with n by lia.
  - pose proof (ri_pend _ _ _ _ I _ Hq') as Hp'. unfold filter in Hp'. cbn in Hp'.
    by rewrite decide_False in Hp' by congruence.
Qed.

Lemma inv_dma s sent M pend c cs d ds :
  rx_inv s sent M pend →
  c2h_cmd_f_BM_t_CDD_out (mgr s) = c :: cs → c2h_data_f_BM_t_CDD_out (mgr s) = d :: ds →
  ∃ e pend', pend = e :: pend' ∧ 0 ≤ if_q e < q_num ∧
    (length (got s (if_q e)) ≤ M (if_q e))%nat ∧ rx_inv (mk_rx_sys
      ((mgr s) <| c2h_cmd_f_BM_t_CDD_out := cs |> <| c2h_data_f_BM_t_CDD_out := ds |>)
      (mem_set (mem s) (c2h_addr c) (c2h_dat d)) (rings s) (arrived s) (got s))
    sent (upd M (if_q e) (S (M (if_q e)))) pend'.
Proof.
  intros I Ec Ed. pose proof (ri_cmds _ _ _ _ I) as Hc. pose proof (ri_datas _ _ _ _ I) as Hd.
  rewrite Ec in Hc. rewrite Ed in Hd. destruct pend as [|e pend]; [done|].
  injection Hc as Hc Hcs. injection Hd as Hd Hds.
  destruct (pend_head _ _ _ _ _ I) as (a & Ha & Hk & Hlt & Hs & Hp).
  unfold flight_addr in Hc. rewrite Ha in Hc. injection Hc as Hc.
  exists e, pend. split; [done|]. split; [by apply (arr_get_range _ _ _ Ha)|].
  split; [apply (ri_queue _ _ _ _ I _ _ Ha)|].
  rewrite Hc, Hk, Hd. set (s' := mk_rx_sys _ _ _ _ _).
  assert (waiting s' = waiting s) as Hw by done.
  split; rewrite ?Hw; try apply I; try done.
  intros q a' Ha'. unfold upd. destruct (Z.eqb_spec q (if_q e)) as [->|].
  - rewrite Ha in Ha'. injection Ha' as <-. destruct (ri_queue _ _ _ _ I _ _ Ha).
    assert (∀ k, (M (if_q e) < k < M (if_q e) + 64)%nat ∨ (k < M (if_q e) < k + 64)%nat →
      mem_set (mem s) (slot a (M (if_q e))) (if_dat e) (slot a k) = mem s (slot a k)) as Hm.
    { intros k Hkk. unfold mem_set. rewrite (proj2 (Z.eqb_neq _ _)); [done|].
      destruct Hkk; [apply not_eq_sym|]; by apply slot_same. }
    split; cbn; try done.
    + lia.
    + intros k Hkk. destruct (decide (k = M (if_q e))) as [->|].
      * unfold mem_set. by rewrite Z.eqb_refl.
      * rewrite Hm by lia. apply qo_unread0. lia.
    + intros k Hkk. rewrite Hm by lia. apply qo_free0. lia.
    + intros m Hl. destruct (got s (if_q e)) eqn:Eg; [done|].
      rewrite Hm; [by apply qo_last0|]. right. cbn in *. lia.
  - apply (queue_ok_frame s); try done; [by apply (ri_queue _ _ _ _ I)|].
    intros k. cbn. unfold mem_set. rewrite (proj2 (Z.eqb_neq _ _)); [done|].
    by apply (slot_other q (if_q e)).
Qed.

(** ** Receiving *)
Lemma rx_step_head_result R t a l :
  0 ≤ R < 64 →
  ∃ ws, (∀ z, List.last (rx_step_head (mk_rx_ring_buffer (mk_ring_buffer R t a 64) l)).1 z = R) ∧
    rx_step_head (mk_rx_ring_buffer (mk_ring_buffer R t a 64) l) =
      (ws, mk_rx_ring_buffer (mk_ring_buffer ((R + 1) mod 64) t a 64) R).
Proof.
  intros HR. unfold rx_step_head. cbn -[wrap Z.modulo Z.leb].
  destruct (16 <=? _); cbn -[wrap Z.modulo];
    rewrite (wrap_small 32 (R + 1)) by (unfold fits; lia); by eexists.
Qed.

(** The owner byte of the slot at the head is set exactly when a message has been
    written there that has not been received. *)
Lemma head_owner s sent M pend q a :
  rx_inv s sent M pend → arr_get q_addr q = Some a →
  owner_of (mem s (get_head_element (rings s q))) =
    (if decide (length (got s q) < M q)%nat then 1 else 0) ∧
  get_head_element (rings s q) = slot a (length (got s q)).
Proof.
  intros I Ha. pose proof (arr_get_range _ _ _ Ha) as Hq.
  destruct (ri_queue _ _ _ _ I _ _ Ha). destruct qo_ring0 as (t & l & Er).
  assert (get_head_element (rings s q) = slot a (length (got s q))) as -> by by rewrite Er.
  split; [|done]. destruct (decide _).
  - pose proof (qo_unread0 (length (got s q)) ltac:(lia)) as Hs.
    pose proof (ri_owner _ _ _ _ I q Hq) as Ho. rewrite (ri_arrived _ _ _ _ I q Hq) in Ho.
    apply Forall_app in Ho as [Ho _]. exact (proj2 (Forall_lookup_1 _ _ _ _ Ho Hs)).
  - apply qo_free0. lia.
Qed.

(** [recv] under the invariant. *)
Lemma recv_result s sent M pend q a :
  rx_inv s sent M pend → arr_get q_addr q = Some a →
  if decide (length (got s q) < M q)%nat then
    ∃ ws t hidx, recv (mem s) (rings s q) = Some (mk_received_msg (slot a (length (got s q)))
        (mem_set (mem s) (slot a (length (got s q)))
           (clear_owner (mem s (slot a (length (got s q)))))) ws
        (mk_rx_ring_buffer (mk_ring_buffer (Z.of_nat (S (length (got s q))) mod 64) t a 64)
           (Z.of_nat (length (got s q)) mod 64))) ∧
      arr_set (q_hidx_arr (mgr s)) q (List.last ws 0) = Some hidx ∧
      List.last ws 0 = Z.of_nat (length (got s q)) mod 64
  else recv (mem s) (rings s q) = None.
Proof.
  intros I Ha. destruct (head_owner _ _ _ _ _ _ I Ha) as [Ho Eh].
  destruct (ri_queue _ _ _ _ I _ _ Ha). destruct qo_ring0 as (t & l & Er).
  unfold recv. rewrite Ho, Eh. destruct (decide _); [|done]. cbn.
  destruct (rx_step_head_result (Z.of_nat (length (got s q)) mod 64) t a l) as (ws & Hl & Es);
    [divlia|].
  rewrite Er, Es. rewrite Es in Hl. cbn in Hl.
  assert (Z.of_nat (S (length (got s q))) mod 64 =
    (Z.of_nat (length (got s q)) mod 64 + 1) mod 64) as -> by divlia.
  pose proof (arr_get_range _ _ _ qo_hidx0).
  eexists ws, t, _. split; [done|]. rewrite Hl. split; [by apply arr_set_Some|done].
Qed.

Lemma inv_recv s sent M pend q r hidx :
  rx_inv s sent M pend → 0 ≤ q < q_num →
  recv (mem s) (rings s q) = Some r →
  arr_set (q_hidx_arr (mgr s)) q (List.last (rm_writes r) 0) = Some hidx →
  (length (got s q) < M q)%nat ∧
  rx_inv (mk_rx_sys ((mgr s) <| q_hidx_arr := hidx |>) (rm_mem r)
      (upd (rings s) q (rm_ring r)) (arrived s)
      (upd (got s) q (got s q ++ [rm_mem r (rm_message r)]))) sent M pend.
Proof.
  intros I Hq Er Eh. destruct (q_addr_get _ Hq) as [a Ha].
  pose proof (recv_result _ _ _ _ _ _ I Ha) as Hr.
  destruct (decide (length (got s q) < M q)%nat) as [Hlt|]; [|congruence]. split; [done|].
  destruct Hr as (ws & t & hidx' & E & E' & El). rewrite Er in E. injection E as ->.
  cbn in Eh. rewrite Eh in E'. injection E' as <-. rewrite El in Eh.
  cbn [rm_mem rm_ring rm_message]. set (R := length (got s q)) in *.
  set (s' := mk_rx_sys _ _ _ _ _). assert (waiting s' = waiting s) as Hw by done.
  split; rewrite ?Hw; try apply I.
  intros q' a' Ha'. destruct (decide (q' = q)) as [->|Hne].
  - rewrite Ha in Ha'. injection Ha' as <-. destruct (ri_queue _ _ _ _ I _ _ Ha).
    pose proof (qo_unread0 R ltac:(lia)) as Hv.
    assert (got s' q = got s q ++ [clear_owner (mem s (slot a R))]) as Hg.
    { unfold s', upd. cbn. rewrite Z.eqb_refl. unfold mem_set. by rewrite Z.eqb_refl. }
    assert (length (got s' q) = S R) as HR by (rewrite Hg, length_app; cbn; lia).
    assert (fits 512 (mem s (slot a R))) as Hf.
    { pose proof (ri_owner _ _ _ _ I q Hq) as Ho. rewrite (ri_arrived _ _ _ _ I q Hq) in Ho.
      apply Forall_app in Ho as [Ho _]. exact (proj1 (Forall_lookup_1 _ _ _ _ Ho Hv)). }
    assert (∀ k, (R < k < R + 64)%nat → mem s' (slot a k) = mem s (slot a k)) as Hm.
    { intros k Hk. cbn. unfold mem_set. rewrite (proj2 (Z.eqb_neq _ _)); [done|].
      apply not_eq_sym. by apply slot_same. }
    split; rewrite ?HR.
    + done.
    + cbn -[Nat.pred]. by rewrite (arr_get_set _ _ _ _ _ Eh), Z.eqb_refl.
    + unfold s', upd. cbn. rewrite Z.eqb_refl. by eexists _, _.
    + rewrite Hg, qo_got0, (take_S_r _ _ _ Hv), fmap_app. done.
    + cbn. unfold R in *. lia.
    + intros k Hk. rewrite Hm by lia. apply qo_unread0. lia.
    + intros k Hk. destruct (decide (k = R + 64)%nat) as [->|].
      * assert (slot a (R + 64) = slot a R) as ->.
        { unfold slot. f_equal. f_equal. rewrite Nat2Z.inj_add. exact (Z_mod_plus_full (Z.of_nat R) 1 64). }
        cbn. unfold mem_set. rewrite Z.eqb_refl. by apply owner_cleared.
      * rewrite Hm by lia. apply qo_free0. lia.
    + intros m. rewrite Hg, last_snoc. intros [= <-]. cbn. unfold mem_set. by rewrite Z.eqb_refl.
  - apply (queue_ok_frame s).
    + by apply (ri_queue _ _ _ _ I).
    + done.
    + cbn. rewrite (arr_get_set _ _ _ _ _ Eh). by rewrite (proj2 (Z.eqb_neq _ _)).
    + unfold s', upd. cbn. by rewrite (proj2 (Z.eqb_neq _ _)).
    + unfold s', upd. cbn. by rewrite (proj2 (Z.eqb_neq _ _)).
    + intros k. cbn. unfold mem_set. rewrite (proj2 (Z.eqb_neq _ _)); [done|].
      by apply (slot_other q' q).
Qed.

Definition rx_good (s : rx_sys) : Prop := ∃ sent M pend, rx_inv s sent M pend.

Lemma rx_good_reachable s : reachable rx_init rx_step s → rx_good s.
Proof.
  apply reachable_ind_inv.
  - intros s0 ?. by eexists _, _, _; apply rx_inv_init.
  - intros s0 s' (sent & M & pend & I) Hs. destruct Hs as [s0 d ???|s0 m E|s0 c cs d ds Ec Ed|s0 q r hidx ???].
    + by exists sent, M, pend; apply inv_arrive.
    + destruct (inv_tick _ _ _ _ I) as (m' & E' & sent' & pend' & I' & _).
      rewrite E in E'. injection E' as <-. by exists sent', M, pend'.
    + destruct (inv_dma _ _ _ _ _ _ _ _ I Ec Ed) as (e & pend' & _ & _ & _ & I').
      by eexists sent, _, pend'.
    + by exists sent, M, pend; eapply inv_recv.
Qed.

(** ** Progress *)
Definition rx_internal (s s' : rx_sys) : Prop := rx_step s s' ∧ arrived s' = arrived s.

Definition delivered (s : rx_sys) : Prop :=
  ∀ q, 0 ≤ q < q_num → got s q = clear_owner <$> arrived s q.

Definition work (s : rx_sys) (M : Z → nat) (pend : list in_flight) : nat :=
  3 * length (waiting s) + 2 * length pend +
  sum_list_with (λ q, M q - length (got s q))%nat (seqZ 0 q_num).

Lemma unread_change (f g : Z → nat) q :
  0 ≤ q < q_num → (∀ y, y ≠ q → f y = g y) →
  (sum_list_with f (seqZ 0 q_num) + g q = sum_list_with g (seqZ 0 q_num) + f q)%nat.
Proof.
  intros ??. apply sum_list_with_change; [apply NoDup_seqZ|apply elem_of_seqZ; lia|done].
Qed.

Lemma progress_dma s sent M e pend :
  rx_inv s sent M (e :: pend) →
  ∃ s' M', rx_internal s s' ∧ rx_inv s' sent M' pend ∧ (work s' M' pend < work s M (e :: pend))%nat.
Proof.
  intros I. pose proof (ri_cmds _ _ _ _ I) as Hc. pose proof (ri_datas _ _ _ _ I) as Hd.
  destruct (c2h_cmd_f_BM_t_CDD_out (mgr s)) as [|c cs] eqn:Ec; [done|].
  destruct (c2h_data_f_BM_t_CDD_out (mgr s)) as [|d ds] eqn:Ed; [done|].
  destruct (inv_dma _ _ _ _ _ _ _ _ I Ec Ed) as (e' & pend' & E & Hq & HM & I').
  injection E as <- <-. set (s' := mk_rx_sys _ _ _ _ _) in I'.
  set (M' := upd M (if_q e) (S (M (if_q e)))) in I'. exists s', M'.
  split; [split; [by apply rx_dma|done]|]. split; [exact I'|].
  assert (work s' M' pend + 1 = work s M (e :: pend))%nat; [|lia].
  unfold work. change (waiting s') with (waiting s). change (got s') with (got s). cbn [length].
  pose proof (unread_change (λ q, M' q - length (got s q))%nat
    (λ q, M q - length (got s q))%nat (if_q e) Hq) as Hs. cbv beta in Hs.
  assert (M' (if_q e) = S (M (if_q e))) as HM' by (unfold M', upd; by rewrite Z.eqb_refl).
  rewrite HM' in Hs. lapply Hs; [lia|].
  intros y Hy. unfold M', upd. by rewrite (proj2 (Z.eqb_neq _ _)).
Qed.

Lemma progress_recv s sent M pend q :
  rx_inv s sent M pend → 0 ≤ q < q_num → (length (got s q) < M q)%nat →
  ∃ s', rx_internal s s' ∧ rx_inv s' sent M pend ∧ (work s' M pend < work s M pend)%nat.
Proof.
  intros I Hq Hlt. destruct (q_addr_get _ Hq) as [a Ha].
  pose proof (recv_result _ _ _ _ _ _ I Ha) as Hr. rewrite decide_True in Hr by done.
  destruct Hr as (ws & t & hidx & Er & Eh & _).
  destruct (inv_recv _ _ _ _ _ _ _ I Hq Er Eh) as [_ I'].
  set (s' := mk_rx_sys _ _ _ _ _) in I'. exists s'.
  split; [split; [by eapply rx_recv|done]|]. split; [exact I'|].
  assert (work s' M pend + 1 = work s M pend)%nat; [|lia].
  unfold work. change (waiting s') with (waiting s).
  pose proof (unread_change (λ q, M q - length (got s' q))%nat
    (λ q, M q - length (got s q))%nat q Hq) as Hs. cbv beta in Hs.
  assert (length (got s' q) = S (length (got s q))) as HM'.
  { unfold s', upd. cbn. rewrite Z.eqb_refl, length_app. cbn. lia. }
  rewrite HM' in Hs. lapply Hs; [lia|].
  intros y Hy. unfold s', upd. cbn. by rewrite (proj2 (Z.eqb_neq _ _)).
Qed.

(** With nothing in flight and nothing unread, the queues have room. *)
Lemma progress_tick s sent M d w :
  rx_inv s sent M [] → waiting s = d :: w →
  (∀ q, 0 ≤ q < q_num → (M q ≤ length (got s q))%nat) →
  ∃ s' sent' pend', rx_internal s s' ∧ rx_inv s' sent' M pend' ∧
    (work s' M pend' < work s M [])%nat.
Proof.
  intros I Ew HM. destruct (inv_tick _ _ _ _ I) as (m & Et & sent' & pend' & I' & Hd).
  set (s' := mk_rx_sys _ _ _ _ _) in I'. exists s', sent', pend'.
  split; [split; [by apply rx_tick|done]|]. split; [exact I'|].
  pose proof (ri_waiting _ _ _ _ I) as Hw. rewrite Ew in Hw.
  apply Forall_cons in Hw as [(Hq & _) _]. destruct (q_addr_get _ Hq) as [a Ha].
  destruct (ri_queue _ _ _ _ I _ _ Ha). specialize (HM _ Hq).
  pose proof (ri_pend _ _ _ _ I _ Hq) as Hp. apply Forall2_length in Hp.
  rewrite length_seq in Hp. cbn in Hp.
  destruct (Hd d w Ew) as [Ew' El]; [lia|]. fold s' in Ew'.
  unfold work. rewrite Ew', El, Ew. cbn [length]. change (got s') with (got s). lia.
Qed.

Lemma rx_progress s sent M pend :
  rx_inv s sent M pend →
  delivered s ∨ ∃ s' sent' M' pend', rx_internal s s' ∧ rx_inv s' sent' M' pend' ∧
    (work s' M' pend' < work s M pend)%nat.
Proof.
  intros I. destruct pend as [|e pend].
  2: { right. destruct (progress_dma _ _ _ _ _ I) as (s' & M' & ?). by exists s', sent, M', pend. }
  destruct (decide (Forall (λ q, M q ≤ length (got s q))%nat (seqZ 0 q_num))) as [HM|HM].
  2: { right. apply not_Forall_Exists in HM; [|solve_decision].
       apply Exists_exists in HM as (q & Hq%elem_of_seqZ & HM). cbn in HM.
       destruct (progress_recv s sent M [] q) as (s' & ?); [done|lia|lia|].
       by exists s', sent, M, []. }
  assert (∀ q, 0 ≤ q < q_num → (M q ≤ length (got s q))%nat) as HM'.
  { intros q Hq. rewrite Forall_forall in HM. apply HM, elem_of_seqZ. lia. }
  destruct (waiting s) as [|d w] eqn:Ew.
  - left. intros q Hq. destruct (q_addr_get _ Hq) as [a Ha].
    destruct (ri_queue _ _ _ _ I _ _ Ha). specialize (HM' _ Hq).
    pose proof (ri_pend _ _ _ _ I _ Hq) as Hp. apply Forall2_length in Hp.
    rewrite length_seq in Hp. cbn in Hp.
    rewrite (ri_arrived _ _ _ _ I q Hq), Ew, app_nil_r, qo_got0.
    by rewrite take_ge by lia.
  - right. destruct (progress_tick s sent M d w I Ew HM') as (s' & sent' & pend' & ?).
    by exists s', sent', M, pend'.
Qed.

Lemma rx_drain s sent M pend :
  rx_inv s sent M pend →
  ∃ s', rtc rx_internal s s' ∧ arrived s' = arrived s ∧ delivered s'.
Proof.
  remember (work s M pend) as n eqn:En. revert s sent M pend En.
  induction (lt_wf n) as [n _ IH]. intros s sent M pend -> I.
  destruct (rx_progress _ _ _ _ I) as [|(s1 & sent1 & M1 & pend1 & [Hs Ha] & I1 & Hlt)];
    [by exists s|].
  destruct (IH _ Hlt _ _ _ _ eq_refl I1) as (s2 & Hr & Ha2 & Hd).
  exists s2. split_and!; [by eapply rtc_l|congruence|done].
Qed.
End rx_system.

(** At most as many queues as the larger of the two modules has, with buffers of 64
    slots in memory that do not overlap. *)
Definition buffers_ok (q_addr : list Z) : Prop :=
  Z.of_nat (length q_addr) ≤ max_appt_num_per_node ∧
  (∀ q a, arr_get q_addr q = Some a → 0 ≤ a ∧ a + 64 * 64 ≤ 2 ^ 64) ∧
  (∀ q q' a a', arr_get q_addr q = Some a → arr_get q_addr q' = Some a' →
    q ≠ q' → a + 64 * 64 ≤ a' ∨ a' + 64 * 64 ≤ a).

(** C22: The receive rings deliver: however arrivals, polls of the buffer manager, DMA
    writes and receives on all channels interleave, each channel has received
    exactly the first messages given to its queue, in order, each once and intact
    (with the owner byte cleared); the buffer manager never computes outside its
    arrays; and the slot that [recv] returned last, to which the caller still holds
    a pointer, has not been overwritten. *)
Theorem ring_delivers qid q_addr s q :
  buffers_ok q_addr →
  reachable (rx_init q_addr) (rx_step qid q_addr) s →
  0 ≤ q < Z.of_nat (length q_addr) →
  got s q = clear_owner <$> take (length (got s q)) (arrived s q) ∧
  is_Some (c2hMultiBufferMgrHLS qid (mgr s)) ∧
  ∀ a m, arr_get q_addr q = Some a → last (got s q) = Some m →
    mem s (slot a (pred (length (got s q)))) = m.
Proof.
  intros (Hnum & Haddr & Hdisj) Hs Hq.
  destruct (rx_good_reachable _ _ Hnum Haddr Hdisj _ Hs) as (sent & M & pend & I).
  destruct (q_addr_get q_addr q Hq) as [a Ha]. destruct (ri_queue _ _ _ _ _ I _ _ Ha).
  split_and!.
  - rewrite (ri_arrived _ _ _ _ _ I q Hq), take_app_le by lia. done.
  - destruct (inv_tick qid _ Hnum Haddr _ _ _ _ I) as (m & -> & _). by eexists.
  - intros a' m Ha' Hm. rewrite Ha in Ha'. injection Ha' as <-. auto.
Qed.

(** Nothing is stuck: from every reachable state, polls of the buffer manager, DMA
    writes and receives alone, with no further arrivals, lead to a state in which
    every channel has received every message given to its queue, even when a message
    for a full queue is being retried in front of messages for other queues. *)
Theorem ring_drains qid q_addr s :
  buffers_ok q_addr →
  reachable (rx_init q_addr) (rx_step qid q_addr) s →
  ∃ s', rtc (rx_internal qid q_addr) s s' ∧ arrived s' = arrived s ∧
    ∀ q, 0 ≤ q < Z.of_nat (length q_addr) → got s' q = clear_owner <$> arrived s q.
Proof.
  intros (Hnum & Haddr & Hdisj) Hs.
  destruct (rx_good_reachable _ _ Hnum Haddr Hdisj _ Hs) as (sent & M & pend & I).
  destruct (rx_drain qid q_addr Hnum Haddr Hdisj _ _ _ _ I) as (s' & Hr & Ha & Hd).
  exists s'. split_and!; [done|done|]. intros q Hq. rewrite <-Ha. by apply Hd.
Qed.

(** ** Witnesses: one message for the second of two channels *)
Definition ex_addr : list Z := [0x10000; 0x20000].
Definition ex_beat : c2h_data := mk_c2h_data (2 ^ 424 + 7) 1 1.
Definition ex_s0 : rx_sys :=
  mk_rx_sys (mk_buffer_mgr 0 [0; 0] 0 ex_beat ex_addr [0; 0] [] [] [] [] 0) (λ _, 0)
    (λ q, new_rx_ring_buffer (if q =? 0 then 0x10000 else 0x20000) max_msg_num_per_q 0)
    (λ _, []) (λ _, []).
Definition ex_s1 : rx_sys :=
  mk_rx_sys ((mgr ex_s0) <| c2h_data_f_CMD_t_BM_in := [ex_beat] |>) (mem ex_s0) (rings ex_s0)
    (upd (arrived ex_s0) 1 [2 ^ 424 + 7]) (got ex_s0).
Definition ex_s2 : rx_sys :=
  mk_rx_sys (default (mgr ex_s1) (c2hMultiBufferMgrHLS 1 (mgr ex_s1))) (mem ex_s1) (rings ex_s1)
    (arrived ex_s1) (got ex_s1).

Lemma ex_buffers_ok : buffers_ok ex_addr.
Proof.
  assert (∀ q a, arr_get ex_addr q = Some a → a = 0x10000 * (q + 1) ∧ 0 ≤ q < 2) as H.
  { intros q a Ha. pose proof (arr_get_range _ _ _ Ha) as Hq. cbn in Hq.
    assert (q = 0 ∨ q = 1) as [->| ->] by lia; by injection Ha as <-. }
  split; [done|]. split.
  - intros q a Ha. destruct (H _ _ Ha). lia.
  - intros q q' a a' Ha Ha' ?. destruct (H _ _ Ha), (H _ _ Ha'). lia.
Qed.

Lemma ex_s0_init : rx_init ex_addr ex_s0.
Proof.
  split_and!; try done. intros q a Ha. pose proof (arr_get_range _ _ _ Ha) as Hq. cbn in Hq.
  assert (q = 0 ∨ q = 1) as [->| ->] by lia; by injection Ha as <-.
Qed.

Lemma ex_s2_reachable : reachable (rx_init ex_addr) (rx_step 1 ex_addr) ex_s2.
Proof.
  exists ex_s0. split; [apply ex_s0_init|].
  eapply rtc_l; [by apply (rx_arrive 1 ex_addr ex_s0 ex_beat)|].
  apply rtc_once. by apply (rx_tick 1 ex_addr ex_s1).
Qed.

Lemma ring_delivers_witness :
  arrived ex_s2 1 = [2 ^ 424 + 7] ∧ got ex_s2 1 = [] ∧
  is_Some (c2hMultiBufferMgrHLS 1 (mgr ex_s2)).
Proof.
  split_and!; [done..|].
  exact (proj1 (proj2 (ring_delivers 1 ex_addr ex_s2 1 ex_buffers_ok ex_s2_reachable
    (conj (Z.le_0_1) eq_refl)))).
Defined.

Lemma ring_drains_witness :
  ∃ s', rtc (rx_internal 1 ex_addr) ex_s2 s' ∧ got s' 1 = [7].
Proof.
  destruct (ring_drains 1 ex_addr ex_s2 ex_buffers_ok ex_s2_reachable) as (s' & Hr & _ & Hg).
  exists s'. split; [exact Hr|]. rewrite Hg by (split; done). done.
Defined.
