(* ===== verification/HostSync.v ===== *)
(** * HostSync: the locks of the host, [WRLock.h], [spinlock.h]

    The threads of a node share cache lines under these locks.  Each function is
    a little automaton whose steps are its atomic accesses, so that a run is any
    interleaving of the accesses of the threads. *)
From S2P Require Import Prelude.
From stdpp Require Import base numbers option list list_numbers relations.
Open Scope Z_scope.

(** ** [WRLock]

    The word is 0 when the lock is free, 1 when it is held by a writer, and twice
    the number of readers otherwise. *)
Definition UNLOCKED : Z := 0.
Definition LOCKED : Z := 1.

(** Where a thread is: between calls, holding the lock, or before the next access
    of a function, with the value it has loaded. *)
Inductive wr_pc :=
| wr_idle | wr_writing | wr_reading
| wLock_load | wLock_cas
| try_wLock_load | try_wLock_cas
| rLock_load | rLock_cas (v : Z)
| try_rLock_load | try_rLock_cas (v : Z)
| rUnlock_load | rUnlock_cas (v : Z)
| wUnlock_store.

(** [compare_exchange_strong(expected, desired)] on the word [l]: the outcome and the
    new word. *)
Definition cas (l expected desired : Z) : bool * Z :=
  if l =? expected then (true, desired) else (false, l).

(** The next access of a thread. *)
Definition wr_exec (pc : wr_pc) (l : Z) : wr_pc * Z :=
  match pc with
  | wLock_load => (if negb (l =? UNLOCKED) then wLock_load else wLock_cas, l)
  | wLock_cas =>
      let '(ok, l) := cas l UNLOCKED LOCKED in (if ok then wr_writing else wLock_load, l)
  | try_wLock_load => (if negb (l =? UNLOCKED) then wr_idle else try_wLock_cas, l)
  | try_wLock_cas =>
      let '(ok, l) := cas l UNLOCKED LOCKED in (if ok then wr_writing else wr_idle, l)
  | rLock_load => (if l =? LOCKED then rLock_load else rLock_cas l, l)
  | rLock_cas v =>
      let '(ok, l) := cas l v (wrap 16 (v + 2)) in (if ok then wr_reading else rLock_load, l)
  | try_rLock_load => (if l =? LOCKED then wr_idle else try_rLock_cas l, l)
  | try_rLock_cas v =>
      let '(ok, l) := cas l v (wrap 16 (v + 2)) in
      (if ok then wr_reading else try_rLock_load, l)
  | rUnlock_load => (rUnlock_cas l, l)
  | rUnlock_cas v =>
      let '(ok, l) := cas l v (wrap 16 (v - 2)) in (if ok then wr_idle else rUnlock_load, l)
  | wUnlock_store => (wr_idle, UNLOCKED)
  | wr_idle | wr_writing | wr_reading => (pc, l)
  end.

(** The calls a thread can make: any lock when it holds none, its own unlock when it
    holds one. *)
Definition wr_calls (pc : wr_pc) : list wr_pc :=
  match pc with
  | wr_idle => [wLock_load; try_wLock_load; rLock_load; try_rLock_load]
  | wr_writing => [wUnlock_store]
  | wr_reading => [rUnlock_load]
  | _ => []
  end.

Record wr_sys := mk_wr_sys { word : Z; pcs : list wr_pc }.

Definition wr_init (n : nat) (s : wr_sys) : Prop := s = mk_wr_sys UNLOCKED (replicate n wr_idle).

Inductive wr_step : wr_sys → wr_sys → Prop :=
| wr_call s i pc pc' :
    pcs s !! i = Some pc → pc' ∈ wr_calls pc →
    wr_step s (mk_wr_sys (word s) (<[i := pc']> (pcs s)))
| wr_access s i pc :
    pcs s !! i = Some pc →
    wr_step s (mk_wr_sys (wr_exec pc (word s)).2 (<[i := (wr_exec pc (word s)).1]> (pcs s))).

(** Who holds the lock: a thread releasing it still does. *)
Definition holds_write (pc : wr_pc) : bool :=
  match pc with wr_writing | wUnlock_store => true | _ => false end.
Definition holds_read (pc : wr_pc) : bool :=
  match pc with wr_reading | rUnlock_load | rUnlock_cas _ => true | _ => false end.

(** A reader that is about to take the lock has not seen it locked. *)
Definition wr_loaded (pc : wr_pc) : bool :=
  match pc with rLock_cas v | try_rLock_cas v => negb (v =? LOCKED) | _ => true end.

Record wr_inv (n : nat) (s : wr_sys) : Prop := {
  wi_length : length (pcs s) = n;
  wi_word : (word s = LOCKED ∧ count_of holds_write (pcs s) = 1 ∧
             count_of holds_read (pcs s) = 0) ∨
            (word s = 2 * count_of holds_read (pcs s) ∧ count_of holds_write (pcs s) = 0);
  wi_loaded : ∀ i pc, pcs s !! i = Some pc → wr_loaded pc = true;
}.

Lemma wr_inv_init n s : wr_init n s → wr_inv n s.
Proof.
  intros ->. assert (∀ P, P wr_idle = false → count_of P (replicate n wr_idle) = 0) as H.
  { intros P HP. induction n as [|n IH]; [done|]. cbn. by rewrite HP, IH. }
  split; cbn; [by rewrite length_replicate|right; by rewrite !H|].
  intros i pc [-> _]%lookup_replicate. done.
Qed.

Lemma wr_inv_update n s i pc pc' l :
  wr_inv n s → pcs s !! i = Some pc → wr_loaded pc' = true →
  ((l = LOCKED ∧ count_of holds_write (<[i := pc']> (pcs s)) = 1 ∧
    count_of holds_read (<[i := pc']> (pcs s)) = 0) ∨
   (l = 2 * count_of holds_read (<[i := pc']> (pcs s)) ∧
    count_of holds_write (<[i := pc']> (pcs s)) = 0)) →
  wr_inv n (mk_wr_sys l (<[i := pc']> (pcs s))).
Proof.
  intros [] Hi Hl Hw. split; cbn; [by rewrite length_insert|done|].
  intros j pcj Hj. apply list_lookup_insert_Some in Hj as [(-> & <- & _)|[_ Hj]]; eauto.
Qed.

(** A call changes nothing: the new place holds what the old one held. *)
Lemma wr_calls_same pc pc' :
  pc' ∈ wr_calls pc →
  holds_write pc' = holds_write pc ∧ holds_read pc' = holds_read pc ∧ wr_loaded pc' = true.
Proof.
  destruct pc; cbn; rewrite ?elem_of_cons, ?elem_of_nil; intros Hc; destruct_or?; subst; done.
Qed.

Lemma wr_inv_step n s s' : Z.of_nat n < 2 ^ 15 - 1 → wr_inv n s → wr_step s s' → wr_inv n s'.
Proof.
  intros Hn I Hs. pose proof I as [Hlen Hw Hl].
  destruct Hs as [s i pc pc' Hi Hc|s i pc Hi].
  - destruct (wr_calls_same _ _ Hc) as (E1 & E2 & E3).
    apply (wr_inv_update n s i pc); [done..|].
    rewrite !(count_of_insert _ _ _ _ _ Hi), E1, E2. lia.
  - pose proof (count_of_pos holds_read (pcs s) i pc Hi) as Hpr.
    pose proof (count_of_pos holds_write (pcs s) i pc Hi) as Hpw.
    pose proof (count_of_bounds holds_read (pcs s)) as Hb.
    pose proof (count_of_bounds holds_write (pcs s)) as Hb'.
    pose proof (Hl _ _ Hi) as Hli. rewrite Hlen in Hb.
    assert (∀ v, fits 16 v → wrap 16 v = v) as Hwrap by (intros; by apply wrap_small).
    apply (wr_inv_update n s i pc); [done..| |]; rewrite ?(count_of_insert _ _ _ _ _ Hi);
      destruct pc as [| | | | | | | |v| |v| |v|]; cbn in *; unfold cas, UNLOCKED, LOCKED in *;
      repeat case_match; simplify_eq/=; zbool; try done; subst;
      rewrite ?Hwrap by (unfold fits; lia);
      first [lia | unfold LOCKED; by rewrite (proj2 (Z.eqb_neq _ _))].
Qed.

(** C26: Readers and writers exclude each other: in every interleaving of the atomic
    accesses of at most 32766 threads, each taking and releasing the lock in any
    order, blocking or trying, a thread that holds the lock for writing is the only
    holder; and the word tells the truth about the holders, so that a free lock is
    free again after any history. *)
Theorem wrlock_exclusive n s :
  Z.of_nat n < 2 ^ 15 - 1 → reachable (wr_init n) wr_step s →
  (∀ i j pc pc', i ≠ j → pcs s !! i = Some pc → pcs s !! j = Some pc' →
     holds_write pc = true → holds_write pc' = false ∧ holds_read pc' = false) ∧
  (word s = UNLOCKED ↔
     ∀ i pc, pcs s !! i = Some pc → holds_write pc = false ∧ holds_read pc = false) ∧
  (word s ≠ LOCKED → word s = 2 * count_of holds_read (pcs s)).
Proof.
  intros Hn Hs.
  assert (wr_inv n s) as [Hlen Hw _].
  { revert s Hs. apply reachable_ind_inv; [apply wr_inv_init|]. eauto using wr_inv_step. }
  split_and!.
  - intros i j pc pc' Hij Hi Hj Hwr.
    pose proof (count_of_pos _ _ _ _ Hi Hwr). split.
    + destruct (holds_write pc') eqn:E; [|done].
      pose proof (count_of_two _ _ _ _ _ _ Hij Hi Hj Hwr E). lia.
    + destruct (holds_read pc') eqn:E; [|done].
      pose proof (count_of_pos _ _ _ _ Hj E). lia.
  - unfold UNLOCKED, LOCKED in *. split.
    + intros H0 i pc Hi. split.
      * destruct (holds_write pc) eqn:E; [|done]. pose proof (count_of_pos _ _ _ _ Hi E). lia.
      * destruct (holds_read pc) eqn:E; [|done]. pose proof (count_of_pos _ _ _ _ Hi E). lia.
    + intros H.
      assert (∀ P, (∀ i pc, pcs s !! i = Some pc → P pc = false) → count_of P (pcs s) = 0) as Hz.
      { intros P. generalize (pcs s). intros l. induction l as [|x l IH]; intros HP; [done|].
        cbn. rewrite (HP 0%nat x eq_refl), IH; [done|]. intros i. apply (HP (S i)). }
      rewrite (Hz holds_read), (Hz holds_write) in Hw by (intros i pc Hi; by apply (H i)). lia.
  - unfold LOCKED in *. lia.
Qed.

(** ** [spinlock] *)
Inductive spin_pc := spin_idle | spin_lock | spin_try | spin_held | spin_unlock.

(** [flag.test_and_set] and [flag.clear]. *)
Definition spin_exec (pc : spin_pc) (flag : bool) : spin_pc * bool :=
  match pc with
  | spin_lock => (if flag then spin_lock else spin_held, true)
  | spin_try => (if flag then spin_idle else spin_held, true)
  | spin_unlock => (spin_idle, false)
  | spin_idle | spin_held => (pc, flag)
  end.

(** ** [spinlock_rw] *)
Inductive rw_pc :=
| rw_idle | rw_reading | rw_writing
| lock_read_spin | lock_read_add | lock_read_check | lock_read_sub
| try_lock_read_test | try_lock_read_add
| unlock_read_sub
| lock_write_readers | lock_write_flag | lock_write_cas
| try_lock_write_cas
| unlock_write_store.

(** The state is [readers_count] and [writer_lock]. *)
Definition rw_exec (pc : rw_pc) (n : Z) (w : bool) : rw_pc * Z * bool :=
  match pc with
  | lock_read_spin => (if w then lock_read_spin else lock_read_add, n, w)
  | lock_read_add => (lock_read_check, n + 1, w)
  | lock_read_check => (if w then lock_read_sub else rw_reading, n, w)
  | lock_read_sub => (lock_read_spin, n - 1, w)
  | try_lock_read_test => (if w then rw_idle else try_lock_read_add, n, w)
  | try_lock_read_add => (rw_reading, n + 1, w)
  | unlock_read_sub => (rw_idle, n - 1, w)
  | lock_write_readers => (if negb (n =? 0) then lock_write_readers else lock_write_flag, n, w)
  | lock_write_flag => (if w then lock_write_readers else lock_write_cas, n, w)
  | lock_write_cas => if w then (lock_write_readers, n, w) else (rw_writing, n, true)
  | try_lock_write_cas => if w then (rw_idle, n, w) else (rw_writing, n, true)
  | unlock_write_store => (rw_idle, n, false)
  | rw_idle | rw_reading | rw_writing => (pc, n, w)
  end.

Definition rw_calls (pc : rw_pc) : list rw_pc :=
  match pc with
  | rw_idle => [lock_read_spin; try_lock_read_test; lock_write_readers; try_lock_write_cas]
  | rw_reading => [unlock_read_sub]
  | rw_writing => [unlock_write_store]
  | _ => []
  end.

Record rw_sys := mk_rw_sys { readers_count : Z; writer_lock : bool; rw_pcs : list rw_pc }.

Definition rw_init (n : nat) (s : rw_sys) : Prop := s = mk_rw_sys 0 false (replicate n rw_idle).

Inductive rw_step : rw_sys → rw_sys → Prop :=
| rw_call s i pc pc' :
    rw_pcs s !! i = Some pc → pc' ∈ rw_calls pc →
    rw_step s (mk_rw_sys (readers_count s) (writer_lock s) (<[i := pc']> (rw_pcs s)))
| rw_access s i pc pc' n' w' :
    rw_pcs s !! i = Some pc → rw_exec pc (readers_count s) (writer_lock s) = (pc', n', w') →
    rw_step s (mk_rw_sys n' w' (<[i := pc']> (rw_pcs s))).

(** [spinlock_rw] does not exclude a reader from a writer: with two threads, one
    calling [lock_read] and one [lock_write], there is an interleaving in which both
    return, because [lock_write] reads [readers_count] before it takes the flag and
    never again. *)
Theorem spinlock_rw_race :
  ∃ s, reachable (rw_init 2) rw_step s ∧
    rw_pcs s = [rw_reading; rw_writing].
Proof.
  exists (mk_rw_sys 1 true [rw_reading; rw_writing]). split; [|done].
  eexists. split; [reflexivity|].
  eapply rtc_l; [apply (rw_call _ 1 rw_idle lock_write_readers); [done|by repeat constructor]|].
  eapply rtc_l; [by apply (rw_access _ 1 lock_write_readers lock_write_flag 0 false)|].
  eapply rtc_l; [by apply (rw_access _ 1 lock_write_flag lock_write_cas 0 false)|].
  eapply rtc_l; [apply (rw_call _ 0 rw_idle lock_read_spin); [done|by repeat constructor]|].
  eapply rtc_l; [by apply (rw_access _ 0 lock_read_spin lock_read_add 0 false)|].
  eapply rtc_l; [by apply (rw_access _ 0 lock_read_add lock_read_check 1 false)|].
  eapply rtc_l; [by apply (rw_access _ 0 lock_read_check rw_reading 1 false)|].
  eapply rtc_l; [by apply (rw_access _ 1 lock_write_cas rw_writing 1 true)|].
  apply rtc_refl.
Qed.

(** ** Witnesses *)
Lemma wrlock_exclusive_witness :
  let s := mk_wr_sys LOCKED [wr_writing; rLock_load] in
  reachable (wr_init 2) wr_step s ∧ holds_read rLock_load = false.
Proof.
  intros s. assert (reachable (wr_init 2) wr_step s) as Hs.
  { eexists. split; [reflexivity|].
    eapply rtc_l; [apply (wr_call _ 0 wr_idle wLock_load); [done|by repeat constructor]|].
    eapply rtc_l; [by apply (wr_access _ 0 wLock_load)|].
    eapply rtc_l; [by apply (wr_access _ 0 wLock_cas)|].
    eapply rtc_l; [apply (wr_call _ 1 wr_idle rLock_load); [done|by repeat constructor]|].
    apply rtc_refl. }
  split; [exact Hs|].
  exact (proj2 (proj1 (wrlock_exclusive 2 s eq_refl Hs) 0%nat 1%nat wr_writing rLock_load
    ltac:(lia) eq_refl eq_refl eq_refl)).
Defined.
