(* ===== verification/GlobalMem.v ===== *)
(** * GlobalMem: global addresses and allocation

    [GlobalAddress.h], [GlobalAllocator.h], [LocalAllocator.h], the allocation
    requests of [CacheAgent.cpp] and [Cache::malloc].  A node's memory is divided
    among its agents ([DSM.cpp]); an agent hands out chunks of its part, and a
    thread cuts the blocks it needs from chunks of nodes taken in turn. *)
From S2P Require Import Prelude DsmType.
From stdpp Require Import base numbers option list list_numbers relations.
Open Scope Z_scope.

(** ** [GlobalAddress] *)

(** The third member, [org], is never read. *)
Record GlobalAddress := mk_GlobalAddress { ga_addr : Z; ga_nodeID : Z }.
#[export] Instance eta_GlobalAddress : Eta GlobalAddress := fun r =>
  mk_GlobalAddress (ga_addr r) (ga_nodeID r).
#[export] Instance GlobalAddress_eq_dec : EqDecision GlobalAddress.
Proof. solve_decision. Defined.

Definition ga_Null : GlobalAddress := mk_GlobalAddress 0 0.

Definition getTag (a : GlobalAddress) : Z :=
  wrap 64 (wrap 64 (Z.shiftl (Z.shiftr (ga_addr a) DSM_CACHE_LINE_WIDTH) 8) + ga_nodeID a).

Definition getIndex (a : GlobalAddress) : Z := Z.shiftr (ga_addr a) DSM_CACHE_LINE_WIDTH.

Definition ga_eqb (a b : GlobalAddress) : bool :=
  (ga_addr a =? ga_addr b) && (ga_nodeID a =? ga_nodeID b).

(** [GADD(addr, off)]; [off] is an [int]. *)
Definition GADD (a : GlobalAddress) (off : Z) : GlobalAddress :=
  a <| ga_addr := wrap 64 (ga_addr a + off) |>.

(** ** [GlobalAllocator] *)
Definition kChunkSize : Z := 1024 * 1024 * 32.

Record GlobalAllocator := mk_GlobalAllocator {
  ga_start : GlobalAddress;
  ga_size : Z;
  bitmap : list bool;
  bitmap_len : Z;
  bitmap_tail : Z;
}.
#[export] Instance eta_GlobalAllocator : Eta GlobalAllocator := fun r =>
  mk_GlobalAllocator (ga_start r) (ga_size r) (bitmap r) (bitmap_len r) (bitmap_tail r).

Definition new_GlobalAllocator (start : GlobalAddress) (size : Z) : GlobalAllocator :=
  mk_GlobalAllocator start size (replicate (Z.to_nat (size / kChunkSize)) false)
    (size / kChunkSize) 0.

(** Result and new state; [None] is the assertion of the branch marked TODO. *)
Definition alloc_chunck (g : GlobalAllocator)
    : option ((GlobalAddress * bool) * GlobalAllocator) :=
  let res := ga_start g in
  if bitmap_len g <=? bitmap_tail g then Some ((res, false), g)
  else
    b ← arr_get (bitmap g) (bitmap_tail g);
    if negb b then
      bm ← arr_set (bitmap g) (bitmap_tail g) true;
      Some ((res <| ga_addr := wrap 64 (ga_addr res + bitmap_tail g * kChunkSize) |>, true),
            g <| bitmap := bm |> <| bitmap_tail := bitmap_tail g + 1 |>)
    else None.

Definition free_chunk (addr : GlobalAddress) (g : GlobalAllocator) : option GlobalAllocator :=
  bm ← arr_set (bitmap g) (wrap 64 (ga_addr addr - ga_addr (ga_start g)) / kChunkSize) false;
  Some (g <| bitmap := bm |>).

(** ** [LocalAllocator] *)
Record LocalAllocator := mk_LocalAllocator {
  la_head : GlobalAddress;
  la_cur : GlobalAddress;
  log_heads : list GlobalAddress;
}.
#[export] Instance eta_LocalAllocator : Eta LocalAllocator := fun r =>
  mk_LocalAllocator (la_head r) (la_cur r) (log_heads r).

Definition new_LocalAllocator : LocalAllocator := mk_LocalAllocator ga_Null ga_Null [].

(** The rounding of [cur] for an aligned request. *)
Definition la_align (align : bool) (cur : GlobalAddress) : GlobalAddress :=
  if align && negb (ga_addr cur mod DSM_CACHE_LINE_SIZE =? 0)
  then cur <| ga_addr := wrap 64 ((ga_addr cur / DSM_CACHE_LINE_SIZE + 1) * DSM_CACHE_LINE_SIZE) |>
  else cur.

(** Result, [need_chunck], new state; [None] is the failed assertion. *)
Definition la_malloc (size : Z) (align : bool) (l : LocalAllocator)
    : option (GlobalAddress * bool * LocalAllocator) :=
  let cur := la_align align (la_cur l) in
  let l := l <| la_cur := cur |> in
  let need_chunck := is_empty (log_heads l) ||
    (wrap 64 (ga_addr (la_head l) + kChunkSize) <? wrap 64 (ga_addr cur + size)) in
  let l := if need_chunck then l
           else l <| la_cur := cur <| ga_addr := wrap 64 (ga_addr cur + size) |> |> in
  if wrap 64 (ga_addr cur + size) <=? 40 * 1024 * 1024 * 1024
  then Some (cur, need_chunck, l) else None.

Definition set_chunck (addr : GlobalAddress) (l : LocalAllocator) : LocalAllocator :=
  mk_LocalAllocator addr addr (log_heads l ++ [addr]).

(** ** A request for a chunk and its answer

    [CacheAgent::agentThread] on [PRIMITIVE_ALLOC]: the answer carries the address
    of the chunk, or is a failure. *)
Inductive alloc_reply := PRIMITIVE_ALLOC_ACK (addr index : Z) | PRIMITIVE_ALLOC_FAIL.

Definition agent_alloc (g : GlobalAllocator) : option (alloc_reply * GlobalAllocator) :=
  '((chunck, succ), g) ← alloc_chunck g;
  Some (if succ : bool then PRIMITIVE_ALLOC_ACK (ga_addr chunck) (wrap 32 (getIndex chunck))
        else PRIMITIVE_ALLOC_FAIL, g).

(** ** [Cache::malloc]

    The state of a thread is its [LocalAllocator] and [next_allocator_node]. *)
Record alloc_thread := mk_alloc_thread { alloc : LocalAllocator; next_allocator_node : Z }.

(** The first half: the block, or the need of a chunk of [next_allocator_node]. *)
Definition malloc_local (size : Z) (align : bool) (t : alloc_thread)
    : option ((GlobalAddress + unit) * alloc_thread) :=
  '(res, need_new_chunck, l) ← la_malloc size align (alloc t);
  if size <=? kChunkSize then
    Some (if need_new_chunck : bool then inr () else inl res,
          mk_alloc_thread l (next_allocator_node t))
  else None.

(** The second half, on the answer of the agent; [None] is a failed assertion or the
    endless loop after [PRIMITIVE_ALLOC_FAIL]. *)
Definition malloc_chunck (node_num size : Z) (align : bool) (r : alloc_reply)
    (t : alloc_thread) : option (GlobalAddress * alloc_thread) :=
  match r with
  | PRIMITIVE_ALLOC_FAIL => None
  | PRIMITIVE_ALLOC_ACK a _ =>
      let new_chunck := mk_GlobalAddress a (next_allocator_node t) in
      '(res, need_new_chunck, l) ← la_malloc size align (set_chunck new_chunck (alloc t));
      if need_new_chunck : bool then None
      else Some (res, mk_alloc_thread l ((next_allocator_node t + 1) mod node_num))
  end.

(** [DSM::DSM]: the allocator of agent [i] of node [node]. *)
Definition dsm_allocator (gmem_size syst_num node i : Z) : GlobalAllocator :=
  let gmem_size_per_syst := gmem_size / syst_num in
  new_GlobalAllocator (mk_GlobalAddress (gmem_size_per_syst * i) node) gmem_size_per_syst.

(** ** All the threads and agents of the cluster *)
Record block := mk_block { bk_addr : GlobalAddress; bk_size : Z; bk_chunk : GlobalAddress }.

Record mem_sys := mk_mem_sys {
  agents : Z → Z → GlobalAllocator;
  threads : list alloc_thread;
  blocks : list block;
}.

Section cluster.
Context (node_num syst_num gmem_size : Z).
Notation part := (gmem_size / syst_num).

Definition set_agent (f : Z → Z → GlobalAllocator) (n i : Z) (g : GlobalAllocator)
    : Z → Z → GlobalAllocator :=
  λ n' i', if (n' =? n) && (i' =? i) then g else f n' i'.

Definition mem_init (s : mem_sys) : Prop :=
  (∀ n i, agents s n i = dsm_allocator gmem_size syst_num n i) ∧
  Forall (λ t, alloc t = new_LocalAllocator ∧ 0 ≤ next_allocator_node t < node_num) (threads s) ∧
  blocks s = [].

(** A call of [Cache::malloc] by thread [j], from its chunk, or with a new chunk from
    one of the agents of the node whose turn it is. *)
Inductive mem_step : mem_sys → mem_sys → Prop :=
| malloc_from_chunck s j t size align res t' :
    threads s !! j = Some t → 0 ≤ size →
    malloc_local size align t = Some (inl res, t') →
    mem_step s (mk_mem_sys (agents s) (<[j := t']> (threads s))
                  (blocks s ++ [mk_block res size (la_head (alloc t'))]))
| malloc_new_chunck s j t size align t1 i r g res t2 :
    threads s !! j = Some t → 0 ≤ size →
    malloc_local size align t = Some (inr (), t1) →
    0 ≤ i < syst_num →
    agent_alloc (agents s (next_allocator_node t1) i) = Some (r, g) →
    malloc_chunck node_num size align r t1 = Some (res, t2) →
    mem_step s (mk_mem_sys (set_agent (agents s) (next_allocator_node t1) i g)
                  (<[j := t2]> (threads s))
                  (blocks s ++ [mk_block res size (la_head (alloc t2))])).

Context (Hsyst : 0 < syst_num) (Hnode : 0 < node_num) (Hgmem : 0 ≤ gmem_size ≤ 2 ^ 50).

(** ** The invariant *)
Definition handed (s : mem_sys) (c : GlobalAddress) : Prop :=
  ∃ i k, 0 ≤ i < syst_num ∧ 0 ≤ ga_nodeID c < node_num ∧
    0 ≤ k < bitmap_tail (agents s (ga_nodeID c) i) ∧ ga_addr c = part * i + k * kChunkSize.

Record agent_ok (n i : Z) (g : GlobalAllocator) : Prop := {
  ag_start : ga_start g = mk_GlobalAddress (part * i) n;
  ag_len : bitmap_len g = part / kChunkSize;
  ag_tail : 0 ≤ bitmap_tail g ≤ bitmap_len g;
}.

Record thread_ok (s : mem_sys) (t : alloc_thread) : Prop := {
  th_next : 0 ≤ next_allocator_node t < node_num;
  th_chunk : log_heads (alloc t) ≠ [] → handed s (la_head (alloc t));
  th_cur : 0 ≤ ga_addr (la_head (alloc t)) ≤ ga_addr (la_cur (alloc t)) ≤
           ga_addr (la_head (alloc t)) + kChunkSize + DSM_CACHE_LINE_SIZE;
  th_bound : ga_addr (la_head (alloc t)) ≤ 2 ^ 50;
  th_node : ga_nodeID (la_cur (alloc t)) = ga_nodeID (la_head (alloc t));
}.

Record block_ok (s : mem_sys) (b : block) : Prop := {
  bl_chunk : handed s (bk_chunk b);
  bl_node : ga_nodeID (bk_addr b) = ga_nodeID (bk_chunk b);
  bl_range : ga_addr (bk_chunk b) ≤ ga_addr (bk_addr b) ∧
             ga_addr (bk_addr b) + bk_size b ≤ ga_addr (bk_chunk b) + kChunkSize;
  bl_size : 0 ≤ bk_size b;
  bl_below : ∀ j t, threads s !! j = Some t → log_heads (alloc t) ≠ [] →
    bk_chunk b = la_head (alloc t) →
    ga_addr (bk_addr b) + bk_size b ≤ ga_addr (la_cur (alloc t));
}.

Definition disjoint_blocks (b b' : block) : Prop :=
  ga_nodeID (bk_addr b) ≠ ga_nodeID (bk_addr b') ∨
  ga_addr (bk_addr b) + bk_size b ≤ ga_addr (bk_addr b') ∨
  ga_addr (bk_addr b') + bk_size b' ≤ ga_addr (bk_addr b).

Record mem_inv (s : mem_sys) : Prop := {
  mi_agents : ∀ n i, agent_ok n i (agents s n i);
  mi_threads : Forall (thread_ok s) (threads s);
  mi_chunks : ∀ j j' t t', j ≠ j' → threads s !! j = Some t → threads s !! j' = Some t' →
    log_heads (alloc t) ≠ [] → log_heads (alloc t') ≠ [] →
    la_head (alloc t) ≠ la_head (alloc t');
  mi_blocks : Forall (block_ok s) (blocks s);
  mi_disjoint : ForallOrdPairs disjoint_blocks (blocks s);
}.

Lemma part_bound : 0 ≤ part ≤ 2 ^ 50.
Proof.
  split; [apply Z.div_pos; lia|]. etransitivity; [|apply Hgmem].
  apply Z.div_le_upper_bound; [lia|]. nia.
Qed.

Lemma chunk_in_part i k : 0 ≤ i < syst_num → 0 ≤ k < part / kChunkSize →
  part * i ≤ part * i + k * kChunkSize ∧ part * i + k * kChunkSize + kChunkSize ≤ part * (i + 1) ∧
  part * (i + 1) ≤ gmem_size.
Proof.
  intros Hi Hk. pose proof (Z.mul_div_le part kChunkSize ltac:(done)).
  pose proof (Z.mul_div_le gmem_size syst_num ltac:(lia)). pose proof part_bound.
  assert (kChunkSize = 33554432) as HC by done. split_and!; nia.
Qed.

(** Two chunks that have been handed out do not overlap. *)
Lemma chunks_apart s c c' :
  (∀ n i, agent_ok n i (agents s n i)) → handed s c → handed s c' → c ≠ c' →
  ga_nodeID c ≠ ga_nodeID c' ∨ ga_addr c + kChunkSize ≤ ga_addr c' ∨
  ga_addr c' + kChunkSize ≤ ga_addr c.
Proof.
  intros I (i & k & Hi & Hn & Hk & Ha) (i' & k' & Hi' & Hn' & Hk' & Ha') Hne.
  destruct (decide (ga_nodeID c = ga_nodeID c')) as [E|]; [right|by left].
  destruct (I (ga_nodeID c) i) as [_ L T], (I (ga_nodeID c') i') as [_ L' T'].
  pose proof (chunk_in_part i k Hi ltac:(lia)). pose proof (chunk_in_part i' k' Hi' ltac:(lia)).
  pose proof part_bound. assert (kChunkSize = 33554432) as HC by done.
  destruct (Z.lt_trichotomy i i') as [?|[<-|?]].
  - left. assert (part * (i + 1) ≤ part * i') by nia. lia.
  - destruct (Z.lt_trichotomy k k') as [?|[<-|?]]; [left; nia| |right; nia].
    exfalso. apply Hne. destruct c, c'. cbn in *. congruence.
  - right. assert (part * (i' + 1) ≤ part * i) by nia. lia.
Qed.

(** ** One allocation from a chunk *)
Lemma la_align_result align c :
  0 ≤ ga_addr c ≤ 2 ^ 60 →
  ga_nodeID (la_align align c) = ga_nodeID c ∧
  ga_addr c ≤ ga_addr (la_align align c) < ga_addr c + DSM_CACHE_LINE_SIZE.
Proof.
  intros. change DSM_CACHE_LINE_SIZE with 4096. unfold la_align. change DSM_CACHE_LINE_SIZE with 4096.
  destruct align; cbn -[wrap Z.mul Z.div Z.modulo]; [|lia].
  destruct (Z.eqb_spec (ga_addr c mod 4096) 0); cbn -[wrap Z.mul Z.div Z.modulo]; [lia|].
  split; [done|]. rewrite wrap_small by (unfold fits; divlia). divlia.
Qed.

Lemma la_malloc_result size align l res nc l' :
  0 ≤ size ≤ kChunkSize →
  0 ≤ ga_addr (la_head l) ≤ ga_addr (la_cur l) → ga_addr (la_cur l) ≤ 2 ^ 60 →
  la_malloc size align l = Some (res, nc, l') →
  la_head l' = la_head l ∧ log_heads l' = log_heads l ∧
  ga_nodeID res = ga_nodeID (la_cur l) ∧ ga_nodeID (la_cur l') = ga_nodeID (la_cur l) ∧
  ga_addr (la_cur l) ≤ ga_addr res < ga_addr (la_cur l) + DSM_CACHE_LINE_SIZE ∧
  if nc then la_cur l' = res
  else log_heads l ≠ [] ∧ ga_addr res + size ≤ ga_addr (la_head l) + kChunkSize ∧
       ga_addr (la_cur l') = ga_addr res + size.
Proof.
  intros Hs Hh Hc. unfold la_malloc. assert (kChunkSize = 33554432) as HC by done.
  destruct (la_align_result align (la_cur l) ltac:(lia)) as [Hn Ha].
  assert (DSM_CACHE_LINE_SIZE = 4096) as HL by done.
  set (c := la_align align (la_cur l)) in *. clearbody c. cbn -[wrap Z.mul].
  rewrite !wrap_small by (unfold fits; lia).
  destruct (_ <=? _); [|done]. intros [= <- <- <-].
  destruct (log_heads l) as [|h hs] eqn:Eh; cbn -[wrap Z.mul];
    [split_and!; done || lia|].
  destruct (Z.ltb_spec (ga_addr (la_head l) + kChunkSize) (ga_addr c + size));
    cbn -[wrap Z.mul]; split_and!; done || lia.
Qed.

(** ** The steps *)
Lemma handed_mono s s' c :
  (∀ n i, bitmap_tail (agents s n i) ≤ bitmap_tail (agents s' n i)) →
  handed s c → handed s' c.
Proof.
  intros Hm (i & k & Hi & Hn & Hk & Ha). exists i, k. specialize (Hm (ga_nodeID c) i).
  split_and!; try done; lia.
Qed.

(** A new block at the end of the used part of the chunk of thread [j]. *)
Lemma inv_new_block s s' j t' b :
  mem_inv s →
  (∀ n i, agent_ok n i (agents s' n i)) →
  (∀ n i, bitmap_tail (agents s n i) ≤ bitmap_tail (agents s' n i)) →
  threads s' = <[j := t']> (threads s) → (j < length (threads s))%nat →
  blocks s' = blocks s ++ [b] →
  thread_ok s' t' → log_heads (alloc t') ≠ [] → bk_chunk b = la_head (alloc t') →
  ga_nodeID (bk_addr b) = ga_nodeID (bk_chunk b) →
  ga_addr (la_head (alloc t')) ≤ ga_addr (bk_addr b) →
  ga_addr (bk_addr b) + bk_size b ≤ ga_addr (bk_chunk b) + kChunkSize →
  0 ≤ bk_size b → ga_addr (bk_addr b) + bk_size b = ga_addr (la_cur (alloc t')) →
  (∀ j' u, j' ≠ j → threads s !! j' = Some u → log_heads (alloc u) ≠ [] →
     la_head (alloc u) ≠ la_head (alloc t')) →
  (∀ b', b' ∈ blocks s → bk_chunk b' = la_head (alloc t') →
     ga_addr (bk_addr b') + bk_size b' ≤ ga_addr (bk_addr b)) →
  mem_inv s'.
Proof.
  intros I Ha Hm Et Hj Eb Ht Hlog Hc Hn Hlo Hhi Hsz Hcur Hother Hbelow.
  pose proof (λ c, handed_mono s s' c Hm) as Hh.
  assert (∀ b', b' ∈ blocks s → block_ok s' b') as Hold.
  { intros b' Hb'. pose proof (mi_blocks _ I) as Hbs. rewrite Forall_forall in Hbs.
    destruct (Hbs b' Hb') as [? ? ? ? Hbl]. split; auto. rewrite Et.
    intros j' u Hu Hul Huc. apply list_lookup_insert_Some in Hu as [(-> & <- & _)|[_ Hu]].
    - rewrite <-Hcur. pose proof (Hbelow b' Hb' Huc). lia.
    - by apply (Hbl j'). }
  assert (block_ok s' b) as Hnew.
  { split; [rewrite Hc; by apply Ht|done|rewrite Hc; rewrite Hc in Hhi; lia|done|].
    rewrite Et. intros j' u Hu Hul Huc.
    apply list_lookup_insert_Some in Hu as [(-> & <- & _)|[Hjj Hu]]; [lia|].
    exfalso. apply (Hother j' u); [done..|congruence]. }
  split; [done| | | |].
  - rewrite Et. apply Forall_insert; [|done]. eapply Forall_impl; [apply I|].
    intros u []. split; auto.
  - rewrite Et. intros j1 j2 u1 u2 Hne Hu1 Hu2 Hl1 Hl2.
    apply list_lookup_insert_Some in Hu1 as [(-> & <- & _)|[? Hu1]];
      apply list_lookup_insert_Some in Hu2 as [(-> & <- & _)|[? Hu2]]; [done|..].
    + apply not_eq_sym. by apply (Hother j2).
    + by apply (Hother j1).
    + by apply (mi_chunks _ I j1 j2).
  - rewrite Eb. apply Forall_app. split; [by apply Forall_forall|by apply Forall_singleton].
  - rewrite Eb. pose proof (mi_disjoint _ I) as Hd.
    assert (∀ b', b' ∈ blocks s → disjoint_blocks b' b) as Hdis.
    { intros b' Hb'. destruct (decide (bk_chunk b' = bk_chunk b)) as [E|E].
      - right; left. apply Hbelow; congruence.
      - pose proof (mi_blocks _ I) as Hbs. rewrite Forall_forall in Hbs.
        destruct (Hbs b' Hb') as [Hh' ? ? ? _].
        assert (handed s' (bk_chunk b)) as Hhb by (rewrite Hc; by apply Ht).
        rewrite <-Hc in Hlo. destruct (chunks_apart s' _ _ Ha (Hh _ Hh') Hhb E) as [?|[?|?]];
          [left; congruence|right; left; lia|right; right; lia]. }
    clear - Hd Hdis. induction Hd as [|b0 l Hb Hd IH]; cbn; [by repeat constructor|].
    constructor; [apply Forall_app; split; [done|]|].
    + apply Forall_singleton, Hdis. by left.
    + apply IH. intros b' ?. apply Hdis. by right.
Qed.

Lemma agent_alloc_result n i g r g' :
  agent_ok n i g → 0 ≤ i < syst_num → agent_alloc g = Some (r, g') →
  agent_ok n i g' ∧ bitmap_tail g ≤ bitmap_tail g' ∧
  match r with
  | PRIMITIVE_ALLOC_ACK a _ =>
      bitmap_tail g < bitmap_len g ∧ bitmap_tail g' = bitmap_tail g + 1 ∧
      a = part * i + bitmap_tail g * kChunkSize
  | PRIMITIVE_ALLOC_FAIL => True
  end.
Proof.
  intros [Hs Hl Ht] Hi. unfold agent_alloc, alloc_chunck.
  destruct (Z.leb_spec (bitmap_len g) (bitmap_tail g)); cbn -[wrap arr_get arr_set Z.mul].
  - intros [= <- <-]. split_and!; done || lia.
  - destruct (arr_get (bitmap g) (bitmap_tail g)) as [[]|]; [done| |done].
    cbn -[wrap arr_get arr_set Z.mul].
    destruct (arr_set (bitmap g) (bitmap_tail g) true) as [bm|]; [|done].
    cbn -[wrap arr_get arr_set Z.mul]. intros [= <- <-].
    split; [split; cbn; try done; lia|]. split; [cbn; lia|]. split_and!; [done|done|].
    rewrite Hs. cbn -[Z.mul]. rewrite wrap_small; [done|].
    pose proof (chunk_in_part i (bitmap_tail g) Hi ltac:(lia)). pose proof part_bound.
    unfold fits. assert (kChunkSize = 33554432) as HC by done. nia.
Qed.

Lemma inv_malloc_local s j t size align res t' :
  mem_inv s → threads s !! j = Some t → 0 ≤ size →
  malloc_local size align t = Some (inl res, t') →
  mem_inv (mk_mem_sys (agents s) (<[j := t']> (threads s))
             (blocks s ++ [mk_block res size (la_head (alloc t'))])).
Proof.
  intros I Hj Hsz. unfold malloc_local.
  destruct (la_malloc size align (alloc t)) as [[[res' nc] l]|] eqn:E; [|done].
  cbn. destruct (Z.leb_spec size kChunkSize); [|done]. destruct nc; [done|].
  intros [= <- <-]. pose proof (mi_threads _ I) as Hts.
  destruct (Forall_lookup_1 _ _ _ _ Hts Hj) as [Hn Hc Hcur Hb Hnd].
  assert (kChunkSize = 33554432 ∧ DSM_CACHE_LINE_SIZE = 4096) as [HC HL] by done.
  destruct (la_malloc_result size align (alloc t) _ _ _ ltac:(lia) ltac:(lia) ltac:(lia) E)
    as (E1 & E2 & E3 & E4 & E5 & E6 & E7 & E8).
  apply (inv_new_block s _ j (mk_alloc_thread l (next_allocator_node t))
    (mk_block res' size (la_head l))); cbn; rewrite ?E1, ?E2; try done; try lia.
  - apply I.
  - by apply lookup_lt_Some in Hj.
  - split; cbn; rewrite ?E1, ?E2, ?E4; try done; lia.
  - intros j' u Hjj Hu Hul. by apply (mi_chunks _ I j' j u t).
  - intros b' Hb' Hbc. pose proof (mi_blocks _ I) as Hbs. rewrite Forall_forall in Hbs.
    destruct (Hbs b' Hb') as [_ _ _ _ Hbl]. pose proof (Hbl j t Hj E6 Hbc). lia.
Qed.

Lemma inv_malloc_chunck s j t size align t1 i r g res t2 :
  mem_inv s → threads s !! j = Some t → 0 ≤ size →
  malloc_local size align t = Some (inr (), t1) → 0 ≤ i < syst_num →
  agent_alloc (agents s (next_allocator_node t1) i) = Some (r, g) →
  malloc_chunck node_num size align r t1 = Some (res, t2) →
  mem_inv (mk_mem_sys (set_agent (agents s) (next_allocator_node t1) i g)
             (<[j := t2]> (threads s))
             (blocks s ++ [mk_block res size (la_head (alloc t2))])).
Proof.
  intros I Hj Hsz Hl Hi Hg. unfold malloc_local in Hl.
  destruct (la_malloc size align (alloc t)) as [[[res' nc] l]|] eqn:E; [|done].
  cbn in Hl. destruct (Z.leb_spec size kChunkSize); [|done]. destruct nc; [|done].
  injection Hl as <-. cbn in Hg. pose proof (mi_threads _ I) as Hts.
  destruct (Forall_lookup_1 _ _ _ _ Hts Hj) as [Hn _ _ _ _].
  set (n := next_allocator_node t) in *.
  destruct (agent_alloc_result n i _ _ _ (mi_agents _ I n i) Hi Hg) as (Ha & Hm & Hr).
  unfold malloc_chunck. destruct r as [a idx|]; [|done]. destruct Hr as (Hr1 & Hr2 & Hr3).
  cbn [next_allocator_node alloc]. fold n.
  set (l0 := set_chunck (mk_GlobalAddress a n) l).
  destruct (la_malloc size align l0) as [[[res1 nc1] l1]|] eqn:E'; [|done].
  cbn. destruct nc1; [done|]. intros [= <- <-].
  destruct (mi_agents _ I n i) as [_ Hlen Htl].
  pose proof (chunk_in_part i (bitmap_tail (agents s n i)) Hi ltac:(lia)) as (B1 & B2 & B3).
  pose proof part_bound as Hpb.
  assert (kChunkSize = 33554432 ∧ DSM_CACHE_LINE_SIZE = 4096) as [HC HL] by done.
  assert (0 ≤ a ≤ 2 ^ 50) as Hab by nia.
  destruct (la_malloc_result size align l0 _ _ _ ltac:(lia) ltac:(cbn; lia) ltac:(cbn; lia) E')
    as (E1 & E2 & E3 & E4 & E5 & E6 & E7 & E8). cbn in E1, E2, E3, E4, E5, E7.
  set (agents' := set_agent (agents s) n i g).
  assert (∀ n' i', agent_ok n' i' (agents' n' i')) as Ha'.
  { intros n' i'. unfold agents', set_agent.
    destruct (Z.eqb_spec n' n) as [->|], (Z.eqb_spec i' i) as [->|]; cbn; auto using mi_agents. }
  assert (∀ n' i', bitmap_tail (agents s n' i') ≤ bitmap_tail (agents' n' i')) as Hm'.
  { intros n' i'. unfold agents', set_agent.
    destruct (Z.eqb_spec n' n) as [->|], (Z.eqb_spec i' i) as [->|]; cbn; lia. }
  assert (¬ handed s (mk_GlobalAddress a n)) as Hfresh.
  { intros (i0 & k0 & Hi0 & _ & Hk0 & Ha0). cbn in *.
    destruct (mi_agents _ I n i0) as [_ Hlen0 Htl0].
    pose proof (chunk_in_part i0 k0 Hi0 ltac:(lia)).
    destruct (Z.lt_trichotomy i0 i) as [?|[->|?]].
    - assert (part * (i0 + 1) ≤ part * i) by nia. lia.
    - lia.
    - assert (part * (i + 1) ≤ part * i0) by nia. lia. }
  apply (inv_new_block s _ j (mk_alloc_thread l1 ((n + 1) mod node_num))
    (mk_block res1 size (la_head l1))); cbn; rewrite ?E1, ?E2, ?E3; try done; try lia.
  - by apply lookup_lt_Some in Hj.
  - split; cbn; rewrite ?E1, ?E2, ?E4; cbn; try done; try lia.
    + apply Z.mod_pos_bound. lia.
    + intros _. exists i, (bitmap_tail (agents s n i)). cbn. split_and!; try done; try lia.
      unfold agents', set_agent. rewrite !Z.eqb_refl. cbn. lia.
  - cbn. lia.
  - intros j' u Hjj Hu Hul Heq. apply Hfresh. rewrite <-Heq.
    by apply (Forall_lookup_1 _ _ _ _ Hts Hu).
  - intros b' Hb' Hbc. exfalso. apply Hfresh. rewrite <-Hbc.
    pose proof (mi_blocks _ I) as Hbs. rewrite Forall_forall in Hbs. by apply (Hbs b' Hb').
Qed.

Lemma mem_inv_init s : mem_init s → mem_inv s.
Proof.
  intros (Ha & Ht & Hb). pose proof part_bound.
  assert (∀ n i, agent_ok n i (agents s n i)) as Hag.
  { intros n i. rewrite Ha. split; cbn; try done. split; [done|]. apply Z.div_pos; [lia|done]. }
  split; rewrite ?Hb; try done; [| |by constructor].
  - eapply Forall_impl; [exact Ht|]. intros t [E Hn]. split; rewrite ?E; cbn; done.
  - intros j j' t t' _ Hj _ Hl. rewrite (proj1 (Forall_lookup_1 _ _ _ _ Ht Hj)) in Hl. done.
Qed.

Lemma mem_inv_reachable s : reachable mem_init mem_step s → mem_inv s.
Proof.
  apply reachable_ind_inv; [apply mem_inv_init|]. intros s0 s1 I Hs. destruct Hs.
  - eapply inv_malloc_local; eauto.
  - eapply inv_malloc_chunck; eauto.
Qed.
End cluster.

(** C28: Blocks never overlap: whatever threads on whatever nodes allocate, in any
    order, with or without alignment, from their chunks or with new chunks of any
    agent, any two blocks that [Cache::malloc] has returned are on different nodes
    or disjoint, and each block lies within the part of a node's memory that
    belongs to one of its agents. *)
Theorem malloc_disjoint node_num syst_num gmem_size s :
  0 < syst_num → 0 < node_num → 0 ≤ gmem_size ≤ 2 ^ 50 →
  reachable (mem_init node_num syst_num gmem_size) (mem_step node_num syst_num) s →
  ForallOrdPairs disjoint_blocks (blocks s) ∧
  Forall (λ b, 0 ≤ ga_nodeID (bk_addr b) < node_num ∧ 0 ≤ bk_size b ∧
    ∃ i, 0 ≤ i < syst_num ∧
      gmem_size / syst_num * i ≤ ga_addr (bk_addr b) ∧
      ga_addr (bk_addr b) + bk_size b ≤ gmem_size / syst_num * (i + 1)) (blocks s).
Proof.
  intros Hs Hn Hg Hr. pose proof (mem_inv_reachable _ _ _ Hs Hn Hg s Hr) as I.
  split; [apply I|]. eapply Forall_impl; [apply I|].
  intros b [(i & k & Hi & Hnb & Hk & Ha) Hb1 Hb2 Hb3 _]. rewrite Hb1. split_and!; try done; try lia.
  exists i. destruct (mi_agents _ _ _ _ I (ga_nodeID (bk_chunk b)) i) as [_ Hl Ht].
  pose proof (chunk_in_part syst_num gmem_size Hs Hg i k Hi ltac:(lia)).
  split_and!; lia.
Qed.

Lemma getTag_value a :
  fits 64 (ga_addr a) → fits 8 (ga_nodeID a) →
  getTag a = ga_addr a / DSM_CACHE_LINE_SIZE * 256 + ga_nodeID a.
Proof.
  unfold fits. intros Hc Hn. unfold getTag. change DSM_CACHE_LINE_WIDTH with 12.
  change DSM_CACHE_LINE_SIZE with 4096.
  rewrite Z.shiftr_div_pow2, Z.shiftl_mul_pow2 by done. change (2 ^ 12) with 4096.
  change (2 ^ 8) with 256. rewrite (wrap_small 64 (ga_addr a / 4096 * 256))
    by (unfold fits; divlia). by rewrite wrap_small by (unfold fits; divlia).
Qed.

(** A tag names a cache line: two global addresses have the same tag exactly when
    they lie in the same line of the same node. *)
Theorem getTag_injective a b :
  fits 64 (ga_addr a) → fits 64 (ga_addr b) → fits 8 (ga_nodeID a) → fits 8 (ga_nodeID b) →
  getTag a = getTag b ↔
    ga_addr a / DSM_CACHE_LINE_SIZE = ga_addr b / DSM_CACHE_LINE_SIZE ∧ ga_nodeID a = ga_nodeID b.
Proof.
  intros Ha Hb Hna Hnb. rewrite !getTag_value by done. unfold fits in *.
  change DSM_CACHE_LINE_SIZE with 4096. split; [intros; divlia|]. by intros [-> ->].
Qed.

(** ** Witnesses: one thread, one agent, two blocks *)
Definition ex_mem0 : mem_sys :=
  mk_mem_sys (λ n i, dsm_allocator 0x4000000 1 n i) [mk_alloc_thread new_LocalAllocator 0] [].
Definition ex_t1 : alloc_thread := mk_alloc_thread new_LocalAllocator 0.
Definition ex_chunk : GlobalAddress := mk_GlobalAddress 0 0.
Definition ex_t2 : alloc_thread :=
  mk_alloc_thread (mk_LocalAllocator ex_chunk (mk_GlobalAddress 100 0) [ex_chunk]) 0.
Definition ex_t3 : alloc_thread :=
  mk_alloc_thread (mk_LocalAllocator ex_chunk (mk_GlobalAddress 4196 0) [ex_chunk]) 0.
Definition ex_agent : GlobalAllocator :=
  (dsm_allocator 0x4000000 1 0 0) <| bitmap := [true; false] |> <| bitmap_tail := 1 |>.
Definition ex_mem2 : mem_sys :=
  mk_mem_sys (set_agent (agents ex_mem0) 0 0 ex_agent) [ex_t3]
    [mk_block ex_chunk 100 ex_chunk; mk_block (mk_GlobalAddress 4096 0) 100 ex_chunk].

Lemma ex_mem2_reachable : reachable (mem_init 1 1 0x4000000) (mem_step 1 1) ex_mem2.
Proof.
  exists ex_mem0. split; [split_and!; [done| |done]; by apply Forall_singleton|].
  eapply rtc_l.
  { by apply (malloc_new_chunck 1 1 ex_mem0 0 ex_t1 100 false ex_t1 0
      (PRIMITIVE_ALLOC_ACK 0 0) ex_agent ex_chunk ex_t2). }
  apply rtc_once.
  by apply (malloc_from_chunck 1 1
    (mk_mem_sys (set_agent (agents ex_mem0) 0 0 ex_agent) [ex_t2] [mk_block ex_chunk 100 ex_chunk])
    0 ex_t2 100 true (mk_GlobalAddress 4096 0) ex_t3).
Qed.

Lemma malloc_disjoint_witness :
  ForallOrdPairs disjoint_blocks (blocks ex_mem2) ∧ length (blocks ex_mem2) = 2%nat.
Proof.
  split; [|done].
  refine (proj1 (malloc_disjoint 1 1 0x4000000 ex_mem2 _ _ _ ex_mem2_reachable)); lia.
Defined.

Lemma getTag_injective_witness :
  getTag (mk_GlobalAddress 0x1fff 3) = getTag (mk_GlobalAddress 0x1000 3).
Proof.
  apply (getTag_injective (mk_GlobalAddress 0x1fff 3) (mk_GlobalAddress 0x1000 3)); done.
Defined.
