(* ===== verification/HostLine.v ===== *)
(** * HostLine: the shared state of a node's cache and the accesses to it

    [Cache.h], [Common.h]: the cache lines with their atomic status words, the
    sets of lines, the locks, the per-thread stacks of free line buffers, and the
    thread-local state of an application thread.  The operations of [LineInfo] are
    accesses to the shared state; a computation of one thread is a function of
    what the other threads, the agents and the FPGA do between its accesses. *)
From S2P Require Import Prelude DsmType HostMsg HostSync GlobalMem.
From stdpp Require Import base numbers option list list_numbers.
Open Scope Z_scope.

(** ** Data *)
Inductive CacheStatus :=
| INVALID | SHARED | MODIFIED | TO_INVALID | TO_SHARED | TO_MODIFIED | PRESERVED
| TO_PRESERVED.
#[export] Instance CacheStatus_eq_dec : EqDecision CacheStatus.
Proof. solve_decision. Defined.

Inductive EvictType := EVICT_SHARED | EVICT_DIRTY.

(** [AtomicTag]: the flag and the status in one word. *)
Record AtomicTag := mk_AtomicTag { at_flag : bool; at_status : CacheStatus }.
#[export] Instance AtomicTag_eq_dec : EqDecision AtomicTag.
Proof. solve_decision. Defined.

(** [LineInfo]; [data] is the address of the line's buffer, 0 for [nullptr]. *)
Record LineInfo := mk_LineInfo {
  lock : Z;
  data : Z;
  status : AtomicTag;
  line_index : Z;
  shadow_flag : bool;
  tag : Z;
  addr : GlobalAddress;
  set_index : Z;
  slot_index : Z;
}.
#[export] Instance eta_LineInfo : Eta LineInfo := fun r =>
  mk_LineInfo (lock r) (data r) (status r) (line_index r) (shadow_flag r) (tag r) (addr r)
    (set_index r) (slot_index r).

Definition max_cline_set_depth_per_node : Z := Z.shiftl 1 16.
Definition max_cline_set_width_per_node : Z := 8.

(** A [LineInfo *]: a slot of [cline_set_vector] or of [shadow_cline_set_vector]. *)
Record line_ref := mk_line_ref { ref_shadow : bool; ref_set : Z; ref_slot : Z }.
#[export] Instance line_ref_eq_dec : EqDecision line_ref.
Proof. solve_decision. Defined.

(** The shared members of [Cache], and the node's memory, byte by byte.  The back of
    a vector of [available_data_stack] is the head of its list. *)
Record cache := mk_cache {
  lines : line_ref → LineInfo;
  cline_set_rwlock_vector : Z → Z;
  available_data_stack : Z → list Z;
  memory : Z → Z;
}.
#[export] Instance eta_cache : Eta cache := fun r =>
  mk_cache (lines r) (cline_set_rwlock_vector r) (available_data_stack r) (memory r).

(** The [thread_local] members of [Cache] that its code reads, the identity of the
    thread, the messages its channel will deliver and those it has sent. *)
Record thread := mk_thread {
  my_node_id : Z;
  req_appt_id : Z;
  start_next_evict_cline_flag : bool;
  wait_cur_evict_cline_flag : bool;
  cur_evict_cline : option line_ref;
  next_evict_cline : option line_ref;
  recv_cur_evict_msg_flag : bool;
  cur_evict_msg : RawMessage;
  cur_evict_cline_type : EvictType;
  inbox : list RawMessage;
  outbox : list RawMessage;
}.
#[export] Instance eta_thread : Eta thread := fun r =>
  mk_thread (my_node_id r) (req_appt_id r) (start_next_evict_cline_flag r)
    (wait_cur_evict_cline_flag r) (cur_evict_cline r) (next_evict_cline r)
    (recv_cur_evict_msg_flag r) (cur_evict_msg r) (cur_evict_cline_type r) (inbox r)
    (outbox r).

(** ** Computations of a thread

    [others] is what happens on the node between the accesses of the thread: each
    access to the shared state comes after the next element, and when the list is
    used up nothing else happens any more. *)
Record world := mk_world { shared : cache; local : thread; others : list (cache → cache) }.
#[export] Instance eta_world : Eta world := fun r =>
  mk_world (shared r) (local r) (others r).

(** A computation returns, waits for ever for something that does not come, or fails
    (an assertion, a null pointer, the back of an empty vector). *)
Inductive outcome (A : Type) :=
| Ret (a : A) (w : world)
| Spin (w : world)
| Fault.
Arguments Ret {A} a w.
Arguments Spin {A} w.
Arguments Fault {A}.

Definition M (A : Type) : Type := world → outcome A.

#[export] Instance M_ret : MRet M := λ A a w, Ret a w.
#[export] Instance M_bind : MBind M := λ A B k m w,
  match m w with Ret a w => k a w | Spin w => Spin w | Fault => Fault end.

Definition fault {A} : M A := λ _, Fault.
Definition spin_forever {A} : M A := λ w, Spin w.
Definition gets {A} (f : thread → A) : M A := λ w, Ret (f (local w)) w.
Definition modify (f : thread → thread) : M unit :=
  λ w, Ret () (mk_world (shared w) (f (local w)) (others w)).
Definition deref {A} (p : option A) : M A :=
  match p with Some a => mret a | None => fault end.

(** The state in which the next access happens. *)
Definition next_state (w : world) : cache :=
  match others w with [] => shared w | e :: _ => e (shared w) end.

(** One atomic access. *)
Definition access {A} (f : cache → A * cache) : M A := λ w,
  let '(a, c) := f (next_state w) in Ret a (mk_world c (local w) (tail (others w))).

(** A loop of atomic accesses that have no effect until one succeeds: a test that is
    repeated, a [compare_exchange] that is retried.  [None] is a failed attempt. *)
Fixpoint await_in {A} (f : cache → option (A * cache)) (t : thread)
    (es : list (cache → cache)) (c : cache) : outcome A :=
  let c := match es with [] => c | e :: _ => e c end in
  match f c with
  | Some (a, c) => Ret a (mk_world c t (tail es))
  | None =>
      match es with
      | [] => Spin (mk_world c t [])
      | _ :: es => await_in f t es c
      end
  end.

Definition await {A} (f : cache → option (A * cache)) : M A := λ w,
  await_in f (local w) (others w) (shared w).

(** ** Operations of [LineInfo] *)
Definition set_line (r : line_ref) (l : LineInfo) (c : cache) : cache :=
  c <| lines := λ r', if decide (r' = r) then l else lines c r' |>.

Definition line_get {A} (f : LineInfo → A) (r : line_ref) : M A :=
  access (λ c, (f (lines c r), c)).
Definition line_put (f : LineInfo → LineInfo) (r : line_ref) : M unit :=
  access (λ c, ((), set_line r (f (lines c r)) c)).

Definition getStatus (r : line_ref) : M CacheStatus := line_get (λ l, at_status (status l)) r.
Definition getFlag (r : line_ref) : M bool := line_get (λ l, at_flag (status l)) r.
Definition setFlagAndStatus (flag : bool) (s : CacheStatus) (r : line_ref) : M unit :=
  line_put (λ l, l <| status := mk_AtomicTag flag s |>) r.

(** [status.compare_exchange_strong(a, b)]; [None] when it fails. *)
Definition cas_line (a b : AtomicTag) (r : line_ref) (c : cache) : option cache :=
  let l := lines c r in
  if decide (status l = a) then Some (set_line r (l <| status := b |>) c) else None.

Definition casFlagAndStatus (flag_from : bool) (s_from : CacheStatus) (flag_to : bool)
    (s_to : CacheStatus) (r : line_ref) : M bool :=
  access (λ c,
    match cas_line (mk_AtomicTag flag_from s_from) (mk_AtomicTag flag_to s_to) r c with
    | Some c => (true, c) | None => (false, c)
    end).

(** A loop that retries the given exchanges, in this order, until one succeeds; the
    result is the number of that one. *)
Fixpoint first_cas (k : nat) (xs : list (AtomicTag * AtomicTag)) (r : line_ref) (c : cache)
    : option (nat * cache) :=
  match xs with
  | [] => None
  | (a, b) :: xs =>
      match cas_line a b r c with
      | Some c => Some (k, c) | None => first_cas (S k) xs r c
      end
  end.
Definition cas_loop (xs : list (AtomicTag * AtomicTag)) (r : line_ref) : M nat :=
  await (first_cas 0 xs r).

(** ** Locks ([WRLock.h]; the loops of [HostSync.wr_exec])

    [wLock] ends with the exchange of [UNLOCKED] for [LOCKED], [rLock] with the
    exchange of a value other than [LOCKED] for that value plus 2. *)
Definition wLock_word (l : Z) : option Z := if l =? UNLOCKED then Some LOCKED else None.
Definition rLock_word (l : Z) : option Z :=
  if l =? LOCKED then None else Some (wrap 16 (l + 2)).
Definition rUnlock_word (l : Z) : Z := wrap 16 (l - 2).
Definition wUnlock_word (l : Z) : Z := UNLOCKED.

Definition with_line_lock (f : Z → option Z) (r : line_ref) : M unit :=
  await (λ c, l ← f (lock (lines c r)); Some ((), set_line r ((lines c r) <| lock := l |>) c)).
Definition with_set_lock (f : Z → option Z) (i : Z) : M unit :=
  await (λ c, l ← f (cline_set_rwlock_vector c i);
    Some ((), c <| cline_set_rwlock_vector :=
      λ j, if j =? i then l else cline_set_rwlock_vector c j |>)).

Definition line_wLock := with_line_lock wLock_word.
Definition line_rLock := with_line_lock rLock_word.
Definition line_wUnlock := with_line_lock (λ l, Some (wUnlock_word l)).
Definition line_rUnlock := with_line_lock (λ l, Some (rUnlock_word l)).
Definition set_wLock := with_set_lock wLock_word.
Definition set_rLock := with_set_lock rLock_word.
Definition set_wUnlock := with_set_lock (λ l, Some (wUnlock_word l)).
Definition set_rUnlock := with_set_lock (λ l, Some (rUnlock_word l)).

(** ** The thread's stack of free buffers *)
Definition stack_set (t : Z) (s : list Z) (c : cache) : cache :=
  c <| available_data_stack := λ u, if u =? t then s else available_data_stack c u |>.

Definition data_stack_size : M Z :=
  t ← gets req_appt_id; access (λ c, (Z.of_nat (length (available_data_stack c t)), c)).
(** [back()] of an empty vector is undefined. *)
Definition data_stack_back : M Z :=
  t ← gets req_appt_id; p ← access (λ c, (head (available_data_stack c t), c)); deref p.
Definition data_stack_pop_back : M unit :=
  t ← gets req_appt_id;
  access (λ c, ((), stack_set t (tail (available_data_stack c t)) c)).
Definition data_stack_push_back (p : Z) : M unit :=
  t ← gets req_appt_id;
  access (λ c, ((), stack_set t (p :: available_data_stack c t) c)).

(** ** Memory *)
Definition bytes_at (m : Z → Z) (p n : Z) : list Z := m <$> seqZ p n.

Definition store_bytes (m : Z → Z) (p : Z) (bs : list Z) : Z → Z :=
  λ q, if (p <=? q) && (q <? p + Z.of_nat (length bs))
       then nth (Z.to_nat (q - p)) bs 0 else m q.

(** [memcpy(to, data + start, size)]: the bytes that arrive. *)
Definition memcpy_from (r : line_ref) (start size : Z) : M (list Z) :=
  access (λ c, (bytes_at (memory c) (data (lines c r) + start) size, c)).
(** [memcpy(data + start, from, size)] *)
Definition memcpy_to (r : line_ref) (start : Z) (from : list Z) : M unit :=
  access (λ c, ((), c <| memory := store_bytes (memory c) (data (lines c r) + start) from |>)).

(** ** Messages

    [channel->send]; and [channel->recv_msg], which returns the next message, or after
    a long time a message with [mtype] 255, which is then an element of [inbox]. *)
Definition channel_send (m : RawMessage) : M unit :=
  modify (λ t, t <| outbox := outbox t ++ [m] |>).

Definition recv_msg : M RawMessage :=
  access (λ c, ((), c));;
  ms ← gets inbox;
  match ms with
  | [] => spin_forever
  | m :: ms => modify (λ t, t <| inbox := ms |>);; mret m
  end.

(** The number of messages that can still be received. *)
Definition to_receive : M nat := gets (λ t, length (inbox t)).
