(* ===== verification/HostLogic.v ===== *)
(** * HostLogic: reasoning about the computations of a thread

    [wp tot R m Q c t]: from the shared state [c] and the thread state [t], whatever
    the others do within the rely [R], the computation [m] does not fail and, if it
    returns, its result and the states satisfy [Q]; with [tot = true] it does return.
    There is one rule per construct of [HostLine]. *)
From S2P Require Import Prelude DsmType HostMsg HostSync GlobalMem HostLine.
From stdpp Require Import base numbers option list list_numbers relations.
Open Scope Z_scope.

Definition respects (R : cache → cache → Prop) (e : cache → cache) : Prop := ∀ c, R c (e c).

Definition wp {A} (tot : bool) (R : cache → cache → Prop) (m : M A)
    (Q : A → cache → thread → Prop) (c : cache) (t : thread) : Prop :=
  ∀ es, Forall (respects R) es →
    match m (mk_world c t es) with
    | Ret a w => Q a (shared w) (local w) ∧ Forall (respects R) (others w)
    | Spin _ => tot = false
    | Fault => False
    end.

Section rules.
Context (tot : bool) (R : cache → cache → Prop) `{!PreOrder R}.

Lemma wp_ret {A} (a : A) Q c t : Q a c t → wp tot R (mret a) Q c t.
Proof. intros HQ es He. by split. Qed.

Lemma wp_bind {A B} (m : M A) (k : A → M B) Q c t :
  wp tot R m (λ a c t, wp tot R (k a) Q c t) c t → wp tot R (m ≫= k) Q c t.
Proof.
  intros H es He. specialize (H es He). unfold mbind, M_bind.
  destruct (m _) as [a [c' t' es']|w|]; [|done..]. destruct H as [H He']. by apply H.
Qed.

Lemma wp_mono {A} (m : M A) (Q Q' : A → cache → thread → Prop) c t :
  (∀ a c t, Q a c t → Q' a c t) → wp tot R m Q c t → wp tot R m Q' c t.
Proof.
  intros HQ H es He. specialize (H es He). destruct (m _); [|done..].
  destruct H. eauto.
Qed.

Lemma wp_fault {A} Q c t : False → wp tot R (fault : M A) Q c t.
Proof. done. Qed.

Lemma wp_spin {A} Q c t : tot = false → wp tot R (spin_forever : M A) Q c t.
Proof. by intros ? es He. Qed.

Lemma wp_gets {A} (f : thread → A) Q c t : Q (f t) c t → wp tot R (gets f) Q c t.
Proof. intros HQ es He. by split. Qed.

Lemma wp_modify f Q c t : Q () c (f t) → wp tot R (modify f) Q c t.
Proof. intros HQ es He. by split. Qed.

Lemma next_state_R c t es : Forall (respects R) es → R c (next_state (mk_world c t es)).
Proof. destruct 1; cbn; [reflexivity|]. auto. Qed.

Lemma wp_access {A} (f : cache → A * cache) Q c t :
  (∀ c', R c c' → Q (f c').1 (f c').2 t) → wp tot R (access f) Q c t.
Proof.
  intros HQ es He. unfold access. cbn -[next_state].
  specialize (HQ _ (next_state_R c t es He)).
  destruct (f (next_state _)). split; [done|]. by destruct He.
Qed.

Lemma wp_await {A} (f : cache → option (A * cache)) Q c t :
  (tot = true → ∀ c', R c c' → is_Some (f c')) →
  (∀ c' a c'', R c c' → f c' = Some (a, c'') → Q a c'' t) →
  wp tot R (await f) Q c t.
Proof.
  intros Hs HQ es He. unfold await. cbn.
  assert (∀ es d, Forall (respects R) es → R c d →
    match await_in f t es d with
    | Ret a w => Q a (shared w) (local w) ∧ Forall (respects R) (others w)
    | Spin _ => tot = false | Fault => False end) as H; [|by apply H].
  clear es He. induction es as [|e es IH]; intros d He Hd; cbn.
  - destruct (f d) as [[a c']|] eqn:E; [by eauto|]. destruct tot; [|done].
    destruct (Hs eq_refl _ Hd) as [? ?]. congruence.
  - apply Forall_cons in He as [Hr He].
    assert (R c (e d)) as Hd' by (etransitivity; [done|apply Hr]).
    destruct (f (e d)) as [[a c']|] eqn:E; [by eauto|]. by apply IH.
Qed.

Lemma wp_line_get {A} (f : LineInfo → A) r Q c t :
  (∀ c', R c c' → Q (f (lines c' r)) c' t) → wp tot R (line_get f r) Q c t.
Proof. intros H. by apply wp_access. Qed.

Lemma wp_line_put f r Q c t :
  (∀ c', R c c' → Q () (set_line r (f (lines c' r)) c') t) → wp tot R (line_put f r) Q c t.
Proof. intros H. by apply wp_access. Qed.

Lemma wp_deref {A} (p : option A) a Q c t : p = Some a → Q a c t → wp tot R (deref p) Q c t.
Proof. intros ->. apply wp_ret. Qed.
End rules.

(** One step of the symbolic execution of a computation. *)
Ltac wp_step :=
  lazymatch goal with
  | |- wp _ _ (_ ≫= _) _ _ _ => apply wp_bind
  | |- wp _ _ (mret _) _ _ _ => apply wp_ret
  | |- wp _ _ (gets _) _ _ _ => apply wp_gets
  | |- wp _ _ (modify _) _ _ _ => apply wp_modify
  | |- wp _ _ (line_get _ _) _ _ _ => apply wp_line_get; [try exact _|]
  | |- wp _ _ (getStatus _) _ _ _ => apply wp_line_get; [try exact _|]
  | |- wp _ _ (getFlag _) _ _ _ => apply wp_line_get; [try exact _|]
  | |- wp _ _ (line_put _ _) _ _ _ => apply wp_line_put; [try exact _|]
  | |- wp _ _ (setFlagAndStatus _ _ _) _ _ _ => apply wp_line_put; [try exact _|]
  | |- wp _ _ (access _) _ _ _ => apply wp_access; [try exact _|]
  | |- wp _ _ (let '_ := _ in _) _ _ _ => cbv zeta
  end.

(** ** Lines of an updated state *)
Lemma lines_set_same r l c : lines (set_line r l c) r = l.
Proof. cbn. by rewrite decide_True. Qed.

Lemma lines_set_other r r' l c : r' ≠ r → lines (set_line r l c) r' = lines c r'.
Proof. intros. cbn. by rewrite decide_False. Qed.

Lemma stack_set_same t s c : available_data_stack (stack_set t s c) t = s.
Proof. cbn. by rewrite Z.eqb_refl. Qed.

#[export] Hint Rewrite lines_set_same stack_set_same : dsm.
#[export] Hint Rewrite lines_set_other using done : dsm.

(** ** What the agents do to a line

    Every change that an agent makes to a status word ([Agent.probe_guarantee]). *)
Inductive agent_step : AtomicTag → AtomicTag → Prop :=
| step_invalidate s : s = SHARED ∨ s = MODIFIED →
    agent_step (mk_AtomicTag false s) (mk_AtomicTag false INVALID)
| step_downgrade : agent_step (mk_AtomicTag false MODIFIED) (mk_AtomicTag false SHARED)
| step_evict_downgrade :
    agent_step (mk_AtomicTag false TO_PRESERVED) (mk_AtomicTag false TO_SHARED)
| step_mark s : s = TO_MODIFIED ∨ s = TO_SHARED ∨ s = TO_PRESERVED →
    agent_step (mk_AtomicTag false s) (mk_AtomicTag true s).

(** The others change nothing of the line but its status, by steps of [step], and
    nothing of the stack of thread [u]. *)
Definition line_rely (step : AtomicTag → AtomicTag → Prop) (r : line_ref) (u : Z)
    (c c' : cache) : Prop :=
  (∃ s, lines c' r = (lines c r) <| status := s |> ∧ rtc step (status (lines c r)) s) ∧
  available_data_stack c' u = available_data_stack c u.

#[export] Instance line_rely_preorder step r u : PreOrder (line_rely step r u).
Proof.
  split.
  - intros c. split; [|done]. exists (status (lines c r)). split; [by destruct (lines c r)|done].
  - intros c c1 c2 [(s & E & H) S] [(s' & E' & H') S']. split; [|congruence]. exists s'.
    rewrite E', E. split; [done|]. rewrite E in H'. by etransitivity.
Qed.

(** A status that no agent changes. *)
Definition settled (s : AtomicTag) : Prop := ∀ s', ¬ agent_step s s'.

Lemma settled_rtc s s' : settled s → rtc agent_step s s' → s' = s.
Proof. intros H Hr. destruct Hr as [|s s1 s2 Hs _]; [done|]. by apply H in Hs. Qed.

Lemma settled_flag s : settled (mk_AtomicTag true s).
Proof. intros s' H. inversion H. Qed.

Lemma settled_status s : s = INVALID ∨ s = PRESERVED ∨ s = TO_INVALID → settled (mk_AtomicTag false s).
Proof. intros H s' Hs. inversion Hs; subst; naive_solver. Qed.

(** The states of a line under a transaction, as the agents leave it. *)
Lemma agent_steps_pending s s' :
  s = TO_SHARED ∨ s = TO_MODIFIED → rtc agent_step (mk_AtomicTag false s) s' →
  s' = mk_AtomicTag false s ∨ s' = mk_AtomicTag true s.
Proof.
  intros Hs Hr. inversion Hr as [|? s1 ? H1 H2]; subst; [by left|]. right.
  assert (s1 = mk_AtomicTag true s) as -> by (inversion H1; naive_solver).
  by apply settled_rtc in H2; [|apply settled_flag].
Qed.

Lemma agent_steps_evict s' :
  rtc agent_step (mk_AtomicTag false TO_PRESERVED) s' →
  (at_status s' = TO_PRESERVED ∨ at_status s' = TO_SHARED).
Proof.
  intros Hr. remember (mk_AtomicTag false TO_PRESERVED) as s eqn:E.
  assert (at_status s = TO_PRESERVED ∨ at_status s = TO_SHARED) as H by (subst; by left).
  clear E. induction Hr as [s|s s1 s2 H1 _ IH]; [done|]. apply IH.
  inversion H1; subst; cbn in *; naive_solver.
Qed.

Lemma agent_steps_stable s s' :
  s = INVALID ∨ s = SHARED ∨ s = MODIFIED → rtc agent_step (mk_AtomicTag false s) s' →
  ∃ t, s' = mk_AtomicTag false t ∧ (t = INVALID ∨ t = SHARED ∨ t = MODIFIED).
Proof.
  intros Hs Hr. remember (mk_AtomicTag false s) as a eqn:E. revert s E Hs.
  induction Hr as [|a b c H1 _ IH]; intros s -> Hs; [eauto|].
  inversion H1; subst; naive_solver.
Qed.
