(* ===== verification/CacheSet.v ===== *)
(** * CacheSet: the sets of the cache

    [Cache::initLine], [calLineSet], [findLine], [findShadowLine], [newLine],
    [findLineForAgent] of [Cache.cpp] and the hash of [Hash.h].  An address belongs
    to one set of eight slots; the shadow slot next to a slot holds a line on its way
    out while the slot already serves its successor. *)
From S2P Require Import Prelude DsmType HostMsg HostSync GlobalMem HostLine HostLogic.
From stdpp Require Import base numbers option list list_numbers relations.
Open Scope Z_scope.

(** ** [hash::jenkins], [Cache::calLineSet] *)

(** The bytes of a [uint32_t] in memory, read as [char]s. *)
Definition char_bytes (v : Z) : list Z :=
  (λ i, let b := get_range v (8 * i + 7) (8 * i) in if b <? 128 then b else b - 256)
    <$> seqZ 0 4.

Definition jenkins (key : list Z) : Z :=
  let hash := foldl (λ hash k,
    let hash := wrap 64 (hash + k) in
    let hash := wrap 64 (hash + Z.shiftl hash 10) in
    Z.lxor hash (Z.shiftr hash 6)) 0 key in
  let hash := wrap 64 (hash + Z.shiftl hash 3) in
  let hash := Z.lxor hash (Z.shiftr hash 11) in
  wrap 64 (hash + Z.shiftl hash 15).

Definition calLineSet (tag : Z) : Z :=
  jenkins (char_bytes (wrap 32 tag)) mod max_cline_set_depth_per_node.

(** ** [Cache::initLine]

    [ptrs] are the [cline_num_per_node] buffers that the slab allocator returned, see [SlabBoot];
    they are dealt to the stacks of the threads in turn. *)
Definition deal (appt_num : Z) (ptrs : list Z) (stacks : Z → list Z) : Z → list Z :=
  (foldl (λ '(s, i) p, (λ u, if u =? i then p :: s u else s u, (i + 1) mod appt_num))
    (stacks, 0) ptrs).1.

Definition init_line_info (r : line_ref) (l : LineInfo) : LineInfo :=
  l <| set_index := ref_set r |> <| slot_index := ref_slot r |>
    <| shadow_flag := ref_shadow r |> <| status := mk_AtomicTag false PRESERVED |>
    <| data := 0 |>.

Definition line_ref_ok (r : line_ref) : bool :=
  (0 <=? ref_set r) && (ref_set r <? max_cline_set_depth_per_node) &&
  (0 <=? ref_slot r) && (ref_slot r <? max_cline_set_width_per_node).

(** [None]: the first stack has no back to print. *)
Definition initLine (appt_num : Z) (ptrs : list Z) (c : cache) : option cache :=
  let stacks := deal appt_num ptrs (available_data_stack c) in
  _ ← head (stacks 0);
  Some (c <| available_data_stack := stacks |>
    <| lines := λ r, if line_ref_ok r then init_line_info r (lines c r) else lines c r |>).

(** ** Looking a tag up *)
Definition slots : list Z := seqZ 0 max_cline_set_width_per_node.

(** The first slot of a set with the tag; the loop with its [break]. *)
Fixpoint find_slot (shadow : bool) (set_idx t : Z) (js : list Z) : M (option line_ref) :=
  match js with
  | [] => mret None
  | i :: js =>
      let r := mk_line_ref shadow set_idx i in
      s ← getStatus r; t' ← line_get tag r;
      if bool_decide (s ≠ PRESERVED) && (t' =? t) then mret (Some r)
      else find_slot shadow set_idx t js
  end.

Definition findLine (set_idx : Z) (a : GlobalAddress) : M (option line_ref) :=
  find_slot false set_idx (getTag a) slots.

Definition findShadowLine (set_idx : Z) (a : GlobalAddress) : M (option line_ref) :=
  find_slot true set_idx (getTag a) slots.

Definition findLineForAgent (t : Z) : M (option line_ref) :=
  let set_idx := calLineSet t in
  line ← find_slot false set_idx t slots;
  shadow ← find_slot true set_idx t slots;
  match line, shadow with
  | Some _, Some _ => fault
  | Some r, None | None, Some r => mret (Some r)
  | None, None => mret None
  end.

(** ** [Cache::newLine] *)
Definition is_status (s : CacheStatus) (r : line_ref) : M bool :=
  s' ← getStatus r; mret (bool_decide (s' = s)).
Definition andM (m1 m2 : M bool) : M bool := b ← m1; if b : bool then m2 else mret false.
Definition orM (m1 m2 : M bool) : M bool := b ← m1; if b : bool then mret true else m2.

(** [getStatus() != PRESERVED && tag == t] *)
Definition holds_tag (t : Z) (r : line_ref) : M bool :=
  s ← getStatus r;
  if bool_decide (s ≠ PRESERVED) then t' ← line_get tag r; mret (t' =? t) else mret false.

Record choice := mk_choice { exist_slot_idx : Z; available_slot_idx : Z; eviction_slot_idx : Z }.
#[export] Instance eta_choice : Eta choice := fun r =>
  mk_choice (exist_slot_idx r) (available_slot_idx r) (eviction_slot_idx r).

Definition newLine_slot (set_idx t : Z) (ch : choice) (i : Z) : M choice :=
  let r := mk_line_ref false set_idx i in
  let sr := mk_line_ref true set_idx i in
  found ← orM (holds_tag t r) (holds_tag t sr);
  if found : bool then mret (ch <| exist_slot_idx := i |>) else
  available ← is_status PRESERVED r;
  if available : bool then mret (ch <| available_slot_idx := i |>) else
  eviction ← andM (orM (is_status INVALID r) (orM (is_status SHARED r) (is_status MODIFIED r)))
    (is_status PRESERVED sr);
  mret (if eviction : bool then ch <| eviction_slot_idx := i |> else ch).

Fixpoint newLine_scan (set_idx t : Z) (ch : choice) (js : list Z) : M choice :=
  match js with
  | [] => mret ch
  | i :: js => ch ← newLine_slot set_idx t ch i; newLine_scan set_idx t ch js
  end.

(** A free slot and a buffer of the thread's stack. *)
Definition newLine_fill (a : GlobalAddress) (r : line_ref) : M unit :=
  line_put (λ l, l <| tag := getTag a |>) r;;
  line_put (λ l, l <| addr := a |>) r;;
  p ← data_stack_back;
  line_put (λ l, l <| data := p |>) r;;
  setFlagAndStatus false INVALID r;;
  data_stack_pop_back.

(** The line moves to the shadow slot, and becomes the next line to evict. *)
Definition newLine_shadow (r sr : line_ref) : M unit :=
  t ← line_get tag r; line_put (λ l, l <| tag := t |>) sr;;
  a ← line_get addr r; line_put (λ l, l <| addr := a |>) sr;;
  p ← line_get data r; line_put (λ l, l <| data := p |>) sr;;
  s ← getStatus r; setFlagAndStatus false s sr;;
  modify (λ t, t <| start_next_evict_cline_flag := true |> <| next_evict_cline := Some sr |>).

(** [new_flag], with the line it has set [cline] to. *)
Definition newLine (set_idx : Z) (a : GlobalAddress) : M (option line_ref) :=
  ch ← newLine_scan set_idx (getTag a) (mk_choice (-1) (-1) (-1)) slots;
  let '(mk_choice found available eviction) := ch in
  if negb (found =? -1) then mret None
  else if (available =? -1) && (eviction =? -1) then mret None
  else
    fill ← (if negb (available =? -1) then n ← data_stack_size; mret (1 <=? n)
            else mret false);
    if fill : bool then
      let r := mk_line_ref false set_idx available in
      newLine_fill a r;; mret (Some r)
    else if negb (eviction =? -1) then
      let r := mk_line_ref false set_idx eviction in
      s ← getStatus r;
      (if bool_decide (s = INVALID) then
         line_put (λ l, l <| tag := getTag a |>) r;; line_put (λ l, l <| addr := a |>) r
       else
         newLine_shadow r (mk_line_ref true set_idx eviction);; newLine_fill a r);;
      mret (Some r)
    else mret None.

(** ** Rules for the conditions *)
Section conditions.
Context (R : cache → cache → Prop) `{!PreOrder R}.

Lemma wp_orM tot m1 m2 Q c t :
  wp tot R m1 (λ b c t, if b : bool then Q true c t else wp tot R m2 Q c t) c t →
  wp tot R (orM m1 m2) Q c t.
Proof.
  intros H. unfold orM. wp_step. eapply wp_mono; [|exact H]. intros [] c' t'; [|done].
  apply wp_ret.
Qed.

Lemma wp_andM tot m1 m2 Q c t :
  wp tot R m1 (λ b c t, if b : bool then wp tot R m2 Q c t else Q false c t) c t →
  wp tot R (andM m1 m2) Q c t.
Proof.
  intros H. unfold andM. wp_step. eapply wp_mono; [|exact H]. intros [] c' t'; [done|].
  apply wp_ret.
Qed.

Lemma wp_is_status tot s r Q c t :
  (∀ c', R c c' → Q (bool_decide (at_status (status (lines c' r)) = s)) c' t) →
  wp tot R (is_status s r) Q c t.
Proof. intros H. unfold is_status. repeat wp_step. intros c' HR. wp_step. auto. Qed.

End conditions.

(** ** Well-formed sets *)
Definition occupied (l : LineInfo) : Prop := at_status (status l) ≠ PRESERVED.
Definition pending (s : CacheStatus) : Prop :=
  s ≠ INVALID ∧ s ≠ SHARED ∧ s ≠ MODIFIED ∧ s ≠ PRESERVED.
Definition flag_ok (a : AtomicTag) : Prop :=
  at_flag a = true →
  at_status a = TO_SHARED ∨ at_status a = TO_MODIFIED ∨ at_status a = TO_PRESERVED.
Definition in_set (i : Z) (r : line_ref) : Prop :=
  ref_set r = i ∧ 0 ≤ ref_slot r < max_cline_set_width_per_node.

(** Set [i] together with the free buffers of thread [u]: a tag and a buffer occur
    once, only a line under a transaction is flagged, and every line is in the set
    of its address. *)
Record set_wf (i u : Z) (c : cache) : Prop := {
  sw_tag : ∀ r r', in_set i r → in_set i r' → occupied (lines c r) → occupied (lines c r') →
    tag (lines c r) = tag (lines c r') → r = r';
  sw_data : ∀ r r', in_set i r → in_set i r' → occupied (lines c r) → occupied (lines c r') →
    data (lines c r) = data (lines c r') → data (lines c r) ≠ 0 → r = r';
  sw_main : ∀ r, in_set i r → occupied (lines c r) → ref_shadow r = false →
    data (lines c r) ≠ 0;
  sw_free : NoDup (available_data_stack c u) ∧ 0 ∉ available_data_stack c u ∧
    (∀ r, in_set i r → occupied (lines c r) → data (lines c r) ∉ available_data_stack c u);
  sw_flag : ∀ r, in_set i r → flag_ok (status (lines c r));
  sw_addr : ∀ r, in_set i r → occupied (lines c r) →
    tag (lines c r) = getTag (addr (lines c r)) ∧ calLineSet (tag (lines c r)) = i;
}.

(** What the others may do to the set while this thread holds its lock for writing:
    the lookups and the agents are locked out, so that a transaction under way may
    end, and a line on its way out may change status or be released, its buffer
    first. *)
Record line_keeps (l l' : LineInfo) : Prop := {
  lk_tag : tag l' = tag l;
  lk_addr : addr l' = addr l;
  lk_preserved : at_status (status l) = PRESERVED → status l' = status l ∧ data l' = data l;
  lk_flag : flag_ok (status l) → flag_ok (status l');
}.

Record main_keeps (l l' : LineInfo) : Prop := {
  mk_line : line_keeps l l';
  mk_data : data l' = data l;
  mk_stable : ¬ pending (at_status (status l)) → status l' = status l;
  mk_occupied : occupied l → occupied l';
}.

Record shadow_keeps (l l' : LineInfo) : Prop := {
  sk_line : line_keeps l l';
  sk_data : data l' = data l ∨ data l' = 0;
}.

Definition set_locked (i u : Z) (c c' : cache) : Prop :=
  (∀ r, in_set i r →
     if ref_shadow r then shadow_keeps (lines c r) (lines c' r)
     else main_keeps (lines c r) (lines c' r)) ∧
  available_data_stack c' u = available_data_stack c u.

#[export] Instance line_keeps_preorder : PreOrder line_keeps.
Proof.
  split; [by split|]. intros l l' l'' [T A P F] [T' A' P' F']. split; try congruence; [|auto].
  intros HP. destruct (P HP) as [E D]. destruct P' as [E' D']; [by rewrite E|]. by rewrite E', D'.
Qed.

#[export] Instance main_keeps_preorder : PreOrder main_keeps.
Proof.
  split; [by split|]. intros l l' l'' [L D S O] [L' D' S' O'].
  split; [by etransitivity|congruence| |auto].
  intros HP. rewrite <-(S HP). apply S'. by rewrite (S HP).
Qed.

#[export] Instance shadow_keeps_preorder : PreOrder shadow_keeps.
Proof.
  split; [split; [done|auto]|]. intros l l' l'' [L D] [L' D'].
  split; [by etransitivity|]. destruct D', D; intuition congruence.
Qed.

#[export] Instance set_locked_preorder i u : PreOrder (set_locked i u).
Proof.
  split.
  - intros c. split; [|done]. intros r _. by destruct (ref_shadow r).
  - intros c c' c'' [H S] [H' S']. split; [|congruence]. intros r Hr.
    specialize (H r Hr). specialize (H' r Hr).
    destruct (ref_shadow r); by etransitivity.
Qed.

(** ** The set under its write lock *)
Section locked_set.
Context (i u : Z).
Notation R := (set_locked i u).

Lemma locked_line c c' r : R c c' → in_set i r → line_keeps (lines c r) (lines c' r).
Proof. intros [H _] Hr. specialize (H r Hr). by destruct (ref_shadow r), H. Qed.

Lemma locked_main c c' r :
  R c c' → in_set i r → ref_shadow r = false → main_keeps (lines c r) (lines c' r).
Proof. intros [H _] Hr E. specialize (H r Hr). by rewrite E in H. Qed.

Lemma locked_shadow c c' r :
  R c c' → in_set i r → ref_shadow r = true → shadow_keeps (lines c r) (lines c' r).
Proof. intros [H _] Hr E. specialize (H r Hr). by rewrite E in H. Qed.

Lemma locked_occupied c c' r :
  R c c' → in_set i r → occupied (lines c' r) → occupied (lines c r).
Proof.
  intros H Hr O E. destruct (lk_preserved _ _ (locked_line _ _ _ H Hr) E) as [E' _].
  apply O. by rewrite E'.
Qed.

Lemma locked_free c c' r :
  R c c' → in_set i r → ¬ occupied (lines c r) → ¬ occupied (lines c' r).
Proof. intros H Hr O O'. by apply O, (locked_occupied c c'). Qed.

Lemma locked_data c c' r :
  R c c' → in_set i r → data (lines c' r) = data (lines c r) ∨ data (lines c' r) = 0.
Proof.
  intros H Hr. destruct (ref_shadow r) eqn:E.
  - apply (sk_data _ _ (locked_shadow _ _ _ H Hr E)).
  - left. apply (mk_data _ _ (locked_main _ _ _ H Hr E)).
Qed.

Lemma set_wf_locked c c' : set_wf i u c → R c c' → set_wf i u c'.
Proof.
  intros W H. pose proof (λ r, locked_occupied c c' r H) as HO.
  pose proof (λ r, locked_line c c' r H) as HL. pose proof (proj2 H) as HS.
  split.
  - intros r r' Hr Hr' O O'. rewrite (lk_tag _ _ (HL r Hr)), (lk_tag _ _ (HL r' Hr')).
    apply (sw_tag _ _ _ W); auto.
  - intros r r' Hr Hr' O O' E Hn. apply (sw_data _ _ _ W); auto.
    + destruct (locked_data c c' r H Hr), (locked_data c c' r' H Hr'); congruence.
    + destruct (locked_data c c' r H Hr); congruence.
  - intros r Hr O Es. rewrite (mk_data _ _ (locked_main c c' r H Hr Es)).
    apply (sw_main _ _ _ W); auto.
  - destruct (sw_free _ _ _ W) as (Hnd & H0 & Hd). rewrite HS. split_and!; [done..|].
    intros r Hr O. destruct (locked_data c c' r H Hr) as [-> | ->]; [|done]. auto.
  - intros r Hr. apply (lk_flag _ _ (HL r Hr)), (sw_flag _ _ _ W r Hr).
  - intros r Hr O. rewrite (lk_tag _ _ (HL r Hr)), (lk_addr _ _ (HL r Hr)).
    apply (sw_addr _ _ _ W); auto.
Qed.

(** ** The scan of [newLine] *)
Definition holds (t : Z) (c : cache) (r : line_ref) : Prop :=
  occupied (lines c r) ∧ tag (lines c r) = t.
Notation main k := (mk_line_ref false i k).
Notation shadow k := (mk_line_ref true i k).

Lemma locked_holds t c c' r : R c c' → in_set i r → holds t c' r → holds t c r.
Proof.
  intros H Hr [O E]. split; [by apply (locked_occupied c c')|].
  by rewrite (lk_tag _ _ (locked_line _ _ _ H Hr)) in E.
Qed.

Lemma wp_holds_tag tot tg r Q c t :
  in_set i r →
  (∀ c' b, R c c' → (if b : bool then ∃ c1, R c c1 ∧ holds tg c1 r else ¬ holds tg c' r) →
     Q b c' t) →
  wp tot R (holds_tag tg r) Q c t.
Proof.
  intros Hr H. unfold holds_tag. repeat wp_step. intros c1 HR1.
  case_bool_decide as O.
  - repeat wp_step. intros c2 HR2. wp_step. apply H; [by etransitivity|].
    destruct (Z.eqb_spec (tag (lines c2 r)) tg) as [E|E].
    + exists c1. split; [done|]. split; [done|].
      by rewrite <-(lk_tag _ _ (locked_line _ _ _ HR2 Hr)).
    + by intros [_ ?].
  - wp_step. apply H; [done|]. by intros [? _].
Qed.

(** What the scan has established of the slots [ks] it has seen, and which can no
    longer change. *)
Record scanned (t : Z) (c0 : cache) (ks : Z → Prop) (ch : choice) (c : cache) : Prop := {
  sc_none : exist_slot_idx ch = -1 →
    ∀ k, ks k → ¬ holds t c (main k) ∧ ¬ holds t c (shadow k);
  sc_exist : exist_slot_idx ch ≠ -1 → ∃ r c1, in_set i r ∧ R c0 c1 ∧ holds t c1 r;
  sc_available : available_slot_idx ch ≠ -1 →
    in_set i (main (available_slot_idx ch)) ∧ ¬ occupied (lines c (main (available_slot_idx ch)));
  sc_full : exist_slot_idx ch = -1 → available_slot_idx ch = -1 →
    ∀ k, ks k → occupied (lines c (main k));
  sc_eviction : eviction_slot_idx ch ≠ -1 →
    in_set i (main (eviction_slot_idx ch)) ∧ occupied (lines c (main (eviction_slot_idx ch))) ∧
    ¬ pending (at_status (status (lines c (main (eviction_slot_idx ch))))) ∧
    ¬ occupied (lines c (shadow (eviction_slot_idx ch)));
}.

Lemma scanned_locked t c0 ks ch c c' :
  (∀ k, ks k → 0 ≤ k < max_cline_set_width_per_node) →
  scanned t c0 ks ch c → R c c' → scanned t c0 ks ch c'.
Proof.
  intros Hks [Hn He Ha Hf Hv] H.
  assert (∀ b k, ks k → in_set i (mk_line_ref b i k)) as Hin by (intros b k ?; split; auto).
  split; [|done|..].
  - intros E k Hk. destruct (Hn E k Hk). split; intros Hh;
      eapply (locked_holds t c c') in Hh; eauto.
  - intros E. destruct (Ha E) as [Hr O]. split; [done|]. by apply (locked_free c).
  - intros E E' k Hk. eapply (mk_occupied (lines c _)); eauto using locked_main.
  - intros E. destruct (Hv E) as (Hr & O & P & O').
    pose proof (locked_main _ _ _ H Hr eq_refl) as M. split_and!; [done|by apply M| |].
    + by rewrite (mk_stable _ _ M P).
    + by apply (locked_free c c').
Qed.

(** What a turn of the scan has seen in slot [k]. *)
Inductive slot_seen (t : Z) (c0 : cache) (k : Z) (ch : choice) (c : cache) : choice → Prop :=
| seen_tag r c1 : in_set i r → R c0 c1 → holds t c1 r →
    slot_seen t c0 k ch c (ch <| exist_slot_idx := k |>)
| seen_free : ¬ holds t c (main k) → ¬ holds t c (shadow k) → ¬ occupied (lines c (main k)) →
    slot_seen t c0 k ch c (ch <| available_slot_idx := k |>)
| seen_victim : ¬ holds t c (main k) → ¬ holds t c (shadow k) → occupied (lines c (main k)) →
    ¬ pending (at_status (status (lines c (main k)))) → ¬ occupied (lines c (shadow k)) →
    slot_seen t c0 k ch c (ch <| eviction_slot_idx := k |>)
| seen_busy : ¬ holds t c (main k) → ¬ holds t c (shadow k) → occupied (lines c (main k)) →
    slot_seen t c0 k ch c ch.

Lemma scanned_slot t c0 (ks : Z → Prop) k ch ch' c :
  scanned t c0 ks ch c → 0 ≤ k < max_cline_set_width_per_node → slot_seen t c0 k ch c ch' →
  scanned t c0 (λ k', ks k' ∨ k' = k) ch' c.
Proof.
  intros [Hn He Ha Hf Hv] Hk Hs. assert (∀ b, in_set i (mk_line_ref b i k)) as Hin by (by split).
  destruct Hs; split; cbn; try done; try lia; try (intros E k' [?| ->]; auto; done);
    try (intros E E' k' [?| ->]; auto; done); eauto 10.
Qed.

Lemma newLine_slot_seen tot t c0 ch k c th :
  0 ≤ k < max_cline_set_width_per_node → R c0 c →
  wp tot R (newLine_slot i t ch k)
    (λ ch' c' th', th' = th ∧ R c c' ∧ slot_seen t c0 k ch c' ch') c th.
Proof.
  intros Hk H0. assert (∀ b, in_set i (mk_line_ref b i k)) as Hin by (by split).
  unfold newLine_slot. wp_step.
  apply wp_orM, wp_holds_tag; [done|]. intros c1 [|] H1 Hb1.
  { wp_step. destruct Hb1 as (c' & H' & Hh). split_and!; [done..|].
    apply (seen_tag _ _ _ _ _ (main k) c'); [done|by etransitivity|done]. }
  apply wp_holds_tag; [done|]. intros c2 [|] H2 Hb2.
  { wp_step. destruct Hb2 as (c' & H' & Hh). split_and!; [done|by etransitivity|].
    apply (seen_tag _ _ _ _ _ (shadow k) c'); [done| |done].
    etransitivity; [exact H0|]. by etransitivity. }
  assert (R c c2) as H02 by (by etransitivity).
  assert (∀ c', R c2 c' → ¬ holds t c' (main k) ∧ ¬ holds t c' (shadow k)) as Hno.
  { intros c' H'. split; intros Hh.
    - apply Hb1, (locked_holds t c1 c'); [by etransitivity|done..].
    - by apply Hb2, (locked_holds t c2 c'). }
  clear Hb1 Hb2. wp_step. apply wp_is_status; [apply _|]. intros c3 H3. case_bool_decide as O.
  { wp_step. split_and!; [done|by etransitivity|]. destruct (Hno c3 H3).
    apply seen_free; [done..|]. by intros ?. }
  assert (∀ c', R c3 c' → occupied (lines c' (main k))) as Hocc.
  { intros c' H'. eapply (mk_occupied (lines c3 _)); [|done]. by apply locked_main. }
  clear O.
  assert (∀ c' ch', R c3 c' → (ch' = ch ∨ ch' = ch <| eviction_slot_idx := k |> ∧
      ¬ pending (at_status (status (lines c' (main k)))) ∧ ¬ occupied (lines c' (shadow k))) →
    th = th ∧ R c c' ∧ slot_seen t c0 k ch c' ch') as Hfin.
  { intros c' ch' H' Hch. destruct (Hno c') as [??]; [by etransitivity|].
    split_and!; [done|by do 2 (etransitivity; [eassumption|])|].
    destruct Hch as [-> | (-> & ? & ?)]; [apply seen_busy|apply seen_victim]; auto. }
  assert (∀ c', R c3 c' → ¬ pending (at_status (status (lines c' (main k)))) →
    wp tot R (is_status PRESERVED (shadow k)) (λ b ca ta,
      wp tot R (mret (if b : bool then ch <| eviction_slot_idx := k |> else ch))
        (λ ch' cb tb, tb = th ∧ R c cb ∧ slot_seen t c0 k ch cb ch') ca ta)
      c' th) as Hsh.
  { intros c' H' P. apply wp_is_status; [apply _|]. intros c5 H5. wp_step. apply Hfin; [by etransitivity|].
    case_bool_decide as E; [right|by left]. split_and!; [done| |by intros ?].
    pose proof (locked_main _ _ _ H5 (Hin false) eq_refl) as M. by rewrite (mk_stable _ _ M P). }
  wp_step. apply wp_andM, wp_orM, wp_is_status; [apply _|]. intros c4 H4. case_bool_decide as E4.
  { apply Hsh; [done|]. intros []. congruence. }
  apply wp_orM, wp_is_status; [apply _|]. intros c5 H5. case_bool_decide as E5.
  { apply Hsh; [by etransitivity|]. intros (? & ? & ?). congruence. }
  apply wp_is_status; [apply _|]. intros c6 H6. case_bool_decide as E6.
  - apply Hsh; [by do 2 (etransitivity; [eassumption|])|]. intros (? & ? & ? & ?). congruence.
  - wp_step. apply Hfin; [by do 2 (etransitivity; [eassumption|])|by left].
Qed.

Lemma newLine_scan_scanned tot t c0 js (ks : Z → Prop) ch c th :
  (∀ k, ks k → 0 ≤ k < max_cline_set_width_per_node) →
  Forall (λ k, 0 ≤ k < max_cline_set_width_per_node) js → R c0 c → scanned t c0 ks ch c →
  wp tot R (newLine_scan i t ch js) (λ ch' c' th',
    th' = th ∧ R c c' ∧ scanned t c0 (λ k, ks k ∨ k ∈ js) ch' c') c th.
Proof.
  intros Hks Hjs. revert ks ch c Hks. induction Hjs as [|j js Hj _ IH]; intros ks ch c Hks H0 Hs.
  - apply wp_ret. split_and!; [done..|]. destruct Hs as [Hn He Ha Hf Hv].
    split; try done; intros E; [|intros E']; intros k [?|Hk]; eauto; by apply not_elem_of_nil in Hk.
  - cbn. wp_step. eapply wp_mono; [|by apply (newLine_slot_seen _ _ c0)].
    intros ch1 c1 t1 (-> & H1 & Hseen). assert (R c0 c1) as H01 by (by etransitivity).
    pose proof (scanned_slot _ _ _ _ _ _ _ (scanned_locked _ _ _ _ _ _ Hks Hs H1) Hj Hseen) as Hs1.
    assert (∀ k, ks k ∨ k = j → 0 ≤ k < max_cline_set_width_per_node) as Hks1.
    { intros k [?| ->]; auto. }
    eapply wp_mono; [|apply (IH _ _ _ Hks1 H01 Hs1)].
    intros ch2 c2 t2 (-> & H2 & Hs2). split_and!; [done|by etransitivity|].
    destruct Hs2 as [Hn He Ha Hf Hv].
    split; try done; intros E; [|intros E']; intros k Hk; [apply (Hn E)|apply (Hf E E')];
      rewrite elem_of_cons in Hk; tauto.
Qed.

(** ** The writes of [newLine] *)
Definition keeps (r : line_ref) (l l' : LineInfo) : Prop :=
  if ref_shadow r then shadow_keeps l l' else main_keeps l l'.

#[local] Instance keeps_preorder r : PreOrder (keeps r).
Proof. unfold keeps. destruct (ref_shadow r); apply _. Qed.

(** The contents of a line, but for its lock and its indices. *)
Definition line_is (c : cache) (r : line_ref) (t : Z) (a : GlobalAddress) (p : Z)
    (s : AtomicTag) : Prop :=
  tag (lines c r) = t ∧ addr (lines c r) = a ∧ data (lines c r) = p ∧ status (lines c r) = s.

(** The others do not touch a line with this status. *)
Definition still (r : line_ref) (s : AtomicTag) : Prop :=
  in_set i r ∧ if ref_shadow r then at_status s = PRESERVED else ¬ pending (at_status s).

(** From [c] to [c'] this thread has changed no line of the set but [r]. *)
Definition elsewhere (r : line_ref) (c c' : cache) : Prop :=
  ∀ r' l, r' ≠ r → in_set i r' → keeps r' l (lines c r') → keeps r' l (lines c' r').

#[local] Instance elsewhere_preorder r : PreOrder (elsewhere r).
Proof. split; [by intros c r' l _ _|]. intros c c' c'' H H' r' l Hne Hr Hk. auto. Qed.

Lemma elsewhere_locked r c c' : R c c' → elsewhere r c c'.
Proof. intros [H _] r' l _ Hr' Hk. etransitivity; [exact Hk|]. by apply H. Qed.

Lemma elsewhere_put r l c : elsewhere r c (set_line r l c).
Proof. intros r' l' Hne _ Hk. by rewrite lines_set_other. Qed.

Lemma elsewhere_main r r' c c' :
  elsewhere r c c' → r' ≠ r → in_set i r' → ref_shadow r' = false →
  main_keeps (lines c r') (lines c' r').
Proof.
  intros H Hne Hr E. specialize (H r' (lines c r') Hne Hr). unfold keeps in H.
  rewrite E in H. by apply H.
Qed.

Lemma line_is_keeps r l l' s :
  keeps r l l' → still r s → status l = s →
  tag l' = tag l ∧ addr l' = addr l ∧ data l' = data l ∧ status l' = s.
Proof.
  unfold keeps, still. intros K [_ S] E. destruct (ref_shadow r).
  - destruct K as [L _]. rewrite (lk_tag _ _ L), (lk_addr _ _ L).
    destruct (lk_preserved _ _ L) as [-> ->]; [by rewrite E|]. done.
  - rewrite (lk_tag _ _ (mk_line _ _ K)), (lk_addr _ _ (mk_line _ _ K)), (mk_data _ _ K),
      (mk_stable _ _ K); [done|]. by rewrite E.
Qed.

Lemma line_is_elsewhere c c' r r' t a p s :
  elsewhere r' c c' → r ≠ r' → still r s → line_is c r t a p s → line_is c' r t a p s.
Proof.
  intros H Hne Hs (<- & <- & <- & E). destruct Hs as [Hr Hs].
  destruct (line_is_keeps r (lines c r) (lines c' r) s) as (?&?&?&?); [by apply H; [..|reflexivity]|by split|done|].
  done.
Qed.

Lemma line_is_locked c c' r t a p s :
  still r s → line_is c r t a p s → R c c' → line_is c' r t a p s.
Proof.
  intros Hs (<- & <- & <- & E) [H _].
  destruct (line_is_keeps r (lines c r) (lines c' r) s) as (?&?&?&?); [by apply H, Hs|done..|].
  done.
Qed.

(** A write to the line [r]. *)
Lemma wp_put_line tot r t a p s f t' a' p' s' Q c th :
  line_is c r t a p s → still r s →
  (∀ l, tag l = t → addr l = a → data l = p → status l = s →
     tag (f l) = t' ∧ addr (f l) = a' ∧ data (f l) = p' ∧ status (f l) = s') →
  (∀ c', line_is c' r t' a' p' s' →
     available_data_stack c' u = available_data_stack c u → elsewhere r c c' → Q () c' th) →
  wp tot R (line_put f r) Q c th.
Proof.
  intros Hl Hst Hf HQ. wp_step. intros c1 H1.
  pose proof (line_is_locked _ _ _ _ _ _ _ Hst Hl H1) as Hl1.
  destruct (Hf (lines c1 r)) as (E1 & E2 & E3 & E4); [by apply Hl1..|].
  apply HQ; [|apply H1|].
  - unfold line_is. by rewrite lines_set_same.
  - etransitivity; [by apply elsewhere_locked|apply elsewhere_put].
Qed.

(** A read of the line [r]. *)
Lemma wp_get_line {A} tot (g : LineInfo → A) r r' t a p s Q c th :
  line_is c r t a p s → still r s →
  (∀ c' l, tag l = t → addr l = a → data l = p → status l = s → line_is c' r t a p s →
     available_data_stack c' u = available_data_stack c u → elsewhere r' c c' →
     R c c' → Q (g l) c' th) →
  wp tot R (line_get g r) Q c th.
Proof.
  intros Hl Hst HQ. wp_step. intros c1 H1.
  pose proof (line_is_locked _ _ _ _ _ _ _ Hst Hl H1) as Hl1.
  pose proof Hl1 as (?&?&?&?). apply HQ; try done; [apply H1|by apply elsewhere_locked].
Qed.

Ltac line_fields :=
  let l := fresh "l" in intros l ? ? ? ?; split_and!; cbn; first [reflexivity|eassumption].

Lemma newLine_fill_spec tot r a t0 a0 p0 s0 p s c th Q :
  req_appt_id th = u → ref_shadow r = false → in_set i r → ¬ pending (at_status s0) →
  line_is c r t0 a0 p0 s0 → available_data_stack c u = p :: s →
  (∀ c', line_is c' r (getTag a) a p (mk_AtomicTag false INVALID) →
     available_data_stack c' u = s → elsewhere r c c' → Q () c' th) →
  wp tot R (newLine_fill a r) Q c th.
Proof.
  intros Hu Hm Hr Hp Hl Hs HQ. unfold newLine_fill.
  assert (∀ s, ¬ pending (at_status s) → still r s) as Hstill.
  { intros s' ?. split; [done|]. by rewrite Hm. }
  wp_step. eapply wp_put_line; [done|by apply Hstill|line_fields|].
  intros c1 L1 S1 X1.
  wp_step. eapply wp_put_line; [done|by apply Hstill|line_fields|].
  intros c2 L2 S2 X2.
  wp_step. unfold data_stack_back. repeat wp_step. intros c3 R3.
  assert (available_data_stack c3 (req_appt_id th) = p :: s) as S3.
  { rewrite Hu, (proj2 R3). congruence. }
  rewrite S3. eapply wp_deref; [done|].
  pose proof (line_is_locked _ _ _ _ _ _ _ (Hstill _ Hp) L2 R3) as L3.
  wp_step. eapply wp_put_line; [done|by apply Hstill|line_fields|].
  intros c4 L4 S4 X4.
  wp_step. eapply wp_put_line; [done|by apply Hstill|line_fields|].
  intros c5 L5 S5 X5. unfold data_stack_pop_back. repeat wp_step. intros c6 R6.
  assert (still r (mk_AtomicTag false INVALID)) as Hst6 by (apply Hstill; by intros []).
  apply HQ.
  - by apply (line_is_locked _ _ _ _ _ _ _ Hst6 L5) in R6.
  - cbn. rewrite Hu, Z.eqb_refl, (proj2 R6). rewrite Hu in S3. cbn in S4. by rewrite S5, S4, S3.
  - intros r' l Hne Hr' Hk. apply (elsewhere_locked r _ _ R6); [done..|].
    apply X5, X4, (elsewhere_locked r _ _ R3), X2, X1; done.
Qed.

Lemma newLine_shadow_spec tot r k t0 a0 p0 s0 t1 a1 p1 c th Q :
  r = main k → in_set i r → ¬ pending (at_status s0) →
  line_is c r t0 a0 p0 s0 → line_is c (shadow k) t1 a1 p1 (mk_AtomicTag false PRESERVED) →
  (∀ c', line_is c' r t0 a0 p0 s0 →
     line_is c' (shadow k) t0 a0 p0 (mk_AtomicTag false (at_status s0)) →
     available_data_stack c' u = available_data_stack c u → elsewhere (shadow k) c c' →
     Q () c' (th <| start_next_evict_cline_flag := true |>
                 <| next_evict_cline := Some (shadow k) |>)) →
  wp tot R (newLine_shadow r (shadow k)) Q c th.
Proof.
  intros -> Hr Hp Hl Hs HQ. unfold newLine_shadow.
  assert (still (main k) s0) as Hm by done.
  assert (still (shadow k) (mk_AtomicTag false PRESERVED)) as Hsh by done.
  assert (main k ≠ shadow k) as Hne by done.
  assert (∀ ca cb s, elsewhere (shadow k) ca cb → line_is ca (main k) t0 a0 p0 s0 → s = s0 →
    line_is cb (main k) t0 a0 p0 s0) as Hkeep.
  { intros ca cb s X L _. by apply (line_is_elsewhere ca cb (main k) (shadow k)). }
  wp_step. eapply (wp_get_line _ _ _ (shadow k)); [exact Hl|done|].
  intros c1 l1 <- _ _ _ L1 S1 X1 R1. pose proof (line_is_locked _ _ _ _ _ _ _ Hsh Hs R1) as Hs1.
  wp_step. eapply wp_put_line; [exact Hs1|done|line_fields|]. intros c2 K2 S2 X2.
  pose proof (Hkeep _ _ _ X2 L1 eq_refl) as L2.
  wp_step. eapply (wp_get_line _ _ _ (shadow k)); [exact L2|done|].
  intros c3 l3 _ <- _ _ L3 S3 X3 R3. pose proof (line_is_locked _ _ _ _ _ _ _ Hsh K2 R3) as K3.
  wp_step. eapply wp_put_line; [exact K3|done|line_fields|]. intros c4 K4 S4 X4.
  pose proof (Hkeep _ _ _ X4 L3 eq_refl) as L4.
  wp_step. eapply (wp_get_line _ _ _ (shadow k)); [exact L4|done|].
  intros c5 l5 _ _ <- _ L5 S5 X5 R5. pose proof (line_is_locked _ _ _ _ _ _ _ Hsh K4 R5) as K5.
  wp_step. eapply wp_put_line; [exact K5|done|line_fields|]. intros c6 K6 S6 X6.
  pose proof (Hkeep _ _ _ X6 L5 eq_refl) as L6.
  wp_step. eapply (wp_get_line _ _ _ (shadow k)); [exact L6|done|].
  intros c7 l7 _ _ _ <- L7 S7 X7 R7. pose proof (line_is_locked _ _ _ _ _ _ _ Hsh K6 R7) as K7.
  wp_step. eapply wp_put_line; [exact K7|done|line_fields|]. intros c8 K8 S8 X8.
  pose proof (Hkeep _ _ _ X8 L7 eq_refl) as L8.
  wp_step. apply HQ; [done..|congruence|]. by repeat (etransitivity; [eassumption|]).
Qed.

(** ** The set after [newLine] *)
Lemma set_wf_origin c c' r a p s pre (o : line_ref → line_ref) :
  set_wf i u c → in_set i r → calLineSet (getTag a) = i →
  line_is c' r (getTag a) a p s → flag_ok s → p ≠ 0 →
  (∀ r', in_set i r' → ¬ holds (getTag a) c r') →
  (∀ r', in_set i r' → r' ≠ r → occupied (lines c' r') →
     in_set i (o r') ∧ occupied (lines c (o r')) ∧ tag (lines c' r') = tag (lines c (o r')) ∧
     addr (lines c' r') = addr (lines c (o r')) ∧ data (lines c (o r')) ≠ p ∧
     if ref_shadow r' then data (lines c' r') = data (lines c (o r')) ∨ data (lines c' r') = 0
     else data (lines c' r') = data (lines c (o r')) ∧ ref_shadow (o r') = false) →
  (∀ r1 r2, in_set i r1 → in_set i r2 → r1 ≠ r → r2 ≠ r → occupied (lines c' r1) →
     occupied (lines c' r2) → o r1 = o r2 → r1 = r2) →
  (∀ r', in_set i r' → r' ≠ r → flag_ok (status (lines c' r'))) →
  available_data_stack c u = pre ++ available_data_stack c' u →
  p ∉ available_data_stack c' u →
  set_wf i u c'.
Proof.
  intros W Hr Hi (Lt & La & Lp & Ls) Hf Hp Hno Ho Hinj Hfl Hst Hps.
  destruct (sw_free _ _ _ W) as (Hnd & H0 & Hd). rewrite Hst in Hnd, H0, Hd.
  apply NoDup_app in Hnd as (_ & _ & Hnd). rewrite elem_of_app in H0.
  assert (∀ r', in_set i r' → r' ≠ r → occupied (lines c' r') →
    data (lines c' r') = data (lines c (o r')) ∨ data (lines c' r') = 0) as Hdat.
  { intros r' Hr' Hn O. destruct (Ho r' Hr' Hn O) as (_ & _ & _ & _ & _ & D).
    destruct (ref_shadow r'); [done|]. left. apply D. }
  assert (∀ r', in_set i r' → r' ≠ r → occupied (lines c' r') →
    tag (lines c' r') ≠ getTag a ∧ data (lines c' r') ≠ p) as Hfresh.
  { intros r' Hr' Hn O. destruct (Ho r' Hr' Hn O) as (Hi' & O' & T & _ & D & _). split.
    - rewrite T. intros E. by apply (Hno _ Hi').
    - destruct (Hdat r' Hr' Hn O) as [-> | ->]; [done|]. by intros <-. }
  split.
  - intros r1 r2 H1 H2 O1 O2 E. destruct (decide (r1 = r)) as [->|N1], (decide (r2 = r)) as [->|N2].
    + done.
    + destruct (Hfresh r2) as [HT HD]; [done..|congruence].
    + destruct (Hfresh r1) as [HT HD]; [done..|congruence].
    + apply Hinj; try done. destruct (Ho r1) as (?&?&T1&_), (Ho r2) as (?&?&T2&_); try done.
      apply (sw_tag _ _ _ W); try done. congruence.
  - intros r1 r2 H1 H2 O1 O2 E Hn0.
    destruct (decide (r1 = r)) as [->|N1], (decide (r2 = r)) as [->|N2].
    + done.
    + destruct (Hfresh r2) as [HT HD]; [done..|congruence].
    + destruct (Hfresh r1) as [HT HD]; [done..|congruence].
    + apply Hinj; try done. destruct (Ho r1) as (?&?&_), (Ho r2) as (?&?&_); try done.
      destruct (Hdat r1), (Hdat r2); try done; try congruence.
      apply (sw_data _ _ _ W); try done; congruence.
  - intros r' Hr' O Hm. destruct (decide (r' = r)) as [->|N]; [congruence|].
    destruct (Ho r' Hr' N O) as (?&?&_&_&_&D). rewrite Hm in D. destruct D as [-> ?].
    by apply (sw_main _ _ _ W).
  - split_and!; [done|tauto|]. intros r' Hr' O. destruct (decide (r' = r)) as [->|N]; [congruence|].
    destruct (Hdat r' Hr' N O) as [-> | ->]; [|tauto].
    destruct (Ho r' Hr' N O) as (?&?&_). intros Hin. apply (Hd (o r')); [done..|].
    apply elem_of_app. auto.
  - intros r' Hr'. destruct (decide (r' = r)) as [->|N]; [by rewrite Ls|by apply Hfl].
  - intros r' Hr' O. destruct (decide (r' = r)) as [->|N]; [by rewrite Lt, La|].
    destruct (Ho r' Hr' N O) as (?&?&->&->&_). by apply (sw_addr _ _ _ W).
Qed.

(** How a new line gets its slot, from the state [c] in which the choice is made. *)
Inductive new_line (c : cache) (th : thread) (c' : cache) : line_ref → thread → Prop :=
| new_free k :
    ¬ occupied (lines c (main k)) → shadow_keeps (lines c (shadow k)) (lines c' (shadow k)) →
    new_line c th c' (main k) th
| new_reuse k :
    at_status (status (lines c (main k))) = INVALID →
    shadow_keeps (lines c (shadow k)) (lines c' (shadow k)) →
    new_line c th c' (main k) th
| new_evict k l :
    at_status (status (lines c (main k))) = SHARED ∨
      at_status (status (lines c (main k))) = MODIFIED →
    tag l = tag (lines c (main k)) → addr l = addr (lines c (main k)) →
    data l = data (lines c (main k)) → status l = status (lines c (main k)) →
    shadow_keeps l (lines c' (shadow k)) →
    new_line c th c' (main k) (th <| start_next_evict_cline_flag := true |>
                                  <| next_evict_cline := Some (shadow k) |>).

Definition newLine_post (a : GlobalAddress) (c : cache) (th : thread)
    (new : option line_ref) (c' : cache) (th' : thread) : Prop :=
  set_wf i u c' ∧
  match new with
  | Some r => ∃ c1 p, R c c1 ∧ new_line c1 th c' r th' ∧ in_set i r ∧
      line_is c' r (getTag a) a p (mk_AtomicTag false INVALID) ∧
      (∀ r', in_set i r' → ref_shadow r' = false → r' ≠ r →
         main_keeps (lines c1 r') (lines c' r')) ∧
      (∀ r', in_set i r' → ref_shadow r' = true → ref_slot r' ≠ ref_slot r →
         shadow_keeps (lines c1 r') (lines c' r'))
  | None => th' = th ∧ R c c' ∧
      ((∃ r c1, in_set i r ∧ R c c1 ∧ holds (getTag a) c1 r) ∨
       (∀ k, 0 ≤ k < max_cline_set_width_per_node → occupied (lines c' (main k))))
  end.

(** The outcome, from the state [c1] after the scan, for a slot that is filled with
    the first free buffer or keeps its own. *)
Lemma newLine_placed a c c1 c' th k p pre :
  set_wf i u c1 → R c c1 → in_set i (main k) → calLineSet (getTag a) = i →
  (∀ r, in_set i r → ¬ holds (getTag a) c1 r) →
  line_is c' (main k) (getTag a) a p (mk_AtomicTag false INVALID) → elsewhere (main k) c1 c' → p ≠ 0 →
  (∀ r, in_set i r → r ≠ main k → occupied (lines c1 r) → data (lines c1 r) ≠ p) →
  available_data_stack c1 u = pre ++ available_data_stack c' u →
  p ∉ available_data_stack c' u →
  ¬ occupied (lines c1 (main k)) ∨ at_status (status (lines c1 (main k))) = INVALID →
  newLine_post a c th (Some (main k)) c' th.
Proof.
  intros W H1 Hr Hi Hno L X Hp0 Hd Hst Hps Hcase.
  assert (∀ r', in_set i r' → r' ≠ main k → keeps r' (lines c1 r') (lines c' r')) as HX.
  { intros r' Hr' Hne. apply X; [done..|reflexivity]. }
  assert (∀ r', in_set i r' → r' ≠ main k → line_keeps (lines c1 r') (lines c' r')) as HL.
  { intros r' Hr' Hne. specialize (HX r' Hr' Hne). unfold keeps in HX.
    by destruct (ref_shadow r'), HX. }
  split.
  - apply (set_wf_origin c1 c' (main k) a p (mk_AtomicTag false INVALID) pre id); try done.
    + intros r' Hr' Hne O. cbn.
      assert (occupied (lines c1 r')) as O1.
      { intros E. destruct (lk_preserved _ _ (HL r' Hr' Hne) E) as [E' _].
        apply O. by rewrite E'. }
      destruct (HL r' Hr' Hne) as [-> -> _ _]. split_and!; [done..|by apply Hd|].
      specialize (HX r' Hr' Hne). unfold keeps in HX. destruct (ref_shadow r'); [apply (sk_data _ _ HX)|].
      split; [apply (mk_data _ _ HX)|done].
    + intros r' Hr' Hne. apply (lk_flag _ _ (HL r' Hr' Hne)), (sw_flag _ _ _ W r' Hr').
  - exists c1, p. split_and!; try done.
    + assert (shadow_keeps (lines c1 (shadow k)) (lines c' (shadow k))) as Hs by by apply (HX (shadow k)).
      destruct Hcase; [by apply new_free|by apply new_reuse].
    + intros r' Hr' E Hne. specialize (HX r' Hr' Hne). unfold keeps in HX. by rewrite E in HX.
    + intros r' Hr' E Hne. specialize (HX r' Hr'). unfold keeps in HX. rewrite E in HX.
      apply HX. by intros ->.
Qed.

Lemma newLine_evicted a c c1 c2 c' th k p s :
  set_wf i u c1 → R c c1 → in_set i (main k) → calLineSet (getTag a) = i →
  (∀ r, in_set i r → ¬ holds (getTag a) c1 r) →
  at_status (status (lines c1 (main k))) = SHARED ∨
    at_status (status (lines c1 (main k))) = MODIFIED →
  ¬ occupied (lines c1 (shadow k)) →
  line_is c2 (shadow k) (tag (lines c1 (main k))) (addr (lines c1 (main k)))
    (data (lines c1 (main k))) (status (lines c1 (main k))) →
  elsewhere (shadow k) c1 c2 →
  line_is c' (main k) (getTag a) a p (mk_AtomicTag false INVALID) → elsewhere (main k) c2 c' →
  available_data_stack c1 u = p :: s → available_data_stack c' u = s →
  newLine_post a c th (Some (main k)) c' (th <| start_next_evict_cline_flag := true |>
                                             <| next_evict_cline := Some (shadow k) |>).
Proof.
  intros W H1 Hr Hi Hno Hs Hsh L2 X2 L' X' Hst Hst'.
  destruct (sw_free _ _ _ W) as (Hnd & H0 & Hd). rewrite Hst in Hnd, H0, Hd.
  apply NoDup_cons in Hnd as [Hps _].
  assert (keeps (shadow k) (lines c2 (shadow k)) (lines c' (shadow k))) as Ksh.
  { apply X'; [done..|reflexivity]. }
  assert (∀ r', in_set i r' → r' ≠ main k → r' ≠ shadow k →
    keeps r' (lines c1 r') (lines c' r')) as HX.
  { intros r' Hr' Hne Hne'. apply X'; [done..|]. apply X2; [done..|reflexivity]. }
  destruct L2 as (T2 & A2 & D2 & S2).
  assert (occupied (lines c1 (main k))) as Om.
  { unfold occupied. by destruct Hs as [-> | ->]. }
  assert (∀ r', in_set i r' → r' ≠ main k → r' ≠ shadow k → line_keeps (lines c1 r') (lines c' r')) as HL.
  { intros r' Hr' Hne Hne'. specialize (HX r' Hr' Hne Hne'). unfold keeps in HX.
    by destruct (ref_shadow r'), HX. }
  split.
  - apply (set_wf_origin c1 c' (main k) a p (mk_AtomicTag false INVALID) [p]
      (λ r, if decide (r = shadow k) then main k else r)); try done.
    + intros ->. by apply H0, elem_of_cons; left.
    + intros r' Hr' Hne O. destruct (decide (r' = shadow k)) as [->|Hne'].
      * destruct Ksh as [[-> -> _ _] Dk]. rewrite T2, A2, <-D2. split_and!; [done..| |done].
        rewrite D2. intros E. apply (Hd (main k)); [done..|]. rewrite E. by apply elem_of_cons; left.
      * assert (occupied (lines c1 r')) as O1.
        { intros E. destruct (lk_preserved _ _ (HL r' Hr' Hne Hne') E) as [E' _].
          apply O. by rewrite E'. }
        destruct (HL r' Hr' Hne Hne') as [-> -> _ _]. split_and!; [done..| |].
        { intros E. apply (Hd r'); [done..|]. rewrite E. by apply elem_of_cons; left. }
        specialize (HX r' Hr' Hne Hne'). unfold keeps in HX. destruct (ref_shadow r'); [apply (sk_data _ _ HX)|].
        split; [apply (mk_data _ _ HX)|done].
    + intros r1 r2 _ _ N1 N2 _ _.
      destruct (decide (r1 = shadow k)), (decide (r2 = shadow k)); congruence.
    + intros r' Hr' Hne. destruct (decide (r' = shadow k)) as [->|Hne'].
      * destruct Ksh as [Lk _]. apply (lk_flag _ _ Lk). rewrite S2. by apply (sw_flag _ _ _ W).
      * apply (lk_flag _ _ (HL r' Hr' Hne Hne')), (sw_flag _ _ _ W r' Hr').
    + by rewrite Hst, Hst'.
    + by rewrite Hst'.
  - exists c1, p. split_and!; try done.
    + by apply (new_evict _ _ _ k (lines c2 (shadow k))).
    + intros r' Hr' E Hne. specialize (HX r' Hr' Hne). unfold keeps in HX. rewrite E in HX.
      apply HX. by intros ->.
    + intros r' Hr' E Hne. specialize (HX r' Hr'). unfold keeps in HX. rewrite E in HX.
      apply HX; by intros ->.
Qed.

Lemma no_flag s : flag_ok s → ¬ (at_status s = TO_SHARED ∨ at_status s = TO_MODIFIED ∨
  at_status s = TO_PRESERVED) → s = mk_AtomicTag false (at_status s).
Proof. destruct s as [[] s]; [|done]. intros H Hn. by destruct Hn; apply H. Qed.

Lemma newLine_evict_spec tot a c c1 th k t p s :
  set_wf i u c → R c c1 → in_set i (main k) → calLineSet (getTag a) = i → req_appt_id th = u →
  (∀ r, in_set i r → ¬ holds (getTag a) c1 r) →
  occupied (lines c1 (main k)) → ¬ pending (at_status (status (lines c1 (main k)))) →
  ¬ occupied (lines c1 (shadow k)) → available_data_stack c1 u = p :: s → t = th →
  wp tot R (s ← getStatus (main k);
    (if bool_decide (s = INVALID) then
       line_put (λ l, l <| tag := getTag a |>) (main k);;
       line_put (λ l, l <| addr := a |>) (main k)
     else newLine_shadow (main k) (shadow k);; newLine_fill a (main k));;
    mret (Some (main k))) (newLine_post a c th) c1 t.
Proof.
  intros W H1 Hr Hi Hu Hno Ho Hp Hsh Hst ->.
  pose proof (set_wf_locked _ _ W H1) as W1.
  assert (still (main k) (status (lines c1 (main k)))) as Hm by done.
  assert (line_is c1 (main k) (tag (lines c1 (main k))) (addr (lines c1 (main k)))
    (data (lines c1 (main k))) (status (lines c1 (main k)))) as L1 by done.
  wp_step. eapply (wp_get_line _ _ _ (main k)); [exact L1|done|].
  intros c2 l _ _ _ El L2 S2 _ R2. rewrite El. clear l El.
  assert (∀ r, in_set i r → ¬ holds (getTag a) c2 r) as Hno2.
  { intros r Hr' Hh. apply (Hno r Hr'). by apply (locked_holds _ _ c2). }
  pose proof (set_wf_locked _ _ W1 R2) as W2.
  assert (R c c2) as H2 by (by etransitivity).
  pose proof (locked_free _ _ _ R2 (Hr : in_set i (shadow k)) Hsh) as Hsh2.
  destruct L2 as (T2 & A2 & D2 & E2). rewrite <-E2 in Hm, Hp |- *. 
  assert (occupied (lines c2 (main k))) as Ho2.
  { unfold occupied. rewrite E2. exact Ho. }
  assert (line_is c2 (main k) (tag (lines c2 (main k))) (addr (lines c2 (main k)))
    (data (lines c2 (main k))) (status (lines c2 (main k)))) as L2 by done.
  rewrite <-S2 in Hst. clear c1 H1 R2 W1 Hno Ho Hsh L1 T2 A2 D2 E2 S2.
  destruct (sw_free _ _ _ W2) as (Hnd & H0 & Hd). wp_step. case_bool_decide as Ei.
  - wp_step. eapply wp_put_line; [exact L2|done|line_fields|]. intros c3 L3 S3 X3.
    eapply wp_put_line; [exact L3|done|line_fields|]. intros c4 L4 S4 X4. wp_step.
    assert (status (lines c2 (main k)) = mk_AtomicTag false INVALID) as Es.
    { rewrite (no_flag (status _)); [by rewrite Ei|by apply (sw_flag _ _ _ W2)|].
      rewrite Ei. intuition congruence. }
    rewrite Es in L4.
    apply (newLine_placed a c c2 c4 th k (data (lines c2 (main k))) []); try done.
    + by etransitivity.
    + by apply (sw_main _ _ _ W2).
    + intros r Hr' Hne O E. apply Hne. apply (sw_data _ _ _ W2); try done.
      rewrite E. by apply (sw_main _ _ _ W2).
    + by rewrite S4, S3.
    + rewrite S4, S3. by apply Hd.
    + by right.
  - assert (at_status (status (lines c2 (main k))) = SHARED ∨
      at_status (status (lines c2 (main k))) = MODIFIED) as Hs.
    { unfold pending in Hp. unfold occupied in Ho2. revert Hp Ho2 Ei.
      destruct (at_status _); intuition congruence. }
    assert (line_is c2 (shadow k) (tag (lines c2 (shadow k))) (addr (lines c2 (shadow k)))
      (data (lines c2 (shadow k))) (mk_AtomicTag false PRESERVED)) as Ls.
    { assert (at_status (status (lines c2 (shadow k))) = PRESERVED) as E.
      { unfold occupied in Hsh2. destruct (decide (at_status (status (lines c2 (shadow k))) = PRESERVED)); tauto. }
      split_and!; [done..|]. rewrite (no_flag (status _)); [by rewrite E| |].
      - by apply (sw_flag _ _ _ W2).
      - rewrite E. intuition congruence. }
    wp_step. eapply newLine_shadow_spec; [done..|exact L2|exact Ls|].
    intros c3 L3 K3 S3 X3.
    assert (status (lines c2 (main k)) =
      mk_AtomicTag false (at_status (status (lines c2 (main k))))) as Es.
    { apply no_flag; [by apply (sw_flag _ _ _ W2)|]. destruct Hs as [-> | ->]; intuition congruence. }
    rewrite <-Es in K3.
    eapply (newLine_fill_spec _ (main k) a _ _ _ _ p s); [done|done|done|exact Hp|exact L3|congruence|].
    intros c4 L4 S4 X4. wp_step. rewrite Hst in Hnd, H0, Hd.
    by apply (newLine_evicted a c c2 c3 c4 th k p s).
Qed.

Lemma slots_range : Forall (λ k, 0 ≤ k < max_cline_set_width_per_node) slots.
Proof. by vm_compute; repeat constructor. Qed.

Lemma elem_of_slots k : 0 ≤ k < max_cline_set_width_per_node → k ∈ slots.
Proof. intros. unfold slots. apply elem_of_seqZ. lia. Qed.

Lemma newLine_spec a c th :
  set_wf i u c → calLineSet (getTag a) = i → req_appt_id th = u →
  available_data_stack c u ≠ [] →
  wp true R (newLine i a) (newLine_post a c th) c th.
Proof.
  intros W Hi Hu Hst. unfold newLine. wp_step.
  eapply wp_mono; [|apply (newLine_scan_scanned _ _ c slots (λ _, False)); [done|apply slots_range|done|]];
    [|split; cbn; try done; lia].
  intros ch c1 t (-> & H1 & Hsc). pose proof (set_wf_locked _ _ W H1) as W1.
  assert (∀ k, 0 ≤ k < max_cline_set_width_per_node → False ∨ k ∈ slots) as Hall.
  { intros k Hk. right. by apply elem_of_slots. }
  destruct ch as [e av ev], Hsc as [Hn He Ha Hf Hv]. cbn in *.
  destruct (Z.eqb_spec e (-1)) as [->|Ne]; cbn.
  2:{ wp_step. split; [done|]. split_and!; [done..|]. left. by apply He. }
  assert (∀ r, in_set i r → ¬ holds (getTag a) c1 r) as Hno.
  { intros [b j x] [E Hx]. cbn in *. subst j. destruct (Hn eq_refl x (Hall x Hx)). by destruct b. }
  destruct (Z.eqb_spec av (-1)) as [->|Na]; cbn.
  - destruct (Z.eqb_spec ev (-1)) as [->|Nv]; cbn.
    { wp_step. split; [done|]. split_and!; [done..|]. right. intros k Hk. apply Hf; auto. }
    wp_step. wp_step. destruct (Hv Nv) as (Hr & Ho & Hp & Hsh).
    destruct (available_data_stack c1 u) as [|p s] eqn:E; [by rewrite (proj2 H1) in E|].
    by apply (newLine_evict_spec _ a c c1 th ev th p s).
  - unfold data_stack_size. repeat wp_step. intros c2 H2. repeat wp_step. cbn.
    destruct (available_data_stack c1 u) as [|p s] eqn:E; [by rewrite (proj2 H1) in E|].
    assert (available_data_stack c2 u = p :: s) as E2 by (by rewrite (proj2 H2)).
    rewrite Hu, E2. cbn -[Z.of_nat]. destruct (Z.leb_spec 1 (Z.of_nat (S (length s)))) as [_|?]; [|lia].
    destruct (Ha Na) as [Hr Hfree]. pose proof (locked_free _ _ _ H2 Hr Hfree) as Hfree2.
    assert (R c c2) as H02 by (by etransitivity). pose proof (set_wf_locked _ _ W H02) as W2.
    assert (∀ r, in_set i r → ¬ holds (getTag a) c2 r) as Hno2.
    { intros r Hr' Hh. apply (Hno r Hr'). by apply (locked_holds _ _ c2). }
    wp_step. eapply (newLine_fill_spec _ (main av) a _ _ _ _ p s); [done..| |done|done|].
    { unfold occupied, pending in *. tauto. }
    intros c3 L3 S3 X3. wp_step.
    destruct (sw_free _ _ _ W2) as (Hnd & H0 & Hd). rewrite E2 in Hnd, H0, Hd.
    apply NoDup_cons in Hnd as [Hps _].
    apply (newLine_placed a c c2 c3 th av p [p]); try done.
    + intros ->. by apply H0, elem_of_cons; left.
    + intros r Hr' _ O Ed. apply (Hd r); [done..|]. rewrite Ed. by apply elem_of_cons; left.
    + by rewrite E2, S3.
    + by rewrite S3.
    + by left.
Qed.
End locked_set.

(** ** Without interference

    The rely [eq]: what the others do does not change the state. *)
Lemma find_slot_spec tot b i t js c th Q :
  (∀ o, match o with
        | Some r => ∃ k, k ∈ js ∧ r = mk_line_ref b i k ∧ holds t c r
        | None => ∀ k, k ∈ js → ¬ holds t c (mk_line_ref b i k)
        end → Q o c th) →
  wp tot eq (find_slot b i t js) Q c th.
Proof.
  revert Q. induction js as [|j js IH]; intros Q HQ; cbn.
  - apply wp_ret, HQ. intros k Hk. by apply not_elem_of_nil in Hk.
  - repeat wp_step. intros c1 <-. repeat wp_step. intros c2 <-.
    assert (holds t c (mk_line_ref b i j) ∨ ¬ holds t c (mk_line_ref b i j)) as [H|H].
    { unfold holds, occupied. destruct (decide (at_status (status (lines c (mk_line_ref b i j))) = PRESERVED)),
        (decide (tag (lines c (mk_line_ref b i j)) = t)); tauto. }
    + destruct H as [O E]. rewrite bool_decide_true, E, Z.eqb_refl by done.
      apply wp_ret, HQ. exists j. split_and!; [by apply elem_of_cons; left|done..].
    + assert (bool_decide (at_status (status (lines c (mk_line_ref b i j))) ≠ PRESERVED) &&
        (tag (lines c (mk_line_ref b i j)) =? t) = false) as ->.
      { apply andb_false_iff. unfold holds in H. case_bool_decide; [right|by left].
        apply Z.eqb_neq. tauto. }
      apply IH. intros [r|] Hr; apply HQ.
      * destruct Hr as (k & Hk & ?). exists k. split; [by apply elem_of_cons; right|done].
      * intros k [->|Hk]%elem_of_cons; auto.
Qed.

(** At most one line of the set has the tag. *)
Definition tag_unique (t : Z) (c : cache) : Prop :=
  ∀ r r', in_set (calLineSet t) r → in_set (calLineSet t) r' → holds t c r → holds t c r' → r = r'.

Lemma in_slots b i k : k ∈ slots → in_set i (mk_line_ref b i k).
Proof. unfold slots. intros Hk%elem_of_seqZ. split; cbn; lia. Qed.

Lemma with_set_lock_spec tot f i k k' c th Q :
  cline_set_rwlock_vector c i = k → f k = Some k' →
  Q () (c <| cline_set_rwlock_vector := λ j, if j =? i then k' else cline_set_rwlock_vector c j |>) th →
  wp tot eq (with_set_lock f i) Q c th.
Proof.
  intros Hk Hf HQ. apply wp_await; [apply _| |].
  - intros _ c' <-. rewrite Hk. cbn. by rewrite Hf.
  - intros c' [] c'' <- E. rewrite Hk in E. cbn in E. rewrite Hf in E. by injection E as <-.
Qed.

(** Two states with the same contents. *)
Definition same_cache (c c' : cache) : Prop :=
  (∀ r, lines c' r = lines c r) ∧
  (∀ i, cline_set_rwlock_vector c' i = cline_set_rwlock_vector c i) ∧
  available_data_stack c' = available_data_stack c ∧ memory c' = memory c.

Lemma rUnlock_rLock k k' : fits 16 k → rLock_word k = Some k' → rUnlock_word k' = k.
Proof.
  unfold rLock_word, rUnlock_word, wrap, fits. intros H. destruct (_ =? _); [done|].
  intros [= <-]. divlia.
Qed.

(** ** The initial sets *)
Lemma deal_inv appt_num ptrs stacks :
  NoDup ptrs → (∀ u, NoDup (stacks u)) → (∀ u p, p ∈ stacks u → p ∉ ptrs) →
  ∀ u, NoDup (deal appt_num ptrs stacks u) ∧
    ∀ p, p ∈ deal appt_num ptrs stacks u → p ∈ stacks u ∨ p ∈ ptrs.
Proof.
  unfold deal. generalize 0 as i. revert stacks.
  induction ptrs as [|q ptrs IH]; intros stacks i Hnd Hs Hd u; cbn; [by auto|].
  apply NoDup_cons in Hnd as [Hq Hnd].
  assert (∀ v p, p ∈ (if v =? i then q :: stacks v else stacks v) → p = q ∨ p ∈ stacks v) as Hin.
  { intros v p. destruct (_ =? _); [|auto]. by rewrite elem_of_cons. }
  destruct (IH (λ v, if v =? i then q :: stacks v else stacks v) ((i + 1) mod appt_num) Hnd)
    with (u := u) as [Hnd' Hin'].
  - intros v. destruct (_ =? _); [|done]. apply NoDup_cons. split; [|done].
    intros Hv. apply (Hd v q Hv), elem_of_cons. by left.
  - intros v p [->|Hv]%Hin; [done|]. intros Hp. apply (Hd v p Hv), elem_of_cons. by right.
  - split; [done|]. intros p Hp. rewrite elem_of_cons.
    destruct (Hin' p Hp) as [[->|?]%Hin|?]; auto.
Qed.

Lemma initLine_wf appt_num ptrs c c' i u :
  initLine appt_num ptrs c = Some c' → NoDup ptrs → 0 ∉ ptrs →
  (∀ u, available_data_stack c u = []) → 0 ≤ i < max_cline_set_depth_per_node →
  set_wf i u c'.
Proof.
  intros E Hnd H0 Hst Hi. unfold initLine in E. destruct (head _); [|done]. injection E as <-.
  destruct (deal_inv appt_num ptrs (available_data_stack c) Hnd) with (u := u) as [Hd Hin].
  { intros v. rewrite Hst. constructor. }
  { intros v p. rewrite Hst. by intros ?%not_elem_of_nil. }
  assert (∀ r, in_set i r → line_ref_ok r = true) as Hok.
  { intros r [<- Hr]. unfold line_ref_ok. rewrite !andb_true_iff, !Z.leb_le, !Z.ltb_lt. lia. }
  split; cbn -[init_line_info]; try (intros r r' Hr _ O; by rewrite (Hok r Hr) in O);
    try (intros r Hr O; by rewrite (Hok r Hr) in O).
  - split_and!; [done| |].
    + intros [H|H]%Hin; [|done]. rewrite Hst in H. by apply not_elem_of_nil in H.
    + intros r Hr O. by rewrite (Hok r Hr) in O.
Qed.

(** C29: A set stays well-formed under [newLine]: when the thread has a free buffer
    ([available_data_stack] is not empty; without one the code takes the last element of an
    empty vector, [HostRace.newLine_no_buffer]), while it holds the set's
    lock for writing, and whatever the transactions still under way in the set do
    meanwhile, [newLine] ends; afterwards every tag and every buffer occurs once among
    the lines, the shadow lines and the thread's free buffers, and only lines under a
    transaction are flagged.  A new line has the address, is invalid and alone in its
    tag, and takes a free slot, an invalid line, or the slot of a readable line that
    moves unchanged to the shadow slot, is to be evicted next and gives way to a fresh
    buffer; no other line is touched.  Without one, the tag was there already or all
    the slots are taken. *)
Theorem newLine_preserves i u a c th :
  set_wf i u c → calLineSet (getTag a) = i → req_appt_id th = u →
  available_data_stack c u ≠ [] →
  wp true (set_locked i u) (newLine i a) (newLine_post i u a c th) c th.
Proof. apply newLine_spec. Qed.

(** ** Concrete states *)
Definition ex_raw : RawMessage :=
  mk_RawMessage 0 0 0 0 0 0 0 0 0 0 (replicate 8 0) 0 0 0 (replicate 6 0) 0 0.
Definition ex_line : LineInfo :=
  mk_LineInfo 0 0 (mk_AtomicTag false INVALID) 0 false 0 ga_Null 0 0.
Definition ex_boot : cache := mk_cache (λ _, ex_line) (λ _, 0) (λ _, []) (λ _, 0).
Definition ex_cache : cache := default ex_boot (initLine 1 [4096; 8192] ex_boot).
Definition ex_thread (ms : list RawMessage) : thread :=
  mk_thread 1 0 false false None None false ex_raw EVICT_SHARED ms [].
Definition ex_addr : GlobalAddress := mk_GlobalAddress 4096 2.

Lemma ex_cache_boot : initLine 1 [4096; 8192] ex_boot = Some ex_cache.
Proof.
  assert (head (deal 1 [4096; 8192] (available_data_stack ex_boot) 0) = Some 8192) as H
    by by vm_compute.
  unfold ex_cache, initLine. by rewrite H.
Qed.

Lemma newLine_preserves_witness :
  calLineSet (getTag ex_addr) = 33337 ∧
  wp true (set_locked 33337 0) (newLine 33337 ex_addr)
    (newLine_post 33337 0 ex_addr ex_cache (ex_thread [])) ex_cache (ex_thread []).
Proof.
  assert (calLineSet (getTag ex_addr) = 33337) as Hset by by vm_compute.
  split; [exact Hset|]. apply (newLine_preserves 33337 0 ex_addr); [|exact Hset|reflexivity|].
  - apply (initLine_wf 1 [4096; 8192] ex_boot); [exact ex_cache_boot| | |intros v; reflexivity|].
    3: split; [lia|reflexivity].
    + by repeat constructor; rewrite ?elem_of_cons, ?elem_of_nil; intros ?; destruct_or?.
    + by rewrite !elem_of_cons, elem_of_nil; intros ?; destruct_or?.
  - vm_compute. discriminate.
Defined.
