(* ===== verification/CacheAccess.v ===== *)
(** * CacheAccess: reading and writing through the cache

    [Cache::generate_message], [start_evict], [wait_evict], [readMiss], [writeMiss],
    [writeShared], [readLine] and [writeLine] of [Cache.cpp].  The statistics, the
    timeouts that only print and the diagnostic copies of messages are left out. *)
From S2P Require Import Prelude DsmType HostMsg HostSync GlobalMem HostLine HostLogic CacheSet.
From stdpp Require Import base numbers option list list_numbers relations.
Open Scope Z_scope.

(** [junk] stands for the contents of an uninitialised [RawMessage]. *)
Section access.
Context (junk : RawMessage).

(** ** Requests *)
Definition generate_message (mtype : RawMessageType) (a : GlobalAddress) (info : line_ref)
    : M RawMessage :=
  node ← gets my_node_id; t ← gets req_appt_id;
  p ← line_get data info; i ← line_get line_index info;
  mret (junk <| raw_req_cline_nodeID := wrap 8 node |>
    <| raw_req_cline_appThreadID := wrap 8 t |>
    <| raw_req_cline_addr := p |> <| raw_req_cline_index := wrap 32 i |>
    <| raw_cline_tag := getTag a |> <| raw_dir_gblock_index := wrap 32 (getIndex a) |>
    <| raw_dir_gblock_nodeID := ga_nodeID a |> <| raw_mtype := mtype |>).

(** ** Eviction *)

(** The loop of [start_evict] ends in one of two ways: the line is [INVALID], or the
    exchange of its status for [TO_PRESERVED] has succeeded. *)
Definition claim_evict (r : line_ref) (c : cache) : option (CacheStatus * cache) :=
  let l := lines c r in
  let s := at_status (status l) in
  if decide (s = INVALID) then Some (s, c)
  else Some (s, set_line r (l <| status := mk_AtomicTag (at_flag (status l)) TO_PRESERVED |>) c).

(** The buffer of the shadow line goes back to the thread's stack. *)
Definition release_line (r : line_ref) : M unit :=
  si ← line_get set_index r; sl ← line_get slot_index r;
  let cline := mk_line_ref true si sl in
  p ← line_get data cline;
  data_stack_push_back p;;
  line_put (λ l, l <| data := 0 |>) cline;;
  setFlagAndStatus false PRESERVED cline.

Definition start_evict : M unit :=
  start ← gets start_next_evict_cline_flag;
  if start : bool then
    modify (λ t, t <| start_next_evict_cline_flag := false |>
      <| wait_cur_evict_cline_flag := true |> <| cur_evict_cline := next_evict_cline t |>
      <| next_evict_cline := None |>);;
    cur ← gets cur_evict_cline; r ← deref cur;
    s ← await (claim_evict r);
    if bool_decide (s = INVALID) then
      modify (λ t, t <| wait_cur_evict_cline_flag := false |>);;
      release_line r
    else
      line_wLock r;;
      let shared := bool_decide (s = SHARED) in
      modify (λ t, t <| cur_evict_cline_type := if shared then EVICT_SHARED else EVICT_DIRTY |>);;
      a ← line_get addr r;
      m ← generate_message (if shared then R_EVICT_SHARED else R_EVICT_DIRTY) a r;
      channel_send m
  else mret ().

(** The exchanges that take a line back when the directory refuses its eviction. *)
Definition evict_refused (k : EvictType) : list (AtomicTag * AtomicTag) :=
  match k with
  | EVICT_SHARED =>
      [(mk_AtomicTag false TO_PRESERVED, mk_AtomicTag false SHARED);
       (mk_AtomicTag true TO_PRESERVED, mk_AtomicTag false INVALID)]
  | EVICT_DIRTY =>
      [(mk_AtomicTag false TO_PRESERVED, mk_AtomicTag false MODIFIED);
       (mk_AtomicTag true TO_PRESERVED, mk_AtomicTag false INVALID);
       (mk_AtomicTag false TO_SHARED, mk_AtomicTag false SHARED);
       (mk_AtomicTag true TO_SHARED, mk_AtomicTag false INVALID)]
  end.

(** [while(!flag) flag = getFlag()] *)
Definition await_flag (r : line_ref) : M unit :=
  await (λ c, if at_flag (status (lines c r)) then Some ((), c) else None).

(** One turn of the loop of [wait_evict] on the message [m]: [end_flag]. *)
Definition evict_reply (r : line_ref) (m : RawMessage) : M bool :=
  t ← line_get tag r;
  if raw_cline_tag m =? t then
    match mtype_of (raw_mtype m) with
    | Some DIR_2_APP_EVICT_DIRTY_ACK | Some DIR_2_APP_EVICT_SHARED_ACK =>
        release_line r;; mret true
    | Some DIR_2_APP_M_CHECK_FAIL =>
        k ← gets cur_evict_cline_type;
        _ ← cas_loop (evict_refused k) r;
        modify (λ t, t <| start_next_evict_cline_flag := true |>
          <| next_evict_cline := cur_evict_cline t |>);;
        start_evict;;
        w ← gets wait_cur_evict_cline_flag; mret (negb w)
    | Some DIR_2_APP_BITMAP_CHECK_FAIL =>
        await_flag r;; release_line r;; mret true
    | _ => fault
    end
  else fault.

(** The message put aside during a miss, or the next one of the channel. *)
Definition evict_message : M RawMessage :=
  kept ← gets recv_cur_evict_msg_flag;
  if kept : bool then
    modify (λ t, t <| recv_cur_evict_msg_flag := false |>);; gets cur_evict_msg
  else recv_msg.

(** [n] bounds the turns: each takes a message, and when there is none left the next
    turn waits for ever in [recv_msg]. *)
Fixpoint wait_evict_loop (n : nat) (r : line_ref) : M unit :=
  m ← evict_message;
  done ← evict_reply r m;
  if done : bool then mret ()
  else match n with O => spin_forever | S n => wait_evict_loop n r end.

Definition wait_evict : M unit :=
  wait ← gets wait_cur_evict_cline_flag;
  if wait : bool then
    cur ← gets cur_evict_cline; r ← deref cur;
    n ← to_receive; wait_evict_loop n r;;
    line_wUnlock r;;
    modify (λ t, t <| wait_cur_evict_cline_flag := false |>)
  else mret ().

(** ** Misses

    A reply to the request [m_send] is handled by [reply]; a message about the line
    under eviction is put aside; after any other message the code reads messages
    for ever. *)
Fixpoint miss_loop {S} (n : nat) (m_send : RawMessage)
    (reply : S → RawMessageType → M (bool + S)) (s : S) : M bool :=
  let again (s : S) : M bool :=
    match n with O => spin_forever | S n => miss_loop n m_send reply s end in
  m ← recv_msg;
  if raw_cline_tag m =? raw_cline_tag m_send then
    match mtype_of (raw_mtype m) with
    | Some ty =>
        r ← reply s ty;
        match r with inl succ => mret succ | inr s => again s end
    | None => spin_forever
    end
  else
    wait ← gets wait_cur_evict_cline_flag;
    ours ← (if wait : bool then
              cur ← gets cur_evict_cline; r ← deref cur;
              t ← line_get tag r; mret (raw_cline_tag m =? t)
            else mret false);
    if ours : bool then
      modify (λ t, t <| recv_cur_evict_msg_flag := true |> <| cur_evict_msg := m |>);; again s
    else spin_forever.

Definition miss {S} (mtype : RawMessageType) (a : GlobalAddress) (info : line_ref)
    (reply : S → RawMessageType → M (bool + S)) (s : S) : M bool :=
  m_send ← generate_message mtype a info;
  channel_send m_send;;
  n ← to_receive; miss_loop n m_send reply s.

Definition readMiss_reply (info : line_ref) (_ : unit) (ty : RawMessageType)
    : M (bool + unit) :=
  match ty with
  | AGENT_2_APP_READ_MISS_DIRTY_ACKDATA | DIR_2_APP_READ_MISS_ACKDATA => mret (inl true)
  | DIR_2_APP_M_CHECK_FAIL => mret (inl false)
  | DIR_2_APP_BITMAP_CHECK_FAIL => await_flag info;; mret (inl false)
  | _ => spin_forever
  end.

Definition readMiss (a : GlobalAddress) (info : line_ref) : M bool :=
  miss R_READ_MISS a info (readMiss_reply info) ().

(** The state is [copies] and [hasData]. *)
Definition writeMiss_reply (info : line_ref) (s : Z * bool) (ty : RawMessageType)
    : M (bool + Z * bool) :=
  let '(copies, hasData) := s in
  match ty with
  | AGENT_2_APP_WRITE_MISS_DIRTY_ACKDATA | DIR_2_APP_WRITE_MISS_ACKDATA => mret (inl true)
  | DIR_2_APP_WRITE_MISS_SHAREDDATA =>
      if hasData then fault
      else mret (if copies =? 0 then inl true else inr (copies, true))
  | DIR_2_APP_WRITE_MISS_SHARED_AGGACK_ACK =>
      mret (if hasData then inl true else inr (0, hasData))
  | DIR_2_APP_M_CHECK_FAIL => mret (inl false)
  | DIR_2_APP_BITMAP_CHECK_FAIL => await_flag info;; mret (inl false)
  | _ => spin_forever
  end.

Definition writeMiss (a : GlobalAddress) (info : line_ref) : M bool :=
  miss R_WRITE_MISS a info (writeMiss_reply info) (-1, false).

Definition writeShared_reply (info : line_ref) (_ : unit) (ty : RawMessageType)
    : M (bool + unit) :=
  match ty with
  | DIR_2_APP_WRITE_SHARED_NOTONLY_AGGACK_ACK | DIR_2_APP_WRITE_SHARED_ONLYACK =>
      mret (inl true)
  | DIR_2_APP_M_CHECK_FAIL => mret (inl false)
  | DIR_2_APP_BITMAP_CHECK_FAIL => await_flag info;; mret (inl false)
  | _ => spin_forever
  end.

Definition writeShared (a : GlobalAddress) (info : line_ref) : M bool :=
  miss R_WRITE_SHARED a info (writeShared_reply info) ().

(** ** The end of a miss: the pending status becomes [to], or [INVALID] when an agent
    has set the flag meanwhile; the result says which. *)
Definition settle (from to : CacheStatus) (info : line_ref) : M bool :=
  k ← cas_loop [(mk_AtomicTag true from, mk_AtomicTag false INVALID);
                (mk_AtomicTag false from, mk_AtomicTag false to)] info;
  mret (bool_decide (k = 1%nat)).

(** ** [Cache::readLine]: the bytes stored at [to] *)

(** [memcpy] under the line's lock, if the status allows it. *)
Definition locked_read (info : line_ref) (start size : Z) : M (option (list Z)) :=
  line_rLock info;;
  ok ← orM (is_status SHARED info) (is_status MODIFIED info);
  bs ← (if ok : bool then bs ← memcpy_from info start size; mret (Some bs) else mret None);
  line_rUnlock info;; mret bs.

Definition readLine_miss (a : GlobalAddress) (info : line_ref) (start size : Z)
    : M (option (list Z)) :=
  succ ← readMiss a info;
  if succ : bool then
    ok ← settle TO_SHARED SHARED info;
    if ok : bool then locked_read info start size else mret None
  else _ ← settle TO_SHARED INVALID info; mret None.

(** One turn of the loop: the bytes when [succ], and [dontWaitEvict_flag]. *)
Definition readLine_turn (a : GlobalAddress) (start size : Z) : M (option (list Z) * bool) :=
  start_evict;;
  let set_idx := calLineSet (getTag a) in
  set_rLock set_idx;;
  line ← findLine set_idx a;
  shadow ← findShadowLine set_idx a;
  match line, shadow with
  | None, None =>
      set_rUnlock set_idx;; set_wLock set_idx;;
      new ← newLine set_idx a;
      set_wUnlock set_idx;; mret (None, bool_decide (is_Some new))
  | None, Some shadow_info =>
      wait ← gets wait_cur_evict_cline_flag;
      ours ← (if wait : bool then
                cur ← gets cur_evict_cline; r ← deref cur;
                t ← line_get tag r; mret (t =? getTag a)
              else mret false);
      set_rUnlock set_idx;;
      if ours : bool then mret (None, false)
      else bs ← locked_read shadow_info start size; mret (bs, bool_decide (is_Some bs))
  | Some _, Some _ => fault
  | Some info, None =>
      miss ← casFlagAndStatus false INVALID false TO_SHARED info;
      set_rUnlock set_idx;;
      if miss : bool then bs ← readLine_miss a info start size; mret (bs, false)
      else bs ← locked_read info start size; mret (bs, bool_decide (is_Some bs))
  end.

(** [fuel] bounds the turns of [while(!succ)]. *)
Fixpoint readLine (fuel : nat) (a : GlobalAddress) (start size : Z) : M (list Z) :=
  match fuel with
  | O => spin_forever
  | S fuel =>
      '(bs, dontWaitEvict_flag) ← readLine_turn a start size;
      (if dontWaitEvict_flag : bool then mret () else wait_evict);;
      match bs with Some bs => mret bs | None => readLine fuel a start size end
  end.

(** ** [Cache::writeLine] *)
Definition locked_write (info : line_ref) (start : Z) (from : list Z) : M bool :=
  line_wLock info;;
  ok ← is_status MODIFIED info;
  (if ok : bool then memcpy_to info start from else mret ());;
  line_wUnlock info;; mret ok.

(** The shadow line is written under its lock for readers. *)
Definition shadow_write (info : line_ref) (start : Z) (from : list Z) : M bool :=
  line_rLock info;;
  ok ← is_status MODIFIED info;
  (if ok : bool then memcpy_to info start from else mret ());;
  line_rUnlock info;; mret ok.

(** After [writeShared] ([back] is [SHARED]) or [writeMiss] ([back] is [INVALID]). *)
Definition writeLine_settle (succ : bool) (back : CacheStatus) (info : line_ref) (start : Z)
    (from : list Z) : M bool :=
  if succ then
    ok ← settle TO_MODIFIED MODIFIED info;
    if ok : bool then locked_write info start from else mret false
  else _ ← settle TO_MODIFIED back info; mret false.

Definition writeLine_turn (a : GlobalAddress) (start : Z) (from : list Z) : M (bool * bool) :=
  start_evict;;
  let set_idx := calLineSet (getTag a) in
  set_rLock set_idx;;
  line ← findLine set_idx a;
  shadow ← findShadowLine set_idx a;
  match line, shadow with
  | None, None =>
      set_rUnlock set_idx;; set_wLock set_idx;;
      new ← newLine set_idx a;
      set_wUnlock set_idx;; mret (false, bool_decide (is_Some new))
  | None, Some shadow_info =>
      wait ← gets wait_cur_evict_cline_flag;
      ours ← (if wait : bool then
                cur ← gets cur_evict_cline; r ← deref cur;
                t ← line_get tag r; mret (t =? getTag a)
              else mret false);
      set_rUnlock set_idx;;
      if ours : bool then mret (false, false)
      else succ ← shadow_write shadow_info start from; mret (succ, succ)
  | Some _, Some _ => fault
  | Some info, None =>
      upgrade ← casFlagAndStatus false SHARED false TO_MODIFIED info;
      if upgrade : bool then
        set_rUnlock set_idx;;
        succ ← writeShared a info;
        succ ← writeLine_settle succ SHARED info start from; mret (succ, false)
      else
        miss ← casFlagAndStatus false INVALID false TO_MODIFIED info;
        set_rUnlock set_idx;;
        if miss : bool then
          succ ← writeMiss a info;
          succ ← writeLine_settle succ INVALID info start from; mret (succ, false)
        else succ ← locked_write info start from; mret (succ, succ)
  end.

Fixpoint writeLine (fuel : nat) (a : GlobalAddress) (start : Z) (from : list Z) : M unit :=
  match fuel with
  | O => spin_forever
  | S fuel =>
      '(succ, dontWaitEvict_flag) ← writeLine_turn a start from;
      (if dontWaitEvict_flag : bool then mret () else wait_evict);;
      if succ : bool then mret () else writeLine fuel a start from
  end.
End access.

(** ** A line under a transaction of its owner *)
Section transaction.
Context (junk : RawMessage) (r : line_ref) (u : Z).
Context (step : AtomicTag → AtomicTag → Prop) (Hstep : ∀ s s', step s s' → agent_step s s').
Notation R := (line_rely step r u).

Lemma rely_fields c c' : R c c' →
  lock (lines c' r) = lock (lines c r) ∧ data (lines c' r) = data (lines c r) ∧
  tag (lines c' r) = tag (lines c r) ∧ addr (lines c' r) = addr (lines c r) ∧
  line_index (lines c' r) = line_index (lines c r) ∧
  set_index (lines c' r) = set_index (lines c r) ∧
  slot_index (lines c' r) = slot_index (lines c r).
Proof. by intros [(s & -> & _) _]. Qed.

Lemma rely_status c c' : R c c' → rtc agent_step (status (lines c r)) (status (lines c' r)).
Proof. intros [(s & -> & H) _]. induction H; econstructor; eauto. Qed.

Lemma rely_settled c c' s : R c c' → status (lines c r) = s → settled s → status (lines c' r) = s.
Proof. intros H E Hs. apply rely_status in H. rewrite E in H. by apply settled_rtc in H. Qed.

(** [lines c r] with another lock word and status. *)
Definition line_like (c0 c : cache) : Prop :=
  lines c r = (lines c0 r) <| lock := lock (lines c r) |> <| status := status (lines c r) |>.

Lemma line_like_fields c0 c : line_like c0 c →
  data (lines c r) = data (lines c0 r) ∧ tag (lines c r) = tag (lines c0 r) ∧
  addr (lines c r) = addr (lines c0 r) ∧ line_index (lines c r) = line_index (lines c0 r) ∧
  set_index (lines c r) = set_index (lines c0 r) ∧
  slot_index (lines c r) = slot_index (lines c0 r).
Proof. by intros ->. Qed.

Lemma line_like_rely c0 c c' : line_like c0 c → R c c' → line_like c0 c'.
Proof. unfold line_like. intros E [(s & -> & _) _]. by rewrite E. Qed.

Lemma line_like_status c0 c s :
  line_like c0 c → line_like c0 (set_line r ((lines c r) <| status := s |>) c).
Proof. unfold line_like. intros E. rewrite lines_set_same. by rewrite E. Qed.

Lemma line_like_lock c0 c k :
  line_like c0 c → line_like c0 (set_line r ((lines c r) <| lock := k |>) c).
Proof. unfold line_like. intros E. rewrite lines_set_same. by rewrite E. Qed.

Lemma line_like_refl c : line_like c c.
Proof. unfold line_like. by destruct (lines c r). Qed.

(** ** Requests *)
Definition request (mtype : RawMessageType) (a : GlobalAddress) (c : cache) (th : thread)
    : RawMessage :=
  junk <| raw_req_cline_nodeID := wrap 8 (my_node_id th) |>
    <| raw_req_cline_appThreadID := wrap 8 (req_appt_id th) |>
    <| raw_req_cline_addr := data (lines c r) |>
    <| raw_req_cline_index := wrap 32 (line_index (lines c r)) |>
    <| raw_cline_tag := getTag a |> <| raw_dir_gblock_index := wrap 32 (getIndex a) |>
    <| raw_dir_gblock_nodeID := ga_nodeID a |> <| raw_mtype := mtype |>.

Lemma request_like mtype a c0 c th th' :
  line_like c0 c → my_node_id th' = my_node_id th → req_appt_id th' = req_appt_id th →
  request mtype a c th' = request mtype a c0 th.
Proof.
  intros L E E'. destruct (line_like_fields _ _ L) as (D & _ & _ & I & _).
  unfold request. by rewrite D, I, E, E'.
Qed.

Lemma generate_message_spec tot mtype a Q c th :
  (∀ c', R c c' → Q (request mtype a c th) c' th) →
  wp tot R (generate_message junk mtype a r) Q c th.
Proof.
  intros HQ. unfold generate_message. repeat wp_step. intros c1 H1. repeat wp_step.
  intros c2 H2. repeat wp_step. destruct (rely_fields _ _ H1) as (_ & D & _).
  assert (R c c2) as H by (by etransitivity).
  destruct (rely_fields _ _ H) as (_ & _ & _ & _ & I & _).
  rewrite D, I. by apply HQ.
Qed.

Lemma recv_msg_spec tot m ms Q c th :
  inbox th = m :: ms → (∀ c', R c c' → Q m c' (th <| inbox := ms |>)) → wp tot R recv_msg Q c th.
Proof.
  intros Hi HQ. unfold recv_msg. repeat wp_step. intros c1 H1. repeat wp_step. rewrite Hi.
  repeat wp_step. by apply HQ.
Qed.

(** ** The end of a miss *)
Lemma settle_spec tot from to Q c th :
  from = TO_SHARED ∨ from = TO_MODIFIED →
  status (lines c r) = mk_AtomicTag false from ∨ status (lines c r) = mk_AtomicTag true from →
  (∀ ok c1, R c c1 → status (lines c1 r) = mk_AtomicTag (negb ok) from →
     Q ok (set_line r ((lines c1 r)
       <| status := mk_AtomicTag false (if ok : bool then to else INVALID) |>) c1) th) →
  wp tot R (settle from to r) Q c th.
Proof.
  intros Hf Hs HQ. unfold settle, cas_loop. wp_step.
  assert (∀ c', R c c' → status (lines c' r) = mk_AtomicTag false from ∨
    status (lines c' r) = mk_AtomicTag true from) as Hst.
  { intros c' H. apply rely_status in H. destruct Hs as [Hs|Hs]; rewrite Hs in H.
    - by apply agent_steps_pending.
    - apply settled_rtc in H as ->; [auto|apply settled_flag]. }
  apply wp_await; [apply _| |].
  - intros _ c' H. cbn. unfold cas_line. destruct (Hst c' H) as [-> | ->].
    + rewrite decide_False by congruence. by rewrite decide_True.
    + by rewrite decide_True.
  - intros c' k c'' H E. wp_step. cbn in E. unfold cas_line in E.
    destruct (Hst c' H) as [Es|Es]; rewrite Es in E.
    + rewrite decide_False in E by congruence. rewrite decide_True in E by done.
      injection E as <- <-. by apply (HQ true).
    + rewrite decide_True in E by done. injection E as <- <-. by apply (HQ false).
Qed.

(** ** The accesses under the line's lock *)
Lemma with_line_lock_spec tot f k k' Q c th :
  lock (lines c r) = k → f k = Some k' →
  (∀ c1, R c c1 → Q () (set_line r ((lines c1 r) <| lock := k' |>) c1) th) →
  wp tot R (with_line_lock f r) Q c th.
Proof.
  intros Hk Hf HQ. unfold with_line_lock. apply wp_await; [apply _| |].
  - intros _ c' H. destruct (rely_fields _ _ H) as (-> & _). rewrite Hk. cbn. by rewrite Hf.
  - intros c' [] c'' H E. destruct (rely_fields _ _ H) as (E' & _). rewrite E', Hk in E. cbn in E.
    rewrite Hf in E. injection E as <-. by apply HQ.
Qed.

Definition stable_word (s : AtomicTag) : Prop :=
  ∃ t, s = mk_AtomicTag false t ∧ (t = INVALID ∨ t = SHARED ∨ t = MODIFIED).

Lemma stable_word_rely c c' :
  R c c' → stable_word (status (lines c r)) → stable_word (status (lines c' r)).
Proof.
  intros H (t & E & Ht). apply rely_status in H. rewrite E in H. by apply agent_steps_stable in H.
Qed.

(** What [locked_read] returns: the bytes of the line's buffer in a state [c1], when the
    status was [SHARED] or [MODIFIED] in a state [cv] before it, both while the lock was
    held for reading (the word that [rLock] leaves on a free lock) and with nothing but
    steps of the others between them; or nothing, also when an agent downgrades the line
    between the two tests of its status. *)
Definition valid_word (s : AtomicTag) : Prop := s = mk_AtomicTag false SHARED ∨ s = mk_AtomicTag false MODIFIED.

Definition read_under_lock (c0 : cache) (start size : Z) (bs : list Z) : Prop :=
  ∃ cv c1, line_like c0 cv ∧ rLock_word UNLOCKED = Some (lock (lines cv r)) ∧ valid_word (status (lines cv r)) ∧
    line_rely agent_step r u cv c1 ∧ rLock_word UNLOCKED = Some (lock (lines c1 r)) ∧
    bs = bytes_at (memory c1) (data (lines c0 r) + start) size.

Definition read_result (c0 : cache) (start size : Z) (bs : option (list Z)) (c' : cache) : Prop :=
  line_like c0 c' ∧ lock (lines c' r) = UNLOCKED ∧ stable_word (status (lines c' r)) ∧
  available_data_stack c' u = available_data_stack c0 u ∧
  match bs with
  | Some bs => read_under_lock c0 start size bs
  | None => at_status (status (lines c' r)) ≠ MODIFIED
  end.

Lemma rely_agent c c' : R c c' → line_rely agent_step r u c c'.
Proof.
  intros [(s & E & H) Hs]. split; [|done]. exists s. split; [done|]. clear E. induction H; econstructor; eauto.
Qed.

Lemma stable_valid s : stable_word s → at_status s = SHARED ∨ at_status s = MODIFIED → valid_word s.
Proof. intros (t & -> & _) [E|E]; cbn in E; rewrite E; [by left|by right]. Qed.

Lemma rely_not_modified c c' :
  R c c' → at_status (status (lines c r)) ≠ MODIFIED → at_status (status (lines c' r)) ≠ MODIFIED.
Proof.
  intros H. apply rely_status in H. induction H as [|s s1 s2 H1 _ IH]; [done|]. intros Hn.
  apply IH. by inversion H1; subst; cbn in *; try done; intuition congruence.
Qed.

Lemma rely_stack c c' : R c c' → available_data_stack c' u = available_data_stack c u.
Proof. by intros [_ ?]. Qed.

Lemma locked_read_spec tot c0 start size c th Q :
  line_like c0 c → lock (lines c r) = UNLOCKED → stable_word (status (lines c r)) →
  available_data_stack c u = available_data_stack c0 u →
  (∀ bs c', read_result c0 start size bs c' → Q bs c' th) →
  wp tot R (locked_read r start size) Q c th.
Proof.
  intros L K S A HQ. unfold locked_read. wp_step.
  eapply (with_line_lock_spec _ _ _ 2); [exact K|done|]. intros c1 H1.
  set (c2 := set_line r _ c1).
  assert (line_like c0 c2 ∧ lock (lines c2 r) = 2 ∧ stable_word (status (lines c2 r)) ∧
    available_data_stack c2 u = available_data_stack c0 u) as (L2 & K2 & S2 & A2).
  { split_and!; [by apply line_like_lock; eapply line_like_rely|..]; unfold c2;
      rewrite ?lines_set_same; [done| |cbn; rewrite <-A; by apply rely_stack].
    cbn. by eapply stable_word_rely. }
  clearbody c2. clear c c1 H1 L K S A.
  assert (∀ c' bs, R c2 c' →
    (match bs with
     | Some bs => read_under_lock c0 start size bs
     | None => at_status (status (lines c' r)) ≠ MODIFIED end) →
    wp tot R (line_rUnlock r;; mret bs) Q c' th) as Hend.
  { intros c' bs H Hbs. wp_step. apply (with_line_lock_spec _ _ 2 UNLOCKED); [|done|].
    { by rewrite (proj1 (rely_fields _ _ H)). }
    intros c3 H3. wp_step. apply HQ. assert (R c2 c3) as H23 by (by etransitivity).
    unfold read_result. rewrite lines_set_same. cbn. split_and!; [|done|..].
    - apply line_like_lock. by eapply line_like_rely.
    - by eapply stable_word_rely.
    - by rewrite (rely_stack _ _ H23).
    - destruct bs; [exact Hbs|]. apply (rely_not_modified c'); [exact H3|exact Hbs]. }
  assert (∀ c', R c2 c' → at_status (status (lines c' r)) = SHARED ∨ at_status (status (lines c' r)) = MODIFIED →
    wp tot R (bs ← memcpy_from r start size; mret (Some bs))
    (λ bs c t, wp tot R (line_rUnlock r;; mret bs) Q c t) c' th) as Hcopy.
  { intros c' H Hv. wp_step. unfold memcpy_from. wp_step. intros c5 H5. wp_step.
    assert (R c2 c5) as H25 by (by etransitivity).
    apply Hend; [done|]. exists c', c5. cbn. destruct (line_like_fields _ _ L2) as (D & _).
    destruct (rely_fields _ _ H25) as (K5 & -> & _). destruct (rely_fields _ _ H) as (K' & _).
    rewrite D, K5, K', K2. split_and!; [|done| | |done|done].
    - by eapply line_like_rely.
    - apply stable_valid; [|exact Hv]. by eapply stable_word_rely.
    - by apply rely_agent. }
  wp_step. apply wp_orM. apply wp_is_status; [apply _|]. intros c3 H3.
  case_bool_decide as E; [wp_step; apply Hcopy; [done|by left]|].
  apply wp_is_status; [apply _|]. intros c4 H4. assert (R c2 c4) as H24 by (by etransitivity).
  case_bool_decide as E4; wp_step; [apply Hcopy; [done|by right]|]. wp_step. by apply Hend.
Qed.

(** ** A read miss *)
Lemma await_flag_spec Q c th :
  (∀ c', R c c' → at_flag (status (lines c' r)) = true → Q () c' th) →
  wp false R (await_flag r) Q c th.
Proof.
  intros HQ. unfold await_flag. apply wp_await; [apply _|done|].
  intros c' [] c'' H E. destruct (at_flag _) eqn:F; [|done]. injection E as <-. by apply HQ.
Qed.

Definition miss_replies_read (ty : RawMessageType) : option bool :=
  match ty with
  | AGENT_2_APP_READ_MISS_DIRTY_ACKDATA | DIR_2_APP_READ_MISS_ACKDATA => Some true
  | DIR_2_APP_M_CHECK_FAIL | DIR_2_APP_BITMAP_CHECK_FAIL => Some false
  | _ => None
  end.

Lemma readMiss_spec a m ms ty succ c th Q :
  inbox th = m :: ms → raw_cline_tag m = getTag a → mtype_of (raw_mtype m) = Some ty →
  miss_replies_read ty = Some succ →
  (∀ c', R c c' → Q succ c' (th <| inbox := ms |> <| outbox := outbox th ++ [request R_READ_MISS a c th] |>)) →
  wp (bool_decide (ty ≠ DIR_2_APP_BITMAP_CHECK_FAIL)) R (readMiss junk a r) Q c th.
Proof.
  intros Hin Htag Hty Hsucc HQ. unfold readMiss, miss.
  wp_step. apply generate_message_spec. intros c1 H1. unfold channel_send. repeat wp_step.
  set (th1 := th <| outbox := _ |>). unfold to_receive. repeat wp_step.
  change (inbox th1) with (inbox th). rewrite Hin. cbn [length miss_loop].
  wp_step. eapply (recv_msg_spec _ m ms); [done|]. intros c2 H2.
  change (raw_cline_tag (request _ a c th)) with (getTag a).
  rewrite Htag, Z.eqb_refl, Hty.
  assert (R c c2) as H by (by etransitivity).
  assert (∀ c', R c2 c' → Q succ c' (th1 <| inbox := ms |>)) as HQ2.
  { intros c' H'. apply HQ. by etransitivity. }
  destruct ty; try discriminate Hsucc; injection Hsucc as <-;
    repeat (cbn [readMiss_reply]; wp_step); try by apply HQ2.
  change (bool_decide (DIR_2_APP_BITMAP_CHECK_FAIL ≠ DIR_2_APP_BITMAP_CHECK_FAIL)) with false.
  apply await_flag_spec. intros c3 H3 _. repeat wp_step. by apply HQ2.
Qed.

(** The states of the line after [settle]. *)
Lemma settled_line c c1 k s :
  R c c1 → lock (lines c r) = k →
  let c2 := set_line r ((lines c1 r) <| status := s |>) c1 in
  line_like c c2 ∧ lock (lines c2 r) = k ∧ status (lines c2 r) = s ∧
  available_data_stack c2 u = available_data_stack c u.
Proof.
  intros H K c2. destruct (rely_fields _ _ H) as (K1 & _). unfold c2. rewrite lines_set_same.
  split_and!; [|by cbn; rewrite K1|done|exact (rely_stack _ _ H)].
  apply line_like_status, (line_like_rely c c); [apply line_like_refl|done].
Qed.

Lemma readLine_miss_spec a start size m ms ty succ c th Q :
  status (lines c r) = mk_AtomicTag false TO_SHARED ∨
    status (lines c r) = mk_AtomicTag true TO_SHARED →
  lock (lines c r) = UNLOCKED →
  inbox th = m :: ms → raw_cline_tag m = getTag a → mtype_of (raw_mtype m) = Some ty →
  miss_replies_read ty = Some succ →
  (∀ bs c', read_result c start size bs c' →
     (succ = false ∨ at_flag (status (lines c r)) = true →
        bs = None ∧ status (lines c' r) = mk_AtomicTag false INVALID) →
     Q bs c' (th <| inbox := ms |> <| outbox := outbox th ++ [request R_READ_MISS a c th] |>)) →
  wp (bool_decide (ty ≠ DIR_2_APP_BITMAP_CHECK_FAIL)) R (readLine_miss junk a r start size) Q c th.
Proof.
  intros Hs K Hin Htag Hty Hsucc HQ. unfold readLine_miss. wp_step.
  eapply readMiss_spec; [done..|]. intros c1 H1.
  assert (status (lines c1 r) = mk_AtomicTag false TO_SHARED ∨
    status (lines c1 r) = mk_AtomicTag true TO_SHARED) as Hs1.
  { pose proof (rely_status _ _ H1) as Hr. destruct Hs as [E|E]; rewrite E in Hr.
    - apply agent_steps_pending in Hr; auto.
    - apply settled_rtc in Hr; [auto|apply settled_flag]. }
  assert (∀ c' ok, R c c' → status (lines c' r) = mk_AtomicTag (negb ok) TO_SHARED →
    at_flag (status (lines c r)) = true → ok = false) as Hflag.
  { intros c' ok H E F. destruct Hs as [E'|E']; [by rewrite E' in F|].
    apply rely_status in H. rewrite E' in H. apply settled_rtc in H; [|apply settled_flag].
    rewrite H in E. by destruct ok. }
  assert (∀ c', line_like c c' → lock (lines c' r) = UNLOCKED →
    status (lines c' r) = mk_AtomicTag false INVALID →
    available_data_stack c' u = available_data_stack c u →
    Q None c' (th <| inbox := ms |> <| outbox := outbox th ++ [request R_READ_MISS a c th] |>))
    as Hnone.
  { intros c' L' K' E' A'. apply HQ; [|done]. split_and!; try done; rewrite E'; [|done].
    exists INVALID. auto. }
  destruct succ.
  - wp_step. apply settle_spec; [by left|done|]. intros ok c2 H2 E2.
    assert (R c c2) as H02 by (by etransitivity).
    destruct (settled_line c c2 UNLOCKED
      (mk_AtomicTag false (if ok then SHARED else INVALID)) H02 K) as (L3 & K3 & S3 & A3).
    set (c3 := set_line _ _ _) in *. clearbody c3. destruct ok; [|wp_step; by apply Hnone].
    apply (locked_read_spec _ c); [done|done| |done|].
    { exists SHARED. auto. }
    intros bs c' Hres. apply HQ; [done|]. intros [?|F]; [done|].
    by specialize (Hflag c2 true H02 E2 F).
  - wp_step. apply settle_spec; [by left|done|]. intros ok c2 H2 E2.
    assert (R c c2) as H02 by (by etransitivity).
    assert ((if ok then INVALID else INVALID) = INVALID) as -> by (by destruct ok).
    destruct (settled_line c c2 UNLOCKED (mk_AtomicTag false INVALID) H02 K) as (L3 & K3 & S3 & A3).
    wp_step. by apply Hnone.
Qed.

(** ** Eviction *)

(** The line knows its place. *)
Definition own_place (c : cache) : Prop :=
  r = mk_line_ref true (set_index (lines c r)) (slot_index (lines c r)).

(** The shadow slot is free again and the buffer is back. *)
Definition released (c0 c : cache) (k : Z) : Prop :=
  tag (lines c r) = tag (lines c0 r) ∧ data (lines c r) = 0 ∧ lock (lines c r) = k ∧
  status (lines c r) = mk_AtomicTag false PRESERVED ∧
  available_data_stack c u = data (lines c0 r) :: available_data_stack c0 u.

Lemma release_line_spec tot c0 c th Q :
  line_like c0 c → own_place c0 → req_appt_id th = u →
  available_data_stack c u = available_data_stack c0 u →
  (∀ c', released c0 c' (lock (lines c r)) → Q () c' th) →
  wp tot R (release_line r) Q c th.
Proof.
  intros L Ho Hu A HQ. unfold release_line. repeat wp_step. intros c1 H1. repeat wp_step.
  intros c2 H2. assert (R c c2) as H02 by (by etransitivity).
  pose proof (line_like_rely _ _ _ L H1) as L1. pose proof (line_like_rely _ _ _ L H02) as L2.
  destruct (line_like_fields _ _ L1) as (_ & _ & _ & _ & -> & _).
  destruct (line_like_fields _ _ L2) as (_ & _ & _ & _ & _ & ->).
  unfold own_place in Ho. rewrite <-Ho. repeat wp_step. intros c3 H3.
  assert (R c c3) as H03 by (by etransitivity).
  pose proof (line_like_rely _ _ _ L H03) as L3.
  destruct (line_like_fields _ _ L3) as (-> & T3 & _).
  unfold data_stack_push_back. repeat wp_step. intros c4 H4. cbn [fst snd].
  assert (R c c4) as H04 by (by etransitivity).
  repeat wp_step. intros c5 H5. unfold setFlagAndStatus. repeat wp_step. intros c6 H6.
  apply HQ. unfold released. rewrite lines_set_same. cbn.
  pose proof (line_like_rely _ _ _ L H04) as L4. pose proof (line_like_fields _ _ L4) as (_ & T4 & _).
  destruct (rely_fields _ _ H04) as (K4 & _), (rely_fields _ _ H5) as (K5 & _ & T5 & _),
    (rely_fields _ _ H6) as (K6 & D6 & T6 & _). cbn in K5, T5.
  rewrite lines_set_same in D6, T6, K6. cbn in K6, D6, T6.
  split_and!; [congruence|done|congruence|done|].
  rewrite (rely_stack _ _ H6). cbn. rewrite (rely_stack _ _ H5), Hu, stack_set_same.
  by rewrite (rely_stack _ _ H04), A.
Qed.

(** The thread while it evicts [r]. *)
Definition evicting (th : thread) : thread :=
  th <| start_next_evict_cline_flag := false |> <| wait_cur_evict_cline_flag := true |>
    <| cur_evict_cline := Some r |> <| next_evict_cline := None |>.

Definition evict_request (s : CacheStatus) : RawMessageType :=
  if bool_decide (s = SHARED) then R_EVICT_SHARED else R_EVICT_DIRTY.
Definition evict_kind (s : CacheStatus) : EvictType :=
  if bool_decide (s = SHARED) then EVICT_SHARED else EVICT_DIRTY.

Lemma start_evict_spec tot c0 c th Q :
  line_like c0 c → own_place c0 → req_appt_id th = u →
  available_data_stack c u = available_data_stack c0 u →
  start_next_evict_cline_flag th = true → next_evict_cline th = Some r →
  stable_word (status (lines c r)) → (tot = true → lock (lines c r) = UNLOCKED) →
  (∀ c', released c0 c' (lock (lines c r)) →
     (∃ s0, rtc step (status (lines c r)) s0 ∧ at_status s0 = INVALID) →
     Q () c' ((evicting th) <| wait_cur_evict_cline_flag := false |>)) →
  (∀ c' s, lock (lines c r) = UNLOCKED → s = SHARED ∨ s = MODIFIED →
     (∃ s0, rtc step (status (lines c r)) s0 ∧ at_status s0 = s) →
     line_like c0 c' → lock (lines c' r) = LOCKED →
     rtc step (mk_AtomicTag false TO_PRESERVED) (status (lines c' r)) →
     available_data_stack c' u = available_data_stack c0 u →
     Q () c' ((evicting th) <| cur_evict_cline_type := evict_kind s |>
       <| outbox := outbox th ++ [request (evict_request s) (addr (lines c0 r)) c0 th] |>)) →
  wp tot R (start_evict junk) Q c th.
Proof.
  intros L Ho Hu A Hst Hn S Ht HQ1 HQ2. unfold start_evict. wp_step. wp_step. rewrite Hst.
  wp_step. wp_step.
  match goal with |- wp _ _ _ _ _ ?T =>
    replace T with (evicting th) by (unfold evicting; cbn; by rewrite Hn) end.
  wp_step. wp_step. wp_step. eapply wp_deref; [done|]. wp_step.
  assert (∀ c1, R c c1 → stable_word (status (lines c1 r))) as S1.
  { intros c1 H1. by apply (stable_word_rely c c1). }
  apply wp_await; [apply _|intros _ c1 _; unfold claim_evict; case_decide; eauto|].
  intros c1 s c2 H1 E. unfold claim_evict in E.
  destruct (S1 _ H1) as (s1 & E1 & Hs1). pose proof (line_like_rely _ _ _ L H1) as L1.
  destruct (rely_fields _ _ H1) as (K1 & _). rewrite E1 in E. cbn in E.
  case_decide as Hi; injection E as <- <-.
  - rewrite bool_decide_true by done. wp_step. wp_step.
    apply (release_line_spec _ c0); [done..|by rewrite (rely_stack _ _ H1)|].
    rewrite K1. intros c' Hr. apply HQ1; [done|]. exists (status (lines c1 r)).
    rewrite E1. split; [|done]. destruct H1 as [(s' & E' & ?) _].
    rewrite E' in E1. cbn in E1. by rewrite <-E1.
  - rewrite bool_decide_false by done. wp_step. unfold line_wLock, with_line_lock.
    set (c2 := set_line r _ c1).
    assert (line_like c0 c2) as L2 by (by apply line_like_status).
    assert (lock (lines c2 r) = lock (lines c r) ∧ status (lines c2 r) = mk_AtomicTag false TO_PRESERVED ∧
      available_data_stack c2 u = available_data_stack c0 u) as (K2 & S2 & A2).
    { unfold c2. rewrite lines_set_same. split_and!; [done..|].
      cbn. by rewrite (rely_stack _ _ H1). }
    clearbody c2. apply wp_await; [apply _| |].
    + intros Htot c3 H3. destruct (rely_fields _ _ H3) as (-> & _). rewrite K2, (Ht Htot). eauto.
    + intros c3 [] c4 H3 E. destruct (rely_fields _ _ H3) as (K3 & _). rewrite K3, K2 in E.
      unfold wLock_word in E. destruct (Z.eqb_spec (lock (lines c r)) UNLOCKED) as [K|]; [|done].
      cbn in E. injection E as <-. wp_step. wp_step. wp_step.
      set (c4 := set_line r _ c3).
      assert (line_like c0 c4) as L4.
      { apply line_like_lock. by apply (line_like_rely c0 c2). }
      assert (lock (lines c4 r) = LOCKED ∧ rtc step (mk_AtomicTag false TO_PRESERVED) (status (lines c4 r)) ∧
        available_data_stack c4 u = available_data_stack c0 u) as (K4 & S4 & A4).
      { unfold c4. rewrite lines_set_same. split_and!; [done| |].
        - cbn. destruct H3 as [(s' & -> & Hr) _]. cbn. by rewrite <-S2.
        - cbn. by rewrite (rely_stack _ _ H3). }
      clearbody c4. wp_step. intros c5 H5. wp_step.
      pose proof (line_like_rely _ _ _ L4 H5) as L5.
      apply generate_message_spec. intros c6 H6. unfold channel_send. wp_step.
      assert (R c4 c6) as H46 by (by etransitivity).
      assert (available_data_stack c6 u = available_data_stack c0 u) as A6.
      { by rewrite (rely_stack _ _ H46). }
      pose proof (line_like_rely _ _ _ L4 H46) as L6.
      destruct (line_like_fields _ _ L5) as (_ & _ & A5 & _). rewrite A5.
      rewrite (request_like _ _ _ _ th _ L5) by done.
      assert (rtc step (mk_AtomicTag false TO_PRESERVED) (status (lines c6 r))) as S6.
      { etransitivity; [exact S4|]. destruct H46 as [(s' & -> & ?) _]. done. }
      assert (lock (lines c6 r) = LOCKED) as K6 by (by rewrite (proj1 (rely_fields _ _ H46))).
      assert (∃ s0, rtc step (status (lines c r)) s0 ∧ at_status s0 = s1) as Hc.
      { exists (status (lines c1 r)). rewrite E1. split; [|done]. destruct H1 as [(s' & E' & ?) _].
        rewrite E' in E1. cbn in E1. by rewrite <-E1. }
      assert (s1 = SHARED ∨ s1 = MODIFIED) as Hs by (by destruct Hs1).
      specialize (HQ2 c6 s1 K Hs Hc L6 K6 S6 A6).
      unfold evict_request, evict_kind in HQ2. exact HQ2.
Qed.

Definition evict_acked (ty : RawMessageType) : bool :=
  match ty with
  | DIR_2_APP_EVICT_DIRTY_ACK | DIR_2_APP_EVICT_SHARED_ACK => true | _ => false
  end.

(** The first message that [wait_evict] takes. *)
Lemma wait_evict_first tot c m ms th Q :
  wait_cur_evict_cline_flag th = true → cur_evict_cline th = Some r →
  recv_cur_evict_msg_flag th = false → inbox th = m :: ms →
  (∀ c', R c c' → wp tot R (evict_reply junk r m) (λ done c t,
     wp tot R (if done : bool then mret () else wait_evict_loop junk (length ms) r) (λ _ c t,
       wp tot R (line_wUnlock r;; modify (λ t, t <| wait_cur_evict_cline_flag := false |>)) Q c t)
       c t)
     c' (th <| inbox := ms |>)) →
  wp tot R (wait_evict junk) Q c th.
Proof.
  intros Hw Hc Hk Hin HQ. unfold wait_evict. wp_step. wp_step. rewrite Hw. wp_step. wp_step.
  rewrite Hc. wp_step. eapply wp_deref; [done|]. unfold to_receive. wp_step. wp_step. rewrite Hin.
  cbn [length wait_evict_loop]. unfold evict_message. wp_step. wp_step. wp_step. wp_step. rewrite Hk.
  eapply recv_msg_spec; [done|]. intros c1 H1. wp_step. by apply HQ.
Qed.

Lemma wait_evict_acked tot c0 c m ms ty th Q :
  line_like c0 c → own_place c0 → req_appt_id th = u →
  available_data_stack c u = available_data_stack c0 u →
  wait_cur_evict_cline_flag th = true → cur_evict_cline th = Some r →
  recv_cur_evict_msg_flag th = false → inbox th = m :: ms →
  raw_cline_tag m = tag (lines c0 r) → mtype_of (raw_mtype m) = Some ty →
  evict_acked ty = true →
  (∀ c', released c0 c' UNLOCKED →
     Q () c' (th <| inbox := ms |> <| wait_cur_evict_cline_flag := false |>)) →
  wp tot R (wait_evict junk) Q c th.
Proof.
  intros L Ho Hu A Hw Hc Hk Hin Htag Hty Hack HQ. eapply wait_evict_first; [done..|].
  intros c1 H1. pose proof (line_like_rely _ _ _ L H1) as L1. unfold evict_reply.
  wp_step. wp_step. intros c2 H2. pose proof (line_like_rely _ _ _ L1 H2) as L2.
  destruct (line_like_fields _ _ L2) as (_ & T2 & _). rewrite T2, Htag, Z.eqb_refl, Hty.
  assert (R c c2) as H02 by (by etransitivity).
  assert (wp tot R (release_line r;; mret true) (λ done c t,
     wp tot R (if done : bool then mret () else wait_evict_loop junk (length ms) r) (λ _ c t,
       wp tot R (line_wUnlock r;; modify (λ t, t <| wait_cur_evict_cline_flag := false |>)) Q c t)
       c t)
     c2 (th <| inbox := ms |>)) as Hrel.
  { wp_step. apply (release_line_spec _ c0); [done..|by rewrite (rely_stack _ _ H02)|].
    intros c3 (T3 & D3 & K3 & S3 & A3). wp_step. wp_step. wp_step.
    eapply with_line_lock_spec; [done|done|]. intros c4 H4. wp_step. apply HQ.
    destruct (rely_fields _ _ H4) as (K4 & D4 & T4 & _). unfold released, wUnlock_word.
    rewrite lines_set_same. cbn. split_and!; [congruence|congruence|done| |].
    - apply (rely_settled _ _ _ H4 S3). apply settled_status. auto.
    - by rewrite (rely_stack _ _ H4). }
  destruct ty; done.
Qed.

Lemma evict_spec c m ms ty th Q :
  own_place c → req_appt_id th = u → start_next_evict_cline_flag th = true →
  next_evict_cline th = Some r → recv_cur_evict_msg_flag th = false → inbox th = m :: ms →
  raw_cline_tag m = tag (lines c r) → mtype_of (raw_mtype m) = Some ty →
  evict_acked ty = true → stable_word (status (lines c r)) → lock (lines c r) = UNLOCKED →
  (∀ c', released c c' UNLOCKED →
     Q () c' ((evicting th) <| wait_cur_evict_cline_flag := false |>)) →
  (∀ c' s, released c c' UNLOCKED → s = SHARED ∨ s = MODIFIED →
     Q () c' ((evicting th) <| wait_cur_evict_cline_flag := false |>
       <| cur_evict_cline_type := evict_kind s |> <| inbox := ms |>
       <| outbox := outbox th ++ [request (evict_request s) (addr (lines c r)) c th] |>)) →
  wp true R (start_evict junk;; wait_evict junk) Q c th.
Proof.
  intros Ho Hu Hst Hn Hk Hin Htag Hty Hack S K HQ1 HQ2. wp_step.
  apply (start_evict_spec _ c); [apply line_like_refl|done..| |].
  - rewrite K. intros c' Hr _. unfold wait_evict. wp_step. wp_step.
    exact (wp_ret _ _ () _ _ _ (HQ1 _ Hr)).
  - intros c' s _ Hs _ L K' S' A'.
    eapply (wait_evict_acked _ c); try done. intros c'' Hr. by apply HQ2.
Qed.
End transaction.

(** ** A refused eviction

    [start_evict] keeps the line's lock until the eviction has ended; when the
    directory refuses, [wait_evict] calls it again. *)
Section refused.
Context (junk : RawMessage) (r : line_ref) (u : Z).
Definition no_step (s s' : AtomicTag) : Prop := False.
Notation R := (line_rely no_step r u).

Lemma no_step_agent s s' : no_step s s' → agent_step s s'.
Proof. done. Qed.

Lemma no_step_rtc s s' : rtc no_step s s' → s' = s.
Proof. by intros [|? ? ? []]. Qed.

Lemma quiet_line c c' : R c c' → lines c' r = lines c r.
Proof. intros [(s & -> & H) _]. apply no_step_rtc in H as ->. by destruct (lines c r). Qed.

Lemma evict_refused_spec c m ms s th Q :
  own_place r c → req_appt_id th = u → start_next_evict_cline_flag th = true →
  next_evict_cline th = Some r → recv_cur_evict_msg_flag th = false → inbox th = m :: ms →
  raw_cline_tag m = tag (lines c r) →
  mtype_of (raw_mtype m) = Some DIR_2_APP_M_CHECK_FAIL →
  status (lines c r) = mk_AtomicTag false s → s = SHARED ∨ s = MODIFIED →
  wp false R (start_evict junk;; wait_evict junk) Q c th.
Proof.
  intros Ho Hu Hst Hn Hk Hin Htag Hty S Hs. wp_step.
  assert (∀ c s, status (lines c r) = mk_AtomicTag false s → s = SHARED ∨ s = MODIFIED →
    ∀ s0, rtc no_step (status (lines c r)) s0 → at_status s0 ≠ INVALID) as Hnot.
  { intros c1 s1 E H s0 Hr. apply no_step_rtc in Hr as ->. rewrite E. by destruct H as [-> | ->]. }
  assert (∀ c s, status (lines c r) = mk_AtomicTag false s → s = SHARED ∨ s = MODIFIED →
    stable_word (status (lines c r))) as Hstable by (intros c1 s1 -> ?; exists s1; tauto).
  apply (start_evict_spec junk r u no_step no_step_agent false c);
    [apply line_like_refl|done..|by eapply Hstable|done| |].
  { intros c' _ (s0 & Hr & E). by destruct (Hnot c s S Hs s0 Hr). }
  intros c1 s1 _ Hs1 (s0 & Hr & E0) L1 K1 S1 A1. apply no_step_rtc in Hr as ->. rewrite S in E0.
  cbn in E0. subst s1. apply no_step_rtc in S1.
  eapply wait_evict_first; [done..|]. intros c2 H2. unfold evict_reply.
  wp_step. wp_step. intros c3 H3.
  assert (R c1 c3) as H13 by (by etransitivity). pose proof (quiet_line _ _ H13) as E3.
  destruct (line_like_fields _ _ _ L1) as (_ & T1 & _). rewrite E3, T1, Htag, Z.eqb_refl, Hty.
  wp_step. wp_step. wp_step. unfold cas_loop. apply wp_await; [apply _|done|].
  intros c4 k c5 H4 E5.
  assert (R c1 c4) as H14 by (by etransitivity). pose proof (quiet_line _ _ H14) as E4.
  assert (c5 = set_line r ((lines c4 r) <| status := mk_AtomicTag false s |>) c4) as ->.
  { destruct Hs as [-> | ->];
      [change (first_cas 0 (evict_refused EVICT_SHARED) r c4 = Some (k, c5)) in E5
      |change (first_cas 0 (evict_refused EVICT_DIRTY) r c4 = Some (k, c5)) in E5];
      cbn in E5; unfold cas_line in E5; rewrite E4, S1 in E5;
      rewrite decide_True in E5 by done; injection E5 as <- <-; by rewrite E4. }
  clear E5. wp_step. wp_step. wp_step.
  set (c6 := set_line _ _ _). set (th6 := set_field _ _ _).
  assert (lines c6 r = (lines c1 r) <| status := mk_AtomicTag false s |>) as E6.
  { unfold c6. by rewrite lines_set_same, E4. }
  assert (status (lines c6 r) = mk_AtomicTag false s) as S6 by (by rewrite E6).
  assert (available_data_stack c6 u = available_data_stack c u) as A6.
  { by rewrite <-A1, <-(rely_stack r u no_step _ _ H14). }
  assert (line_like r c c6) as L6.
  { apply line_like_status. by apply (line_like_rely r u no_step c c1). }
  assert (lock (lines c6 r) = LOCKED) as K6 by (by rewrite E6).
  clearbody c6.
  apply (start_evict_spec junk r u no_step no_step_agent false c);
    [done..|by eapply Hstable|done| |].
  { intros c' _ (s0 & Hr & E). by destruct (Hnot c6 s S6 Hs s0 Hr). }
  intros c' s' K. by rewrite K6 in K.
Qed.
End refused.

(** ** What the transactions promise

    The line [r] belongs to the thread for the time of its transaction: nobody else
    writes its tag, its address, its buffer or its lock, and the agents change its
    status by [agent_step].  A mark of an agent is never lost. *)

(** C30: A read miss ends, and never returns a line that an agent took away: with the
    line in [TO_SHARED], one request leaves with the line's buffer as destination, the
    reply is consumed, and the bytes returned are those of the buffer while the line's lock
    is held for reading, after the status was found [SHARED] or [MODIFIED] under that lock
    ([read_under_lock]); when the reply is a refusal, or
    when the line was marked before, nothing is returned and the line is invalid and
    unlocked.  Only after [DIR_2_APP_BITMAP_CHECK_FAIL] does the thread wait, for the
    mark of the agent. *)
Theorem read_miss_settles junk r u a start size c th m ms ty succ :
  status (lines c r) = mk_AtomicTag false TO_SHARED ∨
    status (lines c r) = mk_AtomicTag true TO_SHARED →
  lock (lines c r) = UNLOCKED →
  inbox th = m :: ms → raw_cline_tag m = getTag a → mtype_of (raw_mtype m) = Some ty →
  miss_replies_read ty = Some succ →
  wp (bool_decide (ty ≠ DIR_2_APP_BITMAP_CHECK_FAIL)) (line_rely agent_step r u)
    (readLine_miss junk a r start size)
    (λ bs c' th', read_result r u c start size bs c' ∧
       (succ = false ∨ at_flag (status (lines c r)) = true →
          bs = None ∧ status (lines c' r) = mk_AtomicTag false INVALID) ∧
       th' = th <| inbox := ms |> <| outbox := outbox th ++ [request junk r R_READ_MISS a c th] |>)
    c th.
Proof. intros. by eapply readLine_miss_spec; eauto. Qed.

(** C32: An eviction that the directory acknowledges ends and returns the line's buffer:
    from the turn after [newLine] has moved the line to its shadow slot, [start_evict]
    and [wait_evict] leave the shadow slot free and unlocked and the buffer on top of
    the thread's free buffers, whatever the agents do to the line meanwhile; either one
    request has left, of the kind of the status that was claimed, and one reply has
    been consumed, or the line had been invalidated and no message was needed. *)
Theorem evict_completes junk r u c th m ms ty :
  own_place r c → req_appt_id th = u → start_next_evict_cline_flag th = true →
  next_evict_cline th = Some r → recv_cur_evict_msg_flag th = false → inbox th = m :: ms →
  raw_cline_tag m = tag (lines c r) → mtype_of (raw_mtype m) = Some ty →
  evict_acked ty = true → stable_word (status (lines c r)) → lock (lines c r) = UNLOCKED →
  wp true (line_rely agent_step r u) (start_evict junk;; wait_evict junk)
    (λ _ c' th', released r u c c' UNLOCKED ∧
       start_next_evict_cline_flag th' = false ∧ wait_cur_evict_cline_flag th' = false ∧
       ((inbox th' = m :: ms ∧ outbox th' = outbox th) ∨
        ∃ s, (s = SHARED ∨ s = MODIFIED) ∧ inbox th' = ms ∧
          outbox th' = outbox th ++ [request junk r (evict_request s) (addr (lines c r)) c th]))
    c th.
Proof.
  intros. eapply evict_spec; [done..| |].
  - intros c' Hr. split_and!; [done..|]. by left.
  - intros c' s Hr Hs. split_and!; [done..|]. right. by exists s.
Qed.

(** An eviction that the directory refuses never ends: when the reply is
    [DIR_2_APP_M_CHECK_FAIL] and no agent has touched the line, [wait_evict] takes the
    line back and calls [start_evict] again, which waits for the line's lock that this
    thread has held since the first call. *)
Theorem evict_retry_deadlock junk r u c th m ms s :
  own_place r c → req_appt_id th = u → start_next_evict_cline_flag th = true →
  next_evict_cline th = Some r → recv_cur_evict_msg_flag th = false → inbox th = m :: ms →
  raw_cline_tag m = tag (lines c r) →
  mtype_of (raw_mtype m) = Some DIR_2_APP_M_CHECK_FAIL →
  status (lines c r) = mk_AtomicTag false s → s = SHARED ∨ s = MODIFIED →
  ∀ es, Forall (respects (line_rely no_step r u)) es →
    ∃ w, (start_evict junk;; wait_evict junk) (mk_world c th es) = Spin w.
Proof.
  intros Ho Hu Hst Hn Hk Hin Htag Hty S Hs es He.
  pose proof (evict_refused_spec junk r u c m ms s th (λ _ _ _, False)
    Ho Hu Hst Hn Hk Hin Htag Hty S Hs es He) as H.
  destruct ((start_evict junk;; wait_evict junk) _) as [[] w|w|]; [by destruct H|by exists w|done].
Qed.

(** ** Witnesses *)
Definition ex_state (s : AtomicTag) (shadow : bool) : cache :=
  mk_cache (λ r, mk_LineInfo 0 8192 s 0 shadow (getTag ex_addr) ex_addr (ref_set r) (ref_slot r))
    (λ _, 0) (λ _, [4096]) (λ _, 7).
Definition ex_reply (ty : RawMessageType) : RawMessage :=
  ex_raw <| raw_mtype := ty |> <| raw_cline_tag := getTag ex_addr |>.
Definition ex_evictor (ty : RawMessageType) : thread :=
  (ex_thread [ex_reply ty]) <| start_next_evict_cline_flag := true |>
    <| next_evict_cline := Some (mk_line_ref true 33337 7) |>.

Lemma read_miss_settles_witness :
  let r := mk_line_ref false 33337 7 in
  let c := ex_state (mk_AtomicTag false TO_SHARED) false in
  let th := ex_thread [ex_reply DIR_2_APP_READ_MISS_ACKDATA] in
  wp true (line_rely agent_step r 0) (readLine_miss ex_raw ex_addr r 10 4)
    (λ bs c' th', read_result r 0 c 10 4 bs c' ∧
       (true = false ∨ at_flag (status (lines c r)) = true →
          bs = None ∧ status (lines c' r) = mk_AtomicTag false INVALID) ∧
       th' = th <| inbox := [] |>
                <| outbox := [] ++ [request ex_raw r R_READ_MISS ex_addr c th] |>) c th.
Proof.
  intros r c th.
  apply (read_miss_settles ex_raw r 0 ex_addr 10 4 c th (ex_reply DIR_2_APP_READ_MISS_ACKDATA) []
    DIR_2_APP_READ_MISS_ACKDATA true); try reflexivity. by left.
Defined.

Lemma evict_completes_witness :
  let r := mk_line_ref true 33337 7 in
  let c := ex_state (mk_AtomicTag false MODIFIED) true in
  let th := ex_evictor DIR_2_APP_EVICT_DIRTY_ACK in
  wp true (line_rely agent_step r 0) (start_evict ex_raw;; wait_evict ex_raw)
    (λ _ c' th', released r 0 c c' UNLOCKED ∧
       start_next_evict_cline_flag th' = false ∧ wait_cur_evict_cline_flag th' = false ∧
       ((inbox th' = [ex_reply DIR_2_APP_EVICT_DIRTY_ACK] ∧ outbox th' = []) ∨
        ∃ s, (s = SHARED ∨ s = MODIFIED) ∧ inbox th' = [] ∧
          outbox th' = [] ++ [request ex_raw r (evict_request s) (addr (lines c r)) c th])) c th.
Proof.
  intros r c th.
  apply (evict_completes ex_raw r 0 c th (ex_reply DIR_2_APP_EVICT_DIRTY_ACK) []
    DIR_2_APP_EVICT_DIRTY_ACK); try reflexivity.
  exists MODIFIED. split; [reflexivity|]. by right; right.
Defined.

Lemma evict_retry_deadlock_witness :
  let c := ex_state (mk_AtomicTag false SHARED) true in
  let th := ex_evictor DIR_2_APP_M_CHECK_FAIL in
  ∃ w, (start_evict ex_raw;; wait_evict ex_raw) (mk_world c th []) = Spin w.
Proof.
  intros c th.
  apply (evict_retry_deadlock ex_raw (mk_line_ref true 33337 7) 0 c th
    (ex_reply DIR_2_APP_M_CHECK_FAIL) [] SHARED); try reflexivity;
    [by left|by constructor].
Defined.
