(* ===== verification/Agent.v ===== *)
(** * Agent: the cache agents of a node, [CacheAgent.cpp]

    An agent receives the directory's probes for lines of its node and invalidates or
    downgrades the line, or leaves its mark on a line whose own transaction is still
    under way.  [PRIMITIVE_ALLOC] is in [GlobalMem.agent_alloc]. *)
From S2P Require Import Prelude DsmType HostMsg HostSync GlobalMem HostLine HostLogic CacheSet.
From stdpp Require Import base numbers option list list_numbers relations.
Open Scope Z_scope.

(** ** The loops on [tmp_status] *)

(** [casFlagAndStatus(false, s, b)] on the line with the status just read. *)
Definition cas_to (r : line_ref) (c : cache) (b : AtomicTag) : option cache :=
  cas_line (mk_AtomicTag false (at_status (status (lines c r)))) b r c.

(** [DIR_2_AGENT_WRITE_SHARED_NOTONLY], [DIR_2_AGENT_WRITE_MISS_SHARED] *)
Definition probe_write_shared (r : line_ref) (c : cache) : option cache :=
  let s := at_status (status (lines c r)) in
  match s with
  | SHARED => cas_to r c (mk_AtomicTag false INVALID)
  | TO_MODIFIED | TO_SHARED | TO_PRESERVED => cas_to r c (mk_AtomicTag true s)
  | PRESERVED => Some c
  | _ => None
  end.

(** [DIR_2_AGENT_READ_MISS_DIRTY] *)
Definition probe_read_dirty (r : line_ref) (c : cache) : option cache :=
  match at_status (status (lines c r)) with
  | MODIFIED => cas_to r c (mk_AtomicTag false SHARED)
  | TO_PRESERVED => cas_to r c (mk_AtomicTag false TO_SHARED)
  | PRESERVED => Some c
  | _ => None
  end.

(** [DIR_2_AGENT_WRITE_MISS_DIRTY] *)
Definition probe_write_dirty (r : line_ref) (c : cache) : option cache :=
  let s := at_status (status (lines c r)) in
  match s with
  | MODIFIED => cas_to r c (mk_AtomicTag false INVALID)
  | TO_MODIFIED | TO_SHARED | TO_PRESERVED => cas_to r c (mk_AtomicTag true s)
  | PRESERVED => Some c
  | _ => None
  end.

(** [None]: the message is not a probe. *)
Definition probe (ty : RawMessageType) : option (line_ref → cache → option cache) :=
  match ty with
  | DIR_2_AGENT_WRITE_SHARED_NOTONLY | DIR_2_AGENT_WRITE_MISS_SHARED => Some probe_write_shared
  | DIR_2_AGENT_READ_MISS_DIRTY => Some probe_read_dirty
  | DIR_2_AGENT_WRITE_MISS_DIRTY => Some probe_write_dirty
  | _ => None
  end.

(** ** [CacheAgent::agentThread] *)
Definition agent_serve (m : RawMessage) : M unit :=
  let set_idx := calLineSet (raw_cline_tag m) in
  set_rLock set_idx;;
  line ← findLineForAgent (raw_cline_tag m);
  match line with
  | None => mret ()
  | Some r =>
      f ← deref (ty ← mtype_of (raw_mtype m); probe ty);
      await (λ c, c ← f r c; Some ((), c))
  end;;
  set_rUnlock set_idx.

(** [channel->recv(stopFlag)]: the next message; the agent is stopped after the last. *)
Definition agent_recv : M (option RawMessage) :=
  access (λ c, ((), c));;
  ms ← gets inbox;
  match ms with
  | [] => mret None
  | m :: ms => modify (λ t, t <| inbox := ms |>);; mret (Some m)
  end.

Fixpoint agent_loop (n : nat) : M unit :=
  m ← agent_recv;
  match m, n with
  | Some m, S n => agent_serve m;; agent_loop n
  | _, _ => mret ()
  end.

Definition agentThread : M unit := n ← to_receive; agent_loop n.

(** ** What a probe does to a line *)

(** The status that a probe leaves; [None]: the agent waits. *)
Definition served (ty : RawMessageType) (s : AtomicTag) : option AtomicTag :=
  match ty, s with
  | (DIR_2_AGENT_WRITE_SHARED_NOTONLY | DIR_2_AGENT_WRITE_MISS_SHARED), mk_AtomicTag false SHARED
  | DIR_2_AGENT_WRITE_MISS_DIRTY, mk_AtomicTag false MODIFIED =>
      Some (mk_AtomicTag false INVALID)
  | (DIR_2_AGENT_WRITE_SHARED_NOTONLY | DIR_2_AGENT_WRITE_MISS_SHARED |
     DIR_2_AGENT_WRITE_MISS_DIRTY), mk_AtomicTag false (TO_MODIFIED | TO_SHARED | TO_PRESERVED) =>
      Some (mk_AtomicTag true (at_status s))
  | DIR_2_AGENT_READ_MISS_DIRTY, mk_AtomicTag false MODIFIED => Some (mk_AtomicTag false SHARED)
  | DIR_2_AGENT_READ_MISS_DIRTY, mk_AtomicTag false TO_PRESERVED =>
      Some (mk_AtomicTag false TO_SHARED)
  | _, _ => None
  end.

Definition is_probe (ty : RawMessageType) : bool :=
  match ty with
  | DIR_2_AGENT_WRITE_SHARED_NOTONLY | DIR_2_AGENT_WRITE_MISS_SHARED
  | DIR_2_AGENT_READ_MISS_DIRTY | DIR_2_AGENT_WRITE_MISS_DIRTY => true
  | _ => false
  end.

Lemma served_step ty s s' : served ty s = Some s' → agent_step s s'.
Proof.
  destruct s as [[] s]; [by destruct ty|]. intros H.
  destruct ty; try discriminate H; destruct s; try discriminate H; injection H as <-;
    constructor; tauto.
Qed.

Lemma probe_served ty f r c :
  probe ty = Some f → occupied (lines c r) →
  f r c = (s ← served ty (status (lines c r)); Some (set_line r ((lines c r) <| status := s |>) c)).
Proof.
  intros Hf Ho. unfold occupied in Ho. destruct (lines c r) as [k d s li sh t a si sl] eqn:El.
  cbn in Ho. destruct s as [b s].
  destruct ty; try discriminate Hf; injection Hf as <-;
    unfold probe_write_shared, probe_read_dirty, probe_write_dirty, cas_to, cas_line;
    rewrite El; cbn; destruct s; try done; destruct b; cbn;
    rewrite ?(decide_True (P := mk_AtomicTag _ _ = _)) by done;
    rewrite ?(decide_False (P := mk_AtomicTag _ _ = _)) by done; done.
Qed.

(** ** Looking the line up *)
Lemma findLineForAgent_spec tot t c th Q :
  tag_unique t c →
  (∀ r, in_set (calLineSet t) r → holds t c r → Q (Some r) c th) →
  ((∀ r, in_set (calLineSet t) r → ¬ holds t c r) → Q None c th) →
  wp tot eq (findLineForAgent t) Q c th.
Proof.
  intros Hu HQ1 HQ2. unfold findLineForAgent. wp_step. apply find_slot_spec. intros o Ho.
  wp_step. apply find_slot_spec. intros o' Ho'.
  destruct o as [r|], o' as [r'|].
  - destruct Ho as (k & Hk & -> & H), Ho' as (k' & Hk' & -> & H').
    assert (mk_line_ref false (calLineSet t) k = mk_line_ref true (calLineSet t) k') as E.
    { apply Hu; auto using in_slots. }
    done.
  - destruct Ho as (k & Hk & -> & H). apply wp_ret, HQ1; auto using in_slots.
  - destruct Ho' as (k & Hk & -> & H). apply wp_ret, HQ1; auto using in_slots.
  - apply wp_ret, HQ2. intros [b j k] [E Hk] H. cbn in *. subst j.
    apply elem_of_slots in Hk. destruct b; [by apply (Ho' k)|by apply (Ho k)].
Qed.

(** Under the set's lock for reading, one probe of an agent whose line is [r]. *)
Lemma agent_serve_spec m ty r c th k Q :
  let i := calLineSet (raw_cline_tag m) in
  cline_set_rwlock_vector c i = k → k ≠ LOCKED → fits 16 k →
  tag_unique (raw_cline_tag m) c → in_set i r → holds (raw_cline_tag m) c r →
  mtype_of (raw_mtype m) = Some ty → is_probe ty = true →
  (∀ s c', served ty (status (lines c r)) = Some s →
     same_cache (set_line r ((lines c r) <| status := s |>) c) c' → Q () c' th) →
  wp (bool_decide (is_Some (served ty (status (lines c r))))) eq (agent_serve m) Q c th.
Proof.
  intros i Hk Hkl Hkf Hu Hr Hh Hty Hp HQ. unfold agent_serve. fold i.
  destruct (rLock_word k) as [k1|] eqn:Ek.
  2:{ unfold rLock_word in Ek. by destruct (Z.eqb_spec k LOCKED). }
  wp_step. eapply with_set_lock_spec; [exact Hk|exact Ek|]. set (c1 := set_field _ _ c).
  wp_step. apply findLineForAgent_spec; [exact Hu| |].
  2:{ intros Hno. by destruct (Hno r Hr). }
  intros r' Hr' Hh'. assert (r' = r) as -> by (by apply Hu). clear Hr' Hh'.
  wp_step. assert (∃ f, probe ty = Some f) as [f Hf].
  { destruct ty; try discriminate Hp; eauto. }
  wp_step. eapply wp_deref; [rewrite Hty; exact Hf|].
  pose proof (probe_served ty f r c1 Hf (proj1 Hh)) as Ef.
  change (lines c1 r) with (lines c r) in Ef.
  apply wp_await; [apply _| |].
  - intros Hs%bool_decide_eq_true c2 <-. rewrite Ef. destruct Hs as [s ->]. cbn. eauto.
  - intros c2 [] c3 <- E. rewrite Ef in E.
    destruct (served ty (status (lines c r))) as [s|] eqn:Es; [|done]. cbn in E.
    injection E as <-. eapply with_set_lock_spec; [cbn; by rewrite Z.eqb_refl|done|].
    apply (HQ s); [done|]. split; [done|]. split; [|done]. intros j. cbn.
    destruct (Z.eqb_spec j i) as [->|]; [|done]. rewrite Hk. by apply (rUnlock_rLock k).
Qed.

Lemma same_cache_rely c c' r s r' u :
  same_cache (set_line r ((lines c r) <| status := s |>) c) c' →
  agent_step (status (lines c r)) s → line_rely agent_step r' u c c'.
Proof.
  intros (Hl & _ & Hst & _) H. split; [|by rewrite Hst]. rewrite Hl.
  destruct (decide (r' = r)) as [->|Hne].
  - rewrite lines_set_same. exists s. split; [done|]. by apply rtc_once.
  - rewrite lines_set_other by done. exists (status (lines c r')).
    split; [by destruct (lines c r')|done].
Qed.

(** C31: An agent does its part of the protocol and nothing else: on a probe for a line
    of the node, found under the set's lock in its slot or in its shadow slot, the agent
    returns exactly when the status is one it can serve.  A readable copy is invalidated
    or downgraded, a line under a transaction of its owner is marked (or, for a read of
    a line under eviction, becomes [TO_SHARED]); the rest of the node, its locks
    included, is as before.  The change is an [agent_step] of that line, as the owners
    of lines rely on. *)
Theorem agent_serves m ty r c th k :
  let i := calLineSet (raw_cline_tag m) in
  cline_set_rwlock_vector c i = k → k ≠ LOCKED → fits 16 k →
  tag_unique (raw_cline_tag m) c → in_set i r → holds (raw_cline_tag m) c r →
  mtype_of (raw_mtype m) = Some ty → is_probe ty = true →
  wp (bool_decide (is_Some (served ty (status (lines c r))))) eq (agent_serve m)
    (λ _ c' th', th' = th ∧ (∃ s, served ty (status (lines c r)) = Some s ∧
       same_cache (set_line r ((lines c r) <| status := s |>) c) c') ∧
       ∀ r' u, line_rely agent_step r' u c c') c th.
Proof.
  intros i Hk Hkl Hkf Hu Hr Hh Hty Hp. eapply agent_serve_spec; try done.
  intros s c' Hs Hc. split_and!; [done|by exists s|]. intros r' u.
  eapply same_cache_rely; [done|by eapply served_step].
Qed.

(** ** Witness: a probe for the only line of a node *)
Definition ex_node (s : AtomicTag) : cache :=
  set_line (mk_line_ref false 33337 7)
    (ex_line <| tag := getTag ex_addr |> <| addr := ex_addr |> <| status := s |> <| data := 4096 |>)
    (mk_cache (λ _, ex_line <| status := mk_AtomicTag false PRESERVED |>) (λ _, 0) (λ _, [])
      (λ _, 0)).

Lemma ex_node_unique s : s ≠ mk_AtomicTag false PRESERVED → tag_unique (getTag ex_addr) (ex_node s).
Proof.
  intros _. assert (∀ r, holds (getTag ex_addr) (ex_node s) r → r = mk_line_ref false 33337 7) as H.
  { intros r [O _]. destruct (decide (r = mk_line_ref false 33337 7)) as [|Hne]; [done|].
    unfold ex_node in O. by rewrite lines_set_other in O. }
  intros r r' _ _ H1 H2. by rewrite (H r H1), (H r' H2).
Qed.

Lemma agent_serves_witness :
  let m := ex_raw <| raw_mtype := DIR_2_AGENT_WRITE_MISS_SHARED |>
                  <| raw_cline_tag := getTag ex_addr |> in
  let r := mk_line_ref false 33337 7 in
  let c := ex_node (mk_AtomicTag false SHARED) in
  wp true eq (agent_serve m)
    (λ _ c' th', th' = ex_thread [] ∧
       (∃ s, served DIR_2_AGENT_WRITE_MISS_SHARED (status (lines c r)) = Some s ∧
          same_cache (set_line r ((lines c r) <| status := s |>) c) c') ∧
       ∀ r' u, line_rely agent_step r' u c c') c (ex_thread []).
Proof.
  intros m r c.
  apply (agent_serves m DIR_2_AGENT_WRITE_MISS_SHARED r c (ex_thread []) 0).
  - vm_compute. reflexivity.
  - discriminate.
  - split; [lia|reflexivity].
  - apply ex_node_unique. discriminate.
  - split; [vm_compute; reflexivity|]. cbn. split; [lia|reflexivity].
  - split; [vm_compute; discriminate|vm_compute; reflexivity].
  - reflexivity.
  - reflexivity.
Defined.
