(* ===== verification/HostRace.v ===== *)
(** * HostRace: the cache under concurrent threads, agents and DMA

    Executions that interleave the operations of [CacheSet], [CacheAccess] and [Agent]
    on one node: while a thread is between two of its accesses, other threads and
    agents run their own operations, and the FPGA writes line buffers. *)
From S2P Require Import Prelude DsmType HostMsg HostSync GlobalMem HostLine HostLogic CacheSet.
From S2P Require Import CacheAccess Agent.
From stdpp Require Import base numbers option list list_numbers relations.
Open Scope Z_scope.

(** What a computation of another thread does to the shared state, with what happens
    between its own accesses. *)
Definition run {A} (m : M A) (t : thread) (es : list (cache → cache)) (c : cache) : cache :=
  match m (mk_world c t es) with
  | Ret _ w | Spin w => shared w
  | Fault => c
  end.

(** The FPGA writes the data of a reply to the line's buffer before the reply. *)
Definition dma (p : Z) (bs : list Z) (c : cache) : cache :=
  c <| memory := store_bytes (memory c) p bs |>.

(** ** Computations while nothing happens

    [quiet m c th a c' th']: when nothing happens on the node for as long as [m] runs, it
    returns [a]; [leads m c th m' c' th']: it goes on as [m'].  What comes later is left to
    come. *)
Definition quiet {A} (m : M A) (c : cache) (th : thread) (a : A) (c' : cache) (th' : thread) : Prop :=
  ∃ n, ∀ es, m (mk_world c th (replicate n id ++ es)) = Ret a (mk_world c' th' es).
Definition leads {A} (m : M A) (c : cache) (th : thread) (m' : M A) (c' : cache) (th' : thread) : Prop :=
  ∃ n, ∀ es, m (mk_world c th (replicate n id ++ es)) = m' (mk_world c' th' es).

Section quiet.
Implicit Types (c : cache) (th : thread).

Lemma quiet_ret {A} (a : A) c th : quiet (mret a) c th a c th.
Proof. by exists 0%nat. Qed.
Lemma quiet_gets {A} (f : thread → A) c th : quiet (gets f) c th (f th) c th.
Proof. by exists 0%nat. Qed.
Lemma quiet_access {A} (f : cache → A * cache) c th : quiet (access f) c th (f c).1 (f c).2 th.
Proof. exists 1%nat. intros es. unfold access. cbn. by destruct (f c). Qed.
Lemma quiet_await {A} (f : cache → option (A * cache)) c th a c' : f c = Some (a, c') → quiet (await f) c th a c' th.
Proof. intros E. exists 1%nat. intros es. unfold await. cbn. by rewrite E. Qed.

Lemma quiet_bind {A B} (m : M A) (k : A → M B) c th a c1 th1 b c2 th2 :
  quiet m c th a c1 th1 → quiet (k a) c1 th1 b c2 th2 → quiet (m ≫= k) c th b c2 th2.
Proof.
  intros [n H] [n' H']. exists (n + n')%nat. intros es. rewrite replicate_add, <-app_assoc.
  unfold mbind, M_bind. by rewrite H, H'.
Qed.

Lemma leads_refl {A} (m : M A) c th : leads m c th m c th.
Proof. by exists 0%nat. Qed.
Lemma leads_bind {A B} (m : M A) (k : A → M B) c th a c1 th1 m' c2 th2 :
  quiet m c th a c1 th1 → leads (k a) c1 th1 m' c2 th2 → leads (m ≫= k) c th m' c2 th2.
Proof.
  intros [n H] [n' H']. exists (n + n')%nat. intros es. rewrite replicate_add, <-app_assoc.
  unfold mbind, M_bind at 1. rewrite H. apply H'.
Qed.

(** The lookup of a tag. *)
Lemma quiet_find_slot b i t js c th : ∃ o, quiet (find_slot b i t js) c th o c th ∧
  match o with
  | Some r => ∃ k, k ∈ js ∧ r = mk_line_ref b i k ∧ holds t c r
  | None => ∀ k, k ∈ js → ¬ holds t c (mk_line_ref b i k)
  end.
Proof.
  induction js as [|j js IH]; cbn [find_slot].
  - exists None. split; [apply quiet_ret|]. by intros k ?%elem_of_nil.
  - set (r := mk_line_ref b i j).
    assert (∀ o, quiet (if bool_decide (at_status (status (lines c r)) ≠ PRESERVED) && (tag (lines c r) =? t)
      then mret (Some r) else find_slot b i t js) c th o c th → quiet (s ← getStatus r; t' ← line_get tag r;
      if bool_decide (s ≠ PRESERVED) && (t' =? t) then mret (Some r) else find_slot b i t js) c th o c th) as Hrun.
    { intros o H. eapply quiet_bind; [apply quiet_access|]. eapply quiet_bind; [apply quiet_access|]. exact H. }
    case_bool_decide as Hs; destruct (Z.eqb_spec (tag (lines c r)) t) as [Ht|Ht]; cbn [andb] in Hrun.
    { exists (Some r). split; [apply Hrun, quiet_ret|]. exists j. split_and!; [by left|done|by split]. }
    all: destruct IH as (o & Hq & Ho); exists o; (split; [by apply Hrun|]); destruct o as [r'|];
      [destruct Ho as (k & Hk & ? & ?); exists k; split_and!; [by right|done|done]|];
      intros k [->|Hk]%elem_of_cons; [by intros [? ?]|by apply Ho].
Qed.
End quiet.

(** ** Reading a line that changes hands *)
Definition set_word (i k : Z) (c : cache) : cache :=
  c <| cline_set_rwlock_vector := λ j, if j =? i then k else cline_set_rwlock_vector c j |>.
(** The lock of a set has been taken for reading and released. *)
Definition set_visited (i : Z) (c : cache) : cache := set_word i UNLOCKED (set_word i 2 c).

Section hand_over.
Context (junk : RawMessage) (a : GlobalAddress) (r : line_ref) (c0 : cache) (th : thread) (start size : Z).
#[local] Abbreviation i := (calLineSet (getTag a)).
Context (Hset : in_set i r) (Hmain : ref_shadow r = false).
Context (Hholds : holds (getTag a) c0 r) (Huniq : tag_unique (getTag a) c0).
Context (Hvalid : valid_word (status (lines c0 r))) (Hfree : cline_set_rwlock_vector c0 i = UNLOCKED).
Context (Hstart : start_next_evict_cline_flag th = false).

(** A hit finds the line and lets the set go. *)
Lemma readLine_turn_found :
  leads (readLine_turn junk a start size) c0 th
    (bs ← locked_read r start size; mret (bs, bool_decide (is_Some bs))) (set_visited i c0) th.
Proof.
  assert (∀ r', in_set i r' → holds (getTag a) (set_word i 2 c0) r' → r' = r) as Hu by (intros r' Hr' H; by apply Huniq).
  unfold readLine_turn, start_evict.
  eapply leads_bind; [eapply quiet_bind; [apply quiet_gets|]; rewrite Hstart; apply quiet_ret|]. cbv zeta.
  eapply leads_bind.
  { apply (quiet_await _ c0 th () (set_word i 2 c0)). rewrite Hfree. done. }
  destruct (quiet_find_slot false i (getTag a) slots (set_word i 2 c0) th) as (o & Hq & Ho).
  eapply leads_bind; [exact Hq|].
  destruct (quiet_find_slot true i (getTag a) slots (set_word i 2 c0) th) as (o' & Hq' & Ho').
  eapply leads_bind; [exact Hq'|].
  destruct o' as [r'|].
  { destruct Ho' as (j & Hk & -> & H'). apply Hu in H'; [|by apply in_slots]. by rewrite <-H' in Hmain. }
  destruct o as [r'|].
  2: { exfalso. destruct r as [b s j], Hset as [E Hk]. cbn in *. subst b s. by apply (Ho j); [apply elem_of_slots|]. }
  destruct Ho as (j & Hk & -> & H'). apply Hu in H'; [|by apply in_slots]. rewrite H'.
  eapply leads_bind; [apply quiet_access|]. cbn [lines set_word].
  assert (cas_line (mk_AtomicTag false INVALID) (mk_AtomicTag false TO_SHARED) r (set_word i 2 c0) = None) as ->.
  { unfold cas_line. rewrite decide_False; [done|]. cbn. by destruct Hvalid as [-> | ->]. }
  cbn [fst snd]. eapply leads_bind.
  { apply (quiet_await _ (set_word i 2 c0) th () (set_visited i c0)). cbn. by rewrite Z.eqb_refl. }
  apply leads_refl.
Qed.

(** Then the others act, and the line is read as they leave it. *)
Lemma locked_read_changed (e : cache → cache) c :
  valid_word (status (lines (e c) r)) → lock (lines (e c) r) = UNLOCKED →
  ∃ w, locked_read r start size (mk_world c th [e]) =
      Ret (Some (bytes_at (memory (e c)) (data (lines (e c) r) + start) size)) w ∧
    local w = th ∧ lines (shared w) r = lines (e c) r.
Proof.
  intros Hv Hl. set (c2 := e c) in *. set (c3 := set_line r ((lines c2 r) <| lock := 2 |>) c2).
  assert (line_rLock r (mk_world c th [e]) = Ret () (mk_world c3 th [])) as E1.
  { unfold line_rLock, with_line_lock, await. cbn. fold c2. rewrite Hl. done. }
  assert (status (lines c3 r) = status (lines c2 r) ∧ data (lines c3 r) = data (lines c2 r) ∧ lock (lines c3 r) = 2) as (Es & Ed & Ek)
    by (unfold c3; by rewrite lines_set_same).
  assert (orM (is_status SHARED r) (is_status MODIFIED r) (mk_world c3 th []) = Ret true (mk_world c3 th [])) as E2.
  { unfold orM, is_status, getStatus, line_get, access, mbind, M_bind, mret, M_ret. cbn [next_state others shared local tail].
    destruct Hv as [E|E]; rewrite Es, E; [done|]. cbv beta. cbn [at_status]. rewrite bool_decide_false by done.
    cbn [next_state others shared local tail]. by rewrite Es, E. }
  set (c4 := set_line r ((lines c3 r) <| lock := UNLOCKED |>) c3).
  assert (line_rUnlock r (mk_world c3 th []) = Ret () (mk_world c4 th [])) as E3.
  { unfold line_rUnlock, with_line_lock, await. cbn [await_in next_state others shared local]. by rewrite Ek. }
  exists (mk_world c4 th []). split_and!; [|done|].
  - unfold locked_read, mbind, M_bind. rewrite E1, E2. unfold memcpy_from, access. cbn [next_state others shared local tail].
    unfold mret, M_ret. rewrite E3, Ed. done.
  - cbn [shared]. unfold c4. rewrite lines_set_same. unfold c3. rewrite lines_set_same.
    destruct (lines c2 r). cbn in *. by rewrite Hl.
Qed.

End hand_over.

(** C34: [readLine] reads a line that may have changed hands: it looks the line up under
    the set's lock, releases that lock, and only then takes the lock of the line, whose
    status it tests but not its tag.  Whatever address is cached, in whatever line [r], and
    whatever the other threads and agents do to the node at the moment between the two
    locks, if they leave the line unlocked and [SHARED] or [MODIFIED] (for any other
    address), there is an execution in which the reader returns the bytes of the line's
    buffer as they have left it, without a message and with the line as they have left it. *)
Theorem readLine_retag_race junk a r c0 th fuel start size (e : cache → cache) :
  let i := calLineSet (getTag a) in
  let c2 := e (set_visited i c0) in
  in_set i r → ref_shadow r = false → holds (getTag a) c0 r → tag_unique (getTag a) c0 →
  valid_word (status (lines c0 r)) → cline_set_rwlock_vector c0 i = UNLOCKED → start_next_evict_cline_flag th = false →
  valid_word (status (lines c2 r)) → lock (lines c2 r) = UNLOCKED →
  ∃ n w, readLine junk (S fuel) a start size (mk_world c0 th (replicate n id ++ [e])) =
      Ret (bytes_at (memory c2) (data (lines c2 r) + start) size) w ∧
    local w = th ∧ lines (shared w) r = lines c2 r.
Proof.
  intros i c2 Hset Hmain Hh Hu Hv Hf Hst Hv2 Hl2.
  destruct (readLine_turn_found junk a r c0 th start size Hset Hmain Hh Hu Hv Hf Hst) as [n Hn].
  destruct (locked_read_changed r th start size e (set_visited (calLineSet (getTag a)) c0) Hv2 Hl2) as (w & Hw & Hloc & Hlines).
  exists n, w. split_and!; [|done|done]. cbn [readLine]. unfold mbind, M_bind at 1. rewrite Hn.
  unfold mbind, M_bind. by rewrite Hw.
Qed.

(** ** An execution of the code

    Nine blocks of node 0 that belong to the same set; eight of them are cached. *)
Definition race_set : Z := 26514.
Definition race_block (k : Z) : GlobalAddress :=
  mk_GlobalAddress (4096 * nth (Z.to_nat k)
    [11953; 12111; 12800; 18439; 18937; 32298; 32726; 33293; 33779] 0) 0.
Definition race_line (r : line_ref) : LineInfo :=
  if decide (ref_shadow r = false ∧ ref_set r = race_set ∧ 0 ≤ ref_slot r < 8) then
    mk_LineInfo 0 (4096 * (ref_slot r + 1)) (mk_AtomicTag false SHARED) 0 false
      (getTag (race_block (ref_slot r))) (race_block (ref_slot r)) race_set (ref_slot r)
  else mk_LineInfo 0 0 (mk_AtomicTag false PRESERVED) 0 (ref_shadow r) 0 ga_Null
         (ref_set r) (ref_slot r).
Definition race_cache : cache := mk_cache race_line (λ _, 0) (λ _, []) (λ _, 1).

Definition race_slot : line_ref := mk_line_ref false race_set 7.
Definition block_A : GlobalAddress := race_block 7.
Definition block_B : GlobalAddress := race_block 8.

(** The directory takes block A away from this node, and another thread of the node
    reads block B, whose bytes are all 2. *)
Definition probe_A : cache → cache :=
  run (agent_serve (ex_raw <| raw_mtype := DIR_2_AGENT_WRITE_MISS_SHARED |>
                           <| raw_cline_tag := getTag block_A |>)) (ex_thread []) [].
Definition read_B : cache → cache :=
  run (readLine ex_raw 3 block_B 0 4)
    ((ex_thread [ex_raw <| raw_mtype := DIR_2_APP_READ_MISS_ACKDATA |>
                        <| raw_cline_tag := getTag block_B |>]) <| req_appt_id := 1 |>)
    (replicate 131 id ++ [dma (4096 * 8) (replicate 4096 2)]).

(** The two operations, run from their own code, are such a moment: the line of block A,
    whose bytes are all 1, becomes that of block B, and the reader of block A returns B's. *)
Lemma race_unique : tag_unique (getTag block_A) race_cache.
Proof.
  assert (∀ r, in_set (calLineSet (getTag block_A)) r → holds (getTag block_A) race_cache r → r = race_slot) as H.
  { intros [b s j] [Es Hj] [Ho Ht]. cbn in Es, Hj. change (calLineSet (getTag block_A)) with race_set in Es. subst s.
    assert (j = 0 ∨ j = 1 ∨ j = 2 ∨ j = 3 ∨ j = 4 ∨ j = 5 ∨ j = 6 ∨ j = 7) as Hc
      by (change max_cline_set_width_per_node with 8 in Hj; lia).
    destruct b; [by destruct Ho|]. destruct Hc as [->|[->|[->|[->|[->|[->|[->| ->]]]]]]]; [by vm_compute in Ht..|done]. }
  intros r r' Hr Hr' Hh Hh'. by rewrite (H r), (H r').
Qed.

Lemma readLine_retag_race_witness :
  getTag (addr (lines (read_B (probe_A (set_visited race_set race_cache))) race_slot)) ≠ getTag block_A ∧
  ∃ n w, readLine ex_raw 1 block_A 0 4 (mk_world race_cache (ex_thread []) (replicate n id ++ [λ c, read_B (probe_A c)])) =
      Ret [2; 2; 2; 2] w ∧
    local w = ex_thread [] ∧ lines (shared w) race_slot = lines (read_B (probe_A (set_visited race_set race_cache))) race_slot.
Proof.
  split; [by vm_compute|].
  apply (readLine_retag_race ex_raw block_A race_slot race_cache (ex_thread []) 0 0 4 (λ c, read_B (probe_A c))).
  - by vm_compute.
  - reflexivity.
  - by vm_compute.
  - exact race_unique.
  - left. reflexivity.
  - reflexivity.
  - reflexivity.
  - left. vm_compute. reflexivity.
  - vm_compute. reflexivity.
Defined.

(** Without the others, the same call returns A's bytes. *)
Example readLine_alone :
  match readLine ex_raw 1 block_A 0 4 (mk_world race_cache (ex_thread []) []) with
  | Ret bs w => bs = [1; 1; 1; 1] | _ => False
  end.
Proof. by vm_compute. Qed.

(** ** Eviction without a free buffer

    [newLine] takes the back of the thread's vector of free buffers when it evicts,
    without asking whether there is one: here all eight slots are taken. *)
Example newLine_no_buffer :
  newLine race_set block_B (mk_world race_cache (ex_thread []) []) = Fault.
Proof. by vm_compute. Qed.
