(* ===== verification/DsmAccess.v ===== *)
(** * DsmAccess: the node and its interface to the application

    [DSMConfig] ([Config.h]), the start of a node and [DSM::read], [DSM::write] with
    the variants of [DSM.h].  An access of any length is cut at the boundaries of
    the cache lines. *)
From S2P Require Import Prelude DsmType HostMsg HostSync GlobalMem HostLine HostLogic CacheSet.
From S2P Require Import CacheAccess.
From stdpp Require Import base numbers option list list_numbers relations.
Open Scope Z_scope.

(** ** [DSMConfig] *)
Definition MB : Z := 1024 * 1024.
Definition GB : Z := 1024 * MB.
Definition max_cline_num_per_node : Z := 5000000.
Definition max_gblock_num_per_node : Z := 5000000.

Record DSMConfig := mk_DSMConfig {
  node_id : Z;
  node_num : Z;
  appt_num_per_node : Z;
  syst_num_per_node : Z;
  mac_vec : list (list Z);
  gmem_size_per_node : Z;
  cache_size_per_node : Z;
  cline_num_per_node : Z;
  gblock_num_per_node : Z;
  fpga_pci_bus : Z;
  fpga_bridge_bar_size : Z;
  cpu_pool_size : Z;
}.

(** At least 200 MB, then up to the next whole megabyte. *)
Definition pool_size (u : Z) : Z :=
  let size := if MB * 200 <? u then u else MB * 200 in
  wrap 64 ((size / MB + 1) * MB).

(** [None]: an assertion fails, or the loop over the MAC addresses leaves [mac_vec]. *)
Definition new_DSMConfig (u_node_id u_node_num u_appt u_syst u_gmem_size u_cache_size u_bus : Z)
    (u_mac_vec : list (list Z)) : option DSMConfig :=
  let gmem := pool_size u_gmem_size in
  let cache := pool_size u_cache_size in
  let conf := mk_DSMConfig u_node_id u_node_num u_appt u_syst
    (take (Z.to_nat u_node_num) u_mac_vec ++
     replicate (Z.to_nat (max_node_num - u_node_num)) (replicate 6 0))
    gmem cache (to_int (u_cache_size / DSM_CACHE_LINE_SIZE))
    (to_int (u_gmem_size / DSM_CACHE_LINE_SIZE)) u_bus (MB * 4)
    (wrap 64 (GB + gmem + cache + GB)) in
  if (node_num conf <=? max_node_num) &&
     (appt_num_per_node conf <=? max_appt_num_per_node) &&
     (syst_num_per_node conf <=? max_syst_num_per_node) &&
     (cline_num_per_node conf <=? max_cline_num_per_node) &&
     (gblock_num_per_node conf <=? max_gblock_num_per_node) &&
     (wrap 64 (gmem + cache + GB) <=? cpu_pool_size conf) &&
     (wrap 64 ((appt_num_per_node conf + syst_num_per_node conf) * 64)
        <=? fpga_bridge_bar_size conf)
  then Some conf else None.

(** ** [DSM::DSM]: the messages that initialise the FPGA

    [gblocks] are the blocks that the slab allocator returned. *)
Definition init_dir_msg (junk : RawMessage) (i : Z) (gblock : Z) : RawMessage :=
  junk <| raw_mtype := INIT_DIR |> <| raw_dir_gblock_addr := gblock |>
    <| raw_dir_gblock_index := wrap 32 i |>
    <| raw_dir_gblock_bitmap := replicate (Z.to_nat max_node_num) 0 |>
    <| raw_init_state := S_UNSHARED |>.

Definition init_net_msg (junk : RawMessage) (i : Z) (mac : list Z) : RawMessage :=
  junk <| raw_mtype := INIT_NET |> <| raw_dir_gblock_nodeID := i |> <| raw_init_mac := mac |>.

Definition dsm_init_messages (junk : RawMessage) (conf : DSMConfig) (gblocks : list Z)
    : list RawMessage :=
  zip_with (init_dir_msg junk) (seqZ 0 (gblock_num_per_node conf)) gblocks ++
  zip_with (init_net_msg junk) (seqZ 0 max_node_num) (mac_vec conf).

(** [DSM::registerThread], thread number [id] ([appID.fetch_add(1)]); [rand] is
    [rand_r(&seed)]. *)
Definition registerThread (conf : DSMConfig) (junk : RawMessage) (id rand : Z)
    : thread * alloc_thread :=
  (mk_thread (node_id conf) id false false None None false junk EVICT_SHARED [] [],
   mk_alloc_thread new_LocalAllocator (rand mod node_num conf)).

(** ** [DSM::read], [DSM::write] over the two operations of the cache *)
Section spans.
Context (read_line : GlobalAddress → Z → Z → M (list Z)).
Context (write_line : GlobalAddress → Z → list Z → M unit).

(** The first part ends with the line, the following are whole lines but the last. *)
Definition first_len (a : GlobalAddress) (size : Z) : Z :=
  size `min` (DSM_CACHE_LINE_SIZE - ga_addr a mod DSM_CACHE_LINE_SIZE).

Definition advance (a : GlobalAddress) (n : Z) : GlobalAddress :=
  a <| ga_addr := wrap 64 (ga_addr a + n) |>.

(** [n] bytes are left; [k] bounds the turns of the [while]. *)
Fixpoint read_rest (k : nat) (iter : GlobalAddress) (n : Z) : M (list Z) :=
  match k with
  | S k =>
      if DSM_CACHE_LINE_SIZE <=? n then
        bs ← read_line iter 0 DSM_CACHE_LINE_SIZE;
        rest ← read_rest k (advance iter DSM_CACHE_LINE_SIZE) (n - DSM_CACHE_LINE_SIZE);
        mret (bs ++ rest)
      else if n =? 0 then mret [] else read_line iter 0 n
  | O => spin_forever
  end.

Definition read_span (a : GlobalAddress) (size : Z) : M (list Z) :=
  let start := ga_addr a mod DSM_CACHE_LINE_SIZE in
  let len := first_len a size in
  bs ← read_line a start len;
  if len =? size then mret bs
  else
    rest ← read_rest (S (Z.to_nat size)) (advance a len) (size - len);
    mret (bs ++ rest).

Fixpoint write_rest (k : nat) (iter : GlobalAddress) (from : list Z) : M unit :=
  let n := Z.of_nat (length from) in
  match k with
  | S k =>
      if DSM_CACHE_LINE_SIZE <=? n then
        write_line iter 0 (take (Z.to_nat DSM_CACHE_LINE_SIZE) from);;
        write_rest k (advance iter DSM_CACHE_LINE_SIZE)
          (drop (Z.to_nat DSM_CACHE_LINE_SIZE) from)
      else if n =? 0 then mret () else write_line iter 0 from
  | O => spin_forever
  end.

Definition write_span (a : GlobalAddress) (from : list Z) : M unit :=
  let start := ga_addr a mod DSM_CACHE_LINE_SIZE in
  let len := first_len a (Z.of_nat (length from)) in
  write_line a start (take (Z.to_nat len) from);;
  if len =? Z.of_nat (length from) then mret ()
  else write_rest (S (length from)) (advance a len) (drop (Z.to_nat len) from).
End spans.

Section dsm.
Context (junk : RawMessage) (fuel : nat).

Definition dsm_read : GlobalAddress → Z → M (list Z) := read_span (readLine junk fuel).
Definition dsm_write : GlobalAddress → list Z → M unit := write_span (writeLine junk fuel).
Definition drain_eviction : M unit := wait_evict junk.

(** [DSM::Read] and [DSM::Write] with an offset. *)
Definition dsm_Read (a : GlobalAddress) (offset count : Z) : M (list Z) :=
  dsm_read (GADD a (to_int offset)) (wrap 32 count).
Definition dsm_Write (a : GlobalAddress) (offset : Z) (buf : list Z) : M unit :=
  dsm_write (GADD a (to_int offset)) buf.
End dsm.

(** ** The interface of the cache to [DSM]

    What [read_span] and [write_span] need of the two operations of the cache: on the
    addresses of [cached], from a state in which [ok] holds, [read_line] returns the bytes
    of [view], a memory indexed by node and address, and [write_line] replaces them. *)
Definition line_base (a : GlobalAddress) : Z :=
  ga_addr a - ga_addr a mod DSM_CACHE_LINE_SIZE.

Definition overwrite (v : Z → Z → Z) (n x : Z) (bs : list Z) : Z → Z → Z :=
  λ n' y, if (n' =? n) && (x <=? y) && (y <? x + Z.of_nat (length bs))
          then nth (Z.to_nat (y - x)) bs 0 else v n' y.

Class LineStore (read_line : GlobalAddress → Z → Z → M (list Z))
    (write_line : GlobalAddress → Z → list Z → M unit)
    (cached : GlobalAddress → Prop) (ok : world → Prop) (view : world → Z → Z → Z) := {
  ls_read a start size w : ok w → cached a → 0 ≤ start → 0 ≤ size →
    start + size ≤ DSM_CACHE_LINE_SIZE →
    ∃ w', read_line a start size w =
        Ret (view w (ga_nodeID a) <$> seqZ (line_base a + start) size) w' ∧
      ok w' ∧ ∀ n x, view w' n x = view w n x;
  ls_write a start from w : ok w → cached a → 0 ≤ start →
    start + Z.of_nat (length from) ≤ DSM_CACHE_LINE_SIZE →
    ∃ w', write_line a start from w = Ret () w' ∧ ok w' ∧
      ∀ b, cached b → view w' (ga_nodeID b) (ga_addr b) =
        overwrite (view w) (ga_nodeID a) (line_base a + start) from (ga_nodeID b) (ga_addr b);
}.

(** The reference: a flat memory. *)
Inductive mem_op := mem_read (a : GlobalAddress) (n : Z) | mem_write (a : GlobalAddress) (bs : list Z).

Definition op_addr (o : mem_op) : GlobalAddress :=
  match o with mem_read a _ | mem_write a _ => a end.
Definition op_len (o : mem_op) : Z :=
  match o with mem_read _ n => n | mem_write _ bs => Z.of_nat (length bs) end.

Fixpoint flat_ops (v : Z → Z → Z) (l : list mem_op) : list (list Z) :=
  match l with
  | [] => []
  | mem_read a n :: l => (v (ga_nodeID a) <$> seqZ (ga_addr a) n) :: flat_ops v l
  | mem_write a bs :: l => [] :: flat_ops (overwrite v (ga_nodeID a) (ga_addr a) bs) l
  end.

Section ops.
Context (read_line : GlobalAddress → Z → Z → M (list Z)).
Context (write_line : GlobalAddress → Z → list Z → M unit).

Fixpoint span_ops (l : list mem_op) : M (list (list Z)) :=
  match l with
  | [] => mret []
  | o :: l =>
      r ← match o with
          | mem_read a n => read_span read_line a n
          | mem_write a bs => write_span write_line a bs;; mret []
          end;
      rs ← span_ops l; mret (r :: rs)
  end.
End ops.

(** ** Spans over any such cache *)
Lemma ret_bind {A B} (m : M A) (k : A → M B) w a w' :
  m w = Ret a w' → (m ≫= k) w = k a w'.
Proof. unfold mbind, M_bind. by intros ->. Qed.

Lemma seqZ_split x n m : 0 ≤ n → 0 ≤ m → seqZ x (n + m) = seqZ x n ++ seqZ (x + n) m.
Proof. intros. by apply seqZ_app. Qed.

Section client.
Context (read_line : GlobalAddress → Z → Z → M (list Z)).
Context (write_line : GlobalAddress → Z → list Z → M unit).
Context (cached : GlobalAddress → Prop) (ok : world → Prop) (view : world → Z → Z → Z).
Context `{!LineStore read_line write_line cached ok view}.

(** The span from [a], of [n] bytes, is in the domain and in the address space. *)
Definition span_ok (a : GlobalAddress) (n : Z) : Prop :=
  0 ≤ ga_addr a ∧ 0 ≤ n ∧ ga_addr a + n < 2 ^ 64 ∧ cached a ∧
  ∀ y, ga_addr a ≤ y < ga_addr a + n → cached (mk_GlobalAddress y (ga_nodeID a)).

Lemma advance_span a n k :
  span_ok a n → 0 ≤ k → k < n → span_ok (advance a k) (n - k) ∧ ga_addr (advance a k) = ga_addr a + k.
Proof.
  intros (H0 & Hn & Hb & _ & Hd) Hk Hkn.
  assert (ga_addr (advance a k) = ga_addr a + k) as E.
  { cbn. apply wrap_small. unfold fits. lia. }
  split; [|done]. unfold span_ok. rewrite E. split_and!; [lia..| |].
  - replace (advance a k) with (mk_GlobalAddress (ga_addr a + k) (ga_nodeID a)).
    { apply Hd. lia. }
    unfold advance, set_field. cbn. rewrite wrap_small; [done|]. unfold fits. lia.
  - intros y Hy. apply Hd. lia.
Qed.

Lemma read_rest_spec k a n w :
  ok w → span_ok a n → 0 < n → ga_addr a mod DSM_CACHE_LINE_SIZE = 0 → n < Z.of_nat k * DSM_CACHE_LINE_SIZE →
  ∃ w', read_rest read_line k a n w = Ret (view w (ga_nodeID a) <$> seqZ (ga_addr a) n) w' ∧
    ok w' ∧ ∀ n x, view w' n x = view w n x.
Proof.
  revert a n w. induction k as [|k IH]; intros a n w Hok Hs Hn Ha Hk.
  { change (Z.of_nat 0 * DSM_CACHE_LINE_SIZE) with 0 in Hk. lia. }
  assert (DSM_CACHE_LINE_SIZE = 4096) as EL by done. pose proof Hs as (H0 & _ & Hb & Hd & Hall).
  cbn [read_rest].
  assert (∀ m, 0 ≤ m → m ≤ DSM_CACHE_LINE_SIZE → ∃ w1,
    read_line a 0 m w = Ret (view w (ga_nodeID a) <$> seqZ (ga_addr a) m) w1 ∧ ok w1 ∧
      ∀ n x, view w1 n x = view w n x) as Hline.
  { intros m Hm0 Hm. destruct (ls_read a 0 m w) as (w1 & E & R); [done..|lia|].
    exists w1. rewrite E. split; [|done]. unfold line_base. rewrite Ha. do 3 f_equal. lia. }
  destruct (Z.leb_spec DSM_CACHE_LINE_SIZE n) as [Hle|Hlt].
  - destruct (Hline DSM_CACHE_LINE_SIZE) as (w1 & E1 & Hok1 & V1); [lia..|].
    rewrite (ret_bind _ _ _ _ _ E1).
    destruct (decide (n = DSM_CACHE_LINE_SIZE)) as [->|Hne].
    + destruct k as [|k]; [cbn in Hk; lia|]. exists w1. split; [|done].
      rewrite Z.sub_diag.
      assert (read_rest read_line (S k) (advance a DSM_CACHE_LINE_SIZE) 0 w1 = Ret [] w1) as E2 by done.
      rewrite (ret_bind _ _ _ _ _ E2). unfold mret, M_ret. by rewrite app_nil_r.
    + destruct (advance_span a n DSM_CACHE_LINE_SIZE Hs) as [Hs1 E]; [lia..|].
      destruct (IH (advance a DSM_CACHE_LINE_SIZE) (n - DSM_CACHE_LINE_SIZE) w1) as (w2 & E2 & Hok2 & V2);
        [done..|lia| |lia|].
      { rewrite E. rewrite EL in *. divlia. }
      rewrite (ret_bind _ _ _ _ _ E2). exists w2. split_and!; [|done|].
      * unfold mret, M_ret. f_equal. rewrite E. cbn [ga_nodeID advance].
        replace n with (DSM_CACHE_LINE_SIZE + (n - DSM_CACHE_LINE_SIZE)) at 2 by lia.
        rewrite seqZ_split, fmap_app by lia. f_equal. apply list_fmap_ext. intros i y _. by rewrite V1.
      * intros. by rewrite V2, V1.
  - destruct (Z.eqb_spec n 0); [lia|]. apply Hline; lia.
Qed.

Lemma read_span_spec a n w :
  ok w → span_ok a n →
  ∃ w', read_span read_line a n w = Ret (view w (ga_nodeID a) <$> seqZ (ga_addr a) n) w' ∧
    ok w' ∧ ∀ n x, view w' n x = view w n x.
Proof.
  intros Hok Hs. pose proof Hs as (H0 & Hn & Hb & Hd & Hall).
  assert (DSM_CACHE_LINE_SIZE = 4096) as EL by done.
  pose proof (Z.mod_pos_bound (ga_addr a) DSM_CACHE_LINE_SIZE ltac:(lia)) as Hm.
  unfold read_span. set (start := ga_addr a mod DSM_CACHE_LINE_SIZE) in *.
  assert (first_len a n = n `min` (DSM_CACHE_LINE_SIZE - start)) as EF by done.
  destruct (ls_read a start (first_len a n) w) as (w1 & E1 & Hok1 & V1); [done..|lia|lia|lia|].
  rewrite (ret_bind _ _ _ _ _ E1).
  assert (line_base a + start = ga_addr a) as -> by (unfold line_base; lia).
  destruct (Z.eqb_spec (first_len a n) n) as [->|Hne]; [by exists w1|].
  assert (first_len a n = DSM_CACHE_LINE_SIZE - start) as EF' by lia. rewrite EF'.
  destruct (advance_span a n (DSM_CACHE_LINE_SIZE - start) Hs) as [Hs1 E]; [lia..|].
  destruct (read_rest_spec (S (Z.to_nat n)) (advance a (DSM_CACHE_LINE_SIZE - start))
    (n - (DSM_CACHE_LINE_SIZE - start)) w1) as (w2 & E2 & Hok2 & V2); [done..|lia| |lia|].
  { rewrite E. unfold start. rewrite EL. divlia. }
  rewrite (ret_bind _ _ _ _ _ E2). exists w2. split_and!; [|done|].
  - unfold mret, M_ret. f_equal. rewrite E. cbn [ga_nodeID advance].
    replace n with ((DSM_CACHE_LINE_SIZE - start) + (n - (DSM_CACHE_LINE_SIZE - start))) at 2 by lia.
    rewrite seqZ_split, fmap_app by lia. f_equal. apply list_fmap_ext. intros i y _. by rewrite V1.
  - intros. by rewrite V2, V1.
Qed.

Lemma overwrite_app v n x bs bs' n' y :
  overwrite (overwrite v n x bs) n (x + Z.of_nat (length bs)) bs' n' y =
  overwrite v n x (bs ++ bs') n' y.
Proof.
  unfold overwrite. rewrite length_app. destruct (Z.eqb_spec n' n); [|done]. cbn.
  destruct (Z.leb_spec x y), (Z.leb_spec (x + Z.of_nat (length bs)) y); cbn; try lia.
  - destruct (Z.ltb_spec y (x + Z.of_nat (length bs) + Z.of_nat (length bs'))),
      (Z.ltb_spec y (x + Z.of_nat (length bs + length bs'))),
      (Z.ltb_spec y (x + Z.of_nat (length bs)));
      first [lia|rewrite app_nth2 by lia; f_equal; lia|done].
  - destruct (Z.ltb_spec y (x + Z.of_nat (length bs))),
      (Z.ltb_spec y (x + Z.of_nat (length bs + length bs')));
      first [lia|by rewrite app_nth1 by lia|done].
Qed.

Lemma overwrite_ext v v' n x bs n' y :
  v n' y = v' n' y → overwrite v n x bs n' y = overwrite v' n x bs n' y.
Proof. unfold overwrite. by intros ->. Qed.

Definition agrees (v v' : Z → Z → Z) : Prop :=
  ∀ b, cached b → v (ga_nodeID b) (ga_addr b) = v' (ga_nodeID b) (ga_addr b).

Lemma write_rest_spec k a from w :
  ok w → span_ok a (Z.of_nat (length from)) → (0 < length from)%nat →
  ga_addr a mod DSM_CACHE_LINE_SIZE = 0 →
  Z.of_nat (length from) < Z.of_nat k * DSM_CACHE_LINE_SIZE →
  ∃ w', write_rest write_line k a from w = Ret () w' ∧ ok w' ∧
    agrees (view w') (overwrite (view w) (ga_nodeID a) (ga_addr a) from).
Proof.
  revert a from w. induction k as [|k IH]; intros a from w Hok Hs Hn Ha Hk.
  { change (Z.of_nat 0 * DSM_CACHE_LINE_SIZE) with 0 in Hk. lia. }
  assert (DSM_CACHE_LINE_SIZE = 4096) as EL by done. pose proof Hs as (H0 & _ & Hb & Hd & Hall).
  assert (∀ bs, Z.of_nat (length bs) ≤ DSM_CACHE_LINE_SIZE → ∃ w1,
    write_line a 0 bs w = Ret () w1 ∧ ok w1 ∧
      agrees (view w1) (overwrite (view w) (ga_nodeID a) (ga_addr a) bs)) as Hline.
  { intros bs Hm. destruct (ls_write a 0 bs w) as (w1 & E & Hok1 & V1); [done..|].
    exists w1. split_and!; [done..|]. intros b Hcb. rewrite (V1 b Hcb). unfold line_base. rewrite Ha.
    by rewrite Z.sub_0_r, Z.add_0_r. }
  cbn [write_rest]. set (nl := Z.to_nat DSM_CACHE_LINE_SIZE).
  destruct (Z.leb_spec DSM_CACHE_LINE_SIZE (Z.of_nat (length from))) as [Hle|Hlt].
  - assert (length (take nl from) = nl) as Htake by (rewrite length_take; lia).
    destruct (Hline (take nl from)) as (w1 & E1 & Hok1 & V1); [lia|].
    rewrite (ret_bind _ _ _ _ _ E1).
    destruct (decide (Z.of_nat (length from) = DSM_CACHE_LINE_SIZE)) as [Heq|Hne].
    + destruct k as [|k]; [cbn in Hk; lia|]. exists w1.
      rewrite drop_ge by lia. split_and!; [done..|].
      by rewrite take_ge in V1 by lia.
    + destruct (advance_span a _ DSM_CACHE_LINE_SIZE Hs) as [Hs1 E]; [lia..|].
      destruct (IH (advance a DSM_CACHE_LINE_SIZE) (drop nl from) w1) as (w2 & E2 & Hok2 & V2);
        rewrite ?length_drop; [done|..].
      { replace (Z.of_nat (length from - nl)) with (Z.of_nat (length from) - DSM_CACHE_LINE_SIZE) by lia.
        done. }
      { lia. }
      { rewrite E. rewrite EL in *. divlia. }
      { lia. }
      exists w2. split_and!; [done..|]. intros b Hcb. rewrite (V2 b Hcb).
      rewrite (overwrite_ext _ _ _ _ _ _ _ (V1 b Hcb)), E. cbn [ga_nodeID advance].
      rewrite <-(take_drop nl from) at 3. rewrite <-overwrite_app, Htake.
      replace (Z.of_nat nl) with DSM_CACHE_LINE_SIZE by lia. done.
  - destruct (Z.eqb_spec (Z.of_nat (length from)) 0); [lia|]. apply Hline. lia.
Qed.

Lemma write_span_spec a from w :
  ok w → span_ok a (Z.of_nat (length from)) →
  ∃ w', write_span write_line a from w = Ret () w' ∧ ok w' ∧
    agrees (view w') (overwrite (view w) (ga_nodeID a) (ga_addr a) from).
Proof.
  intros Hok Hs. pose proof Hs as (H0 & Hn & Hb & Hd & Hall).
  assert (DSM_CACHE_LINE_SIZE = 4096) as EL by done.
  pose proof (Z.mod_pos_bound (ga_addr a) DSM_CACHE_LINE_SIZE ltac:(lia)) as Hm.
  unfold write_span. set (start := ga_addr a mod DSM_CACHE_LINE_SIZE) in *.
  set (n := Z.of_nat (length from)) in *.
  assert (first_len a n = n `min` (DSM_CACHE_LINE_SIZE - start)) as EF by done.
  destruct (ls_write a start (take (Z.to_nat (first_len a n)) from) w) as (w1 & E1 & Hok1 & V1);
    [done..|lia|rewrite length_take; lia|].
  rewrite (ret_bind _ _ _ _ _ E1).
  assert (line_base a + start = ga_addr a) as Hbase by (unfold line_base; lia). rewrite Hbase in V1.
  destruct (Z.eqb_spec (first_len a n) n) as [Heq|Hne].
  { exists w1. split_and!; [done..|]. by rewrite take_ge in V1 by lia. }
  assert (first_len a n = DSM_CACHE_LINE_SIZE - start) as EF' by lia. rewrite EF' in *.
  set (nl := Z.to_nat (DSM_CACHE_LINE_SIZE - start)) in *.
  destruct (advance_span a n (DSM_CACHE_LINE_SIZE - start) Hs) as [Hs1 E]; [lia..|].
  destruct (write_rest_spec (S (length from)) (advance a (DSM_CACHE_LINE_SIZE - start))
    (drop nl from) w1) as (w2 & E2 & Hok2 & V2); rewrite ?length_drop; [done|..].
  { replace (Z.of_nat (length from - nl)) with (n - (DSM_CACHE_LINE_SIZE - start)) by lia. done. }
  { lia. }
  { rewrite E. unfold start. rewrite EL. divlia. }
  { lia. }
  exists w2. split_and!; [done..|]. intros b Hcb. rewrite (V2 b Hcb).
  rewrite (overwrite_ext _ _ _ _ _ _ _ (V1 b Hcb)), E. cbn [ga_nodeID advance].
  rewrite <-(take_drop nl from) at 3. rewrite <-overwrite_app, length_take.
  replace (Z.of_nat (nl `min` length from)) with (DSM_CACHE_LINE_SIZE - start) by lia. done.
Qed.

Lemma flat_ops_agree v v' l :
  Forall (λ o, span_ok (op_addr o) (op_len o)) l → agrees v v' → flat_ops v l = flat_ops v' l.
Proof.
  intros Hl. revert v v'. induction Hl as [|o l Ho _ IH]; intros v v' Hv; [done|].
  destruct o as [a n|a bs]; cbn in *.
  - rewrite (IH v v') by done. f_equal. apply list_fmap_ext. intros i y Hy.
    apply lookup_seqZ in Hy as [-> Hy]. destruct Ho as (_ & _ & _ & _ & Hall).
    apply (Hv (mk_GlobalAddress (ga_addr a + Z.of_nat i) (ga_nodeID a))). apply Hall. lia.
  - f_equal. apply IH. intros b Hb. by apply overwrite_ext, Hv.
Qed.

Lemma span_ops_spec l w :
  ok w → Forall (λ o, span_ok (op_addr o) (op_len o)) l →
  ∃ w', span_ops read_line write_line l w = Ret (flat_ops (view w) l) w' ∧ ok w'.
Proof.
  intros Hok Hl. revert w Hok. induction Hl as [|o l Ho Hl IH]; intros w Hok; [by exists w|].
  cbn [span_ops]. destruct o as [a n|a bs]; cbn [op_addr op_len] in Ho.
  - destruct (read_span_spec a n w Hok Ho) as (w1 & E1 & Hok1 & V1).
    destruct (IH w1 Hok1) as (w2 & E2 & Hok2).
    rewrite (ret_bind _ _ _ _ _ E1), (ret_bind _ _ _ _ _ E2). exists w2. split; [|done].
    cbn. unfold mret, M_ret. do 2 f_equal. apply flat_ops_agree; [done|]. intros b _. apply V1.
  - destruct (write_span_spec a bs w Hok Ho) as (w1 & E1 & Hok1 & V1).
    destruct (IH w1 Hok1) as (w2 & E2 & Hok2).
    assert ((write_span write_line a bs;; mret []) w = Ret ([] : list Z) w1) as E1'.
    { by rewrite (ret_bind _ _ _ _ _ E1). }
    rewrite (ret_bind _ _ _ _ _ E1'), (ret_bind _ _ _ _ _ E2). exists w2. split; [|done].
    cbn. unfold mret, M_ret. do 2 f_equal. by apply flat_ops_agree.
Qed.
End client.

(** ** Hits of the cache *)
Section hit.
Context (junk : RawMessage) (a : GlobalAddress) (r : line_ref) (c0 : cache).
Notation set_idx := (calLineSet (getTag a)).
Context (Hset : in_set set_idx r) (Hmain : ref_shadow r = false).
Context (Hholds : holds (getTag a) c0 r) (Huniq : tag_unique (getTag a) c0).
Context (Hstatus : status (lines c0 r) = mk_AtomicTag false MODIFIED).
Context (Hlock : lock (lines c0 r) = UNLOCKED).
Context (Hfree : cline_set_rwlock_vector c0 set_idx = UNLOCKED).

(** [c0] with other lock words. *)
Definition relocked (c : cache) : Prop :=
  (∀ r', tag (lines c r') = tag (lines c0 r') ∧ status (lines c r') = status (lines c0 r') ∧
         data (lines c r') = data (lines c0 r')) ∧ memory c = memory c0.

Lemma lookup_hit {A} (k : option line_ref → option line_ref → M A) c th Q :
  relocked c → wp true eq (k (Some r) None) Q c th →
  wp true eq (line ← findLine set_idx a; shadow ← findShadowLine set_idx a; k line shadow) Q c th.
Proof.
  intros [Hc _] HQ.
  assert (∀ r', in_set set_idx r' → holds (getTag a) c r' → r' = r) as Hu.
  { intros r' Hr' [O T]. destruct (Hc r') as (E & S & _). apply Huniq; [done..| |done].
    split; [|congruence]. unfold occupied in *. by rewrite <-S. }
  assert (holds (getTag a) c r) as Hh.
  { destruct (Hc r) as (E & S & _), Hholds as [O T]. split; [|congruence].
    unfold occupied in *. by rewrite S. }
  wp_step. apply find_slot_spec. intros o Ho. wp_step. apply find_slot_spec. intros o' Ho'.
  destruct o' as [r'|].
  { destruct Ho' as (j & Hk & -> & H'). apply Hu in H'; [|by apply in_slots].
    by rewrite <-H' in Hmain. }
  destruct o as [r'|].
  - destruct Ho as (j & Hk & -> & H'). apply Hu in H'; [|by apply in_slots]. by rewrite H'.
  - exfalso. destruct r as [b i j], Hset as [E Hk]. cbn in *. subst b i.
    by apply (Ho j); [apply elem_of_slots|].
Qed.

Lemma cas_line_fails x y c :
  status (lines c r) ≠ x → cas_line x y r c = None.
Proof. intros. unfold cas_line. by rewrite decide_False. Qed.

Lemma with_line_lock_eq f k k' c th Q :
  lock (lines c r) = k → f k = Some k' →
  Q () (set_line r ((lines c r) <| lock := k' |>) c) th → wp true eq (with_line_lock f r) Q c th.
Proof.
  intros Hk Hf HQ. apply wp_await; [apply _| |].
  - intros _ c' <-. rewrite Hk. cbn. by rewrite Hf.
  - intros c' [] c'' <- E. rewrite Hk in E. cbn in E. rewrite Hf in E. by injection E as <-.
Qed.

(** The state after [set_rLock] and [set_rUnlock]: like [c0]. *)
Definition c_locked : cache :=
  c0 <| cline_set_rwlock_vector :=
    λ j, if j =? set_idx then 2 else cline_set_rwlock_vector c0 j |>.

Lemma set_rUnlock_hit th Q :
  (∀ c, same_cache c0 c → Q () c th) → wp true eq (set_rUnlock set_idx) Q c_locked th.
Proof.
  intros HQ. eapply with_set_lock_spec; [cbn; by rewrite Z.eqb_refl|done|]. apply HQ.
  split; [done|]. split; [|done]. intros j. cbn. by destruct (Z.eqb_spec j set_idx) as [->|].
Qed.

Lemma same_cache_lock c k m :
  same_cache c0 c →
  same_cache (c0 <| memory := m |>) (set_line r ((lines (set_line r ((lines c r) <| lock := k |>)
    (c <| memory := m |>)) r) <| lock := UNLOCKED |>) (set_line r ((lines c r) <| lock := k |>) (c <| memory := m |>))).
Proof.
  intros (Hl & Hr & Hs & Hm). split; [|done]. intros r'. destruct (decide (r' = r)) as [->|Hne].
  - rewrite !lines_set_same. cbn. rewrite Hl. destruct (lines c0 r). cbn in *. by rewrite Hlock.
  - rewrite !lines_set_other by done. apply Hl.
Qed.

(** What [readLine] and [writeLine] do on a hit; [m] is the memory they leave. *)
Lemma locked_read_hit c start size th Q :
  same_cache c0 c →
  (∀ c', same_cache c0 c' → Q (Some (bytes_at (memory c0) (data (lines c0 r) + start) size)) c' th) →
  wp true eq (locked_read r start size) Q c th.
Proof.
  intros Hc HQ. pose proof Hc as (Hl & _ & _ & Hm). unfold locked_read. wp_step.
  eapply (with_line_lock_eq _ UNLOCKED); [by rewrite Hl|done|]. wp_step.
  set (c1 := set_line _ _ _).
  assert (status (lines c1 r) = mk_AtomicTag false MODIFIED) as Hs.
  { unfold c1. by rewrite lines_set_same, Hl. }
  apply wp_orM, wp_is_status; [apply _|]. intros c2 <-. rewrite Hs. cbn.
  rewrite bool_decide_false by done.
  apply wp_is_status; [apply _|]. intros c2 <-. rewrite Hs. cbn. rewrite bool_decide_true by done.
  unfold memcpy_from. repeat wp_step. intros c2 <-. cbn [fst snd]. repeat wp_step.
  eapply with_line_lock_eq; [unfold c1; by rewrite lines_set_same|done|]. wp_step.
  assert (data (lines c1 r) = data (lines c0 r)) as -> by (unfold c1; by rewrite lines_set_same, Hl).
  change (memory c1) with (memory c). rewrite Hm. apply HQ.
  pose proof (same_cache_lock c 2 (memory c) Hc) as H. rewrite Hm in H at 1. exact H.
Qed.

Lemma readLine_hit fuel start size th Q :
  start_next_evict_cline_flag th = false →
  (∀ c', same_cache c0 c' → Q (bytes_at (memory c0) (data (lines c0 r) + start) size) c' th) →
  wp true eq (readLine junk (S fuel) a start size) Q c0 th.
Proof.
  intros Hst HQ. cbn [readLine]. unfold readLine_turn, start_evict.
  do 4 wp_step. rewrite Hst. wp_step. wp_step.
  eapply with_set_lock_spec; [exact Hfree|done|].
  change (set_field _ _ c0) with c_locked.
  apply lookup_hit; [by split|].
  wp_step. unfold casFlagAndStatus. wp_step. intros c <-. rewrite cas_line_fails by (cbn; by rewrite Hstatus).
  cbn [fst snd]. wp_step. apply set_rUnlock_hit. intros c1 Hc1. wp_step.
  apply locked_read_hit; [done|]. intros c2 Hc2. wp_step. rewrite bool_decide_true by done.
  wp_step. wp_step. wp_step. by apply HQ.
Qed.

Definition written (start : Z) (from : list Z) : cache :=
  c0 <| memory := store_bytes (memory c0) (data (lines c0 r) + start) from |>.

Lemma locked_write_hit c start from th Q :
  same_cache c0 c → (∀ c', same_cache (written start from) c' → Q true c' th) →
  wp true eq (locked_write r start from) Q c th.
Proof.
  intros Hc HQ. pose proof Hc as (Hl & _ & _ & Hm). unfold locked_write. wp_step.
  eapply (with_line_lock_eq _ UNLOCKED); [by rewrite Hl|done|]. wp_step.
  set (c1 := set_line _ _ _).
  assert (status (lines c1 r) = mk_AtomicTag false MODIFIED) as Hs.
  { unfold c1. by rewrite lines_set_same, Hl. }
  apply wp_is_status; [apply _|]. intros c2 <-. rewrite Hs. cbn [at_status].
  rewrite bool_decide_true by done. wp_step. unfold memcpy_to. wp_step. intros c2 <-. cbn [fst snd].
  wp_step. eapply with_line_lock_eq; [unfold c1; cbn; by rewrite decide_True|done|]. wp_step.
  assert (data (lines c1 r) = data (lines c0 r)) as -> by (unfold c1; by rewrite lines_set_same, Hl).
  change (memory c1) with (memory c). rewrite Hm. apply HQ.
  exact (same_cache_lock c 1 (store_bytes (memory c0) (data (lines c0 r) + start) from) Hc).
Qed.

Lemma writeLine_hit fuel start from th Q :
  start_next_evict_cline_flag th = false →
  (∀ c', same_cache (written start from) c' → Q () c' th) →
  wp true eq (writeLine junk (S fuel) a start from) Q c0 th.
Proof.
  intros Hst HQ. cbn [writeLine]. unfold writeLine_turn, start_evict.
  do 4 wp_step. rewrite Hst. wp_step. wp_step.
  eapply with_set_lock_spec; [exact Hfree|done|].
  change (set_field _ _ c0) with c_locked. apply lookup_hit; [by split|].
  unfold casFlagAndStatus.
  wp_step. wp_step. intros c <-. rewrite cas_line_fails by (cbn; by rewrite Hstatus). cbn [fst snd].
  wp_step. wp_step. intros c <-. rewrite cas_line_fails by (cbn; by rewrite Hstatus). cbn [fst snd].
  wp_step. apply set_rUnlock_hit. intros c1 Hc1. wp_step.
  apply locked_write_hit; [done|]. intros c2 Hc2. do 3 wp_step. wp_step. by apply HQ.
Qed.
End hit.

(** ** A node whose lines are resident

    Every address of [D] has its line in the cache, modified, in the slot [place]; no
    lock is held and nothing else happens on the node. *)
Section resident.
Context (junk : RawMessage) (fuel : nat) (D : GlobalAddress → Prop) (place : Z → line_ref).
Context (HD : ∀ a, D a → fits 64 (ga_addr a) ∧ fits 8 (ga_nodeID a)).

Record resident (w : world) : Prop := {
  rs_quiet : Forall (respects eq) (others w);
  rs_idle : start_next_evict_cline_flag (local w) = false;
  rs_free : ∀ a, D a → cline_set_rwlock_vector (shared w) (calLineSet (getTag a)) = UNLOCKED;
  rs_unique : ∀ a, D a → tag_unique (getTag a) (shared w);
  rs_place : ∀ a, D a → in_set (calLineSet (getTag a)) (place (getTag a)) ∧
    ref_shadow (place (getTag a)) = false;
  rs_line : ∀ a, D a → holds (getTag a) (shared w) (place (getTag a)) ∧
    status (lines (shared w) (place (getTag a))) = mk_AtomicTag false MODIFIED ∧
    lock (lines (shared w) (place (getTag a))) = UNLOCKED;
  rs_apart : ∀ a b, D a → D b → getTag a ≠ getTag b →
    data (lines (shared w) (place (getTag a))) + DSM_CACHE_LINE_SIZE
      ≤ data (lines (shared w) (place (getTag b))) ∨
    data (lines (shared w) (place (getTag b))) + DSM_CACHE_LINE_SIZE
      ≤ data (lines (shared w) (place (getTag a)));
}.

Definition cached_bytes (w : world) (n x : Z) : Z :=
  memory (shared w) (data (lines (shared w) (place (getTag (mk_GlobalAddress x n)))) +
    x mod DSM_CACHE_LINE_SIZE).

Lemma resident_same w c' m t es :
  resident w → same_cache ((shared w) <| memory := m |>) c' → t = local w →
  Forall (respects eq) es → resident (mk_world c' t es).
Proof.
  intros [Q I F U P L A] (Hl & Hs & _ & _) -> He. cbn in Hl, Hs.
  split; cbn; try done.
  - intros a Ha. rewrite Hs. by apply F.
  - intros a Ha r r' Hr Hr' H H'. apply (U a Ha); try done; unfold holds in *; by rewrite Hl in *.
  - intros a Ha. unfold holds. rewrite !Hl. by apply L.
  - intros a b Ha Hb. rewrite !Hl. by apply A.
Qed.

(** The tag is the number of the line. *)
Lemma getTag_base a i :
  0 ≤ ga_addr a → 0 ≤ i < DSM_CACHE_LINE_SIZE →
  getTag (mk_GlobalAddress (line_base a + i) (ga_nodeID a)) = getTag a.
Proof.
  intros H0 Hi. assert (DSM_CACHE_LINE_SIZE = 4096) as EL by done. rewrite EL in Hi.
  unfold getTag, line_base. cbn [ga_addr ga_nodeID]. do 3 f_equal.
  rewrite !Z.shiftr_div_pow2, EL by done. change (2 ^ DSM_CACHE_LINE_WIDTH) with 4096. f_equal. divlia.
Qed.

Lemma offset_base a i :
  0 ≤ i < DSM_CACHE_LINE_SIZE → (line_base a + i) mod DSM_CACHE_LINE_SIZE = i.
Proof.
  intros Hi. assert (DSM_CACHE_LINE_SIZE = 4096) as EL by done. unfold line_base. rewrite EL in *. divlia.
Qed.

Lemma wp_run {A} (m : M A) (Q : A → cache → thread → Prop) w :
  Forall (respects eq) (others w) → wp true eq m Q (shared w) (local w) →
  ∃ a w', m w = Ret a w' ∧ Q a (shared w') (local w') ∧ Forall (respects eq) (others w').
Proof.
  intros He H. specialize (H (others w) He). destruct w as [c t es]. cbn in *.
  destruct (m _) as [a w'|w'|]; [|done..]. exists a, w'. tauto.
Qed.

#[local] Instance resident_store :
  LineStore (readLine junk (S fuel)) (writeLine junk (S fuel)) D resident cached_bytes.
Proof.
  assert (DSM_CACHE_LINE_SIZE = 4096) as EL by done. split.
  - intros a start size w Hw Ha Hs Hn Hle. pose proof Hw as [Q I F U P L A].
    destruct (P a Ha) as [Pi Pm], (L a Ha) as (Lh & Ls & Lk).
    destruct (wp_run (readLine junk (S fuel) a start size)
      (λ bs c' t, bs = bytes_at (memory (shared w)) (data (lines (shared w) (place (getTag a))) + start) size ∧
         same_cache (shared w) c' ∧ t = local w) w Q) as (bs & w' & E & (-> & Hc & Ht) & He).
    { apply (readLine_hit junk a (place (getTag a))); auto. }
    exists w'. destruct w' as [c' t' es']. cbn in *. rewrite E. split_and!.
    + f_equal. unfold bytes_at. apply list_eq. intros k. rewrite !list_lookup_fmap.
      destruct (decide (Z.of_nat k < size)) as [Hk|Hk].
      * rewrite !lookup_seqZ_lt by lia. cbn. f_equal. unfold cached_bytes.
        rewrite <-(Z.add_assoc (line_base a)), getTag_base, offset_base by (destruct (HD a Ha) as [[]]; lia).
        f_equal. lia.
      * by rewrite !lookup_seqZ_ge by lia.
    + by apply (resident_same w _ (memory (shared w))).
    + intros n x. unfold cached_bytes. cbn. destruct Hc as (Hl & _ & _ & Hm). by rewrite Hl, Hm.
  - intros a start from w Hw Ha Hs Hle. pose proof Hw as [Q I F U P L A].
    destruct (P a Ha) as [Pi Pm], (L a Ha) as (Lh & Ls & Lk).
    destruct (wp_run (writeLine junk (S fuel) a start from)
      (λ _ c' t, same_cache (written (place (getTag a)) (shared w) start from) c' ∧ t = local w) w Q)
      as ([] & w' & E & (Hc & Ht) & He).
    { apply (writeLine_hit junk a (place (getTag a))); auto. }
    exists w'. destruct w' as [c' t' es']. cbn in *. rewrite E. split_and!; [done| |].
    { by eapply resident_same. }
    intros b Hb. destruct Hc as (Hl & _ & _ & Hm). unfold cached_bytes. cbn in *. rewrite Hl, Hm.
    assert (∀ d, mk_GlobalAddress (ga_addr d) (ga_nodeID d) = d) as Eta by (by intros []).
    rewrite !Eta. unfold overwrite, store_bytes. rewrite Eta.
    destruct (HD a Ha) as [Fa Na], (HD b Hb) as [Fb Nb].
    pose proof (getTag_value a Fa Na) as Ta. pose proof (getTag_value b Fb Nb) as Tb.
    unfold fits in *. change (2 ^ 8) with 256 in *. unfold line_base. rewrite EL in *.
    set (da := data (lines (shared w) (place (getTag a)))) in *.
    set (db := data (lines (shared w) (place (getTag b)))) in *.
    pose proof (Z.mod_pos_bound (ga_addr b) 4096 ltac:(lia)).
    destruct (decide (getTag a = getTag b)) as [Et|Et].
    + assert (ga_nodeID b = ga_nodeID a ∧ ga_addr b / 4096 = ga_addr a / 4096) as [En Eq].
      { rewrite Et, Tb in Ta. split; divlia. }
      assert (db = da) as -> by (unfold db, da; by rewrite Et).
      assert (ga_addr a - ga_addr a mod 4096 = ga_addr b - ga_addr b mod 4096) as -> by divlia.
      rewrite En, Z.eqb_refl. cbn [andb].
      destruct (Z.leb_spec (da + start) (da + ga_addr b mod 4096)),
        (Z.leb_spec (ga_addr b - ga_addr b mod 4096 + start) (ga_addr b)); try lia; [|done].
      destruct (Z.ltb_spec (da + ga_addr b mod 4096) (da + start + Z.of_nat (length from))),
        (Z.ltb_spec (ga_addr b) (ga_addr b - ga_addr b mod 4096 + start + Z.of_nat (length from)));
        try lia; [|done].
      cbn [andb]. f_equal. lia.
    + pose proof (A a b Ha Hb Et) as Hap. fold da db in Hap.
      change DSM_CACHE_LINE_SIZE with 4096 in Hap.
      match goal with |- (if ?x then _ else _) = (if ?y then _ else _) =>
        assert (x = false) as ->; [|assert (y = false) as ->; [|done]] end.
      * apply andb_false_iff. rewrite Z.leb_gt, Z.ltb_ge. lia.
      * apply not_true_iff_false. rewrite !andb_true_iff, Z.eqb_eq, Z.leb_le, Z.ltb_lt.
        intros [[En Hlo] Hhi]. apply Et. rewrite Ta, Tb, En.
        assert (ga_addr b / 4096 = ga_addr a / 4096) as -> by divlia. done.
Qed.

Lemma resident_ops l w :
  resident w → Forall (λ o, span_ok D (op_addr o) (op_len o)) l →
  ∃ w', span_ops (readLine junk (S fuel)) (writeLine junk (S fuel)) l w =
    Ret (flat_ops (cached_bytes w) l) w' ∧ resident w'.
Proof. apply span_ops_spec, resident_store. Qed.
End resident.

(** C33: Reading and writing through [DSM] is reading and writing a flat memory: on a node
    where the lines of [D] are cached and modified, any sequence of [DSM::read] and
    [DSM::write] of any lengths and alignments, each cut at the boundaries of the
    4096-byte lines, ends after one turn of [readLine] or [writeLine] per line and
    returns what the same sequence returns on a memory indexed by node and address,
    whose byte at an address is the one at its offset in the buffer of its line.  The
    loops of [DSM] need of the cache only the two laws of [LineStore], which [readLine]
    and [writeLine] keep ([resident_store]). *)
Theorem resident_flat_memory junk fuel D place l w :
  (∀ a, D a → fits 64 (ga_addr a) ∧ fits 8 (ga_nodeID a)) → resident D place w →
  Forall (λ o, span_ok D (op_addr o) (op_len o)) l →
  ∃ w', span_ops (readLine junk (S fuel)) (writeLine junk (S fuel)) l w =
    Ret (flat_ops (cached_bytes place w) l) w' ∧ resident D place w'.
Proof. intros. by apply resident_ops. Qed.

(** ** Witness: two lines of node 2, and an access across their boundary *)
Definition ex_place (t : Z) : line_ref := mk_line_ref false (calLineSet t) 7.
Definition ex_lines (r : line_ref) : LineInfo :=
  if decide (r = ex_place 2) then
    mk_LineInfo 0 8192 (mk_AtomicTag false MODIFIED) 0 false 2 (mk_GlobalAddress 0 2) 0 0
  else if decide (r = ex_place 258) then
    mk_LineInfo 0 40960 (mk_AtomicTag false MODIFIED) 0 false 258 (mk_GlobalAddress 4096 2) 0 0
  else ex_line <| status := mk_AtomicTag false PRESERVED |>.
Definition ex_two : world :=
  mk_world (mk_cache ex_lines (λ _, 0) (λ _, []) (λ _, 5)) (ex_thread []) [].
Definition ex_dom (a : GlobalAddress) : Prop := 0 ≤ ga_addr a < 8192 ∧ ga_nodeID a = 2.

Lemma ex_dom_tag a : ex_dom a → getTag a = 2 ∨ getTag a = 258.
Proof.
  intros [Ha Hn]. rewrite getTag_value; [|unfold fits; lia|unfold fits; rewrite Hn; lia].
  rewrite Hn. change DSM_CACHE_LINE_SIZE with 4096. divlia.
Qed.

Lemma ex_lines_holds t r :
  t = 2 ∨ t = 258 → holds t (shared ex_two) r → r = ex_place t.
Proof.
  intros Ht [O T]. cbn in O, T. unfold ex_lines in O, T.
  destruct (decide (r = ex_place 2)) as [->|]; [cbn in T; destruct Ht; by subst|].
  destruct (decide (r = ex_place 258)) as [->|]; [cbn in T; destruct Ht; by subst|]. done.
Qed.

Lemma ex_two_resident : resident ex_dom ex_place ex_two.
Proof.
  assert (ex_lines (ex_place 2) = mk_LineInfo 0 8192 (mk_AtomicTag false MODIFIED) 0 false 2
    (mk_GlobalAddress 0 2) 0 0) as E2 by (unfold ex_lines; by rewrite decide_True).
  assert (ex_place 258 ≠ ex_place 2) as Hne by by vm_compute.
  assert (ex_lines (ex_place 258) = mk_LineInfo 0 40960 (mk_AtomicTag false MODIFIED) 0 false 258
    (mk_GlobalAddress 4096 2) 0 0) as E3 by (unfold ex_lines; by rewrite decide_False, decide_True).
  split.
  - constructor.
  - reflexivity.
  - intros a _. reflexivity.
  - intros a Ha r r' _ _ H H'. pose proof (ex_dom_tag a Ha) as Ht.
    by rewrite (ex_lines_holds _ _ Ht H), (ex_lines_holds _ _ Ht H').
  - intros a _. split; [|reflexivity]. split; [reflexivity|]. cbn. split; [lia|reflexivity].
  - intros a Ha. unfold holds. change (lines (shared ex_two)) with ex_lines.
    destruct (ex_dom_tag a Ha) as [-> | ->]; rewrite ?E2, ?E3; repeat split; discriminate.
  - intros a b Ha Hb. change (lines (shared ex_two)) with ex_lines.
    change DSM_CACHE_LINE_SIZE with 4096.
    destruct (ex_dom_tag a Ha) as [-> | ->], (ex_dom_tag b Hb) as [-> | ->];
      rewrite ?E2, ?E3; cbn [data]; lia.
Qed.

Lemma resident_flat_memory_witness :
  ∃ w', span_ops (readLine ex_raw 1) (writeLine ex_raw 1)
      [mem_write (mk_GlobalAddress 4094 2) [1; 2; 3; 4]; mem_read (mk_GlobalAddress 4093 2) 6] ex_two =
    Ret [[]; [5; 1; 2; 3; 4; 5]] w' ∧ resident ex_dom ex_place w'.
Proof.
  apply (resident_flat_memory ex_raw 0 ex_dom ex_place
    [mem_write (mk_GlobalAddress 4094 2) [1; 2; 3; 4]; mem_read (mk_GlobalAddress 4093 2) 6] ex_two).
  - intros a [Ha Hn]. unfold fits. rewrite Hn. lia.
  - apply ex_two_resident.
  - unfold span_ok, ex_dom. repeat apply Forall_cons_2; [..|apply Forall_nil_2];
      repeat split; intros; cbn in *; lia.
Defined.
