(* ===== verification/SlabBoot.v ===== *)
(** * SlabBoot: the memory of a node at its start

    The constructors of [node_resource] and [DSM] divide the pool of a node into the
    memory of the receive rings, the blocks of the global memory and the buffers of the
    cache lines, and take all blocks and buffers from two slab allocators.  The results
    are the arguments of [dsm_init_messages] and of [initLine]. *)
From S2P Require Import Prelude DsmType HostMsg HostSync GlobalMem HostLine HostLogic CacheSet.
From S2P Require Import CacheAccess DsmAccess Slabs SlabsInv SlabCalls SlabInit.
From stdpp Require Import base numbers option list list_numbers gmap relations.
Open Scope Z_scope.

(** [sb_aligned_calloc(1, DSM_CACHE_LINE_SIZE)], [n] times. *)
Fixpoint alloc_blocks (realloc_ok : Z → bool) (n : nat) : SM (list Z) :=
  match n with
  | O => mret []
  | S n =>
      p ← sb_aligned_calloc realloc_ok 1 DSM_CACHE_LINE_SIZE DSM_CACHE_LINE_SIZE;
      ps ← alloc_blocks realloc_ok n;
      mret (p :: ps)
  end.

(** [gmem_size_per_node * 1.5] as a [size_t]: the sizes are whole megabytes. *)
Definition one_and_half (x : Z) : Z := x * 3 / 2.

(** [DSMConfig::factor] *)
Definition factor : Z * Z := (1, 1).

(** [node_resource::get_data_base_addr], and the two regions of [DSM::DSM]. *)
Definition get_data_base_addr (base : Z) : Z := base + GB.
Definition gblock_data_base_addr (base : Z) : Z := get_data_base_addr base.
Definition cline_data_base_addr (conf : DSMConfig) (base : Z) : Z :=
  gblock_data_base_addr base + gmem_size_per_node conf.

(** The blocks and the buffers of a node whose pool is at [base]; [gs] and [cs] are the
    two allocators as constructed. *)
Definition boot_blocks (realloc_ok : Z → bool) (huge : Z) (conf : DSMConfig) (base : Z)
    (gs cs : allocator) : option (list Z * list Z) :=
  let init size addr :=
    slabs_init realloc_ok huge None (one_and_half size) factor.1 factor.2 addr in
  match
    (init (gmem_size_per_node conf) (gblock_data_base_addr base);;
     alloc_blocks realloc_ok (Z.to_nat (gblock_num_per_node conf))) gs,
    (init (cache_size_per_node conf) (cline_data_base_addr conf base);;
     alloc_blocks realloc_ok (Z.to_nat (cline_num_per_node conf))) cs
  with
  | Done gblocks _, Done clines _ => Some (gblocks, clines)
  | _, _ => None
  end.

(** ** The blocks *)
Definition in_blocks (p : Z) (n : nat) (a : Z) : bool :=
  (p <=? a) && (a <? p + item_size_max * Z.of_nat n).

Lemma alloc_blocks_spec realloc_ok sh base limit n p s :
  (∀ b, realloc_ok b = true) →
  (∀ k, POWER_SMALLEST ≤ k < sh_pl sh → sh_size sh k < item_size_max) →
  page_next sh base limit p s → p mod item_size_max = 0 →
  p + item_size_max * Z.of_nat n ≤ base + limit →
  swp False (alloc_blocks realloc_ok n) (λ ps s',
    ps = (λ i, p + item_size_max * i) <$> seqZ 0 (Z.of_nat n) ∧
    ∀ a, ram s' a = if in_blocks p n a then 0 else ram s a) s.
Proof.
  intros Hr Hbig. revert p s. induction n as [|n IH]; intros p s Hp Hal Hend.
  { unfold swp. cbn. split; [done|]. intros a. unfold in_blocks.
    change item_size_max with 4096. destruct (Z.leb_spec p a), (Z.ltb_spec a (p + 4096 * Z.of_nat 0));
      cbn; try done; lia. }
  cbn [alloc_blocks]. sstep. change item_size_max with 4096 in *.
  eapply swp_mono; [apply (alloc_page Hr Hbig base limit p s); [done|done|]|].
  { change item_size_max with 4096 in *. lia. }
  intros r s1 (-> & Hn & Hram). cbn beta. sstep. change item_size_max with 4096 in *.
  eapply swp_mono; [apply (IH (p + 4096) s1); [done| |lia]|].
  { change item_size_max with 4096. rewrite Z.add_mod, Hal by done. done. }
  intros ps s2 [-> Hram2]. cbn beta. sstep. split.
  - rewrite (seqZ_cons _ (Z.of_nat (S n))) by lia. cbn [fmap list_fmap]. change item_size_max with 4096.
    f_equal; [lia|].
    replace (Z.pred (Z.of_nat (S n))) with (Z.of_nat n) by lia.
    change (Z.succ 0) with (1 + 0). rewrite <-fmap_add_seqZ, <-list_fmap_compose. apply list_fmap_ext. intros i j _. cbn. lia.
  - intros a. rewrite Hram2, Hram. unfold in_blocks. change item_size_max with 4096.
    destruct (Z.leb_spec p a), (Z.leb_spec (p + 4096) a), (Z.ltb_spec a (p + 4096)),
      (Z.ltb_spec a (p + 4096 + 4096 * Z.of_nat n)), (Z.ltb_spec a (p + 4096 * Z.of_nat (S n)));
      cbn; try done; lia.
Qed.

(** The table of classes for a factor of one: 199 classes of 48 bytes, one of a page. *)
Definition unit_table : list slabclass_t :=
  zero_class :: replicate 199 (mk_slabclass 48 85 NULL 0 0 [] 0 0 0) ++ [zero_class].

Lemma unit_table_loop :
  init_loop (S (Z.to_nat MAX_NUMBER_OF_SLAB_CLASSES)) 1 1 0 chunk_size chunk_size
    (replicate (Z.to_nat MAX_NUMBER_OF_SLAB_CLASSES) zero_class) = Some (200, unit_table).
Proof. vm_compute. reflexivity. Qed.

Lemma unit_table_upto : table_upto 200 unit_table.
Proof.
  destruct (init_loop_spec (S (Z.to_nat MAX_NUMBER_OF_SLAB_CLASSES)) 1 1 0 chunk_size chunk_size
    (replicate (Z.to_nat MAX_NUMBER_OF_SLAB_CLASSES) zero_class)) as (pl & cl & Hloop & _ & Ht);
    [done|exact zero_table|done..|].
  rewrite unit_table_loop in Hloop. by injection Hloop as <- <-.
Qed.

Lemma unit_shape_big k :
  POWER_SMALLEST ≤ k < 200 → sh_size (init_shape 200 unit_table) k < item_size_max.
Proof.
  intros Hk. cbn -[unit_table]. rewrite (proj2 (Z.eqb_neq k 200)) by lia.
  assert (arr_get unit_table k = Some (mk_slabclass 48 85 NULL 0 0 [] 0 0 0)) as ->; [|done].
  unfold arr_get, unit_table, POWER_SMALLEST in *. rewrite (proj2 (Z.ltb_ge k 0)) by lia.
  replace (Z.to_nat k) with (S (Z.to_nat (k - 1))) by lia. rewrite <-lookup_tail. cbn [tail].
  rewrite lookup_app_l by (rewrite length_replicate; lia). apply lookup_replicate.
  split; [done|lia].
Qed.

(** An allocator of the node, as initialised: the next block is the last page of the
    first two hundred. *)
Lemma init_page_next realloc_ok huge limit base cl0 pl0 free0 ram0 :
  (∀ b, realloc_ok b = true) → 0 < base → base mod item_size_max = 0 →
  item_size_max * POWER_LARGEST ≤ limit ≤ 2 ^ 37 →
  swp False (slabs_init realloc_ok huge None limit factor.1 factor.2 base)
    (λ _ s', page_next (init_shape 200 unit_table) base limit (base + item_size_max * 199) s')
    (new_SlabAllocator cl0 pl0 free0 ram0).
Proof.
  intros Hr Hb Hal Hl.
  assert (base mod CHUNK_ALIGN_BYTES = 0) as Hal8.
  { unfold CHUNK_ALIGN_BYTES. change item_size_max with 4096 in *. divlia. }
  eapply swp_mono.
  { apply (slabs_init_spec Hr 200 unit_table); try done. apply unit_table_upto. }
  intros r s' (-> & hm & fl & I & Hlk & Hmb & Hml & _ & _ & Hm & Hh & Hlen).
  constructor; try done. exists hm, fl, 200. split; [done|]. split; [done|]. right.
  split; [done|]. split; [done|]. rewrite (si_current _ _ _ _ _ _ I), Hmb.
  change item_size_max with 4096. lia.
Qed.

Lemma boot_region realloc_ok huge limit base n cl0 pl0 free0 ram0 :
  (∀ b, realloc_ok b = true) → 0 < base → base mod item_size_max = 0 →
  item_size_max * POWER_LARGEST ≤ limit ≤ 2 ^ 37 →
  item_size_max * (199 + Z.of_nat n) ≤ limit →
  swp False
    (slabs_init realloc_ok huge None limit factor.1 factor.2 base;; alloc_blocks realloc_ok n)
    (λ ps s', ps = (λ i, base + item_size_max * 199 + item_size_max * i) <$> seqZ 0 (Z.of_nat n))
    (new_SlabAllocator cl0 pl0 free0 ram0).
Proof.
  intros Hr Hb Hal Hl Hn. apply swp_bind. eapply swp_mono; [by apply init_page_next|].
  intros r s Hs. eapply swp_mono.
  { apply (alloc_blocks_spec _ (init_shape 200 unit_table) base limit n
      (base + item_size_max * 199) s Hr); [|exact Hs| |].
    - apply unit_shape_big.
    - change item_size_max with 4096 in *. divlia.
    - lia. }
  by intros ps s' [-> _].
Qed.

(** ** The sizes of a configuration *)
Lemma pool_size_bounds u :
  0 ≤ u ≤ item_size_max * max_gblock_num_per_node →
  u ≤ pool_size u ≤ 2 ^ 35 ∧ MB * 200 ≤ pool_size u ∧ pool_size u mod item_size_max = 0.
Proof.
  unfold pool_size, max_gblock_num_per_node, MB. change item_size_max with 4096. intros Hu.
  set (m := if _ <? u then u else _).
  assert (u ≤ m ∧ 1048576 * 200 ≤ m ≤ 4096 * 5000000) as Hm.
  { unfold m. destruct (Z.ltb_spec (1024 * 1024 * 200) u); lia. }
  change (1024 * 1024) with 1048576.
  rewrite wrap_small; [|unfold fits; divlia]. split; [|split]; divlia.
Qed.

Lemma config_sizes id num appt syst g c bus mac conf :
  new_DSMConfig id num appt syst g c bus mac = Some conf →
  0 ≤ g ≤ item_size_max * max_gblock_num_per_node →
  0 ≤ c ≤ item_size_max * max_cline_num_per_node →
  gmem_size_per_node conf = pool_size g ∧ cache_size_per_node conf = pool_size c ∧
  gblock_num_per_node conf = g / item_size_max ∧ cline_num_per_node conf = c / item_size_max ∧
  cpu_pool_size conf = GB + pool_size g + pool_size c + GB.
Proof.
  intros E Hg Hc. unfold new_DSMConfig in E. cbn zeta in E. case_match; [|done].
  injection E as <-. cbn -[pool_size to_int wrap].
  pose proof (pool_size_bounds g Hg) as (? & _). pose proof (pool_size_bounds c Hc) as (? & _).
  unfold max_gblock_num_per_node, max_cline_num_per_node in *.
  change DSM_CACHE_LINE_SIZE with item_size_max. change item_size_max with 4096 in *.
  split_and!; [done|done| | |].
  - apply to_int_small. divlia.
  - apply to_int_small. divlia.
  - apply wrap_small. unfold fits, GB, MB. lia.
Qed.

(** Blocks of a page in a row from [p]. *)
Definition page_blocks (p n : Z) : list Z := (λ i, p + item_size_max * i) <$> seqZ 0 n.

Lemma elem_of_page_blocks p n x :
  x ∈ page_blocks p n ↔ ∃ i, x = p + item_size_max * i ∧ 0 ≤ i < n.
Proof.
  unfold page_blocks. rewrite list_elem_of_fmap. split.
  - intros (i & -> & Hi%elem_of_seqZ). exists i. lia.
  - intros (i & -> & ?). exists i. split; [done|]. apply elem_of_seqZ. lia.
Qed.

Lemma page_blocks_nodup p n : NoDup (page_blocks p n).
Proof.
  apply (NoDup_fmap_2_strong (λ i, p + item_size_max * i)); [|apply NoDup_seqZ].
  intros i j _ _ ?. change item_size_max with 4096 in *. lia.
Qed.

(** Two rows, one after the other. *)
Lemma page_blocks_app p q n m :
  p + item_size_max * n ≤ q → p mod item_size_max = 0 → q mod item_size_max = 0 →
  NoDup (page_blocks p n ++ page_blocks q m) ∧
  ∀ x y, x ∈ page_blocks p n ++ page_blocks q m → y ∈ page_blocks p n ++ page_blocks q m →
    x ≠ y → x + item_size_max ≤ y ∨ y + item_size_max ≤ x.
Proof.
  intros Hpq Hp Hq. split.
  - apply NoDup_app. split_and!; [apply page_blocks_nodup| |apply page_blocks_nodup].
    intros x (i & -> & ?)%elem_of_page_blocks (j & ? & ?)%elem_of_page_blocks.
    change item_size_max with 4096 in *. lia.
  - intros x y. rewrite !elem_of_app, !elem_of_page_blocks. change item_size_max with 4096 in *.
    intros [(i & -> & ?)|(i & -> & ?)] [(j & -> & ?)|(j & -> & ?)] ?; lia.
Qed.

Lemma page_aligned x : x mod item_size_max = 0 ↔ ∃ k, x = item_size_max * k.
Proof.
  rewrite Z.mod_divide by done. split; intros [k ->]; exists k; lia.
Qed.

(** Where the first blocks of a node are, for a pool on page [b]. *)
Lemma boot_layout conf base g c :
  gmem_size_per_node conf = pool_size g →
  cpu_pool_size conf = GB + pool_size g + pool_size c + GB →
  0 ≤ g ≤ item_size_max * max_gblock_num_per_node →
  0 ≤ c ≤ item_size_max * max_cline_num_per_node → base mod item_size_max = 0 →
  let p := gblock_data_base_addr base + item_size_max * 199 in
  let q := cline_data_base_addr conf base + item_size_max * 199 in
  p mod item_size_max = 0 ∧ q mod item_size_max = 0 ∧ base + GB ≤ p ∧
  p + item_size_max * (g / item_size_max) ≤ q ∧
  q + item_size_max * (c / item_size_max) ≤ base + cpu_pool_size conf.
Proof.
  intros Eg Ep Hg Hc Hal p q.
  pose proof (pool_size_bounds g Hg) as ([Hg1 _] & _ & Hgm).
  pose proof (pool_size_bounds c Hc) as ([Hc1 _] & _ & _).
  pose proof (Z.mul_div_le g item_size_max eq_refl). pose proof (Z.mul_div_le c item_size_max eq_refl).
  unfold p, q, cline_data_base_addr, gblock_data_base_addr, get_data_base_addr.
  rewrite Ep, Eg. clear p q Ep Eg.
  apply page_aligned in Hal as [b ->], Hgm as [G EG]. rewrite EG in *. clear EG Hg Hc.
  rewrite !page_aligned. unfold GB, MB. change item_size_max with 4096 in *.
  split_and!; [exists (b + 262144 + 199); lia|exists (b + 262144 + G + 199); lia|lia..].
Qed.

Lemma boot_blocks_eq realloc_ok huge conf base g c cl1 pl1 free1 ram1 cl2 pl2 free2 ram2 :
  (∀ b, realloc_ok b = true) →
  0 ≤ g ≤ item_size_max * max_gblock_num_per_node →
  0 ≤ c ≤ item_size_max * max_cline_num_per_node →
  gmem_size_per_node conf = pool_size g → cache_size_per_node conf = pool_size c →
  gblock_num_per_node conf = g / item_size_max → cline_num_per_node conf = c / item_size_max →
  0 < base → base mod item_size_max = 0 →
  boot_blocks realloc_ok huge conf base (new_SlabAllocator cl1 pl1 free1 ram1)
    (new_SlabAllocator cl2 pl2 free2 ram2) =
  Some (page_blocks (gblock_data_base_addr base + item_size_max * 199) (g / item_size_max),
        page_blocks (cline_data_base_addr conf base + item_size_max * 199) (c / item_size_max)).
Proof.
  intros Hr Hg Hc Eg Ec Eng Enc Hb Hal.
  pose proof (pool_size_bounds g Hg) as ([? ?] & ? & Hgm).
  pose proof (pool_size_bounds c Hc) as ([? ?] & ? & Hcm).
  assert (∀ u addr n cl pl free ram, 0 < addr → addr mod item_size_max = 0 →
    item_size_max * n ≤ pool_size u → 0 ≤ n → pool_size u ≤ 2 ^ 35 → MB * 200 ≤ pool_size u →
    ∃ s', (slabs_init realloc_ok huge None (one_and_half (pool_size u)) factor.1 factor.2 addr;;
     alloc_blocks realloc_ok (Z.to_nat n)) (new_SlabAllocator cl pl free ram) =
    Done (page_blocks (addr + item_size_max * 199) n) s') as Hone.
  { intros u addr n cl pl free ram Ha Ham Hn Hn0 Hu1 Hu2.
    destruct (swp_done _ _ _ (boot_region realloc_ok huge (one_and_half (pool_size u)) addr
      (Z.to_nat n) cl pl free ram Hr Ha Ham ltac:(unfold one_and_half, POWER_LARGEST, MB in *;
        change item_size_max with 4096 in *; divlia) ltac:(unfold one_and_half, MB in *;
        change item_size_max with 4096 in *; divlia))) as (ps & s' & E & ->).
    exists s'. rewrite E. by rewrite Z2Nat.id. }
  unfold boot_blocks. cbn zeta. rewrite Eg, Ec, Eng, Enc.
  assert (gblock_data_base_addr base mod item_size_max = 0 ∧ 0 < gblock_data_base_addr base) as [? ?].
  { unfold gblock_data_base_addr, get_data_base_addr, GB, MB.
    change item_size_max with 4096 in *. split; [divlia|lia]. }
  assert (cline_data_base_addr conf base mod item_size_max = 0 ∧
    0 < cline_data_base_addr conf base) as [? ?].
  { unfold cline_data_base_addr. rewrite Eg. unfold MB in *.
    change item_size_max with 4096 in *. split; [divlia|lia]. }
  destruct (Hone g (gblock_data_base_addr base) (g / item_size_max) cl1 pl1 free1 ram1)
    as [s1 ->]; try done; try (change item_size_max with 4096 in *; divlia).
  destruct (Hone c (cline_data_base_addr conf base) (c / item_size_max) cl2 pl2 free2 ram2)
    as [s2 ->]; try done; change item_size_max with 4096 in *; divlia.
Qed.

(** C36: A node starts with as many blocks and buffers as its configuration says, and they
    never overlap: for every accepted configuration of at most 5000000 blocks and buffers
    and every page-aligned pool, both initialisations and all allocations succeed, the
    blocks of the global memory and the buffers of the cache lines are pairwise disjoint
    pages inside the pool, behind the first gigabyte, which belongs to the receive rings,
    although the regions of the two allocators overlap; and a cache that [initLine] deals
    these buffers to is well-formed in every set. *)
Theorem node_boot realloc_ok huge id num appt syst g c bus mac conf base
    cl1 pl1 free1 ram1 cl2 pl2 free2 ram2 :
  (∀ b, realloc_ok b = true) →
  new_DSMConfig id num appt syst g c bus mac = Some conf →
  0 ≤ g ≤ item_size_max * max_gblock_num_per_node →
  0 ≤ c ≤ item_size_max * max_cline_num_per_node →
  0 < base → base mod item_size_max = 0 →
  ∃ gblocks clines,
    boot_blocks realloc_ok huge conf base (new_SlabAllocator cl1 pl1 free1 ram1)
      (new_SlabAllocator cl2 pl2 free2 ram2) = Some (gblocks, clines) ∧
    Z.of_nat (length gblocks) = gblock_num_per_node conf ∧
    Z.of_nat (length clines) = cline_num_per_node conf ∧
    (∀ x, x ∈ gblocks ++ clines →
      x mod item_size_max = 0 ∧ base + GB ≤ x ∧
      x + item_size_max ≤ base + cpu_pool_size conf) ∧
    NoDup (gblocks ++ clines) ∧
    (∀ x y, x ∈ gblocks ++ clines → y ∈ gblocks ++ clines → x ≠ y →
      x + item_size_max ≤ y ∨ y + item_size_max ≤ x) ∧
    (∀ k k' i u, (∀ v, available_data_stack k v = []) →
      initLine (appt_num_per_node conf) clines k = Some k' →
      0 ≤ i < max_cline_set_depth_per_node → CacheSet.set_wf i u k').
Proof.
  intros Hr Hconf Hg Hc Hb Hal.
  destruct (config_sizes _ _ _ _ _ _ _ _ _ Hconf Hg Hc) as (Eg & Ec & Eng & Enc & Epool).
  destruct (boot_layout conf base g c Eg Epool Hg Hc Hal) as (Hp & Hq & Hlo & Hpq & Hhi).
  set (p := gblock_data_base_addr base + item_size_max * 199) in *.
  set (q := cline_data_base_addr conf base + item_size_max * 199) in *.
  destruct (page_blocks_app p q (g / item_size_max) (c / item_size_max) Hpq Hp Hq) as [Hnd Hdis].
  eexists _, _. split; [by apply (boot_blocks_eq realloc_ok huge conf base g c)|].
  fold p q. split_and!; try done.
  - unfold page_blocks. rewrite length_fmap, length_seqZ, Eng.
    pose proof (Z.div_pos g item_size_max (proj1 Hg) eq_refl). lia.
  - unfold page_blocks. rewrite length_fmap, length_seqZ, Enc.
    pose proof (Z.div_pos c item_size_max (proj1 Hc) eq_refl). lia.
  - clear Hnd Hdis Hconf Eg Ec Eng Enc Epool. apply page_aligned in Hp as [kp Ep], Hq as [kq Eq].
    intros x. rewrite elem_of_app, !elem_of_page_blocks, page_aligned.
    pose proof (Z.div_pos c item_size_max (proj1 Hc) eq_refl).
    pose proof (Z.div_pos g item_size_max (proj1 Hg) eq_refl). clear Hg Hc.
    set (n := g / item_size_max) in *. set (m := c / item_size_max) in *. clearbody n m.
    change item_size_max with 4096 in *.
    intros [(i & -> & ?)|(i & -> & ?)];
      (split; [first [exists (kp + i); lia|exists (kq + i); lia]|lia]).
  - intros k k' i u Hk Hinit Hi. apply NoDup_app in Hnd as (_ & _ & Hnd).
    eapply initLine_wf; [exact Hinit|done| |done|done].
    pose proof (Z.div_pos g item_size_max (proj1 Hg) eq_refl).
    intros (j & E & ?)%elem_of_page_blocks. unfold GB, MB in *.
    change item_size_max with 4096 in *. lia.
Qed.

Definition ex_alloc : allocator := new_SlabAllocator [] 0 0 (λ _, 7).

Definition ex_conf : option DSMConfig :=
  new_DSMConfig 0 1 2 1 40960 8192 67 [[1; 2; 3; 4; 5; 6]].

Lemma node_boot_witness :
  ∃ conf gblocks clines, ex_conf = Some conf ∧
    boot_blocks (λ _, true) 0 conf (2 ^ 30) ex_alloc ex_alloc = Some (gblocks, clines) ∧
    Z.of_nat (length gblocks) = 10 ∧ Z.of_nat (length clines) = 2 ∧ NoDup (gblocks ++ clines).
Proof.
  destruct ex_conf as [conf|] eqn:E; [|by vm_compute in E].
  destruct (node_boot (λ _, true) 0 0 1 2 1 40960 8192 67 [[1; 2; 3; 4; 5; 6]] conf (2 ^ 30)
    [] 0 0 (λ _, 7) [] 0 0 (λ _, 7)) as (gblocks & clines & Hb & Hg & Hc & _ & Hnd & _).
  - reflexivity.
  - exact E.
  - unfold max_gblock_num_per_node. change item_size_max with 4096. lia.
  - unfold max_cline_num_per_node. change item_size_max with 4096. lia.
  - reflexivity.
  - reflexivity.
  - exists conf, gblocks, clines. vm_compute in E. injection E as <-. by split_and!.
Defined.
