(* ===== verification/DbStore.v ===== *)
(** * DbStore: the global memory as the database uses it

    [gallocator.h] makes the [DSM] of a node the allocator of the database.  The
    operations of the database are computations over a store; the interface [GAlloc]
    lists the methods of [DSM] that they call, [GHeap] states what those promise: blocks
    of bytes that do not overlap, which is what the database's structures are proved
    against.  [Pod] is the layout of a C++ structure in memory. *)
From S2P Require Import Prelude GlobalMem.
From stdpp Require Import base numbers option list list_numbers gmap countable.
Open Scope Z_scope.

(** ** Computations of the database

    They return, or end with a failed assertion, an exception, undefined behaviour (an
    index out of range), or wait for ever. *)
Inductive db_error := assertion_failed | runtime_error | undefined | waits.

Inductive db_result (S A : Type) :=
| Done (a : A) (s : S)
| Raise (e : db_error) (s : S).
Arguments Done {S A} a s.
Arguments Raise {S A} e s.

Definition DB (S A : Type) : Type := S → db_result S A.

#[export] Instance DB_ret {S} : MRet (DB S) := λ A a s, Done a s.
#[export] Instance DB_bind {S} : MBind (DB S) := λ A B k m s,
  match m s with Done a s => k a s | Raise e s => Raise e s end.

Definition raise {S A} (e : db_error) : DB S A := λ s, Raise e s.
Definition assert_ {S} (b : bool) : DB S unit := if b then mret () else raise assertion_failed.
(** An array access. *)
Definition in_array {S A} (x : option A) : DB S A :=
  match x with Some a => mret a | None => raise undefined end.

(** [for (x : l) body(x)] *)
Fixpoint for_each {S A} (l : list A) (body : A → DB S unit) : DB S unit :=
  match l with [] => mret () | x :: l => body x;; for_each l body end.

(** The weakest precondition of a computation that returns. *)
Definition wpd {S A} (m : DB S A) (Q : A → S → Prop) (s : S) : Prop :=
  match m s with Done a s => Q a s | Raise _ _ => False end.

Section wpd.
Context {S : Type}.
Implicit Types s : S.

Lemma wpd_ret {A} (a : A) (Q : A → S → Prop) s : Q a s → wpd (mret a) Q s.
Proof. done. Qed.

Lemma wpd_bind {A B} (m : DB S A) (k : A → DB S B) Q s :
  wpd m (λ a, wpd (k a) Q) s → wpd (m ≫= k) Q s.
Proof. unfold wpd, mbind, DB_bind. by destruct (m s). Qed.

Lemma wpd_mono {A} (m : DB S A) (Q Q' : A → S → Prop) s :
  wpd m Q s → (∀ a s', Q a s' → Q' a s') → wpd m Q' s.
Proof. unfold wpd. destruct (m s); auto. Qed.

Lemma wpd_assert b (Q : unit → S → Prop) s : b = true → Q () s → wpd (assert_ b) Q s.
Proof. by intros ->. Qed.

Lemma wpd_in_array {A} (x : option A) a (Q : A → S → Prop) s :
  x = Some a → Q a s → wpd (in_array x) Q s.
Proof. by intros ->. Qed.

Lemma wpd_run {A} (m : DB S A) (Q : A → S → Prop) s :
  wpd m Q s → ∃ a s', m s = Done a s' ∧ Q a s'.
Proof. unfold wpd. destruct (m s); [eauto|done]. Qed.

Lemma wpd_done {A} (m : DB S A) (Q : A → S → Prop) s a s' :
  m s = Done a s' → Q a s' → wpd m Q s.
Proof. unfold wpd. by intros ->. Qed.

(** The invariant rule of a counting loop: [I i] holds before turn [i]. *)
Lemma wpd_for_seqZ a n body (I : Z → S → Prop) (Q : unit → S → Prop) s :
  0 ≤ n → I a s →
  (∀ i s', a ≤ i < a + n → I i s' → wpd (body i) (λ _, I (i + 1)) s') →
  (∀ s', I (a + n) s' → Q () s') →
  wpd (for_each (seqZ a n) body) Q s.
Proof.
  intros Hn. rewrite <-(Z2Nat.id n) by done. generalize (Z.to_nat n). clear n Hn. intros n.
  revert a s. induction n as [|n IH]; intros a s H0 Hs HQ.
  - cbn. apply HQ. by rewrite Z.add_0_r in *.
  - rewrite seqZ_cons by lia. cbn [for_each]. apply wpd_bind.
    eapply wpd_mono; [apply Hs; [lia|done]|]. intros [] s' H. cbn beta.
    replace (Z.pred (Z.of_nat (Datatypes.S n))) with (Z.of_nat n) by lia.
    apply IH; [done| |].
    + intros i s1 Hi. apply Hs. lia.
    + intros s1 H1. apply HQ. by replace (a + Z.of_nat (Datatypes.S n)) with (Z.succ a + Z.of_nat n) by lia.
Qed.

(** A loop over a list: [I] holds of what is left. *)
Lemma wpd_for_each {A} (l : list A) body (I : list A → S → Prop) (Q : unit → S → Prop) s :
  I l s → (∀ x rest s', I (x :: rest) s' → wpd (body x) (λ _, I rest) s') → (∀ s', I [] s' → Q () s') →
  wpd (for_each l body) Q s.
Proof.
  intros Hl Hb HQ. revert s Hl. induction l as [|x l IH]; intros s Hl; [by apply HQ|].
  cbn [for_each]. apply wpd_bind. eapply wpd_mono; [by apply Hb|]. intros [] s' Hs. by apply IH.
Qed.
End wpd.

Ltac wpd_step :=
  lazymatch goal with
  | |- wpd (mbind _ _) _ _ => apply wpd_bind
  | |- wpd (mret _) _ _ => apply wpd_ret
  | |- wpd (if ?b then _ else _) _ _ => destruct b eqn:?
  | |- wpd (let _ := _ in _) _ _ => cbv zeta
  end.

(** ** Bytes *)
Definition le_bytes (k : nat) (v : Z) : list Z :=
  (λ i, get_range v (8 * i + 7) (8 * i)) <$> seqZ 0 (Z.of_nat k).

Lemma le_bytes_length k v : length (le_bytes k v) = k.
Proof. unfold le_bytes. rewrite length_fmap, length_seqZ. lia. Qed.

Lemma le_word_bytes k v : fits (8 * Z.of_nat k) v → le_word 8 (le_bytes k v) = v.
Proof.
  intros Hv. pose proof (le_word_slices 8 v 0 k ltac:(lia) ltac:(lia)) as E.
  change (8 - 1) with 7 in E. unfold le_bytes. rewrite E, Z.mul_0_r.
  replace (8 * (0 + Z.of_nat k) - 1) with (8 * Z.of_nat k - 1) by lia.
  apply get_range_full; [lia|done].
Qed.

(** Parts of a block. *)
Definition slice (off n : Z) (bs : list Z) : list Z := take (Z.to_nat n) (drop (Z.to_nat off) bs).
Definition splice (off : Z) (d bs : list Z) : list Z :=
  take (Z.to_nat off) bs ++ d ++ drop (Z.to_nat off + length d) bs.

Abbreviation len bs := (Z.of_nat (length bs)).

Lemma slice_length off n bs : 0 ≤ off → 0 ≤ n → off + n ≤ len bs → length (slice off n bs) = Z.to_nat n.
Proof. intros. unfold slice. rewrite length_take, length_drop. lia. Qed.

Lemma slice_lookup off n bs i :
  0 ≤ off → (i < Z.to_nat n)%nat → slice off n bs !! i = bs !! (Z.to_nat off + i)%nat.
Proof. intros. unfold slice. rewrite lookup_take_lt, lookup_drop by lia. done. Qed.

Lemma splice_length off d bs : 0 ≤ off → off + len d ≤ len bs → length (splice off d bs) = length bs.
Proof. intros. unfold splice. rewrite !length_app, length_take, length_drop. lia. Qed.

Lemma splice_lookup off d bs i :
  0 ≤ off → off + len d ≤ len bs →
  splice off d bs !! i =
  if decide (Z.to_nat off ≤ i < Z.to_nat off + length d)%nat
  then d !! (i - Z.to_nat off)%nat else bs !! i.
Proof.
  intros. unfold splice.
  destruct (decide (i < Z.to_nat off)%nat).
  { rewrite lookup_app_l by (rewrite length_take; lia). rewrite lookup_take_lt by lia.
    by rewrite decide_False by lia. }
  rewrite lookup_app_r by (rewrite length_take; lia). rewrite length_take_le by lia.
  destruct (decide (i < Z.to_nat off + length d)%nat).
  - rewrite decide_True by lia. by rewrite lookup_app_l by lia.
  - rewrite decide_False by lia. rewrite lookup_app_r, lookup_drop by lia. f_equal. lia.
Qed.

Lemma slice_splice off d bs :
  0 ≤ off → off + len d ≤ len bs → slice off (len d) (splice off d bs) = d.
Proof.
  intros. apply list_eq. intros i. destruct (decide (i < length d)%nat).
  - rewrite slice_lookup, splice_lookup, decide_True by lia. f_equal. lia.
  - rewrite !lookup_ge_None_2; [done|lia|]. rewrite slice_length by (rewrite ?splice_length; lia). lia.
Qed.

Lemma slice_splice_other off n off' d bs :
  0 ≤ off → 0 ≤ n → off + n ≤ len bs → 0 ≤ off' → off' + len d ≤ len bs →
  off + n ≤ off' ∨ off' + len d ≤ off →
  slice off n (splice off' d bs) = slice off n bs.
Proof.
  intros. apply list_eq. intros i. destruct (decide (i < Z.to_nat n)%nat).
  - rewrite !slice_lookup, splice_lookup, decide_False by lia. done.
  - rewrite !lookup_ge_None_2; [done|..]; rewrite slice_length by (rewrite ?splice_length; lia); lia.
Qed.

Lemma slice_all bs : slice 0 (len bs) bs = bs.
Proof. unfold slice. rewrite Nat2Z.id, drop_0. by rewrite firstn_all. Qed.

Lemma splice_all d bs : length d = length bs → splice 0 d bs = d.
Proof.
  intros E. unfold splice. change (Z.to_nat 0) with 0%nat. rewrite take_0, E. cbn.
  rewrite drop_all. by rewrite app_nil_r.
Qed.

Lemma slice_slice off n off' n' bs :
  0 ≤ off → 0 ≤ off' → off' + n' ≤ n → slice off' n' (slice off n bs) = slice (off + off') n' bs.
Proof.
  intros. unfold slice. rewrite skipn_firstn_comm, drop_drop, firstn_firstn.
  rewrite Nat.min_l by lia. do 2 f_equal. lia.
Qed.

(** ** The layout of data in memory

    A type with its size, its bytes and what a program reads back.  Padding and the
    members that are never assigned hold a byte that is not determined. *)
Class Indeterminate := { junk : Z; junk_fits : fits 8 junk }.

Class Pod (T : Type) := {
  sizeof : Z;
  valid : T → Prop;
  to_bytes : T → list Z;
  of_bytes : list Z → T;
  sizeof_pos : 0 < sizeof;
  to_bytes_length x : valid x → length (to_bytes x) = Z.to_nat sizeof;
  of_to_bytes x : valid x → of_bytes (to_bytes x) = x;
}.
Arguments sizeof T {_}.

Lemma to_bytes_len `{Pod T} x : valid x → len (to_bytes x) = sizeof T.
Proof. intros. rewrite to_bytes_length by done. pose proof (sizeof_pos (T := T)). lia. Qed.

Program Definition pod_uint (k : nat) (Hk : (0 < k)%nat) : Pod Z := {|
  sizeof := Z.of_nat k; valid v := fits (8 * Z.of_nat k) v;
  to_bytes := le_bytes k; of_bytes := le_word 8;
|}.
Next Obligation. intros. cbn. lia. Qed.
Next Obligation. intros. cbn. rewrite le_bytes_length. lia. Qed.
Next Obligation. intros. by apply le_word_bytes. Qed.

Program Definition pod_pair {A B} (P : Pod A) (Q : Pod B) : Pod (A * B) := {|
  sizeof := sizeof A + sizeof B; valid x := valid x.1 ∧ valid x.2;
  to_bytes x := to_bytes x.1 ++ to_bytes x.2;
  of_bytes bs := (of_bytes (take (Z.to_nat (sizeof A)) bs), of_bytes (drop (Z.to_nat (sizeof A)) bs));
|}.
Next Obligation. intros. pose proof (sizeof_pos (T := A)). pose proof (sizeof_pos (T := B)). lia. Qed.
Next Obligation.
  intros A B P Q [x y] [? ?]. cbn. rewrite length_app, !to_bytes_length by done.
  pose proof (sizeof_pos (T := A)). pose proof (sizeof_pos (T := B)). lia.
Qed.
Next Obligation.
  intros A B P Q [x y] [? ?]. cbn. rewrite <-(to_bytes_length x) by done.
  by rewrite take_app_length, drop_app_length, !of_to_bytes.
Qed.

(** [T x[n]] *)
Fixpoint of_bytes_array {A} `{Pod A} (n : nat) (bs : list Z) : list A :=
  match n with
  | O => []
  | S n => of_bytes (take (Z.to_nat (sizeof A)) bs) ::
           of_bytes_array n (drop (Z.to_nat (sizeof A)) bs)
  end.

Program Definition pod_array {A} (n : nat) (Hn : (0 < n)%nat) (P : Pod A) : Pod (list A) := {|
  sizeof := Z.of_nat n * sizeof A; valid l := length l = n ∧ Forall valid l;
  to_bytes l := l ≫= to_bytes; of_bytes := of_bytes_array n;
|}.
Next Obligation. intros. pose proof (sizeof_pos (T := A)). nia. Qed.
Next Obligation.
  intros A n Hn P l [<- Hl]. clear Hn. pose proof (sizeof_pos (T := A)).
  induction Hl as [|x l Hx Hl IH]; cbn [mbind list_bind length]; [done|].
  rewrite length_app, IH, to_bytes_length by done. lia.
Qed.
Next Obligation.
  intros A n Hn P l [<- Hl]. clear Hn.
  induction Hl as [|x l Hx Hl IH]; cbn [mbind list_bind length of_bytes_array]; [done|].
  rewrite <-(to_bytes_length x) by done. by rewrite take_app_length, drop_app_length, of_to_bytes, IH.
Qed.

Program Definition pod_pad `{Indeterminate} {A} (n : nat) (P : Pod A) : Pod A := {|
  sizeof := sizeof A + Z.of_nat n; valid := valid;
  to_bytes x := to_bytes x ++ replicate n junk;
  of_bytes bs := of_bytes (take (Z.to_nat (sizeof A)) bs);
|}.
Next Obligation. intros. pose proof (sizeof_pos (T := A)). lia. Qed.
Next Obligation.
  intros J A n P x Hx. cbv beta. rewrite length_app, length_replicate, to_bytes_length by done.
  pose proof (sizeof_pos (T := A)). lia.
Qed.
Next Obligation.
  intros J A n P x Hx. cbv beta. rewrite <-(to_bytes_length x) by done. by rewrite take_app_length, of_to_bytes.
Qed.

(** A structure with the members [g x]. *)
Program Definition pod_struct {A B} (f : B → A) (g : A → B) (Hfg : ∀ x, f (g x) = x) (P : Pod B)
    : Pod A := {|
  sizeof := sizeof B; valid x := valid (g x); to_bytes x := to_bytes (g x);
  of_bytes bs := f (of_bytes bs);
|}.
Next Obligation. intros. apply sizeof_pos. Qed.
Next Obligation. intros. by apply to_bytes_length. Qed.
Next Obligation. intros A B f g Hfg P x Hx. cbv beta. by rewrite of_to_bytes. Qed.

Lemma lt_0_1 : (0 < 1)%nat. Proof. lia. Qed.
Lemma lt_0_8 : (0 < 8)%nat. Proof. lia. Qed.
Definition pod_u8 : Pod Z := pod_uint 1 lt_0_1.
(** [size_t], [uint64_t], [IndexKey] *)
#[export] Instance pod_u64 : Pod Z := pod_uint 8 lt_0_8.

(** [GlobalAddress] is packed: eight bytes, the node, and [org], which is never set. *)
#[export] Instance pod_GlobalAddress `{Indeterminate} : Pod GlobalAddress :=
  pod_struct (λ x, mk_GlobalAddress x.1 x.2) (λ a, (ga_addr a, ga_nodeID a))
    ltac:(by intros []) (pod_pad 1 (pod_pair pod_u64 pod_u8)).

Definition ga_valid (a : GlobalAddress) : Prop := fits 64 (ga_addr a) ∧ fits 8 (ga_nodeID a).

Lemma valid_GlobalAddress `{Indeterminate} a : ga_valid a → valid a.
Proof. done. Qed.

Lemma valid_Null `{Indeterminate} : valid ga_Null.
Proof. repeat split; cbn; lia. Qed.

(** ** The methods of [DSM] that the database calls ([DSM.h]) *)
Class GAlloc (S : Type) := {
  ga_read : GlobalAddress → Z → DB S (list Z);
  ga_write : GlobalAddress → list Z → DB S unit;
  ga_malloc : Z → bool → DB S GlobalAddress;
  ga_free : GlobalAddress → DB S unit;
}.

Section dsm_methods.
Context {S : Type} {G : GAlloc S}.

Definition AlignedMalloc (size : Z) : DB S GlobalAddress := ga_malloc size true.
Definition Malloc (size : Z) : DB S GlobalAddress := ga_malloc size false.
Definition Free (addr : GlobalAddress) : DB S unit := ga_free addr.

(** The lengths are converted to [uint32_t], the offsets to [int]. *)
Definition Read (addr : GlobalAddress) (count : Z) : DB S (list Z) := ga_read addr (wrap 32 count).
Definition Read_at (addr : GlobalAddress) (offset count : Z) : DB S (list Z) :=
  ga_read (GADD addr (to_int offset)) (wrap 32 count).
Definition Write (addr : GlobalAddress) (buf : list Z) : DB S unit :=
  ga_write addr (take (Z.to_nat (wrap 32 (len buf))) buf).
Definition Write_at (addr : GlobalAddress) (offset : Z) (buf : list Z) : DB S unit :=
  ga_write (GADD addr (to_int offset)) (take (Z.to_nat (wrap 32 (len buf))) buf).

(** The locks: two methods throw, the others do nothing and report success. *)
Definition RLock (addr : GlobalAddress) (count : Z) : DB S unit := raise runtime_error.
Definition WLock (addr : GlobalAddress) (count : Z) : DB S unit := raise runtime_error.
Definition UnLock (addr : GlobalAddress) (count : Z) : DB S unit := mret ().
Definition Try_RLock (addr : GlobalAddress) (count : Z) : DB S Z := mret 0.
Definition Try_WLock (addr : GlobalAddress) (count : Z) : DB S Z := mret 0.

(** Reading and writing a variable. *)
Definition load T `{Pod T} (addr : GlobalAddress) : DB S T :=
  bs ← Read addr (sizeof T); mret (of_bytes bs).
Definition load_at T `{Pod T} (addr : GlobalAddress) (offset : Z) : DB S T :=
  bs ← Read_at addr offset (sizeof T); mret (of_bytes bs).
Definition store {T} `{Pod T} (addr : GlobalAddress) (x : T) : DB S unit := Write addr (to_bytes x).
Definition store_at {T} `{Pod T} (addr : GlobalAddress) (offset : Z) (x : T) : DB S unit :=
  Write_at addr offset (to_bytes x).
End dsm_methods.

(** ** Blocks

    A heap has the bytes of every block that has been allocated, by its address. *)
#[export] Instance GlobalAddress_countable : Countable GlobalAddress.
Proof.
  refine (inj_countable' (λ a, (ga_addr a, ga_nodeID a)) (λ x, mk_GlobalAddress x.1 x.2) _).
  by intros [].
Defined.

Abbreviation heap := (gmap GlobalAddress (list Z)).

(** Space that an allocation takes: an aligned one may skip the rest of a line. *)
Definition alloc_cost (n : Z) (align : bool) : Z := n + if align then 4096 else 0.

Class GHeap (S : Type) `{GAlloc S} := {
  heap_ok : S → heap → Prop;
  room : S → Z;
  gh_block s h a bs : heap_ok s h → h !! a = Some bs →
    ga_valid a ∧ a ≠ ga_Null ∧ len bs ≤ 2 ^ 25 ∧ ga_addr a + len bs < 2 ^ 64;
  gh_read s h a bs off n : heap_ok s h → h !! a = Some bs → 0 ≤ off → 0 < n → off + n ≤ len bs →
    wpd (ga_read (GADD a off) n)
      (λ r s', r = slice off n bs ∧ heap_ok s' h ∧ room s' = room s) s;
  gh_write s h a bs off d : heap_ok s h → h !! a = Some bs → 0 ≤ off → 0 < len d →
    off + len d ≤ len bs →
    wpd (ga_write (GADD a off) d)
      (λ _ s', heap_ok s' (<[a := splice off d bs]> h) ∧ room s' = room s) s;
  gh_malloc s h n align : heap_ok s h → 0 < n → n ≤ 2 ^ 25 → alloc_cost n align ≤ room s →
    wpd (ga_malloc n align)
      (λ a s', ∃ bs, h !! a = None ∧ len bs = n ∧ heap_ok s' (<[a := bs]> h) ∧
        room s - alloc_cost n align ≤ room s') s;
  gh_free s h a : heap_ok s h →
    wpd (ga_free a) (λ _ s', heap_ok s' h ∧ room s' = room s) s;
}.

(** [x] is stored at offset [off] of block [a]; block [a] has [n] bytes. *)
Definition has `{Pod T} (h : heap) (a : GlobalAddress) (off : Z) (x : T) : Prop :=
  ∃ bs, h !! a = Some bs ∧ 0 ≤ off ∧ off + sizeof T ≤ len bs ∧
    slice off (sizeof T) bs = to_bytes x ∧ valid x.
Definition blk (h : heap) (a : GlobalAddress) (n : Z) : Prop :=
  ∃ bs, h !! a = Some bs ∧ len bs = n.
Definition put (a : GlobalAddress) (off : Z) (d : list Z) (h : heap) : heap :=
  alter (splice off d) a h.

Lemma GADD_0 a : ga_valid a → GADD a 0 = a.
Proof.
  intros [Ha _]. destruct a as [x n]. unfold GADD, set_field. cbn in *.
  by rewrite Z.add_0_r, wrap_small.
Qed.

Lemma GADD_GADD a x y : GADD (GADD a x) y = GADD a (x + y).
Proof.
  unfold GADD, set_field. cbn. f_equal. unfold wrap. rewrite Zplus_mod_idemp_l. f_equal. lia.
Qed.

Section heaps.
Implicit Types h : heap.

Lemma blk_insert_same h a bs : blk (<[a := bs]> h) a (len bs).
Proof. exists bs. by rewrite lookup_insert_eq. Qed.

Lemma blk_insert h a bs a' n : h !! a = None → blk h a' n → blk (<[a := bs]> h) a' n.
Proof.
  intros Ha (bs' & Hb & Hl). exists bs'. rewrite lookup_insert_ne; [done|]. intros ->. congruence.
Qed.

Lemma has_insert `{Pod T} h a bs a' off (x : T) :
  h !! a = None → has h a' off x → has (<[a := bs]> h) a' off x.
Proof.
  intros Ha (bs' & Hb & R). exists bs'. rewrite lookup_insert_ne; [done|]. intros ->. congruence.
Qed.

Lemma has_blk `{Pod T} h a off (x : T) : has h a off x → ∃ n, blk h a n ∧ off + sizeof T ≤ n.
Proof. intros (bs & Hb & _ & Hl & _). exists (len bs). split; [by exists bs|done]. Qed.

Lemma has_valid `{Pod T} h a off (x : T) : has h a off x → valid x.
Proof. by intros (? & ? & ? & ? & ? & ?). Qed.

Lemma blk_put h a off d a' n n' :
  blk h a n → 0 ≤ off → off + len d ≤ n → blk h a' n' → blk (put a off d h) a' n'.
Proof.
  intros (bs & Hb & Hn) H0 Hd (bs' & Hb' & Hn'). unfold put. destruct (decide (a = a')) as [->|].
  - exists (splice off d bs). rewrite lookup_alter_eq, Hb. split; [done|].
    rewrite splice_length by lia. congruence.
  - exists bs'. by rewrite lookup_alter_ne.
Qed.

Lemma has_put_same `{Pod T} h a off (x : T) n :
  blk h a n → 0 ≤ off → off + sizeof T ≤ n → valid x → has (put a off (to_bytes x) h) a off x.
Proof.
  intros (bs & Hb & Hn) H0 Hd Hv. pose proof (to_bytes_len x Hv) as Hl.
  exists (splice off (to_bytes x) bs). unfold put. rewrite lookup_alter_eq, Hb.
  rewrite splice_length by lia. split_and!; [done..|lia| |done].
  rewrite <-Hl. apply slice_splice; lia.
Qed.

Lemma has_put_other `{Pod T} h a off d n a' off' (x : T) :
  blk h a n → 0 ≤ off → off + len d ≤ n → has h a' off' x →
  a ≠ a' ∨ off + len d ≤ off' ∨ off' + sizeof T ≤ off →
  has (put a off d h) a' off' x.
Proof.
  intros (bs & Hb & Hn) H0 Hd (bs' & Hb' & H0' & Hl & Hs & Hv) Hdis. unfold put.
  pose proof (sizeof_pos (T := T)). destruct (decide (a = a')) as [<-|].
  - exists (splice off d bs). rewrite lookup_alter_eq, Hb. rewrite Hb in Hb'. simplify_eq.
    assert (off + len d ≤ off' ∨ off' + sizeof T ≤ off) as Hd' by (by destruct Hdis as [?|?]).
    rewrite splice_length by lia. split_and!; [done..| |done].
    rewrite slice_splice_other by lia. done.
  - exists bs'. by rewrite lookup_alter_ne.
Qed.

Lemma put_some h a off d bs : h !! a = Some bs → put a off d h = <[a := splice off d bs]> h.
Proof.
  intros Hb. apply map_eq. intros b. unfold put. destruct (decide (a = b)) as [->|].
  - by rewrite lookup_alter_eq, lookup_insert_eq, Hb.
  - by rewrite lookup_alter_ne, lookup_insert_ne.
Qed.

Lemma put_lookup_ne h a off d a' : a ≠ a' → put a off d h !! a' = h !! a'.
Proof. intros. unfold put. by rewrite lookup_alter_ne. Qed.

Lemma put_lookup_None h a off d a' : put a off d h !! a' = None ↔ h !! a' = None.
Proof. unfold put. destruct (decide (a = a')) as [->|]; [rewrite lookup_alter_eq|rewrite lookup_alter_ne by done]; [|done].
  by destruct (h !! a').
Qed.
End heaps.

(** ** The rules of the methods *)
Section rules.
Context {S : Type} {G : GAlloc S} {GH : GHeap S}.
Implicit Types (s : S) (h : heap).

Lemma wp_Read_at s h p a x off n bs (Q : list Z → S → Prop) :
  heap_ok s h → p = GADD a x → h !! a = Some bs → 0 ≤ off → 0 ≤ x → 0 < n → x + off + n ≤ len bs →
  (∀ s', heap_ok s' h → room s' = room s → Q (slice (x + off) n bs) s') →
  wpd (Read_at p off n) Q s.
Proof.
  intros Hok -> Hb H0 Hx Hn Hl HQ. destruct (gh_block s h a bs Hok Hb) as (_ & _ & H25 & _).
  unfold Read_at. rewrite to_int_small, GADD_GADD, wrap_small by (unfold fits; lia).
  eapply wpd_mono; [apply (gh_read s h a bs); [done..|lia|lia|lia]|].
  intros r s' (-> & Hok' & Hr). by apply HQ.
Qed.

Lemma wp_Write_at s h p a x off d n (Q : unit → S → Prop) :
  heap_ok s h → p = GADD a x → blk h a n → 0 ≤ off → 0 ≤ x → 0 < len d → x + off + len d ≤ n →
  (∀ s', heap_ok s' (put a (x + off) d h) → room s' = room s → Q () s') →
  wpd (Write_at p off d) Q s.
Proof.
  intros Hok -> (bs & Hb & <-) H0 Hx Hn Hl HQ. destruct (gh_block s h a bs Hok Hb) as (_ & _ & H25 & _).
  unfold Write_at. rewrite to_int_small, GADD_GADD, wrap_small by (unfold fits; lia).
  rewrite Nat2Z.id, firstn_all.
  eapply wpd_mono; [apply (gh_write s h a bs); [done..|lia|lia|lia]|].
  intros [] s' (Hok' & Hr). apply HQ; [|done].
  by rewrite (put_some _ _ _ _ _ Hb).
Qed.

Lemma wp_load_at `{Pod T} s h p a x off (v : T) (Q : T → S → Prop) :
  heap_ok s h → p = GADD a x → 0 ≤ x → 0 ≤ off → has h a (x + off) v →
  (∀ s', heap_ok s' h → room s' = room s → Q v s') →
  wpd (load_at T p off) Q s.
Proof.
  intros Hok Hp Hx H0 (bs & Hb & _ & Hl & Hs & Hv) HQ. unfold load_at. wpd_step.
  pose proof (sizeof_pos (T := T)).
  eapply wp_Read_at; [done..|lia|lia|lia|]. intros s' Hok' Hr. wpd_step.
  rewrite Hs, of_to_bytes by done. by apply HQ.
Qed.

Lemma wp_store_at `{Pod T} s h p a x off n (v : T) (Q : unit → S → Prop) :
  heap_ok s h → p = GADD a x → 0 ≤ x → 0 ≤ off → blk h a n → x + off + sizeof T ≤ n → valid v →
  (∀ s', heap_ok s' (put a (x + off) (to_bytes v) h) → room s' = room s → Q () s') →
  wpd (store_at p off v) Q s.
Proof.
  intros Hok Hp Hx H0 Hb Hl Hv HQ. unfold store_at. pose proof (sizeof_pos (T := T)).
  pose proof (to_bytes_len v Hv).
  eapply wp_Write_at; [done..|lia|lia|]. done.
Qed.

(** A method without an offset is the one with offset 0. *)
Lemma wp_load `{Pod T} s h p a x (v : T) (Q : T → S → Prop) :
  heap_ok s h → p = GADD a x → 0 ≤ x → has h a x v →
  (∀ s', heap_ok s' h → room s' = room s → Q v s') →
  wpd (load T p) Q s.
Proof.
  intros Hok Hp Hx Hv HQ. rewrite <-(Z.add_0_r x) in Hv.
  pose proof (wp_load_at s h p a x 0 v Q Hok Hp Hx ltac:(lia) Hv HQ) as H1.
  unfold load_at, load, Read_at, Read in *. rewrite to_int_small in H1 by lia.
  by rewrite Hp, GADD_GADD, Z.add_0_r, <-Hp in H1.
Qed.

Lemma wp_store `{Pod T} s h p a x n (v : T) (Q : unit → S → Prop) :
  heap_ok s h → p = GADD a x → 0 ≤ x → blk h a n → x + sizeof T ≤ n → valid v →
  (∀ s', heap_ok s' (put a x (to_bytes v) h) → room s' = room s → Q () s') →
  wpd (store p v) Q s.
Proof.
  intros Hok Hp Hx Hb Hl Hv HQ.
  assert (wpd (store_at p 0 v) Q s) as H1.
  { eapply wp_store_at; [done..|lia|done|lia|done|]. by rewrite Z.add_0_r. }
  unfold store_at, store, Write_at, Write in *. rewrite to_int_small in H1 by lia.
  by rewrite Hp, GADD_GADD, Z.add_0_r, <-Hp in H1.
Qed.

Lemma wp_Malloc s h n (Q : GlobalAddress → S → Prop) :
  heap_ok s h → 0 < n → n ≤ 2 ^ 25 → n ≤ room s →
  (∀ a bs s', h !! a = None → len bs = n → a ≠ ga_Null → ga_valid a → heap_ok s' (<[a := bs]> h) →
    room s - n ≤ room s' → Q a s') →
  wpd (Malloc n) Q s.
Proof.
  intros Hok Hn H25 Hr HQ. unfold Malloc.
  eapply wpd_mono; [apply (gh_malloc s h n false); [done..|unfold alloc_cost; lia]|].
  intros a s' (bs & Ha & Hl & Hok' & Hr'). unfold alloc_cost in Hr'. rewrite Z.add_0_r in Hr'.
  destruct (gh_block s' _ a bs Hok' (lookup_insert_eq _ _ _)) as (? & ? & _).
  by apply (HQ a bs).
Qed.

Lemma wp_AlignedMalloc s h n (Q : GlobalAddress → S → Prop) :
  heap_ok s h → 0 < n → n ≤ 2 ^ 25 → n + 4096 ≤ room s →
  (∀ a bs s', h !! a = None → len bs = n → a ≠ ga_Null → ga_valid a → heap_ok s' (<[a := bs]> h) →
    room s - (n + 4096) ≤ room s' → Q a s') →
  wpd (AlignedMalloc n) Q s.
Proof.
  intros Hok Hn H25 Hr HQ. unfold AlignedMalloc.
  eapply wpd_mono; [by apply (gh_malloc s h n true)|].
  intros a s' (bs & Ha & Hl & Hok' & Hr'). unfold alloc_cost in Hr'.
  destruct (gh_block s' _ a bs Hok' (lookup_insert_eq _ _ _)) as (? & ? & _).
  by apply (HQ a bs).
Qed.

Lemma blk_valid s h a n : heap_ok s h → blk h a n → ga_valid a ∧ a ≠ ga_Null ∧ GADD a 0 = a.
Proof.
  intros Hok (bs & Hb & _). destruct (gh_block s h a bs Hok Hb) as (? & ? & _).
  split_and!; [done..|]. by apply GADD_0.
Qed.

(** Replacing a variable that occupies the start of a block. *)
Lemma wp_update `{Pod T} s h a (x y : T) (Q : unit → S → Prop) :
  heap_ok s h → has h a 0 x → valid y →
  (∀ h' s', heap_ok s' h' → has h' a 0 y → (∀ b, b ≠ a → h' !! b = h !! b) → room s' = room s → Q () s') →
  wpd (store a y) Q s.
Proof.
  intros Hok Hx Hy HQ. destruct (has_blk _ _ _ _ Hx) as (n & Hb & Hn).
  destruct (blk_valid s h a n Hok Hb) as (_ & _ & E).
  eapply (wp_store s h a a 0 n); [done|by symmetry|lia|done|lia|done|].
  intros s' Hok' Hr. eapply HQ; [exact Hok'| | |done].
  - eapply has_put_same; [done|lia|lia|done].
  - intros b Hne. by apply put_lookup_ne.
Qed.

(** A new variable. *)
Lemma wp_new `{Pod T} {A} s h (y : T) (Q : A → S → Prop) (f : GlobalAddress → DB S A) :
  heap_ok s h → sizeof T ≤ 2 ^ 25 → sizeof T ≤ room s → valid y →
  (∀ a h' s', h !! a = None → a ≠ ga_Null → ga_valid a → heap_ok s' h' → has h' a 0 y →
     (∀ b, b ≠ a → h' !! b = h !! b) → room s - sizeof T ≤ room s' → wpd (f a) Q s') →
  wpd (a ← Malloc (sizeof T); store a y;; f a) Q s.
Proof.
  intros Hok H25 Hr Hy HQ. pose proof (sizeof_pos (T := T)). wpd_step.
  eapply wp_Malloc; [done|lia|lia|lia|]. intros a bs s1 Ha Hl Hnz Hv Hok1 Hr1. wpd_step.
  assert (blk (<[a := bs]> h) a (sizeof T)) as Hb by (rewrite <-Hl; apply blk_insert_same).
  eapply (wp_store s1 _ a a 0); [done|by rewrite GADD_0|lia|done|lia|done|].
  intros s2 Hok2 Hr2. apply (HQ a _ s2 Ha Hnz Hv Hok2); [|intros b Hne|lia].
  - eapply has_put_same; [done|lia|lia|done].
  - rewrite put_lookup_ne, lookup_insert_ne by done. done.
Qed.
End rules.

(** ** Bytes and words at a place *)
Definition has_bytes (h : heap) (a : GlobalAddress) (off : Z) (bs : list Z) : Prop :=
  ∃ b, h !! a = Some b ∧ 0 ≤ off ∧ off + len bs ≤ len b ∧ slice off (len bs) b = bs.

(** Words of eight bytes. *)
Definition words (ws : list Z) : list Z := ws ≫= le_bytes 8.
Definition of_words (n : nat) (bs : list Z) : list Z := of_bytes_array (A := Z) n bs.

Section words.
Context {S : Type} {G : GAlloc S}.

Definition load_words (addr : GlobalAddress) (offset : Z) (n : nat) : DB S (list Z) :=
  bs ← Read_at addr offset (8 * Z.of_nat n); mret (of_words n bs).
Definition store_words (addr : GlobalAddress) (offset : Z) (ws : list Z) : DB S unit :=
  Write_at addr offset (words ws).
(** The result of reading one word. *)
Definition load_word (addr : GlobalAddress) (off : Z) : DB S Z :=
  ws ← load_words addr off 1; in_array (head ws).
End words.

Lemma words_app l l' : words (l ++ l') = words l ++ words l'.
Proof. apply bind_app. Qed.

Lemma words_length ws : len (words ws) = 8 * Z.of_nat (length ws).
Proof.
  induction ws as [|w ws IH]; [done|]. unfold words in *. cbn [mbind list_bind length].
  rewrite length_app, le_bytes_length. lia.
Qed.

Lemma of_words_words ws : Forall (fits 64) ws → of_words (length ws) (words ws) = ws.
Proof.
  induction 1 as [|w ws Hw _ IH]; [done|]. unfold of_words, words in *. cbn [mbind list_bind length of_bytes_array].
  change (Z.to_nat (sizeof Z)) with 8%nat.
  rewrite (take_app_length' (le_bytes 8 w)), (drop_app_length' (le_bytes 8 w)) by by rewrite le_bytes_length.
  rewrite IH. f_equal. cbn. by rewrite le_word_bytes.
Qed.

Section has_bytes.
Implicit Types h : heap.

Lemma has_bytes_ext h h' a off bs : h' !! a = h !! a → has_bytes h a off bs → has_bytes h' a off bs.
Proof. intros E (b & Hb & R). exists b. by rewrite E. Qed.

Lemma has_bytes_put h a off d n : blk h a n → 0 ≤ off → off + len d ≤ n → has_bytes (put a off d h) a off d.
Proof.
  intros (b & Hb & Hn) H0 Hd. exists (splice off d b). rewrite (put_some _ _ _ _ _ Hb), lookup_insert_eq.
  rewrite splice_length by lia. split_and!; [done|done|lia|]. apply slice_splice; lia.
Qed.

Lemma has_bytes_put_other h a off d n a' off' bs :
  blk h a n → 0 ≤ off → off + len d ≤ n → has_bytes h a' off' bs →
  a ≠ a' ∨ off + len d ≤ off' ∨ off' + len bs ≤ off → has_bytes (put a off d h) a' off' bs.
Proof.
  intros (b & Hb & Hn) H0 Hd (b' & Hb' & H0' & Hl & Hs) Hdis.
  destruct (decide (a = a')) as [<-|]; [|exists b'; by rewrite put_lookup_ne].
  rewrite Hb in Hb'. simplify_eq. assert (off + len d ≤ off' ∨ off' + len bs ≤ off) as Hd' by (by destruct Hdis).
  exists (splice off d b'). rewrite (put_some _ _ _ _ _ Hb), lookup_insert_eq.
  rewrite splice_length by lia. split_and!; [done|done|lia|]. by rewrite slice_splice_other by lia.
Qed.

Lemma slice_app_l off x y b : slice off (len (x ++ y)) b = x ++ y → slice off (len x) b = x.
Proof.
  unfold slice. rewrite length_app, !Nat2Z.id. intros E.
  rewrite <-(take_app_length x y) at 2. rewrite <-E, take_take. f_equal. lia.
Qed.

Lemma has_bytes_app h a off x y :
  has_bytes h a off (x ++ y) → has_bytes h a off x ∧ has_bytes h a (off + len x) y.
Proof.
  intros (b & Hb & H0 & Hl & Hs). rewrite length_app in Hl. split; exists b; split_and!; [done|done|lia| |done|lia|lia|].
  - by eapply slice_app_l.
  - rewrite <-(slice_slice off (len (x ++ y)) (len x) (len y) b) by (rewrite ?length_app; lia).
    rewrite Hs. unfold slice. rewrite !Nat2Z.id, drop_app_length. apply firstn_all.
Qed.

(** Consecutive writes are one. *)
Lemma put_put h a off d d' n :
  blk h a n → 0 ≤ off → off + len d + len d' ≤ n →
  put a (off + len d) d' (put a off d h) = put a off (d ++ d') h.
Proof.
  intros (b & Hb & Hn) H0 Hd. rewrite !(put_some _ _ _ _ _ Hb).
  rewrite (put_some _ _ _ _ (splice off d b)) by apply lookup_insert_eq. rewrite insert_insert_eq. f_equal.
  apply list_eq. intros i. rewrite !splice_lookup by (rewrite ?length_app, ?splice_length; lia).
  rewrite length_app. repeat case_decide; try lia; try done.
  - rewrite lookup_app_r by lia. f_equal. lia.
  - by rewrite lookup_app_l by lia.
Qed.

Lemma blk_put_same h a off d n : blk h a n → 0 ≤ off → off + len d ≤ n → blk (put a off d h) a n.
Proof. intros Hb H0 Hd. by eapply blk_put. Qed.
End has_bytes.

Section word_rules.
Context {S : Type} {G : GAlloc S} {GH : GHeap S}.
Implicit Types (s : S) (h : heap).

Lemma wp_Read_bytes s h p a x off bs (Q : list Z → S → Prop) :
  heap_ok s h → p = GADD a x → 0 ≤ x → 0 ≤ off → 0 < len bs → has_bytes h a (x + off) bs →
  (∀ s', heap_ok s' h → room s' = room s → Q bs s') → wpd (Read_at p off (len bs)) Q s.
Proof.
  intros Hok Hp Hx H0 Hl (b & Hb & _ & Hle & Hs) HQ.
  eapply wp_Read_at; [done|done|done|lia|lia|lia|lia|]. rewrite Hs. done.
Qed.

Lemma wp_load_words s h p a x off ws n (Q : list Z → S → Prop) :
  heap_ok s h → p = GADD a x → 0 ≤ x → 0 ≤ off → n = length ws → (0 < n)%nat → Forall (fits 64) ws →
  has_bytes h a (x + off) (words ws) →
  (∀ s', heap_ok s' h → room s' = room s → Q ws s') → wpd (load_words p off n) Q s.
Proof.
  intros Hok Hp Hx H0 -> Hn Hws Hb HQ. unfold load_words. wpd_step. rewrite <-words_length.
  eapply wp_Read_bytes; [done|done|done|done|rewrite words_length; lia|done|].
  intros s' Hok' Hr. wpd_step. rewrite of_words_words by done. by apply HQ.
Qed.

Lemma wp_store_words s h p a x off ws n (Q : unit → S → Prop) :
  heap_ok s h → p = GADD a x → 0 ≤ x → 0 ≤ off → blk h a n → (0 < length ws)%nat →
  x + off + 8 * Z.of_nat (length ws) ≤ n →
  (∀ s', heap_ok s' (put a (x + off) (words ws) h) → room s' = room s → Q () s') →
  wpd (store_words p off ws) Q s.
Proof.
  intros Hok Hp Hx H0 Hb Hl Hle HQ. pose proof (words_length ws).
  eapply wp_Write_at; [done|done|done|lia|lia|lia|lia|done].
Qed.

(** Writing a sequence of fields: the next one after the bytes [pre]. *)
Lemma put_nil a x h : put a x [] h = h.
Proof.
  apply map_eq. intros b. unfold put. destruct (decide (a = b)) as [->|]; [|by rewrite lookup_alter_ne].
  rewrite lookup_alter_eq. destruct (h !! b) as [bs|]; [|done]. cbn. f_equal. unfold splice. cbn.
  rewrite Nat.add_0_r. apply take_drop.
Qed.

Lemma wp_append s h p a x off pre d n (Q : unit → S → Prop) :
  heap_ok s (put a x pre h) → p = GADD a x → off = len pre → 0 ≤ x → blk h a n → 0 < len d →
  x + off + len d ≤ n →
  (∀ s', heap_ok s' (put a x (pre ++ d) h) → room s' = room s → Q () s') → wpd (Write_at p off d) Q s.
Proof.
  intros Hok Hp -> Hx Hb Hd Hle HQ.
  eapply wp_Write_at; [done|done|apply blk_put_same; [exact Hb|lia|lia]|lia|lia|lia|lia|].
  intros s' Hok' Hr. apply HQ; [|done]. by erewrite <-put_put by (done || lia).
Qed.

Lemma wp_append_words s h p a x off pre ws n (Q : unit → S → Prop) :
  heap_ok s (put a x pre h) → p = GADD a x → off = len pre → 0 ≤ x → blk h a n → (0 < length ws)%nat →
  x + off + 8 * Z.of_nat (length ws) ≤ n →
  (∀ s', heap_ok s' (put a x (pre ++ words ws) h) → room s' = room s → Q () s') → wpd (store_words p off ws) Q s.
Proof.
  intros. pose proof (words_length ws). unfold store_words. eapply wp_append; [done..|lia|lia|done].
Qed.

(** Reading a sequence of fields: the next one before the bytes [rest]. *)
Lemma wp_next_words s h p a x off ws rest n (Q : list Z → S → Prop) :
  heap_ok s h → p = GADD a x → 0 ≤ x → 0 ≤ off → has_bytes h a (x + off) (words ws ++ rest) →
  n = length ws → (0 < n)%nat → Forall (fits 64) ws →
  (∀ s', heap_ok s' h → room s' = room s → has_bytes h a (x + (off + 8 * Z.of_nat n)) rest → Q ws s') →
  wpd (load_words p off n) Q s.
Proof.
  intros Hok Hp Hx H0 Hb Hn Hpos Hws HQ. apply has_bytes_app in Hb as [Hb1 Hb2].
  eapply wp_load_words; [done..|]. intros s' Hok' Hr. apply HQ; [done|done|].
  rewrite words_length in Hb2. subst n. by rewrite Z.add_assoc.
Qed.

Lemma wp_next_word s h p a x off w rest (Q : Z → S → Prop) :
  heap_ok s h → p = GADD a x → 0 ≤ x → 0 ≤ off → has_bytes h a (x + off) (words [w] ++ rest) →
  Forall (fits 64) [w] →
  (∀ s', heap_ok s' h → room s' = room s → has_bytes h a (x + (off + 8)) rest → Q w s') →
  wpd (load_word p off) Q s.
Proof.
  intros Hok Hp Hx H0 Hb Hw HQ. unfold load_word. wpd_step.
  eapply wp_next_words; [done|done|done|done|exact Hb|done|lia|done|].
  intros s' Hok' Hr Hb'. eapply wpd_in_array; [done|]. by apply HQ.
Qed.

(** The methods without an offset. *)
Lemma wp_Read s h p a x bs (Q : list Z → S → Prop) :
  heap_ok s h → p = GADD a x → 0 ≤ x → 0 < len bs → has_bytes h a x bs →
  (∀ s', heap_ok s' h → room s' = room s → Q bs s') → wpd (Read p (len bs)) Q s.
Proof.
  intros Hok Hp Hx Hl Hb HQ. rewrite <-(Z.add_0_r x) in Hb.
  pose proof (wp_Read_bytes s h p a x 0 bs Q Hok Hp Hx ltac:(lia) Hl Hb HQ) as H1.
  unfold Read_at, Read in *. rewrite to_int_small in H1 by lia.
  by rewrite Hp, GADD_GADD, Z.add_0_r, <-Hp in H1.
Qed.

Lemma wp_Write s h p a x d n (Q : unit → S → Prop) :
  heap_ok s h → p = GADD a x → 0 ≤ x → blk h a n → 0 < len d → x + len d ≤ n →
  (∀ s', heap_ok s' (put a x d h) → room s' = room s → Q () s') → wpd (Write p d) Q s.
Proof.
  intros Hok Hp Hx Hb Hl Hle HQ.
  assert (wpd (Write_at p 0 d) Q s) as H1.
  { eapply wp_Write_at; [done..|lia|done|lia|]. by rewrite Z.add_0_r. }
  unfold Write_at, Write in *. rewrite to_int_small in H1 by lia.
  by rewrite Hp, GADD_GADD, Z.add_0_r, <-Hp in H1.
Qed.

(** The next variable of a sequence. *)
Lemma wp_next_pod `{Pod T} s h p a x off (v : T) rest (Q : T → S → Prop) :
  heap_ok s h → p = GADD a x → 0 ≤ x → 0 ≤ off → has_bytes h a (x + off) (to_bytes v ++ rest) → valid v →
  (∀ s', heap_ok s' h → room s' = room s → has_bytes h a (x + (off + sizeof T)) rest → Q v s') →
  wpd (load_at T p off) Q s.
Proof.
  intros Hok Hp Hx H0 Hb Hv HQ. apply has_bytes_app in Hb as [Hb1 Hb2].
  pose proof (to_bytes_len v Hv) as Hl. pose proof (sizeof_pos (T := T)).
  unfold load_at. wpd_step. rewrite <-Hl. eapply wp_Read_bytes; [done..|lia|done|].
  intros s' Hok' Hr. wpd_step. rewrite of_to_bytes by done. apply HQ; [done|done|].
  by rewrite Hl, <-Z.add_assoc in Hb2.
Qed.
End word_rules.

(** ** Tactics for sequences of fields *)
Ltac field_sizes := rewrite ?length_app, ?Nat2Z.inj_add, ?words_length; cbn [length]; lia.
Ltac field_facts := let s := fresh "s" in let H := fresh "Hok" in let R := fresh "Hr" in intros s H R.
Ltac append_words :=
  eapply wp_append_words;
  [eassumption|done|field_sizes|done|eassumption|cbn; lia|cbn [length]; lia|field_facts].
Ltac next_facts := field_facts; let B := fresh "Hb" in intros B.
Ltac next_word :=
  eapply wp_next_word;
  [eassumption|done|done|lia|eassumption|first [eassumption|constructor; [eassumption|constructor]]|next_facts].
Ltac next_words :=
  eapply wp_next_words; [eassumption|done|done|lia|eassumption|by symmetry|lia|eassumption|next_facts].

(** ** What changes a part of a block *)
Record within (a : GlobalAddress) (x m n : Z) (h h' : heap) : Prop := {
  wi_blk : blk h' a n;
  wi_other b : b ≠ a → h' !! b = h !! b;
  wi_bytes y bs : has_bytes h a y bs → y + len bs ≤ x ∨ x + m ≤ y → has_bytes h' a y bs;
}.

Section within.
Implicit Types h : heap.

Lemma within_put a x m n h y d :
  blk h a n → 0 ≤ y → x ≤ y → y + len d ≤ x + m → y + len d ≤ n → within a x m n h (put a y d h).
Proof.
  intros Hb H0 Hx Hm Hn. split.
  - by eapply blk_put_same.
  - intros b Hne. by apply put_lookup_ne.
  - intros z bs Hz Hd. eapply has_bytes_put_other; [done|done|done|done|]. lia.
Qed.

Lemma within_trans a x m n h1 h2 h3 : within a x m n h1 h2 → within a x m n h2 h3 → within a x m n h1 h3.
Proof.
  intros [_ O1 B1] [Hb O2 B2]. split; [done|intros b Hne; by rewrite O2, O1|].
  intros y bs Hy Hd. apply B2; [|done]. by apply B1.
Qed.

Lemma within_mono a x m x' m' n h h' :
  x' ≤ x → x + m ≤ x' + m' → within a x m n h h' → within a x' m' n h h'.
Proof. intros Hx Hm [Hb O B]. split; [done|done|]. intros y bs Hy Hd. apply B; [done|]. lia. Qed.

Lemma within_refl a x m n h : blk h a n → within a x m n h h.
Proof. by split. Qed.
End within.
