(* ===== verification/DbFlat.v ===== *)
(** * DbFlat: a memory of one array

    The simplest memory that keeps the promises of [DbStore]: the bytes of one node in a
    row, and the next free one.  The examples of the database run on it. *)
From S2P Require Import Prelude GlobalMem DbStore.
From stdpp Require Import base numbers option list list_numbers gmap.
Open Scope Z_scope.

Record flat := mk_flat { fl_mem : Z → Z; fl_next : Z }.

Definition fl_limit : Z := 2 ^ 60.
Definition fl_read (m : Z → Z) (x n : Z) : list Z := m <$> seqZ x n.
Definition fl_write (m : Z → Z) (x : Z) (d : list Z) : Z → Z := λ y,
  if (x <=? y) && (y <? x + len d) then nth (Z.to_nat (y - x)) d 0 else m y.
Definition fl_align (x : Z) (align : bool) : Z := if align then (x + 4095) / 4096 * 4096 else x.

#[export] Instance flat_galloc : GAlloc flat := {|
  ga_read a n := λ s, Done (fl_read (fl_mem s) (ga_addr a) n) s;
  ga_write a d := λ s, Done () (mk_flat (fl_write (fl_mem s) (ga_addr a) d) (fl_next s));
  ga_malloc n align := λ s,
    let x := fl_align (fl_next s) align in
    Done (mk_GlobalAddress x 2) (mk_flat (fl_mem s) (x + n));
  ga_free a := mret ();
|}.

Record flat_ok (s : flat) (h : heap) : Prop := {
  fo_next : 4096 ≤ fl_next s ≤ fl_limit;
  fo_block a bs : h !! a = Some bs →
    ga_nodeID a = 2 ∧ 4096 ≤ ga_addr a ∧ 0 < len bs ≤ 2 ^ 25 ∧ ga_addr a + len bs ≤ fl_next s ∧
    fl_read (fl_mem s) (ga_addr a) (len bs) = bs;
  fo_apart a b bs cs : h !! a = Some bs → h !! b = Some cs → a ≠ b →
    ga_addr a + len bs ≤ ga_addr b ∨ ga_addr b + len cs ≤ ga_addr a;
}.

Lemma fl_read_length m x n : 0 ≤ n → len (fl_read m x n) = n.
Proof. intros. unfold fl_read. rewrite length_fmap, length_seqZ. lia. Qed.

Lemma fl_read_lookup m x n i : (i < Z.to_nat n)%nat → fl_read m x n !! i = Some (m (x + Z.of_nat i)).
Proof. intros. unfold fl_read. rewrite list_lookup_fmap, lookup_seqZ_lt by lia. done. Qed.

Lemma fl_read_slice m x n off k :
  0 ≤ off → 0 ≤ k → off + k ≤ n → fl_read m (x + off) k = slice off k (fl_read m x n).
Proof.
  intros. apply list_eq. intros i. destruct (decide (i < Z.to_nat k)%nat).
  - rewrite slice_lookup, !fl_read_lookup by lia. do 2 f_equal. lia.
  - pose proof (fl_read_length m (x + off) k). pose proof (fl_read_length m x n).
    rewrite !lookup_ge_None_2; [done|rewrite slice_length by lia; lia|lia].
Qed.

Lemma fl_write_splice m x d y n :
  x ≤ y → y + len d ≤ x + n → fl_read (fl_write m y d) x n = splice (y - x) d (fl_read m x n).
Proof.
  intros Hx Hy. pose proof (fl_read_length m x n ltac:(lia)). pose proof (fl_read_length (fl_write m y d) x n ltac:(lia)).
  apply list_eq. intros i. rewrite splice_lookup by lia.
  destruct (decide (i < Z.to_nat n)%nat).
  - rewrite !fl_read_lookup by done. unfold fl_write.
    destruct (Z.leb_spec y (x + Z.of_nat i)), (Z.ltb_spec (x + Z.of_nat i) (y + len d)); cbn;
      case_decide; try lia; [|done..].
    replace (i - Z.to_nat (y - x))%nat with (Z.to_nat (x + Z.of_nat i - y)) by lia.
    destruct (lookup_lt_is_Some_2 d (Z.to_nat (x + Z.of_nat i - y))) as [b Hb]; [lia|].
    by rewrite nth_lookup, Hb.
  - rewrite lookup_ge_None_2 by lia. rewrite decide_False by lia. by rewrite lookup_ge_None_2 by lia.
Qed.

Lemma fl_write_other m x d y n :
  0 ≤ n → x + n ≤ y ∨ y + len d ≤ x → fl_read (fl_write m y d) x n = fl_read m x n.
Proof.
  intros Hn Hd. unfold fl_read. apply list_fmap_ext. intros i z Hz. apply lookup_seqZ in Hz as [-> Hi].
  unfold fl_write. destruct (Z.leb_spec y (x + Z.of_nat i)), (Z.ltb_spec (x + Z.of_nat i) (y + len d)); cbn; done || lia.
Qed.

Lemma fl_align_bounds x align : x ≤ fl_align x align ≤ x + if align then 4096 else 0.
Proof.
  unfold fl_align. destruct align; [|lia]. pose proof (Z.div_mod (x + 4095) 4096 ltac:(lia)).
  pose proof (Z.mod_pos_bound (x + 4095) 4096 ltac:(lia)). lia.
Qed.

Lemma fo_fits s h a bs off : flat_ok s h → h !! a = Some bs → 0 ≤ off ≤ len bs →
  ga_addr (GADD a off) = ga_addr a + off.
Proof.
  intros [Hn Hb _] Ha Ho. destruct (Hb a bs Ha) as (_ & ? & ? & ? & _). unfold fl_limit in Hn.
  unfold GADD. cbn. apply wrap_small. unfold fits. lia.
Qed.

Lemma flat_ok_write s h a bs off d :
  flat_ok s h → h !! a = Some bs → 0 ≤ off → off + len d ≤ len bs →
  flat_ok (mk_flat (fl_write (fl_mem s) (ga_addr a + off) d) (fl_next s)) (<[a := splice off d bs]> h).
Proof.
  intros [Hn Hb Hd] Ha H0 Hl. destruct (Hb a bs Ha) as (E1 & E2 & E3 & E4 & E5).
  pose proof (splice_length off d bs H0 Hl) as Es. split; cbn [fl_mem fl_next]; [done| |].
  - intros b cs Hc. destruct (decide (b = a)) as [->|Hne].
    + rewrite lookup_insert_eq in Hc. injection Hc as <-. rewrite Es. split_and!; try (done || lia).
      rewrite fl_write_splice by lia. rewrite E5. f_equal. lia.
    + rewrite lookup_insert_ne in Hc by done. destruct (Hb b cs Hc) as (? & ? & ? & ? & E).
      split_and!; try (done || lia). rewrite fl_write_other, E; [done|lia|].
      destruct (Hd a b bs cs Ha Hc); [done|lia|lia].
  - intros b c bs' cs Hb' Hc Hne.
    destruct (decide (b = a)) as [->|], (decide (c = a)) as [->|]; [done| | |].
    + rewrite lookup_insert_eq in Hb'. rewrite lookup_insert_ne in Hc by done. injection Hb' as <-. rewrite Es. by apply (Hd a c).
    + rewrite lookup_insert_eq in Hc. rewrite lookup_insert_ne in Hb' by done. injection Hc as <-. rewrite Es. by apply (Hd b a).
    + rewrite lookup_insert_ne in Hb', Hc by done. by apply (Hd b c).
Qed.

Lemma flat_ok_malloc s h n align :
  flat_ok s h → 0 < n ≤ 2 ^ 25 → let x := fl_align (fl_next s) align in x + n ≤ fl_limit →
  h !! mk_GlobalAddress x 2 = None ∧
  flat_ok (mk_flat (fl_mem s) (x + n)) (<[mk_GlobalAddress x 2 := fl_read (fl_mem s) x n]> h).
Proof.
  intros [Hn Hb Hd] Hl x Hx. pose proof (fl_align_bounds (fl_next s) align) as Hx'. fold x in Hx'.
  pose proof (fl_read_length (fl_mem s) x n ltac:(lia)) as Er.
  split; [|split; cbn [fl_mem fl_next]].
  - destruct (h !! _) as [bs|] eqn:E; [|done]. destruct (Hb _ bs E) as (_ & _ & ? & H & _). cbn in H. lia.
  - lia.
  - intros b cs Hc. destruct (decide (b = mk_GlobalAddress x 2)) as [->|Hne].
    + rewrite lookup_insert_eq in Hc. injection Hc as <-. rewrite Er. cbn. split_and!; try (done || lia).
    + rewrite lookup_insert_ne in Hc by done. destruct (Hb b cs Hc) as (? & ? & ? & ? & E).
      split_and!; try (done || lia).
  - intros b c bs' cs Hb' Hc Hne.
    destruct (decide (b = mk_GlobalAddress x 2)) as [->|], (decide (c = mk_GlobalAddress x 2)) as [->|]; [done| | |].
    + rewrite lookup_insert_eq in Hb'. rewrite lookup_insert_ne in Hc by done.
      destruct (Hb c cs Hc) as (? & ? & ? & ? & E). cbn. right. lia.
    + rewrite lookup_insert_eq in Hc. rewrite lookup_insert_ne in Hb' by done.
      destruct (Hb b bs' Hb') as (? & ? & ? & ? & E). cbn. left. lia.
    + rewrite lookup_insert_ne in Hb', Hc by done. by apply (Hd b c).
Qed.

#[export] Program Instance flat_gheap : GHeap flat := {|
  heap_ok := flat_ok; room s := fl_limit - fl_next s;
|}.
Next Obligation.
  intros s h a bs [Hn Hb _] Ha. destruct (Hb a bs Ha) as (E1 & E2 & E3 & E4 & _). unfold fl_limit in Hn.
  split_and!; [split; [split; lia|rewrite E1; by split]| |lia|lia]. intros ->. cbn in E2. lia.
Qed.
Next Obligation.
  intros s h a bs off n Hok Ha H0 Hn Hl. unfold wpd. cbn [ga_read flat_galloc]. split_and!; [|done|done].
  rewrite (fo_fits s h a bs) by (done || lia). destruct (fo_block _ _ Hok a bs Ha) as (_ & _ & _ & _ & E).
  rewrite <-E. apply fl_read_slice; lia.
Qed.
Next Obligation.
  intros s h a bs off d Hok Ha H0 Hd Hl. unfold wpd. cbn [ga_write flat_galloc]. split; [|done].
  rewrite (fo_fits s h a bs) by (done || lia). by apply flat_ok_write.
Qed.
Next Obligation.
  intros s h n align Hok Hn H25 Hr. unfold wpd, alloc_cost in *. cbn [ga_malloc flat_galloc].
  pose proof (fl_align_bounds (fl_next s) align).
  destruct (flat_ok_malloc s h n align Hok) as [Ha Hok']; [lia|lia|].
  exists (fl_read (fl_mem s) (fl_align (fl_next s) align) n). split_and!; [done| |done|cbn [fl_next]; lia].
  apply fl_read_length. lia.
Qed.
Next Obligation. intros s h a Hok. by split. Qed.

(** The empty memory. *)
Definition flat_init : flat := mk_flat (λ _, 0) 4096.

Lemma flat_init_ok : heap_ok flat_init ∅.
Proof. split; [by vm_compute|by intros a bs ?%lookup_empty_Some|by intros a b bs cs ?%lookup_empty_Some]. Qed.

Lemma flat_init_room : room flat_init = 2 ^ 60 - 4096.
Proof. done. Qed.
