(* ===== verification/DbDsm.v ===== *)
(** * DbDsm: the database's memory is [DSM]

    The instance of [GAlloc] that the program has: [DSM::read], [DSM::write],
    [Cache::malloc] and [LocalAllocator::free], run by one thread.  It keeps the laws of
    [GHeap] while the thread's chunk has room and its addresses are cached, over any cache
    that is a [LineStore]; [readLine] and [writeLine] on resident lines are one. *)
From S2P Require Import Prelude DsmType HostMsg HostSync GlobalMem HostLine HostLogic CacheSet.
From S2P Require Import CacheAccess DsmAccess DbStore.
From stdpp Require Import base numbers option list list_numbers gmap.
Open Scope Z_scope.

(** The node as the thread finds it, the thread's allocator, and what the agents will
    answer to its requests for chunks. *)
Record dsm_state := mk_dsm_state {
  ds_world : world;
  ds_alloc : alloc_thread;
  ds_replies : list alloc_reply;
}.

Definition lift_M {A} (m : M A) : DB dsm_state A := λ s,
  match m (ds_world s) with
  | Ret a w => Done a (mk_dsm_state w (ds_alloc s) (ds_replies s))
  | Spin w => Raise waits (mk_dsm_state w (ds_alloc s) (ds_replies s))
  | Fault => Raise assertion_failed s
  end.

(** [Cache::malloc] *)
Definition dsm_malloc (node_num size : Z) (align : bool) : DB dsm_state GlobalAddress := λ s,
  match malloc_local size align (ds_alloc s) with
  | None => Raise assertion_failed s
  | Some (inl res, t) => Done res (mk_dsm_state (ds_world s) t (ds_replies s))
  | Some (inr (), t) =>
      match ds_replies s with
      | [] => Raise waits s
      | PRIMITIVE_ALLOC_FAIL :: _ => Raise waits s
      | r :: rs =>
          match malloc_chunck node_num size align r t with
          | None => Raise assertion_failed s
          | Some (res, t) => Done res (mk_dsm_state (ds_world s) t rs)
          end
      end
  end.

Section dsm_heap.
Context (read_line : GlobalAddress → Z → Z → M (list Z)).
Context (write_line : GlobalAddress → Z → list Z → M unit).
Context (cached : GlobalAddress → Prop) (ok : world → Prop) (view : world → Z → Z → Z).
Context {LS : LineStore read_line write_line cached ok view}.
Context (node_num limit : Z).

Definition dsm_galloc : GAlloc dsm_state := {|
  ga_read a n := lift_M (read_span read_line a n);
  ga_write a bs := lift_M (write_span write_line a bs);
  ga_malloc := dsm_malloc node_num;
  ga_free _ := mret ();
|}.
#[local] Existing Instance dsm_galloc.

Abbreviation cur s := (la_cur (alloc (ds_alloc s))).
Abbreviation chunk s := (la_head (alloc (ds_alloc s))).

(** The addresses from [cur] to [limit] are cached and in the thread's chunk; the first
    address of node 0, which is the null address, is not among them. *)
Record alloc_ok (s : dsm_state) : Prop := {
  al_logged : log_heads (alloc (ds_alloc s)) ≠ [];
  al_node : fits 8 (ga_nodeID (cur s));
  al_cur : 0 ≤ ga_addr (chunk s) ≤ ga_addr (cur s) ∧ ga_addr (cur s) ≤ limit + 4096;
  al_limit : limit ≤ ga_addr (chunk s) + kChunkSize ∧ limit ≤ 40 * 1024 * 1024 * 1024;
  al_cached y : ga_addr (cur s) ≤ y < limit → cached (mk_GlobalAddress y (ga_nodeID (cur s)));
  al_nonnull : cur s ≠ ga_Null;
}.

(** Where block [a] with the bytes [bs] is, and that it holds them. *)
Record block_at (s : dsm_state) (a : GlobalAddress) (bs : list Z) : Prop := {
  ba_valid : ga_valid a;
  ba_nonnull : a ≠ ga_Null;
  ba_len : 0 < len bs ≤ 2 ^ 25;
  ba_end : ga_addr a + len bs < 2 ^ 64;
  ba_cached y : ga_addr a ≤ y < ga_addr a + len bs → cached (mk_GlobalAddress y (ga_nodeID a));
  ba_bytes i x : bs !! i = Some x → view (ds_world s) (ga_nodeID a) (ga_addr a + Z.of_nat i) = x;
  ba_below : ga_nodeID a ≠ ga_nodeID (cur s) ∨ ga_addr a + len bs ≤ ga_addr (cur s) ∨ limit ≤ ga_addr a;
}.

Definition spans_apart (a : GlobalAddress) (n : Z) (b : GlobalAddress) (m : Z) : Prop :=
  ga_nodeID a ≠ ga_nodeID b ∨ ga_addr a + n ≤ ga_addr b ∨ ga_addr b + m ≤ ga_addr a.

Record dsm_heap_ok (s : dsm_state) (h : heap) : Prop := {
  dh_ok : ok (ds_world s);
  dh_alloc : alloc_ok s;
  dh_block a bs : h !! a = Some bs → block_at s a bs;
  dh_apart a b bs bs' : a ≠ b → h !! a = Some bs → h !! b = Some bs' → spans_apart a (len bs) b (len bs');
}.

Definition dsm_room (s : dsm_state) : Z := limit - ga_addr (cur s).

Lemma bytes_eq s a bs off n :
  block_at s a bs → 0 ≤ off → 0 ≤ n → off + n ≤ len bs →
  view (ds_world s) (ga_nodeID a) <$> seqZ (ga_addr a + off) n = slice off n bs.
Proof.
  intros [_ _ _ _ _ B _] H0 Hn Hl. apply list_eq. intros i.
  destruct (decide (i < Z.to_nat n)%nat) as [Hi|Hi].
  - rewrite list_lookup_fmap, lookup_seqZ_lt by lia. cbn. rewrite slice_lookup by lia.
    destruct (lookup_lt_is_Some_2 bs (Z.to_nat off + i)) as [x Hx]; [lia|]. rewrite Hx. f_equal.
    replace (ga_addr a + off + Z.of_nat i) with (ga_addr a + Z.of_nat (Z.to_nat off + i)) by lia.
    by apply B.
  - rewrite list_lookup_fmap, lookup_seqZ_ge by lia.
    rewrite lookup_ge_None_2; [done|]. rewrite slice_length by lia. lia.
Qed.

(** A part of a block is a span that can be accessed. *)
Lemma block_span s a bs off n :
  block_at s a bs → 0 ≤ off → 0 < n → off + n ≤ len bs →
  span_ok cached (GADD a off) n ∧ ga_addr (GADD a off) = ga_addr a + off ∧
  ga_nodeID (GADD a off) = ga_nodeID a.
Proof.
  intros [[[Hv0 Hv1] Hv2] Hz Hl He Hc B Hb] H0 Hn Hle.
  assert (ga_addr (GADD a off) = ga_addr a + off) as E.
  { cbn. apply wrap_small. unfold fits. lia. }
  assert (GADD a off = mk_GlobalAddress (ga_addr a + off) (ga_nodeID a)) as E'.
  { unfold GADD, set_field. cbn. by rewrite wrap_small by (unfold fits; lia). }
  split; [|by split]. unfold span_ok. rewrite E. split_and!; [lia..| |].
  - rewrite E'. apply Hc. lia.
  - intros y Hy. apply Hc. lia.
Qed.

(** Only the memory and the node's state differ. *)
Lemma block_at_world s w a bs bs' :
  block_at s a bs → length bs' = length bs →
  (∀ i x, bs' !! i = Some x → view w (ga_nodeID a) (ga_addr a + Z.of_nat i) = x) →
  block_at (mk_dsm_state w (ds_alloc s) (ds_replies s)) a bs'.
Proof. intros [V N L E C B Bl] Hl Hb. split; try rewrite Hl; done. Qed.

Lemma alloc_ok_world s w : alloc_ok s → alloc_ok (mk_dsm_state w (ds_alloc s) (ds_replies s)).
Proof. by intros []. Qed.

Lemma dsm_gh_read s h a bs off n :
  dsm_heap_ok s h → h !! a = Some bs → 0 ≤ off → 0 < n → off + n ≤ len bs →
  wpd (ga_read (GADD a off) n)
    (λ r s', r = slice off n bs ∧ dsm_heap_ok s' h ∧ dsm_room s' = dsm_room s) s.
Proof.
  intros [Hok Hal Hb Hap] Ha H0 Hn Hl. pose proof (Hb a bs Ha) as Hba.
  destruct (block_span s a bs off n Hba H0 Hn Hl) as (Hs & Ea & En).
  destruct (read_span_spec _ _ _ _ _ (GADD a off) n (ds_world s) Hok Hs) as (w' & E & Hok' & V).
  unfold wpd. cbn [ga_read dsm_galloc]. unfold lift_M. rewrite E. split_and!; [|split|done].
  - rewrite Ea, En. apply (bytes_eq s a bs); try done. lia.
  - done.
  - by apply alloc_ok_world.
  - intros b bs' Hbb. apply (block_at_world s w' b bs'); [by apply Hb|done|].
    intros i x Hx. rewrite V. by eapply (ba_bytes s b bs' (Hb b bs' Hbb)).
  - done.
Qed.

Lemma overwrite_in v n x d y : x ≤ y < x + len d → overwrite v n x d n y = nth (Z.to_nat (y - x)) d 0.
Proof.
  intros. unfold overwrite. by rewrite Z.eqb_refl, (proj2 (Z.leb_le _ _)), (proj2 (Z.ltb_lt _ _)) by lia.
Qed.
Lemma overwrite_out v n x d m y : m ≠ n ∨ y < x ∨ x + len d ≤ y → overwrite v n x d m y = v m y.
Proof.
  intros H. unfold overwrite. destruct (Z.eqb_spec m n), (Z.leb_spec x y), (Z.ltb_spec y (x + len d));
    cbn; try done. exfalso. destruct H as [?|[?|?]]; [done|lia|lia].
Qed.

Lemma dsm_gh_write s h a bs off d :
  dsm_heap_ok s h → h !! a = Some bs → 0 ≤ off → 0 < len d → off + len d ≤ len bs →
  wpd (ga_write (GADD a off) d)
    (λ _ s', dsm_heap_ok s' (<[a := splice off d bs]> h) ∧ dsm_room s' = dsm_room s) s.
Proof.
  intros [Hok Hal Hb Hap] Ha H0 Hn Hl. pose proof (Hb a bs Ha) as Hba.
  destruct (block_span s a bs off (len d) Hba H0 Hn Hl) as (Hs & Ea & En).
  destruct (write_span_spec _ _ _ _ _ (GADD a off) d (ds_world s) Hok Hs) as (w' & E & Hok' & V).
  rewrite Ea, En in V.
  assert (∀ m y, cached (mk_GlobalAddress y m) →
    view w' m y = overwrite (view (ds_world s)) (ga_nodeID a) (ga_addr a + off) d m y) as V'.
  { intros m y Hc. exact (V (mk_GlobalAddress y m) Hc). }
  assert (length (splice off d bs) = length bs) as Hsl by by apply splice_length.
  unfold wpd. cbn [ga_write dsm_galloc]. unfold lift_M. rewrite E. split; [split|done].
  - done.
  - by apply alloc_ok_world.
  - intros b bs' Hbb. apply lookup_insert_Some in Hbb as [[<- <-]|[Hne Hbb]].
    + apply (block_at_world s w' a bs); [done|done|]. intros i x Hx.
      pose proof (lookup_lt_Some _ _ _ Hx) as Hi. rewrite Hsl in Hi.
      rewrite V' by (apply Hba; lia).
      rewrite splice_lookup in Hx by lia. case_decide.
      * rewrite overwrite_in by lia. apply nth_lookup_Some. rewrite <-Hx. f_equal. lia.
      * rewrite overwrite_out by lia. by apply (ba_bytes s a bs Hba).
    + pose proof (Hb b bs' Hbb) as Hbb'. apply (block_at_world s w' b bs'); [done|done|].
      intros i x Hx. pose proof (lookup_lt_Some _ _ _ Hx) as Hi.
      rewrite V' by (apply Hbb'; lia). rewrite overwrite_out; [by apply (ba_bytes s b bs' Hbb')|].
      destruct (Hap a b bs bs' Hne Ha Hbb) as [?|[?|?]]; [left; congruence|right; lia|right; lia].
  - intros b c x y Hne Hx Hy. apply lookup_insert_Some in Hx as [[<- <-]|[Hne1 Hx]];
      apply lookup_insert_Some in Hy as [[<- <-]|[Hne2 Hy]]; rewrite ?Hsl; eauto.
Qed.

(** The next block of the chunk. *)
Lemma malloc_local_room s n align :
  alloc_ok s → 0 < n → n ≤ 2 ^ 25 → alloc_cost n align ≤ dsm_room s →
  let a := la_align align (cur s) in
  malloc_local n align (ds_alloc s) =
    Some (inl a, mk_alloc_thread (mk_LocalAllocator (chunk s) (a <| ga_addr := ga_addr a + n |>)
                                    (log_heads (alloc (ds_alloc s)))) (next_allocator_node (ds_alloc s))) ∧
  ga_nodeID a = ga_nodeID (cur s) ∧ ga_addr (cur s) ≤ ga_addr a ∧
  ga_addr a + n ≤ ga_addr (cur s) + alloc_cost n align.
Proof.
  intros [Hlog Hn [Hc0 Hc1] [Hl1 Hl2] _ _] H0 H25 Hr a. unfold dsm_room, alloc_cost in *.
  assert (kChunkSize = 2 ^ 25) as HC by done.
  destruct (la_align_result align (cur s)) as [En Ea]; [destruct align; lia|].
  assert (ga_addr a < ga_addr (cur s) + if align then 4096 else 1) as Ea'.
  { destruct align; [change DSM_CACHE_LINE_SIZE with 4096 in Ea; fold a in Ea; lia|]. unfold a. cbn. lia. }
  fold a in En, Ea. split_and!; [|done|lia|destruct align; lia].
  unfold malloc_local, la_malloc. fold a.
  assert (ga_addr a + n ≤ limit) as Hal by (destruct align; lia).
  assert (∀ b : bool, is_empty (log_heads (alloc (ds_alloc s))) || b = b) as Eb.
  { intros b. by destruct (log_heads (alloc (ds_alloc s))). }
  cbn [la_head la_cur log_heads set_field eta_expand eta_LocalAllocator]. rewrite Eb.
  rewrite !wrap_small by (unfold fits; lia).
  rewrite (proj2 (Z.ltb_ge _ _)) by lia. rewrite (proj2 (Z.leb_le _ (_ * _))) by lia. cbn.
  by rewrite (proj2 (Z.leb_le n kChunkSize)) by lia.
Qed.

Lemma dsm_gh_malloc s h n align :
  dsm_heap_ok s h → 0 < n → n ≤ 2 ^ 25 → alloc_cost n align ≤ dsm_room s →
  wpd (ga_malloc n align)
    (λ a s', ∃ bs, h !! a = None ∧ len bs = n ∧ dsm_heap_ok s' (<[a := bs]> h) ∧
      dsm_room s - alloc_cost n align ≤ dsm_room s') s.
Proof.
  intros [Hok Hal Hb Hap] H0 H25 Hr.
  destruct (malloc_local_room s n align Hal H0 H25 Hr) as (E & En & Ea & Eb).
  set (a := la_align align (cur s)) in *. unfold dsm_room in *.
  destruct Hal as [Hlog Hn [Hc0 Hc1] [Hl1 Hl2] Hc Hnz]. assert (kChunkSize = 2 ^ 25) as HC by done.
  unfold wpd. cbn [ga_malloc dsm_galloc]. unfold dsm_malloc. rewrite E.
  set (t' := mk_alloc_thread _ _). set (s' := mk_dsm_state (ds_world s) t' (ds_replies s)).
  assert (cur s' = a <| ga_addr := ga_addr a + n |>) as Ec by done.
  assert (ga_addr (cur s') = ga_addr a + n ∧ ga_nodeID (cur s') = ga_nodeID (cur s)) as [Ec1 Ec2] by by rewrite Ec.
  set (bs := view (ds_world s) (ga_nodeID a) <$> seqZ (ga_addr a) n).
  assert (len bs = n) as Hlen by (unfold bs; rewrite length_fmap, length_seqZ; lia).
  assert (∀ b bs', h !! b = Some bs' → spans_apart a n b (len bs')) as Hnew.
  { intros b bs' Hbb. destruct (Hb b bs' Hbb) as [_ _ _ _ _ _ [?|[?|?]]]; unfold spans_apart;
      [left; congruence|right; right; lia|right; left; lia]. }
  exists bs. split_and!; [|done|split|rewrite Ec1; lia].
  - apply eq_None_not_Some. intros [bs' Hbb]. destruct (Hb a bs' Hbb) as [_ _ [? _] _ _ _ _].
    destruct (Hnew a bs' Hbb) as [?|[?|?]]; [done|lia|lia].
  - done.
  - split; [done|by rewrite Ec2|rewrite Ec1; cbn; lia|done| |].
    + intros y Hy. rewrite Ec1 in Hy. rewrite Ec2. apply Hc. lia.
    + rewrite Ec. intros E0. apply (f_equal ga_addr) in E0. cbn in E0. lia.
  - intros b bs' Hbb. apply lookup_insert_Some in Hbb as [[<- <-]|[Hne Hbb]].
    + split; rewrite ?Hlen.
      * split; [unfold fits; lia|by rewrite En].
      * intros E0. destruct (decide (ga_addr (cur s) = 0)).
        -- apply Hnz. destruct (cur s) as [x m]. cbn in *. subst x.
           apply (f_equal ga_nodeID) in E0. rewrite En in E0. by rewrite E0.
        -- apply (f_equal ga_addr) in E0. cbn in E0. lia.
      * lia.
      * lia.
      * intros y Hy. rewrite En. apply Hc. lia.
      * intros i x Hx. unfold bs in Hx. rewrite list_lookup_fmap in Hx.
        destruct (decide (i < Z.to_nat n)%nat); [|by rewrite lookup_seqZ_ge in Hx by lia].
        rewrite lookup_seqZ_lt in Hx by lia. by injection Hx.
      * right; left. rewrite Ec1. lia.
    + destruct (Hb b bs' Hbb) as [V N L E' C B Bl]. split; try done.
      rewrite Ec1, Ec2. destruct Bl as [?|[?|?]]; [by left|right; left; lia|by right; right].
  - intros b c x y Hne Hx Hy. apply lookup_insert_Some in Hx as [[<- <-]|[Hne1 Hx]];
      apply lookup_insert_Some in Hy as [[<- <-]|[Hne2 Hy]]; rewrite ?Hlen; [done|by apply Hnew| |by eapply Hap].
    destruct (Hnew b x Hx) as [?|[?|?]]; unfold spans_apart; [left; congruence|by right; right|by right; left].
Qed.

#[local] Instance dsm_gheap : GHeap dsm_state.
Proof.
  refine {| heap_ok := dsm_heap_ok; room := dsm_room |}.
  - intros s h a bs [_ _ Hb _] Ha. destruct (Hb a bs Ha) as [V N L E _ _ _]. split_and!; [done..|lia|done].
  - apply dsm_gh_read.
  - apply dsm_gh_write.
  - apply dsm_gh_malloc.
  - intros s h a Hh. apply wpd_ret. done.
Defined.
End dsm_heap.

(** ** Example: sixteen lines of node 2

    The addresses below 65536 of node 2 are cached, and are the thread's chunk. *)
Definition ex_count : Z := 16.
Definition ex_tag (i : Z) : Z := 256 * i + 2.
Definition ex_slot (t : Z) : line_ref := mk_line_ref false (calLineSet t) (t / 256 mod 8).
Definition ex_find (r : line_ref) : option Z :=
  snd <$> list_find (λ i, ex_slot (ex_tag i) = r) (seqZ 0 ex_count).
Definition ex_dsm_lines (r : line_ref) : LineInfo :=
  match ex_find r with
  | Some i => mk_LineInfo 0 (4096 * i) (mk_AtomicTag false MODIFIED) 0 false (ex_tag i)
                (mk_GlobalAddress (4096 * i) 2) 0 0
  | None => ex_line <| status := mk_AtomicTag false PRESERVED |>
  end.
Definition ex_world : world :=
  mk_world (mk_cache ex_dsm_lines (λ _, 0) (λ _, []) (λ _, 5)) (ex_thread []) [].
Definition ex_region (a : GlobalAddress) : Prop := 0 ≤ ga_addr a < 4096 * ex_count ∧ ga_nodeID a = 2.

Lemma ex_find_slot i : 0 ≤ i < ex_count → ex_find (ex_slot (ex_tag i)) = Some i.
Proof.
  intros Hi. assert (Forall (λ i, ex_find (ex_slot (ex_tag i)) = Some i) (seqZ 0 ex_count)) as H.
  { apply (bool_decide_unpack _). vm_compute. exact I. }
  rewrite Forall_forall in H. apply H, elem_of_seqZ. lia.
Qed.

Lemma ex_region_tag a : ex_region a → ∃ i, 0 ≤ i < ex_count ∧ getTag a = ex_tag i.
Proof.
  intros [Ha Hn]. change ex_count with 16 in *. exists (ga_addr a / 4096).
  rewrite getTag_value; [|unfold fits; lia|unfold fits; rewrite Hn; lia].
  rewrite Hn. change DSM_CACHE_LINE_SIZE with 4096. unfold ex_tag. divlia.
Qed.

Lemma ex_holds i r : 0 ≤ i < ex_count → holds (ex_tag i) (shared ex_world) r → r = ex_slot (ex_tag i).
Proof.
  intros Hi [O T]. change (lines (shared ex_world)) with ex_dsm_lines in O, T.
  unfold ex_dsm_lines in O, T. unfold ex_find in O, T.
  destruct (list_find _ _) as [[k j]|] eqn:E; cbn [fmap option_fmap option_map snd] in O, T.
  - apply list_find_Some in E as (_ & <- & _). cbn in T. unfold ex_tag in T.
    assert (j = i) as -> by lia. reflexivity.
  - exfalso. by apply O.
Qed.

Lemma ex_world_resident : resident ex_region ex_slot ex_world.
Proof.
  assert (∀ i, 0 ≤ i < ex_count → ex_dsm_lines (ex_slot (ex_tag i)) =
    mk_LineInfo 0 (4096 * i) (mk_AtomicTag false MODIFIED) 0 false (ex_tag i) (mk_GlobalAddress (4096 * i) 2) 0 0)
    as El.
  { intros i Hi. unfold ex_dsm_lines. by rewrite ex_find_slot. }
  split.
  - constructor.
  - reflexivity.
  - intros a _. reflexivity.
  - intros a Ha r r' _ _ H H'. destruct (ex_region_tag a Ha) as (i & Hi & Et). rewrite Et in H, H'.
    by rewrite (ex_holds i r Hi H), (ex_holds i r' Hi H').
  - intros a _. split; [|reflexivity]. split; [reflexivity|]. cbn [ex_slot ref_slot].
    pose proof (Z.mod_pos_bound (getTag a / 256) 8 ltac:(lia)). change max_cline_set_width_per_node with 8. lia.
  - intros a Ha. destruct (ex_region_tag a Ha) as (i & Hi & ->). unfold holds.
    change (lines (shared ex_world)) with ex_dsm_lines. rewrite (El i Hi). repeat split; discriminate.
  - intros a b Ha Hb. destruct (ex_region_tag a Ha) as (i & Hi & ->), (ex_region_tag b Hb) as (j & Hj & ->).
    change (lines (shared ex_world)) with ex_dsm_lines. rewrite (El i Hi), (El j Hj).
    change DSM_CACHE_LINE_SIZE with 4096. cbn [data]. unfold ex_tag. lia.
Qed.

Lemma ex_region_valid a : ex_region a → fits 64 (ga_addr a) ∧ fits 8 (ga_nodeID a).
Proof. intros [Ha ->]. change ex_count with 16 in Ha. unfold fits. lia. Qed.

#[export] Instance ex_galloc : GAlloc dsm_state := dsm_galloc (readLine ex_raw 1) (writeLine ex_raw 1) 3.
#[export] Instance ex_gheap : GHeap dsm_state :=
  @dsm_gheap _ _ _ _ _ (resident_store ex_raw 0 ex_region ex_slot ex_region_valid) 3 (4096 * ex_count).

(** A chunk of node 2 with [used] bytes taken. *)
Definition ex_state (used : Z) : dsm_state :=
  mk_dsm_state ex_world
    (mk_alloc_thread (mk_LocalAllocator (mk_GlobalAddress 0 2) (mk_GlobalAddress used 2) [mk_GlobalAddress 0 2]) 0)
    [].

Lemma ex_state_ok : heap_ok (ex_state 0) ∅.
Proof.
  split; [exact ex_world_resident| |by intros ???|by intros ?????].
  split; [discriminate|cbn; unfold fits; lia|change ex_count with 16; cbn; lia|by vm_compute| |discriminate].
  intros y Hy. split; [exact Hy|reflexivity].
Qed.

Lemma ex_state_room : room (ex_state 0) = 65536.
Proof. reflexivity. Qed.

#[export] Instance ex_indeterminate : Indeterminate := {| junk := 205; junk_fits := ltac:(by split) |}.

(** C37: The memory that [DSM] gives the database is a heap of disjoint blocks: for any cache
    that is a [LineStore], in particular [readLine] and [writeLine] on resident lines,
    [DSM::read] inside a block returns its bytes and changes nothing, [DSM::write] replaces
    exactly the bytes it is given and leaves the other blocks alone, and [Cache::malloc]
    returns, while the chunk has room, a block that overlaps no other and is not null. *)
Theorem dsm_implements_blocks read_line write_line cached ok view node_num limit s h :
  LineStore read_line write_line cached ok view →
  dsm_heap_ok cached ok view limit s h →
  (∀ a bs off n, h !! a = Some bs → 0 ≤ off → 0 < n → off + n ≤ len bs →
     ∃ s', lift_M (read_span read_line (GADD a off) n) s = Done (slice off n bs) s' ∧
       dsm_heap_ok cached ok view limit s' h) ∧
  (∀ a bs off d, h !! a = Some bs → 0 ≤ off → 0 < len d → off + len d ≤ len bs →
     ∃ s', lift_M (write_span write_line (GADD a off) d) s = Done () s' ∧
       dsm_heap_ok cached ok view limit s' (<[a := splice off d bs]> h)) ∧
  (∀ n align, 0 < n ≤ 2 ^ 25 → alloc_cost n align ≤ dsm_room limit s →
     ∃ a s' bs, dsm_malloc node_num n align s = Done a s' ∧ h !! a = None ∧ a ≠ ga_Null ∧ len bs = n ∧
       dsm_heap_ok cached ok view limit s' (<[a := bs]> h) ∧
       (∀ b bs', h !! b = Some bs' → spans_apart a n b (len bs'))).
Proof.
  intros LS Hok. split_and!.
  - intros a bs off n Ha H0 Hn Hl.
    edestruct (wpd_run _ _ _ (dsm_gh_read _ _ _ _ _ node_num limit s h a bs off n Hok Ha H0 Hn Hl))
      as (r & s' & E & -> & Hok' & _). by exists s'.
  - intros a bs off d Ha H0 Hn Hl.
    edestruct (wpd_run _ _ _ (dsm_gh_write _ _ _ _ _ node_num limit s h a bs off d Hok Ha H0 Hn Hl))
      as ([] & s' & E & Hok' & _). by exists s'.
  - intros n align [Hn H25] Hr.
    edestruct (wpd_run _ _ _ (dsm_gh_malloc read_line write_line _ _ _ node_num limit s h n align Hok Hn H25 Hr))
      as (a & s' & E & bs & Ha & Hl & Hok' & _).
    exists a, s', bs. split_and!; [done|done| |done|done|].
    + apply (dh_block _ _ _ _ _ _ Hok' a bs), lookup_insert_eq.
    + intros b bs' Hb. rewrite <-Hl. apply (dh_apart _ _ _ _ _ _ Hok').
      * congruence.
      * apply lookup_insert_eq.
      * rewrite lookup_insert_ne; [done|congruence].
Qed.

Lemma dsm_implements_blocks_witness :
  ∃ a s' bs, dsm_malloc 3 100 true (ex_state 0) = Done a s' ∧ len bs = 100 ∧
    dsm_heap_ok ex_region (resident ex_region ex_slot) (cached_bytes ex_slot) (4096 * ex_count) s' {[a := bs]}.
Proof.
  destruct (dsm_implements_blocks (readLine ex_raw 1) (writeLine ex_raw 1) ex_region
    (resident ex_region ex_slot) (cached_bytes ex_slot) 3 (4096 * ex_count) (ex_state 0) ∅
    (resident_store ex_raw 0 ex_region ex_slot ex_region_valid) ex_state_ok) as (_ & _ & Hm).
  destruct (Hm 100 true) as (a & s' & bs & E & _ & _ & Hl & Hok & _); [lia|reflexivity || (vm_compute; discriminate)|].
  by exists a, s', bs.
Defined.
