(* ===== verification/DbArray.v ===== *)
(** * DbArray: [GAddrArray.h], an array in the global memory

    The elements are in leaves of 1024; the addresses of the leaves are the slots of
    inner nodes, in up to three layers.  After [Init] every element has a place of its own
    in blocks that were allocated for the array, and [GetElementGAddr] finds it. *)
From S2P Require Import Prelude GlobalMem DbStore DbDsm.
From stdpp Require Import base numbers option list list_numbers gmap.
Open Scope Z_scope.

Definition N_slots : Z := 1024.

Record GAddrArray := mk_GAddrArray {
  root_addr_ : GlobalAddress;
  array_size_ : Z;
  element_size_ : Z;
  layer_size_ : list Z;
  layer_num_ : Z;
}.

(** The loop that counts the layers; [bound] becomes 0 after seven turns, so that with
    [fuel] 8 the result [None] means that the loop does not end. *)
Fixpoint count_layers (fuel : nat) (bound array_size layer_num : Z) : option Z :=
  match fuel with
  | S fuel =>
      if bound <? array_size
      then count_layers fuel (wrap 64 (bound * N_slots)) array_size (layer_num + 1)
      else Some layer_num
  | O => None
  end.

(** [path[0], ..., path[j - 1]] *)
Fixpoint path_of (j : nat) (pos : Z) (path : list Z) : list Z :=
  match j with
  | S j => let pos := pos / N_slots in path_of j pos (pos mod N_slots :: path)
  | O => path
  end.

Section array.
Context {S : Type} {J : Indeterminate} {G : GAlloc S}.

(** Past the fourth entry the assignment leaves the array. *)
Definition layer_sizes (layer_num : Z) : option (list Z) :=
  foldl (λ sizes i, l ← sizes; v ← arr_get l (i - 1); arr_set l i (wrap 64 (v * N_slots)))
    (Some [1; junk; junk; junk]) (seqZ 1 layer_num).

(** The slots on the way from [cur_addr]. *)
Fixpoint follow (cur_addr : GlobalAddress) (path : list Z) : DB S GlobalAddress :=
  match path with
  | [] => mret cur_addr
  | j :: path =>
      tmp ← load_at GlobalAddress cur_addr (j * sizeof GlobalAddress); follow tmp path
  end.

Definition LocateParentNode (arr : GAddrArray) (layer_id pos : Z) : DB S GlobalAddress :=
  size ← in_array (arr_get (layer_size_ arr) layer_id);
  assert_ (pos <? size);;
  follow (root_addr_ arr) (tail (path_of (Z.to_nat layer_id) pos [])).

Definition GetElementGAddr (arr : GAddrArray) (offset : Z) : DB S GlobalAddress :=
  assert_ (offset <? array_size_ arr);;
  parent_addr ← LocateParentNode arr (layer_num_ arr) offset;
  mret (GADD parent_addr (to_int (wrap 64 ((offset mod N_slots) * element_size_ arr)))).

(** The body of the two loops of [Init]. *)
Definition init_node (arr : GAddrArray) (layer_id pos : Z) : DB S unit :=
  let per_slot_size :=
    if layer_id <? layer_num_ arr - 1 then sizeof GlobalAddress else element_size_ arr in
  mem_segment ← AlignedMalloc (wrap 64 (per_slot_size * N_slots));
  parent_addr ← LocateParentNode arr layer_id pos;
  store_at parent_addr ((pos mod N_slots) * sizeof GlobalAddress) mem_segment.

Definition array_Init (element_count element_size : Z) : DB S GAddrArray :=
  layer_num ← match count_layers 8 1 element_count 0 with
              | Some n => mret n | None => raise waits end;
  sizes ← in_array (layer_sizes layer_num);
  assert_ (layer_num <? 4);;
  last ← in_array (arr_get sizes layer_num);
  assert_ (element_count <=? last);;
  if layer_num =? 1 then
    root ← AlignedMalloc (wrap 64 (element_size * N_slots));
    mret (mk_GAddrArray root element_count element_size sizes layer_num)
  else
    root ← AlignedMalloc (sizeof GlobalAddress * N_slots);
    let arr := mk_GAddrArray root element_count element_size sizes layer_num in
    for_each (seqZ 1 (layer_num - 1)) (λ layer_id,
      size ← in_array (arr_get sizes layer_id);
      for_each (seqZ 0 size) (init_node arr layer_id));;
    mret arr.
End array.

(** ** The number of layers *)
Lemma N_pow_pos l : 0 ≤ l → 0 < N_slots ^ l.
Proof. intros. by apply Z.pow_pos_nonneg. Qed.

Lemma N_pow_succ l : 0 ≤ l → N_slots ^ (l + 1) = N_slots ^ l * N_slots.
Proof. intros. rewrite Z.pow_add_r by lia. lia. Qed.

Lemma count_layers_spec n :
  0 < n ≤ N_slots ^ 3 →
  ∃ k, count_layers 8 1 n 0 = Some k ∧ 0 ≤ k < 4 ∧ n ≤ N_slots ^ k.
Proof.
  intros [H0 H3].
  assert (N_slots ^ 0 = 1 ∧ N_slots ^ 1 = 1024 ∧ N_slots ^ 2 = 1048576 ∧ N_slots ^ 3 = 1073741824)
    as (E0 & E1 & E2 & E3) by done. rewrite E3 in H3.
  cbn [count_layers]. change (wrap 64 (1 * N_slots)) with 1024.
  change (wrap 64 (1024 * N_slots)) with 1048576.
  change (wrap 64 (1048576 * N_slots)) with 1073741824.
  destruct (Z.ltb_spec 1 n); [|exists 0; rewrite E0; split_and!; (done || lia)].
  destruct (Z.ltb_spec 1024 n); [|exists 1; rewrite E1; split_and!; (done || lia)].
  destruct (Z.ltb_spec 1048576 n); [|exists 2; rewrite E2; split_and!; (done || lia)].
  destruct (Z.ltb_spec 1073741824 n); [lia|].
  exists 3. rewrite E3. split_and!; (done || lia).
Qed.

Lemma layer_sizes_spec {J : Indeterminate} k :
  0 ≤ k < 4 → ∃ l, layer_sizes k = Some l ∧ (length l = 4%nat ∧ Forall (fits 64) l) ∧
    ∀ i, 0 ≤ i ≤ k → arr_get l i = Some (N_slots ^ i).
Proof.
  assert (fits 64 junk) as Hj by (destruct junk_fits; split; lia).
  intros Hk. assert (k = 0 ∨ k = 1 ∨ k = 2 ∨ k = 3) as [->|[->|[->| ->]]] by lia;
    (eexists; split; [reflexivity|]); (split; [split; [done|repeat constructor; (done || apply Hj)]|]); intros i Hi;
    (assert (i = 0 ∨ i = 1 ∨ i = 2 ∨ i = 3) as [->|[->|[->| ->]]] by lia); (done || lia).
Qed.

(** More than four layers, or an endless loop: [Init] does not reach its assertions. *)
Lemma layer_sizes_overflow {J : Indeterminate} k : 4 ≤ k ≤ 6 → layer_sizes k = None.
Proof. intros. assert (k = 4 ∨ k = 5 ∨ k = 6) as [->|[->| ->]] by lia; reflexivity. Qed.

(** ** Paths *)
Fixpoint digits (k : nat) (x : Z) : list Z :=
  match k with O => [] | S k => digits k (x / N_slots) ++ [x mod N_slots] end.

Lemma path_of_digits j pos path : path_of j pos path = digits j (pos / N_slots) ++ path.
Proof.
  revert pos path. induction j as [|j IH]; intros pos path; [done|]. cbn. rewrite IH.
  by rewrite <-app_assoc.
Qed.

Lemma digits_length k x : length (digits k x) = k.
Proof. revert x. induction k as [|k IH]; intros x; [done|]. cbn. rewrite length_app, IH. cbn. lia. Qed.

Lemma digits_tail k x : tail (digits (S k) x) = digits k x.
Proof.
  revert x. induction k as [|k IH]; intros x; [done|].
  change (digits (S (S k)) x) with (digits (S k) (x / N_slots) ++ [x mod N_slots]).
  pose proof (digits_length (S k) (x / N_slots)). specialize (IH (x / N_slots)).
  destruct (digits (S k) (x / N_slots)) as [|y l] eqn:E; [done|]. cbn in IH |- *. by rewrite IH.
Qed.

Lemma path_tail l pos : 0 ≤ l → tail (path_of (Z.to_nat l) pos []) = digits (Z.to_nat (l - 1)) (pos / N_slots).
Proof.
  intros Hl. rewrite path_of_digits, app_nil_r. destruct (decide (l = 0)) as [->|]; [done|].
  replace (Z.to_nat l) with (S (Z.to_nat (l - 1))) by lia. apply digits_tail.
Qed.

Section tree.
Context {J : Indeterminate}.

(** Following the slots of inner nodes. *)
Fixpoint walk (h : heap) (p : GlobalAddress) (path : list Z) (q : GlobalAddress) : Prop :=
  match path with
  | [] => q = p
  | i :: path => 0 ≤ i ∧ ∃ r, has h p (i * sizeof GlobalAddress) r ∧ walk h r path q
  end.

Lemma walk_snoc h p path i q r :
  walk h p path q → 0 ≤ i → has h q (i * sizeof GlobalAddress) r → walk h p (path ++ [i]) r.
Proof.
  revert p. induction path as [|j path IH]; intros p Hw Hi Hr; cbn in *.
  - subst q. split; [done|]. by exists r.
  - destruct Hw as (Hj & q' & Hq & Hw). split; [done|]. exists q'. split; [done|]. by apply IH.
Qed.

(** The nodes of a tree: [nd l i] is node [i] of layer [l], [size l] its size in bytes; the
    layers below [k] are complete, and layer [k] has [m] nodes. *)
Definition built (k m l i : Z) : Prop :=
  0 ≤ i ∧ ((0 ≤ l < k ∧ i < N_slots ^ l) ∨ (l = k ∧ i < m)).

Record tree (h : heap) (size : Z → Z) (nd : Z → Z → GlobalAddress) (k m : Z) : Prop := {
  tr_blk l i : built k m l i → blk h (nd l i) (size l);
  tr_inj l i l' i' : built k m l i → built k m l' i' → nd l i = nd l' i' → l = l' ∧ i = i';
  tr_slot l i : built k m l i → 1 ≤ l →
    has h (nd (l - 1) (i / N_slots)) ((i mod N_slots) * sizeof GlobalAddress) (nd l i);
}.

Lemma built_parent k m l i : built k m l i → m ≤ N_slots ^ k → 1 ≤ l →
  built k m (l - 1) (i / N_slots) ∧ 0 ≤ i / N_slots < N_slots ^ (l - 1).
Proof.
  intros [Hi H] Hm Hl. assert (l ≤ k ∧ i < N_slots ^ l) as [Hlk Hb].
  { destruct H as [[]|[-> ]]; lia. }
  assert (0 ≤ i / N_slots < N_slots ^ (l - 1)) as Hd.
  { split; [apply Z.div_pos; done|]. apply Z.div_lt_upper_bound; [done|].
    replace l with (l - 1 + 1) in Hb by lia. rewrite N_pow_succ in Hb by lia. lia. }
  split; [|done]. split; [lia|]. left. lia.
Qed.

Lemma tree_walk h size nd k m l i :
  tree h size nd k m → m ≤ N_slots ^ k → 0 ≤ l → built k m l i →
  walk h (nd 0 0) (digits (Z.to_nat l) i) (nd l i).
Proof.
  intros T Hm Hl. rewrite <-(Z2Nat.id l) by done. generalize (Z.to_nat l). clear l Hl. intros l.
  rewrite Nat2Z.id. revert i. induction l as [|l IH]; intros i Hb.
  - cbn. assert (i = 0) as ->; [|done]. destruct Hb as [? [[? Hi]|[E Hi]]]; cbn in *; [lia|].
    subst k. cbn in Hm. lia.
  - cbn [digits]. destruct (built_parent k m (Z.of_nat (S l)) i Hb Hm ltac:(lia)) as [Hp _].
    replace (Z.of_nat (S l) - 1) with (Z.of_nat l) in Hp by lia.
    eapply walk_snoc; [by apply IH|apply Z.mod_pos_bound; done|].
    pose proof (tr_slot _ _ _ _ _ T _ _ Hb ltac:(lia)) as Hs.
    by replace (Z.of_nat (S l) - 1) with (Z.of_nat l) in Hs by lia.
Qed.

Lemma built_0_0 k m : 0 < k → built k m 0 0.
Proof. intros. split; [lia|]. left. cbn. lia. Qed.

(** The tree depends only on the inner nodes and on the sizes. *)
Lemma tree_ext h h' size nd k m :
  tree h size nd k m →
  (∀ l i, built k m l i → blk h (nd l i) (size l) → blk h' (nd l i) (size l)) →
  (∀ l i, built k m l i → 1 ≤ l → h' !! nd (l - 1) (i / N_slots) = h !! nd (l - 1) (i / N_slots)) →
  tree h' size nd k m.
Proof.
  intros [B I H] Hb Hs. split; [intros; auto|done|].
  intros l i Hl H1. destruct (H l i Hl H1) as (bs & E & R). exists bs. by rewrite Hs.
Qed.
End tree.

(** ** The operations on a tree *)
Section operations.
Context {S : Type} {J : Indeterminate} {G : GAlloc S} {GH : GHeap S}.
Implicit Types (s : S) (h : heap).

Lemma wp_follow s h p path q (Q : GlobalAddress → S → Prop) :
  heap_ok s h → walk h p path q →
  (∀ s', heap_ok s' h → room s' = room s → Q q s') → wpd (follow p path) Q s.
Proof.
  revert p s. induction path as [|j path IH]; intros p s Hok Hw HQ; cbn [follow walk] in *.
  - subst q. wpd_step. by apply HQ.
  - destruct Hw as (Hj & r & Hr & Hw). wpd_step.
    assert (GADD p 0 = p) as Hp.
    { destruct Hr as (bs & Hb & _). apply GADD_0. by destruct (gh_block s h p bs Hok Hb). }
    eapply wp_load_at; [done|by symmetry|lia| |exact Hr|].
    { pose proof (sizeof_pos (T := GlobalAddress)). lia. }
    intros s' Hok' Hr'. apply IH; [done..|]. intros s'' ? E. apply HQ; [done|]. by rewrite E.
Qed.

Definition arr_layers (arr : GAddrArray) (nd : Z → Z → GlobalAddress) : Prop :=
  root_addr_ arr = nd 0 0 ∧ 0 ≤ layer_num_ arr < 4 ∧
  ∀ i, 0 ≤ i ≤ layer_num_ arr → arr_get (layer_size_ arr) i = Some (N_slots ^ i).

Lemma wp_LocateParentNode s h arr size nd k m l pos (Q : GlobalAddress → S → Prop) :
  heap_ok s h → arr_layers arr nd → tree h size nd k m → m ≤ N_slots ^ k →
  0 ≤ l ≤ layer_num_ arr → 0 ≤ pos < N_slots ^ l → built k m (Z.max 0 (l - 1)) (pos / N_slots) →
  (∀ s', heap_ok s' h → room s' = room s → Q (nd (Z.max 0 (l - 1)) (pos / N_slots)) s') →
  wpd (LocateParentNode arr l pos) Q s.
Proof.
  intros Hok (Hroot & Hn & Hsz) T Hm Hl Hp Hb HQ. unfold LocateParentNode. wpd_step.
  eapply wpd_in_array; [by apply Hsz|]. wpd_step. apply wpd_assert; [apply Z.ltb_lt; lia|].
  rewrite path_tail, Hroot by lia. eapply wp_follow; [done| |done].
  replace (Z.to_nat (l - 1)) with (Z.to_nat (Z.max 0 (l - 1))) by lia.
  eapply tree_walk; [done|done|lia|done].
Qed.

(** What the construction keeps: the tree so far is outside the heap [h0]. *)
Record grown (h0 h : heap) (size : Z → Z) (nd : Z → Z → GlobalAddress) (k m : Z) : Prop := {
  gr_tree : tree h size nd k m;
  gr_old a bs : h0 !! a = Some bs → h !! a = Some bs;
  gr_new l i : built k m l i → h0 !! nd l i = None;
}.

Definition add_node (nd : Z → Z → GlobalAddress) (k m : Z) (a : GlobalAddress) : Z → Z → GlobalAddress :=
  λ l i, if decide (l = k ∧ i = m) then a else nd l i.

Lemma add_node_old nd k m a l i : built k m l i → add_node nd k m a l i = nd l i.
Proof.
  intros [? H]. unfold add_node. rewrite decide_False; [done|]. intros [-> ->].
  destruct H; lia.
Qed.

Lemma add_node_new nd k m a : add_node nd k m a k m = a.
Proof. unfold add_node. by rewrite decide_True. Qed.

Lemma built_succ k m l i : built k (m + 1) l i → built k m l i ∨ l = k ∧ i = m ∧ 0 ≤ m.
Proof. intros [? [?|[-> ?]]]; [left; split; [done|by left]|]. unfold built. destruct (decide (i = m)); lia. Qed.

Lemma slots_apart (i j : Z) :
  0 ≤ i → 0 ≤ j → i ≠ j → i / N_slots = j / N_slots →
  (i mod N_slots) * 10 + 10 ≤ (j mod N_slots) * 10 ∨ (j mod N_slots) * 10 + 10 ≤ (i mod N_slots) * 10.
Proof. change N_slots with 1024. intros. divlia. Qed.

(** A new node and the slot that leads to it. *)
Lemma grown_node h0 h size nd k m a bs :
  grown h0 h size nd k m → 1 ≤ k → 0 ≤ m → m < N_slots ^ k →
  size (k - 1) = sizeof GlobalAddress * N_slots →
  h !! a = None → len bs = size k → ga_valid a →
  grown h0 (put (nd (k - 1) (m / N_slots)) ((m mod N_slots) * sizeof GlobalAddress) (to_bytes a)
              (<[a := bs]> h)) size (add_node nd k m a) k (m + 1).
Proof.
  intros [[B I H] Ho Hn] Hk Hm0 Hm Hsz Ha Hl Hv.
  change (sizeof GlobalAddress) with 10 in *.
  assert (built k m (k - 1) (m / N_slots)) as Hpar.
  { split; [apply Z.div_pos; done|]. left. split; [lia|]. apply Z.div_lt_upper_bound; [done|].
    replace k with (k - 1 + 1) in Hm by lia. rewrite N_pow_succ in Hm by lia. lia. }
  pose proof (B _ _ Hpar) as Bp. rewrite Hsz in Bp.
  assert (∀ l i, built k m l i → nd l i ≠ a) as Hne.
  { intros l i Hb E0. destruct (B _ _ Hb) as (? & E & _). congruence. }
  set (h1 := <[a := bs]> h).
  assert (∀ l i, built k m l i → blk h1 (nd l i) (size l)) as B1.
  { intros l i Hb. by apply blk_insert, B. }
  pose proof (Z.mod_pos_bound m N_slots ltac:(done)) as Hmod.
  assert (len (to_bytes a) = 10) as Hlen by exact (to_bytes_len a Hv).
  assert (∀ a' n, blk h1 a' n →
    blk (put (nd (k - 1) (m / N_slots)) (m mod N_slots * 10) (to_bytes a) h1) a' n) as Bput.
  { intros a' n. eapply blk_put; [by apply blk_insert|lia|]. lia. }
  split; [split| |].
  - intros l i [Hb|(-> & -> & _)]%built_succ.
    + rewrite add_node_old by done. by apply Bput, B1.
    + rewrite add_node_new. apply Bput. rewrite <-Hl. apply blk_insert_same.
  - intros l i l' i' [Hb|(-> & -> & _)]%built_succ [Hb'|(-> & -> & _)]%built_succ;
      rewrite ?add_node_new, ?add_node_old by done.
    + by apply I.
    + intros E. by destruct (Hne l i).
    + intros E. by destruct (Hne l' i').
    + done.
  - intros l i [Hb|(-> & -> & _)]%built_succ H1.
    + destruct (built_parent k m l i Hb ltac:(lia) H1) as [Hp _].
      rewrite !add_node_old by done. eapply has_put_other; [by apply blk_insert|lia|lia| |].
      { by apply has_insert, H. }
      change (sizeof GlobalAddress) with 10. rewrite Hlen.
      destruct (decide (nd (k - 1) (m / N_slots) = nd (l - 1) (i / N_slots))) as [E|]; [|by left].
      destruct (I _ _ _ _ Hpar Hp E) as [El Ei]. assert (l = k) as -> by lia.
      right. destruct Hb as [Hi0 Hb]. apply slots_apart; [lia|lia| |done].
      destruct Hb as [[]|]; lia.
    + rewrite (add_node_old _ _ _ _ _ _ Hpar). rewrite add_node_new.
      change (sizeof GlobalAddress) with 10.
      eapply has_put_same; [by apply blk_insert|lia| |done]. change (sizeof GlobalAddress) with 10. lia.
  - intros b bs' Hb. rewrite put_lookup_ne.
    + unfold h1. rewrite lookup_insert_ne; [by apply Ho|]. intros <-. by rewrite (Ho _ _ Hb) in Ha.
    + intros <-. by rewrite (Hn _ _ Hpar) in Hb.
  - intros l i [Hb|(-> & -> & _)]%built_succ.
    + rewrite add_node_old by done. by apply Hn.
    + rewrite add_node_new. apply eq_None_not_Some. intros [? Hb].
      by rewrite (Ho _ _ Hb) in Ha.
Qed.

Lemma built_full k l i : 0 ≤ k → built k (N_slots ^ k) l i ↔ built (k + 1) 0 l i.
Proof.
  intros Hk. unfold built. split; intros [Hi H].
  - split; [done|]. left. destruct H as [[]|[-> ]]; lia.
  - split; [done|]. destruct H as [[H1 H2]|]; [|lia].
    destruct (decide (l = k)) as [->|]; [by right|left; lia].
Qed.

Lemma grown_full h0 h size nd k :
  0 ≤ k → grown h0 h size nd k (N_slots ^ k) → grown h0 h size nd (k + 1) 0.
Proof.
  intros Hk [[B I H] Ho Hn]. split; [split|done|].
  - intros l i Hb. by apply B, built_full.
  - intros l i l' i' Hb Hb'. by apply I; apply built_full.
  - intros l i Hb. by apply H, built_full.
  - intros l i Hb. by apply Hn, built_full.
Qed.

(** The size of the nodes of a layer, and the space for the layers from [k] on. *)
Definition node_size (arr : GAddrArray) (l : Z) : Z :=
  (if (layer_num_ arr =? 0) || (l <? layer_num_ arr - 1)
   then sizeof GlobalAddress else element_size_ arr) * N_slots.
Definition layers_room (arr : GAddrArray) (k : Z) : Z :=
  foldr (λ l acc, N_slots ^ l * (node_size arr l + 4096) + acc) 0 (seqZ k (Z.max 1 (layer_num_ arr) - k)).

(** The space that [Init] takes. *)
Definition array_room (count size : Z) : Z :=
  match count_layers 8 1 count 0 with
  | Some k => layers_room (mk_GAddrArray ga_Null count size [] k) 0
  | None => 0
  end.

Lemma layers_room_step arr k :
  k < Z.max 1 (layer_num_ arr) →
  layers_room arr k = N_slots ^ k * (node_size arr k + 4096) + layers_room arr (k + 1).
Proof.
  intros Hk. unfold layers_room. rewrite (seqZ_cons _ (_ - k)) by lia. cbn [foldr]. do 3 f_equal.
  by replace (Z.pred (Z.max 1 (layer_num_ arr) - k)) with (Z.max 1 (layer_num_ arr) - (k + 1)) by lia.
Qed.

Definition arr_sizes (arr : GAddrArray) : Prop :=
  0 < element_size_ arr ∧ element_size_ arr * N_slots ≤ 2 ^ 25.

Lemma node_size_bound arr l : arr_sizes arr → 0 < node_size arr l ≤ 2 ^ 25.
Proof.
  intros [? ?]. unfold node_size. change (sizeof GlobalAddress) with 10. change N_slots with 1024 in *.
  destruct (_ || _); lia.
Qed.

Lemma layers_room_pos arr k : arr_sizes arr → 0 ≤ k → 0 ≤ layers_room arr k.
Proof.
  intros Ha. unfold layers_room. generalize (Z.max 1 (layer_num_ arr) - k). intros n.
  assert (∀ l : list Z, Forall (λ x, 0 ≤ x) l →
    0 ≤ foldr (λ l acc, N_slots ^ l * (node_size arr l + 4096) + acc) 0 l) as H.
  { induction 1 as [|x l Hx _ IH]; cbn [foldr]; [done|].
    pose proof (N_pow_pos x Hx). pose proof (node_size_bound arr x Ha). nia. }
  intros Hk. apply H. apply Forall_forall. intros x Hx%elem_of_seqZ. lia.
Qed.

Definition building (arr : GAddrArray) (h0 : heap) (k m r : Z) s : Prop :=
  ∃ h nd, heap_ok s h ∧ arr_layers arr nd ∧ grown h0 h (node_size arr) nd k m ∧ r ≤ room s.

Lemma wp_init_node s h0 arr k m r :
  building arr h0 k m (node_size arr k + 4096 + r) s → arr_sizes arr → 0 ≤ r →
  1 ≤ k < layer_num_ arr → 0 ≤ m < N_slots ^ k →
  wpd (init_node arr k m) (λ _, building arr h0 k (m + 1) r) s.
Proof.
  intros (h & nd & Hok & L & Gr & Hr) Hsz Hr0 Hk Hm. pose proof L as (Hroot & Hn & Hl).
  assert (node_size arr k =
    (if k <? layer_num_ arr - 1 then sizeof GlobalAddress else element_size_ arr) * N_slots) as Es.
  { unfold node_size. destruct (Z.eqb_spec (layer_num_ arr) 0); [lia|done]. }
  pose proof (node_size_bound arr k Hsz) as Hb.
  unfold init_node. wpd_step. rewrite <-Es, wrap_small by (unfold fits; lia).
  eapply wp_AlignedMalloc; [done|lia|lia|lia|]. intros a bs s1 Ha Hbs Hnz Hv Hok1 Hr1.
  pose proof Gr as [T _ _].
  assert (built k m (k - 1) (m / N_slots)) as Hpar.
  { split; [apply Z.div_pos; [lia|done]|]. left. split; [lia|]. apply Z.div_lt_upper_bound; [done|].
    replace k with (k - 1 + 1) in Hm by lia. rewrite N_pow_succ in Hm by lia. lia. }
  assert (node_size arr (k - 1) = sizeof GlobalAddress * N_slots) as Ep.
  { unfold node_size. rewrite (proj2 (Z.ltb_lt (k - 1) _)), orb_true_r by lia. done. }
  assert (tree (<[a := bs]> h) (node_size arr) nd k m) as T1.
  { eapply tree_ext; [done|intros; by apply blk_insert|]. intros l i Hli H1.
    destruct (built_parent k m l i Hli ltac:(lia) H1) as [Hp _].
    destruct (tr_blk _ _ _ _ _ T _ _ Hp) as (? & E & _). rewrite lookup_insert_ne; [done|]. congruence. }
  wpd_step. eapply (wp_LocateParentNode s1 _ arr (node_size arr) nd k m k m); [done..|lia|lia|done| |].
  { by rewrite Z.max_r by lia. }
  intros s2 Hok2 Hr2. rewrite Z.max_r by lia.
  pose proof (tr_blk _ _ _ _ _ T1 _ _ Hpar) as Bp. rewrite Ep in Bp.
  destruct (blk_valid _ _ _ _ Hok2 Bp) as (_ & _ & E0).
  pose proof (Z.mod_pos_bound m N_slots ltac:(done)).
  change (sizeof GlobalAddress) with 10 in *.
  eapply (wp_store_at s2 _ _ (nd (k - 1) (m / N_slots)) 0); [done|done|lia|lia|done| |done|].
  { change (sizeof GlobalAddress) with 10. lia. }
  intros s3 Hok3 Hr3. rewrite Z.add_0_l in Hok3.
  eexists _, (add_node nd k m a). split_and!; [exact Hok3| | |lia].
  - split_and!; [|lia|lia|done]. rewrite add_node_old; [done|]. apply built_0_0. lia.
  - apply grown_node; [done|lia|lia|lia|done..].
Qed.
(** ** [Init] *)

(** An array that [Init] has made, with the nodes [nd]. *)
Record arr_ok (h : heap) (arr : GAddrArray) (nd : Z → Z → GlobalAddress) : Prop := {
  ao_layers : arr_layers arr nd;
  ao_size : 0 < array_size_ arr ≤ N_slots ^ layer_num_ arr;
  ao_elems : arr_sizes arr;
  ao_single : layer_num_ arr = 0 → element_size_ arr ≤ sizeof GlobalAddress * N_slots;
  ao_tree : tree h (node_size arr) nd (Z.max 1 (layer_num_ arr)) 0;
  ao_words : length (layer_size_ arr) = 4%nat ∧ Forall (fits 64) (layer_size_ arr);
}.

Lemma wp_init_layer s h0 arr k r :
  building arr h0 k 0 (N_slots ^ k * (node_size arr k + 4096) + r) s → arr_sizes arr → 0 ≤ r →
  1 ≤ k < layer_num_ arr →
  wpd (for_each (seqZ 0 (N_slots ^ k)) (init_node arr k)) (λ _, building arr h0 (k + 1) 0 r) s.
Proof.
  intros Hb Ha Hr Hk. pose proof (N_pow_pos k ltac:(lia)).
  pose proof (node_size_bound arr k Ha).
  apply (wpd_for_seqZ _ _ _ (λ m s, building arr h0 k m ((N_slots ^ k - m) * (node_size arr k + 4096) + r) s));
    [lia|by rewrite Z.sub_0_r| |].
  - intros m s' Hm Hb'. apply wp_init_node; [|done|nia|lia|lia].
    replace (node_size arr k + 4096 + ((N_slots ^ k - (m + 1)) * (node_size arr k + 4096) + r))
      with ((N_slots ^ k - m) * (node_size arr k + 4096) + r) by lia. done.
  - intros s' (h & nd & Hok & L & Gr & Hroom). exists h, nd. split_and!; [done|done| |lia].
    apply grown_full; [lia|]. by rewrite Z.add_0_l in Gr.
Qed.

(** The root alone. *)
Lemma grown_root h0 arr root bs :
  h0 !! root = None → len bs = node_size arr 0 →
  grown h0 (<[root := bs]> h0) (node_size arr) (λ _ _, root) 1 0.
Proof.
  intros Hn Hl. assert (∀ l i, built 1 0 l i → l = 0 ∧ i = 0) as Hb.
  { intros l i [? [[? Hi]|]]; [|lia]. assert (l = 0) as -> by lia. cbn in Hi. lia. }
  split; [split| |].
  - intros l i [-> ->]%Hb. rewrite <-Hl. apply blk_insert_same.
  - intros l i l' i' [-> ->]%Hb [-> ->]%Hb. done.
  - intros l i [-> ->]%Hb. lia.
  - intros b bs' Hb'. rewrite lookup_insert_ne; [done|]. congruence.
  - intros l i _. done.
Qed.

(** The element with number [i]: the block of its leaf and the offset there. *)
Definition elem_block (arr : GAddrArray) (nd : Z → Z → GlobalAddress) (i : Z) : GlobalAddress :=
  nd (Z.max 0 (layer_num_ arr - 1)) (i / N_slots).
Definition elem_offset (arr : GAddrArray) (i : Z) : Z := (i mod N_slots) * element_size_ arr.

Lemma wp_array_Init s h count size (Q : GAddrArray → S → Prop) :
  heap_ok s h → 0 < count ≤ N_slots ^ 3 → 0 < size → size * N_slots ≤ 2 ^ 25 →
  (count ≤ 1 → size ≤ sizeof GlobalAddress * N_slots) →
  array_room count size ≤ room s →
  (∀ arr nd h' s', arr_ok h' arr nd → array_size_ arr = count → element_size_ arr = size →
     heap_ok s' h' → (∀ a bs, h !! a = Some bs → h' !! a = Some bs) →
     (∀ l i, built (Z.max 1 (layer_num_ arr)) 0 l i → h !! nd l i = None) →
     room s - array_room count size ≤ room s' → Q arr s') →
  wpd (array_Init count size) Q s.
Proof.
  intros Hok Hc Hsz Hsz' H1 Hroom HQ.
  destruct (count_layers_spec count Hc) as (k & Ek & Hk & Hck).
  destruct (layer_sizes_spec k Hk) as (sizes & Es & Hw & Hs).
  unfold array_Init. wpd_step. rewrite Ek. wpd_step. wpd_step. eapply wpd_in_array; [exact Es|].
  wpd_step. apply wpd_assert; [apply Z.ltb_lt; lia|]. wpd_step.
  eapply wpd_in_array; [apply Hs; lia|]. wpd_step. apply wpd_assert; [by apply Z.leb_le|].
  set (rest := room s - array_room count size). assert (0 ≤ rest) as Hrest by (unfold rest; lia).
  assert (∀ root, let arr := mk_GAddrArray root count size sizes k in
    room s = layers_room arr 0 + rest ∧ arr_sizes arr ∧
    layers_room arr 0 = node_size arr 0 + 4096 + layers_room arr 1) as Harr.
  { intros root arr. split_and!; [|done|].
    { assert (array_room count size = layers_room arr 0) by (unfold array_room; by rewrite Ek). lia. }
    rewrite layers_room_step by lia. change (N_slots ^ 0) with 1. by rewrite Z.mul_1_l. }
  (* the root *)
  assert (∀ n (f : GlobalAddress → DB S GAddrArray),
    n = node_size (mk_GAddrArray ga_Null count size sizes k) 0 →
    (∀ root s1, let arr := mk_GAddrArray root count size sizes k in
       building arr h 1 0 (layers_room arr 1 + rest) s1 → wpd (f root) Q s1) →
    wpd (AlignedMalloc n ≫= f) Q s) as Hroot.
  { intros n f En Hf. destruct (Harr ga_Null) as (R & Z & E).
    pose proof (node_size_bound _ 0 Z). pose proof (layers_room_pos _ 1 Z ltac:(lia)).
    wpd_step. eapply wp_AlignedMalloc; [done|lia|lia|lia|]. intros root bs s1 Hn Hbs _ _ Hok1 Hr1.
    apply Hf. exists (<[root := bs]> h), (λ _ _, root). split_and!; [done| | |].
    - split_and!; [done|cbn; lia|cbn; lia|done].
    - apply grown_root; [done|]. by rewrite Hbs, En.
    - change (layers_room (mk_GAddrArray ga_Null count size sizes k)) with
        (layers_room (mk_GAddrArray root count size sizes k)) in *.
      change (node_size (mk_GAddrArray ga_Null count size sizes k)) with
        (node_size (mk_GAddrArray root count size sizes k)) in *. lia. }
  assert (∀ root s1, let arr := mk_GAddrArray root count size sizes k in
    building arr h (Z.max 1 k) 0 rest s1 → Q arr s1) as Hfin.
  { intros root s1 arr (h1 & nd & Hok1 & L & [T Ho Hn] & Hr1). apply (HQ arr nd h1); try done.
    split; [done|cbn; lia|done| |done|done]. cbn. intros ->. apply H1. cbn in Hck. lia. }
  destruct (Z.eqb_spec k 1) as [->|Hk1].
  - rewrite wrap_small by (unfold fits; change N_slots with 1024 in *; lia).
    apply Hroot; [done|]. intros root s1 arr Hb. wpd_step. apply Hfin. done.
  - apply Hroot.
    { unfold node_size. cbn [layer_num_]. destruct (Z.eqb_spec k 0); [done|].
      destruct (Z.ltb_spec 0 (k - 1)); [done|lia]. }
    intros root s1 arr Hb. wpd_step. destruct (Harr root) as (_ & Za & _). fold arr in Za.
    destruct (decide (k = 0)) as [->|Hk0]; [apply wpd_ret; wpd_step; by apply Hfin|].
    apply (wpd_for_seqZ _ _ _ (λ l s, building arr h l 0 (layers_room arr l + rest) s)); [lia|done| |].
    + intros l s' Hl Hb'. wpd_step. eapply wpd_in_array; [apply Hs; lia|].
      pose proof (layers_room_pos arr (l + 1) Za ltac:(lia)).
      apply wp_init_layer; [|done|lia|cbn; lia].
      rewrite Z.add_assoc, <-layers_room_step by (cbn; lia). done.
    + intros s' Hb'. wpd_step. apply Hfin. replace (Z.max 1 k) with (1 + (k - 1)) by lia.
      destruct Hb' as (h1 & nd & ? & ? & ? & Hr). exists h1, nd. split_and!; try done.
      pose proof (layers_room_pos arr (1 + (k - 1)) Za ltac:(lia)). lia.
Qed.
(** ** The elements of an array *)
Definition in_tree (arr : GAddrArray) (nd : Z → Z → GlobalAddress) (a : GlobalAddress) : Prop :=
  ∃ l i, built (Z.max 1 (layer_num_ arr)) 0 l i ∧ a = nd l i.

Lemma elem_built h arr nd i :
  arr_ok h arr nd → 0 ≤ i < array_size_ arr →
  built (Z.max 1 (layer_num_ arr)) 0 (Z.max 0 (layer_num_ arr - 1)) (i / N_slots).
Proof.
  intros [(_ & Hn & _) Hsz _ _ _] Hi. split; [apply Z.div_pos; [lia|done]|]. left. split; [lia|].
  destruct (decide (layer_num_ arr = 0)) as [E|E].
  - rewrite E in *. cbn in Hsz |- *. rewrite Z.div_small; [done|]. change N_slots with 1024. lia.
  - rewrite Z.max_r by lia. apply Z.div_lt_upper_bound; [done|].
    rewrite Z.mul_comm, <-N_pow_succ by lia. replace (layer_num_ arr - 1 + 1) with (layer_num_ arr) by lia.
    lia.
Qed.

(** Every element lies in the block of its leaf. *)
Lemma elem_in_block h arr nd i :
  arr_ok h arr nd → 0 ≤ i < array_size_ arr →
  ∃ n, blk h (elem_block arr nd i) n ∧ 0 ≤ elem_offset arr i ∧
    elem_offset arr i + element_size_ arr ≤ n ∧ in_tree arr nd (elem_block arr nd i).
Proof.
  intros Ok Hi. pose proof (elem_built h arr nd i Ok Hi) as Hb.
  destruct Ok as [(_ & Hn & _) Hsz [He _] H1 T]. eexists. split; [by apply T|].
  unfold elem_offset, node_size. pose proof (Z.mod_pos_bound i N_slots ltac:(done)).
  split; [nia|]. split; [|by eexists _, _].
  destruct (Z.eqb_spec (layer_num_ arr) 0) as [E|E]; cbn [orb].
  - rewrite E in Hsz. cbn in Hsz. assert (i = 0) as -> by lia. rewrite Z.mod_0_l by done. specialize (H1 E). lia.
  - rewrite (proj2 (Z.ltb_ge _ _)) by lia. nia.
Qed.

(** Different elements do not overlap. *)
Lemma elems_apart h arr nd i j :
  arr_ok h arr nd → 0 ≤ i < array_size_ arr → 0 ≤ j < array_size_ arr → i ≠ j →
  elem_block arr nd i ≠ elem_block arr nd j ∨
  elem_offset arr i + element_size_ arr ≤ elem_offset arr j ∨
  elem_offset arr j + element_size_ arr ≤ elem_offset arr i.
Proof.
  intros Ok Hi Hj Hne.
  destruct (decide (elem_block arr nd i = elem_block arr nd j)) as [E|]; [right|by left].
  destruct (tr_inj _ _ _ _ _ (ao_tree _ _ _ Ok) _ _ _ _ (elem_built h arr nd i Ok Hi)
    (elem_built h arr nd j Ok Hj) E) as [_ Eq].
  destruct Ok as [_ _ [He _] _ _]. unfold elem_offset.
  assert (i mod N_slots ≠ j mod N_slots).
  { intros Em. apply Hne. rewrite (Z.div_mod i N_slots), (Z.div_mod j N_slots) by done. congruence. }
  destruct (Z.lt_total (i mod N_slots) (j mod N_slots)) as [?|[?|?]]; [left|done|right]; nia.
Qed.

(** What the array needs of the heap. *)
Lemma arr_ok_ext h h' arr nd :
  arr_ok h arr nd →
  (∀ a n, in_tree arr nd a → blk h a n → blk h' a n) →
  (∀ l i, built (Z.max 1 (layer_num_ arr)) 0 l i → l + 1 < layer_num_ arr → h' !! nd l i = h !! nd l i) →
  arr_ok h' arr nd.
Proof.
  intros [L Hsz He H1 T Hw] Hb Hs. split; [done|done|done|done| |done]. eapply tree_ext; [done| |].
  - intros l i Hli. apply Hb. by eexists _, _.
  - intros l i Hli Hl. pose proof L as (_ & Hn & _).
    assert (0 ≤ N_slots ^ Z.max 1 (layer_num_ arr)) as Hp by (pose proof (N_pow_pos (Z.max 1 (layer_num_ arr))); lia).
    destruct (built_parent _ _ _ _ Hli Hp Hl) as [Hpar _]. apply Hs; [done|].
    destruct Hli as [? [[]|[]]]; lia.
Qed.

Lemma arr_ok_insert h arr nd a bs : arr_ok h arr nd → h !! a = None → arr_ok (<[a := bs]> h) arr nd.
Proof.
  intros Ok Ha. eapply arr_ok_ext; [done|intros; by apply blk_insert|].
  intros l i Hli _. destruct (tr_blk _ _ _ _ _ (ao_tree _ _ _ Ok) _ _ Hli) as (? & E & _).
  rewrite lookup_insert_ne; [done|]. congruence.
Qed.

Lemma arr_ok_put h arr nd a off d n :
  arr_ok h arr nd → blk h a n → 0 ≤ off → off + len d ≤ n → ¬ in_tree arr nd a →
  arr_ok (put a off d h) arr nd.
Proof.
  intros Ok Hb H0 Hd Hn. eapply arr_ok_ext; [done|intros; by eapply blk_put|].
  intros l i Hli _. rewrite put_lookup_ne; [done|]. intros ->. apply Hn. by eexists _, _.
Qed.

Lemma arr_ok_put_elem h arr nd i d :
  arr_ok h arr nd → 0 ≤ i < array_size_ arr → len d = element_size_ arr →
  arr_ok (put (elem_block arr nd i) (elem_offset arr i) d h) arr nd.
Proof.
  intros Ok Hi Hd. destruct (elem_in_block h arr nd i Ok Hi) as (n & Hb & H0 & Hn & _).
  eapply arr_ok_ext; [done|intros; eapply blk_put; [done|lia|lia|done]|].
  intros l j Hlj Hl. rewrite put_lookup_ne; [done|]. unfold elem_block. intros E.
  destruct (tr_inj _ _ _ _ _ (ao_tree _ _ _ Ok) _ _ _ _ (elem_built h arr nd i Ok Hi) Hlj E). lia.
Qed.

Lemma wp_GetElementGAddr s h arr nd i (Q : GlobalAddress → S → Prop) :
  heap_ok s h → arr_ok h arr nd → 0 ≤ i < array_size_ arr →
  (∀ s', heap_ok s' h → room s' = room s → Q (GADD (elem_block arr nd i) (elem_offset arr i)) s') →
  wpd (GetElementGAddr arr i) Q s.
Proof.
  intros Hok Ok Hi HQ. destruct (elem_in_block h arr nd i Ok Hi) as (n & Hb & H0 & Hn & _).
  pose proof (elem_built h arr nd i Ok Hi) as Hbu.
  pose proof Ok as [L Hsz [He _] _ T]. pose proof L as (_ & Hl & _).
  unfold GetElementGAddr. wpd_step. apply wpd_assert; [apply Z.ltb_lt; lia|]. wpd_step.
  eapply wp_LocateParentNode; [done|done|done| |lia|lia|done|].
  { pose proof (N_pow_pos (Z.max 1 (layer_num_ arr))). lia. }
  intros s' Hok' Hr. wpd_step. fold (elem_block arr nd i) (elem_offset arr i).
  destruct Hb as (bs & Hb & Hbl). destruct (gh_block s h _ bs Hok Hb) as (_ & _ & H25 & _).
  rewrite wrap_small by (unfold fits; lia). rewrite to_int_small by lia. by apply HQ.
Qed.
End operations.

(** An initialised array has a place of its own for every element: [Init] for up to
    2^30 elements returns when there is room for the nodes, leaves every older block as it
    was, and afterwards [GetElementGAddr] returns, for each index, an address inside a
    block that [Init] allocated, with the whole element inside the block, and never
    overlapping another element. *)
Theorem array_elements {S} {J : Indeterminate} {G : GAlloc S} {GH : GHeap S} (s : S) h count size :
  heap_ok s h → 0 < count ≤ N_slots ^ 3 → 0 < size → size * N_slots ≤ 2 ^ 25 →
  (count ≤ 1 → size ≤ sizeof GlobalAddress * N_slots) →
  array_room count size ≤ room s →
  wpd (array_Init count size) (λ arr s', ∃ h' (place : Z → GlobalAddress * Z),
    heap_ok s' h' ∧ (∀ a bs, h !! a = Some bs → h' !! a = Some bs) ∧
    (∀ i, 0 ≤ i < count →
       h !! (place i).1 = None ∧ 0 ≤ (place i).2 ∧
       (∃ n, blk h' (place i).1 n ∧ (place i).2 + size ≤ n) ∧
       wpd (GetElementGAddr arr i) (λ p s'', p = GADD (place i).1 (place i).2 ∧ heap_ok s'' h') s') ∧
    (∀ i j, 0 ≤ i < count → 0 ≤ j < count → i ≠ j →
       (place i).1 ≠ (place j).1 ∨ (place i).2 + size ≤ (place j).2 ∨ (place j).2 + size ≤ (place i).2)) s.
Proof.
  intros Hok Hc Hs Hs' H1 Hr. eapply wp_array_Init; [done..|].
  intros arr nd h' s' Ok Ec Es Hok' Hold Hnew _.
  exists h', (λ i, (elem_block arr nd i, elem_offset arr i)). cbn [fst snd].
  rewrite <-Ec, <-Es in *. split_and!; [done|done| |by intros; eapply elems_apart].
  intros i Hi. destruct (elem_in_block h' arr nd i Ok Hi) as (n & Hb & H0 & Hn & l & j & Hlj & E).
  split_and!; [rewrite E; by eapply Hnew|done|by exists n|].
  eapply wp_GetElementGAddr; [done..|]. by intros.
Qed.

Lemma array_elements_witness :
  heap_ok (ex_state 0) ∅ ∧
  wpd (array_Init 3 48) (λ arr s', ∃ h' (place : Z → GlobalAddress * Z), heap_ok s' h' ∧
    wpd (GetElementGAddr arr 2) (λ p s'', p = GADD (place 2).1 (place 2).2 ∧ heap_ok s'' h') s') (ex_state 0).
Proof.
  split; [exact ex_state_ok|]. eapply wpd_mono.
  - apply (array_elements (ex_state 0) ∅ 3 48); [exact ex_state_ok|vm_compute; done|lia|vm_compute; discriminate|lia|].
    vm_compute. discriminate.
  - intros arr s' (h' & place & Hok & _ & He & _). exists h', place. split; [exact Hok|].
    apply (He 2). lia.
Defined.

(** For more than 2^30 elements [Init] never returns and never reaches its
    assertions: with five layers or more it has written past [layer_size_] before it
    tests [layer_num_ < 4], and for more than 2^60 elements the loop that counts the
    layers does not end. *)
Theorem array_Init_overflow {S} {J : Indeterminate} {G : GAlloc S} count size (s : S) :
  N_slots ^ 3 < count < 2 ^ 64 →
  array_Init count size s = Raise (if count <=? 2 ^ 60 then undefined else waits) s.
Proof.
  intros [H3 Hc]. change (N_slots ^ 3) with 1073741824 in H3.
  assert (∃ k, 4 ≤ k ≤ 6 ∧ count_layers 8 1 count 0 = if count <=? 2 ^ 60 then Some k else None) as (k & Hk & E).
  { cbn [count_layers]. change (wrap 64 (1 * N_slots)) with 1024.
    change (wrap 64 (1024 * N_slots)) with 1048576. change (wrap 64 (1048576 * N_slots)) with 1073741824.
    change (wrap 64 (1073741824 * N_slots)) with (2 ^ 40). change (wrap 64 (2 ^ 40 * N_slots)) with (2 ^ 50).
    change (wrap 64 (2 ^ 50 * N_slots)) with (2 ^ 60). change (wrap 64 (2 ^ 60 * N_slots)) with 0.
    rewrite (proj2 (Z.ltb_lt 1 count)), (proj2 (Z.ltb_lt 1024 count)), (proj2 (Z.ltb_lt 1048576 count)),
      (proj2 (Z.ltb_lt 1073741824 count)) by lia.
    destruct (Z.ltb_spec (2 ^ 40) count); [|exists 4; rewrite (proj2 (Z.leb_le _ _)) by lia; split; [lia|done]].
    destruct (Z.ltb_spec (2 ^ 50) count); [|exists 5; rewrite (proj2 (Z.leb_le _ _)) by lia; split; [lia|done]].
    destruct (Z.ltb_spec (2 ^ 60) count); [|exists 6; rewrite (proj2 (Z.leb_le _ _)) by lia; split; [lia|done]].
    exists 4. rewrite (proj2 (Z.leb_gt _ _)), (proj2 (Z.ltb_lt 0 count)) by lia. split; [lia|done]. }
  unfold array_Init, mbind, DB_bind. rewrite E. destruct (count <=? 2 ^ 60); [|done].
  cbn [mret DB_ret]. by rewrite layer_sizes_overflow.
Qed.

Lemma array_Init_overflow_witness :
  array_Init (2 ^ 60 + 1) 10 (ex_state 0) = Raise waits (ex_state 0).
Proof. apply (array_Init_overflow (2 ^ 60 + 1) 10 (ex_state 0)). vm_compute. done. Defined.
