(* ===== verification/DbIndex.v ===== *)
(** * DbIndex: [HashIndexHelper.h] and [HashIndex.h]

    The hash index of a table in the global memory.  Each bucket is a chain of nodes, one
    for each key, and a node has a chain of blocks with up to two record pointers, the
    newest block first.  The heads of the buckets are the elements of a [GAddrArray]. *)
From S2P Require Import Prelude GlobalMem DbStore DbDsm DbArray.
From stdpp Require Import base numbers option list list_numbers gmap.
Open Scope Z_scope.

Definition SLOT_NUM : Z := 2.

Record Items := mk_Items {
  record_ptrs_ : list GlobalAddress;
  record_ptrs_count_ : Z;
  items_next_ : GlobalAddress;
}.
Record BucketNode := mk_BucketNode {
  key_ : Z;
  next_ : GlobalAddress;
  items_list_ : GlobalAddress;
}.

Section layouts.
Context {J : Indeterminate}.

Lemma lt_0_2 : (0 < 2)%nat. Proof. lia. Qed.

(** 48 and 32 bytes: [size_t] is aligned to eight bytes, [GAddr] is packed. *)
#[export] Instance pod_Items : Pod Items :=
  pod_struct (λ x, mk_Items x.1 x.2.1 x.2.2) (λ i, (record_ptrs_ i, (record_ptrs_count_ i, items_next_ i)))
    ltac:(by intros [])
    (pod_pair (pod_pad 4 (pod_array 2 lt_0_2 pod_GlobalAddress))
              (pod_pair pod_u64 (pod_pad 6 pod_GlobalAddress))).
#[export] Instance pod_BucketNode : Pod BucketNode :=
  pod_struct (λ x, mk_BucketNode x.1 x.2.1 x.2.2) (λ n, (key_ n, (next_ n, items_list_ n)))
    ltac:(by intros []) (pod_pair pod_u64 (pod_pair pod_GlobalAddress (pod_pad 4 pod_GlobalAddress))).

(** Members that have not been assigned. *)
Definition indet_addr : GlobalAddress := mk_GlobalAddress junk junk.

Lemma indet_addr_valid : ga_valid indet_addr.
Proof. pose proof junk_fits. unfold fits in *. split; cbn; unfold fits; lia. Qed.

Lemma valid_Items p q c n :
  ga_valid p → ga_valid q → fits 64 c → ga_valid n → valid (mk_Items [p; q] c n).
Proof.
  intros. split; [split; [done|]|done]. cbn [pod_struct fst record_ptrs_].
  apply Forall_cons_2; [done|]. apply Forall_cons_2; [done|]. apply Forall_nil_2.
Qed.
Lemma valid_BucketNode k n i : fits 64 k → ga_valid n → ga_valid i → valid (mk_BucketNode k n i).
Proof. intros. split; [done|]. by split. Qed.
End layouts.

Section index.
Context {S : Type} {J : Indeterminate} {G : GAlloc S}.

(** ** [Items], [BucketNode] *)
Definition items_Init (i : Items) : Items := mk_Items (record_ptrs_ i) 0 ga_Null.

Definition AddRecordPtr (record_ptr : GlobalAddress) (i : Items) : DB S (bool * Items) :=
  assert_ (record_ptrs_count_ i <=? SLOT_NUM);;
  if record_ptrs_count_ i =? SLOT_NUM then mret (false, i)
  else
    assert_ (record_ptrs_count_ i <? SLOT_NUM);;
    ptrs ← in_array (arr_set (record_ptrs_ i) (record_ptrs_count_ i) record_ptr);
    mret (true, mk_Items ptrs (record_ptrs_count_ i + 1) (items_next_ i)).

Definition new_items : Items := items_Init (mk_Items [indet_addr; indet_addr] junk indet_addr).

Definition node_Init (k : Z) : BucketNode := mk_BucketNode k ga_Null ga_Null.

(** [ItemsIter] *)
Record ItemsIter := mk_ItemsIter { items_addr_ : GlobalAddress; pos_ : Z; items_ : Items }.

Definition new_ItemsIter (items_addr : GlobalAddress) : ItemsIter := mk_ItemsIter items_addr (-1) new_items.

Definition GetNext (it : ItemsIter) : DB S (GlobalAddress * ItemsIter) :=
  if ga_eqb (items_addr_ it) ga_Null then mret (ga_Null, it)
  else
    it ← (if pos_ it <? 0
          then items ← load Items (items_addr_ it); mret (mk_ItemsIter (items_addr_ it) 0 items)
          else mret it);
    assert_ (pos_ it <? record_ptrs_count_ (items_ it));;
    ret ← in_array (arr_get (record_ptrs_ (items_ it)) (pos_ it));
    let pos := pos_ it + 1 in
    mret (ret, if pos =? record_ptrs_count_ (items_ it)
               then mk_ItemsIter (items_next_ (items_ it)) (-1) (items_ it)
               else mk_ItemsIter (items_addr_ it) pos (items_ it)).

(** ** [BucketHeader]

    The loop of [InsertNode] and [SearchNode], which ends at the node of the key or at the
    end of the chain; [fuel] bounds the nodes that are read. *)
Fixpoint find_node (fuel : nat) (key : Z) (prev_node_addr cur_node_addr : GlobalAddress)
    (cur_node : BucketNode) : DB S (GlobalAddress * GlobalAddress * BucketNode) :=
  if ga_eqb cur_node_addr ga_Null then mret (prev_node_addr, cur_node_addr, cur_node)
  else match fuel with
  | Datatypes.S fuel =>
      cur_node ← load BucketNode cur_node_addr;
      if key_ cur_node =? key then mret (prev_node_addr, cur_node_addr, cur_node)
      else find_node fuel key cur_node_addr (next_ cur_node) cur_node
  | O => raise waits
  end.

Definition indet_node : BucketNode := mk_BucketNode junk indet_addr indet_addr.

(** A new block with one pointer, in front of [next]. *)
Definition alloc_items (record_ptr next : GlobalAddress) : DB S GlobalAddress :=
  '(_, items) ← AddRecordPtr record_ptr new_items;
  let items := mk_Items (record_ptrs_ items) (record_ptrs_count_ items) next in
  new_items_addr ← Malloc (sizeof Items);
  store new_items_addr items;;
  mret new_items_addr.

(** The key has a node: its newest block has a free slot, or a new block is put in front. *)
Definition insert_existing (record_ptr cur_node_addr : GlobalAddress) (cur_node : BucketNode)
    : DB S unit :=
  items ← load Items (items_list_ cur_node);
  '(added, items) ← AddRecordPtr record_ptr items;
  if added : bool then store (items_list_ cur_node) items
  else
    new_items_addr ← alloc_items record_ptr (items_list_ cur_node);
    store cur_node_addr (mk_BucketNode (key_ cur_node) (next_ cur_node) new_items_addr).

(** A new node after [prev_node_addr], the last of the chain; the new [head_]. *)
Definition insert_new (key : Z) (record_ptr head prev_node_addr : GlobalAddress)
    : DB S GlobalAddress :=
  new_items_addr ← alloc_items record_ptr ga_Null;
  let new_node := mk_BucketNode (key_ (node_Init key)) (next_ (node_Init key)) new_items_addr in
  new_node_addr ← Malloc (sizeof BucketNode);
  store new_node_addr new_node;;
  if negb (ga_eqb prev_node_addr ga_Null) then
    prev_node ← load BucketNode prev_node_addr;
    assert_ (ga_eqb (next_ prev_node) ga_Null);;
    store prev_node_addr (mk_BucketNode (key_ prev_node) new_node_addr (items_list_ prev_node));;
    mret head
  else
    assert_ (ga_eqb head ga_Null);;
    mret new_node_addr.

(** The result and the new [head_]. *)
Definition InsertNode (fuel : nat) (key : Z) (record_ptr head : GlobalAddress)
    : DB S (bool * GlobalAddress) :=
  '(prev_node_addr, cur_node_addr, cur_node) ← find_node fuel key ga_Null head indet_node;
  if negb (ga_eqb cur_node_addr ga_Null) then
    insert_existing record_ptr cur_node_addr cur_node;;
    mret (false, head)
  else
    head ← insert_new key record_ptr head prev_node_addr;
    mret (true, head).

Definition SearchNode (fuel : nat) (key : Z) (head : GlobalAddress) : DB S (option GlobalAddress) :=
  '(_, cur_node_addr, cur_node) ← find_node fuel key ga_Null head indet_node;
  mret (if negb (ga_eqb cur_node_addr ga_Null) then Some (items_list_ cur_node) else None).

(** ** [HashIndex] *)
Record HashIndex := mk_HashIndex {
  buckets_ : GAddrArray;
  buckets_count_ : Z;
  record_count_ : Z;
}.

Definition bucket_size : Z := sizeof GlobalAddress.

Definition index_Init (buckets_count : Z) : DB S HashIndex :=
  arr ← array_Init buckets_count bucket_size;
  for_each (seqZ 0 buckets_count) (λ i,
    bk_hd_addr ← GetElementGAddr arr i;
    store bk_hd_addr ga_Null);;
  mret (mk_HashIndex arr buckets_count 0).

(** [key % buckets_count_] *)
Definition Hash (ix : HashIndex) (key : Z) : DB S Z :=
  if buckets_count_ ix =? 0 then raise undefined else mret (key mod buckets_count_ ix).

(** [lock] takes the lock of a bucket. *)
Definition InsertRecord_with (lock : GlobalAddress → Z → DB S unit) (fuel : nat) (key : Z)
    (record_ptr : GlobalAddress) (ix : HashIndex) : DB S (bool * HashIndex) :=
  offset ← Hash ix key;
  hd_addr ← GetElementGAddr (buckets_ ix) offset;
  lock hd_addr bucket_size;;
  head ← load GlobalAddress hd_addr;
  '(ret, head) ← InsertNode fuel key record_ptr head;
  store hd_addr head;;
  UnLock hd_addr bucket_size;;
  mret (ret, mk_HashIndex (buckets_ ix) (buckets_count_ ix) (wrap 64 (record_count_ ix + 1))).

(** [TryWLockBucketHeader] calls [DSM::WLock]. *)
Definition index_InsertRecord := InsertRecord_with WLock.

Definition index_SearchRecord (fuel : nat) (key : Z) (ix : HashIndex) : DB S GlobalAddress :=
  offset ← Hash ix key;
  hd_addr ← GetElementGAddr (buckets_ ix) offset;
  head ← load GlobalAddress hd_addr;
  items_list ← SearchNode fuel key head;
  match items_list with
  | Some items_list =>
      items ← load Items items_list;
      in_array (arr_get (record_ptrs_ items) 0)
  | None => mret ga_Null
  end.
End index.

(** ** What the chains represent *)

(** A node: its address, its key, and its blocks with their pointers. *)
Record bnode := mk_bnode {
  bn_addr : GlobalAddress;
  bn_key : Z;
  bn_items : list (GlobalAddress * list GlobalAddress);
}.

(** The pointers of a node in the order in which they were added; the first pointer of
    the newest block, which is the one before the last when the last two share it. *)
Definition flat (items : list (GlobalAddress * list GlobalAddress)) : list GlobalAddress :=
  concat (reverse (items.*2)).
Definition newest (ps : list GlobalAddress) : GlobalAddress :=
  nth (2 * ((length ps - 1) / 2)) ps ga_Null.

(** The addresses that a bucket occupies. *)
Definition foot (ns : list bnode) : list GlobalAddress := ns ≫= λ n, bn_addr n :: (bn_items n).*1.

(** The pointers that a bucket has for a key. *)
Fixpoint content (ns : list bnode) (key : Z) : list GlobalAddress :=
  match ns with
  | [] => []
  | n :: ns => if bn_key n =? key then flat (bn_items n) else content ns key
  end.

Section chains.
Context {J : Indeterminate}.
Implicit Types h : heap.

Fixpoint items_rep h (p : GlobalAddress) (l : list (GlobalAddress * list GlobalAddress)) : Prop :=
  match l with
  | [] => p = ga_Null
  | (a, ptrs) :: l =>
      p = a ∧ ∃ it, has h a 0 it ∧ record_ptrs_count_ it = len ptrs ∧
        (0 < length ptrs ≤ 2)%nat ∧ take (length ptrs) (record_ptrs_ it) = ptrs ∧
        items_rep h (items_next_ it) l
  end.

(** A block before the newest is full. *)
Definition items_full (l : list (GlobalAddress * list GlobalAddress)) : Prop :=
  Forall (λ b, length b.2 = 2%nat) (tail l).

Definition node_at h (n : bnode) (next : GlobalAddress) : Prop :=
  ∃ c, has h (bn_addr n) 0 c ∧ key_ c = bn_key n ∧ next_ c = next ∧
    items_rep h (items_list_ c) (bn_items n) ∧ bn_items n ≠ [] ∧ items_full (bn_items n).

(** The nodes [ns] from [p] to [q]. *)
Fixpoint seg h (p : GlobalAddress) (ns : list bnode) (q : GlobalAddress) : Prop :=
  match ns with
  | [] => p = q
  | n :: ns => p = bn_addr n ∧ ∃ r, node_at h n r ∧ seg h r ns q
  end.

Lemma seg_app h p ns1 ns2 q : seg h p (ns1 ++ ns2) q ↔ ∃ r, seg h p ns1 r ∧ seg h r ns2 q.
Proof.
  revert p. induction ns1 as [|n ns1 IH]; intros p; cbn.
  - split; [intros; by exists p|by intros (r & -> & ?)].
  - split.
    + intros (-> & r & Hn & (r' & H1 & H2)%IH). exists r'. split; [|done]. split; [done|]. by exists r.
    + intros (r' & (-> & r & Hn & H1) & H2). split; [done|]. exists r. split; [done|].
      apply IH. by exists r'.
Qed.

Lemma has_ext `{Pod T} h h' a off (x : T) : h' !! a = h !! a → has h a off x → has h' a off x.
Proof. intros E (bs & Hb & R). exists bs. by rewrite E. Qed.

Lemma items_rep_ext h h' p l :
  (∀ a, a ∈ l.*1 → h' !! a = h !! a) → items_rep h p l → items_rep h' p l.
Proof.
  revert p. induction l as [|[a ptrs] l IH]; intros p He; [done|]. cbn.
  intros (-> & it & Hi & Hc & Hl & Ht & Hr). split; [done|]. exists it.
  refine (conj _ (conj Hc (conj Hl (conj Ht _)))).
  - eapply has_ext; [|done]. apply He. by left.
  - apply IH; [|done]. intros b Hb. apply He. by right.
Qed.

Lemma node_at_ext h h' n q :
  (∀ a, a ∈ bn_addr n :: (bn_items n).*1 → h' !! a = h !! a) → node_at h n q → node_at h' n q.
Proof.
  intros He (c & Hc & Hk & Hq & Hi & Hn). exists c. split_and!; [|done|done| |by apply Hn..].
  - eapply has_ext; [|done]. apply He. by left.
  - eapply items_rep_ext; [|done]. intros a Ha. apply He. by right.
Qed.

Lemma foot_app ns1 ns2 : foot (ns1 ++ ns2) = foot ns1 ++ foot ns2.
Proof. apply bind_app. Qed.

Lemma foot_cons n ns : foot (n :: ns) = (bn_addr n :: (bn_items n).*1) ++ foot ns.
Proof. done. Qed.

Lemma seg_ext h h' p ns q : (∀ a, a ∈ foot ns → h' !! a = h !! a) → seg h p ns q → seg h' p ns q.
Proof.
  revert p. induction ns as [|n ns IH]; intros p He; [done|].
  intros (-> & r & Hn & Hs). split; [done|]. exists r. split.
  - eapply node_at_ext; [|done]. intros a Ha. apply He. rewrite foot_cons, elem_of_app. by left.
  - apply IH; [|done]. intros a Ha. apply He. rewrite foot_cons, elem_of_app. by right.
Qed.

Lemma items_blk h p l a : items_rep h p l → a ∈ l.*1 → ∃ n, blk h a n.
Proof.
  revert p. induction l as [|[b ptrs] l IH]; intros p; cbn; [by intros _ ?%elem_of_nil|].
  intros (-> & it & Hi & _ & _ & _ & Hr) [->|Ha]%elem_of_cons; [|by eapply IH].
  destruct (has_blk _ _ _ _ Hi) as (n & Hn & _). by exists n.
Qed.
End chains.

(** ** Searching a bucket *)
Lemma ga_eqb_spec a b : reflect (a = b) (ga_eqb a b).
Proof.
  unfold ga_eqb. destruct a as [x n], b as [y m]. cbn.
  destruct (Z.eqb_spec x y), (Z.eqb_spec n m); cbn; constructor; congruence.
Qed.

Definition last_addr (prev : GlobalAddress) (ns : list bnode) : GlobalAddress :=
  from_option bn_addr prev (last ns).

Lemma last_addr_cons prev n ns : last_addr (bn_addr n) ns = last_addr prev (n :: ns).
Proof. unfold last_addr. rewrite last_cons. by destruct (last ns). Qed.

Section bucket.
Context {S : Type} {J : Indeterminate} {G : GAlloc S} {GH : GHeap S}.
Implicit Types (s : S) (h : heap).

Lemma has_addr `{Pod T} s h a off (x : T) :
  heap_ok s h → has h a off x → ga_valid a ∧ a ≠ ga_Null ∧ GADD a 0 = a.
Proof.
  intros Hok Hx. destruct (has_blk _ _ _ _ Hx) as (n & Hb & _). by apply (blk_valid s h a n).
Qed.

Lemma wp_find_node fuel key s h prev p ns cn (Q : GlobalAddress * GlobalAddress * BucketNode → S → Prop) :
  heap_ok s h → seg h p ns ga_Null → (length ns ≤ fuel)%nat →
  (∀ ns1 n ns2 c s', ns = ns1 ++ n :: ns2 → Forall (λ n, bn_key n ≠ key) ns1 → bn_key n = key →
     has h (bn_addr n) 0 c → key_ c = key → items_rep h (items_list_ c) (bn_items n) →
     heap_ok s' h → room s' = room s → Q (last_addr prev ns1, bn_addr n, c) s') →
  (∀ c s', Forall (λ n, bn_key n ≠ key) ns → heap_ok s' h → room s' = room s →
     Q (last_addr prev ns, ga_Null, c) s') →
  wpd (find_node fuel key prev p cn) Q s.
Proof.
  revert fuel s prev p cn Q. induction ns as [|n ns IH]; intros fuel s prev p cn Q Hok Hs Hf Hfound Hend.
  - cbn in Hs. subst p. destruct fuel; cbn [find_node]; destruct (ga_eqb_spec ga_Null ga_Null); try done;
      wpd_step; by apply Hend.
  - destruct Hs as (-> & r & (c & Hc & Hk & Hr & Hi & _) & Hs). cbn in Hf. destruct fuel as [|fuel]; [lia|].
    destruct (has_addr s h _ _ _ Hok Hc) as (_ & Hnz & Ha). cbn [find_node].
    destruct (ga_eqb_spec (bn_addr n) ga_Null); [done|]. wpd_step.
    eapply (wp_load s h _ (bn_addr n) 0); [done|by symmetry|lia|done|]. intros s1 Hok1 Hr1.
    destruct (Z.eqb_spec (key_ c) key) as [E|E].
    + wpd_step. apply (Hfound [] n ns c); try done. congruence.
    + rewrite Hr. apply IH; [done|done|lia| |].
      * intros ns1 n' ns2 c' s' -> H1 H2 Hc' Hk' Hi' Hok' Hr'. rewrite (last_addr_cons prev).
        apply (Hfound (n :: ns1) n' ns2 c'); try done; [|congruence].
        constructor; [congruence|done].
      * intros c' s' H1 Hok' Hr'. rewrite (last_addr_cons prev). apply Hend; [|done|congruence].
        constructor; [congruence|done].
Qed.

Lemma content_app ns1 ns2 key :
  Forall (λ n, bn_key n ≠ key) ns1 → content (ns1 ++ ns2) key = content ns2 key.
Proof.
  induction 1 as [|n ns1 Hn _ IH]; [done|]. cbn. by destruct (Z.eqb_spec (bn_key n) key).
Qed.

Lemma content_none ns key : Forall (λ n, bn_key n ≠ key) ns → content ns key = [].
Proof. intros H. rewrite <-(app_nil_r ns). by rewrite content_app. Qed.

Lemma items_rep_cons h p l : items_rep h p l → l ≠ [] →
  ∃ ptrs l' it, l = (p, ptrs) :: l' ∧ has h p 0 it ∧ record_ptrs_count_ it = len ptrs ∧
    (0 < length ptrs ≤ 2)%nat ∧ take (length ptrs) (record_ptrs_ it) = ptrs ∧
    items_rep h (items_next_ it) l'.
Proof. destruct l as [|[a ptrs] l]; [done|]. cbn. intros (-> & it & R) _. by exists ptrs, l, it. Qed.

Lemma flat_cons a ps l : flat ((a, ps) :: l) = flat l ++ ps.
Proof. unfold flat. rewrite fmap_cons, reverse_cons, concat_app. cbn. by rewrite app_nil_r. Qed.

Lemma flat_full l : Forall (λ b, length b.2 = 2%nat) l → length (flat l) = (2 * length l)%nat.
Proof.
  induction 1 as [|[a ps] l Ha _ IH]; [done|]. cbn in Ha. rewrite flat_cons, length_app, IH, Ha. cbn. lia.
Qed.

(** The first pointer of the newest block. *)
Lemma newest_flat a ps l :
  (0 < length ps ≤ 2)%nat → Forall (λ b, length b.2 = 2%nat) l →
  newest (flat ((a, ps) :: l)) = nth 0 ps ga_Null.
Proof.
  intros Hp Hl. unfold newest. rewrite flat_cons, length_app, flat_full by done.
  assert ((2 * length l + length ps - 1) / 2 = length l)%nat as ->.
  { symmetry. apply (Nat.div_unique _ _ _ (length ps - 1)); lia. }
  rewrite app_nth2 by (rewrite flat_full by done; lia). f_equal. rewrite flat_full by done. lia.
Qed.

Lemma wp_SearchNode fuel key s h head ns (Q : option GlobalAddress → S → Prop) :
  heap_ok s h → seg h head ns ga_Null → (length ns ≤ fuel)%nat →
  (∀ r s', heap_ok s' h → room s' = room s →
     match r with
     | Some p => ∃ n, n ∈ ns ∧ items_rep h p (bn_items n) ∧ bn_items n ≠ [] ∧ items_full (bn_items n) ∧
                      content ns key = flat (bn_items n)
     | None => content ns key = []
     end → Q r s') →
  wpd (SearchNode fuel key head) Q s.
Proof.
  intros Hok Hs Hf HQ. unfold SearchNode. wpd_step. eapply wp_find_node; [done..| |].
  - intros ns1 n ns2 c s' -> H1 Hk Hc _ Hi Hok' Hr. destruct (has_addr s h _ _ _ Hok Hc) as (_ & Hnz & _).
    destruct (ga_eqb_spec (bn_addr n) ga_Null); [done|]. cbn [negb]. wpd_step.
    apply HQ; [done..|]. apply seg_app in Hs as (p & _ & -> & r & Hn & _).
    destruct Hn as (c' & Hc' & _ & _ & Hi' & Hne & Hfl). exists n. split_and!; [| |done|done|].
    + apply elem_of_app. right. by left.
    + done.
    + rewrite content_app by done. cbn. by destruct (Z.eqb_spec (bn_key n) key).
  - intros c s' H1 Hok' Hr. destruct (ga_eqb_spec ga_Null ga_Null); [|done]. cbn [negb]. wpd_step.
    apply HQ; [done..|]. by apply content_none.
Qed.

(** ** Insertion into a bucket *)
Definition bucket_ok h (head : GlobalAddress) (ns : list bnode) : Prop :=
  seg h head ns ga_Null ∧ NoDup (foot ns).

Record inserted h h' (ns ns' : list bnode) (key : Z) (ptr : GlobalAddress) : Prop := {
  in_old a : a ∉ foot ns → is_Some (h !! a) → h' !! a = h !! a;
  in_foot a : a ∈ foot ns → a ∈ foot ns';
  in_new a : a ∈ foot ns' → a ∈ foot ns ∨ h !! a = None;
  in_content key' : content ns' key' = if key' =? key then content ns key ++ [ptr] else content ns key';
  in_length : (length ns' ≤ length ns + 1)%nat;
}.

Lemma content_middle ns1 n n' ns2 key' :
  bn_key n' = bn_key n → Forall (λ m, bn_key m ≠ bn_key n) ns1 →
  content (ns1 ++ n' :: ns2) key' =
  if key' =? bn_key n then flat (bn_items n') else content (ns1 ++ n :: ns2) key'.
Proof.
  intros E H1. destruct (Z.eqb_spec key' (bn_key n)) as [->|Hne].
  - rewrite content_app by done. cbn. by destruct (Z.eqb_spec (bn_key n') (bn_key n)).
  - clear H1. induction ns1 as [|m ns1 IH]; cbn; [|by rewrite IH].
    rewrite E. destruct (Z.eqb_spec (bn_key n) key'); congruence.
Qed.

(** The node [n] of a bucket is replaced. *)
Lemma replace_node h h' head ns1 n n' ns2 ptr :
  bucket_ok h head (ns1 ++ n :: ns2) → Forall (λ m, bn_key m ≠ bn_key n) ns1 →
  bn_addr n' = bn_addr n → bn_key n' = bn_key n →
  flat (bn_items n') = flat (bn_items n) ++ [ptr] →
  (∀ a, a ∈ (bn_items n).*1 → a ∈ (bn_items n').*1) →
  (∀ a, a ∈ (bn_items n').*1 → a ∈ (bn_items n).*1 ∨ h !! a = None) → NoDup (bn_items n').*1 →
  (∀ a, a ∉ bn_addr n :: (bn_items n).*1 → is_Some (h !! a) → h' !! a = h !! a) →
  (∀ r, node_at h n r → node_at h' n' r) →
  (∀ a, a ∈ foot (ns1 ++ n :: ns2) → is_Some (h !! a)) →
  bucket_ok h' head (ns1 ++ n' :: ns2) ∧
  inserted h h' (ns1 ++ n :: ns2) (ns1 ++ n' :: ns2) (bn_key n) ptr.
Proof.
  intros [Hs Hd] H1 Ea Ek Hfl Hsub Hnew Hnd Hold Hat Hsome.
  rewrite foot_app, foot_cons in Hd. apply NoDup_app in Hd as (Hd1 & Hd12 & Hd).
  apply NoDup_app in Hd as (Hdn & Hdn2 & Hd2). apply NoDup_cons in Hdn as [Hna _].
  assert (∀ a, a ∈ foot ns1 ∨ a ∈ foot ns2 → h' !! a = h !! a) as Hkeep.
  { intros a Ha. apply Hold.
    - intros Hin. destruct Ha as [Ha|Ha]; [eapply Hd12; [exact Ha|]|by eapply Hdn2].
      apply elem_of_app. by left.
    - apply Hsome. rewrite foot_app, foot_cons, !elem_of_app. tauto. }
  assert (∀ a, a ∈ bn_addr n' :: (bn_items n').*1 → a ∈ bn_addr n :: (bn_items n).*1 ∨ h !! a = None) as Hsub'.
  { intros a [->|Ha]%elem_of_cons; [rewrite Ea; left; by left|].
    destruct (Hnew a Ha); [left; by right|by right]. }
  split; [split|split].
  - apply seg_app in Hs as (p & Hs1 & -> & r & Hn & Hs2). apply seg_app. exists (bn_addr n). split.
    + eapply seg_ext; [|done]. auto.
    + split; [done|]. exists r. split; [by apply Hat|]. eapply seg_ext; [|done]. auto.
  - rewrite foot_app, foot_cons. apply NoDup_app. split_and!; [done| |apply NoDup_app; split_and!; [|..|done]].
    + intros a Ha [Hin|Hin]%elem_of_app.
      * destruct (Hsub' a Hin) as [?|Hnone]; [eapply Hd12; [exact Ha|]; apply elem_of_app; by left|].
        destruct (Hsome a) as [? E]; [rewrite foot_app, elem_of_app; by left|]. by rewrite Hnone in E.
      * eapply Hd12; [exact Ha|]. apply elem_of_app. by right.
    + apply NoDup_cons. split; [|done]. rewrite Ea. intros Hin. destruct (Hnew _ Hin) as [?|Hnone]; [done|].
      destruct (Hsome (bn_addr n)) as [? E]; [|by rewrite Hnone in E].
      rewrite foot_app, foot_cons, elem_of_app. right. by left.
    + intros a Ha Hin. destruct (Hsub' a Ha) as [?|Hnone]; [by eapply Hdn2|].
      destruct (Hsome a) as [? E]; [|by rewrite Hnone in E].
      rewrite foot_app, foot_cons, !elem_of_app. tauto.
  - intros a Ha Hx. apply Hold; [|done]. intros Hin. apply Ha. rewrite foot_app, foot_cons, !elem_of_app. tauto.
  - intros a. rewrite !foot_app, !foot_cons, !elem_of_app, !elem_of_cons, Ea. naive_solver.
  - intros a. rewrite !foot_app, !foot_cons, !elem_of_app. naive_solver.
  - intros key'. rewrite (content_middle ns1 n) by done. destruct (Z.eqb_spec key' (bn_key n)); [|done].
    rewrite (content_app ns1) by done. cbn. by rewrite Z.eqb_refl.
  - rewrite !length_app. cbn. lia.
Qed.
Lemma seg_some h p ns q a : seg h p ns q → a ∈ foot ns → is_Some (h !! a).
Proof.
  revert p. induction ns as [|n ns IH]; intros p; [by intros _ ?%elem_of_nil|].
  intros (-> & r & (c & (bs & Hb & _) & _ & _ & Hi & _) & Hs).
  rewrite foot_cons, elem_of_app, elem_of_cons. intros [[->|Ha]|Ha]; [by exists bs| |by eapply IH].
  destruct (items_blk _ _ _ _ Hi Ha) as (n' & bs' & Hb' & _). by exists bs'.
Qed.

(** A node is appended: the last node, if there is one, now leads to it. *)
Lemma append_node h h' head ns n ptr :
  bucket_ok h head ns → Forall (λ m, bn_key m ≠ bn_key n) ns →
  flat (bn_items n) = [ptr] → NoDup (foot [n]) → (∀ a, a ∈ foot [n] → h !! a = None) →
  (∀ a, a ∉ foot ns → is_Some (h !! a) → h' !! a = h !! a) →
  node_at h' n ga_Null → seg h' (if ns is [] then bn_addr n else head) ns (bn_addr n) →
  bucket_ok h' (if ns is [] then bn_addr n else head) (ns ++ [n]) ∧
  inserted h h' ns (ns ++ [n]) (bn_key n) ptr.
Proof.
  intros [Hs Hd] Hk Hfl Hnd Hfresh Hold Hn Hs'. split; [split|split].
  - apply seg_app. exists (bn_addr n). split; [done|]. split; [done|]. by exists ga_Null.
  - rewrite foot_app. apply NoDup_app. split_and!; [done| |done]. intros a Ha Hin.
    destruct (seg_some _ _ _ _ _ Hs Ha) as [? E]. by rewrite (Hfresh a Hin) in E.
  - done.
  - intros a Ha. rewrite foot_app, elem_of_app. by left.
  - intros a. rewrite foot_app, elem_of_app. intros [?|?]; [by left|right; auto].
  - intros key'. destruct (Z.eqb_spec key' (bn_key n)) as [->|Hne].
    + rewrite content_app, (content_none ns) by done. cbn. by rewrite Z.eqb_refl, Hfl.
    + clear -Hne. induction ns as [|m ns IH]; cbn.
      * by destruct (Z.eqb_spec (bn_key n) key').
      * by rewrite IH.
  - rewrite length_app. cbn. lia.
Qed.

(** ** [InsertNode] *)
Lemma wp_alloc_items s h ptr next (Q : GlobalAddress → S → Prop) :
  heap_ok s h → ga_valid ptr → ga_valid next → sizeof Items ≤ room s →
  (∀ a h' s' it, h !! a = None → ga_valid a → heap_ok s' h' → has h' a 0 it →
     record_ptrs_count_ it = 1 → record_ptrs_ it = [ptr; indet_addr] → items_next_ it = next →
     (∀ b, b ≠ a → h' !! b = h !! b) → room s - sizeof Items ≤ room s' → Q a s') →
  wpd (alloc_items ptr next) Q s.
Proof.
  intros Hok Hp Hn Hr HQ. unfold alloc_items, AddRecordPtr. cbn [new_items items_Init record_ptrs_count_].
  wpd_step. wpd_step. apply wpd_assert; [done|]. cbn [Z.eqb SLOT_NUM]. wpd_step. apply wpd_assert; [done|].
  wpd_step. eapply wpd_in_array; [reflexivity|]. wpd_step. cbn beta iota.
  eapply (wp_new s h (mk_Items [ptr; indet_addr] 1 next)); [done|by vm_compute|done| |].
  { apply valid_Items; [done|apply indet_addr_valid|unfold fits; lia|done]. }
  intros a h' s' Ha Hnz Hv Hok' Hi Hold Hr'. wpd_step.
  by apply (HQ a h' s' (mk_Items [ptr; indet_addr] 1 next)).
Qed.

Lemma items_valid i : valid i →
  (length (record_ptrs_ i) = 2)%nat ∧ Forall ga_valid (record_ptrs_ i) ∧
  fits 64 (record_ptrs_count_ i) ∧ ga_valid (items_next_ i).
Proof. intros [[? ?] [? ?]]. done. Qed.

(** An existing node: the pointer goes into its newest block, or into a new one. *)
Lemma wp_insert_existing s h head ns1 n ns2 c ptr (Q : unit → S → Prop) :
  heap_ok s h → bucket_ok h head (ns1 ++ n :: ns2) → Forall (λ m, bn_key m ≠ bn_key n) ns1 →
  has h (bn_addr n) 0 c → items_rep h (items_list_ c) (bn_items n) → ga_valid ptr → sizeof Items ≤ room s →
  (∀ n' h' s', heap_ok s' h' → bucket_ok h' head (ns1 ++ n' :: ns2) →
     inserted h h' (ns1 ++ n :: ns2) (ns1 ++ n' :: ns2) (bn_key n) ptr →
     room s - sizeof Items ≤ room s' → Q () s') →
  wpd (insert_existing ptr (bn_addr n) c) Q s.
Proof.
  intros Hok Hb H1 Hc Hi Hp Hr HQ. pose proof Hb as [Hs Hd].
  pose proof (λ a, seg_some h head _ _ a Hs) as Hsome.
  rewrite foot_app, foot_cons in Hd. apply NoDup_app in Hd as (_ & _ & Hd).
  apply NoDup_app in Hd as (Hdn & _ & _). apply NoDup_cons in Hdn as [Hna Hdi].
  assert (bn_items n ≠ [] ∧ items_full (bn_items n)) as [Hne Hfull].
  { apply seg_app in Hs as (p & _ & -> & r & (c' & _ & _ & _ & _ & ? & ?) & _). done. }
  destruct (items_rep_cons _ _ _ Hi Hne) as (ptrs & l & it & El & Hit & Hcount & Hlen & Htake & Hrest).
  set (b := items_list_ c) in *. rewrite El in Hna, Hdi. cbn in Hna, Hdi.
  apply not_elem_of_cons in Hna as [Hnb Hnl]. apply NoDup_cons in Hdi as [Hbl Hdl].
  destruct (items_valid it (has_valid _ _ _ _ Hit)) as (Hl2 & Hpv & Hcv & Hnv).
  destruct (has_addr s h _ _ _ Hok Hit) as (Hbv & Hbnz & Hb0).
  unfold insert_existing. wpd_step. eapply (wp_load s h _ b 0); [done|by symmetry|lia|done|]. intros s1 Hok1 Hr1. wpd_step.
  unfold AddRecordPtr. wpd_step. change SLOT_NUM with 2. rewrite Hcount.
  apply wpd_assert; [apply Z.leb_le; lia|].
  destruct (Z.eqb_spec (len ptrs) 2) as [E2|E2].
  - (* the block is full *)
    wpd_step. cbn beta iota. wpd_step. eapply wp_alloc_items; [done..|rewrite Hr1; done|].
    intros a h' s2 it' Ha Hav Hok2 Hit' Hc' Hp' Hn' Hold Hr2.
    assert (a ≠ bn_addr n) as Han by (intros ->; destruct Hc as (? & E & _); congruence).
    assert (has h' (bn_addr n) 0 c) as Hc2 by (eapply has_ext; [|done]; by apply Hold).
    pose proof (has_valid _ _ _ _ Hc) as (Hkv & Hxv & _).
    eapply wp_update; [done|exact Hc2|by apply valid_BucketNode|].
    intros h2 s3 Hok3 Hc3 Hold2 Hr3.
    destruct (replace_node h h2 head ns1 n (mk_bnode (bn_addr n) (bn_key n) ((a, [ptr]) :: bn_items n)) ns2 ptr)
      as [Hb' Hin]; try done.
    + cbn [bn_items]. by rewrite flat_cons.
    + intros x Hx. by right.
    + intros x. cbn. rewrite elem_of_cons. intros [->|?]; [by right|by left].
    + cbn. apply NoDup_cons. split.
      * intros Hin. destruct (items_blk _ _ _ _ Hi Hin) as (? & ? & E & _). congruence.
      * rewrite El. cbn. by apply NoDup_cons.
    + intros x Hx [? Hxs]. rewrite Hold2; [apply Hold|]; [congruence|]. intros ->. apply Hx. by left.
    + intros r (c' & Hc'' & Hk' & Hr' & _ & _ & _). exists (mk_BucketNode (key_ c) (next_ c) a). cbn.
      assert (c' = c) as ->.
      { destruct Hc as (bs & E & _ & _ & E' & Hv), Hc'' as (bs' & F & _ & _ & F' & Hv').
        rewrite <-(of_to_bytes c Hv), <-(of_to_bytes c' Hv'). congruence. }
      split_and!; try done.
      * exists it'. split_and!.
        -- eapply has_ext; [|done]. by apply Hold2.
        -- by rewrite Hc'.
        -- cbn. lia.
        -- cbn. lia.
        -- by rewrite Hp'.
        -- rewrite Hn'. eapply items_rep_ext; [|exact Hi]. intros x Hx.
           destruct (items_blk _ _ _ _ Hi Hx) as (? & ? & E & _).
           rewrite Hold2, Hold; [done|congruence|]. intros ->. rewrite El in Hx. cbn in Hx.
           apply elem_of_cons in Hx as [?|?]; congruence.
      * rewrite El. constructor; [cbn; lia|]. rewrite El in Hfull. exact Hfull.
    + by eapply HQ; [..|lia].
  - (* there is a free slot *)
    assert (∃ p0, ptrs = [p0]) as [p0 ->].
    { destruct ptrs as [|p0 [|p1 [|]]]; cbn in Hlen, E2; [lia|by exists p0|done|lia]. }
    cbn in Hcount, Htake. destruct (record_ptrs_ it) as [|q0 [|q1 [|]]] eqn:Eit; try done.
    injection Htake as <-. wpd_step. apply wpd_assert; [done|]. wpd_step.
    eapply wpd_in_array; [reflexivity|]. wpd_step. cbn beta iota.
    apply Forall_cons in Hpv as [Hq0 Hpv].
    eapply wp_update; [done|exact Hit| |].
    { cbn. apply valid_Items; [done|done|unfold fits; lia|done]. }
    intros h2 s3 Hok3 Hit3 Hold2 Hr3.
    destruct (replace_node h h2 head ns1 n (mk_bnode (bn_addr n) (bn_key n) ((b, [q0; ptr]) :: l)) ns2 ptr)
      as [Hb' Hin]; try done.
    + cbn [bn_items]. by rewrite El, !flat_cons, <-app_assoc.
    + by rewrite El.
    + rewrite El. intros x. by left.
    + cbn. by apply NoDup_cons.
    + intros x Hx [? Hxs]. apply Hold2. intros ->. apply Hx. rewrite El. cbn. right. by left.
    + intros r (c' & Hc'' & Hk' & Hr' & Hi' & _). exists c'. rewrite El in Hi'.
      assert (items_list_ c' = b) as Eb by by destruct Hi'.
      split_and!; [eapply has_ext; [by apply Hold2|done]|done|done| |done|].
      * split; [done|]. eexists. split_and!; [exact Hit3|done|cbn; lia|cbn; lia|done|].
        eapply items_rep_ext; [|exact Hrest]. intros x Hx. apply Hold2. by intros ->.
      * rewrite El in Hfull. exact Hfull.
    + eapply HQ; [done..|]. pose proof (sizeof_pos (T := Items)). lia.
Qed.

Lemma last_snoc_node prev ns n : last_addr prev (ns ++ [n]) = bn_addr n.
Proof. unfold last_addr. by rewrite last_snoc. Qed.

(** A new node: what the heap is like once it is in memory and not yet linked. *)
Lemma new_node_facts h h1 h2 a b key ptr it ns :
  Forall (λ m, bn_key m ≠ key) ns →
  h !! a = None → h1 !! b = None → has h1 a 0 it →
  record_ptrs_count_ it = 1 → record_ptrs_ it = [ptr; indet_addr] → items_next_ it = ga_Null →
  (∀ x, x ≠ a → h1 !! x = h !! x) → (∀ x, x ≠ b → h2 !! x = h1 !! x) →
  has h2 b 0 (mk_BucketNode key ga_Null a) →
  let n := mk_bnode b key [(a, [ptr])] in
  (∀ x, x ∈ foot [n] → h !! x = None) ∧ NoDup (foot [n]) ∧
  (∀ x, is_Some (h !! x) → h2 !! x = h !! x) ∧
  (∀ h3, h3 !! a = h2 !! a → h3 !! b = h2 !! b → node_at h3 n ga_Null).
Proof.
  intros Hk Ha Hb Hit Hc Hp Hn Hold Hold2 Hnode n.
  assert (a ≠ b) as Hab by (intros ->; destruct Hit as (? & E & _); congruence).
  assert (h !! b = None) as Hb0 by (by rewrite <-Hold by congruence).
  split_and!.
  - intros x. cbn. rewrite !elem_of_cons. intros [->|[->|?%elem_of_nil]]; done.
  - cbn. apply NoDup_cons. split; [|apply NoDup_singleton]. intros ?%list_elem_of_singleton. congruence.
  - intros x [? Hx]. rewrite Hold2, Hold; congruence.
  - intros h3 E1 E2. eexists. split_and!; [eapply has_ext; [exact E2|exact Hnode]|done|done| |done|].
    + split; [done|]. exists it. split_and!; [|done|cbn; lia|cbn; lia|by rewrite Hp|by rewrite Hn].
      eapply has_ext; [|exact Hit]. rewrite E1. by apply Hold2.
    + constructor.
Qed.

(** The last node of a chain gets a successor. *)
Lemma seg_relink h h3 head ns m r cm b :
  seg h head (ns ++ [m]) r → NoDup (foot (ns ++ [m])) → has h (bn_addr m) 0 cm →
  has h3 (bn_addr m) 0 (mk_BucketNode (key_ cm) b (items_list_ cm)) →
  (∀ x, is_Some (h !! x) → x ≠ bn_addr m → h3 !! x = h !! x) →
  seg h3 head (ns ++ [m]) b.
Proof.
  intros Hs Hd Hcm Hm Hold. apply seg_app in Hs as (p & Hs0 & -> & r' & (c & Hc & Hk & Hr & Hi & Hne & Hf) & _).
  assert (c = cm) as ->.
  { destruct Hcm as (bs & E & _ & _ & E' & Hv), Hc as (bs' & F & _ & _ & F' & Hv').
    rewrite <-(of_to_bytes cm Hv), <-(of_to_bytes c Hv'). congruence. }
  rewrite foot_app, foot_cons in Hd. apply NoDup_app in Hd as (Hd0 & Hd0m & Hdm).
  apply NoDup_app in Hdm as (Hdm & _ & _). apply NoDup_cons in Hdm as [Hmi _].
  apply seg_app. exists (bn_addr m). split.
  - eapply seg_ext; [|done]. intros x Hx. apply Hold; [by eapply seg_some|].
    intros ->. eapply Hd0m; [exact Hx|]. rewrite elem_of_app. left. by left.
  - split; [done|]. exists b. split; [|done]. eexists. split_and!; [exact Hm|done|done| |done|done]. cbn.
    eapply items_rep_ext; [|exact Hi]. intros x Hx. apply Hold.
    + destruct (items_blk _ _ _ _ Hi Hx) as (? & ? & ? & _). by eexists.
    + intros ->. done.
Qed.

Lemma wp_insert_new s h head ns key ptr (Q : GlobalAddress → S → Prop) :
  heap_ok s h → bucket_ok h head ns → Forall (λ m, bn_key m ≠ key) ns → fits 64 key → ga_valid ptr →
  sizeof Items + sizeof BucketNode ≤ room s →
  (∀ head' n h' s', heap_ok s' h' → bucket_ok h' head' (ns ++ [n]) →
     inserted h h' ns (ns ++ [n]) key ptr → (ga_valid head → ga_valid head') →
     room s - (sizeof Items + sizeof BucketNode) ≤ room s' → Q head' s') →
  wpd (insert_new key ptr head (last_addr ga_Null ns)) Q s.
Proof.
  intros Hok Hb H1 Hkey Hp Hr HQ. pose proof Hb as [Hs Hd].
  assert (ga_valid ga_Null) as HNull by (split; cbn; unfold fits; lia).
  pose proof (sizeof_pos (T := Items)). pose proof (sizeof_pos (T := BucketNode)).
  unfold insert_new. wpd_step. eapply wp_alloc_items; [done|done|done|lia|].
  intros a h1 s2 it Ha Hav Hok2 Hit Hc2 Hp2 Hn2 Hold Hr2. cbv zeta.
  eapply (wp_new s2 h1 (mk_BucketNode (key_ (node_Init key)) (next_ (node_Init key)) a));
    [done|by vm_compute|lia|by apply valid_BucketNode|].
  intros b h2 s3 Hb2 Hbnz Hbv Hok3 Hnode Hold2 Hr3.
  destruct (new_node_facts h h1 h2 a b key ptr it ns) as (Hfresh & Hnd & Hkeep & Hat); try done.
  set (n := mk_bnode b key [(a, [ptr])]) in *.
  destruct ns as [|m ns0 _] using rev_ind.
  - cbn in Hs. subst head. cbn.
    destruct (append_node h h2 ga_Null [] n ptr) as [Hb' Hin]; try done.
    { intros x _ ?. by apply Hkeep. }
    { by apply Hat. }
    eapply (HQ b n h2); [done..|lia].
  - rewrite last_snoc_node.
    assert (∃ cm, has h (bn_addr m) 0 cm ∧ next_ cm = ga_Null) as (cm & Hcm & Hrm).
    { apply seg_app in Hs as (p & _ & -> & r & (cm & ? & _ & Hrm & _) & E). exists cm.
      cbn in E. by rewrite <-E. }
    destruct (has_addr s h _ _ _ Hok Hcm) as (_ & Hmnz & Hm0).
    destruct (ga_eqb_spec (bn_addr m) ga_Null); [done|]. cbn [negb]. wpd_step.
    assert (is_Some (h !! bn_addr m)) as Hms by (destruct Hcm as (? & ? & _); by eexists).
    assert (has h2 (bn_addr m) 0 cm) as Hcm2 by (eapply has_ext; [by apply Hkeep|done]).
    pose proof (has_valid _ _ _ _ Hcm) as (Hkv & Hxv & Hiv).
    eapply (wp_load s3 h2 _ (bn_addr m) 0); [done|by symmetry|lia|done|]. intros s4 Hok4 Hr4. wpd_step.
    rewrite Hrm. apply wpd_assert; [done|]. wpd_step.
    eapply wp_update; [done|exact Hcm2|by apply valid_BucketNode|].
    intros h3 s5 Hok5 Hm3 Hold3 Hr5. wpd_step.
    assert (∀ x, x ∈ foot [n] → h3 !! x = h2 !! x) as H32.
    { intros x Hx. apply Hold3. intros ->. rewrite (Hfresh _ Hx) in Hms. by destruct Hms. }
    assert ((if ns0 ++ [m] is [] then bn_addr n else head) = head) as Eh by by destruct ns0.
    destruct (append_node h h3 head (ns0 ++ [m]) n ptr) as [Hb' Hin]; try done.
    { intros x Hx Hxs. rewrite Hold3; [by apply Hkeep|]. intros ->. apply Hx.
      rewrite foot_app, foot_cons, !elem_of_app. right. left. by left. }
    { apply Hat; apply H32; cbn; rewrite !elem_of_cons; auto. }
    { rewrite Eh. eapply seg_relink; [done..|]. intros x Hx Hxm. by rewrite Hold3, Hkeep. }
    rewrite Eh in Hb'. eapply (HQ head n h3); [done..|]. lia.
Qed.

Lemma wp_InsertNode fuel key ptr s h head ns (Q : bool * GlobalAddress → S → Prop) :
  heap_ok s h → bucket_ok h head ns → (length ns ≤ fuel)%nat → fits 64 key → ga_valid ptr →
  sizeof Items + sizeof BucketNode ≤ room s →
  (∀ head' ns' h' s', heap_ok s' h' → bucket_ok h' head' ns' → inserted h h' ns ns' key ptr →
     (ga_valid head → ga_valid head') →
     room s - (sizeof Items + sizeof BucketNode) ≤ room s' →
     Q (bool_decide (content ns key = []), head') s') →
  wpd (InsertNode fuel key ptr head) Q s.
Proof.
  intros Hok Hb Hf Hkey Hp Hr HQ. pose proof Hb as [Hs Hd].
  pose proof (sizeof_pos (T := Items)). pose proof (sizeof_pos (T := BucketNode)).
  unfold InsertNode. wpd_step. eapply wp_find_node; [done..| |].
  - intros ns1 n ns2 c s1 -> H1 <- Hc Hk Hi Hok1 Hr1.
    destruct (has_addr s h _ _ _ Hok Hc) as (_ & Hnz & _).
    destruct (ga_eqb_spec (bn_addr n) ga_Null); [done|]. cbn [negb]. wpd_step.
    eapply wp_insert_existing; [done..|lia|]. intros n' h' s' Hok' Hb' Hin Hr'. wpd_step.
    assert (content (ns1 ++ n :: ns2) (bn_key n) ≠ []) as Hne.
    { apply seg_app in Hs as (p & _ & -> & r & (c' & _ & _ & _ & Hi' & Hne & _) & _).
      rewrite content_app by done. cbn. rewrite Z.eqb_refl.
      destruct (items_rep_cons _ _ _ Hi' Hne) as (ptrs & l & it & El & _ & _ & Hl & _).
      rewrite El, flat_cons. intros [_ ->]%app_nil. cbn in Hl. lia. }
    specialize (HQ head _ h' s' Hok' Hb' Hin). rewrite bool_decide_false in HQ by done. apply HQ; [done|lia].
  - intros c s1 H1 Hok1 Hr1. destruct (ga_eqb_spec ga_Null ga_Null); [|done]. cbn [negb].
    wpd_step. eapply wp_insert_new; [done..|lia|]. intros head' n h' s' Hok' Hb' Hin Hv Hr'. wpd_step.
    specialize (HQ head' _ h' s' Hok' Hb' Hin). rewrite bool_decide_true in HQ by by apply content_none.
    apply HQ; [done|lia].
Qed.
End bucket.

(** ** The index as a map from keys to the pointers added for them *)
Section index_map.
Context {S : Type} {J : Indeterminate} {G : GAlloc S} {GH : GHeap S}.
Implicit Types (s : S) (h : heap) (m : Z → list GlobalAddress).

Record index_ok (k : nat) h (ix : HashIndex) (nd : Z → Z → GlobalAddress) (bs : Z → list bnode) m
    : Prop := {
  ix_arr : arr_ok h (buckets_ ix) nd;
  ix_size : array_size_ (buckets_ ix) = buckets_count_ ix;
  ix_elem : element_size_ (buckets_ ix) = bucket_size;
  ix_bucket i : 0 ≤ i < buckets_count_ ix →
    ∃ head, has h (elem_block (buckets_ ix) nd i) (elem_offset (buckets_ ix) i) head ∧
      bucket_ok h head (bs i);
  ix_apart i a : 0 ≤ i < buckets_count_ ix → a ∈ foot (bs i) → ¬ in_tree (buckets_ ix) nd a;
  ix_disjoint i j a : 0 ≤ i < buckets_count_ ix → 0 ≤ j < buckets_count_ ix → i ≠ j →
    a ∈ foot (bs i) → a ∉ foot (bs j);
  ix_content key : m key = content (bs (key mod buckets_count_ ix)) key;
  ix_length i : 0 ≤ i < buckets_count_ ix → (length (bs i) ≤ k)%nat;
  ix_words : fits 64 (buckets_count_ ix) ∧ fits 64 (record_count_ ix);
}.

Definition index_own (ix : HashIndex) nd (bs : Z → list bnode) (a : GlobalAddress) : Prop :=
  in_tree (buckets_ ix) nd a ∨ ∃ i, 0 ≤ i < buckets_count_ ix ∧ a ∈ foot (bs i).

(** [ix] is an index with the content [m] in the blocks [own]; no chain is longer than [k]. *)
Definition index_rep (k : nat) h (ix : HashIndex) (own : GlobalAddress → Prop) m : Prop :=
  ∃ nd bs, index_ok k h ix nd bs m ∧ ∀ a, own a ↔ index_own ix nd bs a.

Definition map_add m (key : Z) (ptr : GlobalAddress) : Z → list GlobalAddress :=
  λ key', if key' =? key then m key ++ [ptr] else m key'.

Lemma in_tree_some h arr nd a : arr_ok h arr nd → in_tree arr nd a → is_Some (h !! a).
Proof.
  intros Ok (l & i & Hb & ->). destruct (tr_blk _ _ _ _ _ (ao_tree _ _ _ Ok) _ _ Hb) as (? & ? & _).
  by eexists.
Qed.

Lemma index_count k h ix nd bs m : index_ok k h ix nd bs m → 0 < buckets_count_ ix.
Proof. intros [[_ [? _] _ _ _ _] E _ _ _ _ _ _ _]. by rewrite <-E. Qed.

Lemma index_own_some k h ix nd bs m a : index_ok k h ix nd bs m → index_own ix nd bs a → is_Some (h !! a).
Proof.
  intros I [Ht|(i & Hi & Ha)]; [by eapply in_tree_some; [apply I|]|].
  destruct (ix_bucket _ _ _ _ _ _ I i Hi) as (head & _ & Hs & _). by eapply seg_some.
Qed.

(** The slot of bucket [i] and its place. *)
Lemma index_slot k h ix nd bs m i :
  index_ok k h ix nd bs m → 0 ≤ i < buckets_count_ ix →
  let a := elem_block (buckets_ ix) nd i in
  in_tree (buckets_ ix) nd a ∧ 0 ≤ elem_offset (buckets_ ix) i ∧
  ∃ n, blk h a n ∧ elem_offset (buckets_ ix) i + bucket_size ≤ n.
Proof.
  intros I Hi a. destruct (elem_in_block h (buckets_ ix) nd i) as (n & Hb & H0 & Hn & Ht);
    [apply I|by rewrite (ix_size _ _ _ _ _ _ I)|].
  rewrite (ix_elem _ _ _ _ _ _ I) in Hn. split_and!; [done|done|by exists n].
Qed.

(** A bucket is replaced in memory and its head stored. *)
Lemma index_update k h h1 ix nd bs m i ns' key ptr head' :
  index_ok k h ix nd bs m → 0 ≤ i < buckets_count_ ix → key mod buckets_count_ ix = i →
  inserted h h1 (bs i) ns' key ptr → bucket_ok h1 head' ns' → ga_valid head' →
  let h2 := put (elem_block (buckets_ ix) nd i) (elem_offset (buckets_ ix) i) (to_bytes head') h1 in
  let bs' := λ j, if j =? i then ns' else bs j in
  let ix' := mk_HashIndex (buckets_ ix) (buckets_count_ ix) (wrap 64 (record_count_ ix + 1)) in
  index_ok (k + 1) h2 ix' nd bs' (map_add m key ptr) ∧
  (∀ a, index_own ix nd bs a → index_own ix' nd bs' a) ∧
  (∀ a, index_own ix' nd bs' a → index_own ix nd bs a ∨ h !! a = None) ∧
  (∀ a, ¬ index_own ix nd bs a → is_Some (h !! a) → h2 !! a = h !! a).
Proof.
  intros I Hi Hkey [Hold Hfoot Hnew Hcont Hlen] [Hs' Hd'] Hv h2 bs' ix'. pose proof I as [A Es Ee B Ap Dj Ct Ln [Wb Wr]].
  destruct (index_slot k h ix nd bs m i I Hi) as (Ht & H0 & n & Hb & Hn).
  set (p := elem_block (buckets_ ix) nd i) in *. set (off := elem_offset (buckets_ ix) i) in *.
  assert (len (to_bytes head') = bucket_size) as Hl by exact (to_bytes_len head' Hv).
  assert (∀ a, in_tree (buckets_ ix) nd a → h1 !! a = h !! a) as Htree.
  { intros a Ha. apply Hold; [|by eapply in_tree_some]. intros Hin. by eapply Ap. }
  assert (∀ a, ¬ in_tree (buckets_ ix) nd a → h2 !! a = h1 !! a) as H21.
  { intros a Ha. apply put_lookup_ne. intros ->. done. }
  assert (blk h1 p n) as Hb1 by (destruct Hb as (x & E & Hx); exists x; by rewrite Htree).
  assert (∀ a, a ∈ foot ns' → ¬ in_tree (buckets_ ix) nd a) as Hap.
  { intros a Ha Hin. destruct (Hnew a Ha) as [?|E]; [by eapply Ap|].
    destruct (in_tree_some h (buckets_ ix) nd a A Hin) as [? E']. congruence. }
  assert (∀ j a, 0 ≤ j < buckets_count_ ix → j ≠ i → a ∈ foot (bs j) →
    (a ∉ foot ns') ∧ h2 !! a = h !! a) as Hoth.
  { intros j a Hj Hne Ha. pose proof (Ap j a Hj Ha) as Hnt. destruct (B j Hj) as (hd & _ & Hsj & _).
    pose proof (seg_some _ _ _ _ _ Hsj Ha) as Hsm. assert (a ∉ foot (bs i)) as Hai by (by eapply (Dj j i)).
    split; [|rewrite H21 by done; by apply Hold].
    intros Hin. destruct (Hnew a Hin) as [?|E]; [done|]. rewrite E in Hsm. by destruct Hsm. }
  assert (arr_ok h1 (buckets_ ix) nd) as A1.
  { eapply arr_ok_ext; [exact A| |].
    - intros a x Ha (d & E & Hx). exists d. by rewrite Htree.
    - intros l j Hlj _. apply Htree. by eexists _, _. }
  split_and!; [split|..]; cbn [buckets_ buckets_count_ ix'].
  - unfold h2. apply arr_ok_put_elem; [done|by rewrite Es|by rewrite Ee].
  - done.
  - done.
  - intros j Hj. unfold bs'. destruct (Z.eqb_spec j i) as [->|Hne].
    + exists head'. split; [by eapply has_put_same|]. split; [|done].
      eapply seg_ext; [|exact Hs']. intros a Ha. by apply H21, Hap.
    + destruct (B j Hj) as (hd & Hhd & Hsj & Hdj). exists hd. split; [|split; [|done]].
      * eapply has_put_other; [exact Hb1|done|lia| |].
        -- eapply has_ext; [|exact Hhd]. apply Htree. by apply (index_slot k h ix nd bs m j).
        -- change (sizeof GlobalAddress) with bucket_size. rewrite Hl, <-Ee. eapply elems_apart; [exact A|by rewrite Es..|congruence].
      * eapply seg_ext; [|exact Hsj]. intros a Ha. by eapply Hoth.
  - intros j a Hj. unfold bs'. destruct (Z.eqb_spec j i) as [->|Hne]; [apply Hap|by apply Ap].
  - intros j j' a Hj Hj' Hne. unfold bs'. destruct (Z.eqb_spec j i) as [->|], (Z.eqb_spec j' i) as [->|].
    + done.
    + intros Ha Ha'. by destruct (Hoth j' a Hj' ltac:(done) Ha').
    + intros Ha. by destruct (Hoth j a Hj ltac:(done) Ha).
    + by apply Dj.
  - intros key'. unfold map_add, bs'. rewrite (Ct key), Hkey, (Ct key').
    destruct (Z.eqb_spec key' key) as [->|Hne].
    + rewrite Hkey, Z.eqb_refl, Hcont. by rewrite Z.eqb_refl.
    + destruct (Z.eqb_spec (key' mod buckets_count_ ix) i) as [->|]; [|done].
      rewrite Hcont. by destruct (Z.eqb_spec key' key).
  - intros j Hj. unfold bs'. pose proof (Ln j Hj). destruct (Z.eqb_spec j i) as [->|]; lia.
  - split; [done|]. by apply wrap_fits.
  - intros a [?|(j & Hj & Ha)]; [by left|]. right. exists j. split; [done|]. unfold bs'.
    destruct (Z.eqb_spec j i) as [->|]; [by apply Hfoot|done].
  - intros a [?|(j & Hj & Ha)]; [by left; left|]. unfold bs' in Ha. cbn in Hj.
    destruct (Z.eqb_spec j i) as [->|]; [|left; right; by exists j].
    destruct (Hnew a Ha); [left; right; by exists i|by right].
  - intros a Ha Hsm. rewrite H21 by (intros ?; apply Ha; by left). apply Hold; [|done].
    intros Hin. apply Ha. right. by exists i.
Qed.
(** ** The operations of the index *)

(** A lock that is taken and changes nothing. *)
Definition lock_returns (lock : GlobalAddress → Z → DB S unit) : Prop :=
  ∀ a n s h (Q : unit → S → Prop), heap_ok s h →
    (∀ s', heap_ok s' h → room s' = room s → Q () s') → wpd (lock a n) Q s.

Definition insert_room : Z := sizeof Items + sizeof BucketNode.

Lemma wp_index_insert lock k fuel key ptr s h ix own m (Q : bool * HashIndex → S → Prop) :
  heap_ok s h → index_rep k h ix own m → lock_returns lock → (k ≤ fuel)%nat →
  fits 64 key → ga_valid ptr → insert_room ≤ room s →
  (∀ own' h' s', let ix' := mk_HashIndex (buckets_ ix) (buckets_count_ ix) (wrap 64 (record_count_ ix + 1)) in
     heap_ok s' h' → index_rep (k + 1) h' ix' own' (map_add m key ptr) →
     (∀ a, own' a → own a ∨ h !! a = None) →
     (∀ a, ¬ own a → is_Some (h !! a) → h' !! a = h !! a ∧ ¬ own' a) →
     (∀ a, own a → own' a) →
     room s - insert_room ≤ room s' →
     Q (bool_decide (m key = []), ix') s') →
  wpd (InsertRecord_with lock fuel key ptr ix) Q s.
Proof.
  intros Hok (nd & bs & I & Hown) Hlock Hf Hkey Hp Hr HQ.
  pose proof (index_count _ _ _ _ _ _ I) as Hcount.
  set (i := key mod buckets_count_ ix).
  assert (0 ≤ i < buckets_count_ ix) as Hi by (by apply Z.mod_pos_bound).
  destruct (index_slot k h ix nd bs m i I Hi) as (Ht & H0 & n & Hb & Hn).
  destruct (ix_bucket _ _ _ _ _ _ I i Hi) as (head & Hhd & Hbk).
  unfold InsertRecord_with. wpd_step. unfold Hash. destruct (Z.eqb_spec (buckets_count_ ix) 0); [lia|].
  wpd_step. wpd_step. fold i.
  eapply (wp_GetElementGAddr s h); [done|apply I|by rewrite (ix_size _ _ _ _ _ _ I)|].
  intros s1 Hok1 Hr1. wpd_step. eapply Hlock; [done|]. intros s2 Hok2 Hr2. wpd_step.
  eapply wp_load; [done|done|done|done|]. intros s3 Hok3 Hr3. wpd_step.
  eapply (wp_InsertNode fuel key ptr s3 h head (bs i)); [done|done| |done|done|unfold insert_room in Hr; lia|].
  { pose proof (ix_length _ _ _ _ _ _ I i Hi). lia. }
  intros head' ns' h1 s4 Hok4 Hbk' Hin Hv Hr4. wpd_step.
  assert (ga_valid head') as Hv' by exact (Hv (has_valid _ _ _ _ Hhd)).
  destruct (index_update k h h1 ix nd bs m i ns' key ptr head' I Hi eq_refl Hin Hbk' Hv')
    as (I' & Hown1 & Hown2 & Hkeep).
  eapply wp_store; [done|done|done| |done|done|].
  { destruct Hb as (x & Hx & Hxl). exists x. split; [|done].
    rewrite (in_old _ _ _ _ _ _ Hin); [done| |by eexists]. intros Hbad.
    by eapply (ix_apart _ _ _ _ _ _ I). }
  intros s5 Hok5 Hr5. wpd_step. unfold UnLock. wpd_step. wpd_step.
  assert (content (bs i) key = m key) as -> by by rewrite (ix_content _ _ _ _ _ _ I key).
  eapply (HQ (index_own (mk_HashIndex (buckets_ ix) (buckets_count_ ix) (wrap 64 (record_count_ ix + 1))) nd
    (λ j, if j =? i then ns' else bs j))); [exact Hok5| | | | |unfold insert_room in *; lia].
  - by eexists _, _.
  - intros a Ha. destruct (Hown2 a Ha) as [?|?]; [left; by apply Hown|by right].
  - intros a Ha Hsm. rewrite Hown in Ha. split; [by apply Hkeep|]. intros Hin'.
    destruct (Hown2 a Hin') as [?|E]; [done|]. rewrite E in Hsm. by destruct Hsm.
  - intros a Ha. by apply Hown1, Hown.
Qed.

Lemma wp_index_search k fuel key s h ix own m (Q : GlobalAddress → S → Prop) :
  heap_ok s h → index_rep k h ix own m → (k ≤ fuel)%nat →
  (∀ s', heap_ok s' h → room s' = room s → Q (newest (m key)) s') →
  wpd (index_SearchRecord fuel key ix) Q s.
Proof.
  intros Hok (nd & bs & I & _) Hf HQ.
  pose proof (index_count _ _ _ _ _ _ I) as Hcount.
  set (i := key mod buckets_count_ ix).
  assert (0 ≤ i < buckets_count_ ix) as Hi by (by apply Z.mod_pos_bound).
  destruct (index_slot k h ix nd bs m i I Hi) as (_ & H0 & _).
  destruct (ix_bucket _ _ _ _ _ _ I i Hi) as (head & Hhd & Hs & _).
  unfold index_SearchRecord. wpd_step. unfold Hash. destruct (Z.eqb_spec (buckets_count_ ix) 0); [lia|].
  wpd_step. wpd_step. fold i.
  eapply (wp_GetElementGAddr s h); [done|apply I|by rewrite (ix_size _ _ _ _ _ _ I)|].
  intros s1 Hok1 Hr1. wpd_step. eapply wp_load; [done|done|done|done|]. intros s2 Hok2 Hr2. wpd_step.
  eapply wp_SearchNode; [done|done| |].
  { pose proof (ix_length _ _ _ _ _ _ I i Hi). lia. }
  intros [p|] s3 Hok3 Hr3.
  - intros (bn & Hbn & Hit & Hne & Hfull & Hc).
    destruct (items_rep_cons _ _ _ Hit Hne) as (ptrs & l & it & El & Hhas & Hcnt & Hlen & Htake & _).
    destruct (has_addr s3 h _ _ _ Hok3 Hhas) as (_ & _ & E0).
    wpd_step. eapply (wp_load s3 h _ p 0); [done|by symmetry|lia|done|]. intros s4 Hok4 Hr4.
    destruct ptrs as [|p0 ptrs]; [cbn in Hlen; lia|].
    assert (record_ptrs_ it !! 0%nat = Some p0) as E.
    { destruct (record_ptrs_ it); [done|]. by injection Htake as -> _. }
    eapply wpd_in_array; [exact E|].
    assert (newest (m key) = p0) as <-; [|apply HQ; [done|congruence]].
    rewrite (ix_content _ _ _ _ _ _ I key). fold i. rewrite Hc, El.
    rewrite El in Hfull. by rewrite newest_flat by done.
  - intros E. wpd_step. assert (newest (m key) = ga_Null) as <-; [|apply HQ; [done|congruence]].
    rewrite (ix_content _ _ _ _ _ _ I key). fold i. by rewrite E.
Qed.

(** Each copy of an index counts the records that were added through it. *)
Lemma index_rep_count k h ix own m c :
  index_rep k h ix own m → fits 64 c →
  index_rep k h (mk_HashIndex (buckets_ ix) (buckets_count_ ix) c) own m.
Proof.
  intros (nd & bs & [] & Hown) Hc. exists nd, bs. split; [split; cbn|done]; try done. by split; [apply ix_words0|].
Qed.

(** Only the blocks of the index matter, and [k] is a bound. *)
Lemma index_rep_ext k k' h h' ix own m :
  index_rep k h ix own m → (k ≤ k')%nat → (∀ a, own a → h' !! a = h !! a) → index_rep k' h' ix own m.
Proof.
  intros (nd & bs & [A Es Ee B Ap Dj Ct Ln W] & Hown) Hk E. exists nd, bs. split; [|done].
  assert (∀ a, in_tree (buckets_ ix) nd a → h' !! a = h !! a) as Ht by (intros; apply E, Hown; by left).
  split; try done.
  - eapply arr_ok_ext; [exact A| |].
    + intros a n Ha (d & Hd & Hl). exists d. by rewrite Ht.
    + intros l i Hli _. apply Ht. by eexists _, _.
  - intros i Hi. destruct (B i Hi) as (head & Hhd & Hs & Hd). exists head. split; [|split; [|done]].
    + eapply has_ext; [|exact Hhd]. apply Ht. destruct (elem_in_block h _ nd i A) as (? & _ & _ & _ & ?); [by rewrite Es|done].
    + eapply seg_ext; [|exact Hs]. intros a Ha. apply E, Hown. right. by exists i.
  - intros i Hi. specialize (Ln i Hi). lia.
Qed.

Lemma index_rep_some k h ix own m a : index_rep k h ix own m → own a → is_Some (h !! a).
Proof. intros (nd & bs & I & Hown) Ha. apply Hown in Ha. by eapply index_own_some. Qed.

(** ** A new index *)
Lemma wp_index_Init s h count (Q : HashIndex → S → Prop) :
  heap_ok s h → 0 < count ≤ N_slots ^ 3 →
  array_room count bucket_size ≤ room s →
  (∀ ix own h' s', heap_ok s' h' → index_rep 0 h' ix own (λ _, []) → buckets_count_ ix = count →
     (∀ a bs, h !! a = Some bs → h' !! a = Some bs ∧ ¬ own a) →
     room s - array_room count bucket_size ≤ room s' → Q ix s') →
  wpd (index_Init count) Q s.
Proof.
  intros Hok Hc Hr HQ. unfold index_Init. wpd_step.
  eapply wp_array_Init; [done|done|by vm_compute|by vm_compute|by vm_compute|done|].
  intros arr nd h1 s1 Ok Ec Es Hok1 Hold Hnew Hr1. wpd_step.
  assert (ga_valid ga_Null) as HNull by (split; cbn; unfold fits; lia).
  apply (wpd_for_seqZ 0 count _ (λ i s', ∃ h', heap_ok s' h' ∧ room s' = room s1 ∧ arr_ok h' arr nd ∧
    (∀ a, ¬ in_tree arr nd a → h' !! a = h1 !! a) ∧
    ∀ j, 0 ≤ j < i → has h' (elem_block arr nd j) (elem_offset arr j) ga_Null)); [lia| | |].
  - exists h1. split_and!; [done|done|done|done|lia].
  - intros i s' Hi (h' & Hok' & Hr' & Ok' & Hkeep & Hdone).
    destruct (elem_in_block h' arr nd i Ok') as (n & Hb & H0 & Hn & Ht); [by rewrite Ec|].
    rewrite Es in Hn. wpd_step. eapply wp_GetElementGAddr; [done|done|by rewrite Ec|].
    intros s2 Hok2 Hr2. eapply wp_store; [done|done|done|done|done|done|]. intros s3 Hok3 Hr3.
    eexists. split_and!; [exact Hok3|congruence| | |].
    + apply arr_ok_put_elem; [done|by rewrite Ec|]. by rewrite Es.
    + intros a Ha. rewrite put_lookup_ne by (intros <-; done). by apply Hkeep.
    + intros j Hj. destruct (decide (j = i)) as [->|Hne]; [by eapply has_put_same|].
      eapply has_put_other; [done|done|done|apply Hdone; lia|].
      change (sizeof GlobalAddress) with bucket_size. change (len (to_bytes ga_Null)) with bucket_size.
      rewrite <-Es. eapply elems_apart; [exact Ok'|rewrite Ec; lia..|congruence].
  - intros s2 (h2 & Hok2 & Hr2 & Ok2 & Hkeep & Hdone). rewrite Z.add_0_l in Hdone. wpd_step.
    set (ix := mk_HashIndex arr count 0).
    eapply (HQ ix (index_own ix nd (λ _, [])) h2); [done| |done| |lia].
    + exists nd, (λ _, []). split; [split|done]; cbn [buckets_ buckets_count_ ix]; try done.
      * intros i Hi. exists ga_Null. split; [by apply Hdone|]. split; [done|constructor].
      * by intros i a _ ?%elem_of_nil.
      * by intros i j a _ _ _ ?%elem_of_nil.
      * assert (0 < count ≤ 2 ^ 30) by exact Hc. cbn [record_count_ ix]. unfold fits. lia.
    + intros a bs Ha. assert (¬ in_tree arr nd a) as Hn.
      { intros (l & i & Hb & ->). by rewrite (Hnew l i Hb) in Ha. }
      split; [rewrite Hkeep by done; by apply Hold|].
      intros [?|(i & _ & ?%elem_of_nil)]; done.
Qed.
End index_map.

(** ** Sequences of operations *)
Inductive index_op := op_insert (key : Z) (ptr : GlobalAddress) | op_search (key : Z).
Inductive index_res := res_insert (new_key : bool) | res_search (ptr : GlobalAddress).

Section sequences.
Context {S : Type} {J : Indeterminate} {G : GAlloc S}.

Fixpoint run_index (lock : GlobalAddress → Z → DB S unit) (fuel : nat) (ops : list index_op)
    (ix : HashIndex) : DB S (list index_res) :=
  match ops with
  | [] => mret []
  | op_insert key ptr :: ops =>
      '(b, ix) ← InsertRecord_with lock fuel key ptr ix;
      rs ← run_index lock fuel ops ix; mret (res_insert b :: rs)
  | op_search key :: ops =>
      a ← index_SearchRecord fuel key ix;
      rs ← run_index lock fuel ops ix; mret (res_search a :: rs)
  end.

(** The reference: the pointers added for each key. *)
Fixpoint ref_index (ops : list index_op) (m : Z → list GlobalAddress) : list index_res :=
  match ops with
  | [] => []
  | op_insert key ptr :: ops => res_insert (bool_decide (m key = [])) :: ref_index ops (map_add m key ptr)
  | op_search key :: ops => res_search (newest (m key)) :: ref_index ops m
  end.

Definition op_valid (o : index_op) : Prop :=
  match o with op_insert key ptr => fits 64 key ∧ ga_valid ptr | op_search _ => True end.

Context {GH : GHeap S}.

Lemma wp_run_index lock fuel ops k s h ix own m :
  heap_ok s h → index_rep k h ix own m → lock_returns lock → (k + length ops ≤ fuel)%nat →
  Forall op_valid ops → insert_room * Z.of_nat (length ops) ≤ room s →
  wpd (run_index lock fuel ops ix) (λ rs s', rs = ref_index ops m ∧ ∃ h', heap_ok s' h' ∧
    ∀ a bs, h !! a = Some bs → ¬ own a → h' !! a = Some bs) s.
Proof.
  intros Hok Hix Hlock Hf Hops Hr. revert k s h ix own m Hok Hix Hf Hr.
  assert (0 < insert_room) as Hpos by by vm_compute.
  induction Hops as [|o ops Ho Hops IH]; intros k s h ix own m Hok Hix Hf Hr; [by apply wpd_ret; eauto|].
  cbn in Hf, Hr. destruct o as [key ptr|key]; cbn [run_index ref_index]; wpd_step.
  - destruct Ho as [Hk Hp]. eapply wp_index_insert; [done|done|done|lia|done|done|lia|].
    intros own' h' s' ix' Hok' Hix' Hnew Hkeep _ Hr'. wpd_step.
    eapply wpd_mono; [apply (IH (k + 1)%nat s' h' ix' own'); [done|done|lia|lia]|].
    intros rs s2 (-> & h2 & Hok2 & H2). wpd_step. split; [done|]. exists h2. split; [done|].
    intros a bs Ha Hown. destruct (Hkeep a Hown) as [E Hn]; [by eexists|]. apply H2; [congruence|done].
  - eapply wp_index_search; [done|done|lia|]. intros s' Hok' Hr'. wpd_step.
    eapply wpd_mono; [apply (IH k s' h ix own m); [done|done|lia|lia]|].
    intros rs s2 (-> & H2). by wpd_step.
Qed.
End sequences.

(** C7: The hash index implements a map from keys to the pointers added for them: a new
    index of any size, and then any sequence of insertions and searches, with a bucket
    lock that is granted, returns what the reference returns.  [InsertRecord] says
    whether the key was new; [SearchRecord] returns the null address for an absent key, the
    pointer for a key inserted once, and otherwise the first pointer of the newest block.
    No other block of the heap changes, no chain is cut, and every loop ends. *)
Theorem index_refines {S} {J : Indeterminate} {G : GAlloc S} {GH : GHeap S} lock fuel ops count (s : S) h :
  heap_ok s h → 0 < count ≤ N_slots ^ 3 → lock_returns lock → (length ops ≤ fuel)%nat →
  Forall op_valid ops →
  array_room count bucket_size + insert_room * Z.of_nat (length ops) ≤ room s →
  wpd (ix ← index_Init count; run_index lock fuel ops ix)
    (λ rs s', rs = ref_index ops (λ _, []) ∧ ∃ h', heap_ok s' h' ∧
       ∀ a bs, h !! a = Some bs → h' !! a = Some bs) s.
Proof.
  intros Hok Hc Hlock Hf Hops Hr. assert (0 < insert_room) by by vm_compute.
  wpd_step. eapply wp_index_Init; [done|done|nia|].
  intros ix own h1 s1 Hok1 Hix _ Hold Hr1.
  eapply wpd_mono; [apply (wp_run_index lock fuel ops 0 s1 h1 ix own); [done|done|done|lia|done|lia]|].
  intros rs s2 (-> & h2 & Hok2 & H2). split; [done|]. exists h2. split; [done|].
  intros a bs Ha. destruct (Hold a bs Ha). by apply H2.
Qed.

(** No record can be inserted into an index: [InsertRecord] takes the bucket lock with
    [DSM::WLock], which throws; whatever the index contains, the call ends with the
    exception and the memory is unchanged. *)
Theorem index_insert_throws {S} {J : Indeterminate} {G : GAlloc S} {GH : GHeap S} fuel key ptr ix k own m (s : S) h :
  heap_ok s h → index_rep k h ix own m →
  ∃ s', index_InsertRecord fuel key ptr ix s = Raise runtime_error s' ∧ heap_ok s' h.
Proof.
  intros Hok (nd & bs & I & _). pose proof (index_count _ _ _ _ _ _ I) as Hcount.
  assert (wpd (GetElementGAddr (buckets_ ix) (key mod buckets_count_ ix)) (λ _ s', heap_ok s' h) s) as Hw.
  { eapply wp_GetElementGAddr; [done|apply I| |done].
    rewrite (ix_size _ _ _ _ _ _ I). by apply Z.mod_pos_bound. }
  destruct (wpd_run _ _ _ Hw) as (a & s' & E & Hok'). exists s'. split; [|done].
  unfold index_InsertRecord, InsertRecord_with, Hash. rewrite (proj2 (Z.eqb_neq _ _)) by lia.
  unfold mbind, mret, DB_bind, DB_ret. by rewrite E.
Qed.

(** ** Witnesses, on the memory of [DbDsm] *)
Definition free_lock {S} : GlobalAddress → Z → DB S unit := λ _ _, mret ().

Lemma free_lock_returns {S} {J : Indeterminate} {G : GAlloc S} {GH : GHeap S} : lock_returns (S := S) free_lock.
Proof. intros a n s h Q Hok HQ. by apply HQ. Qed.

Definition ex_ptr (i : Z) : GlobalAddress := mk_GlobalAddress (4096 * i) 2.
(** Two keys of one bucket, three pointers for the first. *)
Definition ex_ops : list index_op :=
  [op_insert 5 (ex_ptr 8); op_insert 8 (ex_ptr 9); op_search 8; op_insert 5 (ex_ptr 10);
   op_search 5; op_insert 5 (ex_ptr 11); op_search 5; op_search 11].

Lemma index_refines_witness :
  heap_ok (ex_state 0) ∅ ∧
  wpd (ix ← index_Init 3; run_index free_lock 8 ex_ops ix)
    (λ rs s', rs = [res_insert true; res_insert true; res_search (ex_ptr 9); res_insert false;
                    res_search (ex_ptr 8); res_insert false; res_search (ex_ptr 11); res_search ga_Null] ∧
              ∃ h', heap_ok s' h') (ex_state 0).
Proof.
  split; [exact ex_state_ok|]. eapply wpd_mono.
  - apply (index_refines free_lock 8 ex_ops 3 (ex_state 0) ∅).
    + exact ex_state_ok.
    + vm_compute. done.
    + exact free_lock_returns.
    + cbn. lia.
    + repeat (apply Forall_cons_2; [repeat split; vm_compute; done|]). apply Forall_nil_2.
    + vm_compute. discriminate.
  - intros rs s' (-> & h' & Hok & _). split; [vm_compute; reflexivity|]. by exists h'.
Defined.

Lemma index_insert_throws_witness :
  ∃ ix k h own m s s', heap_ok s h ∧ index_rep k h ix own m ∧ buckets_count_ ix = 3 ∧
    index_InsertRecord 8 5 (ex_ptr 8) ix s = Raise runtime_error s' ∧ heap_ok s' h.
Proof.
  assert (wpd (index_Init 3) (λ ix s, ∃ own h, heap_ok s h ∧ index_rep 0 h ix own (λ _, []) ∧
    buckets_count_ ix = 3) (ex_state 0)) as H.
  { eapply wp_index_Init; [exact ex_state_ok|vm_compute; done|vm_compute; discriminate|].
    intros ix own h' s' Hok Hix E _ _. by exists own, h'. }
  pose proof (wpd_run (index_Init 3) _ (ex_state 0) H) as Hrun. clear H.
  destruct Hrun as (ix & s & Hrun). destruct Hrun as [_ Hrun].
  destruct Hrun as (own & h & Hok & Hix & E).
  destruct (index_insert_throws 8 5 (ex_ptr 8) ix 0 own (λ _, []) s h Hok Hix) as (s' & E' & Hok').
  by exists ix, 0%nat, h, own, (λ _, []), s, s'.
Defined.
