(* ===== verification/DbSchema.v ===== *)
(** * DbSchema: [ColumnInfo.h], [RecordSchema.h] and [Record.h]

    A schema lays its columns out one after the other; a record is a buffer of the
    schema's size, whose columns are read and written by number.  Schemas and records are
    copied to the global memory and back. *)
From S2P Require Import Prelude GlobalMem DbStore DbDsm.
From stdpp Require Import base numbers option list list_numbers gmap.
Open Scope Z_scope.

(** ** [ColumnInfo] *)
Inductive ValueType := INT | INT8 | INT16 | INT32 | INT64 | DOUBLE | FLOAT | VARCHAR | META.
#[export] Instance ValueType_eq_dec : EqDecision ValueType.
Proof. solve_decision. Defined.

Definition ValueType_num (t : ValueType) : Z :=
  match t with
  | INT => 0 | INT8 => 1 | INT16 => 2 | INT32 => 3 | INT64 => 4 | DOUBLE => 5 | FLOAT => 6
  | VARCHAR => 7 | META => 8
  end.
Definition ValueType_of (n : Z) : ValueType :=
  nth (Z.to_nat n) [INT; INT8; INT16; INT32; INT64; DOUBLE; FLOAT; VARCHAR] META.

Record ColumnInfo := mk_ColumnInfo {
  column_name_ : list Z;
  column_type_ : ValueType;
  column_size_ : Z;
  ci_column_offset_ : Z;
}.

(** The size of a type other than [VARCHAR]. *)
Definition type_size (t : ValueType) : option Z :=
  match t with
  | INT => Some 4 | INT8 => Some 1 | INT16 => Some 2 | INT32 => Some 4 | INT64 => Some 8
  | DOUBLE => Some 8 | FLOAT => Some 4 | META => Some 1 | VARCHAR => None
  end.

Definition kMaxColumnNum : Z := 32.

Section schema.
Context {J : Indeterminate}.

(** [ColumnInfo::Init]; [name] are the characters of [column_name], [None] a failed
    assertion. *)
Definition column_Init (name : list Z) (t : ValueType) (size : Z) : option ColumnInfo :=
  if len name <? 16 then
    let name := name ++ 0 :: replicate (15 - length name) junk in
    match type_size t with
    | Some n => Some (mk_ColumnInfo name t n 0)
    | None => if 0 <? size then Some (mk_ColumnInfo name t size 0) else None
    end
  else None.

Lemma lt_0_16 : (0 < 16)%nat. Proof. lia. Qed.
Lemma ValueType_of_num t : ValueType_of (ValueType_num t) = t.
Proof. by destruct t. Qed.

#[export] Instance pod_ValueType : Pod ValueType := pod_struct ValueType_of ValueType_num ValueType_of_num pod_u64.
#[export] Instance pod_ColumnInfo : Pod ColumnInfo :=
  pod_struct (λ x, mk_ColumnInfo x.1 x.2.1 x.2.2.1 x.2.2.2)
    (λ c, (column_name_ c, (column_type_ c, (column_size_ c, ci_column_offset_ c)))) ltac:(by intros [])
    (pod_pair (pod_array 16 lt_0_16 pod_u8) (pod_pair pod_ValueType (pod_pair pod_u64 pod_u64))).

(** ** [RecordSchema] *)
Record RecordSchema := mk_RecordSchema {
  table_id_ : Z;
  column_count_ : Z;
  column_offset_ : Z;
  primary_column_ids_ : list Z;
  primary_column_num_ : Z;
  secondary_column_ids_ : list (list Z);
  secondary_column_num_ : list Z;
  secondary_index_num_ : Z;
  partition_column_ids_ : list Z;
  partition_column_num_ : Z;
  columns_ : option (list ColumnInfo);
}.
#[export] Instance eta_RecordSchema : Eta RecordSchema := fun r =>
  mk_RecordSchema (table_id_ r) (column_count_ r) (column_offset_ r) (primary_column_ids_ r)
    (primary_column_num_ r) (secondary_column_ids_ r) (secondary_column_num_ r)
    (secondary_index_num_ r) (partition_column_ids_ r) (partition_column_num_ r) (columns_ r).

Definition new_RecordSchema (table_id : Z) : RecordSchema :=
  mk_RecordSchema table_id 0 0 (replicate 5 junk) 0 (replicate 3 (replicate 5 junk)) (replicate 3 junk) 0
    (replicate 5 junk) 0 None.

(** The loop of [InsertColumns]: the columns with their offsets, and the next offset. *)
Fixpoint place_columns (off : Z) (cols : list ColumnInfo) : list ColumnInfo * Z :=
  match cols with
  | [] => ([], off)
  | c :: cols =>
      let '(placed, last) := place_columns (wrap 64 (off + column_size_ c)) cols in
      (mk_ColumnInfo (column_name_ c) (column_type_ c) (column_size_ c) off :: placed, last)
  end.

Definition InsertColumns (cols : list ColumnInfo) (sc : RecordSchema) : option RecordSchema :=
  if len cols <=? kMaxColumnNum then
    let '(placed, last) := place_columns (column_offset_ sc) cols in
    Some (sc <| column_count_ := len cols |> <| columns_ := Some placed |> <| column_offset_ := last |>)
  else None.

(** [columns_[index]] under the assertion of the getters. *)
Definition get_column (index : Z) (sc : RecordSchema) : option ColumnInfo :=
  if index <? column_count_ sc then cols ← columns_ sc; arr_get cols index else None.
Definition GetColumnType (index : Z) (sc : RecordSchema) : option ValueType :=
  column_type_ <$> get_column index sc.
Definition GetColumnOffset (index : Z) (sc : RecordSchema) : option Z :=
  ci_column_offset_ <$> get_column index sc.
Definition GetColumnSize (index : Z) (sc : RecordSchema) : option Z :=
  column_size_ <$> get_column index sc.
Definition GetSchemaSize (sc : RecordSchema) : Z := column_offset_ sc.
Definition GetMetaColumnId (sc : RecordSchema) : Z := wrap 64 (column_count_ sc - 1).

(** [memcpy(to, ids, num * sizeof(size_t))] *)
Definition copy_ids (ids : list Z) (num : Z) (to : list Z) : option (list Z) :=
  if num <=? len ids then Some (take (Z.to_nat num) ids ++ drop (Z.to_nat num) to) else None.

Definition SetPrimaryColumns (ids : list Z) (num : Z) (sc : RecordSchema) : option RecordSchema :=
  if num <=? 5 then
    to ← copy_ids ids num (primary_column_ids_ sc);
    Some (sc <| primary_column_num_ := num |> <| primary_column_ids_ := to |>)
  else None.

(** The fourth call writes past both arrays before the last assertion. *)
Definition AddSecondaryColumns (ids : list Z) (num : Z) (sc : RecordSchema) : option RecordSchema :=
  if num <=? 5 then
    nums ← arr_set (secondary_column_num_ sc) (secondary_index_num_ sc) num;
    old ← arr_get (secondary_column_ids_ sc) (secondary_index_num_ sc);
    to ← copy_ids ids num old;
    all ← arr_set (secondary_column_ids_ sc) (secondary_index_num_ sc) to;
    let n := secondary_index_num_ sc + 1 in
    if n <=? 3 then
      Some (sc <| secondary_column_num_ := nums |> <| secondary_column_ids_ := all |>
               <| secondary_index_num_ := n |>)
    else None
  else None.

Definition SetPartitionColumns (ids : list Z) (num : Z) (sc : RecordSchema) : option RecordSchema :=
  if num <? 5 then
    to ← copy_ids ids num (partition_column_ids_ sc);
    Some (sc <| partition_column_num_ := num |> <| partition_column_ids_ := to |>)
  else None.

Definition schema_serialize_size : Z :=
  8 * 3 + (8 * 5 + 8) + (8 * 3 * 5 + 8 * 3 + 8) + (8 * 5 + 8) + sizeof ColumnInfo * kMaxColumnNum.

(** ** [Record] *)
Record DbRecord := mk_DbRecord { schema_ptr_ : RecordSchema; data_ptr_ : list Z; data_size_ : Z }.

Definition new_Record (sc : RecordSchema) : DbRecord :=
  mk_DbRecord sc (replicate (Z.to_nat (GetSchemaSize sc)) junk) (GetSchemaSize sc).

(** [memcpy(data_ptr_ + offset, data, n)]; past the buffer or the data it is undefined. *)
Definition record_memcpy (offset : Z) (data : list Z) (n : Z) (r : DbRecord) : option DbRecord :=
  if (n <=? len data) && (offset + n <=? len (data_ptr_ r))
  then Some (mk_DbRecord (schema_ptr_ r) (splice offset (take (Z.to_nat n) data) (data_ptr_ r)) (data_size_ r))
  else None.

Definition SetColumn (col_id : Z) (data : list Z) (r : DbRecord) : option DbRecord :=
  offset ← GetColumnOffset col_id (schema_ptr_ r);
  col_size ← GetColumnSize col_id (schema_ptr_ r);
  record_memcpy offset data col_size r.
Definition SetColumn_sized (col_id : Z) (data : list Z) (data_size : Z) (r : DbRecord) : option DbRecord :=
  offset ← GetColumnOffset col_id (schema_ptr_ r);
  record_memcpy offset data data_size r.
Definition GetColumn (col_id : Z) (r : DbRecord) : option (list Z) :=
  offset ← GetColumnOffset col_id (schema_ptr_ r);
  col_size ← GetColumnSize col_id (schema_ptr_ r);
  if offset + col_size <=? len (data_ptr_ r) then Some (slice offset col_size (data_ptr_ r)) else None.

(** [MetaColumn] is one [bool]. *)
Definition GetVisible (r : DbRecord) : option bool :=
  meta_col ← GetColumn (GetMetaColumnId (schema_ptr_ r)) r;
  Some (negb (le_word 8 meta_col =? 0)).
Definition SetVisible (val : bool) (r : DbRecord) : option DbRecord :=
  _ ← GetColumn (GetMetaColumnId (schema_ptr_ r)) r;
  SetColumn (GetMetaColumnId (schema_ptr_ r)) [if val then 1 else 0] r.

(** ** To the global memory and back *)
Section memory.
Context {S : Type} {G : GAlloc S}.

Definition store_columns (addr : GlobalAddress) (off : Z) (cols : list ColumnInfo) : DB S unit :=
  Write_at addr off (cols ≫= to_bytes).
Definition load_columns (addr : GlobalAddress) (off n : Z) : DB S (list ColumnInfo) :=
  bs ← Read_at addr off (sizeof ColumnInfo * n); mret (of_bytes_array (Z.to_nat n) bs).

Definition schema_Serialize (addr : GlobalAddress) (sc : RecordSchema) : DB S unit :=
  let off := 0 in
  store_words addr off [table_id_ sc];;
  let off := off + 8 in
  store_words addr off [column_count_ sc];;
  let off := off + 8 in
  store_words addr off [column_offset_ sc];;
  let off := off + 8 in
  store_words addr off (primary_column_ids_ sc);;
  let off := off + 8 * 5 in
  store_words addr off [primary_column_num_ sc];;
  let off := off + 8 in
  ids ← in_array (arr_get (secondary_column_ids_ sc) 0);
  store_words addr off ids;;
  let off := off + 8 * 5 in
  ids ← in_array (arr_get (secondary_column_ids_ sc) 1);
  store_words addr off ids;;
  let off := off + 8 * 5 in
  ids ← in_array (arr_get (secondary_column_ids_ sc) 2);
  store_words addr off ids;;
  let off := off + 8 * 5 in
  store_words addr off (secondary_column_num_ sc);;
  let off := off + 8 * 3 in
  store_words addr off [secondary_index_num_ sc];;
  let off := off + 8 in
  store_words addr off (partition_column_ids_ sc);;
  let off := off + 8 * 5 in
  store_words addr off [partition_column_num_ sc];;
  let off := off + 8 in
  cols ← in_array (columns_ sc);
  store_columns addr off cols.

Definition schema_Deserialize (addr : GlobalAddress) : DB S RecordSchema :=
  let off := 0 in
  table_id ← load_word addr off;
  let off := off + 8 in
  count ← load_word addr off;
  let off := off + 8 in
  offset ← load_word addr off;
  let off := off + 8 in
  primary ← load_words addr off 5;
  let off := off + 8 * 5 in
  primary_num ← load_word addr off;
  let off := off + 8 in
  ids0 ← load_words addr off 5;
  let off := off + 8 * 5 in
  ids1 ← load_words addr off 5;
  let off := off + 8 * 5 in
  ids2 ← load_words addr off 5;
  let off := off + 8 * 5 in
  sec_num ← load_words addr off 3;
  let off := off + 8 * 3 in
  index_num ← load_word addr off;
  let off := off + 8 in
  partition ← load_words addr off 5;
  let off := off + 8 * 5 in
  partition_num ← load_word addr off;
  let off := off + 8 in
  cols ← load_columns addr off count;
  mret (mk_RecordSchema table_id count offset primary primary_num [ids0; ids1; ids2] sec_num index_num
          partition partition_num (Some cols)).

Definition record_Serialize (addr : GlobalAddress) (r : DbRecord) : DB S unit := Write addr (data_ptr_ r).

Definition record_Serialize_column (addr : GlobalAddress) (col_id : Z) (r : DbRecord) : DB S unit :=
  offset ← match GetColumnOffset col_id (schema_ptr_ r) with
           | Some o => mret o | None => raise assertion_failed end;
  col_size ← match GetColumnSize col_id (schema_ptr_ r) with
             | Some n => mret n | None => raise assertion_failed end;
  Write_at addr offset (slice offset col_size (data_ptr_ r)).

Definition record_Deserialize (addr : GlobalAddress) (r : DbRecord) : DB S DbRecord :=
  let data_size := GetSchemaSize (schema_ptr_ r) in
  bs ← Read addr data_size;
  mret (mk_DbRecord (schema_ptr_ r) bs data_size).
End memory.
End schema.

(** ** The layout of a schema *)
Definition sizes_sum (cols : list ColumnInfo) : Z := foldr (λ c acc, column_size_ c + acc) 0 cols.

Definition sized (c : ColumnInfo) : Prop := 0 < column_size_ c.

Lemma sizes_sum_pos cols : Forall sized cols → 0 ≤ sizes_sum cols.
Proof. unfold sized. induction 1; cbn; [done|]. unfold sized in *. fold (sizes_sum l). lia. Qed.

Lemma place_columns_spec cols off :
  Forall sized cols → 0 ≤ off → off + sizes_sum cols < 2 ^ 64 →
  ∃ placed, place_columns off cols = (placed, off + sizes_sum cols) ∧ length placed = length cols ∧
    ∀ i c, placed !! i = Some c → ∃ c0, cols !! i = Some c0 ∧
      c = mk_ColumnInfo (column_name_ c0) (column_type_ c0) (column_size_ c0) (off + sizes_sum (take i cols)).
Proof.
  intros Hs. revert off. induction Hs as [|c cols Hc Hs IH]; intros off H0 Hl.
  - exists []. cbn. rewrite Z.add_0_r. split_and!; [done|done|by intros i c ?].
  - unfold sized in Hc. pose proof (sizes_sum_pos cols Hs).
    change (sizes_sum (c :: cols)) with (column_size_ c + sizes_sum cols) in *.
    destruct (IH (off + column_size_ c)) as (placed & E & El & Hi); [lia|lia|].
    cbn [place_columns]. rewrite wrap_small by (unfold fits; lia). rewrite E. eexists. split_and!.
    + f_equal. lia.
    + cbn. by rewrite El.
    + intros [|i] x Hx; cbn in Hx.
      * injection Hx as <-. exists c. split; [done|]. cbn. by rewrite Z.add_0_r.
      * destruct (Hi i x Hx) as (c0 & Hc0 & ->). exists c0. split; [done|].
        change (sizes_sum (take (Datatypes.S i) (c :: cols))) with (column_size_ c + sizes_sum (take i cols)).
        f_equal. lia.
Qed.

Lemma sizes_sum_app l l' : sizes_sum (l ++ l') = sizes_sum l + sizes_sum l'.
Proof. induction l as [|c l IH]; [done|]. cbn. fold (sizes_sum (l ++ l')) (sizes_sum l). lia. Qed.

(** Columns follow one another within the schema's size. *)
Record schema_ok (sc : RecordSchema) (cols : list ColumnInfo) : Prop := {
  sk_columns : columns_ sc = Some cols;
  sk_count : column_count_ sc = len cols ∧ 0 < len cols ≤ kMaxColumnNum;
  sk_range i c : cols !! i = Some c →
    0 ≤ ci_column_offset_ c ∧ 0 < column_size_ c ∧ ci_column_offset_ c + column_size_ c ≤ column_offset_ sc;
  sk_order i j c c' : (i < j)%nat → cols !! i = Some c → cols !! j = Some c' →
    ci_column_offset_ c + column_size_ c ≤ ci_column_offset_ c';
}.

Lemma InsertColumns_ok {J : Indeterminate} table_id cols sc :
  Forall sized cols → cols ≠ [] → sizes_sum cols < 2 ^ 64 →
  InsertColumns cols (new_RecordSchema table_id) = Some sc →
  ∃ placed, schema_ok sc placed ∧ length placed = length cols ∧ column_offset_ sc = sizes_sum cols ∧
    ∀ i c, placed !! i = Some c → ∃ c0, cols !! i = Some c0 ∧ column_size_ c = column_size_ c0 ∧
      column_type_ c = column_type_ c0 ∧ ci_column_offset_ c = sizes_sum (take i cols).
Proof.
  intros Hs Hne Hl. unfold InsertColumns. destruct (Z.leb_spec (len cols) kMaxColumnNum) as [Hmax|]; [|done].
  destruct (place_columns_spec cols 0 Hs) as (placed & E & El & Hi); [lia|lia|].
  cbn [new_RecordSchema column_offset_]. rewrite E. intros [= <-]. exists placed.
  assert (∀ i c, placed !! i = Some c → ∃ c0, cols !! i = Some c0 ∧ column_size_ c = column_size_ c0 ∧
      column_type_ c = column_type_ c0 ∧ ci_column_offset_ c = sizes_sum (take i cols)) as Hi'.
  { intros i c Hc. destruct (Hi i c Hc) as (c0 & Hc0 & ->). by exists c0. }
  assert (∀ i c0, cols !! i = Some c0 → 0 < column_size_ c0 ∧ 0 ≤ sizes_sum (take i cols) ∧
    sizes_sum (take (Datatypes.S i) cols) = sizes_sum (take i cols) + column_size_ c0) as Hstep.
  { intros i c0 Hc0. split_and!; [by apply (Forall_lookup_1 _ _ _ _ Hs Hc0)|by apply sizes_sum_pos, Forall_take|].
    rewrite (take_S_r _ _ _ Hc0), sizes_sum_app. cbn. lia. }
  assert (∀ i j, (i ≤ j)%nat → sizes_sum (take i cols) ≤ sizes_sum (take j cols)) as Hmono.
  { intros i j Hij. replace j with (i + (j - i))%nat by lia. rewrite <-take_take_drop, sizes_sum_app.
    pose proof (sizes_sum_pos (take (j - i) (drop i cols))) as H. specialize (H (Forall_take _ _ _ (Forall_drop _ _ _ Hs))).
    lia. }
  split_and!; [split|done|done|done]; cbn [columns_ column_count_ column_offset_].
  - done.
  - cbn. split; [by rewrite El|]. destruct cols; [done|]. rewrite El. cbn in *. lia.
  - intros i c Hc. destruct (Hi' i c Hc) as (c0 & Hc0 & -> & _ & ->). destruct (Hstep i c0 Hc0) as (? & ? & Es).
    split_and!; [done|done|]. rewrite <-Es. cbn. rewrite <-(firstn_all cols) at 2.
    apply Hmono. apply lookup_lt_Some in Hc0. lia.
  - intros i j c c' Hij Hc Hc'. destruct (Hi' i c Hc) as (c0 & Hc0 & -> & _ & ->).
    destruct (Hi' j c' Hc') as (c1 & Hc1 & _ & _ & ->). destruct (Hstep i c0 Hc0) as (_ & _ & <-). apply Hmono. lia.
Qed.

(** ** The columns of a record *)
Definition record_ok (r : DbRecord) (cols : list ColumnInfo) : Prop :=
  schema_ok (schema_ptr_ r) cols ∧ len (data_ptr_ r) = column_offset_ (schema_ptr_ r).

Lemma get_column_ok sc cols i c :
  schema_ok sc cols → cols !! i = Some c → get_column (Z.of_nat i) sc = Some c.
Proof.
  intros [E [Ec _] _ _] Hi. unfold get_column. rewrite Ec, E. pose proof (lookup_lt_Some _ _ _ Hi).
  rewrite (proj2 (Z.ltb_lt _ _)) by lia. cbn. by rewrite arr_get_lookup.
Qed.

Lemma GetColumn_ok r cols i c :
  record_ok r cols → cols !! i = Some c →
  GetColumn (Z.of_nat i) r = Some (slice (ci_column_offset_ c) (column_size_ c) (data_ptr_ r)).
Proof.
  intros [Sc Hl] Hi. destruct (sk_range _ _ Sc i c Hi) as (H0 & H1 & H2).
  unfold GetColumn, GetColumnOffset, GetColumnSize. rewrite (get_column_ok _ _ _ _ Sc Hi). cbn.
  by rewrite (proj2 (Z.leb_le _ _)) by lia.
Qed.

Lemma SetColumn_ok r cols i c d :
  record_ok r cols → cols !! i = Some c → column_size_ c ≤ len d →
  ∃ r', SetColumn (Z.of_nat i) d r = Some r' ∧ record_ok r' cols ∧ schema_ptr_ r' = schema_ptr_ r ∧
    data_ptr_ r' = splice (ci_column_offset_ c) (take (Z.to_nat (column_size_ c)) d) (data_ptr_ r).
Proof.
  intros [Sc Hl] Hi Hd. destruct (sk_range _ _ Sc i c Hi) as (H0 & H1 & H2).
  unfold SetColumn, GetColumnOffset, GetColumnSize. rewrite (get_column_ok _ _ _ _ Sc Hi). cbn.
  unfold record_memcpy. rewrite !(proj2 (Z.leb_le _ _)) by lia. cbn.
  eexists. split_and!; [done| |done|done]. split; [done|]. cbn.
  rewrite splice_length by (rewrite ?length_take; lia). done.
Qed.

Lemma columns_apart sc cols i j c c' :
  schema_ok sc cols → i ≠ j → cols !! i = Some c → cols !! j = Some c' →
  ci_column_offset_ c + column_size_ c ≤ ci_column_offset_ c' ∨
  ci_column_offset_ c' + column_size_ c' ≤ ci_column_offset_ c.
Proof.
  intros Sc Hne Hi Hj. destruct (decide (i < j)%nat); [left; by eapply (sk_order _ _ Sc i j)|].
  right. eapply (sk_order _ _ Sc j i); [lia|done|done].
Qed.

(** The columns after one is set. *)
Lemma SetColumn_get r cols i c d r' :
  record_ok r cols → cols !! i = Some c → column_size_ c ≤ len d → SetColumn (Z.of_nat i) d r = Some r' →
  GetColumn (Z.of_nat i) r' = Some (take (Z.to_nat (column_size_ c)) d) ∧
  ∀ j c', i ≠ j → cols !! j = Some c' → GetColumn (Z.of_nat j) r' = GetColumn (Z.of_nat j) r.
Proof.
  intros Hr Hc Hd E. destruct (SetColumn_ok r cols i c d Hr Hc Hd) as (r2 & E2 & Hr' & Es & Ed). simplify_eq.
  pose proof Hr as [Sc Hl]. destruct (sk_range _ _ Sc i c Hc) as (H0 & H1 & H2).
  assert (len (take (Z.to_nat (column_size_ c)) d) = column_size_ c) as Elen by (rewrite length_take; lia). split.
  - rewrite (GetColumn_ok r' cols i c Hr' Hc), Ed. rewrite <-Elen at 1. by rewrite slice_splice by lia.
  - intros j c' Hij Hc'. rewrite (GetColumn_ok r' cols j c' Hr' Hc'), (GetColumn_ok r cols j c' Hr Hc'), Ed. f_equal.
    destruct (sk_range _ _ Sc j c' Hc') as (H0' & H1' & H2').
    destruct (columns_apart _ cols i j c c' Sc Hij Hc Hc'); by rewrite slice_splice_other by lia.
Qed.

(** The columns of a record are independent variables: with a schema made by
    [InsertColumns] from columns of positive sizes, each column occupies its own bytes of
    the record; [SetColumn] succeeds, [GetColumn] of that column then returns what was
    written, and [GetColumn] of every other column returns what it returned before. *)
Theorem record_columns {J : Indeterminate} table_id cols sc r i j ci cj d :
  Forall sized cols → cols ≠ [] → sizes_sum cols < 2 ^ 64 →
  InsertColumns cols (new_RecordSchema table_id) = Some sc →
  schema_ptr_ r = sc → len (data_ptr_ r) = GetSchemaSize sc →
  cols !! i = Some ci → cols !! j = Some cj → column_size_ ci ≤ len d →
  ∃ r', SetColumn (Z.of_nat i) d r = Some r' ∧
    GetColumn (Z.of_nat i) r' = Some (take (Z.to_nat (column_size_ ci)) d) ∧
    (i ≠ j → GetColumn (Z.of_nat j) r' = GetColumn (Z.of_nat j) r ∧ is_Some (GetColumn (Z.of_nat j) r)).
Proof.
  intros Hs Hne Hl Hsc Er Hlen Hi Hj Hd.
  destruct (InsertColumns_ok table_id cols sc Hs Hne Hl Hsc) as (placed & Sc & El & _ & Hp).
  assert (record_ok r placed) as Hr by (split; by rewrite Er).
  destruct (lookup_lt_is_Some_2 placed i) as [c Hc]; [rewrite El; by eapply lookup_lt_Some|].
  destruct (lookup_lt_is_Some_2 placed j) as [c' Hc']; [rewrite El; by eapply lookup_lt_Some|].
  destruct (Hp i c Hc) as (c0 & Hc0 & Esz & _ & _). rewrite Hi in Hc0. injection Hc0 as <-.
  rewrite <-Esz in *. destruct (SetColumn_ok r placed i c d Hr Hc Hd) as (r' & E & _).
  destruct (SetColumn_get r placed i c d r' Hr Hc Hd E) as [Hi' Hj']. exists r'. split_and!; [done|done|].
  intros Hij. split; [by apply (Hj' j c')|]. rewrite (GetColumn_ok r placed j c' Hr Hc'). by eexists.
Qed.

(** ** Visibility *)
Lemma SetVisible_ok r cols c val :
  record_ok r cols → last cols = Some c → column_size_ c = 1 →
  ∃ r', SetVisible val r = Some r' ∧ record_ok r' cols ∧ GetVisible r' = Some val ∧
    schema_ptr_ r' = schema_ptr_ r.
Proof.
  intros Hr Hc H1. pose proof Hr as [[_ [Ec Hn] _ _] _]. rewrite last_lookup in Hc.
  assert (GetMetaColumnId (schema_ptr_ r) = Z.of_nat (Nat.pred (length cols))) as Em.
  { unfold GetMetaColumnId. rewrite Ec, wrap_small; [lia|]. unfold fits. change kMaxColumnNum with 32 in Hn. lia. }
  unfold SetVisible, GetVisible. rewrite Em, (GetColumn_ok r cols _ c Hr Hc). cbn [mbind option_bind].
  destruct (SetColumn_ok r cols _ c [if val then 1 else 0] Hr Hc) as (r' & E & Hr' & Es & Ed); [cbn; lia|].
  exists r'. split_and!; [done|done| |done]. rewrite Es, Em, (GetColumn_ok r' cols _ c Hr' Hc), Ed, H1.
  destruct Hr as [Sc Hl]. destruct (sk_range _ _ Sc _ c Hc) as (H0 & _ & H2).
  change (take (Z.to_nat 1) [if val then 1 else 0]) with [if val then 1 else 0].
  change 1 with (len [if val then 1 else 0]) at 1. rewrite slice_splice by (cbn; lia). by destruct val.
Qed.

(** ** Schemas in memory *)
Ltac add_field := wpd_step; append_words.
Ltac get_word := wpd_step; next_word.
Ltac get_array := wpd_step; next_words.

Section schema_memory.
Context {S : Type} {J : Indeterminate} {G : GAlloc S} {GH : GHeap S}.
Implicit Types (s : S) (h : heap).

Definition header_words (sc : RecordSchema) : list (list Z) :=
  [[table_id_ sc]; [column_count_ sc]; [column_offset_ sc]; primary_column_ids_ sc; [primary_column_num_ sc]] ++
  secondary_column_ids_ sc ++
  [secondary_column_num_ sc; [secondary_index_num_ sc]; partition_column_ids_ sc; [partition_column_num_ sc]].
Definition schema_bytes (sc : RecordSchema) (cols : list ColumnInfo) : list Z :=
  words (concat (header_words sc)) ++ (cols ≫= to_bytes).

(** The members have the sizes and widths of their types. *)
Record schema_wf (sc : RecordSchema) (cols : list ColumnInfo) : Prop := {
  sw_cols : columns_ sc = Some cols;
  sw_count : column_count_ sc = len cols ∧ 0 < len cols ≤ kMaxColumnNum;
  sw_valid : Forall valid cols;
  sw_primary : length (primary_column_ids_ sc) = 5%nat;
  sw_secondary : length (secondary_column_ids_ sc) = 3%nat ∧
    Forall (λ l, length l = 5%nat) (secondary_column_ids_ sc);
  sw_secnum : length (secondary_column_num_ sc) = 3%nat;
  sw_partition : length (partition_column_ids_ sc) = 5%nat;
  sw_fits : Forall (Forall (fits 64)) (header_words sc);
}.

Lemma columns_bytes_length cols : Forall valid cols → len (cols ≫= to_bytes) = 40 * len cols.
Proof.
  induction 1 as [|c cols Hc _ IH]; [done|]. cbn [mbind list_bind length].
  rewrite length_app, (to_bytes_length c Hc). change (Z.to_nat (sizeof ColumnInfo)) with 40%nat. lia.
Qed.

Lemma of_columns_bytes cols : Forall valid cols → of_bytes_array (length cols) (cols ≫= to_bytes) = cols.
Proof.
  induction 1 as [|c cols Hc _ IH]; [done|]. cbn [mbind list_bind length of_bytes_array].
  rewrite (take_app_length' (to_bytes c)), (drop_app_length' (to_bytes c)) by by rewrite to_bytes_length.
  by rewrite of_to_bytes, IH.
Qed.

Lemma secondary_three sc cols : schema_wf sc cols →
  ∃ i0 i1 i2, secondary_column_ids_ sc = [i0; i1; i2] ∧
    length i0 = 5%nat ∧ length i1 = 5%nat ∧ length i2 = 5%nat.
Proof.
  intros [_ _ _ _ [E F] _ _ _]. destruct (secondary_column_ids_ sc) as [|i0 [|i1 [|i2 [|]]]]; try done.
  apply Forall_cons in F as [? F]. apply Forall_cons in F as [? F]. apply Forall_cons in F as [? _].
  by exists i0, i1, i2.
Qed.

Lemma words_concat l : words (concat l) = concat (words <$> l).
Proof. induction l as [|ws l IH]; [done|]. cbn. by rewrite words_app, IH. Qed.

Lemma schema_bytes_fields sc cols i0 i1 i2 : secondary_column_ids_ sc = [i0; i1; i2] →
  schema_bytes sc cols =
  words [table_id_ sc] ++ words [column_count_ sc] ++ words [column_offset_ sc] ++
  words (primary_column_ids_ sc) ++ words [primary_column_num_ sc] ++ words i0 ++ words i1 ++ words i2 ++
  words (secondary_column_num_ sc) ++ words [secondary_index_num_ sc] ++
  words (partition_column_ids_ sc) ++ words [partition_column_num_ sc] ++ (cols ≫= to_bytes).
Proof.
  intros E. unfold schema_bytes, header_words. rewrite E, words_concat. cbn [app fmap list_fmap concat].
  by rewrite app_nil_r, <-!app_assoc.
Qed.

Lemma schema_bytes_length sc cols : schema_wf sc cols → len (schema_bytes sc cols) = 272 + 40 * len cols.
Proof.
  intros W. destruct (secondary_three sc cols W) as (i0 & i1 & i2 & E & E0 & E1 & E2).
  destruct W as [_ _ Hv Lp _ Ln Lt _]. pose proof (columns_bytes_length cols Hv).
  rewrite (schema_bytes_fields _ _ _ _ _ E). rewrite !length_app, !Nat2Z.inj_add, !words_length.
  rewrite Lp, Ln, Lt, E0, E1, E2. cbn [length]. lia.
Qed.

Lemma wp_schema_Serialize s h p a x n sc cols (Q : unit → S → Prop) :
  heap_ok s h → p = GADD a x → 0 ≤ x → blk h a n → x + len (schema_bytes sc cols) ≤ n → schema_wf sc cols →
  (∀ s', heap_ok s' (put a x (schema_bytes sc cols) h) → room s' = room s → Q () s') →
  wpd (schema_Serialize p sc) Q s.
Proof.
  intros Hok Hp Hx Hb Hle W HQ. pose proof (schema_bytes_length sc cols W) as Hlen. rewrite Hlen in Hle.
  destruct (secondary_three sc cols W) as (i0 & i1 & i2 & E & E0 & E1 & E2).
  destruct W as [Hc [Hn Hn'] Hv Lp _ Ln Lt _].
  pose proof (columns_bytes_length cols Hv) as Lc.
  rewrite (schema_bytes_fields _ _ _ _ _ E) in HQ.
  rewrite <-(put_nil a x h) in Hok. unfold schema_Serialize. rewrite E.
  add_field. add_field. add_field. add_field. add_field.
  wpd_step. eapply wpd_in_array; [reflexivity|]. add_field.
  wpd_step. eapply wpd_in_array; [reflexivity|]. add_field.
  wpd_step. eapply wpd_in_array; [reflexivity|]. add_field.
  add_field. add_field. add_field. add_field.
  wpd_step. eapply wpd_in_array; [exact Hc|]. unfold store_columns.
  eapply wp_append; [eassumption|done|field_sizes|done|eassumption|lia|lia|]. intros s' Hok' Hr'. apply HQ; [|congruence].
  revert Hok'. by rewrite <-!app_assoc.
Qed.

(** What was written is read back, wherever it is stored. *)
Lemma wp_schema_Deserialize s h p a x sc cols (Q : RecordSchema → S → Prop) :
  heap_ok s h → p = GADD a x → 0 ≤ x → has_bytes h a x (schema_bytes sc cols) → schema_wf sc cols →
  (∀ s', heap_ok s' h → room s' = room s → Q sc s') → wpd (schema_Deserialize p) Q s.
Proof.
  intros Hok Hp Hx Hb W HQ. destruct (secondary_three sc cols W) as (i0 & i1 & i2 & E & E0 & E1 & E2).
  rewrite (schema_bytes_fields _ _ _ _ _ E) in Hb. destruct W as [Hc [Hn Hn'] Hv Lp _ Ln Lt F].
  pose proof (columns_bytes_length cols Hv) as Lc.
  unfold header_words in F. rewrite E in F. cbn [app] in F. do 12 (apply Forall_cons in F as [? F]).
  rewrite <-(Z.add_0_r x) in Hb. unfold schema_Deserialize.
  get_word. get_word. get_word. get_array. get_word. get_array. get_array. get_array. get_array. get_word. get_array. get_word.
  wpd_step. unfold load_columns. wpd_step.
  rewrite Hn. change (sizeof ColumnInfo) with 40. rewrite <-Lc.
  eapply wp_Read_bytes; [eassumption|done|done|lia|lia|eassumption|]. intros s' Hok' Hr'. repeat wpd_step.
  rewrite Nat2Z.id, of_columns_bytes by done.
  replace (mk_RecordSchema _ _ _ _ _ _ _ _ _ _ _) with sc; [apply HQ; [done|congruence]|].
  destruct sc. cbn in *. by subst.
Qed.

(** ** Records in memory *)
Lemma wp_record_Serialize s h p a x n r (Q : unit → S → Prop) :
  heap_ok s h → p = GADD a x → 0 ≤ x → blk h a n → 0 < len (data_ptr_ r) → x + len (data_ptr_ r) ≤ n →
  (∀ s', heap_ok s' (put a x (data_ptr_ r) h) → room s' = room s → Q () s') →
  wpd (record_Serialize p r) Q s.
Proof. apply wp_Write. Qed.

Lemma wp_record_Deserialize s h p a x r d (Q : DbRecord → S → Prop) :
  heap_ok s h → p = GADD a x → 0 ≤ x → 0 < len d → len d = GetSchemaSize (schema_ptr_ r) → has_bytes h a x d →
  (∀ s', heap_ok s' h → room s' = room s → Q (mk_DbRecord (schema_ptr_ r) d (GetSchemaSize (schema_ptr_ r))) s') →
  wpd (record_Deserialize p r) Q s.
Proof.
  intros Hok Hp Hx Hl E Hb HQ. unfold record_Deserialize. cbv zeta. rewrite <-E. wpd_step.
  eapply wp_Read; [done..|]. intros s' Hok' Hr. wpd_step. rewrite E. by apply HQ.
Qed.

(** Writing one column of a record whose other columns are in memory already. *)
Lemma wp_record_Serialize_column s h p a x n r cols i c (Q : unit → S → Prop) :
  heap_ok s h → p = GADD a x → 0 ≤ x → blk h a n → x + len (data_ptr_ r) ≤ n →
  record_ok r cols → cols !! i = Some c →
  (∀ s', heap_ok s' (put a (x + ci_column_offset_ c) (slice (ci_column_offset_ c) (column_size_ c) (data_ptr_ r)) h) →
    room s' = room s → Q () s') →
  wpd (record_Serialize_column p (Z.of_nat i) r) Q s.
Proof.
  intros Hok Hp Hx Hb Hle [Sc Hl] Hi HQ. destruct (sk_range _ _ Sc i c Hi) as (H0 & H1 & H2).
  unfold record_Serialize_column, GetColumnOffset, GetColumnSize.
  rewrite (get_column_ok _ _ _ _ Sc Hi). cbn [fmap option_fmap option_map].
  wpd_step. wpd_step. wpd_step. wpd_step.
  assert (len (slice (ci_column_offset_ c) (column_size_ c) (data_ptr_ r)) = column_size_ c) as Es.
  { rewrite slice_length by lia. lia. }
  eapply wp_Write_at; [done|done|done|done|done|lia|lia|done].
Qed.
End schema_memory.

(** ** Witness: an integer, a string of eight characters and the visibility *)
Definition ex_columns : list ColumnInfo :=
  omap (λ x, x) [column_Init [105; 100] INT 0; column_Init [110] VARCHAR 8; column_Init [109] META 0].
Definition ex_schema : RecordSchema :=
  default (new_RecordSchema 1) (InsertColumns ex_columns (new_RecordSchema 1)).
Definition ex_record : DbRecord := new_Record ex_schema.

Lemma record_columns_witness :
  GetSchemaSize ex_schema = 13 ∧
  ∃ r', SetColumn 1 [1; 2; 3; 4; 5; 6; 7; 8] ex_record = Some r' ∧
    GetColumn 1 r' = Some [1; 2; 3; 4; 5; 6; 7; 8] ∧ GetColumn 0 r' = GetColumn 0 ex_record.
Proof.
  split; [reflexivity|].
  pose proof (record_columns 1 ex_columns ex_schema ex_record 1 0
    (default (mk_ColumnInfo [] INT 0 0) (ex_columns !! 1%nat))
    (default (mk_ColumnInfo [] INT 0 0) (ex_columns !! 0%nat)) [1; 2; 3; 4; 5; 6; 7; 8]) as H.
  destruct H as (r' & E & E1 & E2).
  - repeat (apply Forall_cons_2; [reflexivity|]). apply Forall_nil_2.
  - discriminate.
  - reflexivity.
  - reflexivity.
  - reflexivity.
  - reflexivity.
  - reflexivity.
  - reflexivity.
  - vm_compute. discriminate.
  - exists r'. split; [exact E|]. split; [exact E1|]. apply E2. lia.
Defined.
