(* ===== verification/DbTable.v ===== *)
(** * DbTable: [Table.h] and [StorageManager.h]

    A table is a schema and a hash index; the storage manager is the list of the tables.
    The first node builds it and copies its description to the global memory, the others
    read it there: [storage_roundtrip] says that they get the same tables, and
    [storage_shared] that what is inserted through one copy is found through another. *)
From S2P Require Import Prelude GlobalMem DbStore DbFlat DbDsm DbArray DbIndex DbSchema.
From stdpp Require Import base numbers option list list_numbers gmap.
Open Scope Z_scope.

Definition kHashIndexBucketHeaderNum : Z := 1000007.
Definition kMaxTableNum : Z := 16.

Record Table := mk_Table {
  t_table_id_ : Z;
  secondary_count_ : Z;
  t_schema_ptr_ : RecordSchema;
  primary_index_ : HashIndex;
}.

Record StorageManager := mk_StorageManager { tables_ : list Table; table_count_ : Z }.

Section storage.
Context {S : Type} {J : Indeterminate} {G : GAlloc S}.

(** ** Arrays and indexes in the global memory *)
Definition array_serialize_size : Z := sizeof GlobalAddress + 8 * 5 + 8 * 2.

Definition array_Serialize (addr : GlobalAddress) (arr : GAddrArray) : DB S unit :=
  let off := 0 in
  store_at addr off (root_addr_ arr);;
  let off := off + sizeof GlobalAddress in
  store_words addr off [array_size_ arr];;
  let off := off + 8 in
  store_words addr off [element_size_ arr];;
  let off := off + 8 in
  store_words addr off (layer_size_ arr);;
  let off := off + 8 * 4 in
  store_words addr off [layer_num_ arr].

Definition array_Deserialize (addr : GlobalAddress) : DB S GAddrArray :=
  let off := 0 in
  root ← load_at GlobalAddress addr off;
  let off := off + sizeof GlobalAddress in
  array_size ← load_word addr off;
  let off := off + 8 in
  element_size ← load_word addr off;
  let off := off + 8 in
  sizes ← load_words addr off 4;
  let off := off + 8 * 4 in
  layer_num ← load_word addr off;
  mret (mk_GAddrArray root array_size element_size sizes layer_num).

Definition index_serialize_size : Z := array_serialize_size + 8 * 2.

Definition index_Serialize (addr : GlobalAddress) (ix : HashIndex) : DB S unit :=
  let off := 0 in
  array_Serialize addr (buckets_ ix);;
  let off := off + array_serialize_size in
  store_words addr off [buckets_count_ ix];;
  let off := off + 8 in
  store_words addr off [record_count_ ix].

Definition index_Deserialize (addr : GlobalAddress) : DB S HashIndex :=
  let off := 0 in
  buckets ← array_Deserialize addr;
  let off := off + array_serialize_size in
  buckets_count ← load_word addr off;
  let off := off + 8 in
  record_count ← load_word addr off;
  mret (mk_HashIndex buckets buckets_count record_count).

(** ** [Table] *)
Definition table_Init (table_id : Z) (schema : RecordSchema) : DB S Table :=
  ix ← index_Init kHashIndexBucketHeaderNum;
  mret (mk_Table table_id 0 schema ix).

Definition table_InsertRecord_with (lock : GlobalAddress → Z → DB S unit) (fuel : nat) (keys : list Z)
    (key_num : Z) (data_addr : GlobalAddress) (t : Table) : DB S (bool * Table) :=
  assert_ (key_num =? wrap 64 (secondary_count_ t + 1));;
  key ← in_array (arr_get keys 0);
  '(b, ix) ← InsertRecord_with lock fuel key data_addr (primary_index_ t);
  mret (b, mk_Table (t_table_id_ t) (secondary_count_ t) (t_schema_ptr_ t) ix).
Definition table_InsertRecord := table_InsertRecord_with WLock.

Definition table_SearchRecord (fuel : nat) (key : Z) (t : Table) : DB S GlobalAddress :=
  index_SearchRecord fuel key (primary_index_ t).

Definition table_serialize_size : Z := 8 * 2 + schema_serialize_size + index_serialize_size.

Definition table_Serialize (addr : GlobalAddress) (t : Table) : DB S unit :=
  let off := 0 in
  store_words addr off [t_table_id_ t];;
  let off := off + 8 in
  store_words addr off [secondary_count_ t];;
  let off := off + 8 in
  let cur_addr := GADD addr (to_int off) in
  schema_Serialize cur_addr (t_schema_ptr_ t);;
  let cur_addr := GADD cur_addr (to_int schema_serialize_size) in
  index_Serialize cur_addr (primary_index_ t).

Definition table_Deserialize (addr : GlobalAddress) : DB S Table :=
  let off := 0 in
  table_id ← load_word addr off;
  let off := off + 8 in
  secondary_count ← load_word addr off;
  let off := off + 8 in
  let cur_addr := GADD addr (to_int off) in
  schema ← schema_Deserialize cur_addr;
  let cur_addr := GADD cur_addr (to_int schema_serialize_size) in
  ix ← index_Deserialize cur_addr;
  mret (mk_Table table_id secondary_count schema ix).

(** ** [StorageManager] *)
Fixpoint make_tables (i : Z) (schemas : list RecordSchema) : DB S (list Table) :=
  match schemas with
  | [] => mret []
  | sc :: schemas =>
      t ← table_Init i sc;
      ts ← make_tables (i + 1) schemas;
      mret (t :: ts)
  end.

Definition RegisterTables (schemas : list RecordSchema) : DB S StorageManager :=
  let table_count := len schemas in
  assert_ (table_count <? kMaxTableNum);;
  ts ← make_tables 0 schemas;
  mret (mk_StorageManager ts table_count).

Fixpoint tables_Serialize (n : nat) (i : Z) (cur_addr : GlobalAddress) (ts : list Table) : DB S unit :=
  match n with
  | O => mret ()
  | Datatypes.S n =>
      t ← in_array (arr_get ts i);
      table_Serialize cur_addr t;;
      tables_Serialize n (i + 1) (GADD cur_addr (to_int table_serialize_size)) ts
  end.

Definition storage_Serialize (addr : GlobalAddress) (st : StorageManager) : DB S unit :=
  store addr (table_count_ st);;
  let cur_addr := GADD addr (to_int 8) in
  tables_Serialize (Z.to_nat (table_count_ st)) 0 cur_addr (tables_ st).

Fixpoint tables_Deserialize (n : nat) (cur_addr : GlobalAddress) : DB S (list Table) :=
  match n with
  | O => mret []
  | Datatypes.S n =>
      t ← table_Deserialize cur_addr;
      ts ← tables_Deserialize n (GADD cur_addr (to_int table_serialize_size));
      mret (t :: ts)
  end.

Definition storage_Deserialize (addr : GlobalAddress) : DB S StorageManager :=
  table_count ← load Z addr;
  let cur_addr := GADD addr (to_int 8) in
  ts ← tables_Deserialize (Z.to_nat table_count) cur_addr;
  mret (mk_StorageManager ts table_count).

Definition storage_serialize_size : Z := 8 + kMaxTableNum * table_serialize_size.
End storage.

(** ** What is stored *)
Section layout.
Context {S : Type} {J : Indeterminate} {G : GAlloc S} {GH : GHeap S}.
Implicit Types (s : S) (h : heap).

Definition array_bytes (arr : GAddrArray) : list Z :=
  to_bytes (root_addr_ arr) ++ words [array_size_ arr] ++ words [element_size_ arr] ++
  words (layer_size_ arr) ++ words [layer_num_ arr].
Definition index_bytes (ix : HashIndex) : list Z :=
  array_bytes (buckets_ ix) ++ words [buckets_count_ ix] ++ words [record_count_ ix].

Record index_wf (ix : HashIndex) : Prop := {
  iw_root : ga_valid (root_addr_ (buckets_ ix));
  iw_layers : length (layer_size_ (buckets_ ix)) = 4%nat ∧ Forall (fits 64) (layer_size_ (buckets_ ix));
  iw_array : Forall (fits 64) [array_size_ (buckets_ ix); element_size_ (buckets_ ix); layer_num_ (buckets_ ix)];
  iw_words : Forall (fits 64) [buckets_count_ ix; record_count_ ix];
}.

Lemma array_bytes_length ix : index_wf ix → len (array_bytes (buckets_ ix)) = array_serialize_size.
Proof.
  intros [Hr [Hl _] _ _]. pose proof (to_bytes_len _ (valid_GlobalAddress _ Hr)) as E.
  unfold array_bytes. rewrite !length_app, !Nat2Z.inj_add, !words_length, Hl.
  unfold array_serialize_size. cbn [length]. lia.
Qed.

Lemma index_bytes_length ix : index_wf ix → len (index_bytes ix) = index_serialize_size.
Proof.
  intros W. unfold index_bytes. rewrite !length_app, !Nat2Z.inj_add, !words_length, (array_bytes_length ix W).
  unfold index_serialize_size. cbn [length]. lia.
Qed.

(** The next field of a sequence is written. *)
Lemma wp_append_pod `{Pod T} s h p a x off pre (v : T) n (Q : unit → S → Prop) :
  heap_ok s (put a x pre h) → p = GADD a x → off = len pre → 0 ≤ x → blk h a n → valid v →
  x + off + sizeof T ≤ n →
  (∀ s', heap_ok s' (put a x (pre ++ to_bytes v) h) → room s' = room s → Q () s') → wpd (store_at p off v) Q s.
Proof.
  intros Hok Hp Ho Hx Hb Hv Hle HQ. pose proof (to_bytes_len v Hv). pose proof (sizeof_pos (T := T)).
  eapply wp_append; [done|done|done|done|done|lia|lia|done].
Qed.

Lemma wp_index_Serialize s h p a x n ix (Q : unit → S → Prop) :
  heap_ok s h → p = GADD a x → 0 ≤ x → blk h a n → x + index_serialize_size ≤ n → index_wf ix →
  (∀ s', heap_ok s' (put a x (index_bytes ix) h) → room s' = room s → Q () s') →
  wpd (index_Serialize p ix) Q s.
Proof.
  intros Hok Hp Hx Hb Hle W HQ. pose proof (array_bytes_length ix W) as La.
  pose proof W as [Hr [Hl _] _ _]. pose proof (to_bytes_len _ (valid_GlobalAddress _ Hr)) as Er.
  change index_serialize_size with 82 in Hle. change array_serialize_size with 66 in La.
  change (sizeof GlobalAddress) with 10 in Er.
  rewrite <-(put_nil a x h) in Hok. unfold index_Serialize, array_Serialize.
  wpd_step. wpd_step. eapply wp_append_pod; [exact Hok|done|done|done|exact Hb|by apply valid_GlobalAddress|..].
  { change (sizeof GlobalAddress) with 10. lia. }
  intros s1 Hok1 Hr1. change (sizeof GlobalAddress) with 10. change array_serialize_size with 66.
  cbn [app] in Hok1. wpd_step. append_words. wpd_step. append_words. wpd_step. append_words. append_words. wpd_step. append_words.
  append_words. apply HQ; [|congruence]. unfold index_bytes, array_bytes. by rewrite <-!app_assoc in *.
Qed.

Lemma wp_index_Deserialize s h p a x ix (Q : HashIndex → S → Prop) :
  heap_ok s h → p = GADD a x → 0 ≤ x → has_bytes h a x (index_bytes ix) → index_wf ix →
  (∀ s', heap_ok s' h → room s' = room s → Q ix s') → wpd (index_Deserialize p) Q s.
Proof.
  intros Hok Hp Hx Hb [Hr [Hl Fl] Fa Fw] HQ.
  do 3 (apply Forall_cons in Fa as [? Fa]). do 2 (apply Forall_cons in Fw as [? Fw]). clear Fa Fw.
  rewrite <-(Z.add_0_r x) in Hb. rewrite <-(app_nil_r (index_bytes ix)) in Hb.
  unfold index_bytes, array_bytes in Hb. rewrite <-!app_assoc in Hb.
  unfold index_Deserialize, array_Deserialize.
  change array_serialize_size with (sizeof GlobalAddress + 8 + 8 + 8 * 4 + 8).
  pose proof (sizeof_pos (T := GlobalAddress)).
  wpd_step. wpd_step. eapply wp_next_pod; [exact Hok|done|done|lia|exact Hb|by apply valid_GlobalAddress|next_facts].
  wpd_step. next_word. wpd_step. next_word. wpd_step.
  next_words.
  wpd_step. next_word. wpd_step. wpd_step.
  next_word. wpd_step. next_word. wpd_step.
  replace (mk_HashIndex _ _ _) with ix; [apply HQ; [done|congruence]|]. by destruct ix as [[] ? ?].
Qed.

(** ** Tables *)
Record table_wf (t : Table) (cols : list ColumnInfo) : Prop := {
  tw_words : fits 64 (t_table_id_ t) ∧ fits 64 (secondary_count_ t);
  tw_schema : schema_wf (t_schema_ptr_ t) cols;
  tw_index : index_wf (primary_index_ t);
}.

Lemma index_place p a x :
  p = GADD a x → GADD (GADD p (to_int (0 + 8 + 8))) (to_int schema_serialize_size) = GADD a (x + 16 + 1552).
Proof.
  intros ->. rewrite !GADD_GADD. change (to_int (0 + 8 + 8)) with 16. change (to_int schema_serialize_size) with 1552.
  f_equal. lia.
Qed.

(** The index is after the space of a schema with all its columns. *)
Record table_at (h : heap) (a : GlobalAddress) (x : Z) (t : Table) (cols : list ColumnInfo) : Prop := {
  ta_words : has_bytes h a x (words [t_table_id_ t] ++ words [secondary_count_ t]);
  ta_schema : has_bytes h a (x + 16) (schema_bytes (t_schema_ptr_ t) cols);
  ta_index : has_bytes h a (x + 16 + schema_serialize_size) (index_bytes (primary_index_ t));
}.

Lemma schema_bytes_bound sc cols : schema_wf sc cols → 0 < len (schema_bytes sc cols) ≤ schema_serialize_size.
Proof.
  intros W. rewrite (schema_bytes_length sc cols W). destruct W as [_ [_ Hn] _ _ _ _ _ _].
  change kMaxColumnNum with 32 in Hn. change schema_serialize_size with 1552. lia.
Qed.

Lemma wp_table_Serialize s h p a x n t cols (Q : unit → S → Prop) :
  heap_ok s h → p = GADD a x → 0 ≤ x → blk h a n → x + table_serialize_size ≤ n → table_wf t cols →
  (∀ h' s', heap_ok s' h' → table_at h' a x t cols → within a x table_serialize_size n h h' →
     room s' = room s → Q () s') →
  wpd (table_Serialize p t) Q s.
Proof.
  intros Hok Hp Hx Hb Hle [Hw Hs Hi] HQ. pose proof (schema_bytes_bound _ _ Hs) as Ls.
  pose proof (index_bytes_length _ Hi) as Li.
  change table_serialize_size with 1650 in *. change schema_serialize_size with 1552 in *.
  change index_serialize_size with 82 in *.
  unfold table_Serialize. wpd_step. rewrite <-(put_nil a x h) in Hok. append_words. wpd_step. append_words.
  wpd_step. rewrite app_nil_l in *. set (d1 := words [t_table_id_ t] ++ words [secondary_count_ t]) in *.
  assert (len d1 = 16) as L1 by (unfold d1; field_sizes). set (h1 := put a x d1 h) in *.
  assert (within a x 1650 n h h1) as W1 by (apply within_put; [done|lia..]).
  assert (has_bytes h1 a x d1) as B1 by (eapply has_bytes_put; [exact Hb|done|lia]).
  eapply (wp_schema_Serialize _ h1 _ a (x + 16) n _ cols);
    [eassumption|by rewrite Hp, GADD_GADD|lia|apply W1|lia|done|].
  intros s3 Hok3 Hr3. set (h2 := put a (x + 16) _ h1) in *.
  assert (within a (x + 16) 1634 n h1 h2) as W2 by (apply within_put; [apply W1|lia..]).
  eapply (wp_index_Serialize s3 h2 _ a (x + 16 + 1552) n);
    [done|by apply index_place|lia|apply W2|change index_serialize_size with 82; lia|done|].
  intros s4 Hok4 Hr4. set (h3 := put a (x + 16 + 1552) _ h2) in *.
  assert (within a (x + 16 + 1552) 82 n h2 h3) as W3 by (apply within_put; [apply W2|lia..]).
  apply (HQ h3); [done| | |congruence].
  - split; change schema_serialize_size with 1552 in *.
    + apply W3; [|fold d1; lia]. apply W2; [done|]. fold d1. lia.
    + apply W3; [|lia]. eapply has_bytes_put; [apply W1|lia|lia].
    + eapply has_bytes_put; [apply W2|lia|lia].
  - eapply within_trans; [exact W1|]. eapply within_trans; eapply within_mono; [| |exact W2| | |exact W3]; lia.
Qed.

Lemma wp_table_Deserialize s h p a x t cols (Q : Table → S → Prop) :
  heap_ok s h → p = GADD a x → 0 ≤ x → table_at h a x t cols → table_wf t cols →
  (∀ s', heap_ok s' h → room s' = room s → Q t s') → wpd (table_Deserialize p) Q s.
Proof.
  intros Hok Hp Hx [Bw Bs Bi] [[W1 W2] Hs Hi] HQ. change schema_serialize_size with 1552 in *.
  rewrite <-(Z.add_0_r x), <-(app_nil_r (words [secondary_count_ t])) in Bw.
  unfold table_Deserialize. wpd_step. next_word. wpd_step. next_word. wpd_step.
  eapply (wp_schema_Deserialize _ h _ a (x + 16)); [done|by rewrite Hp, GADD_GADD|lia|done|done|].
  intros s3 Hok3 Hr3. wpd_step.
  eapply (wp_index_Deserialize _ h _ a (x + 16 + 1552)); [done|by apply index_place|lia|done|done|].
  intros s4 Hok4 Hr4. wpd_step. destruct t. apply HQ; [done|congruence].
Qed.

(** ** The storage manager *)
Fixpoint tables_at (h : heap) (a : GlobalAddress) (x : Z) (ts : list Table) (cs : list (list ColumnInfo)) : Prop :=
  match ts, cs with
  | t :: ts, c :: cs => table_at h a x t c ∧ tables_at h a (x + table_serialize_size) ts cs
  | [], [] => True
  | _, _ => False
  end.

Lemma table_at_within h h' a x y m n t cols :
  table_wf t cols → within a y m n h h' → x + table_serialize_size ≤ y → table_at h a x t cols → table_at h' a x t cols.
Proof.
  intros [_ Hs Hi] W Hle [Bw Bs Bi]. pose proof (schema_bytes_bound _ _ Hs). pose proof (index_bytes_length _ Hi).
  change table_serialize_size with 1650 in *. change schema_serialize_size with 1552 in *.
  change index_serialize_size with 82 in *.
  assert (len (words [t_table_id_ t] ++ words [secondary_count_ t]) = 16) by field_sizes.
  split; (apply (wi_bytes _ _ _ _ _ _ W); [assumption|]); change schema_serialize_size with 1552; lia.
Qed.

Lemma wp_tables_Serialize ts cs (Q : unit → S → Prop) : ∀ pre s h p a x n,
  heap_ok s h → p = GADD a x → 0 ≤ x → blk h a n → x + table_serialize_size * len ts ≤ n → Forall2 table_wf ts cs →
  (∀ h' s', heap_ok s' h' → tables_at h' a x ts cs → within a x (table_serialize_size * len ts) n h h' →
     room s' = room s → Q () s') →
  wpd (tables_Serialize (length ts) (len pre) p (pre ++ ts)) Q s.
Proof.
  revert cs Q. induction ts as [|t ts IH]; intros cs Q pre s h p a x n Hok Hp Hx Hb Hle Hw HQ.
  - apply Forall2_nil_inv_l in Hw as ->. apply wpd_ret. apply (HQ h); [done|done|by apply within_refl|done].
  - apply Forall2_cons_inv_l in Hw as (c & cs' & Hc & Hw & ->).
    change table_serialize_size with 1650 in *. cbn [length] in Hle.
    cbn [tables_Serialize length]. wpd_step. eapply wpd_in_array.
    { rewrite arr_get_lookup, lookup_app_r, Nat.sub_diag by lia. done. }
    wpd_step. eapply (wp_table_Serialize _ h _ a x n t c); [done|done|done|done|change table_serialize_size with 1650; lia|done|].
    change table_serialize_size with 1650. intros h1 s1 Hok1 At W Hr1.
    replace (len pre + 1) with (len (pre ++ [t])) by (rewrite length_app; cbn; lia).
    replace (pre ++ t :: ts) with ((pre ++ [t]) ++ ts) by by rewrite <-app_assoc.
    eapply (IH cs' Q (pre ++ [t]) s1 h1 _ a (x + 1650) n);
      [done|by rewrite Hp, GADD_GADD|lia|apply W|lia|done|].
    intros h2 s2 Hok2 Ats W2 Hr2. apply (HQ h2); [done| | |congruence].
    + split; [|done]. eapply table_at_within; [done|exact W2|done|done].
    + cbn [length]. change table_serialize_size with 1650 in *.
      eapply within_trans; eapply within_mono; [| |exact W| | |exact W2]; lia.
Qed.

Lemma wp_tables_Deserialize ts cs (Q : list Table → S → Prop) : ∀ s h p a x,
  heap_ok s h → p = GADD a x → 0 ≤ x → tables_at h a x ts cs → Forall2 table_wf ts cs →
  (∀ s', heap_ok s' h → room s' = room s → Q ts s') → wpd (tables_Deserialize (length ts) p) Q s.
Proof.
  revert cs Q. induction ts as [|t ts IH]; intros cs Q s h p a x Hok Hp Hx Hat Hw HQ; [by apply HQ|].
  apply Forall2_cons_inv_l in Hw as (c & cs' & Hc & Hw & ->). destruct Hat as [At Ats].
  cbn [tables_Deserialize length]. wpd_step.
  eapply (wp_table_Deserialize _ h _ a x t c); [done..|]. intros s1 Hok1 Hr1. wpd_step.
  eapply (IH cs' _ s1 h _ a (x + table_serialize_size)); [done| |by assert (0 ≤ table_serialize_size) by done; lia|done|done|].
  { by rewrite Hp, GADD_GADD. }
  intros s2 Hok2 Hr2. wpd_step. apply HQ; [done|congruence].
Qed.

Record storage_wf (st : StorageManager) (cs : list (list ColumnInfo)) : Prop := {
  stw_count : table_count_ st = len (tables_ st) ∧ len (tables_ st) < kMaxTableNum;
  stw_tables : Forall2 table_wf (tables_ st) cs;
}.

Definition storage_at (h : heap) (a : GlobalAddress) (st : StorageManager) (cs : list (list ColumnInfo)) : Prop :=
  has_bytes h a 0 (words [table_count_ st]) ∧ tables_at h a 8 (tables_ st) cs.

Lemma wp_storage_Serialize s h a n st cs (Q : unit → S → Prop) :
  heap_ok s h → blk h a n → storage_serialize_size ≤ n → storage_wf st cs →
  (∀ h' s', heap_ok s' h' → storage_at h' a st cs → (∀ b, b ≠ a → h' !! b = h !! b) →
     room s' = room s → Q () s') →
  wpd (storage_Serialize a st) Q s.
Proof.
  intros Hok Hb Hle [[Ec Hc] Hw] HQ. destruct (blk_valid s h a n Hok Hb) as (_ & _ & E0).
  change storage_serialize_size with 26408 in Hle. change kMaxTableNum with 16 in Hc.
  unfold storage_Serialize. wpd_step.
  assert (fits 64 (table_count_ st)) as Hf by (unfold fits; lia).
  eapply (wp_store s h a a 0 n); [done|by symmetry|lia|done|change (sizeof Z) with 8; lia|exact Hf|].
  intros s1 Hok1 Hr1. set (h1 := put a 0 _ h) in *.
  assert (len (to_bytes (table_count_ st)) = 8) as L8 by exact (to_bytes_len (table_count_ st) Hf).
  assert (within a 0 8 n h h1) as W1 by (apply within_put; [done|lia..]).
  rewrite Ec, Nat2Z.id. apply (wp_tables_Serialize (tables_ st) cs Q [] s1 h1 _ a 8 n); [done| |lia|apply W1| |done|].
  { done. }
  { change table_serialize_size with 1650. lia. }
  intros h2 s2 Hok2 Hat W2 Hr2. apply (HQ h2); [done| | |congruence].
  - split; [|done]. apply W2; [|by left]. unfold words. cbn [mbind list_bind]. rewrite app_nil_r.
    eapply has_bytes_put; [exact Hb|done|]. change (le_bytes 8 (table_count_ st)) with (to_bytes (table_count_ st)). lia.
  - intros b Hne. by rewrite (wi_other _ _ _ _ _ _ W2), (wi_other _ _ _ _ _ _ W1).
Qed.

Lemma wp_storage_Deserialize s h a st cs (Q : StorageManager → S → Prop) :
  heap_ok s h → storage_at h a st cs → storage_wf st cs →
  (∀ s', heap_ok s' h → room s' = room s → Q st s') → wpd (storage_Deserialize a) Q s.
Proof.
  intros Hok [Bc At] [[Ec Hc] Hw] HQ.
  assert (∃ n, blk h a n) as [n Hb] by (destruct Bc as (b & E & _); by exists (len b), b).
  destruct (blk_valid s h a n Hok Hb) as (_ & _ & E0). change kMaxTableNum with 16 in Hc.
  assert (fits 64 (table_count_ st)) as Hf by (unfold fits; lia).
  unfold storage_Deserialize. wpd_step.
  eapply (wp_load s h a a 0 (table_count_ st)); [done|by symmetry|lia| |].
  { destruct Bc as (b & E & H0 & Hl & Hs). exists b. split_and!; [done|done|done| |done].
    change (sizeof Z) with (len (words [table_count_ st])). rewrite Hs. unfold words. cbn [mbind list_bind].
    by rewrite app_nil_r. }
  intros s1 Hok1 Hr1. wpd_step. rewrite Ec at 1. rewrite Nat2Z.id.
  eapply (wp_tables_Deserialize (tables_ st) cs _ s1 h _ a 8); [done|done|lia|done|done|].
  intros s2 Hok2 Hr2. wpd_step. destruct st. apply HQ; [done|congruence].
Qed.
End layout.

(** The description of a database survives the global memory: [StorageManager::Serialize]
    of any storage manager with fewer than 16 tables, schemas of at most 32 columns and
    members of the sizes of their types fits the space that [GetSerializeSize] gives, changes
    no other block, and [Deserialize] there returns the same storage manager: the same
    tables, schemas, columns and indexes. *)
Theorem storage_roundtrip {S} {J : Indeterminate} {G : GAlloc S} {GH : GHeap S} (s : S) h a n st cs :
  heap_ok s h → blk h a n → storage_serialize_size ≤ n → storage_wf st cs →
  wpd (storage_Serialize a st;; storage_Deserialize a)
    (λ st' s', st' = st ∧ ∃ h', heap_ok s' h' ∧ ∀ b, b ≠ a → h' !! b = h !! b) s.
Proof.
  intros Hok Hb Hle W. wpd_step. eapply wp_storage_Serialize; [done..|]. intros h1 s1 Hok1 At Ho Hr1.
  eapply wp_storage_Deserialize; [done..|]. intros s2 Hok2 Hr2. split; [done|]. by exists h1.
Qed.

(** ** Tables as maps *)
Section shared.
Context {S : Type} {J : Indeterminate} {G : GAlloc S} {GH : GHeap S}.
Implicit Types (s : S) (h : heap) (m : nat → Z → list GlobalAddress) (own : nat → GlobalAddress → Prop).

Record tables_rep (k : nat) h (ts : list Table) own m : Prop := {
  tr_index i t : ts !! i = Some t → index_rep k h (primary_index_ t) (own i) (m i);
  tr_secondary i t : ts !! i = Some t → secondary_count_ t = 0;
  tr_disjoint i j a : (i < length ts)%nat → (j < length ts)%nat → i ≠ j → own i a → ¬ own j a;
}.

(** Two copies of the objects of a table count their records separately. *)
Definition same_table (t t' : Table) : Prop :=
  secondary_count_ t' = secondary_count_ t ∧ t_schema_ptr_ t' = t_schema_ptr_ t ∧
  buckets_ (primary_index_ t') = buckets_ (primary_index_ t) ∧
  buckets_count_ (primary_index_ t') = buckets_count_ (primary_index_ t) ∧
  fits 64 (record_count_ (primary_index_ t')).

Lemma tables_rep_same k h ts ts' own m :
  tables_rep k h ts own m → Forall2 same_table ts ts' → tables_rep k h ts' own m.
Proof.
  intros [R Z D] Hs. split.
  - intros i t' Ht'. destruct (Forall2_lookup_r _ _ _ _ _ Hs Ht') as (t & Ht & _ & _ & E1 & E2 & Hf).
    pose proof (index_rep_count k h _ _ _ _ (R i t Ht) Hf) as H. rewrite <-E1, <-E2 in H.
    by destruct (primary_index_ t').
  - intros i t' Ht'. destruct (Forall2_lookup_r _ _ _ _ _ Hs Ht') as (t & Ht & E & _). rewrite E. by eapply Z.
  - intros i j a. rewrite <-(Forall2_length _ _ _ Hs). apply D.
Qed.

Lemma tables_rep_some k h ts own m i a :
  tables_rep k h ts own m → (i < length ts)%nat → own i a → is_Some (h !! a).
Proof. intros [R _ _] Hi Ha. destruct (lookup_lt_is_Some_2 ts i Hi) as [t Ht]. by eapply index_rep_some; [apply (R i t)|]. Qed.

Lemma tables_rep_ext k h h' ts own m :
  tables_rep k h ts own m → (∀ i a, (i < length ts)%nat → own i a → h' !! a = h !! a) → tables_rep k h' ts own m.
Proof.
  intros [R Z D] E. split; [|done|done]. intros i t Ht. eapply index_rep_ext; [by eapply R|done|].
  intros a Ha. eapply E; [by eapply lookup_lt_Some|done].
Qed.

Lemma tables_rep_new k h ts own m a bs : tables_rep k h ts own m → h !! a = None →
  tables_rep k (<[a := bs]> h) ts own m.
Proof.
  intros R Ha. eapply tables_rep_ext; [exact R|]. intros j b Hj Hb.
  destruct (tables_rep_some _ _ _ _ _ j b R Hj Hb) as [d E]. rewrite lookup_insert_ne; [done|]. congruence.
Qed.

(** ** [RegisterTables] *)
Definition table_room : Z := array_room kHashIndexBucketHeaderNum bucket_size.

Lemma index_rep_wf s h k ix (own : GlobalAddress → Prop) (m : Z → list GlobalAddress) : heap_ok s h → index_rep k h ix own m → index_wf ix.
Proof.
  intros Hok (nd & bs & [A Es Ee _ _ _ _ _ W] & _). pose proof A as [(Hroot & Hn & _) _ _ _ T Hw].
  destruct (elem_in_block h (buckets_ ix) nd 0 A) as (n & Hb & _); [pose proof (ao_size _ _ _ A); lia|].
  split; [|exact Hw| |].
  - rewrite Hroot. destruct (tr_blk _ _ _ _ _ T 0 0) as (b & Hb' & _); [apply built_0_0; lia|].
    by destruct (gh_block s h _ _ Hok Hb') as (? & _).
  - rewrite Es, Ee. destruct W as [W _]. constructor; [exact W|].
    constructor; [by split|]. constructor; [unfold fits; lia|constructor].
  - destruct W. by repeat (constructor; [assumption|]).
Qed.

Lemma wp_make_tables scs cs (Q : list Table → S → Prop) : ∀ i s h,
  heap_ok s h → Forall2 schema_wf scs cs → 0 ≤ i → i + len scs < 2 ^ 64 → table_room * len scs ≤ room s →
  (∀ ts own h' s', heap_ok s' h' → tables_rep 0 h' ts own (λ _ _, []) → Forall2 table_wf ts cs →
     t_schema_ptr_ <$> ts = scs → t_table_id_ <$> ts = seqZ i (len scs) →
     (∀ a bs, h !! a = Some bs → h' !! a = Some bs ∧ ∀ j, (j < length ts)%nat → ¬ own j a) →
     room s - table_room * len scs ≤ room s' → Q ts s') →
  wpd (make_tables i scs) Q s.
Proof.
  revert cs Q. induction scs as [|sc scs IH]; intros cs Q i s h Hok Hw Hi Hl Hr HQ.
  - apply Forall2_nil_inv_l in Hw as ->. apply wpd_ret.
    apply (HQ [] (λ _ _, False) h); [done|by split|by apply Forall2_nil|done|done|by intros a bs ?; split; [|intros j _ []]|cbn; lia].
  - apply Forall2_cons_inv_l in Hw as (c & cs' & Hc & Hw & ->). cbn [length] in Hl, Hr, HQ.
    assert (0 < table_room) by by vm_compute.
    cbn [make_tables]. wpd_step. unfold table_Init. wpd_step.
    eapply wp_index_Init; [done|by vm_compute|fold table_room; nia|].
    intros ix own0 h1 s1 Hok1 Hix _ Hold1 Hr1. fold table_room in Hr1. wpd_step. wpd_step.
    eapply (IH cs' _ (i + 1) s1 h1); [done|done|lia|lia|nia|].
    intros ts own h2 s2 Hok2 [R Z D] Hts Esc Eid Hold2 Hr2. wpd_step.
    assert (∀ a, own0 a → h2 !! a = h1 !! a ∧ ∀ j, (j < length ts)%nat → ¬ own j a) as H12.
    { intros a Ha. destruct (index_rep_some _ _ _ _ _ _ Hix Ha) as [bs E]. rewrite E. by apply Hold2. }
    apply (HQ _ (λ j, match j with O => own0 | Datatypes.S j => own j end) h2); [done| | | | | |nia].
    + split.
      * intros [|j] t Ht; [|by apply R]. injection Ht as <-. eapply index_rep_ext; [exact Hix|done|]. by apply H12.
      * intros [|j] t Ht; [by injection Ht as <-|by eapply Z].
      * intros [|j] [|j'] a Hj Hj' Hne Ha; cbn in Hj, Hj'; [done| | |].
        -- apply H12; [done|lia].
        -- intros Ha'. destruct (H12 a Ha') as [_ Hn]. by apply (Hn j); [lia|].
        -- apply (D j j' a); [lia|lia|congruence|done].
    + constructor; [|done]. split; [cbn; unfold fits; lia|exact Hc|]. exact (index_rep_wf s1 h1 0 ix own0 _ Hok1 Hix).
    + cbn. by rewrite Esc.
    + cbn [fmap list_fmap t_table_id_ length]. rewrite Eid, (seqZ_cons i) by lia. do 2 f_equal; lia.
    + intros a bs Ha. destruct (Hold1 a bs Ha) as [E Hn]. destruct (Hold2 a bs E) as [E2 Hn2].
      split; [done|]. intros [|j] Hj; [done|]. apply Hn2. cbn in Hj. lia.
Qed.

(** ** Operations on the tables of one copy *)
Fixpoint run_tables (lock : GlobalAddress → Z → DB S unit) (fuel : nat) (ops : list (Z * index_op))
    (ts : list Table) : DB S (list index_res * list Table) :=
  match ops with
  | [] => mret ([], ts)
  | (id, op_insert key ptr) :: ops =>
      t ← in_array (arr_get ts id);
      '(b, t) ← table_InsertRecord_with lock fuel [key] 1 ptr t;
      ts ← in_array (arr_set ts id t);
      '(rs, ts) ← run_tables lock fuel ops ts; mret (res_insert b :: rs, ts)
  | (id, op_search key) :: ops =>
      t ← in_array (arr_get ts id);
      a ← table_SearchRecord fuel key t;
      '(rs, ts) ← run_tables lock fuel ops ts; mret (res_search a :: rs, ts)
  end.

(** The reference: for each table the pointers added for each key. *)
Fixpoint ref_tables (ops : list (Z * index_op)) m : list index_res * (nat → Z → list GlobalAddress) :=
  match ops with
  | [] => ([], m)
  | (id, op_insert key ptr) :: ops =>
      let i := Z.to_nat id in
      let '(rs, m') := ref_tables ops (λ j, if bool_decide (j = i) then map_add (m i) key ptr else m j) in
      (res_insert (bool_decide (m i key = [])) :: rs, m')
  | (id, op_search key) :: ops =>
      let '(rs, m') := ref_tables ops m in (res_search (newest (m (Z.to_nat id) key)) :: rs, m')
  end.

Definition table_op_valid (n : nat) (o : Z * index_op) : Prop := 0 ≤ o.1 < Z.of_nat n ∧ op_valid o.2.

(** One insertion. *)
Lemma wp_table_insert lock k fuel i t key ptr s h ts own m (Q : bool * Table → S → Prop) :
  heap_ok s h → tables_rep k h ts own m → ts !! i = Some t → lock_returns lock → (k ≤ fuel)%nat →
  fits 64 key → ga_valid ptr → insert_room ≤ room s →
  (∀ t' own' h' s', heap_ok s' h' → same_table t t' →
     tables_rep (k + 1) h' (<[i := t']> ts) own' (λ j, if bool_decide (j = i) then map_add (m i) key ptr else m j) →
     (∀ a bs, h !! a = Some bs → (∀ j, (j < length ts)%nat → ¬ own j a) →
        h' !! a = Some bs ∧ ∀ j, (j < length ts)%nat → ¬ own' j a) →
     room s - insert_room ≤ room s' → Q (bool_decide (m i key = []), t') s') →
  wpd (table_InsertRecord_with lock fuel [key] 1 ptr t) Q s.
Proof.
  intros Hok R Hi Hlock Hf Hkey Hp Hr HQ. pose proof (lookup_lt_Some _ _ _ Hi) as Hlt.
  unfold table_InsertRecord_with. wpd_step. apply wpd_assert.
  { by rewrite (tr_secondary _ _ _ _ _ R i t Hi). }
  wpd_step. eapply wpd_in_array; [done|]. wpd_step.
  eapply (wp_index_insert lock k fuel key ptr s h); [done|by apply (tr_index _ _ _ _ _ R i)|done..|].
  intros own' h' s' ix' Hok' Hix' Hnew Hkeep Hsub Hr'. wpd_step.
  assert (∀ j a, (j < length ts)%nat → j ≠ i → own j a → h' !! a = h !! a ∧ ¬ own' a) as Hoth.
  { intros j a Hj Hne Ha. apply Hkeep; [by apply (tr_disjoint _ _ _ _ _ R j i)|].
    by eapply tables_rep_some; [exact R|exact Hj|]. }
  eapply (HQ _ (λ j, if bool_decide (j = i) then own' else own j) h'); [exact Hok'| | | |exact Hr'].
  - split_and!; [done..|]. by apply wrap_fits.
  - split.
    + intros j t' Ht'. destruct (decide (j = i)) as [->|Hne].
      * rewrite list_lookup_insert_eq in Ht' by done. injection Ht' as <-. by rewrite !bool_decide_true.
      * rewrite list_lookup_insert_ne in Ht' by done. rewrite !bool_decide_false by done.
        eapply index_rep_ext; [by apply (tr_index _ _ _ _ _ R j)|lia|].
        intros a Ha. by apply (Hoth j a); [eapply lookup_lt_Some|..].
    + intros j t' Ht'. destruct (decide (j = i)) as [->|Hne].
      * rewrite list_lookup_insert_eq in Ht' by done. injection Ht' as <-. cbn. by eapply (tr_secondary _ _ _ _ _ R i).
      * rewrite list_lookup_insert_ne in Ht' by done. by eapply (tr_secondary _ _ _ _ _ R j).
    + rewrite length_insert. intros j j' a Hj Hj' Hne.
      destruct (decide (j = i)) as [->|], (decide (j' = i)) as [->|]; [done| | |];
        rewrite ?(bool_decide_true _ eq_refl), ?bool_decide_false by done.
      * intros Ha Ha'. by destruct (Hoth j' a Hj' ltac:(done) Ha').
      * intros Ha. by apply (Hoth j a).
      * by apply (tr_disjoint _ _ _ _ _ R).
  - intros a bs Ha Hn. destruct (Hkeep a) as [E Hn']; [by apply Hn|by eexists|]. split; [congruence|].
    intros j Hj. destruct (decide (j = i)) as [->|]; [by rewrite bool_decide_true|].
    rewrite bool_decide_false by done. by apply Hn.
Qed.

Lemma tables_rep_fits k h ts own m i t :
  tables_rep k h ts own m → ts !! i = Some t → fits 64 (record_count_ (primary_index_ t)).
Proof. intros R Hi. destruct (tr_index _ _ _ _ _ R i t Hi) as (nd & bs & I & _). apply (ix_words _ _ _ _ _ _ I). Qed.

Lemma same_table_refl k h ts own m : tables_rep k h ts own m → Forall2 same_table ts ts.
Proof.
  intros R. apply Forall2_same_length_lookup_2; [done|]. intros i t t' Ht Ht'. simplify_eq.
  split_and!; [done..|]. by eapply tables_rep_fits.
Qed.

Lemma same_table_sym ts ts' : Forall2 same_table ts ts' → Forall2 same_table ts ts → Forall2 same_table ts' ts.
Proof.
  intros H H0. apply Forall2_same_length_lookup_2; [by rewrite (Forall2_length _ _ _ H)|].
  intros i t' t Ht' Ht. destruct (Forall2_lookup_lr _ _ _ _ _ _ H Ht Ht') as (? & ? & ? & ? & ?).
  destruct (Forall2_lookup_lr _ _ _ _ _ _ H0 Ht Ht) as (_ & _ & _ & _ & ?). by split_and!.
Qed.

Lemma same_table_trans ts ts1 ts2 :
  Forall2 same_table ts ts1 → Forall2 same_table ts1 ts2 → Forall2 same_table ts ts2.
Proof.
  intros H1 H2. apply Forall2_same_length_lookup_2;
    [by rewrite (Forall2_length _ _ _ H1), (Forall2_length _ _ _ H2)|].
  intros i t t2 Ht Ht2. destruct (Forall2_lookup_l _ _ _ _ _ H1 Ht) as (t1 & Ht1 & ? & ? & ? & ? & ?).
  destruct (Forall2_lookup_lr _ _ _ _ _ _ H2 Ht1 Ht2) as (? & ? & ? & ? & ?). split_and!; congruence.
Qed.

(** The blocks that belong to no table. *)
Definition keeps (n : nat) h own h' own' : Prop := ∀ a bs, h !! a = Some bs →
  (∀ j, (j < n)%nat → ¬ own j a) → h' !! a = Some bs ∧ ∀ j, (j < n)%nat → ¬ own' j a.

Lemma wp_run_tables lock fuel ops (Q : list index_res * list Table → S → Prop) : ∀ k s h ts own m,
  heap_ok s h → tables_rep k h ts own m → lock_returns lock → (k + length ops ≤ fuel)%nat →
  Forall (table_op_valid (length ts)) ops → insert_room * len ops ≤ room s →
  (∀ ts' own' h' s', heap_ok s' h' → Forall2 same_table ts ts' →
     tables_rep (k + length ops) h' ts' own' (ref_tables ops m).2 → keeps (length ts) h own h' own' →
     room s - insert_room * len ops ≤ room s' → Q ((ref_tables ops m).1, ts') s') →
  wpd (run_tables lock fuel ops ts) Q s.
Proof.
  assert (0 < insert_room) as Hpos by by vm_compute.
  revert Q. induction ops as [|[id o] ops IH]; intros Q k s h ts own m Hok R Hlock Hf Hv Hr HQ.
  - apply wpd_ret. rewrite Nat.add_0_r in HQ. apply (HQ ts own h); [done|by eapply same_table_refl|done|done|cbn; lia].
  - apply Forall_cons in Hv as [[Hid Ho] Hv]. cbn [length fst snd] in *.
    destruct (lookup_lt_is_Some_2 ts (Z.to_nat id)) as [t Ht]; [lia|].
    assert (arr_get ts id = Some t) as Eg by (rewrite <-(Z2Nat.id id) by lia; by rewrite arr_get_lookup).
    destruct o as [key ptr|key]; cbn [run_tables ref_tables] in *; wpd_step; (eapply wpd_in_array; [exact Eg|]); wpd_step.
    + destruct Ho as [Hk Hp]. destruct (ref_tables ops _) as [rs m'] eqn:Er.
      eapply (wp_table_insert lock k fuel (Z.to_nat id)); [done|done|done|done|lia|done|done|nia|].
      intros t' own1 h1 s1 Hok1 St R1 Hkeep1 Hr1. wpd_step. eapply wpd_in_array; [by apply arr_set_Some|]. wpd_step.
      eapply (IH _ (k + 1)%nat); [done|exact R1|done|lia|by rewrite length_insert|nia|]. rewrite Er.
      intros ts2 own2 h2 s2 Hok2 St2 R2 Hkeep2 Hr2. wpd_step. rewrite length_insert in Hkeep2.
      apply (HQ ts2 own2 h2); [done| |by replace (k + Datatypes.S (length ops))%nat with (k + 1 + length ops)%nat by lia| |nia].
      * eapply same_table_trans; [|exact St2]. rewrite <-(list_insert_id ts (Z.to_nat id) t Ht) at 1.
        apply Forall2_insert; [by eapply same_table_refl|done].
      * intros a bs Ha Hn. destruct (Hkeep1 a bs Ha Hn). by apply Hkeep2.
    + destruct (ref_tables ops m) as [rs m'] eqn:Er. unfold table_SearchRecord.
      eapply (wp_index_search k); [done|by apply (tr_index _ _ _ _ _ R (Z.to_nat id))|lia|].
      intros s1 Hok1 Hr1. wpd_step.
      eapply (IH _ k); [done|exact R|done|lia|done|nia|]. rewrite Er.
      intros ts2 own2 h2 s2 Hok2 St2 R2 Hkeep2 Hr2. wpd_step.
      apply (HQ ts2 own2 h2); [done|done| |done|nia].
      destruct R2 as [R2 Z2 D2]. split; [|done|done]. intros i t2 Ht2. eapply index_rep_ext; [by apply R2|lia|done].
Qed.

Lemma ref_tables_app ops ops' m :
  ref_tables (ops ++ ops') m =
  ((ref_tables ops m).1 ++ (ref_tables ops' (ref_tables ops m).2).1, (ref_tables ops' (ref_tables ops m).2).2).
Proof.
  revert m. induction ops as [|[id []] ops IH]; intros m; cbn [ref_tables app fst snd];
    [by destruct (ref_tables ops' m)|rewrite IH; by destruct (ref_tables ops _)..].
Qed.

Lemma tables_at_ext h h' a ts cs : ∀ x, h' !! a = h !! a → tables_at h a x ts cs → tables_at h' a x ts cs.
Proof.
  revert cs. induction ts as [|t ts IH]; intros [|c cs] x E; [done..|]. intros [[] ?].
  split; [|by apply IH]. split; by eapply has_bytes_ext.
Qed.
End shared.

(** C9: A database is shared between the nodes through the description that the first one
    stores: it registers its tables, stores the description and works on the tables; a
    second node reads the description, works on its tables; the first one goes on.  Insertions
    and searches through either set of objects, with a bucket lock that is granted, return
    what one map per table returns for the whole sequence; the rest of the memory is kept. *)
Theorem storage_shared {S} {J : Indeterminate} {G : GAlloc S} {GH : GHeap S} lock fuel scs cs ops1 ops2 ops3 (s : S) h :
  heap_ok s h → Forall2 schema_wf scs cs → len scs < kMaxTableNum → lock_returns lock →
  (length (ops1 ++ ops2 ++ ops3) ≤ fuel)%nat → Forall (table_op_valid (length scs)) (ops1 ++ ops2 ++ ops3) →
  table_room * len scs + (storage_serialize_size + 4096) + insert_room * len (ops1 ++ ops2 ++ ops3) ≤ room s →
  wpd (st ← RegisterTables scs;
       addr ← AlignedMalloc storage_serialize_size;
       storage_Serialize addr st;;
       '(rs1, ts1) ← run_tables lock fuel ops1 (tables_ st);
       copy ← storage_Deserialize addr;
       '(rs2, ts2) ← run_tables lock fuel ops2 (tables_ copy);
       '(rs3, ts3) ← run_tables lock fuel ops3 ts1;
       mret (t_schema_ptr_ <$> tables_ copy, rs1 ++ rs2 ++ rs3))
    (λ r s', r = (scs, (ref_tables (ops1 ++ ops2 ++ ops3) (λ _ _, [])).1) ∧
       ∃ h', heap_ok s' h' ∧ ∀ a bs, h !! a = Some bs → h' !! a = Some bs) s.
Proof.
  intros Hok Hw Hn Hlock Hf Hv Hr. assert (0 < insert_room ∧ 0 < table_room) as [Hip Htp] by by vm_compute.
  rewrite !length_app in Hf, Hr. apply Forall_app in Hv as [Hv1 [Hv2 Hv3]%Forall_app].
  change storage_serialize_size with 26408 in *. change kMaxTableNum with 16 in Hn.
  unfold RegisterTables. wpd_step. wpd_step. apply wpd_assert; [by apply Z.ltb_lt|]. wpd_step.
  eapply (wp_make_tables scs cs _ 0 s h); [done|done|lia|lia|nia|].
  intros ts own h1 s1 Hok1 R1 Hts Esc _ Hold Hr1. wpd_step. wpd_step.
  assert (length ts = length scs) as Elen by (by rewrite <-Esc, length_fmap).
  eapply wp_AlignedMalloc; [done|lia|lia|nia|]. intros a bs s2 Ha Hbs _ _ Hok2 Hr2. wpd_step.
  set (st := mk_StorageManager ts (len scs)).
  assert (storage_wf st cs) as W by (split; [cbn; by rewrite Elen|done]).
  eapply (wp_storage_Serialize s2 _ a 26408 st cs); [done|rewrite <-Hbs; apply blk_insert_same|done|done|].
  intros h3 s3 Hok3 At3 Ho3 Hr3. wpd_step.
  assert (∀ j b, (j < length ts)%nat → own j b → b ≠ a ∧ h3 !! b = h1 !! b) as Hown.
  { intros j b Hj Hb. destruct (tables_rep_some _ _ _ _ _ j b R1 Hj Hb) as [d E].
    assert (b ≠ a) as Hne by congruence. split; [done|]. by rewrite Ho3, lookup_insert_ne. }
  assert (tables_rep 0 h3 ts own (λ _ _, [])) as R3 by (eapply tables_rep_ext; [exact R1|]; intros; by eapply Hown).
  eapply (wp_run_tables lock fuel ops1 _ 0 s3 h3 ts own); [done|done|done|lia|by rewrite Elen|nia|].
  intros ts1 own4 h4 s4 Hok4 St4 R4 Hk4 Hr4. wpd_step.
  assert (∀ b, (∀ j, (j < length ts)%nat → ¬ own j b) → is_Some (h3 !! b) →
    h4 !! b = h3 !! b ∧ ∀ j, (j < length ts)%nat → ¬ own4 j b) as Hk4'.
  { intros b Hb [d E]. rewrite E. by apply Hk4. }
  destruct (Hk4' a) as [E4 Hn4].
  { intros j Hj Hb. by destruct (Hown j a Hj Hb). }
  { destruct At3 as [(d & E & _) _]. by eexists. }
  eapply (wp_storage_Deserialize s4 h4 a st cs); [done| |done|].
  { destruct At3 as [B T]. split; [by eapply has_bytes_ext|by eapply tables_at_ext]. }
  intros s5 Hok5 Hr5. wpd_step.
  pose proof (same_table_refl _ _ _ _ _ R3) as Sr.
  eapply (wp_run_tables lock fuel ops2 _ (0 + length ops1) s5 h4 ts own4);
    [done|by eapply tables_rep_same, same_table_sym|done|lia|by rewrite Elen|nia|].
  intros ts2 own6 h6 s6 Hok6 St6 R6 Hk6 Hr6. wpd_step.
  eapply (wp_run_tables lock fuel ops3 _ (0 + length ops1 + length ops2) s6 h6 ts1 own6); [done| |done|lia| |nia|].
  { eapply tables_rep_same; [exact R6|]. eapply same_table_trans; [by eapply same_table_sym|done]. }
  { by rewrite <-(Forall2_length _ _ _ St4), Elen. }
  intros ts3 own7 h7 s7 Hok7 _ _ Hk7 _. wpd_step. rewrite <-(Forall2_length _ _ _ St4) in Hk7.
  split; [rewrite !ref_tables_app; cbn; by rewrite Esc|]. exists h7. split; [done|].
  intros b d Hb. destruct (Hold b d Hb) as [E1 Hn1].
  assert (h3 !! b = Some d) as E3 by (rewrite Ho3 by congruence; rewrite lookup_insert_ne by congruence; done).
  destruct (Hk4 b d E3 Hn1) as [E4b Hn4b]. destruct (Hk6 b d E4b Hn4b) as [E6 Hn6]. by apply Hk7.
Qed.

(** ** Witnesses, on the memory of [DbFlat] *)
Lemma Forall_fits w l : forallb (λ v, (0 <=? v) && (v <? 2 ^ w)) l = true → Forall (fits w) l.
Proof.
  intros H. apply Forall_forall. intros v Hv. rewrite forallb_forall in H. apply list_elem_of_In in Hv.
  specialize (H v Hv). unfold fits. lia.
Qed.

Lemma ex_schema_wf : schema_wf ex_schema (default [] (columns_ ex_schema)).
Proof.
  split; try reflexivity.
  - by vm_compute.
  - repeat (apply Forall_cons_2; [|try apply Forall_nil_2]); cbn;
      repeat match goal with |- _ ∧ _ => split end; try reflexivity; try (by vm_compute);
      apply Forall_fits; reflexivity.
  - split; [reflexivity|]. by repeat constructor.
  - repeat (apply Forall_cons_2; [apply Forall_fits; reflexivity|]). apply Forall_nil_2.
Qed.

Definition ex_table (id : Z) : Table :=
  mk_Table id 0 ex_schema
    (mk_HashIndex (mk_GAddrArray (mk_GlobalAddress (4096 * id) 2) 3 10 [1; 1024; 205; 205] 1) 3 0).
Definition ex_storage : StorageManager := mk_StorageManager [ex_table 0; ex_table 1] 2.
Definition ex_cols : list ColumnInfo := default [] (columns_ ex_schema).

Lemma ex_table_wf id : 0 ≤ id < 2 → table_wf (ex_table id) ex_cols.
Proof.
  intros Hid. split; [split; cbn; unfold fits; lia|exact ex_schema_wf|]. split; cbn.
  - split; cbn; unfold fits; lia.
  - split; [reflexivity|]. by apply Forall_fits.
  - by apply Forall_fits.
  - by apply Forall_fits.
Qed.

Lemma storage_roundtrip_witness :
  ∃ (s : DbFlat.flat) h a n, heap_ok s h ∧ blk h a n ∧ storage_wf ex_storage [ex_cols; ex_cols] ∧
    wpd (storage_Serialize a ex_storage;; storage_Deserialize a) (λ st _, st = ex_storage) s.
Proof.
  destruct (flat_ok_malloc flat_init ∅ storage_serialize_size false flat_init_ok) as [_ Hok];
    [split; by vm_compute|by vm_compute|].
  match type of Hok with flat_ok ?s ?h => change (heap_ok s h) in Hok end.
  assert (storage_wf ex_storage [ex_cols; ex_cols]) as W.
  { split; [by vm_compute|]. apply Forall2_cons_2; [apply ex_table_wf; lia|].
    apply Forall2_cons_2; [apply ex_table_wf; lia|apply Forall2_nil_2]. }
  assert (∃ a n h (s : DbFlat.flat), heap_ok s h ∧ blk h a n ∧ storage_serialize_size ≤ n) as (a & n & h & s & Hs & Hb & Hn).
  { eexists _, _, _, _. split; [exact Hok|]. split; [apply blk_insert_same|]. rewrite fl_read_length; by vm_compute. }
  exists s, h, a, n. split; [exact Hs|]. split; [exact Hb|]. split; [exact W|].
  eapply wpd_mono; [exact (storage_roundtrip s h a n ex_storage _ Hs Hb Hn W)|]. by intros st s' [-> _].
Defined.

(** Two tables, a key inserted through the first copy, found through the second, and the
    other way round. *)
Lemma storage_shared_witness :
  wpd (st ← RegisterTables [ex_schema; ex_schema];
       addr ← AlignedMalloc storage_serialize_size;
       storage_Serialize addr st;;
       '(rs1, ts1) ← run_tables free_lock 6 [(1, op_insert 5 (ex_ptr 8))] (tables_ st);
       copy ← storage_Deserialize addr;
       '(rs2, ts2) ← run_tables free_lock 6 [(1, op_search 5); (0, op_search 5); (0, op_insert 7 (ex_ptr 9))] (tables_ copy);
       '(rs3, ts3) ← run_tables free_lock 6 [(0, op_search 7)] ts1;
       mret (t_schema_ptr_ <$> tables_ copy, rs1 ++ rs2 ++ rs3))
    (λ r _, r = ([ex_schema; ex_schema],
       [res_insert true; res_search (ex_ptr 8); res_search ga_Null; res_insert true; res_search (ex_ptr 9)]))
    flat_init.
Proof.
  eapply wpd_mono.
  - apply (storage_shared free_lock 6 [ex_schema; ex_schema] [ex_cols; ex_cols]
      [(1, op_insert 5 (ex_ptr 8))] [(1, op_search 5); (0, op_search 5); (0, op_insert 7 (ex_ptr 9))]
      [(0, op_search 7)] flat_init ∅).
    + exact flat_init_ok.
    + apply Forall2_cons_2; [exact ex_schema_wf|]. apply Forall2_cons_2; [exact ex_schema_wf|apply Forall2_nil_2].
    + by vm_compute.
    + exact free_lock_returns.
    + cbn. lia.
    + repeat (apply Forall_cons_2; [repeat split; by vm_compute|]). apply Forall_nil_2.
    + by vm_compute.
  - intros r s' [-> _]. by vm_compute.
Defined.
