(* ===== verification/DbTxn.v ===== *)
(** * DbTxn: the transaction manager

    [TransactionManager.h], [TransactionManager2PL.cpp], [TransactionManagerST.cpp] and
    [TxnAccess.h].  A thread keeps copies of the records that its transaction has read in
    an access list; [CommitTransaction] writes them back, [AbortTransaction] forgets
    them. *)
From S2P Require Import Prelude GlobalMem DbStore DbFlat DbDsm DbArray DbIndex DbSchema DbTable.
From stdpp Require Import base numbers option list list_numbers gmap.
Open Scope Z_scope.

(** ** [Meta.h] *)
Definition READ_ONLY : Z := 0.
Definition READ_WRITE : Z := 1.
Definition INSERT_ONLY : Z := 2.
Definition DELETE_ONLY : Z := 3.
Definition kTryLockLimit : Z := 1.
Definition kMaxAccessLimit : Z := 256.

(** ** [TxnAccess.h] *)
Record Access := mk_Access {
  access_type_ : Z;
  access_record_ : option nat;
  access_addr_ : GlobalAddress;
}.

(** A thread: the memory, the [Record] objects that it has made (a deleted one is [None];
    a pointer is the position), and the first [access_count_] entries of the access list. *)
Record thread (S : Type) := mk_thread {
  th_mem : S;
  th_records : list (option DbRecord);
  th_accesses : list Access;
}.
Arguments mk_thread {S} _ _ _.
Arguments th_mem {S} _.
Arguments th_records {S} _.
Arguments th_accesses {S} _.

(** The locks of [DSM] on records, by the thread whose allocator is used. *)
Class RecordLocks (S : Type) := {
  try_rlock : Z → GlobalAddress → Z → DB S Z;
  try_wlock : Z → GlobalAddress → Z → DB S Z;
  unlock : Z → GlobalAddress → Z → DB S unit;
}.

(** Those that [DSM.h] has. *)
Definition dsm_locks {S} : RecordLocks S := {|
  try_rlock _ := Try_RLock; try_wlock _ := Try_WLock; unlock _ := UnLock;
|}.

Section txn.
Context {S : Type} {J : Indeterminate} {G : GAlloc S} {L : RecordLocks S}.
Context (tables : list Table) (fuel : nat) (thread_id : Z).

Abbreviation TX := (DB (thread S)).

Definition lift {A} (m : DB S A) : TX A := λ w,
  match m (th_mem w) with
  | Done a s => Done a (mk_thread s (th_records w) (th_accesses w))
  | Raise e s => Raise e (mk_thread s (th_records w) (th_accesses w))
  end.

Definition modify (f : thread S → thread S) : TX unit := λ w, Done () (f w).

(** ** [Record] objects *)
Definition get_record (p : nat) : TX DbRecord := λ w,
  match th_records w !! p with
  | Some (Some r) => Done r w
  | _ => Raise undefined w
  end.
Definition put_record (p : nat) (r : DbRecord) : TX unit :=
  modify (λ w, mk_thread (th_mem w) (<[p := Some r]> (th_records w)) (th_accesses w)).
Definition new_record (sc : RecordSchema) : TX nat := λ w,
  Done (length (th_records w)) (mk_thread (th_mem w) (th_records w ++ [Some (new_Record sc)]) (th_accesses w)).
Definition delete_record (p : nat) : TX unit :=
  _ ← get_record p;
  modify (λ w, mk_thread (th_mem w) (<[p := None]> (th_records w)) (th_accesses w)).

(** A call of a method that asserts. *)
Definition checked {A} (x : option A) : TX A :=
  match x with Some a => mret a | None => raise assertion_failed end.

Definition get_column_of (p : nat) (col_id : Z) : TX (list Z) :=
  r ← get_record p; checked (GetColumn col_id r).
Definition set_column_of (p : nat) (col_id : Z) (data : list Z) : TX unit :=
  r ← get_record p; r ← checked (SetColumn col_id data r); put_record p r.
Definition set_visible_of (p : nat) (val : bool) : TX unit :=
  r ← get_record p; r ← checked (SetVisible val r); put_record p r.

(** ** [AccessList] *)
Definition get_accesses : TX (list Access) := λ w, Done (th_accesses w) w.
Definition NewAccess (a : Access) : TX unit :=
  accs ← get_accesses;
  assert_ (len accs <? kMaxAccessLimit);;
  modify (λ w, mk_thread (th_mem w) (th_records w) (th_accesses w ++ [a])).
Definition Clear : TX unit := modify (λ w, mk_thread (th_mem w) (th_records w) []).

(** ** Locking a record *)
Fixpoint try_lock (limit : nat) (try : DB S Z) : DB S bool :=
  r ← try;
  if r =? 0 then mret true
  else match limit with
       | Datatypes.S (Datatypes.S _ as limit) => try_lock limit try
       | _ => mret false
       end.
Definition TryWLockRecord (data_addr : GlobalAddress) (schema_size : Z) : DB S bool :=
  try_lock (Z.to_nat kTryLockLimit) (try_wlock thread_id data_addr schema_size).
Definition TryRLockRecord (data_addr : GlobalAddress) (schema_size : Z) : DB S bool :=
  try_lock (Z.to_nat kTryLockLimit) (try_rlock thread_id data_addr schema_size).
Definition UnLockRecord (data_addr : GlobalAddress) (schema_size : Z) : DB S unit :=
  unlock thread_id data_addr schema_size.

(** ** [TransactionManager2PL.cpp] *)
Definition AbortTransaction : TX unit :=
  accs ← get_accesses;
  for_each accs (λ a,
    p ← in_array (access_record_ a);
    r ← get_record p;
    lift (UnLockRecord (access_addr_ a) (GetSchemaSize (schema_ptr_ r)));;
    if access_type_ a =? INSERT_ONLY
    then set_visible_of p false;; lift (Free (access_addr_ a))
    else mret ());;
  for_each accs (λ a, p ← in_array (access_record_ a); delete_record p);;
  Clear.

Definition InsertRecord (table_id : Z) (keys : list Z) (key_num : Z) (record : nat)
    (data_addr : GlobalAddress) : TX bool :=
  t ← in_array (arr_get tables table_id);
  lock_success ← lift (TryWLockRecord data_addr (GetSchemaSize (t_schema_ptr_ t)));
  assert_ lock_success;;
  set_visible_of record true;;
  NewAccess (mk_Access INSERT_ONLY (Some record) data_addr);;
  mret true.

(** The record, or [None] for [false]. *)
Definition SelectRecordCC (table_id : Z) (data_addr : GlobalAddress) (access_type : Z) : TX (option nat) :=
  t ← in_array (arr_get tables table_id);
  let schema := t_schema_ptr_ t in
  lock_success ← lift (if access_type =? READ_ONLY
                       then TryRLockRecord data_addr (GetSchemaSize schema)
                       else TryWLockRecord data_addr (GetSchemaSize schema));
  if (lock_success : bool) then
    p ← new_record schema;
    r ← get_record p;
    r ← lift (record_Deserialize data_addr r);
    put_record p r;;
    NewAccess (mk_Access access_type (Some p) data_addr);;
    (if access_type =? DELETE_ONLY then set_visible_of p false else mret ());;
    mret (Some p)
  else AbortTransaction;; mret None.

Definition CommitTransaction : TX bool :=
  accs ← get_accesses;
  for_each accs (λ a,
    assert_ ((access_type_ a =? READ_ONLY) || (access_type_ a =? DELETE_ONLY) ||
             (access_type_ a =? INSERT_ONLY) || (access_type_ a =? READ_WRITE));;
    p ← in_array (access_record_ a);
    r ← get_record p;
    (if access_type_ a =? READ_WRITE then lift (record_Serialize (access_addr_ a) r)
     else if access_type_ a =? DELETE_ONLY then lift (record_Serialize (access_addr_ a) r)
     else mret ());;
    lift (UnLockRecord (access_addr_ a) (GetSchemaSize (schema_ptr_ r))));;
  for_each accs (λ a,
    (if access_type_ a =? DELETE_ONLY then lift (Free (access_addr_ a)) else mret ());;
    p ← in_array (access_record_ a); delete_record p);;
  Clear;;
  mret true.

(** ** [TransactionManager.h] *)
(** Callers see [true] and the record, or [false]: for a key that is not found, and for a
    lock that is refused, when the transaction has been aborted. *)
Inductive search_result := not_found | refused | found (record : nat).

Definition SearchRecord_result (table_id primary_key access_type : Z) : TX search_result :=
  t ← in_array (arr_get tables table_id);
  data_addr ← lift (table_SearchRecord fuel primary_key t);
  if ga_eqb data_addr ga_Null then mret not_found
  else
    ret ← SelectRecordCC table_id data_addr access_type;
    mret (match ret with Some p => found p | None => refused end).

Definition SearchRecord (table_id primary_key access_type : Z) : TX (option nat) :=
  ret ← SearchRecord_result table_id primary_key access_type;
  mret (match ret with found p => Some p | _ => None end).

(** [DB_QUERY] ([StoredProcedure.h]) *)
Definition DB_QUERY {A} (statement : TX (option A)) (rest : A → TX bool) : TX bool :=
  ret ← statement;
  match ret with Some a => rest a | None => mret false end.

(** ** [TransactionManagerST.cpp], without concurrency control *)
Definition st_InsertRecord (table_id : Z) (keys : list Z) (key_num : Z) (record : nat)
    (record_addr : GlobalAddress) : TX bool :=
  NewAccess (mk_Access INSERT_ONLY (Some record) record_addr);; mret true.

Definition st_SelectRecordCC (table_id : Z) (record_addr : GlobalAddress) (access_type : Z) : TX (option nat) :=
  t ← in_array (arr_get tables table_id);
  p ← new_record (t_schema_ptr_ t);
  r ← get_record p;
  r ← lift (record_Deserialize record_addr r);
  put_record p r;;
  NewAccess (mk_Access access_type (Some p) record_addr);;
  mret (Some p).

Definition st_CommitTransaction : TX bool :=
  accs ← get_accesses;
  for_each accs (λ a,
    (if access_type_ a =? INSERT_ONLY then lift (Free (access_addr_ a)) else mret ());;
    p ← in_array (access_record_ a); delete_record p);;
  Clear;;
  mret true.

Definition st_AbortTransaction : TX unit := assert_ false.
End txn.

(** ** The promises of locks

    What the locks grant is a function of a state of theirs that the memory does not
    change. *)
Class LockSpec (S : Type) {G : GAlloc S} {GH : GHeap S} {L : RecordLocks S} := {
  lk_state : Type;
  lk_of : S → lk_state;
  lk_try : bool → Z → GlobalAddress → lk_state → option lk_state;
  lk_release : Z → GlobalAddress → lk_state → lk_state;
  ls_try ex t a n s : wpd ((if ex : bool then try_wlock else try_rlock) t a n) (λ r s',
    (∀ h, heap_ok s h → heap_ok s' h) ∧ room s' = room s ∧
    match lk_try ex t a (lk_of s) with
    | Some l => r = 0 ∧ lk_of s' = l
    | None => r ≠ 0 ∧ lk_of s' = lk_of s
    end) s;
  ls_unlock t a n s : wpd (unlock t a n) (λ _ s',
    (∀ h, heap_ok s h → heap_ok s' h) ∧ room s' = room s ∧ lk_of s' = lk_release t a (lk_of s)) s;
  ls_read a n s r s' : ga_read a n s = Done r s' → lk_of s' = lk_of s;
  ls_write a d s r s' : ga_write a d s = Done r s' → lk_of s' = lk_of s;
  ls_malloc n b s r s' : ga_malloc n b s = Done r s' → lk_of s' = lk_of s;
  ls_free a s r s' : ga_free a s = Done r s' → lk_of s' = lk_of s;
}.

(** The locks of [DSM.h] are always granted. *)
#[export] Program Instance dsm_locks_spec {S} {G : GAlloc S} {GH : GHeap S} : LockSpec (L := dsm_locks) S := {|
  lk_state := unit; lk_of _ := (); lk_try _ _ _ l := Some l; lk_release _ _ l := l;
|}.
Next Obligation. intros S G GH [] t a n s; unfold wpd; cbn; by split_and!. Qed.
Next Obligation. intros. unfold wpd. cbn. by split_and!. Qed.
Next Obligation. done. Qed.
Next Obligation. done. Qed.
Next Obligation. done. Qed.
Next Obligation. done. Qed.

(** ** What a transaction holds: the type of an access, the record's address and its copy *)
Record held := mk_held { hd_type : Z; hd_addr : GlobalAddress; hd_record : DbRecord }.

Section rules.
Context {S : Type} {J : Indeterminate} {G : GAlloc S} {L : RecordLocks S} {GH : GHeap S} {LS : LockSpec S}.
Context (tables : list Table) (fuel : nat) (thread_id : Z).
Implicit Types (s : S) (h : heap) (l : lk_state) (w : thread S).

(** The memory while the state of the locks is [l]. *)
Program Definition fixed_gheap (l : lk_state) : GHeap S := {|
  heap_ok s h := heap_ok s h ∧ lk_of s = l; room := room;
|}.
Next Obligation. intros l s h a bs [Hok _]. by eapply gh_block. Qed.
Next Obligation.
  intros l s h a bs off n [Hok Hl] ? ? ? ?. destruct (wpd_run _ _ _ (gh_read s h a bs off n Hok ltac:(done) ltac:(done) ltac:(done) ltac:(done)))
    as (r & s' & E & ? & ? & ?). eapply wpd_done; [exact E|]. split_and!; [done|done| |done]. by rewrite (ls_read _ _ _ _ _ E).
Qed.
Next Obligation.
  intros l s h a bs off d [Hok Hl] ? ? ? ?. destruct (wpd_run _ _ _ (gh_write s h a bs off d Hok ltac:(done) ltac:(done) ltac:(done) ltac:(done)))
    as (r & s' & E & ? & ?). eapply wpd_done; [exact E|]. split_and!; [done| |done]. by rewrite (ls_write _ _ _ _ _ E).
Qed.
Next Obligation.
  intros l s h n b [Hok Hl] ? ? ?. destruct (wpd_run _ _ _ (gh_malloc s h n b Hok ltac:(done) ltac:(done) ltac:(done)))
    as (r & s' & E & bs & ? & ? & ? & ?). eapply wpd_done; [exact E|]. exists bs. split_and!; [done|done|done| |done].
  by rewrite (ls_malloc _ _ _ _ _ E).
Qed.
Next Obligation.
  intros l s h a [Hok Hl]. destruct (wpd_run _ _ _ (gh_free s h a Hok)) as (r & s' & E & ? & ?).
  eapply wpd_done; [exact E|]. split_and!; [done| |done]. by rewrite (ls_free _ _ _ _ E).
Qed.

(** The memory of a thread. *)
Definition mem_ok (w : thread S) (l : lk_state) (h : heap) : Prop := heap_ok (th_mem w) h ∧ lk_of (th_mem w) = l.

Lemma wpd_lift {A} (m : DB S A) (Q : A → thread S → Prop) w :
  wpd m (λ a s, Q a (mk_thread s (th_records w) (th_accesses w))) (th_mem w) → wpd (lift m) Q w.
Proof. unfold wpd, lift. by destruct (m (th_mem w)). Qed.

Lemma wpd_modify (f : thread S → thread S) (Q : unit → thread S → Prop) w : Q () (f w) → wpd (modify f) Q w.
Proof. done. Qed.

Lemma wpd_get_accesses (Q : list Access → thread S → Prop) w : Q (th_accesses w) w → wpd get_accesses Q w.
Proof. done. Qed.

Lemma wpd_new_record sc (Q : nat → thread S → Prop) w :
  Q (length (th_records w)) (mk_thread (th_mem w) (th_records w ++ [Some (new_Record sc)]) (th_accesses w)) →
  wpd (new_record sc) Q w.
Proof. done. Qed.

Lemma wpd_get_record p r (Q : DbRecord → thread S → Prop) w :
  th_records w !! p = Some (Some r) → Q r w → wpd (get_record p) Q w.
Proof. intros E HQ. unfold wpd, get_record. by rewrite E. Qed.

Lemma wpd_checked {A} (x : option A) a (Q : A → thread S → Prop) w : x = Some a → Q a w → wpd (checked x) Q w.
Proof. by intros ->. Qed.

(** ** Locks *)
Lemma wp_try_lock limit ex t a n s h l (Q : bool → S → Prop) :
  heap_ok s h → lk_of s = l → (0 < limit)%nat →
  (∀ s', heap_ok s' h → room s' = room s →
     match lk_try ex t a l with
     | Some l' => lk_of s' = l' → Q true s'
     | None => lk_of s' = l → Q false s' end) →
  wpd (try_lock limit ((if ex : bool then try_wlock else try_rlock) t a n)) Q s.
Proof.
  intros Hok Hl Hlim HQ. revert s Hok Hl HQ. induction limit as [|limit IH]; intros s Hok Hl HQ; [lia|].
  cbn [try_lock]. wpd_step. eapply wpd_mono; [apply ls_try|]. cbn beta. intros r s' (Hk & Hr & Hm).
  specialize (HQ s' (Hk _ Hok) Hr) as HQ'. rewrite Hl in Hm.
  destruct (lk_try ex t a l) as [l'|] eqn:Et; destruct Hm as [Er El].
  - rewrite Er. apply wpd_ret. by apply HQ'.
  - destruct (Z.eqb_spec r 0); [done|]. destruct limit as [|limit]; [apply wpd_ret; by apply HQ'|].
    apply IH; [lia|by apply Hk|congruence|]. intros s2 Hok2 Hr2. rewrite Hr in Hr2.
    by apply HQ.
Qed.

(** ** The access list *)
Definition acc_rel (recs : list (option DbRecord)) (a : Access) (x : held) : Prop :=
  access_type_ a = hd_type x ∧ access_addr_ a = hd_addr x ∧
  ∃ p, access_record_ a = Some p ∧ recs !! p = Some (Some (hd_record x)).

(** A thread holds [hs]. *)
Record thread_rep (w : thread S) (hs : list held) : Prop := {
  tp_held : Forall2 (acc_rel (th_records w)) (th_accesses w) hs;
  tp_nodup : NoDup (access_record_ <$> th_accesses w);
}.

Lemma acc_rel_other recs p r a x :
  acc_rel recs a x → access_record_ a ≠ Some p → acc_rel (<[p := r]> recs) a x.
Proof.
  intros (Et & Ea & q & Eq & Er) Hne. split_and!; [done|done|]. exists q. split; [done|].
  rewrite list_lookup_insert_ne; [done|congruence].
Qed.

Lemma acc_rels_other recs p r accs hs :
  Forall2 (acc_rel recs) accs hs → Some p ∉ access_record_ <$> accs → Forall2 (acc_rel (<[p := r]> recs)) accs hs.
Proof.
  intros H Hp. induction H as [|a x accs hs Hax H IH]; [constructor|].
  rewrite fmap_cons, not_elem_of_cons in Hp. destruct Hp. constructor; [by apply acc_rel_other|by apply IH].
Qed.

Lemma acc_rels_app recs recs' accs hs : Forall2 (acc_rel recs) accs hs → Forall2 (acc_rel (recs ++ recs')) accs hs.
Proof.
  intros H. eapply Forall2_impl; [exact H|]. intros a x (? & ? & p & ? & E). split_and!; [done..|].
  exists p. split; [done|]. by apply lookup_app_l_Some.
Qed.

(** The copy of access [i] is replaced. *)
Lemma acc_rels_update recs accs hs i a x p r :
  Forall2 (acc_rel recs) accs hs → NoDup (access_record_ <$> accs) → accs !! i = Some a → hs !! i = Some x →
  access_record_ a = Some p →
  Forall2 (acc_rel (<[p := Some r]> recs)) accs (<[i := mk_held (hd_type x) (hd_addr x) r]> hs).
Proof.
  intros H Hnd Ha Hx Hp. apply Forall2_same_length_lookup_2; [by rewrite length_insert, (Forall2_length _ _ _ H)|].
  intros j b y Hb Hy. destruct (decide (j = i)) as [->|Hne].
  - rewrite list_lookup_insert_eq in Hy by (by eapply lookup_lt_Some). simplify_eq.
    destruct (Forall2_lookup_lr _ _ _ _ _ _ H Ha Hx) as (? & ? & q & Eq & Er). simplify_eq.
    split_and!; [done..|]. exists p. split; [done|]. cbn. apply list_lookup_insert_eq. by eapply lookup_lt_Some.
  - rewrite list_lookup_insert_ne in Hy by done. apply acc_rel_other; [by eapply Forall2_lookup_lr|].
    intros Hq. apply Hne. eapply (NoDup_lookup _ _ _ (Some p) Hnd); by rewrite list_lookup_fmap, ?Ha, ?Hb; cbn; congruence.
Qed.

Lemma acc_rels_addrs recs accs hs : Forall2 (acc_rel recs) accs hs → access_addr_ <$> accs = hd_addr <$> hs.
Proof. induction 1 as [|a x accs hs (_ & E & _) _ IH]; [done|]. cbn. by rewrite E, IH. Qed.

(** Records with a visibility column, of the size of their block. *)
Definition rec_ok (r : DbRecord) (cols : list ColumnInfo) : Prop :=
  record_ok r cols ∧ ∃ c, last cols = Some c ∧ column_size_ c = 1.
Definition held_ok (h : heap) (x : held) : Prop :=
  (∃ cols, rec_ok (hd_record x) cols) ∧ ∃ n, blk h (hd_addr x) n ∧ len (data_ptr_ (hd_record x)) ≤ n.

Lemma rec_ok_pos r cols : rec_ok r cols → 0 < len (data_ptr_ r).
Proof.
  intros [[Sc El] (c & Hc & _)]. rewrite last_lookup in Hc. destruct (sk_range _ _ Sc _ c Hc) as (? & ? & ?). lia.
Qed.

Lemma rec_ok_visible r cols v : rec_ok r cols → ∃ r', SetVisible v r = Some r' ∧ rec_ok r' cols ∧
  GetVisible r' = Some v ∧ schema_ptr_ r' = schema_ptr_ r.
Proof.
  intros [Hr (c & Hc & H1)]. destruct (SetVisible_ok r cols c v Hr Hc H1) as (r' & E & Hr' & Ev & Es).
  exists r'. split_and!; [done|split; [done|by exists c]|done|done].
Qed.

Lemma wp_set_visible p v r cols w (Q : unit → thread S → Prop) :
  th_records w !! p = Some (Some r) → rec_ok r cols →
  (∀ r', SetVisible v r = Some r' → rec_ok r' cols → schema_ptr_ r' = schema_ptr_ r →
     Q () (mk_thread (th_mem w) (<[p := Some r']> (th_records w)) (th_accesses w))) →
  wpd (set_visible_of p v) Q w.
Proof.
  intros Hp Hr HQ. destruct (rec_ok_visible r cols v Hr) as (r' & E & Hr' & _ & Es).
  unfold set_visible_of. wpd_step. eapply wpd_get_record; [exact Hp|]. wpd_step.
  eapply wpd_checked; [exact E|]. by apply HQ.
Qed.

(** ** The effects of ending a transaction *)
Definition writes_back (x : held) : bool := (hd_type x =? READ_WRITE) || (hd_type x =? DELETE_ONLY).
Definition commit_one (h : heap) (x : held) : heap :=
  if writes_back x then put (hd_addr x) 0 (data_ptr_ (hd_record x)) h else h.
Definition commit_heap (hs : list held) (h : heap) : heap := foldl commit_one h hs.
Definition release_all (hs : list held) (l : lk_state) : lk_state :=
  foldl (λ l a, lk_release thread_id a l) l (hd_addr <$> hs).

Lemma commit_one_blk h x a n : held_ok h x → blk h a n → blk (commit_one h x) a n.
Proof.
  intros [_ (k & Hb & Hl)] Ha. unfold commit_one. destruct (writes_back x); [|done].
  eapply blk_put; [exact Hb|done|lia|done].
Qed.

Lemma commit_one_held h x y : held_ok h x → held_ok h y → held_ok (commit_one h x) y.
Proof.
  intros Hx [Hc (n & Hb & Hl)]. split; [done|]. exists n. split; [|done]. by apply commit_one_blk.
Qed.

(** The deletion of the copies. *)
Lemma wp_delete_all (free : Access → bool) l h accs (Q : unit → thread S → Prop) w :
  mem_ok w l h → NoDup (access_record_ <$> accs) →
  (∃ hs, Forall2 (acc_rel (th_records w)) accs hs) →
  (∀ w', mem_ok w' l h → room (th_mem w') = room (th_mem w) → th_accesses w' = th_accesses w → Q () w') →
  wpd (for_each accs (λ a,
    (if free a then lift (Free (access_addr_ a)) else mret ());;
    p ← in_array (access_record_ a); delete_record p)) Q w.
Proof.
  intros Hm Hnd [hs Hhs] HQ.
  apply (wpd_for_each _ _ (λ rest w', mem_ok w' l h ∧ room (th_mem w') = room (th_mem w) ∧
    th_accesses w' = th_accesses w ∧ NoDup (access_record_ <$> rest) ∧
    ∃ hs, Forall2 (acc_rel (th_records w')) rest hs)).
  - split_and!; eauto.
  - intros a rest w1 (Hm1 & Hr1 & Ea1 & Hnd1 & hs1 & Hhs1).
    apply Forall2_cons_inv_l in Hhs1 as (x & hs2 & (Et & Ead & p & Ep & Er) & Hhs2 & ->).
    rewrite fmap_cons in Hnd1. apply NoDup_cons in Hnd1 as [Hni Hnd2]. rewrite Ep in Hni. wpd_step.
    assert (∀ w2 : thread S, mem_ok w2 l h → room (th_mem w2) = room (th_mem w1) → th_accesses w2 = th_accesses w1 →
      th_records w2 = th_records w1 →
      wpd (p ← in_array (access_record_ a); delete_record p) (λ _ w', mem_ok w' l h ∧ room (th_mem w') = room (th_mem w) ∧
        th_accesses w' = th_accesses w ∧ NoDup (access_record_ <$> rest) ∧
        ∃ hs, Forall2 (acc_rel (th_records w')) rest hs) w2) as Hdel.
    { intros w2 Hm2 Hr2 Ea2 Er2. wpd_step. eapply wpd_in_array; [exact Ep|]. unfold delete_record. wpd_step.
      eapply wpd_get_record; [by rewrite Er2|]. apply wpd_modify. split_and!; cbn; [exact Hm2|congruence|congruence|done|].
      exists hs2. rewrite Er2. by apply acc_rels_other. }
    destruct (free a); [|wpd_step; by apply Hdel].
    apply wpd_lift. eapply wpd_mono; [exact (gh_free (GHeap := fixed_gheap l) (th_mem w1) h _ Hm1)|].
    intros [] s2 [Hm2 Hr2]. by apply Hdel.
  - intros w' (Hm' & Hr' & Ea' & _). by apply HQ.
Qed.

Lemma commit_heap_app hs x h : commit_heap (hs ++ [x]) h = commit_one (commit_heap hs h) x.
Proof. unfold commit_heap. by rewrite foldl_app. Qed.
Lemma release_all_app hs x l : release_all (hs ++ [x]) l = lk_release thread_id (hd_addr x) (release_all hs l).
Proof. unfold release_all. by rewrite fmap_app, foldl_app. Qed.

(** The first loop of [CommitTransaction], when [rest] is left of the accesses. *)
Record committing w l h hs (rest : list Access) (w' : thread S) (done todo : list held) : Prop := {
  cm_split : hs = done ++ todo;
  cm_rest : Forall2 (acc_rel (th_records w)) rest todo;
  cm_records : th_records w' = th_records w;
  cm_accesses : th_accesses w' = th_accesses w;
  cm_mem : mem_ok w' (release_all done l) (commit_heap done h);
  cm_room : room (th_mem w') = room (th_mem w);
  cm_ok : Forall (held_ok (commit_heap done h)) todo;
}.

Lemma wp_commit_unlock w l h hs a rest w1 dn x todo w2 :
  committing w l h hs (a :: rest) w1 dn (x :: todo) →
  th_records w2 = th_records w1 → th_accesses w2 = th_accesses w1 →
  mem_ok w2 (release_all dn l) (commit_heap (dn ++ [x]) h) → room (th_mem w2) = room (th_mem w1) →
  wpd (lift (UnLockRecord thread_id (access_addr_ a) (GetSchemaSize (schema_ptr_ (hd_record x)))))
    (λ _ w', ∃ done todo, committing w l h hs rest w' done todo) w2.
Proof.
  intros [Ehs Hr Erec Eacc _ Hrm Hok] Er2 Ea2 [Hm2 Hl2] Hrm2. apply wpd_lift.
  apply Forall2_cons in Hr as [(_ & Ea & _) Hr]. apply Forall_cons in Hok as [Hx Hok].
  eapply wpd_mono; [apply ls_unlock|]. intros [] s3 (Hk3 & Hrm3 & Hl3). exists (dn ++ [x]), todo.
  split; cbn; [by rewrite <-app_assoc|done|congruence|congruence| |congruence|].
  - split; [by apply Hk3|]. by rewrite release_all_app, <-Ea, <-Hl2.
  - rewrite commit_heap_app. eapply Forall_impl; [exact Hok|]. intros y Hy. by apply commit_one_held.
Qed.

Lemma wp_commit_write w l h a x n (Q : unit → thread S → Prop) :
  mem_ok w l h → access_addr_ a = hd_addr x → held_ok h x → writes_back x = true →
  (∀ w', th_records w' = th_records w → th_accesses w' = th_accesses w → mem_ok w' l (commit_one h x) →
     room (th_mem w') = room (th_mem w) → Q () w') →
  n = GetSchemaSize (schema_ptr_ (hd_record x)) → wpd (lift (record_Serialize (access_addr_ a) (hd_record x))) Q w.
Proof.
  intros [Hm Hl] Ea [(cols & Hr) (k & Hb & Hk)] Hwb HQ _. apply wpd_lift.
  destruct (blk_valid _ _ _ _ Hm Hb) as (_ & _ & E0). rewrite Ea.
  eapply (wp_record_Serialize (GH := fixed_gheap l) _ h _ (hd_addr x) 0 k);
    [by split|by symmetry|lia|done|by eapply rec_ok_pos|lia|].
  intros s2 Hm2 Hrm2. apply HQ; [done|done| |done]. unfold commit_one. by rewrite Hwb.
Qed.

Lemma wp_commit_loop w l h hs (Q : unit → thread S → Prop) :
  mem_ok w l h → Forall2 (acc_rel (th_records w)) (th_accesses w) hs → Forall (held_ok h) hs →
  Forall (λ x, 0 ≤ hd_type x < 4) hs →
  (∀ w', mem_ok w' (release_all hs l) (commit_heap hs h) → th_records w' = th_records w →
     th_accesses w' = th_accesses w → room (th_mem w') = room (th_mem w) → Q () w') →
  wpd (for_each (th_accesses w) (λ a,
    assert_ ((access_type_ a =? READ_ONLY) || (access_type_ a =? DELETE_ONLY) ||
             (access_type_ a =? INSERT_ONLY) || (access_type_ a =? READ_WRITE));;
    p ← in_array (access_record_ a);
    r ← get_record p;
    (if access_type_ a =? READ_WRITE then lift (record_Serialize (access_addr_ a) r)
     else if access_type_ a =? DELETE_ONLY then lift (record_Serialize (access_addr_ a) r)
     else mret ());;
    lift (UnLockRecord thread_id (access_addr_ a) (GetSchemaSize (schema_ptr_ r))))) Q w.
Proof.
  intros Hm Hrel Hok Hty HQ.
  apply (wpd_for_each _ _ (λ rest w', ∃ done todo, committing w l h hs rest w' done todo)).
  - exists [], hs. by split.
  - intros a rest w1 (dn & todo & C). pose proof C as [Ehs Hr Erec Eacc Hm1 Hrm1 Hok1].
    pose proof Hr as Hr'. apply Forall2_cons_inv_l in Hr' as (x & todo' & (Et & Ea & p & Ep & Er) & _ & ->).
    apply Forall_cons in Hok1 as [Hx _].
    assert (0 ≤ hd_type x < 4) as Htx by (rewrite Ehs, Forall_app, Forall_cons in Hty; by destruct Hty as (_ & ? & _)).
    wpd_step. apply wpd_assert.
    { rewrite Et. unfold READ_ONLY, DELETE_ONLY, INSERT_ONLY, READ_WRITE. lia. }
    wpd_step. eapply wpd_in_array; [exact Ep|]. wpd_step. eapply wpd_get_record; [by rewrite Erec|]. wpd_step.
    assert (writes_back x = true → wpd (lift (record_Serialize (access_addr_ a) (hd_record x))) (λ _, wpd
      (lift (UnLockRecord thread_id (access_addr_ a) (GetSchemaSize (schema_ptr_ (hd_record x)))))
      (λ _ w', ∃ done todo, committing w l h hs rest w' done todo)) w1) as Hwr.
    { intros Hwb. eapply wp_commit_write; [exact Hm1|done|done|done| |done].
      intros w2 ? ? Hm2 ?. eapply wp_commit_unlock; [exact C|done|done| |done]. by rewrite commit_heap_app. }
    rewrite Et. unfold writes_back in Hwr.
    destruct (Z.eqb_spec (hd_type x) READ_WRITE); [by apply Hwr|].
    destruct (Z.eqb_spec (hd_type x) DELETE_ONLY); [by apply Hwr|].
    wpd_step. eapply wp_commit_unlock; [exact C|done|done| |done]. rewrite commit_heap_app.
    unfold commit_one, writes_back. by rewrite !(proj2 (Z.eqb_neq _ _)) by done.
  - intros w1 (dn & todo & [Ehs Hr Erec Eacc Hm1 Hrm1 _]). apply Forall2_nil_inv_l in Hr as ->.
    rewrite app_nil_r in Ehs. subst dn. by apply HQ.
Qed.

(** [CommitTransaction] writes the copies that were taken to be written, in the order in
    which they were taken. *)
Lemma wp_commit w l h hs (Q : bool → thread S → Prop) :
  mem_ok w l h → thread_rep w hs → Forall (held_ok h) hs → Forall (λ x, 0 ≤ hd_type x < 4) hs →
  (∀ w', mem_ok w' (release_all hs l) (commit_heap hs h) → thread_rep w' [] →
     room (th_mem w') = room (th_mem w) → Q true w') →
  wpd (CommitTransaction thread_id) Q w.
Proof.
  intros Hm [Hrel Hnd] Hok Hty HQ. unfold CommitTransaction. wpd_step. apply wpd_get_accesses. wpd_step.
  eapply wp_commit_loop; [done..|]. intros w1 Hm1 Er1 Ea1 Hr1. wpd_step.
  apply (wp_delete_all (λ a, access_type_ a =? DELETE_ONLY) _ _ _ _ _ Hm1); [done|exists hs; by rewrite Er1|].
  intros w2 Hm2 Hrm2 Ea2. wpd_step. apply wpd_modify. wpd_step.
  apply HQ; [exact Hm2|by split; constructor|cbn; congruence].
Qed.

(** The first loop of [AbortTransaction], after the accesses [pre]. *)
Record aborting w l h accs (pre rest : list Access) (w' : thread S) (hs : list held) : Prop := {
  ab_split : accs = pre ++ rest;
  ab_rel : Forall2 (acc_rel (th_records w')) accs hs;
  ab_ok : Forall (λ x, ∃ cols, rec_ok (hd_record x) cols) hs;
  ab_accesses : th_accesses w' = th_accesses w;
  ab_mem : mem_ok w' (foldl (λ l a, lk_release thread_id a l) l (access_addr_ <$> pre)) h;
  ab_room : room (th_mem w') = room (th_mem w);
}.

Lemma wp_abort_one w l h accs pre a rest w1 hs :
  NoDup (access_record_ <$> accs) → aborting w l h accs pre (a :: rest) w1 hs →
  wpd (p ← in_array (access_record_ a);
       r ← get_record p;
       lift (UnLockRecord thread_id (access_addr_ a) (GetSchemaSize (schema_ptr_ r)));;
       if access_type_ a =? INSERT_ONLY
       then set_visible_of p false;; lift (Free (access_addr_ a))
       else mret ()) (λ _ w', ∃ hs', aborting w l h accs (pre ++ [a]) rest w' hs') w1.
Proof.
  intros Hnd [Es Hrel Hok Ea [Hm Hl] Hrm].
  assert (accs !! length pre = Some a) as Ha by (rewrite Es, lookup_app_r, Nat.sub_diag by lia; done).
  destruct (Forall2_lookup_l _ _ _ _ _ Hrel Ha) as (x & Hx & Et & Ead & p & Ep & Er).
  destruct (Forall_lookup_1 _ _ _ _ Hok Hx) as [cols Hrec].
  wpd_step. eapply wpd_in_array; [exact Ep|]. wpd_step. eapply wpd_get_record; [exact Er|]. wpd_step.
  apply wpd_lift. eapply wpd_mono; [apply ls_unlock|]. intros [] s1 (Hk1 & Hrm1 & Hl1). rewrite Hl in Hl1.
  set (l1 := foldl _ l (access_addr_ <$> pre)) in *.
  assert (foldl (λ l a, lk_release thread_id a l) l (access_addr_ <$> pre ++ [a]) = lk_release thread_id (access_addr_ a) l1)
    as El by (by rewrite fmap_app, foldl_app).
  destruct (access_type_ a =? INSERT_ONLY).
  - wpd_step. eapply wp_set_visible; [exact Er|exact Hrec|]. intros r' _ Hr' _. apply wpd_lift.
    eapply wpd_mono; [exact (gh_free (GHeap := fixed_gheap _) s1 h _ (conj (Hk1 h Hm) Hl1))|]. intros [] s2 [[Hm2 Hl2] Hrm2].
    exists (<[length pre := mk_held (hd_type x) (hd_addr x) r']> hs). split; cbn.
    + by rewrite <-app_assoc.
    + by apply (acc_rels_update _ _ _ _ a).
    + apply Forall_insert; [done|]. by exists cols.
    + done.
    + split; [done|]. by rewrite El.
    + etransitivity; [exact Hrm2|]. cbn. by rewrite Hrm1.
  - wpd_step. exists hs. split; cbn; [by rewrite <-app_assoc|done|done|done| |by rewrite Hrm1].
    split; [by apply Hk1|]. by rewrite El.
Qed.

(** [AbortTransaction] keeps the memory. *)
Lemma wp_abort w l h hs (Q : unit → thread S → Prop) :
  mem_ok w l h → thread_rep w hs → Forall (λ x, ∃ cols, rec_ok (hd_record x) cols) hs →
  (∀ w', mem_ok w' (release_all hs l) h → thread_rep w' [] → room (th_mem w') = room (th_mem w) → Q () w') →
  wpd (AbortTransaction thread_id) Q w.
Proof.
  intros Hm [Hrel Hnd] Hrec HQ. unfold AbortTransaction. wpd_step. apply wpd_get_accesses. wpd_step.
  apply (wpd_for_each _ _ (λ rest w', ∃ pre hs', aborting w l h (th_accesses w) pre rest w' hs')).
  - exists [], hs. by split.
  - intros a rest w1 (pre & hs' & A). eapply wpd_mono; [exact (wp_abort_one _ _ _ _ _ _ _ _ _ Hnd A)|].
    intros [] w2 [hs2 A2]. by exists (pre ++ [a]), hs2.
  - intros w1 (pre & hs' & [Es Hrel1 _ Ea Hm1 Hr1]). rewrite app_nil_r in Es. subst pre.
    rewrite (acc_rels_addrs _ _ _ Hrel) in Hm1. change (foldl _ l (hd_addr <$> hs)) with (release_all hs l) in Hm1.
    wpd_step.
    assert (wpd (for_each (th_accesses w) (λ a,
      (if (λ _, false) a then lift (Free (access_addr_ a)) else mret ());;
      p ← in_array (access_record_ a); delete_record p))
      (λ _ w', mem_ok w' (release_all hs l) h ∧ room (th_mem w') = room (th_mem w1)) w1) as Hdel.
    { apply (wp_delete_all (λ _, false) (release_all hs l) h); [exact Hm1|exact Hnd|by exists hs'|]. intros w2 Hm2 Hrm2 _. by split. }
    eapply wpd_mono; [exact Hdel|]. intros [] w2 [Hm2 Hrm2]. apply wpd_modify.
    apply HQ; [exact Hm2|by split; constructor|cbn; congruence].
Qed.

(** ** Reading a record *)
Definition schema_vis (sc : RecordSchema) (cols : list ColumnInfo) : Prop :=
  schema_ok sc cols ∧ ∃ c, last cols = Some c ∧ column_size_ c = 1.

(** The copy that [SelectRecordCC] makes of a record with the bytes [bs]. *)
Definition copy_of (sc : RecordSchema) (bs : list Z) (ty : Z) : option DbRecord :=
  let r := mk_DbRecord sc bs (GetSchemaSize sc) in
  if ty =? DELETE_ONLY then SetVisible false r else Some r.

Lemma copy_of_ok sc cols bs ty : schema_vis sc cols → len bs = GetSchemaSize sc →
  ∃ r, copy_of sc bs ty = Some r ∧ rec_ok r cols ∧ schema_ptr_ r = sc.
Proof.
  intros [Sc Hc] El. unfold copy_of. set (r := mk_DbRecord sc bs (GetSchemaSize sc)).
  assert (rec_ok r cols) as Hr by (split; [by split|done]).
  destruct (ty =? DELETE_ONLY); [|by exists r].
  destruct (rec_ok_visible r cols false Hr) as (r' & E & Hr' & _ & Es). by exists r'.
Qed.

Definition lock_of (ty : Z) : bool := negb (ty =? READ_ONLY).

Lemma wp_lock ty a n w l h (Q : bool → thread S → Prop) :
  mem_ok w l h →
  (∀ w', th_records w' = th_records w → th_accesses w' = th_accesses w → room (th_mem w') = room (th_mem w) →
     match lk_try (lock_of ty) thread_id a l with
     | Some l' => mem_ok w' l' h → Q true w'
     | None => mem_ok w' l h → Q false w' end) →
  wpd (lift (if ty =? READ_ONLY then TryRLockRecord thread_id a n else TryWLockRecord thread_id a n)) Q w.
Proof.
  intros [Hm Hl] HQ. apply wpd_lift. unfold TryRLockRecord, TryWLockRecord.
  assert (wpd (try_lock (Z.to_nat kTryLockLimit) ((if lock_of ty then try_wlock else try_rlock) thread_id a n))
    (λ b s, Q b (mk_thread s (th_records w) (th_accesses w))) (th_mem w)) as H; [|by unfold lock_of in H; destruct (ty =? READ_ONLY)].
  eapply wp_try_lock; [exact Hm|exact Hl|by vm_compute; lia|]. intros s' Hok' Hr'.
  specialize (HQ (mk_thread s' (th_records w) (th_accesses w)) eq_refl eq_refl Hr').
  destruct (lk_try (lock_of ty) thread_id a l); intros El; apply HQ; by split.
Qed.

Lemma wp_NewAccess a w (Q : unit → thread S → Prop) :
  len (th_accesses w) < kMaxAccessLimit → Q () (mk_thread (th_mem w) (th_records w) (th_accesses w ++ [a])) →
  wpd (NewAccess a) Q w.
Proof.
  intros Hl HQ. unfold NewAccess. wpd_step. apply wpd_get_accesses. wpd_step.
  apply wpd_assert; [by apply Z.ltb_lt|]. by apply wpd_modify.
Qed.

Lemma thread_rep_fresh w hs p : thread_rep w hs → (length (th_records w) ≤ p)%nat → Some p ∉ access_record_ <$> th_accesses w.
Proof.
  intros [Hrel _] Hp Hin. apply list_elem_of_fmap in Hin as (a & Ea & Ha). apply list_elem_of_lookup in Ha as [i Hi].
  destruct (Forall2_lookup_l _ _ _ _ _ Hrel Hi) as (x & _ & _ & _ & q & Eq & Er).
  assert (q = p) as -> by congruence. apply lookup_lt_Some in Er. lia.
Qed.

(** The access is registered. *)
Lemma thread_rep_new w hs ty a r :
  thread_rep w hs →
  thread_rep (mk_thread (th_mem w) (th_records w ++ [Some r])
    (th_accesses w ++ [mk_Access ty (Some (length (th_records w))) a])) (hs ++ [mk_held ty a r]).
Proof.
  intros T. pose proof (thread_rep_fresh w hs (length (th_records w)) T ltac:(lia)) as Hf. destruct T as [Hrel Hnd]. split; cbn.
  - apply Forall2_app; [by apply acc_rels_app|]. constructor; [|constructor]. split_and!; [done..|].
    exists (length (th_records w)). split; [done|]. by rewrite lookup_app_r, Nat.sub_diag by lia.
  - rewrite fmap_app. apply NoDup_app. split_and!; [done| |by apply NoDup_singleton].
    intros q Hq Hq'. apply list_elem_of_singleton in Hq' as ->. done.
Qed.

Lemma thread_rep_length w hs : thread_rep w hs → length (th_accesses w) = length hs.
Proof. intros [H _]. by eapply Forall2_length. Qed.

Lemma wp_select table_id t cols ty a bs w l h hs (Q : option nat → thread S → Prop) :
  mem_ok w l h → thread_rep w hs → len hs < kMaxAccessLimit →
  arr_get tables table_id = Some t → schema_vis (t_schema_ptr_ t) cols →
  h !! a = Some bs → len bs = GetSchemaSize (t_schema_ptr_ t) →
  Forall (λ x, ∃ cols, rec_ok (hd_record x) cols) hs →
  (∀ w' l' r, lk_try (lock_of ty) thread_id a l = Some l' → copy_of (t_schema_ptr_ t) bs ty = Some r → rec_ok r cols →
     mem_ok w' l' h → thread_rep w' (hs ++ [mk_held ty a r]) → room (th_mem w') = room (th_mem w) →
     th_accesses w' = th_accesses w ++ [mk_Access ty (Some (length (th_records w))) a] →
     Q (Some (length (th_records w))) w') →
  (∀ w', lk_try (lock_of ty) thread_id a l = None → mem_ok w' (release_all hs l) h → thread_rep w' [] →
     room (th_mem w') = room (th_mem w) → Q None w') →
  wpd (SelectRecordCC tables thread_id table_id a ty) Q w.
Proof.
  intros Hm T Hlen Ht Hs Hb Hbs Hrec HQ HQ'. unfold SelectRecordCC. wpd_step. eapply wpd_in_array; [exact Ht|]. wpd_step.
  eapply wp_lock; [exact Hm|]. intros w1 Er1 Ea1 Hr1.
  assert (thread_rep w1 hs) as T1 by (destruct T; split; by rewrite ?Er1, ?Ea1).
  destruct (lk_try (lock_of ty) thread_id a l) as [l'|] eqn:El; intros Hm1; cycle 1.
  { wpd_step. eapply wp_abort; [exact Hm1|done|done|]. intros w2 Hm2 T2 Hr2. wpd_step. apply HQ'; [done|done|done|congruence]. }
  destruct (copy_of_ok _ cols bs ty Hs Hbs) as (r & Er & Hr & _). unfold copy_of in Er.
  wpd_step. apply wpd_new_record. rewrite Er1. set (p := length (th_records w)). wpd_step.
  eapply wpd_get_record.
  { cbn. by rewrite lookup_app_r, Nat.sub_diag by (unfold p; lia). }
  wpd_step. apply wpd_lift. cbn. destruct (blk_valid (th_mem w1) h a (len bs) (proj1 Hm1)) as (_ & _ & E0); [by exists bs|].
  destruct Hs as [Sc Hvis].
  eapply (wp_record_Deserialize (GH := fixed_gheap l') (th_mem w1) h a a 0 _ bs); [exact Hm1|by symmetry|lia| |done| |].
  { assert (rec_ok (mk_DbRecord (t_schema_ptr_ t) bs 0) cols) as H0 by (split; [by split|done]). exact (rec_ok_pos _ _ H0). }
  { exists bs. split_and!; [done|lia|lia|]. by apply slice_all. }
  intros s2 Hm2 Hr2. cbn. wpd_step. apply wpd_modify. cbn.
  rewrite (insert_app_r_alt (th_records w)) by (unfold p; lia). rewrite Nat.sub_diag. cbn.
  assert (thread_rep (mk_thread s2 (th_records w) (th_accesses w)) hs) as T2 by (destruct T; by split).
  pose proof (thread_rep_new _ _ ty a (mk_DbRecord (t_schema_ptr_ t) bs (GetSchemaSize (t_schema_ptr_ t))) T2) as T3.
  cbn in T3.
  wpd_step. apply wp_NewAccess; cbn; rewrite Ea1.
  { by rewrite (thread_rep_length _ _ T). }
  wpd_step. destruct (Z.eqb_spec ty DELETE_ONLY) as [->|Hty].
  - eapply wp_set_visible; cbn.
    + by rewrite lookup_app_r, Nat.sub_diag by (unfold p; lia).
    + split; [by split|exact Hvis].
    + intros r' Er' Hr' _. assert (r' = r) as -> by congruence.
      apply (HQ _ l' r eq_refl); [by unfold copy_of|done|exact Hm2| |exact (eq_trans Hr2 Hr1)|done].
      rewrite (insert_app_r_alt (th_records w)) by (unfold p; lia). rewrite Nat.sub_diag. cbn.
      by apply (thread_rep_new (mk_thread s2 (th_records w) (th_accesses w))).
  - wpd_step. wpd_step. injection Er as <-. eapply (HQ _ l' _ eq_refl); [|done|exact Hm2|exact T3|exact (eq_trans Hr2 Hr1)|done].
    unfold copy_of. by rewrite (proj2 (Z.eqb_neq _ _)).
Qed.

(** ** The copies *)
Lemma thread_rep_at w hs i x : thread_rep w hs → hs !! i = Some x →
  ∃ a p, th_accesses w !! i = Some a ∧ access_record_ a = Some p ∧ th_records w !! p = Some (Some (hd_record x)).
Proof.
  intros [Hrel _] Hx. destruct (Forall2_lookup_r _ _ _ _ _ Hrel Hx) as (a & Ha & _ & _ & p & Ep & Er). by exists a, p.
Qed.

Lemma wp_get_column w hs i x a p col d (Q : list Z → thread S → Prop) :
  thread_rep w hs → hs !! i = Some x → th_accesses w !! i = Some a → access_record_ a = Some p →
  GetColumn col (hd_record x) = Some d → Q d w → wpd (get_column_of p col) Q w.
Proof.
  intros T Hx Ha Hp Hd HQ. destruct (thread_rep_at w hs i x T Hx) as (a' & p' & Ha' & Hp' & Er). simplify_eq.
  unfold get_column_of. wpd_step. eapply wpd_get_record; [exact Er|]. by eapply wpd_checked.
Qed.

Lemma wp_set_column w l h hs i x a p col d r (Q : unit → thread S → Prop) :
  mem_ok w l h → thread_rep w hs → hs !! i = Some x → th_accesses w !! i = Some a → access_record_ a = Some p →
  SetColumn col d (hd_record x) = Some r →
  (∀ w', mem_ok w' l h → thread_rep w' (<[i := mk_held (hd_type x) (hd_addr x) r]> hs) →
     room (th_mem w') = room (th_mem w) → th_accesses w' = th_accesses w → Q () w') →
  wpd (set_column_of p col d) Q w.
Proof.
  intros Hm T Hx Ha Hp Hd HQ. destruct (thread_rep_at w hs i x T Hx) as (a' & p' & Ha' & Hp' & Er). simplify_eq.
  unfold set_column_of. wpd_step. eapply wpd_get_record; [exact Er|]. wpd_step.
  eapply wpd_checked; [exact Hd|]. apply wpd_modify. apply HQ; [exact Hm| |done|done].
  destruct T as [Hrel Hnd]. split; [|done]. by apply (acc_rels_update _ _ _ _ a).
Qed.

(** [SearchRecord] through the index. *)
Lemma wp_search table_id i t cols k key own m ty w l h hs (Q : search_result → thread S → Prop) :
  mem_ok w l h → thread_rep w hs → len hs < kMaxAccessLimit →
  table_id = Z.of_nat i → tables !! i = Some t → tables_rep k h tables own m → (k ≤ fuel)%nat →
  schema_vis (t_schema_ptr_ t) cols →
  (newest (m i key) ≠ ga_Null → ∃ bs, h !! newest (m i key) = Some bs ∧ len bs = GetSchemaSize (t_schema_ptr_ t)) →
  Forall (λ x, ∃ cols, rec_ok (hd_record x) cols) hs →
  (∀ w', newest (m i key) = ga_Null → mem_ok w' l h → thread_rep w' hs →
     room (th_mem w') = room (th_mem w) → th_accesses w' = th_accesses w → Q not_found w') →
  (∀ w' l' bs r, newest (m i key) ≠ ga_Null → h !! newest (m i key) = Some bs →
     lk_try (lock_of ty) thread_id (newest (m i key)) l = Some l' → copy_of (t_schema_ptr_ t) bs ty = Some r →
     rec_ok r cols → mem_ok w' l' h → thread_rep w' (hs ++ [mk_held ty (newest (m i key)) r]) →
     room (th_mem w') = room (th_mem w) →
     th_accesses w' = th_accesses w ++ [mk_Access ty (Some (length (th_records w))) (newest (m i key))] →
     Q (found (length (th_records w))) w') →
  (∀ w', newest (m i key) ≠ ga_Null → lk_try (lock_of ty) thread_id (newest (m i key)) l = None →
     mem_ok w' (release_all hs l) h → thread_rep w' [] → Q refused w') →
  wpd (SearchRecord_result tables fuel thread_id table_id key ty) Q w.
Proof.
  intros Hm T Hlen -> Ht R Hf Hs Hrec0 Hrec HN HF HR.
  assert (arr_get tables (Z.of_nat i) = Some t) as Eg by by rewrite arr_get_lookup.
  unfold SearchRecord_result. wpd_step. eapply wpd_in_array; [exact Eg|]. wpd_step. apply wpd_lift.
  unfold table_SearchRecord.
  eapply (wp_index_search (GH := fixed_gheap l) k fuel key _ h); [exact Hm|by apply (tr_index _ _ _ _ _ R i)|done|].
  intros s1 Hm1 Hr1. set (w1 := mk_thread s1 (th_records w) (th_accesses w)).
  assert (thread_rep w1 hs) as T1 by (destruct T; by split). set (a := newest (m i key)) in *.
  destruct (ga_eqb_spec a ga_Null) as [En|Hn]; [wpd_step; by apply HN|].
  destruct (Hrec0 Hn) as (bs & Hb & Hl). wpd_step.
  eapply (wp_select (Z.of_nat i) t cols ty a bs w1); [exact Hm1|done..| |].
  - intros w2 l' r ? ? ? ? ? Hr2 Ha2. wpd_step. by eapply HF; [..|exact (eq_trans Hr2 Hr1)|exact Ha2].
  - intros w2 ? ? ? _. wpd_step. by apply HR.
Qed.
End rules.
