(* ===== verification/DbReplay.v ===== *)
(** * DbReplay: the accesses of a computation, one after the other

    A computation of the database is a function of a memory.  To let threads interleave
    between its accesses, it is run on a [replay]: a list of the answers that its calls of
    [DSM] have had so far.  The run ends at the next call, or with its result when every
    call has been answered.  The same definitions serve: [replay] is one more instance of
    the interfaces [GAlloc] and [RecordLocks].

    [trace m f T a g]: the calls of [m] are those of [T], when they are answered as in
    [T]. *)
From S2P Require Import Prelude GlobalMem DbStore DbArray DbIndex DbSchema DbTable DbTxn.
From stdpp Require Import base numbers option list list_numbers gmap.
Open Scope Z_scope.

(** ** Calls and their answers *)
Inductive call :=
| c_read (a : GlobalAddress) (n : Z)
| c_write (a : GlobalAddress) (d : list Z)
| c_malloc (n : Z) (align : bool)
| c_free (a : GlobalAddress)
| c_try (ex : bool) (t : Z) (a : GlobalAddress) (n : Z)
| c_unlock (t : Z) (a : GlobalAddress) (n : Z).
Inductive answer := a_bytes (bs : list Z) | a_addr (a : GlobalAddress) | a_int (v : Z) | a_unit.

(** A call on a memory. *)
Definition exec_call {S} {G : GAlloc S} {L : RecordLocks S} (c : call) : DB S answer :=
  match c with
  | c_read a n => bs ← ga_read a n; mret (a_bytes bs)
  | c_write a d => ga_write a d;; mret a_unit
  | c_malloc n align => a ← ga_malloc n align; mret (a_addr a)
  | c_free a => ga_free a;; mret a_unit
  | c_try ex t a n => v ← (if ex then try_wlock else try_rlock) t a n; mret (a_int v)
  | c_unlock t a n => unlock t a n;; mret a_unit
  end.

Definition as_bytes (x : answer) : list Z := match x with a_bytes bs => bs | _ => [] end.
Definition as_addr (x : answer) : GlobalAddress := match x with a_addr a => a | _ => ga_Null end.
Definition as_int (x : answer) : Z := match x with a_int v => v | _ => 0 end.

(** ** Answers instead of a memory *)
Record replay := mk_replay { rp_answers : list answer; rp_next : option call }.

Definition ask (c : call) : DB replay answer := λ r,
  match rp_answers r with
  | x :: answers => Done x (mk_replay answers None)
  | [] => Raise waits (mk_replay [] (Some c))
  end.

#[export] Instance replay_alloc : GAlloc replay := {|
  ga_read a n := x ← ask (c_read a n); mret (as_bytes x);
  ga_write a d := ask (c_write a d);; mret ();
  ga_malloc n align := x ← ask (c_malloc n align); mret (as_addr x);
  ga_free a := ask (c_free a);; mret ();
|}.
#[export] Instance replay_locks : RecordLocks replay := {|
  try_rlock t a n := x ← ask (c_try false t a n); mret (as_int x);
  try_wlock t a n := x ← ask (c_try true t a n); mret (as_int x);
  unlock t a n := ask (c_unlock t a n);; mret ();
|}.

(** ** The calls of a computation

    [f] and [g] put the answers that are left into its states before and after. *)
Class HasNext (X : Type) := next_call : X → option call.
#[export] Instance replay_next : HasNext replay := rp_next.
#[export] Instance thread_next : HasNext (thread replay) := λ w, rp_next (th_mem w).

Abbreviation calls := (list (call * answer)).

Record trace {X A} {N : HasNext X} (m : DB X A) (f : list answer → X) (T : calls) (a : A) (g : list answer → X) : Prop := {
  tc_done rest : m (f (T.*2 ++ rest)) = Done a (g rest);
  tc_next T1 c x T2 : T = T1 ++ (c, x) :: T2 → ∃ e w, m (f T1.*2) = Raise e w ∧ next_call w = Some c;
}.

Section traces.
Context {X : Type} {N : HasNext X}.
Implicit Types (f g : list answer → X) (T : calls).

Lemma trace_pure {A} (m : DB X A) f a g : (∀ rest, m (f rest) = Done a (g rest)) → trace m f [] a g.
Proof. intros H. split; [exact H|]. by intros [] ? ? ?. Qed.

Lemma trace_ret {A} (a : A) f : trace (mret a) f [] a f.
Proof. by apply trace_pure. Qed.

Lemma trace_bind {A B} (m : DB X A) (k : A → DB X B) f T1 a g T2 b h :
  trace m f T1 a g → trace (k a) g T2 b h → trace (m ≫= k) f (T1 ++ T2) b h.
Proof.
  intros [D1 N1] [D2 N2]. split; unfold mbind, DB_bind.
  - intros rest. rewrite fmap_app, <-app_assoc, D1. apply D2.
  - intros P c x T E. apply app_eq_app in E as (l & [[E1 E2]|[E1 E2]]).
    + destruct l as [|[c' x'] l].
      * rewrite app_nil_r in E1. subst P. specialize (D1 []). rewrite app_nil_r in D1. rewrite D1.
        by apply (N2 [] c x T).
      * injection E2 as <- <- E2. destruct (N1 P c x l E1) as (e & w & -> & Hn). by exists e, w.
    + subst P. rewrite fmap_app, D1. by apply (N2 l c x T).
Qed.

Lemma trace_bind_pure {A B} (m : DB X A) (k : A → DB X B) f a g T b h :
  trace m f [] a g → trace (k a) g T b h → trace (m ≫= k) f T b h.
Proof. apply (trace_bind m k f []). Qed.

Lemma trace_bind_ret {A B} (m : DB X A) (k : A → DB X B) f T a g b h :
  trace m f T a g → trace (k a) g [] b h → trace (m ≫= k) f T b h.
Proof. intros H1 H2. rewrite <-(app_nil_r T). by eapply trace_bind. Qed.

Lemma trace_in_array {A} (x : option A) a f : x = Some a → trace (in_array x) f [] a f.
Proof. intros ->. apply trace_ret. Qed.

Lemma trace_assert b f : b = true → trace (assert_ b) f [] () f.
Proof. intros ->. apply trace_ret. Qed.

(** The end of a trace, and the next call before that. *)
Lemma trace_prefix {A} (m : DB X A) f T1 T2 a g : trace m f (T1 ++ T2) a g →
  match T2 with
  | [] => m (f T1.*2) = Done a (g [])
  | (c, _) :: _ => ∃ e w, m (f T1.*2) = Raise e w ∧ next_call w = Some c
  end.
Proof.
  intros [D Nx]. destruct T2 as [|[c x] T2]; [|by eapply Nx].
  specialize (D []). by rewrite !app_nil_r in D.
Qed.
End traces.

(** ** On answers alone *)
Definition answers (as_ : list answer) : replay := mk_replay as_ None.

Lemma trace_ask c x : trace (ask c) answers [(c, x)] x answers.
Proof.
  split; [done|]. intros [|? T1] c' x' T2 E; [|by destruct T1].
  injection E as <- <- _. by eexists _, _.
Qed.

Definition returns {A} (m : DB replay A) (T : calls) (a : A) : Prop := trace m answers T a answers.

Lemma returns_ask {A} c x (k : answer → A) : returns (x ← ask c; mret (k x)) [(c, x)] (k x).
Proof. eapply trace_bind_ret; [apply trace_ask|apply trace_ret]. Qed.

Lemma returns_read a n bs : returns (ga_read a n) [(c_read a n, a_bytes bs)] bs.
Proof. apply (returns_ask (c_read a n) (a_bytes bs) as_bytes). Qed.
Lemma returns_write a d : returns (ga_write a d) [(c_write a d, a_unit)] ().
Proof. apply (returns_ask (c_write a d) a_unit (λ _, ())). Qed.
Lemma returns_free a : returns (ga_free a) [(c_free a, a_unit)] ().
Proof. apply (returns_ask (c_free a) a_unit (λ _, ())). Qed.
Lemma returns_try (ex : bool) t a n v :
  returns ((if ex then try_wlock else try_rlock) t a n) [(c_try ex t a n, a_int v)] v.
Proof. destruct ex; apply (returns_ask _ (a_int v) as_int). Qed.
Lemma returns_unlock t a n : returns (unlock t a n) [(c_unlock t a n, a_unit)] ().
Proof. apply (returns_ask _ a_unit (λ _, ())). Qed.

(** ** Reads of a structure that does not change *)
Section reads.
Context {J : Indeterminate} (h : heap) (static : GlobalAddress → Prop).
Context (Hblock : ∀ a bs, h !! a = Some bs →
  ga_valid a ∧ a ≠ ga_Null ∧ len bs ≤ 2 ^ 25 ∧ ga_addr a + len bs < 2 ^ 64).

(** A call that reads a part of a block of the structure. *)
Definition static_read (e : call * answer) : Prop :=
  ∃ a bs off n, e = (c_read (GADD a off) n, a_bytes (slice off n bs)) ∧ static a ∧ h !! a = Some bs ∧
    0 ≤ off ∧ 0 < n ∧ off + n ≤ len bs.

(** [m] returns [a] by such reads. *)
Definition looks_up {A} (m : DB replay A) (a : A) : Prop := ∃ T, returns m T a ∧ Forall static_read T.

Lemma looks_up_ret {A} (a : A) : looks_up (mret a) a.
Proof. exists []. split; [apply trace_ret|done]. Qed.

Lemma looks_up_bind {A B} (m : DB replay A) (k : A → DB replay B) a b :
  looks_up m a → looks_up (k a) b → looks_up (m ≫= k) b.
Proof.
  intros (T1 & R1 & F1) (T2 & R2 & F2). exists (T1 ++ T2). split; [by eapply trace_bind|].
  by apply Forall_app.
Qed.

Lemma looks_up_in_array {A} (x : option A) a : x = Some a → looks_up (in_array x) a.
Proof. intros ->. apply looks_up_ret. Qed.

Lemma looks_up_assert b : b = true → looks_up (assert_ b) ().
Proof. intros ->. apply looks_up_ret. Qed.

Lemma has_static `{Pod T} a off (x : T) : has h a off x → ga_valid a ∧ a ≠ ga_Null ∧ GADD a 0 = a.
Proof. intros (bs & Hb & _). destruct (Hblock a bs Hb) as (? & ? & _). split_and!; [done..|]. by apply GADD_0. Qed.

Lemma looks_up_load_at `{Pod T} p a x off (v : T) :
  p = GADD a x → static a → 0 ≤ x → 0 ≤ off → has h a (x + off) v → looks_up (load_at T p off) v.
Proof.
  intros -> Ha Hx Ho (bs & Hb & H0 & Hl & Hs & Hv). destruct (Hblock a bs Hb) as (_ & _ & H25 & _).
  pose proof (sizeof_pos (T := T)) as Hp. unfold load_at, Read_at.
  rewrite GADD_GADD, to_int_small, wrap_small by (unfold fits; lia).
  exists [(c_read (GADD a (x + off)) (sizeof T), a_bytes (slice (x + off) (sizeof T) bs))]. split.
  - eapply trace_bind_ret; [apply returns_read|]. rewrite Hs, of_to_bytes by done. apply trace_ret.
  - constructor; [|done]. exists a, bs, (x + off), (sizeof T). by split_and!.
Qed.

Lemma looks_up_load `{Pod T} p a x (v : T) :
  p = GADD a x → static a → 0 ≤ x → has h a x v → looks_up (load T p) v.
Proof.
  intros Hp Ha Hx Hv. rewrite <-(Z.add_0_r x) in Hv. pose proof (looks_up_load_at p a x 0 v Hp Ha Hx ltac:(lia) Hv) as H1.
  unfold load_at, load, Read_at, Read in *. rewrite to_int_small in H1 by lia.
  by rewrite Hp, GADD_GADD, Z.add_0_r, <-Hp in H1.
Qed.

(** ** The array *)
Fixpoint static_walk (p : GlobalAddress) (path : list Z) (q : GlobalAddress) : Prop :=
  match path with
  | [] => q = p
  | i :: path => static p ∧ 0 ≤ i ∧ ∃ r, has h p (i * sizeof GlobalAddress) r ∧ static_walk r path q
  end.

Lemma static_walk_snoc p path i q r :
  static_walk p path q → static q → 0 ≤ i → has h q (i * sizeof GlobalAddress) r → static_walk p (path ++ [i]) r.
Proof.
  revert p. induction path as [|j path IH]; intros p Hw Hq Hi Hr; cbn in *.
  - subst q. split_and!; [done..|]. by exists r.
  - destruct Hw as (Hp & Hj & q' & Hq' & Hw). split_and!; [done..|]. exists q'. split; [done|]. by apply IH.
Qed.

Lemma static_tree_walk size nd k m l i :
  tree h size nd k m → m ≤ N_slots ^ k → (∀ l i, built k m l i → static (nd l i)) → 0 ≤ l → built k m l i →
  static_walk (nd 0 0) (digits (Z.to_nat l) i) (nd l i).
Proof.
  intros T Hm St Hl. rewrite <-(Z2Nat.id l) by done. generalize (Z.to_nat l). clear l Hl. intros l.
  rewrite Nat2Z.id. revert i. induction l as [|l IH]; intros i Hb.
  - cbn. assert (i = 0) as ->; [|done]. destruct Hb as [? [[? Hi]|[E Hi]]]; cbn in *; [lia|].
    subst k. cbn in Hm. lia.
  - cbn [digits]. destruct (built_parent k m (Z.of_nat (S l)) i Hb Hm ltac:(lia)) as [Hp _].
    replace (Z.of_nat (S l) - 1) with (Z.of_nat l) in Hp by lia.
    eapply static_walk_snoc; [by apply IH|by apply St|apply Z.mod_pos_bound; done|].
    pose proof (tr_slot _ _ _ _ _ T _ _ Hb ltac:(lia)) as Hs.
    by replace (Z.of_nat (S l) - 1) with (Z.of_nat l) in Hs by lia.
Qed.

Lemma looks_up_follow p path q : static_walk p path q → looks_up (follow p path) q.
Proof.
  revert p. induction path as [|j path IH]; intros p Hw; cbn [follow static_walk] in *.
  - subst q. apply looks_up_ret.
  - destruct Hw as (Hp & Hj & r & Hr & Hw). destruct (has_static _ _ _ Hr) as (_ & _ & E0).
    pose proof (sizeof_pos (T := GlobalAddress)).
    eapply looks_up_bind; [eapply (looks_up_load_at p p 0); [by symmetry|done|lia|lia|exact Hr]|]. by apply IH.
Qed.

Lemma looks_up_element arr nd i :
  arr_ok h arr nd → (∀ a, in_tree arr nd a → static a) → 0 ≤ i < array_size_ arr →
  looks_up (GetElementGAddr arr i) (GADD (elem_block arr nd i) (elem_offset arr i)).
Proof.
  intros Ok St Hi. destruct (elem_in_block h arr nd i Ok Hi) as (n & (bs & Hb & Hbl) & H0 & Hn & _).
  pose proof (elem_built h arr nd i Ok Hi) as Hbu.
  pose proof Ok as [(Hroot & Hl & Hsz) Has [He _] _ T]. destruct (Hblock _ bs Hb) as (_ & _ & H25 & _).
  unfold GetElementGAddr, LocateParentNode.
  eapply looks_up_bind; [apply looks_up_assert, Z.ltb_lt; lia|]. eapply looks_up_bind; [|].
  - eapply looks_up_bind; [by apply looks_up_in_array, Hsz; lia|].
    eapply looks_up_bind; [apply looks_up_assert, Z.ltb_lt; lia|]. rewrite path_tail, Hroot by lia.
    replace (Z.to_nat (layer_num_ arr - 1)) with (Z.to_nat (Z.max 0 (layer_num_ arr - 1))) by lia.
    apply looks_up_follow. eapply static_tree_walk; [exact T| |intros; apply St; by eexists _, _|lia|exact Hbu].
    pose proof (N_pow_pos (Z.max 1 (layer_num_ arr))). lia.
  - fold (elem_block arr nd i) (elem_offset arr i).
    rewrite wrap_small by (unfold fits; lia). rewrite to_int_small by lia. apply looks_up_ret.
Qed.

(** ** The chain of a bucket *)
Lemma looks_up_node fuel key prev p ns cn :
  seg h p ns ga_Null → (length ns ≤ fuel)%nat → (∀ a, a ∈ foot ns → static a) →
  (∃ ns1 n ns2 c, ns = ns1 ++ n :: ns2 ∧ Forall (λ n, bn_key n ≠ key) ns1 ∧ bn_key n = key ∧
     has h (bn_addr n) 0 c ∧ items_rep h (items_list_ c) (bn_items n) ∧
     looks_up (find_node fuel key prev p cn) (last_addr prev ns1, bn_addr n, c)) ∨
  (Forall (λ n, bn_key n ≠ key) ns ∧ ∃ c, looks_up (find_node fuel key prev p cn) (last_addr prev ns, ga_Null, c)).
Proof.
  revert fuel prev p cn. induction ns as [|n ns IH]; intros fuel prev p cn Hs Hf St.
  - cbn in Hs. subst p. right. split; [done|]. exists cn. destruct fuel; cbn [find_node];
      (destruct (ga_eqb_spec ga_Null ga_Null); [|done]); apply looks_up_ret.
  - destruct Hs as (-> & r & (c & Hc & Hk & Hr & Hi & _) & Hs). cbn in Hf. destruct fuel as [|fuel]; [lia|].
    destruct (has_static _ _ _ Hc) as (_ & Hnz & Ha). cbn [find_node].
    destruct (ga_eqb_spec (bn_addr n) ga_Null); [done|].
    assert (static (bn_addr n)) as Sn by (apply St; cbn; by left).
    assert (looks_up (load BucketNode (bn_addr n)) c) as Hload
      by (by apply (looks_up_load (bn_addr n) (bn_addr n) 0)).
    destruct (Z.eqb_spec (key_ c) key) as [E|E].
    + left. exists [], n, ns, c. split_and!; [done..|congruence|done|done|].
      eapply looks_up_bind; [exact Hload|]. rewrite (proj2 (Z.eqb_eq _ _)) by done. apply looks_up_ret.
    + assert (bn_key n ≠ key) as Hne by congruence.
      assert (∀ x, looks_up (find_node fuel key (bn_addr n) (next_ c) c) x → looks_up (c ← load BucketNode (bn_addr n);
        if key_ c =? key then mret (prev, bn_addr n, c) else find_node fuel key (bn_addr n) (next_ c) c) x) as Hstep.
      { intros x Hx. eapply looks_up_bind; [exact Hload|]. by rewrite (proj2 (Z.eqb_neq _ _)). }
      destruct (IH fuel (bn_addr n) (next_ c) c) as [(ns1 & n' & ns2 & c' & -> & H1 & H2 & H3 & H4 & Hl)|(H1 & c' & Hl)];
        [by rewrite Hr|lia|intros a Hin; apply St; rewrite foot_cons; apply elem_of_app; by right| |].
      * left. exists (n :: ns1), n', ns2, c'. rewrite <-(last_addr_cons prev). split_and!; [done|by constructor|done..|by apply Hstep].
      * right. split; [by constructor|]. exists c'. rewrite <-(last_addr_cons prev). by apply Hstep.
Qed.

Lemma looks_up_SearchNode fuel key head ns :
  seg h head ns ga_Null → (length ns ≤ fuel)%nat → (∀ a, a ∈ foot ns → static a) →
  (∃ p n, looks_up (SearchNode fuel key head) (Some p) ∧ n ∈ ns ∧ items_rep h p (bn_items n) ∧ bn_items n ≠ [] ∧
     items_full (bn_items n) ∧ content ns key = flat (bn_items n)) ∨
  (looks_up (SearchNode fuel key head) None ∧ content ns key = []).
Proof.
  intros Hs Hf St. unfold SearchNode.
  destruct (looks_up_node fuel key ga_Null head ns indet_node Hs Hf St)
    as [(ns1 & n & ns2 & c & -> & H1 & Hk & Hc & Hi & Hl)|(H1 & c & Hl)].
  - left. destruct (has_static _ _ _ Hc) as (_ & Hnz & _).
    apply seg_app in Hs as (p & _ & -> & r & (c' & Hc' & _ & _ & Hi' & Hne & Hfl) & _).
    exists (items_list_ c), n. split_and!; [|apply elem_of_app; right; by left|done..|].
    + eapply looks_up_bind; [exact Hl|]. cbv beta iota.
      destruct (ga_eqb_spec (bn_addr n) ga_Null); [done|]. apply looks_up_ret.
    + rewrite content_app by done. cbn. by destruct (Z.eqb_spec (bn_key n) key).
  - right. split; [|by apply content_none]. eapply looks_up_bind; [exact Hl|]. cbv beta iota.
    destruct (ga_eqb_spec ga_Null ga_Null); [|done]. apply looks_up_ret.
Qed.

(** ** The index *)
Lemma looks_up_index k fuel key ix own m :
  index_rep k h ix own m → (k ≤ fuel)%nat → (∀ a, own a → static a) →
  looks_up (index_SearchRecord fuel key ix) (newest (m key)).
Proof.
  intros (nd & bs & I & Hown) Hf St. pose proof (index_count _ _ _ _ _ _ I) as Hcount.
  set (i := key mod buckets_count_ ix). assert (0 ≤ i < buckets_count_ ix) as Hi by (by apply Z.mod_pos_bound).
  destruct (index_slot k h ix nd bs m i I Hi) as (Htree & H0 & _).
  destruct (ix_bucket _ _ _ _ _ _ I i Hi) as (head & Hhd & Hs & _).
  assert (∀ a, in_tree (buckets_ ix) nd a → static a) as Ht by (intros; apply St, Hown; by left).
  assert (∀ a, a ∈ foot (bs i) → static a) as Hb by (intros; apply St, Hown; right; by exists i).
  unfold index_SearchRecord, Hash. rewrite (proj2 (Z.eqb_neq _ _)) by lia.
  eapply looks_up_bind; [apply looks_up_ret|]. fold i.
  eapply looks_up_bind; [apply looks_up_element; [apply I|exact Ht|by rewrite (ix_size _ _ _ _ _ _ I)]|].
  eapply looks_up_bind; [eapply looks_up_load; [done|by apply Ht|done|exact Hhd]|].
  destruct (looks_up_SearchNode fuel key head (bs i) Hs) as [(p & bn & Hl & Hn & Hit & Hne & Hfull & Hc)|[Hl Hc]];
    [pose proof (ix_length _ _ _ _ _ _ I i Hi); lia|exact Hb| |].
  - eapply looks_up_bind; [exact Hl|]. cbv beta iota.
    destruct (items_rep_cons _ _ _ Hit Hne) as (ptrs & l & it & El & Hhas & Hcnt & Hlen & Htake & _).
    destruct (has_static _ _ _ Hhas) as (_ & _ & E0).
    eapply looks_up_bind; [eapply (looks_up_load p p 0); [by symmetry| |lia|exact Hhas]|].
    { apply Hb. unfold foot. apply list_elem_of_bind. exists bn. split; [|done]. right. rewrite El. cbn. by left. }
    destruct ptrs as [|p0 ptrs]; [cbn in Hlen; lia|].
    assert (record_ptrs_ it !! 0%nat = Some p0) as E.
    { destruct (record_ptrs_ it); [done|]. by injection Htake as -> _. }
    assert (newest (m key) = p0) as ->; [|by apply looks_up_in_array].
    rewrite (ix_content _ _ _ _ _ _ I key). fold i. rewrite Hc, El.
    rewrite El in Hfull. by rewrite newest_flat by done.
  - eapply looks_up_bind; [exact Hl|]. cbv beta iota. assert (newest (m key) = ga_Null) as ->; [|apply looks_up_ret].
    rewrite (ix_content _ _ _ _ _ _ I key). fold i. by rewrite Hc.
Qed.
End reads.

(** ** The calls of a transaction *)
Definition on_answers (recs : list (option DbRecord)) (accs : list Access) (as_ : list answer) : thread replay :=
  mk_thread (answers as_) recs accs.

Definition unlock_call (t : Z) (x : held) : call * answer :=
  (c_unlock t (hd_addr x) (GetSchemaSize (schema_ptr_ (hd_record x))), a_unit).
(** Of an access, in the loops of [CommitTransaction] and [AbortTransaction]. *)
Definition commit_calls (t : Z) (x : held) : calls :=
  (if writes_back x then [(c_write (hd_addr x) (data_ptr_ (hd_record x)), a_unit)] else []) ++ [unlock_call t x].
Definition free_calls (x : held) : calls :=
  if hd_type x =? DELETE_ONLY then [(c_free (hd_addr x), a_unit)] else [].
Definition abort_calls (t : Z) (x : held) : calls :=
  unlock_call t x :: (if hd_type x =? INSERT_ONLY then [(c_free (hd_addr x), a_unit)] else []).

Section transactions.
Context {J : Indeterminate} (tables : list Table) (fuel : nat) (thread_id : Z).
Implicit Types (recs : list (option DbRecord)) (accs : list Access) (hs : list held) (T : calls).

Lemma trace_lift {A} (m : DB replay A) T a recs accs :
  returns m T a → trace (lift m) (on_answers recs accs) T a (on_answers recs accs).
Proof.
  intros [D N]. split.
  - intros rest. unfold lift. cbn. by rewrite D.
  - intros T1 c x T2 E. destruct (N T1 c x T2 E) as (e & w & Hw & Hn). unfold lift. cbn. rewrite Hw. by eexists _, _.
Qed.

Lemma trace_get_record recs accs p r : recs !! p = Some (Some r) →
  trace (get_record p) (on_answers recs accs) [] r (on_answers recs accs).
Proof. intros E. apply trace_pure. intros rest. unfold get_record. cbn. by rewrite E. Qed.

Lemma trace_get_accesses recs accs : trace get_accesses (on_answers recs accs) [] accs (on_answers recs accs).
Proof. by apply trace_pure. Qed.

Lemma trace_modify recs accs f recs' accs' :
  (∀ rest, f (on_answers recs accs rest) = on_answers recs' accs' rest) →
  trace (modify f) (on_answers recs accs) [] () (on_answers recs' accs').
Proof. intros E. apply trace_pure. intros rest. unfold modify. by rewrite E. Qed.

Lemma trace_delete_record recs accs p r : recs !! p = Some (Some r) →
  trace (delete_record p) (on_answers recs accs) [] () (on_answers (<[p := None]> recs) accs).
Proof. intros E. eapply trace_bind_pure; [by apply trace_get_record|]. by apply trace_modify. Qed.

(** The loop that deletes the copies. *)
Lemma trace_delete_all (free : Access → bool) accs0 accs : ∀ recs hs,
  Forall2 (acc_rel recs) accs hs → NoDup (access_record_ <$> accs) →
  ∃ recs', trace (for_each accs (λ a,
    (if free a then lift (Free (access_addr_ a)) else mret ());;
    p ← in_array (access_record_ a); delete_record p)) (on_answers recs accs0)
    (accs ≫= λ a, if free a then [(c_free (access_addr_ a), a_unit)] else []) () (on_answers recs' accs0).
Proof.
  induction accs as [|a accs IH]; intros recs hs Hr Hnd; [exists recs; apply trace_ret|].
  apply Forall2_cons_inv_l in Hr as (x & hs' & (_ & _ & p & Ep & Er) & Hr & ->).
  rewrite fmap_cons in Hnd. apply NoDup_cons in Hnd as [Hni Hnd]. rewrite Ep in Hni.
  destruct (IH (<[p := None]> recs) hs') as [recs' Ht]; [by apply acc_rels_other|done|]. exists recs'.
  cbn [for_each mbind list_bind]. eapply trace_bind; [|exact Ht].
  assert (trace (p ← in_array (access_record_ a); delete_record p) (on_answers recs accs0) [] () (on_answers (<[p := None]> recs) accs0))
    as Hd by (eapply trace_bind_pure; [by apply trace_in_array|]; by eapply trace_delete_record).
  destruct (free a); (eapply trace_bind_ret; [|exact Hd]); [apply trace_lift, returns_free|apply trace_ret].
Qed.

Lemma returns_Serialize a r : len (data_ptr_ r) ≤ 2 ^ 25 →
  returns (record_Serialize a r) [(c_write a (data_ptr_ r), a_unit)] ().
Proof.
  intros Hl. unfold record_Serialize, Write. rewrite wrap_small by (unfold fits; lia). rewrite Nat2Z.id, firstn_all.
  apply returns_write.
Qed.

Definition small (x : held) : Prop := 0 ≤ hd_type x < 4 ∧ len (data_ptr_ (hd_record x)) ≤ 2 ^ 25.

Lemma trace_commit_loop recs accs0 accs hs :
  Forall2 (acc_rel recs) accs hs → Forall small hs →
  trace (for_each accs (λ a,
    assert_ ((access_type_ a =? READ_ONLY) || (access_type_ a =? DELETE_ONLY) ||
             (access_type_ a =? INSERT_ONLY) || (access_type_ a =? READ_WRITE));;
    p ← in_array (access_record_ a);
    r ← get_record p;
    (if access_type_ a =? READ_WRITE then lift (record_Serialize (access_addr_ a) r)
     else if access_type_ a =? DELETE_ONLY then lift (record_Serialize (access_addr_ a) r)
     else mret ());;
    lift (UnLockRecord thread_id (access_addr_ a) (GetSchemaSize (schema_ptr_ r)))))
    (on_answers recs accs0) (hs ≫= commit_calls thread_id) () (on_answers recs accs0).
Proof.
  induction 1 as [|a x accs hs (Et & Ea & p & Ep & Er) Hr IH]; intros Hs; [apply trace_ret|].
  apply Forall_cons in Hs as [[Hty Hl] Hs]. cbn [for_each mbind list_bind]. eapply trace_bind; [|by apply IH].
  eapply trace_bind_pure; [apply trace_assert; rewrite Et; unfold READ_ONLY, DELETE_ONLY, INSERT_ONLY, READ_WRITE; lia|].
  eapply trace_bind_pure; [by apply trace_in_array|]. eapply trace_bind_pure; [by apply trace_get_record|].
  unfold commit_calls. rewrite Et, Ea. eapply trace_bind; [|apply trace_lift, returns_unlock].
  unfold writes_back. destruct (hd_type x =? READ_WRITE); cbn [orb]; [by apply trace_lift, returns_Serialize|].
  destruct (hd_type x =? DELETE_ONLY); [by apply trace_lift, returns_Serialize|apply trace_ret].
Qed.

Lemma trace_commit recs accs hs as0 :
  thread_rep (on_answers recs accs as0) hs → Forall small hs →
  ∃ recs', trace (CommitTransaction thread_id) (on_answers recs accs)
    ((hs ≫= commit_calls thread_id) ++ (hs ≫= free_calls)) true (on_answers recs' []).
Proof.
  intros [Hr Hnd] Hs. cbn in Hr, Hnd.
  destruct (trace_delete_all (λ a, access_type_ a =? DELETE_ONLY) accs accs recs hs Hr Hnd) as [recs' Ht]. exists recs'.
  assert ((accs ≫= λ a, if access_type_ a =? DELETE_ONLY then [(c_free (access_addr_ a), a_unit)] else []) = hs ≫= free_calls) as Ef.
  { clear -Hr. induction Hr as [|a x accs hs (Et & Ea & _) _ IH]; [done|]. cbn [mbind list_bind]. unfold free_calls at 1.
    by rewrite Et, Ea, IH. }
  rewrite Ef in Ht. unfold CommitTransaction. eapply trace_bind_pure; [apply trace_get_accesses|].
  eapply trace_bind; [by apply trace_commit_loop|]. eapply trace_bind_ret; [exact Ht|].
  eapply trace_bind_pure; [by apply (trace_modify _ _ _ recs' [])|]. apply trace_ret.
Qed.

(** The first loop of [AbortTransaction]; the copies of insertions become invisible. *)
Lemma trace_abort_loop accs0 accs : ∀ recs hs,
  Forall2 (acc_rel recs) accs hs → NoDup (access_record_ <$> accs) →
  Forall (λ x, ∃ cols, rec_ok (hd_record x) cols) hs →
  ∃ recs', (∃ hs', Forall2 (acc_rel recs') accs hs') ∧
    (∀ p, Some p ∉ access_record_ <$> accs → recs' !! p = recs !! p) ∧
    trace (for_each accs (λ a,
      p ← in_array (access_record_ a);
      r ← get_record p;
      lift (UnLockRecord thread_id (access_addr_ a) (GetSchemaSize (schema_ptr_ r)));;
      if access_type_ a =? INSERT_ONLY
      then set_visible_of p false;; lift (Free (access_addr_ a))
      else mret ())) (on_answers recs accs0) (hs ≫= abort_calls thread_id) () (on_answers recs' accs0).
Proof.
  induction accs as [|a accs IH]; intros recs hs Hr Hnd Hok.
  { apply Forall2_nil_inv_l in Hr as ->. exists recs. split_and!; [by exists []|done|apply trace_ret]. }
  apply Forall2_cons_inv_l in Hr as (x & hs' & (Et & Ea & p & Ep & Er) & Hr & ->).
  rewrite fmap_cons in Hnd. apply NoDup_cons in Hnd as [Hni Hnd]. rewrite Ep in Hni.
  apply Forall_cons in Hok as [[cols Hrec] Hok].
  assert (∃ recs1 r1, recs1 !! p = Some (Some r1) ∧ (∀ q, q ≠ p → recs1 !! q = recs !! q) ∧
    Forall2 (acc_rel recs1) accs hs' ∧
    trace (if access_type_ a =? INSERT_ONLY then set_visible_of p false;; lift (Free (access_addr_ a)) else mret ())
      (on_answers recs accs0) (if hd_type x =? INSERT_ONLY then [(c_free (hd_addr x), a_unit)] else []) ()
      (on_answers recs1 accs0)) as (recs1 & r1 & E1 & Eo & Hr1 & Ht1).
  { rewrite Et, Ea. destruct (hd_type x =? INSERT_ONLY).
    - destruct (rec_ok_visible _ cols false Hrec) as (r' & E & _).
      exists (<[p := Some r']> recs), r'. split_and!; [apply list_lookup_insert_eq; by eapply lookup_lt_Some|
        intros q Hq; by apply list_lookup_insert_ne|by apply acc_rels_other|].
      eapply trace_bind_pure; [|apply trace_lift, returns_free]. unfold set_visible_of.
      eapply trace_bind_pure; [by apply trace_get_record|]. unfold checked. rewrite E.
      eapply trace_bind_pure; [apply trace_ret|]. by apply trace_modify.
    - exists recs, (hd_record x). split_and!; [done..|apply trace_ret]. }
  destruct (IH recs1 hs' Hr1 Hnd Hok) as (recs' & [hs2 Hr2] & Hsame & Ht). exists recs'. split_and!.
  - exists (mk_held (hd_type x) (hd_addr x) r1 :: hs2). constructor; [|done]. split_and!; [done..|].
    exists p. split; [done|]. by rewrite Hsame.
  - intros q Hq. rewrite fmap_cons, not_elem_of_cons, Ep in Hq. destruct Hq as [Hq Hq'].
    rewrite Hsame by done. apply Eo. congruence.
  - cbn [for_each mbind list_bind]. eapply trace_bind; [|exact Ht].
    eapply trace_bind_pure; [by apply trace_in_array|]. eapply trace_bind_pure; [by apply trace_get_record|].
    unfold abort_calls. change (unlock_call thread_id x :: ?l) with ([unlock_call thread_id x] ++ l).
    eapply trace_bind; [|exact Ht1]. rewrite Ea. apply trace_lift, returns_unlock.
Qed.

Lemma trace_abort recs accs hs as0 :
  thread_rep (on_answers recs accs as0) hs → Forall (λ x, ∃ cols, rec_ok (hd_record x) cols) hs →
  ∃ recs', trace (AbortTransaction thread_id) (on_answers recs accs) (hs ≫= abort_calls thread_id) () (on_answers recs' []).
Proof.
  intros [Hr Hnd] Hok. cbn in Hr, Hnd.
  destruct (trace_abort_loop accs accs recs hs Hr Hnd Hok) as (recs1 & [hs1 Hr1] & _ & Ht1).
  destruct (trace_delete_all (λ _, false) accs accs recs1 hs1 Hr1 Hnd) as [recs2 Ht2]. exists recs2.
  assert ((accs ≫= λ _, if false then [] else []) = [] :> calls) as E by (clear; induction accs; done).
  unfold AbortTransaction. eapply trace_bind_pure; [apply trace_get_accesses|].
  eapply trace_bind_ret; [exact Ht1|]. eapply trace_bind_pure; [|by apply trace_modify].
  cbv iota in Ht2. assert ((accs ≫= λ _, []) = [] :> calls) as E' by (clear; induction accs; done).
  rewrite E' in Ht2. exact Ht2.
Qed.

(** ** The calls of a search *)
Definition lock_call (table_id ty : Z) (t : Table) (a : GlobalAddress) (v : Z) : call * answer :=
  (c_try (lock_of ty) thread_id a (GetSchemaSize (t_schema_ptr_ t)), a_int v).

Lemma returns_lock ty a n v :
  returns (if ty =? READ_ONLY then TryRLockRecord thread_id a n else TryWLockRecord thread_id a n)
    [(c_try (lock_of ty) thread_id a n, a_int v)] (v =? 0).
Proof.
  assert (returns (try_lock (Z.to_nat kTryLockLimit) ((if lock_of ty then try_wlock else try_rlock) thread_id a n))
    [(c_try (lock_of ty) thread_id a n, a_int v)] (v =? 0)) as H.
  { change (Z.to_nat kTryLockLimit) with 1%nat. cbn [try_lock].
    eapply trace_bind_ret; [apply returns_try|]. destruct (v =? 0); apply trace_ret. }
  unfold lock_of in *. destruct (ty =? READ_ONLY); exact H.
Qed.

Section search.
Context (table_id key ty : Z) (t : Table) (cols : list ColumnInfo) (a : GlobalAddress) (T : calls).
Context (Ht : arr_get tables table_id = Some t) (Hs : schema_vis (t_schema_ptr_ t) cols).
Context (Hsearch : returns (table_SearchRecord fuel key t) T a).
Context (recs : list (option DbRecord)) (accs : list Access) (hs : list held) (as0 : list answer).
Context (Hrep : thread_rep (on_answers recs accs as0) hs).

Lemma trace_not_found : a = ga_Null →
  trace (SearchRecord_result tables fuel thread_id table_id key ty) (on_answers recs accs) T not_found (on_answers recs accs).
Proof.
  intros Ha. eapply trace_bind_pure; [by apply trace_in_array|]. eapply trace_bind_ret; [by apply trace_lift|].
  destruct (ga_eqb_spec a ga_Null); [apply trace_ret|done].
Qed.

Lemma trace_select T2 (res : option nat) g : a ≠ ga_Null →
  trace (SelectRecordCC tables thread_id table_id a ty) (on_answers recs accs) T2 res g →
  trace (SearchRecord_result tables fuel thread_id table_id key ty) (on_answers recs accs) (T ++ T2)
    (match res with Some p => found p | None => refused end) g.
Proof.
  intros Ha Hsel. eapply trace_bind_pure; [by apply trace_in_array|]. eapply trace_bind; [by apply trace_lift|].
  destruct (ga_eqb_spec a ga_Null); [done|]. eapply trace_bind_ret; [exact Hsel|]. destruct res; apply trace_ret.
Qed.

Lemma trace_refused v : a ≠ ga_Null → v ≠ 0 → Forall (λ x, ∃ cols, rec_ok (hd_record x) cols) hs →
  ∃ recs', trace (SearchRecord_result tables fuel thread_id table_id key ty) (on_answers recs accs)
    (T ++ lock_call table_id ty t a v :: (hs ≫= abort_calls thread_id)) refused (on_answers recs' []).
Proof.
  intros Ha Hv Hok. destruct (trace_abort recs accs hs as0 Hrep Hok) as [recs' Hab]. exists recs'.
  apply (trace_select _ None); [done|]. eapply trace_bind_pure; [by apply trace_in_array|].
  change (lock_call table_id ty t a v :: ?l) with ([lock_call table_id ty t a v] ++ l).
  eapply trace_bind; [apply trace_lift, returns_lock|]. rewrite (proj2 (Z.eqb_neq _ _)) by done.
  eapply trace_bind_ret; [exact Hab|apply trace_ret].
Qed.

Lemma trace_found bs : a ≠ ga_Null → len hs < kMaxAccessLimit →
  len bs = GetSchemaSize (t_schema_ptr_ t) → len bs ≤ 2 ^ 25 →
  ∃ r p recs' accs', copy_of (t_schema_ptr_ t) bs ty = Some r ∧ rec_ok r cols ∧ schema_ptr_ r = t_schema_ptr_ t ∧
    len (data_ptr_ r) = len bs ∧
    trace (SearchRecord_result tables fuel thread_id table_id key ty) (on_answers recs accs)
      (T ++ [lock_call table_id ty t a 0; (c_read a (len bs), a_bytes bs)]) (found p) (on_answers recs' accs') ∧
    ∀ as1, thread_rep (on_answers recs' accs' as1) (hs ++ [mk_held ty a r]).
Proof.
  intros Ha Hlen El H25. destruct (copy_of_ok _ cols bs ty Hs El) as (r & Er & Hr & Esc).
  set (p := length recs). set (r0 := mk_DbRecord (t_schema_ptr_ t) bs (GetSchemaSize (t_schema_ptr_ t))).
  exists r, p, (recs ++ [Some r]), (accs ++ [mk_Access ty (Some p) a]). split_and!; [done..| | |].
  - destruct Hr as [[_ E] _]. rewrite E, Esc. done.
  - apply (trace_select _ (Some p)); [done|]. eapply trace_bind_pure; [by apply trace_in_array|].
    change [?x; ?y] with ([x] ++ [y]). eapply trace_bind; [apply trace_lift, returns_lock|].
    rewrite (proj2 (Z.eqb_eq _ _)) by done.
    eapply trace_bind_pure; [by apply (trace_pure _ _ p (on_answers (recs ++ [Some (new_Record (t_schema_ptr_ t))]) accs))|].
    assert (∀ x, (recs ++ [Some x]) !! p = Some (Some x)) as El2.
    { intros x. by rewrite lookup_app_r, Nat.sub_diag by (unfold p; lia). }
    assert (∀ x y, <[p := Some y]> (recs ++ [Some x]) = recs ++ [Some y]) as Ei.
    { intros x y. rewrite (insert_app_r_alt recs) by (unfold p; lia). by rewrite Nat.sub_diag. }
    eapply trace_bind_pure; [by apply trace_get_record|]. eapply trace_bind_ret.
    { apply trace_lift. unfold record_Deserialize, Read. cbv zeta. cbn [schema_ptr_ new_Record].
      rewrite <-El, wrap_small by (unfold fits; lia). eapply trace_bind_ret; [apply returns_read|]. rewrite El. apply (trace_ret r0). }
    eapply trace_bind_pure.
    { apply (trace_modify _ _ _ (recs ++ [Some r0]) accs). intros rest. unfold on_answers. cbn. by rewrite Ei. }
    eapply trace_bind_pure.
    { eapply trace_bind_pure; [apply trace_get_accesses|]. eapply trace_bind_pure; [apply trace_assert|].
      - apply Z.ltb_lt. pose proof (thread_rep_length _ _ Hrep) as E. cbn in E. by rewrite E.
      - by apply (trace_modify _ _ _ (recs ++ [Some r0]) (accs ++ [mk_Access ty (Some p) a])). }
    eapply trace_bind_pure; [|apply trace_ret].
    unfold copy_of in Er. fold r0 in Er. destruct (ty =? DELETE_ONLY); [|injection Er as <-; apply trace_ret].
    unfold set_visible_of. eapply trace_bind_pure; [by apply trace_get_record|]. unfold checked. rewrite Er.
    eapply trace_bind_pure; [apply trace_ret|]. apply trace_modify. intros rest. unfold on_answers. cbn. by rewrite Ei.
  - intros as1. apply (thread_rep_new (on_answers recs accs as1) hs ty a r). by destruct Hrep.
Qed.
End search.
End transactions.
