(* ===== verification/DbSerial.v ===== *)
(** * DbSerial: transactions of several threads, call by call

    Threads run transactions through [DbTxn] on one database; a step of a thread is a call
    of the transaction manager, as a whole ([DbInterleave] has the steps inside).  The
    specification runs the committed transactions one after the other, each at the moment
    of its commit.  The locks that [DSM.h] has are always granted: with them one thread
    alone is serial ([one_thread_serial]) and two are not ([lost_update]), even when their
    calls do not overlap. *)
From S2P Require Import Prelude GlobalMem DbStore DbFlat DbDsm DbArray DbIndex DbSchema DbTable DbTxn.
From stdpp Require Import base numbers option functions list list_numbers gmap.
Open Scope Z_scope.

(** ** Operations of a transaction, by the position of the access *)
Inductive txn_op :=
| t_search (table_id key access_type : Z)
| t_get (i : nat) (col_id : Z)
| t_set (i : nat) (col_id : Z) (data : list Z).

Inductive txn_res := r_found | r_not_found | r_refused | r_column (d : option (list Z)) | r_set (b : bool).

#[export] Instance txn_res_eq_dec : EqDecision txn_res.
Proof. solve_decision. Defined.

(** What a caller respects: the column exists and the data has its size. *)
Definition readable (col_id : Z) (r : DbRecord) : bool :=
  (0 <=? col_id) && (col_id <? column_count_ (schema_ptr_ r)).
Definition writable (col_id : Z) (d : list Z) (r : DbRecord) : bool :=
  readable col_id r && match GetColumnSize col_id (schema_ptr_ r) with Some n => n <=? len d | None => false end.

Inductive sys_op := s_op (o : txn_op) | s_commit | s_abort.

Record local := mk_local { lc_records : list (option DbRecord); lc_accesses : list Access }.
Record system (S : Type) := mk_system { sy_mem : S; sy_threads : nat → local }.
Arguments mk_system {S} _ _.
Arguments sy_mem {S} _.
Arguments sy_threads {S} _.

Section schedule.
Context {S : Type} {J : Indeterminate} {G : GAlloc S} {L : RecordLocks S}.
Context (tables : list Table) (fuel : nat).

Definition run_op (thread_id : Z) (o : txn_op) : DB (thread S) txn_res :=
  match o with
  | t_search table_id key ty =>
      ret ← SearchRecord_result tables fuel thread_id table_id key ty;
      mret (match ret with found _ => r_found | not_found => r_not_found | refused => r_refused end)
  | t_get i col_id =>
      accs ← get_accesses;
      match accs !! i with
      | None => mret (r_column None)
      | Some a =>
          p ← in_array (access_record_ a);
          r ← get_record p;
          if readable col_id r then d ← get_column_of p col_id; mret (r_column (Some d))
          else mret (r_column None)
      end
  | t_set i col_id data =>
      accs ← get_accesses;
      match accs !! i with
      | None => mret (r_set false)
      | Some a =>
          p ← in_array (access_record_ a);
          r ← get_record p;
          if writable col_id data r then set_column_of p col_id data;; mret (r_set true)
          else mret (r_set false)
      end
  end.

Definition run_sys (thread_id : Z) (o : sys_op) : DB (thread S) txn_res :=
  match o with
  | s_op o => run_op thread_id o
  | s_commit => b ← CommitTransaction thread_id; mret (r_set b)
  | s_abort => AbortTransaction thread_id;; mret (r_set true)
  end.

(** Thread [i] does a step: a whole call of the manager. *)
Definition on_thread {A} (i : nat) (m : DB (thread S) A) : DB (system S) A := λ y,
  let c := sy_threads y i in
  let put w := mk_system (th_mem w) (<[i := mk_local (th_records w) (th_accesses w)]> (sy_threads y)) in
  match m (mk_thread (sy_mem y) (lc_records c) (lc_accesses c)) with
  | Done a w => Done a (put w)
  | Raise e w => Raise e (put w)
  end.

Fixpoint run_schedule (sched : list (nat * sys_op)) : DB (system S) (list txn_res) :=
  match sched with
  | [] => mret []
  | (i, o) :: sched =>
      r ← on_thread i (run_sys (Z.of_nat i) o);
      rs ← run_schedule sched;
      mret (r :: rs)
  end.
End schedule.

(** ** What was committed: each transaction with the results that it saw *)
Abbreviation txn_log := (list (txn_op * txn_res)).

Fixpoint commits (sched : list (nat * sys_op)) (rs : list txn_res) (logs : nat → txn_log) : list txn_log :=
  match sched, rs with
  | (i, s_op o) :: sched, r :: rs =>
      let log := match r with r_refused => [] | _ => logs i ++ [(o, r)] end in
      commits sched rs (<[i := log]> logs)
  | (i, s_commit) :: sched, _ :: rs => logs i :: commits sched rs (<[i := []]> logs)
  | (i, s_abort) :: sched, _ :: rs => commits sched rs (<[i := []]> logs)
  | _, _ => []
  end.

(** ** The specification: a transaction on the records of the database *)
Section reference.
Context {J : Indeterminate} (tables : list Table) (m : nat → Z → list GlobalAddress).
Implicit Types (h : heap) (hs : list held).

Definition ref_op h hs (o : txn_op) : txn_res * list held :=
  match o with
  | t_search table_id key ty =>
      let a := newest (m (Z.to_nat table_id) key) in
      if ga_eqb a ga_Null then (r_not_found, hs)
      else match t ← tables !! Z.to_nat table_id; bs ← h !! a; copy_of (t_schema_ptr_ t) bs ty with
           | Some r => (r_found, hs ++ [mk_held ty a r])
           | None => (r_refused, hs)
           end
  | t_get i col_id =>
      match hs !! i with
      | Some x =>
          if readable col_id (hd_record x) then (r_column (GetColumn col_id (hd_record x)), hs)
          else (r_column None, hs)
      | None => (r_column None, hs)
      end
  | t_set i col_id data =>
      match hs !! i with
      | Some x =>
          if writable col_id data (hd_record x) then
            match SetColumn col_id data (hd_record x) with
            | Some r => (r_set true, <[i := mk_held (hd_type x) (hd_addr x) r]> hs)
            | None => (r_set false, hs)
            end
          else (r_set false, hs)
      | None => (r_set false, hs)
      end
  end.

(** The copies at the end, if every operation returns what the log says. *)
Fixpoint ref_log h hs (log : txn_log) : option (list held) :=
  match log with
  | [] => Some hs
  | (o, r) :: log =>
      let '(r', hs') := ref_op h hs o in
      if decide (r' = r) then ref_log h hs' log else None
  end.

(** The committed transactions, one after the other. *)
Fixpoint serial (txns : list txn_log) h : option heap :=
  match txns with
  | [] => Some h
  | log :: txns => hs ← ref_log h [] log; serial txns (commit_heap hs h)
  end.
End reference.

(** ** Records of a database and their copies *)
Lemma readable_lookup r cols col : rec_ok r cols → readable col r = true →
  ∃ c, cols !! Z.to_nat col = Some c ∧ GetColumn col r = Some (slice (ci_column_offset_ c) (column_size_ c) (data_ptr_ r)).
Proof.
  intros [Hr _] Hc. unfold readable in Hc. pose proof Hr as [[_ [Ec _] _ _] _].
  destruct (lookup_lt_is_Some_2 cols (Z.to_nat col)) as [c Hl]; [lia|]. exists c. split; [done|].
  rewrite <-(GetColumn_ok r cols (Z.to_nat col) c Hr Hl). f_equal. lia.
Qed.

Lemma writable_ok r cols col d : rec_ok r cols → writable col d r = true →
  ∃ r', SetColumn col d r = Some r' ∧ rec_ok r' cols ∧ schema_ptr_ r' = schema_ptr_ r ∧
    len (data_ptr_ r') = len (data_ptr_ r).
Proof.
  intros Hr Hw. unfold writable in Hw. apply andb_true_iff in Hw as [Hc Hs].
  destruct (readable_lookup r cols col Hr Hc) as (c & Hl & _). destruct Hr as [Hr Hv].
  unfold readable in Hc. assert (col = Z.of_nat (Z.to_nat col)) as Ecol by lia. rewrite Ecol in Hs |- *.
  unfold GetColumnSize in Hs. rewrite (get_column_ok _ _ _ _ (proj1 Hr) Hl) in Hs. cbn in Hs.
  destruct (SetColumn_ok r cols (Z.to_nat col) c d Hr Hl) as (r' & E & Hr' & Es & _); [lia|].
  exists r'. split_and!; [done|by split|done|]. destruct Hr as [_ E1], Hr' as [_ E2]. congruence.
Qed.

Section correctness.
Context {S : Type} {J : Indeterminate} {G : GAlloc S} {L : RecordLocks S} {GH : GHeap S} {LS : LockSpec S}.
Context (tables : list Table) (fuel k : nat) (own : nat → GlobalAddress → Prop) (m : nat → Z → list GlobalAddress).
Implicit Types (h : heap) (l : lk_state) (hs : list held).

(** A database: tables whose keys lead to records of the tables' schemas, outside the indexes. *)
Record db_ok h : Prop := {
  dk_tables : tables_rep k h tables own m;
  dk_fuel : (k ≤ fuel)%nat;
  dk_schema i t : tables !! i = Some t → ∃ cols, schema_vis (t_schema_ptr_ t) cols;
  dk_record i t key : tables !! i = Some t → newest (m i key) ≠ ga_Null →
    ∃ bs, h !! newest (m i key) = Some bs ∧ len bs = GetSchemaSize (t_schema_ptr_ t) ∧
      ∀ j, (j < length tables)%nat → ¬ own j (newest (m i key));
}.

Definition op_ok (o : txn_op) : Prop :=
  match o with t_search id _ ty => 0 ≤ id < len tables ∧ 0 ≤ ty < 4 | _ => True end.

Record held_good h (x : held) : Prop := {
  hg_rec : ∃ cols, rec_ok (hd_record x) cols;
  hg_block : ∃ bs, h !! hd_addr x = Some bs ∧ len bs = len (data_ptr_ (hd_record x));
  hg_type : 0 ≤ hd_type x < 4;
  hg_own j : (j < length tables)%nat → ¬ own j (hd_addr x);
}.

Lemma held_good_ok h x : held_good h x → held_ok h x.
Proof. intros [Hr (bs & Hb & Hl) _ _]. split; [done|]. exists (len bs). split; [by exists bs|lia]. Qed.

Definition locks_of hs : list (Z * GlobalAddress) := (λ x, (hd_type x, hd_addr x)) <$> hs.

(** What an operation does to the copies and to the locks. *)
Definition progress (t : Z) l hs l' hs' : Prop :=
  l' = l ∧ locks_of hs' = locks_of hs ∨
  ∃ ty a r, hs' = hs ++ [mk_held ty a r] ∧ lk_try (lock_of ty) t a l = Some l'.

Lemma wp_run_search t id key ty w l h hs :
  mem_ok w l h → db_ok h → thread_rep w hs → Forall (held_good h) hs → len hs < kMaxAccessLimit →
  op_ok (t_search id key ty) →
  wpd (run_op tables fuel t (t_search id key ty)) (λ r w',
    (r = r_refused ∧ (∃ ex a, lk_try ex t a l = None) ∧ mem_ok w' (release_all t hs l) h ∧ thread_rep w' []) ∨
    (r ≠ r_refused ∧ ∃ l' hs', mem_ok w' l' h ∧ thread_rep w' hs' ∧ Forall (held_good h) hs' ∧
      ref_op tables m h hs (t_search id key ty) = (r, hs') ∧ progress t l hs l' hs')) w.
Proof.
  intros Hm D T Hg Hlen [Hid Hty]. destruct (lookup_lt_is_Some_2 tables (Z.to_nat id)) as [tb Ht]; [lia|].
  destruct (dk_schema _ D _ _ Ht) as [cols Hs]. cbn [run_op ref_op]. wpd_step.
  eapply (wp_search tables fuel t id (Z.to_nat id) tb cols k key own m); [exact Hm|exact T|done|lia|done|apply D|apply D|done| | | | |].
  - intros Hn. destruct (dk_record _ D _ _ key Ht Hn) as (bs & ? & ? & _). by exists bs.
  - eapply Forall_impl; [exact Hg|]. by intros x [].
  - intros w' En Hm' T' _ _. wpd_step. right. split; [done|]. exists l, hs.
    destruct (ga_eqb_spec (newest (m (Z.to_nat id) key)) ga_Null); [|done]. split_and!; [done..|by left].
  - intros w' l' bs r Hn Hb El Er Hr Hm' T' _ _. wpd_step. right. split; [done|].
    exists l', (hs ++ [mk_held ty (newest (m (Z.to_nat id) key)) r]).
    destruct (ga_eqb_spec (newest (m (Z.to_nat id) key)) ga_Null); [done|].
    rewrite Ht, Hb. cbn [mbind option_bind]. rewrite Er.
    split_and!; [done|done| |done|right; by eexists _, _, _].
    apply Forall_app. split; [done|]. constructor; [|constructor].
    destruct (dk_record _ D _ _ key Ht Hn) as (bs' & Hb' & Hl' & Hown). simplify_eq.
    destruct (copy_of_ok _ cols bs ty Hs Hl') as (r' & Er' & [[_ El'] _] & Esc). simplify_eq.
    split; cbn; [by exists cols| |done|done]. exists bs. split; [done|]. rewrite Hl', El', Esc. done.
  - intros w' Hn El Hm' T'. wpd_step. left. split_and!; [done|by eexists _, _|done|done].
Qed.

Lemma wp_run_get t i col w l h hs :
  mem_ok w l h → thread_rep w hs → Forall (held_good h) hs →
  wpd (run_op tables fuel t (t_get i col)) (λ r w',
    r ≠ r_refused ∧ ∃ hs', mem_ok w' l h ∧ thread_rep w' hs' ∧ Forall (held_good h) hs' ∧
      ref_op tables m h hs (t_get i col) = (r, hs') ∧ locks_of hs' = locks_of hs) w.
Proof.
  intros Hm T Hg. cbn [run_op ref_op]. wpd_step. apply wpd_get_accesses.
  destruct (hs !! i) as [x|] eqn:Hx.
  - destruct (thread_rep_at w hs i x T Hx) as (a & p & Ha & Hp & Er). rewrite Ha.
    destruct (Forall_lookup_1 _ _ _ _ Hg Hx) as [[cols Hr] _ _ _].
    wpd_step. eapply wpd_in_array; [exact Hp|]. wpd_step. eapply wpd_get_record; [exact Er|].
    destruct (readable col (hd_record x)) eqn:Erd; [|wpd_step; split; [done|by exists hs]].
    destruct (readable_lookup _ cols col Hr Erd) as (c & _ & Hc). wpd_step.
    eapply wp_get_column; [exact T|done|done|done|exact Hc|]. wpd_step. split; [done|]. exists hs. by rewrite Hc.
  - rewrite (proj2 (lookup_ge_None _ _)); [|rewrite (thread_rep_length _ _ T); by apply lookup_ge_None].
    wpd_step. split; [done|]. by exists hs.
Qed.

Lemma wp_run_set t i col d w l h hs :
  mem_ok w l h → thread_rep w hs → Forall (held_good h) hs →
  wpd (run_op tables fuel t (t_set i col d)) (λ r w',
    r ≠ r_refused ∧ ∃ hs', mem_ok w' l h ∧ thread_rep w' hs' ∧ Forall (held_good h) hs' ∧
      ref_op tables m h hs (t_set i col d) = (r, hs') ∧ locks_of hs' = locks_of hs) w.
Proof.
  intros Hm T Hg. cbn [run_op ref_op]. wpd_step. apply wpd_get_accesses.
  destruct (hs !! i) as [x|] eqn:Hx.
  - destruct (thread_rep_at w hs i x T Hx) as (a & p & Ha & Hp & Er). rewrite Ha.
    destruct (Forall_lookup_1 _ _ _ _ Hg Hx) as [[cols Hr] (bs & Hb & Hl) Hty Hown].
    wpd_step. eapply wpd_in_array; [exact Hp|]. wpd_step. eapply wpd_get_record; [exact Er|].
    destruct (writable col d (hd_record x)) eqn:Ew; [|wpd_step; split; [done|by exists hs]].
    destruct (writable_ok _ cols col d Hr Ew) as (r' & Es & Hr' & _ & El). wpd_step.
    eapply wp_set_column; [exact Hm|exact T|done|done|done|exact Es|]. intros w' Hm' T' _ _. wpd_step.
    split; [done|]. rewrite Es. eexists. split_and!; [done|exact T'| |done|].
    + apply Forall_insert; [done|]. split; cbn; [by exists cols| |done|done]. exists bs. split; [done|lia].
    + unfold locks_of. rewrite list_fmap_insert. cbn. apply list_insert_id. by rewrite list_lookup_fmap, Hx.
  - rewrite (proj2 (lookup_ge_None _ _)); [|rewrite (thread_rep_length _ _ T); by apply lookup_ge_None].
    wpd_step. split; [done|]. by exists hs.
Qed.

(** One operation of a transaction. *)
Definition is_search (o : txn_op) : bool := match o with t_search _ _ _ => true | _ => false end.

Lemma wp_run_op t o w l h hs :
  mem_ok w l h → db_ok h → thread_rep w hs → Forall (held_good h) hs →
  (is_search o = true → len hs < kMaxAccessLimit) → op_ok o →
  wpd (run_op tables fuel t o) (λ r w',
    (r = r_refused ∧ (∃ ex a, lk_try ex t a l = None) ∧ mem_ok w' (release_all t hs l) h ∧ thread_rep w' []) ∨
    (r ≠ r_refused ∧ ∃ l' hs', mem_ok w' l' h ∧ thread_rep w' hs' ∧ Forall (held_good h) hs' ∧
      ref_op tables m h hs o = (r, hs') ∧ progress t l hs l' hs')) w.
Proof.
  intros Hm D T Hg Hlen Ho. destruct o as [id key ty|i col|i col d].
  - apply wp_run_search; (done || by apply Hlen).
  - eapply wpd_mono; [by apply (wp_run_get t i col w l h hs)|]. cbn beta. intros r w' (Hr & hs' & ? & ? & ? & ? & ?).
    right. split; [done|]. exists l, hs'. split_and!; [done..|by left].
  - eapply wpd_mono; [by apply (wp_run_set t i col d w l h hs)|]. cbn beta. intros r w' (Hr & hs' & ? & ? & ? & ? & ?).
    right. split; [done|]. exists l, hs'. split_and!; [done..|by left].
Qed.

Lemma progress_length t l hs l' hs' : progress t l hs l' hs' → len hs' ≤ len hs + 1.
Proof.
  intros [[_ E]|(ty & a & r & -> & _)]; [|rewrite length_app; cbn; lia].
  apply (f_equal length) in E. unfold locks_of in E. rewrite !length_fmap in E. lia.
Qed.

(** The reference reads no other record than those that are held at the end. *)
Lemma ref_op_addrs h hs o : hd_addr <$> hs `prefix_of` hd_addr <$> (ref_op tables m h hs o).2.
Proof.
  destruct o as [id key ty|i col|i col d]; cbn.
  - destruct (ga_eqb _ _); [done|]. destruct (_ ≫= _); [|done]. cbn. rewrite fmap_app. by apply prefix_app_r.
  - destruct (hs !! i); [|done]. by destruct (readable _ _).
  - destruct (hs !! i) as [x|] eqn:E; [|done]. destruct (writable _ _ _); [|done]. destruct (SetColumn _ _ _); [|done].
    cbn. rewrite list_fmap_insert, list_insert_id; [done|]. by rewrite list_lookup_fmap, E.
Qed.

Lemma ref_log_addrs h hs log hs' : ref_log tables m h hs log = Some hs' → hd_addr <$> hs `prefix_of` hd_addr <$> hs'.
Proof.
  revert hs. induction log as [|[o r] log IH]; intros hs; cbn; [by intros [= ->]|].
  pose proof (ref_op_addrs h hs o) as Hp. destruct (ref_op tables m h hs o) as [r' hs1]. cbn in Hp.
  destruct (decide (r' = r)); [|done]. intros H. etransitivity; [exact Hp|by apply IH].
Qed.

Lemma ref_op_ext h h' hs o r hs' :
  ref_op tables m h hs o = (r, hs') → r ≠ r_refused → (∀ x, x ∈ hs' → h' !! hd_addr x = h !! hd_addr x) →
  ref_op tables m h' hs o = (r, hs').
Proof.
  destruct o as [id key ty|i col|i col d]; cbn; [|done..].
  destruct (ga_eqb _ _); [done|]. destruct (tables !! _) as [t|]; cbn; [|by intros [= <- <-]].
  destruct (h !! _) as [bs|] eqn:Eb; cbn; [|by intros [= <- <-]].
  destruct (copy_of _ bs ty) as [c|] eqn:Ec; [|by intros [= <- <-]].
  intros [= <- <-] _ Hx. set (a := newest _) in *.
  assert (h' !! a = h !! a) as ->; [|by rewrite Eb; cbn; rewrite Ec].
  apply (Hx (mk_held ty a c)), elem_of_app. right. apply list_elem_of_here.
Qed.

Lemma ref_log_ext h h' hs log hs' :
  ref_log tables m h hs log = Some hs' → Forall (λ e, e.2 ≠ r_refused) log →
  (∀ x, x ∈ hs' → h' !! hd_addr x = h !! hd_addr x) → ref_log tables m h' hs log = Some hs'.
Proof.
  intros H F. revert hs H. induction F as [|[o r] log Hr _ IH]; intros hs H Hx; [done|]. cbn in H, Hr |- *.
  destruct (ref_op tables m h hs o) as [r' hs1] eqn:E1. destruct (decide (r' = r)) as [->|]; [|done].
  rewrite (ref_op_ext h h' hs o r hs1 E1 Hr).
  - rewrite decide_True by done. by apply IH.
  - intros x Hin. pose proof (ref_log_addrs h hs1 log hs' H) as Hp.
    assert (hd_addr x ∈ hd_addr <$> hs') as Hi by (eapply elem_of_prefix; [|exact Hp]; by apply list_elem_of_fmap_2).
    apply list_elem_of_fmap in Hi as (y & Ey & Hy). rewrite Ey. by apply Hx.
Qed.

Lemma ref_log_app h hs log o r hs1 hs2 :
  ref_log tables m h hs log = Some hs1 → ref_op tables m h hs1 o = (r, hs2) →
  ref_log tables m h hs (log ++ [(o, r)]) = Some hs2.
Proof.
  revert hs. induction log as [|[o' r'] log IH]; intros hs H1 H2; cbn in *.
  - injection H1 as ->. rewrite H2. by rewrite decide_True by done.
  - destruct (ref_op tables m h hs o') as [r2 hs3]. destruct (decide (r2 = r')); [|done]. by apply IH.
Qed.

(** ** What a commit changes *)
Lemma commit_one_other h x a : (writes_back x = true → hd_addr x ≠ a) → commit_one h x !! a = h !! a.
Proof.
  intros H. unfold commit_one. destruct (writes_back x); [|done]. rewrite put_lookup_ne; [done|by apply H].
Qed.

Lemma commit_heap_other hs h a :
  (∀ x, x ∈ hs → writes_back x = true → hd_addr x ≠ a) → commit_heap hs h !! a = h !! a.
Proof.
  revert h. induction hs as [|x hs IH]; intros h H; [done|]. cbn. change (foldl commit_one ?h ?hs) with (commit_heap hs h).
  rewrite IH, commit_one_other; [done| |].
  - intros Hw. apply (H x); [apply list_elem_of_here|done].
  - intros y Hy. apply H. by apply list_elem_of_further.
Qed.

Lemma commit_one_good h x y : held_good h x → held_good h y → held_good (commit_one h x) y.
Proof.
  intros [_ (bs & Hb & Hl) _ _] [Hr (cs & Hc & Hlc) ? ?]. split; [done| |done|done]. unfold commit_one.
  destruct (writes_back x); [|by exists cs]. destruct (decide (hd_addr x = hd_addr y)) as [E|].
  - rewrite (put_some _ _ _ _ _ Hb), E, lookup_insert_eq. eexists. split; [done|].
    assert (bs = cs) as -> by congruence. by rewrite splice_length by lia.
  - rewrite put_lookup_ne by done. by exists cs.
Qed.

Lemma commit_heap_good hs h y : Forall (held_good h) hs → held_good h y → held_good (commit_heap hs h) y.
Proof.
  revert h. induction hs as [|x hs IH]; intros h Hs Hy; [done|]. apply Forall_cons in Hs as [Hx Hs].
  apply (IH (commit_one h x)); [|by apply commit_one_good].
  eapply Forall_impl; [exact Hs|]. intros z Hz. by apply commit_one_good.
Qed.

Lemma commit_heap_length hs h a bs : Forall (held_good h) hs → h !! a = Some bs →
  ∃ bs', commit_heap hs h !! a = Some bs' ∧ len bs' = len bs.
Proof.
  revert h bs. induction hs as [|x hs IH]; intros h bs Hs Ha; [by exists bs|]. apply Forall_cons in Hs as [Hx Hs].
  assert (∃ bs1, commit_one h x !! a = Some bs1 ∧ len bs1 = len bs) as (bs1 & E1 & <-).
  { unfold commit_one. destruct (writes_back x); [|by exists bs]. destruct (decide (hd_addr x = a)) as [<-|].
    - rewrite (put_some _ _ _ _ _ Ha), lookup_insert_eq. eexists. split; [done|].
      destruct Hx as [_ (cs & Hc & Hl) _ _]. simplify_eq. by rewrite splice_length by lia.
    - rewrite put_lookup_ne by done. by exists bs. }
  apply (IH (commit_one h x)); [|done]. eapply Forall_impl; [exact Hs|]. intros z Hz. by apply commit_one_good.
Qed.

Lemma commit_heap_db hs h : Forall (held_good h) hs → db_ok h → db_ok (commit_heap hs h).
Proof.
  intros Hg [R F Sc Rc]. split; [|done|done|].
  - eapply tables_rep_ext; [exact R|]. intros i a Hi Ha. apply commit_heap_other. intros x Hx _ <-.
    destruct (proj1 (Forall_forall _ _) Hg x Hx) as [_ _ _ Hown]. by apply (Hown i).
  - intros i t key Ht Hn. destruct (Rc i t key Ht Hn) as (bs & Hb & Hl & Hown).
    destruct (commit_heap_length hs h _ bs Hg Hb) as (bs' & Hb' & Hl'). exists bs'. split_and!; [done|congruence|done].
Qed.

(** ** Systems *)

(** A property of the locks and of the copies of the threads, kept by the threads [A], under
    which no thread writes what another one holds. *)
Record lock_discipline (A : nat → Prop) (LI : lk_state → (nat → list held) → Prop) : Prop := {
  ld_conflict l hss i j x y : LI l hss → i ≠ j → x ∈ hss i → y ∈ hss j → hd_addr x = hd_addr y → writes_back x = false;
  ld_ext l hss hss' : LI l hss → (∀ i, locks_of (hss' i) = locks_of (hss i)) → LI l hss';
  ld_grant l hss i ty a r l' : A i → LI l hss → lk_try (lock_of ty) (Z.of_nat i) a l = Some l' →
    LI l' (<[i := hss i ++ [mk_held ty a r]]> hss);
  ld_release l hss i : A i → LI l hss → LI (release_all (Z.of_nat i) (hss i) l) (<[i := []]> hss);
}.

Definition thread_at (y : system S) (i : nat) : thread S :=
  mk_thread (sy_mem y) (lc_records (sy_threads y i)) (lc_accesses (sy_threads y i)).

Record sys_inv (LI : lk_state → (nat → list held) → Prop) h l (y : system S) (logs : nat → txn_log) (hss : nat → list held) (counts : nat → Z) : Prop := {
  si_mem : heap_ok (sy_mem y) h ∧ lk_of (sy_mem y) = l;
  si_db : db_ok h;
  si_thread i : thread_rep (thread_at y i) (hss i);
  si_log i : ref_log tables m h [] (logs i) = Some (hss i) ∧ Forall (λ e, e.2 ≠ r_refused) (logs i);
  si_good i : Forall (held_good h) (hss i);
  si_count i : len (hss i) ≤ counts i;
  si_locks : LI l hss;
}.

Definition put_thread (y : system S) (i : nat) (w : thread S) : system S :=
  mk_system (th_mem w) (<[i := mk_local (th_records w) (th_accesses w)]> (sy_threads y)).

Lemma wpd_on_thread {A} i (c : DB (thread S) A) (Q : A → system S → Prop) y :
  wpd c (λ a w, Q a (put_thread y i w)) (thread_at y i) → wpd (on_thread i c) Q y.
Proof. unfold wpd, on_thread, thread_at. by destruct (c _). Qed.

Lemma thread_rep_mem (w w' : thread S) hs :
  thread_rep w hs → th_records w' = th_records w → th_accesses w' = th_accesses w → thread_rep w' hs.
Proof. intros [H1 H2] E1 E2. split; by rewrite ?E1, ?E2. Qed.

Lemma sys_inv_update LI h l h' l' y i w' log' hs' c' logs hss counts :
  sys_inv LI h l y logs hss counts → mem_ok w' l' h' → db_ok h' → thread_rep w' hs' →
  ref_log tables m h' [] log' = Some hs' → Forall (λ e, e.2 ≠ r_refused) log' → Forall (held_good h') hs' →
  len hs' ≤ c' → LI l' (<[i := hs']> hss) → (∀ j x, j ≠ i → x ∈ hss j → h' !! hd_addr x = h !! hd_addr x) →
  (∀ x, held_good h x → held_good h' x) →
  sys_inv LI h' l' (put_thread y i w') (<[i := log']> logs) (<[i := hs']> hss) (<[i := c']> counts).
Proof.
  intros I Hm D T Hlog Hnr Hg Hc Hli Hsame Hgood. destruct I as [_ _ It Il Ig Ic _].
  split; [exact Hm|exact D|..|exact Hli]; intros j; (destruct (decide (i = j)) as [<-|Hne];
    [rewrite ?fn_lookup_insert|rewrite ?fn_lookup_insert_ne by done]).
  - eapply thread_rep_mem; [exact T|..]; cbn; by rewrite fn_lookup_insert.
  - eapply thread_rep_mem; [apply It|..]; cbn; by rewrite fn_lookup_insert_ne.
  - done.
  - destruct (Il j) as [E F]. split; [|done]. eapply ref_log_ext; [exact E|done|]. intros x Hx. by apply (Hsame j).
  - done.
  - eapply Forall_impl; [apply Ig|exact Hgood].
  - done.
  - apply Ic.
Qed.

(** The search count of each thread stays within the access list. *)
Fixpoint within_limit (sched : list (nat * sys_op)) (counts : nat → Z) : bool :=
  match sched with
  | [] => true
  | (i, s_op o) :: sched =>
      (if is_search o then counts i <? kMaxAccessLimit else true) &&
      within_limit sched (<[i := counts i + 1]> counts)
  | (i, _) :: sched => within_limit sched (<[i := 0]> counts)
  end.

Definition sys_op_ok (A : nat → Prop) (o : nat * sys_op) : Prop :=
  A o.1 ∧ match o.2 with s_op o => op_ok o | _ => True end.

Context (A : nat → Prop) (LI : lk_state → (nat → list held) → Prop) (LD : lock_discipline A LI).

Lemma wp_sys_op i o h l y logs hss counts :
  sys_inv LI h l y logs hss counts → A i → op_ok o → (is_search o = true → counts i < kMaxAccessLimit) →
  wpd (on_thread i (run_sys tables fuel (Z.of_nat i) (s_op o))) (λ r y',
    ∃ l' hss', let log := match r with r_refused => [] | _ => logs i ++ [(o, r)] end in
      sys_inv LI h l' y' (<[i := log]> logs) hss' (<[i := counts i + 1]> counts)) y.
Proof.
  intros I Hi Ho Hc. destruct I as [Im Id It Il Ig Ic Ik] eqn:EI. clear EI.
  pose proof (It i) as T. pose proof (Ic i) as Hlen. destruct (Il i) as [Hlog Hnr].
  apply wpd_on_thread. cbn [run_sys].
  eapply wpd_mono; [apply (wp_run_op (Z.of_nat i) o (thread_at y i) l h (hss i)); [exact Im|done|done|done| |done]|].
  { intros Hs. specialize (Hc Hs). lia. }
  intros r w' [(-> & _ & Hm' & T')|(Hr & l' & hs' & Hm' & T' & Hg' & Href & Hp)].
  - exists (release_all (Z.of_nat i) (hss i) l), (<[i := []]> hss).
    apply (sys_inv_update LI h l); [exact I|done..|cbn; lia|by apply (ld_release _ _ LD)|done|done].
  - exists l', (<[i := hs']> hss).
    assert (match r with r_refused => [] | _ => logs i ++ [(o, r)] end = logs i ++ [(o, r)]) as -> by by destruct r.
    apply (sys_inv_update LI h l); [exact I|done..| | | | | |done|done].
    + by eapply ref_log_app.
    + apply Forall_app. split; [done|]. by constructor.
    + done.
    + pose proof (progress_length _ _ _ _ _ Hp). lia.
    + destruct Hp as [[-> E]|(ty & a & r0 & -> & El)]; [|by eapply (ld_grant _ _ LD); [|exact Ik|exact El]].
      apply (ld_ext _ _ LD l hss); [done|]. intros j. destruct (decide (i = j)) as [<-|];
        [by rewrite fn_lookup_insert|by rewrite fn_lookup_insert_ne].
Qed.

Lemma wp_sys_commit i h l y logs hss counts :
  sys_inv LI h l y logs hss counts → A i →
  wpd (on_thread i (run_sys tables fuel (Z.of_nat i) s_commit)) (λ r y',
    ∃ l', sys_inv LI (commit_heap (hss i) h) l' y' (<[i := []]> logs) (<[i := []]> hss) (<[i := 0]> counts)) y.
Proof.
  intros I Hi. destruct I as [Im Id It Il Ig Ic Ik] eqn:EI. clear EI. apply wpd_on_thread. cbn [run_sys]. wpd_step.
  eapply (wp_commit (Z.of_nat i) (thread_at y i) l h (hss i)); [exact Im|done| | |].
  - eapply Forall_impl; [apply Ig|]. intros x Hx. by apply held_good_ok.
  - eapply Forall_impl; [apply Ig|]. by intros x [].
  - intros w' Hm' T' _. wpd_step. exists (release_all (Z.of_nat i) (hss i) l).
    apply (sys_inv_update LI h l); [exact I|done|by apply commit_heap_db|done|done|done|done|done|by apply (ld_release _ _ LD)| |].
    + intros j x Hne Hx. apply commit_heap_other. intros z Hz Hw Ez.
      rewrite (ld_conflict _ _ LD l hss i j z x Ik ltac:(done) Hz Hx Ez) in Hw. done.
    + intros x Hx. by apply commit_heap_good.
Qed.

Lemma wp_sys_abort i h l y logs hss counts :
  sys_inv LI h l y logs hss counts → A i →
  wpd (on_thread i (run_sys tables fuel (Z.of_nat i) s_abort)) (λ r y',
    ∃ l', sys_inv LI h l' y' (<[i := []]> logs) (<[i := []]> hss) (<[i := 0]> counts)) y.
Proof.
  intros I Hi. destruct I as [Im Id It Il Ig Ic Ik] eqn:EI. clear EI. apply wpd_on_thread. cbn [run_sys]. wpd_step.
  eapply (wp_abort (Z.of_nat i) (thread_at y i) l h (hss i)); [exact Im|done| |].
  - eapply Forall_impl; [apply Ig|]. by intros x [].
  - intros w' Hm' T' _. wpd_step. exists (release_all (Z.of_nat i) (hss i) l).
    apply (sys_inv_update LI h l); [exact I|done|done|done|done|done|done|done|by apply (ld_release _ _ LD)|done|done].
Qed.

Lemma wp_run_schedule sched : ∀ h l y logs hss counts,
  sys_inv LI h l y logs hss counts → Forall (sys_op_ok A) sched → within_limit sched counts = true →
  wpd (run_schedule tables fuel sched) (λ rs y',
    ∃ h', heap_ok (sy_mem y') h' ∧ serial tables m (commits sched rs logs) h = Some h') y.
Proof.
  induction sched as [|[i o] sched IH]; intros h l y logs hss counts I Hok Hlim.
  { apply wpd_ret. exists h. split; [apply I|done]. }
  apply Forall_cons in Hok as [[Hi Ho] Hok]. cbn [fst snd] in *. cbn [run_schedule]. wpd_step.
  destruct o as [o| |]; cbn [within_limit] in Hlim.
  - apply andb_true_iff in Hlim as [Hc Hlim].
    eapply wpd_mono; [apply (wp_sys_op i o h l y logs hss counts); [exact I|done|done|]|].
    { intros Hs. rewrite Hs in Hc. by apply Z.ltb_lt. }
    cbn beta. intros r y' (l' & hss' & I'). wpd_step. eapply wpd_mono; [by apply (IH _ _ _ _ _ _ I')|].
    cbn beta. intros rs y2 (h' & Hh' & Hs). wpd_step. by exists h'.
  - eapply wpd_mono; [by apply (wp_sys_commit i h l y logs hss counts)|]. cbn beta. intros r y' [l' I']. wpd_step.
    eapply wpd_mono; [by apply (IH _ _ _ _ _ _ I')|]. cbn beta. intros rs y2 (h' & Hh' & Hs). wpd_step. exists h'.
    split; [done|]. cbn [commits serial]. rewrite (proj1 (si_log _ _ _ _ _ _ _ I i)). done.
  - eapply wpd_mono; [by apply (wp_sys_abort i h l y logs hss counts)|]. cbn beta. intros r y' [l' I']. wpd_step.
    eapply wpd_mono; [by apply (IH _ _ _ _ _ _ I')|]. cbn beta. intros rs y2 (h' & Hh' & Hs). wpd_step. by exists h'.
Qed.
End correctness.

(** No thread has begun. *)
Definition new_system {S} (s : S) : system S := mk_system s (λ _, mk_local [] []).

Lemma new_system_inv {S} {J : Indeterminate} {G : GAlloc S} {L : RecordLocks S} {GH : GHeap S} {LS : LockSpec S}
    tables fuel k own m (LI : lk_state → (nat → list held) → Prop) s h :
  heap_ok s h → db_ok tables fuel k own m h → LI (lk_of s) (λ _, []) →
  sys_inv tables fuel k own m LI h (lk_of s) (new_system s) (λ _, []) (λ _, []) (λ _, 0).
Proof. intros Hok D HL. split; try done. by split; constructor. Qed.

(** C16: One thread alone needs no locks: with the locks that [DSM.h] has, a sequence of
    transactions of one thread does what the specification says, operation by operation and
    commit by commit; a transaction that aborts leaves no trace. *)
Theorem one_thread_serial {S} {J : Indeterminate} {G : GAlloc S} {GH : GHeap S} tables fuel k own m i sched (s : S) h :
  heap_ok s h → db_ok tables fuel k own m h →
  Forall (sys_op_ok tables (λ j, j = i)) sched → within_limit sched (λ _, 0) = true →
  wpd (run_schedule (L := dsm_locks) tables fuel sched) (λ rs y',
    ∃ h', heap_ok (sy_mem y') h' ∧ serial tables m (commits sched rs (λ _, [])) h = Some h') (new_system s).
Proof.
  intros Hok D Hs Hl.
  eapply (wp_run_schedule (L := dsm_locks) tables fuel k own m (λ j, j = i) (λ _ hss, ∀ j, j ≠ i → hss j = []));
    [| |exact Hs|exact Hl].
  - split.
    + intros l hss j j' x y H Hne Hx Hy _. destruct (decide (j = i)) as [->|].
      * rewrite (H j') in Hy by done. by apply elem_of_nil in Hy.
      * rewrite (H j) in Hx by done. by apply elem_of_nil in Hx.
    + intros l hss hss' H E j Hj. specialize (E j). rewrite (H j Hj) in E. by apply fmap_nil_inv in E.
    + intros l hss j ty a r l' -> H _ j' Hj. rewrite fn_lookup_insert_ne by done. by apply H.
    + intros l hss j -> H j' Hj. rewrite fn_lookup_insert_ne by done. by apply H.
  - by apply new_system_inv.
Qed.

(** ** Two threads with the locks of [DSM.h] *)
Section granted.
Context {S : Type} {J : Indeterminate} {G : GAlloc S} {GH : GHeap S}.
Context (tables : list Table) (fuel k : nat) (own : nat → GlobalAddress → Prop) (m : nat → Z → list GlobalAddress).
Implicit Types (s : S) (h : heap) (hs : list held) (y : system S).
#[local] Existing Instance dsm_locks.

(** The copies [hs] of thread [i]. *)
Definition holding y i hs h : Prop := thread_rep (thread_at y i) hs ∧ Forall (held_good tables own h) hs.

Lemma wp_granted_op i o h y hs hs' r (Q : txn_res → system S → Prop) :
  heap_ok (sy_mem y) h → db_ok tables fuel k own m h → holding y i hs h → len hs < kMaxAccessLimit → op_ok tables o →
  ref_op tables m h hs o = (r, hs') →
  (∀ y', heap_ok (sy_mem y') h → holding y' i hs' h →
     (∀ j hs, j ≠ i → holding y j hs h → holding y' j hs h) → Q r y') →
  wpd (on_thread i (run_sys tables fuel (Z.of_nat i) (s_op o))) Q y.
Proof.
  intros Hok D [T Hg] Hl Ho Hr HQ. apply wpd_on_thread. cbn [run_sys].
  eapply wpd_mono; [apply (wp_run_op (LS := dsm_locks_spec) tables fuel k own m (Z.of_nat i) o (thread_at y i) () h hs); [by split|done..]|].
  intros r' w' [(_ & (ex & a & E) & _)|(_ & l' & hs2 & [Hm' _] & T' & Hg' & Href & _)]; [done|].
  assert (r' = r ∧ hs2 = hs') as [-> ->] by (split; congruence). apply HQ; [done| |].
  - split; [|done]. eapply thread_rep_mem; [exact T'|..]; cbn; by rewrite fn_lookup_insert.
  - intros j hs3 Hne [T3 Hg3]. split; [|done]. eapply thread_rep_mem; [exact T3|..]; cbn; by rewrite fn_lookup_insert_ne.
Qed.

Lemma wp_granted_commit i h y hs (Q : txn_res → system S → Prop) :
  heap_ok (sy_mem y) h → db_ok tables fuel k own m h → holding y i hs h →
  (∀ y', heap_ok (sy_mem y') (commit_heap hs h) → db_ok tables fuel k own m (commit_heap hs h) →
     (∀ j hs', j ≠ i → holding y j hs' h → holding y' j hs' (commit_heap hs h)) → Q (r_set true) y') →
  wpd (on_thread i (run_sys tables fuel (Z.of_nat i) s_commit)) Q y.
Proof.
  intros Hok D [T Hg] HQ. apply wpd_on_thread. cbn [run_sys]. wpd_step.
  eapply (wp_commit (LS := dsm_locks_spec) (Z.of_nat i) (thread_at y i) () h hs); [by split|done| | |].
  - eapply Forall_impl; [exact Hg|]. intros x Hx. by eapply held_good_ok.
  - eapply Forall_impl; [exact Hg|]. by intros x [].
  - intros w' [Hm' _] T' _. wpd_step. apply HQ; [done|by apply commit_heap_db|].
    intros j hs' Hne [T3 Hg3]. split.
    + eapply thread_rep_mem; [exact T3|..]; cbn; by rewrite fn_lookup_insert_ne.
    + eapply Forall_impl; [exact Hg3|]. intros x Hx. by apply commit_heap_good.
Qed.
End granted.

Lemma set_get r cols col d r' : rec_ok r cols → writable col d r = true → SetColumn col d r = Some r' →
  ∃ n, GetColumnSize col (schema_ptr_ r) = Some n ∧ n ≤ len d ∧ GetColumn col r' = Some (take (Z.to_nat n) d) ∧
    ∀ v, GetColumn col r = Some v → len v = n.
Proof.
  intros [Hr Hv] Hw Hs. unfold writable in Hw. apply andb_true_iff in Hw as [Hc Hsz].
  destruct (readable_lookup r cols col (conj Hr Hv) Hc) as (c & Hl & Hg).
  unfold readable in Hc. assert (∃ j : nat, col = Z.of_nat j) as [j ->] by (exists (Z.to_nat col); lia).
  rewrite Nat2Z.id in Hl.
  destruct (GetColumnSize _ (schema_ptr_ r)) as [n|] eqn:En; [|done]. exists n.
  assert (column_size_ c = n) as <-.
  { unfold GetColumnSize in En. rewrite (get_column_ok _ _ _ _ (proj1 Hr) Hl) in En. by injection En. }
  destruct (sk_range _ _ (proj1 Hr) _ c Hl) as (H0 & H1 & H2). destruct Hr as [Sc El].
  destruct (SetColumn_ok r cols j c d (conj Sc El) Hl) as (r2 & E2 & Hr2 & _ & Ed); [lia|].
  rewrite E2 in Hs. injection Hs as ->. split_and!; [done|lia| |].
  - rewrite (GetColumn_ok r' cols j c Hr2 Hl), Ed. f_equal.
    assert (len (take (Z.to_nat (column_size_ c)) d) = column_size_ c) as Ht by (rewrite length_take; lia).
    rewrite <-Ht at 1. apply slice_splice; lia.
  - intros v Hgv. rewrite Hg in Hgv. injection Hgv as <-. rewrite slice_length by lia. lia.
Qed.

(** Two transactions read a record and both write it. *)
Definition update_ops (table_id key col : Z) (d : list Z) : list txn_op :=
  [t_search table_id key READ_WRITE; t_get 0 col; t_set 0 col d].
Definition two_updates (table_id key col : Z) (d0 d1 : list Z) : list (nat * sys_op) :=
  [(0%nat, s_op (t_search table_id key READ_WRITE)); (1%nat, s_op (t_search table_id key READ_WRITE));
   (0%nat, s_op (t_get 0 col)); (1%nat, s_op (t_get 0 col));
   (0%nat, s_op (t_set 0 col d0)); (1%nat, s_op (t_set 0 col d1));
   (0%nat, s_commit); (1%nat, s_commit)].
Definition update_log (table_id key col : Z) (v d : list Z) : txn_log :=
  zip (update_ops table_id key col d) [r_found; r_column (Some v); r_set true].

Section updates.
Context {J : Indeterminate} (tables : list Table) (m : nat → Z → list GlobalAddress).
Context (i : nat) (t : Table) (key col : Z).
Context (Ht : tables !! i = Some t) (Hn : newest (m i key) ≠ ga_Null).
#[local] Abbreviation a := (newest (m i key)).
#[local] Abbreviation record_with bs := (mk_DbRecord (t_schema_ptr_ t) bs (GetSchemaSize (t_schema_ptr_ t))).

Lemma ref_search h bs ty hs : h !! a = Some bs → ty ≠ DELETE_ONLY →
  ref_op tables m h hs (t_search (Z.of_nat i) key ty) = (r_found, hs ++ [mk_held ty a (record_with bs)]).
Proof.
  intros Hb Hty. cbn. rewrite Nat2Z.id. destruct (ga_eqb_spec a ga_Null); [done|]. rewrite Ht. cbn. rewrite Hb. cbn.
  unfold copy_of. by rewrite (proj2 (Z.eqb_neq _ _)).
Qed.

Lemma ref_get h x v : readable col (hd_record x) = true → GetColumn col (hd_record x) = Some v →
  ref_op tables m h [x] (t_get 0 col) = (r_column (Some v), [x]).
Proof. intros Hr Hv. unfold ref_op. change ([x] !! 0%nat) with (Some x). cbv beta iota. by rewrite Hr, Hv. Qed.

Lemma ref_set h x d r : writable col d (hd_record x) = true → SetColumn col d (hd_record x) = Some r →
  ref_op tables m h [x] (t_set 0 col d) = (r_set true, [mk_held (hd_type x) (hd_addr x) r]).
Proof. intros Hw Hs. unfold ref_op. change ([x] !! 0%nat) with (Some x). cbv beta iota. by rewrite Hw, Hs. Qed.

Lemma writable_readable d r : writable col d r = true → readable col r = true.
Proof. unfold writable. by intros [? _]%andb_true_iff. Qed.

Lemma set_same_schema d r r' : SetColumn col d r = Some r' →
  r' = mk_DbRecord (schema_ptr_ r) (data_ptr_ r') (data_size_ r).
Proof.
  unfold SetColumn, record_memcpy. destruct (GetColumnOffset _ _); cbn; [|done].
  destruct (GetColumnSize _ _); cbn; [|done]. destruct (_ && _); [|done]. by intros [= <-].
Qed.

Lemma writable_schema d d' r r' : schema_ptr_ r' = schema_ptr_ r → len d' = len d → writable col d r = true →
  writable col d' r' = true.
Proof. unfold writable, readable. by intros -> ->. Qed.

(** The first of two updates. *)
Lemma update_first h bs v d r' :
  h !! a = Some bs → writable col d (record_with bs) = true → GetColumn col (record_with bs) = Some v →
  SetColumn col d (record_with bs) = Some r' →
  ref_log tables m h [] (update_log (Z.of_nat i) key col v d) = Some [mk_held READ_WRITE a r'].
Proof.
  intros Hb Hw Hv Hs. unfold update_log, update_ops. cbn [zip zip_with]. cbn [ref_log].
  rewrite (ref_search h bs READ_WRITE []) by done. rewrite decide_True by done. cbn [app].
  rewrite (ref_get h _ v) by (by apply (writable_readable d) || done). rewrite decide_True by done.
  rewrite (ref_set h _ d r') by done. by rewrite decide_True by done.
Qed.

(** After another one it does not read the same value. *)
Lemma update_second h bs v w d :
  h !! a = Some bs → readable col (record_with bs) = true → GetColumn col (record_with bs) = Some w → w ≠ v →
  ref_log tables m h [] (update_log (Z.of_nat i) key col v d) = None.
Proof.
  intros Hb Hr Hv Hne. unfold update_log, update_ops. cbn [zip zip_with]. cbn [ref_log].
  rewrite (ref_search h bs READ_WRITE []) by done. rewrite decide_True by done. cbn [app].
  rewrite (ref_get h _ w) by done. rewrite decide_False; [done|]. congruence.
Qed.

Lemma commit_update h bs r : h !! a = Some bs → len (data_ptr_ r) = len bs →
  commit_heap [mk_held READ_WRITE a r] h !! a = Some (data_ptr_ r).
Proof.
  intros Hb Hl. unfold commit_heap. cbn [foldl]. unfold commit_one.
  change (writes_back (mk_held READ_WRITE a r)) with true. cbv iota. cbn [hd_addr hd_record].
  rewrite (put_some _ _ _ _ _ Hb), lookup_insert_eq.
  f_equal. apply splice_all. lia.
Qed.

Lemma updates_not_serial h bs cols v d d' :
  h !! a = Some bs → rec_ok (record_with bs) cols → writable col d (record_with bs) = true →
  GetColumn col (record_with bs) = Some v → len d = len v → d ≠ v →
  serial tables m [update_log (Z.of_nat i) key col v d; update_log (Z.of_nat i) key col v d'] h = None.
Proof.
  intros Hb Hr Hw Hv Hl Hne. destruct (writable_ok _ cols col d Hr Hw) as (r' & Es & Hr' & Esc & El).
  destruct (set_get _ cols col d r' Hr Hw Es) as (n & _ & Hn' & Hg & Hlv).
  pose proof (Hlv v Hv) as En. rewrite take_ge in Hg by lia.
  cbn [serial]. rewrite (update_first h bs v d r') by done. cbn [mbind option_bind].
  pose proof (set_same_schema d _ r' Es) as Er. cbn in Er.
  rewrite (update_second _ (data_ptr_ r') v d d'); [done| | | |done].
  - by eapply commit_update.
  - rewrite <-Er. apply (writable_readable d). exact (writable_schema d d _ r' Esc eq_refl Hw).
  - by rewrite <-Er.
Qed.
End updates.

Ltac op Hop Hh := repeat wpd_step; eapply wp_granted_op; [eassumption|eassumption|exact Hh|by vm_compute|done|exact Hop|].

(** C15: The locks of [DSM.h] do not isolate transactions: in any database, when two threads
    search one record to write it, both locks are granted, both read the same value of a
    column, write their own and commit; the first write is lost, and executed one after the
    other, in either order, the two transactions do not both read that value. *)
Theorem lost_update {S} {J : Indeterminate} {G : GAlloc S} {GH : GHeap S} tables fuel k own m i t key col v d0 d1 bs (s : S) h :
  heap_ok s h → db_ok tables fuel k own m h → tables !! i = Some t →
  newest (m i key) ≠ ga_Null → h !! newest (m i key) = Some bs →
  let r := mk_DbRecord (t_schema_ptr_ t) bs (GetSchemaSize (t_schema_ptr_ t)) in
  writable col d0 r = true → writable col d1 r = true → GetColumn col r = Some v →
  len d0 = len v → len d1 = len v → d0 ≠ v → d1 ≠ v →
  wpd (run_schedule (L := dsm_locks) tables fuel (two_updates (Z.of_nat i) key col d0 d1)) (λ rs y',
    commits (two_updates (Z.of_nat i) key col d0 d1) rs (λ _, []) =
      [update_log (Z.of_nat i) key col v d0; update_log (Z.of_nat i) key col v d1] ∧
    (∃ h' r1, heap_ok (sy_mem y') h' ∧ SetColumn col d1 r = Some r1 ∧ h' !! newest (m i key) = Some (data_ptr_ r1)) ∧
    serial tables m [update_log (Z.of_nat i) key col v d0; update_log (Z.of_nat i) key col v d1] h = None ∧
    serial tables m [update_log (Z.of_nat i) key col v d1; update_log (Z.of_nat i) key col v d0] h = None) (new_system s).
Proof.
  intros Hok D Ht Hn Hb r Hw0 Hw1 Hv Hl0 Hl1 Hne0 Hne1. set (a := newest (m i key)) in *.
  destruct (dk_schema _ _ _ _ _ _ D i t Ht) as [cols Hsc].
  destruct (dk_record _ _ _ _ _ _ D i t key Ht Hn) as (bs' & Hb' & Hlen & Hown). fold a in Hb'. simplify_eq.
  assert (rec_ok r cols) as Hr by (split; [by split; [apply Hsc|]|apply Hsc]).
  assert (op_ok tables (t_search (Z.of_nat i) key READ_WRITE)) as Ho.
  { apply lookup_lt_Some in Ht. split; [lia|by vm_compute]. }
  destruct (writable_ok r cols col d0 Hr Hw0) as (r0 & E0 & _ & _ & El0).
  destruct (writable_ok r cols col d1 Hr Hw1) as (r1 & E1 & _ & _ & El1).
  set (x := mk_held READ_WRITE a r). set (x0 := mk_held READ_WRITE a r0). set (x1 := mk_held READ_WRITE a r1).
  assert (ref_op tables m h [] (t_search (Z.of_nat i) key READ_WRITE) = (r_found, [x])) as Rs
    by (by rewrite (ref_search tables m i t key Ht Hn h bs)).
  assert (ref_op tables m h [x] (t_get 0 col) = (r_column (Some v), [x])) as Rg
    by (apply ref_get; [by apply (writable_readable col d0)|done]).
  assert (ref_op tables m h [x] (t_set 0 col d0) = (r_set true, [x0])) as R0 by by apply ref_set.
  assert (ref_op tables m h [x] (t_set 0 col d1) = (r_set true, [x1])) as R1 by by apply ref_set.
  unfold two_updates. cbn [run_schedule].
  assert (∀ j, holding tables own (new_system s) j [] h) as Hnew by (intros j; split; [by split; constructor|done]).
  op Rs (Hnew 0%nat). intros y1 M1 H01 F1. pose proof (F1 1%nat [] ltac:(done) (Hnew 1%nat)) as H11.
  op Rs H11. intros y2 M2 H12 F2. pose proof (F2 0%nat _ ltac:(done) H01) as H02.
  op Rg H02. intros y3 M3 H03 F3. pose proof (F3 1%nat _ ltac:(done) H12) as H13.
  op Rg H13. intros y4 M4 H14 F4. pose proof (F4 0%nat _ ltac:(done) H03) as H04.
  op R0 H04. intros y5 M5 H05 F5. pose proof (F5 1%nat _ ltac:(done) H14) as H15.
  op R1 H15. intros y6 M6 H16 F6. pose proof (F6 0%nat _ ltac:(done) H05) as H06.
  repeat wpd_step. eapply wp_granted_commit; [exact M6|exact D|exact H06|]. intros y7 M7 D7 F7.
  pose proof (F7 1%nat _ ltac:(done) H16) as H17.
  repeat wpd_step. eapply wp_granted_commit; [exact M7|exact D7|exact H17|]. intros y8 M8 D8 _.
  repeat wpd_step. split; [done|]. split; [|split].
  - exists (commit_heap [x1] (commit_heap [x0] h)), r1. split_and!; [exact M8|done|].
    eapply commit_update; [by eapply commit_update|]. congruence.
  - eapply (updates_not_serial tables m i t key col Ht Hn h bs cols); (done || lia).
  - eapply (updates_not_serial tables m i t key col Ht Hn h bs cols); (done || lia).
Qed.

(** ** Failed queries and insertions, one thread *)
Definition new_thread {S} (s : S) : thread S := mk_thread s [] [].

Section procedures.
Context {S : Type} {J : Indeterminate} {G : GAlloc S} {L : RecordLocks S}.
Context (tables : list Table) (fuel : nat) (thread_id : Z).

(** Procedures of the shape of [TpccProcedure.h]: a record is written, then another one is
    searched; a record is read. *)
Definition update_then (id1 key1 col : Z) (d : list Z) (id2 key2 ty2 : Z) : DB (thread S) bool :=
  DB_QUERY (SearchRecord tables fuel thread_id id1 key1 READ_WRITE) (λ p,
    set_column_of p col d;;
    DB_QUERY (SearchRecord tables fuel thread_id id2 key2 ty2) (λ _, CommitTransaction thread_id)).
Definition read_only (id key : Z) : DB (thread S) bool :=
  DB_QUERY (SearchRecord tables fuel thread_id id key READ_ONLY) (λ _, CommitTransaction thread_id).

(** A record is made, stored and inserted, as [NewOrderProcedure] does. *)
Definition insert_record (id key : Z) (cols : list (Z * list Z)) : DB (thread S) bool :=
  t ← in_array (arr_get tables id);
  addr ← lift (Malloc (GetSchemaSize (t_schema_ptr_ t)));
  p ← new_record (t_schema_ptr_ t);
  for_each cols (λ c, set_column_of p c.1 c.2);;
  set_visible_of p true;;
  r ← get_record p;
  lift (record_Serialize addr r);;
  DB_QUERY (b ← InsertRecord tables thread_id id [key] 1 p addr; mret (if b : bool then Some () else None))
    (λ _, CommitTransaction thread_id).
End procedures.

Section one_thread.
Context {S : Type} {J : Indeterminate} {G : GAlloc S} {GH : GHeap S}.
Context (tables : list Table) (fuel k : nat) (own : nat → GlobalAddress → Prop) (m : nat → Z → list GlobalAddress).
Implicit Types (h : heap) (w : thread S).
#[local] Existing Instance dsm_locks.

Lemma wp_present i t key ty cols bs h w hs (Q : search_result → thread S → Prop) thread_id :
  heap_ok (th_mem w) h → db_ok tables fuel k own m h → thread_rep w hs → Forall (held_good tables own h) hs →
  len hs < kMaxAccessLimit → tables !! i = Some t → schema_vis (t_schema_ptr_ t) cols → 0 ≤ ty < 4 →
  newest (m i key) ≠ ga_Null → h !! newest (m i key) = Some bs → ty ≠ DELETE_ONLY →
  (∀ w' p, let x := mk_held ty (newest (m i key)) (mk_DbRecord (t_schema_ptr_ t) bs (GetSchemaSize (t_schema_ptr_ t))) in
     heap_ok (th_mem w') h → thread_rep w' (hs ++ [x]) → held_good tables own h x → rec_ok (hd_record x) cols →
     room (th_mem w') = room (th_mem w) →
     th_accesses w' = th_accesses w ++ [mk_Access ty (Some p) (newest (m i key))] → Q (found p) w') →
  wpd (SearchRecord_result tables fuel thread_id (Z.of_nat i) key ty) Q w.
Proof.
  intros Hok D T Hg Hlen Ht Hs Hty Hn Hb Hnd HQ.
  eapply (wp_search (LS := dsm_locks_spec) tables fuel thread_id _ i t cols k key own m ty w () h hs);
    [by split|done|done|done|done|apply D|apply D|done| | |done| |].
  - intros _. destruct (dk_record _ _ _ _ _ _ D i t key Ht Hn) as (bs' & ? & ? & _). by exists bs'.
  - eapply Forall_impl; [exact Hg|]. by intros x [].
  - intros w' l' bs' r _ Hb' _ Er Hr [Hm' _] T' Hrm Ha. simplify_eq.
    unfold copy_of in Er. rewrite (proj2 (Z.eqb_neq _ _)) in Er by done. injection Er as <-.
    eapply HQ; [done|done| |done|done|done].
    destruct (dk_record _ _ _ _ _ _ D i t key Ht Hn) as (bs2 & Hb2 & Hl2 & Hown). simplify_eq.
    split; cbn; [by exists cols|by eexists|done|done].
  - intros w' _ [=].
Qed.

Lemma wp_absent i t key ty cols h w hs (Q : search_result → thread S → Prop) thread_id :
  heap_ok (th_mem w) h → db_ok tables fuel k own m h → thread_rep w hs → Forall (held_good tables own h) hs →
  len hs < kMaxAccessLimit → tables !! i = Some t → schema_vis (t_schema_ptr_ t) cols →
  newest (m i key) = ga_Null →
  (∀ w', heap_ok (th_mem w') h → thread_rep w' hs → room (th_mem w') = room (th_mem w) →
     th_accesses w' = th_accesses w → Q not_found w') →
  wpd (SearchRecord_result tables fuel thread_id (Z.of_nat i) key ty) Q w.
Proof.
  intros Hok D T Hg Hlen Ht Hs Hn HQ.
  eapply (wp_search (LS := dsm_locks_spec) tables fuel thread_id _ i t cols k key own m ty w () h hs);
    [by split|done|done|done|done|apply D|apply D|done|done| | |done|done].
  - eapply Forall_impl; [exact Hg|]. by intros x [].
  - intros w' _ [Hm' _] T' ? ?. by apply HQ.
Qed.

(** A new block changes nothing for the database. *)
Lemma db_ok_new h a bs : db_ok tables fuel k own m h → h !! a = None → db_ok tables fuel k own m (<[a := bs]> h).
Proof.
  intros [R F Sc Rc] Ha. split; [|done|done|].
  - by apply tables_rep_new.
  - intros j t key Ht Hn. destruct (Rc j t key Ht Hn) as (d & Hd & ?). exists d.
    rewrite lookup_insert_ne by congruence. done.
Qed.

(** The columns of a record are set. *)
Definition set_columns (cs : list (Z * list Z)) (r : DbRecord) : option DbRecord :=
  foldl (λ r c, r ← r; SetColumn c.1 c.2 r) (Some r) cs.

Lemma set_columns_cons c cs r r1 : SetColumn c.1 c.2 r = Some r1 → set_columns (c :: cs) r = set_columns cs r1.
Proof. intros E. unfold set_columns. cbn. by rewrite E. Qed.

Lemma wp_set_columns cols sc cs p : ∀ w r (Q : unit → thread S → Prop),
  th_records w !! p = Some (Some r) → rec_ok r cols → schema_ptr_ r = sc →
  Forall (λ c, ∀ r', schema_ptr_ r' = sc → writable c.1 c.2 r' = true) cs →
  (∀ r', set_columns cs r = Some r' → rec_ok r' cols → schema_ptr_ r' = sc →
     Q () (mk_thread (th_mem w) (<[p := Some r']> (th_records w)) (th_accesses w))) →
  wpd (for_each cs (λ c, set_column_of p c.1 c.2)) Q w.
Proof.
  induction cs as [|[c d] cs IH]; intros w r Q Hp Hr Esc Hc HQ.
  - apply wpd_ret. specialize (HQ r eq_refl Hr Esc). rewrite list_insert_id in HQ by done. by destruct w.
  - apply Forall_cons in Hc as [Hw Hc]. destruct (writable_ok r cols c d Hr (Hw r Esc)) as (r1 & E1 & Hr1 & Es1 & _).
    cbn [for_each fst snd]. wpd_step. unfold set_column_of. wpd_step. eapply wpd_get_record; [exact Hp|]. wpd_step.
    eapply wpd_checked; [exact E1|]. apply wpd_modify.
    eapply (IH _ r1); cbn; [apply list_lookup_insert_eq; by eapply lookup_lt_Some|done|congruence|done|].
    intros r' Er' Hr' Es'. rewrite list_insert_insert_eq. apply HQ; [|done|done]. by rewrite (set_columns_cons _ _ _ r1).
Qed.

Lemma wp_InsertRecord i t keys key_num p r cols a h w hs (Q : bool → thread S → Prop) thread_id :
  heap_ok (th_mem w) h → thread_rep w hs → len hs < kMaxAccessLimit → tables !! i = Some t →
  th_records w !! p = Some (Some r) → rec_ok r cols → Some p ∉ access_record_ <$> th_accesses w →
  (∀ w' r', heap_ok (th_mem w') h → rec_ok r' cols → schema_ptr_ r' = schema_ptr_ r →
     SetVisible true r = Some r' → thread_rep w' (hs ++ [mk_held INSERT_ONLY a r']) →
     room (th_mem w') = room (th_mem w) → th_accesses w' = th_accesses w ++ [mk_Access INSERT_ONLY (Some p) a] →
     Q true w') →
  wpd (InsertRecord tables thread_id (Z.of_nat i) keys key_num p a) Q w.
Proof.
  intros Hok T Hl Ht Hp Hr Hni HQ. pose proof (thread_rep_length _ _ T) as El. destruct T as [Hrel Hnd].
  unfold InsertRecord. wpd_step. eapply wpd_in_array; [by rewrite arr_get_lookup|]. repeat wpd_step.
  apply (wpd_done _ _ _ true w); [by destruct w|]. repeat wpd_step. apply wpd_assert; [done|]. repeat wpd_step.
  eapply wp_set_visible; [exact Hp|exact Hr|]. intros r' Er' Hr' Es'. repeat wpd_step. apply wp_NewAccess; cbn; [by rewrite El|].
  repeat wpd_step. eapply (HQ _ r'); [exact Hok|done|done|done| |done|done]. split; cbn.
  - apply Forall2_app; [by apply acc_rels_other|]. constructor; [|constructor]. split_and!; [done..|].
    exists p. split; [done|]. apply list_lookup_insert_eq. by eapply lookup_lt_Some.
  - rewrite fmap_app. apply NoDup_app. split_and!; [done| |by apply NoDup_singleton].
    intros q Hq Hq'. by apply list_elem_of_singleton in Hq' as ->.
Qed.
End one_thread.

(** A failed transaction can be committed by the next one: when a query finds no record,
    [DB_QUERY] returns [false] from the procedure without [AbortTransaction], the accesses
    stay in the list of the thread, and the next transaction that commits, here one that
    only reads, writes what the failed one has set. *)
Theorem failed_query_leaks {S} {J : Indeterminate} {G : GAlloc S} {GH : GHeap S} tables fuel k own m
    i1 t1 key1 bs1 col d i2 t2 key2 ty2 i3 t3 key3 thread_id (s : S) h :
  heap_ok s h → db_ok tables fuel k own m h →
  tables !! i1 = Some t1 → newest (m i1 key1) ≠ ga_Null → h !! newest (m i1 key1) = Some bs1 →
  let r := mk_DbRecord (t_schema_ptr_ t1) bs1 (GetSchemaSize (t_schema_ptr_ t1)) in
  writable col d r = true →
  tables !! i2 = Some t2 → newest (m i2 key2) = ga_Null →
  tables !! i3 = Some t3 → newest (m i3 key3) ≠ ga_Null →
  wpd (b1 ← update_then (L := dsm_locks) tables fuel thread_id (Z.of_nat i1) key1 col d (Z.of_nat i2) key2 ty2;
       b2 ← read_only (L := dsm_locks) tables fuel thread_id (Z.of_nat i3) key3;
       mret (b1, b2))
    (λ b w', b = (false, true) ∧ ∃ r1, SetColumn col d r = Some r1 ∧
       heap_ok (th_mem w') (put (newest (m i1 key1)) 0 (data_ptr_ r1) h)) (new_thread s).
Proof.
  intros Hok D Ht1 Hn1 Hb1 r Hw Ht2 Hn2 Ht3 Hn3.
  destruct (dk_schema _ _ _ _ _ _ D _ _ Ht1) as [cols1 Hs1]. destruct (dk_schema _ _ _ _ _ _ D _ _ Ht2) as [cols2 Hs2].
  destruct (dk_schema _ _ _ _ _ _ D _ _ Ht3) as [cols3 Hs3].
  destruct (dk_record _ _ _ _ _ _ D _ _ key3 Ht3 Hn3) as (bs3 & Hb3 & _).
  unfold update_then, read_only, DB_QUERY, SearchRecord. repeat wpd_step.
  eapply (wp_present tables fuel k own m i1 t1 key1 READ_WRITE cols1 bs1 h _ []); try done; [by split; constructor|].
  intros w1 p x1 Hm1 T1 Hg1 Hr1 _ Ha1. repeat wpd_step. fold r in x1. cbn [app length] in *.
  destruct (writable_ok r cols1 col d Hr1 Hw) as (r1 & Es & Hr' & _ & El).
  eapply (wp_set_column (LS := dsm_locks_spec) w1 () h [x1] 0 x1 _ p col d r1); [by split|done|done|by rewrite Ha1|done|exact Es|].
  intros w2 [Hm2 _] T2 _ _. cbn [insert list_insert] in T2. set (x1' := mk_held (hd_type x1) (hd_addr x1) r1) in *.
  assert (held_good tables own h x1') as Hg1'.
  { destruct Hg1 as [_ (b & Hb & Hlb) Hty Hown]. split; cbn; [by exists cols1| |done|done]. exists b. split; [done|].
    cbn in Hlb. rewrite El. done. }
  repeat wpd_step.
  eapply (wp_absent tables fuel k own m i2 t2 key2 ty2 cols2 h w2 [x1']); try done; [by constructor|].
  intros w3 Hm3 T3 _ _. repeat wpd_step.
  eapply (wp_present tables fuel k own m i3 t3 key3 READ_ONLY cols3 bs3 h w3 [x1']); try done; [by constructor|].
  intros w4 p4 x3 Hm4 T4 Hg3 _ _ _. repeat wpd_step.
  eapply (wp_commit (LS := dsm_locks_spec) thread_id w4 () h [x1'; x3]); [by split|done| | |].
  - repeat constructor; by eapply held_good_ok.
  - repeat constructor; by eapply hg_type.
  - intros w5 [Hm5 _] _ _. repeat wpd_step. split; [done|]. by exists r1.
Qed.

(** Records that a transaction inserts cannot be found: [TransactionManager::InsertRecord]
    does not enter the key in the index, so that after a record has been stored, inserted
    and committed, with success, a search for its key finds nothing. *)
Theorem inserted_unreachable {S} {J : Indeterminate} {G : GAlloc S} {GH : GHeap S} tables fuel k own m
    i t key cs ty thread_id (s : S) h :
  heap_ok s h → db_ok tables fuel k own m h → tables !! i = Some t → newest (m i key) = ga_Null →
  0 < GetSchemaSize (t_schema_ptr_ t) ≤ 2 ^ 25 → GetSchemaSize (t_schema_ptr_ t) ≤ room s →
  Forall (λ c, ∀ r', schema_ptr_ r' = t_schema_ptr_ t → writable c.1 c.2 r' = true) cs →
  wpd (b ← insert_record (L := dsm_locks) tables thread_id (Z.of_nat i) key cs;
       r ← SearchRecord (L := dsm_locks) tables fuel thread_id (Z.of_nat i) key ty;
       mret (b, r))
    (λ x w', x = (true, None) ∧ ∃ a bs, h !! a = None ∧ heap_ok (th_mem w') (<[a := bs]> h)) (new_thread s).
Proof.
  intros Hok D Ht Hn [Hpos H25] Hroom Hcs. destruct (dk_schema _ _ _ _ _ _ D _ _ Ht) as [cols Hs].
  unfold insert_record, DB_QUERY, SearchRecord. repeat wpd_step.
  eapply wpd_in_array; [by rewrite arr_get_lookup|]. repeat wpd_step. apply wpd_lift.
  eapply (wp_Malloc s h); [done..|]. intros a bs s1 Ha Hl _ _ Hok1 _. cbn [th_mem th_records th_accesses new_thread] in *.
  repeat wpd_step. apply wpd_new_record. repeat wpd_step. cbn [th_mem th_records th_accesses app length].
  assert (rec_ok (new_Record (t_schema_ptr_ t)) cols) as Hr0.
  { split; [|apply Hs]. split; [apply Hs|]. cbn. rewrite length_replicate. fold (GetSchemaSize (t_schema_ptr_ t)). lia. }
  eapply (wp_set_columns cols (t_schema_ptr_ t) cs 0); [done|exact Hr0|done|done|]. intros r1 _ Hr1 Es1.
  cbn [th_mem th_records th_accesses insert list_insert]. repeat wpd_step.
  eapply wp_set_visible; [done|exact Hr1|]. intros r2 _ Hr2 Es2. cbn [th_mem th_records th_accesses insert list_insert].
  repeat wpd_step. eapply wpd_get_record; [done|]. repeat wpd_step. apply wpd_lift. cbn [th_mem th_records th_accesses].
  assert (len (data_ptr_ r2) = GetSchemaSize (t_schema_ptr_ t)) as El2.
  { destruct Hr2 as [[_ E] _]. unfold GetSchemaSize in *. congruence. }
  assert (blk (<[a := bs]> h) a (GetSchemaSize (t_schema_ptr_ t))) as Hb by (rewrite <-Hl; apply blk_insert_same).
  destruct (blk_valid _ _ _ _ Hok1 Hb) as (_ & _ & E0).
  eapply (wp_record_Serialize _ _ _ a 0); [exact Hok1|by symmetry|lia|exact Hb|by eapply rec_ok_pos|lia|].
  intros s2 Hok2 _. cbn [th_mem th_records th_accesses]. repeat wpd_step. rewrite (put_some _ _ _ _ bs), insert_insert_eq in Hok2 by apply lookup_insert_eq.
  rewrite splice_all in Hok2 by lia. set (h2 := <[a := data_ptr_ r2]> h) in *.
  pose proof (db_ok_new tables fuel k own m h a (data_ptr_ r2) D Ha) as D2. fold h2 in D2.
  eapply (wp_InsertRecord tables i t _ _ 0 r2 cols a h2 _ []); cbn; [done|by split; constructor|done|done|done|done|by apply not_elem_of_nil|].
  intros w3 r3 Hok3 Hr3 Es3 _ T3 _ _. cbn [app] in T3. repeat wpd_step. set (x := mk_held INSERT_ONLY a r3) in *.
  assert (len (data_ptr_ r3) = len (data_ptr_ r2)) as El3.
  { destruct Hr3 as [[_ E3] _], Hr2 as [[_ E2] _]. congruence. }
  eapply (wp_commit (LS := dsm_locks_spec) thread_id w3 () h2 [x]); [by split|done| |by repeat constructor|].
  { constructor; [|constructor]. split; [by exists cols|]. exists (len (data_ptr_ r2)). split; [|cbn; lia].
    exists (data_ptr_ r2). split; [apply lookup_insert_eq|done]. }
  intros w4 [Hm4 _] T4 _. cbn in Hm4.
  repeat wpd_step. eapply (wp_absent tables fuel k own m i t key ty cols h2 w4 []); [done|done|done|done|done|done|done|done|].
  intros w5 Hm5 _ _ _. repeat wpd_step. split; [done|]. by exists a, (data_ptr_ r2).
Qed.

(** ** Witnesses: a table with one record, key 5, of thirteen zero bytes *)
Record ex_db_ok {S} {G : GAlloc S} {GH : GHeap S} (s : S) h t own m : Prop := {
  ex_mem : heap_ok s h;
  ex_ok : db_ok [t] 6 1 own m h;
  ex_sc : t_schema_ptr_ t = ex_schema;
  ex_found : newest (m 0%nat 5) ≠ ga_Null;
  ex_bytes : h !! newest (m 0%nat 5) = Some (replicate 13 0);
  ex_not_found : newest (m 0%nat 6) = ga_Null;
}.

Lemma ex_schema_vis : schema_vis ex_schema ex_cols.
Proof.
  destruct (InsertColumns_ok 1 ex_columns ex_schema) as (placed & Sc & _);
    [by repeat constructor|done|by vm_compute|done|].
  pose proof (sk_columns _ _ Sc) as E. assert (placed = ex_cols) as -> by (unfold ex_cols; by rewrite E).
  split; [done|]. by eexists.
Qed.

Lemma ex_database {S} {G : GAlloc S} {GH : GHeap S} (s : S) :
  heap_ok s ∅ → 13 + table_room + insert_room ≤ room s →
  ∃ s' h t own m, ex_db_ok s' h t own m ∧ room s - 13 - table_room - insert_room ≤ room s'.
Proof.
  intros Hok Hr. assert (0 < insert_room ∧ 0 < table_room) as [Hi Ht] by by vm_compute.
  set (R := λ s', ∃ h t own m, ex_db_ok s' h t own m ∧ room s - 13 - table_room - insert_room ≤ room s').
  assert (wpd (a ← Malloc 13; Write a (replicate 13 0);; ts ← make_tables 0 [ex_schema];
    t ← in_array (head ts); table_InsertRecord_with free_lock 6 [5] 1 a t) (λ _ s', R s') s) as H;
    [|destruct (wpd_run _ _ _ H) as (_ & s' & _ & h & t & own & m & Hx); by exists s', h, t, own, m].
  wpd_step. eapply (wp_Malloc s ∅); [done|lia|lia|lia|]. intros a bs s1 _ Hl Ha Hv Hok1 Hr1. wpd_step.
  assert (blk (<[a := bs]> ∅) a 13) as Hb by (rewrite <-Hl; apply blk_insert_same).
  destruct (blk_valid _ _ _ _ Hok1 Hb) as (_ & _ & E0).
  eapply (wp_Write s1 _ a a 0); [done|by symmetry|lia|exact Hb|by rewrite length_replicate|by rewrite length_replicate|].
  intros s2 Hok2 Hr2. rewrite (put_some _ _ _ _ bs), insert_insert_eq in Hok2 by apply lookup_insert_eq.
  rewrite splice_all in Hok2 by (rewrite length_replicate; lia). wpd_step.
  set (h2 := <[a := replicate 13 0]> ∅) in Hok2.
  eapply (wp_make_tables [ex_schema] [ex_cols] _ 0 s2 h2); [done| |lia|by vm_compute|cbn [length]; lia|].
  { apply Forall2_cons_2; [exact ex_schema_wf|apply Forall2_nil_2]. }
  intros ts own h3 s3 Hok3 R3 _ Esc _ Hold Hr3. cbn [length] in Hr3.
  destruct ts as [|t [|]]; [done| |done]. cbn in Esc. injection Esc as Esc.
  destruct (Hold a (replicate 13 0)) as [E3 Hn3]; [apply lookup_insert_eq|].
  repeat wpd_step. eapply wpd_in_array; [done|].
  eapply (wp_table_insert free_lock 0 6 0 t 5 a s3 h3 [t] own (λ _ _, []));
    [done|done|done|exact free_lock_returns|lia|done|done|lia|].
  intros t' own' h4 s4 Hok4 St R4 Hkeep Hr4. destruct (Hkeep a _ E3 Hn3) as [E4 Hn4].
  assert (t_schema_ptr_ t' = ex_schema) as Esc' by (destruct St as (_ & E & _); congruence).
  rewrite Nat.add_0_l in R4. change (<[0%nat := t']> [t]) with [t'] in R4.
  exists h4, t', own', (λ j, if bool_decide (j = 0%nat) then map_add (λ _, []) 5 a else (λ _, [])).
  split; [|lia]. split; [done| |done|done|done|done]. split; [exact R4|lia| |].
  - intros [|i] u Hu; [|done]. injection Hu as <-. rewrite Esc'. eexists; exact ex_schema_vis.
  - intros [|i] u key Hu; [|done]. injection Hu as <-. rewrite bool_decide_true by done. unfold map_add.
    destruct (key =? 5); [|done]. intros _.
    exists (replicate 13 0). split_and!; [done|by rewrite Esc', length_replicate|done].
Qed.

Lemma ex_flat : ∃ (s : DbFlat.flat) h t own m, ex_db_ok s h t own m ∧ 2 ^ 30 ≤ room s.
Proof.
  destruct (ex_database flat_init flat_init_ok) as (s & h & t & own & m & D & Hr); [by vm_compute|].
  exists s, h, t, own, m. split; [done|]. etransitivity; [|exact Hr]. by vm_compute.
Qed.

Definition ex_search (ty : Z) : sys_op := s_op (t_search 0 5 ty).
(** Two transactions of a thread: a column is set and read; the record is deleted. *)
Definition ex_sched (i : nat) : list (nat * sys_op) :=
  [(i, ex_search READ_WRITE); (i, s_op (t_set 0 0 [1; 0; 0; 0])); (i, s_op (t_get 0 0)); (i, s_commit);
   (i, ex_search DELETE_ONLY); (i, s_op (t_search 0 6 READ_ONLY)); (i, s_commit)].
Lemma ex_sched_ok t i : Forall (sys_op_ok [t] (λ j, j = i)) (ex_sched i).
Proof. repeat (apply Forall_cons_2; [by repeat split; vm_compute|]). apply Forall_nil_2. Qed.

Lemma one_thread_serial_witness : ∃ (s : DbFlat.flat) h t own m, ex_db_ok s h t own m ∧
  wpd (run_schedule (L := dsm_locks) [t] 6 (ex_sched 0)) (λ rs y',
    ∃ h', heap_ok (sy_mem y') h' ∧ serial [t] m (commits (ex_sched 0) rs (λ _, [])) h = Some h') (new_system s).
Proof.
  destruct ex_flat as (s & h & t & own & m & D & _). exists s, h, t, own, m. split; [exact D|].
  apply (one_thread_serial [t] 6 1 own m 0).
  - apply D.
  - apply D.
  - apply ex_sched_ok.
  - reflexivity.
Defined.

Definition ex_record_of (t : Table) : DbRecord :=
  mk_DbRecord (t_schema_ptr_ t) (replicate 13 0) (GetSchemaSize (t_schema_ptr_ t)).

Lemma ex_writable t d r : t_schema_ptr_ t = ex_schema → schema_ptr_ r = t_schema_ptr_ t → len d = 4 → writable 0 d r = true.
Proof. intros E Er El. unfold writable, readable. by rewrite Er, E, El. Qed.

Lemma lost_update_witness : ∃ (s : DbFlat.flat) h t own m, ex_db_ok s h t own m ∧
  wpd (run_schedule (L := dsm_locks) [t] 6 (two_updates 0 5 0 [1; 0; 0; 0] [2; 0; 0; 0])) (λ rs y',
    ∃ h' r1, heap_ok (sy_mem y') h' ∧ SetColumn 0 [2; 0; 0; 0] (ex_record_of t) = Some r1 ∧
      h' !! newest (m 0%nat 5) = Some (data_ptr_ r1)) (new_system s).
Proof.
  destruct ex_flat as (s & h & t & own & m & D & _). exists s, h, t, own, m. split; [exact D|].
  eapply wpd_mono.
  - apply (lost_update [t] 6 1 own m 0 t 5 0 [0; 0; 0; 0] [1; 0; 0; 0] [2; 0; 0; 0] (replicate 13 0) s h).
    + apply D.
    + apply D.
    + reflexivity.
    + apply D.
    + apply D.
    + apply (ex_writable t); [apply D|reflexivity|reflexivity].
    + apply (ex_writable t); [apply D|reflexivity|reflexivity].
    + unfold GetColumn. cbn [schema_ptr_]. rewrite (ex_sc _ _ _ _ _ D). reflexivity.
    + reflexivity.
    + reflexivity.
    + discriminate.
    + discriminate.
  - intros rs y (_ & H & _). exact H.
Defined.

Lemma failed_query_leaks_witness : ∃ (s : DbFlat.flat) h t own m, ex_db_ok s h t own m ∧
  wpd (b1 ← update_then (L := dsm_locks) [t] 6 0 0 5 0 [7; 0; 0; 0] 0 6 READ_ONLY;
       b2 ← read_only (L := dsm_locks) [t] 6 0 0 5; mret (b1, b2))
    (λ b w', b = (false, true) ∧ ∃ r1, SetColumn 0 [7; 0; 0; 0] (ex_record_of t) = Some r1 ∧
       heap_ok (th_mem w') (put (newest (m 0%nat 5)) 0 (data_ptr_ r1) h)) (new_thread s).
Proof.
  destruct ex_flat as (s & h & t & own & m & D & _). exists s, h, t, own, m. split; [exact D|].
  apply (failed_query_leaks [t] 6 1 own m 0 t 5 (replicate 13 0) 0 [7; 0; 0; 0] 0 t 6 READ_ONLY 0 t 5 0 s h).
  - apply D.
  - apply D.
  - reflexivity.
  - apply D.
  - apply D.
  - apply (ex_writable t); [apply D|reflexivity|reflexivity].
  - reflexivity.
  - apply D.
  - reflexivity.
  - apply D.
Defined.

Lemma inserted_unreachable_witness : ∃ (s : DbFlat.flat) h t own m, ex_db_ok s h t own m ∧
  wpd (b ← insert_record (L := dsm_locks) [t] 0 0 6 [(0, [9; 0; 0; 0])];
       r ← SearchRecord (L := dsm_locks) [t] 6 0 0 6 READ_ONLY; mret (b, r))
    (λ x w', x = (true, None) ∧ ∃ a bs, h !! a = None ∧ heap_ok (th_mem w') (<[a := bs]> h)) (new_thread s).
Proof.
  destruct ex_flat as (s & h & t & own & m & D & Hr). exists s, h, t, own, m. split; [exact D|].
  assert (GetSchemaSize (t_schema_ptr_ t) = 13) as E by (rewrite (ex_sc _ _ _ _ _ D); reflexivity).
  apply (inserted_unreachable [t] 6 1 own m 0 t 6 [(0, [9; 0; 0; 0])] READ_ONLY 0 s h).
  - apply D.
  - apply D.
  - reflexivity.
  - apply D.
  - rewrite E. lia.
  - rewrite E. lia.
  - apply Forall_cons_2; [|apply Forall_nil_2]. intros r' Er. apply (ex_writable t); [apply D|exact Er|reflexivity].
Defined.
