(* ===== verification/DbInterleave.v ===== *)
(** * DbInterleave: threads interleave between their calls of [DSM]

    The system of [DbSerial] runs a call of the transaction manager as one step.  Here a
    step of a thread is one call of [DSM]: a read, a write, a lock or an unlock.  A call
    of the transaction manager is under way in a thread as the list of the answers that it
    has had ([DbReplay]), so that the other threads run in the middle of a search, a commit
    or an abort.  With locks that exclude each other the committed transactions still are
    serial ([two_phase_serialisable]). *)
From S2P Require Import Prelude GlobalMem DbStore DbFlat DbDsm DbArray DbIndex DbSchema DbTable DbTxn DbReplay DbSerial.
From stdpp Require Import base numbers option functions list list_numbers gmap.
Open Scope Z_scope.

(** ** The system *)
Record fine (S : Type) := mk_fine {
  fn_mem : S;
  fn_threads : nat → local;
  (** The operation under way and the answers that it has had. *)
  fn_tasks : nat → option (sys_op * list answer);
}.
Arguments mk_fine {S} _ _ _.
Arguments fn_mem {S} _.
Arguments fn_threads {S} _.
Arguments fn_tasks {S} _.

Inductive turn := begin_op (i : nat) (o : sys_op) | step_op (i : nat).
Inductive event := ev_skipped | ev_begun | ev_call | ev_end (r : txn_res).

(** A transaction does not search more records than the access list has room for. *)
Definition may_begin (o : sys_op) (c : local) : bool :=
  match o with s_op (t_search _ _ _) => len (lc_accesses c) <? kMaxAccessLimit | _ => true end.

Definition at_answers (c : local) (as_ : list answer) : thread replay :=
  on_answers (lc_records c) (lc_accesses c) as_.

Section run.
Context {S : Type} {J : Indeterminate} {G : GAlloc S} {L : RecordLocks S}.
Context (tables : list Table) (fuel : nat).

(** The operation [o] of thread [i] after the answers [as_]: it ends, or makes one call. *)
Definition resume (i : nat) (o : sys_op) (as_ : list answer) : DB (fine S) event := λ y,
  match run_sys tables fuel (Z.of_nat i) o (at_answers (fn_threads y i) as_) with
  | Done r w => Done (ev_end r)
      (mk_fine (fn_mem y) (<[i := mk_local (th_records w) (th_accesses w)]> (fn_threads y)) (<[i := None]> (fn_tasks y)))
  | Raise e w =>
      match next_call w with
      | None => Raise e y
      | Some c =>
          match exec_call c (fn_mem y) with
          | Done x s => Done ev_call (mk_fine s (fn_threads y) (<[i := Some (o, as_ ++ [x])]> (fn_tasks y)))
          | Raise e s => Raise e (mk_fine s (fn_threads y) (fn_tasks y))
          end
      end
  end.

(** A thread that is busy begins nothing, a thread that is idle has nothing to do. *)
Definition run_turn (t : turn) : DB (fine S) event := λ y,
  match t with
  | begin_op i o =>
      match fn_tasks y i with
      | None => if may_begin o (fn_threads y i)
                then Done ev_begun (mk_fine (fn_mem y) (fn_threads y) (<[i := Some (o, [])]> (fn_tasks y)))
                else Done ev_skipped y
      | Some _ => Done ev_skipped y
      end
  | step_op i =>
      match fn_tasks y i with
      | None => Done ev_skipped y
      | Some (o, as_) => resume i o as_ y
      end
  end.

Fixpoint run_turns (ts : list turn) : DB (fine S) (list event) :=
  match ts with
  | [] => mret []
  | t :: ts => e ← run_turn t; es ← run_turns ts; mret (e :: es)
  end.
End run.

(** ** What was committed

    A transaction counts from the moment at which its commit begins. *)
Record view := mk_view { vw_tasks : nat → option sys_op; vw_logs : nat → txn_log }.

Definition observe (t : turn) (e : event) (v : view) : list txn_log * view :=
  match t, e with
  | begin_op i s_commit, ev_begun =>
      ([vw_logs v i], mk_view (<[i := Some s_commit]> (vw_tasks v)) (<[i := []]> (vw_logs v)))
  | begin_op i s_abort, ev_begun =>
      ([], mk_view (<[i := Some s_abort]> (vw_tasks v)) (<[i := []]> (vw_logs v)))
  | begin_op i o, ev_begun => ([], mk_view (<[i := Some o]> (vw_tasks v)) (vw_logs v))
  | step_op i, ev_end r =>
      ([], mk_view (<[i := None]> (vw_tasks v))
        match vw_tasks v i with
        | Some (s_op o) => <[i := match r with r_refused => [] | _ => vw_logs v i ++ [(o, r)] end]> (vw_logs v)
        | _ => vw_logs v
        end)
  | _, _ => ([], v)
  end.

Fixpoint committed (ts : list turn) (es : list event) (v : view) : list txn_log :=
  match ts, es with
  | t :: ts, e :: es => let '(c, v) := observe t e v in c ++ committed ts es v
  | _, _ => []
  end.

Definition nothing_seen : view := mk_view (λ _, None) (λ _, []).

(** A commit under way in thread [i] is to write the record at [a]. *)
Definition commit_pending {S} (y : fine S) (i : nat) (a : GlobalAddress) : Prop :=
  ∃ as_ ac, fn_tasks y i = Some (s_commit, as_) ∧ ac ∈ lc_accesses (fn_threads y i) ∧ access_addr_ ac = a ∧
    (access_type_ ac = READ_WRITE ∨ access_type_ ac = DELETE_ONLY).

Definition turn_ok (tables : list Table) (t : turn) : Prop :=
  match t with begin_op _ (s_op o) => op_ok tables o | _ => True end.

(** ** Locks that exclude each other

    A lock that is held is granted a second time, to whatever thread, only to read. *)
Class ExclusiveLocks (S : Type) {G : GAlloc S} {GH : GHeap S} {L : RecordLocks S} {LS : LockSpec S} := {
  lk_holds : lk_state → Z → bool → GlobalAddress → Prop;
  xl_grant ex t a l l' : lk_try ex t a l = Some l' →
    lk_holds l' t ex a ∧ ∀ t' ex' b, lk_holds l t' ex' b → lk_holds l' t' ex' b;
  xl_exclude ex t a l l' t' ex' : lk_try ex t a l = Some l' → lk_holds l t' ex' a → ex = false ∧ ex' = false;
  xl_release t a l t' ex b : lk_holds l t' ex b → t' ≠ t ∨ b ≠ a → lk_holds (lk_release t a l) t' ex b;
}.

(** ** Claims: the locks that a thread counts on *)
Inductive phase :=
| ph_idle | ph_search | ph_locked (ty : Z) (a : GlobalAddress) | ph_ready (hs : list held)
| ph_release | ph_commit (w : bool) (todo : list held).

Definition exclusive_claims (todo : list held) : list (Z * GlobalAddress) :=
  List.filter (λ e : Z * GlobalAddress, lock_of e.1) (locks_of todo).
Definition claims (g : list held * phase) : list (Z * GlobalAddress) :=
  match g.2 with
  | ph_idle | ph_search => locks_of g.1
  | ph_locked ty a => locks_of g.1 ++ [(ty, a)]
  | ph_ready hs => locks_of hs
  | ph_release => []
  | ph_commit _ todo => exclusive_claims todo
  end.

(** Two claims of one record only read it. *)
Definition compatible (e e' : Z * GlobalAddress) : Prop := e.2 = e'.2 → lock_of e.1 = false ∧ lock_of e'.1 = false.
Abbreviation apart := (ForallOrdPairs compatible).

Lemma apart_app cl cl' : apart (cl ++ cl') ↔ apart cl ∧ apart cl' ∧ ∀ e e', e ∈ cl → e' ∈ cl' → compatible e e'.
Proof.
  induction cl as [|x cl IH]; cbn.
  - split; [|by intros (_ & ? & _)]. intros H. split_and!; [constructor|done|]. by intros e e' ?%elem_of_nil.
  - split.
    + intros H. inversion H as [|? ? Hf Ha]; subst. apply IH in Ha as (H1 & H2 & H3). apply Forall_app in Hf as [F1 F2].
      split_and!; [by constructor|done|]. intros e e' [->|He]%elem_of_cons He'; [by apply (proj1 (Forall_forall _ _) F2)|by apply H3].
    + intros (H1 & H2 & H3). inversion H1 as [|? ? Hf Ha]; subst. constructor.
      * apply Forall_app. split; [done|]. apply Forall_forall. intros e' He'. by apply H3; [left|].
      * apply IH. split_and!; [done|done|]. intros e e' He. apply H3. by right.
Qed.

Lemma apart_filter f cl : apart cl → apart (List.filter f cl).
Proof.
  induction 1 as [|x cl Hf Ha IH]; cbn; [constructor|]. destruct (f x); [|done]. constructor; [|done].
  apply Forall_forall. intros e He. apply list_elem_of_In, filter_In in He as [He _].
  apply (proj1 (Forall_forall _ _) Hf). by apply list_elem_of_In.
Qed.

Lemma exclusive_claims_elem x todo : x ∈ todo → lock_of (hd_type x) = true → (hd_type x, hd_addr x) ∈ exclusive_claims todo.
Proof.
  intros Hx Hl. apply list_elem_of_In, filter_In. split; [|done]. apply list_elem_of_In, list_elem_of_fmap. by exists x.
Qed.

Lemma writes_back_lock x : writes_back x = true → lock_of (hd_type x) = true.
Proof. unfold writes_back, lock_of, READ_WRITE, DELETE_ONLY, READ_ONLY. lia. Qed.

Section locks.
Context {S : Type} {G : GAlloc S} {GH : GHeap S} {L : RecordLocks S} {LS : LockSpec S} {XL : ExclusiveLocks S}.
Implicit Types (l : lk_state) (gs : nat → list held * phase).

Definition holds l (i : nat) (e : Z * GlobalAddress) : Prop := lk_holds l (Z.of_nat i) (lock_of e.1) e.2.

Record claims_ok l gs : Prop := {
  cl_holds i e : e ∈ claims (gs i) → holds l i e;
  cl_apart i : apart (claims (gs i));
  cl_others i j e e' : i ≠ j → e ∈ claims (gs i) → e' ∈ claims (gs j) → compatible e e';
}.

Lemma compatible_sym e e' : compatible e e' → compatible e' e.
Proof. intros H E. destruct (H (eq_sym E)). done. Qed.

(** Thread [i] changes its claims. *)
Lemma claims_update l l' gs i g :
  claims_ok l gs → (∀ j e, j ≠ i → holds l j e → holds l' j e) → (∀ e, e ∈ claims g → holds l' i e) → apart (claims g) →
  (∀ j e e', i ≠ j → e ∈ claims g → e' ∈ claims (gs j) → compatible e e') → claims_ok l' (<[i := g]> gs).
Proof.
  intros [H A O] Hl Hi Ha Ho. split.
  - intros j e. destruct (decide (i = j)) as [<-|Hne]; [rewrite fn_lookup_insert; apply Hi|].
    rewrite fn_lookup_insert_ne by done. intros He. apply Hl; [done|by apply H].
  - intros j. destruct (decide (i = j)) as [<-|Hne]; [by rewrite fn_lookup_insert|by rewrite fn_lookup_insert_ne].
  - intros j j' e e' Hne. destruct (decide (i = j)) as [<-|], (decide (i = j')) as [<-|]; [done| | |];
      rewrite ?fn_lookup_insert, ?fn_lookup_insert_ne by done.
    + by apply Ho.
    + intros He He'. by apply compatible_sym, (Ho j).
    + by apply O.
Qed.

(** It keeps some of them. *)
Lemma claims_keep l l' gs i g :
  claims_ok l gs → (∀ j e, j ≠ i → holds l j e → holds l' j e) →
  (∀ e, e ∈ claims g → e ∈ claims (gs i) ∧ (holds l i e → holds l' i e)) → apart (claims g) → claims_ok l' (<[i := g]> gs).
Proof.
  intros C Hl Hg Ha. apply (claims_update l); [done|done| |done|].
  - intros e He. destruct (Hg e He) as [H1 H2]. by apply H2, (cl_holds _ _ C).
  - intros j e e' Hne He He'. destruct (Hg e He) as [H1 _]. by apply (cl_others _ _ C i j).
Qed.

Lemma claims_same l gs i g : claims_ok l gs → claims g = claims (gs i) → claims_ok l (<[i := g]> gs).
Proof.
  intros C E. apply (claims_keep l); [done|done| |rewrite E; apply C]. intros e He. by rewrite <-E.
Qed.

(** A lock is granted. *)
Lemma claims_grant l l' gs i g ty a :
  claims_ok l gs → lk_try (lock_of ty) (Z.of_nat i) a l = Some l' → claims g = claims (gs i) ++ [(ty, a)] →
  claims_ok l' (<[i := g]> gs).
Proof.
  intros C Et Eg. destruct (xl_grant _ _ _ _ _ Et) as [Hnew Hold].
  assert (∀ j e, e ∈ claims (gs j) → compatible e (ty, a)) as Hx.
  { intros j e He Ea. cbn in Ea. pose proof (cl_holds _ _ C j e He) as Hh. unfold holds in Hh. rewrite Ea in Hh.
    by apply and_comm, (xl_exclude _ _ _ _ _ _ _ Et Hh). }
  apply (claims_update l); [done|intros; by apply Hold| | |]; rewrite Eg.
  - intros e [He| ->%list_elem_of_singleton]%elem_of_app; [by apply Hold, (cl_holds _ _ C)|done].
  - apply apart_app. split_and!; [apply C|by repeat constructor|]. intros e e' He ->%list_elem_of_singleton. by apply (Hx i).
  - intros j e e' Hne [He| ->%list_elem_of_singleton]%elem_of_app He'; [by apply (cl_others _ _ C i j)|].
    by apply compatible_sym, (Hx j).
Qed.

Lemma holds_release l i a j e : j ≠ i → holds l j e → holds (lk_release (Z.of_nat i) a l) j e.
Proof. intros Hne H. apply xl_release; [exact H|]. left. lia. Qed.

(** Thread [i] releases the record of [x], the first that is left of a commit. *)
Lemma claims_release l gs i hs w x todo :
  claims_ok l gs → gs i = (hs, ph_commit w (x :: todo)) → apart (locks_of (x :: todo)) →
  claims_ok (lk_release (Z.of_nat i) (hd_addr x) l) (<[i := (hs, ph_commit false todo)]> gs).
Proof.
  intros C Eg Ha. inversion Ha as [|? ? Hf Ha']; subst. apply (claims_keep l); [done|intros; by apply holds_release| |].
  - intros e He. apply list_elem_of_In, filter_In in He as [He Hl]. split.
    + rewrite Eg. apply list_elem_of_In, filter_In. split; [by right|done].
    + intros Hh. apply xl_release; [exact Hh|]. right. intros E.
      destruct (proj1 (Forall_forall _ _) Hf e) as [_ Hs]; [by apply list_elem_of_In|by symmetry|]. cbn in Hs. congruence.
  - by apply apart_filter.
Qed.
End locks.

(** ** A call of [DSM] on a memory whose locks are in the state [l] *)
Section memory_calls.
Context {S : Type} {G : GAlloc S} {GH : GHeap S} {L : RecordLocks S} {LS : LockSpec S}.
Implicit Types (s : S) (h : heap) (l : lk_state).

Definition mem_is s l h : Prop := heap_ok s h ∧ lk_of s = l.

Lemma wp_call_read s l h a bs off n (Q : answer → S → Prop) :
  mem_is s l h → h !! a = Some bs → 0 ≤ off → 0 < n → off + n ≤ len bs →
  (∀ s', mem_is s' l h → Q (a_bytes (slice off n bs)) s') → wpd (exec_call (c_read (GADD a off) n)) Q s.
Proof.
  intros Hm Hb H0 Hn Hl HQ. cbn [exec_call]. wpd_step.
  eapply wpd_mono; [apply (gh_read (GHeap := fixed_gheap l) s h a bs off n Hm Hb H0 Hn Hl)|].
  intros r s' (-> & Hm' & _). wpd_step. by apply HQ.
Qed.

Lemma wp_call_write s l h a bs d (Q : answer → S → Prop) :
  mem_is s l h → h !! a = Some bs → 0 < len d → len d = len bs →
  (∀ s', mem_is s' l (<[a := d]> h) → Q a_unit s') → wpd (exec_call (c_write a d)) Q s.
Proof.
  intros Hm Hb Hd Hl HQ. cbn [exec_call]. wpd_step.
  destruct (blk_valid s h a (len bs) (proj1 Hm)) as (_ & _ & E0); [by exists bs|]. rewrite <-E0.
  eapply wpd_mono; [apply (gh_write (GHeap := fixed_gheap l) s h a bs 0 d Hm Hb); lia|].
  intros [] s' (Hm' & _). wpd_step. apply HQ. by rewrite splice_all in Hm' by lia.
Qed.

Lemma wp_call_free s l h a (Q : answer → S → Prop) :
  mem_is s l h → (∀ s', mem_is s' l h → Q a_unit s') → wpd (exec_call (c_free a)) Q s.
Proof.
  intros Hm HQ. cbn [exec_call]. wpd_step. eapply wpd_mono; [apply (gh_free (GHeap := fixed_gheap l) s h a Hm)|].
  intros [] s' (Hm' & _). wpd_step. by apply HQ.
Qed.

Lemma wp_call_unlock s l h t a n (Q : answer → S → Prop) :
  mem_is s l h → (∀ s', mem_is s' (lk_release t a l) h → Q a_unit s') → wpd (exec_call (c_unlock t a n)) Q s.
Proof.
  intros [Hm Hl] HQ. cbn [exec_call]. wpd_step. eapply wpd_mono; [apply ls_unlock|].
  intros [] s' (Hk & _ & Hl'). wpd_step. apply HQ. split; [by apply Hk|congruence].
Qed.

Lemma wp_call_try s l h ex t a n (Q : answer → S → Prop) :
  mem_is s l h →
  (∀ s' v, match lk_try ex t a l with Some l' => v = 0 ∧ mem_is s' l' h | None => v ≠ 0 ∧ mem_is s' l h end →
     Q (a_int v) s') → wpd (exec_call (c_try ex t a n)) Q s.
Proof.
  intros [Hm Hl] HQ. cbn [exec_call]. wpd_step. eapply wpd_mono; [apply ls_try|].
  intros v s' (Hk & _ & Hv). wpd_step. apply HQ. rewrite Hl in Hv. specialize (Hk h Hm).
  destruct (lk_try ex t a l); by destruct Hv.
Qed.
End memory_calls.

(** ** A commit, record by record *)
Lemma commit_one_same h x bs : h !! hd_addr x = Some bs → len bs = len (data_ptr_ (hd_record x)) → writes_back x = true →
  commit_one h x !! hd_addr x = Some (data_ptr_ (hd_record x)).
Proof.
  intros Hb Hl Hw. unfold commit_one. rewrite Hw, (put_some _ _ _ _ _ Hb), lookup_insert_eq. f_equal. apply splice_all. lia.
Qed.

Lemma commit_heap_at tables own hs h x :
  apart (locks_of hs) → Forall (held_good tables own h) hs → x ∈ hs → writes_back x = true →
  commit_heap hs h !! hd_addr x = Some (data_ptr_ (hd_record x)).
Proof.
  revert h. induction hs as [|y hs IH]; intros h Ha Hg Hx Hw; [by apply elem_of_nil in Hx|].
  inversion Ha as [|? ? Hf Ha']; subst. apply Forall_cons in Hg as [Hy Hg].
  assert (Forall (held_good tables own (commit_one h y)) hs) as Hg1
    by (eapply Forall_impl; [exact Hg|]; intros z Hz; by apply commit_one_good).
  apply elem_of_cons in Hx as [->|Hx]; [|by apply (IH (commit_one h y))].
  change (commit_heap (y :: hs) h) with (commit_heap hs (commit_one h y)). rewrite commit_heap_other.
  - destruct Hy as [_ (bs & Hb & Hl) _ _]. by apply (commit_one_same h y bs).
  - intros z Hz _ E. destruct (proj1 (Forall_forall _ _) Hf (hd_type z, hd_addr z)) as [Hs _].
    + apply list_elem_of_fmap. by exists z.
    + by cbn.
    + cbn in Hs. by rewrite writes_back_lock in Hs.
Qed.

Lemma serial_app {J : Indeterminate} tables m t1 t2 h :
  serial tables m (t1 ++ t2) h = serial tables m t1 h ≫= serial tables m t2.
Proof.
  revert h. induction t1 as [|log t1 IH]; intros h; [done|]. cbn. destruct (ref_log _ _ _ _ log); cbn; [apply IH|done].
Qed.

(** ** Operations on the copies alone make no call *)
Lemma run_get_local {J : Indeterminate} tables fuel own m t i col h hs c as0 :
  thread_rep (at_answers c as0) hs → Forall (held_good tables own h) hs →
  ∃ r, r ≠ r_refused ∧ ref_op tables m h hs (t_get i col) = (r, hs) ∧
    trace (run_op tables fuel t (t_get i col)) (at_answers c) [] r (at_answers c).
Proof.
  intros T Hg. cbn [run_op ref_op]. destruct (hs !! i) as [x|] eqn:Hx.
  - destruct (thread_rep_at _ hs i x T Hx) as (a & p & Ha & Hp & Er). cbn in Ha, Er.
    destruct (Forall_lookup_1 _ _ _ _ Hg Hx) as [[cols Hr] _ _ _].
    assert (∀ r, trace (p ← in_array (access_record_ a); r ← get_record p;
      if readable col r then d ← get_column_of p col; mret (r_column (Some d)) else mret (r_column None)) (at_answers c) [] r (at_answers c) →
      trace (run_op tables fuel t (t_get i col)) (at_answers c) [] r (at_answers c)) as Hrun.
    { intros r H. eapply trace_bind_pure; [apply trace_get_accesses|]. by rewrite Ha. }
    destruct (readable col (hd_record x)) eqn:Erd.
    + destruct (readable_lookup _ cols col Hr Erd) as (cl & _ & Hc). rewrite Hc. eexists. split_and!; [|done|apply Hrun]; [done|].
      eapply trace_bind_pure; [by apply trace_in_array|]. eapply trace_bind_pure; [by apply trace_get_record|].
      rewrite Erd. eapply trace_bind_pure; [|apply trace_ret]. eapply trace_bind_pure; [by apply trace_get_record|].
      unfold checked. rewrite Hc. apply trace_ret.
    + eexists. split_and!; [|done|apply Hrun]; [done|].
      eapply trace_bind_pure; [by apply trace_in_array|]. eapply trace_bind_pure; [by apply trace_get_record|].
      rewrite Erd. apply trace_ret.
  - eexists. split_and!; [|done|]; [done|]. eapply trace_bind_pure; [apply trace_get_accesses|].
    rewrite (proj2 (lookup_ge_None _ _)); [apply trace_ret|]. pose proof (thread_rep_length _ _ T) as E. cbn in E. rewrite E.
    by apply lookup_ge_None.
Qed.

Lemma run_set_local {J : Indeterminate} tables fuel own m t i col d h hs c as0 :
  thread_rep (at_answers c as0) hs → Forall (held_good tables own h) hs →
  ∃ r c' hs', r ≠ r_refused ∧ ref_op tables m h hs (t_set i col d) = (r, hs') ∧
    thread_rep (at_answers c' []) hs' ∧ Forall (held_good tables own h) hs' ∧ locks_of hs' = locks_of hs ∧
    trace (run_op tables fuel t (t_set i col d)) (at_answers c) [] r (at_answers c').
Proof.
  intros T Hg. cbn [run_op ref_op]. assert (thread_rep (at_answers c []) hs) as T0 by by destruct T.
  destruct (hs !! i) as [x|] eqn:Hx.
  - destruct (thread_rep_at _ hs i x T Hx) as (a & p & Ha & Hp & Er). cbn in Ha, Er.
    destruct (Forall_lookup_1 _ _ _ _ Hg Hx) as [[cols Hr] (bs & Hb & Hl) Hty Hown].
    assert (∀ r c', trace (p ← in_array (access_record_ a); r ← get_record p;
      if writable col d r then set_column_of p col d;; mret (r_set true) else mret (r_set false)) (at_answers c) [] r (at_answers c') →
      trace (run_op tables fuel t (t_set i col d)) (at_answers c) [] r (at_answers c')) as Hrun.
    { intros r c' H. eapply trace_bind_pure; [apply trace_get_accesses|]. by rewrite Ha. }
    destruct (writable col d (hd_record x)) eqn:Ew.
    + destruct (writable_ok _ cols col d Hr Ew) as (r' & Es & Hr' & _ & El). rewrite Es.
      exists (r_set true), (mk_local (<[p := Some r']> (lc_records c)) (lc_accesses c)), (<[i := mk_held (hd_type x) (hd_addr x) r']> hs).
      split_and!; [done|done| | | |apply Hrun].
      * destruct T as [Hrel Hnd]. split; [|done]. by apply (acc_rels_update _ _ _ _ a).
      * apply Forall_insert; [done|]. split; cbn; [by exists cols| |done|done]. exists bs. split; [done|lia].
      * unfold locks_of. rewrite list_fmap_insert. cbn. apply list_insert_id. by rewrite list_lookup_fmap, Hx.
      * eapply trace_bind_pure; [by apply trace_in_array|]. eapply trace_bind_pure; [by apply trace_get_record|].
        rewrite Ew. eapply trace_bind_pure; [|apply trace_ret]. eapply trace_bind_pure; [by apply trace_get_record|].
        unfold checked. rewrite Es. eapply trace_bind_pure; [apply trace_ret|]. by apply trace_modify.
    + exists (r_set false), c, hs. split_and!; [done..|apply Hrun].
      eapply trace_bind_pure; [by apply trace_in_array|]. eapply trace_bind_pure; [by apply trace_get_record|].
      rewrite Ew. apply trace_ret.
  - exists (r_set false), c, hs. split_and!; [done..|]. eapply trace_bind_pure; [apply trace_get_accesses|].
    rewrite (proj2 (lookup_ge_None _ _)); [apply trace_ret|]. pose proof (thread_rep_length _ _ T) as E. cbn in E. rewrite E.
    by apply lookup_ge_None.
Qed.

(** ** The invariant of the system

    [ha] has the effect of every commit that has begun, [hc] is the memory: they differ in
    the records that a commit under way has not written yet. *)
Definition commit_rest (t : Z) (w : bool) (todo : list held) : calls :=
  match todo with
  | [] => []
  | x :: todo => (if w then [unlock_call t x] else commit_calls t x) ++ (todo ≫= commit_calls t)
  end.

Section invariant.
Context {S : Type} {J : Indeterminate} {G : GAlloc S} {L : RecordLocks S} {GH : GHeap S} {LS : LockSpec S}
  {XL : ExclusiveLocks S}.
Context (tables : list Table) (fuel k : nat) (own : nat → GlobalAddress → Prop) (m : nat → Z → list GlobalAddress).
Context (h0 : heap).
Implicit Types (ha hc : heap) (l : lk_state) (hs : list held) (c : local) (log : txn_log) (y : fine S)
  (gs : nat → list held * phase) (v : view).

Definition owned (a : GlobalAddress) : Prop := ∃ j, (j < length tables)%nat ∧ own j a.

Definition runs (i : nat) (o : sys_op) c (T : calls) (r : txn_res) c' : Prop :=
  trace (run_sys tables fuel (Z.of_nat i) o) (at_answers c) T r (at_answers c').

(** The copies [hs] of a thread are those of its transaction [log] on [ha]. *)
Record session ha c log hs : Prop := {
  ss_rep : thread_rep (at_answers c []) hs;
  ss_log : ref_log tables m ha [] log = Some hs;
  ss_seen : Forall (λ e, e.2 ≠ r_refused) log;
  ss_good : Forall (held_good tables own ha) hs;
}.

Record searching ha c log hs (id key ty : Z) (t : Table) (cols : list ColumnInfo) (T : calls) : Prop := {
  se_session : session ha c log hs;
  se_op : op_ok tables (t_search id key ty);
  se_room : len hs < kMaxAccessLimit;
  se_table : tables !! Z.to_nat id = Some t;
  se_schema : schema_vis (t_schema_ptr_ t) cols;
  se_trace : returns (table_SearchRecord fuel key t) T (newest (m (Z.to_nat id) key));
}.

Inductive task_inv ha hc (i : nat) c log hs : option (sys_op * list answer) → phase → Prop :=
| ti_idle : session ha c log hs → task_inv ha hc i c log hs None ph_idle
| ti_search id key ty t cols T1 T2 : searching ha c log hs id key ty t cols (T1 ++ T2) → Forall (static_read h0 owned) T2 →
    task_inv ha hc i c log hs (Some (s_op (t_search id key ty), T1.*2)) ph_search
| ti_locked id key ty t cols T a : searching ha c log hs id key ty t cols T →
    a = newest (m (Z.to_nat id) key) → a ≠ ga_Null →
    task_inv ha hc i c log hs (Some (s_op (t_search id key ty), T.*2 ++ [a_int 0])) (ph_locked ty a)
| ti_ready o T r c' hs' : session ha c log hs → runs i (s_op o) c T r c' → thread_rep (at_answers c' []) hs' →
    ref_op tables m ha hs o = (r, hs') → r ≠ r_refused → Forall (held_good tables own ha) hs' →
    task_inv ha hc i c log hs (Some (s_op o, T.*2)) (ph_ready hs')
| ti_release o T1 T2 r c' : runs i o c (T1 ++ T2) r c' → thread_rep (at_answers c' []) [] →
    Forall (λ e, e.2 = a_unit ∧ ((∃ a n, e.1 = c_unlock (Z.of_nat i) a n) ∨ ∃ a, e.1 = c_free a)) T2 →
    ((∃ o', o = s_op o') ∧ r = r_refused ∨ o = s_abort ∧ log = []) →
    task_inv ha hc i c log hs (Some (o, T1.*2)) ph_release
| ti_commit T1 w todo fr c' : runs i s_commit c (T1 ++ commit_rest (Z.of_nat i) w todo ++ fr) (r_set true) c' →
    thread_rep (at_answers c' []) [] → log = [] → Forall (λ e, e.2 = a_unit ∧ ∃ a, e.1 = c_free a) fr →
    apart (locks_of todo) → Forall (held_good tables own ha) todo →
    (∀ x, x ∈ todo → writes_back x = true → ha !! hd_addr x = Some (data_ptr_ (hd_record x)) ∧
       ∃ ac, ac ∈ lc_accesses c ∧ access_addr_ ac = hd_addr x ∧ access_type_ ac = hd_type x) →
    (w = true → ∃ x todo', todo = x :: todo' ∧ writes_back x = true ∧ hc !! hd_addr x = ha !! hd_addr x) →
    task_inv ha hc i c log hs (Some (s_commit, T1.*2)) (ph_commit w todo).

(** The records that a commit under way may not have written. *)
Definition unwritten (g : list held * phase) (a : GlobalAddress) : Prop :=
  match g.2 with ph_commit _ todo => ∃ x, x ∈ todo ∧ writes_back x = true ∧ hd_addr x = a | _ => False end.

Record fine_inv y l ha hc v gs : Prop := {
  fi_mem : mem_is (fn_mem y) l hc;
  fi_db : db_ok tables fuel k own m ha;
  fi_static a : owned a → ha !! a = h0 !! a;
  fi_length a bs : ha !! a = Some bs → ∃ bs', hc !! a = Some bs' ∧ len bs' = len bs;
  fi_same a : (∀ i, ¬ unwritten (gs i) a) → hc !! a = ha !! a;
  fi_task i : task_inv ha hc i (fn_threads y i) (vw_logs v i) (gs i).1 (fn_tasks y i) (gs i).2;
  fi_view i : vw_tasks v i = fst <$> fn_tasks y i;
  fi_claims : claims_ok l gs;
}.

(** ** What the steps of another thread leave *)
Lemma session_ext ha ha' c log hs :
  session ha c log hs → (∀ x, x ∈ hs → ha' !! hd_addr x = ha !! hd_addr x) →
  (∀ x, held_good tables own ha x → held_good tables own ha' x) → session ha' c log hs.
Proof.
  intros [R E Hs Hg] Hx Hgood. split; [done| |done|by eapply Forall_impl].
  by eapply ref_log_ext.
Qed.

Lemma locks_of_claim x hs : x ∈ hs → (hd_type x, hd_addr x) ∈ locks_of hs.
Proof. intros. apply list_elem_of_fmap. by exists x. Qed.

Lemma task_inv_ext ha hc ha' hc' i c log hs tk ph :
  task_inv ha hc i c log hs tk ph →
  (∀ e, e ∈ claims (hs, ph) → ha' !! e.2 = ha !! e.2 ∧ (hc !! e.2 = ha !! e.2 → hc' !! e.2 = ha' !! e.2)) →
  (∀ x, held_good tables own ha x → held_good tables own ha' x) → task_inv ha' hc' i c log hs tk ph.
Proof.
  intros T Hcl Hg. assert (∀ hs', (∀ x, x ∈ hs' → (hd_type x, hd_addr x) ∈ claims (hs, ph)) → ∀ x, x ∈ hs' → ha' !! hd_addr x = ha !! hd_addr x) as He
    by (intros hs' Hin x Hx; by apply (Hcl (hd_type x, hd_addr x)), Hin).
  destruct T as [Hs|id key ty t cols T1 T2 [Hs] F|id key ty t cols T a [Hs] Ea Hn|o T r c' hs' Hs Hr Hrep Href Hne Hg'| |
    T1 w todo fr c' Hr Hrep Hl Hf Ha Hgt Hw Hd].
  - constructor. eapply session_ext; [done|apply He|done]. intros x. apply locks_of_claim.
  - econstructor; [split; [eapply session_ext; [done|apply He|done]|done..]|done]. intros x. apply locks_of_claim.
  - econstructor; [split; [eapply session_ext; [done|apply He|done]|done..]|done..]. intros x Hx. apply elem_of_app. left.
    by apply locks_of_claim.
  - pose proof (He hs' (λ x, locks_of_claim x hs')) as He'. econstructor; [|done..| | |]; [|by eapply ref_op_ext|done|by eapply Forall_impl].
    eapply session_ext; [done| |done]. intros x Hx.
    pose proof (ref_op_addrs tables m ha hs o) as Hp. rewrite Href in Hp. cbn in Hp.
    assert (hd_addr x ∈ hd_addr <$> hs') as Hi by (eapply elem_of_prefix; [|exact Hp]; by apply list_elem_of_fmap_2).
    apply list_elem_of_fmap in Hi as (x' & -> & Hx'). by apply He'.
  - by econstructor.
  - assert (∀ x, x ∈ todo → writes_back x = true → (hd_type x, hd_addr x) ∈ claims (hs, ph_commit w todo)) as Hc
      by (intros x Hx Hwx; by apply exclusive_claims_elem, writes_back_lock).
    econstructor; [done..| | |]; [by eapply Forall_impl| |].
    + intros x Hx Hwx. destruct (Hw x Hx Hwx) as [E ?]. split; [|done]. etransitivity; [exact (proj1 (Hcl _ (Hc x Hx Hwx)))|exact E].
    + intros Ew. destruct (Hd Ew) as (x & todo' & -> & Hwx & E). exists x, todo'. split_and!; [done..|].
      apply (Hcl _ (Hc x (list_elem_of_here _ _) Hwx)), E.
Qed.

(** Thread [i] does a step: the other threads keep what they know. *)
Lemma fine_inv_update y l ha hc v gs y' l' ha' hc' v' i c tk log g :
  fine_inv y l ha hc v gs → mem_is (fn_mem y') l' hc' → db_ok tables fuel k own m ha' → (∀ a, owned a → ha' !! a = ha !! a) →
  (∀ a bs, ha' !! a = Some bs → ∃ bs', hc' !! a = Some bs' ∧ len bs' = len bs) →
  (∀ a, (∀ j, ¬ unwritten (<[i := g]> gs j) a) → hc' !! a = ha' !! a) →
  (∀ j e, j ≠ i → e ∈ claims (gs j) → ha' !! e.2 = ha !! e.2 ∧ (hc !! e.2 = ha !! e.2 → hc' !! e.2 = ha' !! e.2)) →
  (∀ x, held_good tables own ha x → held_good tables own ha' x) →
  (∀ j, fn_threads y' j = (<[i := c]> (fn_threads y)) j) → (∀ j, fn_tasks y' j = (<[i := tk]> (fn_tasks y)) j) →
  (∀ j, vw_logs v' j = (<[i := log]> (vw_logs v)) j) → (∀ j, vw_tasks v' j = (<[i := fst <$> tk]> (vw_tasks v)) j) →
  task_inv ha' hc' i c log g.1 tk g.2 → claims_ok l' (<[i := g]> gs) →
  fine_inv y' l' ha' hc' v' (<[i := g]> gs).
Proof.
  intros [_ _ St _ _ It Iv _] Hm D Hst Hlen Hsame Hkeep Hgood Ec Et El Ev Ht Hcl.
  split; [done|done|intros a Ha; by rewrite Hst, St|done|done| | |done]; intros j; rewrite ?El, ?Ev, ?Ec, ?Et;
    (destruct (decide (i = j)) as [<-|Hne]; [by rewrite !fn_lookup_insert|rewrite !fn_lookup_insert_ne by done; [..]]).
  - eapply task_inv_ext; [apply It| |done]. intros e He. apply (Hkeep j e); [done|]. by destruct (gs j).
  - apply Iv.
Qed.

(** ** The outcome of a turn *)
Definition turn_done (t : turn) v ha (e : event) (y' : fine S) : Prop :=
  ∃ l' ha' hc' gs', fine_inv y' l' ha' hc' (observe t e v).2 gs' ∧ serial tables m (observe t e v).1 ha = Some ha'.

Lemma fn_insert_same {A} (f : nat → A) i j : <[i := f i]> f j = f j.
Proof. destruct (decide (i = j)) as [<-|]; [by rewrite fn_lookup_insert|by rewrite fn_lookup_insert_ne]. Qed.

(** A call of thread [i]. *)
Lemma turn_call y l ha hc v gs i o as_ as' s' l' hc' g :
  fine_inv y l ha hc v gs → fn_tasks y i = Some (o, as_) → mem_is s' l' hc' →
  (∀ a bs, ha !! a = Some bs → ∃ bs', hc' !! a = Some bs' ∧ len bs' = len bs) →
  (∀ a, (∀ j, ¬ unwritten (<[i := g]> gs j) a) → hc' !! a = ha !! a) →
  (∀ j e, j ≠ i → e ∈ claims (gs j) → hc !! e.2 = ha !! e.2 → hc' !! e.2 = ha !! e.2) →
  task_inv ha hc' i (fn_threads y i) (vw_logs v i) g.1 (Some (o, as')) g.2 → claims_ok l' (<[i := g]> gs) →
  turn_done (step_op i) v ha ev_call (mk_fine s' (fn_threads y) (<[i := Some (o, as')]> (fn_tasks y))).
Proof.
  intros I Et Hm Hlen Hsame Hkeep Ht Hc. exists l', ha, hc', (<[i := g]> gs). split; [|done]. cbn [observe snd].
  eapply (fine_inv_update y l ha hc v gs); [exact I|exact Hm|by apply I|done|done|done| |done| | | | |exact Ht|done]; cbn [fn_threads fn_tasks].
  - intros j e Hj He. split; [done|by apply (Hkeep j)].
  - intros j. by rewrite fn_insert_same.
  - done.
  - intros j. by rewrite fn_insert_same.
  - intros j. cbn. rewrite <-(fn_insert_same (vw_tasks v) i j), (fi_view _ _ _ _ _ _ I i), Et. done.
Qed.

(** The heaps do not change. *)
Lemma turn_call_quiet y l ha hc v gs i o as_ as' s' l' g :
  fine_inv y l ha hc v gs → fn_tasks y i = Some (o, as_) → mem_is s' l' hc → (∀ a, unwritten (gs i) a → unwritten g a) →
  task_inv ha hc i (fn_threads y i) (vw_logs v i) g.1 (Some (o, as')) g.2 → claims_ok l' (<[i := g]> gs) →
  turn_done (step_op i) v ha ev_call (mk_fine s' (fn_threads y) (<[i := Some (o, as')]> (fn_tasks y))).
Proof.
  intros I Et Hm Hu Ht Hc. eapply (turn_call y l ha hc); [done|done|done|by apply I| |done|done|done].
  intros a Ha. apply (fi_same _ _ _ _ _ _ I). intros j Hj. apply (Ha j). destruct (decide (i = j)) as [<-|].
  - rewrite fn_lookup_insert. by apply Hu.
  - by rewrite fn_lookup_insert_ne.
Qed.

(** The operation of thread [i] ends. *)
Lemma turn_end y l ha hc v gs i o as_ r c' hs' :
  fine_inv y l ha hc v gs → fn_tasks y i = Some (o, as_) → (∀ a, ¬ unwritten (gs i) a) →
  session ha c' (match o with s_op o => match r with r_refused => [] | _ => vw_logs v i ++ [(o, r)] end | _ => vw_logs v i end) hs' →
  claims_ok l (<[i := (hs', ph_idle)]> gs) →
  turn_done (step_op i) v ha (ev_end r) (mk_fine (fn_mem y) (<[i := c']> (fn_threads y)) (<[i := None]> (fn_tasks y))).
Proof.
  intros I Et Hu Hs Hc. exists l, ha, hc, (<[i := (hs', ph_idle)]> gs). split; [|done].
  eapply (fine_inv_update y l ha hc v gs); [exact I|by apply I|by apply I|done|by apply I| |done|done|done|done| | |by constructor|done].
  - intros a Ha. apply (fi_same _ _ _ _ _ _ I). intros j Hj. destruct (decide (i = j)) as [<-|]; [by apply (Hu a)|].
    apply (Ha j). by rewrite fn_lookup_insert_ne.
  - intros j. cbn [observe snd vw_logs]. pose proof (fi_view _ _ _ _ _ _ I i) as Ev. rewrite Et in Ev. cbn in Ev. rewrite Ev.
    destruct o; [done|by rewrite fn_insert_same..].
  - done.
Qed.

Lemma resume_call y i o T1 cl x T2 r c' (Q : event → fine S → Prop) :
  runs i o (fn_threads y i) (T1 ++ (cl, x) :: T2) r c' →
  wpd (exec_call cl) (λ x' s', Q ev_call (mk_fine s' (fn_threads y) (<[i := Some (o, T1.*2 ++ [x'])]> (fn_tasks y)))) (fn_mem y) →
  wpd (resume tables fuel i o T1.*2) Q y.
Proof.
  intros Hr HQ. destruct (trace_prefix _ _ _ _ _ _ Hr) as (e & w & E & En). unfold wpd, resume. rewrite E, En.
  unfold wpd in HQ. by destruct (exec_call cl (fn_mem y)).
Qed.

Lemma resume_end y i o T r c' (Q : event → fine S → Prop) :
  runs i o (fn_threads y i) T r c' →
  Q (ev_end r) (mk_fine (fn_mem y) (<[i := c']> (fn_threads y)) (<[i := None]> (fn_tasks y))) →
  wpd (resume tables fuel i o T.*2) Q y.
Proof.
  intros Hr HQ. unfold runs in Hr. rewrite <-(app_nil_r T) in Hr. pose proof (trace_prefix _ _ _ _ _ _ Hr) as E. cbn beta iota in E.
  unfold wpd, resume. rewrite E. by destruct c'.
Qed.

(** ** The steps of a search *)
Lemma abort_calls_shape t hs :
  Forall (λ e, e.2 = a_unit ∧ ((∃ a n, e.1 = c_unlock t a n) ∨ ∃ a, e.1 = c_free a)) (hs ≫= abort_calls t).
Proof.
  apply Forall_forall. intros e He. apply list_elem_of_bind in He as (z & He & Hz).
  unfold abort_calls in He. apply elem_of_cons in He as [->|He]; [split; [done|left; by eexists _, _]|].
  destruct (_ =? _); [|by apply elem_of_nil in He]. apply list_elem_of_singleton in He as ->. split; [done|right; by eexists].
Qed.

Lemma heaps_agree y l ha hc v gs i e : fine_inv y l ha hc v gs → e ∈ claims (gs i) → (∀ a, ¬ unwritten (gs i) a) →
  hc !! e.2 = ha !! e.2.
Proof.
  intros I He Hu. apply (fi_same _ _ _ _ _ _ I). intros j Hj. destruct (decide (i = j)) as [<-|Hne]; [by eapply Hu|].
  unfold unwritten in Hj. destruct (gs j) as [hs ph] eqn:Ej. cbn in Hj. destruct ph as [| | | | |w todo]; try done.
  destruct Hj as (x & Hx & Hw & Ea). pose proof (writes_back_lock x Hw) as Hl.
  destruct (cl_others _ _ (fi_claims _ _ _ _ _ _ I) i j e (hd_type x, hd_addr x) Hne He) as [_ Hs]; [|done|cbn in Hs; congruence].
  rewrite Ej. by apply exclusive_claims_elem.
Qed.

Lemma heaps_agree_owned y l ha hc v gs a : fine_inv y l ha hc v gs → owned a → hc !! a = ha !! a.
Proof.
  intros I (n & Hn & Ha). apply (fi_same _ _ _ _ _ _ I). intros j Hj. pose proof (fi_task _ _ _ _ _ _ I j) as Ht.
  unfold unwritten in Hj. inversion Ht as [| | | | |T1 w todo fr c' _ _ _ _ _ Hg _ _ Etk Eph]; rewrite <-?Eph in Hj;
    repeat match goal with E : _ = (gs j).2 |- _ => rewrite <-E in Hj; clear E end; try done.
  destruct Hj as (x & Hx & _ & <-). destruct (proj1 (Forall_forall _ _) Hg x Hx) as [_ _ _ Hown]. by apply (Hown n).
Qed.

Section search.
Context (i : nat) (c : local) (log : txn_log) (hs : list held) (id key ty : Z) (t : Table) (cols : list ColumnInfo).
#[local] Abbreviation addr := (newest (m (Z.to_nat id) key)).
#[local] Abbreviation op := (s_op (t_search id key ty)).

Lemma table_get ha T : searching ha c log hs id key ty t cols T → arr_get tables id = Some t.
Proof. intros [_ [Hid _] _ Ht _ _]. rewrite <-(Z2Nat.id id) by lia. by rewrite arr_get_lookup. Qed.

Lemma search_not_found ha T : searching ha c log hs id key ty t cols T → addr = ga_Null → runs i op c T r_not_found c.
Proof.
  intros H Ha. pose proof (table_get _ _ H). destruct H. eapply trace_bind_ret; [by eapply trace_not_found|apply trace_ret].
Qed.

Lemma search_refused ha T (w : Z) : searching ha c log hs id key ty t cols T → addr ≠ ga_Null → w ≠ 0 →
  ∃ c', runs i op c (T ++ lock_call (Z.of_nat i) id ty t addr w :: (hs ≫= abort_calls (Z.of_nat i))) r_refused c' ∧
    thread_rep (at_answers c' []) [].
Proof.
  intros H Ha Hv. pose proof (table_get _ _ H). destruct H as [[R _ _ Hg] _ _ _ _ Tr].
  destruct (trace_refused tables fuel (Z.of_nat i) id key ty t addr T ltac:(done) Tr _ _ hs [] R w Ha Hv) as [recs' Hr].
  { eapply Forall_impl; [exact Hg|]. by intros x []. }
  exists (mk_local recs' []). split; [|by split; constructor]. eapply trace_bind_ret; [exact Hr|apply trace_ret].
Qed.

Lemma search_more ha T : searching ha c log hs id key ty t cols T → ∃ T' r c', runs i op c (T ++ T') r c'.
Proof.
  intros H. destruct (decide (addr = ga_Null)) as [E|E].
  - exists [], r_not_found, c. rewrite app_nil_r. by eapply search_not_found.
  - destruct (search_refused ha T 1 H E ltac:(done)) as (c' & Hr & _). by eexists _, _, _.
Qed.

Lemma step_search y l ha hc v gs T1 T2 :
  fine_inv y l ha hc v gs → gs i = (hs, ph_search) → fn_threads y i = c → vw_logs v i = log →
  fn_tasks y i = Some (op, T1.*2) →
  searching ha c log hs id key ty t cols (T1 ++ T2) → Forall (static_read h0 owned) T2 →
  wpd (resume tables fuel i op T1.*2) (turn_done (step_op i) v ha) y.
Proof.
  intros I Eg Ec El Et H F. pose proof H as [Hs Ho Hroom Htb Hsc Htr].
  assert (∀ a, ¬ unwritten (gs i) a) as Hu by (intros a Ha; unfold unwritten in Ha; by rewrite Eg in Ha).
  destruct T2 as [|[cl x] T2].
  - rewrite app_nil_r in H, Htr. destruct (decide (addr = ga_Null)) as [En|En].
    + eapply resume_end; [rewrite Ec; by eapply search_not_found|].
      eapply (turn_end y l ha hc v gs i op _ r_not_found c hs); [done|done|done| |].
      * destruct Hs as [R E Hse Hg]. rewrite El. split; [done| | |done].
        { eapply ref_log_app; [exact E|]. cbn. by destruct (ga_eqb_spec addr ga_Null). }
        { apply Forall_app. split; [done|]. by constructor. }
      * apply claims_same; [apply I|]. by rewrite Eg.
    + destruct (search_refused ha T1 1 H En ltac:(done)) as (c1 & Hr1 & _).
      eapply resume_call; [rewrite Ec; exact Hr1|]. cbn [lock_call].
      eapply wp_call_try; [apply I|]. intros s' w Hw.
      destruct (lk_try (lock_of ty) (Z.of_nat i) addr l) as [l'|] eqn:Etry; destruct Hw as [Hv Hm'].
      * subst w. eapply (turn_call_quiet y l ha hc v gs i _ _ _ s' l' (hs, ph_locked ty addr)); [done|done|done|intros a Ha; by apply Hu in Ha| |].
        { rewrite Ec, El. by eapply ti_locked. }
        { eapply claims_grant; [apply I|exact Etry|by rewrite Eg]. }
      * destruct (search_refused ha T1 w H En Hv) as (c2 & Hr2 & Hrep2).
        eapply (turn_call_quiet y l ha hc v gs i _ _ _ s' l (hs, ph_release)); [done|done|done|intros a Ha; by apply Hu in Ha| |].
        { rewrite Ec. change (T1.*2 ++ [a_int w]) with (T1.*2 ++ [lock_call (Z.of_nat i) id ty t addr w].*2). rewrite <-fmap_app.
          eapply ti_release; [rewrite <-app_assoc; exact Hr2|done| |left; split; [by eexists|done]].
          apply abort_calls_shape. }
        { eapply claims_keep; [apply I|done| |constructor]. by intros e ?%elem_of_nil. }
  - destruct (search_more ha _ H) as (T3 & r & c' & Hr). rewrite <-app_assoc in Hr.
    eapply resume_call; [rewrite Ec; exact Hr|]. apply Forall_cons in F as [(a & bs & off & n & E & Ha & Hb & R1 & R2 & R3) F].
    injection E as -> ->.
    assert (hc !! a = Some bs) as Hb' by (rewrite (heaps_agree_owned y l ha hc v gs a I Ha), (fi_static _ _ _ _ _ _ I a Ha); done).
    eapply wp_call_read; [apply I|exact Hb'|done..|]. intros s' Hm'.
    eapply (turn_call_quiet y l ha hc v gs i _ _ _ s' l (hs, ph_search)); [done|done|done|intros b Hub; by apply Hu in Hub| |].
    + rewrite Ec, El. set (e := (c_read (GADD a off) n, a_bytes (slice off n bs))).
      change (T1.*2 ++ [_]) with (T1.*2 ++ [e].*2). rewrite <-fmap_app. eapply ti_search; [|exact F]. by rewrite <-app_assoc.
    + apply claims_same; [apply I|by rewrite Eg].
Qed.

Lemma step_locked y l ha hc v gs T :
  fine_inv y l ha hc v gs → gs i = (hs, ph_locked ty addr) → fn_threads y i = c → vw_logs v i = log →
  fn_tasks y i = Some (op, T.*2 ++ [a_int 0]) →
  searching ha c log hs id key ty t cols T → addr ≠ ga_Null →
  wpd (resume tables fuel i op (T.*2 ++ [a_int 0])) (turn_done (step_op i) v ha) y.
Proof.
  intros I Eg Ec El Et H Hn. pose proof (table_get _ _ H) as Hget. pose proof H as [Hs [Hid Hty] Hroom Htb Hsc Htr]. pose proof Hs as [R E Hse Hg].
  destruct (dk_record _ _ _ _ _ _ (fi_db _ _ _ _ _ _ I) _ _ key Htb Hn) as (bs & Hb & Hl & Hown).
  destruct (fi_mem _ _ _ _ _ _ I) as [Hmem Hlk].
  assert (hc !! addr = Some bs) as Hb'.
  { rewrite <-Hb. apply (heaps_agree y l ha hc v gs i (ty, addr) I); [rewrite Eg; apply elem_of_app; right; by left|].
    intros a Ha. unfold unwritten in Ha. by rewrite Eg in Ha. }
  destruct (gh_block _ _ _ _ Hmem Hb') as (Hva & _ & H25 & _). pose proof (GADD_0 _ Hva) as E0.
  destruct (trace_found tables fuel (Z.of_nat i) id key ty t cols addr T Hget Hsc Htr _ _ hs [] R bs Hn Hroom Hl H25)
    as (r & p & recs' & accs' & Er & Hrec & Esc & Elr & Hr & Hrep).
  assert (runs i op c (T ++ [lock_call (Z.of_nat i) id ty t addr 0; (c_read addr (len bs), a_bytes bs)]) r_found (mk_local recs' accs')) as Hruns
    by (eapply trace_bind_ret; [exact Hr|apply trace_ret]).
  change (T.*2 ++ [a_int 0]) with (T.*2 ++ [lock_call (Z.of_nat i) id ty t addr 0].*2) in *. rewrite <-fmap_app in *.
  eapply resume_call; [rewrite Ec, <-app_assoc; exact Hruns|]. rewrite <-E0 at 1.
  assert (0 < len bs) as Hpos by (rewrite <-Elr; by eapply rec_ok_pos).
  eapply wp_call_read; [apply I|exact Hb'|lia|exact Hpos|lia|]. intros s' Hm'. rewrite slice_all.
  eapply (turn_call_quiet y l ha hc v gs i _ _ _ s' l (hs, ph_ready (hs ++ [mk_held ty addr r]))); [done|done|done|intros a Ha; unfold unwritten in Ha; by rewrite Eg in Ha| |].
  - rewrite Ec, El. cbn [fst snd]. set (e := (c_read addr (len bs), a_bytes bs)).
    match goal with |- context [?l ++ [a_bytes bs]] => change (l ++ [a_bytes bs]) with (l ++ [e].*2) end.
    rewrite <-fmap_app. eapply (ti_ready _ _ _ _ _ _ _ _ r_found); [exact Hs|rewrite <-app_assoc; exact Hruns|exact (Hrep [])| |done|].
    + cbn. destruct (ga_eqb_spec addr ga_Null); [done|]. rewrite Htb. cbn. rewrite Hb. cbn. by rewrite Er.
    + apply Forall_app. split; [done|]. constructor; [|constructor]. split; cbn; [by exists cols| |done|done]. exists bs. by split.
  - apply claims_same; [apply I|]. rewrite Eg. unfold claims. cbn. unfold locks_of. by rewrite fmap_app.
Qed.
End search.

(** ** The steps of the other operations *)
Lemma not_unwritten gs i hs ph : gs i = (hs, ph) → (∀ w todo, ph ≠ ph_commit w todo) → ∀ a, ¬ unwritten (gs i) a.
Proof. intros E Hp a Ha. unfold unwritten in Ha. rewrite E in Ha. cbn in Ha. destruct ph; try done. by eapply Hp. Qed.

Lemma step_ready y l ha hc v gs i o T r c' hs hs' :
  fine_inv y l ha hc v gs → gs i = (hs, ph_ready hs') → fn_tasks y i = Some (s_op o, T.*2) →
  session ha (fn_threads y i) (vw_logs v i) hs → runs i (s_op o) (fn_threads y i) T r c' → thread_rep (at_answers c' []) hs' →
  ref_op tables m ha hs o = (r, hs') → r ≠ r_refused → Forall (held_good tables own ha) hs' →
  wpd (resume tables fuel i (s_op o) T.*2) (turn_done (step_op i) v ha) y.
Proof.
  intros I Eg Et [_ E Hse _] Hr Hrep Href Hne Hg. eapply resume_end; [exact Hr|].
  eapply (turn_end y l ha hc v gs i _ _ r c' hs'); [done|done|by eapply not_unwritten| |].
  - cbv beta iota. assert (match r with r_refused => [] | _ => vw_logs v i ++ [(o, r)] end = vw_logs v i ++ [(o, r)]) as -> by by destruct r.
    split; [done|by eapply ref_log_app| |done]. apply Forall_app. split; [done|]. by constructor.
  - apply claims_same; [apply I|by rewrite Eg].
Qed.

Lemma empty_session ha c' : thread_rep (at_answers c' []) [] → session ha c' [] [].
Proof. by split. Qed.

Lemma step_release y l ha hc v gs i hs o T1 T2 r c' :
  fine_inv y l ha hc v gs → gs i = (hs, ph_release) → fn_tasks y i = Some (o, T1.*2) →
  runs i o (fn_threads y i) (T1 ++ T2) r c' → thread_rep (at_answers c' []) [] →
  Forall (λ e, e.2 = a_unit ∧ ((∃ a n, e.1 = c_unlock (Z.of_nat i) a n) ∨ ∃ a, e.1 = c_free a)) T2 →
  ((∃ o', o = s_op o') ∧ r = r_refused ∨ o = s_abort ∧ vw_logs v i = []) →
  wpd (resume tables fuel i o T1.*2) (turn_done (step_op i) v ha) y.
Proof.
  intros I Eg Et Hr Hrep F Ho. pose proof (not_unwritten gs i _ _ Eg ltac:(done)) as Hu.
  destruct T2 as [|[cl x] T2].
  - rewrite app_nil_r in Hr. eapply resume_end; [exact Hr|].
    eapply (turn_end y l ha hc v gs i _ _ r c' []); [done|done|done| |].
    + destruct Ho as [[[o' ->] ->]|[-> ->]]; by apply empty_session.
    + eapply claims_keep; [apply I|done| |constructor]. by intros e ?%elem_of_nil.
  - apply Forall_cons in F as [[Ex Hcl] F]. cbn in Ex, Hcl. subst x. eapply resume_call; [exact Hr|].
    assert (∀ s' l', mem_is s' l' hc → (∀ j e, j ≠ i → holds l j e → holds l' j e) →
      turn_done (step_op i) v ha ev_call (mk_fine s' (fn_threads y) (<[i := Some (o, T1.*2 ++ [a_unit])]> (fn_tasks y)))) as Hd.
    { intros s' l' Hm' Hh. eapply (turn_call_quiet y l ha hc v gs i _ _ _ s' l' (hs, ph_release)); [done|done|done|intros a Ha; by apply Hu in Ha| |].
      - change (T1.*2 ++ [a_unit]) with (T1.*2 ++ [(cl, a_unit)].*2). rewrite <-fmap_app.
        eapply ti_release; [rewrite <-app_assoc; exact Hr|done|done|done].
      - eapply claims_keep; [apply I|done| |constructor]. by intros e ?%elem_of_nil. }
    destruct Hcl as [(a & n & ->)|[a ->]].
    + eapply wp_call_unlock; [apply I|]. intros s' Hm'. eapply Hd; [exact Hm'|]. intros. by apply holds_release.
    + eapply wp_call_free; [apply I|]. intros s' Hm'. by eapply Hd.
Qed.

(** ** The steps of a commit *)
Section commit.
Context (y : fine S) (l : lk_state) (ha hc : heap) (v : view) (gs : nat → list held * phase) (i : nat) (hs : list held).
Context (T1 : calls) (w : bool) (todo : list held) (fr : calls) (c' : local).
Context (I : fine_inv y l ha hc v gs) (Eg : gs i = (hs, ph_commit w todo)) (Et : fn_tasks y i = Some (s_commit, T1.*2)).
Context (Hr : runs i s_commit (fn_threads y i) (T1 ++ commit_rest (Z.of_nat i) w todo ++ fr) (r_set true) c').
Context (Hrep : thread_rep (at_answers c' []) []) (Hlog : vw_logs v i = []).
Context (Hfr : Forall (λ e, e.2 = a_unit ∧ ∃ a, e.1 = c_free a) fr).
Context (Ha : apart (locks_of todo)) (Hg : Forall (held_good tables own ha) todo).
Context (Hw : ∀ x, x ∈ todo → writes_back x = true → ha !! hd_addr x = Some (data_ptr_ (hd_record x)) ∧
  ∃ ac, ac ∈ lc_accesses (fn_threads y i) ∧ access_addr_ ac = hd_addr x ∧ access_type_ ac = hd_type x).
Context (Hd : w = true → ∃ x todo', todo = x :: todo' ∧ writes_back x = true ∧ hc !! hd_addr x = ha !! hd_addr x).

Lemma commit_free_or_end : todo = [] → wpd (resume tables fuel i s_commit T1.*2) (turn_done (step_op i) v ha) y.
Proof.
  intros E. rewrite E in *. cbn [commit_rest app] in Hr.
  assert (∀ a, ¬ unwritten (gs i) a) as Hu.
  { intros a Hu. unfold unwritten in Hu. rewrite Eg in Hu. destruct Hu as (x & Hx & _). by apply elem_of_nil in Hx. }
  destruct fr as [|[cl x] fr'].
  - rewrite app_nil_r in Hr. eapply resume_end; [exact Hr|].
    eapply (turn_end y l ha hc v gs i _ _ _ c' []); [done|done|done|rewrite Hlog; by apply empty_session|].
    eapply claims_keep; [apply I|done| |constructor]. by intros e ?%elem_of_nil.
  - apply Forall_cons in Hfr as [[Ex [a Ecl]] Hfr']. cbn in Ex, Ecl. subst x cl. eapply resume_call; [exact Hr|].
    eapply wp_call_free; [apply I|]. intros s' Hm'.
    eapply (turn_call_quiet y l ha hc v gs i _ _ _ s' l (hs, ph_commit w [])); [done|done|done|by rewrite Eg| |].
    + change (T1.*2 ++ [a_unit]) with (T1.*2 ++ [(c_free a, a_unit)].*2). rewrite <-fmap_app.
      eapply ti_commit; [rewrite <-app_assoc; exact Hr|done..].
    + apply claims_same; [apply I|by rewrite Eg].
Qed.

(** The record of the first access is written. *)
Lemma commit_write x todo' : todo = x :: todo' → w = false → writes_back x = true →
  wpd (resume tables fuel i s_commit T1.*2) (turn_done (step_op i) v ha) y.
Proof.
  intros E Ew Hwx. pose proof Hg as Hg'. rewrite E in Hg'. apply Forall_cons in Hg' as [[Hrec _ _ _] _].
  assert (x ∈ todo) as Hx by (rewrite E; apply list_elem_of_here).
  destruct (Hw x Hx Hwx) as [Eha _]. destruct (fi_length _ _ _ _ _ _ I _ _ Eha) as (bs & Ehc & Hl).
  rewrite E, Ew in Hr. cbn [commit_rest] in Hr. unfold commit_calls at 1 in Hr. rewrite Hwx in Hr. cbn [app] in Hr.
  eapply resume_call; [exact Hr|]. destruct Hrec as [cols Hrec]. pose proof (rec_ok_pos _ _ Hrec).
  eapply wp_call_write; [apply I|exact Ehc|done|done|]. intros s' Hm'.
  eapply (turn_call y l ha hc v gs i _ _ _ s' l _ (hs, ph_commit true todo)); [done|done|exact Hm'| | | | |].
  - intros a bs' Hb. destruct (decide (hd_addr x = a)) as [<-|Hne].
    + rewrite lookup_insert_eq. eexists. split; [done|]. congruence.
    + rewrite lookup_insert_ne by done. by apply (fi_length _ _ _ _ _ _ I).
  - intros a Hu. destruct (decide (hd_addr x = a)) as [<-|Hne]; [by rewrite lookup_insert_eq|].
    rewrite lookup_insert_ne by done. apply (fi_same _ _ _ _ _ _ I). intros j Hj. apply (Hu j).
    destruct (decide (i = j)) as [<-|]; [|by rewrite fn_lookup_insert_ne]. rewrite fn_lookup_insert. by rewrite Eg in Hj.
  - intros j e Hj He E'. destruct (decide (hd_addr x = e.2)) as [Ex|Hne]; [|by rewrite lookup_insert_ne].
    rewrite <-Ex, lookup_insert_eq. done.
  - cbn [fst snd]. set (e := (c_write (hd_addr x) (data_ptr_ (hd_record x)), a_unit)).
    change (T1.*2 ++ [a_unit]) with (T1.*2 ++ [e].*2). rewrite <-fmap_app.
    eapply ti_commit; [|done|done|exact Hfr|done|done|done|].
    + rewrite <-app_assoc, E. exact Hr.
    + intros _. exists x, todo'. split_and!; [done|done|]. by rewrite lookup_insert_eq.
  - apply claims_same; [apply I|by rewrite Eg].
Qed.

(** Its lock is released. *)
Lemma commit_unlock x todo' : todo = x :: todo' → (writes_back x = true → w = true) →
  wpd (resume tables fuel i s_commit T1.*2) (turn_done (step_op i) v ha) y.
Proof.
  intros E Ewx. pose proof Hg as Hg'. rewrite E in Hg'. apply Forall_cons in Hg' as [_ Hg'].
  assert (runs i s_commit (fn_threads y i) (T1 ++ unlock_call (Z.of_nat i) x :: commit_rest (Z.of_nat i) false todo' ++ fr) (r_set true) c') as Hr'.
  { rewrite E in Hr. cbn [commit_rest] in Hr. assert (commit_rest (Z.of_nat i) false todo' = todo' ≫= commit_calls (Z.of_nat i)) as -> by by destruct todo'.
    unfold commit_calls at 1 in Hr. destruct w; [exact Hr|]. destruct (writes_back x); [by specialize (Ewx eq_refl)|exact Hr]. }
  eapply resume_call; [exact Hr'|]. eapply wp_call_unlock; [apply I|]. intros s' Hm'.
  eapply (turn_call y l ha hc v gs i _ _ _ s' _ hc (hs, ph_commit false todo')); [done|done|exact Hm'|apply I| |done| |].
  - intros a Hu. destruct (decide (writes_back x = true ∧ hd_addr x = a)) as [[Hwx <-]|Hn].
    + destruct (Hd (Ewx Hwx)) as (x' & todo2 & E2 & _ & Eq). rewrite E in E2. by injection E2 as <- _.
    + apply (fi_same _ _ _ _ _ _ I). intros j Hj. destruct (decide (i = j)) as [<-|]; [|apply (Hu j); by rewrite fn_lookup_insert_ne].
      apply (Hu i). rewrite fn_lookup_insert. unfold unwritten in Hj |- *. rewrite Eg in Hj. cbn in Hj |- *.
      destruct Hj as (z & Hz & Hwz & Ez). rewrite E in Hz. apply elem_of_cons in Hz as [->|Hz]; [by destruct Hn|by exists z].
  - cbn [fst snd]. change (T1.*2 ++ [a_unit]) with (T1.*2 ++ [unlock_call (Z.of_nat i) x].*2). rewrite <-fmap_app.
    eapply ti_commit; [rewrite <-app_assoc; exact Hr'|done|done|exact Hfr| |done| |done].
    + rewrite E in Ha. by inversion Ha.
    + intros z Hz. apply Hw. rewrite E. by right.
  - eapply claims_release; [apply I|rewrite Eg, E; done|by rewrite <-E].
Qed.

Lemma step_commit : wpd (resume tables fuel i s_commit T1.*2) (turn_done (step_op i) v ha) y.
Proof.
  assert (todo = [] ∨ ∃ x todo', todo = x :: todo') as [E|(x & todo' & E)]
    by (clear; destruct todo; [by left|right; by eexists _, _]).
  { by apply commit_free_or_end. }
  assert (w = true ∨ w = false) as [Ew|Ew] by (clear; destruct w; auto); [by eapply commit_unlock|].
  destruct (writes_back x) eqn:Ex; [by eapply commit_write|]. eapply commit_unlock; [exact E|]. by rewrite Ex.
Qed.
End commit.

Lemma wp_step y l ha hc v gs i o as_ :
  fine_inv y l ha hc v gs → fn_tasks y i = Some (o, as_) →
  wpd (resume tables fuel i o as_) (turn_done (step_op i) v ha) y.
Proof.
  intros I Et. pose proof (fi_task _ _ _ _ _ _ I i) as Ht. rewrite Et in Ht. destruct (gs i) as [hs ph] eqn:Eg. cbn in Ht.
  inversion Ht; subst.
  - by eapply step_search.
  - by eapply step_locked.
  - by eapply step_ready.
  - by eapply step_release.
  - by eapply step_commit.
Qed.

(** ** An operation begins *)
Lemma turn_begin y l ha hc v gs i o g v' ha' cs :
  fine_inv y l ha hc v gs → db_ok tables fuel k own m ha' → (∀ a, owned a → ha' !! a = ha !! a) →
  (∀ a bs, ha' !! a = Some bs → ∃ bs', hc !! a = Some bs' ∧ len bs' = len bs) →
  (∀ a, (∀ j, ¬ unwritten (<[i := g]> gs j) a) → hc !! a = ha' !! a) →
  (∀ j e, j ≠ i → e ∈ claims (gs j) → ha' !! e.2 = ha !! e.2) →
  (∀ x, held_good tables own ha x → held_good tables own ha' x) →
  observe (begin_op i o) ev_begun v = (cs, v') → serial tables m cs ha = Some ha' →
  (∀ j, j ≠ i → vw_logs v' j = vw_logs v j) → vw_tasks v' = <[i := Some o]> (vw_tasks v) →
  task_inv ha' hc i (fn_threads y i) (vw_logs v' i) g.1 (Some (o, [])) g.2 → claims_ok l (<[i := g]> gs) →
  turn_done (begin_op i o) v ha ev_begun (mk_fine (fn_mem y) (fn_threads y) (<[i := Some (o, [])]> (fn_tasks y))).
Proof.
  intros I D Hst Hlen Hsame Hkeep Hgood Eo Es El Ev Ht Hc. unfold turn_done. rewrite Eo. exists l, ha', hc, (<[i := g]> gs). split; [|done].
  eapply (fine_inv_update y l ha hc v gs); [exact I|apply I|done|done|done|done| |done| |done| | |exact Ht|done].
  - intros j e Hj He. pose proof (Hkeep j e Hj He) as E. by rewrite E.
  - intros j. by rewrite fn_insert_same.
  - intros j. destruct (decide (i = j)) as [<-|Hne]; [by rewrite fn_lookup_insert|]. rewrite fn_lookup_insert_ne by done. by apply El.
  - intros j. cbn [snd]. by rewrite Ev.
Qed.

(** Nothing is committed. *)
Lemma turn_begin_quiet y l ha hc v gs i o g v' :
  fine_inv y l ha hc v gs → (∀ a, ¬ unwritten (gs i) a) → observe (begin_op i o) ev_begun v = ([], v') →
  (∀ j, j ≠ i → vw_logs v' j = vw_logs v j) → vw_tasks v' = <[i := Some o]> (vw_tasks v) →
  task_inv ha hc i (fn_threads y i) (vw_logs v' i) g.1 (Some (o, [])) g.2 → claims_ok l (<[i := g]> gs) →
  turn_done (begin_op i o) v ha ev_begun (mk_fine (fn_mem y) (fn_threads y) (<[i := Some (o, [])]> (fn_tasks y))).
Proof.
  intros I Hu Eo El Ev Ht Hc. eapply turn_begin; [exact I|apply I|done|apply I| |done|done|exact Eo|done|done|done|exact Ht|done].
  intros a Ha. apply (fi_same _ _ _ _ _ _ I). intros j Hj. destruct (decide (i = j)) as [<-|Hne]; [by apply (Hu a)|].
  apply (Ha j). by rewrite fn_lookup_insert_ne.
Qed.

Section begins.
Context (y : fine S) (l : lk_state) (ha hc : heap) (v : view) (gs : nat → list held * phase) (i : nat) (hs : list held).
Context (Hblocks : ∀ a bs, h0 !! a = Some bs →
  ga_valid a ∧ a ≠ ga_Null ∧ len bs ≤ 2 ^ 25 ∧ ga_addr a + len bs < 2 ^ 64).
Context (Hindex : tables_rep k h0 tables own m).
Context (I : fine_inv y l ha hc v gs) (Eg : gs i = (hs, ph_idle)) (Hs : session ha (fn_threads y i) (vw_logs v i) hs).
#[local] Abbreviation begun o := (mk_fine (fn_mem y) (fn_threads y) (<[i := Some (o, [])]> (fn_tasks y))).

Lemma idle_unwritten a : ¬ unwritten (gs i) a.
Proof. by eapply not_unwritten. Qed.

Lemma begin_txn_op o : op_ok tables o → may_begin (s_op o) (fn_threads y i) = true →
  turn_done (begin_op i (s_op o)) v ha ev_begun (begun (s_op o)).
Proof.
  intros Ho Hmay. pose proof Hs as [R _ _ Hg].
  assert (∀ g, task_inv ha hc i (fn_threads y i) (vw_logs v i) g.1 (Some (s_op o, [])) g.2 → claims g = locks_of hs →
    turn_done (begin_op i (s_op o)) v ha ev_begun (begun (s_op o))) as Hd.
  { intros g Ht Ec. eapply turn_begin_quiet; [exact I|apply idle_unwritten|done|done|done|exact Ht|].
    apply claims_same; [apply I|by rewrite Eg]. }
  destruct o as [id key ty|n col|n col d].
  - destruct Ho as [Hid Hty]. destruct (lookup_lt_is_Some_2 tables (Z.to_nat id)) as [t Ht]; [lia|].
    destruct (dk_schema _ _ _ _ _ _ (fi_db _ _ _ _ _ _ I) _ _ Ht) as [cols Hsc].
    destruct (looks_up_index h0 owned Hblocks k fuel key (primary_index_ t) (own (Z.to_nat id)) (m (Z.to_nat id))) as (T & Htr & F).
    + by apply (tr_index _ _ _ _ _ Hindex).
    + by apply (dk_fuel _ _ _ _ _ _ (fi_db _ _ _ _ _ _ I)).
    + intros a Ha. exists (Z.to_nat id). split; [lia|done].
    + apply (Hd (hs, ph_search)); [|done]. apply (ti_search _ _ _ _ _ _ id key ty t cols [] T); [|done].
      split; [done|done| |done|done|exact Htr]. cbn in Hmay. apply Z.ltb_lt in Hmay.
      pose proof (thread_rep_length _ _ R) as E. cbn in E |- *. by rewrite <-E.
  - destruct (run_get_local tables fuel own m (Z.of_nat i) n col ha hs _ [] R Hg) as (r & Hne & Href & Hr).
    apply (Hd (hs, ph_ready hs)); [|done]. by apply (ti_ready _ _ _ _ _ _ _ [] r (fn_threads y i)).
  - destruct (run_set_local tables fuel own m (Z.of_nat i) n col d ha hs _ [] R Hg) as (r & c' & hs' & Hne & Href & Hrep & Hg' & El & Hr).
    apply (Hd (hs, ph_ready hs')); [|exact El]. by apply (ti_ready _ _ _ _ _ _ _ [] r c').
Qed.

Lemma begin_abort : turn_done (begin_op i s_abort) v ha ev_begun (begun s_abort).
Proof.
  pose proof Hs as [R _ _ Hg].
  destruct (trace_abort (Z.of_nat i) _ _ hs [] R) as [recs' Hr]; [eapply Forall_impl; [exact Hg|]; by intros x []|].
  eapply (turn_begin_quiet y l ha hc v gs i _ (hs, ph_release)); [exact I|apply idle_unwritten|done| |done| |].
  - intros j Hj. cbn. by rewrite fn_lookup_insert_ne.
  - cbn [fst snd vw_logs]. rewrite fn_lookup_insert.
    apply (ti_release _ _ _ _ _ _ s_abort [] (hs ≫= abort_calls (Z.of_nat i)) (r_set true) (mk_local recs' [])); [|by split; constructor| |by right].
    + eapply trace_bind_ret; [exact Hr|apply trace_ret].
    + apply abort_calls_shape.
  - eapply claims_keep; [apply I|done| |constructor]. by intros e ?%elem_of_nil.
Qed.

Lemma begin_commit : turn_done (begin_op i s_commit) v ha ev_begun (begun s_commit).
Proof.
  pose proof Hs as [R E _ Hg].
  pose proof (cl_apart _ _ (fi_claims _ _ _ _ _ _ I) i) as Hap. rewrite Eg in Hap. unfold claims in Hap. cbn in Hap.
  assert (∀ x, x ∈ hs → writes_back x = true → commit_heap hs ha !! hd_addr x = Some (data_ptr_ (hd_record x))) as Hat
    by (intros; by eapply commit_heap_at).
  destruct (fi_mem _ _ _ _ _ _ I) as [Hmem _].
  assert (Forall small hs) as Hsmall.
  { eapply Forall_impl; [exact Hg|]. intros x [_ (bs & Hb & Hl) Hty _]. split; [done|].
    destruct (fi_length _ _ _ _ _ _ I _ _ Hb) as (bs' & Hb' & Hl'). destruct (gh_block _ _ _ _ Hmem Hb') as (_ & _ & ? & _). lia. }
  destruct (trace_commit (Z.of_nat i) _ _ hs [] R Hsmall) as [recs' Hr].
  assert (∀ a, (∀ x, x ∈ hs → writes_back x = true → hd_addr x ≠ a) → commit_heap hs ha !! a = ha !! a) as Hoth
    by (intros; by apply commit_heap_other).
  eapply (turn_begin y l ha hc v gs i _ (hs, ph_commit false hs) _ (commit_heap hs ha)); [exact I|by apply commit_heap_db; [|apply I]|..].
  - intros a (n & Hn & Ha). apply Hoth. intros x Hx _ Ex. destruct (proj1 (Forall_forall _ _) Hg x Hx) as [_ _ _ Hown].
    rewrite Ex in Hown. by apply (Hown n).
  - intros a bs Hb. destruct (ha !! a) as [bs0|] eqn:Ea.
    + destruct (commit_heap_length tables own hs ha a bs0 Hg Ea) as (bs1 & E1 & El). destruct (fi_length _ _ _ _ _ _ I _ _ Ea) as (bs' & E' & El').
      exists bs'. split; [done|]. congruence.
    + exfalso. rewrite Hoth in Hb; [congruence|]. intros x Hx _ <-.
      destruct (proj1 (Forall_forall _ _) Hg x Hx) as [_ (bs' & ? & _) _ _]. congruence.
  - intros a Hu. rewrite Hoth.
    + apply (fi_same _ _ _ _ _ _ I). intros j Hj. destruct (decide (i = j)) as [<-|Hne]; [by apply (idle_unwritten a)|].
      apply (Hu j). by rewrite fn_lookup_insert_ne.
    + intros x Hx Hw Ex. apply (Hu i). rewrite fn_lookup_insert. by exists x.
  - intros j e Hj He. apply Hoth. intros x Hx Hw Ex. pose proof (writes_back_lock x Hw) as Hl.
    destruct (cl_others _ _ (fi_claims _ _ _ _ _ _ I) i j (hd_type x, hd_addr x) e) as [Hf _]; [done| |done|done|].
    + rewrite Eg. by apply locks_of_claim.
    + cbn in Hf. congruence.
  - intros x Hx. by apply commit_heap_good.
  - done.
  - cbn [serial]. by rewrite E.
  - intros j Hj. cbn. by rewrite fn_lookup_insert_ne.
  - done.
  - cbn [fst snd vw_logs]. rewrite fn_lookup_insert.
    apply (ti_commit _ _ _ _ _ _ [] false hs (hs ≫= free_calls) (mk_local recs' [])); try done.
    + eapply trace_bind_ret; [|apply trace_ret]. cbn [app]. assert (commit_rest (Z.of_nat i) false hs = hs ≫= commit_calls (Z.of_nat i)) as -> by by destruct hs.
      exact Hr.
    + by split; constructor.
    + apply Forall_forall. intros e He. apply list_elem_of_bind in He as (z & He & _). unfold free_calls in He.
      destruct (_ =? _); [|by apply elem_of_nil in He]. apply list_elem_of_singleton in He as ->. split; [done|by eexists].
    + eapply Forall_impl; [exact Hg|]. intros x Hx. by apply commit_heap_good.
    + intros x Hx Hw. split; [by apply Hat|]. destruct R as [Hrel _]. apply list_elem_of_lookup in Hx as [n Hx].
      destruct (Forall2_lookup_r _ _ _ _ _ Hrel Hx) as (ac & Hac & ? & ? & _). exists ac. split_and!; [by eapply list_elem_of_lookup_2|done|done].
  - eapply claims_keep; [apply I|done| |by apply apart_filter]. intros e He. split; [|done]. rewrite Eg.
    apply list_elem_of_In, filter_In in He as [He _]. by apply list_elem_of_In.
Qed.
End begins.

(** ** Any sequence of turns *)
Context (Hblocks : ∀ a bs, h0 !! a = Some bs →
  ga_valid a ∧ a ≠ ga_Null ∧ len bs ≤ 2 ^ 25 ∧ ga_addr a + len bs < 2 ^ 64).
Context (Hindex : tables_rep k h0 tables own m).

Lemma turn_skipped y l ha hc v gs t : fine_inv y l ha hc v gs → turn_done t v ha ev_skipped y.
Proof. intros I. exists l, ha, hc, gs. by destruct t as [i [| |]|]. Qed.

Lemma wp_turn y l ha hc v gs t : fine_inv y l ha hc v gs → turn_ok tables t → wpd (run_turn tables fuel t) (turn_done t v ha) y.
Proof.
  intros I Ht. destruct t as [i o|i]; unfold wpd, run_turn.
  - destruct (fn_tasks y i) as [tk|] eqn:Et; [by eapply turn_skipped|].
    destruct (may_begin o (fn_threads y i)) eqn:Em; [|by eapply turn_skipped].
    pose proof (fi_task _ _ _ _ _ _ I i) as Hti. rewrite Et in Hti. destruct (gs i) as [hs ph] eqn:Eg. cbn in Hti.
    inversion Hti as [Hs| | | | |]; subst. destruct o as [o| |].
    + by eapply begin_txn_op.
    + by eapply begin_commit.
    + by eapply begin_abort.
  - destruct (fn_tasks y i) as [[o as_]|] eqn:Et; [|by eapply turn_skipped]. exact (wp_step y l ha hc v gs i o as_ I Et).
Qed.

Lemma wp_run_turns ts : ∀ y l ha hc v gs, fine_inv y l ha hc v gs → Forall (turn_ok tables) ts →
  wpd (run_turns tables fuel ts) (λ es y', ∃ l' ha' hc' v' gs', fine_inv y' l' ha' hc' v' gs' ∧
    serial tables m (committed ts es v) ha = Some ha') y.
Proof.
  induction ts as [|t ts IH]; intros y l ha hc v gs I Hok.
  { apply wpd_ret. exists l, ha, hc, v, gs. by split. }
  apply Forall_cons in Hok as [Ht Hok]. cbn [run_turns]. wpd_step.
  eapply wpd_mono; [by eapply wp_turn|]. intros e y1 (l1 & ha1 & hc1 & gs1 & I1 & E1). wpd_step.
  eapply wpd_mono; [by eapply IH|]. intros es y2 (l2 & ha2 & hc2 & v2 & gs2 & I2 & E2). wpd_step.
  exists l2, ha2, hc2, v2, gs2. split; [done|]. cbn [committed]. destruct (observe t e v) as [cs v1]. cbn in E1, E2.
  by rewrite serial_app, E1.
Qed.

Lemma unwritten_pending y l ha hc v gs i a : fine_inv y l ha hc v gs → unwritten (gs i) a → commit_pending y i a.
Proof.
  intros I Hu. pose proof (fi_task _ _ _ _ _ _ I i) as Ht. unfold unwritten in Hu. destruct (gs i) as [hs ph]. cbn in Hu, Ht.
  inversion Ht as [| | | | |T1 w todo fr c' _ _ _ _ _ _ Hw _ Etk Eph]; subst; try done.
  destruct Hu as (x & Hx & Hwx & <-). destruct (Hw x Hx Hwx) as [_ (ac & Hac & Ea & Ety)].
  exists T1.*2, ac. split_and!; [done|done|done|]. unfold writes_back in Hwx. lia.
Qed.
End invariant.

(** No thread has begun. *)
Definition new_fine {S} (s : S) : fine S := mk_fine s (λ _, mk_local [] []) (λ _, None).

(** C2: Two-phase locking: with record locks that exclude each other, threads run
    transactions (searches to read, write or delete, reads and writes of columns, commits,
    aborts) and take turns, in any order, at every call of [DSM]: another thread may run
    between any two reads of an index, between the lock of a record and its read, and inside
    a commit or an abort, between the write of a record and its unlock and from one record to
    the next.  Every turn returns.  The transactions whose commits have begun, one after the
    other in the order in which these have begun, then lead from the first memory to the
    present one, save for the records that a commit still under way is to write; and executed
    so, each operation of each of them returns what it has returned.  One call of [DSM] is
    one step; insertions do not occur, and a lock that is held is granted again only to
    read. *)
Theorem two_phase_serialisable {S} {J : Indeterminate} {G : GAlloc S} {L : RecordLocks S} {GH : GHeap S}
    {LS : LockSpec S} {XL : ExclusiveLocks S} tables fuel k own m ts (s : S) h :
  heap_ok s h → db_ok tables fuel k own m h → Forall (turn_ok tables) ts →
  wpd (run_turns tables fuel ts) (λ es y',
    ∃ h1 h2, heap_ok (fn_mem y') h1 ∧ serial tables m (committed ts es nothing_seen) h = Some h2 ∧
      ∀ a, (∀ i, ¬ commit_pending y' i a) → h1 !! a = h2 !! a) (new_fine s).
Proof.
  intros Hok D Hts.
  assert (fine_inv tables fuel k own m h (new_fine s) (lk_of s) h h nothing_seen (λ _, ([], ph_idle))) as I.
  { split; [done|done|done|by intros a bs; exists bs|done| |done|].
    - intros i. constructor. split; try done. by split; constructor.
    - split; [by intros i e ?%elem_of_nil|intros i; constructor|by intros i j e e' _ ?%elem_of_nil]. }
  eapply wpd_mono; [eapply (wp_run_turns tables fuel k own m h); [|apply D|exact I|exact Hts]|].
  { intros a bs. by apply (gh_block s h). }
  intros es y' (l' & h2 & h1 & v' & gs' & I' & E). exists h1, h2. split_and!; [apply I'|exact E|].
  intros a Ha. apply (fi_same _ _ _ _ _ _ _ _ _ _ _ _ I'). intros i Hu. apply (Ha i). by eapply unwritten_pending.
Qed.

(** ** A memory with a table of locks *)
Record lock_memory := mk_lock_memory { lm_flat : DbFlat.flat; lm_locks : list (Z * bool * GlobalAddress) }.

Definition on_flat {A} (c : DB DbFlat.flat A) : DB lock_memory A := λ s,
  match c (lm_flat s) with
  | Done a f => Done a (mk_lock_memory f (lm_locks s))
  | Raise e f => Raise e (mk_lock_memory f (lm_locks s))
  end.

#[export] Instance lm_galloc : GAlloc lock_memory := {|
  ga_read a n := on_flat (ga_read a n);
  ga_write a d := on_flat (ga_write a d);
  ga_malloc n align := on_flat (ga_malloc n align);
  ga_free a := on_flat (ga_free a);
|}.

Lemma wpd_on_flat {A} (c : DB DbFlat.flat A) (Q : A → lock_memory → Prop) s :
  wpd c (λ a f, Q a (mk_lock_memory f (lm_locks s))) (lm_flat s) → wpd (on_flat c) Q s.
Proof. unfold wpd, on_flat. by destruct (c (lm_flat s)). Qed.

#[export] Program Instance lm_gheap : GHeap lock_memory := {|
  heap_ok s := heap_ok (lm_flat s); room s := room (lm_flat s);
|}.
Next Obligation. intros s h a bs Hok. by apply (gh_block (lm_flat s)). Qed.
Next Obligation. intros. by apply wpd_on_flat, gh_read. Qed.
Next Obligation. intros. by apply wpd_on_flat, gh_write. Qed.
Next Obligation. intros. by apply wpd_on_flat, gh_malloc. Qed.
Next Obligation. intros. by apply wpd_on_flat, gh_free. Qed.

(** A lock that is held is granted again only to read what is held to be read. *)
Definition lm_conflict (ex : bool) (a : GlobalAddress) (e : Z * bool * GlobalAddress) : bool :=
  ga_eqb e.2 a && (ex || e.1.2).
Definition lm_try (ex : bool) (t : Z) (a : GlobalAddress) (l : list (Z * bool * GlobalAddress)) :=
  if existsb (lm_conflict ex a) l then None else Some ((t, ex, a) :: l).
Definition lm_release (t : Z) (a : GlobalAddress) (l : list (Z * bool * GlobalAddress)) :=
  List.filter (λ e : Z * bool * GlobalAddress, negb ((e.1.1 =? t) && ga_eqb e.2 a)) l.

Definition lm_lock (ex : bool) (t : Z) (a : GlobalAddress) : DB lock_memory Z := λ s,
  match lm_try ex t a (lm_locks s) with
  | Some l => Done 0 (mk_lock_memory (lm_flat s) l)
  | None => Done 1 s
  end.

#[export] Instance lm_record_locks : RecordLocks lock_memory := {|
  try_rlock t a _ := lm_lock false t a;
  try_wlock t a _ := lm_lock true t a;
  unlock t a _ := λ s, Done () (mk_lock_memory (lm_flat s) (lm_release t a (lm_locks s)));
|}.

Lemma on_flat_locks {A} (c : DB DbFlat.flat A) s r s' : on_flat c s = Done r s' → lm_locks s' = lm_locks s.
Proof. unfold on_flat. destruct (c _); intros H; by simplify_eq. Qed.

#[export] Program Instance lm_spec : LockSpec lock_memory := {|
  lk_state := list (Z * bool * GlobalAddress); lk_of := lm_locks; lk_try := lm_try; lk_release := lm_release;
|}.
Next Obligation.
  intros ex t a n s. assert (wpd (lm_lock ex t a) (λ r s', (∀ h, heap_ok s h → heap_ok s' h) ∧ room s' = room s ∧
    match lm_try ex t a (lm_locks s) with
    | Some l => r = 0 ∧ lm_locks s' = l
    | None => r ≠ 0 ∧ lm_locks s' = lm_locks s
    end) s) as H by (unfold wpd, lm_lock; by destruct (lm_try _ _ _ _)).
  by destruct ex.
Qed.
Next Obligation. intros. unfold wpd. cbn. by split_and!. Qed.
Next Obligation. intros a n s r s' E. by apply on_flat_locks in E. Qed.
Next Obligation. intros a d s r s' E. by apply on_flat_locks in E. Qed.
Next Obligation. intros n b s r s' E. by apply on_flat_locks in E. Qed.
Next Obligation. intros a s r s' E. by apply on_flat_locks in E. Qed.

#[export] Program Instance lm_exclusive : ExclusiveLocks lock_memory := {|
  lk_holds l t ex a := (t, ex, a) ∈ (l : list (Z * bool * GlobalAddress));
|}.
Next Obligation.
  cbn. unfold lm_try. intros ex t a l l'. destruct (existsb _ _); [done|]. intros [= <-].
  split; [by left|]. intros. by right.
Qed.
Next Obligation.
  cbn. unfold lm_try. intros ex t a l l' t' ex'. destruct (existsb _ l) eqn:E; [done|]. intros _ H.
  assert (lm_conflict ex a (t', ex', a) = false) as Hc.
  { destruct (lm_conflict _ _ _) eqn:Ec; [|done]. rewrite <-E. symmetry. apply existsb_exists.
    exists (t', ex', a). split; [by apply list_elem_of_In|done]. }
  unfold lm_conflict in Hc. cbn in Hc. destruct (ga_eqb_spec a a); [|done]. by destruct ex, ex'.
Qed.
Next Obligation.
  cbn. unfold lm_release. intros t a l t' ex b H Hne. apply list_elem_of_In, filter_In.
  split; [by apply list_elem_of_In|]. cbn. destruct (Z.eqb_spec t' t); [|done]. destruct (ga_eqb_spec b a); [|done].
  by destruct Hne.
Qed.

(** A reader and a writer of one record take turns at every call, then the writer, which has
    been refused its lock or has it, searches again, writes and commits while another thread
    deletes the record. *)
Definition both_step (n : nat) (i j : nat) : list turn := concat (replicate n [step_op i; step_op j]).
Definition ex_turns : list turn :=
  [begin_op 0 (ex_search READ_ONLY); begin_op 1 (ex_search READ_WRITE)] ++ both_step 8 0 1 ++
  [begin_op 0 s_commit; begin_op 1 (ex_search READ_WRITE)] ++ both_step 8 0 1 ++
  [begin_op 1 (s_op (t_set 0 0 [1; 0; 0; 0])); step_op 1; begin_op 1 s_commit; begin_op 2 (ex_search DELETE_ONLY)] ++
  both_step 8 2 1 ++ [begin_op 2 s_commit; begin_op 0 s_abort] ++ both_step 8 2 0.

Lemma two_phase_serialisable_witness : ∃ (s : lock_memory) h t own m, ex_db_ok s h t own m ∧
  wpd (run_turns [t] 6 ex_turns) (λ es y',
    ∃ h1 h2, heap_ok (fn_mem y') h1 ∧ serial [t] m (committed ex_turns es nothing_seen) h = Some h2 ∧
      ∀ a, (∀ i, ¬ commit_pending y' i a) → h1 !! a = h2 !! a) (new_fine s).
Proof.
  destruct (ex_database (mk_lock_memory flat_init [])) as (s & h & t & own & m & D & _);
    [exact flat_init_ok|by vm_compute|].
  exists s, h, t, own, m. split; [exact D|].
  apply (two_phase_serialisable [t] 6 1 own m).
  - apply D.
  - apply D.
  - repeat (apply Forall_cons_2; [by repeat split; vm_compute|]). apply Forall_nil_2.
Defined.
