(* ===== verification/TpccBase.v ===== *)
(** * TpccBase: [TpccConstants.h], [TpccParams.h] and [TpccKeyGenerator.h]

    The constants of the TPC-C benchmark, the scale of a run and how its warehouses are
    divided among the partitions, and the keys of the rows: bit fields of 64 bits. *)
From S2P Require Import Prelude DbStore.
From stdpp Require Import base numbers option list list_numbers.
From Stdlib Require Import SpecFloat.
Open Scope Z_scope.

(** ** Doubles: binary64, rounded to nearest *)
Abbreviation double := spec_float.
Definition prec : Z := 53.
Definition emax : Z := 1024.
Definition d_add : double → double → double := SFadd prec emax.
Definition d_sub : double → double → double := SFsub prec emax.
Definition d_mul : double → double → double := SFmul prec emax.
Definition d_div : double → double → double := SFdiv prec emax.
Definition d_of_Z (z : Z) : double := binary_normalize prec emax z 0 false.
(** The literal [n / d]. *)
Definition d_lit (n d : Z) : double := d_div (d_of_Z n) (d_of_Z d).

(** Arithmetic on [int]: [None] where it is undefined. *)
Definition int_of (z : Z) : option Z := if (- 2 ^ 31 <=? z) && (z <? 2 ^ 31) then Some z else None.

(** [(int) x]: toward zero. *)
Definition int_of_double (x : double) : option Z :=
  match x with
  | S754_zero _ => Some 0
  | S754_finite s m e =>
      let v := if 0 <=? e then Z.pos m * 2 ^ e else Z.pos m / 2 ^ (- e) in
      int_of (if s then - v else v)
  | _ => None
  end.

(** The object representation. *)
Definition sign_bit (s : bool) : Z := if s then 2 ^ 63 else 0.
Definition double_bits (x : double) : Z :=
  match x with
  | S754_zero s => sign_bit s
  | S754_infinity s => sign_bit s + 2047 * 2 ^ 52
  | S754_nan => 2047 * 2 ^ 52 + 2 ^ 51
  | S754_finite s m e =>
      sign_bit s + (if Z.pos m <? 2 ^ 52 then Z.pos m else (e + 1075) * 2 ^ 52 + (Z.pos m - 2 ^ 52))
  end.
Definition bits_double (b : Z) : double :=
  let s := Z.testbit b 63 in
  let ex := (b / 2 ^ 52) mod 2 ^ 11 in
  let m := b mod 2 ^ 52 in
  if ex =? 0 then match m with Z.pos p => S754_finite s p (- 1074) | _ => S754_zero s end
  else if ex =? 2047 then (if m =? 0 then S754_infinity s else S754_nan)
  else match m + 2 ^ 52 with Z.pos p => S754_finite s p (ex - 1075) | _ => S754_nan end.
Definition double_bytes (x : double) : list Z := le_bytes 8 (double_bits x).
Definition bytes_double (bs : list Z) : double := bits_double (le_word 8 bs).

(** [int] and [int64_t] in memory. *)
Definition int_bytes (v : Z) : list Z := le_bytes 4 (wrap 32 v).
Definition bytes_int (bs : list Z) : Z := to_int (le_word 8 bs).
Definition long_bytes (v : Z) : list Z := le_bytes 8 (wrap 64 v).

(** ** [TpccConstants.h] *)
Inductive TupleType := DELIVERY | NEW_ORDER | PAYMENT | ORDER_STATUS | STOCK_LEVEL.

Definition ITEM_TABLE_ID : Z := 0.
Definition STOCK_TABLE_ID : Z := 1.
Definition WAREHOUSE_TABLE_ID : Z := 2.
Definition DISTRICT_TABLE_ID : Z := 3.
Definition DISTRICT_NEW_ORDER_TABLE_ID : Z := 4.
Definition NEW_ORDER_TABLE_ID : Z := 5.
Definition ORDER_TABLE_ID : Z := 6.
Definition ORDER_LINE_TABLE_ID : Z := 7.
Definition CUSTOMER_TABLE_ID : Z := 8.
Definition HISTORY_TABLE_ID : Z := 9.
Definition kTableCount : Z := 10.

Definition kWarehouseBits : Z := 58.
Definition kTableIdLowBits : Z := 54.
Definition kDistrictLowBits : Z := 32.
Definition kOrderIdLowBits : Z := 4.

Definition NUM_ITEMS : Z := 100000.
Definition DISTRICTS_PER_WAREHOUSE : Z := 10.
Definition CUSTOMERS_PER_DISTRICT : Z := 3000.
Definition INITIAL_NEW_ORDERS_PER_DISTRICT : Z := 900.

(** ** [TpccParams.h] *)
Record TpccScaleParams := mk_TpccScaleParams {
  num_warehouses_ : Z;
  starting_warehouse_ : Z;
  ending_warehouse_ : Z;
  partition_id_ : Z;
  scale_factor_ : double;
  num_items_ : Z;
  num_districts_per_warehouse_ : Z;
  num_customers_per_district_ : Z;
  num_new_orders_per_district_ : Z;
}.

(** [scale_factors] are the [factor_count] factors of the command line; [None] is a failed
    assertion or undefined arithmetic. *)
Definition FillScaleParams (scale_factors : list double) (my_partition_id partition_num : Z) : option TpccScaleParams :=
  match scale_factors with
  | [warehouses; scale] =>
      num_warehouses ← int_of_double warehouses;
      let partition_id := to_int my_partition_id in
      let partition_num := to_int partition_num in
      if partition_num =? 0 then None else
      sum ← int_of (num_warehouses + partition_num - 1);
      let num_wh_per_par := Z.quot sum partition_num in
      first ← int_of (1 + num_wh_per_par * partition_id);
      last ← int_of (first + num_wh_per_par - 1);
      let last := if num_warehouses <? last then num_warehouses else last in
      if first <=? last then
        items ← int_of_double (d_div (d_of_Z NUM_ITEMS) scale);
        customers ← int_of_double (d_div (d_of_Z CUSTOMERS_PER_DISTRICT) scale);
        new_orders ← int_of_double (d_div (d_of_Z INITIAL_NEW_ORDERS_PER_DISTRICT) scale);
        Some (mk_TpccScaleParams num_warehouses first last partition_id scale items
                DISTRICTS_PER_WAREHOUSE customers new_orders)
      else None
  | _ => None
  end.

(** ** [TpccKeyGenerator.h]

    An [int] becomes a 64-bit word by sign extension. *)
Definition as_key (v : Z) : Z := wrap 64 v.
Definition key_at (v bits : Z) : Z := wrap 64 (Z.shiftl (as_key v) bits).
Definition table_key (w_id table_id : Z) : Z :=
  Z.lor (key_at w_id kWarehouseBits) (key_at table_id kTableIdLowBits).

Definition asserted (b : bool) (k : Z) : option Z := if b then Some k else None.

Section keys.
Context (sp : TpccScaleParams).

Definition GetItemPrimaryKey (i_id w_id : Z) : option Z :=
  asserted ((1 <=? i_id) && (i_id <=? num_items_ sp))
    (Z.lor (table_key w_id ITEM_TABLE_ID) (as_key i_id)).
Definition GetWarehousePrimaryKey (w_id : Z) : option Z :=
  asserted ((1 <=? w_id) && (w_id <=? num_warehouses_ sp)) (table_key w_id WAREHOUSE_TABLE_ID).
Definition GetDistrictPrimaryKey (d_id d_w_id : Z) : option Z :=
  asserted ((1 <=? d_id) && (d_id <=? num_districts_per_warehouse_ sp) &&
            (1 <=? d_w_id) && (d_w_id <=? num_warehouses_ sp))
    (Z.lor (table_key d_w_id DISTRICT_TABLE_ID) (key_at d_id kDistrictLowBits)).
Definition GetCustomerPrimaryKey (c_id c_d_id c_w_id : Z) : option Z :=
  asserted ((1 <=? c_id) && (c_id <=? num_customers_per_district_ sp))
    (Z.lor (Z.lor (table_key c_w_id CUSTOMER_TABLE_ID) (key_at c_d_id kDistrictLowBits)) (as_key c_id)).
Definition GetOrderPrimaryKey (o_id o_d_id o_w_id : Z) : Z :=
  Z.lor (Z.lor (table_key o_w_id ORDER_TABLE_ID) (key_at o_d_id kDistrictLowBits)) (key_at o_id kOrderIdLowBits).
Definition GetDistrictNewOrderPrimaryKey (d_id w_id : Z) : Z :=
  Z.lor (table_key w_id DISTRICT_NEW_ORDER_TABLE_ID) (key_at d_id kDistrictLowBits).
Definition GetNewOrderPrimaryKey (o_id d_id w_id : Z) : Z :=
  Z.lor (Z.lor (table_key w_id NEW_ORDER_TABLE_ID) (key_at d_id kDistrictLowBits)) (key_at o_id kOrderIdLowBits).
Definition GetOrderLinePrimaryKey (o_id d_id w_id ol_no : Z) : Z :=
  Z.lor (Z.lor (Z.lor (table_key w_id ORDER_LINE_TABLE_ID) (key_at d_id kDistrictLowBits))
               (key_at o_id kOrderIdLowBits)) (as_key ol_no).
Definition GetHistoryPrimaryKey (c_id d_id w_id : Z) : Z :=
  Z.lor (Z.lor (table_key w_id HISTORY_TABLE_ID) (key_at d_id kDistrictLowBits)) (as_key c_id).
Definition GetStockPrimaryKey (i_id w_id : Z) : Z :=
  Z.lor (table_key w_id STOCK_TABLE_ID) (as_key i_id).
Definition GetOrderLineSecondaryKey (o_id d_id w_id : Z) : Z :=
  Z.lor (Z.lor (table_key w_id ORDER_LINE_TABLE_ID) (key_at d_id kDistrictLowBits)) (key_at o_id kOrderIdLowBits).
End keys.

(** ** Rows and their keys *)
Inductive row :=
| item_row (i_id w_id : Z)
| stock_row (i_id w_id : Z)
| warehouse_row (w_id : Z)
| district_row (d_id w_id : Z)
| district_new_order_row (d_id w_id : Z)
| new_order_row (o_id d_id w_id : Z)
| order_row (o_id d_id w_id : Z)
| order_line_row (o_id d_id w_id ol_no : Z)
| customer_row (c_id d_id w_id : Z)
| history_row (c_id d_id w_id : Z).

#[export] Instance row_eq_dec : EqDecision row.
Proof. solve_decision. Defined.

Definition row_key (sp : TpccScaleParams) (r : row) : option Z :=
  match r with
  | item_row i w => GetItemPrimaryKey sp i w
  | stock_row i w => Some (GetStockPrimaryKey i w)
  | warehouse_row w => GetWarehousePrimaryKey sp w
  | district_row d w => GetDistrictPrimaryKey sp d w
  | district_new_order_row d w => Some (GetDistrictNewOrderPrimaryKey d w)
  | new_order_row o d w => Some (GetNewOrderPrimaryKey o d w)
  | order_row o d w => Some (GetOrderPrimaryKey o d w)
  | order_line_row o d w l => Some (GetOrderLinePrimaryKey o d w l)
  | customer_row c d w => GetCustomerPrimaryKey sp c d w
  | history_row c d w => Some (GetHistoryPrimaryKey c d w)
  end.

(** Six bits for the warehouse, 22 for the district, 28 for an order and four for the line;
    an [int] for an item or a customer. *)
Definition row_in_range (r : row) : Prop :=
  match r with
  | item_row i w | stock_row i w => fits 31 i ∧ fits 6 w
  | warehouse_row w => fits 6 w
  | district_row d w | district_new_order_row d w => fits 22 d ∧ fits 6 w
  | new_order_row o d w | order_row o d w => fits 28 o ∧ fits 22 d ∧ fits 6 w
  | order_line_row o d w l => fits 28 o ∧ fits 22 d ∧ fits 6 w ∧ fits 4 l
  | customer_row c d w | history_row c d w => fits 31 c ∧ fits 22 d ∧ fits 6 w
  end.

(** The fields of a row: warehouse, table, district and the lowest 32 bits. *)
Definition row_fields (r : row) : Z * Z * Z * Z :=
  match r with
  | item_row i w => (w, ITEM_TABLE_ID, 0, i)
  | stock_row i w => (w, STOCK_TABLE_ID, 0, i)
  | warehouse_row w => (w, WAREHOUSE_TABLE_ID, 0, 0)
  | district_row d w => (w, DISTRICT_TABLE_ID, d, 0)
  | district_new_order_row d w => (w, DISTRICT_NEW_ORDER_TABLE_ID, d, 0)
  | new_order_row o d w => (w, NEW_ORDER_TABLE_ID, d, o * 16)
  | order_row o d w => (w, ORDER_TABLE_ID, d, o * 16)
  | order_line_row o d w l => (w, ORDER_LINE_TABLE_ID, d, o * 16 + l)
  | customer_row c d w => (w, CUSTOMER_TABLE_ID, d, c)
  | history_row c d w => (w, HISTORY_TABLE_ID, d, c)
  end.
Definition pack (f : Z * Z * Z * Z) : Z :=
  let '(w, t, d, low) := f in w * 2 ^ 58 + t * 2 ^ 54 + d * 2 ^ 32 + low.

Lemma lor_disjoint x a n : 0 ≤ n → 0 ≤ a < 2 ^ n → Z.lor (x * 2 ^ n) a = x * 2 ^ n + a.
Proof.
  intros Hn Ha. rewrite <-Z.add_lor_land. enough (Z.land (x * 2 ^ n) a = 0) as -> by lia.
  apply Z.bits_inj'. intros i Hi. rewrite Z.land_spec, Z.bits_0. destruct (decide (i < n)).
  - by rewrite Z.mul_pow2_bits_low.
  - rewrite (fits_testbit_high n a i) by (done || lia). apply andb_false_r.
Qed.

Lemma key_at_small v bits : 0 ≤ bits → 0 ≤ v → v * 2 ^ bits < 2 ^ 64 → key_at v bits = v * 2 ^ bits.
Proof.
  intros Hb Hv Hl. assert (0 < 2 ^ bits) by by apply Z.pow_pos_nonneg.
  unfold key_at, as_key. rewrite (wrap_small 64 v) by (unfold fits; nia).
  rewrite Z.shiftl_mul_pow2 by done. apply wrap_small. unfold fits. nia.
Qed.

Lemma table_key_fields w t : fits 6 w → fits 4 t → table_key w t = (w * 16 + t) * 2 ^ 54.
Proof.
  unfold fits. intros Hw Ht. unfold table_key, kWarehouseBits, kTableIdLowBits.
  rewrite !key_at_small by lia. rewrite lor_disjoint by lia. lia.
Qed.

(** The district under a table, the lowest bits under a district. *)
Lemma lor_district x d : fits 22 d → Z.lor (x * 2 ^ 54) (key_at d kDistrictLowBits) = (x * 2 ^ 22 + d) * 2 ^ 32.
Proof.
  unfold fits. intros Hd. unfold kDistrictLowBits. rewrite key_at_small by lia. rewrite lor_disjoint by lia. lia.
Qed.

Lemma lor_low x low : fits 32 low → Z.lor (x * 2 ^ 32) low = x * 2 ^ 32 + low.
Proof. unfold fits. intros. apply lor_disjoint; lia. Qed.

Lemma order_low o : fits 28 o → key_at o kOrderIdLowBits = o * 16 ∧ fits 32 (o * 16).
Proof. unfold fits, kOrderIdLowBits. intros Ho. rewrite key_at_small by lia. lia. Qed.

Lemma int_low i : fits 31 i → as_key i = i ∧ fits 32 i.
Proof. unfold fits, as_key. intros Hi. rewrite wrap_small by (unfold fits; lia). lia. Qed.

Lemma line_low o l : fits 28 o → fits 4 l → Z.lor (o * 16) (as_key l) = o * 16 + l.
Proof.
  unfold fits, as_key. intros Ho Hl. rewrite wrap_small by (unfold fits; lia).
  change (o * 16) with (o * 2 ^ 4). rewrite lor_disjoint; lia.
Qed.

Lemma asserted_some b k k' : asserted b k = Some k' → k' = k.
Proof. unfold asserted. by destruct b; intros [= <-]. Qed.

Lemma fits_table t : 0 ≤ t ≤ 9 → fits 4 t.
Proof. unfold fits. lia. Qed.

Ltac key_fields :=
  rewrite ?table_key_fields, ?lor_district by (done || by apply fits_table);
  repeat match goal with
  | H : fits 28 ?o |- context [key_at ?o kOrderIdLowBits] => rewrite (proj1 (order_low o H))
  | H : fits 31 ?i |- context [as_key ?i] => rewrite (proj1 (int_low i H))
  end.

Lemma row_key_pack sp r k : row_in_range r → row_key sp r = Some k → k = pack (row_fields r).
Proof.
  destruct r; cbn [row_in_range row_key row_fields pack]; intros Hr E;
    repeat match goal with H : _ ∧ _ |- _ => destruct H end;
    first [apply asserted_some in E as ->|injection E as <-];
    unfold GetStockPrimaryKey, GetDistrictNewOrderPrimaryKey, GetNewOrderPrimaryKey, GetOrderPrimaryKey,
      GetOrderLinePrimaryKey, GetHistoryPrimaryKey.
  - key_fields. change (2 ^ 54) with (2 ^ 22 * 2 ^ 32) at 1. rewrite Z.mul_assoc, lor_low by by apply int_low. unfold ITEM_TABLE_ID. lia.
  - key_fields. change (2 ^ 54) with (2 ^ 22 * 2 ^ 32) at 1. rewrite Z.mul_assoc, lor_low by by apply int_low. unfold STOCK_TABLE_ID. lia.
  - key_fields. unfold WAREHOUSE_TABLE_ID. lia.
  - key_fields. unfold DISTRICT_TABLE_ID. lia.
  - key_fields. unfold DISTRICT_NEW_ORDER_TABLE_ID. lia.
  - key_fields. rewrite lor_low by by apply order_low. unfold NEW_ORDER_TABLE_ID. lia.
  - key_fields. rewrite lor_low by by apply order_low. unfold ORDER_TABLE_ID. lia.
  - key_fields. rewrite <-Z.lor_assoc, line_low by done.
    rewrite lor_low by (unfold fits in *; lia). unfold ORDER_LINE_TABLE_ID. lia.
  - key_fields. rewrite lor_low by by apply int_low. unfold CUSTOMER_TABLE_ID. lia.
  - key_fields. rewrite lor_low by by apply int_low. unfold HISTORY_TABLE_ID. lia.
Qed.

Definition fields_in_range (f : Z * Z * Z * Z) : Prop :=
  let '(w, t, d, low) := f in fits 4 t ∧ fits 22 d ∧ fits 32 low.

Lemma row_fields_range r : row_in_range r → fields_in_range (row_fields r).
Proof.
  destruct r; cbn [row_in_range row_fields fields_in_range];
    unfold fits, ITEM_TABLE_ID, STOCK_TABLE_ID, WAREHOUSE_TABLE_ID, DISTRICT_TABLE_ID, DISTRICT_NEW_ORDER_TABLE_ID,
      NEW_ORDER_TABLE_ID, ORDER_TABLE_ID, ORDER_LINE_TABLE_ID, CUSTOMER_TABLE_ID, HISTORY_TABLE_ID; lia.
Qed.

Lemma pack_inj f g : fields_in_range f → fields_in_range g → pack f = pack g → f = g.
Proof.
  destruct f as [[[w t] d] l], g as [[[w' t'] d'] l']. unfold fields_in_range, pack, fits. intros (?&?&?) (?&?&?) E.
  assert (l = l') as -> by lia. assert (d = d') as -> by lia. assert (t = t') as -> by lia. assert (w = w') as -> by lia. done.
Qed.

Lemma row_fields_inj r r' : row_in_range r → row_in_range r' → row_fields r = row_fields r' → r = r'.
Proof.
  destruct r, r'; cbn [row_fields row_in_range];
    unfold fits, ITEM_TABLE_ID, STOCK_TABLE_ID, WAREHOUSE_TABLE_ID, DISTRICT_TABLE_ID, DISTRICT_NEW_ORDER_TABLE_ID,
      NEW_ORDER_TABLE_ID, ORDER_TABLE_ID, ORDER_LINE_TABLE_ID, CUSTOMER_TABLE_ID, HISTORY_TABLE_ID;
    intros H H' E; simplify_eq; try done; f_equal; lia.
Qed.

(** Keys of different rows are different. *)
Lemma row_key_inj sp r r' k : row_in_range r → row_in_range r' → row_key sp r = Some k → row_key sp r' = Some k → r = r'.
Proof.
  intros Hr Hr' E E'. apply row_fields_inj; [done|done|]. apply pack_inj; [by apply row_fields_range..|].
  by rewrite <-(row_key_pack sp r k), <-(row_key_pack sp r' k).
Qed.

Lemma row_key_fits sp r k : row_in_range r → row_key sp r = Some k → fits 64 k.
Proof.
  intros Hr E. rewrite (row_key_pack sp r k Hr E). pose proof (row_fields_range r Hr) as Hf.
  assert (fits 6 (row_fields r).1.1.1) as Hw by (destruct r; cbn in *; tauto).
  destruct (row_fields r) as [[[w t] d] low]. unfold fields_in_range, pack, fits in *. cbn [fst] in Hw. lia.
Qed.

(** C23: No two rows of the benchmark share a key, in one table or in two: the keys of rows
    with a warehouse below 64, a district below 2^22, an order below 2^28 with at most 15
    lines, and any item or customer, determine table and row; and the warehouse is a field of
    six bits, warehouse [w + 64] has the keys of warehouse [w]. *)
Theorem keys_distinct sp :
  (∀ r r' k, row_in_range r → row_in_range r' → row_key sp r = Some k → row_key sp r' = Some k → r = r') ∧
  (∀ w t, table_key (w + 64) t = table_key w t).
Proof.
  split.
  - apply row_key_inj.
  - intros w t. unfold table_key. f_equal. unfold key_at, as_key, kWarehouseBits, wrap.
    rewrite !Z.shiftl_mul_pow2 by done. rewrite !Z.mul_mod_idemp_l by done.
    replace ((w + 64) * 2 ^ 58) with (w * 2 ^ 58 + 1 * 2 ^ 64) by lia. by apply Z.mod_add.
Qed.

(** ** Warehouses and partitions *)
Lemma int_of_ok z : - 2 ^ 31 ≤ z < 2 ^ 31 → int_of z = Some z.
Proof. intros. unfold int_of. by rewrite (proj2 (Z.leb_le _ _)), (proj2 (Z.ltb_lt _ _)) by lia. Qed.

(** The number of warehouses of a partition. *)
Definition share (warehouses partitions : Z) : Z := (warehouses + partitions - 1) / partitions.

Lemma share_bounds W P : 0 < W → 0 < P →
  0 < share W P ≤ W ∧ W ≤ P * share W P < W + P.
Proof.
  intros HW HP. unfold share. pose proof (Z.div_mod (W + P - 1) P ltac:(lia)).
  pose proof (Z.mod_pos_bound (W + P - 1) P ltac:(lia)).
  assert (0 < (W + P - 1) / P) by (apply Z.div_str_pos; lia). split; [|lia]. split; [done|].
  apply Z.div_le_upper_bound; nia.
Qed.

Record scales (scale_factors : list double) (warehouses : Z) : Prop := {
  sc_warehouses : ∃ wh sf, scale_factors = [wh; sf] ∧ int_of_double wh = Some warehouses ∧
    is_Some (int_of_double (d_div (d_of_Z NUM_ITEMS) sf)) ∧
    is_Some (int_of_double (d_div (d_of_Z CUSTOMERS_PER_DISTRICT) sf)) ∧
    is_Some (int_of_double (d_div (d_of_Z INITIAL_NEW_ORDERS_PER_DISTRICT) sf));
}.

Lemma FillScaleParams_ok sfs W P p : scales sfs W → 0 < W → 0 < P → W + P ≤ 2 ^ 30 → 0 ≤ p < P →
  let n := share W P in
  if n * p <? W
  then ∃ sp, FillScaleParams sfs p P = Some sp ∧ num_warehouses_ sp = W ∧ partition_id_ sp = p ∧
    starting_warehouse_ sp = 1 + n * p ∧ ending_warehouse_ sp = Z.min W (n * p + n)
  else FillScaleParams sfs p P = None.
Proof.
  intros [(wh & sf & -> & Ew & [i Ei] & [c Ec] & [o Eo])] HW HP Hl Hp n.
  destruct (share_bounds W P HW HP) as [Hn Hn']. fold n in Hn, Hn'.
  unfold FillScaleParams. rewrite Ew. cbn [mbind option_bind].
  rewrite !to_int_small by lia. rewrite (proj2 (Z.eqb_neq P 0)) by lia.
  rewrite int_of_ok by lia. cbn [mbind option_bind]. rewrite Z.quot_div_nonneg by lia. fold (share W P). fold n.
  rewrite !int_of_ok by nia. cbn [mbind option_bind]. rewrite int_of_ok by nia. cbn [mbind option_bind].
  rewrite Ei, Ec, Eo. cbn [mbind option_bind].
  destruct (Z.ltb_spec (n * p) W).
  - destruct (Z.ltb_spec W (1 + n * p + n - 1)); (match goal with |- context [?x <=? ?y] => destruct (Z.leb_spec x y); [|lia] end);
      eexists; (split; [reflexivity|]); cbn; lia.
  - destruct (Z.ltb_spec W (1 + n * p + n - 1)); [|nia]. destruct (Z.leb_spec (1 + n * p) W); [lia|done].
Qed.

(** C38: The partitions divide the warehouses: whatever the number of warehouses and of
    partitions, every warehouse belongs to the range of exactly one partition, whose
    [FillScaleParams] succeeds; the assertion fails in the partitions, if any, for which no
    warehouse is left. *)
Theorem partitions_cover sfs W P : scales sfs W → 0 < W → 0 < P → W + P ≤ 2 ^ 30 →
  (∀ w, 1 ≤ w ≤ W → ∃ p sp, 0 ≤ p < P ∧ FillScaleParams sfs p P = Some sp ∧
     starting_warehouse_ sp ≤ w ≤ ending_warehouse_ sp ∧
     ∀ p' sp', 0 ≤ p' < P → FillScaleParams sfs p' P = Some sp' →
       starting_warehouse_ sp' ≤ w ≤ ending_warehouse_ sp' → p' = p) ∧
  (∀ p, 0 ≤ p < P → FillScaleParams sfs p P = None ↔ W ≤ share W P * p).
Proof.
  intros Hs HW HP Hl. destruct (share_bounds W P HW HP) as [Hn Hn'].
  set (n := share W P) in *. split.
  - intros w Hw. pose proof (Z.div_mod (w - 1) n ltac:(lia)) as Ed. pose proof (Z.mod_pos_bound (w - 1) n ltac:(lia)).
    set (p := (w - 1) / n) in *. assert (0 ≤ p < P) as Hp by nia.
    pose proof (FillScaleParams_ok sfs W P p Hs HW HP Hl Hp) as F. fold n in F. cbv zeta in F.
    destruct (Z.ltb_spec (n * p) W); [|lia]. destruct F as (sp & E & _ & _ & Es & Ee).
    exists p, sp. split; [exact Hp|]. split; [exact E|]. split; [lia|]. intros p' sp' Hp' E' Hw'.
    pose proof (FillScaleParams_ok sfs W P p' Hs HW HP Hl Hp') as F'. fold n in F'. cbv zeta in F'.
    destruct (Z.ltb_spec (n * p') W); [|congruence]. destruct F' as (sp2 & E2 & _ & _ & Es2 & Ee2).
    rewrite E' in E2. injection E2 as <-. clear -Hw' Es Ee Es2 Ee2 Ed H Hn.
    destruct (Z.lt_trichotomy p' p) as [|[|]]; [|done|].
    + assert (n * p' + n ≤ n * p) by nia. lia.
    + assert (n * p + n ≤ n * p') by nia. lia.
  - intros p Hp. pose proof (FillScaleParams_ok sfs W P p Hs HW HP Hl Hp) as F. fold n in F. cbv zeta in F.
    destruct (Z.ltb_spec (n * p) W); [|split; [lia|intros; exact F]].
    destruct F as (sp & E & _). rewrite E. split; [discriminate|lia].
Qed.

Lemma partitions_cover_witness : scales [d_of_Z 10; d_of_Z 1] 10 ∧
  (∀ p, 0 ≤ p < 4 → FillScaleParams [d_of_Z 10; d_of_Z 1] p 4 = None ↔ 10 ≤ share 10 4 * p) ∧
  FillScaleParams [d_of_Z 10; d_of_Z 1] 3 4 =
    Some (mk_TpccScaleParams 10 10 10 3 (d_of_Z 1) 100000 10 3000 900).
Proof.
  assert (scales [d_of_Z 10; d_of_Z 1] 10) as Hs.
  { split. eexists _, _. split; [reflexivity|]. split; [reflexivity|]. split_and!; eexists; reflexivity. }
  split; [exact Hs|]. split; [|reflexivity]. apply (partitions_cover _ 10 4); [exact Hs|lia|lia|lia].
Defined.
