(* ===== verification/TpccSchemas.v ===== *)
(** * TpccSchemas: [TpccInitiator.h]

    The schemas of the ten tables of the benchmark, and how the master makes the database
    and stores its description, which every node reads. *)
From S2P Require Import Prelude GlobalMem DbStore DbFlat DbDsm DbArray DbIndex DbSchema DbTable DbTxn TpccBase.
From stdpp Require Import base numbers option list list_numbers gmap.
From Stdlib Require Import Ascii String.
Abbreviation length := Datatypes.length.
Open Scope Z_scope.

(** The characters of a literal. *)
Definition chars (s : string) : list Z := (λ c, Z.of_nat (nat_of_ascii c)) <$> list_ascii_of_string s.

Abbreviation column_spec := (string * ValueType * Z)%type.

Section schemas.
Context {J : Indeterminate}.

(** [new ColumnInfo(name, type)] or [new ColumnInfo(name, type, size)] *)
Definition column (c : column_spec) : option ColumnInfo := column_Init (chars c.1.1) c.1.2 c.2.

(** The body of every [Init...Schema]. *)
Definition init_schema (table_id : Z) (columns : list column_spec) (col_ids : list Z) (col_num : Z)
    (par_col_ids : list Z) (par_col_num : Z) : option RecordSchema :=
  cols ← mapM column columns;
  schema ← InsertColumns cols (new_RecordSchema table_id);
  schema ← SetPrimaryColumns col_ids col_num schema;
  SetPartitionColumns par_col_ids par_col_num schema.

Definition s_dists : list column_spec :=
  (λ i, (("s_dists" ++ String (ascii_of_nat (48 + i)) EmptyString)%string, VARCHAR, 32)) <$> seq 0 10.

Open Scope string_scope.
Open Scope list_scope.

Definition InitItemSchema : option RecordSchema :=
  init_schema ITEM_TABLE_ID
    ([("i_id", INT, 0); ("i_im_id", INT, 0); ("i_name", VARCHAR, 32); ("i_price", DOUBLE, 0);
     ("i_data", VARCHAR, 64); ("meta", META, 0)])
    [0] 1 [0] 1.

Definition InitWarehouseSchema : option RecordSchema :=
  init_schema WAREHOUSE_TABLE_ID
    ([("w_id", INT, 0); ("w_name", VARCHAR, 16); ("w_street_1", VARCHAR, 32); ("w_street_2", VARCHAR, 32);
     ("w_city", VARCHAR, 32); ("w_state", VARCHAR, 2); ("w_zip", VARCHAR, 9); ("w_tax", DOUBLE, 0);
     ("w_ytd", DOUBLE, 0); ("meta", META, 0)])
    [0] 1 [0] 1.

Definition InitDistrictSchema : option RecordSchema :=
  init_schema DISTRICT_TABLE_ID
    ([("d_id", INT, 0); ("d_w_id", INT, 0); ("d_name", VARCHAR, 16); ("d_street_1", VARCHAR, 32);
     ("d_street_2", VARCHAR, 32); ("d_city", VARCHAR, 32); ("d_state", VARCHAR, 2); ("d_zip", VARCHAR, 9);
     ("d_tax", DOUBLE, 0); ("d_ytd", DOUBLE, 0); ("d_next_o_id", INT, 0); ("meta", META, 0)])
    [0; 1] 2 [1] 1.

Definition InitCustomerSchema : option RecordSchema :=
  init_schema CUSTOMER_TABLE_ID
    ([("c_id", INT, 0); ("c_d_id", INT, 0); ("c_w_id", INT, 0); ("c_first", VARCHAR, 32);
     ("c_middle", VARCHAR, 2); ("c_last", VARCHAR, 32); ("c_street_1", VARCHAR, 32);
     ("c_street_2", VARCHAR, 32); ("c_city", VARCHAR, 32); ("c_state", VARCHAR, 2); ("c_zip", VARCHAR, 9);
     ("c_phone", VARCHAR, 32); ("c_since", INT64, 0); ("c_credit", VARCHAR, 2); ("c_credit_lim", DOUBLE, 0);
     ("c_discount", DOUBLE, 0); ("c_balance", DOUBLE, 0); ("c_ytd_payment", DOUBLE, 0);
     ("c_payment_cnt", INT, 0); ("c_delivery_cnt", INT, 0); ("c_data", VARCHAR, 500); ("meta", META, 0)])
    [0; 1; 2] 3 [2] 1.

Definition InitOrderSchema : option RecordSchema :=
  init_schema ORDER_TABLE_ID
    ([("o_id", INT, 0); ("o_c_id", INT, 0); ("o_d_id", INT, 0); ("o_w_id", INT, 0); ("o_entry_d", INT64, 0);
     ("o_carrier_id", INT, 0); ("o_ol_cnt", INT, 0); ("o_all_local", INT, 0); ("meta", META, 0)])
    [0; 2; 3] 3 [3] 1.

Definition InitDistrictNewOrderSchema : option RecordSchema :=
  init_schema DISTRICT_NEW_ORDER_TABLE_ID
    ([("d_id", INT, 0); ("w_id", INT, 0); ("o_id", INT, 0); ("meta", META, 0)])
    [0; 1] 2 [1] 1.

Definition InitNewOrderSchema : option RecordSchema :=
  init_schema NEW_ORDER_TABLE_ID
    ([("o_id", INT, 0); ("d_id", INT, 0); ("w_id", INT, 0); ("meta", META, 0)])
    [0; 1; 2] 3 [2] 1.

Definition InitOrderLineSchema : option RecordSchema :=
  init_schema ORDER_LINE_TABLE_ID
    ([("ol_o_id", INT, 0); ("ol_d_id", INT, 0); ("ol_w_id", INT, 0); ("ol_number", INT, 0);
     ("ol_i_id", INT, 0); ("ol_supply_w_id", INT, 0); ("ol_delivery_d", INT64, 0); ("ol_quantity", INT, 0);
     ("ol_amount", DOUBLE, 0); ("ol_dist_info", VARCHAR, 32); ("meta", META, 0)])
    [0; 1; 2; 3] 4 [0; 1; 2] 3.

Definition InitHistorySchema : option RecordSchema :=
  init_schema HISTORY_TABLE_ID
    ([("h_c_id", INT, 0); ("h_c_d_id", INT, 0); ("h_c_w_id", INT, 0); ("h_d_id", INT, 0);
     ("h_w_id", INT, 0); ("h_date", INT64, 0); ("h_amount", DOUBLE, 0); ("h_data", VARCHAR, 32);
     ("meta", META, 0)])
    [3; 4; 5] 3 [3; 4] 2.

Definition InitStockSchema : option RecordSchema :=
  init_schema STOCK_TABLE_ID
    ([("s_i_id", INT, 0); ("s_w_id", INT, 0); ("s_quantity", INT, 0)] ++ s_dists ++
     [("s_ytd", INT, 0); ("s_order_cnt", INT, 0); ("s_remote_cnt", INT, 0); ("s_data", VARCHAR, 64); ("meta", META, 0)])
    [0; 1] 2 [0] 1.

Close Scope list_scope.
Close Scope string_scope.

(** [schemas[id]] *)
Definition set_schema (id : Z) (schema : option RecordSchema) (schemas : list (option RecordSchema)) :
    option (list (option RecordSchema)) :=
  sc ← schema; arr_set schemas id (Some sc).

Definition RegisterSchemas : option (list (option RecordSchema)) :=
  let schemas := replicate (Z.to_nat kTableCount) None in
  schemas ← set_schema ITEM_TABLE_ID InitItemSchema schemas;
  schemas ← set_schema WAREHOUSE_TABLE_ID InitWarehouseSchema schemas;
  schemas ← set_schema DISTRICT_TABLE_ID InitDistrictSchema schemas;
  schemas ← set_schema CUSTOMER_TABLE_ID InitCustomerSchema schemas;
  schemas ← set_schema ORDER_TABLE_ID InitOrderSchema schemas;
  schemas ← set_schema DISTRICT_NEW_ORDER_TABLE_ID InitDistrictNewOrderSchema schemas;
  schemas ← set_schema NEW_ORDER_TABLE_ID InitNewOrderSchema schemas;
  schemas ← set_schema ORDER_LINE_TABLE_ID InitOrderLineSchema schemas;
  schemas ← set_schema HISTORY_TABLE_ID InitHistorySchema schemas;
  set_schema STOCK_TABLE_ID InitStockSchema schemas.

Section storage.
Context {S : Type} {G : GAlloc S}.

(** [TpccInitiator::RegisterTables]; a null schema would be used. *)
Definition tpcc_RegisterTables (storage_addr : GlobalAddress) (schemas : list (option RecordSchema)) : DB S unit :=
  schemas ← in_array (mapM (λ x, x) schemas);
  storage_manager ← RegisterTables schemas;
  storage_Serialize storage_addr storage_manager.

(** [BenchmarkInitiator::InitStorage] *)
Definition InitStorage (is_master : bool) : DB S GlobalAddress :=
  if is_master then
    schemas ← match RegisterSchemas with Some l => mret l | None => raise assertion_failed end;
    storage_addr ← AlignedMalloc storage_serialize_size;
    tpcc_RegisterTables storage_addr schemas;;
    mret storage_addr
  else mret ga_Null.
End storage.
End schemas.

(** ** The schemas are well-formed *)
Definition spec_size (c : column_spec) : Z := default c.2 (type_size c.1.2).
Definition spec_ok (c : column_spec) : bool :=
  (len (chars c.1.1) <? 16) && (0 <? spec_size c) && (spec_size c <? 2 ^ 32).
Definition ids_ok (ids : list Z) (num : Z) : bool :=
  (0 <=? num) && (num <=? len ids) && (num <? 5) && forallb (λ i, (0 <=? i) && (i <? 2 ^ 64)) ids.

Lemma chars_fits s : Forall (fits 8) (chars s).
Proof.
  unfold chars. apply Forall_fmap, Forall_forall. intros c _. unfold compose, fits.
  pose proof (nat_ascii_bounded c). lia.
Qed.

Section wf.
Context {J : Indeterminate}.

Lemma column_ok c : spec_ok c = true → ∃ ci, column c = Some ci ∧ valid ci ∧ column_size_ ci = spec_size c.
Proof.
  unfold spec_ok. intros [[Hl Hp]%andb_true_iff Hs]%andb_true_iff. unfold column, column_Init. rewrite Hl.
  assert (∀ n, 0 < n < 2 ^ 32 → valid (mk_ColumnInfo (chars c.1.1 ++ 0 :: replicate (15 - length (chars c.1.1)) junk) c.1.2 n 0)) as Hv.
  { intros n Hn. split; [split|split; [|split]]; cbn [column_name_ column_type_ column_size_ ci_column_offset_ fst snd].
    - rewrite length_app. cbn [length]. rewrite length_replicate. lia.
    - apply Forall_app. split; [apply chars_fits|]. constructor; [by split|].
      apply Forall_replicate, junk_fits.
    - destruct c.1.2; by split.
    - unfold valid; cbn. change (8 * Z.of_nat 8) with 64. unfold fits. lia.
    - cbn. unfold fits. lia. }
  unfold spec_size in *. destruct (type_size c.1.2) as [n|]; cbn [default from_option id] in *; unfold id in *.
  - eexists. split; [done|]. split; [apply Hv; lia|done].
  - rewrite Hp. eexists. split; [done|]. split; [apply Hv; lia|done].
Qed.

Lemma columns_ok cs : forallb spec_ok cs = true → ∃ cols, mapM column cs = Some cols ∧ Forall valid cols ∧
  column_size_ <$> cols = spec_size <$> cs.
Proof.
  induction cs as [|c cs IH]; cbn [forallb]; [by exists []|].
  intros [Hc Hcs]%andb_true_iff. destruct (column_ok c Hc) as (ci & E & Hv & Es). destruct (IH Hcs) as (cols & E' & Hv' & Es').
  exists (ci :: cols). cbn. rewrite E. cbn. rewrite E'. split_and!; [done|by constructor|]. by rewrite Es, Es'.
Qed.

Lemma new_schema_wf table_id cols sc :
  fits 64 table_id → Forall valid cols → Forall sized cols → cols ≠ [] → sizes_sum cols < 2 ^ 63 →
  InsertColumns cols (new_RecordSchema table_id) = Some sc →
  ∃ placed, schema_wf sc placed ∧ schema_ok sc placed ∧ column_size_ <$> placed = column_size_ <$> cols ∧
    column_offset_ sc = sizes_sum cols ∧ table_id_ sc = table_id.
Proof.
  intros Hid Hv Hs Hne Hl E. destruct (InsertColumns_ok table_id cols sc Hs Hne ltac:(lia) E) as (placed & Sc & Elen & Eo & Hp).
  unfold InsertColumns in E. destruct (Z.leb_spec (len cols) kMaxColumnNum) as [Hmax|]; [|done].
  destruct (place_columns_spec cols 0 Hs) as (placed' & E' & El & Hi); [lia|lia|].
  change (column_offset_ (new_RecordSchema table_id)) with 0 in E. rewrite E' in E. injection E as <-.
  pose proof (sk_columns _ _ Sc) as Ec. cbn in Ec. injection Ec as <-. clear Hp.
  pose proof junk_fits as Hj. assert (fits 64 junk) as Hj' by (unfold fits in *; lia).
  pose proof (sizes_sum_pos cols Hs) as H0. exists placed'. split_and!; [|done| |done|done].
  - split.
    + done.
    + split; [by rewrite El|]. destruct cols; [done|]. rewrite El. cbn [length] in *. lia.
    + apply Forall_lookup_2. intros i c Hc. destruct (Hi i c Hc) as (c0 & Hc0 & ->).
      pose proof (Forall_lookup_1 _ _ _ _ Hv Hc0) as (V1 & V2 & V3 & V4).
      split; [exact V1|]. split; [exact V2|]. split; [exact V3|]. cbn.
      assert (0 ≤ sizes_sum (take i cols) ≤ sizes_sum cols) as Ht; [|unfold fits; lia].
      rewrite <-(take_drop i cols) at 3. rewrite sizes_sum_app.
      pose proof (sizes_sum_pos _ (Forall_take _ i _ Hs)). pose proof (sizes_sum_pos _ (Forall_drop _ i _ Hs)). lia.
    + done.
    + split; [done|]. by repeat constructor.
    + done.
    + done.
    + cbn [header_words set_field columns_ table_id_ column_count_ column_offset_ primary_column_ids_ primary_column_num_
        secondary_column_ids_ secondary_column_num_ secondary_index_num_ partition_column_ids_ partition_column_num_
        new_RecordSchema app].
      assert (Forall (fits 64) (replicate 5 junk) ∧ Forall (fits 64) (replicate 3 junk)) as [R5 R3]
        by (split; apply Forall_replicate; done).
      change kMaxColumnNum with 32 in Hmax.
      repeat (apply Forall_cons_2; [first [exact R5|exact R3|apply Forall_cons_2; [|apply Forall_nil_2]]|]); try apply Forall_nil_2; cbn;
        unfold fits in *; lia.
  - apply list_eq. intros i. rewrite !list_lookup_fmap. destruct (placed' !! i) as [c|] eqn:Hc.
    + destruct (Hi i c Hc) as (c0 & Hc0 & ->). by rewrite Hc0.
    + apply lookup_ge_None in Hc. rewrite El in Hc. by rewrite (lookup_ge_None_2 cols i Hc).
Qed.

(** What is known of a schema made from columns of the sizes [sizes]. *)
Record schema_made (table_id : Z) (sizes : list Z) (sc : RecordSchema) (cols : list ColumnInfo) : Prop := {
  sm_wf : schema_wf sc cols;
  sm_ok : schema_ok sc cols;
  sm_sizes : column_size_ <$> cols = sizes;
  sm_total : GetSchemaSize sc = foldr Z.add 0 sizes;
  sm_id : table_id_ sc = table_id;
}.

Lemma copy_ids_ok ids num to : ids_ok ids num = true → length to = 5%nat → Forall (fits 64) to →
  ∃ to', copy_ids ids num to = Some to' ∧ length to' = 5%nat ∧ Forall (fits 64) to' ∧ fits 64 num ∧ num < 5.
Proof.
  unfold ids_ok. intros [[[H0 Hn]%andb_true_iff H5]%andb_true_iff Hf]%andb_true_iff Hl Ht.
  apply Z.leb_le in H0, Hn. apply Z.ltb_lt in H5. unfold copy_ids. rewrite (proj2 (Z.leb_le _ _)) by done.
  eexists. split; [done|]. split_and!; [|apply Forall_app; split|split|]; [|apply Forall_take|by apply Forall_drop|lia..|done].
  - rewrite length_app, length_take, length_drop. lia.
  - apply Forall_forall. intros i Hi. rewrite forallb_forall in Hf. apply list_elem_of_In, Hf in Hi. unfold fits. lia.
Qed.

Lemma SetPrimaryColumns_made id sizes sc cols ids num : schema_made id sizes sc cols → ids_ok ids num = true →
  ∃ sc', SetPrimaryColumns ids num sc = Some sc' ∧ schema_made id sizes sc' cols.
Proof.
  intros [W Sc Es Et Ei] Hids. destruct W as [W1 W2 W3 W4 W5 W6 W7 W8].
  assert (Forall (fits 64) (primary_column_ids_ sc)) as Hf.
  { eapply (Forall_lookup_1 _ _ 3%nat _ W8). done. }
  destruct (copy_ids_ok ids num _ Hids W4 Hf) as (to & E & Hl & Hf' & Hn & H5).
  unfold SetPrimaryColumns. rewrite (proj2 (Z.leb_le _ _)) by lia. rewrite E. cbn [mbind option_bind].
  eexists. split; [done|]. split; [|destruct Sc; by split|done..].
  split; try done.
  change (header_words sc) with ([[table_id_ sc]; [column_count_ sc]; [column_offset_ sc]] ++
    [primary_column_ids_ sc; [primary_column_num_ sc]] ++ secondary_column_ids_ sc ++
    [secondary_column_num_ sc; [secondary_index_num_ sc]; partition_column_ids_ sc; [partition_column_num_ sc]]) in W8.
  rewrite !Forall_app in W8. destruct W8 as (F1 & _ & F3 & F4).
  assert (Forall (Forall (fits 64)) [to; [num]]) as F2.
  { apply Forall_cons_2; [done|]. apply Forall_cons_2; [|apply Forall_nil_2]. by apply Forall_cons_2; [|apply Forall_nil_2]. }
  change (Forall (Forall (fits 64)) ([[table_id_ sc]; [column_count_ sc]; [column_offset_ sc]] ++ [to; [num]] ++
    secondary_column_ids_ sc ++
    [secondary_column_num_ sc; [secondary_index_num_ sc]; partition_column_ids_ sc; [partition_column_num_ sc]])).
  rewrite !Forall_app. by split_and!.
Qed.

Lemma SetPartitionColumns_made id sizes sc cols ids num : schema_made id sizes sc cols → ids_ok ids num = true →
  ∃ sc', SetPartitionColumns ids num sc = Some sc' ∧ schema_made id sizes sc' cols.
Proof.
  intros [W Sc Es Et Ei] Hids. destruct W as [W1 W2 W3 W4 W5 W6 W7 W8].
  assert (header_words sc = [[table_id_ sc]; [column_count_ sc]; [column_offset_ sc]; primary_column_ids_ sc;
    [primary_column_num_ sc]] ++ secondary_column_ids_ sc ++ [secondary_column_num_ sc; [secondary_index_num_ sc]] ++
    [partition_column_ids_ sc; [partition_column_num_ sc]]) as Eh by done.
  rewrite Eh in W8. rewrite !Forall_app in W8. destruct W8 as (F1 & F2 & F3 & F4). apply Forall_cons in F4 as [F4 _].
  destruct (copy_ids_ok ids num _ Hids W7 F4) as (to & E & Hl & Hf' & Hn & H5).
  unfold SetPartitionColumns. rewrite (proj2 (Z.ltb_lt _ _)) by lia. rewrite E. cbn [mbind option_bind].
  eexists. split; [done|]. split; [|destruct Sc; by split|done..].
  split; try done. clear Eh.
  assert (Forall (Forall (fits 64)) [to; [num]]) as F4'.
  { apply Forall_cons_2; [done|]. apply Forall_cons_2; [|apply Forall_nil_2]. by apply Forall_cons_2; [|apply Forall_nil_2]. }
  unfold header_words. cbn [set_field partition_column_ids_ partition_column_num_ table_id_ column_count_ column_offset_
    primary_column_ids_ primary_column_num_ secondary_column_ids_ secondary_column_num_ secondary_index_num_].
  change [secondary_column_num_ sc; [secondary_index_num_ sc]; to; [num]]
    with ([secondary_column_num_ sc; [secondary_index_num_ sc]] ++ [to; [num]]).
  rewrite !Forall_app. by split_and!.
Qed.

(** The literals of an [Init...Schema]. *)
Definition literals_ok (table_id : Z) (cs : list column_spec) (ids : list Z) (num : Z) (par : list Z) (par_num : Z) : bool :=
  (0 <=? table_id) && (table_id <? 2 ^ 64) && forallb spec_ok cs && (0 <? len cs) && (len cs <=? kMaxColumnNum) &&
  ids_ok ids num && ids_ok par par_num.

Lemma sizes_sum_foldr cols : sizes_sum cols = foldr Z.add 0 (column_size_ <$> cols).
Proof. induction cols as [|c cols IH]; [done|]. cbn. by rewrite <-IH. Qed.

Lemma sizes_bound cs : forallb spec_ok cs = true →
  0 ≤ foldr Z.add 0 (spec_size <$> cs) ≤ 2 ^ 32 * len cs.
Proof.
  induction cs as [|c cs IH]; cbn [forallb fmap list_fmap foldr length]; [lia|].
  intros [Hc Hcs]%andb_true_iff. specialize (IH Hcs). unfold spec_ok in Hc. lia.
Qed.

Lemma init_schema_made id cs ids num par par_num : literals_ok id cs ids num par par_num = true →
  ∃ sc cols, init_schema id cs ids num par par_num = Some sc ∧ schema_made id (spec_size <$> cs) sc cols.
Proof.
  unfold literals_ok.
  intros [[[[[[Hi0 Hi1]%andb_true_iff Hcs]%andb_true_iff H0]%andb_true_iff Hl]%andb_true_iff Hp]%andb_true_iff Hq]%andb_true_iff.
  destruct (columns_ok cs Hcs) as (cols & E & Hv & Es).
  assert (length cols = length cs) as El by (by rewrite <-(length_fmap column_size_ cols), Es, length_fmap).
  assert (Forall sized cols) as Hs.
  { apply Forall_lookup_2. intros i c Hc. pose proof (f_equal (λ l, l !! i) Es) as Ei. cbn in Ei.
    rewrite !list_lookup_fmap, Hc in Ei. destruct (cs !! i) as [sp|] eqn:Hsp; [|done]. injection Ei as Ei.
    rewrite forallb_forall in Hcs. apply list_elem_of_lookup_2, list_elem_of_In, Hcs in Hsp.
    unfold spec_ok in Hsp. unfold sized. lia. }
  assert (sizes_sum cols < 2 ^ 63) as Hsum.
  { rewrite sizes_sum_foldr, Es. pose proof (sizes_bound cs Hcs). change kMaxColumnNum with 32 in Hl. lia. }
  unfold init_schema. rewrite E. cbn [mbind option_bind].
  destruct (InsertColumns cols (new_RecordSchema id)) as [sc|] eqn:Ei.
  - destruct (new_schema_wf id cols sc) as (placed & W & Sc & Esz & Eo & Eid); [unfold fits; lia|done|done| |done|done|].
    { intros ->. cbn in El. lia. }
    destruct (SetPrimaryColumns_made id (spec_size <$> cs) sc placed ids num) as (sc1 & E1 & M1); [|done|].
    { split; [done|done|by rewrite Esz|unfold GetSchemaSize; by rewrite Eo, sizes_sum_foldr, Es|done]. }
    destruct (SetPartitionColumns_made id (spec_size <$> cs) sc1 placed par par_num M1 Hq) as (sc2 & E2 & M2).
    cbn [mbind option_bind]. rewrite E1. cbn [mbind option_bind]. by exists sc2, placed.
  - unfold InsertColumns in Ei. rewrite El, Hl in Ei. by destruct (place_columns _ _).
Qed.

(** The last column, the visibility, has one byte. *)
Lemma schema_made_vis id sizes sc cols : schema_made id sizes sc cols → last sizes = Some 1 → schema_vis sc cols.
Proof.
  intros [_ Sc Es _ _] Hl. split; [done|]. rewrite <-Es, fmap_last in Hl.
  destruct (last cols) as [c|]; [|done]. injection Hl as Hl. by exists c.
Qed.

Lemma schema_made_size id sizes sc cols i n : schema_made id sizes sc cols → sizes !! i = Some n →
  GetColumnSize (Z.of_nat i) sc = Some n ∧ Z.of_nat i < column_count_ sc.
Proof.
  intros [_ Sc Es _ _] Hi. rewrite <-Es, list_lookup_fmap in Hi. destruct (cols !! i) as [c|] eqn:Hc; [|done].
  injection Hi as <-. unfold GetColumnSize. rewrite (get_column_ok sc cols i c Sc Hc). split; [done|].
  destruct (sk_count _ _ Sc) as [-> _]. apply lookup_lt_Some in Hc. lia.
Qed.
End wf.

(** ** The ten tables, by their number *)
Definition tpcc_inits {J : Indeterminate} : list (option RecordSchema) :=
  [InitItemSchema; InitStockSchema; InitWarehouseSchema; InitDistrictSchema; InitDistrictNewOrderSchema;
   InitNewOrderSchema; InitOrderSchema; InitOrderLineSchema; InitCustomerSchema; InitHistorySchema].
Definition tpcc_sizes : list (list Z) :=
  [[4; 4; 32; 8; 64; 1];
   [4; 4; 4; 32; 32; 32; 32; 32; 32; 32; 32; 32; 32; 4; 4; 4; 64; 1];
   [4; 16; 32; 32; 32; 2; 9; 8; 8; 1];
   [4; 4; 16; 32; 32; 32; 2; 9; 8; 8; 4; 1];
   [4; 4; 4; 1];
   [4; 4; 4; 1];
   [4; 4; 4; 4; 8; 4; 4; 4; 1];
   [4; 4; 4; 4; 4; 4; 8; 4; 8; 32; 1];
   [4; 4; 4; 32; 2; 32; 32; 32; 32; 2; 9; 32; 8; 2; 8; 8; 8; 8; 4; 4; 500; 1];
   [4; 4; 4; 4; 4; 8; 8; 32; 1]].

Section database.
Context {J : Indeterminate}.

Lemma inits_made : Forall2 (λ init p, ∃ sc cols, init = Some sc ∧ schema_made p.1 p.2 sc cols)
  tpcc_inits (zip (seqZ 0 10) tpcc_sizes).
Proof.
  repeat first [apply Forall2_nil_2|apply Forall2_cons_2;
    [edestruct init_schema_made as (sc & cols & E & M); [|exists sc, cols; split; [exact E|exact M]]; reflexivity|]].
Qed.

(** Tables with these schemas. *)
Definition has_schema (t : Table) (p : Z * list Z) : Prop := ∃ cols, schema_made p.1 p.2 (t_schema_ptr_ t) cols.
Definition tpcc_tables (tables : list Table) : Prop := Forall2 has_schema tables (zip (seqZ 0 10) tpcc_sizes).

Lemma RegisterSchemas_made : ∃ scs, RegisterSchemas = Some (Some <$> scs) ∧
  Forall2 (λ sc p, ∃ cols, schema_made p.1 p.2 sc cols) scs (zip (seqZ 0 10) tpcc_sizes).
Proof.
  assert (∃ scs, tpcc_inits = Some <$> scs ∧
    Forall2 (λ sc p, ∃ cols, schema_made p.1 p.2 sc cols) scs (zip (seqZ 0 10) tpcc_sizes)) as (scs & E & F).
  { pose proof inits_made as H. induction H as [|init p inits ps (sc & cols & -> & M) _ IH]; [by exists []|].
    destruct IH as (scs & -> & F). exists (sc :: scs). split; [done|]. constructor; [by exists cols|done]. }
  exists scs. split; [|done]. rewrite <-E. unfold tpcc_inits in E |- *.
  pose proof (Forall2_length _ _ _ F) as El. change (length (zip (seqZ 0 10) tpcc_sizes)) with 10%nat in El.
  do 10 (destruct scs as [|? scs]; [discriminate El|]). destruct scs; [|discriminate El].
  unfold RegisterSchemas. revert E.
  generalize InitItemSchema InitStockSchema InitWarehouseSchema InitDistrictSchema InitDistrictNewOrderSchema
    InitNewOrderSchema InitOrderSchema InitOrderLineSchema InitCustomerSchema InitHistorySchema.
  intros ? ? ? ? ? ? ? ? ? ? E. injection E as -> -> -> -> -> -> -> -> -> ->. reflexivity.
Qed.

(** The columns of each schema. *)
Lemma made_columns scs ps : Forall2 (λ sc p, ∃ cols, schema_made p.1 p.2 sc cols) scs ps →
  ∃ cs, Forall2 schema_wf scs cs.
Proof.
  induction 1 as [|sc p scs ps [cols M] _ [cs IH]]; [by exists []|]. exists (cols :: cs).
  constructor; [apply M|done].
Qed.

Lemma mapM_some {A} (l : list A) : mapM (λ x, x) (Some <$> l) = Some l.
Proof. induction l as [|x l IH]; [done|]. cbn. by rewrite IH. Qed.
End database.

(** What the master stores, and what it costs. *)
Definition storage_room {J : Indeterminate} : Z := table_room * 10 + storage_serialize_size + 4096.

Lemma wp_InitStorage {S} {J : Indeterminate} {G : GAlloc S} {GH : GHeap S} (s : S) h (Q : GlobalAddress → S → Prop) :
  heap_ok s h → storage_room ≤ room s →
  (∀ a st cs own h' s', heap_ok s' h' → storage_wf st cs → storage_at h' a st cs → valid a →
     tpcc_tables (tables_ st) → t_table_id_ <$> tables_ st = seqZ 0 10 → tables_rep 0 h' (tables_ st) own (λ _ _, []) →
     (∀ b bs, h !! b = Some bs → h' !! b = Some bs ∧ ∀ j, (j < length (tables_ st))%nat → ¬ own j b) →
     room s - storage_room ≤ room s' → Q a s') →
  wpd (InitStorage true) Q s.
Proof.
  intros Hok Hr HQ. assert (0 < table_room) by by vm_compute. unfold storage_room in *.
  destruct RegisterSchemas_made as (scs & Er & F). destruct (made_columns scs _ F) as [cs Hw].
  pose proof (Forall2_length _ _ _ F) as Elen. change (length (zip (seqZ 0 10) tpcc_sizes)) with 10%nat in Elen.
  change storage_serialize_size with 26408 in Hr, HQ. unfold InitStorage. rewrite Er. repeat wpd_step.
  eapply wp_AlignedMalloc; [done|by vm_compute|by vm_compute|change storage_serialize_size with 26408; lia|].
  intros a bs s1 Ha Hl _ Hva Hok1 Hr1. change storage_serialize_size with 26408 in Hl, Hr1.
  unfold tpcc_RegisterTables, RegisterTables. rewrite mapM_some. repeat wpd_step. eapply wpd_in_array; [done|].
  repeat wpd_step. apply wpd_assert; [by rewrite Elen|]. repeat wpd_step.
  eapply (wp_make_tables scs cs _ 0 s1); [exact Hok1|done|done|rewrite Elen; lia|rewrite Elen; lia|].
  intros ts own h2 s2 Hok2 R2 Hts Esc Eid Hold Hr2. repeat wpd_step. rewrite Elen in Eid, Hr2.
  set (st := mk_StorageManager ts (len scs)).
  assert (length ts = length scs) as Ets by (by rewrite <-Esc, length_fmap).
  assert (storage_wf st cs) as W by (split; [cbn; rewrite Ets, Elen; by split|done]).
  destruct (Hold a bs) as [Ea Hna]; [apply lookup_insert_eq|].
  eapply (wp_storage_Serialize s2 h2 a 26408 st cs); [done|exists bs; by split|done|done|].
  intros h3 s3 Hok3 At Ho Hr3. repeat wpd_step.
  apply (HQ a st cs own h3); [done..|exact Hva| |exact Eid| | |lia].
  - unfold tpcc_tables, has_schema. rewrite <-Esc in F. by apply Forall2_fmap_l in F.
  - eapply tables_rep_ext; [exact R2|]. intros i b Hi Hb. apply Ho. intros ->. by apply (Hna i).
  - intros b d Hb. destruct (Hold b d) as [Eb Hnb]; [rewrite lookup_insert_ne; congruence|].
    split; [rewrite Ho; congruence|done].
Qed.

(** C27: The database of the benchmark: what the master makes and stores is read back by any
    node as ten empty tables, in the order of their numbers, with the columns of
    [TpccInitiator.h] (each with the size of its type and the last one the visibility), and
    nothing else that was allocated is changed or used by the tables. *)
Theorem tpcc_storage {S} {J : Indeterminate} {G : GAlloc S} {GH : GHeap S} (s : S) h :
  heap_ok s h → table_room * 10 + storage_serialize_size + 4096 ≤ room s →
  wpd (addr ← InitStorage true; storage_Deserialize addr)
    (λ st s', tpcc_tables (tables_ st) ∧ t_table_id_ <$> tables_ st = seqZ 0 10 ∧
       ∃ own h', heap_ok s' h' ∧ tables_rep 0 h' (tables_ st) own (λ _ _, []) ∧
         ∀ a bs, h !! a = Some bs → h' !! a = Some bs ∧ ∀ j, (j < length (tables_ st))%nat → ¬ own j a) s.
Proof.
  intros Hok Hr. wpd_step. eapply wp_InitStorage; [done|done|].
  intros a st cs own h1 s1 Hok1 W At _ HT Eid Rep Hold _. eapply (wp_storage_Deserialize s1 h1 a st cs); [done..|].
  intros s2 Hok2 _. split; [done|]. split; [done|]. by exists own, h1.
Qed.

Lemma tpcc_storage_witness :
  wpd (addr ← InitStorage true; storage_Deserialize addr)
    (λ st _, tpcc_tables (tables_ st) ∧ t_table_id_ <$> tables_ st = seqZ 0 10) flat_init.
Proof.
  eapply wpd_mono.
  - apply (tpcc_storage flat_init ∅); [exact flat_init_ok|vm_compute; discriminate].
  - intros st s' (H & E & _). by split.
Defined.
