(* ===== verification/TpccProcs.v ===== *)
(** * TpccProcs: [TpccProcedure.h], the transactions of the benchmark

    Each procedure is run by a thread on its transaction manager, with the parameters
    ([TpccTxnParams.h]) and an array for what it returns ([CharArray.h]).  The reference
    says which records a procedure copies and how it changes the copies; the procedures
    implement it on a thread that runs alone. *)
From S2P Require Import Prelude GlobalMem DbStore DbFlat DbDsm DbArray DbIndex DbSchema DbTable DbTxn DbSerial TpccBase TpccSchemas.
From stdpp Require Import base numbers option list list_numbers gmap.
Open Scope Z_scope.

(** ** [CharArray.h] *)
Record CharArray := mk_CharArray { size_ : Z; char_ptr_ : list Z }.

Definition Memcpy (offset : Z) (char_ptr : list Z) (c : CharArray) : option CharArray :=
  if offset + len char_ptr <=? len (char_ptr_ c)
  then Some (mk_CharArray (size_ c) (splice offset char_ptr (char_ptr_ c))) else None.

(** [ret.Memcpy(ret.size_, &x, sizeof(x)); ret.size_ += sizeof(x);] *)
Definition append_ret (bs : list Z) (c : CharArray) : option CharArray :=
  c ← Memcpy (size_ c) bs c; Some (mk_CharArray (size_ c + len bs) (char_ptr_ c)).

(** ** [TpccTxnParams.h] *)
Record DeliveryParam := mk_DeliveryParam {
  del_w_id_ : Z;
  del_o_carrier_id_ : Z;
  del_ol_delivery_d_ : Z;
}.

Record NewOrderParam := mk_NewOrderParam {
  no_w_id_ : Z;
  no_d_id_ : Z;
  no_c_id_ : Z;
  no_o_entry_d_ : Z;
  ol_cnt_ : Z;
  i_ids_ : list Z;
  i_w_ids_ : list Z;
  i_qtys_ : list Z;
  item_access_type_ : list Z;
  stock_access_type_ : list Z;
  no_warehouse_access_type_ : Z;
  no_district_access_type_ : Z;
  no_customer_access_type_ : Z;
  new_order_access_type_ : Z;
  order_access_type_ : Z;
  order_line_access_type_ : list Z;
}.

Record PaymentParam := mk_PaymentParam {
  pay_w_id_ : Z;
  pay_d_id_ : Z;
  h_amount_ : double;
  pay_c_w_id_ : Z;
  pay_c_d_id_ : Z;
  pay_c_id_ : Z;
  h_date_ : Z;
  pay_warehouse_access_type_ : Z;
  pay_district_access_type_ : Z;
  pay_customer_access_type_ : Z;
  history_access_type_ : Z;
}.

Record OrderStatusParam := mk_OrderStatusParam { os_w_id_ : Z; os_d_id_ : Z; os_c_id_ : Z }.
Record StockLevelParam := mk_StockLevelParam { sl_w_id_ : Z; sl_d_id_ : Z }.

Inductive TxnParam :=
| delivery_param (p : DeliveryParam)
| new_order_param (p : NewOrderParam)
| payment_param (p : PaymentParam)
| order_status_param (p : OrderStatusParam)
| stock_level_param (p : StockLevelParam).

Definition NULL_CARRIER_ID : Z := 0.

(** [GetColumn] into a variable that holds [init]. *)
Definition over (init d : list Z) : option (list Z) :=
  if len d <=? len init then Some (d ++ drop (length d) init) else None.
Definition column_int (col : Z) (r : DbRecord) : option Z :=
  d ← GetColumn col r; d ← over (int_bytes 0) d; Some (bytes_int d).
Definition column_double (col : Z) (r : DbRecord) : option double :=
  d ← GetColumn col r; d ← over (double_bytes (d_of_Z 0)) d; Some (bytes_double d).

Section procedures.
Context {S : Type} {J : Indeterminate} {G : GAlloc S} {L : RecordLocks S}.
Context (sp : TpccScaleParams) (tables : list Table) (fuel : nat) (thread_id : Z).

Abbreviation TX := (DB (thread S)).
Abbreviation search := (SearchRecord tables fuel thread_id).

(** ** Statements *)

(** [DB_QUERY(SearchRecord(...))] in [Execute] *)
Definition query {A} (statement : TX (option A)) (ret : CharArray) (rest : A → TX (bool * CharArray)) :
    TX (bool * CharArray) :=
  r ← statement;
  match r with Some a => rest a | None => mret (false, ret) end.

(** A loop whose body may return from the procedure. *)
Fixpoint for_query {A B R} (l : list A) (b : B) (body : A → B → (B → TX R) → TX R) (rest : B → TX R) : TX R :=
  match l with
  | [] => rest b
  | x :: l => body x b (λ b, for_query l b body rest)
  end.

Definition get_int (p : nat) (col : Z) : TX Z :=
  d ← get_column_of p col; d ← in_array (over (int_bytes 0) d); mret (bytes_int d).
Definition get_double (p : nat) (col : Z) : TX double :=
  d ← get_column_of p col; d ← in_array (over (double_bytes (d_of_Z 0)) d); mret (bytes_double d).

(** [x + y] on [int] *)
Definition int_add (x y : Z) : TX Z := in_array (int_of (x + y)).

(** The statements that make and store a new record: its memory, the record with its columns,
    the store. *)
Definition make_row (table_id access_type : Z) (cols : list (Z * list Z)) : TX (nat * GlobalAddress) :=
  t ← in_array (arr_get tables table_id);
  addr ← lift (Malloc (GetSchemaSize (t_schema_ptr_ t)));
  p ← new_record (t_schema_ptr_ t);
  for_each cols (λ c, set_column_of p c.1 c.2);;
  set_visible_of p true;;
  (if access_type =? READ_ONLY then mret () else r ← get_record p; lift (record_Serialize addr r));;
  mret (p, addr).

(** [DB_QUERY(InsertRecord(...))] of a new record *)
Definition insert_row (table_id key access_type : Z) (cols : list (Z * list Z)) (ret : CharArray)
    (rest : TX (bool * CharArray)) : TX (bool * CharArray) :=
  row ← make_row table_id access_type cols;
  ok ← InsertRecord tables thread_id table_id [key] 1 row.1 row.2;
  if ok : bool then rest else mret (false, ret).

(** ** [DeliveryProcedure] *)
Section delivery.
Context (param : DeliveryParam).
Abbreviation w_id := (del_w_id_ param).

(** The members of the procedure: [sums] is never assigned, the two others are assigned
    before they are read. *)
Definition delivery_sums : list double := replicate 10 (bytes_double (replicate 8 junk)).

Definition delivery_new_orders (ret : CharArray) (no_d_id : Z) (no_o_ids : list Z)
    (rest : list Z → TX (bool * CharArray)) : TX (bool * CharArray) :=
  let district_new_order_key := GetDistrictNewOrderPrimaryKey no_d_id w_id in
  query (search DISTRICT_NEW_ORDER_TABLE_ID district_new_order_key READ_WRITE) ret (λ district_new_order_record,
  no_o_id ← get_int district_new_order_record 2;
  assert_ (negb (no_o_id =? 0));;
  let new_order_key := GetNewOrderPrimaryKey no_o_id no_d_id w_id in
  new_order_record ← search NEW_ORDER_TABLE_ID new_order_key READ_ONLY;
  match new_order_record with
  | Some _ =>
      no_o_ids ← in_array (arr_set no_o_ids (no_d_id - 1) no_o_id);
      next_o_id ← int_add no_o_id 1;
      set_column_of district_new_order_record 2 (int_bytes next_o_id);;
      rest no_o_ids
  | None =>
      no_o_ids ← in_array (arr_set no_o_ids (no_d_id - 1) (-1));
      set_column_of district_new_order_record 2 (int_bytes 1);;
      rest no_o_ids
  end).

Definition delivery_orders (no_o_ids : list Z) (ret : CharArray) (no_d_id : Z) (c_ids : list Z)
    (rest : list Z → TX (bool * CharArray)) : TX (bool * CharArray) :=
  no_o_id ← in_array (arr_get no_o_ids (no_d_id - 1));
  if no_o_id =? -1 then rest c_ids else
  let order_key := GetOrderPrimaryKey no_o_id no_d_id w_id in
  query (search ORDER_TABLE_ID order_key READ_WRITE) ret (λ order_record,
  set_column_of order_record 5 (int_bytes (del_o_carrier_id_ param));;
  c_id ← get_int order_record 1;
  assert_ (negb (c_id =? 0));;
  c_ids ← in_array (arr_set c_ids (no_d_id - 1) c_id);
  rest c_ids).

Definition delivery_customers (no_o_ids c_ids : list Z) (ret : CharArray) (no_d_id : Z) (_ : unit)
    (rest : unit → TX (bool * CharArray)) : TX (bool * CharArray) :=
  no_o_id ← in_array (arr_get no_o_ids (no_d_id - 1));
  if no_o_id =? -1 then rest () else
  c_id ← in_array (arr_get c_ids (no_d_id - 1));
  customer_key ← checked (GetCustomerPrimaryKey sp c_id no_d_id w_id);
  query (search CUSTOMER_TABLE_ID customer_key READ_WRITE) ret (λ customer_record,
  balance ← get_double customer_record 16;
  sum ← in_array (arr_get delivery_sums (no_d_id - 1));
  set_column_of customer_record 16 (double_bytes (d_add balance sum));;
  rest ()).

(** What is returned: for each district the order and the district. *)
Definition delivery_ret (no_o_ids : list Z) (ret : CharArray) : option CharArray :=
  foldl (λ ret no_d_id,
    ret ← ret;
    no_o_id ← arr_get no_o_ids (no_d_id - 1);
    ret ← append_ret (int_bytes no_o_id) ret;
    append_ret (int_bytes no_d_id) ret) (Some ret) (seqZ 1 DISTRICTS_PER_WAREHOUSE).

Definition DeliveryProcedure (ret : CharArray) : TX (bool * CharArray) :=
  let districts := seqZ 1 DISTRICTS_PER_WAREHOUSE in
  let uninitialised := replicate 10 (bytes_int (replicate 4 junk)) in
  for_query districts uninitialised (delivery_new_orders ret) (λ no_o_ids,
  for_query districts uninitialised (delivery_orders no_o_ids ret) (λ c_ids,
  for_query districts () (delivery_customers no_o_ids c_ids ret) (λ _,
  ret ← in_array (delivery_ret no_o_ids ret);
  ok ← CommitTransaction thread_id;
  mret (ok, ret)))).
End delivery.

(** ** [NewOrderProcedure] *)
Section new_order.
Context (param : NewOrderParam).
Abbreviation w_id := (no_w_id_ param).
Abbreviation d_id := (no_d_id_ param).

Definition at_index {A} (l : list A) (i : Z) : TX A := in_array (arr_get l i).

(** What is returned so far, [ol_amounts] and [total]. *)
Definition new_order_item (i : Z) (acc : CharArray * list double * double)
    (rest : CharArray * list double * double → TX (bool * CharArray)) : TX (bool * CharArray) :=
  let '(ret, ol_amounts, total) := acc in
  item_id ← at_index (i_ids_ param) i;
  item_key ← checked (GetItemPrimaryKey sp item_id w_id);
  access_type ← at_index (item_access_type_ param) i;
  item_record ← search ITEM_TABLE_ID item_key access_type;
  match item_record with
  | None => assert_ false;; AbortTransaction thread_id;; mret (false, ret)
  | Some item_record =>
      price ← get_double item_record 3;
      ret ← in_array (append_ret (int_bytes item_id) ret);
      ret ← in_array (append_ret (double_bytes price) ret);
      ol_quantity ← at_index (i_qtys_ param) i;
      let ol_amount := d_mul (d_of_Z ol_quantity) price in
      ol_amounts ← in_array (arr_set ol_amounts i ol_amount);
      rest (ret, ol_amounts, d_add total ol_amount)
  end.

(** The changes of the stock's record. *)
Definition take_stock (stock_record : nat) (ol_quantity ol_supply_w_id : Z) : TX unit :=
  ytd ← get_int stock_record 13;
  ytd ← int_add ytd ol_quantity;
  set_column_of stock_record 13 (int_bytes ytd);;
  quantity ← get_int stock_record 2;
  limit ← int_add ol_quantity 10;
  (if limit <=? quantity then
     quantity ← int_add quantity (- ol_quantity);
     set_column_of stock_record 2 (int_bytes quantity)
   else
     quantity ← int_add quantity 91;
     quantity ← int_add quantity (- ol_quantity);
     set_column_of stock_record 2 (int_bytes quantity));;
  order_cnt ← get_int stock_record 14;
  order_cnt ← int_add order_cnt 1;
  set_column_of stock_record 14 (int_bytes order_cnt);;
  if ol_supply_w_id =? w_id then mret ()
  else
    remote_cnt ← get_int stock_record 15;
    remote_cnt ← int_add remote_cnt 1;
    set_column_of stock_record 15 (int_bytes remote_cnt).

Definition new_order_stock (ret : CharArray) (i : Z) (s_dists : list (list Z))
    (rest : list (list Z) → TX (bool * CharArray)) : TX (bool * CharArray) :=
  ol_i_id ← at_index (i_ids_ param) i;
  ol_supply_w_id ← at_index (i_w_ids_ param) i;
  let stock_key := GetStockPrimaryKey ol_i_id ol_supply_w_id in
  access_type ← at_index (stock_access_type_ param) i;
  query (search STOCK_TABLE_ID stock_key access_type) ret (λ stock_record,
  ol_quantity ← at_index (i_qtys_ param) i;
  take_stock stock_record ol_quantity ol_supply_w_id;;
  dist_column ← int_add d_id 2;
  s_dist ← get_column_of stock_record dist_column;
  old ← at_index s_dists i;
  s_dist ← in_array (over old s_dist);
  s_dists ← in_array (arr_set s_dists i s_dist);
  rest s_dists).

Definition new_order_line (d_next_o_id : Z) (ol_amounts : list double) (s_dists : list (list Z)) (ret : CharArray)
    (i : Z) (_ : unit) (rest : unit → TX (bool * CharArray)) : TX (bool * CharArray) :=
  let ol_number := i + 1 in
  ol_i_id ← at_index (i_ids_ param) i;
  ol_supply_w_id ← at_index (i_w_ids_ param) i;
  ol_quantity ← at_index (i_qtys_ param) i;
  ol_amount ← at_index ol_amounts i;
  s_dist ← at_index s_dists i;
  access_type ← at_index (order_line_access_type_ param) i;
  insert_row ORDER_LINE_TABLE_ID (GetOrderLinePrimaryKey d_next_o_id d_id w_id ol_number) access_type
    [(0, int_bytes d_next_o_id); (1, int_bytes d_id); (2, int_bytes w_id); (3, int_bytes ol_number);
     (4, int_bytes ol_i_id); (5, int_bytes ol_supply_w_id); (6, long_bytes (no_o_entry_d_ param));
     (7, int_bytes ol_quantity); (8, double_bytes ol_amount); (9, s_dist)] ret (rest ()).

(** Whether all the lines are supplied by the warehouse of the order: every entry of the
    array is compared. *)
Definition all_local : Z := if forallb (Z.eqb w_id) (i_w_ids_ param) then 1 else 0.

(** [total] goes nowhere, the size of the answer grows by its size. *)
Definition new_order_finish (w_tax d_tax c_discount total : double) (ret : CharArray) : TX (bool * CharArray) :=
  ret ← in_array (append_ret (double_bytes w_tax) ret);
  ret ← in_array (append_ret (double_bytes d_tax) ret);
  ret ← in_array (append_ret (double_bytes c_discount) ret);
  let ret := mk_CharArray (size_ ret + 8) (char_ptr_ ret) in
  ok ← CommitTransaction thread_id;
  mret (ok, ret).

Definition order_columns (d_next_o_id : Z) : list (Z * list Z) :=
  [(0, int_bytes d_next_o_id); (1, int_bytes (no_c_id_ param)); (2, int_bytes d_id); (3, int_bytes w_id);
   (4, long_bytes (no_o_entry_d_ param)); (5, int_bytes NULL_CARRIER_ID); (6, long_bytes (ol_cnt_ param));
   (7, int_bytes all_local)].
Definition new_order_columns (d_next_o_id : Z) : list (Z * list Z) :=
  [(0, int_bytes d_next_o_id); (1, int_bytes d_id); (2, int_bytes w_id)].

(** The warehouse, the district and the customer, and the new records. *)
Definition new_order_records (ol_amounts : list double) (total : double) (s_dists : list (list Z)) (ret : CharArray) :
    TX (bool * CharArray) :=
  warehouse_key ← checked (GetWarehousePrimaryKey sp w_id);
  query (search WAREHOUSE_TABLE_ID warehouse_key (no_warehouse_access_type_ param)) ret (λ warehouse_record,
  w_tax ← get_double warehouse_record 7;
  district_key ← checked (GetDistrictPrimaryKey sp d_id w_id);
  query (search DISTRICT_TABLE_ID district_key (no_district_access_type_ param)) ret (λ district_record,
  d_next_o_id ← get_int district_record 10;
  assert_ (0 <? d_next_o_id);;
  ret ← in_array (append_ret (int_bytes d_next_o_id) ret);
  d_tax ← get_double district_record 8;
  o_id ← int_add d_next_o_id 1;
  set_column_of district_record 10 (int_bytes o_id);;
  customer_key ← checked (GetCustomerPrimaryKey sp (no_c_id_ param) d_id w_id);
  query (search CUSTOMER_TABLE_ID customer_key (no_customer_access_type_ param)) ret (λ customer_record,
  c_discount ← get_double customer_record 15;
  insert_row NEW_ORDER_TABLE_ID (GetNewOrderPrimaryKey d_next_o_id d_id w_id) (new_order_access_type_ param)
    (new_order_columns d_next_o_id) ret (
  insert_row ORDER_TABLE_ID (GetOrderPrimaryKey d_next_o_id d_id w_id) (order_access_type_ param)
    (order_columns d_next_o_id) ret (
  for_query (seqZ 0 (ol_cnt_ param)) () (new_order_line d_next_o_id ol_amounts s_dists ret) (λ _,
  new_order_finish w_tax d_tax c_discount total ret)))))).

Definition NewOrderProcedure (ret : CharArray) : TX (bool * CharArray) :=
  let lines := seqZ 0 (ol_cnt_ param) in
  for_query lines (ret, replicate 15 (bytes_double (replicate 8 junk)), d_of_Z 0) new_order_item
    (λ '(ret, ol_amounts, total),
  for_query lines (replicate 15 (replicate 33 junk)) (new_order_stock ret) (λ s_dists,
  new_order_records ol_amounts total s_dists ret)).
End new_order.

(** ** [PaymentProcedure] *)
Section payment.
Context (param : PaymentParam).

Definition history_columns : list (Z * list Z) :=
  [(0, int_bytes (pay_c_id_ param)); (1, int_bytes (pay_c_d_id_ param)); (2, int_bytes (pay_c_w_id_ param));
   (3, int_bytes (pay_d_id_ param)); (4, int_bytes (pay_w_id_ param)); (5, long_bytes (h_date_ param));
   (6, double_bytes (h_amount_ param))].

(** The customer: [None] is the null pointer that is left for [c_id_ == -1]. *)
Definition payment_customer (ret : CharArray) (rest : option nat → TX (bool * CharArray)) : TX (bool * CharArray) :=
  if pay_c_id_ param =? -1 then rest None
  else
    customer_key ← checked (GetCustomerPrimaryKey sp (pay_c_id_ param) (pay_c_d_id_ param) (pay_c_w_id_ param));
    query (search CUSTOMER_TABLE_ID customer_key (pay_customer_access_type_ param)) ret (λ p, rest (Some p)).

Definition PaymentProcedure (ret : CharArray) : TX (bool * CharArray) :=
  warehouse_key ← checked (GetWarehousePrimaryKey sp (pay_w_id_ param));
  query (search WAREHOUSE_TABLE_ID warehouse_key (pay_warehouse_access_type_ param)) ret (λ warehouse_record,
  w_ytd ← get_double warehouse_record 8;
  ret ← in_array (append_ret (double_bytes w_ytd) ret);
  set_column_of warehouse_record 8 (double_bytes (d_add w_ytd (h_amount_ param)));;
  district_key ← checked (GetDistrictPrimaryKey sp (pay_d_id_ param) (pay_w_id_ param));
  query (search DISTRICT_TABLE_ID district_key (pay_district_access_type_ param)) ret (λ district_record,
  d_ytd ← get_double district_record 9;
  ret ← in_array (append_ret (double_bytes d_ytd) ret);
  set_column_of district_record 9 (double_bytes (d_add d_ytd (h_amount_ param)));;
  payment_customer ret (λ customer_record,
  customer_record ← in_array customer_record;
  balance ← get_double customer_record 16;
  set_column_of customer_record 16 (double_bytes (d_sub balance (h_amount_ param)));;
  ytd_payment ← get_double customer_record 17;
  set_column_of customer_record 17 (double_bytes (d_add ytd_payment (h_amount_ param)));;
  payment_cnt ← get_int customer_record 18;
  payment_cnt ← int_add payment_cnt 1;
  set_column_of customer_record 18 (int_bytes payment_cnt);;
  insert_row HISTORY_TABLE_ID (GetHistoryPrimaryKey (pay_c_id_ param) (pay_d_id_ param) (pay_w_id_ param))
    (history_access_type_ param) history_columns ret (
  ok ← CommitTransaction thread_id;
  mret (ok, ret))))).
End payment.

(** ** [OrderStatusProcedure] and [StockLevelProcedure] *)
Definition OrderStatusProcedure (param : OrderStatusParam) (ret : CharArray) : TX (bool * CharArray) :=
  ok ← CommitTransaction thread_id; mret (ok, ret).
Definition StockLevelProcedure (param : StockLevelParam) (ret : CharArray) : TX (bool * CharArray) :=
  ok ← CommitTransaction thread_id; mret (ok, ret).

(** The procedure registered for the type of the parameters ([TpccExecutor.h]). *)
Definition Execute (param : TxnParam) (ret : CharArray) : TX (bool * CharArray) :=
  match param with
  | delivery_param p => DeliveryProcedure p ret
  | new_order_param p => NewOrderProcedure p ret
  | payment_param p => PaymentProcedure p ret
  | order_status_param p => OrderStatusProcedure p ret
  | stock_level_param p => StockLevelProcedure p ret
  end.
End procedures.
