(* ===== verification/TpccAlone.v ===== *)
(** * TpccAlone: the procedures on a thread that runs alone

    What the references of the procedures are made of: copies of records, changes of their
    columns, new rows.  The rules for a thread that runs alone on the database, with the
    locks that [DSM.h] has, and the columns of records with the schemas of the benchmark. *)
From S2P Require Import Prelude GlobalMem DbStore DbFlat DbDsm DbArray DbIndex DbSchema DbTable DbTxn DbSerial TpccBase TpccSchemas TpccProcs.
From stdpp Require Import base numbers option list list_numbers gmap.
Open Scope Z_scope.

(** ** The reference: which records are copied, and what becomes of the copies *)
Section reference.
Context {J : Indeterminate} (tables : list Table) (m : nat → Z → list GlobalAddress).
Implicit Types h : heap.

(** A copy to be read or written of the record that a key leads to. *)
Definition copy_at h (table_id key ty : Z) : option held :=
  let a := newest (m (Z.to_nat table_id) key) in
  if ga_eqb a ga_Null || negb ((ty =? READ_ONLY) || (ty =? READ_WRITE)) then None
  else
    t ← tables !! Z.to_nat table_id;
    bs ← h !! a;
    Some (mk_held ty a (mk_DbRecord (t_schema_ptr_ t) bs (GetSchemaSize (t_schema_ptr_ t)))).

Definition with_record (f : DbRecord → option DbRecord) (x : held) : option held :=
  r ← f (hd_record x); Some (mk_held (hd_type x) (hd_addr x) r).

(** Changes of a column. *)
Definition change_double (col : Z) (f : double → double) (r : DbRecord) : option DbRecord :=
  v ← column_double col r; SetColumn col (double_bytes (f v)) r.
Definition change_int (col : Z) (f : Z → Z) (r : DbRecord) : option DbRecord :=
  v ← column_int col r; v ← int_of (f v); SetColumn col (int_bytes v) r.

(** The bytes of a new record of a table; [None] inside when it is not stored. *)
Definition new_row (table_id access_type : Z) (cols : list (Z * list Z)) : option (option (list Z)) :=
  t ← tables !! Z.to_nat table_id;
  r ← set_columns cols (new_Record (t_schema_ptr_ t));
  r ← SetVisible true r;
  Some (if access_type =? READ_ONLY then None else Some (data_ptr_ r)).

End reference.

(** The heap with the new rows, each at an address of its own. *)
Inductive adds : heap → list (option (list Z)) → heap → Prop :=
| adds_nil h : adds h [] h
| adds_cons h a bs row rows h' :
    h !! a = None → (∀ d, row = Some d → bs = d) → adds (<[a := bs]> h) rows h' → adds h (row :: rows) h'.

Lemma append_ret_app out1 out2 ret ret1 ret2 :
  0 ≤ size_ ret → append_ret out1 ret = Some ret1 → append_ret out2 ret1 = Some ret2 →
  append_ret (out1 ++ out2) ret = Some ret2.
Proof.
  unfold append_ret, Memcpy. intros H0. destruct (Z.leb_spec (size_ ret + len out1) (len (char_ptr_ ret))) as [H1|]; [|done].
  intros [= <-]. cbn. rewrite splice_length by lia.
  destruct (Z.leb_spec (size_ ret + len out1 + len out2) (len (char_ptr_ ret))) as [H2|]; [|done]. cbn. intros [= <-].
  rewrite length_app. rewrite (proj2 (Z.leb_le _ _)) by lia. cbn. f_equal. f_equal; [lia|].
  apply list_eq. intros i. rewrite !splice_lookup by (rewrite ?splice_length, ?length_app; lia).
  rewrite length_app. destruct (decide (Z.to_nat (size_ ret) ≤ i < Z.to_nat (size_ ret) + length out1)%nat).
  - rewrite decide_True by lia. rewrite lookup_app_l by lia. by rewrite decide_False by lia.
  - case_decide as H3.
    + rewrite decide_True by lia. rewrite lookup_app_r by lia. f_equal. lia.
    + by rewrite decide_False by lia.
Qed.

Lemma append_ret_fits out ret : 0 ≤ size_ ret → size_ ret + len out ≤ len (char_ptr_ ret) →
  ∃ ret', append_ret out ret = Some ret' ∧ size_ ret' = size_ ret + len out ∧
    length (char_ptr_ ret') = length (char_ptr_ ret).
Proof.
  intros H0 H1. unfold append_ret, Memcpy. rewrite (proj2 (Z.leb_le _ _)) by done. eexists. split; [done|]. cbn.
  split; [done|]. by rewrite splice_length by lia.
Qed.

Lemma append_ret_inv out ret ret' : 0 ≤ size_ ret → append_ret out ret = Some ret' →
  size_ ret' = size_ ret + len out ∧ length (char_ptr_ ret') = length (char_ptr_ ret).
Proof.
  intros H0 E. destruct (decide (size_ ret + len out ≤ len (char_ptr_ ret))) as [H1|H1].
  - destruct (append_ret_fits out ret H0 H1) as (r & E' & ? & ?). by simplify_eq.
  - unfold append_ret, Memcpy in E. by rewrite (proj2 (Z.leb_gt _ _)) in E by lia.
Qed.

Lemma append_ret_nil ret : 0 ≤ size_ ret ≤ len (char_ptr_ ret) → append_ret [] ret = Some ret.
Proof.
  intros H. destruct ret as [n buf]. cbn in H. unfold append_ret, Memcpy. cbn [size_ char_ptr_ length].
  rewrite Z.add_0_r, (proj2 (Z.leb_le _ _)) by lia. cbn. rewrite Z.add_0_r. unfold splice. cbn.
  by rewrite Nat.add_0_r, take_drop.
Qed.

Lemma append_ret_split out1 out2 ret ret' : 0 ≤ size_ ret → append_ret (out1 ++ out2) ret = Some ret' →
  ∃ ret1, append_ret out1 ret = Some ret1 ∧ append_ret out2 ret1 = Some ret' ∧ 0 ≤ size_ ret1.
Proof.
  intros H0 E. assert (size_ ret + len (out1 ++ out2) ≤ len (char_ptr_ ret)) as Hf.
  { unfold append_ret, Memcpy in E. destruct (Z.leb_spec (size_ ret + len (out1 ++ out2)) (len (char_ptr_ ret))); done. }
  rewrite length_app in Hf. destruct (append_ret_fits out1 ret) as (r1 & E1 & S1 & L1); [lia..|].
  destruct (append_ret_fits out2 r1) as (r2 & E2 & S2 & L2); [lia..|]. exists r1. split; [done|].
  assert (append_ret (out1 ++ out2) ret = Some r2) as E' by by eapply append_ret_app.
  split; [congruence|lia].
Qed.

(** Setting a column keeps a record well-formed. *)
Lemma get_column_inv sc cols col c : schema_ok sc cols → get_column col sc = Some c →
  ∃ i, cols !! i = Some c ∧ col = Z.of_nat i.
Proof.
  intros Sc. unfold get_column. rewrite (sk_columns _ _ Sc). destruct (_ <? _); [|done]. cbn. unfold arr_get.
  destruct (Z.ltb_spec col 0); [done|]. intros E. exists (Z.to_nat col). split; [done|lia].
Qed.

Lemma SetColumn_rec_ok r cols col d r' : rec_ok r cols → SetColumn col d r = Some r' →
  rec_ok r' cols ∧ schema_ptr_ r' = schema_ptr_ r ∧ len (data_ptr_ r') = len (data_ptr_ r).
Proof.
  intros [[Sc El] Hv] E. pose proof E as E'. unfold SetColumn, GetColumnOffset, GetColumnSize in E'.
  destruct (get_column col (schema_ptr_ r)) as [c|] eqn:Ec; [|done]. cbn in E'.
  destruct (get_column_inv _ _ _ _ Sc Ec) as (i & Hi & ->).
  assert (column_size_ c ≤ len d) as Hd by (unfold record_memcpy in E'; destruct (Z.leb_spec (column_size_ c) (len d)); done).
  destruct (SetColumn_ok r cols i c d (conj Sc El) Hi Hd) as (r2 & E2 & Hr2 & Es & _). simplify_eq.
  split_and!; [by split|done|]. destruct Hr2 as [_ E2']. congruence.
Qed.

(** ** A thread that runs alone *)
Section alone.
Context {S : Type} {J : Indeterminate} {G : GAlloc S} {GH : GHeap S}.
Context (sp : TpccScaleParams) (tables : list Table) (fuel k : nat) (thread_id : Z).
Context (own : nat → GlobalAddress → Prop) (m : nat → Z → list GlobalAddress).
Implicit Types (h : heap) (w : thread S) (hs : list held) (ps : list nat) (n : Z).
#[local] Existing Instance dsm_locks.

(** The thread holds the copies [hs], at the pointers [ps], and [n] bytes are left. *)
Record alone n w h hs ps : Prop := {
  al_mem : heap_ok (th_mem w) h;
  al_db : db_ok tables fuel k own m h;
  al_rep : thread_rep w hs;
  al_good : Forall (held_good tables own h) hs;
  al_ptrs : access_record_ <$> th_accesses w = Some <$> ps;
  al_room : n ≤ room (th_mem w);
}.

Lemma alone_length n w h hs ps : alone n w h hs ps → length hs = length ps.
Proof.
  intros A. rewrite <-(thread_rep_length _ _ (al_rep _ _ _ _ _ A)), <-(length_fmap access_record_), (al_ptrs _ _ _ _ _ A).
  by rewrite length_fmap.
Qed.

Lemma alone_at n w h hs ps i x p : alone n w h hs ps → hs !! i = Some x → ps !! i = Some p →
  ∃ a, th_accesses w !! i = Some a ∧ access_record_ a = Some p.
Proof.
  intros A Hx Hp. pose proof (f_equal (λ l, l !! i) (al_ptrs _ _ _ _ _ A)) as E. cbn in E.
  rewrite !list_lookup_fmap, Hp in E. destruct (th_accesses w !! i) as [a|]; [|done]. exists a. by injection E.
Qed.

(** A search that finds. *)
Lemma alone_search id key ty x n w h hs ps (Q : option nat → thread S → Prop) :
  alone n w h hs ps → len hs < kMaxAccessLimit → 0 ≤ id → copy_at tables m h id key ty = Some x →
  (∀ w' p, alone n w' h (hs ++ [x]) (ps ++ [p]) → Q (Some p) w') →
  wpd (SearchRecord tables fuel thread_id id key ty) Q w.
Proof.
  intros [Hm D T Hg Hp Hr] Hl Hid E HQ. unfold copy_at in E.
  destruct (ga_eqb_spec (newest (m (Z.to_nat id) key)) ga_Null) as [|Hn]; [done|].
  destruct ((ty =? READ_ONLY) || (ty =? READ_WRITE)) eqn:Ety; [|done]. cbn in E.
  assert (0 ≤ ty < 4 ∧ ty ≠ DELETE_ONLY) as [Ht Hnd] by (unfold READ_ONLY, READ_WRITE, DELETE_ONLY in *; lia).
  destruct (tables !! Z.to_nat id) as [t|] eqn:Htb; [|done]. cbn in E.
  destruct (h !! newest (m (Z.to_nat id) key)) as [bs|] eqn:Hb; [|done]. injection E as <-.
  destruct (dk_schema _ _ _ _ _ _ D _ _ Htb) as [cols Hs].
  unfold SearchRecord. wpd_step. assert (id = Z.of_nat (Z.to_nat id)) as Eid by lia. rewrite Eid at 1.
  eapply (wp_present tables fuel k own m (Z.to_nat id) t key ty cols bs h w hs); try done.
  intros w' p x Hm' T' Hx Hrx Hrm Ha. wpd_step. apply HQ. split; [done|done|done| |by rewrite Ha, !fmap_app, Hp|lia].
  apply Forall_app. split; [done|]. by constructor.
Qed.

Lemma alone_query id key ty x n w h hs ps ret rest (Q : bool * CharArray → thread S → Prop) :
  alone n w h hs ps → len hs < kMaxAccessLimit → 0 ≤ id → copy_at tables m h id key ty = Some x →
  (∀ w' p, alone n w' h (hs ++ [x]) (ps ++ [p]) → wpd (rest p) Q w') →
  wpd (query (SearchRecord tables fuel thread_id id key ty) ret rest) Q w.
Proof. intros A Hl Hid E HQ. unfold query. wpd_step. by eapply alone_search. Qed.

(** A search that finds nothing. *)
Lemma alone_absent id key ty t n w h hs ps (Q : option nat → thread S → Prop) :
  alone n w h hs ps → len hs < kMaxAccessLimit → 0 ≤ id → tables !! Z.to_nat id = Some t →
  newest (m (Z.to_nat id) key) = ga_Null → (∀ w', alone n w' h hs ps → Q None w') →
  wpd (SearchRecord tables fuel thread_id id key ty) Q w.
Proof.
  intros [Hm D T Hg Hp Hr] Hl Hid Ht Hn HQ. destruct (dk_schema _ _ _ _ _ _ D _ _ Ht) as [cols Hs].
  unfold SearchRecord. wpd_step. assert (id = Z.of_nat (Z.to_nat id)) as Eid by lia. rewrite Eid at 1.
  eapply (wp_absent tables fuel k own m (Z.to_nat id) t key ty cols h w hs); try done.
  intros w' Hm' T' Hrm Ha. wpd_step. apply HQ. split; [done|done|done|done|by rewrite Ha|lia].
Qed.

(** Reading and writing a copy. *)
Lemma alone_get n w h hs ps i x p col d (Q : list Z → thread S → Prop) :
  alone n w h hs ps → hs !! i = Some x → ps !! i = Some p → GetColumn col (hd_record x) = Some d → Q d w →
  wpd (get_column_of p col) Q w.
Proof.
  intros A Hx Hp Hd HQ. destruct (alone_at _ _ _ _ _ _ _ _ A Hx Hp) as (a & Ha & Er).
  eapply wp_get_column; [apply A|done..].
Qed.

Lemma alone_get_int n w h hs ps i x p col v (Q : Z → thread S → Prop) :
  alone n w h hs ps → hs !! i = Some x → ps !! i = Some p → column_int col (hd_record x) = Some v → Q v w →
  wpd (get_int p col) Q w.
Proof.
  intros A Hx Hp E HQ. unfold column_int in E. destruct (GetColumn _ _) as [d|] eqn:Ed; [|done]. cbn in E.
  destruct (over _ d) as [d'|] eqn:Eo; [|done]. injection E as <-. unfold get_int. wpd_step.
  eapply alone_get; [exact A|done..|]. wpd_step. eapply wpd_in_array; [exact Eo|]. by wpd_step.
Qed.

Lemma alone_get_double n w h hs ps i x p col v (Q : double → thread S → Prop) :
  alone n w h hs ps → hs !! i = Some x → ps !! i = Some p → column_double col (hd_record x) = Some v → Q v w →
  wpd (get_double p col) Q w.
Proof.
  intros A Hx Hp E HQ. unfold column_double in E. destruct (GetColumn _ _) as [d|] eqn:Ed; [|done]. cbn [mbind option_bind] in E.
  destruct (over _ d) as [d'|] eqn:Eo; [|done]. injection E as <-. unfold get_double. wpd_step.
  eapply alone_get; [exact A|done..|]. wpd_step. eapply wpd_in_array; [exact Eo|]. by wpd_step.
Qed.

Lemma alone_set n w h hs ps i x p col d r (Q : unit → thread S → Prop) :
  alone n w h hs ps → hs !! i = Some x → ps !! i = Some p → SetColumn col d (hd_record x) = Some r →
  (∀ w', alone n w' h (<[i := mk_held (hd_type x) (hd_addr x) r]> hs) ps → Q () w') →
  wpd (set_column_of p col d) Q w.
Proof.
  intros A Hx Hp E HQ. destruct (alone_at _ _ _ _ _ _ _ _ A Hx Hp) as (a & Ha & Er). destruct A as [Hm D T Hg Hps Hr].
  eapply (wp_set_column (LS := dsm_locks_spec) w () h hs i x a p); [by split|done..|].
  intros w' [Hm' _] T' Hrm Hacc. apply HQ. split; [done|done|done| |by rewrite Hacc|lia].
  destruct (Forall_lookup_1 _ _ _ _ Hg Hx) as [[cols Hrec] (bs & Hb & Hl) Hty Hown].
  destruct (SetColumn_rec_ok _ _ _ _ _ Hrec E) as (Hrec' & _ & El).
  apply Forall_insert; [done|]. split; cbn; [by exists cols| |done|done]. exists bs. split; [done|lia].
Qed.

(** On the record that was copied last. *)
Lemma last_at {A} (l : list A) x : (l ++ [x]) !! length l = Some x.
Proof. by rewrite lookup_app_r, Nat.sub_diag by lia. Qed.

Lemma alone_last_ptr n w h hs x ps p : alone n w h (hs ++ [x]) (ps ++ [p]) → (ps ++ [p]) !! length hs = Some p.
Proof.
  intros A. pose proof (alone_length _ _ _ _ _ A) as E. rewrite !length_app in E. cbn in E.
  assert (length hs = length ps) as -> by lia. apply last_at.
Qed.

Lemma alone_set_last n w h hs x ps p col d r (Q : unit → thread S → Prop) :
  alone n w h (hs ++ [x]) (ps ++ [p]) → SetColumn col d (hd_record x) = Some r →
  (∀ w', alone n w' h (hs ++ [mk_held (hd_type x) (hd_addr x) r]) (ps ++ [p]) → Q () w') →
  wpd (set_column_of p col d) Q w.
Proof.
  intros A E HQ. eapply alone_set; [exact A|apply last_at|by eapply alone_last_ptr|exact E|].
  intros w' A'. apply HQ. by rewrite insert_app_r_alt, Nat.sub_diag in A' by lia.
Qed.
Lemma alone_int_last n w h hs x ps p col v (Q : Z → thread S → Prop) :
  alone n w h (hs ++ [x]) (ps ++ [p]) → column_int col (hd_record x) = Some v → Q v w → wpd (get_int p col) Q w.
Proof. intros A. eapply alone_get_int; [exact A|apply last_at|by eapply alone_last_ptr]. Qed.
Lemma alone_double_last n w h hs x ps p col v (Q : double → thread S → Prop) :
  alone n w h (hs ++ [x]) (ps ++ [p]) → column_double col (hd_record x) = Some v → Q v w → wpd (get_double p col) Q w.
Proof. intros A. eapply alone_get_double; [exact A|apply last_at|by eapply alone_last_ptr]. Qed.

(** New rows. *)
Lemma set_columns_inv c cs r r' : set_columns (c :: cs) r = Some r' →
  ∃ r1, SetColumn c.1 c.2 r = Some r1 ∧ set_columns cs r1 = Some r'.
Proof.
  unfold set_columns. cbn. destruct (SetColumn c.1 c.2 r) as [r1|]; [by exists r1|].
  assert (∀ cs, foldl (λ (r : option DbRecord) (c : Z * list Z), r ← r; SetColumn c.1 c.2 r) None cs = None) as E
    by (clear; intros cs; by induction cs).
  by rewrite E.
Qed.

Lemma wp_set_row cols cs p : ∀ w r r' (Q : unit → thread S → Prop),
  th_records w !! p = Some (Some r) → rec_ok r cols → set_columns cs r = Some r' →
  (rec_ok r' cols → schema_ptr_ r' = schema_ptr_ r →
     Q () (mk_thread (th_mem w) (<[p := Some r']> (th_records w)) (th_accesses w))) →
  wpd (for_each cs (λ c, set_column_of p c.1 c.2)) Q w.
Proof.
  induction cs as [|c cs IH]; intros w r r' Q Hp Hr E HQ.
  - injection E as <-. apply wpd_ret. specialize (HQ Hr eq_refl). rewrite list_insert_id in HQ by done. by destruct w.
  - destruct (set_columns_inv _ _ _ _ E) as (r1 & E1 & E2). destruct (SetColumn_rec_ok _ _ _ _ _ Hr E1) as (Hr1 & Es1 & _).
    cbn [for_each]. wpd_step. unfold set_column_of. wpd_step. eapply wpd_get_record; [exact Hp|]. wpd_step.
    eapply wpd_checked; [exact E1|]. apply wpd_modify.
    eapply (IH _ r1 r'); cbn; [apply list_lookup_insert_eq; by eapply lookup_lt_Some|done|done|].
    intros Hr' Es'. rewrite list_insert_insert_eq. apply HQ; [done|congruence].
Qed.

Lemma new_record_ok t cols : schema_vis (t_schema_ptr_ t) cols → rec_ok (new_Record (t_schema_ptr_ t)) cols.
Proof.
  intros Hs. destruct Hs as [Sc Hv]. split; [|done]. split; [done|]. cbn. rewrite length_replicate.
  fold (GetSchemaSize (t_schema_ptr_ t)). enough (0 < GetSchemaSize (t_schema_ptr_ t)) by lia.
  destruct Hv as (c & Hc & _). rewrite last_lookup in Hc. destruct (sk_range _ _ Sc _ c Hc). unfold GetSchemaSize. lia.
Qed.

(** The new record is stored, unless it is only read. *)
Lemma wp_store_row ty a bs h w p r cols (Q : unit → thread S → Prop) :
  heap_ok (th_mem w) (<[a := bs]> h) → th_records w !! p = Some (Some r) → rec_ok r cols →
  len bs = GetSchemaSize (schema_ptr_ r) → GetSchemaSize (schema_ptr_ r) < 2 ^ 32 →
  (∀ s' bs', heap_ok s' (<[a := bs']> h) → room s' = room (th_mem w) → len bs' = len bs →
     (∀ d, (if ty =? READ_ONLY then None else Some (data_ptr_ r)) = Some d → bs' = d) →
     Q () (mk_thread s' (th_records w) (th_accesses w))) →
  wpd (if ty =? READ_ONLY then mret () else r ← get_record p; lift (record_Serialize a r)) Q w.
Proof.
  intros Hok Hp Hr El H32 HQ. destruct (ty =? READ_ONLY).
  { apply wpd_ret. destruct w. by apply (HQ _ bs). }
  assert (len (data_ptr_ r) = len bs) as Eld by (destruct Hr as [[_ E] _]; unfold GetSchemaSize in *; congruence).
  assert (blk (<[a := bs]> h) a (len bs)) as Hb by apply blk_insert_same.
  destruct (blk_valid _ _ _ _ Hok Hb) as (_ & _ & E0). wpd_step. eapply wpd_get_record; [exact Hp|]. apply wpd_lift.
  eapply (wp_record_Serialize _ _ _ a 0); [exact Hok|by symmetry|lia|exact Hb|by eapply rec_ok_pos|lia|].
  intros s' Hok' Hr'. rewrite (put_some _ _ _ _ bs), insert_insert_eq in Hok' by apply lookup_insert_eq.
  rewrite splice_all in Hok' by lia. apply (HQ _ _ Hok' Hr'); [done|]. by intros d [= <-].
Qed.

Lemma held_good_new h a bs x : h !! a = None → held_good tables own h x → held_good tables own (<[a := bs]> h) x.
Proof.
  intros Ha [Hr (d & Hd & Hl) Ht Ho]. split; [done| |done|done]. exists d. split; [|done].
  rewrite lookup_insert_ne; [done|]. congruence.
Qed.

(** The record is made. *)
Lemma wp_make_row id cols cs ty r1 r2 t h w (Q : nat * GlobalAddress → thread S → Prop) :
  heap_ok (th_mem w) h → arr_get tables id = Some t → rec_ok (new_Record (t_schema_ptr_ t)) cols →
  GetSchemaSize (t_schema_ptr_ t) ≤ 2 ^ 25 → GetSchemaSize (t_schema_ptr_ t) ≤ room (th_mem w) →
  set_columns cs (new_Record (t_schema_ptr_ t)) = Some r1 → SetVisible true r1 = Some r2 →
  (∀ s' a bs, h !! a = None → heap_ok s' (<[a := bs]> h) →
     room (th_mem w) - GetSchemaSize (t_schema_ptr_ t) ≤ room s' → len bs = len (data_ptr_ r2) →
     (∀ d, (if ty =? READ_ONLY then None else Some (data_ptr_ r2)) = Some d → bs = d) →
     rec_ok r2 cols →
     Q (length (th_records w), a) (mk_thread s' (th_records w ++ [Some r2]) (th_accesses w))) →
  wpd (make_row tables id ty cs) Q w.
Proof.
  intros Hok Ht Hr0 H25 Hroom E1 E2 HQ. set (sc := t_schema_ptr_ t) in *.
  assert (len (data_ptr_ (new_Record sc)) = GetSchemaSize sc) as Esz by (destruct Hr0 as [[_ E] _]; exact E).
  pose proof (rec_ok_pos _ _ Hr0) as H0. rewrite Esz in H0. unfold make_row.
  repeat wpd_step. eapply wpd_in_array; [exact Ht|]. repeat wpd_step. apply wpd_lift. fold sc.
  eapply (wp_Malloc (th_mem w) h); [done|lia|lia|lia|]. intros a bs s1 Ha Hlb _ _ Hok1 Hr1.
  repeat wpd_step. apply wpd_new_record. cbn [th_mem th_records th_accesses]. set (p := length (th_records w)).
  assert (∀ r, (th_records w ++ [Some r]) !! p = Some (Some r)) as Hat.
  { intros r. by rewrite lookup_app_r, Nat.sub_diag by (unfold p; lia). }
  assert (∀ r r' : option DbRecord, <[p := r]> (th_records w ++ [r']) = th_records w ++ [r]) as Hin.
  { intros r r'. by rewrite insert_app_r_alt, Nat.sub_diag by (unfold p; lia). }
  wpd_step. eapply (wp_set_row cols cs p _ (new_Record sc) r1); cbn; [apply Hat|done|done|]. intros Hr1' Es1. rewrite Hin.
  wpd_step. eapply wp_set_visible; cbn; [apply Hat|exact Hr1'|]. intros r2' E2' Hr2 Es2.
  assert (r2' = r2) as -> by congruence. rewrite Hin.
  assert (schema_ptr_ r2 = sc) as Es by (rewrite Es2, Es1; done).
  wpd_step. eapply (wp_store_row ty a bs h _ p r2 cols); cbn; [exact Hok1|apply Hat|exact Hr2|by rewrite Es|rewrite Es; lia|].
  intros s' bs' Hok' Hr' Hl' Hd. apply (HQ s' a bs'); [done|done|lia| |done|done].
  destruct Hr2 as [[_ E] _]. unfold GetSchemaSize in *. congruence.
Qed.

Lemma alone_insert id key ty cs row t n w h hs ps ret rest (Q : bool * CharArray → thread S → Prop) :
  tables !! Z.to_nat id = Some t → 0 ≤ id → GetSchemaSize (t_schema_ptr_ t) ≤ 2 ^ 25 →
  new_row tables id ty cs = Some row → len hs < kMaxAccessLimit → 0 ≤ n →
  alone (GetSchemaSize (t_schema_ptr_ t) + n) w h hs ps →
  (∀ w' a bs r p, h !! a = None → (∀ d, row = Some d → bs = d) →
     alone n w' (<[a := bs]> h) (hs ++ [mk_held INSERT_ONLY a r]) (ps ++ [p]) → wpd rest Q w') →
  wpd (insert_row tables thread_id id key ty cs ret rest) Q w.
Proof.
  intros Ht Hid H25 Er Hl Hn [Hm D T Hg Hp Hr] HQ. destruct (dk_schema _ _ _ _ _ _ D _ _ Ht) as [cols Hs].
  unfold new_row in Er. rewrite Ht in Er. cbn [mbind option_bind] in Er.
  destruct (set_columns cs _) as [r1|] eqn:E1; [|done]. cbn [mbind option_bind] in Er.
  destruct (SetVisible true r1) as [r2|] eqn:E2; [|done]. injection Er as <-.
  assert (arr_get tables id = Some t) as Eg by (unfold arr_get; by rewrite (proj2 (Z.ltb_ge _ _)) by lia).
  unfold insert_row. wpd_step.
  eapply (wp_make_row id cols cs ty r1 r2 t h w); [done|done|by apply new_record_ok|done|lia|done|done|].
  intros s2 a bs Ha Hok2 Hr2 Hl2 Hd Hrec2. repeat wpd_step. cbn [fst snd].
  pose proof (thread_rep_fresh w hs (length (th_records w)) T ltac:(lia)) as Hf.
  assert (thread_rep (mk_thread s2 (th_records w ++ [Some r2]) (th_accesses w)) hs) as T2.
  { destruct T as [T1 T2]. split; [by apply acc_rels_app|done]. }
  assert (id = Z.of_nat (Z.to_nat id)) as Eid by lia. rewrite Eid at 1.
  eapply (wp_InsertRecord tables (Z.to_nat id) t [key] 1 _ r2 cols a (<[a := bs]> h) _ hs);
    [exact Hok2|exact T2|done|done| |done|done|].
  { cbn. by rewrite lookup_app_r, Nat.sub_diag by lia. }
  intros w3 r3 Hok3 Hr3 Es3 Ev T3 Hrm3 Hacc3. apply (HQ w3 a bs r3 (length (th_records w)) Ha Hd). cbn in Hrm3, Hacc3.
  split; [done|by apply db_ok_new|done| |by rewrite Hacc3, !fmap_app, Hp|lia].
  apply Forall_app. split; [eapply Forall_impl; [exact Hg|]; intros x Hx; by apply held_good_new|].
  constructor; [|constructor]. split; cbn; [by exists cols| |by vm_compute|].
  - exists bs. split; [apply lookup_insert_eq|]. destruct Hr3 as [[_ E3] _], Hrec2 as [[_ E2'] _]. congruence.
  - intros j Hj Ho. destruct D as [R _ _ _]. destruct (tables_rep_some _ _ _ _ _ j a R Hj Ho) as [d Ed]. congruence.
Qed.

(** The end: the inserted records are in the memory already. *)
Lemma commit_heap_app' hs hs' h : commit_heap (hs ++ hs') h = commit_heap hs' (commit_heap hs h).
Proof. unfold commit_heap. by rewrite foldl_app. Qed.

Lemma commit_heap_kept hs h : Forall (λ x, writes_back x = false) hs → commit_heap hs h = h.
Proof.
  revert h. induction hs as [|x hs IH]; intros h F; [done|]. apply Forall_cons in F as [Hx F].
  unfold commit_heap. cbn. unfold commit_one at 2. rewrite Hx. by apply IH.
Qed.

Lemma alone_commit n w h hs ins ps (Q : bool → thread S → Prop) :
  alone n w h (hs ++ ins) ps → Forall (λ x, writes_back x = false) ins →
  (∀ w', alone n w' (commit_heap hs h) [] [] → Q true w') → wpd (CommitTransaction thread_id) Q w.
Proof.
  intros [Hm D T Hg Hp Hr] Hi HQ.
  eapply (wp_commit (LS := dsm_locks_spec) thread_id w () h (hs ++ ins)); [by split|done| | |].
  - eapply Forall_impl; [exact Hg|]. intros x Hx. by eapply held_good_ok.
  - eapply Forall_impl; [exact Hg|]. by intros x [].
  - intros w' [Hm' _] T' Hr'. rewrite commit_heap_app', (commit_heap_kept ins) in Hm' by done. apply HQ.
    split; [done| |done|done| |lia].
    + apply commit_heap_db; [|done]. by apply Forall_app in Hg as [Hg _].
    + destruct T' as [T1 _]. apply Forall2_nil_inv_r in T1. by rewrite T1.
Qed.
End alone.

(** ** Records of the benchmark's schemas *)
Section typed.
Context {J : Indeterminate}.

Definition typed (p : Z * list Z) (r : DbRecord) : Prop :=
  ∃ cols, schema_made p.1 p.2 (schema_ptr_ r) cols ∧ rec_ok r cols.

Lemma typed_column p r col n : typed p r → 0 ≤ col → p.2 !! Z.to_nat col = Some n →
  ∃ cols c, schema_made p.1 p.2 (schema_ptr_ r) cols ∧ rec_ok r cols ∧ cols !! Z.to_nat col = Some c ∧ column_size_ c = n ∧
    GetColumn col r = Some (slice (ci_column_offset_ c) n (data_ptr_ r)) ∧
    len (slice (ci_column_offset_ c) n (data_ptr_ r)) = n.
Proof.
  intros (cols & M & Hr) H0 Hn. pose proof M as [_ _ Es _ _]. rewrite <-Es, list_lookup_fmap in Hn.
  destruct (cols !! Z.to_nat col) as [c|] eqn:Hc; [|done]. injection Hn as <-. exists cols, c.
  pose proof (GetColumn_ok r cols _ c (proj1 Hr) Hc) as E. rewrite Z2Nat.id in E by done.
  destruct Hr as [[Sc El] Hv]. destruct (sk_range _ _ Sc _ c Hc) as (? & ? & ?).
  split_and!; [done|by split|done|done|done|]. rewrite slice_length; lia.
Qed.

Lemma over_full init d : len d = len init → over init d = Some d.
Proof.
  intros E. unfold over. rewrite (proj2 (Z.leb_le _ _)) by lia.
  rewrite drop_ge by lia. by rewrite app_nil_r.
Qed.

Lemma typed_double p r col : typed p r → 0 ≤ col → p.2 !! Z.to_nat col = Some 8 → ∃ v, column_double col r = Some v.
Proof.
  intros T H0 Hn. destruct (typed_column _ _ _ _ T H0 Hn) as (cols & c & _ & _ & _ & _ & E & El).
  unfold column_double. rewrite E. cbn [mbind option_bind]. rewrite over_full by done. by eexists.
Qed.
Lemma typed_int p r col : typed p r → 0 ≤ col → p.2 !! Z.to_nat col = Some 4 → ∃ v, column_int col r = Some v.
Proof.
  intros T H0 Hn. destruct (typed_column _ _ _ _ T H0 Hn) as (cols & c & _ & _ & _ & _ & E & El).
  unfold column_int. rewrite E. cbn [mbind option_bind]. rewrite over_full by done. by eexists.
Qed.

(** What a change leaves as it was. *)
Definition same_columns (p : Z * list Z) (col : Z) (r r' : DbRecord) : Prop :=
  ∀ col', 0 ≤ col' < len p.2 → col' ≠ col → GetColumn col' r' = GetColumn col' r.

Lemma typed_set p r col n d : typed p r → 0 ≤ col → p.2 !! Z.to_nat col = Some n → n ≤ len d →
  ∃ r', SetColumn col d r = Some r' ∧ typed p r' ∧ GetColumn col r' = Some (take (Z.to_nat n) d) ∧
    same_columns p col r r'.
Proof.
  intros T H0 Hn Hd. destruct (typed_column _ _ _ _ T H0 Hn) as (cols & c & M & Hr & Hc & <- & _).
  destruct (SetColumn_ok r cols _ c d (proj1 Hr) Hc Hd) as (r' & E & Hr' & Es & _).
  destruct (SetColumn_get r cols _ c d r' (proj1 Hr) Hc Hd E) as [Eg Eo]. rewrite Z2Nat.id in E, Eg by done.
  exists r'. split_and!; [done| |done|].
  - exists cols. rewrite Es. split; [done|]. split; [done|apply Hr].
  - intros col' H' Hne. pose proof (sm_sizes _ _ _ _ M) as Esz.
    destruct (lookup_lt_is_Some_2 cols (Z.to_nat col')) as [c' Hc']; [rewrite <-(length_fmap column_size_), Esz; lia|].
    assert (GetColumn (Z.of_nat (Z.to_nat col')) r' = GetColumn (Z.of_nat (Z.to_nat col')) r) as E' by (apply (Eo _ c'); [lia|done]).
    by rewrite Z2Nat.id in E' by lia.
Qed.

Lemma double_bytes_len x : len (double_bytes x) = 8.
Proof. unfold double_bytes. by rewrite le_bytes_length. Qed.
Lemma int_bytes_len x : len (int_bytes x) = 4.
Proof. unfold int_bytes. by rewrite le_bytes_length. Qed.
Lemma long_bytes_len x : len (long_bytes x) = 8.
Proof. unfold long_bytes. by rewrite le_bytes_length. Qed.

Lemma typed_change_double p r col f : typed p r → 0 ≤ col → p.2 !! Z.to_nat col = Some 8 →
  ∃ v r', column_double col r = Some v ∧ SetColumn col (double_bytes (f v)) r = Some r' ∧
    change_double col f r = Some r' ∧ typed p r' ∧ same_columns p col r r'.
Proof.
  intros T H0 Hn. destruct (typed_double _ _ _ T H0 Hn) as [v Ev].
  destruct (typed_set p r col 8 (double_bytes (f v)) T H0 Hn) as (r' & E & T' & _ & Ho); [by rewrite double_bytes_len|].
  exists v, r'. split_and!; [done|done| |done|done]. unfold change_double. by rewrite Ev.
Qed.
Lemma typed_change_int p r col f v v' : typed p r → 0 ≤ col → p.2 !! Z.to_nat col = Some 4 →
  column_int col r = Some v → int_of (f v) = Some v' →
  ∃ r', SetColumn col (int_bytes v') r = Some r' ∧ change_int col f r = Some r' ∧ typed p r' ∧ same_columns p col r r'.
Proof.
  intros T H0 Hn Ev Ef.
  destruct (typed_set p r col 4 (int_bytes v') T H0 Hn) as (r' & E & T' & _ & Ho); [by rewrite int_bytes_len|].
  exists r'. split_and!; [done| |done|done]. unfold change_int. rewrite Ev. cbn [mbind option_bind]. by rewrite Ef.
Qed.

Lemma same_int p col r r' col' : same_columns p col r r' → 0 ≤ col' < len p.2 → col' ≠ col →
  column_int col' r' = column_int col' r.
Proof. intros H Hc Hne. unfold column_int. by rewrite H. Qed.
Lemma same_double p col r r' col' : same_columns p col r r' → 0 ≤ col' < len p.2 → col' ≠ col →
  column_double col' r' = column_double col' r.
Proof. intros H Hc Hne. unfold column_double. by rewrite H. Qed.

Context (tables : list Table) (m : nat → Z → list GlobalAddress) (Ht : tpcc_tables tables).

Lemma tpcc_table id p : zip (seqZ 0 10) tpcc_sizes !! Z.to_nat id = Some p →
  ∃ t cols, tables !! Z.to_nat id = Some t ∧ schema_made p.1 p.2 (t_schema_ptr_ t) cols.
Proof.
  intros Hp. destruct (Forall2_lookup_r _ _ _ _ _ Ht Hp) as (t & E & cols & M). by exists t, cols.
Qed.

Lemma tpcc_table_size id t p : tables !! Z.to_nat id = Some t → zip (seqZ 0 10) tpcc_sizes !! Z.to_nat id = Some p →
  GetSchemaSize (t_schema_ptr_ t) = foldr Z.add 0 p.2.
Proof. intros E Hp. destruct (tpcc_table id p Hp) as (t' & cols & E' & M). simplify_eq. apply M. Qed.

Definition columns_fit (sizes : list Z) (cs : list (Z * list Z)) : Prop :=
  Forall (λ c, 0 ≤ c.1 ∧ ∃ n, sizes !! Z.to_nat c.1 = Some n ∧ n ≤ len c.2) cs.

Lemma typed_set_columns p cs : columns_fit p.2 cs → ∀ r, typed p r → ∃ r', set_columns cs r = Some r' ∧ typed p r'.
Proof.
  induction 1 as [|c cs (H0 & n & Hn & Hl) _ IH]; intros r T; [by exists r|].
  destruct (typed_set p r c.1 n c.2 T H0 Hn Hl) as (r1 & E & T1 & _). destruct (IH r1 T1) as (r' & E' & T').
  exists r'. split; [|done]. by rewrite (set_columns_cons _ _ _ r1).
Qed.

Lemma typed_new_row id ty cs p : zip (seqZ 0 10) tpcc_sizes !! Z.to_nat id = Some p → last p.2 = Some 1 →
  columns_fit p.2 cs → ∃ row, new_row tables id ty cs = Some row.
Proof.
  intros Hp Hl Hc. destruct (tpcc_table id p Hp) as (t & cols & E & M). pose proof (schema_made_vis _ _ _ _ M Hl) as Hv.
  destruct (typed_set_columns p cs Hc (new_Record (t_schema_ptr_ t))) as (r1 & E1 & cols1 & M1 & Hr1).
  { exists cols. split; [done|by apply new_record_ok]. }
  destruct (rec_ok_visible r1 cols1 true Hr1) as (r2 & E2 & _).
  unfold new_row. rewrite E. cbn [mbind option_bind]. rewrite E1. cbn [mbind option_bind]. rewrite E2. by eexists.
Qed.

Lemma copy_at_typed fuel k own h id key ty x p : db_ok tables fuel k own m h → copy_at tables m h id key ty = Some x →
  zip (seqZ 0 10) tpcc_sizes !! Z.to_nat id = Some p → last p.2 = Some 1 → typed p (hd_record x).
Proof.
  intros D E Hp Hl. destruct (tpcc_table id p Hp) as (t & cols & Et & M). unfold copy_at in E.
  destruct (ga_eqb_spec (newest (m (Z.to_nat id) key)) ga_Null) as [|Hn]; [done|]. cbn [orb] in E.
  destruct (negb _); [done|]. rewrite Et in E. cbn [mbind option_bind] in E.
  destruct (dk_record _ _ _ _ _ _ D _ _ key Et Hn) as (bs & Hb & Hlb & _). rewrite Hb in E. injection E as <-.
  exists cols. split; [done|]. pose proof (schema_made_vis _ _ _ _ M Hl) as [Sc Hv]. split; [by split|done].
Qed.
End typed.

(** The literal columns of a new row fit its schema. *)
Ltac fit_columns :=
  repeat (apply Forall_cons_2; [split; [done|eexists; split; [reflexivity|]];
    cbn [fst snd]; rewrite ?int_bytes_len, ?long_bytes_len, ?double_bytes_len; lia|]);
  try apply Forall_nil_2.
