(* ===== verification/TpccPopulator.v ===== *)
(** * TpccPopulator: [TpccRecords.h] and the insertions of [TpccPopulator.h]

    The structures of the rows, the columns that are made of them, and how a row is stored
    and entered in the index of its table.  Rows with different keys are all found
    afterwards ([populate_finds]). *)
From S2P Require Import Prelude GlobalMem DbStore DbFlat DbDsm DbArray DbIndex DbSchema DbTable DbTxn DbSerial TpccBase TpccSchemas TpccProcs TpccAlone.
From stdpp Require Import base numbers option functions list list_numbers gmap.
Open Scope Z_scope.

(** ** [TpccRecords.h] *)
Record ItemRecord := mk_ItemRecord {
  i_id_ : Z; i_im_id_ : Z; i_name_ : list Z; i_price_ : double; i_data_ : list Z; item_w_id_ : Z;
}.
Record WarehouseRecord := mk_WarehouseRecord {
  w_id_ : Z; w_name_ : list Z; w_street_1_ : list Z; w_street_2_ : list Z; w_city_ : list Z; w_state_ : list Z;
  w_zip_ : list Z; w_tax_ : double; w_ytd_ : double;
}.
Record DistrictRecord := mk_DistrictRecord {
  d_id_ : Z; d_w_id_ : Z; d_name_ : list Z; d_street_1_ : list Z; d_street_2_ : list Z; d_city_ : list Z;
  d_state_ : list Z; d_zip_ : list Z; d_tax_ : double; d_ytd_ : double; d_next_o_id_ : Z;
}.
Record CustomerRecord := mk_CustomerRecord {
  c_id_ : Z; c_d_id_ : Z; c_w_id_ : Z; c_first_ : list Z; c_middle_ : list Z; c_last_ : list Z;
  c_street_1_ : list Z; c_street_2_ : list Z; c_city_ : list Z; c_state_ : list Z; c_zip_ : list Z; c_phone_ : list Z;
  c_since_ : Z; c_credit_ : list Z; c_credit_lim_ : double; c_discount_ : double; c_balance_ : double;
  c_ytd_payment_ : double; c_payment_cnt_ : Z; c_delivery_cnt_ : Z; c_data_ : list Z;
}.
Record OrderRecord := mk_OrderRecord {
  o_id_ : Z; o_c_id_ : Z; o_d_id_ : Z; o_w_id_ : Z; o_entry_d_ : Z; o_carrier_id_ : Z; o_ol_cnt_ : Z; o_all_local_ : Z;
}.
Record NewOrderRecord := mk_NewOrderRecord { new_o_id_ : Z; new_d_id_ : Z; new_w_id_ : Z }.
Record OrderLineRecord := mk_OrderLineRecord {
  ol_o_id_ : Z; ol_d_id_ : Z; ol_w_id_ : Z; ol_number_ : Z; ol_i_id_ : Z; ol_supply_w_id_ : Z; ol_delivery_d_ : Z;
  ol_quantity_ : Z; ol_amount_ : double; ol_dist_info_ : list Z;
}.
Record HistoryRecord := mk_HistoryRecord {
  h_c_id_ : Z; h_c_d_id_ : Z; h_c_w_id_ : Z; h_d_id_ : Z; h_w_id_ : Z; hist_date_ : Z; hist_amount_ : double; h_data_ : list Z;
}.
Record StockRecord := mk_StockRecord {
  s_i_id_ : Z; s_w_id_ : Z; s_quantity_ : Z; s_dists_ : list (list Z); s_ytd_ : Z; s_order_cnt_ : Z; s_remote_cnt_ : Z;
  s_data_ : list Z;
}.
Record DistrictNewOrderRecord := mk_DistrictNewOrderRecord { next_w_id_ : Z; next_d_id_ : Z; next_o_id_ : Z }.

Inductive tpcc_record :=
| r_item (r : ItemRecord)
| r_warehouse (r : WarehouseRecord)
| r_district (r : DistrictRecord)
| r_customer (r : CustomerRecord)
| r_order (r : OrderRecord)
| r_new_order (r : NewOrderRecord)
| r_order_line (r : OrderLineRecord)
| r_history (r : HistoryRecord)
| r_stock (r : StockRecord)
| r_district_new_order (r : DistrictNewOrderRecord).

(** ** The columns: [SetColumn(i, &x)], or [SetColumn(i, x, size)] *)
Abbreviation set_call := (Z * list Z * option Z)%type.
Definition set_int (i v : Z) : set_call := (i, int_bytes v, None).
Definition set_long (i v : Z) : set_call := (i, long_bytes v, None).
Definition set_double (i : Z) (v : double) : set_call := (i, double_bytes v, None).
Definition set_chars (i : Z) (v : list Z) (size : Z) : set_call := (i, v, Some size).

Definition item_calls (r : ItemRecord) : list set_call :=
  [set_int 0 (i_id_ r); set_int 1 (i_im_id_ r); set_chars 2 (i_name_ r) 32; set_double 3 (i_price_ r);
   set_chars 4 (i_data_ r) 64].
Definition warehouse_calls (r : WarehouseRecord) : list set_call :=
  [set_int 0 (w_id_ r); set_chars 1 (w_name_ r) 16; set_chars 2 (w_street_1_ r) 32; set_chars 3 (w_street_2_ r) 32;
   set_chars 4 (w_city_ r) 32; set_chars 5 (w_state_ r) 2; set_chars 6 (w_zip_ r) 9; set_double 7 (w_tax_ r);
   set_double 8 (w_ytd_ r)].
Definition district_calls (r : DistrictRecord) : list set_call :=
  [set_int 0 (d_id_ r); set_int 1 (d_w_id_ r); set_chars 2 (d_name_ r) 16; set_chars 3 (d_street_1_ r) 32;
   set_chars 4 (d_street_2_ r) 32; set_chars 5 (d_city_ r) 32; set_chars 6 (d_state_ r) 2; set_chars 7 (d_zip_ r) 9;
   set_double 8 (d_tax_ r); set_double 9 (d_ytd_ r); set_int 10 (d_next_o_id_ r)].
Definition customer_calls (r : CustomerRecord) : list set_call :=
  [set_int 0 (c_id_ r); set_int 1 (c_d_id_ r); set_int 2 (c_w_id_ r); set_chars 3 (c_first_ r) 32;
   set_chars 4 (c_middle_ r) 2; set_chars 5 (c_last_ r) 32; set_chars 6 (c_street_1_ r) 32; set_chars 7 (c_street_2_ r) 32;
   set_chars 8 (c_city_ r) 32; set_chars 9 (c_state_ r) 2; set_chars 10 (c_zip_ r) 9; set_chars 11 (c_phone_ r) 32;
   set_long 12 (c_since_ r); set_chars 13 (c_credit_ r) 2; set_double 14 (c_credit_lim_ r); set_double 15 (c_discount_ r);
   set_double 16 (c_balance_ r); set_double 17 (c_ytd_payment_ r); set_int 18 (c_payment_cnt_ r);
   set_int 19 (c_delivery_cnt_ r); set_chars 20 (c_data_ r) 500].
Definition stock_calls (r : StockRecord) : option (list set_call) :=
  dists ← mapM (λ i, s_dist ← arr_get (s_dists_ r) (i - 3); Some (set_chars i s_dist 32)) (seqZ 3 10);
  Some ([set_int 0 (s_i_id_ r); set_int 1 (s_w_id_ r); set_int 2 (s_quantity_ r)] ++ dists ++
        [set_int 13 (s_ytd_ r); set_int 14 (s_order_cnt_ r); set_int 15 (s_remote_cnt_ r); set_chars 16 (s_data_ r) 64]).
Definition order_calls (r : OrderRecord) : list set_call :=
  [set_int 0 (o_id_ r); set_int 1 (o_c_id_ r); set_int 2 (o_d_id_ r); set_int 3 (o_w_id_ r); set_long 4 (o_entry_d_ r);
   set_int 5 (o_carrier_id_ r); set_int 6 (o_ol_cnt_ r); set_int 7 (o_all_local_ r)].
Definition new_order_calls (r : NewOrderRecord) : list set_call :=
  [set_int 0 (new_o_id_ r); set_int 1 (new_d_id_ r); set_int 2 (new_w_id_ r)].
Definition order_line_calls (r : OrderLineRecord) : list set_call :=
  [set_int 0 (ol_o_id_ r); set_int 1 (ol_d_id_ r); set_int 2 (ol_w_id_ r); set_int 3 (ol_number_ r); set_int 4 (ol_i_id_ r);
   set_int 5 (ol_supply_w_id_ r); set_long 6 (ol_delivery_d_ r); set_int 7 (ol_quantity_ r); set_double 8 (ol_amount_ r);
   set_chars 9 (ol_dist_info_ r) 32].
Definition history_calls (r : HistoryRecord) : list set_call :=
  [set_int 0 (h_c_id_ r); set_int 1 (h_c_d_id_ r); set_int 2 (h_c_w_id_ r); set_int 3 (h_d_id_ r); set_int 4 (h_w_id_ r);
   set_long 5 (hist_date_ r); set_double 6 (hist_amount_ r); set_chars 7 (h_data_ r) 32].
Definition district_new_order_calls (r : DistrictNewOrderRecord) : list set_call :=
  [set_int 0 (next_d_id_ r); set_int 1 (next_w_id_ r); set_int 2 (next_o_id_ r)].

Definition record_calls (r : tpcc_record) : option (list set_call) :=
  match r with
  | r_item r => Some (item_calls r)
  | r_warehouse r => Some (warehouse_calls r)
  | r_district r => Some (district_calls r)
  | r_customer r => Some (customer_calls r)
  | r_order r => Some (order_calls r)
  | r_new_order r => Some (new_order_calls r)
  | r_order_line r => Some (order_line_calls r)
  | r_history r => Some (history_calls r)
  | r_stock r => stock_calls r
  | r_district_new_order r => Some (district_new_order_calls r)
  end.

(** The table and the key. *)
Definition record_table (r : tpcc_record) : Z :=
  match r with
  | r_item _ => ITEM_TABLE_ID
  | r_warehouse _ => WAREHOUSE_TABLE_ID
  | r_district _ => DISTRICT_TABLE_ID
  | r_customer _ => CUSTOMER_TABLE_ID
  | r_order _ => ORDER_TABLE_ID
  | r_new_order _ => NEW_ORDER_TABLE_ID
  | r_order_line _ => ORDER_LINE_TABLE_ID
  | r_history _ => HISTORY_TABLE_ID
  | r_stock _ => STOCK_TABLE_ID
  | r_district_new_order _ => DISTRICT_NEW_ORDER_TABLE_ID
  end.
Definition record_row (r : tpcc_record) : row :=
  match r with
  | r_item r => item_row (i_id_ r) (item_w_id_ r)
  | r_warehouse r => warehouse_row (w_id_ r)
  | r_district r => district_row (d_id_ r) (d_w_id_ r)
  | r_customer r => customer_row (c_id_ r) (c_d_id_ r) (c_w_id_ r)
  | r_order r => order_row (o_id_ r) (o_d_id_ r) (o_w_id_ r)
  | r_new_order r => new_order_row (new_o_id_ r) (new_d_id_ r) (new_w_id_ r)
  | r_order_line r => order_line_row (ol_o_id_ r) (ol_d_id_ r) (ol_w_id_ r) (ol_number_ r)
  | r_history r => history_row (h_c_id_ r) (h_d_id_ r) (h_w_id_ r)
  | r_stock r => stock_row (s_i_id_ r) (s_w_id_ r)
  | r_district_new_order r => district_new_order_row (next_d_id_ r) (next_w_id_ r)
  end.

(** ** The insertion of a row *)
Definition set_call_of (c : set_call) (r : DbRecord) : option DbRecord :=
  match c.2 with
  | None => SetColumn c.1.1 c.1.2 r
  | Some size => SetColumn_sized c.1.1 c.1.2 size r
  end.
Definition set_calls (cs : list set_call) (r : DbRecord) : option DbRecord :=
  foldl (λ r c, r ← r; set_call_of c r) (Some r) cs.

Section populator.
Context {S : Type} {J : Indeterminate} {G : GAlloc S}.
Context (sp : TpccScaleParams) (lock : GlobalAddress → Z → DB S unit) (fuel : nat).

(** The tables, and the [Record] that is used for all the rows of each of them. *)
Definition insert_tpcc (rec : tpcc_record) (st : list Table * list DbRecord) : DB S (list Table * list DbRecord) :=
  let '(tables, bufs) := st in
  let id := record_table rec in
  record_buf ← in_array (arr_get bufs id);
  data_addr ← Malloc (GetSchemaSize (schema_ptr_ record_buf));
  calls ← in_array (record_calls rec);
  record_buf ← match set_calls calls record_buf with Some r => mret r | None => raise assertion_failed end;
  record_buf ← match SetVisible true record_buf with Some r => mret r | None => raise assertion_failed end;
  record_Serialize data_addr record_buf;;
  key ← match row_key sp (record_row rec) with Some k => mret k | None => raise assertion_failed end;
  t ← in_array (arr_get tables id);
  '(_, t) ← table_InsertRecord_with lock fuel [key] 1 data_addr t;
  mret (<[Z.to_nat id := t]> tables, <[Z.to_nat id := record_buf]> bufs).

Fixpoint insert_all (recs : list tpcc_record) (st : list Table * list DbRecord) : DB S (list Table * list DbRecord) :=
  match recs with
  | [] => mret st
  | rec :: recs => st ← insert_tpcc rec st; insert_all recs st
  end.

(** The buffers are made from the schemas of the tables. *)
Definition new_bufs (tables : list Table) : list DbRecord := (λ t, new_Record (t_schema_ptr_ t)) <$> tables.
End populator.

(** ** What a row is afterwards *)
Definition is_array (n : nat) (l : list Z) : Prop := length l = n.

(** The arrays of characters have the sizes of [TpccRecords.h]. *)
Definition record_wf (rec : tpcc_record) : Prop :=
  match rec with
  | r_item r => is_array 32 (i_name_ r) ∧ is_array 64 (i_data_ r)
  | r_warehouse r =>
      is_array 16 (w_name_ r) ∧ is_array 32 (w_street_1_ r) ∧ is_array 32 (w_street_2_ r) ∧ is_array 32 (w_city_ r) ∧
      is_array 2 (w_state_ r) ∧ is_array 9 (w_zip_ r)
  | r_district r =>
      is_array 16 (d_name_ r) ∧ is_array 32 (d_street_1_ r) ∧ is_array 32 (d_street_2_ r) ∧ is_array 32 (d_city_ r) ∧
      is_array 2 (d_state_ r) ∧ is_array 9 (d_zip_ r)
  | r_customer r =>
      is_array 32 (c_first_ r) ∧ is_array 2 (c_middle_ r) ∧ is_array 32 (c_last_ r) ∧ is_array 32 (c_street_1_ r) ∧
      is_array 32 (c_street_2_ r) ∧ is_array 32 (c_city_ r) ∧ is_array 2 (c_state_ r) ∧ is_array 9 (c_zip_ r) ∧
      is_array 32 (c_phone_ r) ∧ is_array 2 (c_credit_ r) ∧ is_array 500 (c_data_ r)
  | r_order_line r => is_array 32 (ol_dist_info_ r)
  | r_history r => is_array 32 (h_data_ r)
  | r_stock r => length (s_dists_ r) = 10%nat ∧ Forall (is_array 32) (s_dists_ r) ∧ is_array 64 (s_data_ r)
  | _ => True
  end.

(** Each column of the row is what the structure holds, and the row is visible. *)
Definition stores (rec : tpcc_record) (x : DbRecord) : Prop :=
  ∃ calls, record_calls rec = Some calls ∧ GetVisible x = Some true ∧
    ∀ c, c ∈ calls → ∃ n, GetColumnSize c.1.1 (schema_ptr_ x) = Some n ∧
      GetColumn c.1.1 x = Some (take (Z.to_nat n) c.1.2).

(** The calls fit the columns of a schema, all but the last, each once. *)
Definition call_fits (sizes : list Z) (c : set_call) : Prop :=
  0 ≤ c.1.1 < len sizes - 1 ∧ ∃ n, sizes !! Z.to_nat c.1.1 = Some n ∧ n ≤ len c.1.2 ∧ (c.2 = None ∨ c.2 = Some n).

Lemma calls_fit_cons sizes c cs col n : c.1.1 = col → sizes !! Z.to_nat col = Some n → 0 ≤ col < len sizes - 1 →
  n ≤ len c.1.2 → c.2 = None ∨ c.2 = Some n → Forall (call_fits sizes) cs → Forall (call_fits sizes) (c :: cs).
Proof. intros <- ? ? ? ? F. apply Forall_cons_2; [|exact F]. split; [done|]. by exists n. Qed.

Ltac fit_calls :=
  repeat (eapply calls_fit_cons; [reflexivity|reflexivity|cbn; lia| |cbn; auto|];
    [cbn [fst snd set_int set_long set_double set_chars];
     rewrite ?int_bytes_len, ?long_bytes_len, ?double_bytes_len; unfold is_array in *; lia|]);
  try apply Forall_nil_2.

Lemma record_wf_fits rec : record_wf rec →
  ∃ p calls, zip (seqZ 0 10) tpcc_sizes !! Z.to_nat (record_table rec) = Some p ∧ record_calls rec = Some calls ∧
    last p.2 = Some 1 ∧ Forall (call_fits p.2) calls ∧ NoDup ((λ c, c.1.1) <$> calls) ∧ foldr Z.add 0 p.2 ≤ 1024.
Proof.
  destruct rec as [r|r|r|r|r|r|r|r|r|r]; cbn [record_wf]; intros H;
    repeat match goal with H : _ ∧ _ |- _ => destruct H end; cbn [record_table record_calls].
  9: {
    destruct (s_dists_ r) as [|d0 [|d1 [|d2 [|d3 [|d4 [|d5 [|d6 [|d7 [|d8 [|d9 [|]]]]]]]]]]] eqn:E; try discriminate.
    repeat match goal with H : Forall (is_array 32) (_ :: _) |- _ => apply Forall_cons in H as [? H] end.
    eexists _, _. split; [reflexivity|]. split; [unfold stock_calls; rewrite E; reflexivity|].
    split; [reflexivity|]. split; [fit_calls|]. split; [|cbn; lia].
    apply (bool_decide_unpack _). by vm_compute. }
  all: eexists _, _; split; [reflexivity|]; split; [reflexivity|]; split; [reflexivity|]; split;
    [unfold item_calls, warehouse_calls, district_calls, customer_calls, order_calls, new_order_calls, order_line_calls,
       history_calls, district_new_order_calls; fit_calls|]; split; [|cbn; lia]; apply (bool_decide_unpack _); by vm_compute.
Qed.

Section rows.
Context {J : Indeterminate}.

Definition column_holds (c : set_call) (x : DbRecord) : Prop :=
  ∃ n, GetColumnSize c.1.1 (schema_ptr_ x) = Some n ∧ GetColumn c.1.1 x = Some (take (Z.to_nat n) c.1.2).

Lemma set_call_ok p c r : typed p r → call_fits p.2 c →
  ∃ r', set_call_of c r = Some r' ∧ typed p r' ∧ schema_ptr_ r' = schema_ptr_ r ∧ column_holds c r' ∧
    same_columns p c.1.1 r r'.
Proof.
  intros T (Hc & n & Hn & Hl & Hs). destruct (typed_set p r c.1.1 n c.1.2 T ltac:(lia) Hn Hl) as (r' & E & T' & Eg & Ho).
  pose proof T as (cols & M & Hr). destruct (SetColumn_rec_ok r cols _ _ r' Hr E) as (_ & Es & _).
  destruct (schema_made_size _ _ _ _ (Z.to_nat c.1.1) n M Hn) as [Esz _]. rewrite Z2Nat.id in Esz by lia.
  exists r'. split_and!; [|done|done| |done].
  - unfold set_call_of. destruct Hs as [->| ->]; [done|]. unfold SetColumn in E. unfold SetColumn_sized.
    destruct (GetColumnOffset _ _); [|done]. cbn [mbind option_bind] in *. by rewrite Esz in E.
  - exists n. by rewrite Es.
Qed.

Lemma column_holds_same p col c r r' : same_columns p col r r' → schema_ptr_ r' = schema_ptr_ r →
  0 ≤ c.1.1 < len p.2 → c.1.1 ≠ col → column_holds c r → column_holds c r'.
Proof. intros Ho Es Hc Hne (n & E1 & E2). exists n. rewrite Es, Ho by done. done. Qed.

Lemma set_calls_cons c cs r r1 : set_call_of c r = Some r1 → set_calls (c :: cs) r = set_calls cs r1.
Proof. intros E. unfold set_calls. cbn. by rewrite E. Qed.

Lemma set_calls_ok p cs : Forall (call_fits p.2) cs → NoDup ((λ c, c.1.1) <$> cs) → ∀ r, typed p r →
  ∃ r', set_calls cs r = Some r' ∧ typed p r' ∧ schema_ptr_ r' = schema_ptr_ r ∧
    (∀ c, c ∈ cs → column_holds c r') ∧
    (∀ c, call_fits p.2 c → c.1.1 ∉ (λ c, c.1.1) <$> cs → column_holds c r → column_holds c r').
Proof.
  induction 1 as [|c cs Hc Hcs IH]; cbn [fmap list_fmap]; intros Hnd r T.
  { exists r. split_and!; [done|done|done|by intros c ?%elem_of_nil|done]. }
  apply NoDup_cons in Hnd as [Hni Hnd]. destruct (set_call_ok p c r T Hc) as (r1 & E1 & T1 & Es1 & H1 & Ho1).
  destruct (IH Hnd r1 T1) as (r' & E' & T' & Es' & Hin & Hout). exists r'. split_and!; [|done|congruence| |].
  - by rewrite (set_calls_cons _ _ _ r1).
  - intros c' [->|Hc']%elem_of_cons; [by apply Hout|by apply Hin].
  - intros c' Hf Hn Hh. apply not_elem_of_cons in Hn as [Hne Hn]. apply Hout; [done|done|].
    eapply column_holds_same; [exact Ho1|done| |done|done]. destruct Hf as [? _]. lia.
Qed.

(** The row is made visible: its last column. *)
Lemma typed_visible p r : typed p r → last p.2 = Some 1 →
  ∃ r', SetVisible true r = Some r' ∧ typed p r' ∧ schema_ptr_ r' = schema_ptr_ r ∧ GetVisible r' = Some true ∧
    same_columns p (len p.2 - 1) r r'.
Proof.
  intros T Hl. pose proof T as (cols & M & Hr). destruct (rec_ok_visible r cols true Hr) as (r' & E & Hr' & Ev & Es).
  exists r'. split; [done|]. split; [exists cols; by rewrite Es|]. split_and!; [done|done|].
  pose proof (sm_sizes _ _ _ _ M) as Esz. pose proof (f_equal length Esz) as El. rewrite length_fmap in El.
  pose proof (sk_count _ _ (sm_ok _ _ _ _ M)) as [Ec Hn]. change kMaxColumnNum with 32 in Hn.
  assert (GetMetaColumnId (schema_ptr_ r) = len p.2 - 1) as Em.
  { unfold GetMetaColumnId. rewrite Ec, <-El, wrap_small; [done|]. unfold fits. lia. }
  unfold SetVisible in E. rewrite Em in E. destruct (GetColumn _ r); [|done]. cbn [mbind option_bind] in E.
  destruct (typed_set p r (len p.2 - 1) 1 [1] T) as (r2 & E2 & _ & _ & Ho); [lia| |done|].
  { rewrite last_lookup in Hl. rewrite <-Hl. f_equal. lia. }
  assert (r2 = r') as -> by congruence. exact Ho.
Qed.

(** The row of a structure. *)
Lemma stores_row rec p calls r : record_calls rec = Some calls → Forall (call_fits p.2) calls →
  NoDup ((λ c, c.1.1) <$> calls) → last p.2 = Some 1 → typed p r →
  ∃ r1 r2, set_calls calls r = Some r1 ∧ SetVisible true r1 = Some r2 ∧ typed p r2 ∧ schema_ptr_ r2 = schema_ptr_ r ∧
    stores rec r2.
Proof.
  intros Ec Hf Hnd Hl T. destruct (set_calls_ok p calls Hf Hnd r T) as (r1 & E1 & T1 & Es1 & Hin & _).
  destruct (typed_visible p r1 T1 Hl) as (r2 & E2 & T2 & Es2 & Ev & Ho). exists r1, r2.
  split_and!; [done|done|done|congruence|]. exists calls. split_and!; [done|done|].
  intros c Hc. rewrite Forall_forall in Hf. destruct (Hf c Hc) as [? _].
  eapply column_holds_same; [exact Ho|done|lia|lia|by apply Hin].
Qed.

Lemma stores_data rec r x : stores rec r → schema_ptr_ x = schema_ptr_ r → data_ptr_ x = data_ptr_ r → stores rec x.
Proof.
  intros (calls & E & Ev & H) Es Ed. exists calls. assert (∀ col, GetColumn col x = GetColumn col r) as Eg.
  { intros col. unfold GetColumn. by rewrite Es, Ed. }
  split_and!; [done| |].
  - unfold GetVisible in *. by rewrite Es, Eg.
  - intros c Hc. destruct (H c Hc) as (n & ? & ?). exists n. by rewrite Es, Eg.
Qed.
End rows.

Section populated.
Context {S : Type} {J : Indeterminate} {G : GAlloc S} {GH : GHeap S}.
Context (sp : TpccScaleParams) (lock : GlobalAddress → Z → DB S unit) (fuel : nat).
Implicit Types (s : S) (h : heap) (past : list tpcc_record).

(** A row in the database, through the pointer that the index of its table has for its key. *)
Record found_in (tables : list Table) (own : nat → GlobalAddress → Prop) (m : nat → Z → list GlobalAddress) h
    (rec : tpcc_record) (key : Z) (a : GlobalAddress) (bs : list Z) (t : Table) : Prop := {
  fi_key : row_key sp (record_row rec) = Some key;
  fi_table : tables !! Z.to_nat (record_table rec) = Some t;
  fi_index : m (Z.to_nat (record_table rec)) key = [a];
  fi_addr : a ≠ ga_Null;
  fi_block : h !! a = Some bs;
  fi_length : len bs = GetSchemaSize (t_schema_ptr_ t);
  fi_stores : stores rec (mk_DbRecord (t_schema_ptr_ t) bs (GetSchemaSize (t_schema_ptr_ t)));
  fi_own j : (j < length tables)%nat → ¬ own j a;
}.

(** After the rows [past]. *)
Record populated past (tables : list Table) (bufs : list DbRecord) own m s h : Prop := {
  pp_mem : heap_ok s h;
  pp_tables : tpcc_tables tables;
  pp_rep : tables_rep (length past) h tables own m;
  pp_bufs i p : zip (seqZ 0 10) tpcc_sizes !! i = Some p →
    ∃ t r, tables !! i = Some t ∧ bufs !! i = Some r ∧ schema_ptr_ r = t_schema_ptr_ t ∧ typed p r;
  pp_found rec : rec ∈ past → ∃ key a bs t, found_in tables own m h rec key a bs t;
  pp_keys i key : m i key ≠ [] → ∃ rec, rec ∈ past ∧ i = Z.to_nat (record_table rec) ∧ row_key sp (record_row rec) = Some key;
}.

Lemma populated_db past tables bufs own m s h : populated past tables bufs own m s h → (length past ≤ fuel)%nat →
  db_ok tables fuel (length past) own m h.
Proof.
  intros P Hf. split; [apply P|done| |].
  - intros i t Ht. pose proof (pp_tables _ _ _ _ _ _ _ P) as HT.
    destruct (Forall2_lookup_l _ _ _ _ _ HT Ht) as (p & Hp & cols & M). exists cols. eapply schema_made_vis; [exact M|].
    assert (Forall (λ p : Z * list Z, last p.2 = Some 1) (zip (seqZ 0 10) tpcc_sizes)) as F
      by (apply (bool_decide_unpack _); by vm_compute).
    by eapply (Forall_lookup_1 _ _ _ _ F).
  - intros i t key Ht Hn. destruct (pp_keys _ _ _ _ _ _ _ P i key) as (rec & Hrec & -> & Ek); [by intros E; rewrite E in Hn|].
    destruct (pp_found _ _ _ _ _ _ _ P rec Hrec) as (key' & a & bs & t' & F). destruct F. simplify_eq.
    rewrite fi_index0. by exists bs.
Qed.

Lemma same_table_tpcc tables i t t' : tpcc_tables tables → tables !! i = Some t → same_table t t' →
  tpcc_tables (<[i := t']> tables).
Proof.
  intros HT Ht (_ & Es & _). apply Forall2_same_length_lookup_2; [rewrite length_insert; by eapply Forall2_length|].
  intros j u p Hu Hp. destruct (decide (i = j)) as [<-|].
  - rewrite list_lookup_insert_eq in Hu by (by eapply lookup_lt_Some). injection Hu as <-. unfold has_schema. rewrite Es.
    by eapply (Forall2_lookup_lr _ _ _ _ _ _ HT Ht Hp).
  - rewrite list_lookup_insert_ne in Hu by done. by eapply (Forall2_lookup_lr _ _ _ _ _ _ HT Hu Hp).
Qed.


(** A new block changes nothing for the rows. *)
Lemma populated_block past tables bufs own m s h a bs s' :
  populated past tables bufs own m s h → h !! a = None → heap_ok s' (<[a := bs]> h) →
  populated past tables bufs own m s' (<[a := bs]> h) ∧ ∀ j, (j < length tables)%nat → ¬ own j a.
Proof.
  intros [Hm HT R Hb Hf Hk] Ha Hok. split; [split|].
  - done.
  - done.
  - by apply tables_rep_new.
  - done.
  - intros rec Hrec. destruct (Hf rec Hrec) as (key & b & d & t & [? ? ? ? ? ? ? ?]). exists key, b, d, t.
    split; try done. rewrite lookup_insert_ne; [done|]. congruence.
  - done.
  - intros j Hj Ho. destruct (tables_rep_some _ _ _ _ _ j a R Hj Ho) as [d E]. congruence.
Qed.

(** The buffer of a table is replaced. *)
Lemma populated_buf past tables bufs own m s h i t r r' : populated past tables bufs own m s h →
  tables !! i = Some t → bufs !! i = Some r → schema_ptr_ r' = schema_ptr_ r → (∀ p, typed p r → typed p r') →
  populated past tables (<[i := r']> bufs) own m s h.
Proof.
  intros [Hm HT R Hb Hf Hk] Ht Hr Es Hty. split; try done. intros j p Hp. destruct (Hb j p Hp) as (u & q & Hu & Hq & Eq & Tq).
  destruct (decide (i = j)) as [<-|].
  - exists u, r'. rewrite list_lookup_insert_eq by (by eapply lookup_lt_Some). simplify_eq.
    split_and!; [done|done|congruence|by apply Hty].
  - exists u, q. rewrite list_lookup_insert_ne by done. done.
Qed.

(** The pointer to the new row is entered in the index of its table. *)
Lemma populated_index past tables bufs own m s h rec key a bs t t' own' h' s' :
  let i := Z.to_nat (record_table rec) in
  populated past tables bufs own m s h → tables !! i = Some t → row_key sp (record_row rec) = Some key → m i key = [] →
  a ≠ ga_Null → h !! a = Some bs → len bs = GetSchemaSize (t_schema_ptr_ t) →
  stores rec (mk_DbRecord (t_schema_ptr_ t) bs (GetSchemaSize (t_schema_ptr_ t))) →
  (∀ j, (j < length tables)%nat → ¬ own j a) → heap_ok s' h' → same_table t t' →
  tables_rep (length past + 1) h' (<[i := t']> tables) own' (λ j, if bool_decide (j = i) then map_add (m i) key a else m j) →
  (∀ b d, h !! b = Some d → (∀ j, (j < length tables)%nat → ¬ own j b) →
     h' !! b = Some d ∧ ∀ j, (j < length tables)%nat → ¬ own' j b) →
  populated (past ++ [rec]) (<[i := t']> tables) bufs own'
    (λ j, if bool_decide (j = i) then map_add (m i) key a else m j) s' h'.
Proof.
  intros i [Hm HT R Hb Hf Hk] Ht Ek Enew Ha Hbs Hl Hst Hown Hok' St R' Hkeep.
  assert (∀ j u, tables !! j = Some u → ∃ u', <[i := t']> tables !! j = Some u' ∧ t_schema_ptr_ u' = t_schema_ptr_ u) as Hsc.
  { intros j u Hu. destruct (decide (i = j)) as [<-|].
    - exists t'. rewrite list_lookup_insert_eq by (by eapply lookup_lt_Some). simplify_eq. split; [done|apply St].
    - exists u. by rewrite list_lookup_insert_ne. }
  split.
  - done.
  - by eapply same_table_tpcc.
  - by rewrite length_app.
  - intros j p Hp. destruct (Hb j p Hp) as (u & q & Hu & Hq & Eq & Tq). destruct (Hsc j u Hu) as (u' & Hu' & Eu').
    exists u', q. split_and!; [done|done|congruence|done].
  - intros rec' [Hrec| ->%list_elem_of_singleton]%elem_of_app.
    + destruct (Hf rec' Hrec) as (key' & b & d & u & [F1 F2 F3 F4 F5 F6 F7 F8]). destruct (Hsc _ u F2) as (u' & Hu' & Eu').
      destruct (Hkeep b d F5 F8) as [Hb' Ho']. exists key', b, d, u'. split; rewrite ?Eu'; try done.
      * unfold map_add. case_bool_decide as E; [|done]. rewrite E in F3. destruct (Z.eqb_spec key' key) as [E'|]; [congruence|done].
      * by rewrite length_insert.
    + destruct (Hkeep a bs Hbs Hown) as [Hb' Ho']. destruct (Hsc i t Ht) as (u' & Hu' & Eu'). exists key, a, bs, u'.
      split; rewrite ?Eu'; try done.
      * fold i. rewrite bool_decide_true by done. unfold map_add. by rewrite Z.eqb_refl, Enew.
      * by rewrite length_insert.
  - intros j key' Hne. case_bool_decide as E.
    + unfold map_add in Hne. destruct (Z.eqb_spec key' key) as [E'|].
      * rewrite E'. exists rec. split_and!; [apply elem_of_app; right; apply list_elem_of_here|done|done].
      * destruct (Hk i key' Hne) as (rec' & ? & ? & ?). exists rec'. split_and!; [by apply elem_of_app; left|congruence|done].
    + destruct (Hk j key' Hne) as (rec' & ? & ? & ?). exists rec'. split_and!; [by apply elem_of_app; left|done|done].
Qed.

(** One row. *)
Lemma wp_insert_tpcc past rec tables bufs own m s h key (Q : list Table * list DbRecord → S → Prop) :
  populated past tables bufs own m s h → lock_returns lock → (length past < fuel)%nat →
  record_wf rec → row_in_range (record_row rec) → row_key sp (record_row rec) = Some key →
  m (Z.to_nat (record_table rec)) key = [] → 1024 + insert_room ≤ room s →
  (∀ tables' bufs' own' m' s' h', populated (past ++ [rec]) tables' bufs' own' m' s' h' →
     (∀ i key', (i, key') ≠ (Z.to_nat (record_table rec), key) → m' i key' = m i key') →
     room s - (1024 + insert_room) ≤ room s' → Q (tables', bufs') s') →
  wpd (insert_tpcc sp lock fuel rec (tables, bufs)) Q s.
Proof.
  intros P Hlock Hfuel Hwf Hrange Ek Enew Hroom HQ. assert (0 < insert_room) by by vm_compute.
  destruct (record_wf_fits rec Hwf) as (p & calls & Hp & Ec & Hlast & Hfit & Hnd & Hsz).
  destruct (pp_bufs _ _ _ _ _ _ _ P _ p Hp) as (t & r & Ht & Hr & Es & T).
  destruct (stores_row rec p calls r Ec Hfit Hnd Hlast T) as (r1 & r2 & E1 & E2 & T2 & Es2 & Hst).
  assert (∀ {A} (l : list A) x, l !! Z.to_nat (record_table rec) = Some x → arr_get l (record_table rec) = Some x) as Hget.
  { intros A l x Hx. unfold arr_get. by destruct rec. }
  assert (GetSchemaSize (t_schema_ptr_ t) = foldr Z.add 0 p.2) as Esz.
  { eapply (tpcc_table_size tables (pp_tables _ _ _ _ _ _ _ P)); [exact Ht|exact Hp]. }
  assert (0 < len (data_ptr_ r2) ∧ len (data_ptr_ r2) = GetSchemaSize (t_schema_ptr_ t)) as [Hpos El2].
  { destruct T2 as (cols & _ & Hr2). split; [by eapply rec_ok_pos|]. destruct Hr2 as [[_ E] _]. unfold GetSchemaSize. congruence. }
  unfold insert_tpcc. wpd_step. eapply wpd_in_array; [by apply Hget|]. wpd_step. rewrite Es.
  eapply (wp_Malloc s h); [apply P|lia|lia|lia|]. intros a bs s1 Ha Hlb Hna Hva Hok1 Hr1.
  wpd_step. eapply wpd_in_array; [exact Ec|]. rewrite E1. repeat wpd_step. rewrite E2. repeat wpd_step.
  assert (blk (<[a := bs]> h) a (len bs)) as Hb by apply blk_insert_same.
  destruct (blk_valid _ _ _ _ Hok1 Hb) as (_ & _ & E0).
  eapply (wp_record_Serialize _ _ _ a 0); [exact Hok1|by symmetry|lia|exact Hb|done|lia|].
  intros s2 Hok2 Hr2. rewrite (put_some _ _ _ _ bs), insert_insert_eq in Hok2 by apply lookup_insert_eq.
  rewrite splice_all in Hok2 by lia. rewrite Ek. repeat wpd_step. eapply wpd_in_array; [by apply Hget|].
  destruct (populated_block _ _ _ _ _ _ _ a (data_ptr_ r2) s2 P Ha Hok2) as [P2 Hown].
  repeat wpd_step. eapply (wp_table_insert lock (length past) fuel (Z.to_nat (record_table rec)) t key a s2 _ tables own m);
    [exact Hok2|apply P2|exact Ht|exact Hlock|lia|by eapply row_key_fits|exact Hva|lia|].
  intros t' own' h' s3 Hok3 St R3 Hkeep Hr3. repeat wpd_step.
  eapply HQ; [|intros i key' Hne|lia].
  - eapply (populated_buf _ _ _ _ _ _ _ _ t' r); [|by rewrite list_lookup_insert_eq by (by eapply lookup_lt_Some)|done|done|].
    + eapply populated_index; [exact P2|exact Ht|exact Ek|exact Enew|exact Hna|apply lookup_insert_eq|done| |exact Hown|exact Hok3|exact St|exact R3|exact Hkeep].
      eapply stores_data; [exact Hst|cbn; congruence|done].
    + intros q (cols & M & Hrq). destruct T2 as (cols2 & M2 & Hr2').
      assert (cols2 = cols) as ->.
      { pose proof (sk_columns _ _ (sm_ok _ _ _ _ M)) as E. pose proof (sk_columns _ _ (sm_ok _ _ _ _ M2)) as E'.
        rewrite Es2 in E'. congruence. }
      exists cols. by rewrite Es2.
  - cbn beta. case_bool_decide as E; [|done]. unfold map_add. destruct (Z.eqb_spec key' key) as [E'|]; [congruence|by rewrite E].
Qed.

(** All rows. *)
Lemma wp_insert_all recs : ∀ past tables bufs own m s h (Q : list Table * list DbRecord → S → Prop),
  populated past tables bufs own m s h → lock_returns lock → (length past + length recs ≤ fuel)%nat →
  Forall record_wf recs → Forall (λ r, row_in_range (record_row r)) recs →
  Forall (λ r, ∃ key, row_key sp (record_row r) = Some key ∧ m (Z.to_nat (record_table r)) key = []) recs →
  NoDup (record_row <$> recs) → (1024 + insert_room) * len recs ≤ room s →
  (∀ tables' bufs' own' m' s' h', populated (past ++ recs) tables' bufs' own' m' s' h' →
     room s - (1024 + insert_room) * len recs ≤ room s' → Q (tables', bufs') s') →
  wpd (insert_all sp lock fuel recs (tables, bufs)) Q s.
Proof.
  assert (0 < insert_room) as Hi by by vm_compute.
  induction recs as [|rec recs IH]; intros past tables bufs own m s h Q P Hlock Hfuel Hwf Hrange Hkey Hnd Hroom HQ.
  { apply wpd_ret. apply (HQ tables bufs own m s h); [by rewrite app_nil_r|cbn; lia]. }
  apply Forall_cons in Hwf as [Hw Hwf], Hrange as [Hr Hrange], Hkey as [(key & Ek & Enew) Hkey].
  rewrite fmap_cons in Hnd. apply NoDup_cons in Hnd as [Hni Hnd]. cbn [length] in *.
  cbn [insert_all]. wpd_step. eapply wp_insert_tpcc; [exact P|exact Hlock|lia|exact Hw|exact Hr|exact Ek|exact Enew|lia|].
  intros tables' bufs' own' m' s' h' P' Hm' Hroom'. cbn beta.
  eapply IH; [exact P'|exact Hlock| |exact Hwf|exact Hrange| |exact Hnd|lia|].
  - rewrite length_app. cbn. lia.
  - apply Forall_forall. intros r Hin. rewrite Forall_forall in Hkey. destruct (Hkey r Hin) as (key' & Ek' & En'). exists key'.
    split; [done|]. rewrite Hm'; [done|]. intros [= Et E]. subst key'.
    rewrite Forall_forall in Hrange. pose proof (row_key_inj sp _ _ _ (Hrange r Hin) Hr Ek' Ek) as Er.
    apply Hni. rewrite <-Er. by apply list_elem_of_fmap_2.
  - intros ? ? ? ? ? ? P2 ?. eapply HQ; [|lia]. by rewrite <-app_assoc in P2.
Qed.

(** Nothing has been inserted. *)
Lemma populated_nil tables own s h : heap_ok s h → tpcc_tables tables → tables_rep 0 h tables own (λ _ _, []) →
  populated [] tables (new_bufs tables) own (λ _ _, []) s h.
Proof.
  intros Hok HT R. split; [done|done|done| |by intros rec ?%elem_of_nil|done].
  intros i p Hp. destruct (Forall2_lookup_r _ _ _ _ _ HT Hp) as (t & Ht & cols & M). exists t, (new_Record (t_schema_ptr_ t)).
  split_and!; [done|unfold new_bufs; by rewrite list_lookup_fmap, Ht|done|]. exists cols. split; [done|].
  apply new_record_ok. eapply schema_made_vis; [exact M|].
  assert (Forall (λ p : Z * list Z, last p.2 = Some 1) (zip (seqZ 0 10) tpcc_sizes)) as F
    by (apply (bool_decide_unpack _); by vm_compute).
  by eapply (Forall_lookup_1 _ _ _ _ F).
Qed.

(** What a transaction finds of the rows. *)
Definition finds (tables : list Table) (m : nat → Z → list GlobalAddress) h (rec : tpcc_record) : Prop :=
  ∃ key, row_key sp (record_row rec) = Some key ∧
    ∀ ty, ty = READ_ONLY ∨ ty = READ_WRITE →
      ∃ x, copy_at tables m h (record_table rec) key ty = Some x ∧ stores rec (hd_record x).

Lemma populated_finds past tables bufs own m s h rec : populated past tables bufs own m s h → rec ∈ past →
  finds tables m h rec.
Proof.
  intros P Hrec. destruct (pp_found _ _ _ _ _ _ _ P rec Hrec) as (key & a & bs & t & [Ek Ht Em Ha Hb Hl Hst Ho]).
  exists key. split; [done|]. intros ty Hty. unfold copy_at. rewrite Em. change (newest [a]) with a.
  destruct (ga_eqb_spec a ga_Null); [done|]. rewrite Ht, Hb. cbn [mbind option_bind orb].
  assert (negb ((ty =? READ_ONLY) || (ty =? READ_WRITE)) = false) as -> by (by destruct Hty as [-> | ->]).
  by eexists.
Qed.
End populated.

(** Populating: rows of any of the ten tables, each with its own key, are stored and
    entered in the indexes of the empty tables of the benchmark, with a bucket lock that is
    granted; afterwards the database is well-formed, and through the key of each row a
    transaction finds a visible record whose columns hold what the row's structure holds. *)
Theorem populate_finds {S} {J : Indeterminate} {G : GAlloc S} {GH : GHeap S} sp lock fuel recs tables own (s : S) h :
  heap_ok s h → tpcc_tables tables → tables_rep 0 h tables own (λ _ _, []) → lock_returns lock →
  (length recs ≤ fuel)%nat → Forall record_wf recs → Forall (λ r, row_in_range (record_row r)) recs →
  Forall (λ r, is_Some (row_key sp (record_row r))) recs → NoDup (record_row <$> recs) →
  (1024 + insert_room) * len recs ≤ room s →
  wpd (insert_all sp lock fuel recs (tables, new_bufs tables)) (λ st s', tpcc_tables st.1 ∧
    ∃ own' m' h', heap_ok s' h' ∧ db_ok st.1 fuel (length recs) own' m' h' ∧
      room s - (1024 + insert_room) * len recs ≤ room s' ∧ ∀ rec, rec ∈ recs → finds sp st.1 m' h' rec) s.
Proof.
  intros Hok HT R Hlock Hf Hwf Hr Hk Hnd Hroom.
  eapply (wp_insert_all sp lock fuel recs []); [by eapply populated_nil|done|done|done|done| |done|done|].
  { eapply Forall_impl; [exact Hk|]. intros r [key E]. by exists key. }
  intros tables' bufs' own' m' s' h' P Hrm. cbn [app] in P. split; [apply P|]. exists own', m', h'.
  split_and!; [apply P|by eapply populated_db|done|]. intros rec Hrec. by eapply populated_finds.
Qed.

(** ** A small database: one item with its stock, a warehouse, a district, a customer *)
Definition ex_sp : TpccScaleParams := mk_TpccScaleParams 1 1 1 0 (d_of_Z 1000) 100 10 3 0.
Definition blanks (n : nat) : list Z := replicate n 32.
Definition ex_rows : list tpcc_record :=
  [r_item (mk_ItemRecord 7 3 (blanks 32) (d_lit 5 2) (blanks 64) 1);
   r_stock (mk_StockRecord 7 1 12 (replicate 10 (blanks 32)) 0 0 0 (blanks 64));
   r_warehouse (mk_WarehouseRecord 1 (blanks 16) (blanks 32) (blanks 32) (blanks 32) (blanks 2) (blanks 9)
     (d_lit 1 10) (d_of_Z 300000));
   r_district (mk_DistrictRecord 2 1 (blanks 16) (blanks 32) (blanks 32) (blanks 32) (blanks 2) (blanks 9)
     (d_lit 1 20) (d_of_Z 30000) 4);
   r_customer (mk_CustomerRecord 3 2 1 (blanks 32) (blanks 2) (blanks 32) (blanks 32) (blanks 32) (blanks 32) (blanks 2)
     (blanks 9) (blanks 32) 0 (blanks 2) (d_of_Z 50000) (d_lit 1 4) (d_of_Z (-10)) (d_of_Z 10) 1 0 (blanks 500))].

Lemma ex_tables : ∃ (s : DbFlat.flat) tables own h, heap_ok s h ∧ tpcc_tables tables ∧
  tables_rep 0 h tables own (λ _ _, []) ∧ 2 ^ 31 ≤ room s.
Proof.
  destruct RegisterSchemas_made as (scs & _ & F). destruct (made_columns scs _ F) as [cs Hw].
  pose proof (Forall2_length _ _ _ F) as Elen. change (length (zip (seqZ 0 10) tpcc_sizes)) with 10%nat in Elen.
  assert (wpd (make_tables 0 scs) (λ ts s, ∃ own h, heap_ok s h ∧ tpcc_tables ts ∧ tables_rep 0 h ts own (λ _ _, []) ∧
    2 ^ 31 ≤ room s) flat_init) as H.
  { eapply (wp_make_tables scs cs _ 0 flat_init ∅); [exact flat_init_ok|done|done|rewrite Elen; lia|rewrite Elen; by vm_compute|].
    intros ts own h s Hok R _ Esc _ _ Hr. exists own, h. split; [exact Hok|]. split; [|split; [exact R|]].
    - unfold tpcc_tables, has_schema. rewrite <-Esc in F. by apply Forall2_fmap_l in F.
    - etransitivity; [|exact Hr]. rewrite Elen. by vm_compute. }
  pose proof (wpd_run _ _ _ H) as (ts & s & _ & own & h & Hx). by exists s, ts, own, h.
Qed.

Lemma populate_finds_witness : ∃ (s : DbFlat.flat) tables own h, heap_ok s h ∧ tpcc_tables tables ∧
  tables_rep 0 h tables own (λ _ _, []) ∧ 2 ^ 31 ≤ room s ∧
  wpd (insert_all ex_sp free_lock 5 ex_rows (tables, new_bufs tables)) (λ st s', tpcc_tables st.1 ∧
    ∃ own' m' h', heap_ok s' h' ∧ db_ok st.1 5 5 own' m' h' ∧ room s - (1024 + insert_room) * 5 ≤ room s' ∧
      ∀ rec, rec ∈ ex_rows → finds ex_sp st.1 m' h' rec) s.
Proof.
  destruct ex_tables as (s & tables & own & h & Hok & HT & R & Hr). exists s, tables, own, h.
  split; [exact Hok|]. split; [exact HT|]. split; [exact R|]. split; [exact Hr|].
  apply (populate_finds ex_sp free_lock 5 ex_rows tables own s h).
  - exact Hok.
  - exact HT.
  - exact R.
  - exact free_lock_returns.
  - apply Nat.leb_le. reflexivity.
  - repeat constructor.
  - repeat (apply Forall_cons_2; [apply (bool_decide_unpack _); reflexivity|]). apply Forall_nil_2.
  - repeat (apply Forall_cons_2; [eexists; reflexivity|]). apply Forall_nil_2.
  - apply (bool_decide_unpack _). reflexivity.
  - etransitivity; [|exact Hr]. by vm_compute.
Defined.

Lemma ex_benchmark : ∃ (w : thread DbFlat.flat) tables own m h, tpcc_tables tables ∧
  alone tables 5 5 own m (2 ^ 20) w h [] [] ∧ ∀ rec, rec ∈ ex_rows → finds ex_sp tables m h rec.
Proof.
  destruct ex_tables as (s & tables & own & h & Hok & HT & R & Hr).
  assert (wpd (insert_all ex_sp free_lock 5 ex_rows (tables, new_bufs tables)) (λ st s', ∃ own' m' h',
    populated ex_sp ex_rows st.1 st.2 own' m' s' h' ∧ 2 ^ 20 ≤ room s') s) as H.
  { eapply (wp_insert_all ex_sp free_lock 5 ex_rows []); [by apply populated_nil|exact free_lock_returns|cbn; lia| | | | | |].
    - repeat constructor.
    - repeat (apply Forall_cons_2; [apply (bool_decide_unpack _); reflexivity|]). apply Forall_nil_2.
    - repeat (apply Forall_cons_2; [eexists; split; reflexivity|]). apply Forall_nil_2.
    - apply (bool_decide_unpack _). reflexivity.
    - etransitivity; [|exact Hr]. by vm_compute.
    - intros tables' bufs' own' m' s' h' P Hrm. exists own', m', h'. split; [exact P|]. etransitivity; [|exact Hrm].
      transitivity (2 ^ 31 - (1024 + insert_room) * 5); [by vm_compute|]. change (len ex_rows) with 5. lia. }
  pose proof (wpd_run _ _ _ H) as ([tables' bufs'] & s' & _ & own' & m' & h' & P & Hrm). cbn [fst snd] in P.
  exists (new_thread s'), tables', own', m', h'. split; [apply P|]. split.
  - split; [apply P|exact (populated_db ex_sp 5 ex_rows _ _ _ _ _ _ P (Nat.le_refl 5))|by split; constructor|by constructor|done|exact Hrm].
  - intros rec Hrec. exact (populated_finds _ _ _ _ _ _ _ _ rec P Hrec).
Qed.

(** A column of a row that is found. *)
Lemma stores_get {J : Indeterminate} rec calls p x col d o n : stores rec x → typed p x → record_calls rec = Some calls →
  (col, d, o) ∈ calls → 0 ≤ col → p.2 !! Z.to_nat col = Some n → GetColumn col x = Some (take (Z.to_nat n) d).
Proof.
  intros (calls' & Ec' & _ & H) (cols & M & _) Ec Hin H0 Hn. simplify_eq.
  destruct (H _ Hin) as (n' & Esz & E). cbn [fst snd] in *.
  destruct (schema_made_size _ _ _ _ _ _ M Hn) as [Esz' _]. rewrite Z2Nat.id in Esz' by done. congruence.
Qed.
