(* ===== verification/TpccPayment.v ===== *)
(** * TpccPayment: [PaymentProcedure] does what its reference says *)
From S2P Require Import Prelude GlobalMem DbStore DbFlat DbDsm DbArray DbIndex DbSchema DbTable DbTxn DbSerial TpccBase TpccSchemas TpccProcs TpccAlone TpccPopulator.
From stdpp Require Import base numbers option list list_numbers gmap.
Open Scope Z_scope.

Section reference.
Context {J : Indeterminate} (sp : TpccScaleParams) (tables : list Table) (m : nat → Z → list GlobalAddress).
Implicit Types h : heap.

(** Payment: the year-to-date sums of the warehouse and of the district, the balance of the
    customer, the history. *)
Definition pay_customer (amount : double) (r : DbRecord) : option DbRecord :=
  r ← change_double 16 (λ v, d_sub v amount) r;
  r ← change_double 17 (λ v, d_add v amount) r;
  change_int 18 (λ v, v + 1) r.

Definition ref_payment (p : PaymentParam) h : option (list held * list (option (list Z)) * list Z) :=
  let add v := d_add v (h_amount_ p) in
  w_key ← GetWarehousePrimaryKey sp (pay_w_id_ p);
  d_key ← GetDistrictPrimaryKey sp (pay_d_id_ p) (pay_w_id_ p);
  c_key ← GetCustomerPrimaryKey sp (pay_c_id_ p) (pay_c_d_id_ p) (pay_c_w_id_ p);
  w ← copy_at tables m h WAREHOUSE_TABLE_ID w_key (pay_warehouse_access_type_ p);
  d ← copy_at tables m h DISTRICT_TABLE_ID d_key (pay_district_access_type_ p);
  c ← copy_at tables m h CUSTOMER_TABLE_ID c_key (pay_customer_access_type_ p);
  w_ytd ← column_double 8 (hd_record w);
  d_ytd ← column_double 9 (hd_record d);
  w ← with_record (change_double 8 add) w;
  d ← with_record (change_double 9 add) d;
  c ← with_record (pay_customer (h_amount_ p)) c;
  row ← new_row tables HISTORY_TABLE_ID (history_access_type_ p) (history_columns p);
  Some ([w; d; c], [row], double_bytes w_ytd ++ double_bytes d_ytd).
End reference.

(** ** Payment *)
Section payment.
Context {S : Type} {J : Indeterminate} {G : GAlloc S} {GH : GHeap S}.
Context (sp : TpccScaleParams) (tables : list Table) (fuel k : nat) (own : nat → GlobalAddress → Prop).
Context (m : nat → Z → list GlobalAddress) (thread_id : Z) (param : PaymentParam).
Abbreviation amount := (h_amount_ param).

(** What is read and written of the copies of the warehouse, the district and the customer. *)
Record paying (cw cd cc : held) (w_ytd d_ytd balance ytd : double) (rw rd rc1 rc2 rc3 : DbRecord) (cnt cnt' : Z)
    (row : option (list Z)) : Prop := {
  pa_w : column_double 8 (hd_record cw) = Some w_ytd;
  pa_w' : SetColumn 8 (double_bytes (d_add w_ytd amount)) (hd_record cw) = Some rw;
  pa_d : column_double 9 (hd_record cd) = Some d_ytd;
  pa_d' : SetColumn 9 (double_bytes (d_add d_ytd amount)) (hd_record cd) = Some rd;
  pa_b : column_double 16 (hd_record cc) = Some balance;
  pa_b' : SetColumn 16 (double_bytes (d_sub balance amount)) (hd_record cc) = Some rc1;
  pa_y : column_double 17 rc1 = Some ytd;
  pa_y' : SetColumn 17 (double_bytes (d_add ytd amount)) rc1 = Some rc2;
  pa_n : column_int 18 rc2 = Some cnt;
  pa_n' : int_of (cnt + 1) = Some cnt';
  pa_n'' : SetColumn 18 (int_bytes cnt') rc2 = Some rc3;
  pa_row : new_row tables HISTORY_TABLE_ID (history_access_type_ param) (history_columns param) = Some row;
}.

Lemma paying_ok h cw cd cc w_key d_key c_key cnt cnt' :
  tpcc_tables tables → db_ok tables fuel k own m h →
  copy_at tables m h WAREHOUSE_TABLE_ID w_key (pay_warehouse_access_type_ param) = Some cw →
  copy_at tables m h DISTRICT_TABLE_ID d_key (pay_district_access_type_ param) = Some cd →
  copy_at tables m h CUSTOMER_TABLE_ID c_key (pay_customer_access_type_ param) = Some cc →
  column_int 18 (hd_record cc) = Some cnt → int_of (cnt + 1) = Some cnt' →
  ∃ w_ytd d_ytd balance ytd rw rd rc1 rc2 rc3 row,
    paying cw cd cc w_ytd d_ytd balance ytd rw rd rc1 rc2 rc3 cnt cnt' row.
Proof.
  intros HT D Cw Cd Cc Hcnt Hcnt'.
  pose proof (copy_at_typed tables m HT fuel k own h _ _ _ cw _ D Cw eq_refl eq_refl) as Tw.
  pose proof (copy_at_typed tables m HT fuel k own h _ _ _ cd _ D Cd eq_refl eq_refl) as Td.
  pose proof (copy_at_typed tables m HT fuel k own h _ _ _ cc _ D Cc eq_refl eq_refl) as Tc.
  destruct (typed_change_double _ _ 8 (λ v, d_add v amount) Tw ltac:(lia) eq_refl) as (w_ytd & rw & ? & ? & _).
  destruct (typed_change_double _ _ 9 (λ v, d_add v amount) Td ltac:(lia) eq_refl) as (d_ytd & rd & ? & ? & _).
  destruct (typed_change_double _ _ 16 (λ v, d_sub v amount) Tc ltac:(lia) eq_refl) as (bal & rc1 & ? & ? & _ & Tc1 & S1).
  destruct (typed_change_double _ _ 17 (λ v, d_add v amount) Tc1 ltac:(lia) eq_refl) as (ytd & rc2 & ? & ? & _ & Tc2 & S2).
  assert (column_int 18 rc2 = Some cnt) as Hcnt2.
  { rewrite (same_int _ _ _ _ 18 S2), (same_int _ _ _ _ 18 S1); [done|cbn; lia..]. }
  destruct (typed_change_int _ _ 18 (λ v, v + 1) cnt cnt' Tc2 ltac:(lia) eq_refl Hcnt2 Hcnt') as (rc3 & ? & _).
  destruct (typed_new_row tables HT HISTORY_TABLE_ID (history_access_type_ param) (history_columns param) _ eq_refl eq_refl)
    as [row ?]; [unfold columns_fit, history_columns; fit_columns|].
  by exists w_ytd, d_ytd, bal, ytd, rw, rd, rc1, rc2, rc3, row.
Qed.

Abbreviation copy x r := (mk_held (hd_type x) (hd_addr x) r).

Lemma paying_ref h cw cd cc w_key d_key c_key w_ytd d_ytd balance ytd rw rd rc1 rc2 rc3 cnt cnt' row :
  GetWarehousePrimaryKey sp (pay_w_id_ param) = Some w_key →
  GetDistrictPrimaryKey sp (pay_d_id_ param) (pay_w_id_ param) = Some d_key →
  GetCustomerPrimaryKey sp (pay_c_id_ param) (pay_c_d_id_ param) (pay_c_w_id_ param) = Some c_key →
  copy_at tables m h WAREHOUSE_TABLE_ID w_key (pay_warehouse_access_type_ param) = Some cw →
  copy_at tables m h DISTRICT_TABLE_ID d_key (pay_district_access_type_ param) = Some cd →
  copy_at tables m h CUSTOMER_TABLE_ID c_key (pay_customer_access_type_ param) = Some cc →
  paying cw cd cc w_ytd d_ytd balance ytd rw rd rc1 rc2 rc3 cnt cnt' row →
  ref_payment sp tables m param h =
    Some ([copy cw rw; copy cd rd; copy cc rc3], [row], double_bytes w_ytd ++ double_bytes d_ytd).
Proof.
  intros Kw Kd Kc Cw Cd Cc []. unfold ref_payment, with_record, pay_customer, change_double, change_int.
  repeat first [progress cbn [mbind option_bind]|
    match goal with H : ?x = Some _ |- context [?x] => rewrite H end]. done.
Qed.

Lemma wp_payment h cw cd cc w_key d_key c_key w_ytd d_ytd balance ytd rw rd rc1 rc2 rc3 cnt cnt' row ret ret1 ret2 n w :
  tpcc_tables tables → alone tables fuel k own m (69 + n) w h [] [] → 0 ≤ n →
  GetWarehousePrimaryKey sp (pay_w_id_ param) = Some w_key →
  GetDistrictPrimaryKey sp (pay_d_id_ param) (pay_w_id_ param) = Some d_key →
  GetCustomerPrimaryKey sp (pay_c_id_ param) (pay_c_d_id_ param) (pay_c_w_id_ param) = Some c_key →
  copy_at tables m h WAREHOUSE_TABLE_ID w_key (pay_warehouse_access_type_ param) = Some cw →
  copy_at tables m h DISTRICT_TABLE_ID d_key (pay_district_access_type_ param) = Some cd →
  copy_at tables m h CUSTOMER_TABLE_ID c_key (pay_customer_access_type_ param) = Some cc →
  paying cw cd cc w_ytd d_ytd balance ytd rw rd rc1 rc2 rc3 cnt cnt' row →
  append_ret (double_bytes w_ytd) ret = Some ret1 → append_ret (double_bytes d_ytd) ret1 = Some ret2 →
  wpd (PaymentProcedure (L := dsm_locks) sp tables fuel thread_id param ret) (λ r w',
    ∃ h', r = (true, ret2) ∧ adds h [row] h' ∧
      alone tables fuel k own m n w' (commit_heap [copy cw rw; copy cd rd; copy cc rc3] h') [] []) w.
Proof.
  intros HT A Hn Kw Kd Kc Cw Cd Cc [] Er1 Er2. unfold PaymentProcedure.
  wpd_step. eapply wpd_checked; [exact Kw|]. eapply alone_query; [exact A|done|done|exact Cw|]. clear w A. intros w pw A.
  wpd_step. eapply alone_double_last; [exact A|done|]. wpd_step. eapply wpd_in_array; [exact Er1|].
  wpd_step. eapply alone_set_last; [exact A|done|]. clear w A. intros w A.
  wpd_step. eapply wpd_checked; [exact Kd|]. eapply alone_query; [exact A|done|done|exact Cd|]. clear w A. intros w pd A.
  wpd_step. eapply alone_double_last; [exact A|done|]. wpd_step. eapply wpd_in_array; [exact Er2|].
  wpd_step. eapply alone_set_last; [exact A|done|]. clear w A. intros w A.
  unfold payment_customer. destruct (Z.eqb_spec (pay_c_id_ param) (-1)) as [E|_].
  { unfold GetCustomerPrimaryKey in Kc. by rewrite E in Kc. }
  wpd_step. eapply wpd_checked; [exact Kc|]. eapply alone_query; [exact A|done|done|exact Cc|]. clear w A. intros w pc A.
  wpd_step. eapply wpd_in_array; [done|].
  wpd_step. eapply alone_double_last; [exact A|done|]. wpd_step. eapply alone_set_last; [exact A|done|]. clear w A. intros w A.
  wpd_step. eapply alone_double_last; [exact A|done|]. wpd_step. eapply alone_set_last; [exact A|done|]. clear w A. intros w A.
  wpd_step. eapply alone_int_last; [exact A|done|]. wpd_step. eapply wpd_in_array; [done|].
  wpd_step. eapply alone_set_last; [exact A|done|]. clear w A. intros w A.
  destruct (tpcc_table tables HT HISTORY_TABLE_ID _ eq_refl) as (t & _ & Et & _).
  pose proof (tpcc_table_size tables HT HISTORY_TABLE_ID t _ Et eq_refl) as Esz.
  change (GetSchemaSize (t_schema_ptr_ t) = 69) in Esz.
  eapply (alone_insert tables fuel k thread_id own m); [exact Et|done|by rewrite Esz|done| |exact Hn|rewrite Esz; exact A|]; [done|].
  clear w A. intros w a bs r p Ha Hbs A. wpd_step. eapply alone_commit; [exact A|by repeat constructor|].
  clear w A. intros w A. wpd_step. exists (<[a := bs]> h). split; [done|]. split; [|exact A].
  eapply adds_cons; [done|done|]. apply adds_nil.
Qed.
End payment.

(** C10: Payment does what the reference says: on a thread that runs alone, for a warehouse,
    a district and a customer that exist, it returns [true] and the two sums as they were;
    the copies of the three records with the amount added (subtracted from the balance, one
    more payment) are written back as their access types say, the history is stored at a
    new address, and every other byte of the memory is as before. *)
Theorem payment_executes {S} {J : Indeterminate} {G : GAlloc S} {GH : GHeap S} sp tables fuel k own m thread_id
    param ret w_key d_key c_key cw cd cc cnt cnt' n (w : thread S) h :
  tpcc_tables tables → alone tables fuel k own m (69 + n) w h [] [] → 0 ≤ n →
  GetWarehousePrimaryKey sp (pay_w_id_ param) = Some w_key →
  GetDistrictPrimaryKey sp (pay_d_id_ param) (pay_w_id_ param) = Some d_key →
  GetCustomerPrimaryKey sp (pay_c_id_ param) (pay_c_d_id_ param) (pay_c_w_id_ param) = Some c_key →
  copy_at tables m h WAREHOUSE_TABLE_ID w_key (pay_warehouse_access_type_ param) = Some cw →
  copy_at tables m h DISTRICT_TABLE_ID d_key (pay_district_access_type_ param) = Some cd →
  copy_at tables m h CUSTOMER_TABLE_ID c_key (pay_customer_access_type_ param) = Some cc →
  column_int 18 (hd_record cc) = Some cnt → int_of (cnt + 1) = Some cnt' →
  0 ≤ size_ ret → size_ ret + 16 ≤ len (char_ptr_ ret) →
  ∃ copies rows out ret', ref_payment sp tables m param h = Some (copies, rows, out) ∧ append_ret out ret = Some ret' ∧
    wpd (PaymentProcedure (L := dsm_locks) sp tables fuel thread_id param ret) (λ r w',
      ∃ h', r = (true, ret') ∧ adds h rows h' ∧ alone tables fuel k own m n w' (commit_heap copies h') [] []) w.
Proof.
  intros HT A Hn Kw Kd Kc Cw Cd Cc Hcnt Hcnt' Hs0 Hs1.
  destruct (paying_ok tables fuel k own m param h cw cd cc w_key d_key c_key cnt cnt')
    as (w_ytd & d_ytd & bal & ytd & rw & rd & rc1 & rc2 & rc3 & row & P); [done|apply A|done..|].
  destruct (append_ret_fits (double_bytes w_ytd) ret Hs0) as (ret1 & Er1 & Es1 & El1); [rewrite double_bytes_len; lia|].
  destruct (append_ret_fits (double_bytes d_ytd) ret1) as (ret2 & Er2 & _ & _);
    [rewrite Es1, double_bytes_len; lia|rewrite Es1, !double_bytes_len; lia|].
  eexists _, _, _, ret2. split; [by eapply paying_ref|]. split; [by eapply append_ret_app|].
  by eapply wp_payment.
Qed.

Definition ex_payment : PaymentParam :=
  mk_PaymentParam 1 2 (d_of_Z 25) 1 2 3 1000 READ_WRITE READ_WRITE READ_WRITE INSERT_ONLY.
Definition ex_ret : CharArray := mk_CharArray 0 (replicate 1024 0).

Lemma payment_executes_witness : ∃ (w : thread DbFlat.flat) tables own m h, tpcc_tables tables ∧
  alone tables 5 5 own m (69 + 0) w h [] [] ∧
  ∃ copies rows out ret', ref_payment ex_sp tables m ex_payment h = Some (copies, rows, out) ∧
    append_ret out ex_ret = Some ret' ∧
    wpd (PaymentProcedure (L := dsm_locks) ex_sp tables 5 0 ex_payment ex_ret) (λ r w',
      ∃ h', r = (true, ret') ∧ adds h rows h' ∧ alone tables 5 5 own m 0 w' (commit_heap copies h') [] []) w.
Proof.
  destruct ex_benchmark as (w & tables & own & m & h & HT & A & Hfinds). exists w, tables, own, m, h.
  assert (alone tables 5 5 own m (69 + 0) w h [] []) as A' by (destruct A; split; (done || lia)).
  split; [exact HT|]. split; [exact A'|].
  destruct (Hfinds (nth 2 ex_rows (r_new_order (mk_NewOrderRecord 0 0 0)))) as (wk & Ewk & Hw); [do 2 right; left|].
  destruct (Hfinds (nth 3 ex_rows (r_new_order (mk_NewOrderRecord 0 0 0)))) as (dk & Edk & Hd); [do 3 right; left|].
  destruct (Hfinds (nth 4 ex_rows (r_new_order (mk_NewOrderRecord 0 0 0)))) as (ck & Eck & Hc); [do 4 right; left|].
  destruct (Hw READ_WRITE) as (cw & Ecw & _); [by right|]. destruct (Hd READ_WRITE) as (cd & Ecd & _); [by right|].
  destruct (Hc READ_WRITE) as (cc & Ecc & Scc); [by right|].
  eapply (payment_executes ex_sp tables 5 5 own m 0 ex_payment ex_ret wk dk ck cw cd cc 1 2 0 w h).
  - exact HT.
  - exact A'.
  - lia.
  - exact Ewk.
  - exact Edk.
  - exact Eck.
  - exact Ecw.
  - exact Ecd.
  - exact Ecc.
  - pose proof (copy_at_typed tables m HT 5 5 own h _ _ _ cc _ (al_db _ _ _ _ _ _ _ _ _ _ A) Ecc eq_refl eq_refl) as T.
    unfold column_int. rewrite (stores_get _ _ _ _ 18 (int_bytes 1) None 4 Scc T eq_refl); [reflexivity| |lia|reflexivity].
    apply (bool_decide_unpack _). vm_compute. reflexivity.
  - reflexivity.
  - cbn. lia.
  - cbn. lia.
Defined.
