(* ===== verification/TpccNewOrder.v ===== *)
(** * TpccNewOrder: [NewOrderProcedure] does what its reference says *)
From S2P Require Import Prelude GlobalMem DbStore DbFlat DbDsm DbArray DbIndex DbSchema DbTable DbTxn DbSerial TpccBase TpccSchemas TpccProcs TpccAlone TpccPopulator.
From stdpp Require Import base numbers option list list_numbers gmap.
Open Scope Z_scope.

(** ** New order *)
Section ref_new_order.
Context {J : Indeterminate} (sp : TpccScaleParams) (tables : list Table) (m : nat → Z → list GlobalAddress).
Context (param : NewOrderParam).
Implicit Types h : heap.
Abbreviation w_id := (no_w_id_ param).
Abbreviation d_id := (no_d_id_ param).

(** A line of the order: the item, what is returned of it, the amount. *)
Definition ref_item h (i : Z) : option (held * list Z * double) :=
  item_id ← arr_get (i_ids_ param) i;
  key ← GetItemPrimaryKey sp item_id w_id;
  ty ← arr_get (item_access_type_ param) i;
  x ← copy_at tables m h ITEM_TABLE_ID key ty;
  price ← column_double 3 (hd_record x);
  ol_quantity ← arr_get (i_qtys_ param) i;
  Some (x, int_bytes item_id ++ double_bytes price, d_mul (d_of_Z ol_quantity) price).

(** The stock: what is ordered is taken from it, with 91 more when fewer than ten are left. *)
Definition restock (ol_quantity quantity : Z) : option Z :=
  limit ← int_of (ol_quantity + 10);
  if limit <=? quantity then int_of (quantity + - ol_quantity)
  else quantity ← int_of (quantity + 91); int_of (quantity + - ol_quantity).
Definition update_stock (ol_quantity : Z) (remote : bool) (r : DbRecord) : option DbRecord :=
  r ← change_int 13 (λ ytd, ytd + ol_quantity) r;
  quantity ← column_int 2 r;
  quantity ← restock ol_quantity quantity;
  r ← SetColumn 2 (int_bytes quantity) r;
  r ← change_int 14 (λ order_cnt, order_cnt + 1) r;
  if remote then change_int 15 (λ remote_cnt, remote_cnt + 1) r else Some r.

(** With the information on the district. *)
Definition ref_stock h (i : Z) : option (held * list Z) :=
  ol_i_id ← arr_get (i_ids_ param) i;
  ol_supply_w_id ← arr_get (i_w_ids_ param) i;
  ty ← arr_get (stock_access_type_ param) i;
  x ← copy_at tables m h STOCK_TABLE_ID (GetStockPrimaryKey ol_i_id ol_supply_w_id) ty;
  ol_quantity ← arr_get (i_qtys_ param) i;
  x ← with_record (update_stock ol_quantity (negb (ol_supply_w_id =? w_id))) x;
  dist_column ← int_of (d_id + 2);
  s_dist ← GetColumn dist_column (hd_record x);
  s_dist ← over (replicate 33 junk) s_dist;
  Some (x, s_dist).

Definition line_columns (d_next_o_id i ol_i_id ol_supply_w_id ol_quantity : Z) (ol_amount : double) (s_dist : list Z) :=
  [(0, int_bytes d_next_o_id); (1, int_bytes d_id); (2, int_bytes w_id); (3, int_bytes (i + 1));
   (4, int_bytes ol_i_id); (5, int_bytes ol_supply_w_id); (6, long_bytes (no_o_entry_d_ param));
   (7, int_bytes ol_quantity); (8, double_bytes ol_amount); (9, s_dist)].
Definition ref_line (d_next_o_id : Z) (ol_amounts : list double) (s_dists : list (list Z)) (i : Z) :
    option (option (list Z)) :=
  ol_i_id ← arr_get (i_ids_ param) i;
  ol_supply_w_id ← arr_get (i_w_ids_ param) i;
  ol_quantity ← arr_get (i_qtys_ param) i;
  ol_amount ← arr_get ol_amounts i;
  s_dist ← arr_get s_dists i;
  ty ← arr_get (order_line_access_type_ param) i;
  new_row tables ORDER_LINE_TABLE_ID ty (line_columns d_next_o_id i ol_i_id ol_supply_w_id ol_quantity ol_amount s_dist).

Definition ref_new_order h : option (list held * list (option (list Z)) * list Z) :=
  let lines := seqZ 0 (ol_cnt_ param) in
  items ← mapM (ref_item h) lines;
  stocks ← mapM (ref_stock h) lines;
  w_key ← GetWarehousePrimaryKey sp w_id;
  d_key ← GetDistrictPrimaryKey sp d_id w_id;
  c_key ← GetCustomerPrimaryKey sp (no_c_id_ param) d_id w_id;
  w ← copy_at tables m h WAREHOUSE_TABLE_ID w_key (no_warehouse_access_type_ param);
  d ← copy_at tables m h DISTRICT_TABLE_ID d_key (no_district_access_type_ param);
  c ← copy_at tables m h CUSTOMER_TABLE_ID c_key (no_customer_access_type_ param);
  w_tax ← column_double 7 (hd_record w);
  d_tax ← column_double 8 (hd_record d);
  c_discount ← column_double 15 (hd_record c);
  d_next_o_id ← column_int 10 (hd_record d);
  if negb (0 <? d_next_o_id) then None else
  d ← with_record (change_int 10 (λ id, id + 1)) d;
  new_order ← new_row tables NEW_ORDER_TABLE_ID (new_order_access_type_ param) (new_order_columns param d_next_o_id);
  order ← new_row tables ORDER_TABLE_ID (order_access_type_ param) (order_columns param d_next_o_id);
  rows ← mapM (ref_line d_next_o_id (snd <$> items) (snd <$> stocks)) lines;
  Some ((fst ∘ fst <$> items) ++ (fst <$> stocks) ++ [w; d; c], new_order :: order :: rows,
        concat ((λ x, x.1.2) <$> items) ++ int_bytes d_next_o_id ++ double_bytes w_tax ++
          double_bytes d_tax ++ double_bytes c_discount).
End ref_new_order.

(** Hypotheses [_ ← _; _ = Some _] are taken apart. *)
Ltac bind_inv :=
  repeat match goal with H : (_ ≫= _) = Some _ |- _ => apply bind_Some in H as (? & ? & ?) end.

Section new_order.
Context {S : Type} {J : Indeterminate} {G : GAlloc S} {GH : GHeap S}.
Context (sp : TpccScaleParams) (tables : list Table) (fuel k : nat) (own : nat → GlobalAddress → Prop).
Context (m : nat → Z → list GlobalAddress) (thread_id : Z) (param : NewOrderParam).
Implicit Types (h : heap) (w : thread S) (Q : bool * CharArray → thread S → Prop).
#[local] Existing Instance dsm_locks.
Abbreviation alone := (alone tables fuel k own m).

Lemma wp_for_query {A B} (l : list A) (b : B) body rest (I : list A → B → thread S → Prop) Q w :
  I l b w →
  (∀ x l b w k, I (x :: l) b w → (∀ b' w', I l b' w' → wpd (k b') Q w') → wpd (body x b k) Q w) →
  (∀ b w, I [] b w → wpd (rest b) Q w) → wpd (for_query l b body rest) Q w.
Proof.
  intros Hw Hb Hr. revert b w Hw. induction l as [|x l IH]; intros b w Hw; [by apply Hr|].
  cbn [for_query]. eapply Hb; [exact Hw|]. intros b' w' Hw'. by apply IH.
Qed.

(** The first loop, after the items [done]. *)
Record items_inv n h ret (items : list (held * list Z * double)) (l : list Z) (acc : CharArray * list double * double) w
    (past todo : list (held * list Z * double)) : Prop := {
  it_index : l = seqZ (len past) (ol_cnt_ param - len past);
  it_split : items = past ++ todo;
  it_ref : Forall2 (λ i x, ref_item sp tables m param h i = Some x) l todo;
  it_alone : ∃ ps, alone n w h (fst ∘ fst <$> past) ps;
  it_ret : append_ret (concat ((λ x, x.1.2) <$> past)) ret = Some acc.1.1;
  it_amounts : take (length past) acc.1.2 = snd <$> past ∧ length acc.1.2 = 15%nat;
}.

Lemma seqZ_step x l a n : x :: l = seqZ a (n - a) → x = a ∧ a < n ∧ l = seqZ (a + 1) (n - (a + 1)).
Proof.
  destruct (decide (a < n)) as [Hl|]; [|by rewrite seqZ_nil by lia].
  rewrite seqZ_cons by lia. intros [= -> ->]. split_and!; [done|done|f_equal; lia].
Qed.

Lemma take_snoc_set {A} (l l' : list A) i x xs : arr_set l i x = Some l' → i = len xs → take (length xs) l = xs →
  take (length (xs ++ [x])) l' = xs ++ [x] ∧ length l' = length l.
Proof.
  unfold arr_set. destruct (Z.leb_spec 0 i); [|done]. destruct (Z.ltb_spec i (len l)); [|done]. cbn. intros [= <-] -> E.
  split; [|by rewrite length_insert]. rewrite length_app. cbn [length]. rewrite Nat.add_1_r, Nat2Z.id.
  rewrite (take_S_r _ _ x); [|apply list_lookup_insert_eq; lia]. f_equal. by rewrite take_insert_ge by lia.
Qed.

Lemma arr_set_in {A} (l : list A) i x : 0 ≤ i < len l → ∃ l', arr_set l i x = Some l'.
Proof. intros. unfold arr_set. rewrite (proj2 (Z.leb_le _ _)), (proj2 (Z.ltb_lt _ _)) by lia. by eexists. Qed.

Lemma wp_item n h ret items i l acc w past todo rest Q :
  items_inv n h ret items (i :: l) acc w past todo → ol_cnt_ param ≤ 15 →
  0 ≤ size_ ret → size_ ret + len (concat ((λ x, x.1.2) <$> items)) ≤ len (char_ptr_ ret) →
  (∀ acc' w' past' todo', items_inv n h ret items l acc' w' past' todo' → wpd (rest acc') Q w') →
  wpd (new_order_item sp tables fuel thread_id param i acc rest) Q w.
Proof.
  intros [Hl Es Hf [ps A] Hret [Ham Hlen]] H15 Hs0 Hs1 HQ. apply Forall2_cons_inv_l in Hf as (x & todo' & Hx & Hf & ->).
  destruct (seqZ_step _ _ _ _ Hl) as (-> & Hcnt & ->). destruct acc as [[ret1 ams] total]. cbn [fst snd] in *.
  unfold ref_item in Hx. bind_inv. simplify_eq. unfold new_order_item, at_index.
  match goal with H : column_double 3 _ = Some ?v |- _ => rename v into price end.
  match goal with H : arr_get (i_ids_ param) _ = Some ?v |- _ => rename v into item_id end.
  match goal with H : arr_get (i_qtys_ param) _ = Some ?v |- _ => rename v into qty end.
  destruct (append_ret_inv _ _ _ Hs0 Hret) as [Es1 El1].
  rewrite fmap_app, fmap_cons, concat_app in Hs1. cbn [concat fst snd] in Hs1.
  rewrite !length_app in Hs1. pose proof (int_bytes_len item_id). pose proof (double_bytes_len price).
  destruct (append_ret_fits (int_bytes item_id) ret1) as (ret2 & Er2 & Es2 & El2); [lia..|].
  destruct (append_ret_fits (double_bytes price) ret2) as (ret3 & Er3 & _ & _); [lia..|].
  destruct (arr_set_in ams (len past) (d_mul (d_of_Z qty) price)) as [ams' Eams]; [lia|].
  wpd_step. eapply wpd_in_array; [eassumption|]. wpd_step. eapply wpd_checked; [eassumption|].
  wpd_step. eapply wpd_in_array; [eassumption|]. wpd_step. eapply alone_search; [exact A| |done|eassumption|].
  { rewrite length_fmap. change kMaxAccessLimit with 256. lia. }
  clear w A. intros w p A. wpd_step. eapply alone_double_last; [exact A|eassumption|].
  wpd_step. eapply wpd_in_array; [exact Er2|]. wpd_step. eapply wpd_in_array; [exact Er3|].
  wpd_step. eapply wpd_in_array; [eassumption|]. repeat wpd_step. eapply wpd_in_array; [exact Eams|].
  eapply (HQ _ _ (past ++ [_]) todo'). split.
  - rewrite length_app, Nat2Z.inj_add. done.
  - rewrite <-app_assoc. reflexivity.
  - exact Hf.
  - eexists. rewrite fmap_app. exact A.
  - rewrite fmap_app, concat_app. cbn. rewrite app_nil_r. eapply append_ret_app; [done|exact Hret|].
    eapply append_ret_app; [lia|exact Er2|exact Er3].
  - cbn [fst snd]. rewrite fmap_app. rewrite <-Hlen.
    assert (length past = length (snd <$> past)) as Elp by by rewrite length_fmap.
    rewrite Elp in Ham, Eams. destruct (take_snoc_set _ _ _ _ _ Eams eq_refl Ham) as [E1 E2].
    split; [|exact E2]. rewrite length_app in E1 |- *. cbn [length fmap list_fmap] in *. rewrite Elp. exact E1.
Qed.

(** The second loop. *)
Lemma wp_take_stock n w h hs x ps p q sw r (Q : unit → thread S → Prop) :
  alone n w h (hs ++ [x]) (ps ++ [p]) →
  update_stock q (negb (sw =? no_w_id_ param)) (hd_record x) = Some r →
  (∀ w', alone n w' h (hs ++ [mk_held (hd_type x) (hd_addr x) r]) (ps ++ [p]) → Q () w') →
  wpd (take_stock param p q sw) Q w.
Proof.
  intros A E HQ. unfold update_stock, change_int, restock in E. unfold take_stock, int_add. bind_inv. simplify_eq.
  wpd_step. eapply alone_int_last; [exact A|eassumption|]. wpd_step. eapply wpd_in_array; [eassumption|].
  wpd_step. eapply alone_set_last; [exact A|eassumption|]. clear w A. intros w A.
  wpd_step. eapply alone_int_last; [exact A|eassumption|]. wpd_step. eapply wpd_in_array; [eassumption|]. wpd_step.
  match goal with H : SetColumn 2 _ _ = Some ?r |- _ => rename r into r2; rename H into E2 end.
  match goal with H : (if negb _ then _ else _) = Some r |- _ => rename H into Er end.
  eapply (wpd_mono _ (λ _ w', alone n w' h (hs ++ [mk_held (hd_type x) (hd_addr x) r2]) (ps ++ [p]))).
  { match goal with H : (if ?b then _ else _) = Some _ |- wpd (if ?b then _ else _) _ _ => destruct b end; bind_inv;
      repeat (wpd_step; eapply wpd_in_array; [eassumption|]); (eapply alone_set_last; [exact A|exact E2|done]). }
  clear w A. intros [] w A. wpd_step. eapply alone_int_last; [exact A|eassumption|]. wpd_step. eapply wpd_in_array; [eassumption|].
  wpd_step. eapply alone_set_last; [exact A|eassumption|]. clear w A. intros w A.
  destruct (sw =? no_w_id_ param); cbn [negb] in Er; [injection Er as ->; by apply HQ|]. bind_inv.
  wpd_step. eapply alone_int_last; [exact A|eassumption|]. wpd_step. eapply wpd_in_array; [eassumption|].
  eapply alone_set_last; [exact A|eassumption|done].
Qed.

Record stocks_inv n h (hs : list held) (stocks : list (held * list Z)) (l : list Z) (s_dists : list (list Z)) w
    (past todo : list (held * list Z)) : Prop := {
  st_index : l = seqZ (len past) (ol_cnt_ param - len past);
  st_split : stocks = past ++ todo;
  st_ref : Forall2 (λ i x, ref_stock tables m param h i = Some x) l todo;
  st_alone : ∃ ps, alone n w h (hs ++ (fst <$> past)) ps;
  st_dists : take (length past) s_dists = snd <$> past ∧ length s_dists = 15%nat;
  st_old i : len past ≤ i < 15 → arr_get s_dists i = Some (replicate 33 junk);
}.

Lemma wp_stock n h hs ret stocks i l s_dists w past todo rest Q :
  stocks_inv n h hs stocks (i :: l) s_dists w past todo → ol_cnt_ param ≤ 15 → len hs ≤ 15 →
  (∀ s_dists' w' past' todo', stocks_inv n h hs stocks l s_dists' w' past' todo' → wpd (rest s_dists') Q w') →
  wpd (new_order_stock tables fuel thread_id param ret i s_dists rest) Q w.
Proof.
  intros [Hl Es Hf [ps A] [Hds Hlen] Hold] H15 Hhs HQ. apply Forall2_cons_inv_l in Hf as (x & todo' & Hx & Hf & ->).
  destruct (seqZ_step _ _ _ _ Hl) as (-> & Hcnt & ->).
  unfold ref_stock, with_record in Hx. bind_inv. simplify_eq. cbn [hd_record] in *. unfold new_order_stock, at_index, int_add.
  match goal with H : over _ _ = Some ?v |- _ => rename v into s_dist end.
  destruct (arr_set_in s_dists (len past) s_dist) as [s_dists' Eset]; [lia|].
  do 3 (wpd_step; eapply wpd_in_array; [eassumption|]). eapply alone_query; [exact A| |done|eassumption|].
  { rewrite length_app, length_fmap. change kMaxAccessLimit with 256. lia. }
  clear w A. intros w p A. wpd_step. eapply wpd_in_array; [eassumption|].
  wpd_step. eapply wp_take_stock; [exact A|eassumption|]. clear w A. intros w A.
  wpd_step. eapply wpd_in_array; [eassumption|].
  wpd_step. eapply alone_get; [exact A|apply last_at|by eapply alone_last_ptr|eassumption|].
  wpd_step. eapply wpd_in_array; [apply Hold; lia|]. wpd_step. eapply wpd_in_array; [eassumption|].
  wpd_step. eapply wpd_in_array; [exact Eset|].
  eapply (HQ _ _ (past ++ [_]) todo'). split.
  - rewrite length_app, Nat2Z.inj_add. done.
  - rewrite <-app_assoc. reflexivity.
  - exact Hf.
  - eexists. rewrite fmap_app, app_assoc. exact A.
  - rewrite fmap_app. assert (length past = length (snd <$> past)) as Elp by by rewrite length_fmap.
    rewrite Elp in Hds, Eset. destruct (take_snoc_set _ _ _ _ _ Eset eq_refl Hds) as [E1 E2].
    split; [|by rewrite E2]. rewrite length_app in E1 |- *. cbn [length fmap list_fmap] in *. rewrite Elp. exact E1.
  - intros i Hi. rewrite length_app in Hi. cbn [length] in Hi. rewrite <-(Hold i) by lia.
    unfold arr_set in Eset. destruct (_ && _); [|done]. injection Eset as <-. unfold arr_get.
    destruct (Z.ltb_spec i 0); [done|]. by rewrite list_lookup_insert_ne by lia.
Qed.

(** The third loop: the lines are stored. *)
Lemma adds_snoc h rows h1 a bs row : adds h rows h1 → h1 !! a = None → (∀ d, row = Some d → bs = d) →
  adds h (rows ++ [row]) (<[a := bs]> h1).
Proof.
  induction 1 as [h|h b ds r rows h1 Hb Hd _ IH]; intros Ha Hr.
  - eapply adds_cons; [exact Ha|exact Hr|]. apply adds_nil.
  - cbn. eapply adds_cons; [exact Hb|exact Hd|by apply IH].
Qed.

(** What is inserted, with the rows. *)
Definition inserted n h (hs : list held) (rows : list (option (list Z))) w : Prop :=
  ∃ h' ins ps, alone n w h' (hs ++ ins) ps ∧ adds h rows h' ∧ length ins = length rows ∧
    Forall (λ x, writes_back x = false) ins.

Lemma inserted_insert id key ty cs row t n w h hs rows ret rest Q :
  tables !! Z.to_nat id = Some t → 0 ≤ id → GetSchemaSize (t_schema_ptr_ t) ≤ 2 ^ 25 →
  new_row tables id ty cs = Some row → len hs + len rows < kMaxAccessLimit → 0 ≤ n →
  inserted (GetSchemaSize (t_schema_ptr_ t) + n) h hs rows w →
  (∀ w', inserted n h hs (rows ++ [row]) w' → wpd rest Q w') →
  wpd (insert_row tables thread_id id key ty cs ret rest) Q w.
Proof.
  intros Ht Hid H25 Er Hl Hn (h' & ins & ps & A & Had & Elen & Hi) HQ.
  eapply (alone_insert tables fuel k thread_id own m); [exact Ht|done|done|exact Er| |exact Hn|exact A|].
  { rewrite length_app. lia. }
  clear w A. intros w a bs r p Ha Hbs A. apply HQ. exists (<[a := bs]> h'), (ins ++ [mk_held INSERT_ONLY a r]), (ps ++ [p]).
  rewrite app_assoc. split_and!; [exact A|by apply adds_snoc|rewrite !length_app; cbn; lia|].
  apply Forall_app. split; [done|]. by repeat constructor.
Qed.

Record lines_inv n h hs d_next_o_id amounts dists (rows0 rows : list (option (list Z))) (l : list Z) (u : unit) w
    (past todo : list (option (list Z))) : Prop := {
  li_index : l = seqZ (len past) (ol_cnt_ param - len past);
  li_split : rows = past ++ todo;
  li_ref : Forall2 (λ i x, ref_line tables param d_next_o_id amounts dists i = Some x) l todo;
  li_ins : inserted (77 * len l + n) h hs (rows0 ++ past) w;
}.

Lemma arr_get_take {A} (l xs : list A) i x : take (length xs) l = xs → arr_get xs i = Some x → arr_get l i = Some x.
Proof.
  intros E. unfold arr_get. destruct (i <? 0); [done|]. intros H. rewrite <-E in H.
  apply lookup_take_Some in H as [H _]. done.
Qed.

Lemma wp_line t n h hs d_next_o_id amounts dists ol_amounts s_dists rows0 rows ret i l u w past todo rest Q :
  tables !! Z.to_nat ORDER_LINE_TABLE_ID = Some t → GetSchemaSize (t_schema_ptr_ t) = 77 → 0 ≤ n →
  take (length amounts) ol_amounts = amounts → take (length dists) s_dists = dists →
  lines_inv n h hs d_next_o_id amounts dists rows0 rows (i :: l) u w past todo →
  ol_cnt_ param ≤ 15 → len hs + len rows0 ≤ 100 →
  (∀ u' w' past' todo', lines_inv n h hs d_next_o_id amounts dists rows0 rows l u' w' past' todo' → wpd (rest u') Q w') →
  wpd (new_order_line tables thread_id param d_next_o_id ol_amounts s_dists ret i u rest) Q w.
Proof.
  intros Ht Hsz Hn Eam Eds [Hl Es Hf I] H15 Hhs HQ. apply Forall2_cons_inv_l in Hf as (row & todo' & Hx & Hf & ->).
  destruct (seqZ_step _ _ _ _ Hl) as (-> & Hcnt & ->).
  unfold ref_line, line_columns in Hx. bind_inv. unfold new_order_line, at_index.
  do 3 (wpd_step; eapply wpd_in_array; [eassumption|]).
  wpd_step. eapply wpd_in_array; [eapply (arr_get_take _ amounts); [exact Eam|eassumption]|].
  wpd_step. eapply wpd_in_array; [eapply (arr_get_take _ dists); [exact Eds|eassumption]|].
  wpd_step. eapply wpd_in_array; [eassumption|].
  eapply (inserted_insert _ _ _ _ row t (77 * len (seqZ (len past + 1) (ol_cnt_ param - (len past + 1))) + n));
    [exact Ht|done|by rewrite Hsz|eassumption| |lia| |].
  { instantiate (1 := rows0 ++ past). instantiate (1 := hs). rewrite length_app. change kMaxAccessLimit with 256. lia. }
  { rewrite Hsz. cbn [length] in I. rewrite Nat2Z.inj_succ in I. 
    replace (77 + _) with (77 * Z.succ (len (seqZ (len past + 1) (ol_cnt_ param - (len past + 1)))) + n) by lia. exact I. }
  intros w' I'. eapply (HQ _ _ (past ++ [row]) todo'). split.
  - rewrite length_app, Nat2Z.inj_add. done.
  - by rewrite Es, <-app_assoc.
  - exact Hf.
  - rewrite app_assoc. exact I'.
Qed.

(** The end: the answer and the commit. *)
Lemma wp_new_order_finish n w h hs rows w_tax d_tax c_discount total ret ret1 Q :
  inserted n h hs rows w → 0 ≤ size_ ret →
  append_ret (double_bytes w_tax ++ double_bytes d_tax ++ double_bytes c_discount) ret = Some ret1 →
  (∀ w' h', adds h rows h' → alone n w' (commit_heap hs h') [] [] →
     Q (true, mk_CharArray (size_ ret1 + 8) (char_ptr_ ret1)) w') →
  wpd (new_order_finish thread_id w_tax d_tax c_discount total ret) Q w.
Proof.
  intros (h' & ins & ps & A & Had & _ & Hi) Hs0 Hret HQ. unfold new_order_finish.
  destruct (append_ret_split _ _ _ _ Hs0 Hret) as (r1 & E1 & Hret1 & Hs1).
  destruct (append_ret_split _ _ _ _ Hs1 Hret1) as (r2 & E2 & E3 & _).
  wpd_step. eapply wpd_in_array; [exact E1|]. wpd_step. eapply wpd_in_array; [exact E2|].
  wpd_step. eapply wpd_in_array; [exact E3|]. repeat wpd_step. eapply alone_commit; [exact A|exact Hi|].
  intros w' A'. wpd_step. by eapply HQ.
Qed.

(** The new records, from [insert_row] on. *)
Lemma wp_new_order_rows n w h hs ps d_next_o_id new_order order rows amounts dists ol_amounts s_dists w_tax d_tax c_discount
    total ret ret1 key1 key2 Q :
  tpcc_tables tables → 0 ≤ n → 0 ≤ ol_cnt_ param ≤ 15 → len hs ≤ 33 →
  alone (50 + 77 * ol_cnt_ param + n) w h hs ps →
  new_row tables NEW_ORDER_TABLE_ID (new_order_access_type_ param) (new_order_columns param d_next_o_id) = Some new_order →
  new_row tables ORDER_TABLE_ID (order_access_type_ param) (order_columns param d_next_o_id) = Some order →
  mapM (ref_line tables param d_next_o_id amounts dists) (seqZ 0 (ol_cnt_ param)) = Some rows →
  take (length amounts) ol_amounts = amounts → take (length dists) s_dists = dists → 0 ≤ size_ ret →
  append_ret (double_bytes w_tax ++ double_bytes d_tax ++ double_bytes c_discount) ret = Some ret1 →
  (∀ w' h', adds h (new_order :: order :: rows) h' → alone n w' (commit_heap hs h') [] [] →
     Q (true, mk_CharArray (size_ ret1 + 8) (char_ptr_ ret1)) w') →
  wpd (insert_row tables thread_id NEW_ORDER_TABLE_ID key1 (new_order_access_type_ param) (new_order_columns param d_next_o_id) ret
        (insert_row tables thread_id ORDER_TABLE_ID key2 (order_access_type_ param) (order_columns param d_next_o_id) ret
          (for_query (seqZ 0 (ol_cnt_ param)) () (new_order_line tables thread_id param d_next_o_id ol_amounts s_dists ret)
            (λ _, new_order_finish thread_id w_tax d_tax c_discount total ret)))) Q w.
Proof.
  intros HT Hn Hcnt Hhs A Eno Eor Erows Eam Eds Hs0 Hret HQ.
  destruct (tpcc_table tables HT NEW_ORDER_TABLE_ID _ eq_refl) as (t1 & _ & Et1 & _).
  destruct (tpcc_table tables HT ORDER_TABLE_ID _ eq_refl) as (t2 & _ & Et2 & _).
  destruct (tpcc_table tables HT ORDER_LINE_TABLE_ID _ eq_refl) as (t3 & _ & Et3 & _).
  pose proof (tpcc_table_size tables HT NEW_ORDER_TABLE_ID t1 _ Et1 eq_refl : GetSchemaSize (t_schema_ptr_ t1) = 13) as Z1.
  pose proof (tpcc_table_size tables HT ORDER_TABLE_ID t2 _ Et2 eq_refl : GetSchemaSize (t_schema_ptr_ t2) = 37) as Z2.
  pose proof (tpcc_table_size tables HT ORDER_LINE_TABLE_ID t3 _ Et3 eq_refl : GetSchemaSize (t_schema_ptr_ t3) = 77) as Z3.
  change kMaxAccessLimit with 256 in *.
  assert (inserted (50 + 77 * ol_cnt_ param + n) h hs [] w) as I0.
  { exists h, [], ps. rewrite app_nil_r. split_and!; [exact A|apply adds_nil|done|done]. }
  eapply (inserted_insert _ _ _ _ _ t1 (37 + (77 * ol_cnt_ param + n)));
    [exact Et1|done|by rewrite Z1|exact Eno| |lia|rewrite Z1; replace (13 + _) with (50 + 77 * ol_cnt_ param + n) by lia; exact I0|].
  { cbn [length]. change kMaxAccessLimit with 256. lia. }
  cbn [app]. intros w1 I1. eapply (inserted_insert _ _ _ _ _ t2 (77 * ol_cnt_ param + n));
    [exact Et2|done|by rewrite Z2|exact Eor| |lia|by rewrite Z2|].
  { cbn [length]. change kMaxAccessLimit with 256. lia. }
  cbn [app]. intros w2 I2. apply mapM_Some in Erows as Fr.
  apply (wp_for_query _ _ _ _ (λ l u w, ∃ past todo, lines_inv n h hs d_next_o_id amounts dists [new_order; order] rows l u w past todo)).
  - exists [], rows. split; [by rewrite Z.sub_0_r|done|exact Fr|]. rewrite app_nil_r, length_seqZ, Z2Nat.id by lia. exact I2.
  - intros i l [] w3 rest' (past & todo & I) HQ'. eapply (wp_line t3); [exact Et3|exact Z3|exact Hn|exact Eam|exact Eds|exact I|lia|cbn [length]; lia|].
    intros u' w' past' todo' I'. apply HQ'. by exists past', todo'.
  - intros [] w3 (past & todo & [_ Es Hf I]). apply Forall2_nil_inv_l in Hf as ->. rewrite app_nil_r in Es. subst past.
    rewrite Z.mul_0_r, Z.add_0_l in I. eapply wp_new_order_finish; [exact I|done|exact Hret|done].
Qed.

(** After the first two loops. *)
Lemma wp_new_order_records n w h hs w_key d_key c_key xw xd xc rd w_tax d_tax c_discount d_next_o_id o_id new_order order rows
    amounts dists ol_amounts total s_dists ret ret1 ps Q :
  tpcc_tables tables → 0 ≤ n → 0 ≤ ol_cnt_ param ≤ 15 → len hs ≤ 30 →
  alone (50 + 77 * ol_cnt_ param + n) w h hs ps →
  GetWarehousePrimaryKey sp (no_w_id_ param) = Some w_key →
  GetDistrictPrimaryKey sp (no_d_id_ param) (no_w_id_ param) = Some d_key →
  GetCustomerPrimaryKey sp (no_c_id_ param) (no_d_id_ param) (no_w_id_ param) = Some c_key →
  copy_at tables m h WAREHOUSE_TABLE_ID w_key (no_warehouse_access_type_ param) = Some xw →
  copy_at tables m h DISTRICT_TABLE_ID d_key (no_district_access_type_ param) = Some xd →
  copy_at tables m h CUSTOMER_TABLE_ID c_key (no_customer_access_type_ param) = Some xc →
  column_double 7 (hd_record xw) = Some w_tax → column_double 8 (hd_record xd) = Some d_tax →
  column_double 15 (hd_record xc) = Some c_discount → column_int 10 (hd_record xd) = Some d_next_o_id →
  0 < d_next_o_id → int_of (d_next_o_id + 1) = Some o_id → SetColumn 10 (int_bytes o_id) (hd_record xd) = Some rd →
  new_row tables NEW_ORDER_TABLE_ID (new_order_access_type_ param) (new_order_columns param d_next_o_id) = Some new_order →
  new_row tables ORDER_TABLE_ID (order_access_type_ param) (order_columns param d_next_o_id) = Some order →
  mapM (ref_line tables param d_next_o_id amounts dists) (seqZ 0 (ol_cnt_ param)) = Some rows →
  take (length amounts) ol_amounts = amounts → take (length dists) s_dists = dists → 0 ≤ size_ ret →
  append_ret (int_bytes d_next_o_id ++ double_bytes w_tax ++ double_bytes d_tax ++ double_bytes c_discount) ret = Some ret1 →
  (∀ w' h', adds h (new_order :: order :: rows) h' →
     alone n w' (commit_heap (hs ++ [xw; mk_held (hd_type xd) (hd_addr xd) rd; xc]) h') [] [] →
     Q (true, mk_CharArray (size_ ret1 + 8) (char_ptr_ ret1)) w') →
  wpd (new_order_records sp tables fuel thread_id param ol_amounts total s_dists ret) Q w.
Proof.
  intros HT Hn Hcnt Hhs A Kw Kd Kc Cw Cd Cc Ew Ed Ec Eid Hid Eo Erd Eno Eor Erows Eam Eds Hs0 Hret HQ.
  destruct (append_ret_split _ _ _ _ Hs0 Hret) as (ret0 & Er0 & Hret0 & Hs1).
  assert (∀ xs : list held, len xs ≤ 3 → len (hs ++ xs) < kMaxAccessLimit) as Hlim.
  { intros xs Hx. rewrite length_app. change kMaxAccessLimit with 256. lia. }
  unfold new_order_records, int_add.
  wpd_step. eapply wpd_checked; [exact Kw|]. eapply alone_query; [exact A|specialize (Hlim []); rewrite app_nil_r in Hlim; by apply Hlim|done|exact Cw|].
  clear w A. intros w pw A. wpd_step. eapply alone_double_last; [exact A|exact Ew|].
  wpd_step. eapply wpd_checked; [exact Kd|]. eapply alone_query; [exact A|by apply Hlim|done|exact Cd|].
  clear w A. intros w pd A. wpd_step. eapply alone_int_last; [exact A|exact Eid|]. wpd_step. apply wpd_assert; [by apply Z.ltb_lt|].
  wpd_step. eapply wpd_in_array; [exact Er0|]. wpd_step. eapply alone_double_last; [exact A|exact Ed|].
  wpd_step. eapply wpd_in_array; [exact Eo|]. wpd_step. eapply alone_set_last; [exact A|exact Erd|]. clear w A. intros w A.
  wpd_step. eapply wpd_checked; [exact Kc|].
  eapply alone_query; [exact A|rewrite <-app_assoc; by apply Hlim|done|exact Cc|].
  clear w A. intros w pc A. wpd_step. eapply alone_double_last; [exact A|exact Ec|]. rewrite <-!app_assoc in A. cbn [app] in A.
  eapply wp_new_order_rows; [exact HT|exact Hn|exact Hcnt| |exact A|exact Eno|exact Eor|exact Erows|exact Eam|exact Eds|exact Hs1|exact Hret0|exact HQ].
  rewrite length_app. cbn [length]. lia.
Qed.

Lemma wp_new_order n w h copies rows out ret ret1 Q :
  tpcc_tables tables → 0 ≤ n → 0 ≤ ol_cnt_ param ≤ 15 →
  alone (50 + 77 * ol_cnt_ param + n) w h [] [] →
  ref_new_order sp tables m param h = Some (copies, rows, out) → 0 ≤ size_ ret → append_ret out ret = Some ret1 →
  (∀ w' h', adds h rows h' → alone n w' (commit_heap copies h') [] [] →
     Q (true, mk_CharArray (size_ ret1 + 8) (char_ptr_ ret1)) w') →
  wpd (NewOrderProcedure sp tables fuel thread_id param ret) Q w.
Proof.
  intros HT Hn Hcnt A Href Hs0 Hret HQ. unfold ref_new_order in Href.
  apply bind_Some in Href as (items & Eitems & Href). apply bind_Some in Href as (stocks & Estocks & Href).
  bind_inv. match goal with H : (if negb (0 <? ?x) then _ else _) = _ |- _ => destruct (Z.ltb_spec 0 x); [|done]; cbn [negb] in H end.
  unfold with_record, change_int in *. bind_inv. simplify_eq. cbn [hd_record] in *.
  destruct (append_ret_split _ _ _ _ Hs0 Hret) as (ret0 & Er0 & Hret0 & Hs1).
  apply mapM_Some in Eitems, Estocks. pose proof (Forall2_length _ _ _ Eitems) as Li. pose proof (Forall2_length _ _ _ Estocks) as Ls.
  rewrite length_seqZ in Li, Ls. unfold NewOrderProcedure.
  assert (size_ ret + len (concat ((λ x : held * list Z * double, x.1.2) <$> items)) ≤ len (char_ptr_ ret)) as Hfit.
  { unfold append_ret, Memcpy in Er0. destruct (Z.leb_spec (size_ ret + len (concat ((λ x : held * list Z * double, x.1.2) <$> items))) (len (char_ptr_ ret))); done. }
  apply (wp_for_query _ _ _ _ (λ l acc w, ∃ past todo, items_inv (50 + 77 * ol_cnt_ param + n) h ret items l acc w past todo)).
  - exists [], items. split; [by rewrite Z.sub_0_r|done|exact Eitems|by exists []| |done].
    cbn [fst snd]. apply append_ret_nil. lia.
  - intros i l acc w1 rest (past & todo & I) HQ'. eapply wp_item; [exact I|lia|exact Hs0|exact Hfit|].
    intros acc' w' past' todo' I'. apply HQ'. by exists past', todo'.
  - intros [[ret' ams] total] w1 (past & todo & [_ Es Hf [ps A1] Hret1 [Ham _]]). apply Forall2_nil_inv_l in Hf as ->.
    rewrite app_nil_r in Es. subst past. cbn [fst snd] in *. assert (ret' = ret0) as -> by congruence.
    set (hs := fst ∘ fst <$> items) in *. assert (len hs ≤ 15) as Lhs by (unfold hs; rewrite length_fmap; lia).
    apply (wp_for_query _ _ _ _ (λ l ds w, ∃ past todo, stocks_inv (50 + 77 * ol_cnt_ param + n) h hs stocks l ds w past todo)).
    + exists [], stocks. split; [by rewrite Z.sub_0_r|done|exact Estocks|exists ps; by rewrite app_nil_r|done|].
      intros i Hi. cbn [length] in Hi. unfold arr_get. destruct (Z.ltb_spec i 0); [lia|]. apply lookup_replicate_2. lia.
    + intros i l ds w2 rest (past & todo & I) HQ'. eapply wp_stock; [exact I|lia|exact Lhs|].
      intros ds' w' past' todo' I'. apply HQ'. by exists past', todo'.
    + intros ds w2 (past & todo & [_ Es Hf [ps2 A2] [Hds _] _]). apply Forall2_nil_inv_l in Hf as ->.
      rewrite app_nil_r in Es. subst past.
      eapply wp_new_order_records; [exact HT|exact Hn|exact Hcnt| |exact A2|eassumption..|done| | |exact Hs1|exact Hret0|].
      * rewrite length_app, length_fmap. lia.
      * by rewrite length_fmap.
      * by rewrite length_fmap.
      * intros w' h' Had A3. eapply HQ; [exact Had|]. by rewrite app_assoc.
Qed.
End new_order.

(** ** When the reference is defined *)
Section defined.
Context {J : Indeterminate} (sp : TpccScaleParams) (tables : list Table) (fuel k : nat) (own : nat → GlobalAddress → Prop).
Context (m : nat → Z → list GlobalAddress) (param : NewOrderParam).
Context (HT : tpcc_tables tables).
Implicit Types h : heap.

Definition small (z : Z) : Prop := 0 ≤ z < 2 ^ 30.

Lemma int_of_small z : - 2 ^ 31 ≤ z < 2 ^ 31 → int_of z = Some z.
Proof. apply int_of_ok. Qed.

(** A line whose item and stock exist, with numbers that are not large. *)
Record line_possible h (i : Z) : Prop := {
  lp_item : ∃ item_id item_key ty x, arr_get (i_ids_ param) i = Some item_id ∧
    GetItemPrimaryKey sp item_id (no_w_id_ param) = Some item_key ∧ arr_get (item_access_type_ param) i = Some ty ∧
    copy_at tables m h ITEM_TABLE_ID item_key ty = Some x;
  lp_quantity : ∃ q, arr_get (i_qtys_ param) i = Some q ∧ small q;
  lp_stock : ∃ item_id sw ty x, arr_get (i_ids_ param) i = Some item_id ∧ arr_get (i_w_ids_ param) i = Some sw ∧
    arr_get (stock_access_type_ param) i = Some ty ∧
    copy_at tables m h STOCK_TABLE_ID (GetStockPrimaryKey item_id sw) ty = Some x ∧
    ∀ col, col = 2 ∨ col = 13 ∨ col = 14 ∨ col = 15 → ∃ v, column_int col (hd_record x) = Some v ∧ small v;
  lp_type : is_Some (arr_get (order_line_access_type_ param) i);
}.

Abbreviation stock_schema := (STOCK_TABLE_ID, [4; 4; 4; 32; 32; 32; 32; 32; 32; 32; 32; 32; 32; 4; 4; 4; 64; 1]).

(** The numbers of a stock's record. *)
Definition stock_numbers (r : DbRecord) (cols : list Z) : Prop :=
  ∀ col, col ∈ cols → ∃ v, column_int col r = Some v ∧ small v.

Lemma stock_numbers_same cols col r r' : same_columns stock_schema col r r' →
  Forall (λ c, 0 ≤ c < 18 ∧ c ≠ col) cols → stock_numbers r cols → stock_numbers r' cols.
Proof.
  intros Hs Hc H c Hin. destruct (H c Hin) as (v & E & Hv). exists v. split; [|done].
  rewrite Forall_forall in Hc. destruct (Hc c Hin). rewrite (same_int _ _ _ _ _ Hs); [done|cbn; lia|done].
Qed.

Ltac stock_cols := repeat (apply Forall_cons_2; [lia|]); apply Forall_nil_2.

Lemma typed_update_stock q remote r : typed stock_schema r → small q → stock_numbers r [13; 2; 14; 15] →
  ∃ r', update_stock q remote r = Some r' ∧ typed stock_schema r'.
Proof.
  intros T Hq H. unfold small in Hq.
  destruct (H 13) as (ytd & Ey & Hy); [left|]. unfold small in Hy.
  destruct (typed_change_int _ r 13 (λ v, v + q) ytd (ytd + q) T ltac:(lia) eq_refl Ey) as (r1 & _ & E1 & T1 & S1);
    [apply int_of_small; lia|].
  assert (stock_numbers r1 [2; 14; 15]) as H1.
  { eapply stock_numbers_same; [exact S1|stock_cols|]. intros c Hc. apply H. by right. }
  destruct (H1 2) as (qt & Eq & Hqt); [left|]. unfold small in Hqt.
  assert (∃ qt', restock q qt = Some qt') as [qt' Er].
  { unfold restock. rewrite (int_of_small (q + 10)) by lia. cbn [mbind option_bind].
    destruct (q + 10 <=? qt); [rewrite int_of_small by lia; by eexists|].
    rewrite (int_of_small (qt + 91)) by lia. cbn [mbind option_bind]. rewrite int_of_small by lia. by eexists. }
  destruct (typed_set _ r1 2 4 (int_bytes qt') T1 ltac:(lia) eq_refl) as (r2 & E2 & T2 & _ & S2); [by rewrite int_bytes_len|].
  assert (stock_numbers r2 [14; 15]) as H2.
  { eapply stock_numbers_same; [exact S2|stock_cols|]. intros c Hc. apply H1. by right. }
  destruct (H2 14) as (n & En & Hn); [left|]. unfold small in Hn.
  destruct (typed_change_int _ r2 14 (λ v, v + 1) n (n + 1) T2 ltac:(lia) eq_refl En) as (r3 & _ & E3 & T3 & S3);
    [apply int_of_small; lia|].
  assert (stock_numbers r3 [15]) as H3.
  { eapply stock_numbers_same; [exact S3|stock_cols|]. intros c Hc. apply H2. by right. }
  destruct (H3 15) as (n' & En' & Hn'); [left|]. unfold small in Hn'.
  destruct (typed_change_int _ r3 15 (λ v, v + 1) n' (n' + 1) T3 ltac:(lia) eq_refl En') as (r4 & _ & E4 & T4 & _);
    [apply int_of_small; lia|].
  unfold update_stock. rewrite E1. cbn [mbind option_bind]. rewrite Eq. cbn [mbind option_bind]. rewrite Er.
  cbn [mbind option_bind]. rewrite E2. cbn [mbind option_bind]. rewrite E3. cbn [mbind option_bind].
  destruct remote; [by exists r4|by exists r3].
Qed.

(** What a line gives. *)
Lemma line_item h i : db_ok tables fuel k own m h → line_possible h i →
  ∃ x, ref_item sp tables m param h i = Some x ∧ len x.1.2 = 12.
Proof.
  intros D [(id & key & ty & x & E1 & E2 & E3 & E4) (q & E5 & _) _ _].
  pose proof (copy_at_typed tables m HT fuel k own h _ _ _ x _ D E4 eq_refl eq_refl) as T.
  destruct (typed_double _ _ 3 T ltac:(lia) eq_refl) as [price E6].
  unfold ref_item. rewrite E1. cbn [mbind option_bind]. rewrite E2. cbn [mbind option_bind]. rewrite E3. cbn [mbind option_bind].
  rewrite E4. cbn [mbind option_bind]. rewrite E6. cbn [mbind option_bind]. rewrite E5. cbn [mbind option_bind].
  eexists. split; [reflexivity|]. cbn [fst snd]. rewrite length_app, Nat2Z.inj_add, int_bytes_len, double_bytes_len. done.
Qed.

Lemma line_stock h i : db_ok tables fuel k own m h → line_possible h i → 1 ≤ no_d_id_ param ≤ 10 →
  ∃ x, ref_stock tables m param h i = Some x ∧ len x.2 = 33.
Proof.
  intros D [_ (q & E5 & Hq) (id & sw & ty & x & E1 & E2 & E3 & E4 & Hn) _] Hd.
  pose proof (copy_at_typed tables m HT fuel k own h _ _ _ x _ D E4 eq_refl eq_refl) as T.
  destruct (typed_update_stock q (negb (sw =? no_w_id_ param)) (hd_record x) T Hq) as (r & Er & Tr).
  { intros col Hc. apply Hn. rewrite !elem_of_cons, elem_of_nil in Hc. tauto. }
  unfold ref_stock, with_record. rewrite E1. cbn [mbind option_bind]. rewrite E2. cbn [mbind option_bind]. rewrite E3.
  cbn [mbind option_bind]. rewrite E4. cbn [mbind option_bind]. rewrite E5. cbn [mbind option_bind]. rewrite Er.
  cbn [mbind option_bind hd_record]. rewrite int_of_small by lia. cbn [mbind option_bind].
  destruct (typed_column _ r (no_d_id_ param + 2) 32 Tr ltac:(lia)) as (_ & c & _ & _ & _ & _ & E6 & E7).
  { assert (∃ j, no_d_id_ param + 2 = 3 + Z.of_nat j ∧ (j < 10)%nat) as (j & -> & Hj) by (exists (Z.to_nat (no_d_id_ param - 1)); lia).
    replace (Z.to_nat (3 + Z.of_nat j)) with (3 + j)%nat by lia. do 10 (destruct j as [|j]; [reflexivity|]). lia. }
  rewrite E6. cbn [mbind option_bind]. unfold over. rewrite length_replicate, (proj2 (Z.leb_le _ _)) by lia.
  eexists. split; [reflexivity|]. cbn [snd]. rewrite length_app, length_drop, length_replicate. lia.
Qed.

Lemma line_row h d_next_o_id amounts dists i a d : line_possible h i → arr_get amounts i = Some a → arr_get dists i = Some d →
  len d = 33 → ∃ row, ref_line tables param d_next_o_id amounts dists i = Some row.
Proof.
  intros [(id & _ & _ & _ & E1 & _) (q & E5 & _) (_ & sw & _ & _ & _ & E2 & _) [ty E3]] Ea Ed El.
  destruct (typed_new_row tables HT ORDER_LINE_TABLE_ID ty (line_columns param d_next_o_id i id sw q a d) _ eq_refl eq_refl)
    as [row Er].
  { unfold columns_fit, line_columns. fit_columns. }
  exists row. unfold ref_line. rewrite E1. cbn [mbind option_bind]. rewrite E2. cbn [mbind option_bind]. rewrite E5.
  cbn [mbind option_bind]. rewrite Ea. cbn [mbind option_bind]. rewrite Ed. cbn [mbind option_bind]. by rewrite E3.
Qed.

(** All the lines. *)
Lemma mapM_all {A B} (f : A → option B) (P : B → Prop) l : (∀ x, x ∈ l → ∃ y, f x = Some y ∧ P y) →
  ∃ ys, mapM f l = Some ys ∧ length ys = length l ∧ Forall P ys.
Proof.
  intros H. destruct (mapM_is_Some_2 f l) as [ys E].
  { apply Forall_forall. intros x Hx. destruct (H x Hx) as (y & E & _). by exists y. }
  exists ys. split; [done|]. apply mapM_Some in E as F. split; [symmetry; by eapply Forall2_length|].
  apply Forall_forall. intros y Hy. apply list_elem_of_lookup in Hy as [i Hi].
  destruct (Forall2_lookup_r _ _ _ _ _ F Hi) as (x & Hx & Ex). destruct (H x) as (y' & E' & Hy').
  { by eapply list_elem_of_lookup_2. } simplify_eq. done.
Qed.

Lemma arr_get_all {A} (P : A → Prop) (l : list A) i : Forall P l → 0 ≤ i < len l → ∃ x, arr_get l i = Some x ∧ P x.
Proof.
  intros F Hi. destruct (lookup_lt_is_Some_2 l (Z.to_nat i)) as [x Hx]; [lia|]. exists x.
  split; [|by eapply Forall_lookup_1]. unfold arr_get. destruct (Z.ltb_spec i 0); [lia|done].
Qed.

Lemma concat_len {A} (f : A → list Z) n l : Forall (λ x, len (f x) = n) l → len (concat (f <$> l)) = n * len l.
Proof.
  induction 1 as [|x l E F IH]; cbn; [lia|]. rewrite length_app, Nat2Z.inj_add. cbn in IH. rewrite IH, E. lia.
Qed.

(** The warehouse, the district and the customer of the order. *)
Record order_possible h (d_next_o_id : Z) : Prop := {
  op_district : 1 ≤ no_d_id_ param ≤ 10;
  op_w : ∃ key x, GetWarehousePrimaryKey sp (no_w_id_ param) = Some key ∧
    copy_at tables m h WAREHOUSE_TABLE_ID key (no_warehouse_access_type_ param) = Some x;
  op_d : ∃ key x, GetDistrictPrimaryKey sp (no_d_id_ param) (no_w_id_ param) = Some key ∧
    copy_at tables m h DISTRICT_TABLE_ID key (no_district_access_type_ param) = Some x ∧
    column_int 10 (hd_record x) = Some d_next_o_id;
  op_c : ∃ key x, GetCustomerPrimaryKey sp (no_c_id_ param) (no_d_id_ param) (no_w_id_ param) = Some key ∧
    copy_at tables m h CUSTOMER_TABLE_ID key (no_customer_access_type_ param) = Some x;
  op_next : 0 < d_next_o_id < 2 ^ 31 - 1;
  op_lines : ∀ i, 0 ≤ i < ol_cnt_ param → line_possible h i;
}.

Lemma new_order_defined h d_next_o_id : db_ok tables fuel k own m h → 0 ≤ ol_cnt_ param → order_possible h d_next_o_id →
  ∃ copies rows out, ref_new_order sp tables m param h = Some (copies, rows, out) ∧ len out = 12 * ol_cnt_ param + 28 ∧
    len copies = 2 * ol_cnt_ param + 3 ∧ len rows = ol_cnt_ param + 2.
Proof.
  intros D Hcnt [Hd (w_key & xw & Kw & Cw) (d_key & xd & Kd & Cd & Eid) (c_key & xc & Kc & Cc) Hid Hl].
  assert (∀ i, i ∈ seqZ 0 (ol_cnt_ param) → 0 ≤ i < ol_cnt_ param) as Hseq by (intros i Hi; apply elem_of_seqZ in Hi; lia).
  destruct (mapM_all (ref_item sp tables m param h) (λ x, len x.1.2 = 12) (seqZ 0 (ol_cnt_ param)))
    as (items & Ei & Li & Fi); [intros i Hi; eapply line_item; eauto|].
  destruct (mapM_all (ref_stock tables m param h) (λ x, len x.2 = 33) (seqZ 0 (ol_cnt_ param)))
    as (stocks & Es & Ls & Fs); [intros i Hi; eapply line_stock; eauto|].
  rewrite length_seqZ in Li, Ls.
  destruct (mapM_all (ref_line tables param d_next_o_id (snd <$> items) (snd <$> stocks)) (λ _, True) (seqZ 0 (ol_cnt_ param)))
    as (rows & Er & Lr & _).
  { intros i Hi. apply Hseq in Hi as Hi'.
    destruct (arr_get_all (λ _, True) (snd <$> items) i) as (a & Ea & _);
      [by apply Forall_true|rewrite length_fmap; lia|].
    destruct (arr_get_all (λ d, len d = 33) (snd <$> stocks) i) as (d & Ed & Hld);
      [by apply Forall_fmap|rewrite length_fmap; lia|].
    destruct (line_row h d_next_o_id _ _ i a d (Hl i Hi') Ea Ed Hld) as [row E]. by exists row. }
  rewrite length_seqZ in Lr.
  pose proof (copy_at_typed tables m HT fuel k own h _ _ _ xw _ D Cw eq_refl eq_refl) as Tw.
  pose proof (copy_at_typed tables m HT fuel k own h _ _ _ xd _ D Cd eq_refl eq_refl) as Td.
  pose proof (copy_at_typed tables m HT fuel k own h _ _ _ xc _ D Cc eq_refl eq_refl) as Tc.
  destruct (typed_double _ _ 7 Tw ltac:(lia) eq_refl) as [w_tax Ew].
  destruct (typed_double _ _ 8 Td ltac:(lia) eq_refl) as [d_tax Ed].
  destruct (typed_double _ _ 15 Tc ltac:(lia) eq_refl) as [c_discount Ec].
  destruct (typed_change_int _ _ 10 (λ id, id + 1) _ (d_next_o_id + 1) Td ltac:(lia) eq_refl Eid) as (rd & Erd & _);
    [apply int_of_small; lia|].
  destruct (typed_new_row tables HT NEW_ORDER_TABLE_ID (new_order_access_type_ param) (new_order_columns param d_next_o_id) _
    eq_refl eq_refl) as [new_order En]; [unfold columns_fit, new_order_columns; fit_columns|].
  destruct (typed_new_row tables HT ORDER_TABLE_ID (order_access_type_ param) (order_columns param d_next_o_id) _
    eq_refl eq_refl) as [order Eo]; [unfold columns_fit, order_columns; fit_columns|].
  unfold ref_new_order, with_record. rewrite Ei. cbn [mbind option_bind]. rewrite Es. cbn [mbind option_bind].
  rewrite Kw. cbn [mbind option_bind]. rewrite Kd. cbn [mbind option_bind]. rewrite Kc. cbn [mbind option_bind].
  rewrite Cw. cbn [mbind option_bind]. rewrite Cd. cbn [mbind option_bind]. rewrite Cc. cbn [mbind option_bind].
  rewrite Ew. cbn [mbind option_bind]. rewrite Ed. cbn [mbind option_bind]. rewrite Ec. cbn [mbind option_bind].
  rewrite Eid. cbn [mbind option_bind]. rewrite (proj2 (Z.ltb_lt _ _)) by lia. cbn [negb].
  unfold change_int. rewrite Eid. cbn [mbind option_bind]. rewrite int_of_small by lia. cbn [mbind option_bind]. rewrite Erd.
  cbn [mbind option_bind]. rewrite En. cbn [mbind option_bind]. rewrite Eo. cbn [mbind option_bind]. rewrite Er.
  cbn [mbind option_bind]. eexists _, _, _. split; [reflexivity|].
  split; [|split].
  - rewrite !length_app, !Nat2Z.inj_add, (concat_len _ 12 _ Fi), int_bytes_len, !double_bytes_len. lia.
  - rewrite !length_app, !length_fmap. cbn [length]. lia.
  - cbn [length]. lia.
Qed.
End defined.

(** C6: New order does what the reference says: on a thread that runs alone, when the
    warehouse, the district, the customer, the items and their stocks exist and no number is
    about to overflow, for an order of at most 15 lines, the reference is defined and the
    procedure returns [true] and the items with their prices, the number of the order and the
    rates; the stocks and the next number of the district are written back as their access
    types say, the order, its entry as a new order and its lines are stored, each at a new
    address, and every other byte of the memory is as before. *)
Theorem new_order_executes {S} {J : Indeterminate} {G : GAlloc S} {GH : GHeap S} sp tables fuel k own m thread_id
    param ret d_next_o_id n (w : thread S) h :
  tpcc_tables tables → 0 ≤ ol_cnt_ param ≤ 15 → 0 ≤ n →
  alone tables fuel k own m (50 + 77 * ol_cnt_ param + n) w h [] [] →
  order_possible sp tables m param h d_next_o_id →
  0 ≤ size_ ret → size_ ret + 12 * ol_cnt_ param + 28 ≤ len (char_ptr_ ret) →
  ∃ copies rows out ret1, ref_new_order sp tables m param h = Some (copies, rows, out) ∧
    len rows = ol_cnt_ param + 2 ∧ append_ret out ret = Some ret1 ∧
    wpd (NewOrderProcedure (L := dsm_locks) sp tables fuel thread_id param ret) (λ r w',
      ∃ h', r = (true, mk_CharArray (size_ ret1 + 8) (char_ptr_ ret1)) ∧ adds h rows h' ∧
        alone tables fuel k own m n w' (commit_heap copies h') [] []) w.
Proof.
  intros HT Hc Hn A Hp Hs Hret.
  destruct (new_order_defined sp tables fuel k own m param HT h d_next_o_id) as (copies & rows & out & Hr & Hl & _ & Hlr);
    [apply A|lia|done|].
  destruct (append_ret_fits out ret) as (ret1 & Er & _); [done|lia|]. exists copies, rows, out, ret1.
  split; [exact Hr|]. split; [exact Hlr|]. split; [exact Er|].
  eapply wp_new_order; [exact HT|exact Hn|exact Hc|exact A|exact Hr|exact Hs|exact Er|].
  intros w' h' Had A'. by exists h'.
Qed.

Definition ex_new_order : NewOrderParam :=
  mk_NewOrderParam 1 2 3 1000 1 [7] [1] [5] [READ_ONLY] [READ_WRITE] READ_ONLY READ_WRITE READ_ONLY
    INSERT_ONLY INSERT_ONLY [INSERT_ONLY].
Definition ex_row (i : nat) : tpcc_record := nth i ex_rows (r_new_order (mk_NewOrderRecord 0 0 0)).

Lemma ex_row_finds {J : Indeterminate} i ty tables m h : (i < 5)%nat → ty = READ_ONLY ∨ ty = READ_WRITE →
  (∀ rec, rec ∈ ex_rows → finds ex_sp tables m h rec) →
  ∃ key x, row_key ex_sp (record_row (ex_row i)) = Some key ∧
    copy_at tables m h (record_table (ex_row i)) key ty = Some x ∧ stores (ex_row i) (hd_record x).
Proof.
  intros Hi Hty H. destruct (H (ex_row i)) as (key & E & Hx).
  { eapply (list_elem_of_lookup_2 _ i). do 5 (destruct i as [|i]; [reflexivity|]). lia. }
  destruct (Hx ty Hty) as (x & Ex & Hs). by exists key, x.
Qed.

Lemma ex_order_possible {S} {J : Indeterminate} {G : GAlloc S} {GH : GHeap S} tables own m h : tpcc_tables tables →
  db_ok tables 5 5 own m h → (∀ rec, rec ∈ ex_rows → finds ex_sp tables m h rec) →
  order_possible ex_sp tables m ex_new_order h 4.
Proof.
  intros HT D H.
  destruct (ex_row_finds 0 READ_ONLY tables m h) as (ik & xi & Eik & Ei & Si); [lia|by left|exact H|].
  destruct (ex_row_finds 1 READ_WRITE tables m h) as (sk & xs & Esk & Es & Ss); [lia|by right|exact H|].
  destruct (ex_row_finds 2 READ_ONLY tables m h) as (wk & xw & Ewk & Ew & Sw); [lia|by left|exact H|].
  destruct (ex_row_finds 3 READ_WRITE tables m h) as (dk & xd & Edk & Ed & Sd); [lia|by right|exact H|].
  destruct (ex_row_finds 4 READ_ONLY tables m h) as (ck & xc & Eck & Ec & Sc); [lia|by left|exact H|].
  split.
  - cbn. lia.
  - by exists wk, xw.
  - exists dk, xd. split; [exact Edk|]. split; [exact Ed|].
    pose proof (copy_at_typed tables m HT 5 5 own h _ _ _ xd _ D Ed eq_refl eq_refl) as T.
    unfold column_int. rewrite (stores_get _ _ _ _ 10 (int_bytes 4) None 4 Sd T eq_refl); [reflexivity| |lia|reflexivity].
    apply (bool_decide_unpack _). vm_compute. reflexivity.
  - by exists ck, xc.
  - lia.
  - intros i Hi. cbn in Hi. assert (i = 0) as -> by lia. split.
    + exists 7, ik, READ_ONLY, xi. split; [reflexivity|]. split; [exact Eik|]. split; [reflexivity|]. exact Ei.
    + exists 5. split; [reflexivity|]. unfold small. lia.
    + exists 7, 1, READ_WRITE, xs. split; [reflexivity|]. split; [reflexivity|]. split; [reflexivity|].
      assert (sk = GetStockPrimaryKey 7 1) as -> by (injection Esk as <-; reflexivity). split; [exact Es|].
      pose proof (copy_at_typed tables m HT 5 5 own h _ _ _ xs _ D Es eq_refl eq_refl) as T.
      assert (∀ col v, (col, int_bytes v, None) ∈ default [] (record_calls (ex_row 1)) → 0 ≤ col →
        nth 1 tpcc_sizes [] !! Z.to_nat col = Some 4 → (over (int_bytes 0) (take 4 (int_bytes v)) ≫= λ d, Some (bytes_int d)) = Some v →
        small v → ∃ v, column_int col (hd_record xs) = Some v ∧ small v) as Hcol.
      { intros col v Hin H0 H4 Hv Hs. exists v. split; [|exact Hs].
        unfold column_int. rewrite (stores_get _ _ _ _ col (int_bytes v) None 4 Ss T eq_refl Hin H0 H4). exact Hv. }
      intros col [->|[->|[->| ->]]].
      * eapply (Hcol 2 12); [apply (bool_decide_unpack _); vm_compute; reflexivity|lia|reflexivity|reflexivity|unfold small; lia].
      * eapply (Hcol 13 0); [apply (bool_decide_unpack _); vm_compute; reflexivity|lia|reflexivity|reflexivity|unfold small; lia].
      * eapply (Hcol 14 0); [apply (bool_decide_unpack _); vm_compute; reflexivity|lia|reflexivity|reflexivity|unfold small; lia].
      * eapply (Hcol 15 0); [apply (bool_decide_unpack _); vm_compute; reflexivity|lia|reflexivity|reflexivity|unfold small; lia].
    + by exists INSERT_ONLY.
Qed.

Lemma new_order_executes_witness : ∃ (w : thread DbFlat.flat) tables own m h, tpcc_tables tables ∧
  alone tables 5 5 own m (50 + 77 * 1 + 0) w h [] [] ∧ order_possible ex_sp tables m ex_new_order h 4 ∧
  ∃ copies rows out ret1, ref_new_order ex_sp tables m ex_new_order h = Some (copies, rows, out) ∧
    len rows = 3 ∧ append_ret out (mk_CharArray 0 (replicate 1024 0)) = Some ret1 ∧
    wpd (NewOrderProcedure (L := dsm_locks) ex_sp tables 5 0 ex_new_order (mk_CharArray 0 (replicate 1024 0))) (λ r w',
      ∃ h', r = (true, mk_CharArray (size_ ret1 + 8) (char_ptr_ ret1)) ∧ adds h rows h' ∧
        alone tables 5 5 own m 0 w' (commit_heap copies h') [] []) w.
Proof.
  destruct ex_benchmark as (w & tables & own & m & h & HT & A & Hfinds). exists w, tables, own, m, h.
  assert (alone tables 5 5 own m (50 + 77 * 1 + 0) w h [] []) as A' by (destruct A; split; (done || lia)).
  assert (order_possible ex_sp tables m ex_new_order h 4) as Hp.
  { eapply (ex_order_possible tables own); [exact HT|exact (al_db _ _ _ _ _ _ _ _ _ _ A)|exact Hfinds]. }
  split; [exact HT|]. split; [exact A'|]. split; [exact Hp|].
  apply (new_order_executes ex_sp tables 5 5 own m 0 ex_new_order (mk_CharArray 0 (replicate 1024 0)) 4 0 w h).
  - exact HT.
  - cbn. lia.
  - lia.
  - exact A'.
  - exact Hp.
  - cbn. lia.
  - cbn. lia.
Defined.
