(* ===== verification/TpccBatch.v ===== *)
(** * TpccBatch: [TxnParam.h] and [IORedirector.h]

    The parameters of the transactions travel in batches: the source fills a batch and
    pushes it to the redirector, which deals the batches to the threads in turn; each thread
    of the executor runs the batches that it was dealt. *)
From S2P Require Import Prelude DbStore.
From stdpp Require Import base numbers option list list_numbers.
Open Scope Z_scope.

(** ** [TxnParam.h]: an array of [batch_size_] slots, of which the first [param_count_] are in use *)
Section batch.
Context {T : Type}.

Record ParamBatch := mk_ParamBatch { params_ : list (option T); param_count_ : Z; batch_size_ : Z }.

Definition new_ParamBatch (batch_size : Z) : ParamBatch :=
  mk_ParamBatch (replicate (Z.to_nat batch_size) None) 0 batch_size.
(** [None] is the failed assertion. *)
Definition push_back (tuple : T) (b : ParamBatch) : option ParamBatch :=
  if param_count_ b <? batch_size_ b then
    Some (mk_ParamBatch (<[Z.to_nat (param_count_ b) := Some tuple]> (params_ b)) (param_count_ b + 1) (batch_size_ b))
  else None.
Definition size (b : ParamBatch) : Z := param_count_ b.
(** [None] is a read outside the array, or of a slot that was never written. *)
Definition get (idx : Z) (b : ParamBatch) : option T :=
  if idx <? 0 then None else params_ b !! Z.to_nat idx ≫= id.

(** What a batch holds, in the order of the insertions. *)
Record holds (b : ParamBatch) (l : list T) : Prop := {
  ho_count : param_count_ b = len l;
  ho_size : len (params_ b) = batch_size_ b;
  ho_slots : ∃ n, params_ b = (Some <$> l) ++ replicate n None;
}.

Lemma new_ParamBatch_holds n : 0 ≤ n → holds (new_ParamBatch n) [].
Proof. intros H. split; cbn; [done|rewrite length_replicate; lia|by eexists]. Qed.

Lemma holds_room b l : holds b l → len l ≤ batch_size_ b.
Proof. intros [_ <- (n & ->)]. rewrite length_app, length_fmap. lia. Qed.

Lemma push_back_spec b l x : holds b l →
  if bool_decide (len l < batch_size_ b)
  then ∃ b', push_back x b = Some b' ∧ holds b' (l ++ [x]) ∧ batch_size_ b' = batch_size_ b
  else push_back x b = None.
Proof.
  intros H. pose proof H as [Hc Hs (n & Hp)]. unfold push_back. rewrite Hc.
  case_bool_decide as Hl; [rewrite (proj2 (Z.ltb_lt _ _)) by done|by rewrite (proj2 (Z.ltb_ge _ _)) by lia].
  eexists. split; [done|]. split; [|done]. split; cbn [param_count_ params_ batch_size_].
  - rewrite length_app. cbn. lia.
  - by rewrite length_insert.
  - rewrite Hp, Nat2Z.id. destruct n as [|n].
    { rewrite Hp, length_app, length_fmap in Hs. cbn in Hs. lia. }
    exists n. replace (length l) with (length (Some <$> l : list (option T)) + 0)%nat by (rewrite length_fmap; lia).
    rewrite insert_app_r. cbn [replicate insert list_insert]. by rewrite fmap_app, <-app_assoc.
Qed.

Lemma get_spec b l i : holds b l → get i b = if i <? 0 then None else l !! Z.to_nat i.
Proof.
  intros [_ _ (n & Hp)]. unfold get. destruct (i <? 0); [done|]. rewrite Hp, lookup_app, list_lookup_fmap.
  destruct (l !! Z.to_nat i) eqn:E; cbn; [done|]. destruct (replicate _ _ !! _) eqn:E'; cbn; [|done].
  apply lookup_replicate in E' as [-> _]. done.
Qed.

(** Filling a batch. *)
Fixpoint push_all (l : list T) (b : ParamBatch) : option ParamBatch :=
  match l with [] => Some b | x :: l => b ← push_back x b; push_all l b end.
Definition contents (b : ParamBatch) : option (list T) := mapM (λ idx, get idx b) (seqZ 0 (size b)).

Lemma holds_contents b l : holds b l → contents b = Some l.
Proof.
  intros H. unfold contents, size. rewrite (ho_count _ _ H). apply mapM_Some.
  apply Forall2_same_length_lookup_2; [rewrite length_seqZ; lia|].
  intros i x y Hx Hy. apply lookup_seqZ in Hx as [-> _]. rewrite (get_spec _ _ _ H).
  rewrite (proj2 (Z.ltb_ge _ _)), Z.add_0_l, Nat2Z.id by lia. done.
Qed.

Lemma push_all_holds l l0 b : holds b l0 → len l0 + len l ≤ batch_size_ b →
  ∃ b', push_all l b = Some b' ∧ holds b' (l0 ++ l).
Proof.
  revert l0 b. induction l as [|x l IH]; intros l0 b H Hl; cbn [push_all length] in *.
  { exists b. by rewrite app_nil_r. }
  pose proof (push_back_spec b l0 x H) as P. rewrite bool_decide_eq_true_2 in P by lia.
  destruct P as (b1 & E1 & H1 & Es). rewrite E1. cbn [mbind option_bind].
  destruct (IH _ _ H1) as (b2 & E2 & H2); [rewrite length_app, Es; cbn; lia|].
  exists b2. split; [done|]. by rewrite <-app_assoc in H2.
Qed.
End batch.
Arguments ParamBatch : clear implicits.

(** The batches of [ParamPtrWrapper]s have the same code. *)
Record ParamPtrWrapper (T : Type) := mk_ParamPtrWrapper { part_id_ : Z; param_ : T }.
Arguments mk_ParamPtrWrapper {T} part_id_ param_.
Definition ParamBatchWrapper (T : Type) : Type := ParamBatch (ParamPtrWrapper T).
Definition wrapper_push_back {T} (tuple : T) (part_id : Z) : ParamBatchWrapper T → option (ParamBatchWrapper T) :=
  push_back (mk_ParamPtrWrapper part_id tuple).

(** ** [IORedirector.h] *)
Section redirector.
Context {B : Type}.

Record IORedirector := mk_IORedirector {
  input_batches_ : list (list B);
  thread_count_ : Z;
  curr_thread_id_ : Z;
}.

Definition new_IORedirector (thread_count : Z) : IORedirector :=
  mk_IORedirector (replicate (Z.to_nat thread_count) []) thread_count 0.
(** [None] is an access outside the array: there is no thread. *)
Definition PushParameterBatch (tuples : B) (r : IORedirector) : option IORedirector :=
  batches ← input_batches_ r !! Z.to_nat (curr_thread_id_ r);
  if thread_count_ r =? 0 then None else
  Some (mk_IORedirector (<[Z.to_nat (curr_thread_id_ r) := batches ++ [tuples]]> (input_batches_ r)) (thread_count_ r)
    ((curr_thread_id_ r + 1) mod thread_count_ r)).
Definition GetParameterBatches (thread_id : Z) (r : IORedirector) : option (list B) :=
  input_batches_ r !! Z.to_nat thread_id.

Fixpoint push_batches (bs : list B) (r : IORedirector) : option IORedirector :=
  match bs with [] => Some r | b :: bs => r ← PushParameterBatch b r; push_batches bs r end.

(** The batches of a list that fall to a thread: those whose position is the thread's number
    modulo the number of threads. *)
Fixpoint dealt (n : Z) (first i : Z) (bs : list B) : list B :=
  match bs with
  | [] => []
  | b :: bs => (if first mod n =? i then [b] else []) ++ dealt n (first + 1) i bs
  end.

Lemma dealt_app n first i bs bs' : dealt n first i (bs ++ bs') = dealt n first i bs ++ dealt n (first + len bs) i bs'.
Proof.
  revert first. induction bs as [|b bs IH]; intros first; cbn [dealt app length]; [by rewrite Z.add_0_r|].
  rewrite IH, <-app_assoc. do 3 f_equal. lia.
Qed.

Lemma elem_of_dealt n first i bs b : b ∈ dealt n first i bs ↔ ∃ j, bs !! j = Some b ∧ (first + Z.of_nat j) mod n = i.
Proof.
  revert first. induction bs as [|x bs IH]; intros first; cbn [dealt].
  { split; [by intros ?%elem_of_nil|by intros (j & Hj & _)]. }
  rewrite elem_of_app, IH. split.
  - intros [H|(j & Hj & E)].
    + destruct (Z.eqb_spec (first mod n) i); [|by apply elem_of_nil in H]. apply list_elem_of_singleton in H as ->.
      exists 0%nat. by rewrite Z.add_0_r.
    + exists (S j). split; [done|]. rewrite <-E. f_equal. lia.
  - intros ([|j] & Hj & E); cbn in Hj.
    + simplify_eq. left. rewrite Z.add_0_r, Z.eqb_refl. by left.
    + right. exists j. split; [done|]. rewrite <-E. f_equal. lia.
Qed.

(** How many batches a thread is dealt differs by at most one. *)
Lemma length_dealt n first i bs : 0 < n → 0 ≤ i < n → 0 ≤ first →
  len (dealt n first i bs) = (first + len bs - i + n - 1) / n - (first - i + n - 1) / n.
Proof.
  intros Hn Hi. revert first. induction bs as [|b bs IH]; intros first Hf; cbn [dealt length].
  { rewrite Z.add_0_r. lia. }
  rewrite length_app, Nat2Z.inj_add, IH by lia.
  replace (first + 1 + len bs) with (first + Z.of_nat (S (length bs))) by lia.
  replace (first + 1 - i + n - 1) with (first - i + n) by lia.
  assert (len (if first mod n =? i then [b] else []) = (first - i + n) / n - (first - i + n - 1) / n) as ->; [|lia].
  pose proof (Z.div_mod first n ltac:(lia)) as Ef. pose proof (Z.mod_pos_bound first n Hn) as Hb.
  set (q := first / n) in *. set (r := first mod n) in *.
  assert ((first - i + n) / n = q + (if i <=? r then 1 else 0)) as ->.
  { symmetry. destruct (Z.leb_spec i r).
    - apply (Z.div_unique_pos _ _ _ (r - i)); lia.
    - apply (Z.div_unique_pos _ _ _ (r - i + n)); lia. }
  assert ((first - i + n - 1) / n = q + (if i <? r then 1 else 0)) as ->.
  { symmetry. destruct (Z.ltb_spec i r).
    - apply (Z.div_unique_pos _ _ _ (r - i - 1)); lia.
    - apply (Z.div_unique_pos _ _ _ (r - i + n - 1)); lia. }
  destruct (Z.eqb_spec r i), (Z.leb_spec i r), (Z.ltb_spec i r); cbn [length]; lia.
Qed.

(** The state of the redirector after some batches. *)
Record dealing (n : Z) (bs : list B) (r : IORedirector) : Prop := {
  de_count : thread_count_ r = n;
  de_next : curr_thread_id_ r = len bs mod n;
  de_batches : input_batches_ r = (λ i, dealt n 0 i bs) <$> seqZ 0 n;
}.

Lemma dealing_new n : 0 < n → dealing n [] (new_IORedirector n).
Proof.
  intros Hn. split; cbn; [done|by rewrite Z.mod_0_l by lia|].
  apply list_eq. intros i. rewrite list_lookup_fmap. destruct (decide (i < Z.to_nat n)%nat).
  - rewrite lookup_replicate_2 by done. rewrite (proj2 (lookup_seqZ _ _ _ (Z.of_nat i))); [done|lia].
  - rewrite !lookup_ge_None_2; [done|rewrite length_seqZ; lia|rewrite length_replicate; lia].
Qed.

Lemma dealing_push n bs r b : 0 < n → dealing n bs r → ∃ r', PushParameterBatch b r = Some r' ∧ dealing n (bs ++ [b]) r'.
Proof.
  intros Hn [Ec En Eb]. unfold PushParameterBatch. rewrite Ec, En, Eb.
  pose proof (Z.mod_pos_bound (len bs) n Hn) as Hb.
  rewrite list_lookup_fmap, (proj2 (lookup_seqZ _ _ _ (len bs mod n))) by lia. cbn [fmap option_fmap option_map mbind option_bind].
  rewrite (proj2 (Z.eqb_neq _ _)) by lia. eexists. split; [done|]. split; cbn [thread_count_ curr_thread_id_ input_batches_]; [done| |].
  - rewrite length_app, Nat2Z.inj_add. cbn. by rewrite Zplus_mod_idemp_l.
  - apply list_eq. intros i. rewrite list_lookup_fmap. destruct (decide (i < Z.to_nat n)%nat) as [Hi|Hi].
    + rewrite (proj2 (lookup_seqZ _ _ _ (Z.of_nat i))) by lia. cbn. rewrite dealt_app. cbn [dealt]. rewrite app_nil_r, Z.add_0_l.
      destruct (Z.eqb_spec (len bs mod n) (Z.of_nat i)) as [E|E].
      * rewrite E, Nat2Z.id, list_lookup_insert_eq; [done|rewrite length_fmap, length_seqZ; lia].
      * rewrite list_lookup_insert_ne by lia. rewrite list_lookup_fmap, (proj2 (lookup_seqZ _ _ _ (Z.of_nat i))) by lia.
        cbn. by rewrite app_nil_r.
    + rewrite !lookup_ge_None_2; [done|rewrite length_seqZ; lia|rewrite length_insert, length_fmap, length_seqZ; lia].
Qed.

Lemma push_batches_dealing n bs bs' r : 0 < n → dealing n bs r → ∃ r', push_batches bs' r = Some r' ∧ dealing n (bs ++ bs') r'.
Proof.
  intros Hn. revert bs r. induction bs' as [|b bs' IH]; intros bs r D; cbn [push_batches].
  { exists r. by rewrite app_nil_r. }
  destruct (dealing_push n bs r b Hn D) as (r1 & -> & D1). cbn [mbind option_bind].
  destruct (IH _ _ D1) as (r2 & E2 & D2). exists r2. split; [done|]. by rewrite <-app_assoc in D2.
Qed.

Lemma dealing_get n bs r i : dealing n bs r → 0 ≤ i < n → GetParameterBatches i r = Some (dealt n 0 i bs).
Proof.
  intros [_ _ Eb] Hi. unfold GetParameterBatches. rewrite Eb, list_lookup_fmap, (proj2 (lookup_seqZ _ _ _ i)) by lia. done.
Qed.
End redirector.
Arguments IORedirector : clear implicits.

(** The redirector deals the batches in turn, however many there are: it takes them all,
    and thread [i] gets those whose position is [i] modulo the number of threads, each once
    and in their order; no thread gets two more than another. *)
Theorem batches_dealt {B} (n : Z) (bs : list B) : 0 < n →
  ∃ r, push_batches bs (new_IORedirector n) = Some r ∧
    (∀ i, 0 ≤ i < n → ∃ l, GetParameterBatches i r = Some l ∧ l = dealt n 0 i bs ∧
       (∀ b, b ∈ l ↔ ∃ j, bs !! j = Some b ∧ Z.of_nat j mod n = i) ∧ len bs / n ≤ len l ≤ len bs / n + 1).
Proof.
  intros Hn. destruct (push_batches_dealing n [] bs _ Hn (dealing_new n Hn)) as (r & E & D). exists r. split; [done|].
  intros i Hi. exists (dealt n 0 i bs). split; [exact (dealing_get _ _ _ _ D Hi)|]. split; [done|]. split; [apply elem_of_dealt|].
  rewrite length_dealt by lia.
  assert ((0 - i + n - 1) / n = 0) as -> by (apply Z.div_small; lia). rewrite Z.sub_0_r, Z.add_0_l.
  pose proof (Z.div_mod (len bs) n ltac:(lia)) as Ef. pose proof (Z.mod_pos_bound (len bs) n Hn) as Hb.
  split.
  - apply Z.div_le_lower_bound; lia.
  - rewrite <-Z.lt_succ_r. apply Z.div_lt_upper_bound; lia.
Qed.

Lemma batches_dealt_witness : 0 < 3 ∧ ∃ r, push_batches [10; 11; 12; 13] (new_IORedirector 3) = Some r ∧
  (∀ i, 0 ≤ i < 3 → ∃ l, GetParameterBatches i r = Some l ∧ l = dealt 3 0 i [10; 11; 12; 13] ∧
     (∀ b, b ∈ l ↔ ∃ j, [10; 11; 12; 13] !! j = Some b ∧ Z.of_nat j mod 3 = i) ∧
     len [10; 11; 12; 13] / 3 ≤ len l ≤ len [10; 11; 12; 13] / 3 + 1).
Proof. split; [lia|]. apply (batches_dealt 3 [10; 11; 12; 13]). lia. Defined.
