(* ===== verification/TpccExec.v ===== *)
(** * TpccExec: [TransactionExecutor.h]

    A thread of the executor runs the batches it was dealt.  A transaction that fails is run
    again, after a pause that doubles; [abort_count] counts the failures of the thread, and
    once it is above ten a transaction is given up at its second failure.  All threads stop
    when one of them has run its batches: [is_finish_] is a shared flag, of which the thread
    reads what the other threads make of it. *)
From S2P Require Import Prelude GlobalMem DbStore DbFlat DbDsm DbArray DbIndex DbSchema DbTable DbTxn DbSerial TpccBase TpccProcs TpccBatch.
From stdpp Require Import base numbers option list list_numbers.
Open Scope Z_scope.

(** ** The counters that the threads share *)
Record TransactionExecutor := mk_TransactionExecutor {
  is_finish_ : bool;
  total_count_ : Z;
  total_abort_count_ : Z;
}.
Definition new_TransactionExecutor : TransactionExecutor := mk_TransactionExecutor false 0 0.

(** ** [ProcessQueryThread] *)

(** The local variables; [pr_reads] is how often [is_finish_] was read, [pr_pauses] how many
    times the thread has executed [_mm_pause]. *)
Record progress := mk_progress {
  pr_count : Z;
  pr_abort_count : Z;
  backoff_shifts : Z;
  pr_ret : CharArray;
  pr_reads : nat;
  pr_pauses : Z;
}.
Definition with_ret (ret : CharArray) (p : progress) : progress :=
  mk_progress (pr_count p) (pr_abort_count p) (backoff_shifts p) ret (pr_reads p) (pr_pauses p).
(** [ret.size_ = 0] *)
Definition clear_ret (p : progress) : progress := with_ret (mk_CharArray 0 (char_ptr_ (pr_ret p))) p.
Definition with_shifts (shifts : Z) (p : progress) : progress :=
  mk_progress (pr_count p) (pr_abort_count p) shifts (pr_ret p) (pr_reads p) (pr_pauses p).
(** [uint64_t spins = 1UL << backoff_shifts; spins *= 100; while (spins) ...] *)
Definition backoff_spins (shifts : Z) : Z := wrap 64 (wrap 64 (Z.shiftl 1 shifts) * 100).
Definition pause (p : progress) : progress :=
  mk_progress (pr_count p) (pr_abort_count p) (backoff_shifts p) (pr_ret p) (pr_reads p)
    (pr_pauses p + backoff_spins (backoff_shifts p)).

(** How a transaction ends: executed, given up, or the thread is to stop. *)
Inductive outcome := executed | given_up | stop.

Section worker.
Context {S P : Type} (Execute : P → CharArray → DB S (bool * CharArray)).
(** What the [n]-th reading of [is_finish_] by this thread gives. *)
Context (finished : nat → bool).

Definition read_finish (p : progress) : DB S (bool * progress) :=
  mret (finished (pr_reads p), mk_progress (pr_count p) (pr_abort_count p) (backoff_shifts p) (pr_ret p)
    (Datatypes.S (pr_reads p)) (pr_pauses p)).
(** [ret.size_ = 0; ++abort_count;] *)
Definition aborted (p : progress) : DB S progress :=
  abort_count ← in_array (int_of (pr_abort_count p + 1));
  mret (clear_ret (mk_progress (pr_count p) abort_count (backoff_shifts p) (pr_ret p) (pr_reads p) (pr_pauses p))).
(** [++count] *)
Definition counted (p : progress) : DB S progress :=
  count ← in_array (int_of (pr_count p + 1));
  mret (mk_progress count (pr_abort_count p) (backoff_shifts p) (pr_ret p) (pr_reads p) (pr_pauses p)).
Definition attempt (tuple : P) (p : progress) : DB S (bool * progress) :=
  r ← Execute tuple (pr_ret p); mret (r.1, with_ret r.2 p).

(** The [while] loop. *)
Fixpoint retry (fuel : nat) (tuple : P) (p : progress) : DB S (outcome * progress) :=
  match fuel with
  | 0%nat => raise waits
  | Datatypes.S fuel =>
      a ← attempt tuple p;
      if a.1 : bool then mret (executed, a.2) else
      p ← aborted a.2;
      if 10 <? pr_abort_count p then mret (given_up, p) else
      f ← read_finish p;
      if f.1 : bool then mret (stop, f.2) else retry fuel tuple (pause f.2)
  end.

(** The first execution, and the others when it fails. *)
Definition run_tuple (fuel : nat) (tuple : P) (p : progress) : DB S (outcome * progress) :=
  a ← attempt tuple p;
  if a.1 : bool then mret (executed, with_shifts (Z.shiftr (backoff_shifts a.2) 1) a.2) else
  p ← aborted a.2;
  f ← read_finish p;
  if f.1 : bool then mret (stop, f.2) else
  let shifts := backoff_shifts f.2 in
  let p := with_shifts (if shifts <? 63 then shifts + 1 else shifts) f.2 in
  retry fuel tuple (pause p).

(** The body of the loop over a batch; [true] when the thread returns. *)
Definition process_tuple (fuel : nat) (tuple : P) (p : progress) : DB S (bool * progress) :=
  r ← run_tuple fuel tuple (clear_ret p);
  match r.1 with
  | stop => mret (true, r.2)
  | executed => p ← counted r.2; read_finish p
  | given_up => read_finish r.2
  end.

Fixpoint process_batch (fuel : nat) (tuples : ParamBatch P) (idxs : list Z) (p : progress) : DB S (bool * progress) :=
  match idxs with
  | [] => mret (false, p)
  | idx :: idxs =>
      tuple ← in_array (get idx tuples);
      r ← process_tuple fuel tuple p;
      if r.1 : bool then mret (true, r.2) else process_batch fuel tuples idxs r.2
  end.

Fixpoint process_batches (fuel : nat) (batches : list (ParamBatch P)) (p : progress) : DB S (bool * progress) :=
  match batches with
  | [] => mret (false, p)
  | tuples :: batches =>
      r ← process_batch fuel tuples (seqZ 0 (TpccBatch.size tuples)) p;
      if r.1 : bool then mret (true, r.2) else process_batches fuel batches r.2
  end.

(** The array that the thread allocates for what the transactions return is not initialised. *)
Definition new_progress (buffer : list Z) : progress := mk_progress 0 0 0 (mk_CharArray 0 buffer) 0 0.

(** [true] with the result: the thread was stopped before the end of its batches. *)
Definition ProcessQueryThread (fuel : nat) (buffer : list Z) (execution_batches : list (ParamBatch P)) :
    DB S (bool * progress) :=
  process_batches fuel execution_batches (new_progress buffer).
End worker.

(** What the thread adds to the counters when it returns. *)
Definition finish_thread (r : bool * progress) (e : TransactionExecutor) : TransactionExecutor :=
  mk_TransactionExecutor (is_finish_ e || negb r.1) (wrap 64 (total_count_ e + pr_count r.2))
    (wrap 64 (total_abort_count_ e + pr_abort_count r.2)).

(** ** The thread runs its transactions in order *)
Section worker_facts.
Context {S P : Type} (Execute : P → CharArray → DB S (bool * CharArray)) (finished : nat → bool).

(** The transactions of a list, without batches. *)
Fixpoint process_list (fuel : nat) (l : list P) (p : progress) : DB S (bool * progress) :=
  match l with
  | [] => mret (false, p)
  | tuple :: l =>
      r ← process_tuple Execute finished fuel tuple p;
      if r.1 : bool then mret (true, r.2) else process_list fuel l r.2
  end.

Lemma process_list_app fuel l l' p s : process_list fuel (l ++ l') p s =
  (r ← process_list fuel l p; if r.1 : bool then mret (true, r.2) else process_list fuel l' r.2) s.
Proof.
  revert p s. induction l as [|x l IH]; intros p s; cbn [process_list app]; [done|].
  unfold mbind, DB_bind. destruct (process_tuple _ _ _ _ _ _) as [[[] p1] s1|]; cbn [fst snd]; [done| |done].
  rewrite IH. unfold mbind, DB_bind. done.
Qed.

Lemma process_batch_list fuel b l n p s : holds b l → (n ≤ length l)%nat →
  process_batch Execute finished fuel b (seqZ (Z.of_nat n) (len l - Z.of_nat n)) p s = process_list fuel (drop n l) p s.
Proof.
  intros H. remember (length l - n)%nat as k eqn:Ek. revert n p s Ek. induction k as [|k IH]; intros n p s Ek Hn.
  - rewrite drop_ge by lia. by replace (len l - Z.of_nat n) with 0 by lia.
  - rewrite seqZ_cons by lia. cbn [process_batch]. destruct (lookup_lt_is_Some_2 l n) as [x Hx]; [lia|].
    rewrite (get_spec _ _ _ H), (proj2 (Z.ltb_ge _ _)), Nat2Z.id, Hx by lia.
    rewrite (drop_S l x n Hx). cbn [process_list]. unfold in_array, mbind, DB_bind, mret, DB_ret.
    destruct (process_tuple _ _ _ _ _ _) as [[[] p1] s1|]; cbn [fst snd]; [done| |done].
    rewrite <-IH by lia. do 2 f_equal; lia.
Qed.

Lemma process_batches_list fuel bs ls p s : Forall2 holds bs ls →
  process_batches Execute finished fuel bs p s = process_list fuel (concat ls) p s.
Proof.
  intros F. revert p s. induction F as [|b l bs ls H F IH]; intros p s; cbn [process_batches concat]; [done|].
  rewrite process_list_app. pose proof (process_batch_list fuel b l 0 p s H ltac:(lia)) as E.
  rewrite Z.sub_0_r in E. unfold TpccBatch.size. rewrite (ho_count _ _ H). unfold mbind, DB_bind.
  change (Z.of_nat 0) with 0 in E. rewrite E. change (drop 0 l) with l.
  destruct (process_list _ _ _ _) as [[[] p1] s1|]; cbn [fst snd]; [done|apply IH|done].
Qed.

(** ** Transactions that never fail *)
Lemma wp_process_list_all (N : Z) (I : nat → S → Prop) fuel l p s :
  (∀ k tuple ret s, tuple ∈ l → I (Datatypes.S k) s → size_ ret = 0 → len (char_ptr_ ret) = N →
     wpd (Execute tuple ret) (λ r s', r.1 = true ∧ len (char_ptr_ r.2) = N ∧ I k s') s) →
  (∀ i, finished i = false) → len (char_ptr_ (pr_ret p)) = N → 0 ≤ pr_count p → pr_count p + len l < 2 ^ 31 → I (length l) s →
  wpd (process_list fuel l p) (λ r s', r.1 = false ∧ pr_count r.2 = pr_count p + len l ∧
    pr_abort_count r.2 = pr_abort_count p ∧ I 0%nat s') s.
Proof.
  intros HE Hf. revert p s. induction l as [|t l IH]; intros p s HN H0 Hn Hs; cbn [process_list length] in *.
  { wpd_step. cbn. split_and!; (done || lia). }
  wpd_step. unfold process_tuple. wpd_step. unfold run_tuple. wpd_step. unfold attempt. wpd_step.
  eapply wpd_mono; [apply (HE (length l)); [by left|exact Hs|done|exact HN]|].
  intros [ok ret] s1 (-> & HN1 & Hs1). wpd_step. cbn [fst snd with_ret]. wpd_step. cbn [fst snd].
  unfold counted. wpd_step. wpd_step. eapply wpd_in_array; [apply int_of_ok; cbn; lia|]. wpd_step.
  unfold read_finish. wpd_step. rewrite Hf. cbn [fst snd].
  eapply wpd_mono; [apply IH; [intros k tuple ret' s' Ht; apply HE; by right|exact HN1|cbn; lia|cbn; lia|exact Hs1]|].
  intros [b p'] s' (Hb & Hc & Ha & HI). cbn [fst snd] in *. split_and!; [done| |done|done]. rewrite Hc. cbn. lia.
Qed.

(** ** How often a thread executes its transactions *)

(** [I k]: the state allows [k] executions of the transactions of the list. *)
Context (N : Z) (I : nat → S → Prop) (tuples : list P).
Context (HI : ∀ k tuple ret s, tuple ∈ tuples → I (Datatypes.S k) s → size_ ret = 0 → len (char_ptr_ ret) = N →
  wpd (Execute tuple ret) (λ r s', I k s' ∧ len (char_ptr_ r.2) = N) s).

(** Which readings of the flag found it unset. *)
Definition unset_before (n : nat) : Prop := ∀ i, (i < n)%nat → finished i = false.

(** Between executions: each was followed by a reading of the flag, which was unset. *)
Record running (K : nat) (c : Z) (p : progress) (s : S) : Prop := {
  ru_count : pr_count p = c;
  ru_nonneg : 0 ≤ c ∧ 0 ≤ pr_abort_count p;
  ru_reads : Z.of_nat (pr_reads p) = c + pr_abort_count p;
  ru_state : I (K - pr_reads p) s;
  ru_ret : len (char_ptr_ (pr_ret p)) = N;
  ru_unset : unset_before (pr_reads p);
}.

(** The flag was set at the last reading. *)
Record stopped (K : nat) (c : Z) (p : progress) (s : S) : Prop := {
  so_count : pr_count p = c;
  so_nonneg : 0 ≤ c ∧ 0 ≤ pr_abort_count p;
  so_reads : Z.of_nat (pr_reads p) = c + pr_abort_count p;
  so_state : I (K - pr_reads p) s;
  so_last : (0 < pr_reads p)%nat ∧ finished (pr_reads p - 1) = true;
  so_unset : unset_before (pr_reads p - 1);
}.

(** After an execution, when the flag has not been read yet; [d] transactions were executed. *)
Record unread (K : nat) (c : Z) (p : progress) (s : S) : Prop := {
  un_nonneg : 0 ≤ c ∧ 0 ≤ pr_abort_count p;
  un_reads : Z.of_nat (pr_reads p) + 1 = c + pr_abort_count p;
  un_state : I (K - Datatypes.S (pr_reads p)) s;
  un_ret : len (char_ptr_ (pr_ret p)) = N;
  un_unset : unset_before (pr_reads p);
}.

Lemma wp_read_finish K c p s (Q : bool * progress → S → Prop) : unread K c p s → pr_count p = c →
  (∀ b p', pr_abort_count p' = pr_abort_count p → (if b : bool then stopped K c p' s else running K c p' s) →
     size_ (pr_ret p') = size_ (pr_ret p) → Q (b, p') s) →
  wpd (read_finish finished p) Q s.
Proof.
  intros [Hn Hr Hs HN Hu] Hc HQ. unfold read_finish. wpd_step. apply HQ; [done| |done].
  destruct (finished (pr_reads p)) eqn:E; split; cbn [pr_count pr_abort_count pr_reads pr_ret]; try done; try lia.
  - replace (Datatypes.S (pr_reads p) - 1)%nat with (pr_reads p) by lia. split; [lia|done].
  - by replace (Datatypes.S (pr_reads p) - 1)%nat with (pr_reads p) by lia.
  - intros i Hi. destruct (decide (i = pr_reads p)) as [->|]; [done|]. apply Hu. lia.
Qed.

Lemma wp_attempt K c tuple p s (Q : bool * progress → S → Prop) :
  tuple ∈ tuples → running K c p s → size_ (pr_ret p) = 0 → c + pr_abort_count p < Z.of_nat K →
  (∀ ok ret s', I (K - Datatypes.S (pr_reads p)) s' → len (char_ptr_ ret) = N → Q (ok, with_ret ret p) s') →
  wpd (attempt Execute tuple p) Q s.
Proof.
  intros Hin [_ _ Hr Hs HN _] H0 Hk HQ. unfold attempt. wpd_step.
  eapply wpd_mono; [eapply (HI (K - Datatypes.S (pr_reads p))); [exact Hin| |done|done]|].
  { by replace (Datatypes.S (K - Datatypes.S (pr_reads p))) with (K - pr_reads p)%nat by lia. }
  intros [ok ret] s' [Hs' HN']. wpd_step. by apply HQ.
Qed.

Lemma wp_aborted K c p ret s s' (Q : progress → S → Prop) :
  running K c p s → I (K - Datatypes.S (pr_reads p)) s' → len (char_ptr_ ret) = N → pr_abort_count p + 1 < 2 ^ 31 →
  (∀ p', pr_count p' = c → pr_abort_count p' = pr_abort_count p + 1 → size_ (pr_ret p') = 0 → unread K c p' s' → Q p' s') →
  wpd (aborted (with_ret ret p)) Q s'.
Proof.
  intros [Hc Hn Hr Hs HN Hu] Hs' HN' Hb HQ. unfold aborted. cbn [pr_abort_count with_ret].
  wpd_step. eapply wpd_in_array; [apply int_of_ok; lia|]. wpd_step. apply HQ; [done..|].
  split; cbn; [lia|lia|done|done|done].
Qed.

(** How a transaction ends: [amin] and [amax] bound the failures. *)
Definition ended (K : nat) (c amin amax : Z) (o : outcome) (p : progress) (s : S) : Prop :=
  pr_count p = c ∧ amin ≤ pr_abort_count p ≤ amax ∧
  match o with
  | executed => unread K (c + 1) p s
  | given_up => unread K c p s ∧ 10 < pr_abort_count p ∧ amin < pr_abort_count p
  | stop => stopped K c p s
  end.

Lemma executed_ended K c p p' amin amax ret s s' : running K c p s → I (K - Datatypes.S (pr_reads p)) s' →
  len (char_ptr_ ret) = N → amin ≤ pr_abort_count p ≤ amax → pr_count p' = pr_count p → pr_abort_count p' = pr_abort_count p →
  pr_reads p' = pr_reads p → pr_ret p' = ret → ended K c amin amax executed p' s'.
Proof.
  intros [Hc Hn Hr Hs HN Hu] Hs' HN' Ha Ec Ea Er Et. unfold ended. rewrite Ec, Ea. split; [done|]. split; [done|].
  split; rewrite ?Ea, ?Er, ?Et; [lia|lia|done|done|done].
Qed.

Lemma wp_retry K c amin amax fuel tuple p s (Q : outcome * progress → S → Prop) :
  tuple ∈ tuples → running K c p s → size_ (pr_ret p) = 0 → (0 < fuel)%nat → 11 ≤ pr_abort_count p + Z.of_nat fuel →
  amin ≤ pr_abort_count p → pr_abort_count p + 1 ≤ amax → 11 ≤ amax < 2 ^ 31 → c + amax ≤ Z.of_nat K →
  (∀ o p' s', ended K c amin amax o p' s' → Q (o, p') s') → wpd (retry Execute finished fuel tuple p) Q s.
Proof.
  intros Hin. revert p s. induction fuel as [|fuel IH]; intros p s R H0 Hf Ha Hmin Hm Hm' HK HQ; [lia|]. cbn [retry].
  wpd_step. eapply wp_attempt; [exact Hin|exact R|exact H0|lia|]. intros ok ret s' Hs' HN'. cbn [fst snd]. destruct ok.
  { wpd_step. apply HQ. eapply executed_ended; [exact R|exact Hs'|exact HN'|lia|done..]. }
  wpd_step. eapply wp_aborted; [exact R|exact Hs'|exact HN'|lia|]. intros p1 Ec Ea E0 U.
  destruct (Z.ltb_spec 10 (pr_abort_count p1)).
  { wpd_step. apply HQ. split; [done|]. split; [lia|]. split; [done|lia]. }
  wpd_step. eapply wp_read_finish; [exact U|exact Ec|]. intros b p2 Ea2 Hb E0'. cbn [fst snd]. destruct b.
  { wpd_step. apply HQ. split; [apply Hb|]. split; [lia|done]. }
  apply IH; cbn [pause pr_abort_count pr_ret]; [destruct Hb; by split|congruence|lia..|exact HQ].
Qed.

Lemma wp_run_tuple K c amin amax fuel tuple p s (Q : outcome * progress → S → Prop) :
  tuple ∈ tuples → running K c p s → size_ (pr_ret p) = 0 → (10 ≤ fuel)%nat → amin ≤ pr_abort_count p →
  pr_abort_count p + 2 ≤ amax → 11 ≤ amax < 2 ^ 31 → c + amax ≤ Z.of_nat K →
  (∀ o p' s', ended K c amin amax o p' s' → Q (o, p') s') → wpd (run_tuple Execute finished fuel tuple p) Q s.
Proof.
  intros Hin R H0 Hf Hmin Hm Hm' HK HQ. unfold run_tuple. pose proof (ru_nonneg _ _ _ _ R) as Hn.
  wpd_step. eapply wp_attempt; [exact Hin|exact R|exact H0|lia|]. intros ok ret s' Hs' HN'. cbn [fst snd]. destruct ok.
  { wpd_step. apply HQ. eapply executed_ended; [exact R|exact Hs'|exact HN'|lia|done..]. }
  wpd_step. eapply wp_aborted; [exact R|exact Hs'|exact HN'|lia|]. intros p1 Ec Ea E0 U.
  wpd_step. eapply wp_read_finish; [exact U|exact Ec|]. intros b p2 Ea2 Hb E0'. cbn [fst snd]. destruct b.
  { wpd_step. apply HQ. split; [apply Hb|]. split; [lia|done]. }
  cbv zeta. apply (wp_retry K c amin amax); cbn [pause with_shifts pr_abort_count pr_ret];
    [done|destruct Hb; by split|congruence|lia..|exact HQ].
Qed.

(** The end of a transaction: the counters are at most [amax] failures and one success more. *)
Lemma wp_process_tuple K c amax fuel tuple p s (Q : bool * progress → S → Prop) :
  tuple ∈ tuples → running K c p s → (10 ≤ fuel)%nat →
  pr_abort_count p + 2 ≤ amax → 11 ≤ amax < 2 ^ 31 → c + amax ≤ Z.of_nat K → c + 1 < 2 ^ 31 →
  (∀ b p' s', (c ≤ pr_count p' ≤ c + 1) → pr_abort_count p' ≤ amax →
     (if b : bool then stopped K (pr_count p') p' s'
      else running K (pr_count p') p' s' ∧ pr_abort_count p ≤ pr_abort_count p' ∧
        (pr_count p' = c → 10 < pr_abort_count p' ∧ pr_abort_count p < pr_abort_count p')) → Q (b, p') s') →
  wpd (process_tuple Execute finished fuel tuple p) Q s.
Proof.
  intros Hin R Hf Hm Hm' HK Hc HQ. unfold process_tuple. pose proof (ru_nonneg _ _ _ _ R) as Hn.
  wpd_step. apply (wp_run_tuple K c (pr_abort_count p) amax); [done|by destruct R; split|done|done|done|done..|].
  intros o p' s' (Ec & Ea & He). cbn [fst snd]. destruct o.
  - unfold counted. wpd_step. wpd_step. eapply wpd_in_array; [apply int_of_ok; lia|]. wpd_step.
    eapply (wp_read_finish K (c + 1)); [by destruct He; split|cbn; lia|].
    intros b p2 Ea2 Hb _. cbn in Ea2. apply HQ; [destruct b, Hb; lia|lia|].
    destruct b; [pose proof (so_count _ _ _ _ Hb) as ->|pose proof (ru_count _ _ _ _ Hb) as ->]; [done|]. split; [done|]. split; [lia|]. intros; lia.
  - destruct He as (U & Hg & Hg'). eapply (wp_read_finish K c); [exact U|exact Ec|].
    intros b p2 Ea2 Hb _. apply HQ; [destruct b, Hb; lia|lia|].
    destruct b; [pose proof (so_count _ _ _ _ Hb) as ->|pose proof (ru_count _ _ _ _ Hb) as ->]; [done|]. split; [done|]. split; [lia|]. intros; lia.
  - wpd_step. apply HQ; [lia|lia|]. by rewrite Ec.
Qed.

(** [x] transactions of [n] were taken, of which the thread lost some after ten failures. *)
Lemma wp_process_list K n fuel l x p s (Q : bool * progress → S → Prop) :
  (∀ t, t ∈ l → t ∈ tuples) → running K (pr_count p) p s → (10 ≤ fuel)%nat → 0 ≤ x → x + len l = n → 3 * n + 9 ≤ Z.of_nat K →
  n < 2 ^ 30 - 8 → pr_count p ≤ x → pr_abort_count p ≤ 2 * x + 9 → x - pr_count p ≤ Z.max 0 (pr_abort_count p - 10) →
  (∀ b p' s', pr_count p' ≤ n → pr_abort_count p' ≤ 2 * n + 9 →
     (if b : bool then stopped K (pr_count p') p' s'
      else running K (pr_count p') p' s' ∧ n - pr_count p' ≤ Z.max 0 (pr_abort_count p' - 10)) → Q (b, p') s') →
  wpd (process_list fuel l p) Q s.
Proof.
  intros Hl R Hf. revert x p s Hl R. induction l as [|t l IH]; intros x p s Hl R H0 Hx HK Hn Hc Ha Hg HQ; cbn [process_list length] in *.
  { wpd_step. apply HQ; [lia|lia|]. split; [done|lia]. }
  wpd_step. eapply (wp_process_tuple K (pr_count p) (2 * x + 11)); [apply Hl; by left|done|done|lia..|].
  intros b p' s' Hc' Ha' Hb. cbn [fst snd]. destruct b.
  { wpd_step. apply HQ; [lia|lia|done]. }
  destruct Hb as (R' & Hmono & Hlost). apply (IH (x + 1)); [intros t1 Ht1; apply Hl; by right|done|lia..|done].
Qed.
End worker_facts.

(** C17: A thread of the executor comes to an end, whatever the transactions return, and bounds
    its work: for [n] transactions, with ten rounds of fuel for the loop of retries, it
    executes at most [3 * n + 9] times (each execution is followed by one reading of
    [is_finish_], and those executions are the counted ones and the failures), has at most
    [2 * n + 9] failures, gives a transaction up only after more than ten failures, and stops
    at the first reading that finds the flag set. *)
Theorem executor_bounded {S P} (Execute : P → CharArray → DB S (bool * CharArray)) (finished : nat → bool) (N : Z)
    (I : nat → S → Prop) (batches : list (ParamBatch P)) (ls : list (list P)) (fuel : nat) (buffer : list Z) (s : S) :
  (∀ k tuple ret s, tuple ∈ concat ls → I (Datatypes.S k) s → size_ ret = 0 → len (char_ptr_ ret) = N →
     wpd (Execute tuple ret) (λ r s', I k s' ∧ len (char_ptr_ r.2) = N) s) →
  Forall2 holds batches ls → len (concat ls) < 2 ^ 30 - 8 → (10 ≤ fuel)%nat → len buffer = N →
  I (3 * length (concat ls) + 9)%nat s →
  wpd (ProcessQueryThread Execute finished fuel buffer batches) (λ r s',
    let n := len (concat ls) in let p := r.2 in
    0 ≤ pr_count p ≤ n ∧ 0 ≤ pr_abort_count p ≤ 2 * n + 9 ∧ Z.of_nat (pr_reads p) = pr_count p + pr_abort_count p ∧
    I (3 * length (concat ls) + 9 - pr_reads p)%nat s' ∧
    if r.1 : bool
    then (0 < pr_reads p)%nat ∧ finished (pr_reads p - 1)%nat = true ∧ ∀ i, (i < pr_reads p - 1)%nat → finished i = false
    else n - pr_count p ≤ Z.max 0 (pr_abort_count p - 10) ∧ ∀ i, (i < pr_reads p)%nat → finished i = false) s.
Proof.
  intros HI F Hn Hf HN Hs. unfold wpd, ProcessQueryThread. rewrite (process_batches_list _ _ _ _ _ _ _ F).
  change (wpd (process_list Execute finished fuel (concat ls) (new_progress buffer)) (λ r s',
    let n := len (concat ls) in let p := r.2 in
    0 ≤ pr_count p ≤ n ∧ 0 ≤ pr_abort_count p ≤ 2 * n + 9 ∧ Z.of_nat (pr_reads p) = pr_count p + pr_abort_count p ∧
    I (3 * length (concat ls) + 9 - pr_reads p)%nat s' ∧
    if r.1 : bool
    then (0 < pr_reads p)%nat ∧ finished (pr_reads p - 1)%nat = true ∧ ∀ i, (i < pr_reads p - 1)%nat → finished i = false
    else n - pr_count p ≤ Z.max 0 (pr_abort_count p - 10) ∧ ∀ i, (i < pr_reads p)%nat → finished i = false) s).
  apply (wp_process_list Execute finished N I (concat ls) HI (3 * length (concat ls) + 9) (len (concat ls)) fuel _ 0); try (cbn; lia); [done| |].
  { split; cbn; [done|lia|done|by rewrite Nat.sub_0_r|done|intros i Hi; lia]. }
  intros b p' s' Hc Ha Hb. cbn [fst snd]. destruct b.
  - destruct Hb as [_ [??] ?? [??] ?]. split_and!; done || lia.
  - destruct Hb as [[_ [??] ????] ?]. split_and!; done || lia.
Qed.

(** Every second execution fails. *)
Definition ex_execute (tuple : nat) (ret : CharArray) : DB nat (bool * CharArray) :=
  λ s, Done (Nat.odd s, ret) (Datatypes.S s).
Definition ex_batch : ParamBatch nat := mk_ParamBatch [Some 7; Some 8; None]%nat 2 3.

Lemma executor_bounded_witness : Forall2 holds [ex_batch] [[7; 8]%nat] ∧
  wpd (ProcessQueryThread ex_execute (λ _, false) 10 [0; 0] [ex_batch]) (λ r s',
    let n := len (concat [[7; 8]%nat]) in let p := r.2 in
    0 ≤ pr_count p ≤ n ∧ 0 ≤ pr_abort_count p ≤ 2 * n + 9 ∧ Z.of_nat (pr_reads p) = pr_count p + pr_abort_count p ∧
    (s' + (3 * length (concat [[7; 8]%nat]) + 9 - pr_reads p) = 15)%nat ∧
    if r.1 : bool
    then (0 < pr_reads p)%nat ∧ false = true ∧ ∀ i, (i < pr_reads p - 1)%nat → false = false
    else n - pr_count p ≤ Z.max 0 (pr_abort_count p - 10) ∧ ∀ i, (i < pr_reads p)%nat → false = false) 0%nat.
Proof.
  assert (Forall2 holds [ex_batch] [[7; 8]%nat]) as F.
  { constructor; [|constructor]. split; [done|done|by exists 1%nat]. }
  split; [exact F|].
  apply (executor_bounded ex_execute (λ _, false) 2 (λ k s, (s + k = 15)%nat) [ex_batch] [[7; 8]%nat] 10 [0; 0] 0%nat).
  - intros k tuple ret s _ Hs _ HN. cbn. split; [lia|exact HN].
  - exact F.
  - cbn. lia.
  - lia.
  - reflexivity.
  - reflexivity.
Defined.
