(* ===== verification/TpccCluster.v ===== *)
(** * TpccCluster: [ClusterConfig.h]

    The servers of the cluster are read from a file of lines [name port]; the position of a
    server is its partition, the first is the master. *)
From S2P Require Import Prelude GlobalMem DbStore DbFlat TpccBase TpccSchemas.
From stdpp Require Import base numbers option list list_numbers.
Open Scope Z_scope.

(** ** An input stream of characters *)
Record ifstream := mk_ifstream { st_rest : list Z; st_eof : bool; st_fail : bool }.

Definition is_space (c : Z) : bool := (c =? 32) || ((9 <=? c) && (c <=? 13)).
Definition is_digit (c : Z) : bool := (48 <=? c) && (c <=? 57).
Fixpoint skip (f : Z → bool) (l : list Z) : list Z :=
  match l with [] => [] | c :: l' => if f c then skip f l' else l end.
Fixpoint prefix_of_class (f : Z → bool) (l : list Z) : list Z :=
  match l with [] => [] | c :: l' => if f c then c :: prefix_of_class f l' else [] end.

Definition at_end (l : list Z) : bool := match l with [] => true | _ => false end.
(** What precedes each extraction: spaces are skipped; [None] when the stream fails. *)
Definition sentry (s : ifstream) : option (list Z) * ifstream :=
  if st_eof s || st_fail s then (None, mk_ifstream (st_rest s) (st_eof s) true)
  else match skip is_space (st_rest s) with
       | [] => (None, mk_ifstream [] true true)
       | l => (Some l, s)
       end.

(** [s >> word]: [None] leaves the variable as it was. *)
Definition read_word (s : ifstream) : option (list Z) * ifstream :=
  match sentry s with
  | (None, s) => (None, s)
  | (Some l, s) =>
      let rest := skip (λ c, negb (is_space c)) l in
      (Some (prefix_of_class (λ c, negb (is_space c)) l), mk_ifstream rest (at_end rest) false)
  end.

Definition decimal (ds : list Z) : Z := foldl (λ v c, v * 10 + (c - 48)) 0 ds.
(** [s >> port]: zero for what is not a number, the nearest bound for one that is too large. *)
Definition read_int (s : ifstream) : option Z * ifstream :=
  match sentry s with
  | (None, s) => (None, s)
  | (Some l, s) =>
      let neg := match l with c :: _ => c =? 45 | [] => false end in
      let l := match l with c :: l' => if (c =? 45) || (c =? 43) then l' else l | [] => l end in
      let ds := prefix_of_class is_digit l in
      let rest := skip is_digit l in
      if at_end ds then (Some 0, mk_ifstream rest (at_end rest) true)
      else
        let v := if neg then - decimal ds else decimal ds in
        match int_of v with
        | Some v => (Some v, mk_ifstream rest (at_end rest) false)
        | None => (Some (if neg then - 2 ^ 31 else 2 ^ 31 - 1), mk_ifstream rest (at_end rest) true)
        end
  end.

(** ** [ClusterConfig.h] *)
Record ServerInfo := mk_ServerInfo { addr_ : list Z; port_no_ : Z }.
#[export] Instance ServerInfo_eq_dec : EqDecision ServerInfo.
Proof. solve_decision. Defined.

(** One turn of the loop. *)
Definition read_server (s : ifstream) : option ServerInfo * ifstream :=
  let '(w, s) := read_word s in
  let name := default [] w in
  let '(v, s) := read_int s in
  let port := default (-1) v in
  (if at_end name && (port <? 0) then None else Some (mk_ServerInfo name port), s).
(** [None] is a loop that does not end. *)
Fixpoint read_servers (fuel : nat) (s : ifstream) : option (list ServerInfo) :=
  if st_eof s then Some [] else
  match fuel with
  | O => None
  | S fuel =>
      let '(server, s) := read_server s in
      servers ← read_servers fuel s;
      Some (option_list server ++ servers)
  end.
Definition ReadConfigFile (fuel : nat) (text : list Z) : option (list ServerInfo) :=
  read_servers fuel (mk_ifstream text false false).

Record ClusterConfig := mk_ClusterConfig { server_info_ : list ServerInfo; my_info_ : ServerInfo }.
Definition new_ClusterConfig (fuel : nat) (my_host_name : list Z) (port : Z) (text : list Z) : option ClusterConfig :=
  servers ← ReadConfigFile fuel text; Some (mk_ClusterConfig servers (mk_ServerInfo my_host_name port)).
Definition GetMyHostInfo (c : ClusterConfig) : ServerInfo := my_info_ c.
(** [None] is the exception of [at]. *)
Definition GetMasterHostInfo (c : ClusterConfig) : option ServerInfo := server_info_ c !! 0%nat.
Definition GetPartitionNum (c : ClusterConfig) : Z := len (server_info_ c).
Fixpoint find_server (i : Z) (servers : list ServerInfo) (me : ServerInfo) : option Z :=
  match servers with
  | [] => None
  | host :: servers => if decide (host = me) then Some i else find_server (i + 1) servers me
  end.
Definition GetMyPartitionId (c : ClusterConfig) : Z :=
  default (len (server_info_ c) + 1) (find_server 0 (server_info_ c) (my_info_ c)).
Definition IsMaster (c : ClusterConfig) : option bool :=
  master ← GetMasterHostInfo c; Some (bool_decide (GetMyHostInfo c = master)).

(** ** The file is read as it is written *)
Definition line (l : list Z * list Z) : list Z := l.1 ++ [32] ++ l.2.
Definition line_ok (l : list Z * list Z) : Prop :=
  l.1 ≠ [] ∧ Forall (λ c, is_space c = false) l.1 ∧ l.2 ≠ [] ∧ Forall (λ c, is_digit c = true) l.2 ∧ decimal l.2 < 2 ^ 31.
(** The lines, with or without an end of the last. *)
Fixpoint config_text (last : bool) (ls : list (list Z * list Z)) : list Z :=
  match ls with
  | [] => []
  | [l] => line l ++ (if last then [10] else [])
  | l :: ls => line l ++ [10] ++ config_text last ls
  end.
Definition server_of (l : list Z * list Z) : ServerInfo := mk_ServerInfo l.1 (decimal l.2).

Lemma skip_prefix f l r : Forall (λ c, f c = true) l → (∀ c r', r = c :: r' → f c = false) →
  skip f (l ++ r) = r ∧ prefix_of_class f (l ++ r) = l.
Proof.
  intros F Hr. induction F as [|c l Hc F IH]; cbn [app].
  - destruct r as [|c r]; [done|]. cbn. by rewrite (Hr c r).
  - destruct IH as [IH1 IH2]. cbn. by rewrite Hc, IH1, IH2.
Qed.

Lemma decimal_bound ds v : Forall (λ c, is_digit c = true) ds → 0 ≤ v → 0 ≤ foldl (λ v c, v * 10 + (c - 48)) v ds.
Proof.
  intros F. revert v. induction F as [|c ds Hc F IH]; intros v Hv; cbn; [done|]. apply IH.
  unfold is_digit in Hc. apply andb_prop in Hc as [H1%Z.leb_le H2%Z.leb_le]. lia.
Qed.

Lemma digit_not_space c : is_digit c = true → is_space c = false ∧ (c =? 45) = false ∧ (c =? 43) = false.
Proof.
  unfold is_digit, is_space. intros [H1%Z.leb_le H2%Z.leb_le]%andb_prop.
  rewrite (proj2 (Z.eqb_neq c 32)), (proj2 (Z.leb_gt c 13)), andb_false_r by lia.
  split; [done|]. split; apply Z.eqb_neq; lia.
Qed.

Lemma read_server_line l sp rest : line_ok l → (sp = [] ∨ sp = [10]) → (∀ c r', rest = c :: r' → is_digit c = false) →
  read_server (mk_ifstream (sp ++ line l ++ rest) false false) = (Some (server_of l), mk_ifstream rest (at_end rest) false).
Proof.
  intros (Hn & Fn & Hd & Fd & Hb) Hsp Hrest. destruct l as [name ds]. cbn [fst snd] in *.
  unfold read_server, read_word, sentry. cbn [st_eof st_fail st_rest orb].
  assert (skip is_space (sp ++ line (name, ds) ++ rest) = name ++ 32 :: ds ++ rest) as ->.
  { unfold line. cbn [fst snd]. rewrite <-!app_assoc. destruct name as [|c name]; [done|]. inversion Fn; subst.
    destruct Hsp as [->| ->]; cbn; by rewrite H1. }
  destruct (skip_prefix (λ c, negb (is_space c)) name (32 :: ds ++ rest)) as [E1 E2].
  { eapply Forall_impl; [exact Fn|]. by intros c ->. }
  { by intros c r' [= <- <-]. }
  assert (∃ c r', name ++ 32 :: ds ++ rest = c :: r') as (c & r' & Ec) by (destruct name; [done|by eexists _, _]).
  rewrite Ec. rewrite Ec in E1, E2. cbv beta iota zeta. rewrite E1, E2. clear E1 E2. cbn [default at_end].
  unfold read_int, sentry. cbn [st_eof st_fail st_rest orb].
  assert (skip is_space (32 :: ds ++ rest) = ds ++ rest) as ->.
  { destruct ds as [|d ds]; [done|]. inversion Fd; subst. cbn. by destruct (digit_not_space d) as [-> _]. }
  destruct (skip_prefix is_digit ds rest Fd Hrest) as [E3 E4].
  destruct ds as [|d ds]; [done|]. inversion Fd as [|?? Hd1 Fd1]; subst. destruct (digit_not_space d Hd1) as (_ & E5 & E6).
  cbn [app]. rewrite E5, E6. cbn [orb]. cbn [app] in E3, E4. rewrite E3, E4. cbn [at_end].
  pose proof (decimal_bound (d :: ds) 0 Fd ltac:(lia)) as H0. unfold decimal in Hb. unfold decimal at 1. rewrite int_of_ok by lia.
  destruct name as [|n name]; [done|]. done.
Qed.

Lemma read_servers_lines ls last sp fuel : Forall line_ok ls → (sp = [] ∨ sp = [10]) → (length ls < fuel)%nat →
  read_servers fuel (mk_ifstream (sp ++ config_text last ls) (at_end (sp ++ config_text last ls)) false) = Some (server_of <$> ls).
Proof.
  intros F. revert sp fuel. induction F as [|l ls Hl F IH]; intros sp fuel Hsp Hf.
  { destruct fuel as [|fuel]; [cbn in Hf; lia|]. destruct Hsp as [->| ->]; destruct fuel; done. }
  destruct fuel as [|fuel]; [cbn in Hf; lia|]. cbn [length] in Hf.
  assert (∃ sp', (sp' = [] ∨ sp' = [10]) ∧ config_text last (l :: ls) = line l ++ sp' ++ config_text last ls ∧
    (sp' = [] → ls = [])) as (sp' & Hsp' & -> & Hnil).
  { destruct ls as [|l' ls].
    - exists (if last then [10] else []). cbn [config_text]. rewrite app_nil_r. destruct last; auto.
    - exists [10]. split; [by right|]. split; [reflexivity|done]. }
  assert (at_end (sp ++ line l ++ sp' ++ config_text last ls) = false) as ->.
  { destruct Hl as (Hn & _). unfold line. destruct l as [[|c name] ds]; [done|]. by destruct Hsp as [->| ->]. }
  cbn [read_servers st_eof]. rewrite read_server_line; [|done|done|].
  - rewrite IH; [done|done|lia].
  - intros c r' E. destruct Hsp' as [->| ->]; cbn in E; [|by injection E as <- _]. by rewrite (Hnil eq_refl) in E.
Qed.

(** C39: The configuration is read as it is written: a file of lines [name port], the last of
    them ended or not, gives its servers in their order; a turn of the loop for each line and
    one more are enough. *)
Theorem config_read (ls : list (list Z * list Z)) (last : bool) (fuel : nat) :
  Forall line_ok ls → (length ls < fuel)%nat → ReadConfigFile fuel (config_text last ls) = Some (server_of <$> ls).
Proof.
  intros F Hf. unfold ReadConfigFile. destruct ls as [|l ls].
  { destruct fuel as [|[|fuel]]; [cbn in Hf; lia|done|done]. }
  rewrite <-(read_servers_lines (l :: ls) last [] fuel) by auto. do 2 f_equal.
  inversion F as [|?? (Hn & _) _]; subst. destruct l as [[|c name] ds]; [done|]. by destruct ls.
Qed.

(** Lines of [config.txt], which has no end of its last line. *)
Definition ex_lines : list (list Z * list Z) := [([114; 49], [49; 49; 49; 49; 49]); ([114; 50], [49; 49; 49; 49; 49])].

Lemma config_read_witness : Forall line_ok ex_lines ∧
  ReadConfigFile 3 (config_text false ex_lines) = Some [mk_ServerInfo [114; 49] 11111; mk_ServerInfo [114; 50] 11111].
Proof.
  assert (Forall line_ok ex_lines) as F by (repeat constructor; cbn; discriminate).
  split; [exact F|]. apply (config_read ex_lines false 3); [exact F|cbn; lia].
Defined.

(** A port that is not a number: the stream fails without reaching its end, and the loop does
    not end. *)
Lemma failed_loops fuel rest : read_servers fuel (mk_ifstream rest false true) = None.
Proof. induction fuel as [|fuel IH]; [done|]. cbn. unfold read_server, read_word, sentry, read_int, sentry. cbn. by rewrite IH. Qed.

(** ** Partitions *)
Lemma find_server_spec servers me i : match find_server i servers me with
  | Some k => ∃ j, k = i + Z.of_nat j ∧ servers !! j = Some me ∧ ∀ j', (j' < j)%nat → servers !! j' ≠ Some me
  | None => me ∉ servers
  end.
Proof.
  revert i. induction servers as [|x servers IH]; intros i; cbn [find_server]; [apply not_elem_of_nil|].
  destruct (decide (x = me)) as [->|Hx].
  { exists 0%nat. split; [lia|]. split; [done|]. intros j' Hj. lia. }
  specialize (IH (i + 1)). destruct (find_server _ _ _) as [k|].
  - destruct IH as (j & -> & Hj & Hlt). exists (S j). split; [lia|]. split; [done|].
    intros [|j'] Hj'; cbn; [congruence|]. apply Hlt. lia.
  - rewrite not_elem_of_cons. by split.
Qed.

(** The partitions of a cluster whose servers differ are numbered from zero in the order of
    the file, and the master is partition zero: a server of the file has its position as its
    partition, a server that is not in the file gets a number above all partitions. *)
Theorem partition_ids (c : ClusterConfig) : NoDup (server_info_ c) → server_info_ c ≠ [] →
  (∀ i, 0 ≤ i < GetPartitionNum c → GetMyPartitionId c = i ↔ server_info_ c !! Z.to_nat i = Some (my_info_ c)) ∧
  (my_info_ c ∉ server_info_ c ↔ GetMyPartitionId c = GetPartitionNum c + 1) ∧
  IsMaster c = Some (GetMyPartitionId c =? 0).
Proof.
  intros Hd Hn. destruct c as [servers me]. cbn [server_info_ my_info_] in *. unfold GetPartitionNum, GetMyPartitionId, IsMaster, GetMasterHostInfo, GetMyHostInfo.
  cbn [server_info_ my_info_]. pose proof (find_server_spec servers me 0) as H. destruct (find_server _ _ _) as [k|]; cbn [default from_option id].
  - destruct H as (j & -> & Hj & Hlt). rewrite Z.add_0_l. pose proof (lookup_lt_Some _ _ _ Hj) as Hl.
    split; [|split].
    + intros i Hi. split; [intros <-; by rewrite Nat2Z.id|]. intros E.
      pose proof (NoDup_lookup _ _ _ _ Hd E Hj). lia.
    + split; [|lia]. intros Hnot. destruct Hnot. by eapply list_elem_of_lookup_2.
    + destruct servers as [|x servers]; [done|]. cbn [lookup list_lookup mbind option_bind]. f_equal.
      destruct (Z.eqb_spec (Z.of_nat j) 0) as [E|E].
      * assert (j = 0%nat) as -> by lia. cbn in Hj. simplify_eq. by apply bool_decide_eq_true_2.
      * apply bool_decide_eq_false_2. intros ->. apply (Hlt 0%nat); [lia|done].
  - split; [|split].
    + intros i Hi. split; [lia|]. intros E. destruct H. by eapply list_elem_of_lookup_2.
    + by split.
    + destruct servers as [|x servers]; [done|]. cbn [lookup list_lookup mbind option_bind].
      rewrite (proj2 (Z.eqb_neq _ _)) by lia. f_equal. apply bool_decide_eq_false_2. intros ->. apply H. left.
Qed.

Definition ex_config : ClusterConfig := mk_ClusterConfig (server_of <$> ex_lines) (mk_ServerInfo [114; 50] 11111).
Lemma partition_ids_witness : NoDup (server_info_ ex_config) ∧
  (∀ i, 0 ≤ i < 2 → GetMyPartitionId ex_config = i ↔ server_info_ ex_config !! Z.to_nat i = Some (my_info_ ex_config)) ∧
  (my_info_ ex_config ∉ server_info_ ex_config ↔ GetMyPartitionId ex_config = 2 + 1) ∧
  IsMaster ex_config = Some (GetMyPartitionId ex_config =? 0).
Proof.
  assert (NoDup (server_info_ ex_config)) as H by (apply (bool_decide_unpack _); vm_compute; reflexivity).
  split; [exact H|]. apply (partition_ids ex_config H). discriminate.
Defined.
