(* ===== verification/TpccSync.v ===== *)
(** * TpccSync: [ClusterSync.h]

    The partitions of the cluster synchronise through a store of keys: the master gets a value
    of each other partition and puts one for all of them.  The keys come from a counter, the
    member [sync_key_], that every partition advances in the same way.

    The store is an interface: [KeyStore].  [DSM] does not implement it, its [Put] and [Get]
    throw ([dsm_keys]).  What the class means to do is proved for stores that answer: each
    partition makes the same calls whatever the answers are, and a cluster of partitions whose
    [Get]s wait for the [Put] of their key passes its fences together. *)
From S2P Require Import Prelude GlobalMem DbStore DbFlat DbDsm TpccBase TpccSchemas TpccCluster.
From stdpp Require Import base numbers option list list_numbers relations.
Open Scope Z_scope.

(** ** The class *)
Class KeyStore (M : Type) := { Put : Z → list Z → DB M unit; Get : Z → DB M (list Z) }.

(** [DSM::Put] and [DSM::Get] ([DSM.h]) *)
Definition dsm_keys {M} : KeyStore M := {| Put _ _ := raise runtime_error; Get _ := raise runtime_error |}.

(** The memory, and the member of the object. *)
Record ClusterSync (M : Type) := mk_ClusterSync { memory : M; sync_key_ : Z }.
Arguments mk_ClusterSync {M} memory sync_key_.
Arguments memory {M} c.
Arguments sync_key_ {M} c.

Definition new_ClusterSync {M} (m : M) : ClusterSync M := mk_ClusterSync m 0.

Section sync.
Context {M : Type} {J : Indeterminate} (store : KeyStore M) (config : ClusterConfig).
Abbreviation partition_id := (GetMyPartitionId config).
Abbreviation partition_num := (GetPartitionNum config).

(** A call of the store; an exception passes through the object. *)
Definition on_store {A} (m : DB M A) : DB (ClusterSync M) A := λ s,
  match m (memory s) with
  | Done a m' => Done a (mk_ClusterSync m' (sync_key_ s))
  | Raise e m' => Raise e (mk_ClusterSync m' (sync_key_ s))
  end.
(** [(uint64_t)(sync_key_ + i)] *)
Definition sync_key (i : Z) : DB (ClusterSync M) Z := λ s, Done (wrap 64 (sync_key_ s + i)) s.
(** [sync_key_ += partition_num] *)
Definition advance_keys : DB (ClusterSync M) unit := λ s,
  Done () (mk_ClusterSync (memory s) (wrap 64 (sync_key_ s + partition_num))).

(** An exception of [at] for a cluster without servers. *)
Definition is_master : DB (ClusterSync M) bool :=
  match IsMaster config with Some b => mret b | None => raise runtime_error end.

(** [receive] is an array of objects, [send] an object. *)
Fixpoint collect (send : list Z) (idxs : list Z) (receive : list (list Z)) : DB (ClusterSync M) (list (list Z)) :=
  match idxs with
  | [] => mret receive
  | i :: idxs =>
      data ← (if negb (i =? partition_id) then key ← sync_key i; on_store (Get key) else mret send);
      receive ← in_array (arr_set receive i data);
      collect send idxs receive
  end.
Definition MasterCollect (send : list Z) (receive : list (list Z)) : DB (ClusterSync M) (list (list Z)) :=
  master ← is_master;
  receive ← (if master : bool then collect send (seqZ 0 partition_num) receive
             else key ← sync_key partition_id; on_store (Put key send);; mret receive);
  advance_keys;; mret receive.
Definition MasterBroadcast (send : list Z) : DB (ClusterSync M) (list Z) :=
  master ← is_master;
  send ← (if master : bool then key ← sync_key partition_id; on_store (Put key send);; mret send
          else key ← sync_key 0; on_store (Get key));
  advance_keys;; mret send.
(** [flags + partition_id] is outside the array for a server that is not in the file. *)
Definition Fence : DB (ClusterSync M) unit :=
  let flags := replicate (Z.to_nat partition_num) [0] in
  flags ← MasterCollect (default [junk] (arr_get flags partition_id)) flags;
  MasterBroadcast (default [junk] (arr_get flags partition_id));;
  mret ().
(** [n] fences, one after the other. *)
Fixpoint Fences (n : nat) : DB (ClusterSync M) unit :=
  match n with O => mret () | S n => Fences n;; Fence end.
End sync.

(** ** The calls of a partition

    A store that answers every call and keeps the calls. *)
Inductive call := CPut (key : Z) (value : list Z) | CGet (key : Z).
#[export] Instance call_eq_dec : EqDecision call.
Proof. solve_decision. Defined.

Definition recorder (answer : Z → list Z) : KeyStore (list call) :=
  {| Put key value := λ log, Done () (log ++ [CPut key value]);
     Get key := λ log, Done (answer key) (log ++ [CGet key]) |}.

(** The calls of fence [f] in partition [p] of [n]: the keys of the fence are those from
    [2 * n * f] to [2 * n * (f + 1)]. *)
Definition fence_calls (n p f : Z) : list call :=
  if p =? 0 then ((λ i, CGet (2 * n * f + i)) <$> seqZ 1 (n - 1)) ++ [CPut (2 * n * f + n) [0]]
  else [CPut (2 * n * f + p) [0]; CGet (2 * n * f + n)].
Definition all_calls (n p : Z) (k : nat) : list call := concat (fence_calls n p <$> seqZ 0 (Z.of_nat k)).

Lemma all_calls_S n p k : all_calls n p (S k) = all_calls n p k ++ fence_calls n p (Z.of_nat k).
Proof.
  unfold all_calls. replace (Z.of_nat (S k)) with (Z.of_nat k + 1) by lia.
  rewrite seqZ_app by lia. rewrite fmap_app, concat_app, Z.add_0_l.
  rewrite (seqZ_cons _ 1) by lia. cbn. by rewrite app_nil_r.
Qed.

Lemma filter_all {A} (P : A → Prop) `{∀ x, Decision (P x)} l : Forall P l → filter P l = l.
Proof. induction 1; [done|]. rewrite filter_cons_True by done. by f_equal. Qed.

(** ** A fence makes these calls *)
Section recorded.
Context {J : Indeterminate} (answer : Z → list Z) (config : ClusterConfig).
Abbreviation partition_id := (GetMyPartitionId config).

(** What the master receives at [i]. *)
Definition collected (send : list Z) (k i : Z) : list Z :=
  if i =? partition_id then send else answer (wrap 64 (k + i)).

Lemma collect_calls send idxs receive log k : Forall (λ i, 0 ≤ i < len receive) idxs →
  collect (recorder answer) config send idxs receive (mk_ClusterSync log k) =
  Done (foldl (λ r i, <[Z.to_nat i := collected send k i]> r) receive idxs)
    (mk_ClusterSync (log ++ ((λ i, CGet (wrap 64 (k + i))) <$> filter (λ i, i ≠ partition_id) idxs)) k).
Proof.
  revert receive log. induction idxs as [|i idxs IH]; intros receive log F; cbn [collect foldl].
  { rewrite filter_nil. cbn. by rewrite app_nil_r. }
  inversion F as [|?? Hi F']; subst.
  assert (∀ x, arr_set receive i x = Some (<[Z.to_nat i := x]> receive)) as Hset.
  { intros x. unfold arr_set. by rewrite (proj2 (Z.leb_le 0 i)), (proj2 (Z.ltb_lt i _)) by lia. }
  unfold collected at 2. rewrite filter_cons. unfold mbind, DB_bind, mret, DB_ret.
  destruct (Z.eqb_spec i partition_id) as [E|E]; cbn [negb].
  - rewrite Hset. cbn [in_array]. unfold mret, DB_ret. rewrite decide_False by tauto.
    apply IH. by rewrite length_insert.
  - cbn [sync_key on_store Get recorder memory sync_key_]. rewrite Hset. cbn [in_array]. unfold mret, DB_ret.
    rewrite decide_True by done. rewrite IH by by rewrite length_insert. rewrite fmap_cons, <-app_assoc. done.
Qed.

Lemma foldl_insert_other {A} (g : Z → A) idxs (l : list A) j : (∀ i, i ∈ idxs → Z.to_nat i ≠ j) →
  foldl (λ r i, <[Z.to_nat i := g i]> r) l idxs !! j = l !! j.
Proof.
  revert l. induction idxs as [|i idxs IH]; intros l H; cbn; [done|].
  rewrite IH by (intros; apply H; by right). apply list_lookup_insert_ne. apply H. by left.
Qed.

Context (p : nat) (n : Z).
Context (Hid : partition_id = Z.of_nat p) (Hnum : GetPartitionNum config = n) (Hp : Z.of_nat p < n)
  (Hmaster : IsMaster config = Some (Z.of_nat p =? 0)).

Lemma fence_makes f log : 0 ≤ f → 2 * n * (f + 1) < 2 ^ 64 →
  Fence (recorder answer) config (mk_ClusterSync log (2 * n * f)) =
  Done () (mk_ClusterSync (log ++ fence_calls n (Z.of_nat p) f) (2 * n * (f + 1))).
Proof.
  intros Hf Hb. assert (0 ≤ n * f) by nia.
  assert (∀ i, 0 ≤ i < 2 * n → wrap 64 (2 * n * f + i) = 2 * n * f + i) as Hw by (intros; apply wrap_small; unfold fits; lia).
  assert (∀ i, 0 ≤ i < n → wrap 64 (2 * n * f + n + i) = 2 * n * f + n + i) as Hw' by (intros; apply wrap_small; unfold fits; lia).
  assert (wrap 64 (2 * n * f + n + n) = 2 * n * (f + 1)) as Hn by (rewrite wrap_small; [lia|unfold fits; lia]).
  assert (arr_get (replicate (Z.to_nat n) [0]) (Z.of_nat p) = Some [0]) as Hget.
  { unfold arr_get. rewrite (proj2 (Z.ltb_ge _ _)) by lia. apply lookup_replicate. split; [done|lia]. }
  unfold Fence, MasterCollect, MasterBroadcast, is_master, mbind, DB_bind, mret, DB_ret.
  rewrite Hmaster, Hnum, Hid, Hget. cbn [default from_option id]. unfold fence_calls.
  destruct (Z.eqb_spec (Z.of_nat p) 0) as [E|E].
  - rewrite collect_calls.
    2:{ apply Forall_forall. intros i Hi%elem_of_seqZ. rewrite length_replicate. lia. }
    unfold advance_keys at 1. cbn [memory sync_key_]. rewrite Hnum, Hid, E.
    set (r := foldl _ _ _). assert (arr_get r 0 = Some [0]) as ->.
    { unfold arr_get. cbn [Z.ltb]. unfold r. rewrite seqZ_cons by lia. cbn [foldl].
      rewrite foldl_insert_other by (intros i Hi%elem_of_seqZ; lia).
      unfold collected. rewrite Hid, E. apply list_lookup_insert_eq. rewrite length_replicate. lia. }
    cbn [default from_option id]. unfold sync_key, on_store, advance_keys. cbn [Put recorder memory sync_key_].
    rewrite (wrap_small 64 (2 * n * f + n)) by (unfold fits; lia). rewrite (Hw' 0) by lia.
    rewrite Z.add_0_r, Hnum, Hn, <-app_assoc. do 4 f_equal.
    rewrite seqZ_cons, filter_cons_False by lia. rewrite filter_all.
    2:{ apply Forall_forall. intros i Hi%elem_of_seqZ. lia. }
    apply list_fmap_ext. intros ? i Hi%list_elem_of_lookup_2%elem_of_seqZ. by rewrite Hw by lia.
  - unfold sync_key, on_store, advance_keys. cbn [Put Get recorder memory sync_key_].
    rewrite Hnum, (Hw (Z.of_nat p)), (Hw n), (Hw' 0), Z.add_0_r, Hn, <-app_assoc by lia. done.
Qed.

Lemma fences_make k : 2 * n * Z.of_nat k < 2 ^ 64 →
  Fences (recorder answer) config k (new_ClusterSync []) =
  Done () (mk_ClusterSync (all_calls n (Z.of_nat p) k) (2 * n * Z.of_nat k)).
Proof.
  induction k as [|k IH]; intros Hk; cbn [Fences].
  { unfold mret, DB_ret, new_ClusterSync. do 2 f_equal. lia. }
  unfold mbind, DB_bind. rewrite IH by lia. rewrite fence_makes by lia. rewrite all_calls_S. do 2 f_equal. lia.
Qed.
End recorded.

(** ** A cluster of partitions *)
Lemma elem_of_all_calls n p k c : c ∈ all_calls n p k ↔ ∃ f : nat, (f < k)%nat ∧ c ∈ fence_calls n p (Z.of_nat f).
Proof.
  unfold all_calls. rewrite list_elem_of_In, in_concat. setoid_rewrite <-list_elem_of_In. split.
  - intros (l & (f & -> & Hf%elem_of_seqZ)%list_elem_of_fmap & Hc). exists (Z.to_nat f). rewrite Z2Nat.id by lia. split; [lia|done].
  - intros (f & Hf & Hc). eexists. split; [|exact Hc]. apply list_elem_of_fmap_2. apply elem_of_seqZ. lia.
Qed.

Lemma all_calls_prefix n p k k' : (k ≤ k')%nat → all_calls n p k `prefix_of` all_calls n p k'.
Proof. induction 1; [done|]. rewrite all_calls_S. by apply prefix_app_r. Qed.

Lemma fence_puts n p f key v : 0 ≤ p < n → CPut key v ∈ fence_calls n p f →
  v = [0] ∧ key = 2 * n * f + (if p =? 0 then n else p).
Proof.
  intros Hp. unfold fence_calls. destruct (p =? 0).
  - rewrite elem_of_app, list_elem_of_fmap, list_elem_of_singleton. intros [(i & ? & _)|[= -> ->]]; done.
  - rewrite elem_of_cons, list_elem_of_singleton. intros [[= -> ->]|?]; done.
Qed.

(** The keys of two fences differ. *)
Lemma key_inj n f f' a a' : 0 < a ≤ n → 0 < a' ≤ n → 2 * n * f + a = 2 * n * f' + a' → f = f' ∧ a = a'.
Proof. intros. apply (Z.div_mod_unique (2 * n)); lia. Qed.

(** The call where a partition stands. *)
Lemma all_calls_at n p k l c rest : all_calls n p k = l ++ c :: rest →
  ∃ (f : nat) pre suf, (f < k)%nat ∧ fence_calls n p (Z.of_nat f) = pre ++ c :: suf ∧ l = all_calls n p f ++ pre.
Proof.
  revert rest. induction k as [|k IH]; intros rest.
  { by destruct l. }
  rewrite all_calls_S. intros [(x & E1 & E2)|(x & -> & E)]%app_eq_inv.
  - destruct x as [|c' x]; cbn in E2.
    + exists k, [], rest. rewrite app_nil_r in *. by split; [lia|].
    + injection E2 as <- _. destruct (IH _ E1) as (f & pre & suf & ? & ? & ?). exists f, pre, suf. by split; [lia|].
  - exists k, x, rest. by split; [lia|].
Qed.

Lemma prefix_beyond {A} (l pre all : list A) x : l `prefix_of` all → pre `prefix_of` all → x ∈ l → x ∉ pre →
  (length pre < length l)%nat.
Proof.
  intros Hl Hpre Hx Hnot. destruct (prefix_weak_total _ _ _ Hl Hpre) as [H|H].
  - destruct Hnot. destruct H as [r ->]. apply elem_of_app. by left.
  - destruct H as [[|y r] ->]; [by rewrite app_nil_r in Hx|]. rewrite length_app. cbn. lia.
Qed.

Lemma prefix_within {A} (l pre all : list A) : l `prefix_of` all → pre `prefix_of` all → (length pre ≤ length l)%nat → pre ⊆ l.
Proof.
  intros Hl Hpre Hlen. destruct (prefix_weak_total _ _ _ Hl Hpre) as [[r ->]|[r ->]].
  - rewrite length_app in Hlen. destruct r; [|cbn in Hlen; lia]. by rewrite app_nil_r.
  - intros x Hx. apply elem_of_app. by left.
Qed.

Definition calls_by (p : nat) (log : list (nat * call)) : list call := snd <$> filter (λ e, e.1 = p) log.

Lemma calls_by_snoc p log q c : calls_by p (log ++ [(q, c)]) = calls_by p log ++ (if decide (q = p) then [c] else []).
Proof.
  unfold calls_by. rewrite filter_app, fmap_app. f_equal. rewrite filter_cons. cbn [fst]. by destruct (decide _).
Qed.

Lemma elem_of_calls_by p log c : c ∈ calls_by p log ↔ (p, c) ∈ log.
Proof.
  unfold calls_by. rewrite list_elem_of_fmap. split.
  - intros ([q c'] & -> & [E H]%list_elem_of_filter). cbn in *. by subst.
  - intros H. exists (p, c). split; [done|]. by apply list_elem_of_filter.
Qed.

Section cluster.
Context {J : Indeterminate} (answer : nat → Z → list Z) (servers : list ServerInfo).

(** The program of server [me], position [p] of the file: [k] fences. *)
Definition program (k p : nat) (me : ServerInfo) : db_result (ClusterSync (list call)) unit :=
  Fences (recorder (answer p)) (mk_ClusterConfig servers me) k (new_ClusterSync []).
Definition calls_of (k p : nat) (me : ServerInfo) : list call :=
  match program k p me with Done _ s => memory s | Raise _ s => memory s end.

(** A [Get] waits for the [Put] of its key. *)
Definition answered (c : call) (log : list (nat * call)) : Prop :=
  match c with CPut _ _ => True | CGet key => ∃ q v, (q, CPut key v) ∈ log end.
(** One server makes the next call of its [k] fences. *)
Inductive cluster_step (k : nat) : list (nat * call) → list (nat * call) → Prop :=
| server_calls log p me c : servers !! p = Some me → calls_by p log ++ [c] `prefix_of` calls_of k p me →
    answered c log → cluster_step k log (log ++ [(p, c)]).

Abbreviation n := (len servers).
Context (Hd : NoDup servers).

Lemma program_runs k p me : servers !! p = Some me → 2 * n * Z.of_nat k < 2 ^ 64 →
  program k p me = Done () (mk_ClusterSync (all_calls n (Z.of_nat p) k) (2 * n * Z.of_nat k)).
Proof.
  intros Hme Hk. pose proof (lookup_lt_Some _ _ _ Hme) as Hp.
  destruct (partition_ids (mk_ClusterConfig servers me) Hd) as (Hid & _ & Hm); [by intros E; cbn in E; rewrite E in Hme|].
  assert (GetMyPartitionId (mk_ClusterConfig servers me) = Z.of_nat p) as E.
  { apply Hid; [unfold GetPartitionNum; cbn; lia|]. by rewrite Nat2Z.id. }
  rewrite E in Hm. apply fences_make; [done..|lia|done|done].
Qed.

Context (k : nat) (Hk : 2 * n * Z.of_nat k < 2 ^ 64).

Lemma calls_of_all f p me : servers !! p = Some me → (f ≤ k)%nat → calls_of f p me = all_calls n (Z.of_nat p) f.
Proof. intros H Hf. unfold calls_of. rewrite (program_runs f p me H); [done|nia]. Qed.

Record synced (log : list (nat * call)) : Prop := {
  synced_program p : (p < length servers)%nat → calls_by p log `prefix_of` all_calls n (Z.of_nat p) k;
  synced_server p c : (p, c) ∈ log → (p < length servers)%nat;
  synced_waits p key : (p, CGet key) ∈ log → ∃ q v, (q, CPut key v) ∈ log;
}.

Lemma reachable_synced log : rtc (cluster_step k) [] log → synced log.
Proof.
  revert log. apply (rtc_ind_r synced []).
  { split; [intros; apply prefix_nil|intros ?? []%not_elem_of_nil|intros ?? []%not_elem_of_nil]. }
  intros log0 log1 _ Hs IH. destruct Hs as [log p me c Hme Hpre Ha], IH as [I1 I2 I3].
  pose proof (lookup_lt_Some _ _ _ Hme) as Hp. rewrite (calls_of_all k p me Hme) in Hpre by lia. split.
  - intros q Hq. rewrite calls_by_snoc. destruct (decide (p = q)) as [->|]; [done|]. rewrite app_nil_r. by apply I1.
  - intros q c' [Hc|[= -> ->]%list_elem_of_singleton]%elem_of_app; [by eapply I2|done].
  - intros q key [Hc|[= -> <-]%list_elem_of_singleton]%elem_of_app.
    + destruct (I3 _ _ Hc) as (r & v & ?). exists r, v. apply elem_of_app. by left.
    + destruct Ha as (r & v & ?). exists r, v. apply elem_of_app. by left.
Qed.

Section state.
Context (log : list (nat * call)) (I : synced log).

(** Who has put a key, and which fences it has entered. *)
Lemma put_by q key v : (q, CPut key v) ∈ log →
  ∃ f : nat, (f < k)%nat ∧ (q < length servers)%nat ∧ key = 2 * n * Z.of_nat f + (if Z.of_nat q =? 0 then n else Z.of_nat q).
Proof.
  intros H. pose proof (synced_server _ I _ _ H) as Hq. apply elem_of_calls_by in H.
  destruct (synced_program _ I q Hq) as [r E].
  assert (CPut key v ∈ all_calls n (Z.of_nat q) k) as (f & Hf & Hc)%elem_of_all_calls by (rewrite E; apply elem_of_app; by left).
  apply fence_puts in Hc as [_ ->]; [|lia]. by exists f.
Qed.

Lemma not_put_before p key v f f' : 0 ≤ p < n → (f' ≤ f)%nat → key = 2 * n * Z.of_nat f + (if p =? 0 then n else p) →
  CPut key v ∉ all_calls n p f'.
Proof.
  intros Hp Hf -> (g & Hg & [_ E]%fence_puts)%elem_of_all_calls; [|done].
  apply key_inj in E; [lia|destruct (Z.eqb_spec p 0); lia..].
Qed.

Lemma put_entered q f v : (q < length servers)%nat → (f < k)%nat →
  (q, CPut (2 * n * Z.of_nat f + (if Z.of_nat q =? 0 then n else Z.of_nat q)) v) ∈ log →
  (length (all_calls n (Z.of_nat q) f) < length (calls_by q log))%nat.
Proof.
  intros Hq Hf H. eapply prefix_beyond; [by apply (synced_program _ I)|by apply all_calls_prefix; lia|by apply elem_of_calls_by|].
  apply (not_put_before _ _ _ f); [lia|lia|done].
Qed.

(** The master puts the key of a fence after its last [Get]. *)
Lemma put_passed f v : (f < k)%nat → (0%nat, CPut (2 * n * Z.of_nat f + n) v) ∈ log →
  (length (all_calls n 0 (S f)) ≤ length (calls_by 0 log))%nat.
Proof.
  intros Hf H. pose proof (synced_server _ I _ _ H) as H0.
  set (gets := (λ i, CGet (2 * n * Z.of_nat f + i)) <$> seqZ 1 (n - 1)).
  assert (all_calls n 0 (S f) = (all_calls n 0 f ++ gets) ++ [CPut (2 * n * Z.of_nat f + n) [0]]) as E.
  { rewrite all_calls_S. unfold fence_calls. cbn [Z.eqb]. by rewrite <-app_assoc. }
  rewrite E, length_app. cbn [length]. rewrite Nat.add_1_r. apply (prefix_beyond _ _ (all_calls n 0 k) (CPut (2 * n * Z.of_nat f + n) v)).
  - by apply (synced_program _ I 0%nat).
  - etransitivity; [|apply (all_calls_prefix _ _ (S f)); lia]. rewrite E. by apply prefix_app_r.
  - by apply elem_of_calls_by.
  - rewrite elem_of_app. intros [Hc|(i & ? & _)%list_elem_of_fmap]; [|done].
    revert Hc. apply (not_put_before _ _ _ f); [lia|lia|done].
Qed.

Lemma passed_made p f c : (p < length servers)%nat → (f < k)%nat →
  (length (all_calls n (Z.of_nat p) (S f)) ≤ length (calls_by p log))%nat →
  c ∈ fence_calls n (Z.of_nat p) (Z.of_nat f) → (p, c) ∈ log.
Proof.
  intros Hp Hf Hl Hc. apply elem_of_calls_by.
  eapply prefix_within; [by apply (synced_program _ I)|apply (all_calls_prefix _ _ (S f)); lia|done|].
  apply elem_of_all_calls. exists f. by split; [lia|].
Qed.

Lemma master_passed q f : (q < length servers)%nat → (f < k)%nat →
  (length (all_calls n 0 (S f)) ≤ length (calls_by 0 log))%nat →
  (length (all_calls n (Z.of_nat q) f) < length (calls_by q log))%nat.
Proof.
  intros Hq Hf Hl. destruct q as [|q].
  { change (Z.of_nat 0) with 0. eapply Nat.lt_le_trans; [|exact Hl]. rewrite all_calls_S, length_app. unfold fence_calls.
    cbn [Z.eqb]. rewrite length_app. cbn. lia. }
  assert ((0%nat, CGet (2 * n * Z.of_nat f + Z.of_nat (S q))) ∈ log) as Hg.
  { apply (passed_made 0 f); [lia|done|done|]. unfold fence_calls. apply elem_of_app. left.
    apply (list_elem_of_fmap_2 (λ i, CGet (2 * n * Z.of_nat f + i))), elem_of_seqZ. lia. }
  destruct (synced_waits _ I _ _ Hg) as (r & v & Hput). destruct (put_by _ _ _ Hput) as (g & Hgk & Hr & E).
  apply key_inj in E as [-> %Nat2Z.inj E]; [|lia|destruct (Z.eqb_spec (Z.of_nat r) 0); lia].
  destruct (Z.eqb_spec (Z.of_nat r) 0) as [|]; [lia|]. assert (r = S q) as -> by lia.
  by apply (put_entered _ _ v).
Qed.

Lemma barrier p q f : (p < length servers)%nat → (q < length servers)%nat → (f < k)%nat →
  (length (all_calls n (Z.of_nat p) (S f)) ≤ length (calls_by p log))%nat →
  (length (all_calls n (Z.of_nat q) f) < length (calls_by q log))%nat.
Proof.
  intros Hp Hq Hf Hl. destruct (decide (p = 0%nat)) as [->|Hp0]; [by apply master_passed|].
  assert ((p, CGet (2 * n * Z.of_nat f + n)) ∈ log) as Hg.
  { apply (passed_made p f); [done|done|done|]. unfold fence_calls. rewrite (proj2 (Z.eqb_neq _ _)) by lia. right. left. }
  destruct (synced_waits _ I _ _ Hg) as (r & v & Hput). destruct (put_by _ _ _ Hput) as (g & Hgk & Hr & E).
  apply key_inj in E as [->%Nat2Z.inj E]; [|lia|destruct (Z.eqb_spec (Z.of_nat r) 0); lia].
  destruct (Z.eqb_spec (Z.of_nat r) 0) as [|]; [|lia]. assert (r = 0%nat) as -> by lia.
  apply master_passed; [done|done|]. by apply (put_passed _ v).
Qed.
End state.

(** What stands before a call of a fence. *)
Lemma before_call p f c pre suf : fence_calls n p f = pre ++ c :: suf →
  (∃ key v, c = CPut key v) ∨
  (p = 0 ∧ ∃ q, 1 ≤ q < n ∧ c = CGet (2 * n * f + q)) ∨
  (p ≠ 0 ∧ c = CGet (2 * n * f + n) ∧ pre = [CPut (2 * n * f + p) [0]]).
Proof.
  intros E. unfold fence_calls in E. destruct (Z.eqb_spec p 0) as [->|Hp].
  - assert (c ∈ pre ++ c :: suf) as Hc by (apply elem_of_app; right; left). rewrite <-E in Hc.
    apply elem_of_app in Hc as [(q & -> & Hq%elem_of_seqZ)%list_elem_of_fmap|[= ->]%list_elem_of_singleton].
    + right. left. split; [done|]. exists q. by split; [lia|].
    + left. by eexists _, _.
  - destruct pre as [|c0 [|c1 pre]]; injection E.
    + intros _ <-. left. by eexists _, _.
    + intros _ <- <-. by right; right.
    + intros Ex _ _. by destruct pre.
Qed.

Lemma step_of log p c rest : (p < length servers)%nat →
  all_calls n (Z.of_nat p) k = calls_by p log ++ c :: rest → answered c log → ∃ log', cluster_step k log log'.
Proof.
  intros Hp E Ha. destruct (lookup_lt_is_Some_2 servers p Hp) as [me Hme]. eexists. apply (server_calls _ _ p me c); [done| |done].
  rewrite (calls_of_all k p me Hme) by lia. exists rest. by rewrite E, <-app_assoc.
Qed.

Lemma put_in_all p f g : (f < g)%nat → Z.of_nat p ≠ 0 → CPut (2 * n * Z.of_nat f + Z.of_nat p) [0] ∈ all_calls n (Z.of_nat p) g.
Proof.
  intros Hf Hp. apply elem_of_all_calls. exists f. split; [done|]. unfold fence_calls. rewrite (proj2 (Z.eqb_neq _ _)) by lia. left.
Qed.

Lemma master_put_in_all f g : (f < g)%nat → CPut (2 * n * Z.of_nat f + n) [0] ∈ all_calls n 0 g.
Proof.
  intros Hf. apply elem_of_all_calls. exists f. split; [done|]. unfold fence_calls. cbn [Z.eqb]. apply elem_of_app. right. left.
Qed.

(** A partition that has not made all its calls stands before one. *)
Lemma stands_at log p : synced log → (p < length servers)%nat → calls_by p log ≠ all_calls n (Z.of_nat p) k →
  ∃ (f : nat) pre c suf, (f < k)%nat ∧ all_calls n (Z.of_nat p) k = calls_by p log ++ c :: suf ∧
    calls_by p log = all_calls n (Z.of_nat p) f ++ pre ∧
    ((∃ key v, c = CPut key v) ∨
     (p = 0%nat ∧ ∃ q, (0 < q < length servers)%nat ∧ c = CGet (2 * n * Z.of_nat f + Z.of_nat q)) ∨
     (p ≠ 0%nat ∧ c = CGet (2 * n * Z.of_nat f + n) ∧ pre = [CPut (2 * n * Z.of_nat f + Z.of_nat p) [0]])).
Proof.
  intros I Hp Hne. destruct (synced_program _ I p Hp) as [[|c rest] E]; [by rewrite app_nil_r in E|].
  destruct (all_calls_at _ _ _ _ _ _ E) as (f & pre & suf & Hf & Ef & El). exists f, pre, c, rest.
  split; [done|]. split; [done|]. split; [done|]. destruct (before_call _ _ _ _ _ Ef) as [H|[(H0 & q & Hq & ->)|(H0 & H1 & H2)]].
  - by left.
  - right. left. split; [lia|]. exists (Z.to_nat q). rewrite Z2Nat.id by lia. by split; [lia|].
  - right. right. by split; [lia|].
Qed.

(** A partition that waits for the master in a fence that the master has left can go on. *)
Lemma behind_steps log p f pre c suf : synced log → (p < length servers)%nat → p ≠ 0%nat →
  all_calls n (Z.of_nat p) k = calls_by p log ++ c :: suf →
  c = CGet (2 * n * Z.of_nat f + n) → calls_by 0 log = all_calls n 0 (S f) ++ pre → ∃ log', cluster_step k log log'.
Proof.
  intros I Hp Hp0 E -> E0. eapply step_of; [exact Hp|exact E|]. exists 0%nat, [0]. apply elem_of_calls_by. rewrite E0.
  apply elem_of_app. left. apply master_put_in_all. lia.
Qed.

Lemma all_calls_split p f g : (f ≤ g)%nat → ∃ r, all_calls n p g = all_calls n p f ++ r.
Proof. intros H. destruct (all_calls_prefix n p f g H) as [r E]. by exists r. Qed.

Lemma progress log : synced log → (∃ log', cluster_step k log log') ∨
  ∀ p, (p < length servers)%nat → calls_by p log = all_calls n (Z.of_nat p) k.
Proof.
  intros I.
  destruct (decide (Forall (λ p, calls_by p log = all_calls n (Z.of_nat p) k) (seq 0 (length servers)))) as [H|H].
  { right. intros p Hp. rewrite Forall_forall in H. apply H, elem_of_seq. lia. }
  left. apply not_Forall_Exists, Exists_exists in H as (p & Hp%elem_of_seq & Hne); [|apply _].
  destruct (decide (calls_by 0 log = all_calls n 0 k)) as [E0|N0].
  - (* the master has made its calls *)
    destruct (stands_at log p I ltac:(lia) Hne) as (f & pre & c & suf & Hf & E & El & [(key & v & ->)|[(-> & _)|(Hp0 & Ec & _)]]).
    + eapply step_of; [|exact E|done]. lia.
    + done.
    + destruct (all_calls_split 0 (S f) k) as [r Er]; [lia|]. rewrite Er in E0. eapply behind_steps; [done| |exact Hp0|done..]. lia.
  - destruct (stands_at log 0 I ltac:(lia) N0) as (f & pre & c & suf & Hf & E & El & [(key & v & ->)|[(_ & q & Hq & ->)|(? & _)]]); [|..|done].
    { eapply step_of; [|exact E|done]. lia. }
    (* the master waits for [q] *)
    assert (CPut (2 * n * Z.of_nat f + Z.of_nat q) [0] ∈ calls_by q log → ∃ log', cluster_step k log log') as Hput.
    { intros Hc. eapply step_of; [|exact E|]; [lia|]. exists q, [0]. by apply elem_of_calls_by. }
    destruct (decide (calls_by q log = all_calls n (Z.of_nat q) k)) as [Eq|Nq].
    { apply Hput. rewrite Eq. apply put_in_all; lia. }
    destruct (stands_at log q I ltac:(lia) Nq) as (f' & pre' & c & suf' & Hf' & E' & El' & [(key & v & ->)|[(-> & _)|(Hq0 & Ec & ->)]]).
    + eapply step_of; [|exact E'|done]. lia.
    + lia.
    + destruct (Nat.lt_trichotomy f f') as [Hlt|[->|Hlt]].
      * apply Hput. rewrite El'. apply elem_of_app. left. apply put_in_all; lia.
      * apply Hput. rewrite El'. apply elem_of_app. right. left.
      * destruct (all_calls_split 0 (S f') f) as [r Er]; [lia|]. change (Z.of_nat 0) with 0 in El. rewrite Er, <-app_assoc in El.
        eapply behind_steps; [done| |exact Hq0|done..]. lia.
Qed.
End cluster.

(** C40: A fence is a barrier, over any store of keys whose [Get] waits for the [Put] of its key:
    in a cluster of different servers, each server returns from its [k] fences, whatever its
    [Get]s answer, with the counter [sync_key_] advanced by twice the number of servers in
    each; a server has made all its calls of a fence only when every server has begun that
    fence; and in every state that the cluster can reach, some server can make its next call
    or all have made all their calls.  The keys do not run over as long as [2 * n * k] is below
    [2 ^ 64].  [DSM]'s own [Put] and [Get] throw: [dsm_fence_throws]. *)
Theorem fence_barrier {J : Indeterminate} (answer : nat → Z → list Z) (servers : list ServerInfo) (k : nat) :
  NoDup servers → 2 * len servers * Z.of_nat k < 2 ^ 64 →
  (∀ p me, servers !! p = Some me → ∃ calls,
    program answer servers k p me = Done () (mk_ClusterSync calls (2 * len servers * Z.of_nat k))) ∧
  ∀ log, rtc (cluster_step answer servers k) [] log →
    (∀ f p q me me', (f < k)%nat → servers !! p = Some me → servers !! q = Some me' →
      (length (calls_of answer servers (S f) p me) ≤ length (calls_by p log))%nat →
      (length (calls_of answer servers f q me') < length (calls_by q log))%nat) ∧
    ((∃ log', cluster_step answer servers k log log') ∨
     ∀ p me, servers !! p = Some me → calls_by p log = calls_of answer servers k p me).
Proof.
  intros Hd Hk. split.
  { intros p me Hme. eexists. by apply program_runs. }
  intros log Hr. pose proof (reachable_synced answer servers Hd k Hk log Hr) as I. split.
  - intros f p q me me' Hf Hp Hq. rewrite (calls_of_all answer servers Hd k Hk (S f) p me Hp) by lia.
    rewrite (calls_of_all answer servers Hd k Hk f q me' Hq) by lia.
    apply (barrier servers k log I); [by eapply lookup_lt_Some..|done].
  - destruct (progress answer servers Hd k Hk log I) as [H|H]; [by left|]. right. intros p me Hme.
    rewrite (calls_of_all answer servers Hd k Hk k p me Hme) by lia. apply H. by eapply lookup_lt_Some.
Qed.

(** Two fences of the two servers of [config.txt]. *)
Lemma fence_barrier_witness :
  let servers := server_of <$> ex_lines in let answer := λ _ _, [0] in
  NoDup servers ∧ 2 * len servers * Z.of_nat 2 < 2 ^ 64 ∧
  (∀ p me, servers !! p = Some me → ∃ calls, program answer servers 2 p me = Done () (mk_ClusterSync calls 8)) ∧
  ∀ log, rtc (cluster_step answer servers 2) [] log →
    (∀ f p q me me', (f < 2)%nat → servers !! p = Some me → servers !! q = Some me' →
      (length (calls_of answer servers (S f) p me) ≤ length (calls_by p log))%nat →
      (length (calls_of answer servers f q me') < length (calls_by q log))%nat) ∧
    ((∃ log', cluster_step answer servers 2 log log') ∨
     ∀ p me, servers !! p = Some me → calls_by p log = calls_of answer servers 2 p me).
Proof.
  intros servers answer. assert (NoDup servers) as Hd by (apply (bool_decide_unpack _); vm_compute; reflexivity).
  assert (2 * len servers * Z.of_nat 2 < 2 ^ 64) as Hk by reflexivity.
  split; [exact Hd|]. split; [exact Hk|]. apply (fence_barrier answer servers 2 Hd Hk).
Defined.

(** What the master collects: its own value at its place, of every other partition the answer
    to the [Get] of that partition's key. *)
Lemma foldl_insert_seq {A} (g : Z → A) (l : list A) (a m : nat) i : (a + m ≤ length l)%nat → (a ≤ i < a + m)%nat →
  foldl (λ r i, <[Z.to_nat i := g i]> r) l (seqZ (Z.of_nat a) (Z.of_nat m)) !! i = Some (g (Z.of_nat i)).
Proof.
  revert l a. induction m as [|m IH]; intros l a Hl Hi; [lia|]. rewrite seqZ_cons by lia. cbn [foldl].
  replace (Z.succ (Z.of_nat a)) with (Z.of_nat (S a)) by lia. replace (Z.pred (Z.of_nat (S m))) with (Z.of_nat m) by lia.
  destruct (decide (i = a)) as [->|Hne].
  - rewrite foldl_insert_other by (intros j Hj%elem_of_seqZ; lia). rewrite Nat2Z.id. apply list_lookup_insert_eq. lia.
  - apply IH; [rewrite length_insert; lia|lia].
Qed.

Theorem master_collects {J : Indeterminate} (answer : Z → list Z) (config : ClusterConfig) (send : list Z) receive log k :
  IsMaster config = Some true → length receive = length (server_info_ config) →
  ∃ receive' log', MasterCollect (recorder answer) config send receive (mk_ClusterSync log k) =
    Done receive' (mk_ClusterSync log' (wrap 64 (k + GetPartitionNum config))) ∧
  ∀ i, 0 ≤ i < GetPartitionNum config → arr_get receive' i = Some (collected answer config send k i).
Proof.
  intros Hm Hl. eexists _, _. split.
  - unfold MasterCollect, is_master. rewrite Hm. unfold mbind, DB_bind, mret, DB_ret. rewrite collect_calls; [reflexivity|].
    apply Forall_forall. intros i Hi%elem_of_seqZ. unfold GetPartitionNum in Hi. lia.
  - intros i Hi. unfold arr_get, GetPartitionNum in *. rewrite (proj2 (Z.ltb_ge _ _)) by lia.
    change 0 with (Z.of_nat 0) at 1. rewrite foldl_insert_seq by lia. by rewrite Z2Nat.id by lia.
Qed.

(** ** A cluster of one server *)
Section one_server.
Context {M : Type} {J : Indeterminate} (store : KeyStore M) (config : ClusterConfig).
Context (Hone : server_info_ config = [my_info_ config]).
Implicit Types (s : ClusterSync M).

Lemma wp_on_store {A} (m : DB M A) (Q : A → ClusterSync M → Prop) s :
  wpd m (λ a m', Q a (mk_ClusterSync m' (sync_key_ s))) (memory s) → wpd (on_store m) Q s.
Proof. unfold wpd, on_store. by destruct (m (memory s)). Qed.

Lemma one_server : IsMaster config = Some true ∧ GetPartitionNum config = 1 ∧ GetMyPartitionId config = 0.
Proof.
  unfold IsMaster, GetMasterHostInfo, GetMyHostInfo, GetPartitionNum, GetMyPartitionId. rewrite Hone. cbn.
  rewrite bool_decide_eq_true_2, decide_True by done. done.
Qed.

Lemma wp_is_master (Q : bool → ClusterSync M → Prop) s : Q true s → wpd (is_master config) Q s.
Proof. unfold is_master. by destruct one_server as [-> _]. Qed.

Lemma wp_MasterBroadcast send (Q : list Z → ClusterSync M → Prop) s :
  (∀ key, wpd (Put key send) (λ _ m', ∀ k', Q send (mk_ClusterSync m' k')) (memory s)) →
  wpd (MasterBroadcast store config send) Q s.
Proof.
  intros H. unfold MasterBroadcast. wpd_step. apply wp_is_master. cbv iota. do 2 wpd_step.
  unfold wpd at 1, sync_key. wpd_step. apply wp_on_store. eapply wpd_mono; [apply H|]. intros [] m' Hm.
  wpd_step. wpd_step. apply Hm.
Qed.

Lemma wp_Fence (Q : unit → ClusterSync M → Prop) s :
  (∀ key value, wpd (Put key value) (λ _ m', ∀ k', Q () (mk_ClusterSync m' k')) (memory s)) →
  wpd (Fence store config) Q s.
Proof.
  intros H. destruct one_server as (_ & En & Eid). unfold Fence. cbv zeta. wpd_step. unfold MasterCollect. wpd_step.
  apply wp_is_master. cbv iota. rewrite En, Eid. wpd_step. change (seqZ 0 1) with [0]. cbn [collect]. rewrite Eid.
  cbn [Z.eqb negb]. do 2 wpd_step. wpd_step. eapply wpd_in_array; [reflexivity|]. wpd_step. wpd_step. unfold wpd at 1, advance_keys.
  wpd_step. wpd_step. apply wp_MasterBroadcast. intros key. eapply wpd_mono; [apply H|]. intros [] m' Hm k'. apply wpd_ret, Hm.
Qed.
End one_server.

(** ** The store of [DSM] *)
(** No partition passes a fence: [Put] and [Get] of [DSM] throw.  The master of a cluster of one
    server has then advanced its counter past the keys it did not have to collect; otherwise
    nothing has changed. *)
Theorem dsm_fence_throws {M} {J : Indeterminate} (config : ClusterConfig) (m : M) k :
  Fence dsm_keys config (mk_ClusterSync m k) = Raise runtime_error (mk_ClusterSync m
    (if bool_decide (IsMaster config = Some true ∧ GetPartitionNum config = 1) then wrap 64 (k + 1) else k)).
Proof.
  unfold Fence, MasterCollect, is_master. unfold mbind, DB_bind, mret, DB_ret. destruct (IsMaster config) as [[]|] eqn:E.
  - assert (∃ rest, server_info_ config = my_info_ config :: rest) as [rest Er].
    { revert E. unfold IsMaster, GetMasterHostInfo, GetMyHostInfo. destruct (server_info_ config) as [|x rest]; [done|]. cbn.
      intros [= H%bool_decide_eq_true]. exists rest. by rewrite H. }
    assert (GetMyPartitionId config = 0) as Eid.
    { unfold GetMyPartitionId. rewrite Er. cbn [find_server]. by rewrite decide_True. }
    assert (GetPartitionNum config = 1 + len rest) as En by (unfold GetPartitionNum; rewrite Er; cbn [length]; lia).
    rewrite En, seqZ_cons, Eid by lia. cbn [collect]. rewrite Eid. cbn [Z.eqb negb]. unfold mbind, DB_bind, mret, DB_ret.
    set (mine := default _ _). unfold arr_set. rewrite length_replicate, (proj2 (Z.ltb_lt 0 _)) by lia.
    cbn [Z.leb Z.compare andb in_array]. unfold mret, DB_ret. destruct rest as [|x rest].
    + rewrite bool_decide_eq_true_2 by done. cbn. unfold advance_keys, MasterBroadcast, is_master.
      rewrite E. unfold mbind, DB_bind, mret, DB_ret. cbn. by rewrite En.
    + cbn [length]. rewrite seqZ_cons by lia. cbn [collect]. rewrite Eid. cbn. unfold mbind, DB_bind. cbn.
      rewrite bool_decide_eq_false_2; [done|]. cbn [length]. lia.
  - rewrite bool_decide_eq_false_2 by by intros [? _]. done.
  - rewrite bool_decide_eq_false_2 by by intros [? _]. done.
Qed.
