(* ===== verification/TpccRandom.v ===== *)
(** * TpccRandom: [TpccRandomGenerator.h] and [TpccRandomGenerator.cpp]

    Random numbers come from [rand()], the time from the clock: both are streams, of which a
    computation has read so many.  The generators return numbers in their ranges, strings of
    their lengths; the loops that draw until a number is new end when every pair of numbers
    comes up again and again. *)
From S2P Require Import Prelude DbStore TpccBase.
From stdpp Require Import base numbers option list list_numbers.
Open Scope Z_scope.

(** ** [rand()] and the clock *)
Class Random := {
  RAND_MAX : Z;
  draws : nat → Z;
  clock : nat → Z;
  seeded : Z → nat;
  RAND_MAX_bounds : 32767 < RAND_MAX < 2 ^ 31;
  draws_bounds : ∀ n, 0 ≤ draws n ≤ RAND_MAX;
}.

Record rand_state := mk_rand_state { rs_draws : nat; rs_times : nat }.
Definition next_draw (s : rand_state) : rand_state := mk_rand_state (S (rs_draws s)) (rs_times s).

Abbreviation Gen := (DB rand_state).

(** ** The constants of [TpccConstants.h] that are used to generate *)
Definition FREQUENCY_DELIVERY : Z := 0.
Definition FREQUENCY_PAYMENT : Z := 43.
Definition FREQUENCY_NEW_ORDER : Z := 45.
Definition FREQUENCY_ORDER_STATUS : Z := 0.
Definition FREQUENCY_STOCK_LEVEL : Z := 0.
Definition MONEY_DECIMALS : Z := 2.
Definition MIN_IM : Z := 1.
Definition MAX_IM : Z := 10000.
Definition MIN_PRICE : double := d_of_Z 1.
Definition MAX_PRICE : double := d_of_Z 100.
Definition MIN_I_NAME : Z := 14.
Definition MAX_I_NAME : Z := 24.
Definition MIN_I_DATA : Z := 26.
Definition MAX_I_DATA : Z := 50.
Definition MIN_TAX : double := d_of_Z 0.
Definition MAX_TAX : double := d_lit 2 10.
Definition TAX_DECIMALS : Z := 4.
Definition INITIAL_W_YTD : double := d_of_Z 300000.
Definition MIN_NAME : Z := 6.
Definition MAX_NAME : Z := 10.
Definition MIN_STREET : Z := 10.
Definition MAX_STREET : Z := 20.
Definition MIN_CITY : Z := 10.
Definition MAX_CITY : Z := 20.
Definition STATE : Z := 2.
Definition ZIP_LENGTH : Z := 9.
Definition ZIP_SUFFIX : list Z := [49; 49; 49; 49; 49].
Definition MIN_QUANTITY : Z := 10.
Definition MAX_QUANTITY : Z := 100.
Definition DIST : Z := 24.
Definition INITIAL_D_YTD : double := d_of_Z 30000.
Definition INITIAL_CREDIT_LIM : double := d_of_Z 50000.
Definition MIN_DISCOUNT : double := d_of_Z 0.
Definition MAX_DISCOUNT : double := d_lit 5 10.
Definition DISCOUNT_DECIMALS : Z := 4.
Definition INITIAL_BALANCE : double := d_of_Z (-10).
Definition INITIAL_YTD_PAYMENT : double := d_of_Z 10.
Definition INITIAL_PAYMENT_CNT : Z := 1.
Definition INITIAL_DELIVERY_CNT : Z := 0.
Definition MIN_FIRST : Z := 6.
Definition MAX_FIRST : Z := 10.
Definition MIDDLE : list Z := [79; 69].
Definition PHONE : Z := 16.
Definition MIN_C_DATA : Z := 300.
Definition MAX_C_DATA : Z := 500.
Definition GOOD_CREDIT : list Z := [71; 67].
Definition BAD_CREDIT : list Z := [66; 67].
Definition MIN_CARRIER_ID : Z := 1.
Definition MAX_CARRIER_ID : Z := 10.
Definition MIN_OL_CNT : Z := 5.
Definition MAX_OL_CNT : Z := 15.
Definition INITIAL_ALL_LOCAL : Z := 1.
Definition MAX_OL_QUANTITY : Z := 10.
Definition INITIAL_QUANTITY : Z := 5.
Definition MIN_AMOUNT : double := d_lit 1 100.
Definition MIN_DATA : Z := 12.
Definition MAX_DATA : Z := 24.
Definition INITIAL_AMOUNT : double := d_of_Z 10.
Definition MIN_PAYMENT : double := d_of_Z 1.
Definition MAX_PAYMENT : double := d_of_Z 5000.

(** ** The generators *)
Section generators.
Context {R : Random}.

Definition rand : Gen Z := λ s, Done (draws (rs_draws s)) (next_draw s).
Definition GenerateCurrentTime : Gen Z := λ s, Done (clock (rs_times s)) (mk_rand_state (rs_draws s) (S (rs_times s))).
(** A seed leads to some place of the stream. *)
Definition srand (seed : Z) : Gen unit := λ s, Done () (mk_rand_state (seeded (wrap 32 seed)) (rs_times s)).
(** [int] arithmetic *)
Definition as_int (z : Z) : Gen Z := in_array (int_of z).

Definition GenerateInteger (min max : Z) : Gen Z :=
  r ← (if RAND_MAX <=? 32767
       then a ← rand; b ← rand; a ← as_int (Z.shiftl a 16); as_int (a + b)
       else rand);
  k ← as_int (max - min);
  k ← as_int (k + 1);
  if k =? 0 then raise undefined else as_int (Z.rem r k + min).

Definition GenerateIntegerExcluding (min max excluding : Z) : Gen Z :=
  max ← as_int (max - 1);
  number ← GenerateInteger min max;
  if excluding <=? number then as_int (number + 1) else mret number.

(** The constants of a run. *)
Record constants := mk_constants { cLast_ : Z; cId_ : Z; orderlineItemId_ : Z }.
Definition make_constants : Gen constants :=
  cLast ← GenerateInteger 0 255;
  cId ← GenerateInteger 0 1023;
  orderlineItemId ← GenerateInteger 0 8191;
  mret (mk_constants cLast cId orderlineItemId).

Definition GenerateNonuniformInteger (consts : constants) (a x y : Z) : Gen Z :=
  let c := if a =? 255 then cLast_ consts else if a =? 1023 then cId_ consts
           else if a =? 8191 then orderlineItemId_ consts else 0 in
  r1 ← GenerateInteger 0 a;
  r2 ← GenerateInteger x y;
  sum ← as_int (Z.lor r1 r2 + c);
  k ← as_int (y - x);
  k ← as_int (k + 1);
  if k =? 0 then raise undefined else as_int (Z.rem sum k + x).

(** [multiplier] is a power of ten. *)
Definition fixed_point_bounds (decimal_places : Z) (minimum maximum : double) : option (Z * Z * Z) :=
  let multiplier := 10 ^ decimal_places in
  multiplier ← int_of multiplier;
  int_min ← int_of_double (d_add (d_mul minimum (d_of_Z multiplier)) (d_lit 1 2));
  int_max ← int_of_double (d_add (d_mul maximum (d_of_Z multiplier)) (d_lit 1 2));
  Some (multiplier, int_min, int_max).
Definition GenerateFixedPoint (decimal_places : Z) (minimum maximum : double) : Gen double :=
  '(multiplier, int_min, int_max) ← in_array (fixed_point_bounds decimal_places minimum maximum);
  n ← GenerateInteger int_min int_max;
  mret (d_div (d_of_Z n) (d_of_Z multiplier)).

(** [n] characters *)
Fixpoint random_chars (n : nat) (base num_characters : Z) : Gen (list Z) :=
  match n with
  | O => mret []
  | S n => c ← GenerateInteger 0 (num_characters - 1); str ← random_chars n base num_characters; mret (base + c :: str)
  end.
Definition GenerateRandomString (min_length max_length base num_characters : Z) : Gen (list Z) :=
  length ← GenerateInteger min_length max_length;
  random_chars (Z.to_nat length) base num_characters.
Definition GenerateAString (min_length max_length : Z) : Gen (list Z) := GenerateRandomString min_length max_length 97 26.
Definition GenerateNString (min_length max_length : Z) : Gen (list Z) := GenerateRandomString min_length max_length 48 10.

(** "BAR", "OUGHT", "ABLE", "PRI", "PRES", "ESE", "ANTI", "CALLY", "ATION", "EING" *)
Definition syllables_ : list (list Z) :=
  [[66; 65; 82]; [79; 85; 71; 72; 84]; [65; 66; 76; 69]; [80; 82; 73]; [80; 82; 69; 83]; [69; 83; 69]; [65; 78; 84; 73];
   [67; 65; 76; 76; 89]; [65; 84; 73; 79; 78]; [69; 73; 78; 71]].
Definition GenerateLastName (number : Z) : Gen (list Z) :=
  s1 ← in_array (arr_get syllables_ (Z.quot number 100));
  s2 ← in_array (arr_get syllables_ (Z.rem (Z.quot number 10) 10));
  s3 ← in_array (arr_get syllables_ (Z.rem number 10));
  mret (s1 ++ s2 ++ s3).
(** [min_cid] is computed and not used. *)
Definition GenerateRandomLastName (max_cid : Z) : Gen (list Z) := GenerateLastName 999.

(** Draw until the number passes the test. *)
Fixpoint draw_until {A} (fuel : nat) (m : Gen A) (ok : A → bool) : Gen A :=
  match fuel with
  | O => raise waits
  | S fuel => x ← m; if ok x then mret x else draw_until fuel m ok
  end.

(** The set [rows] as a list; a number [-1] is drawn again too. *)
Fixpoint select_ids (fuel n : nat) (minimum maximum : Z) (rows : list Z) : Gen (list Z) :=
  match n with
  | O => mret rows
  | S n =>
      num ← draw_until fuel (GenerateInteger minimum maximum) (λ num, negb ((num =? -1) || bool_decide (num ∈ rows)));
      select_ids fuel n minimum maximum (rows ++ [num])
  end.
Definition SelectUniqueIds (fuel : nat) (numUnique minimum maximum : Z) : Gen (list Z) :=
  select_ids fuel (Z.to_nat numUnique) minimum maximum [].

(** [memcpy] of a string into an array of characters *)
Definition memcpy_string (str arr : list Z) : Gen (list Z) :=
  if len str <=? len arr then mret (splice 0 str arr) else raise undefined.

(** [street_1], [street_2], [city], [state] and [zip] *)
Record address := mk_address { a_street_1 : list Z; a_street_2 : list Z; a_city : list Z; a_state : list Z; a_zip : list Z }.
Definition GenerateAddress (a : address) : Gen address :=
  street1_str ← GenerateAString MIN_STREET MAX_STREET;
  s1 ← memcpy_string street1_str (a_street_1 a);
  street2_str ← GenerateAString MIN_STREET MAX_STREET;
  s2 ← memcpy_string street2_str (a_street_2 a);
  city_str ← GenerateAString MIN_CITY MAX_CITY;
  ci ← memcpy_string city_str (a_city a);
  state_str ← GenerateAString STATE STATE;
  st ← memcpy_string state_str (a_state a);
  let length := ZIP_LENGTH - len ZIP_SUFFIX in
  zip_str ← GenerateNString length length;
  z ← memcpy_string (zip_str ++ ZIP_SUFFIX) (a_zip a);
  mret (mk_address s1 s2 ci st z).

Definition ORIGINAL_STRING : list Z := [79; 82; 73; 71; 73; 78; 65; 76].
Definition FillOriginal (data : list Z) : Gen (list Z) :=
  let original_length := len ORIGINAL_STRING in
  position ← GenerateInteger 0 (to_int (wrap 32 (len data - original_length)));
  (if len data <? position + original_length then raise runtime_error else mret ());;
  mret (take (Z.to_nat position) data ++ ORIGINAL_STRING ++ drop (Z.to_nat (position + original_length)) data).

Definition GenerateTax : Gen double := GenerateFixedPoint TAX_DECIMALS MIN_TAX MAX_TAX.
Definition GenerateWarehouseId (starting_warehouse ending_warehouse : Z) : Gen Z :=
  GenerateInteger starting_warehouse ending_warehouse.
Definition GenerateDistrictId (num_districts_per_warehouse : Z) : Gen Z := GenerateInteger 1 num_districts_per_warehouse.
Definition GenerateCustomerId (consts : constants) (num_customers_per_district : Z) : Gen Z :=
  GenerateNonuniformInteger consts 1023 1 num_customers_per_district.
Definition GenerateItemId (consts : constants) (num_items : Z) : Gen Z :=
  GenerateNonuniformInteger consts 8191 1 num_items.
Definition GenerateCustomerIdUniform (num_customers_per_district : Z) : Gen Z :=
  GenerateInteger 1 num_customers_per_district.
Definition GenerateItemIdUniform (num_items : Z) : Gen Z := GenerateInteger 1 num_items.
End generators.

(** ** What the generators return *)
Section facts.
Context {R : Random}.
Implicit Types s : rand_state.

(** How [GenerateInteger] computes its number, and that it draws once. *)
Lemma GenerateInteger_run min max s : - 2 ^ 31 ≤ min ≤ max → max < 2 ^ 31 → max - min + 1 < 2 ^ 31 →
  GenerateInteger min max s = Done (draws (rs_draws s) mod (max - min + 1) + min) (next_draw s).
Proof.
  intros Hm Hx Hk. unfold GenerateInteger. pose proof RAND_MAX_bounds as HR. rewrite (proj2 (Z.leb_gt _ _)) by lia.
  unfold rand, as_int, mbind, DB_bind. rewrite int_of_ok by lia. cbn [in_array]. unfold mret, DB_ret.
  rewrite int_of_ok by lia. cbn [in_array]. unfold mret, DB_ret. rewrite (proj2 (Z.eqb_neq _ _)) by lia.
  pose proof (draws_bounds (rs_draws s)) as Hd. rewrite Z.rem_mod_nonneg by lia.
  pose proof (Z.mod_pos_bound (draws (rs_draws s)) (max - min + 1) ltac:(lia)). rewrite int_of_ok by lia. done.
Qed.

Lemma wp_GenerateInteger min max s (Q : Z → rand_state → Prop) :
  - 2 ^ 31 ≤ min ≤ max → max < 2 ^ 31 → max - min + 1 < 2 ^ 31 →
  (∀ v s', min ≤ v ≤ max → Q v s') → wpd (GenerateInteger min max) Q s.
Proof.
  intros Hm Hx Hk HQ. unfold wpd. rewrite GenerateInteger_run by done. apply HQ.
  pose proof (Z.mod_pos_bound (draws (rs_draws s)) (max - min + 1) ltac:(lia)). lia.
Qed.

(** It comes from [1 .. n]. *)
Lemma wp_one_to n s (Q : Z → rand_state → Prop) :
  1 ≤ n < 2 ^ 31 → (∀ v s', 1 ≤ v ≤ n → Q v s') → wpd (GenerateInteger 1 n) Q s.
Proof. intros Hn HQ. apply wp_GenerateInteger; [lia..|]. exact HQ. Qed.

Lemma wp_GenerateIntegerExcluding n excluding s (Q : Z → rand_state → Prop) :
  2 ≤ n < 2 ^ 31 → 1 ≤ excluding ≤ n → (∀ v s', 1 ≤ v ≤ n → v ≠ excluding → Q v s') →
  wpd (GenerateIntegerExcluding 1 n excluding) Q s.
Proof.
  intros Hn He HQ. unfold GenerateIntegerExcluding, as_int. wpd_step. eapply wpd_in_array; [apply int_of_ok; lia|].
  wpd_step. apply wp_one_to; [lia|]. intros v s' Hv. destruct (Z.leb_spec excluding v).
  - eapply wpd_in_array; [apply int_of_ok; lia|]. apply HQ; lia.
  - wpd_step. apply HQ; lia.
Qed.

(** The constants are drawn from [0 .. 8191]. *)
Definition constants_ok (c : constants) : Prop :=
  0 ≤ cLast_ c ≤ 255 ∧ 0 ≤ cId_ c ≤ 1023 ∧ 0 ≤ orderlineItemId_ c ≤ 8191.
Lemma wp_make_constants s (Q : constants → rand_state → Prop) :
  (∀ c s', constants_ok c → Q c s') → wpd make_constants Q s.
Proof.
  intros HQ. unfold make_constants. do 3 (wpd_step; apply wp_GenerateInteger; [lia..|intros ???]). wpd_step. by apply HQ.
Qed.

Definition constant_of (c : constants) (a : Z) : Z :=
  if a =? 255 then cLast_ c else if a =? 1023 then cId_ c else if a =? 8191 then orderlineItemId_ c else 0.

(** The number that [GenerateNonuniformInteger] makes of two draws. *)
Definition nonuniform (c a n d1 d2 : Z) : Z := (Z.lor (d1 mod (a + 1)) (d2 mod n + 1) + c) mod n + 1.

Lemma GenerateNonuniformInteger_run c a n s : constants_ok c → 0 ≤ a < 2 ^ 30 → 1 ≤ n < 2 ^ 30 →
  GenerateNonuniformInteger c a 1 n s =
    Done (nonuniform (constant_of c a) a n (draws (rs_draws s)) (draws (S (rs_draws s)))) (next_draw (next_draw s)).
Proof.
  intros Hc Ha Hn. unfold GenerateNonuniformInteger. cbv zeta. fold (constant_of c a).
  assert (0 ≤ constant_of c a ≤ 8191) as Hc'.
  { unfold constant_of, constants_ok in *. destruct (a =? 255), (a =? 1023), (a =? 8191); lia. }
  set (k := constant_of c a) in *. clearbody k. unfold mbind at 1. unfold DB_bind at 1.
  rewrite GenerateInteger_run by lia. unfold mbind at 1. unfold DB_bind at 1. rewrite GenerateInteger_run by lia.
  rewrite Z.sub_0_r, Z.add_0_r, Z.sub_add. change (rs_draws (next_draw s)) with (S (rs_draws s)).
  set (r1 := draws (rs_draws s) mod (a + 1)). set (r2 := draws (S (rs_draws s)) mod n + 1).
  pose proof (Z.mod_pos_bound (draws (rs_draws s)) (a + 1) ltac:(lia)) as H1. fold r1 in H1.
  pose proof (Z.mod_pos_bound (draws (S (rs_draws s))) n ltac:(lia)) as H2.
  assert (0 ≤ Z.lor r1 r2 < 2 ^ 31) as Hl.
  { split; [apply Z.lor_nonneg; subst r2; lia|]. destruct (decide (Z.lor r1 r2 = 0)); [lia|].
    pose proof (Z.lor_nonneg r1 r2) as Hln. apply Z.log2_lt_pow2; [lia|]. rewrite Z.log2_lor by (subst r2; lia).
    apply Z.max_lub_lt; (eapply Z.le_lt_trans; [apply (Z.log2_le_mono _ (2 ^ 30)); subst r2; lia|done]). }
  assert (Z.lor r1 r2 + k < 2 ^ 31) as Hlk.
  { destruct (decide (Z.lor r1 r2 = 0)); [lia|]. pose proof (Z.lor_nonneg r1 r2).
    enough (Z.lor r1 r2 < 2 ^ 30 + 1) by lia. destruct (decide (r2 = 2 ^ 30)); [lia|].
    apply Z.lt_succ_r, Z.lt_le_incl. apply Z.log2_lt_pow2; [lia|]. rewrite Z.log2_lor by (subst r2; lia).
    apply Z.max_lub_lt; (destruct (decide (0 < r1)), (decide (0 < r2)); try (apply Z.log2_lt_pow2; subst r2; lia)).
    all: rewrite Z.log2_nonpos by lia; lia. }
  unfold as_int, mbind, DB_bind. rewrite (int_of_ok (Z.lor r1 r2 + k)) by lia. cbn [in_array]. unfold mret, DB_ret.
  rewrite (int_of_ok (n - 1)) by lia. cbn [in_array]. unfold mret, DB_ret.
  rewrite Z.sub_add, (int_of_ok n) by lia. cbn [in_array]. unfold mret, DB_ret.
  rewrite (proj2 (Z.eqb_neq _ _)) by lia. rewrite Z.rem_mod_nonneg by lia.
  pose proof (Z.mod_pos_bound (Z.lor r1 r2 + k) n ltac:(lia)). rewrite int_of_ok by lia. done.
Qed.

Lemma nonuniform_range c a n d1 d2 : 0 < n → 1 ≤ nonuniform c a n d1 d2 ≤ n.
Proof. intros Hn. unfold nonuniform. pose proof (Z.mod_pos_bound (Z.lor (d1 mod (a + 1)) (d2 mod n + 1) + c) n Hn). lia. Qed.

(** When the first draw gives zero, the second decides, and every number is possible. *)
Lemma nonuniform_onto c a n x : 0 < n → 1 ≤ x ≤ n → ∃ d, 0 ≤ d < n ∧ ∀ d2, d2 mod n = d → nonuniform c a n 0 d2 = x.
Proof.
  intros Hn Hx. exists ((x - 2 - c) mod n). split; [by apply Z.mod_pos_bound|]. intros d2 E. unfold nonuniform.
  rewrite Zmod_0_l, Z.lor_0_l, E. replace ((x - 2 - c) mod n + 1 + c) with ((x - 2 - c) mod n + (1 + c)) by lia.
  rewrite Z.add_mod_idemp_l by lia. replace (x - 2 - c + (1 + c)) with (x - 1) by lia. rewrite Z.mod_small by lia. lia.
Qed.

Lemma wp_nonuniform c a n s (Q : Z → rand_state → Prop) : constants_ok c → 0 ≤ a < 2 ^ 30 → 1 ≤ n < 2 ^ 30 →
  (∀ v s', 1 ≤ v ≤ n → Q v s') → wpd (GenerateNonuniformInteger c a 1 n) Q s.
Proof.
  intros Hc Ha Hn HQ. unfold wpd. rewrite GenerateNonuniformInteger_run by done. apply HQ, nonuniform_range. lia.
Qed.

Lemma wp_GenerateFixedPoint k mn mx mult a b s (Q : double → rand_state → Prop) :
  fixed_point_bounds k mn mx = Some (mult, a, b) → 0 ≤ a ≤ b → b < 2 ^ 30 → (∀ v s', Q v s') →
  wpd (GenerateFixedPoint k mn mx) Q s.
Proof.
  intros E Ha Hb HQ. unfold GenerateFixedPoint. wpd_step. eapply wpd_in_array; [exact E|]. cbv beta iota. wpd_step.
  apply wp_GenerateInteger; [lia..|]. intros v s' _. wpd_step. apply HQ.
Qed.

Lemma wp_random_chars n base k s (Q : list Z → rand_state → Prop) : 1 ≤ k < 2 ^ 30 →
  (∀ str s', length str = n → Q str s') → wpd (random_chars n base k) Q s.
Proof.
  intros Hk. revert s Q. induction n as [|n IH]; intros s Q HQ; cbn [random_chars]; [by apply HQ|].
  wpd_step. apply wp_GenerateInteger; [lia..|]. intros c s1 _. wpd_step. apply IH. intros str s2 Hl. wpd_step. apply HQ. by cbn; f_equal.
Qed.

Lemma wp_string mn mx base k s (Q : list Z → rand_state → Prop) : 0 ≤ mn ≤ mx → mx < 2 ^ 30 → 1 ≤ k < 2 ^ 30 →
  (∀ str s', mn ≤ len str ≤ mx → Q str s') → wpd (GenerateRandomString mn mx base k) Q s.
Proof.
  intros Hm Hx Hk HQ. unfold GenerateRandomString. wpd_step. apply wp_GenerateInteger; [lia..|]. intros n s1 Hn.
  apply wp_random_chars; [done|]. intros str s2 Hl. apply HQ. lia.
Qed.

Lemma wp_memcpy_string str arr s (Q : list Z → rand_state → Prop) : len str ≤ len arr →
  (∀ arr', length arr' = length arr → Q arr' s) → wpd (memcpy_string str arr) Q s.
Proof.
  intros Hl HQ. unfold memcpy_string. rewrite (proj2 (Z.leb_le _ _)) by done. wpd_step. apply HQ, splice_length; lia.
Qed.

(** A string copied into an array that has room for it. *)
Lemma wp_string_into {A} mn mx base k (arr : list Z) (rest : list Z → Gen A) s Q : 0 ≤ mn ≤ mx → mx ≤ len arr → mx < 2 ^ 30 →
  1 ≤ k < 2 ^ 30 → (∀ arr' s', length arr' = length arr → wpd (rest arr') Q s') →
  wpd (str ← GenerateRandomString mn mx base k; arr ← memcpy_string str arr; rest arr) Q s.
Proof.
  intros Hm Hx Hx' Hk HQ. wpd_step. apply wp_string; [done..|]. intros str s1 Hl. wpd_step.
  apply wp_memcpy_string; [lia|]. intros arr' Hl'. by apply HQ.
Qed.

(** The arrays of an address. *)
Definition address_wf (a : address) : Prop :=
  length (a_street_1 a) = 32%nat ∧ length (a_street_2 a) = 32%nat ∧ length (a_city a) = 32%nat ∧ length (a_state a) = 2%nat ∧
  length (a_zip a) = 9%nat.
Lemma wp_GenerateAddress a s (Q : address → rand_state → Prop) : address_wf a →
  (∀ a' s', address_wf a' → Q a' s') → wpd (GenerateAddress a) Q s.
Proof.
  intros (H1 & H2 & H3 & H4 & H5) HQ. unfold GenerateAddress, GenerateAString, GenerateNString.
  unfold MIN_STREET, MAX_STREET, MIN_CITY, MAX_CITY, STATE.
  do 4 (apply wp_string_into; [lia..|]; intros ? ? ?).
  cbv zeta. wpd_step. apply wp_string; [by vm_compute| |lia|]; [by vm_compute|]. change (ZIP_LENGTH - len ZIP_SUFFIX) with 4.
  intros str s9 Hl. wpd_step. apply wp_memcpy_string; [rewrite length_app; change (length ZIP_SUFFIX) with 5%nat; lia|].
  intros z Hz. wpd_step. apply HQ. repeat split; cbn; congruence.
Qed.

Lemma wp_GenerateLastName k s (Q : list Z → rand_state → Prop) : 0 ≤ k < 1000 →
  (∀ str, len str ≤ 15 → Q str s) → wpd (GenerateLastName k) Q s.
Proof.
  intros Hk HQ. unfold GenerateLastName.
  rewrite (Z.quot_div_nonneg k 100), (Z.quot_div_nonneg k 10), !Z.rem_mod_nonneg by (try apply Z.div_pos; lia).
  assert (∀ i, 0 ≤ i < 10 → ∃ w, arr_get syllables_ i = Some w ∧ len w ≤ 5) as Hs.
  { intros i Hi. assert (i ∈ seqZ 0 10) as Hin by (apply elem_of_seqZ; lia).
    assert (Forall (λ i, ∃ w, arr_get syllables_ i = Some w ∧ len w ≤ 5) (seqZ 0 10)) as F.
    { repeat (apply Forall_cons_2; [eexists; split; [reflexivity|by vm_compute]|]). apply Forall_nil_2. }
    rewrite Forall_forall in F. by apply F. }
  destruct (Hs (k / 100)) as (w1 & E1 & L1); [split; [apply Z.div_pos; lia|apply Z.div_lt_upper_bound; lia]|].
  destruct (Hs ((k / 10) mod 10)) as (w2 & E2 & L2); [apply Z.mod_pos_bound; lia|].
  destruct (Hs (k mod 10)) as (w3 & E3 & L3); [apply Z.mod_pos_bound; lia|].
  wpd_step. eapply wpd_in_array; [exact E1|]. wpd_step. eapply wpd_in_array; [exact E2|]. wpd_step.
  eapply wpd_in_array; [exact E3|]. wpd_step. apply HQ. rewrite !length_app. lia.
Qed.

(** ** Drawing until a test is passed *)

(** Every pair of numbers comes up within [K] pairs of draws. *)
Definition fair (K : nat) : Prop :=
  ∀ n a b, 0 ≤ a ≤ RAND_MAX → 0 ≤ b ≤ RAND_MAX → ∃ i, (i < K)%nat ∧ draws (n + 2 * i) = a ∧ draws (n + 2 * i + 1) = b.

(** A computation that draws [c] times and returns [f] of where it starts. *)
Lemma wp_draw_until {A} fuel (m : Gen A) (ok : A → bool) (f : nat → A) c s (Q : A → rand_state → Prop) :
  (∀ s, m s = Done (f (rs_draws s)) (mk_rand_state (rs_draws s + c) (rs_times s))) →
  (∃ i, (i < fuel)%nat ∧ ok (f (rs_draws s + c * i)%nat) = true) →
  (∀ x s', (∃ n, x = f n) → ok x = true → Q x s') → wpd (draw_until fuel m ok) Q s.
Proof.
  intros Hm Hi HQ. revert s Hi. induction fuel as [|fuel IH]; intros s (i & Hi & Hok); [lia|]. cbn [draw_until].
  unfold wpd, mbind, DB_bind. rewrite Hm. destruct (ok (f (rs_draws s))) eqn:E.
  { change (wpd (mret (f (rs_draws s))) Q (mk_rand_state (rs_draws s + c) (rs_times s))). wpd_step. apply HQ; [by eexists|done]. }
  destruct i as [|i]; [by rewrite Nat.mul_0_r, Nat.add_0_r, E in Hok|].
  change (wpd (draw_until fuel m ok) Q (mk_rand_state (rs_draws s + c) (rs_times s))). apply IH.
  exists i. split; [lia|]. cbn [rs_draws]. replace (rs_draws s + c + c * i)%nat with (rs_draws s + c * S i)%nat by lia. done.
Qed.

Lemma fair_draw K n r k : fair K → 0 ≤ r < k → k < 2 ^ 15 ∨ k ≤ RAND_MAX + 1 → ∃ i, (i < 2 * K)%nat ∧ draws (n + i) mod k = r.
Proof.
  intros HF Hr Hk. pose proof RAND_MAX_bounds as HR.
  destruct (HF n r 0) as (i & Hi & E & _); [lia..|]. exists (2 * i)%nat. split; [lia|]. rewrite E. apply Z.mod_small. lia.
Qed.

Lemma exists_new m (rows : list Z) : len rows < m → ∃ x, 1 ≤ x ≤ m ∧ x ∉ rows.
Proof.
  intros Hl. destruct (decide (Forall (λ x, x ∈ rows) (seqZ 1 m))) as [F|F].
  - assert (length (seqZ 1 m) ≤ length rows)%nat as Hle.
    { apply submseteq_length, NoDup_submseteq; [apply NoDup_seqZ|]. by apply Forall_forall. }
    rewrite length_seqZ in Hle. lia.
  - apply not_Forall_Exists, Exists_exists in F as (x & Hx & Hnot); [|intros ?; apply _].
    apply elem_of_seqZ in Hx. exists x. split; [lia|done].
Qed.

(** An item that was not chosen yet is drawn. *)
Lemma wp_new_item K c n rows s (Q : Z → rand_state → Prop) : fair K → constants_ok c → 1 ≤ n < 2 ^ 30 → n ≤ RAND_MAX →
  len rows < n → (∀ x s', 1 ≤ x ≤ n → x ∉ rows → Q x s') →
  wpd (draw_until (2 * K) (GenerateItemId c n) (λ x, bool_decide (x ∉ rows))) Q s.
Proof.
  intros HF Hc Hn HR Hl HQ. unfold GenerateItemId.
  eapply (wp_draw_until _ _ _ (λ p, nonuniform (constant_of c 8191) 8191 n (draws p) (draws (S p))) 2).
  - intros s1. rewrite GenerateNonuniformInteger_run by (done || lia). unfold next_draw. cbn. repeat f_equal. lia.
  - destruct (exists_new n rows Hl) as (x & Hx & Hnot).
    destruct (nonuniform_onto (constant_of c 8191) 8191 n x) as (d & Hd & Hon); [lia|done|].
    pose proof RAND_MAX_bounds. destruct (HF (rs_draws s) 0 d) as (i & Hi & E1 & E2); [lia..|]. exists i. split; [lia|].
    rewrite E1, <-Nat.add_1_r, E2, Hon by (apply Z.mod_small; lia). by apply bool_decide_eq_true.
  - intros x s' [p ->] Hok%bool_decide_eq_true. apply HQ; [apply nonuniform_range; lia|done].
Qed.

(** [SelectUniqueIds] ends, with as many different numbers of the range. *)
Lemma wp_select_ids K n m rows s (Q : list Z → rand_state → Prop) : fair K → len rows + Z.of_nat n ≤ m → m ≤ RAND_MAX →
  NoDup rows → Forall (λ i, 1 ≤ i ≤ m) rows →
  (∀ rows' s', NoDup rows' → Forall (λ i, 1 ≤ i ≤ m) rows' → len rows' = len rows + Z.of_nat n → Q rows' s') →
  wpd (select_ids (2 * K) n 1 m rows) Q s.
Proof.
  intros HF. pose proof RAND_MAX_bounds as HR. revert rows s. induction n as [|n IH]; intros rows s Hm HM Hd Fr HQ; cbn [select_ids].
  { wpd_step. apply HQ; [done|done|lia]. }
  wpd_step. eapply (wp_draw_until _ _ _ (λ p, draws p mod m + 1) 1).
  - intros s1. rewrite GenerateInteger_run by lia. rewrite Z.sub_add. unfold next_draw. by rewrite Nat.add_1_r.
  - destruct (exists_new m rows) as (x & Hx & Hnot); [lia|].
    destruct (fair_draw K (rs_draws s) (x - 1) m HF) as (i & Hi & E); [lia..|]. exists i. split; [done|].
    rewrite Nat.mul_1_l, E, Z.sub_add. rewrite (proj2 (Z.eqb_neq _ _)) by lia. cbn. by rewrite bool_decide_eq_false_2.
  - intros x s' [p ->] Hok. pose proof (Z.mod_pos_bound (draws p) m ltac:(lia)) as Hp.
    apply negb_true_iff, orb_false_iff in Hok as [_ Hnot%bool_decide_eq_false].
    apply IH; [rewrite length_app; cbn; lia|done| | |].
    + apply NoDup_app. split; [done|]. split; [|apply NoDup_singleton]. by intros y Hy ->%list_elem_of_singleton.
    + apply Forall_app. split; [done|]. apply Forall_singleton. lia.
    + intros rows' s2 Hd' Fr' Hl. apply HQ; [done|done|]. rewrite Hl, length_app. cbn. lia.
Qed.
End facts.

(** ** A stream in which every pair comes up

    Position [6 * j] starts the pair of the digits of [j], and position [6 * j + 3] starts it
    again, so that a pair is met from positions of both parities. *)
Definition ex_N : Z := 2 ^ 31.
Definition ex_draws (n : nat) : Z :=
  let j := Z.of_nat n / 6 in
  if Z.of_nat n mod 3 =? 0 then j mod ex_N else if Z.of_nat n mod 3 =? 1 then (j / ex_N) mod ex_N else 0.

Lemma ex_draws_bounds n : 0 ≤ ex_draws n ≤ 2 ^ 31 - 1.
Proof.
  unfold ex_draws. assert (0 < ex_N) as HN by done.
  pose proof (Z.mod_pos_bound (Z.of_nat n / 6) ex_N HN) as H1. pose proof (Z.mod_pos_bound (Z.of_nat n / 6 / ex_N) ex_N HN) as H2.
  change (2 ^ 31) with ex_N. destruct (_ =? 0); [lia|]. destruct (_ =? 1); lia.
Qed.

Definition ex_random : Random := {|
  RAND_MAX := 2 ^ 31 - 1; draws := ex_draws; clock := λ _, 0; seeded := λ _, 0%nat;
  RAND_MAX_bounds := ltac:(done); draws_bounds := ex_draws_bounds |}.

Definition ex_K : nat := Z.to_nat (6 * ex_N * ex_N + 3).

Lemma ex_pair j e : 0 ≤ j → e = 0 ∨ e = 1 →
  ex_draws (Z.to_nat (6 * j + 3 * e)) = j mod ex_N ∧ ex_draws (Z.to_nat (6 * j + 3 * e) + 1) = (j / ex_N) mod ex_N.
Proof.
  intros Hj He. unfold ex_draws. rewrite Nat2Z.inj_add, Z2Nat.id by lia. change (Z.of_nat 1) with 1.
  replace ((6 * j + 3 * e) / 6) with j by (apply (Z.div_unique_pos _ _ _ (3 * e)); lia).
  replace ((6 * j + 3 * e) mod 3) with 0 by (apply (Z.mod_unique_pos _ _ (2 * j + e)); lia).
  replace ((6 * j + 3 * e + 1) / 6) with j by (apply (Z.div_unique_pos _ _ _ (3 * e + 1)); lia).
  replace ((6 * j + 3 * e + 1) mod 3) with 1 by (apply (Z.mod_unique_pos _ _ (2 * j + e)); lia). done.
Qed.

Lemma ex_fair : fair (R := ex_random) ex_K.
Proof.
  intros n a b Ha Hb. change RAND_MAX with (ex_N - 1) in Ha, Hb. change (@draws ex_random) with ex_draws.
  assert (0 < ex_N) as HN by done. set (M := ex_N * ex_N). assert (0 < M) as HM by (unfold M; nia).
  set (e := Z.of_nat n mod 2). pose proof (Z.mod_pos_bound (Z.of_nat n) 2 ltac:(lia)) as He. fold e in He.
  pose proof (Z.div_mod (Z.of_nat n) 2 ltac:(lia)) as Ee. fold e in Ee.
  set (q := Z.of_nat n / (6 * M) + 1). pose proof (Z.div_mod (Z.of_nat n) (6 * M) ltac:(lia)) as Eq.
  pose proof (Z.mod_pos_bound (Z.of_nat n) (6 * M) ltac:(lia)) as Hq.
  assert (0 ≤ Z.of_nat n / (6 * M)) as Hq0 by (apply Z.div_pos; lia).
  set (j := a + ex_N * (b + ex_N * q)).
  assert (0 ≤ a + ex_N * b < M) as Hab by (unfold M; nia).
  assert (j = a + ex_N * b + M * q) as Ej by (unfold j, M; lia).
  assert (M * q = M * (Z.of_nat n / (6 * M)) + M) as EMq by (unfold q; lia).
  assert (0 ≤ j) as Hj by nia. assert (Z.of_nat n ≤ 6 * j ≤ Z.of_nat n + 12 * M) as Hn by lia.
  destruct (ex_pair j e Hj ltac:(lia)) as [E1 E2].
  set (i := Z.to_nat ((6 * j + 3 * e - Z.of_nat n) / 2)).
  assert ((6 * j + 3 * e - Z.of_nat n) / 2 = 3 * j + e - Z.of_nat n / 2) as Ei.
  { symmetry. apply (Z.div_unique_pos _ _ _ 0); lia. }
  assert (n + 2 * i = Z.to_nat (6 * j + 3 * e))%nat as Ep by (unfold i; rewrite Ei; lia).
  exists i. split; [|rewrite Ep, E1, E2; split].
  - unfold i, ex_K. replace (6 * ex_N * ex_N + 3) with (6 * M + 3) by (unfold M; lia).
    apply Z2Nat.inj_lt; [rewrite Ei; lia|lia|]. rewrite Ei. lia.
  - unfold j. rewrite Z.mul_comm, Z.mod_add by lia. apply Z.mod_small. lia.
  - unfold j. rewrite Z.mul_comm, Z.div_add by lia. rewrite (Z.div_small a) by lia. rewrite Z.add_0_l, (Z.mul_comm ex_N q), Z.mod_add by lia.
    apply Z.mod_small. lia.
Qed.
