(* ===== verification/TpccRows.v ===== *)
(** * TpccRows: the rows that [TpccPopulator.h] generates

    [StartPopulate] fills one structure per table with random values, again and again, and
    inserts a row from it: all items for the warehouses of the partition, then for each of the
    warehouses its districts with their customers and orders, and its stocks. *)
From S2P Require Import Prelude GlobalMem DbStore DbFlat DbDsm DbArray DbIndex DbSchema DbTable DbTxn DbSerial TpccBase TpccSchemas TpccProcs TpccAlone TpccPopulator TpccRandom.
From stdpp Require Import base numbers option list list_numbers gmap.
Open Scope Z_scope.

(** ** The structures, which are reused for all rows *)
Record structs := mk_structs {
  item_record : ItemRecord;
  warehouse_record : WarehouseRecord;
  district_record : DistrictRecord;
  customer_record : CustomerRecord;
  history_record : HistoryRecord;
  district_new_order_record : DistrictNewOrderRecord;
  order_record : OrderRecord;
  new_order_record : NewOrderRecord;
  order_line_record : OrderLineRecord;
  stock_record : StockRecord;
}.
#[export] Instance eta_structs : Eta structs := fun x =>
  mk_structs (item_record x) (warehouse_record x) (district_record x) (customer_record x) (history_record x)
    (district_new_order_record x) (order_record x) (new_order_record x) (order_line_record x) (stock_record x).

(** [new ItemRecord()] and the others: zero. *)
Definition zeros (n : nat) : list Z := replicate n 0.
Definition d_zero : double := d_of_Z 0.
Definition new_structs : structs :=
  mk_structs (mk_ItemRecord 0 0 (zeros 32) d_zero (zeros 64) 0)
    (mk_WarehouseRecord 0 (zeros 16) (zeros 32) (zeros 32) (zeros 32) (zeros 2) (zeros 9) d_zero d_zero)
    (mk_DistrictRecord 0 0 (zeros 16) (zeros 32) (zeros 32) (zeros 32) (zeros 2) (zeros 9) d_zero d_zero 0)
    (mk_CustomerRecord 0 0 0 (zeros 32) (zeros 2) (zeros 32) (zeros 32) (zeros 32) (zeros 32) (zeros 2) (zeros 9) (zeros 32)
      0 (zeros 2) d_zero d_zero d_zero d_zero 0 0 (zeros 500))
    (mk_HistoryRecord 0 0 0 0 0 0 d_zero (zeros 32)) (mk_DistrictNewOrderRecord 0 0 0) (mk_OrderRecord 0 0 0 0 0 0 0 0)
    (mk_NewOrderRecord 0 0 0) (mk_OrderLineRecord 0 0 0 0 0 0 0 0 d_zero (zeros 32))
    (mk_StockRecord 0 0 0 (replicate 10 (zeros 32)) 0 0 0 (zeros 64)).

(** ** The values of a row *)
Section generate.
Context {R : Random}.

Definition string_into (min_length max_length : Z) (arr : list Z) : Gen (list Z) :=
  str ← GenerateAString min_length max_length; memcpy_string str arr.

Definition GenerateItemRecord (item_id w_id : Z) (original : bool) (record : ItemRecord) : Gen ItemRecord :=
  i_im_id ← GenerateInteger MIN_IM MAX_IM;
  i_name ← string_into MIN_I_NAME MAX_I_NAME (i_name_ record);
  i_price ← GenerateFixedPoint MONEY_DECIMALS MIN_PRICE MAX_PRICE;
  i_data ← string_into MIN_I_DATA MAX_I_DATA (i_data_ record);
  mret (mk_ItemRecord item_id i_im_id i_name i_price i_data w_id).

Definition GenerateWarehouseRecord (w_id : Z) (record : WarehouseRecord) : Gen WarehouseRecord :=
  w_name ← string_into MIN_NAME MAX_NAME (w_name_ record);
  a ← GenerateAddress (mk_address (w_street_1_ record) (w_street_2_ record) (w_city_ record) (w_state_ record) (w_zip_ record));
  w_tax ← GenerateTax;
  mret (mk_WarehouseRecord w_id w_name (a_street_1 a) (a_street_2 a) (a_city a) (a_state a) (a_zip a) w_tax INITIAL_W_YTD).

Definition GenerateDistrictRecord (d_w_id d_id d_next_o_id : Z) (record : DistrictRecord) : Gen DistrictRecord :=
  d_name ← string_into MIN_NAME MAX_NAME (d_name_ record);
  a ← GenerateAddress (mk_address (d_street_1_ record) (d_street_2_ record) (d_city_ record) (d_state_ record) (d_zip_ record));
  d_tax ← GenerateTax;
  mret (mk_DistrictRecord d_id d_w_id d_name (a_street_1 a) (a_street_2 a) (a_city a) (a_state a) (a_zip a) d_tax INITIAL_D_YTD
    d_next_o_id).

Definition GenerateCustomerRecord (c_w_id c_d_id c_id : Z) (bad_credit : bool) (record : CustomerRecord) : Gen CustomerRecord :=
  c_first ← string_into MIN_FIRST MAX_FIRST (c_first_ record);
  c_middle ← memcpy_string MIDDLE (c_middle_ record);
  last ← (if c_id <? 1000 then GenerateLastName (c_id - 1) else GenerateRandomLastName CUSTOMERS_PER_DISTRICT);
  c_last ← memcpy_string last (c_last_ record);
  a ← GenerateAddress (mk_address (c_street_1_ record) (c_street_2_ record) (c_city_ record) (c_state_ record) (c_zip_ record));
  phone ← GenerateNString PHONE PHONE;
  c_phone ← memcpy_string phone (c_phone_ record);
  c_since ← GenerateCurrentTime;
  c_credit ← memcpy_string (if bad_credit then BAD_CREDIT else GOOD_CREDIT) (c_credit_ record);
  c_discount ← GenerateFixedPoint DISCOUNT_DECIMALS MIN_DISCOUNT MAX_DISCOUNT;
  c_data ← string_into MIN_C_DATA MAX_C_DATA (c_data_ record);
  mret (mk_CustomerRecord c_id c_d_id c_w_id c_first c_middle c_last (a_street_1 a) (a_street_2 a) (a_city a) (a_state a) (a_zip a)
    c_phone c_since c_credit INITIAL_CREDIT_LIM c_discount INITIAL_BALANCE INITIAL_YTD_PAYMENT INITIAL_PAYMENT_CNT
    INITIAL_DELIVERY_CNT c_data).

(** The loop over [s_dists_]. *)
Fixpoint generate_dists (dists : list (list Z)) : Gen (list (list Z)) :=
  match dists with
  | [] => mret []
  | dist :: dists => dist ← string_into DIST DIST dist; dists ← generate_dists dists; mret (dist :: dists)
  end.
Definition GenerateStockRecord (s_w_id s_i_id : Z) (original : bool) (record : StockRecord) : Gen StockRecord :=
  s_quantity ← GenerateInteger MIN_QUANTITY MAX_QUANTITY;
  dists ← generate_dists (s_dists_ record);
  s_data ← string_into MIN_I_DATA MAX_I_DATA (s_data_ record);
  mret (mk_StockRecord s_i_id s_w_id s_quantity dists 0 0 0 s_data).

Definition GenerateOrderRecord (o_w_id o_d_id o_id o_c_id o_ol_cnt : Z) (new_order : bool) (record : OrderRecord) :
    Gen OrderRecord :=
  o_entry_d ← GenerateCurrentTime;
  o_carrier_id ← (if new_order then mret NULL_CARRIER_ID else GenerateInteger MIN_CARRIER_ID MAX_CARRIER_ID);
  mret (mk_OrderRecord o_id o_c_id o_d_id o_w_id o_entry_d o_carrier_id o_ol_cnt INITIAL_ALL_LOCAL).

Definition GenerateNewOrderRecord (w_id d_id o_id : Z) (record : NewOrderRecord) : Gen NewOrderRecord :=
  mret (mk_NewOrderRecord o_id d_id w_id).

Definition GenerateOrderLineRecord (ol_w_id ol_d_id ol_o_id ol_number max_items : Z) (new_order : bool)
    (record : OrderLineRecord) : Gen OrderLineRecord :=
  ol_i_id ← GenerateInteger 1 max_items;
  '(ol_delivery_d, ol_amount) ← (if new_order : bool then
       ol_amount ← GenerateFixedPoint MONEY_DECIMALS MIN_AMOUNT (d_mul MAX_PRICE (d_of_Z MAX_OL_QUANTITY));
       mret (-1, ol_amount)
     else ol_delivery_d ← GenerateCurrentTime; mret (ol_delivery_d, d_zero));
  ol_dist_info ← string_into DIST DIST (ol_dist_info_ record);
  mret (mk_OrderLineRecord ol_o_id ol_d_id ol_w_id ol_number ol_i_id ol_w_id ol_delivery_d INITIAL_QUANTITY ol_amount
    ol_dist_info).

Definition GenerateHistoryRecord (h_c_w_id h_c_d_id h_c_id : Z) (record : HistoryRecord) : Gen HistoryRecord :=
  h_date ← GenerateCurrentTime;
  h_data ← string_into MIN_DATA MAX_DATA (h_data_ record);
  mret (mk_HistoryRecord h_c_id h_c_d_id h_c_w_id h_c_d_id h_c_w_id h_date INITIAL_AMOUNT h_data).

Definition GenerateDistrictNewOrderRecord (w_id d_id o_id : Z) (record : DistrictNewOrderRecord) : Gen DistrictNewOrderRecord :=
  mret (mk_DistrictNewOrderRecord w_id d_id o_id).
End generate.

(** ** [StartPopulate] *)
Record populator (S : Type) := mk_populator {
  pop_rand : rand_state;
  pop_structs : structs;
  pop_tables : list Table * list DbRecord;
  pop_store : S;
}.
Arguments mk_populator {S} pop_rand pop_structs pop_tables pop_store.
Arguments pop_rand {S} _. Arguments pop_structs {S} _. Arguments pop_tables {S} _. Arguments pop_store {S} _.

Section populate.
Context {S : Type} {J : Indeterminate} {G : GAlloc S} {R : Random}.
Context (sp : TpccScaleParams) (lock : GlobalAddress → Z → DB S unit) (fuel draw_fuel : nat).
Abbreviation Pop := (DB (populator S)).

(** A computation of the generator. *)
Definition gen {A} (m : Gen A) : Pop A := λ p,
  match m (pop_rand p) with
  | Done a r => Done a (mk_populator r (pop_structs p) (pop_tables p) (pop_store p))
  | Raise e r => Raise e (mk_populator r (pop_structs p) (pop_tables p) (pop_store p))
  end.
(** [InsertItemRecord] and the others. *)
Definition pop_insert (rec : tpcc_record) : Pop unit := λ p,
  match insert_tpcc sp lock fuel rec (pop_tables p) (pop_store p) with
  | Done ts s => Done () (mk_populator (pop_rand p) (pop_structs p) ts s)
  | Raise e s => Raise e (mk_populator (pop_rand p) (pop_structs p) (pop_tables p) s)
  end.
(** [Generate...Record(..., record); Insert...Record(record, ...);] *)
Definition populate_row {X} (record : structs → X) {Hs : Setter record} (generate : X → Gen X) (row : X → tpcc_record) : Pop unit := λ p,
  (x ← gen (generate (record (pop_structs p)));
   (λ p, Done () (mk_populator (pop_rand p) ((pop_structs p) <| record := x |>) (pop_tables p) (pop_store p)));;
   pop_insert (row x)) p.

Definition warehouses : list Z := seqZ (starting_warehouse_ sp) (ending_warehouse_ sp - starting_warehouse_ sp + 1).
Abbreviation num_items := (num_items_ sp).
Abbreviation customers := (num_customers_per_district_ sp).
Definition pop_int (z : Z) : Pop Z := in_array (int_of z).

Definition populate_items : Pop unit :=
  original_rows ← gen (SelectUniqueIds draw_fuel (Z.quot num_items 10) 1 num_items);
  for_each (seqZ 1 num_items) (λ item_id,
    let is_origin := bool_decide (item_id ∈ original_rows) in
    for_each warehouses (λ w_id, populate_row item_record (GenerateItemRecord item_id w_id is_origin) r_item)).

Definition populate_customers (w_id d_id : Z) : Pop unit :=
  selected_rows ← gen (SelectUniqueIds draw_fuel (Z.quot customers 10) 1 customers);
  for_each (seqZ 1 customers) (λ c_id,
    let bad_credit := bool_decide (c_id ∈ selected_rows) in
    populate_row customer_record (GenerateCustomerRecord w_id d_id c_id bad_credit) r_customer;;
    populate_row history_record (GenerateHistoryRecord w_id d_id c_id) r_history).

Definition populate_order (w_id d_id initial_new_order_id o_id : Z) : Pop unit :=
  o_ol_cnt ← gen (GenerateInteger MIN_OL_CNT MAX_OL_CNT);
  let is_new_order := initial_new_order_id <=? o_id in
  populate_row order_record (GenerateOrderRecord w_id d_id o_id o_id o_ol_cnt is_new_order) r_order;;
  for_each (seqZ 1 o_ol_cnt) (λ ol_number,
    populate_row order_line_record (GenerateOrderLineRecord w_id d_id o_id ol_number num_items is_new_order) r_order_line);;
  if is_new_order then populate_row new_order_record (GenerateNewOrderRecord w_id d_id o_id) r_new_order else mret ().

Definition populate_district (w_id d_id : Z) : Pop unit :=
  d_next_o_id ← pop_int (customers + 1);
  populate_row district_record (GenerateDistrictRecord w_id d_id d_next_o_id) r_district;;
  populate_customers w_id d_id;;
  initial ← pop_int (customers - num_new_orders_per_district_ sp);
  initial_new_order_id ← pop_int (initial + 1);
  populate_row district_new_order_record (GenerateDistrictNewOrderRecord w_id d_id initial_new_order_id) r_district_new_order;;
  for_each (seqZ 1 customers) (populate_order w_id d_id initial_new_order_id).

Definition populate_stocks (w_id : Z) : Pop unit :=
  selected_rows ← gen (SelectUniqueIds draw_fuel (Z.quot num_items 10) 1 num_items);
  for_each (seqZ 1 num_items) (λ i_id,
    populate_row stock_record (GenerateStockRecord w_id i_id (bool_decide (i_id ∈ selected_rows))) r_stock).

Definition populate_warehouse (w_id : Z) : Pop unit :=
  populate_row warehouse_record (GenerateWarehouseRecord w_id) r_warehouse;;
  for_each (seqZ 1 (num_districts_per_warehouse_ sp)) (populate_district w_id);;
  populate_stocks w_id.

Definition StartPopulate : Pop unit :=
  populate_items;; for_each warehouses populate_warehouse.
End populate.

(** ** The generated rows are well-formed *)

(** What a new row holds besides its identifiers. *)
Definition fresh (sp : TpccScaleParams) (rec : tpcc_record) : Prop :=
  match rec with
  | r_customer r => c_payment_cnt_ r = 1
  | r_district r => d_next_o_id_ r = num_customers_per_district_ sp + 1
  | r_stock r => 10 ≤ s_quantity_ r ≤ 100 ∧ s_ytd_ r = 0 ∧ s_order_cnt_ r = 0 ∧ s_remote_cnt_ r = 0
  | _ => True
  end.

(** A structure becomes the row. *)
Definition makes (sp : TpccScaleParams) (row : row) (rec : tpcc_record) : Prop :=
  record_row rec = row ∧ record_wf rec ∧ fresh sp rec.

Section generated.
Context {R : Random} (sp : TpccScaleParams).
Implicit Types s : rand_state.

Lemma wp_string_array {A} mn mx (arr : list Z) (rest : list Z → Gen A) s Q : 0 ≤ mn ≤ mx → mx ≤ len arr → mx < 2 ^ 30 →
  (∀ arr' s', length arr' = length arr → wpd (rest arr') Q s') → wpd (arr ← string_into mn mx arr; rest arr) Q s.
Proof.
  intros Hm Hx Hx' HQ. unfold string_into, GenerateAString. wpd_step. wpd_step. apply wp_string; [done..|lia|].
  intros str s1 Hl. apply wp_memcpy_string; [lia|]. intros arr' Hl'. by apply HQ.
Qed.

Lemma wp_time {A} (rest : Z → Gen A) s Q : (∀ v s', wpd (rest v) Q s') → wpd (v ← GenerateCurrentTime; rest v) Q s.
Proof. intros H. wpd_step. apply H. Qed.

Ltac a_string := apply wp_string_array; [by vm_compute|unfold MAX_I_NAME, MAX_I_DATA, MAX_NAME, MAX_FIRST, MAX_C_DATA, DIST, MAX_DATA; lia|by vm_compute|intros ? ? ?].
Ltac a_number := wpd_step; apply wp_GenerateInteger; [by vm_compute|by vm_compute|by vm_compute|intros ? ? ?].
Ltac a_double := wpd_step; eapply wp_GenerateFixedPoint; [by vm_compute|by vm_compute|by vm_compute|intros ? ?].
Ltac arrays := unfold is_array in *; cbn in *; repeat split; congruence || lia || done.

Lemma wp_item_record i w o r s (Q : ItemRecord → rand_state → Prop) : record_wf (r_item r) →
  (∀ r' s', makes sp (item_row i w) (r_item r') → Q r' s') → wpd (GenerateItemRecord i w o r) Q s.
Proof.
  intros [H1 H2] HQ. unfold GenerateItemRecord, is_array in *. a_number. a_string. a_double. a_string. wpd_step. apply HQ.
  split; [done|]. arrays.
Qed.

Lemma wp_address a b c d e s (Q : address → rand_state → Prop) : is_array 32 a → is_array 32 b → is_array 32 c → is_array 2 d →
  is_array 9 e → (∀ a' s', address_wf a' → Q a' s') → wpd (GenerateAddress (mk_address a b c d e)) Q s.
Proof. intros. by apply wp_GenerateAddress. Qed.

Lemma wp_warehouse w r s (Q : WarehouseRecord → rand_state → Prop) : record_wf (r_warehouse r) →
  (∀ r' s', makes sp (warehouse_row w) (r_warehouse r') → Q r' s') → wpd (GenerateWarehouseRecord w r) Q s.
Proof.
  intros (H1 & H2 & H3 & H4 & H5 & H6) HQ. unfold GenerateWarehouseRecord, GenerateTax. unfold is_array in H1. a_string.
  wpd_step. apply wp_address; [done..|]. intros a s2 (A1 & A2 & A3 & A4 & A5). a_double. wpd_step. apply HQ.
  split; [done|]. arrays.
Qed.

Lemma wp_district w d r s (Q : DistrictRecord → rand_state → Prop) : record_wf (r_district r) →
  (∀ r' s', makes sp (district_row d w) (r_district r') → Q r' s') →
  wpd (GenerateDistrictRecord w d (num_customers_per_district_ sp + 1) r) Q s.
Proof.
  intros (H1 & H2 & H3 & H4 & H5 & H6) HQ. unfold GenerateDistrictRecord, GenerateTax. unfold is_array in H1. a_string.
  wpd_step. apply wp_address; [done..|]. intros a s2 (A1 & A2 & A3 & A4 & A5). a_double. wpd_step. apply HQ.
  split; [done|]. arrays.
Qed.

Lemma wp_customer w d c b r s (Q : CustomerRecord → rand_state → Prop) : 1 ≤ c → record_wf (r_customer r) →
  (∀ r' s', makes sp (customer_row c d w) (r_customer r') → Q r' s') → wpd (GenerateCustomerRecord w d c b r) Q s.
Proof.
  intros Hc (H1 & H2 & H3 & H4 & H5 & H6 & H7 & H8 & H9 & H10 & H11) HQ.
  unfold GenerateCustomerRecord, GenerateNString, is_array in *. a_string.
  wpd_step. apply wp_memcpy_string; [cbn; lia|]. intros middle Hm. wpd_step.
  assert (∀ (Q : list Z → rand_state → Prop) s, (∀ str, len str ≤ 15 → Q str s) →
    wpd (if c <? 1000 then GenerateLastName (c - 1) else GenerateRandomLastName CUSTOMERS_PER_DISTRICT) Q s) as Hlast.
  { intros Q' s1 HQ'. unfold GenerateRandomLastName. destruct (Z.ltb_spec c 1000); (apply wp_GenerateLastName; [lia|done]). }
  apply Hlast. intros last Hl. wpd_step. apply wp_memcpy_string; [lia|]. intros c_last Hl'.
  wpd_step. apply wp_address; [done..|]. intros a s2 (A1 & A2 & A3 & A4 & A5).
  apply wp_string_into; [by vm_compute|unfold PHONE; lia|by vm_compute|by vm_compute|]. intros phone s3 Hp.
  apply wp_time. intros since s4. wpd_step. apply wp_memcpy_string; [destruct b; cbn; lia|]. intros credit Hcr.
  a_double. a_string. wpd_step. apply HQ. split; [done|]. arrays.
Qed.

Lemma wp_dists l s (Q : list (list Z) → rand_state → Prop) : Forall (is_array 32) l →
  (∀ l' s', length l' = length l → Forall (is_array 32) l' → Q l' s') → wpd (generate_dists l) Q s.
Proof.
  intros F. revert s Q. induction F as [|d l Hd F IH]; intros s Q HQ; cbn [generate_dists]; [by apply HQ|].
  unfold is_array in Hd. a_string. wpd_step. apply IH. intros l' s2 Hl F'. wpd_step. apply HQ; [by cbn; f_equal|].
  constructor; [unfold is_array; congruence|done].
Qed.

Lemma wp_stock_record w i o r s (Q : StockRecord → rand_state → Prop) : record_wf (r_stock r) →
  (∀ r' s', makes sp (stock_row i w) (r_stock r') → Q r' s') → wpd (GenerateStockRecord w i o r) Q s.
Proof.
  intros (H1 & H2 & H3) HQ. unfold GenerateStockRecord, is_array in *. a_number. wpd_step. apply wp_dists; [done|].
  intros dists s2 Hl Hd. a_string. wpd_step. apply HQ. unfold MIN_QUANTITY, MAX_QUANTITY in *.
  split; [done|]. split; [|cbn; lia]. cbn. split; [congruence|]. split; [done|]. unfold is_array. congruence.
Qed.

Lemma wp_order w d o cnt b r s (Q : OrderRecord → rand_state → Prop) :
  (∀ r' s', makes sp (order_row o d w) (r_order r') → Q r' s') → wpd (GenerateOrderRecord w d o o cnt b r) Q s.
Proof.
  intros HQ. unfold GenerateOrderRecord. apply wp_time. intros v s1. wpd_step.
  assert (∀ (Q : Z → rand_state → Prop) s, (∀ v s', Q v s') →
    wpd (if b then mret NULL_CARRIER_ID else GenerateInteger MIN_CARRIER_ID MAX_CARRIER_ID) Q s) as Hc.
  { intros Q' s2 HQ'. destruct b; [wpd_step; apply HQ'|]. apply wp_GenerateInteger; [by vm_compute..|]. intros v' s' _. apply HQ'. }
  apply Hc. intros c s2. wpd_step. by apply HQ.
Qed.

Lemma wp_order_line w d o l b r s (Q : OrderLineRecord → rand_state → Prop) : 1 ≤ num_items_ sp < 2 ^ 31 →
  record_wf (r_order_line r) → (∀ r' s', makes sp (order_line_row o d w l) (r_order_line r') → Q r' s') →
  wpd (GenerateOrderLineRecord w d o l (num_items_ sp) b r) Q s.
Proof.
  intros Hi H1 HQ. unfold GenerateOrderLineRecord. unfold record_wf, is_array in H1. wpd_step. apply wp_one_to; [done|].
  intros i s1 _. wpd_step.
  assert (∀ (Q : Z * double → rand_state → Prop) s, (∀ v s', Q v s') → wpd (if b then
      ol_amount ← GenerateFixedPoint MONEY_DECIMALS MIN_AMOUNT (d_mul MAX_PRICE (d_of_Z MAX_OL_QUANTITY)); mret (-1, ol_amount)
    else ol_delivery_d ← GenerateCurrentTime; mret (ol_delivery_d, d_zero)) Q s) as Hc.
  { intros Q' s2 HQ'. destruct b; [a_double; wpd_step; apply HQ'|]. apply wp_time. intros v s'. wpd_step. apply HQ'. }
  apply Hc. intros [dd amount] s2. cbv beta iota. a_string. wpd_step. apply HQ. split; [done|]. arrays.
Qed.

Lemma wp_history w d c r s (Q : HistoryRecord → rand_state → Prop) : record_wf (r_history r) →
  (∀ r' s', makes sp (history_row c d w) (r_history r') → Q r' s') → wpd (GenerateHistoryRecord w d c r) Q s.
Proof.
  intros H1 HQ. unfold GenerateHistoryRecord. unfold record_wf, is_array in H1. apply wp_time. intros v s1. a_string.
  wpd_step. apply HQ. split; [done|]. arrays.
Qed.
End generated.

(** ** The rows of a partition, and when they are inserted *)

(** A scale that the keys have room for. *)
Record scale_ok (sp : TpccScaleParams) : Prop := {
  so_warehouses : 1 ≤ starting_warehouse_ sp ≤ ending_warehouse_ sp;
  so_warehouse_bits : ending_warehouse_ sp ≤ num_warehouses_ sp ∧ ending_warehouse_ sp < 64;
  so_items : 1 ≤ num_items_ sp < 2 ^ 30;
  so_districts : 1 ≤ num_districts_per_warehouse_ sp < 2 ^ 22;
  so_customers : 0 ≤ num_customers_per_district_ sp < 2 ^ 28 - 1;
  so_new_orders : 0 ≤ num_new_orders_per_district_ sp ≤ num_customers_per_district_ sp;
}.

Section times.
Context (sp : TpccScaleParams).
Abbreviation customers := (num_customers_per_district_ sp).
Abbreviation districts := (num_districts_per_warehouse_ sp).
Definition of_partition (w : Z) : Prop := starting_warehouse_ sp ≤ w ≤ ending_warehouse_ sp.
Definition first_new_order : Z := customers - num_new_orders_per_district_ sp + 1.

(** The rows of the partition. *)
Definition valid (r : row) : Prop :=
  match r with
  | item_row i w | stock_row i w => 1 ≤ i ≤ num_items_ sp ∧ of_partition w
  | warehouse_row w => of_partition w
  | district_row d w | district_new_order_row d w => 1 ≤ d ≤ districts ∧ of_partition w
  | customer_row c d w | history_row c d w | order_row c d w => 1 ≤ c ≤ customers ∧ 1 ≤ d ≤ districts ∧ of_partition w
  | new_order_row o d w => first_new_order ≤ o ≤ customers ∧ 1 ≤ d ≤ districts ∧ of_partition w
  | order_line_row o d w l => 1 ≤ o ≤ customers ∧ 1 ≤ d ≤ districts ∧ of_partition w ∧ 1 ≤ l ≤ 15
  end.
(** All but the lines of the orders, whose number is random, are inserted. *)
Definition certain (r : row) : Prop := valid r ∧ match r with order_line_row _ _ _ _ => False | _ => True end.

(** The order of the insertions. *)
Abbreviation time := (Z * Z * Z * Z)%type.
Definition time_of (r : row) : time :=
  match r with
  | item_row i w => (0, i, w, 0)
  | warehouse_row w => (w, 0, 0, 0)
  | district_row d w => (w, d, 0, 0)
  | customer_row c d w => (w, d, 1, 2 * c)
  | history_row c d w => (w, d, 1, 2 * c + 1)
  | district_new_order_row d w => (w, d, 2, 0)
  | order_row o d w => (w, d, 3, 32 * o)
  | order_line_row o d w l => (w, d, 3, 32 * o + l)
  | new_order_row o d w => (w, d, 3, 32 * o + 16)
  | stock_row i w => (w, districts + 1, 0, i)
  end.
Definition before (t t' : time) : Prop :=
  let '(a, b, c, d) := t in let '(a', b', c', d') := t' in
  a < a' ∨ a = a' ∧ (b < b' ∨ b = b' ∧ (c < c' ∨ c = c' ∧ d < d')).

Definition until (t t' : time) : Prop :=
  let '(a, b, c, d) := t in let '(a', b', c', d') := t' in
  a < a' ∨ a = a' ∧ (b < b' ∨ b = b' ∧ (c < c' ∨ c = c' ∧ d ≤ d')).

Lemma until_iff t t' : until t t' ↔ before t t' ∨ t = t'.
Proof.
  destruct t as [[[a b] c] d], t' as [[[a' b'] c'] d']. unfold until, before. split.
  - intros H. destruct (decide (a = a' ∧ b = b' ∧ c = c' ∧ d = d')) as [(-> & -> & -> & ->)|]; [by right|left; lia].
  - intros [H|[= -> -> -> ->]]; lia.
Qed.

Lemma time_inj (H : scale_ok sp) r r' : valid r → valid r' → time_of r = time_of r' → r = r'.
Proof.
  destruct H as [[? _] _ _ _ _ _]. unfold valid, of_partition.
  destruct r, r'; cbn [time_of]; intros V V' E; injection E; intros; try done; try lia; f_equal; lia.
Qed.

Lemma before_irrefl t : ¬ before t t.
Proof. destruct t as [[[a b] c] d]. unfold before. lia. Qed.

(** A list with all of them. *)
Definition all_rows : list row :=
  (i ← seqZ 1 (num_items_ sp); w ← warehouses sp; [item_row i w; stock_row i w]) ++
  (w ← warehouses sp; warehouse_row w ::
    (d ← seqZ 1 districts; [district_row d w; district_new_order_row d w] ++
      (c ← seqZ 1 customers; [customer_row c d w; history_row c d w; order_row c d w; new_order_row c d w] ++
        (l ← seqZ 1 15; [order_line_row c d w l])))).

Lemma in_warehouses w : of_partition w → w ∈ warehouses sp.
Proof. intros H. unfold warehouses. apply elem_of_seqZ. unfold of_partition in H. lia. Qed.

Lemma valid_all (H : scale_ok sp) r : valid r → r ∈ all_rows.
Proof.
  intros V. destruct H as [Hw _ _ _ Hc Hn]. unfold all_rows.
  assert (∀ d w r, 1 ≤ d ≤ districts → of_partition w →
    (r = district_row d w ∨ r = district_new_order_row d w ∨ r ∈ (c ← seqZ 1 customers;
      [customer_row c d w; history_row c d w; order_row c d w; new_order_row c d w] ++ (l ← seqZ 1 15; [order_line_row c d w l]))) →
    r ∈ all_rows) as Hd.
  { intros d w r' Hd Hwd Hr. unfold all_rows. apply elem_of_app. right. apply list_elem_of_bind. exists w.
    split; [|by apply in_warehouses]. right. apply list_elem_of_bind. exists d. split; [|apply elem_of_seqZ; lia].
    rewrite elem_of_app, !elem_of_cons, elem_of_nil. tauto. }
  assert (∀ c d w r, 1 ≤ c ≤ customers → 1 ≤ d ≤ districts → of_partition w →
    r ∈ [customer_row c d w; history_row c d w; order_row c d w; new_order_row c d w] ++ (l ← seqZ 1 15; [order_line_row c d w l]) →
    r ∈ all_rows) as Hcust.
  { intros c d w r' Hcc Hdd Hwd Hr. apply (Hd d w); [done..|]. do 2 right. apply list_elem_of_bind. exists c.
    split; [done|]. apply elem_of_seqZ. lia. }
  destruct r as [i w|i w|w|d w|d w|o d w|o d w|o d w l|c d w|c d w]; cbn [valid] in V; unfold first_new_order in *.
  - apply elem_of_app. left. apply list_elem_of_bind. exists i. split; [|apply elem_of_seqZ; lia].
    apply list_elem_of_bind. exists w. split; [left|apply in_warehouses; tauto].
  - apply elem_of_app. left. apply list_elem_of_bind. exists i. split; [|apply elem_of_seqZ; lia].
    apply list_elem_of_bind. exists w. split; [right; left|apply in_warehouses; tauto].
  - apply elem_of_app. right. apply list_elem_of_bind. exists w. split; [left|apply in_warehouses; tauto].
  - apply (Hd d w); [tauto..|]. auto.
  - apply (Hd d w); [tauto..|]. auto.
  - apply (Hcust o d w); [lia|tauto|tauto|]. do 3 right. left.
  - apply (Hcust o d w); [lia|tauto|tauto|]. do 2 right. left.
  - apply (Hcust o d w); [lia|tauto|tauto|]. apply elem_of_app. right. apply list_elem_of_bind. exists l.
    split; [left|apply elem_of_seqZ; lia].
  - apply (Hcust c d w); [lia|tauto|tauto|]. left.
  - apply (Hcust c d w); [lia|tauto|tauto|]. right. left.
Qed.

Lemma valid_range (H : scale_ok sp) r : valid r → row_in_range r.
Proof.
  destruct H as [? [? ?] ? ? ? ?]. unfold valid, of_partition, row_in_range, fits, first_new_order.
  destruct r; intros V; split_and?; lia.
Qed.

Lemma valid_key (H : scale_ok sp) r : valid r → ∃ key, row_key sp r = Some key.
Proof.
  destruct H as [? [? ?] ? ? ? ?]. unfold valid, of_partition. destruct r; intros V; cbn [row_key]; try by eexists.
  - unfold GetItemPrimaryKey. rewrite !(proj2 (Z.leb_le _ _)) by lia. by eexists.
  - unfold GetWarehousePrimaryKey. rewrite !(proj2 (Z.leb_le _ _)) by lia. by eexists.
  - unfold GetDistrictPrimaryKey. rewrite !(proj2 (Z.leb_le _ _)) by lia. by eexists.
  - unfold GetCustomerPrimaryKey. rewrite !(proj2 (Z.leb_le _ _)) by lia. by eexists.
Qed.
End times.

(** ** Filling the tables *)
Section filling.
Context {S : Type} {J : Indeterminate} {G : GAlloc S} {GH : GHeap S} {R : Random}.
Context (sp : TpccScaleParams) (lock : GlobalAddress → Z → DB S unit) (fuel K : nat) (room0 : Z).
Context (Hsp : scale_ok sp) (Hlock : lock_returns lock) (Hfair : fair K).
Context (Hdraws : num_items_ sp ≤ RAND_MAX ∧ num_customers_per_district_ sp ≤ RAND_MAX).
Context (Hfuel : (length (all_rows sp) ≤ fuel)%nat) (Hroom : (1024 + insert_room) * len (all_rows sp) ≤ room0).
Implicit Types (p : populator S) (past : list tpcc_record).
Abbreviation before := before.
Abbreviation time_of := (time_of sp).
Abbreviation customers := (num_customers_per_district_ sp).
Abbreviation districts := (num_districts_per_warehouse_ sp).

Record structs_wf (x : structs) : Prop := {
  sw_item : record_wf (r_item (item_record x));
  sw_warehouse : record_wf (r_warehouse (warehouse_record x));
  sw_district : record_wf (r_district (district_record x));
  sw_customer : record_wf (r_customer (customer_record x));
  sw_history : record_wf (r_history (history_record x));
  sw_order_line : record_wf (r_order_line (order_line_record x));
  sw_stock : record_wf (r_stock (stock_record x));
}.

Definition in_store (past : list tpcc_record) (ts : list Table * list DbRecord) (s : S) : Prop :=
  ∃ own m h, populated sp past ts.1 ts.2 own m s h.

(** The rows before [t] are in the tables. *)
Record filled_by (t : Z * Z * Z * Z) past p : Prop := {
  fb_store : in_store past (pop_tables p) (pop_store p);
  fb_structs : structs_wf (pop_structs p);
  fb_rows rec : rec ∈ past → valid sp (record_row rec) ∧ fresh sp rec ∧ before (time_of (record_row rec)) t;
  fb_nodup : NoDup (record_row <$> past);
  fb_all r : certain sp r → before (time_of r) t → r ∈ record_row <$> past;
  fb_room : room0 - (1024 + insert_room) * len past ≤ room (pop_store p);
}.
Definition filled (t : Z * Z * Z * Z) p : Prop := ∃ past, filled_by t past p.

(** Nothing is inserted between two times. *)
Lemma filled_jump t t' p : filled t p → (∀ r, valid sp r → before (time_of r) t → before (time_of r) t') →
  (∀ r, certain sp r → before (time_of r) t' → before (time_of r) t) → filled t' p.
Proof.
  intros (past & [F1 F2 F3 F4 F5 F6]) Hup Hdown. exists past. split; try done.
  - intros rec Hrec. destruct (F3 rec Hrec) as (V & Fr & B). split_and!; [done|done|by apply Hup].
  - intros r Hr B. apply F5; [done|by apply Hdown].
Qed.

(** The generator changes only its own state and the structures. *)
Lemma filled_same t p p' : filled t p → pop_tables p' = pop_tables p → pop_store p' = pop_store p → structs_wf (pop_structs p') →
  filled t p'.
Proof. intros (past & [F1 F2 F3 F4 F5 F6]) Et Es Hs. exists past. split; rewrite ?Et, ?Es; done. Qed.

Lemma wp_gen {A} (m : Gen A) t p (Q : A → populator S → Prop) : filled t p →
  wpd m (λ a _, ∀ p', pop_structs p' = pop_structs p → filled t p' → Q a p') (pop_rand p) → wpd (gen m) Q p.
Proof.
  intros F. unfold wpd, gen. destruct (m (pop_rand p)) as [a r|]; [|done]. intros HQ. apply HQ; [done|].
  eapply filled_same; [exact F|done|done|]. cbn. by destruct F as (past & []).
Qed.

(** A row is inserted at its time. *)
Lemma wp_pop_insert t t' p rec (Q : unit → populator S → Prop) : filled t p → valid sp (record_row rec) →
  time_of (record_row rec) = t → fresh sp rec → record_wf rec →
  (∀ r, valid sp r → until (time_of r) t → before (time_of r) t') →
  (∀ r, certain sp r → before (time_of r) t' → until (time_of r) t) →
  (∀ p', filled t' p' → Q () p') → wpd (pop_insert sp lock fuel rec) Q p.
Proof.
  intros (past & [(own & m & h & P) F2 F3 F4 F5 F6]) V Ht Hfr Hwf Hup Hdown HQ.
  destruct (valid_key sp Hsp _ V) as [key Ek]. unfold pop_insert.
  assert (record_row rec ∉ record_row <$> past) as Hnew.
  { intros Hin. apply list_elem_of_fmap in Hin as (rec' & E & Hrec'). destruct (F3 rec' Hrec') as (_ & _ & B).
    rewrite <-E, Ht in B. by apply (before_irrefl _ B). }
  assert (NoDup (record_row <$> past ++ [rec])) as Hnd.
  { rewrite fmap_app. apply NoDup_app. split; [done|]. split; [|apply NoDup_singleton]. by intros r Hr ->%list_elem_of_singleton. }
  assert (length past + 1 ≤ length (all_rows sp))%nat as Hlen.
  { replace (length past + 1)%nat with (length (record_row <$> past ++ [rec])) by (rewrite length_fmap, length_app; cbn; lia).
    apply submseteq_length, NoDup_submseteq; [exact Hnd|]. intros r Hr. apply valid_all; [exact Hsp|].
    apply list_elem_of_fmap in Hr as (rec' & -> & [Hin| ->%list_elem_of_singleton]%elem_of_app); [by destruct (F3 rec' Hin)|done]. }
  assert (0 < insert_room) as Hi by by vm_compute.
  assert (m (Z.to_nat (record_table rec)) key = []) as Enew.
  { destruct (m (Z.to_nat (record_table rec)) key) eqn:Em; [done|]. exfalso.
    destruct (pp_keys _ _ _ _ _ _ _ _ P (Z.to_nat (record_table rec)) key) as (rec' & Hrec' & _ & Ek'); [by rewrite Em|].
    destruct (F3 rec' Hrec') as (V' & _ & _). apply Hnew.
    rewrite (row_key_inj sp _ _ key (valid_range sp Hsp _ V) (valid_range sp Hsp _ V') Ek Ek'). by apply list_elem_of_fmap_2. }
  pose proof (wp_insert_tpcc sp lock fuel past rec (pop_tables p).1 (pop_tables p).2 own m (pop_store p) h key
    (λ ts s, ∃ own' m' h', populated sp (past ++ [rec]) ts.1 ts.2 own' m' s h' ∧ room (pop_store p) - (1024 + insert_room) ≤ room s)
    P Hlock ltac:(lia) Hwf (valid_range sp Hsp _ V) Ek Enew ltac:(nia)) as W.
  unfold wpd in W |- *. destruct (pop_tables p) as [tables bufs] eqn:Ets. cbn [fst snd] in W.
  destruct (insert_tpcc _ _ _ _ _ _) as [ts s|]; [|apply W; by eauto 8].
  destruct W as (own' & m' & h' & P' & Hr'); [by eauto 8|]. apply HQ. exists (past ++ [rec]). split; cbn [pop_tables pop_structs pop_store].
  - by exists own', m', h'.
  - done.
  - intros rec' [Hin| ->%list_elem_of_singleton]%elem_of_app.
    + destruct (F3 rec' Hin) as (V' & Fr' & B). split_and!; [done|done|apply Hup; [done|apply until_iff; by left]].
    + split_and!; [done|done|apply Hup; [done|apply until_iff; by right]].
  - done.
  - intros r Hr B. rewrite fmap_app. apply elem_of_app. destruct (proj1 (until_iff _ _) (Hdown r Hr B)) as [B'|E]; [left; by apply F5|right].
    apply list_elem_of_singleton. apply (time_inj sp Hsp); [apply Hr|done|congruence].
  - rewrite length_app. cbn [length]. lia.
Qed.

(** The two calls that make a row. *)
Lemma wp_populate_row {X} (record : structs → X) {Hset : Setter record} (generate : X → Gen X) (row : X → tpcc_record) r t t' p
    (Q : unit → populator S → Prop) :
  filled t p → valid sp r → time_of r = t →
  (structs_wf (pop_structs p) → ∀ s (Q : X → rand_state → Prop),
     (∀ x s', makes sp r (row x) → structs_wf ((pop_structs p) <| record := x |>) → Q x s') →
     wpd (generate (record (pop_structs p))) Q s) →
  (∀ r, valid sp r → until (time_of r) t → before (time_of r) t') →
  (∀ r, certain sp r → before (time_of r) t' → until (time_of r) t) →
  (∀ p', filled t' p' → Q () p') → wpd (populate_row sp lock fuel record generate row) Q p.
Proof.
  intros F V Ht Hgen Hup Hdown HQ. unfold populate_row.
  change (wpd (x ← gen (generate (record (pop_structs p)));
    (λ p, Done () (mk_populator (pop_rand p) ((pop_structs p) <| record := x |>) (pop_tables p) (pop_store p)));;
    pop_insert sp lock fuel (row x)) Q p).
  wpd_step. eapply wp_gen; [exact F|]. apply Hgen; [by destruct F as (past & [])|]. intros x s' (Er & Hwf & Hfr) Hs p' Es F'.
  wpd_step. eapply (wp_pop_insert t t'); [|by rewrite Er|by rewrite Er|done|done|done|done|done].
  eapply filled_same; [exact F'|done|done|]. cbn. by rewrite Es.
Qed.

(** ** The loops *)
Ltac scale := pose proof (so_warehouses _ Hsp); pose proof (so_items _ Hsp); pose proof (so_districts _ Hsp);
  pose proof (so_customers _ Hsp); pose proof (so_new_orders _ Hsp).
Ltac rows := intros r; unfold certain, valid, of_partition, first_new_order, before, until in *; destruct r; cbn [TpccRows.time_of]; lia.
Ltac is_valid := cbn [valid]; unfold of_partition, first_new_order in *; lia.
(** The structure that was made is well-formed, and so are the others. *)
Lemma makes_wf r rec : makes sp r rec → record_wf rec.
Proof. by intros (_ & ? & _). Qed.
Ltac made := let x := fresh in let s := fresh in let M := fresh in intros x s M;
  match goal with HQ : ∀ _ _, _ → _ → _ |- _ => apply HQ end; [exact M|];
  apply makes_wf in M; match goal with Hw : structs_wf _ |- _ => destruct Hw; split; assumption end.

Lemma tenth n : 0 ≤ n → len ([] : list Z) + Z.of_nat (Z.to_nat (Z.quot n 10)) ≤ n.
Proof.
  intros Hn. rewrite Z.quot_div_nonneg by lia. pose proof (Z.div_le_upper_bound n 10 n ltac:(lia) ltac:(lia)).
  pose proof (Z.div_pos n 10 Hn). cbn [length]. lia.
Qed.

Lemma populate_items_ok p (Q : unit → populator S → Prop) : filled (0, 1, 0, 0) p →
  (∀ p', filled (starting_warehouse_ sp, 0, 0, 0) p' → Q () p') → wpd (populate_items sp lock fuel (2 * K)) Q p.
Proof.
  intros F HQ. scale. unfold populate_items. wpd_step. eapply wp_gen; [exact F|]. unfold SelectUniqueIds.
  apply (wp_select_ids K); [exact Hfair|apply tenth; lia|lia|constructor|constructor|].
  intros ids s' _ _ _ p1 _ F1.
  apply (wpd_for_seqZ _ _ _ (λ i p, filled (0, i, 0, 0) p)); [lia|exact F1| |].
  - intros i p2 Hi F2. cbv zeta. unfold warehouses.
    apply (wpd_for_seqZ _ _ _ (λ w p, filled (0, i, w, 0) p)); [lia| | |].
    + eapply filled_jump; [exact F2|rows..].
    + intros w p3 Hw F3. eapply (wp_populate_row item_record _ _ (item_row i w) _ (0, i, w + 1, 0)); [exact F3|is_valid|done| |rows|rows|].
      * intros Hs s1 Q' HQ'. apply (wp_item_record sp); [exact (sw_item _ Hs)|made].
      * by intros p4 F4.
    + intros p3 F3. eapply filled_jump; [exact F3|rows..].
  - intros p2 F2. apply HQ. eapply filled_jump; [exact F2|rows..].
Qed.

Lemma populate_customers_ok w d p (Q : unit → populator S → Prop) : of_partition sp w → 1 ≤ d ≤ districts →
  filled (w, d, 1, 2) p → (∀ p', filled (w, d, 2, 0) p' → Q () p') → wpd (populate_customers sp lock fuel (2 * K) w d) Q p.
Proof.
  intros Hw Hd F HQ. scale. unfold populate_customers. wpd_step. eapply wp_gen; [exact F|]. unfold SelectUniqueIds.
  apply (wp_select_ids K); [exact Hfair|apply tenth; lia|lia|constructor|constructor|].
  intros ids s' _ _ _ p1 _ F1.
  apply (wpd_for_seqZ _ _ _ (λ c p, filled (w, d, 1, 2 * c) p)); [lia|exact F1| |].
  - intros c p2 Hc F2. cbv zeta. wpd_step.
    eapply (wp_populate_row customer_record _ _ (customer_row c d w) _ (w, d, 1, 2 * c + 1)); [exact F2|is_valid|done| |rows|rows|].
    { intros Hs s1 Q' HQ'. apply (wp_customer sp); [lia|exact (sw_customer _ Hs)|made]. }
    intros p3 F3.
    eapply (wp_populate_row history_record _ _ (history_row c d w) _ (w, d, 1, 2 * (c + 1))); [exact F3|is_valid|done| |rows|rows|].
    { intros Hs s1 Q' HQ'. apply (wp_history sp); [exact (sw_history _ Hs)|made]. }
    by intros p4 F4.
  - intros p2 F2. apply HQ. eapply filled_jump; [exact F2|rows..].
Qed.

Lemma populate_order_ok w d o p (Q : unit → populator S → Prop) : of_partition sp w → 1 ≤ d ≤ districts →
  1 ≤ o ≤ customers → filled (w, d, 3, 32 * o) p → (∀ p', filled (w, d, 3, 32 * (o + 1)) p' → Q () p') →
  wpd (populate_order sp lock fuel w d (first_new_order sp) o) Q p.
Proof.
  intros Hw Hd Ho F HQ. scale. unfold populate_order. wpd_step. eapply wp_gen; [exact F|].
  apply wp_GenerateInteger; [by vm_compute..|]. intros cnt s' Hcnt p1 _ F1. unfold MIN_OL_CNT, MAX_OL_CNT in Hcnt. cbv zeta. wpd_step.
  eapply (wp_populate_row order_record _ _ (order_row o d w) _ (w, d, 3, 32 * o + 1)); [exact F1|is_valid|done| |rows|rows|].
  { intros Hs s1 Q' HQ'. apply (wp_order sp). made. }
  intros p2 F2. wpd_step. apply (wpd_for_seqZ _ _ _ (λ l p, filled (w, d, 3, 32 * o + l) p)); [lia|exact F2| |].
  { intros l p3 Hl F3.
    eapply (wp_populate_row order_line_record _ _ (order_line_row o d w l) _ (w, d, 3, 32 * o + (l + 1))); [exact F3|is_valid|done| |rows|rows|].
    { intros Hs s1 Q' HQ'. apply (wp_order_line sp); [lia|exact (sw_order_line _ Hs)|made]. }
    by intros p4 F4. }
  intros p3 F3.
  assert (filled (w, d, 3, 32 * o + 16) p3) as F4 by (eapply filled_jump; [exact F3|rows..]).
  destruct (Z.leb_spec (first_new_order sp) o).
  - eapply (wp_populate_row new_order_record _ _ (new_order_row o d w) _ (w, d, 3, 32 * (o + 1))); [exact F4|is_valid|done| |rows|rows|exact HQ].
    intros Hs s1 Q' HQ'. unfold GenerateNewOrderRecord. wpd_step. apply HQ'; [by split|]. destruct Hs; split; assumption.
  - wpd_step. apply HQ. eapply filled_jump; [exact F4|rows..].
Qed.

Lemma populate_district_ok w d p (Q : unit → populator S → Prop) : of_partition sp w → 1 ≤ d ≤ districts →
  filled (w, d, 0, 0) p → (∀ p', filled (w, d + 1, 0, 0) p' → Q () p') → wpd (populate_district sp lock fuel (2 * K) w d) Q p.
Proof.
  intros Hw Hd F HQ. scale. unfold populate_district, pop_int. wpd_step. eapply wpd_in_array; [apply int_of_ok; lia|]. wpd_step.
  eapply (wp_populate_row district_record _ _ (district_row d w) _ (w, d, 1, 2)); [exact F|is_valid|done| |rows|rows|].
  { intros Hs s1 Q' HQ'. apply (wp_district sp); [exact (sw_district _ Hs)|made]. }
  intros p1 F1. wpd_step. apply populate_customers_ok; [done..|]. intros p2 F2.
  wpd_step. eapply wpd_in_array; [apply int_of_ok; lia|]. wpd_step. eapply wpd_in_array; [apply int_of_ok; lia|].
  fold (first_new_order sp). wpd_step.
  eapply (wp_populate_row district_new_order_record _ _ (district_new_order_row d w) _ (w, d, 3, 32)); [exact F2|is_valid|done| |rows|rows|].
  { intros Hs s1 Q' HQ'. unfold GenerateDistrictNewOrderRecord. wpd_step. apply HQ'; [by split|]. destruct Hs; split; assumption. }
  intros p3 F3. apply (wpd_for_seqZ _ _ _ (λ o p, filled (w, d, 3, 32 * o) p)); [lia|exact F3| |].
  - intros o p4 Ho F4. apply populate_order_ok; [done|done|lia|exact F4|]. by intros p5 F5.
  - intros p4 F4. apply HQ. eapply filled_jump; [exact F4|rows..].
Qed.

Lemma populate_warehouse_ok w p (Q : unit → populator S → Prop) : of_partition sp w →
  filled (w, 0, 0, 0) p → (∀ p', filled (w + 1, 0, 0, 0) p' → Q () p') → wpd (populate_warehouse sp lock fuel (2 * K) w) Q p.
Proof.
  intros Hw F HQ. scale. unfold populate_warehouse. wpd_step.
  eapply (wp_populate_row warehouse_record _ _ (warehouse_row w) _ (w, 1, 0, 0)); [exact F|done|done| |rows|rows|].
  { intros Hs s1 Q' HQ'. apply (wp_warehouse sp); [exact (sw_warehouse _ Hs)|made]. }
  intros p1 F1. wpd_step. apply (wpd_for_seqZ _ _ _ (λ d p, filled (w, d, 0, 0) p)); [lia|exact F1| |].
  { intros d p2 Hd F2. apply populate_district_ok; [done|lia|exact F2|]. by intros p3 F3. }
  intros p2 F2. unfold populate_stocks. wpd_step. eapply wp_gen; [exact F2|]. unfold SelectUniqueIds.
  apply (wp_select_ids K); [exact Hfair|apply tenth; lia|lia|constructor|constructor|].
  intros ids s' _ _ _ p3 _ F3.
  apply (wpd_for_seqZ _ _ _ (λ i p, filled (w, districts + 1, 0, i) p)); [lia| | |].
  - eapply filled_jump; [exact F3|rows..].
  - intros i p4 Hi F4.
    eapply (wp_populate_row stock_record _ _ (stock_row i w) _ (w, districts + 1, 0, i + 1)); [exact F4|is_valid|done| |rows|rows|].
    { intros Hs s1 Q' HQ'. apply (wp_stock_record sp); [exact (sw_stock _ Hs)|made]. }
    by intros p5 F5.
  - intros p4 F4. apply HQ. eapply filled_jump; [exact F4|rows..].
Qed.

Lemma StartPopulate_ok p (Q : unit → populator S → Prop) : filled (0, 1, 0, 0) p →
  (∀ p', filled (ending_warehouse_ sp + 1, 0, 0, 0) p' → Q () p') → wpd (StartPopulate sp lock fuel (2 * K)) Q p.
Proof.
  intros F HQ. scale. unfold StartPopulate. wpd_step. apply populate_items_ok; [exact F|]. intros p1 F1.
  apply (wpd_for_seqZ _ _ _ (λ w p, filled (w, 0, 0, 0) p)); [lia|exact F1| |].
  - intros w p2 Hw F2. apply populate_warehouse_ok; [unfold of_partition; lia|exact F2|]. by intros p3 F3.
  - intros p2 F2. apply HQ. replace (ending_warehouse_ sp + 1) with (starting_warehouse_ sp + (ending_warehouse_ sp - starting_warehouse_ sp + 1)) by lia.
    exact F2.
Qed.
End filling.

Lemma wp_StartPopulate {S} {J : Indeterminate} {G : GAlloc S} {GH : GHeap S} {R : Random} sp lock fuel K tables own r0 (s : S) h :
  scale_ok sp → lock_returns lock → fair K → num_items_ sp ≤ RAND_MAX ∧ num_customers_per_district_ sp ≤ RAND_MAX →
  (length (all_rows sp) ≤ fuel)%nat → (1024 + insert_room) * len (all_rows sp) ≤ room s →
  heap_ok s h → tpcc_tables tables → tables_rep 0 h tables own (λ _ _, []) →
  wpd (StartPopulate sp lock fuel (2 * K)) (λ _ p, ∃ rows own' m h', let tables' := (pop_tables p).1 in
    heap_ok (pop_store p) h' ∧ tpcc_tables tables' ∧ db_ok tables' fuel (length rows) own' m h' ∧
    NoDup (record_row <$> rows) ∧ (∀ r, certain sp r → r ∈ record_row <$> rows) ∧
    (∀ rec, rec ∈ rows → valid sp (record_row rec) ∧ fresh sp rec ∧ finds sp tables' m h' rec) ∧
    room s - (1024 + insert_room) * len rows ≤ room (pop_store p) ∧ (length rows ≤ length (all_rows sp))%nat)
  (mk_populator r0 new_structs (tables, new_bufs tables) s).
Proof.
  intros Hsp Hlock HF HR Hfuel Hroom Hok HT Rep.
  apply (StartPopulate_ok sp lock fuel K (room s) Hsp Hlock HF HR Hfuel Hroom).
  - exists []. split; cbn [pop_tables pop_structs pop_store length fst snd].
    + exists own, (λ _ _, []), h. by apply populated_nil.
    + split; try (repeat split; reflexivity). split; [done|]. split; [|done]. by repeat constructor.
    + by intros rec ?%elem_of_nil.
    + constructor.
    + intros r [V C] B. destruct Hsp. unfold valid, of_partition, before in *. destruct r; cbn [time_of] in B; lia.
    + lia.
  - intros p (rows & [(own' & m & h' & P) F2 F3 F4 F5 F6]). exists rows, own', m, h'. cbv zeta.
    assert (length rows ≤ length (all_rows sp))%nat as Hl.
    { rewrite <-(length_fmap record_row rows). apply submseteq_length, NoDup_submseteq; [exact F4|].
      intros r Hr. apply list_elem_of_fmap in Hr as (rec & -> & Hrec). apply valid_all; [exact Hsp|by apply F3]. }
    split; [apply P|]. split; [apply P|]. split; [eapply populated_db; [exact P|lia]|]. split; [done|]. split; [|split; [|by split]].
    + intros r Hr. apply F5; [done|]. destruct Hsp, Hr as [V C]. unfold valid, of_partition, before in *. destruct r; cbn [time_of]; lia.
    + intros rec Hrec. destruct (F3 rec Hrec) as (V & Fr & _). split; [done|]. split; [done|]. by eapply populated_finds.
Qed.

(** C11: The populator fills the benchmark, within the bounds of the keys: for a partition
    whose warehouses end below 64 (and at [num_warehouses_]), with 1 to [2 ^ 30] items, 1 to
    [2 ^ 22] districts for each warehouse, fewer than [2 ^ 28 - 1] customers for each
    district and no more new orders than customers ([scale_ok]), neither items nor
    customers above [RAND_MAX]; on the empty tables, with a bucket lock that always
    returns, random numbers in which every pair of numbers comes up within [K] pairs of
    draws, and memory for all rows: [StartPopulate] returns; the database is well-formed, no two rows that were inserted are
    the same, and every item, stock, warehouse, district, customer, history, order and new
    order of the partition is among them; through the key of each row a transaction finds a
    visible record whose columns hold what the structure held. *)
Theorem populate_complete {S} {J : Indeterminate} {G : GAlloc S} {GH : GHeap S} {R : Random} sp lock fuel K tables own r0 (s : S) h :
  scale_ok sp → lock_returns lock → fair K → num_items_ sp ≤ RAND_MAX ∧ num_customers_per_district_ sp ≤ RAND_MAX →
  (length (all_rows sp) ≤ fuel)%nat → (1024 + insert_room) * len (all_rows sp) ≤ room s →
  heap_ok s h → tpcc_tables tables → tables_rep 0 h tables own (λ _ _, []) →
  wpd (StartPopulate sp lock fuel (2 * K)) (λ _ p, ∃ rows own' m h', let tables' := (pop_tables p).1 in
    heap_ok (pop_store p) h' ∧ tpcc_tables tables' ∧ db_ok tables' fuel (length rows) own' m h' ∧
    NoDup (record_row <$> rows) ∧ (∀ r, certain sp r → r ∈ record_row <$> rows) ∧
    (∀ rec, rec ∈ rows → valid sp (record_row rec) ∧ fresh sp rec ∧ finds sp tables' m h' rec) ∧
    room s - (1024 + insert_room) * len rows ≤ room (pop_store p) ∧ (length rows ≤ length (all_rows sp))%nat)
  (mk_populator r0 new_structs (tables, new_bufs tables) s).
Proof. apply wp_StartPopulate. Qed.

Lemma ex_scale : scale_ok ex_sp.
Proof. split; cbn; lia. Qed.

Lemma populate_complete_witness : ∃ (s : DbFlat.flat) tables own h, heap_ok s h ∧ tpcc_tables tables ∧
  tables_rep 0 h tables own (λ _ _, []) ∧
  wpd (StartPopulate (R := ex_random) ex_sp free_lock 1000 (2 * ex_K)) (λ _ p, ∃ rows own' m h', let tables' := (pop_tables p).1 in
    heap_ok (pop_store p) h' ∧ tpcc_tables tables' ∧ db_ok tables' 1000 (length rows) own' m h' ∧
    NoDup (record_row <$> rows) ∧ (∀ r, certain ex_sp r → r ∈ record_row <$> rows) ∧
    (∀ rec, rec ∈ rows → valid ex_sp (record_row rec) ∧ fresh ex_sp rec ∧ finds ex_sp tables' m h' rec) ∧
    room s - (1024 + insert_room) * len rows ≤ room (pop_store p) ∧ (length rows ≤ length (all_rows ex_sp))%nat)
  (mk_populator (mk_rand_state 0 0) new_structs (tables, new_bufs tables) s).
Proof.
  destruct ex_tables as (s & tables & own & h & Hok & HT & Rep & Hr). exists s, tables, own, h.
  split; [exact Hok|]. split; [exact HT|]. split; [exact Rep|].
  apply (populate_complete (R := ex_random) ex_sp free_lock 1000 ex_K tables own (mk_rand_state 0 0) s h).
  - exact ex_scale.
  - exact free_lock_returns.
  - exact ex_fair.
  - split; cbn; lia.
  - apply Nat.leb_le. vm_compute. reflexivity.
  - etransitivity; [|exact Hr]. apply Z.leb_le. vm_compute. reflexivity.
  - exact Hok.
  - exact HT.
  - exact Rep.
Defined.
