(* ===== verification/TpccSource.v ===== *)
(** * TpccSource: [TpccSource.h], the parameters of the transactions

    The source draws the parameters of [num_txn_] transactions and deals them to the threads
    in batches.  In the partitioned source the transactions of a batch have their home
    warehouse in the share of the thread that will run the batch. *)
From S2P Require Import Prelude GlobalMem DbStore DbFlat DbDsm DbArray DbIndex DbSchema DbTable DbTxn DbSerial TpccBase TpccSchemas TpccProcs TpccBatch TpccRandom TpccRows.
From stdpp Require Import base numbers option list list_numbers.
From Stdlib Require Import SpecFloat.
Open Scope Z_scope.

(** ** The source and what it is told *)
Record source := mk_source {
  src_rand : rand_state;
  new_order_access_items_ : list (Z * Z);
  last_payment_param_ : PaymentParam;
  total_read_access_count_ : Z;
  total_write_access_count_ : Z;
  redirector_ptr_ : IORedirector (ParamBatch TxnParam);
}.
#[export] Instance eta_source : Eta source := fun x =>
  mk_source (src_rand x) (new_order_access_items_ x) (last_payment_param_ x) (total_read_access_count_ x)
    (total_write_access_count_ x) (redirector_ptr_ x).

Record settings := mk_settings {
  num_txn_ : Z;
  dist_ratio_ : Z;
  src_thread_count_ : Z;
  node_id_ : Z;
  gParamBatchSize : Z;
  gReadRatio : Z;
  gTimeLocality : Z;
  gForceRandomAccess : bool;
  gStandard : bool;
}.

(** The constructor; [direct_warehouse_id_], [is_first_] and [total_insert_access_count_] are not used. *)
Definition new_TpccSource {J : Indeterminate} (rand : rand_state) (redirector : IORedirector (ParamBatch TxnParam)) : source :=
  let int_ := bytes_int (replicate 4 junk) in
  let size_ := le_word 8 (replicate 8 junk) in
  mk_source rand [] (mk_PaymentParam (-1) int_ (bytes_double (replicate 8 junk)) int_ int_ int_ (wrap 64 (le_word 8 (replicate 8 junk) + 2 ^ 63) - 2 ^ 63)
    size_ size_ size_ size_) 0 0 redirector.

Section source.
Context {J : Indeterminate} {R : Random} (sp : TpccScaleParams) (consts : constants) (conf : settings) (draw_fuel : nat).
(** The order in which [unordered_map] gives its entries. *)
Context (iteration : list (Z * Z) → list (Z * Z)).
Abbreviation Src := (DB source).
Abbreviation W := (num_warehouses_ sp).
Abbreviation customers := (num_customers_per_district_ sp).
Abbreviation districts := (num_districts_per_warehouse_ sp).
Abbreviation num_items := (num_items_ sp).

(** A computation of the generator; the state. *)
Definition draw {A} (m : Gen A) : Src A := λ x,
  match m (src_rand x) with
  | Done a r => Done a (x <| src_rand := r |>)
  | Raise e r => Raise e (x <| src_rand := r |>)
  end.
Definition get_source : Src source := λ x, Done x x.
Definition change (f : source → source) : Src unit := λ x, Done () (f x).

(** [GenerateInteger(1, 100) <= limit] *)
Definition percent (limit : Z) : Gen bool := x ← GenerateInteger 1 100; mret (x <=? limit).

(** ** Access types *)
Definition ProfileReadWriteAccess (type : Z) : Src unit := change (λ x,
  if type =? READ_ONLY then x <| total_read_access_count_ := wrap 64 (total_read_access_count_ x + 1) |>
  else x <| total_write_access_count_ := wrap 64 (total_write_access_count_ x + 1) |>).
Definition random_access : Gen Z := b ← percent (gReadRatio conf); mret (if b : bool then READ_ONLY else READ_WRITE).

(** The first [n] entries of an array of 15 that is not initialised. *)
Definition uninitialised_int : Z := bytes_int (replicate 4 junk).
Definition uninitialised_size : Z := le_word 8 (replicate 8 junk).
Definition first_entries (n v : Z) : list Z := replicate (Z.to_nat n) v ++ replicate (15 - Z.to_nat n) uninitialised_size.
(** The first [n] entries are drawn. *)
Fixpoint random_accesses (idxs : list Z) (types : list Z) : Gen (list Z) :=
  match idxs with
  | [] => mret types
  | i :: idxs => ty ← random_access; types ← in_array (arr_set types i ty); random_accesses idxs types
  end.

(** ** [GenerateDeliveryParam], [GenerateOrderStatusParam], [GenerateStockLevelParam] *)
Definition home_warehouse (w_id : Z) : Gen Z := if w_id =? -1 then GenerateWarehouseId 1 W else mret w_id.

Definition GenerateDeliveryParam (w_id : Z) : Gen TxnParam :=
  w_id ← home_warehouse w_id;
  o_carrier_id ← GenerateInteger MIN_CARRIER_ID MAX_CARRIER_ID;
  ol_delivery_d ← GenerateCurrentTime;
  mret (delivery_param (mk_DeliveryParam w_id o_carrier_id ol_delivery_d)).

(** [y = 100], so that the customer is always drawn by number. *)
Definition GenerateOrderStatusParam (w_id : Z) : Gen TxnParam :=
  y ← GenerateInteger 1 100;
  w_id ← home_warehouse w_id;
  d_id ← GenerateDistrictId districts;
  c_id ← GenerateCustomerId consts customers;
  mret (order_status_param (mk_OrderStatusParam w_id d_id c_id)).

Definition GenerateStockLevelParam (w_id : Z) : Gen TxnParam :=
  w_id ← home_warehouse w_id;
  d_id ← GenerateDistrictId districts;
  mret (stock_level_param (mk_StockLevelParam w_id d_id)).

(** ** [GenerateNewOrderParam]

    The lines: items, supplying warehouses and quantities; [exist_items] is the list of the
    items chosen so far. No order is rolled back. *)
Record lines := mk_lines { l_ids : list Z; l_w_ids : list Z; l_qtys : list Z }.
Definition choose_line (w_id i : Z) (exist_items : list Z) (l : lines) : Gen (list Z * lines) :=
  item_id ← draw_until draw_fuel (GenerateItemId consts num_items) (λ item_id, bool_decide (item_id ∉ exist_items));
  i_ids ← in_array (arr_set (l_ids l) i item_id);
  remote ← percent (to_int (wrap 32 (dist_ratio_ conf)));
  supply ← (if (1 <? W) && remote then GenerateIntegerExcluding 1 W w_id else mret w_id);
  i_w_ids ← in_array (arr_set (l_w_ids l) i supply);
  quantity ← GenerateInteger 1 MAX_OL_QUANTITY;
  i_qtys ← in_array (arr_set (l_qtys l) i quantity);
  mret (exist_items ++ [item_id], mk_lines i_ids i_w_ids i_qtys).
Fixpoint choose_lines (w_id : Z) (idxs : list Z) (exist_items : list Z) (l : lines) : Gen lines :=
  match idxs with
  | [] => mret l
  | i :: idxs => r ← choose_line w_id i exist_items l; choose_lines w_id idxs r.1 r.2
  end.

Definition generate_order (w_id : Z) : Gen NewOrderParam :=
  w_id ← home_warehouse w_id;
  d_id ← GenerateDistrictId districts;
  c_id ← GenerateCustomerId consts customers;
  ol_cnt ← GenerateInteger MIN_OL_CNT MAX_OL_CNT;
  o_entry_d ← GenerateCurrentTime;
  let fresh := replicate 15 uninitialised_int in
  l ← choose_lines w_id (seqZ 0 ol_cnt) [] (mk_lines fresh fresh fresh);
  mret (mk_NewOrderParam w_id d_id c_id o_entry_d ol_cnt (l_ids l) (l_w_ids l) (l_qtys l)
    (first_entries ol_cnt READ_ONLY) (first_entries ol_cnt READ_WRITE) READ_ONLY READ_WRITE READ_ONLY
    INSERT_ONLY INSERT_ONLY (first_entries ol_cnt INSERT_ONLY)).

(** *** [ModifyNewOrder]: locality in time, uniform items, a share of reads *)
Definition with_line (i : Z) (item w_id : Z) (p : NewOrderParam) : option NewOrderParam :=
  ids ← arr_set (i_ids_ p) i item; w_ids ← arr_set (i_w_ids_ p) i w_id;
  Some (mk_NewOrderParam (no_w_id_ p) (no_d_id_ p) (no_c_id_ p) (no_o_entry_d_ p) (ol_cnt_ p) ids w_ids (i_qtys_ p)
    (item_access_type_ p) (stock_access_type_ p) (no_warehouse_access_type_ p) (no_district_access_type_ p)
    (no_customer_access_type_ p) (new_order_access_type_ p) (order_access_type_ p) (order_line_access_type_ p)).
Definition with_customer (c_id : Z) (p : NewOrderParam) : NewOrderParam :=
  mk_NewOrderParam (no_w_id_ p) (no_d_id_ p) c_id (no_o_entry_d_ p) (ol_cnt_ p) (i_ids_ p) (i_w_ids_ p) (i_qtys_ p)
    (item_access_type_ p) (stock_access_type_ p) (no_warehouse_access_type_ p) (no_district_access_type_ p)
    (no_customer_access_type_ p) (new_order_access_type_ p) (order_access_type_ p) (order_line_access_type_ p).
Definition with_accesses (stock : list Z) (district new_order order : Z) (order_lines : list Z) (p : NewOrderParam) : NewOrderParam :=
  mk_NewOrderParam (no_w_id_ p) (no_d_id_ p) (no_c_id_ p) (no_o_entry_d_ p) (ol_cnt_ p) (i_ids_ p) (i_w_ids_ p) (i_qtys_ p)
    (item_access_type_ p) stock (no_warehouse_access_type_ p) district (no_customer_access_type_ p) new_order order order_lines.

Abbreviation known item chosen := (bool_decide (item ∈ (chosen : list (Z * Z)).*1)).

(** One line: an item of the last order, or the one that was drawn, until it is new. *)
Definition modify_line (i : Z) (st : NewOrderParam * list (Z * Z) * Z) (accessed : list (Z * Z)) : Gen (NewOrderParam * list (Z * Z) * Z) :=
  let '(p, chosen, use_last_txn_count) := st in
  use_last_txn ← percent (to_int (wrap 32 (gTimeLocality conf)));
  '(p, use_last_txn_count) ←
    (if use_last_txn && (use_last_txn_count <? len accessed) then
       entry ← draw_until draw_fuel
         (idx ← GenerateInteger 1 (len accessed); in_array (arr_get accessed (idx - 1))) (λ entry, negb (known entry.1 chosen));
       p ← in_array (with_line i entry.1 entry.2 p);
       mret (p, use_last_txn_count + 1)
     else
       p ← (if gForceRandomAccess conf then
              item_id ← draw_until draw_fuel (GenerateItemIdUniform num_items) (λ item_id, negb (known item_id chosen));
              w ← in_array (arr_get (i_w_ids_ p) i); in_array (with_line i item_id w p)
            else mret p);
       item ← in_array (arr_get (i_ids_ p) i);
       mret (p, if bool_decide (item ∈ accessed.*1) then use_last_txn_count + 1 else use_last_txn_count));
  item ← in_array (arr_get (i_ids_ p) i);
  w ← in_array (arr_get (i_w_ids_ p) i);
  item ← (if known item chosen then
            draw_until draw_fuel (GenerateItemId consts num_items) (λ item_id, negb (known item_id chosen)) else mret item);
  p ← in_array (with_line i item w p);
  mret (p, chosen ++ [(item, w)], use_last_txn_count).
Fixpoint modify_lines (idxs : list Z) (st : NewOrderParam * list (Z * Z) * Z) (accessed : list (Z * Z)) :
    Gen (NewOrderParam * list (Z * Z) * Z) :=
  match idxs with [] => mret st | i :: idxs => st ← modify_line i st accessed; modify_lines idxs st accessed end.

Definition ModifyNewOrder (p : NewOrderParam) : Src NewOrderParam :=
  p ← (if gForceRandomAccess conf then c_id ← draw (GenerateCustomerIdUniform customers); mret (with_customer c_id p) else mret p);
  x ← get_source;
  let lines := seqZ 0 (ol_cnt_ p) in
  '(p, exist_items, _) ← draw (modify_lines lines (p, [], 0) (new_order_access_items_ x));
  assert_ (bool_decide (NoDup (zip (take (Z.to_nat (ol_cnt_ p)) (i_ids_ p)) (take (Z.to_nat (ol_cnt_ p)) (i_w_ids_ p)))));;
  change (λ x, x <| new_order_access_items_ := iteration exist_items |>);;
  stock ← draw (random_accesses lines (stock_access_type_ p));
  district ← draw random_access;
  new_order ← draw random_access;
  order ← draw random_access;
  order_lines ← draw (random_accesses lines (order_line_access_type_ p));
  mret (with_accesses stock district new_order order order_lines p).

(** *** The statistics on the accesses *)
Definition profile_at (types : list Z) (i : Z) : Src unit := ty ← in_array (arr_get types i); ProfileReadWriteAccess ty.
Definition GenerateNewOrderParam (w_id : Z) : Src TxnParam :=
  p ← draw (generate_order w_id);
  p ← (if gStandard conf then mret p else ModifyNewOrder p);
  for_each (seqZ 0 (ol_cnt_ p)) (λ i, profile_at (item_access_type_ p) i;; profile_at (stock_access_type_ p) i);;
  ProfileReadWriteAccess (no_warehouse_access_type_ p);;
  ProfileReadWriteAccess (no_district_access_type_ p);;
  ProfileReadWriteAccess (no_customer_access_type_ p);;
  ProfileReadWriteAccess (new_order_access_type_ p);;
  ProfileReadWriteAccess (order_access_type_ p);;
  for_each (seqZ 0 (ol_cnt_ p)) (profile_at (order_line_access_type_ p));;
  mret (new_order_param p).

(** ** [GeneratePaymentParam] *)
Definition generate_payment (w_id : Z) : Gen PaymentParam :=
  x ← GenerateInteger 1 100;
  y ← GenerateInteger 1 100;
  w_id ← home_warehouse w_id;
  d_id ← GenerateDistrictId districts;
  h_amount ← GenerateFixedPoint 2 MIN_PAYMENT MAX_PAYMENT;
  h_date ← GenerateCurrentTime;
  remote ← percent (to_int (wrap 32 (dist_ratio_ conf)));
  '(c_w_id, c_d_id) ← (if (W =? 1) || negb remote then mret (w_id, d_id)
    else c_w_id ← GenerateIntegerExcluding 1 W w_id; c_d_id ← GenerateDistrictId districts; mret (c_w_id, c_d_id));
  c_id ← GenerateCustomerId consts customers;
  mret (mk_PaymentParam w_id d_id h_amount c_w_id c_d_id c_id h_date READ_WRITE READ_WRITE READ_WRITE INSERT_ONLY).

Definition with_pay_customer (c_id : Z) (p : PaymentParam) : PaymentParam :=
  mk_PaymentParam (pay_w_id_ p) (pay_d_id_ p) (h_amount_ p) (pay_c_w_id_ p) (pay_c_d_id_ p) c_id (h_date_ p)
    (pay_warehouse_access_type_ p) (pay_district_access_type_ p) (pay_customer_access_type_ p) (history_access_type_ p).
Definition with_pay_accesses (w d c h : Z) (p : PaymentParam) : PaymentParam :=
  mk_PaymentParam (pay_w_id_ p) (pay_d_id_ p) (h_amount_ p) (pay_c_w_id_ p) (pay_c_d_id_ p) (pay_c_id_ p) (h_date_ p) w d c h.

(** With locality in time the new payment is copied over the last one, not the other way. *)
Definition ModifyPayment (p : PaymentParam) : Src PaymentParam :=
  x ← get_source;
  p ← (if 0 <=? pay_w_id_ (last_payment_param_ x) then
         use_last_txn ← draw (percent (to_int (wrap 32 (gTimeLocality conf))));
         if use_last_txn : bool then change (λ x, x <| last_payment_param_ := p |>);; mret p
         else if gForceRandomAccess conf then
           c_id ← draw (GenerateCustomerIdUniform customers); mret (with_pay_customer c_id p)
         else mret p
       else mret p);
  change (λ x, x <| last_payment_param_ := p |>);;
  w ← draw random_access; d ← draw random_access; c ← draw random_access; h ← draw random_access;
  mret (with_pay_accesses w d c h p).

Definition GeneratePaymentParam (w_id : Z) : Src TxnParam :=
  p ← draw (generate_payment w_id);
  p ← (if gStandard conf then mret p else ModifyPayment p);
  ProfileReadWriteAccess (pay_warehouse_access_type_ p);;
  ProfileReadWriteAccess (pay_district_access_type_ p);;
  ProfileReadWriteAccess (pay_customer_access_type_ p);;
  ProfileReadWriteAccess (history_access_type_ p);;
  mret (payment_param p).

(** ** [StartGeneration] *)
Definition frequencies : list double :=
  d_of_Z <$> [FREQUENCY_DELIVERY; FREQUENCY_PAYMENT; FREQUENCY_NEW_ORDER; FREQUENCY_ORDER_STATUS; FREQUENCY_STOCK_LEVEL].
Definition frequency_total : double := foldl d_add (d_of_Z 0) frequencies.
Definition percentages : list double :=
  (λ f, d_mul (d_div (d_mul f (d_of_Z 1)) frequency_total) (d_of_Z 100)) <$> frequencies.
(** [frequency_weights[i] += frequency_weights[i - 1]] *)
Fixpoint running_sums (sum : double) (l : list double) : list double :=
  match l with [] => [] | f :: l => let sum := d_add f sum in sum :: running_sums sum l end.
Definition frequency_weights : list double :=
  match percentages with f :: l => f :: running_sums f l | [] => [] end.
Definition at_most (x : Z) (i : nat) : bool := SFleb (d_of_Z x) (nth i frequency_weights (d_of_Z 0)).

Definition GenerateParam (w_id : Z) : Src TxnParam :=
  x ← draw (GenerateInteger 1 100);
  if at_most x 0 then draw (GenerateDeliveryParam w_id)
  else if at_most x 1 then GeneratePaymentParam w_id
  else if at_most x 2 then GenerateNewOrderParam w_id
  else if at_most x 3 then draw (GenerateOrderStatusParam w_id)
  else draw (GenerateStockLevelParam w_id).

(** A parameter is added to the batch; a full batch is pushed and the next thread has its turn. *)
Definition push_param (param : TxnParam) (tuples : ParamBatch TxnParam) : Src (ParamBatch TxnParam) :=
  match push_back param tuples with Some tuples => mret tuples | None => raise assertion_failed end.
Definition push_batch (tuples : ParamBatch TxnParam) : Src unit :=
  x ← get_source;
  r ← in_array (PushParameterBatch tuples (redirector_ptr_ x));
  change (λ x, x <| redirector_ptr_ := r |>).
Definition batch_turn (i : Z) (tuples : ParamBatch TxnParam) (thread_id : Z) : Src (ParamBatch TxnParam * Z) :=
  if gParamBatchSize conf =? 0 then raise undefined else
  if (i + 1) mod gParamBatchSize conf =? 0 then
    push_batch tuples;;
    mret (new_ParamBatch (gParamBatchSize conf), (thread_id + 1) mod src_thread_count_ conf)
  else mret (tuples, thread_id).

(** The home warehouse of a transaction for a thread. *)
Abbreviation node_num_warehouse := (ending_warehouse_ sp - starting_warehouse_ sp + 1).
Definition choose_warehouse (thread_id : Z) : Gen Z :=
  if src_thread_count_ conf =? 0 then raise undefined else
  if src_thread_count_ conf <=? node_num_warehouse then
    draw_until draw_fuel (GenerateWarehouseId (starting_warehouse_ sp) (ending_warehouse_ sp))
      (λ warehouse_id, (warehouse_id - 1) mod src_thread_count_ conf =? thread_id)
  else mret (starting_warehouse_ sp + thread_id mod node_num_warehouse).

Fixpoint generate_partitioned (idxs : list Z) (tuples : ParamBatch TxnParam) (thread_id : Z) : Src (ParamBatch TxnParam) :=
  match idxs with
  | [] => mret tuples
  | i :: idxs =>
      warehouse_id ← draw (choose_warehouse thread_id);
      param ← GenerateParam warehouse_id;
      tuples ← push_param param tuples;
      '(tuples, thread_id) ← batch_turn i tuples thread_id;
      generate_partitioned idxs tuples thread_id
  end.
Fixpoint generate_random (idxs : list Z) (tuples : ParamBatch TxnParam) : Src (ParamBatch TxnParam) :=
  match idxs with
  | [] => mret tuples
  | i :: idxs =>
      param ← GenerateParam (-1);
      tuples ← push_param param tuples;
      '(tuples, _) ← batch_turn i tuples 0;
      generate_random idxs tuples
  end.

Inductive SourceType := RANDOM_SOURCE | PARTITION_SOURCE.
Definition StartGeneration (source_type : SourceType) : Src unit :=
  now ← draw GenerateCurrentTime;
  draw (srand (node_id_ conf * now));;
  let tuples := new_ParamBatch (gParamBatchSize conf) in
  tuples ← match source_type with
           | RANDOM_SOURCE => generate_random (seqZ 0 (num_txn_ conf)) tuples
           | PARTITION_SOURCE => generate_partitioned (seqZ 0 (num_txn_ conf)) tuples 0
           end;
  if TpccBatch.size tuples =? 0 then mret () else push_batch tuples.
End source.

(** ** What the source generates *)
Section generated.
Context {J : Indeterminate} {R : Random} (sp : TpccScaleParams) (consts : constants) (conf : settings) (K : nat).
Context (iteration : list (Z * Z) → list (Z * Z)).
Abbreviation customers := (num_customers_per_district_ sp).
Abbreviation districts := (num_districts_per_warehouse_ sp).

(** A scale, and the constants of the run, from which every transaction can be drawn. *)
Record source_ok : Prop := {
  sc_fair : fair K;
  sc_constants : constants_ok consts;
  sc_warehouses : 1 ≤ starting_warehouse_ sp ≤ ending_warehouse_ sp ∧ ending_warehouse_ sp ≤ num_warehouses_ sp;
  sc_warehouse_range : num_warehouses_ sp < 2 ^ 15;
  sc_items : 15 ≤ num_items_ sp ∧ num_items_ sp < 2 ^ 30 ∧ num_items_ sp ≤ RAND_MAX;
  sc_customers : 1 ≤ customers < 2 ^ 30;
  sc_districts : 1 ≤ districts < 2 ^ 30;
}.
Context (Hok : source_ok).

Definition warehouse_id (w : Z) : Prop := 1 ≤ w ≤ num_warehouses_ sp.

(** A new order whose home is [w]: 5 to 15 lines of different items. *)
Record order_param_ok (w : Z) (p : NewOrderParam) : Prop := {
  op_home : no_w_id_ p = w;
  op_district_id : 1 ≤ no_d_id_ p ≤ districts;
  op_customer_id : 1 ≤ no_c_id_ p ≤ customers;
  op_count : 5 ≤ ol_cnt_ p ≤ 15;
  op_items : NoDup (take (Z.to_nat (ol_cnt_ p)) (i_ids_ p)) ∧
    Forall (λ i, 1 ≤ i ≤ num_items_ sp) (take (Z.to_nat (ol_cnt_ p)) (i_ids_ p));
  op_supplies : Forall warehouse_id (take (Z.to_nat (ol_cnt_ p)) (i_w_ids_ p));
  op_quantities : Forall (λ q, 1 ≤ q ≤ 10) (take (Z.to_nat (ol_cnt_ p)) (i_qtys_ p));
  op_lengths : length (i_ids_ p) = 15%nat ∧ length (i_w_ids_ p) = 15%nat ∧ length (i_qtys_ p) = 15%nat;
  op_accesses : item_access_type_ p = first_entries (ol_cnt_ p) READ_ONLY ∧
    stock_access_type_ p = first_entries (ol_cnt_ p) READ_WRITE ∧ no_warehouse_access_type_ p = READ_ONLY ∧
    no_district_access_type_ p = READ_WRITE ∧ no_customer_access_type_ p = READ_ONLY ∧ new_order_access_type_ p = INSERT_ONLY ∧
    order_access_type_ p = INSERT_ONLY ∧ order_line_access_type_ p = first_entries (ol_cnt_ p) INSERT_ONLY;
}.

(** A payment in [w], of a customer of any warehouse. *)
Record payment_param_ok (w : Z) (p : PaymentParam) : Prop := {
  pp_home : pay_w_id_ p = w;
  pp_district_id : 1 ≤ pay_d_id_ p ≤ districts;
  pp_customer : warehouse_id (pay_c_w_id_ p) ∧ 1 ≤ pay_c_d_id_ p ≤ districts ∧ 1 ≤ pay_c_id_ p ≤ customers;
  pp_local : pay_c_w_id_ p = w → num_warehouses_ sp = 1 ∨ pay_c_d_id_ p = pay_d_id_ p;
  pp_accesses : pay_warehouse_access_type_ p = READ_WRITE ∧ pay_district_access_type_ p = READ_WRITE ∧
    pay_customer_access_type_ p = READ_WRITE ∧ history_access_type_ p = INSERT_ONLY;
}.

Definition param_ok (w : Z) (p : TxnParam) : Prop :=
  match p with new_order_param p => order_param_ok w p | payment_param p => payment_param_ok w p | _ => False end.

(** *** The lines of an order *)
Record lines_ok (chosen : list Z) (l : lines) : Prop := {
  lo_lengths : length (l_ids l) = 15%nat ∧ length (l_w_ids l) = 15%nat ∧ length (l_qtys l) = 15%nat;
  lo_items : take (length chosen) (l_ids l) = chosen;
  lo_new : NoDup chosen;
  lo_range : Forall (λ i, 1 ≤ i ≤ num_items_ sp) chosen;
  lo_supplies : Forall warehouse_id (take (length chosen) (l_w_ids l));
  lo_quantities : Forall (λ q, 1 ≤ q ≤ 10) (take (length chosen) (l_qtys l));
}.

(** Entry [n] of an array of 15 is set, after the first [n]. *)
Lemma wp_set_next {T} (P : T → Prop) (l : list T) i x n (Q : list T → rand_state → Prop) s :
  length l = 15%nat → i = Z.of_nat n → (n < 15)%nat → Forall P (take n l) → P x →
  (∀ l', length l' = 15%nat → take (S n) l' = take n l ++ [x] → Forall P (take (S n) l') → Q l' s) →
  wpd (in_array (arr_set l i x)) Q s.
Proof.
  intros Hl -> Hn HF HP HQ.
  assert (arr_set l (Z.of_nat n) x = Some (<[n := x]> l)) as E.
  { unfold arr_set. rewrite (proj2 (Z.leb_le _ _)), (proj2 (Z.ltb_lt _ _)), Nat2Z.id by lia. done. }
  eapply wpd_in_array; [exact E|].
  assert (take (S n) (<[n := x]> l) = take n l ++ [x]) as Et.
  { rewrite (take_S_r _ _ x) by (apply list_lookup_insert_eq; lia). by rewrite take_insert_ge by lia. }
  apply HQ; [by rewrite length_insert|done|]. rewrite Et. apply Forall_app_2; [done|by apply Forall_singleton].
Qed.

Lemma wp_percent limit s (Q : bool → rand_state → Prop) : (∀ b s', Q b s') → wpd (percent limit) Q s.
Proof. intros HQ. unfold percent. wpd_step. apply wp_one_to; [lia|]. intros v s' _. wpd_step. apply HQ. Qed.

Lemma wp_choose_line w chosen l s (Q : list Z * lines → rand_state → Prop) : warehouse_id w → lines_ok chosen l →
  (length chosen < 15)%nat → (∀ chosen' l' s', length chosen' = S (length chosen) → lines_ok chosen' l' → Q (chosen', l') s') →
  wpd (choose_line sp consts conf (2 * K) w (len chosen) chosen l) Q s.
Proof.
  intros Hw [(L1 & L2 & L3) E1 ND Fi Fw Fq] Hlt HQ. destruct Hok as [HF HC HW HWr (HI1 & HI2 & HI3) HCu HD].
  unfold choose_line. wpd_step. apply wp_new_item; [done|done|lia..|]. intros item s1 Hi Hnew. wpd_step.
  apply (wp_set_next (λ _, True) _ _ _ (length chosen)); [done|done|done|by apply Forall_true|done|]. intros ids Hl1 Et1 _. wpd_step.
  apply wp_percent. intros remote s2. wpd_step.
  assert (∀ (Q : Z → rand_state → Prop) s, (∀ v s', warehouse_id v → Q v s') →
    wpd (if (1 <? num_warehouses_ sp) && remote then GenerateIntegerExcluding 1 (num_warehouses_ sp) w else mret w) Q s) as Hsup.
  { intros Q' s' HQ'. destruct (Z.ltb_spec 1 (num_warehouses_ sp)), remote; cbn [andb]; try (wpd_step; by apply HQ').
    unfold warehouse_id in *. apply wp_GenerateIntegerExcluding; [lia|lia|]. intros v s3 Hv _. by apply HQ'. }
  apply Hsup. intros sup s3 Hs. wpd_step.
  apply (wp_set_next warehouse_id _ _ _ (length chosen)); [done..|]. intros ws Hl2 _ Fw'. wpd_step.
  apply wp_one_to; [by vm_compute|]. intros q s4 Hq. wpd_step.
  apply (wp_set_next (λ q, 1 ≤ q ≤ 10) _ _ _ (length chosen)); [done..|]. intros qs Hl3 _ Fq'. wpd_step.
  apply HQ; [rewrite length_app; cbn; lia|]. rewrite E1 in Et1.
  split; cbn [l_ids l_w_ids l_qtys]; rewrite ?length_app, ?Nat.add_1_r; [done|done| | |done|done].
  - apply NoDup_app. split; [done|]. split; [|apply NoDup_singleton]. by intros y Hy ->%list_elem_of_singleton.
  - apply Forall_app_2; [done|by apply Forall_singleton].
Qed.

Lemma wp_choose_lines w n chosen l s (Q : lines → rand_state → Prop) : warehouse_id w → lines_ok chosen l →
  (length chosen + n ≤ 15)%nat → (∀ chosen' l' s', length chosen' = (length chosen + n)%nat → lines_ok chosen' l' → Q l' s') →
  wpd (choose_lines sp consts conf (2 * K) w (seqZ (len chosen) (Z.of_nat n)) chosen l) Q s.
Proof.
  intros Hw. revert chosen l s. induction n as [|n IH]; intros chosen l s Hl Hle HQ.
  { rewrite seqZ_nil by done. cbn [choose_lines]. wpd_step. apply (HQ chosen); [lia|done]. }
  rewrite seqZ_cons by lia. replace (Z.pred (Z.of_nat (S n))) with (Z.of_nat n) by lia. cbn [choose_lines]. wpd_step.
  apply wp_choose_line; [done|done|lia|]. intros chosen' l' s' Hc Hl'. cbn [fst snd].
  replace (Z.succ (len chosen)) with (len chosen') by lia. apply IH; [done|lia|].
  intros c2 l2 s2 Hc2. apply HQ. lia.
Qed.

Lemma wp_home w s (Q : Z → rand_state → Prop) : warehouse_id w → Q w s → wpd (home_warehouse sp w) Q s.
Proof. intros Hw HQ. unfold home_warehouse, warehouse_id in *. rewrite (proj2 (Z.eqb_neq _ _)) by lia. by wpd_step. Qed.

Lemma wp_customer_id s (Q : Z → rand_state → Prop) : (∀ v s', 1 ≤ v ≤ customers → Q v s') → wpd (GenerateCustomerId consts customers) Q s.
Proof. apply wp_nonuniform; [apply Hok|lia|apply Hok]. Qed.
Lemma wp_district_id s (Q : Z → rand_state → Prop) : (∀ v s', 1 ≤ v ≤ districts → Q v s') → wpd (GenerateDistrictId districts) Q s.
Proof. apply wp_one_to. destruct Hok. lia. Qed.

Lemma wp_generate_order w s (Q : NewOrderParam → rand_state → Prop) : warehouse_id w →
  (∀ p s', order_param_ok w p → Q p s') → wpd (generate_order sp consts conf (2 * K) w) Q s.
Proof.
  intros Hw HQ. unfold generate_order. wpd_step. apply wp_home; [done|]. wpd_step. apply wp_district_id. intros d s1 Hd.
  wpd_step. apply wp_customer_id. intros c s2 Hc. wpd_step. apply wp_GenerateInteger; [by vm_compute..|]. intros cnt s3 Hcnt.
  unfold MIN_OL_CNT, MAX_OL_CNT in Hcnt. apply wp_time. intros now s4. cbv beta zeta. wpd_step.
  change 0 with (len (@nil Z)). replace cnt with (Z.of_nat (Z.to_nat cnt)) at 1 by lia.
  apply wp_choose_lines; [done| |cbn [length]; lia|].
  { split; cbn [l_ids l_w_ids l_qtys length take]; (done || apply NoDup_nil_2 || apply Forall_nil_2 || (rewrite length_replicate; done)). }
  intros chosen l s5 Hl [Hlen E ND Fi Fw Fq]. cbn [length Nat.add] in Hl. wpd_step. rewrite Hl in *. apply HQ.
  split; cbn [no_w_id_ no_d_id_ no_c_id_ ol_cnt_ i_ids_ i_w_ids_ i_qtys_ item_access_type_ stock_access_type_
    no_warehouse_access_type_ no_district_access_type_ no_customer_access_type_ new_order_access_type_ order_access_type_
    order_line_access_type_]; rewrite ?E; try done.
Qed.

Lemma wp_generate_payment w s (Q : PaymentParam → rand_state → Prop) : warehouse_id w →
  (∀ p s', payment_param_ok w p → Q p s') → wpd (generate_payment sp consts conf w) Q s.
Proof.
  intros Hw HQ. unfold generate_payment. wpd_step. apply wp_one_to; [lia|]. intros _ s0 _.
  wpd_step. apply wp_one_to; [lia|]. intros _ s1 _. wpd_step. apply wp_home; [done|].
  wpd_step. apply wp_district_id. intros d s2 Hd. wpd_step.
  eapply wp_GenerateFixedPoint; [by vm_compute|lia|lia|]. intros amount s3. apply wp_time. intros now s4. cbv beta.
  wpd_step. apply wp_percent. intros remote s5. wpd_step.
  assert (∀ (Q : Z * Z → rand_state → Prop) s, (∀ c_w c_d s', warehouse_id c_w → 1 ≤ c_d ≤ districts →
      (c_w = w → num_warehouses_ sp = 1 ∨ c_d = d) → Q (c_w, c_d) s') →
    wpd (if (num_warehouses_ sp =? 1) || negb remote then mret (w, d)
      else c_w_id ← GenerateIntegerExcluding 1 (num_warehouses_ sp) w; c_d_id ← GenerateDistrictId districts; mret (c_w_id, c_d_id)) Q s) as Hc.
  { intros Q' s' HQ'. destruct Hok as [_ _ HW HWr _ _ _]. unfold warehouse_id in *.
    destruct (Z.eqb_spec (num_warehouses_ sp) 1), remote; cbn [orb negb]; try (wpd_step; apply HQ'; auto).
    wpd_step. apply wp_GenerateIntegerExcluding; [lia|lia|]. intros cw s6 Hcw Hne. wpd_step. apply wp_district_id.
    intros cd s7 Hcd. wpd_step. by apply HQ'. }
  apply Hc. intros c_w c_d s6 Hcw Hcd Hl. cbv beta iota. wpd_step. apply wp_customer_id. intros c s7 Hcu. wpd_step. by apply HQ.
Qed.

(** *** The choice of the transaction

    The weights of the frequencies 0, 43, 45, 0, 0 are 0, 48.8 and 100 percent: a payment is
    drawn 48 times of 100, a new order 52 times, the others never. *)
Lemma pick x : 1 ≤ x ≤ 100 → at_most x 0 = false ∧ at_most x 1 = (x <=? 48) ∧ at_most x 2 = true.
Proof.
  intros Hx. assert (forallb (λ x, negb (at_most x 0) && eqb (at_most x 1) (x <=? 48) && at_most x 2) (seqZ 1 100) = true) as H
    by (vm_compute; reflexivity).
  rewrite forallb_forall in H. specialize (H x). rewrite !andb_true_iff, negb_true_iff, eqb_true_iff in H.
  destruct H as [[? ?] ?]; [|done]. apply list_elem_of_In, elem_of_seqZ. lia.
Qed.

(** *** The source's state: the redirector stays while a parameter is generated *)
Definition same_redirector (x x' : source) : Prop := redirector_ptr_ x' = redirector_ptr_ x.

Lemma wp_draw {A} (m : Gen A) x (Q : A → source → Prop) :
  wpd m (λ a s', ∀ x', same_redirector x x' → Q a x') (src_rand x) → wpd (draw m) Q x.
Proof. unfold wpd, draw. destruct (m (src_rand x)); [|done]. intros H. by apply H. Qed.

Lemma wp_profile ty x (Q : unit → source → Prop) : (∀ x', same_redirector x x' → Q () x') → wpd (ProfileReadWriteAccess ty) Q x.
Proof. intros HQ. unfold ProfileReadWriteAccess, change, wpd. apply HQ. unfold same_redirector. by destruct (ty =? READ_ONLY). Qed.

Lemma first_entries_get n v i : 0 ≤ i < 15 → n ≤ 15 → ∃ ty, arr_get (first_entries n v) i = Some ty.
Proof. intros Hi Hn. unfold first_entries. apply arr_get_Some. rewrite length_app, !length_replicate. lia. Qed.

Lemma wp_profile_at n v i x (Q : unit → source → Prop) : 0 ≤ i < 15 → n ≤ 15 → (∀ x', same_redirector x x' → Q () x') →
  wpd (profile_at (first_entries n v) i) Q x.
Proof.
  intros Hi Hn HQ. destruct (first_entries_get n v i Hi Hn) as [ty E]. unfold profile_at. wpd_step.
  eapply wpd_in_array; [exact E|]. by apply wp_profile.
Qed.

Lemma wp_GenerateNewOrderParam w x (Q : TxnParam → source → Prop) : gStandard conf = true → warehouse_id w →
  (∀ p x', same_redirector x x' → order_param_ok w p → Q (new_order_param p) x') →
  wpd (GenerateNewOrderParam sp consts conf (2 * K) iteration w) Q x.
Proof.
  intros Hstd Hw HQ. unfold GenerateNewOrderParam. rewrite Hstd. wpd_step. apply wp_draw, wp_generate_order; [done|].
  intros p _ Hp x1 E1. wpd_step. wpd_step. pose proof Hp as [_ _ _ Hcnt _ _ _ _ (Ei & Es & _ & _ & _ & _ & _ & El)].
  rewrite Ei, Es, El. wpd_step. apply (wpd_for_seqZ _ _ _ (λ _, same_redirector x)); [lia|done| |].
  { intros i x2 Hi E2. wpd_step. apply wp_profile_at; [lia|lia|]. intros x3 E3. apply wp_profile_at; [lia|lia|].
    intros x4 E4. unfold same_redirector in *. congruence. }
  intros x2 E2. do 5 (wpd_step; apply wp_profile; intros ? ?). wpd_step.
  apply (wpd_for_seqZ _ _ _ (λ _, same_redirector x)); [lia|unfold same_redirector in *; congruence| |].
  { intros i x3 Hi E3. apply wp_profile_at; [lia|lia|]. intros x4 E4. unfold same_redirector in *. congruence. }
  intros x3 E3. wpd_step. by apply HQ.
Qed.

Lemma wp_GeneratePaymentParam w x (Q : TxnParam → source → Prop) : gStandard conf = true → warehouse_id w →
  (∀ p x', same_redirector x x' → payment_param_ok w p → Q (payment_param p) x') →
  wpd (GeneratePaymentParam sp consts conf w) Q x.
Proof.
  intros Hstd Hw HQ. unfold GeneratePaymentParam. rewrite Hstd. wpd_step. apply wp_draw, wp_generate_payment; [done|].
  intros p _ Hp x1 E1. wpd_step. wpd_step. do 4 (wpd_step; apply wp_profile; intros ? ?). wpd_step.
  apply HQ; [unfold same_redirector in *; congruence|done].
Qed.

Lemma wp_GenerateParam w x (Q : TxnParam → source → Prop) : gStandard conf = true → warehouse_id w →
  (∀ p x', same_redirector x x' → param_ok w p → Q p x') → wpd (GenerateParam sp consts conf (2 * K) iteration w) Q x.
Proof.
  intros Hstd Hw HQ. unfold GenerateParam. wpd_step. apply wp_draw, wp_one_to; [lia|]. intros v _ Hv x1 E1.
  destruct (pick v Hv) as (-> & -> & ->). destruct (v <=? 48).
  - apply wp_GeneratePaymentParam; [done..|]. intros p x2 E2 Hp. apply HQ; [unfold same_redirector in *; congruence|done].
  - apply wp_GenerateNewOrderParam; [done..|]. intros p x2 E2 Hp. apply HQ; [unfold same_redirector in *; congruence|done].
Qed.

(** *** The shares of the threads *)
Abbreviation n := (src_thread_count_ conf).
Abbreviation B := (gParamBatchSize conf).
Abbreviation node_num_warehouse := (ending_warehouse_ sp - starting_warehouse_ sp + 1).

(** The warehouses of a thread; a thread more than there are warehouses shares one. *)
Definition thread_share (t w : Z) : Prop :=
  starting_warehouse_ sp ≤ w ≤ ending_warehouse_ sp ∧
  if n <=? node_num_warehouse then (w - 1) mod n = t else w - starting_warehouse_ sp = t mod node_num_warehouse.
Definition for_thread (t : Z) (p : TxnParam) : Prop := ∃ w, thread_share t w ∧ param_ok w p.

Lemma wp_choose_warehouse t s (Q : Z → rand_state → Prop) : 0 ≤ t < n → (∀ w s', thread_share t w → Q w s') →
  wpd (choose_warehouse sp conf (2 * K) t) Q s.
Proof.
  intros Ht HQ. unfold choose_warehouse. destruct Hok as [HF _ (HW & HW') HWr _ _ _]. rewrite (proj2 (Z.eqb_neq _ _)) by lia.
  destruct (Z.leb_spec n node_num_warehouse) as [Hle|Hlt].
  - unfold GenerateWarehouseId. set (a := starting_warehouse_ sp) in *. set (b := ending_warehouse_ sp) in *.
    eapply (wp_draw_until _ _ _ (λ p, draws p mod (b - a + 1) + a) 1).
    + intros s1. rewrite GenerateInteger_run by lia. unfold next_draw. by rewrite Nat.add_1_r.
    + set (r := (t - (a - 1)) mod n). pose proof (Z.mod_pos_bound (t - (a - 1)) n ltac:(lia)) as Hr. fold r in Hr.
      destruct (fair_draw K (rs_draws s) r (b - a + 1) HF) as (i & Hi & E); [lia|left; lia|]. exists i. split; [done|].
      rewrite Nat.mul_1_l, E. apply Z.eqb_eq. replace (r + a - 1) with (r + (a - 1)) by lia. unfold r.
      rewrite Z.add_mod_idemp_l by lia. replace (t - (a - 1) + (a - 1)) with t by lia. by apply Z.mod_small.
    + intros w s' [p ->] E%Z.eqb_eq. apply HQ. pose proof (Z.mod_pos_bound (draws p) (b - a + 1) ltac:(lia)).
      split; [fold a b; lia|]. fold a b. by rewrite (proj2 (Z.leb_le _ _)).
  - wpd_step. apply HQ. pose proof (Z.mod_pos_bound t node_num_warehouse ltac:(lia)). split; [lia|].
    rewrite (proj2 (Z.leb_gt _ _)) by done. lia.
Qed.

(** *** The batches

    [lss] are the transactions of the batches [bs] that were pushed, [lcur] those of the
    batch that is being filled. *)
Record filling (i : Z) (tuples : ParamBatch TxnParam) (t : Z) (bs : list (ParamBatch TxnParam)) (lss : list (list TxnParam))
    (lcur : list TxnParam) (x : source) : Prop := {
  fi_dealing : dealing n bs (redirector_ptr_ x);
  fi_batches : Forall2 holds bs lss;
  fi_full : Forall (λ ls, len ls = B) lss;
  fi_shares : ∀ j ls, lss !! j = Some ls → Forall (for_thread (Z.of_nat j mod n)) ls;
  fi_current : holds tuples lcur ∧ batch_size_ tuples = B ∧ len lcur < B;
  fi_current_share : Forall (for_thread t) lcur;
  fi_turn : t = len bs mod n;
  fi_count : i = B * len bs + len lcur;
}.

Lemma wp_push_batch tuples bs x (Q : unit → source → Prop) : 0 < n → dealing n bs (redirector_ptr_ x) →
  (∀ x', dealing n (bs ++ [tuples]) (redirector_ptr_ x') → Q () x') → wpd (push_batch tuples) Q x.
Proof.
  intros Hn D HQ. destruct (dealing_push n bs _ tuples Hn D) as (r & E & D'). unfold push_batch. wpd_step.
  unfold get_source, wpd at 1. wpd_step. eapply wpd_in_array; [exact E|]. unfold change, wpd. apply HQ. exact D'.
Qed.

(** A batch joins those that were pushed. *)
Lemma shares_snoc bs lss (lcur : list TxnParam) : Forall2 (@holds TxnParam) bs lss →
  (∀ j ls, lss !! j = Some ls → Forall (for_thread (Z.of_nat j mod n)) ls) → Forall (for_thread (len bs mod n)) lcur →
  ∀ j ls, (lss ++ [lcur]) !! j = Some ls → Forall (for_thread (Z.of_nat j mod n)) ls.
Proof.
  intros F Hs Hc j ls Hj. apply lookup_app_Some in Hj as [Hj|[Hge Hj]]; [by apply Hs|].
  apply list_lookup_singleton_Some in Hj as [Ej ->]. apply Forall2_length in F. replace j with (length bs) by lia. done.
Qed.

(** One transaction more. *)
Lemma wp_one_more i tuples t bs lss lcur x p (Q : ParamBatch TxnParam * Z → source → Prop) : 0 < n → 0 < B →
  filling i tuples t bs lss lcur x → for_thread t p →
  (∀ tuples' t' bs' lss' lcur' x', filling (i + 1) tuples' t' bs' lss' lcur' x' → Q (tuples', t') x') →
  wpd (push_param p tuples) (λ tuples, wpd (batch_turn conf i tuples t) Q) x.
Proof.
  intros Hn HB [D F Ff Fs (Hh & Eb & Hl) Fc -> Ei] Hp HQ. unfold push_param.
  pose proof (push_back_spec tuples lcur p Hh) as P. rewrite bool_decide_eq_true_2 in P by lia. destruct P as (b' & -> & Hh' & Eb').
  wpd_step. unfold batch_turn. rewrite (proj2 (Z.eqb_neq _ _)) by lia.
  assert (Forall (for_thread (len bs mod n)) (lcur ++ [p])) as Fc' by (apply Forall_app_2; [done|by apply Forall_singleton]).
  destruct (Z.eqb_spec ((i + 1) mod B) 0) as [E|E].
  - assert (len lcur + 1 = B) as El.
    { rewrite Ei in E. replace (B * len bs + len lcur + 1) with (len lcur + 1 + len bs * B) in E by lia.
      rewrite Z.mod_add in E by lia. destruct (Z.eq_dec (len lcur + 1) B); [done|]. rewrite Z.mod_small in E; lia. }
    wpd_step. apply (wp_push_batch _ bs); [done..|]. intros x' D'. wpd_step.
    apply (HQ _ _ (bs ++ [b']) (lss ++ [lcur ++ [p]]) []). split.
    + exact D'.
    + apply Forall2_app; [done|by constructor].
    + apply Forall_app_2; [done|]. apply Forall_singleton. rewrite length_app. cbn. lia.
    + by apply (shares_snoc bs).
    + split; [apply new_ParamBatch_holds; lia|]. split; [done|]. cbn. lia.
    + by apply Forall_nil_2.
    + rewrite length_app, Nat2Z.inj_add. cbn. by rewrite Zplus_mod_idemp_l.
    + rewrite length_app. cbn. lia.
  - assert (len lcur + 1 ≠ B) as El.
    { intros El. apply E. rewrite Ei. replace (B * len bs + len lcur + 1) with (0 + (len bs + 1) * B) by lia.
      rewrite Z.mod_add by lia. by apply Z.mod_0_l; lia. }
    wpd_step. apply (HQ _ _ bs lss (lcur ++ [p])). split; try done.
    + split; [done|]. split; [congruence|]. rewrite length_app. cbn. lia.
    + rewrite length_app. cbn. lia.
Qed.

Lemma wp_generate_partitioned m i tuples t bs lss lcur x (Q : ParamBatch TxnParam → source → Prop) :
  gStandard conf = true → 0 < n → 0 < B → filling i tuples t bs lss lcur x →
  (∀ tuples' t' bs' lss' lcur' x', filling (i + Z.of_nat m) tuples' t' bs' lss' lcur' x' → Q tuples' x') →
  wpd (generate_partitioned sp consts conf (2 * K) iteration (seqZ i (Z.of_nat m)) tuples t) Q x.
Proof.
  intros Hstd Hn HB. revert i tuples t bs lss lcur x. induction m as [|m IH]; intros i tuples t bs lss lcur x HF HQ.
  { rewrite seqZ_nil by done. cbn [generate_partitioned]. wpd_step. rewrite Z.add_0_r in HQ. by eapply HQ. }
  rewrite seqZ_cons by lia. replace (Z.pred (Z.of_nat (S m))) with (Z.of_nat m) by lia. cbn [generate_partitioned].
  wpd_step. apply wp_draw. pose proof (fi_turn _ _ _ _ _ _ _ HF) as Et. apply wp_choose_warehouse.
  { rewrite Et. apply Z.mod_pos_bound. lia. }
  intros w _ Hw x1 E1. wpd_step. apply wp_GenerateParam; [done| |].
  { destruct Hok as [_ _ HW _ _ _ _], Hw. unfold warehouse_id. lia. }
  intros p x2 E2 Hp.
  assert (filling i tuples t bs lss lcur x2) as HF2.
  { destruct HF as [D F Ff Fs Hc Fc Ht Ei]. split; try done. unfold same_redirector in *. congruence. }
  wpd_step. eapply wpd_mono; [apply (wp_one_more _ _ _ _ _ _ _ _ (λ r x', wpd (generate_partitioned sp consts conf (2 * K) iteration
    (seqZ (Z.succ i) (Z.of_nat m)) r.1 r.2) Q x') Hn HB HF2); [by exists w|]|].
  2: { intros a y Hy. wpd_step. eapply wpd_mono; [exact Hy|]. by intros [b c] z Hz. }
  intros tuples' t' bs' lss' lcur' x' HF'. cbn [fst snd]. eapply (IH _ _ _ _ _ _ _ HF').
  intros. eapply HQ. by replace (i + Z.of_nat (S m)) with (i + 1 + Z.of_nat m) by lia.
Qed.

(** What the source leaves: [num_txn_] transactions in batches [bs] that hold [lss], all but
    the last of [gParamBatchSize]; a batch has transactions for the thread that its position
    gives, and each thread is dealt the batches of its positions. *)
Record generated (bs : list (ParamBatch TxnParam)) (lss : list (list TxnParam)) (x : source) : Prop := {
  ge_hold : Forall2 holds bs lss;
  ge_count : len (concat lss) = num_txn_ conf;
  ge_full : ∀ j ls, lss !! j = Some ls → (S j < length lss)%nat → len ls = B;
  ge_shares : ∀ j ls, lss !! j = Some ls → Forall (for_thread (Z.of_nat j mod n)) ls;
  ge_threads : ∀ t, 0 ≤ t < n → GetParameterBatches t (redirector_ptr_ x) = Some (dealt n 0 t bs);
}.

Lemma len_concat_full (lss : list (list TxnParam)) : Forall (λ ls, len ls = B) lss → len (concat lss) = B * len lss.
Proof. induction 1 as [|ls lss E _ IH]; cbn [concat length]; [lia|]. rewrite length_app. lia. Qed.

Lemma generated_of bs lss x : 0 < n → dealing n bs (redirector_ptr_ x) → Forall2 holds bs lss → len (concat lss) = num_txn_ conf →
  (∀ j ls, lss !! j = Some ls → (S j < length lss)%nat → len ls = B) →
  (∀ j ls, lss !! j = Some ls → Forall (for_thread (Z.of_nat j mod n)) ls) → generated bs lss x.
Proof.
  intros Hn D F Hc Hf Hs. split; [done..|]. intros t Ht. exact (dealing_get _ _ _ _ D Ht).
Qed.

Lemma filling_generated i tuples t bs lss lcur x : 0 < n → i = num_txn_ conf → filling i tuples t bs lss lcur x → 
  wpd (if TpccBatch.size tuples =? 0 then mret () else push_batch tuples) (λ _ x', ∃ bs lss, generated bs lss x') x.
Proof.
  intros Hn Ei [D F Ff Fs (Hh & Eb & Hl) Fc -> Ei']. pose proof (Forall2_length _ _ _ F) as Hlen.
  pose proof (len_concat_full lss Ff) as Hcc. unfold TpccBatch.size. rewrite (ho_count _ _ Hh).
  destruct (Z.eqb_spec (len lcur) 0) as [E|E].
  - wpd_step. exists bs, lss. apply generated_of; [done|done|done| | |done]; [lia|].
    intros j ls Hj _. rewrite Forall_lookup in Ff. by eapply Ff.
  - apply (wp_push_batch _ bs); [done..|]. intros x' D'. exists (bs ++ [tuples]), (lss ++ [lcur]). apply generated_of; [done|done| | | |].
    + apply Forall2_app; [done|by constructor].
    + rewrite concat_app, length_app. cbn [concat]. rewrite app_nil_r. lia.
    + intros j ls Hj Hlt. rewrite length_app in Hlt. cbn in Hlt. rewrite lookup_app_l in Hj by lia.
      rewrite Forall_lookup in Ff. by eapply Ff.
    + by apply (shares_snoc bs).
Qed.

Lemma filling_start x : 0 < n → 0 < B → redirector_ptr_ x = new_IORedirector n → filling 0 (new_ParamBatch B) 0 [] [] [] x.
Proof.
  intros Hn HB E. split; cbn [length]; try done.
  - rewrite E. by apply dealing_new.
  - split; [apply new_ParamBatch_holds; lia|]. cbn. by split.
  - lia.
Qed.

Lemma wp_StartGeneration x : gStandard conf = true → 0 < n → 0 < B → 0 ≤ num_txn_ conf → redirector_ptr_ x = new_IORedirector n →
  wpd (StartGeneration sp consts conf (2 * K) iteration PARTITION_SOURCE) (λ _ x', ∃ bs lss, generated bs lss x') x.
Proof.
  intros Hstd Hn HB Hm E. unfold StartGeneration. wpd_step. apply wp_draw. unfold GenerateCurrentTime, wpd at 1. intros x1 E1.
  wpd_step. apply wp_draw. unfold srand, wpd at 1. intros x2 E2. cbv zeta. wpd_step.
  replace (seqZ 0 (num_txn_ conf)) with (seqZ 0 (Z.of_nat (Z.to_nat (num_txn_ conf)))) by (unfold seqZ; by rewrite Nat2Z.id).
  eapply (wp_generate_partitioned _ _ _ _ [] [] []); [done..| |].
  - apply filling_start; [done..|]. unfold same_redirector in *. congruence.
  - intros tuples t bs lss lcur x3 HF. eapply filling_generated; [done| |exact HF]. lia.
Qed.
End generated.

(** C12: The partitioned source gives each thread its own warehouses: with the standard mix
    of transactions ([gStandard]: neither -r nor -l was given), from a scale of at least 15
    items, fewer than [2 ^ 15] warehouses, at least one district and one customer for each
    ([source_ok]), and with random numbers in which every pair of numbers comes up within [K]
    pairs of draws, it returns, whatever the size of the batches and the number of threads
    (both positive), with exactly [num_txn_] transactions for all the threads together (not,
    as README.md says of -t, for each of them), all payments and new orders whose numbers are in their ranges and whose items are different,
    in full batches but the last; a thread gets the batches whose position is its number modulo
    the number of threads, and the home of each of their transactions is a warehouse of the
    thread: one whose number less one is the thread's, modulo the number of threads, when
    there are enough of them. *)
Theorem source_partitioned {J : Indeterminate} {R : Random} sp consts conf K iteration (x : source) :
  source_ok sp consts K → gStandard conf = true → 0 < src_thread_count_ conf → 0 < gParamBatchSize conf →
  0 ≤ num_txn_ conf → redirector_ptr_ x = new_IORedirector (src_thread_count_ conf) →
  wpd (StartGeneration sp consts conf (2 * K) iteration PARTITION_SOURCE) (λ _ x', ∃ bs lss, generated sp conf bs lss x') x.
Proof. intros H. by apply wp_StartGeneration. Qed.

(** Four warehouses, two threads, seven transactions in batches of two. *)
Definition ex_source_scale : TpccScaleParams := mk_TpccScaleParams 4 1 4 0 (d_of_Z 1000) 100 10 3 0.
Definition ex_settings : settings := mk_settings 7 10 2 0 2 0 0 false true.
Definition ex_constants : constants := mk_constants 1 2 3.
Definition ex_source : source := new_TpccSource (mk_rand_state 0 0) (new_IORedirector 2).

Lemma ex_source_ok : source_ok (R := ex_random) ex_source_scale ex_constants ex_K.
Proof. split; [exact ex_fair|..]; cbn; unfold constants_ok; cbn; lia. Qed.

Lemma source_partitioned_witness : source_ok (R := ex_random) ex_source_scale ex_constants ex_K ∧
  wpd (StartGeneration (R := ex_random) ex_source_scale ex_constants ex_settings (2 * ex_K) id PARTITION_SOURCE)
    (λ _ x', ∃ bs lss, generated ex_source_scale ex_settings bs lss x') ex_source.
Proof.
  split; [exact ex_source_ok|]. apply (source_partitioned (R := ex_random) ex_source_scale ex_constants ex_settings ex_K id ex_source).
  - exact ex_source_ok.
  - reflexivity.
  - reflexivity.
  - reflexivity.
  - discriminate.
  - reflexivity.
Defined.
