(* ===== verification/TpccRun.v ===== *)
(** * TpccRun: the benchmark from the empty tables to the last transaction

    [TpccBenchmarkMain.cpp] populates the tables, generates the parameters and executes them.
    On one node with one thread: the populator leaves what the generated transactions need,
    each of them leaves it for the next, and so all are executed at the first attempt. *)
From S2P Require Import Prelude GlobalMem DbStore DbFlat DbDsm DbArray DbIndex DbSchema DbTable DbTxn DbSerial TpccBase TpccSchemas TpccCluster TpccSync TpccProcs TpccAlone TpccPopulator TpccPayment TpccNewOrder TpccBatch TpccExec TpccRandom TpccRows TpccSource.
From stdpp Require Import base numbers option list list_numbers gmap.
Open Scope Z_scope.

(** ** How a record changes *)
Section changes.
Context {J : Indeterminate}.
Implicit Types (p : Z * list Z) (r : DbRecord).

Lemma bytes_int_bytes v : - 2 ^ 31 ≤ v < 2 ^ 31 → bytes_int (int_bytes v) = v.
Proof.
  intros Hv. unfold bytes_int, int_bytes. rewrite le_word_bytes by (apply wrap_fits; lia).
  unfold to_int, wrap at 1 2. rewrite Z.add_mod_idemp_l by lia. by apply to_int_small.
Qed.

Lemma column_int_of r col v : - 2 ^ 31 ≤ v < 2 ^ 31 → GetColumn col r = Some (take 4 (int_bytes v)) → column_int col r = Some v.
Proof.
  intros Hv E. unfold column_int. rewrite E. cbn [mbind option_bind].
  pose proof (int_bytes_len v) as Hl. rewrite take_ge by lia. rewrite over_full by (by rewrite !int_bytes_len).
  cbn [mbind option_bind]. by rewrite bytes_int_bytes.
Qed.

Lemma int_of_inv z z' : int_of z = Some z' → z' = z ∧ - 2 ^ 31 ≤ z < 2 ^ 31.
Proof. unfold int_of. destruct (Z.leb_spec (- 2 ^ 31) z), (Z.ltb_spec z (2 ^ 31)); cbn; intros [=]; lia. Qed.

(** The record keeps its schema and its size. *)
Record becomes p r r' : Prop := {
  bc_typed : typed p r → typed p r';
  bc_schema : schema_ptr_ r' = schema_ptr_ r;
  bc_length : len (data_ptr_ r') = len (data_ptr_ r);
}.

Lemma becomes_refl p r : becomes p r r.
Proof. by split. Qed.
Lemma becomes_trans p r1 r2 r3 : becomes p r1 r2 → becomes p r2 r3 → becomes p r1 r3.
Proof. intros [H1 E1 L1] [H2 E2 L2]. split; [auto|congruence|congruence]. Qed.

Lemma set_becomes p r col n d r' : typed p r → 0 ≤ col → p.2 !! Z.to_nat col = Some n → n ≤ len d → SetColumn col d r = Some r' →
  becomes p r r' ∧ GetColumn col r' = Some (take (Z.to_nat n) d) ∧ same_columns p col r r'.
Proof.
  intros T H0 Hn Hd E. destruct (typed_set p r col n d T H0 Hn Hd) as (r2 & E2 & T2 & Eg & Ho). simplify_eq.
  destruct T as (cols & M & Hr). destruct (SetColumn_rec_ok r cols col d _ Hr E) as (_ & Es & El). by split_and!; [split| |].
Qed.

Lemma set_int_becomes p r col v r' : typed p r → 0 ≤ col → p.2 !! Z.to_nat col = Some 4 → - 2 ^ 31 ≤ v < 2 ^ 31 →
  SetColumn col (int_bytes v) r = Some r' → becomes p r r' ∧ column_int col r' = Some v ∧ same_columns p col r r'.
Proof.
  intros T H0 Hn Hv E. destruct (set_becomes p r col 4 (int_bytes v) r' T H0 Hn) as (B & Eg & Ho); [by rewrite int_bytes_len|done|].
  split; [done|]. split; [by apply column_int_of|done].
Qed.

Lemma change_int_becomes p r col f r' : typed p r → 0 ≤ col → p.2 !! Z.to_nat col = Some 4 → change_int col f r = Some r' →
  ∃ v, column_int col r = Some v ∧ column_int col r' = Some (f v) ∧ becomes p r r' ∧ same_columns p col r r'.
Proof.
  intros T H0 Hn E. unfold change_int in E. apply bind_Some in E as (v & Ev & E). apply bind_Some in E as (v' & Ef & E).
  apply int_of_inv in Ef as [-> Hv]. destruct (set_int_becomes p r col (f v) r' T H0 Hn Hv E) as (B & Ec & Ho). by exists v.
Qed.

Lemma change_double_becomes p r col f r' : typed p r → 0 ≤ col → p.2 !! Z.to_nat col = Some 8 → change_double col f r = Some r' →
  becomes p r r' ∧ same_columns p col r r'.
Proof.
  intros T H0 Hn E. unfold change_double in E. apply bind_Some in E as (v & Ev & E).
  destruct (set_becomes p r col 8 _ r' T H0 Hn ltac:(by rewrite double_bytes_len) E) as (B & _ & Ho). done.
Qed.
End changes.

(** ** The numbers of the records

    [n] transactions can still be executed: the counters do not overflow, and the stock stays
    between 0 and 110. *)
Section numbers.
Context {J : Indeterminate}.
Implicit Types (r : DbRecord).

Definition counter (col low limit : Z) (r : DbRecord) : Prop := ∃ v, column_int col r = Some v ∧ low ≤ v < limit.
Definition numbers (n id : Z) (r : DbRecord) : Prop :=
  if id =? DISTRICT_TABLE_ID then counter 10 1 (2 ^ 31 - 1 - n) r
  else if id =? CUSTOMER_TABLE_ID then counter 18 0 (2 ^ 31 - 1 - n) r
  else if id =? STOCK_TABLE_ID then
    counter 2 0 111 r ∧ counter 13 0 (2 ^ 30 - 10 * n) r ∧ counter 14 0 (2 ^ 30 - n) r ∧ counter 15 0 (2 ^ 30 - n) r
  else True.

Lemma counter_mono col low limit limit' r : limit ≤ limit' → counter col low limit r → counter col low limit' r.
Proof. intros H (v & E & ?). exists v. split; [done|lia]. Qed.

Lemma numbers_mono n n' id r : n ≤ n' → numbers n' id r → numbers n id r.
Proof.
  intros Hn. unfold numbers. destruct (id =? DISTRICT_TABLE_ID); [apply counter_mono; lia|].
  destruct (id =? CUSTOMER_TABLE_ID); [apply counter_mono; lia|]. destruct (id =? STOCK_TABLE_ID); [|done].
  intros (H1 & H2 & H3 & H4). split; [done|]. split_and!; (eapply counter_mono; [|eassumption]; lia).
Qed.

(** Only the schema and the bytes matter. *)
Lemma numbers_bytes n id r size : numbers n id r → numbers n id (mk_DbRecord (schema_ptr_ r) (data_ptr_ r) size).
Proof. by destruct r. Qed.

Lemma counter_same p col col' low limit r r' : same_columns p col r r' → 0 ≤ col' < len p.2 → col' ≠ col →
  counter col' low limit r → counter col' low limit r'.
Proof. intros S Hc Hne (v & E & Hv). exists v. by rewrite (same_int p col r r' col'). Qed.

Lemma counter_step p col f low limit limit' r r' : typed p r → 0 ≤ col → p.2 !! Z.to_nat col = Some 4 →
  change_int col f r = Some r' → counter col low limit r → (∀ v, low ≤ v < limit → low ≤ f v < limit') →
  becomes p r r' ∧ counter col low limit' r' ∧ same_columns p col r r'.
Proof.
  intros T H0 Hn E (v & Ev & Hv) Hf. destruct (change_int_becomes p r col f r' T H0 Hn E) as (v' & Ev' & Ef & B & S).
  simplify_eq. split; [done|]. split; [|done]. exists (f v). split; [done|]. by apply Hf.
Qed.
End numbers.

(** ** What the transactions need *)
Section ready.
Context {J : Indeterminate} (sp : TpccScaleParams) (tables : list Table) (fuel k : nat).
Context (own : nat → GlobalAddress → Prop) (m : nat → Z → list GlobalAddress) (HT : tpcc_tables tables).
Implicit Types (h : heap).

Definition row_table (r : row) : Z := (row_fields r).1.1.2.
(** The tables whose records the transactions search. *)
Definition searched : list Z := [ITEM_TABLE_ID; STOCK_TABLE_ID; WAREHOUSE_TABLE_ID; DISTRICT_TABLE_ID; CUSTOMER_TABLE_ID].
Definition used (r : row) : Prop := valid sp r ∧ row_table r ∈ searched.

Definition readable (n : Z) h (id key : Z) : Prop :=
  ∃ x, copy_at tables m h id key READ_WRITE = Some x ∧ numbers n id (hd_record x).
Definition ready (n : Z) h : Prop := ∀ r, used r → ∃ key, row_key sp r = Some key ∧ readable n h (row_table r) key.

Lemma copy_at_inv h id key ty x : copy_at tables m h id key ty = Some x →
  newest (m (Z.to_nat id) key) ≠ ga_Null ∧ (ty = READ_ONLY ∨ ty = READ_WRITE) ∧ ∃ t bs, tables !! Z.to_nat id = Some t ∧
    h !! newest (m (Z.to_nat id) key) = Some bs ∧
    x = mk_held ty (newest (m (Z.to_nat id) key)) (mk_DbRecord (t_schema_ptr_ t) bs (GetSchemaSize (t_schema_ptr_ t))).
Proof.
  unfold copy_at. destruct (ga_eqb_spec (newest (m (Z.to_nat id) key)) ga_Null); [done|]. cbn [orb].
  destruct (Z.eqb_spec ty READ_ONLY), (Z.eqb_spec ty READ_WRITE); cbn [orb negb]; try done;
    intros E; apply bind_Some in E as (t & Et & E); apply bind_Some in E as (bs & Eb & [= <-]);
    (split; [done|]; split; [by auto|]; by exists t, bs).
Qed.

Lemma copy_at_intro h id key ty t bs : newest (m (Z.to_nat id) key) ≠ ga_Null → ty = READ_ONLY ∨ ty = READ_WRITE →
  tables !! Z.to_nat id = Some t → h !! newest (m (Z.to_nat id) key) = Some bs →
  copy_at tables m h id key ty =
    Some (mk_held ty (newest (m (Z.to_nat id) key)) (mk_DbRecord (t_schema_ptr_ t) bs (GetSchemaSize (t_schema_ptr_ t)))).
Proof.
  intros Hn Hty Et Eb. unfold copy_at. destruct (ga_eqb_spec (newest (m (Z.to_nat id) key)) ga_Null); [done|].
  rewrite Et, Eb. destruct Hty as [-> | ->]; reflexivity.
Qed.

(** A row that is needed can be copied for reading and for writing. *)
Lemma ready_copy n h r ty : ready n h → used r → ty = READ_ONLY ∨ ty = READ_WRITE →
  ∃ key x, row_key sp r = Some key ∧ copy_at tables m h (row_table r) key ty = Some x ∧ numbers n (row_table r) (hd_record x).
Proof.
  intros H Hr Hty. destruct (H r Hr) as (key & Ek & x & Ex & Hx).
  apply copy_at_inv in Ex as (Hn & _ & t & bs & Et & Eb & ->). exists key. eexists. split; [done|].
  split; [by eapply copy_at_intro|done].
Qed.

(** A record is known from its size. *)
Lemma searched_size id id' t t' : id ∈ searched → id' ∈ searched → tables !! Z.to_nat id = Some t → tables !! Z.to_nat id' = Some t' →
  GetSchemaSize (t_schema_ptr_ t) = GetSchemaSize (t_schema_ptr_ t') → id = id'.
Proof.
  intros H H' Et Et' E.
  assert (∀ i, i ∈ searched → ∃ p, zip (seqZ 0 10) tpcc_sizes !! Z.to_nat i = Some p) as Hp.
  { intros i Hi. repeat (apply elem_of_cons in Hi as [->|Hi]; [by eexists|]). by apply elem_of_nil in Hi. }
  destruct (Hp _ H) as [p Ep], (Hp _ H') as [p' Ep'].
  rewrite (tpcc_table_size tables HT id t p Et Ep), (tpcc_table_size tables HT id' t' p' Et' Ep') in E.
  repeat (apply elem_of_cons in H as [->|H]; [repeat (apply elem_of_cons in H' as [->|H'];
    [injection Ep as <-; injection Ep' as <-; (reflexivity || discriminate E)|]); by apply elem_of_nil in H'|]).
  by apply elem_of_nil in H.
Qed.

(** ** What a commit leaves *)

(** A copy of a record that is searched, with numbers for [n] transactions more. *)
Definition copied (n : Z) h (x : held) : Prop :=
  ∃ id key y, id ∈ searched ∧ copy_at tables m h id key (hd_type x) = Some y ∧ hd_addr x = hd_addr y ∧
    schema_ptr_ (hd_record x) = schema_ptr_ (hd_record y) ∧ len (data_ptr_ (hd_record x)) = len (data_ptr_ (hd_record y)) ∧
    numbers n id (hd_record x).

Lemma adds_keep h rows h' a bs : adds h rows h' → h !! a = Some bs → h' !! a = Some bs.
Proof.
  induction 1 as [h|h b bs' row rows h' Hb _ _ IH]; intros Ha; [done|]. apply IH.
  rewrite lookup_insert_ne; [done|]. by intros ->; rewrite Hb in Ha.
Qed.

Lemma commit_readable n h copies h' id key : db_ok tables fuel k own m h → Forall (copied n h) copies →
  (∀ a bs, h !! a = Some bs → h' !! a = Some bs) → id ∈ searched → readable (n + 1) h id key →
  readable n (commit_heap copies h') id key.
Proof.
  intros D F Hk Hid (x & Ex & Hx). apply copy_at_inv in Ex as (Hn & _ & t & bs & Et & Eb & ->). cbn [hd_record] in Hx.
  set (a := newest (m (Z.to_nat id) key)) in *.
  assert (len bs = GetSchemaSize (t_schema_ptr_ t)) as Hl.
  { destruct (dk_record _ _ _ _ _ _ D _ t key Et Hn) as (bs' & Eb' & Hl & _). fold a in Eb'. congruence. }
  assert (∃ bs1, h' !! a = Some bs1 ∧ len bs1 = GetSchemaSize (t_schema_ptr_ t) ∧
    numbers n id (mk_DbRecord (t_schema_ptr_ t) bs1 (GetSchemaSize (t_schema_ptr_ t)))) as H.
  { exists bs. split; [by apply Hk|]. split; [done|]. eapply numbers_mono; [|exact Hx]. lia. }
  clear Hx Hk bs Eb Hl. revert h' H. induction F as [|x xs Hx F IH]; intros h' (bs1 & E1 & L1 & N1).
  - eexists. split; [by eapply copy_at_intro; [done|by right|done|exact E1]|exact N1].
  - apply (IH (commit_one h' x)). unfold commit_one. destruct (writes_back x); [|by exists bs1].
    destruct (decide (hd_addr x = a)) as [Ea|Ea]; [|rewrite put_lookup_ne by done; by exists bs1].
    destruct Hx as (id' & key' & y & Hid' & Ey & Exy & Es & El & Nx).
    apply copy_at_inv in Ey as (Hn' & _ & t' & bs' & Et' & Eb' & ->). cbn [hd_addr hd_record schema_ptr_ data_ptr_] in *.
    destruct (dk_record _ _ _ _ _ _ D _ t' key' Et' Hn') as (bs2 & Eb2 & Hl2 & _).
    assert (bs2 = bs') as -> by congruence.
    destruct (dk_record _ _ _ _ _ _ D _ t key Et Hn) as (bs3 & Eb3 & Hl3 & _). fold a in Eb3.
    assert (bs3 = bs') as -> by congruence.
    assert (id' = id) as -> by (eapply (searched_size _ _ t' t); [done|done|done|done|congruence]).
    assert (t' = t) as -> by congruence.
    rewrite Ea, (put_some _ _ _ _ _ E1), lookup_insert_eq. eexists. split; [done|].
    rewrite splice_length by lia. split; [done|].
    rewrite splice_all by lia. rewrite <-Es. by apply numbers_bytes.
Qed.

(** ** The copies of the procedures *)
Lemma typed_of h id key ty x p : db_ok tables fuel k own m h → copy_at tables m h id key ty = Some x →
  zip (seqZ 0 10) tpcc_sizes !! Z.to_nat id = Some p → last p.2 = Some 1 → typed p (hd_record x).
Proof. intros D. by apply (copy_at_typed tables m HT fuel k own h). Qed.

Lemma copied_same n h id key ty x : id ∈ searched → copy_at tables m h id key ty = Some x → numbers (n + 1) id (hd_record x) →
  copied n h x.
Proof.
  intros Hid E Hx. pose proof (copy_at_inv h id key ty x E) as (_ & _ & t & bs & _ & _ & Ex). exists id, key, x.
  split; [done|]. split; [by rewrite Ex in E |- *|]. do 3 (split; [done|]). eapply numbers_mono; [|exact Hx]. lia.
Qed.

Lemma copied_change n h id key ty p f y x : id ∈ searched → copy_at tables m h id key ty = Some y → with_record f y = Some x →
  (∀ r, f (hd_record y) = Some r → becomes p (hd_record y) r ∧ numbers n id r) → copied n h x.
Proof.
  intros Hid E Ex Hf. pose proof (copy_at_inv h id key ty y E) as (_ & _ & t & bs & _ & _ & Ey).
  unfold with_record in Ex. apply bind_Some in Ex as (r & Er & [= <-]). destruct (Hf r Er) as [[_ Es El] Hr].
  exists id, key, y. cbn [hd_type hd_addr hd_record]. split; [done|]. split; [|done]. by rewrite Ey in E |- *.
Qed.

Lemma pay_customer_numbers n amount r r' p : typed p r → p = (CUSTOMER_TABLE_ID, nth 8 tpcc_sizes []) →
  numbers (n + 1) CUSTOMER_TABLE_ID r → pay_customer amount r = Some r' → becomes p r r' ∧ numbers n CUSTOMER_TABLE_ID r'.
Proof.
  intros T -> H E. unfold pay_customer in E. apply bind_Some in E as (r1 & E1 & E). apply bind_Some in E as (r2 & E2 & E).
  destruct (change_double_becomes _ _ 16 _ _ T ltac:(lia) eq_refl E1) as [B1 S1]. pose proof (bc_typed _ _ _ B1 T) as T1.
  destruct (change_double_becomes _ _ 17 _ _ T1 ltac:(lia) eq_refl E2) as [B2 S2]. pose proof (bc_typed _ _ _ B2 T1) as T2.
  change (counter 18 0 (2 ^ 31 - 1 - (n + 1)) r) in H.
  apply (counter_same _ _ _ _ _ _ _ S1) in H; [|by vm_compute|done]. apply (counter_same _ _ _ _ _ _ _ S2) in H; [|by vm_compute|done].
  destruct (counter_step _ 18 _ _ _ (2 ^ 31 - 1 - n) r2 r' T2 ltac:(lia) eq_refl E H) as (B & H' & _); [lia|].
  split; [|exact H']. eapply becomes_trans; [exact B1|]. by eapply becomes_trans.
Qed.

Lemma restock_range q v v' : 1 ≤ q ≤ 10 → 0 ≤ v < 111 → restock q v = Some v' → 0 ≤ v' < 111.
Proof.
  intros Hq Hv E. unfold restock in E. apply bind_Some in E as (limit & El & E). apply int_of_inv in El as [-> _].
  destruct (Z.leb_spec (q + 10) v).
  - apply int_of_inv in E as [-> _]. lia.
  - apply bind_Some in E as (v1 & E1 & E). apply int_of_inv in E1 as [-> _]. apply int_of_inv in E as [-> _]. lia.
Qed.

Lemma update_stock_numbers n q remote r r' p : typed p r → p = (STOCK_TABLE_ID, nth 1 tpcc_sizes []) → 1 ≤ q ≤ 10 →
  numbers (n + 1) STOCK_TABLE_ID r → update_stock q remote r = Some r' → becomes p r r' ∧ numbers n STOCK_TABLE_ID r'.
Proof.
  intros T -> Hq (H2 & H13 & H14 & H15) E. unfold update_stock in E. apply bind_Some in E as (r1 & E1 & E).
  apply bind_Some in E as (v & Ev & E). apply bind_Some in E as (v' & Er & E). apply bind_Some in E as (r2 & E2 & E).
  apply bind_Some in E as (r3 & E3 & E).
  destruct (counter_step _ 13 _ _ _ (2 ^ 30 - 10 * n) r r1 T ltac:(lia) eq_refl E1 H13) as (B1 & C13 & S1); [lia|].
  pose proof (bc_typed _ _ _ B1 T) as T1.
  apply (counter_same _ _ _ _ _ _ _ S1) in H2; [|by vm_compute|done]. apply (counter_same _ _ _ _ _ _ _ S1) in H14; [|by vm_compute|done].
  apply (counter_same _ _ _ _ _ _ _ S1) in H15; [|by vm_compute|done].
  destruct H2 as (v2 & Ev2 & Hv2). assert (v2 = v) as -> by congruence. apply restock_range in Er; [|done|done].
  destruct (set_int_becomes _ r1 2 v' r2 T1 ltac:(lia) eq_refl ltac:(lia) E2) as (B2 & Ec2 & S2).
  pose proof (bc_typed _ _ _ B2 T1) as T2.
  apply (counter_same _ _ _ _ _ _ _ S2) in C13; [|by vm_compute|done]. apply (counter_same _ _ _ _ _ _ _ S2) in H14; [|by vm_compute|done].
  apply (counter_same _ _ _ _ _ _ _ S2) in H15; [|by vm_compute|done].
  assert (counter 2 0 111 r2) as C2 by by exists v'.
  destruct (counter_step _ 14 _ _ _ (2 ^ 30 - n) r2 r3 T2 ltac:(lia) eq_refl E3 H14) as (B3 & C14 & S3); [lia|].
  pose proof (bc_typed _ _ _ B3 T2) as T3.
  apply (counter_same _ _ _ _ _ _ _ S3) in C13; [|by vm_compute|done]. apply (counter_same _ _ _ _ _ _ _ S3) in C2; [|by vm_compute|done].
  apply (counter_same _ _ _ _ _ _ _ S3) in H15; [|by vm_compute|done].
  assert (becomes (STOCK_TABLE_ID, nth 1 tpcc_sizes []) r r3) as B by (eapply becomes_trans; [exact B1|by eapply becomes_trans]).
  destruct remote; [|injection E as <-; split; [exact B|]; split_and!; try done; eapply counter_mono; [|exact H15]; lia].
  destruct (counter_step _ 15 _ _ _ (2 ^ 30 - n) r3 r' T3 ltac:(lia) eq_refl E H15) as (B4 & C15 & S4); [lia|].
  split; [by eapply becomes_trans|]. split_and!; [| | |done]; (eapply counter_same; [exact S4|by vm_compute|done|done]).
Qed.

(** *** The rows of a transaction: one node has all the warehouses *)
Context (Hone : starting_warehouse_ sp = 1 ∧ ending_warehouse_ sp = num_warehouses_ sp).

Lemma used_row r : valid sp r → match r with item_row _ _ | stock_row _ _ | warehouse_row _ | district_row _ _ | customer_row _ _ _ => True | _ => False end →
  used r.
Proof. intros V. split; [done|]. destruct r; try done; by apply (bool_decide_unpack _). Qed.

Lemma used_numbers n h r ty key x : ready n h → used r → row_key sp r = Some key → copy_at tables m h (row_table r) key ty = Some x →
  numbers n (row_table r) (hd_record x).
Proof.
  intros H Hr Ek E. pose proof (copy_at_inv _ _ _ _ _ E) as (_ & Hty & _).
  destruct (ready_copy n h r ty H Hr Hty) as (key' & x' & Ek' & E' & Hx). congruence.
Qed.

Ltac in_partition := unfold of_partition, warehouse_id in *; lia.
Ltac is_used := apply used_row; [cbn [valid]; unfold of_partition, warehouse_id in *; (lia || (split_and!; lia))|exact I].

Lemma payment_copied n h p w copies rows out : db_ok tables fuel k own m h → ready (n + 1) h →
  payment_param_ok sp w p → warehouse_id sp w →
  ref_payment sp tables m p h = Some (copies, rows, out) → Forall (copied n h) copies.
Proof.
  intros D H [Hw Hd (Hcw & Hcd & Hc) _ _] Hww E. unfold ref_payment in E. cbv zeta in E.
  apply bind_Some in E as (w_key & Kw & E). apply bind_Some in E as (d_key & Kd & E). apply bind_Some in E as (c_key & Kc & E).
  apply bind_Some in E as (cw & Cw & E). apply bind_Some in E as (cd & Cd & E). apply bind_Some in E as (cc & Cc & E).
  apply bind_Some in E as (? & _ & E). apply bind_Some in E as (? & _ & E).
  apply bind_Some in E as (xw & Ew & E). apply bind_Some in E as (xd & Ed & E). apply bind_Some in E as (xc & Ec & E).
  apply bind_Some in E as (? & _ & [= <- _ _]).
  pose proof (typed_of h _ _ _ cw _ D Cw eq_refl eq_refl) as Tw. pose proof (typed_of h _ _ _ cd _ D Cd eq_refl eq_refl) as Td.
  pose proof (typed_of h _ _ _ cc _ D Cc eq_refl eq_refl) as Tc.
  apply Forall_cons_2; [|apply Forall_cons_2; [|apply Forall_singleton]].
  - eapply (copied_change _ _ WAREHOUSE_TABLE_ID); [by apply (bool_decide_unpack _)|exact Cw|exact Ew|]. intros r Er.
    destruct (change_double_becomes _ _ 8 _ _ Tw ltac:(lia) eq_refl Er) as [B _]. split; [exact B|exact I].
  - eapply (copied_change _ _ DISTRICT_TABLE_ID); [by apply (bool_decide_unpack _)|exact Cd|exact Ed|]. intros r Er.
    destruct (change_double_becomes _ _ 9 _ _ Td ltac:(lia) eq_refl Er) as [B S]. split; [exact B|].
    assert (used (district_row (pay_d_id_ p) (pay_w_id_ p))) as U by is_used.
    pose proof (used_numbers _ _ _ _ _ _ H U Kd Cd) as N.
    change (counter 10 1 (2 ^ 31 - 1 - (n + 1)) (hd_record cd)) in N. change (counter 10 1 (2 ^ 31 - 1 - n) r).
    eapply (counter_same _ _ _ _ _ _ _ S); [by vm_compute|done|]. eapply counter_mono; [|exact N]. lia.
  - eapply (copied_change _ _ CUSTOMER_TABLE_ID); [by apply (bool_decide_unpack _)|exact Cc|exact Ec|]. intros r Er.
    assert (used (customer_row (pay_c_id_ p) (pay_c_d_id_ p) (pay_c_w_id_ p))) as U by is_used.
    pose proof (used_numbers _ _ _ _ _ _ H U Kc Cc) as N.
    by eapply pay_customer_numbers; [exact Tc|reflexivity|exact N|exact Er].
Qed.

Lemma arr_get_first {A} (P : A → Prop) (l : list A) cnt i x : arr_get l i = Some x → 0 ≤ i < cnt → Forall P (take (Z.to_nat cnt) l) → P x.
Proof.
  unfold arr_get. destruct (Z.ltb_spec i 0); [done|]. intros E Hi F. apply (Forall_lookup_1 _ _ (Z.to_nat i) _ F).
  rewrite lookup_take_lt by lia. exact E.
Qed.

(** What [mapM] gives over the lines. *)
Lemma lines_all {B} (f : Z → option B) (P : B → Prop) cnt ys : mapM f (seqZ 0 cnt) = Some ys →
  (∀ i y, 0 ≤ i < cnt → f i = Some y → P y) → Forall P ys.
Proof.
  intros E H. apply mapM_Some in E as F. apply Forall_forall. intros y Hy. apply list_elem_of_lookup in Hy as [j Hj].
  destruct (Forall2_lookup_r _ _ _ _ _ F Hj) as (i & Hi & Ei). apply lookup_seqZ in Hi as [-> Hj']. eapply H; [|exact Ei]. lia.
Qed.

Lemma item_copied n h p w i x : ready (n + 1) h → order_param_ok sp w p → warehouse_id sp w → 0 ≤ i < ol_cnt_ p →
  ref_item sp tables m p h i = Some x → copied n h x.1.1.
Proof.
  intros H [Hw _ _ _ [_ Fi] _ _ _ _] Hww Hi E. unfold ref_item in E. apply bind_Some in E as (id & Ei & E).
  apply bind_Some in E as (key & Ek & E). apply bind_Some in E as (ty & _ & E). apply bind_Some in E as (y & Ey & E).
  apply bind_Some in E as (? & _ & E). apply bind_Some in E as (? & _ & [= <-]). cbn [fst].
  pose proof (arr_get_first _ _ _ _ _ Ei Hi Fi) as Hid. cbv beta in Hid.
  assert (used (item_row id (no_w_id_ p))) as U by is_used.
  eapply (copied_same _ _ ITEM_TABLE_ID); [by apply (bool_decide_unpack _)|exact Ey|].
  exact (used_numbers _ _ _ _ _ _ H U Ek Ey).
Qed.

Lemma stock_copied n h p w i x : db_ok tables fuel k own m h → ready (n + 1) h → order_param_ok sp w p → 0 ≤ i < ol_cnt_ p →
  ref_stock tables m p h i = Some x → copied n h x.1.
Proof.
  intros D H [_ _ _ _ [_ Fi] Fw Fq _ _] Hi E. unfold ref_stock in E. apply bind_Some in E as (id & Ei & E).
  apply bind_Some in E as (sw & Ew & E). apply bind_Some in E as (ty & _ & E). apply bind_Some in E as (y & Ey & E).
  apply bind_Some in E as (q & Eq & E). apply bind_Some in E as (x' & Ex & E).
  apply bind_Some in E as (? & _ & E). apply bind_Some in E as (? & _ & E). apply bind_Some in E as (? & _ & [= <-]). cbn [fst].
  pose proof (arr_get_first _ _ _ _ _ Ei Hi Fi) as Hid. pose proof (arr_get_first _ _ _ _ _ Ew Hi Fw) as Hsw.
  pose proof (arr_get_first _ _ _ _ _ Eq Hi Fq) as Hq. cbv beta in Hid, Hq.
  assert (used (stock_row id sw)) as U by is_used.
  pose proof (typed_of h _ _ _ y _ D Ey eq_refl eq_refl) as T.
  eapply (copied_change _ _ STOCK_TABLE_ID); [by apply (bool_decide_unpack _)|exact Ey|exact Ex|]. intros r Er.
  eapply update_stock_numbers; [exact T|reflexivity|exact Hq| |exact Er].
  exact (used_numbers _ _ _ _ _ _ H U eq_refl Ey).
Qed.

Lemma order_copied n h p w copies rows out : db_ok tables fuel k own m h → ready (n + 1) h →
  order_param_ok sp w p → warehouse_id sp w →
  ref_new_order sp tables m p h = Some (copies, rows, out) → Forall (copied n h) copies.
Proof.
  intros D H Hp Hww E. unfold ref_new_order in E. cbv zeta in E.
  apply bind_Some in E as (items & Eitems & E). apply bind_Some in E as (stocks & Estocks & E).
  apply bind_Some in E as (w_key & Kw & E). apply bind_Some in E as (d_key & Kd & E). apply bind_Some in E as (c_key & Kc & E).
  apply bind_Some in E as (cw & Cw & E). apply bind_Some in E as (cd & Cd & E). apply bind_Some in E as (cc & Cc & E).
  do 3 (apply bind_Some in E as (? & _ & E)). apply bind_Some in E as (d_next & _ & E).
  destruct (negb (0 <? d_next)); [done|]. apply bind_Some in E as (xd & Ed & E).
  do 2 (apply bind_Some in E as (? & _ & E)). apply bind_Some in E as (? & _ & [= <- _ _]).
  pose proof Hp as [Hw Hd Hc _ _ _ _ _ _].
  apply Forall_app_2; [|apply Forall_app_2]; [| |apply Forall_cons_2; [|apply Forall_cons_2; [|apply Forall_singleton]]].
  - apply Forall_fmap. eapply lines_all; [exact Eitems|]. intros i y Hi Ey. by eapply item_copied.
  - apply Forall_fmap. eapply lines_all; [exact Estocks|]. intros i y Hi Ey. by eapply stock_copied.
  - assert (used (warehouse_row (no_w_id_ p))) as U by is_used.
    eapply (copied_same _ _ WAREHOUSE_TABLE_ID); [by apply (bool_decide_unpack _)|exact Cw|exact (used_numbers _ _ _ _ _ _ H U Kw Cw)].
  - assert (used (district_row (no_d_id_ p) (no_w_id_ p))) as U by is_used.
    pose proof (used_numbers _ _ _ _ _ _ H U Kd Cd) as N. pose proof (typed_of h _ _ _ cd _ D Cd eq_refl eq_refl) as Td.
    eapply (copied_change _ _ DISTRICT_TABLE_ID); [by apply (bool_decide_unpack _)|exact Cd|exact Ed|]. intros r Er.
    change (counter 10 1 (2 ^ 31 - 1 - (n + 1)) (hd_record cd)) in N.
    destruct (counter_step _ 10 _ _ _ (2 ^ 31 - 1 - n) _ r Td ltac:(lia) eq_refl Er N) as (B & N' & _); [lia|]. by split.
  - assert (used (customer_row (no_c_id_ p) (no_d_id_ p) (no_w_id_ p))) as U by is_used.
    eapply (copied_same _ _ CUSTOMER_TABLE_ID); [by apply (bool_decide_unpack _)|exact Cc|exact (used_numbers _ _ _ _ _ _ H U Kc Cc)].
Qed.

(** *** What the procedures ask for *)
Lemma first_entries_at cnt v i : 0 ≤ i < cnt → arr_get (first_entries cnt v) i = Some v.
Proof.
  intros Hi. unfold arr_get, first_entries. rewrite (proj2 (Z.ltb_ge _ _)) by lia.
  rewrite lookup_app_l by (rewrite length_replicate; lia). apply lookup_replicate_2. lia.
Qed.

Lemma counter_small n id x col low limit : 0 ≤ n → counter col low limit (hd_record x) → 0 ≤ low → limit ≤ 2 ^ 30 - id * n → 0 ≤ id →
  ∃ v, column_int col (hd_record x) = Some v ∧ small v.
Proof. intros Hn (v & E & Hv) Hl Hlim Hid. exists v. split; [done|]. unfold small. nia. Qed.

Lemma line_ready n h p w i : ready n h → 0 ≤ n → order_param_ok sp w p → warehouse_id sp w → 0 ≤ i < ol_cnt_ p →
  line_possible sp tables m p h i.
Proof.
  intros H Hn [Hw _ _ Hcnt [_ Fi] Fw Fq (L1 & L2 & L3) (Ai & As & _ & _ & _ & _ & _ & Al)] Hww Hi.
  destruct (arr_get_Some (i_ids_ p) i) as [id Eid]; [lia|]. destruct (arr_get_Some (i_w_ids_ p) i) as [sw Esw]; [lia|].
  destruct (arr_get_Some (i_qtys_ p) i) as [q Eq]; [lia|].
  pose proof (arr_get_first _ _ _ _ _ Eid Hi Fi) as Hid. pose proof (arr_get_first _ _ _ _ _ Esw Hi Fw) as Hsw.
  pose proof (arr_get_first _ _ _ _ _ Eq Hi Fq) as Hq. cbv beta in Hid, Hq.
  destruct (ready_copy n h (item_row id (no_w_id_ p)) READ_ONLY H) as (ik & xi & Eik & Exi & _); [is_used|by left|].
  destruct (ready_copy n h (stock_row id sw) READ_WRITE H) as (sk & xs & Esk & Exs & Nxs); [is_used|by right|].
  injection Esk as <-. destruct Nxs as (C2 & C13 & C14 & C15). split.
  - exists id, ik, READ_ONLY, xi. rewrite Ai, first_entries_at by lia. done.
  - exists q. split; [done|]. unfold small. lia.
  - exists id, sw, READ_WRITE, xs. rewrite As, first_entries_at by lia. split_and!; [done..|].
    intros col [->|[->|[->| ->]]]; [eapply (counter_small n 0)|eapply (counter_small n 10)|eapply (counter_small n 1)..];
      try eassumption; lia.
  - rewrite Al, first_entries_at by lia. done.
Qed.

Lemma order_ready n h p w : num_districts_per_warehouse_ sp ≤ 10 → ready n h → 1 ≤ n → order_param_ok sp w p → warehouse_id sp w →
  ∃ d_next_o_id, order_possible sp tables m p h d_next_o_id.
Proof.
  intros Hd10 H Hn Hp Hww. pose proof Hp as [Hw Hd Hc _ _ _ _ _ (_ & _ & Aw & Ad & Ac & _ & _ & _)].
  destruct (ready_copy n h (warehouse_row (no_w_id_ p)) READ_ONLY H) as (wk & xw & Ewk & Exw & _); [is_used|by left|].
  destruct (ready_copy n h (district_row (no_d_id_ p) (no_w_id_ p)) READ_WRITE H) as (dk & xd & Edk & Exd & d & Ed & Hrd); [is_used|by right|].
  destruct (ready_copy n h (customer_row (no_c_id_ p) (no_d_id_ p) (no_w_id_ p)) READ_ONLY H) as (ck & xc & Eck & Exc & _); [is_used|by left|].
  exists d. split; [lia| | | |lia|].
  - exists wk, xw. by rewrite Aw.
  - exists dk, xd. by rewrite Ad.
  - exists ck, xc. by rewrite Ac.
  - intros i Hi. eapply line_ready; [exact H|lia|exact Hp|done|done].
Qed.
End ready.

(** ** One transaction *)
Section transaction.
Context {S : Type} {J : Indeterminate} {G : GAlloc S} {GH : GHeap S}.
Context (sp : TpccScaleParams) (tables : list Table) (fuel k : nat) (thread_id : Z).
Context (own : nat → GlobalAddress → Prop) (m : nat → Z → list GlobalAddress) (HT : tpcc_tables tables).
Context (Hone : starting_warehouse_ sp = 1 ∧ ending_warehouse_ sp = num_warehouses_ sp).
Context (Hd10 : num_districts_per_warehouse_ sp ≤ 10).
Abbreviation alone := (alone tables fuel k own m).
Abbreviation ready := (ready sp tables m).
Implicit Types (w : thread S).

Lemma alone_weaken n n' w h : n' ≤ n → alone n w h [] [] → alone n' w h [] [].
Proof. intros Hn [? ? ? ? ? ?]. split; (done || lia). Qed.

Lemma commit_ready n h copies rows h' : db_ok tables fuel k own m h → Forall (copied tables m n h) copies → adds h rows h' →
  ready (n + 1) h → ready n (commit_heap copies h').
Proof.
  intros D F Ha H r Hr. destruct (H r Hr) as (key & Ek & Hk). exists key. split; [done|].
  eapply commit_readable; [exact HT|exact D|exact F| |apply Hr|exact Hk]. intros a bs. by eapply adds_keep.
Qed.

(** The memory for the records of a transaction with 15 lines. *)
Definition txn_room : Z := 50 + 77 * 15.

Lemma wp_transaction n r p home ret w h : alone (txn_room + r) w h [] [] → ready (n + 1) h → 0 ≤ n → 0 ≤ r →
  param_ok sp home p → warehouse_id sp home → size_ ret = 0 → 1024 ≤ len (char_ptr_ ret) →
  wpd (Execute (L := dsm_locks) sp tables fuel thread_id p ret) (λ res w', res.1 = true ∧
    length (char_ptr_ res.2) = length (char_ptr_ ret) ∧ ∃ h', alone r w' h' [] [] ∧ ready n h') w.
Proof.
  intros A H Hn Hr Hp Hw Hs Hl. pose proof (al_db _ _ _ _ _ _ _ _ _ _ A) as D. unfold txn_room in A.
  destruct p as [|p|p| |]; try done; cbn [Execute param_ok] in *.
  - destruct (order_ready sp tables m Hone (n + 1) h p home Hd10 H ltac:(lia) Hp Hw) as [d_next Hpo].
    pose proof (op_count _ _ _ Hp) as Hcnt.
    destruct (new_order_defined sp tables fuel k own m p HT h d_next) as (copies & rows & out & Href & Hlo & _ & _); [done|lia|done|].
    destruct (append_ret_fits out ret) as (ret1 & Er & Es & El); [lia|lia|].
    eapply (wp_new_order sp tables fuel k own m thread_id p (1155 - 77 * ol_cnt_ p + r)); [done|lia|lia| |exact Href|lia|exact Er|].
    { eapply alone_weaken; [|exact A]. lia. }
    intros w' h' Ha A'. split; [done|]. split; [exact El|]. eexists. split; [eapply alone_weaken; [|exact A']; lia|].
    eapply commit_ready; [exact D| |exact Ha|exact H]. by eapply order_copied.
  - pose proof Hp as [Hhome Hd (Hcw & Hcd & Hc) _ (Aw & Ad & Ac & _)].
    assert (∀ r, valid sp r → match r with item_row _ _ | stock_row _ _ | warehouse_row _ | district_row _ _ | customer_row _ _ _ => True | _ => False end →
      ∃ key x, row_key sp r = Some key ∧ copy_at tables m h (row_table r) key READ_WRITE = Some x ∧ numbers (n + 1) (row_table r) (hd_record x)) as Hc'.
    { intros r0 V U. eapply ready_copy; [exact H|by apply used_row|by right]. }
    destruct (Hc' (warehouse_row (pay_w_id_ p))) as (wk & xw & Ewk & Exw & _); [cbn; unfold of_partition, warehouse_id in *; lia|done|].
    destruct (Hc' (district_row (pay_d_id_ p) (pay_w_id_ p))) as (dk & xd & Edk & Exd & _); [cbn; unfold of_partition, warehouse_id in *; lia|done|].
    destruct (Hc' (customer_row (pay_c_id_ p) (pay_c_d_id_ p) (pay_c_w_id_ p))) as (ck & xc & Eck & Exc & cnt & Ecnt & Hcnt);
      [cbn; unfold of_partition, warehouse_id in *; lia|done|].
    rewrite <-Aw in Exw. rewrite <-Ad in Exd. rewrite <-Ac in Exc.
    destruct (paying_ok tables fuel k own m p h xw xd xc wk dk ck cnt (cnt + 1))
      as (w_ytd & d_ytd & bal & ytd & rw & rd & rc1 & rc2 & rc3 & row & P); [done|done|done..|apply int_of_ok; lia|].
    destruct (append_ret_fits (double_bytes w_ytd) ret) as (ret1 & Er1 & Es1 & El1); [lia|rewrite double_bytes_len; lia|].
    destruct (append_ret_fits (double_bytes d_ytd) ret1) as (ret2 & Er2 & _ & El2);
      [rewrite Es1, double_bytes_len; lia|rewrite Es1, !double_bytes_len; lia|].
    assert (alone (69 + (1136 + r)) w h [] []) as A1 by (eapply alone_weaken; [|exact A]; lia).
    eapply wpd_mono; [eapply (wp_payment sp tables fuel k own m thread_id p h xw xd xc wk dk ck);
      [done|exact A1|lia|exact Ewk|exact Edk|exact Eck|exact Exw|exact Exd|exact Exc|exact P|exact Er1|exact Er2]|].
    intros [ok ret'] w' (h' & [= -> ->] & Ha & A'). split; [done|]. cbn [snd]. split; [by rewrite El2|].
    eexists. split; [eapply alone_weaken; [|exact A']; lia|].
    eapply commit_ready; [exact D| |exact Ha|exact H].
    eapply payment_copied; [done|done|exact D|exact H|exact Hp|exact Hw|]. by eapply paying_ref.
Qed.
End transaction.

(** ** The benchmark *)
Section populated.
Context {J : Indeterminate} (sp : TpccScaleParams) (tables : list Table) (fuel k : nat).
Context (own : nat → GlobalAddress → Prop) (m : nat → Z → list GlobalAddress) (HT : tpcc_tables tables).
Implicit Types (h : heap).

(** The columns of the numbers of a row that was inserted. *)
Lemma stored_counter h rec calls key ty x p col v o low limit : db_ok tables fuel k own m h → copy_at tables m h (record_table rec) key ty = Some x →
  stores rec (hd_record x) → zip (seqZ 0 10) tpcc_sizes !! Z.to_nat (record_table rec) = Some p → last p.2 = Some 1 →
  record_calls rec = Some calls → (col, int_bytes v, o) ∈ calls → 0 ≤ col → p.2 !! Z.to_nat col = Some 4 →
  low ≤ v < limit → - 2 ^ 31 ≤ v < 2 ^ 31 → counter col low limit (hd_record x).
Proof.
  intros D E St Hp Hl Ec Hin H0 H4 Hv Hi. exists v. split; [|done]. apply column_int_of; [done|].
  exact (stores_get rec calls p (hd_record x) col _ o 4 St (typed_of tables fuel k own m HT h _ _ _ x p D E Hp Hl) Ec Hin H0 H4).
Qed.

Lemma record_table_row rec : row_table (record_row rec) = record_table rec.
Proof. by destruct rec. Qed.

Lemma populated_numbers n h rec key ty x : scale_ok sp → 0 ≤ n < 2 ^ 25 → db_ok tables fuel k own m h → TpccRows.fresh sp rec →
  copy_at tables m h (record_table rec) key ty = Some x → stores rec (hd_record x) → numbers n (record_table rec) (hd_record x).
Proof.
  intros Hsp Hn D Hf E St. destruct rec as [r|r|r|r|r|r|r|r|r|r]; cbn [TpccRows.fresh] in Hf; try exact I.
  - pose proof (so_customers _ Hsp).
    eapply (stored_counter h _ _ key ty x _ 10 _ None 1 _ D E St eq_refl eq_refl eq_refl); [|lia|reflexivity|..].
    + do 10 right. left.
    + lia.
    + lia.
  - eapply (stored_counter h _ _ key ty x _ 18 _ None 0 _ D E St eq_refl eq_refl eq_refl); [|lia|reflexivity|..].
    + do 18 right. left.
    + lia.
    + lia.
  - destruct Hf as (Hq & Hy & Ho & Hr). pose proof St as (calls & Ec & _). pose proof Ec as Ec'.
    cbn [record_calls] in Ec'. unfold stock_calls in Ec'. apply bind_Some in Ec' as (dists & _ & [= Hc]).
    assert (∀ c, c ∈ [set_int 2 (s_quantity_ r); set_int 13 (s_ytd_ r); set_int 14 (s_order_cnt_ r); set_int 15 (s_remote_cnt_ r)] → c ∈ calls) as Hin.
    { intros c. rewrite <-Hc, !elem_of_cons, elem_of_app, !elem_of_cons, elem_of_nil. tauto. }
    split_and!.
    + eapply (stored_counter h _ _ key ty x _ 2 _ None 0 _ D E St eq_refl eq_refl Ec); [apply Hin; left|lia|reflexivity|lia|lia].
    + eapply (stored_counter h _ _ key ty x _ 13 _ None 0 _ D E St eq_refl eq_refl Ec); [apply Hin; right; left|lia|reflexivity|lia|lia].
    + eapply (stored_counter h _ _ key ty x _ 14 _ None 0 _ D E St eq_refl eq_refl Ec); [apply Hin; do 2 right; left|lia|reflexivity|lia|lia].
    + eapply (stored_counter h _ _ key ty x _ 15 _ None 0 _ D E St eq_refl eq_refl Ec); [apply Hin; do 3 right; left|lia|reflexivity|lia|lia].
Qed.

(** The populator leaves what [n] transactions need. *)
Lemma populated_ready n h (rows : list tpcc_record) : scale_ok sp → 0 ≤ n < 2 ^ 25 → db_ok tables fuel k own m h →
  (∀ r, certain sp r → r ∈ record_row <$> rows) → (∀ rec, rec ∈ rows → TpccRows.fresh sp rec ∧ finds sp tables m h rec) →
  ready sp tables m n h.
Proof.
  intros Hsp Hn D Hall Hrows r [V U].
  assert (r ∈ record_row <$> rows) as Hr.
  { apply Hall. split; [exact V|]. destruct r; try done. by apply (bool_decide_pack _) in U. }
  apply list_elem_of_fmap in Hr as (rec & -> & Hrec). destruct (Hrows rec Hrec) as [Hf (key & Ek & Hfind)].
  destruct (Hfind READ_WRITE) as (x & Ex & Hst); [by right|]. exists key. split; [exact Ek|].
  rewrite record_table_row. exists x. split; [exact Ex|]. by eapply populated_numbers.
Qed.
End populated.

(** *** [main]

    [TpccBenchmarkMain.cpp] with one thread: the master makes the storage, every partition reads
    it, populates, generates, and executes its batches twice, with fences between. *)
Section main.
Context {S : Type} {J : Indeterminate} {G : GAlloc S} {R : Random} {L : RecordLocks S}.
Context (sp : TpccScaleParams) (lock : GlobalAddress → Z → DB S unit) (fuel draw_fuel retry_fuel : nat) (conf : settings).
Context (iteration : list (Z * Z) → list (Z * Z)) (finished : nat → bool) (buffer : list Z).

(** A part with a state of its own, made from the memory. *)
Definition part {T A} (enter : S → T) (leave : T → S) (m : DB T A) : DB S (A * T) := λ s,
  match m (enter s) with Done a t => Done (a, t) (leave t) | Raise e t => Raise e (leave t) end.
(** A part that does not use the memory. *)
Definition apart {T A} (t : T) (m : DB T A) : DB S (A * T) := λ s,
  match m t with Done a t => Done (a, t) s | Raise e _ => Raise e s end.

Definition populate (rand : rand_state) (tables : list Table) : DB S (rand_state * list Table) :=
  '(_, p) ← part (mk_populator rand new_structs (tables, new_bufs tables)) pop_store (StartPopulate sp lock fuel draw_fuel);
  mret (pop_rand p, (pop_tables p).1).
Definition generate (consts : constants) (rand : rand_state) : DB S (IORedirector (ParamBatch TxnParam)) :=
  '(_, x) ← apart (new_TpccSource rand (new_IORedirector (src_thread_count_ conf)))
    (StartGeneration sp consts conf draw_fuel iteration PARTITION_SOURCE);
  mret (redirector_ptr_ x).
Definition execute (tables : list Table) (redirector : IORedirector (ParamBatch TxnParam)) : DB S (bool * progress) :=
  batches ← in_array (GetParameterBatches 0 redirector);
  '(r, _) ← part (λ s, mk_thread s [] []) th_mem
    (ProcessQueryThread (Execute sp tables fuel 0) finished retry_fuel buffer batches);
  mret r.

(** The random constants are static; the rest is [main] after it has read its arguments and the
    configuration, and made its caches. *)
Definition benchmark (store : KeyStore S) (config : ClusterConfig) (rand : rand_state) :
    DB (ClusterSync S) ((bool * progress) * (bool * progress)) :=
  '(consts, rand) ← on_store (apart rand make_constants);
  Fence store config;;
  master ← is_master config;
  storage_addr ← on_store (InitStorage master);
  storage_addr ← MasterBroadcast store config (to_bytes storage_addr);
  storage_manager ← on_store (storage_Deserialize (of_bytes storage_addr));
  '(rand, tables) ← on_store (populate rand (tables_ storage_manager));
  Fence store config;;
  redirector ← on_store (generate consts rand);
  Fence store config;;
  warm_up ← on_store (execute tables redirector);
  Fence store config;;
  Fence store config;;
  measured ← on_store (execute tables redirector);
  Fence store config;;
  mret (warm_up, measured).
End main.

(** *** The run *)
Section run.
Context {S : Type} {J : Indeterminate} {G : GAlloc S} {R : Random} {GH : GHeap S}.
Context (sp : TpccScaleParams) (lock : GlobalAddress → Z → DB S unit) (fuel retry_fuel K : nat) (conf : settings).
Context (iteration : list (Z * Z) → list (Z * Z)) (finished : nat → bool) (buffer : list Z).
#[local] Existing Instance dsm_locks.

Lemma wp_part {T A} (enter : S → T) (leave : T → S) (m : DB T A) (Q : A * T → S → Prop) s :
  wpd m (λ a t, Q (a, t) (leave t)) (enter s) → wpd (part enter leave m) Q s.
Proof. unfold wpd, part. by destruct (m (enter s)). Qed.
Lemma wp_apart {T A} (t : T) (m : DB T A) (Q : A * T → S → Prop) s : wpd m (λ a t, Q (a, t) s) t → wpd (apart t m) Q s.
Proof. unfold wpd, apart. by destruct (m t). Qed.

Lemma wp_execute tables k own m c e r redirector mine ls s h (Q : bool * progress → S → Prop) :
  tpcc_tables tables → starting_warehouse_ sp = 1 ∧ ending_warehouse_ sp = num_warehouses_ sp → num_districts_per_warehouse_ sp ≤ 10 →
  heap_ok s h → db_ok tables fuel k own m h → txn_room * c + r ≤ room s → ready sp tables m (c + e) h → 0 ≤ e → 0 ≤ r →
  GetParameterBatches 0 redirector = Some mine → Forall2 holds mine ls → len (concat ls) = c → c < 2 ^ 31 →
  Forall (λ p, ∃ home, warehouse_id sp home ∧ param_ok sp home p) (concat ls) → len buffer = 1024 → (∀ i, finished i = false) →
  (∀ p s' h', pr_count p = c → pr_abort_count p = 0 → heap_ok s' h' → db_ok tables fuel k own m h' → r ≤ room s' →
     ready sp tables m e h' → Q (false, p) s') →
  wpd (execute sp fuel retry_fuel finished buffer tables redirector) Q s.
Proof.
  intros HT Hone Hd10 Hok D Hroom Hr He Hr0 Eb F Hc Hc31 Fp Hbuf Hfin HQ. unfold execute. wpd_step.
  eapply wpd_in_array; [exact Eb|]. wpd_step. apply wp_part.
  unfold ProcessQueryThread, wpd. rewrite (process_batches_list _ _ _ _ _ _ _ F).
  match goal with |- match ?m ?s with Done a t => @?Q a t | Raise _ _ => False end => change (wpd m Q s) end.
  eapply wpd_mono; [apply (wp_process_list_all _ _ 1024 (λ j w, ∃ h, alone tables fuel k own m (txn_room * Z.of_nat j + r) w h [] [] ∧
    ready sp tables m (Z.of_nat j + e) h))|].
  - intros j p ret w Hp (h1 & A & H1) Hs Hl.
    destruct (proj1 (Forall_forall _ _) Fp p Hp) as (home & Hhome & Hpok).
    eapply wpd_mono; [eapply (wp_transaction sp tables fuel k 0 own m HT Hone Hd10 (Z.of_nat j + e) (txn_room * Z.of_nat j + r) p home ret);
      [|replace (Z.of_nat j + e + 1) with (Z.of_nat (Datatypes.S j) + e) by lia; exact H1|lia|unfold txn_room; lia|exact Hpok|exact Hhome|exact Hs|lia]|].
    { eapply alone_weaken; [|exact A]. unfold txn_room. lia. }
    intros [ok ret'] w' (Hok' & Hl' & h' & A' & H'). split; [exact Hok'|]. split; [congruence|]. by exists h'.
  - exact Hfin.
  - cbn. lia.
  - cbn. lia.
  - cbn. lia.
  - exists h. rewrite Hc. split; [|exact Hr]. split; cbn [th_mem th_accesses]; [done|done| |done|done|lia].
    split; [by apply Forall2_nil_2|by apply NoDup_nil_2].
  - intros [b p] w (Hb & Hcnt & Hab & h' & A & H'). cbn [fst snd] in *. subst b. change (Q (false, p) (th_mem w)).
    eapply HQ; [cbn in Hcnt; lia|exact Hab|exact (al_mem _ _ _ _ _ _ _ _ _ _ A)|exact (al_db _ _ _ _ _ _ _ _ _ _ A)| |exact H'].
    pose proof (al_room _ _ _ _ _ _ _ _ _ _ A). lia.
Qed.

Lemma dealt_one {B} (bs : list B) first : dealt 1 first 0 bs = bs.
Proof. revert first. induction bs as [|b bs IH]; intros first; cbn [dealt]; [done|]. by rewrite Z.mod_1_r, IH. Qed.

Lemma wp_generate consts rand s (Q : IORedirector (ParamBatch TxnParam) → S → Prop) :
  source_ok sp consts K → gStandard conf = true → src_thread_count_ conf = 1 → 0 < gParamBatchSize conf → 0 ≤ num_txn_ conf →
  (∀ redirector mine ls, GetParameterBatches 0 redirector = Some mine → Forall2 holds mine ls → len (concat ls) = num_txn_ conf →
     Forall (λ p, ∃ home, warehouse_id sp home ∧ param_ok sp home p) (concat ls) → Q redirector s) →
  wpd (generate sp (2 * K) conf iteration consts rand) Q s.
Proof.
  intros Hok Hstd H1 HB Hn HQ. unfold generate. wpd_step. apply wp_apart.
  eapply wpd_mono; [apply wp_StartGeneration; [exact Hok|exact Hstd|lia|exact HB|exact Hn|cbn; by rewrite H1]|].
  intros [] x (bs & lss & [F Hc _ Hs Ht]). cbv beta iota. wpd_step. rewrite H1 in Ht.
  pose proof (Ht 0 ltac:(lia)) as E. rewrite dealt_one in E. eapply HQ; [exact E|exact F|exact Hc|].
  apply Forall_concat, Forall_forall. intros ls Hls. apply list_elem_of_lookup in Hls as [j Hj].
  eapply Forall_impl; [exact (Hs j ls Hj)|]. intros p (home & [Hh _] & Hp). exists home. split; [|done].
  destruct Hok as [_ _ HW _ _ _ _]. unfold warehouse_id. lia.
Qed.

Lemma wp_populate n rand tables own s h (Q : rand_state * list Table → S → Prop) :
  scale_ok sp → lock_returns lock → fair K → num_items_ sp ≤ RAND_MAX ∧ num_customers_per_district_ sp ≤ RAND_MAX →
  (length (all_rows sp) ≤ fuel)%nat → 0 ≤ n < 2 ^ 25 → (1024 + insert_room) * len (all_rows sp) + txn_room * n ≤ room s →
  heap_ok s h → tpcc_tables tables → tables_rep 0 h tables own (λ _ _, []) →
  (∀ rand' tables' k own' m' s' h', tpcc_tables tables' → heap_ok s' h' → db_ok tables' fuel k own' m' h' →
     txn_room * n ≤ room s' → ready sp tables' m' n h' → Q (rand', tables') s') →
  wpd (populate sp lock fuel (2 * K) rand tables) Q s.
Proof.
  intros Hsp Hlock HF HR Hfuel Hn Hroom Hok HT Rep HQ. unfold populate. wpd_step. apply wp_part.
  assert (0 ≤ txn_room * n) as Ht by (unfold txn_room; lia).
  assert (0 ≤ 1024 + insert_room) as Hir by (by vm_compute).
  eapply wpd_mono; [eapply (wp_StartPopulate sp lock fuel K tables own rand s h); [done|done|done|done|done|lia|done..]|].
  intros [] p (rows & own' & m' & h' & Hok' & HT' & D & _ & Hall & Hrows & Hr & Hl). cbv beta iota. wpd_step.
  eapply HQ; [exact HT'|exact Hok'|exact D|nia|].
  eapply populated_ready; [exact HT'|exact Hsp|exact Hn|exact D|exact Hall|]. intros rec Hrec.
  by destruct (Hrows rec Hrec) as (_ & ? & ?).
Qed.
End run.

(** A store whose [Put] returns and leaves the memory as it is. *)
Definition puts_return {S} `{GHeap S} (store : KeyStore S) : Prop :=
  ∀ key value s h, heap_ok s h → wpd (Put key value) (λ _ s', heap_ok s' h ∧ room s' = room s) s.

Lemma wp_quiet_fence {S} {J : Indeterminate} {G : GAlloc S} {GH : GHeap S} (store : KeyStore S) config s h (Q : unit → ClusterSync S → Prop) :
  puts_return store → server_info_ config = [my_info_ config] → heap_ok (memory s) h →
  (∀ s', heap_ok (memory s') h → room (memory s') = room (memory s) → Q () s') → wpd (Fence store config) Q s.
Proof.
  intros Hput Hone Hok HQ. apply wp_Fence; [done|]. intros key value. eapply wpd_mono; [by apply Hput|].
  intros [] m' [Hok' Hr] k'. by apply HQ.
Qed.

(** C3: The benchmark runs to its end: on one node with one thread, with
    - a scale of 15 to [2 ^ 30] items, 1 to 10 districts for each of at most 63 warehouses,
      all of them the node's own, and at least one customer for each district, at least as many
      as new orders, and no more items and customers than [RAND_MAX] ([scale_ok],
      [source_ok]),
    - the standard mix of transactions (neither -r nor -l, [gStandard]), batches of at least one and
      fewer than [2 ^ 24] transactions,
    - a bucket lock that always returns, the record locks of [DSM], which do nothing, a store of
      keys whose [Put] returns (those of [DSM] throw), random numbers in which every pair of
      numbers comes up within [K] pairs of draws, and
    - memory for the storage, the rows and the transactions,
    [main], from an empty memory, with all its fences, makes the storage, broadcasts its address, reads
    it back, populates the empty tables, generates [num_txn_] transactions and executes
    them twice, and both times every one of them is executed at the first attempt: no search
    fails, no assertion, no counter overflows, and nothing is aborted. *)
Theorem benchmark_runs {S} {J : Indeterminate} {G : GAlloc S} {GH : GHeap S} {R : Random} sp lock fuel retry_fuel K conf
    iteration finished buffer store config rand (s : ClusterSync S) h :
  scale_ok sp → (∀ consts, constants_ok consts → source_ok sp consts K) →
  starting_warehouse_ sp = 1 ∧ ending_warehouse_ sp = num_warehouses_ sp → num_districts_per_warehouse_ sp ≤ 10 →
  lock_returns lock → num_customers_per_district_ sp ≤ RAND_MAX →
  gStandard conf = true → src_thread_count_ conf = 1 → 0 < gParamBatchSize conf → 0 ≤ num_txn_ conf < 2 ^ 24 →
  len buffer = 1024 → (∀ i, finished i = false) → (length (all_rows sp) ≤ fuel)%nat →
  storage_room + (1024 + insert_room) * len (all_rows sp) + txn_room * (2 * num_txn_ conf) ≤ room (memory s) →
  puts_return store → server_info_ config = [my_info_ config] → heap_ok (memory s) h →
  wpd (benchmark (L := dsm_locks) sp lock fuel (2 * K) retry_fuel conf iteration finished buffer store config rand) (λ r _,
    r.1.1 = false ∧ pr_count r.1.2 = num_txn_ conf ∧ pr_abort_count r.1.2 = 0 ∧
    r.2.1 = false ∧ pr_count r.2.2 = num_txn_ conf ∧ pr_abort_count r.2.2 = 0) s.
Proof.
  intros Hsp Hsrc Hone Hd10 Hlock HR Hstd H1 HB Hn Hbuf Hfin Hfuel Hroom Hput Hcfg Hok. unfold benchmark.
  assert (0 ≤ storage_room ∧ 0 ≤ 1024 + insert_room ∧ 0 ≤ txn_room) as (Hsr & Hir & Htr) by (unfold txn_room; split_and!; by vm_compute).
  wpd_step. apply wp_on_store, wp_apart, wp_make_constants. intros consts rand1 Hc. cbv beta iota. pose proof (Hsrc consts Hc) as So.
  wpd_step. eapply wp_quiet_fence; [done..|]. intros s0 Hok0 Er0. cbn [memory] in Er0.
  wpd_step. apply wp_is_master; [done|]. wpd_step. apply wp_on_store. eapply wp_InitStorage; [exact Hok0|nia|].
  intros a st cs own h1 m1 Hok1 W At Va HT _ Rep _ Hr1.
  wpd_step. apply wp_MasterBroadcast; [done|]. intros key. eapply wpd_mono; [by apply Hput|]. intros [] m1' [Hok1' Er1] k1.
  wpd_step. rewrite of_to_bytes by exact Va. apply wp_on_store. eapply wp_storage_Deserialize; [exact Hok1'|exact At|exact W|].
  intros m2 Hok2 Er2. cbn [memory] in Er2.
  wpd_step. apply wp_on_store. eapply (wp_populate sp lock fuel K (2 * num_txn_ conf));
    [done|done|exact (sc_fair _ _ _ So)|split; [apply (sc_items _ _ _ So)|done]|done|lia| |exact Hok2|exact HT|exact Rep|].
  { cbn [memory sync_key_] in *. lia. }
  intros rand2 tables2 k own2 m3 s3 h3 HT3 Hok3 D3 Hr3 Rd3. cbv beta iota.
  wpd_step. eapply wp_quiet_fence; [done..|]. intros s4 Hok4 Er4. cbn [memory] in Er4.
  wpd_step. apply wp_on_store, wp_generate; [done|done|done|done|lia|]. intros redirector mine ls Eb F Hcl Fp.
  wpd_step. eapply wp_quiet_fence; [done|done|exact Hok4|]. intros s5 Hok5 Er5. cbn [memory] in Er5.
  wpd_step. apply wp_on_store. eapply (wp_execute sp fuel retry_fuel finished buffer tables2 k own2 m3 (num_txn_ conf) (num_txn_ conf)
    (txn_room * num_txn_ conf)); [done|done|done|exact Hok5|exact D3|lia| |lia|nia|exact Eb|exact F|done|lia|exact Fp|done|done|].
  { by replace (num_txn_ conf + num_txn_ conf) with (2 * num_txn_ conf) by lia. }
  intros p1 s6 h6 Hc1 Ha1 Hok6 D6 Hr6 Rd6.
  wpd_step. eapply wp_quiet_fence; [done|done|exact Hok6|]. intros s7 Hok7 Er7. cbn [memory] in Er7.
  wpd_step. eapply wp_quiet_fence; [done|done|exact Hok7|]. intros s8 Hok8 Er8.
  wpd_step. apply wp_on_store. eapply (wp_execute sp fuel retry_fuel finished buffer tables2 k own2 m3 (num_txn_ conf) 0 0);
    [done|done|done|exact Hok8|exact D6|lia|by rewrite Z.add_0_r|lia|lia|exact Eb|exact F|done|lia|exact Fp|done|done|].
  intros p2 s9 h9 Hc2 Ha2 Hok9 _ _ _. wpd_step. eapply wp_quiet_fence; [done|done|exact Hok9|]. intros s10 _ _.
  wpd_step. cbn [fst snd]. by split_and!.
Qed.

(** Three transactions in batches of two, on the only server of a configuration, over a store
    that keeps nothing. *)
Definition ex_run : settings := mk_settings 3 10 1 0 2 0 0 false true.
Definition ex_server : ServerInfo := mk_ServerInfo [114; 49] 11111.
Definition ex_alone : ClusterConfig := mk_ClusterConfig [ex_server] ex_server.
Definition ex_keys {S} : KeyStore S := {| Put _ _ := mret (); Get _ := raise waits |}.

Lemma benchmark_runs_witness : heap_ok DbFlat.flat_init ∅ ∧
  wpd (benchmark (R := ex_random) (L := dsm_locks) ex_sp free_lock 1000 (2 * ex_K) 10 ex_run id (λ _, false) (replicate 1024 0)
    ex_keys ex_alone (mk_rand_state 0 0)) (λ r _,
    r.1.1 = false ∧ pr_count r.1.2 = 3 ∧ pr_abort_count r.1.2 = 0 ∧
    r.2.1 = false ∧ pr_count r.2.2 = 3 ∧ pr_abort_count r.2.2 = 0) (new_ClusterSync DbFlat.flat_init).
Proof.
  split; [exact flat_init_ok|].
  apply (benchmark_runs (R := ex_random) ex_sp free_lock 1000 10 ex_K ex_run id (λ _, false) (replicate 1024 0) ex_keys ex_alone
    (mk_rand_state 0 0) (new_ClusterSync DbFlat.flat_init) ∅).
  - exact ex_scale.
  - intros consts Hc. split; [exact ex_fair|exact Hc|..]; cbn; lia.
  - split; reflexivity.
  - discriminate.
  - exact free_lock_returns.
  - discriminate.
  - reflexivity.
  - reflexivity.
  - reflexivity.
  - split; [discriminate|reflexivity].
  - reflexivity.
  - reflexivity.
  - apply Nat.leb_le. vm_compute. reflexivity.
  - apply Z.leb_le. vm_compute. reflexivity.
  - intros key value s h Hok. split; [exact Hok|reflexivity].
  - reflexivity.
  - exact flat_init_ok.
Defined.

(** With the store of [DSM] the benchmark ends at its first fence. *)
Lemma benchmark_throws {S} {J : Indeterminate} {G : GAlloc S} {R : Random} {L : RecordLocks S} sp lock fuel draw_fuel retry_fuel conf
    iteration finished buffer config rand (s : ClusterSync S) :
  wpd make_constants (λ _ _, True) rand →
  ∃ k, benchmark sp lock fuel draw_fuel retry_fuel conf iteration finished buffer dsm_keys config rand s =
    Raise runtime_error (mk_ClusterSync (memory s) k).
Proof.
  unfold wpd. intros Hc. eexists. unfold benchmark. unfold mbind at 1, DB_bind at 1, on_store at 1, apart.
  destruct (make_constants rand) as [c r|]; [|done]. cbv beta iota zeta. unfold mbind at 1, DB_bind at 1.
  by rewrite dsm_fence_throws.
Qed.
