(* ===== verification/Utils.v ===== *)
(** * Utils: the other functions of [Hash.h], [FastRandom.h], and the generator of [utils.cpp]

    No code of the repository calls them; they are modelled for completeness: the hashes
    read inside their input, and the generators stay in their ranges. *)
From S2P Require Import Prelude DbStore TpccBase.
From stdpp Require Import base numbers option list list_numbers.
Open Scope Z_scope.

(** ** [Hash.h]

    The input is a list of bytes; a read outside it is undefined. *)
Section hash.
Implicit Types key : list Z.

Definition hash_read (n : Z) (p : Z) key : option Z :=
  if (0 <=? p) && (p + n <=? len key) then Some (le_word 8 (slice p n key)) else None.

(** [murmur2]: unsigned arithmetic on 32 bits. *)
Definition murmur2_m : Z := 1540483477.
Definition u32 (x : Z) : Z := wrap 32 x.
Definition murmur2_mix (h k : Z) : Z :=
  let k := u32 (k * murmur2_m) in
  let k := Z.lxor k (Z.shiftr k 24) in
  let k := u32 (k * murmur2_m) in
  Z.lxor (u32 (h * murmur2_m)) k.
Fixpoint murmur2_words (fuel : nat) (data length h : Z) key : option (Z * Z * Z) :=
  if length <? 4 then Some (data, length, h) else
  match fuel with
  | O => None
  | S fuel => k ← hash_read 4 data key; murmur2_words fuel (data + 4) (length - 4) (murmur2_mix h k) key
  end.
(** The cases fall through. *)
Definition murmur2_rest (data length h : Z) key : option Z :=
  h ← (if length =? 3 then b ← hash_read 1 (data + 2) key; Some (Z.lxor h (Z.shiftl b 16)) else Some h);
  h ← (if (length =? 3) || (length =? 2) then b ← hash_read 1 (data + 1) key; Some (Z.lxor h (Z.shiftl b 8)) else Some h);
  if (length =? 3) || (length =? 2) || (length =? 1) then b ← hash_read 1 data key; Some (u32 (Z.lxor h b * murmur2_m)) else Some h.
Definition murmur2 key (length seed : Z) : option Z :=
  '(data, rest, h) ← murmur2_words (S (Z.to_nat (length / 4))) 0 length (u32 (Z.lxor seed length)) key;
  h ← murmur2_rest data rest h key;
  let h := Z.lxor h (Z.shiftr h 13) in
  let h := u32 (h * murmur2_m) in
  Some (Z.lxor h (Z.shiftr h 15)).

(** [hash_compute]: unsigned arithmetic on 64 bits. *)
Definition NUMBER64_1 : Z := 11400714785074694791.
Definition NUMBER64_2 : Z := 14029467366897019727.
Definition NUMBER64_3 : Z := 1609587929392839161.
Definition NUMBER64_4 : Z := 9650029242287828579.
Definition NUMBER64_5 : Z := 2870177450012600261.
Definition u64 (x : Z) : Z := wrap 64 x.
Definition shifting_hash (x r : Z) : Z := Z.lor (u64 (Z.shiftl x r)) (Z.shiftr x (64 - r)).
(** [v += k * NUMBER64_2; v = shifting_hash(v, 31); v *= NUMBER64_1;] *)
Definition hash_round (v k : Z) : Z := u64 (shifting_hash (u64 (v + k * NUMBER64_2)) 31 * NUMBER64_1).
Definition hash_merge (hash v : Z) : Z :=
  let v := u64 (shifting_hash (u64 (v * NUMBER64_2)) 31 * NUMBER64_1) in
  u64 (Z.lxor hash v * NUMBER64_1 + NUMBER64_4).

Fixpoint hash_stripes (fuel : nat) (p v1 v2 v3 v4 : Z) key (length : Z) : option (Z * Z * Z * Z * Z) :=
  match fuel with
  | O => None
  | S fuel =>
      k1 ← hash_read 8 p key; k2 ← hash_read 8 (p + 8) key; k3 ← hash_read 8 (p + 16) key; k4 ← hash_read 8 (p + 24) key;
      let v1 := hash_round v1 k1 in let v2 := hash_round v2 k2 in let v3 := hash_round v3 k3 in let v4 := hash_round v4 k4 in
      let p := p + 32 in
      if p <=? length - 32 then hash_stripes fuel p v1 v2 v3 v4 key length else Some (p, v1, v2, v3, v4)
  end.
Fixpoint hash_words (fuel : nat) (p hash : Z) key (length : Z) : option (Z * Z) :=
  if length <? p + 8 then Some (p, hash) else
  match fuel with
  | O => None
  | S fuel =>
      k ← hash_read 8 p key;
      let hash := Z.lxor hash (u64 (shifting_hash (u64 (k * NUMBER64_2)) 31 * NUMBER64_1)) in
      hash_words fuel (p + 8) (u64 (shifting_hash hash 27 * NUMBER64_1 + NUMBER64_4)) key length
  end.
Fixpoint hash_bytes (fuel : nat) (p hash : Z) key (length : Z) : option Z :=
  if length <=? p then Some hash else
  match fuel with
  | O => None
  | S fuel =>
      b ← hash_read 1 p key;
      hash_bytes fuel (p + 1) (u64 (shifting_hash (Z.lxor hash (u64 (b * NUMBER64_5))) 11 * NUMBER64_1)) key length
  end.

Definition hash_head key (length seed : Z) : option (Z * Z) :=
  if 32 <=? length then
    '(p, v1, v2, v3, v4) ← hash_stripes (S (Z.to_nat (length / 32))) 0 (u64 (seed + NUMBER64_1 + NUMBER64_2))
      (u64 (seed + NUMBER64_2)) (u64 seed) (u64 (seed - NUMBER64_1)) key length;
    let hash := u64 (shifting_hash v1 1 + shifting_hash v2 7 + shifting_hash v3 12 + shifting_hash v4 18) in
    Some (p, hash_merge (hash_merge (hash_merge (hash_merge hash v1) v2) v3) v4)
  else Some (0, u64 (seed + NUMBER64_5)).
Definition hash_finish (hash : Z) : Z :=
  let hash := Z.lxor hash (Z.shiftr hash 33) in
  let hash := u64 (hash * NUMBER64_2) in
  let hash := Z.lxor hash (Z.shiftr hash 29) in
  let hash := u64 (hash * NUMBER64_3) in
  Z.lxor hash (Z.shiftr hash 32).
(** [align] only chooses between two ways to read the same bytes. *)
Definition hash_compute key (length seed align : Z) : option Z :=
  '(p, hash) ← hash_head key length seed;
  '(p, hash) ← hash_words (Z.to_nat length) p (u64 (hash + length)) key length;
  '(p, hash) ← (if p + 4 <=? length then
    k ← hash_read 4 p key;
    Some (p + 4, u64 (shifting_hash (Z.lxor hash (u64 (k * NUMBER64_1))) 23 * NUMBER64_2 + NUMBER64_3))
    else Some (p, hash));
  hash ← hash_bytes (Z.to_nat length) p hash key length;
  Some (hash_finish hash).
Definition xxhash (data : Z) key (length seed : Z) : option Z :=
  hash_compute key length seed (if Z.land data 7 =? 0 then 1 else 0).

(** The known values of xxHash64 for "", "a" and "abc", and of a key of 40 bytes. *)
Example xxhash_empty : xxhash 0 [] 0 0 = Some 17241709254077376921.
Proof. vm_compute. reflexivity. Qed.
Example xxhash_a : xxhash 0 [97] 1 0 = Some 15154266338359012955.
Proof. vm_compute. reflexivity. Qed.
Example xxhash_abc : xxhash 0 [97; 98; 99] 3 0 = Some 4952883123889572249.
Proof. vm_compute. reflexivity. Qed.
Example xxhash_stripes : xxhash 0 (seqZ 0 45) 45 0 = Some 1224372500617079775.
Proof. vm_compute. reflexivity. Qed.

(** *** Every byte that is read is one of the input *)
Lemma hash_read_inside n p key : 0 ≤ p → p + n ≤ len key → ∃ k, hash_read n p key = Some k.
Proof. intros H0 H1. unfold hash_read. rewrite !(proj2 (Z.leb_le _ _)) by lia. by eexists. Qed.

Lemma fits_lxor w a b : 0 < w → fits w a → fits w b → fits w (Z.lxor a b).
Proof.
  intros Hw [Ha Ha'] [Hb Hb']. assert (0 ≤ Z.lxor a b) as H0 by (apply Z.lxor_nonneg; lia). split; [exact H0|].
  destruct (Z.eq_dec (Z.lxor a b) 0) as [E|Hn]; [rewrite E; apply Z.pow_pos_nonneg; lia|].
  assert (∀ x, 0 ≤ x → x < 2 ^ w → Z.log2 x < w) as Hl.
  { intros x Hx0 Hx. destruct (Z.eq_dec x 0) as [->|]; [exact Hw|]. apply Z.log2_lt_pow2; lia. }
  apply Z.log2_lt_pow2; [lia|]. pose proof (Z.log2_lxor a b Ha Hb). pose proof (Hl a Ha Ha'). pose proof (Hl b Hb Hb'). lia.
Qed.

(** The last step of a hash, [h ^ (h >> n)]. *)
Lemma fits_fold w h n : 0 < w → 0 ≤ n → fits w h → fits w (Z.lxor h (Z.shiftr h n)).
Proof.
  intros Hw Hn [H0 H1]. apply fits_lxor; [done|done|]. rewrite Z.shiftr_div_pow2 by done. pose proof (Z.pow_pos_nonneg 2 n).
  split; [apply Z.div_pos; lia|]. eapply Z.le_lt_trans; [apply Z.div_le_upper_bound with (q := h); nia|done].
Qed.

Lemma murmur2_words_inside fuel data length h key : 0 ≤ data → data + length = len key → 0 ≤ length → length < 4 * Z.of_nat fuel + 4 →
  ∃ data' length' h', murmur2_words fuel data length h key = Some (data', length', h') ∧ 0 ≤ data' ∧ data' + length' = len key ∧
    0 ≤ length' < 4.
Proof.
  revert data length h. induction fuel as [|fuel IH]; intros data length h H0 Hd Hl Hf; cbn [murmur2_words].
  - rewrite (proj2 (Z.ltb_lt _ _)) by lia. exists data, length, h. split; [done|lia].
  - destruct (Z.ltb_spec length 4); [exists data, length, h; split; [done|lia]|].
    destruct (hash_read_inside 4 data key) as [k ->]; [lia..|]. cbn [mbind option_bind]. apply IH; lia.
Qed.

Lemma murmur2_rest_inside data length h key : 0 ≤ data → data + length = len key → 0 ≤ length < 4 →
  ∃ h', murmur2_rest data length h key = Some h'.
Proof.
  intros H0 Hd Hl. unfold murmur2_rest. assert (length = 0 ∨ length = 1 ∨ length = 2 ∨ length = 3) as Hc by lia.
  destruct Hc as [->|[->|[->| ->]]]; cbn [Z.eqb Pos.eqb orb mbind option_bind]; [by eexists|..].
  all: repeat match goal with |- context [hash_read 1 ?p ?s] =>
    destruct (hash_read_inside 1 p s) as [? ->]; [lia..|]; cbn [mbind option_bind] end; by eexists.
Qed.

Lemma hash_stripes_inside fuel p v1 v2 v3 v4 key : 0 ≤ p → p + 32 ≤ len key → len key - p < 32 * Z.of_nat fuel →
  ∃ p' w1 w2 w3 w4, hash_stripes fuel p v1 v2 v3 v4 key (len key) = Some (p', w1, w2, w3, w4) ∧ p < p' ≤ len key.
Proof.
  revert p v1 v2 v3 v4. induction fuel as [|fuel IH]; intros p v1 v2 v3 v4 H0 Hp Hf; cbn [hash_stripes]; [lia|].
  destruct (hash_read_inside 8 p key) as [k1 ->]; [lia..|]. destruct (hash_read_inside 8 (p + 8) key) as [k2 ->]; [lia..|].
  destruct (hash_read_inside 8 (p + 16) key) as [k3 ->]; [lia..|]. destruct (hash_read_inside 8 (p + 24) key) as [k4 ->]; [lia..|].
  cbn [mbind option_bind]. cbv zeta. destruct (Z.leb_spec (p + 32) (len key - 32)).
  - destruct (IH (p + 32) (hash_round v1 k1) (hash_round v2 k2) (hash_round v3 k3) (hash_round v4 k4))
      as (p' & w1 & w2 & w3 & w4 & E & Hp'); [lia..|]. exists p', w1, w2, w3, w4. split; [done|lia].
  - exists (p + 32). do 4 eexists. split; [reflexivity|lia].
Qed.

Lemma hash_words_inside fuel p hash key : 0 ≤ p ≤ len key → len key - p < 8 * Z.of_nat fuel + 8 →
  ∃ p' hash', hash_words fuel p hash key (len key) = Some (p', hash') ∧ p ≤ p' ≤ len key ∧ len key < p' + 8.
Proof.
  revert p hash. induction fuel as [|fuel IH]; intros p hash Hp Hf; cbn [hash_words].
  - rewrite (proj2 (Z.ltb_lt _ _)) by lia. exists p, hash. split; [done|lia].
  - destruct (Z.ltb_spec (len key) (p + 8)); [exists p, hash; split; [done|lia]|].
    destruct (hash_read_inside 8 p key) as [k ->]; [lia..|]. cbn [mbind option_bind]. cbv zeta.
    match goal with |- context [hash_words fuel _ ?h _ _] => destruct (IH (p + 8) h) as (p' & h' & E & ?); [lia..|] end.
    exists p', h'. split; [done|lia].
Qed.

Lemma hash_bytes_inside fuel p hash key : 0 ≤ p → len key - p ≤ Z.of_nat fuel → ∃ hash', hash_bytes fuel p hash key (len key) = Some hash'.
Proof.
  revert p hash. induction fuel as [|fuel IH]; intros p hash Hp Hf; cbn [hash_bytes].
  - rewrite (proj2 (Z.leb_le _ _)) by lia. by eexists.
  - destruct (Z.leb_spec (len key) p); [by eexists|].
    destruct (hash_read_inside 1 p key) as [b ->]; [lia..|]. cbn [mbind option_bind]. apply IH; lia.
Qed.

(** The hashes end and stay inside the key, whatever its length and the seed, and give a word
    of 32 and of 64 bits. *)
Theorem hashes_inside key seed align :
  (∃ v, murmur2 key (len key) seed = Some v ∧ fits 32 v) ∧ (∃ v, hash_compute key (len key) seed align = Some v ∧ fits 64 v).
Proof.
  split.
  - unfold murmur2. destruct (murmur2_words_inside (S (Z.to_nat (len key / 4))) 0 (len key) (u32 (Z.lxor seed (len key))) key)
      as (data & rest & h & -> & H0 & Hd & Hl); [lia..| |].
    { pose proof (Z.div_mod (len key) 4 ltac:(lia)). pose proof (Z.mod_pos_bound (len key) 4 ltac:(lia)).
      pose proof (Z.div_pos (len key) 4). lia. }
    cbn [mbind option_bind]. destruct (murmur2_rest_inside data rest h key H0 Hd Hl) as [h' ->]. cbn [mbind option_bind]. cbv zeta.
    eexists. split; [reflexivity|]. apply fits_fold; [lia..|]. apply wrap_fits. lia.
  - unfold hash_compute.
    assert (∃ p hash, hash_head key (len key) seed = Some (p, hash) ∧ 0 ≤ p ≤ len key) as (p & hash & -> & Hp).
    { unfold hash_head. destruct (Z.leb_spec 32 (len key)); [|do 2 eexists; split; [reflexivity|lia]].
      destruct (hash_stripes_inside (S (Z.to_nat (len key / 32))) 0 (u64 (seed + NUMBER64_1 + NUMBER64_2)) (u64 (seed + NUMBER64_2))
        (u64 seed) (u64 (seed - NUMBER64_1)) key) as (p & w1 & w2 & w3 & w4 & E & Hp); [lia|lia| |].
      { pose proof (Z.div_mod (len key) 32 ltac:(lia)). pose proof (Z.mod_pos_bound (len key) 32 ltac:(lia)).
        pose proof (Z.div_pos (len key) 32). lia. }
      rewrite E. cbn [mbind option_bind]. cbv zeta. do 2 eexists. split; [reflexivity|lia]. }
    cbn [mbind option_bind].
    destruct (hash_words_inside (Z.to_nat (len key)) p (u64 (hash + len key)) key Hp) as (p1 & hash1 & -> & Hp1 & _); [lia|].
    cbn [mbind option_bind].
    assert (∃ p2 hash2, (if p1 + 4 <=? len key then
      k ← hash_read 4 p1 key; Some (p1 + 4, u64 (shifting_hash (Z.lxor hash1 (u64 (k * NUMBER64_1))) 23 * NUMBER64_2 + NUMBER64_3))
      else Some (p1, hash1)) = Some (p2, hash2) ∧ 0 ≤ p2 ≤ len key) as (p2 & hash2 & -> & Hp2).
    { destruct (Z.leb_spec (p1 + 4) (len key)); [|do 2 eexists; split; [reflexivity|lia]].
      destruct (hash_read_inside 4 p1 key) as [k ->]; [lia..|]. cbn [mbind option_bind]. do 2 eexists. split; [reflexivity|lia]. }
    cbn [mbind option_bind].
    destruct (hash_bytes_inside (Z.to_nat (len key)) p2 hash2 key) as [hash3 ->]; [lia..|]. cbn [mbind option_bind].
    eexists. split; [reflexivity|]. apply fits_fold; [lia..|]. apply wrap_fits. lia.
Qed.
End hash.

(** ** [FastRandom.h]: the generator of [drand48], with a state of 48 bits *)
Definition fast_random_mask : Z := Z.ones 48.
Definition set_seed0 (seed : Z) : Z := Z.land (Z.lxor seed 25214903917) fast_random_mask.
(** The number and the new seed. *)
Definition fast_next (bits seed : Z) : Z * Z :=
  let seed := Z.land (wrap 64 (seed * 25214903917 + 11)) fast_random_mask in (Z.shiftr seed (48 - bits), seed).
Definition next_u32 (seed : Z) : Z * Z := fast_next 32 seed.
Definition next_u16 (seed : Z) : Z * Z := let '(v, seed) := fast_next 16 seed in (wrap 16 v, seed).
(** [next()]: the order of the two calls is the compiler's; here the left one is first. *)
Definition next_u64 (seed : Z) : Z * Z :=
  let '(a, seed) := fast_next 32 seed in let '(b, seed) := fast_next 32 seed in (wrap 64 (wrap 64 (Z.shiftl a 32) + b), seed).
(** A [char] is signed. *)
Definition to_char (v : Z) : Z := wrap 8 (v + 128) - 128.
Definition next_char (seed : Z) : Z * Z := let '(v, seed) := fast_next 8 seed in (to_char (v mod 256), seed).
(** "0" .. "9", "@", "A" .. "Z", "_", "a" .. "z", and the end of the string *)
Definition readables : list Z := seqZ 48 10 ++ [64] ++ seqZ 65 26 ++ [95] ++ seqZ 97 26 ++ [0].
Definition next_readable_char (seed : Z) : option (Z * Z) :=
  let '(v, seed) := fast_next 6 seed in c ← arr_get readables v; Some (c, seed).
Fixpoint next_string (n : nat) (seed : Z) : list Z * Z :=
  match n with O => ([], seed) | S n => let '(c, seed) := next_char seed in let '(s, seed) := next_string n seed in (c :: s, seed) end.
Fixpoint next_readable_string (n : nat) (seed : Z) : option (list Z * Z) :=
  match n with
  | O => Some ([], seed)
  | S n => '(c, seed) ← next_readable_char seed; '(s, seed) ← next_readable_string n seed; Some (c :: s, seed)
  end.

Lemma fast_next_range bits seed : 0 ≤ bits ≤ 48 → fits bits (fast_next bits seed).1 ∧ fits 48 (fast_next bits seed).2.
Proof.
  intros Hb. unfold fast_next. cbn [fst snd]. unfold fast_random_mask. rewrite Z.land_ones by lia.
  pose proof (Z.mod_pos_bound (wrap 64 (seed * 25214903917 + 11)) (2 ^ 48) ltac:(done)) as Hm. split; [|exact Hm].
  rewrite Z.shiftr_div_pow2 by lia. pose proof (Z.pow_pos_nonneg 2 (48 - bits)). split; [apply Z.div_pos; lia|].
  apply Z.div_lt_upper_bound; [lia|]. rewrite <-Z.pow_add_r by lia. replace (48 - bits + bits) with 48 by lia. lia.
Qed.

(** A readable string is made, of readable characters, without a read outside the table. *)
Theorem readable_string n seed : ∃ s seed', next_readable_string n seed = Some (s, seed') ∧ length s = n ∧
  Forall (λ c, c ∈ take 64 readables) s.
Proof.
  revert seed. induction n as [|n IH]; intros seed; cbn [next_readable_string]; [by exists [], seed|].
  unfold next_readable_char. pose proof (fast_next_range 6 seed ltac:(lia)) as [Hv _].
  destruct (fast_next 6 seed) as [v seed1]. cbn [fst] in Hv. unfold fits in Hv. change (2 ^ 6) with 64 in Hv.
  destruct (arr_get_Some readables v) as [c E]; [change (len readables) with 65; lia|]. rewrite E. cbn [mbind option_bind].
  destruct (IH seed1) as (s & seed2 & -> & Hl & F). cbn [mbind option_bind]. exists (c :: s), seed2. split; [done|].
  split; [cbn; by f_equal|]. apply Forall_cons_2; [|exact F]. unfold arr_get in E. destruct (v <? 0); [done|].
  apply (list_elem_of_lookup_2 _ (Z.to_nat v)). rewrite lookup_take_lt by lia. exact E.
Qed.

(** ** [gen_21bit_pseudo_random_num]: a shift register of 21 bits; the state is the result *)
Definition gen_21bit_pseudo_random_num (lfsr : Z) : Z :=
  let lsb := Z.land lfsr 1 in
  let lfsr := Z.shiftr lfsr 1 in
  if lsb =? 1 then Z.lxor lfsr (Z.lor (Z.shiftl 1 20) (Z.shiftl 1 18)) else lfsr.

(** It stays within 21 bits and never reaches 0, where it would stay. *)
Theorem lfsr_alive lfsr : 0 < lfsr → fits 21 lfsr → 0 < gen_21bit_pseudo_random_num lfsr ∧ fits 21 (gen_21bit_pseudo_random_num lfsr).
Proof.
  intros H0 [_ H1]. change (2 ^ 21) with 2097152 in H1. unfold gen_21bit_pseudo_random_num. cbv zeta.
  assert (Z.land lfsr 1 = lfsr mod 2) as -> by (change 1 with (Z.ones 1); by rewrite Z.land_ones by lia).
  assert (Z.shiftr lfsr 1 = lfsr / 2) as -> by (by rewrite Z.shiftr_div_pow2 by lia).
  pose proof (Z.div_mod lfsr 2 ltac:(lia)). pose proof (Z.mod_pos_bound lfsr 2 ltac:(lia)).
  assert (fits 21 (lfsr / 2)) as Hf by (split; [lia|change (2 ^ 21) with 2097152; lia]).
  destruct (Z.eqb_spec (lfsr mod 2) 1); [|split; [lia|exact Hf]].
  change (Z.lor (Z.shiftl 1 20) (Z.shiftl 1 18)) with 1310720.
  pose proof (fits_lxor 21 (lfsr / 2) 1310720 ltac:(lia) Hf ltac:(done)) as Hx. split; [|exact Hx].
  destruct (Z.eq_dec (Z.lxor (lfsr / 2) 1310720) 0) as [E|?]; [|destruct Hx; lia]. apply Z.lxor_eq in E. lia.
Qed.
Example lfsr_first : gen_21bit_pseudo_random_num 1 = 1310720.
Proof. reflexivity. Qed.
